(* ===== verification/_CoqProject ===== *)
-Q . S2P
Prelude.v
Types.v
Millicode.v
Qdivrem.v
Strings.v
Bitmap.v
Array.v
Bswap.v
Machine.v
Vmstats.v
Tlb.v
Swapfile.v
Segment.v
Pagetable.v
Coremap.v
VmInv.v
Vm.v
Boot.v
Layout.v
Fault.v
User.v
Loadelf.v
Exec.v
Demo.v
Paging.v
Release.v
Menu.v
Threadlist.v
Thread.v
Spinlock.v
Frame.v
Synch.v
Proc.v
Copyinout.v
Syscall.v
Kmalloc.v
Kheap.v
Kruns.v
Printf.v
Uio.v
Console.v
ConsoleIn.v
ConIo.v
Sfs.v
Disk.v
SfsFile.v
SfsIo.v
SfsVol.v
SfsTrunc.v
SfsDir.v
SfsNode.v
SfsInv.v
SfsNames.v
SfsOps.v
SfsCalls.v
SfsMount.v
SfsDemo.v
Semfs.v
SemfsInv.v
SemfsCalls.v
SemfsDemo.v
Vfs.v
VfsRefs.v
VfsDevs.v
VfsFs.v
VfsDemo.v
Emu.v
EmuFs.v
EmuCalls.v
Lamebus.v
LbAttach.v
LbIrq.v
LbCpus.v
LbDemo.v
Ipi.v
Clock.v
Devs.v
Lhd.v
