(* ===== verification/Prelude.v ===== *)
(** * A verification of the OS/161 kernel with demand paging

    The program is the OS/161 teaching kernel (os161-base-2.0.3) for MIPS, whose virtual
    memory system is rewritten for demand paging with a swap file.  File names
    below are relative to src/os161-base-2.0.3.  The configuration is
    kern/conf/DEMANDVM: demand paging, swap (read-only pages are not written), statistics, system calls
    and waitpid are on; dumbvm, hangman and net are off; assertions are checked.

    ** The parts and how they fit

    User code runs on the TLB.  A miss enters [mips_trap], which calls
    [vm_fault]; this finds the page-table entry of the address through the segments of
    the address space, asks the coremap for a frame, evicts another page to
    the swap file if there is none, reads the page from the executable or from the swap
    file, and writes the TLB.  [runprogram] and [load_elf] set up the address
    space of a new program from the headers of its executable only, [sys__exit] ends the program and [proc_wait]
    collects its status.  Kernel code allocates from the heap of kmalloc.c, which
    takes pages from the same coremap.  Below all this are the threads and their
    scheduler, spinlocks, wait channels and semaphores; beside it, the library of strings, 64-bit arithmetic,
    bit maps, formatted output and the menu that reads commands.  The file system SFS keeps files and one
    directory on a disk; the virtual file system finds files by path names, over a table of devices and the
    volumes mounted on them.  emufs gives access to files of the host through a device.  The console sits on a serial line, whose interrupts
    feed it; [mips_trap] passes system calls to [syscall].  Devices are found on the bus at boot, and an interrupt goes from the trap through
    [mainbus_interrupt] to the bus, to other processors' requests or to the clock.

    ** Files

    Shared: this file has the outcomes of kernel code ([Ret], [Panic], [Exit], [Diverge]), the
    monad [K] over them with its weakest precondition [wp], loops,
    machine words ([wrap]) and arrays; Types.v has constants and macros.

    Library routines
    - Millicode.v, Qdivrem.v: common/gcc-millicode;
    - Strings.v: common/libc/string and atoi;
    - Bitmap.v: kern/lib/bitmap.c;
    - Menu.v: kern/lib/kgets.c and the dispatch of commands of kern/main/menu.c;
    - Printf.v: common/libc/printf;
    - Uio.v: kern/lib/uio.c;
    - Array.v: kern/lib/array.c; Bswap.v: kern/lib/bswap.c and kern/lib/time.c.

    Virtual memory
    - Machine.v: the state [kstate] (static variables of kern/vm, page tables, address
      spaces, processes, physical memory, TLB) and the interface [VnodeOps] of files with its
      laws [VnodeLaws];
    - Vmstats.v, Tlb.v, Swapfile.v, Segment.v, Pagetable.v, Coremap.v: the files of
      kern/vm with these names, one definition for each function;
    - Vm.v: vm.c, addrspace.c, pt_empty, load_page, sys__exit, mips_trap; Loadelf.v:
      load_elf and runprogram;
    - VmInv.v: the invariant [vm_inv] of the memory manager and the contents of pages; Boot.v:
      it holds after boot; Layout.v, Fault.v: address spaces and the fault
      handler; User.v: loads and stores of user code; Exec.v: a program that
      starts; Demo.v: a concrete machine; Paging.v and Release.v: the theorems;
    - Copyinout.v: kern/vm/copyinout.c;
    - Kmalloc.v, Kheap.v, Kruns.v: kern/vm/kmalloc.c, its invariant and its runs.

    Threads and processes
    - Threadlist.v: threadlist.c on linked nodes; Thread.v: thread.c on several processors;
      Spinlock.v: spl.c and spinlock.c, one step for each access to shared memory;
    - Frame.v: what steps of other processors leave alone; Synch.v: the semaphores of
      synch.c; Proc.v: kern/proc/proc.c and the wait for a program;
    - Syscall.v: the dispatcher of system calls with write, read, __time and reboot;
    - Ipi.v: interrupts between processors and mainbus_interrupt; Clock.v: clock.c, ltimer.c and rtclock.c.

    Devices
    - Console.v, ConsoleIn.v: kern/dev/generic/console.c and kern/dev/lamebus/lser.c, one step for each critical section, output and input;
      ConIo.v: reading and writing con:, and its configuration;
    - Lamebus.v: kern/dev/lamebus/lamebus.c, the attach functions and autoconf.c; LbAttach.v: probing and configuration; LbIrq.v: the dispatch of
      interrupts; LbCpus.v: processors; LbDemo.v: a machine;
    - Emu.v: kern/dev/lamebus/emu.c; EmuFs.v: what the driver does with the device; EmuCalls.v: the vnodes and handles of emufs, the theorems and a host;
    - Lhd.v: kern/dev/lamebus/lhd.c with its threads, device and interrupt handler;
    - Devs.v: the null device, random numbers, the beeper and the trace control.

    File system
    - Sfs.v: kern/fs/sfs (balloc, bmap, io, dir) and lhd_io of kern/dev/lamebus/lhd.c, over what the device
      does with one sector; Disk.v: the interface [DiskLaws] of the device, transfers and allocation of blocks;
    - SfsFile.v: a file as blocks and bytes, its invariant [file_wf], and sfs_bmap; SfsIo.v, SfsVol.v: sfs_io, for one file and among
      the files of a volume; SfsTrunc.v: sfs_itrunc; SfsDir.v: directories;
    - SfsNode.v: sfs_inode.c, sfs_vnops.c and sfs_fsops.c, with the table of vnodes and their reference counts; SfsInv.v: the
      invariant [files_ok] of the inodes in memory and on the disk; SfsNames.v: names, link counts and the invariant
      [fs_wf] of a mounted file system; SfsOps.v, SfsCalls.v: the operations on vnodes; SfsMount.v: sync and mount; SfsDemo.v: a volume on a
      disk that fails every other read;
    - Semfs.v: kern/fs/semfs, the file system of semaphores; SemfsInv.v: its invariant [semfs_ok]; SemfsCalls.v: the abstract machine
      [sem_step] and that the code implements it; SemfsDemo.v: an instance;
    - Vfs.v: vfslist.c, vfslookup.c, vfspath.c and vfscwd.c of kern/vfs, over the functions [VfsOps] of vnodes and file systems;
      VfsRefs.v: the interface [VfsLaws] and the references to vnodes; VfsDevs.v: the names of devices; VfsFs.v: SFS, semfs and device.c
      implement the interface; VfsDemo.v: a session.

    ** How code becomes definitions

    A C function is a definition with its name.  Sequential code is in the monad [K], or returns an [option]
    whose [None] is a failed assertion, a bad access or a null
    pointer followed.  Machine integers are [Z], wrapped where the code can wrap.
    Structures are records; pointers are addresses or indices into a store, so that sharing is kept.
    Code that runs on several processors is a step function whose steps are the critical
    sections (in Spinlock.v single accesses), and theorems are about every interleaving.

    What is not in the source is a parameter: files ([VnodeOps], with [ramfile] as an instance), the
    commands of the menu, the pages [alloc_kpages] gives to the heap, the executable, the sectors of the disk
    ([hw_read], [hw_write], with [flaky_disk] as an instance), the serial device and its line ([SerialLaws]), the time that the clock gives ([now]), the
    operations of the emulator's device ([EmuOps], [EmuLaws], with [host] as an instance), the registers of the bus ([BusOps], [BusLaws], with
    maps of registers as an instance), what the hardware does at physical addresses behind the memory ([IoOps]), and the interrupt and config functions that the bus calls.

    Loops over ranges are structural.  Fuel is used for scans to a terminator
    (one unit for each character up to it), for the loops of division (the number
    of digits), for bit maps and the scan of the coremap (their lengths), for the search for
    a victim frame (one round of the coremap), for transfers (one unit for each byte still to move), for the loops of
    autoconf.c (33, as each turn takes one of 32 slots), and for an access of user memory
    that is tried again after a fault.  The theorems give a sufficient fuel, or hold for any
    fuel above one, and then show the result itself.

    ** What the theorems show

    - Paging.v: a program that [runprogram] starts behaves, load by load and store by store, as on a flat memory
      with its executable in it (refinement); [vm_fault] keeps the
      invariant; processes cannot see each other's pages; text cannot be written; an access outside
      the segments ends the process.  The outcomes left open are the panics of the code for a full
      swap file, no frame to evict, and errors of files.
    - Release.v: what is freed is free again, and nothing else is.
    - Copyinout.v: the copies between kernel and user memory are exact, and their errors.
    - Thread.v, Threadlist.v, Spinlock.v, Synch.v, Proc.v: a thread is in one place; lists
      are lists; interrupts follow their level; spinlocks exclude; semaphores
      count and lose no wake-up; waiting returns the exit status.
    - Kruns.v: for all interleavings of calls, blocks of the heap never overlap, keep their contents, and no assertion
      fails, as long as the calls under way and the slots lost to failed calls stay below 256.
    - SfsVol.v, SfsTrunc.v: a file is an array of bytes under reads and writes of any offset and length, truncation
      gives back the blocks it should (and one block less, see below).
    - SfsCalls.v, SfsMount.v: creating, linking, removing and renaming act on the finite map of names, link counts are the numbers of
      names, a file goes with its last name and its last reference and its blocks are free then; every error leaves names and
      files as they were; what was synchronised is there after mounting again.  What an operation is not about stays as it is.
    - VfsRefs.v, VfsDevs.v: every operation by path name returns and neither loses nor leaks a reference to a vnode, for any file system that keeps the
      promises [VfsLaws], as SFS, devices, and semfs while it has memory for directory entries, do; a device is found by the names it was added with.
    - SemfsCalls.v: semfs is a map of names to semaphores, which live until their last name and reference are gone; a read ends in the
      first round of its loop at which the count and what other threads posted are enough.
    - Lhd.v: the interleaved steps of the disk driver are the single actions on sectors that the file system is over, and there is no deadlock.
    - EmuCalls.v: emufs has one vnode for each open handle, never gives the device a handle that is not open, and closes it with the last reference;
      reads and writes move the bytes of the host's file.
    - ConsoleIn.v, ConIo.v: no character is lost on the way to the device, however threads and interrupts interleave; the input ring is a queue
      of at most 31 characters for one reader.
    - Syscall.v: system calls move exactly the bytes of the process's memory, with their errors, and what happens to pointers into the kernel.
    - LbAttach.v, LbIrq.v, LbCpus.v: a slot is attached at most once and, if nothing fails, every device with a driver is, with its unit in the order of the slots; an interrupt runs the
      functions of exactly the slots that ask for it when their turn comes, and 10001 interrupts that nobody can serve are a panic; processors start with the numbers of their structures.
    - Ipi.v, Clock.v: interrupts between processors arrive unless they are sent in a window of the handler; [hardclock] keeps the invariant of the
      scheduler, and a ready thread runs after those before it or is moved to another processor; [clocksleep] waits for its number of ticks; the time of day is exact.
    - Array.v, Bswap.v, Devs.v, Strings.v, Menu.v, Printf.v, Millicode.v, Qdivrem.v: the routines compute what they should within
      their buffers, for all arguments (arrays: for sizes up to 2^29).

    Some theorems show what the code does where it means something else: [failed_program_blocks_wait],
    [lost_slots_end_in_panic], [huge_request_wraps], [left_zeros], [failed_write_reported_done], [setbootfs_refuses_colon],
    [volume_hides_device], [creat_reports_success], [removed_entry_crashes], [kernel_memory_exposed], [setsize_wraps], [preallocate_never_returns],
    [bswap64_correct_iff], [two_readers_lose], [loadvnode_keeps_lock], [ipi_lost], [open_without_vnode], [upper_hex_unknown], and the block that [sfs_itrunc_cuts] says is kept ([truncated_block_returns]).

    ** Not modelled

    A few functions of the VFS (the name of the current directory, the name of a device) and of the small devices are left out: they
    return constants or store one number in a register.  The screen, boot and
    assembly depend on hardware that the source does not define; Machine.v
    states what the TLB instructions do.  Locks and condition variables are
    stubs in this source.  Hangman and dumbvm are compiled out; the tests in kern/test and the user
    programs are clients.  The VM system is modelled as one processor runs it,
    with interrupts at its level: races of two processors inside the coremap are
    not covered. *)

From stdpp Require Import base gmap list strings fin_maps.
From Stdlib Require Import ZArith Lia.

Open Scope Z_scope.

(** ** Outcomes of kernel code

    A kernel routine either returns a value with a new state, stops the
    machine ([panic] or a failed [KASSERT]), ends the calling thread
    ([thread_exit], which never returns) or loops for ever.  [Diverge] is what
    a loop run with fuel gives when the fuel is exhausted. *)
Inductive outcome (S A : Type) : Type :=
| Ret (a : A) (s : S)
| Panic (why : string)
| Exit (code : Z) (s : S)
| Diverge.
Arguments Ret {S A} _ _.
Arguments Panic {S A} _.
Arguments Exit {S A} _ _.
Arguments Diverge {S A}.

(** The state-and-outcome monad in which the kernel routines are written. *)
Definition K (S A : Type) : Type := S → outcome S A.

#[global] Instance K_ret {S} : MRet (K S) := λ A a s, Ret a s.
#[global] Instance K_bind {S} : MBind (K S) := λ A B f m s,
  match m s with
  | Ret a s' => f a s'
  | Panic w => Panic w
  | Exit c s' => Exit c s'
  | Diverge => Diverge
  end.

Definition panic {S A} (w : string) : K S A := λ _, Panic w.
Definition gets {S A} (f : S → A) : K S A := λ s, Ret (f s) s.
Definition modify {S} (f : S → S) : K S unit := λ s, Ret tt (f s).
Definition diverge {S A} : K S A := λ _, Diverge.

(** [KASSERT (b) what]: [what] is the text of the asserted expression. *)
Definition KASSERT {S} (b : bool) (what : string) : K S unit :=
  if b then mret tt else panic what.

(** A C pointer read: a null pointer stops the kernel. *)
Definition deref {S A} (o : option A) : K S A :=
  match o with Some a => mret a | None => panic "null dereference" end.

(** [for (i = 0; i < n; i++) body], and the general iteration it is built on. *)
Fixpoint for_each {S A} (l : list A) (body : A → K S unit) : K S unit :=
  match l with
  | [] => mret tt
  | a :: l' => body a ;; for_each l' body
  end.

(** ** Weakest preconditions

    [wp m Q E s]: started in [s], the routine [m] terminates; if it returns,
    [Q] holds of the value and the final state, and if it panics, [E] holds of
    the reason.  A routine that ends its thread does not satisfy any [wp]. *)
Definition wp {S A} (m : K S A) (Q : A → S → Prop) (E : string → Prop) (s : S)
  : Prop :=
  match m s with
  | Ret a s' => Q a s'
  | Panic w => E w
  | Exit _ _ => False
  | Diverge => False
  end.

(** ** Machine integers *)
Definition wrap (w x : Z) : Z := x mod 2 ^ w.
Abbreviation u8 := (wrap 8).
Abbreviation u32 := (wrap 32).
Abbreviation u64 := (wrap 64).

(** The two's complement reading of a [w]-bit pattern. *)
Definition swrap (w x : Z) : Z := (x + 2 ^ (w - 1)) mod 2 ^ w - 2 ^ (w - 1).
Abbreviation i32 := (swrap 32).
Abbreviation i64 := (swrap 64).

(** The length of an array, as a C integer. *)
Abbreviation zlen l := (Z.of_nat (length l)).

(** Array access with a C integer subscript; [None] is out of bounds. *)
Definition arr_get {A} (l : list A) (i : Z) : option A :=
  if 0 <=? i then l !! Z.to_nat i else None.
Definition arr_set {A} (l : list A) (i : Z) (a : A) : list A :=
  if 0 <=? i then <[Z.to_nat i := a]> l else l.

(** Reading an array element, which must be in bounds. *)
Definition index {S A} (l : list A) (i : Z) : K S A :=
  match arr_get l i with Some a => mret a | None => panic "out of bounds" end.

(** ** Proof automation *)
Create HintDb krn discriminated.
#[global] Hint Constants Opaque : krn.

Ltac bdestruct b :=
  let E := fresh "E" in destruct b eqn:E;
  rewrite ?Z.ltb_lt, ?Z.ltb_ge, ?Z.leb_le, ?Z.leb_gt, ?Z.eqb_eq, ?Z.eqb_neq in E.

Ltac zbool :=
  repeat match goal with
  | H : (_ <? _) = true |- _ => apply Z.ltb_lt in H
  | H : (_ <? _) = false |- _ => apply Z.ltb_ge in H
  | H : (_ <=? _) = true |- _ => apply Z.leb_le in H
  | H : (_ <=? _) = false |- _ => apply Z.leb_gt in H
  | H : (_ =? _) = true |- _ => apply Z.eqb_eq in H
  | H : (_ =? _) = false |- _ => apply Z.eqb_neq in H
  | H : (_ && _)%bool = true |- _ => apply andb_prop in H; destruct H
  | H : (_ || _)%bool = false |- _ => apply orb_false_iff in H; destruct H
  | H : negb _ = true |- _ => apply negb_true_iff in H
  | H : negb _ = false |- _ => apply negb_false_iff in H
  end.

(** Case analysis on the boolean tests of the goal. *)
Ltac zcases :=
  repeat match goal with
  | |- context [ (?a <? ?b) ] => destruct (Z.ltb_spec a b)
  | |- context [ (?a <=? ?b) ] => destruct (Z.leb_spec a b)
  | |- context [ (?a =? ?b) ] => destruct (Z.eqb_spec a b)
  end; cbn [andb orb negb].

Section wp_rules.
Context {S A B : Type}.
Implicit Types (m : K S A) (f : A → K S B) (E : string → Prop).

Lemma run_bind m f s :
  mbind f m s = match m s with
                | Ret a s' => f a s'
                | Panic w => Panic w
                | Exit c s' => Exit c s'
                | Diverge => Diverge
                end.
Proof. reflexivity. Qed.

Lemma run_bind_ret m f s a s' : m s = Ret a s' → mbind f m s = f a s'.
Proof. intros H. by rewrite run_bind, H. Qed.

Lemma run_mret f (a : A) s : mbind f (mret a) s = f a s.
Proof. reflexivity. Qed.

Lemma run_gets f (g : S → A) s : mbind f (gets g) s = f (g s) s.
Proof. reflexivity. Qed.

Lemma run_assoc {C} (g : B → K S C) f m s :
  mbind g (mbind f m) s = mbind (λ a, mbind g (f a)) m s.
Proof. unfold mbind, K_bind. by destruct (m s). Qed.

Lemma run_panic f w s : mbind f (panic w) s = Panic w.
Proof. reflexivity. Qed.

Lemma run_deref f (o : option A) a s : o = Some a → mbind f (deref o) s = f a s.
Proof. by intros ->. Qed.

Lemma wp_bind m f Q E s :
  wp m (λ a s', wp (f a) Q E s') E s → wp (mbind f m) Q E s.
Proof. unfold wp. rewrite run_bind. by destruct (m s). Qed.

Lemma wp_eq m Q E s a s' : m s = Ret a s' → Q a s' → wp m Q E s.
Proof. unfold wp. by intros ->. Qed.

(** Replaces a routine by what it does next. *)
Lemma wp_run m m' Q E s s' : m s = m' s' → wp m' Q E s' → wp m Q E s.
Proof. unfold wp. by intros ->. Qed.

Lemma wp_eq_inv m Q E s a s' : m s = Ret a s' → wp m Q E s → Q a s'.
Proof. unfold wp. by intros ->. Qed.

Lemma wp_mono m (Q Q' : A → S → Prop) (E E' : string → Prop) s :
  (∀ a s', Q a s' → Q' a s') → (∀ w, E w → E' w) →
  wp m Q E s → wp m Q' E' s.
Proof. unfold wp. intros HQ HE. destruct (m s); naive_solver. Qed.

Lemma wp_ret a (Q : A → S → Prop) E s : Q a s → wp (mret a) Q E s.
Proof. done. Qed.

Lemma wp_panic w (Q : A → S → Prop) E s : E w → wp (panic w) Q E s.
Proof. done. Qed.

Lemma wp_gets (g : S → A) (Q : A → S → Prop) E s :
  Q (g s) s → wp (gets g) Q E s.
Proof. done. Qed.

Lemma wp_deref (o : option A) a (Q : A → S → Prop) E s :
  o = Some a → Q a s → wp (deref o) Q E s.
Proof. by intros ->. Qed.

End wp_rules.

Lemma wp_modify {S} (g : S → S) (Q : unit → S → Prop) E s :
  Q tt (g s) → wp (modify g) Q E s.
Proof. done. Qed.

Lemma wp_KASSERT {S} b w (Q : unit → S → Prop) E s :
  b = true → Q tt s → wp (KASSERT b w) Q E s.
Proof. by intros ->. Qed.

Lemma run_modify {S B} (g : S → S) (f : unit → K S B) (s : S) :
  mbind f (modify g) s = f tt (g s).
Proof. reflexivity. Qed.

Lemma run_assert {S B} b w (f : unit → K S B) (s : S) :
  b = true → mbind f (KASSERT b w) s = f tt s.
Proof. by intros ->. Qed.

(** The loop rule: an invariant indexed by the part of the list still to run. *)
Lemma wp_for_each {S A} (I : list A → S → Prop) (E : string → Prop) body l s
  (Q : unit → S → Prop) :
  I l s →
  (∀ a l' s', I (a :: l') s' → wp (body a) (λ _, I l') E s') →
  (∀ s', I [] s' → Q tt s') →
  wp (for_each l body) Q E s.
Proof.
  intros HI Hbody HQ. revert s HI.
  induction l as [|a l IH]; intros s HI; cbn [for_each].
  - apply wp_ret, HQ, HI.
  - apply wp_bind. eapply wp_mono; [|done|by apply Hbody].
    intros [] s' HI'. by apply IH.
Qed.

(** One step of symbolic execution of the head of a sequence. *)
Ltac wp_step :=
  lazymatch goal with
  | |- wp (mbind _ _) _ _ _ => apply wp_bind
  | |- wp (mret _) _ _ _ => apply wp_ret
  | |- wp (gets _) _ _ _ => apply wp_gets
  | |- wp (modify _) _ _ _ => apply wp_modify
  | |- wp (KASSERT _ _) _ _ _ => apply wp_KASSERT
  | |- wp (panic _) _ _ _ => apply wp_panic
  end.

(** Runs the leading statements whose effect is immediate. *)
Ltac krun :=
  repeat first
    [ rewrite run_assoc | rewrite run_mret | rewrite run_gets
    | rewrite run_modify | rewrite run_panic ].

(** ** Arrays *)
Section arrays.
Context {A : Type}.
Implicit Types (l : list A) (a : A).

Lemma arr_get_nonneg l i : 0 ≤ i → arr_get l i = l !! Z.to_nat i.
Proof. intros. unfold arr_get. by rewrite (proj2 (Z.leb_le 0 i)). Qed.

Lemma arr_get_Some l i a :
  arr_get l i = Some a ↔ 0 ≤ i ∧ l !! Z.to_nat i = Some a.
Proof.
  unfold arr_get. destruct (Z.leb_spec 0 i) as [Hi|Hi]; split; intros Ha;
    [done|by destruct Ha|done|destruct Ha; lia].
Qed.

Lemma arr_get_range l i a : arr_get l i = Some a → 0 ≤ i < zlen l.
Proof.
  intros [? H]%arr_get_Some. apply lookup_lt_Some in H. lia.
Qed.

Lemma arr_get_ex l i : 0 ≤ i < zlen l → ∃ a, arr_get l i = Some a.
Proof.
  intros Hi. rewrite arr_get_nonneg by lia.
  apply lookup_lt_is_Some_2. lia.
Qed.

Lemma arr_get_hd l a : arr_get (a :: l) 0 = Some a.
Proof. done. Qed.

Lemma arr_get_tl l a i : 0 < i → arr_get (a :: l) i = arr_get l (i - 1).
Proof.
  intros Hi. rewrite !arr_get_nonneg by lia.
  by replace (Z.to_nat i) with (S (Z.to_nat (i - 1))) by lia.
Qed.

Lemma arr_get_neg l i : i < 0 → arr_get l i = None.
Proof. intros. unfold arr_get. by rewrite (proj2 (Z.leb_gt 0 i)). Qed.

Lemma length_arr_set l i a : length (arr_set l i a) = length l.
Proof. unfold arr_set. destruct (0 <=? i); [apply length_insert|done]. Qed.

Lemma arr_get_set l i j a :
  0 ≤ i < zlen l →
  arr_get (arr_set l i a) j = if decide (i = j) then Some a else arr_get l j.
Proof.
  intros Hi. unfold arr_get, arr_set.
  rewrite (proj2 (Z.leb_le 0 i)) by lia.
  destruct (Z.leb_spec 0 j); case_decide; try (subst; lia); subst; try done.
  - by apply list_lookup_insert_eq; lia.
  - apply list_lookup_insert_ne. lia.
Qed.

Lemma arr_get_set_eq l i a :
  0 ≤ i < zlen l → arr_get (arr_set l i a) i = Some a.
Proof. intros. rewrite arr_get_set by done. by rewrite decide_True. Qed.

Lemma arr_get_set_ne l i j a : i ≠ j → arr_get (arr_set l i a) j = arr_get l j.
Proof.
  intros Hne. unfold arr_get, arr_set.
  destruct (Z.leb_spec 0 i); [|done]. destruct (Z.leb_spec 0 j); [|done].
  apply list_lookup_insert_ne. lia.
Qed.

Lemma arr_set_id l i a : arr_get l i = Some a → arr_set l i a = l.
Proof.
  intros [? H]%arr_get_Some. unfold arr_set.
  rewrite (proj2 (Z.leb_le 0 i)) by lia. by apply list_insert_id.
Qed.

Lemma arr_set_set l i a b : arr_set (arr_set l i a) i b = arr_set l i b.
Proof.
  unfold arr_set. destruct (0 <=? i); [|done]. apply list_insert_insert_eq.
Qed.

Lemma arr_ext l1 l2 :
  (∀ i, arr_get l1 i = arr_get l2 i) → l1 = l2.
Proof.
  intros H. apply list_eq. intros n. specialize (H (Z.of_nat n)).
  rewrite !arr_get_nonneg in H by lia. by rewrite !Nat2Z.id in H.
Qed.

Lemma wp_index {S} l i a (Q : A → S → Prop) E s :
  arr_get l i = Some a → Q a s → wp (index l i) Q E s.
Proof. intros H ?. unfold index. by rewrite H. Qed.

Lemma run_index {S} l i a (s : S) :
  arr_get l i = Some a → index l i s = Ret a s.
Proof. intros H. unfold index. by rewrite H. Qed.

Lemma run_index_bind {S B} l i a (f : A → K S B) (s : S) :
  arr_get l i = Some a → mbind f (index l i) s = f a s.
Proof. intros H. unfold index. by rewrite H. Qed.

End arrays.

Create Rewrite HintDb krn_rw.
#[export] Hint Rewrite @length_arr_set : krn_rw.

(** ** Words *)
Lemma wrap_range w x : 0 ≤ w → 0 ≤ wrap w x < 2 ^ w.
Proof. intros. apply Z.mod_pos_bound, Z.pow_pos_nonneg; lia. Qed.

Lemma wrap_small w x : 0 ≤ x < 2 ^ w → wrap w x = x.
Proof. intros. by apply Z.mod_small. Qed.

Lemma wrap_wrap w x : 0 ≤ w → wrap w (wrap w x) = wrap w x.
Proof. intros. apply Z.mod_mod. pose proof (Z.pow_pos_nonneg 2 w); lia. Qed.

Lemma swrap_range w x : 0 < w → - 2 ^ (w - 1) ≤ swrap w x < 2 ^ (w - 1).
Proof.
  intros. unfold swrap.
  pose proof (Z.mod_pos_bound (x + 2 ^ (w - 1)) (2 ^ w)
    ltac:(apply Z.pow_pos_nonneg; lia)).
  assert (2 ^ w = 2 * 2 ^ (w - 1)).
  { rewrite <- Z.pow_succ_r by lia. f_equal. lia. }
  lia.
Qed.

Lemma swrap_small w x : 0 < w → - 2 ^ (w - 1) ≤ x < 2 ^ (w - 1) → swrap w x = x.
Proof.
  intros. unfold swrap.
  assert (2 ^ w = 2 * 2 ^ (w - 1)).
  { rewrite <- Z.pow_succ_r by lia. f_equal. lia. }
  rewrite Z.mod_small by lia. lia.
Qed.

(** A block of low-order zero bits and a block of high-order bits. *)
Lemma land_ones_low k x : 0 ≤ k → Z.land x (2 ^ k - 1) = x mod 2 ^ k.
Proof.
  intros. rewrite <- Z.land_ones by done. by rewrite Z.ones_equiv, Z.sub_1_r.
Qed.

Lemma land_high_mask w k x :
  0 ≤ k ≤ w → 0 ≤ x < 2 ^ w → Z.land x (2 ^ w - 2 ^ k) = x / 2 ^ k * 2 ^ k.
Proof.
  intros Hk Hx.
  replace (2 ^ w - 2 ^ k) with (Z.shiftl (Z.ones (w - k)) k).
  2:{ rewrite Z.shiftl_mul_pow2, Z.ones_equiv, <- Z.sub_1_r by lia.
      rewrite Z.mul_sub_distr_r, <- Z.pow_add_r by lia.
      replace (w - k + k) with w by lia. lia. }
  rewrite <- Z.shiftr_div_pow2, <- Z.shiftl_mul_pow2 by lia.
  apply Z.bits_inj'. intros i Hi.
  rewrite Z.land_spec, !Z.shiftl_spec by lia.
  destruct (Z.ltb_spec i k).
  { rewrite !(Z.testbit_neg_r _ (i - k)) by lia. by rewrite andb_false_r. }
  rewrite Z.shiftr_spec by lia. replace (i - k + k) with i by lia.
  destruct (Z.ltb_spec i w).
  - rewrite Z.ones_spec_low by lia. by rewrite andb_true_r.
  - rewrite Z.ones_spec_high by lia. rewrite andb_false_r.
    destruct (decide (x = 0)) as [->|]; [by rewrite Z.bits_0|].
    symmetry. apply Z.bits_above_log2; [lia|].
    apply Z.lt_le_trans with w; [|lia]. apply Z.log2_lt_pow2; lia.
Qed.

(** A one-bit mask tests, sets and clears one bit. *)
Lemma land_bit x k : 0 ≤ k → (Z.land x (2 ^ k) =? 0) = negb (Z.testbit x k).
Proof.
  intros Hk. destruct (Z.testbit x k) eqn:E; cbn [negb].
  - apply Z.eqb_neq. intros H.
    assert (Hb : Z.testbit (Z.land x (2 ^ k)) k = true).
    { rewrite Z.land_spec, E, Z.pow2_bits_true by lia. done. }
    by rewrite H, Z.bits_0 in Hb.
  - apply Z.eqb_eq, Z.bits_inj'. intros i Hi. rewrite Z.bits_0, Z.land_spec.
    destruct (decide (i = k)) as [->|]; [by rewrite E|].
    rewrite Z.pow2_bits_false by lia. apply andb_false_r.
Qed.

Lemma testbit_set x k i :
  0 ≤ k → Z.testbit (Z.lor x (2 ^ k)) i = (Z.testbit x i || (k =? i))%bool.
Proof. intros. rewrite Z.lor_spec. f_equal. rewrite Z.pow2_bits_eqb by done. done. Qed.

Lemma testbit_clear x k i :
  0 ≤ k → 0 ≤ i →
  Z.testbit (Z.land x (Z.lnot (2 ^ k))) i = (Z.testbit x i && negb (k =? i))%bool.
Proof.
  intros. rewrite Z.land_spec. f_equal.
  rewrite Z.lnot_spec, Z.pow2_bits_eqb by done. done.
Qed.

(** Bounds of the bitwise operations on bytes and words. *)
Lemma lor_range w x y :
  0 ≤ w → 0 ≤ x < 2 ^ w → 0 ≤ y < 2 ^ w → 0 ≤ Z.lor x y < 2 ^ w.
Proof.
  intros Hw Hx Hy. split; [by apply Z.lor_nonneg; lia|].
  destruct (decide (Z.lor x y = 0)) as [->|]; [by apply Z.pow_pos_nonneg; lia|].
  apply Z.log2_lt_pow2; [pose proof (Z.lor_nonneg x y); lia|].
  rewrite Z.log2_lor by lia.
  assert (∀ z, 0 ≤ z < 2 ^ w → z = 0 ∨ Z.log2 z < w) as Hl.
  { intros z Hz. destruct (decide (z = 0)); [by left|right].
    apply Z.log2_lt_pow2; lia. }
  assert (Z.lor x y ≠ 0 → 0 < w).
  { intros. destruct (decide (w = 0)) as [->|]; [|lia].
    change (2 ^ 0) with 1 in *. assert (x = 0) by lia. assert (y = 0) by lia.
    subst. done. }
  destruct (Hl x Hx) as [->|]; destruct (Hl y Hy) as [->|];
    change (Z.log2 0) with 0; lia.
Qed.

Lemma land_range w x y : 0 ≤ w → 0 ≤ x < 2 ^ w → 0 ≤ Z.land x y < 2 ^ w.
Proof.
  intros Hw Hx. assert (Hn : 0 ≤ Z.land x y) by (apply Z.land_nonneg; lia).
  split; [done|].
  rewrite <- (Z.mod_small x (2 ^ w)) by done.
  rewrite <- Z.land_ones, <- Z.land_assoc, (Z.land_comm (Z.ones w)), Z.land_assoc by done.
  rewrite Z.land_ones by done. apply Z.mod_pos_bound. lia.
Qed.

(** Words with disjoint bits. *)
Lemma lor_disjoint_add k x y :
  0 ≤ k → x mod 2 ^ k = 0 → 0 ≤ y < 2 ^ k → Z.lor x y = x + y.
Proof.
  intros Hk Hx Hy. symmetry. rewrite <- Z.lxor_lor; [apply Z.add_nocarry_lxor|].
  all: apply Z.bits_inj'; intros i Hi; rewrite Z.land_spec, Z.bits_0.
  all: destruct (decide (i < k)).
  - rewrite <- (Z.mod_pow2_bits_low x k i), Hx, Z.bits_0 by lia. done.
  - rewrite <- (Z.mod_small y (2 ^ k)), Z.mod_pow2_bits_high by lia.
    apply andb_false_r.
  - rewrite <- (Z.mod_pow2_bits_low x k i), Hx, Z.bits_0 by lia. done.
  - rewrite <- (Z.mod_small y (2 ^ k)), Z.mod_pow2_bits_high by lia.
    apply andb_false_r.
Qed.

