(* ===== verification/Types.v ===== *)
(** * Types: the shared constants and macros of kern/include

    Error codes (kern/include/kern/errno.h), the rounding macros of
    kern/include/lib.h, and the page and address-layout constants of
    kern/arch/mips/include/vm.h with the arithmetic facts about them that the
    memory-management files share. *)

From stdpp Require Import base list.
From Stdlib Require Import ZArith Lia.
From S2P Require Import Prelude.
Set Default Goal Selector "!".
Open Scope Z_scope.

Definition ENOSYS : Z := 1.
Definition ENOMEM : Z := 3.
Definition EFAULT : Z := 6.
Definition EINVAL : Z := 8.
Definition ENAMETOOLONG : Z := 7.
Definition ENOEXEC : Z := 13.
Definition E2BIG : Z := 14.
Definition ENOSPC : Z := 36.

(** The rounding macros, on 32-bit unsigned operands. *)
Definition DIVROUNDUP (a b : Z) : Z := u32 (u32 (a + b) - 1) / b.
Definition ROUNDUP (a b : Z) : Z := u32 (DIVROUNDUP a b * b).

Definition PAGE_SIZE : Z := 4096.
Definition PAGE_FRAME : Z := 0xfffff000.
Definition MIPS_KSEG0 : Z := 0x80000000.
Definition USERSPACETOP : Z := MIPS_KSEG0.
Definition USERSTACK : Z := USERSPACETOP.

Definition PADDR_TO_KVADDR (paddr : Z) : Z := u32 (paddr + MIPS_KSEG0).
Definition KVADDR_TO_PADDR (vaddr : Z) : Z := u32 (vaddr - MIPS_KSEG0).

(** ** Facts *)

Lemma DIVROUNDUP_spec a b :
  0 ≤ a → 0 < b → a + b ≤ 2 ^ 32 → DIVROUNDUP a b = (a + b - 1) / b.
Proof.
  intros Ha Hb Hab. unfold DIVROUNDUP.
  destruct (decide (a + b = 2 ^ 32)) as [Heq|].
  - rewrite Heq. change (u32 (u32 (2 ^ 32) - 1)) with (2 ^ 32 - 1). done.
  - rewrite (wrap_small 32 (a + b)) by lia. rewrite wrap_small by lia. done.
Qed.

Lemma ROUNDUP_spec a b :
  0 ≤ a → 0 < b → a + b ≤ 2 ^ 32 → ROUNDUP a b = (a + b - 1) / b * b.
Proof.
  intros Ha Hb Hab. unfold ROUNDUP. rewrite DIVROUNDUP_spec by done.
  apply wrap_small.
  pose proof (Z.mul_div_le (a + b - 1) b). 
  pose proof (Z.div_pos (a + b - 1) b). nia.
Qed.

Lemma page_frame_spec x :
  0 ≤ x < 2 ^ 32 → Z.land x PAGE_FRAME = x / PAGE_SIZE * PAGE_SIZE.
Proof. intros. exact (land_high_mask 32 12 x ltac:(lia) H). Qed.

Lemma page_off_spec x : Z.land x 0xfff = x mod PAGE_SIZE.
Proof. exact (land_ones_low 12 x ltac:(lia)). Qed.

Lemma page_split x : x = x / PAGE_SIZE * PAGE_SIZE + x mod PAGE_SIZE.
Proof. unfold PAGE_SIZE. pose proof (Z.div_mod x 4096). lia. Qed.

Lemma kvaddr_roundtrip p :
  0 ≤ p < 2 ^ 31 → KVADDR_TO_PADDR (PADDR_TO_KVADDR p) = p.
Proof.
  intros. unfold KVADDR_TO_PADDR, PADDR_TO_KVADDR, MIPS_KSEG0.
  rewrite (wrap_small 32 (p + _)) by lia. rewrite wrap_small; lia.
Qed.
