(* ===== verification/Millicode.v ===== *)
(** * Millicode: common/gcc-millicode, 64-bit arithmetic on a 32-bit machine

    The compiler calls these routines for the operations of [long long].  Each
    works on the two 32-bit halves of its operands; [union uu] gives access to
    them.  Every routine is shown to compute the 64-bit operation, wrapping as
    two's complement does.  Division is in Qdivrem.v. *)

From stdpp Require Import base list.
From Stdlib Require Import ZArith Lia Bool.
From S2P Require Import Prelude.
Set Default Goal Selector "!".
Open Scope Z_scope.

(** ** longlong.h *)

Definition INT_BITS : Z := 32.
Definition HALF_BITS : Z := 16.

(** The high and the low word of [union uu], and the value they make. *)
Definition ui_H (ll : Z) : Z := u32 (Z.shiftr ll 32).
Definition ui_L (ll : Z) : Z := u32 ll.
Definition si_H (ll : Z) : Z := i32 (ui_H ll).
Definition mk_ll (h l : Z) : Z := i64 (h * 2 ^ 32 + l).

Definition HHALF (x : Z) : Z := Z.shiftr x HALF_BITS.
Definition LHALF (x : Z) : Z := Z.land x 0xffff.
Definition LHUP (x : Z) : Z := u32 (Z.shiftl x HALF_BITS).

Definition b2z (b : bool) : Z := if b then 1 else 0.

(** ** Addition, subtraction, negation *)

Definition __adddi3 (a b : Z) : Z :=
  let l := u32 (ui_L a + ui_L b) in
  let h := u32 (ui_H a + ui_H b + b2z (l <? ui_L b)) in
  mk_ll h l.

Definition __subdi3 (a b : Z) : Z :=
  let l := u32 (ui_L a - ui_L b) in
  let h := u32 (ui_H a - ui_H b - b2z (ui_L a <? l)) in
  mk_ll h l.

Definition __negdi2 (a : Z) : Z :=
  let l := u32 (- ui_L a) in
  let h := u32 (- ui_H a - b2z (0 <? l)) in
  mk_ll h l.

(** ** Logical operations *)

Definition __one_cmpldi2 (a : Z) : Z := mk_ll (u32 (Z.lnot (ui_H a))) (u32 (Z.lnot (ui_L a))).
Definition __anddi3 (a b : Z) : Z :=
  mk_ll (Z.land (ui_H a) (ui_H b)) (Z.land (ui_L a) (ui_L b)).
Definition __iordi3 (a b : Z) : Z :=
  mk_ll (Z.lor (ui_H a) (ui_H b)) (Z.lor (ui_L a) (ui_L b)).
Definition __xordi3 (a b : Z) : Z :=
  mk_ll (Z.lxor (ui_H a) (ui_H b)) (Z.lxor (ui_L a) (ui_L b)).

(** ** Shifts *)

Definition __ashldi3 (a shift : Z) : Z :=
  if shift =? 0 then a
  else if INT_BITS <=? shift then mk_ll (u32 (Z.shiftl (ui_L a) (shift - INT_BITS))) 0
  else mk_ll (Z.lor (u32 (Z.shiftl (ui_H a) shift)) (Z.shiftr (ui_L a) (INT_BITS - shift)))
         (u32 (Z.shiftl (ui_L a) shift)).

(** The logical left shift is the same code. *)
Definition __lshldi3 (a shift : Z) : Z :=
  if shift =? 0 then a
  else if INT_BITS <=? shift then mk_ll (u32 (Z.shiftl (ui_L a) (shift - INT_BITS))) 0
  else mk_ll (Z.lor (u32 (Z.shiftl (ui_H a) shift)) (Z.shiftr (ui_L a) (INT_BITS - shift)))
         (u32 (Z.shiftl (ui_L a) shift)).

(** The machine's right shift of a signed word extends the sign. *)
Definition __ashrdi3 (a shift : Z) : Z :=
  if shift =? 0 then a
  else if INT_BITS <=? shift then
    let s := Z.shiftr (Z.shiftr (si_H a) (INT_BITS - 1)) 1 in
    mk_ll (u32 s) (u32 (Z.shiftr (si_H a) (shift - INT_BITS)))
  else mk_ll (u32 (Z.shiftr (si_H a) shift))
         (Z.lor (Z.shiftr (ui_L a) shift) (u32 (Z.shiftl (ui_H a) (INT_BITS - shift)))).

Definition __lshrdi3 (a shift : Z) : Z :=
  if shift =? 0 then a
  else if INT_BITS <=? shift then mk_ll 0 (Z.shiftr (ui_H a) (shift - INT_BITS))
  else mk_ll (Z.shiftr (ui_H a) shift)
         (Z.lor (Z.shiftr (ui_L a) shift) (u32 (Z.shiftl (ui_H a) (INT_BITS - shift)))).

(** ** Comparison: 0, 1 or 2 for less, equal and greater *)

Definition __cmpdi2 (a b : Z) : Z :=
  if si_H a <? si_H b then 0 else if si_H b <? si_H a then 2 else
  if ui_L a <? ui_L b then 0 else if ui_L b <? ui_L a then 2 else 1.

Definition __ucmpdi2 (a b : Z) : Z :=
  if ui_H a <? ui_H b then 0 else if ui_H b <? ui_H a then 2 else
  if ui_L a <? ui_L b then 0 else if ui_L b <? ui_L a then 2 else 1.

(** ** Multiplication *)

(** The 64-bit product of two words, from four 16-bit halves. *)
Definition __lmulq (u v : Z) : Z :=
  let u1 := HHALF u in let u0 := LHALF u in
  let v1 := HHALF v in let v0 := LHALF v in
  let low := u32 (u0 * v0) in
  if (u1 =? 0) && (v1 =? 0) then low else
  let '(udiff, neg) := if u0 <=? u1 then (u32 (u1 - u0), false) else (u32 (u0 - u1), true) in
  let '(vdiff, neg) := if v1 <=? v0 then (u32 (v0 - v1), neg) else (u32 (v1 - v0), negb neg) in
  let mid := u32 (udiff * vdiff) in
  let high := u32 (u1 * v1) in
  let prodh := u32 (high + HHALF high) in
  let prodl := LHUP high in
  let '(prodh, prodl) :=
    if (neg : bool) then
      let l := u32 (prodl - LHUP mid) in
      (u32 (prodh - u32 (HHALF mid + b2z (prodl <? l))), l)
    else
      let l := u32 (prodl + LHUP mid) in
      (u32 (prodh + u32 (HHALF mid + b2z (l <? prodl))), l) in
  let l := u32 (prodl + LHUP low) in
  let prodh := u32 (prodh + u32 (HHALF low + b2z (l <? prodl))) in
  let prodl := u32 (l + low) in
  let prodh := if prodl <? low then u32 (prodh + 1) else prodh in
  mk_ll prodh prodl.

Definition __muldi3 (a b : Z) : Z :=
  let '(u, negall) := if 0 <=? a then (a, false) else (i64 (- a), true) in
  let '(v, negall) := if 0 <=? b then (b, negall) else (i64 (- b), negb negall) in
  let u1 := ui_H u in let u0 := ui_L u in
  let v1 := ui_H v in let v0 := ui_L v in
  let prod :=
    if (u1 =? 0) && (v1 =? 0) then __lmulq u0 v0 else
    let low := __lmulq u0 v0 in
    let '(udiff, negmid) := if u0 <=? u1 then (u32 (u1 - u0), false) else (u32 (u0 - u1), true) in
    let '(vdiff, negmid) := if v1 <=? v0 then (u32 (v0 - v1), negmid) else (u32 (v1 - v0), negb negmid) in
    let mid := u32 (udiff * vdiff) in
    let high := u32 (u1 * v1) in
    mk_ll (u32 (high + (if (negmid : bool) then u32 (- mid) else mid) + ui_L low + ui_H low)) (ui_L low)
  in
  if (negall : bool) then i64 (- prod) else prod.

(** ** The halves of a long long *)

Lemma ui_range a : 0 ≤ ui_H a < 2 ^ 32 ∧ 0 ≤ ui_L a < 2 ^ 32.
Proof. split; apply wrap_range; lia. Qed.

Lemma ui_split a : ∃ k, a = ui_H a * 2 ^ 32 + ui_L a + k * 2 ^ 64.
Proof.
  exists (a / 2 ^ 64). unfold ui_H, ui_L, wrap. rewrite Z.shiftr_div_pow2 by lia.
  pose proof (Z.div_mod a (2 ^ 32)). pose proof (Z.div_mod (a / 2 ^ 32) (2 ^ 32)).
  rewrite Z.div_div in * by lia. change (2 ^ 32 * 2 ^ 32) with (2 ^ 64) in *. lia.
Qed.

Lemma wrap_split w x : 0 ≤ w → ∃ k, wrap w x = x + k * 2 ^ w.
Proof.
  intros. exists (- (x / 2 ^ w)). unfold wrap. rewrite Z.mod_eq; [lia|].
  pose proof (Z.pow_pos_nonneg 2 w). lia.
Qed.

(** The signed reading depends on the value modulo 2^w only. *)
Lemma swrap_mod w x y : 0 < w → (∃ k, x = y + k * 2 ^ w) → swrap w x = swrap w y.
Proof.
  intros Hw [k ->]. unfold swrap. f_equal.
  replace (y + k * 2 ^ w + 2 ^ (w - 1)) with (y + 2 ^ (w - 1) + k * 2 ^ w) by lia.
  apply Z.mod_add. pose proof (Z.pow_pos_nonneg 2 w). lia.
Qed.

Lemma mk_ll_mod h l x : (∃ k, h * 2 ^ 32 + l = x + k * 2 ^ 64) → mk_ll h l = i64 x.
Proof. intros Hk. unfold mk_ll. by apply swrap_mod. Qed.

Ltac halves a :=
  let k := fresh "ka" in let E := fresh "Ea" in
  destruct (ui_split a) as [k E]; pose proof (ui_range a).

(** The sum and the difference of two words, with their carries. *)
Lemma add_carry x y :
  0 ≤ x < 2 ^ 32 → 0 ≤ y < 2 ^ 32 →
  x + y = u32 (x + y) + b2z (u32 (x + y) <? y) * 2 ^ 32.
Proof.
  intros Hx Hy. destruct (decide (x + y < 2 ^ 32)).
  - rewrite wrap_small by lia. rewrite (proj2 (Z.ltb_ge _ _)) by lia. cbn. lia.
  - assert (u32 (x + y) = x + y - 2 ^ 32) as ->.
    { symmetry. apply (Z.mod_unique _ _ 1); lia. }
    rewrite (proj2 (Z.ltb_lt _ _)) by lia. cbn. lia.
Qed.

Lemma sub_borrow x y :
  0 ≤ x < 2 ^ 32 → 0 ≤ y < 2 ^ 32 →
  x - y = u32 (x - y) - b2z (x <? u32 (x - y)) * 2 ^ 32.
Proof.
  intros Hx Hy. destruct (decide (y ≤ x)).
  - rewrite wrap_small by lia. rewrite (proj2 (Z.ltb_ge _ _)) by lia. cbn. lia.
  - assert (u32 (x - y) = x - y + 2 ^ 32) as ->.
    { symmetry. apply (Z.mod_unique _ _ (-1)); lia. }
    rewrite (proj2 (Z.ltb_lt _ _)) by lia. cbn. lia.
Qed.

(** The arithmetic routines. *)
Lemma adddi3_spec a b : __adddi3 a b = i64 (a + b).
Proof.
  unfold __adddi3. apply mk_ll_mod. halves a. halves b.
  pose proof (add_carry (ui_L a) (ui_L b)) as Hc.
  set (l := u32 (ui_L a + ui_L b)) in *. set (c := b2z (l <? ui_L b)) in *.
  destruct (wrap_split 32 (ui_H a + ui_H b + c)) as [k ->]; [lia|].
  exists (k - ka - ka0). lia.
Qed.

Lemma subdi3_spec a b : __subdi3 a b = i64 (a - b).
Proof.
  unfold __subdi3. apply mk_ll_mod. halves a. halves b.
  pose proof (sub_borrow (ui_L a) (ui_L b)) as Hc.
  set (l := u32 (ui_L a - ui_L b)) in *. set (c := b2z (ui_L a <? l)) in *.
  destruct (wrap_split 32 (ui_H a - ui_H b - c)) as [k ->]; [lia|].
  exists (k - ka + ka0). lia.
Qed.

Lemma negdi2_spec a : __negdi2 a = i64 (- a).
Proof.
  unfold __negdi2. apply mk_ll_mod. halves a.
  pose proof (sub_borrow 0 (ui_L a)) as Hc. rewrite Z.sub_0_l in Hc.
  set (l := u32 (- ui_L a)) in *. set (c := b2z (0 <? l)) in *.
  destruct (wrap_split 32 (- ui_H a - c)) as [k ->]; [lia|].
  exists (k + ka). lia.
Qed.

(** Comparisons: the halves compare as the numbers do. *)
Lemma si_split a : - 2 ^ 63 ≤ a < 2 ^ 63 → a = si_H a * 2 ^ 32 + ui_L a.
Proof.
  intros Ha. halves a. unfold si_H.
  assert (Hs : ui_H a = i32 (ui_H a) ∨ ui_H a = i32 (ui_H a) + 2 ^ 32).
  { unfold swrap. destruct (decide (ui_H a < 2 ^ 31)).
    - left. rewrite Z.mod_small; lia.
    - right. replace (ui_H a + 2 ^ (32 - 1)) with (ui_H a - 2 ^ 31 + 1 * 2 ^ 32) by lia.
      rewrite Z.mod_add, Z.mod_small; lia. }
  pose proof (swrap_range 32 (ui_H a) ltac:(lia)). change (2 ^ (32 - 1)) with (2 ^ 31) in *. lia.
Qed.

Definition cmp3 (a b : Z) : Z := if a <? b then 0 else if b <? a then 2 else 1.

Lemma cmpdi2_spec a b :
  - 2 ^ 63 ≤ a < 2 ^ 63 → - 2 ^ 63 ≤ b < 2 ^ 63 → __cmpdi2 a b = cmp3 a b.
Proof.
  intros Ha%si_split Hb%si_split. unfold __cmpdi2, cmp3.
  pose proof (ui_range a). pose proof (ui_range b). zcases; lia.
Qed.

Lemma ucmpdi2_spec a b :
  0 ≤ a < 2 ^ 64 → 0 ≤ b < 2 ^ 64 → __ucmpdi2 a b = cmp3 a b.
Proof.
  intros Ha Hb. unfold __ucmpdi2, cmp3. halves a. halves b. zcases; lia.
Qed.

(** ** Bitwise routines *)

Lemma mk_ll_halves x : mk_ll (ui_H x) (ui_L x) = i64 x.
Proof. apply mk_ll_mod. halves x. exists (- ka). lia. Qed.

Lemma wrap_testbit w x i : 0 ≤ w → Z.testbit (wrap w x) i = (i <? w) && Z.testbit x i.
Proof. intros. by apply Z.testbit_mod_pow2. Qed.

Lemma ui_L_bit x i : Z.testbit (ui_L x) i = (i <? 32) && Z.testbit x i.
Proof. by apply wrap_testbit. Qed.

Lemma ui_H_bit x i : Z.testbit (ui_H x) i = (0 <=? i) && (i <? 32) && Z.testbit x (i + 32).
Proof.
  destruct (Z.leb_spec 0 i); [|by rewrite Z.testbit_neg_r by lia].
  unfold ui_H. rewrite wrap_testbit, Z.shiftr_spec by lia. done.
Qed.

(** Bits of a sign-extended word. *)
Lemma swrap_testbit w x i :
  0 < w → 0 ≤ i → Z.testbit (swrap w x) i = Z.testbit x (if i <? w then i else w - 1).
Proof.
  intros Hw Hi. pose proof (swrap_range w x Hw) as Hr.
  assert (Hb : ∀ j, 0 ≤ j < w → Z.testbit (swrap w x) j = Z.testbit x j).
  { intros j Hj. assert (Hc : wrap w (swrap w x) = wrap w x).
    { unfold wrap, swrap. pose proof (Z.pow_pos_nonneg 2 w). rewrite Zminus_mod_idemp_l.
      f_equal. lia. }
    pose proof (wrap_testbit w (swrap w x) j ltac:(lia)) as H1. rewrite Hc in H1.
    rewrite wrap_testbit in H1 by lia. rewrite (proj2 (Z.ltb_lt j w)) in H1 by lia. by cbn in H1. }
  destruct (Z.ltb_spec i w) as [Hlt|Hge]; [by apply Hb|].
  rewrite <- (Hb (w - 1)) by lia.
  assert (Hd : ∀ j, w - 1 ≤ j → Z.testbit (swrap w x) j = (swrap w x <? 0)).
  { intros j Hj. rewrite Z.testbit_odd, Z.shiftr_div_pow2 by lia.
    pose proof (Z.pow_le_mono_r 2 (w - 1) j ltac:(lia) ltac:(lia)).
    destruct (Z.ltb_spec (swrap w x) 0).
    - assert (swrap w x / 2 ^ j = -1) as ->; [|done]. symmetry.
      apply (Z.div_unique _ _ _ (swrap w x + 2 ^ j)); lia.
    - rewrite Z.div_small by lia. done. }
  rewrite !Hd by lia. done.
Qed.

Lemma si_H_bit x i : 0 ≤ i → Z.testbit (si_H x) i = Z.testbit x (if i <? 32 then i + 32 else 63).
Proof.
  intros. unfold si_H. rewrite swrap_testbit by lia. destruct (Z.ltb_spec i 32).
  - rewrite ui_H_bit. by rewrite (proj2 (Z.leb_le _ _)), (proj2 (Z.ltb_lt _ _)) by lia.
  - by rewrite ui_H_bit.
Qed.

(** Two words are equal when their bits are; decides it by cases on the index. *)
Ltac word_bits :=
  apply Z.bits_inj'; let i := fresh "i" in intros i ?;
  repeat first
    [ rewrite Z.land_spec | rewrite Z.lor_spec | rewrite Z.lxor_spec
    | rewrite Z.lnot_spec by lia | rewrite Z.shiftl_spec by lia | rewrite Z.shiftr_spec by lia
    | rewrite wrap_testbit by lia | rewrite ui_L_bit | rewrite ui_H_bit
    | rewrite si_H_bit by lia ].

Lemma anddi3_spec a b : __anddi3 a b = i64 (Z.land a b).
Proof.
  rewrite <- mk_ll_halves. unfold __anddi3. f_equal; word_bits; zcases; (done || lia).
Qed.

Lemma iordi3_spec a b : __iordi3 a b = i64 (Z.lor a b).
Proof.
  rewrite <- mk_ll_halves. unfold __iordi3. f_equal; word_bits; zcases; (done || lia).
Qed.

Lemma xordi3_spec a b : __xordi3 a b = i64 (Z.lxor a b).
Proof.
  rewrite <- mk_ll_halves. unfold __xordi3. f_equal; word_bits; zcases; (done || lia).
Qed.

Lemma one_cmpldi2_spec a : __one_cmpldi2 a = i64 (Z.lnot a).
Proof.
  rewrite <- mk_ll_halves. unfold __one_cmpldi2. f_equal; word_bits; zcases; (done || lia).
Qed.

(** Compares two bits of [x] chosen by tests on the index. *)
Ltac pick_bits :=
  zcases; try lia;
  repeat rewrite (Z.testbit_neg_r _ _) by lia;
  rewrite ?orb_false_r, ?orb_false_l, ?andb_true_r; try done;
  try (f_equal; lia).

Lemma ashldi3_spec a s : - 2 ^ 63 ≤ a < 2 ^ 63 → 0 ≤ s < 64 → __ashldi3 a s = i64 (Z.shiftl a s).
Proof.
  intros Ha Hs. unfold __ashldi3, INT_BITS. destruct (Z.eqb_spec s 0) as [->|].
  { rewrite Z.shiftl_0_r, swrap_small by lia. done. }
  rewrite <- (mk_ll_halves (Z.shiftl a s)).
  destruct (Z.leb_spec 32 s); f_equal; word_bits; rewrite ?Z.bits_0; pick_bits.
Qed.

Lemma lshldi3_spec a s : - 2 ^ 63 ≤ a < 2 ^ 63 → 0 ≤ s < 64 → __lshldi3 a s = i64 (Z.shiftl a s).
Proof. apply ashldi3_spec. Qed.

Lemma ashrdi3_spec a s : - 2 ^ 63 ≤ a < 2 ^ 63 → 0 ≤ s < 64 → __ashrdi3 a s = Z.shiftr a s.
Proof.
  intros Ha Hs. unfold __ashrdi3, INT_BITS. destruct (Z.eqb_spec s 0) as [->|].
  { by rewrite Z.shiftr_0_r. }
  assert (Hx : i64 a = a) by (apply swrap_small; lia).
  assert (Hbit : ∀ i, 0 ≤ i → Z.testbit a i = Z.testbit a (if i <? 64 then i else 63)).
  { intros i Hi. rewrite <- Hx at 1. by rewrite swrap_testbit by lia. }
  assert (Hr : Z.shiftr a s = i64 (Z.shiftr a s)).
  { symmetry. apply swrap_small; [lia|]. rewrite Z.shiftr_div_pow2 by lia.
    pose proof (Z.pow_pos_nonneg 2 s ltac:(lia) ltac:(lia)).
    split; [apply Z.div_le_lower_bound|apply Z.div_lt_upper_bound]; change (2 ^ (64 - 1)) with (2 ^ 63); nia. }
  rewrite Hr, <- (mk_ll_halves (Z.shiftr a s)).
  destruct (Z.leb_spec 32 s); f_equal; word_bits.
  all: try (rewrite (Hbit (_ + s)) by lia); try (rewrite (Hbit (_ + _ + s)) by lia).
  all: pick_bits.
Qed.

Lemma lshrdi3_spec a s :
  - 2 ^ 63 ≤ a < 2 ^ 63 → 0 ≤ s < 64 → __lshrdi3 a s = i64 (Z.shiftr (u64 a) s).
Proof.
  intros Ha Hs. unfold __lshrdi3, INT_BITS. destruct (Z.eqb_spec s 0) as [->|].
  { rewrite Z.shiftr_0_r. rewrite (swrap_mod 64 (u64 a) a), swrap_small; try lia.
    by apply wrap_split. }
  rewrite <- (mk_ll_halves (Z.shiftr (u64 a) s)).
  destruct (Z.leb_spec 32 s); f_equal; word_bits; rewrite ?Z.bits_0; pick_bits.
Qed.

(** ** Multiplication *)

Lemma half_split x : x = HHALF x * 2 ^ 16 + LHALF x.
Proof.
  unfold HHALF, LHALF, HALF_BITS. rewrite Z.shiftr_div_pow2 by lia.
  change 0xffff with (2 ^ 16 - 1). rewrite land_ones_low by lia.
  pose proof (Z.div_mod x (2 ^ 16)). lia.
Qed.

Lemma half_range x : 0 ≤ x < 2 ^ 32 → 0 ≤ HHALF x < 2 ^ 16 ∧ 0 ≤ LHALF x < 2 ^ 16.
Proof.
  intros Hx. unfold HHALF, LHALF, HALF_BITS. rewrite Z.shiftr_div_pow2 by lia.
  change 0xffff with (2 ^ 16 - 1). rewrite land_ones_low by lia.
  pose proof (Z.mod_pos_bound x (2 ^ 16) ltac:(lia)). split; [|done].
  split; [apply Z.div_pos; lia|apply Z.div_lt_upper_bound; lia].
Qed.

Lemma half_up x : 0 ≤ x < 2 ^ 32 → x * 2 ^ 16 = HHALF x * 2 ^ 32 + LHUP x ∧ 0 ≤ LHUP x < 2 ^ 32.
Proof.
  intros Hx. pose proof (half_range x Hx). pose proof (half_split x).
  unfold LHUP, HALF_BITS. rewrite Z.shiftl_mul_pow2 by lia. split; [|apply wrap_range; lia].
  assert (u32 (x * 2 ^ 16) = LHALF x * 2 ^ 16) as ->; [|lia].
  symmetry. apply (Z.mod_unique _ _ (HHALF x)); lia.
Qed.

(** Adding and subtracting [m << 16] to the two-word accumulator. *)
Lemma acc_add h l m :
  0 ≤ l < 2 ^ 32 → 0 ≤ m < 2 ^ 32 →
  ∃ k, u32 (h + u32 (HHALF m + b2z (u32 (l + LHUP m) <? l))) * 2 ^ 32 + u32 (l + LHUP m) =
       h * 2 ^ 32 + l + m * 2 ^ 16 + k * 2 ^ 64.
Proof.
  intros Hl Hm. destruct (half_up m Hm) as [Hu Hr].
  pose proof (add_carry (LHUP m) l Hr Hl) as Hc. rewrite (Z.add_comm (LHUP m) l) in Hc.
  set (l' := u32 (l + LHUP m)) in *. set (c := b2z (l' <? l)) in *.
  destruct (wrap_split 32 (HHALF m + c)) as [k1 ->]; [lia|].
  destruct (wrap_split 32 (h + (HHALF m + c + k1 * 2 ^ 32))) as [k2 ->]; [lia|].
  exists (k1 + k2). lia.
Qed.

Lemma acc_sub h l m :
  0 ≤ l < 2 ^ 32 → 0 ≤ m < 2 ^ 32 →
  ∃ k, u32 (h - u32 (HHALF m + b2z (l <? u32 (l - LHUP m)))) * 2 ^ 32 + u32 (l - LHUP m) =
       h * 2 ^ 32 + l - m * 2 ^ 16 + k * 2 ^ 64.
Proof.
  intros Hl Hm. destruct (half_up m Hm) as [Hu Hr].
  pose proof (sub_borrow l (LHUP m) Hl Hr) as Hc.
  set (l' := u32 (l - LHUP m)) in *. set (c := b2z (l <? l')) in *.
  destruct (wrap_split 32 (HHALF m + c)) as [k1 ->]; [lia|].
  destruct (wrap_split 32 (h - (HHALF m + c + k1 * 2 ^ 32))) as [k2 ->]; [lia|].
  exists (k2 - k1). lia.
Qed.

(** The last additions of [__lmulq], from an accumulator [(h, l)]. *)
Lemma acc_low h l low :
  0 ≤ l < 2 ^ 32 → 0 ≤ low < 2 ^ 32 →
  let l1 := u32 (l + LHUP low) in
  let h1 := u32 (h + u32 (HHALF low + b2z (l1 <? l))) in
  let l2 := u32 (l1 + low) in
  let h2 := if l2 <? low then u32 (h1 + 1) else h1 in
  ∃ k, h2 * 2 ^ 32 + l2 = h * 2 ^ 32 + l + low * 2 ^ 16 + low + k * 2 ^ 64.
Proof.
  intros Hl Hlow l1 h1 l2 h2. destruct (acc_add h l low Hl Hlow) as [k Hk]. fold l1 in Hk.
  fold h1 in Hk. pose proof (wrap_range 32 (l + LHUP low) ltac:(lia)) as Hl1. fold l1 in Hl1.
  pose proof (add_carry l1 low Hl1 Hlow) as Hc. fold l2 in Hc.
  unfold h2. destruct (l2 <? low); cbn in Hc.
  - destruct (wrap_split 32 (h1 + 1)) as [k2 ->]; [lia|]. exists (k + k2). lia.
  - exists k. lia.
Qed.

Lemma mul_half x y : 0 ≤ x < 2 ^ 16 → 0 ≤ y < 2 ^ 16 → 0 ≤ x * y < 2 ^ 32.
Proof. change (2 ^ 16) with 65536. change (2 ^ 32) with 4294967296. nia. Qed.

(** The absolute differences of the halves and the sign of their product. *)
Lemma mid_product x y (a b : Z) :
  0 ≤ a < 2 ^ 16 → 0 ≤ b < 2 ^ 16 → 0 ≤ x < 2 ^ 16 → 0 ≤ y < 2 ^ 16 →
  ∀ udiff n1 vdiff n2,
  (if b <=? a then (u32 (a - b), false) else (u32 (b - a), true)) = (udiff, n1) →
  (if y <=? x then (u32 (x - y), n1) else (u32 (y - x), negb n1)) = (vdiff, n2) →
  0 ≤ udiff * vdiff < 2 ^ 32 ∧
  (a - b) * (x - y) = if (n2 : bool) then - (udiff * vdiff) else udiff * vdiff.
Proof.
  intros Ha Hb Hx Hy udiff n1 vdiff n2.
  destruct (Z.leb_spec b a), (Z.leb_spec y x); intros [= <- <-] [= <- <-]; cbn [negb];
    rewrite !wrap_small by lia; (split; [apply mul_half; lia|ring]).
Qed.

(** The general case of [__lmulq], from the halves of the operands. *)
Lemma lmulq_general u1 u0 v1 v0 udiff n1 vdiff n2 :
  0 ≤ u1 < 2 ^ 16 → 0 ≤ u0 < 2 ^ 16 → 0 ≤ v1 < 2 ^ 16 → 0 ≤ v0 < 2 ^ 16 →
  (if u0 <=? u1 then (u32 (u1 - u0), false) else (u32 (u0 - u1), true)) = (udiff, n1) →
  (if v1 <=? v0 then (u32 (v0 - v1), n1) else (u32 (v1 - v0), negb n1)) = (vdiff, n2) →
  ∀ h l, (if (n2 : bool) then
      let l := u32 (LHUP (u1 * v1) - LHUP (udiff * vdiff)) in
      (u32 (u32 (u1 * v1 + HHALF (u1 * v1)) -
            u32 (HHALF (udiff * vdiff) + b2z (LHUP (u1 * v1) <? l))), l)
    else
      let l := u32 (LHUP (u1 * v1) + LHUP (udiff * vdiff)) in
      (u32 (u32 (u1 * v1 + HHALF (u1 * v1)) +
            u32 (HHALF (udiff * vdiff) + b2z (l <? LHUP (u1 * v1)))), l)) = (h, l) →
  0 ≤ l < 2 ^ 32 ∧ ∃ k, h * 2 ^ 32 + l + u0 * v0 * 2 ^ 16 + u0 * v0 =
    (u1 * 2 ^ 16 + u0) * (v1 * 2 ^ 16 + v0) + k * 2 ^ 64.
Proof.
  intros Hu1 Hu0 Hv1 Hv0 Hud Hvd h l.
  destruct (mid_product v0 v1 u1 u0 Hu1 Hu0 Hv0 Hv1 _ _ _ _ Hud Hvd) as [Hmr Hm].
  set (mid := udiff * vdiff) in *.
  pose proof (mul_half u1 v1 Hu1 Hv1) as Hhi. destruct (half_up (u1 * v1) Hhi) as [Hup Hupr].
  destruct (wrap_split 32 (u1 * v1 + HHALF (u1 * v1)) ltac:(lia)) as [k0 Hk0].
  set (h0 := u32 (u1 * v1 + HHALF (u1 * v1))) in *.
  destruct n2; cbv zeta; intros [= <- <-]; (split; [apply wrap_range; lia|]).
  - destruct (acc_sub h0 (LHUP (u1 * v1)) mid Hupr Hmr) as [k1 ->]. exists (k0 + k1).
    replace (LHUP (u1 * v1)) with (u1 * v1 * 2 ^ 16 - HHALF (u1 * v1) * 2 ^ 32) by lia.
    replace mid with (- ((u1 - u0) * (v0 - v1))) by lia. rewrite Hk0. ring.
  - destruct (acc_add h0 (LHUP (u1 * v1)) mid Hupr Hmr) as [k1 ->]. exists (k0 + k1).
    replace (LHUP (u1 * v1)) with (u1 * v1 * 2 ^ 16 - HHALF (u1 * v1) * 2 ^ 32) by lia.
    replace mid with ((u1 - u0) * (v0 - v1)) by lia. rewrite Hk0. ring.
Qed.

Lemma lmulq_mod u v :
  0 ≤ u < 2 ^ 32 → 0 ≤ v < 2 ^ 32 → __lmulq u v = i64 (u * v).
Proof.
  intros Hu Hv. pose proof (half_range u Hu) as [Hu1 Hu0]. pose proof (half_range v Hv) as [Hv1 Hv0].
  pose proof (half_split u) as Su. pose proof (half_split v) as Sv. unfold __lmulq.
  set (u1 := HHALF u) in *. set (u0 := LHALF u) in *. set (v1 := HHALF v) in *. set (v0 := LHALF v) in *.
  pose proof (mul_half u0 v0 Hu0 Hv0) as Hlow. pose proof (mul_half u1 v1 Hu1 Hv1) as Hhigh.
  rewrite (wrap_small 32 (u0 * v0)), (wrap_small 32 (u1 * v1)) by done.
  destruct ((u1 =? 0) && (v1 =? 0)) eqn:Hz.
  { apply andb_prop in Hz as [E1%Z.eqb_eq E2%Z.eqb_eq]. rewrite Su, Sv, E1, E2.
    rewrite !Z.mul_0_l, !Z.add_0_l. rewrite swrap_small by lia. done. }
  destruct (if u0 <=? u1 then _ else _) as [udiff n1] eqn:Hud.
  destruct (if v1 <=? v0 then _ else _) as [vdiff n2] eqn:Hvd.
  destruct (mid_product v0 v1 u1 u0 Hu1 Hu0 Hv0 Hv1 _ _ _ _ Hud Hvd) as [Hmr _].
  rewrite (wrap_small 32 (udiff * vdiff)) by done. cbv zeta.
  match goal with |- context [if n2 then ?x else ?y] =>
    destruct (if n2 then x else y) as [h l] eqn:Hhl end.
  destruct (lmulq_general u1 u0 v1 v0 udiff n1 vdiff n2 Hu1 Hu0 Hv1 Hv0 Hud Hvd h l Hhl) as [Hl [k Hk]].
  apply mk_ll_mod. destruct (acc_low h l (u0 * v0) Hl Hlow) as [k2 Hk2]. exists (k + k2).
  rewrite Hk2, Hk, Su, Sv. ring.
Qed.

(** The halves of a number known modulo 2^64. *)
Lemma ui_value x y : 0 ≤ y < 2 ^ 64 → (∃ k, x = y + k * 2 ^ 64) → ui_H x * 2 ^ 32 + ui_L x = y.
Proof.
  intros Hy [k Hk]. halves x.
  assert (ui_H x * 2 ^ 32 + ui_L x - y = (k - ka) * 2 ^ 64) by lia.
  assert (k - ka = 0) by nia. nia.
Qed.

(** The product of the absolute values. *)
Definition uprod (u v : Z) : Z :=
  let u1 := ui_H u in let u0 := ui_L u in
  let v1 := ui_H v in let v0 := ui_L v in
  if (u1 =? 0) && (v1 =? 0) then __lmulq u0 v0 else
  let low := __lmulq u0 v0 in
  let '(udiff, negmid) := if u0 <=? u1 then (u32 (u1 - u0), false) else (u32 (u0 - u1), true) in
  let '(vdiff, negmid) := if v1 <=? v0 then (u32 (v0 - v1), negmid) else (u32 (v1 - v0), negb negmid) in
  let mid := u32 (udiff * vdiff) in
  let high := u32 (u1 * v1) in
  mk_ll (u32 (high + (if (negmid : bool) then u32 (- mid) else mid) + ui_L low + ui_H low)) (ui_L low).

Lemma mid_mod x y a b udiff n1 vdiff n2 :
  0 ≤ a < 2 ^ 32 → 0 ≤ b < 2 ^ 32 → 0 ≤ x < 2 ^ 32 → 0 ≤ y < 2 ^ 32 →
  (if b <=? a then (u32 (a - b), false) else (u32 (b - a), true)) = (udiff, n1) →
  (if y <=? x then (u32 (x - y), n1) else (u32 (y - x), negb n1)) = (vdiff, n2) →
  ∃ k, (if (n2 : bool) then u32 (- u32 (udiff * vdiff)) else u32 (udiff * vdiff)) =
       (a - b) * (x - y) + k * 2 ^ 32.
Proof.
  intros Ha Hb Hx Hy Hud Hvd.
  assert (He : (a - b) * (x - y) = if (n2 : bool) then - (udiff * vdiff) else udiff * vdiff).
  { revert Hud Hvd. destruct (Z.leb_spec b a), (Z.leb_spec y x); intros [= <- <-] [= <- <-]; cbn [negb];
      rewrite !wrap_small by lia; ring. }
  rewrite He. destruct (wrap_split 32 (udiff * vdiff)) as [k Hk]; [lia|]. destruct n2.
  - destruct (wrap_split 32 (- u32 (udiff * vdiff))) as [k2 ->]; [lia|].
    exists (k2 - k). rewrite Hk. ring.
  - exists k. exact Hk.
Qed.

Lemma uprod_mod u v :
  uprod u v = i64 ((ui_H u * 2 ^ 32 + ui_L u) * (ui_H v * 2 ^ 32 + ui_L v)).
Proof.
  unfold uprod. pose proof (ui_range u) as [Hu1 Hu0]. pose proof (ui_range v) as [Hv1 Hv0].
  set (u1 := ui_H u) in *. set (u0 := ui_L u) in *. set (v1 := ui_H v) in *. set (v0 := ui_L v) in *.
  destruct ((u1 =? 0) && (v1 =? 0)) eqn:Hz.
  { apply andb_prop in Hz as [E1%Z.eqb_eq E2%Z.eqb_eq]. rewrite E1, E2.
    rewrite !Z.mul_0_l, !Z.add_0_l. by apply lmulq_mod. }
  destruct (if u0 <=? u1 then _ else _) as [udiff n1] eqn:Hud.
  destruct (if v1 <=? v0 then _ else _) as [vdiff n2] eqn:Hvd.
  destruct (mid_mod v0 v1 u1 u0 udiff n1 vdiff n2 Hu1 Hu0 Hv0 Hv1 Hud Hvd) as [km Hm].
  cbv zeta. rewrite Hm. rewrite (lmulq_mod u0 v0) by done.
  assert (Hlow : ui_H (i64 (u0 * v0)) * 2 ^ 32 + ui_L (i64 (u0 * v0)) = u0 * v0).
  { apply ui_value; [|unfold swrap; rewrite Z.mod_eq by lia;
      exists (- ((u0 * v0 + 2 ^ (64 - 1)) / 2 ^ 64)); lia].
    change (2 ^ 64) with (2 ^ 32 * 2 ^ 32). split; [lia|]. apply Z.mul_lt_mono_nonneg; lia. }
  set (lh := ui_H (i64 (u0 * v0))) in *. set (ll := ui_L (i64 (u0 * v0))) in *.
  destruct (wrap_split 32 (u1 * v1)) as [kh ->]; [lia|].
  destruct (wrap_split 32 (u1 * v1 + kh * 2 ^ 32 + ((u1 - u0) * (v0 - v1) + km * 2 ^ 32) + ll + lh))
    as [ks ->]; [lia|].
  apply mk_ll_mod. exists (kh + km + ks - u1 * v1 - lh).
  replace ll with (u0 * v0 - lh * 2 ^ 32) by lia. ring.
Qed.

(** The magnitude of an operand. *)
Lemma magnitude a :
  - 2 ^ 63 ≤ a < 2 ^ 63 →
  let u := if 0 <=? a then a else i64 (- a) in
  ui_H u * 2 ^ 32 + ui_L u = Z.abs a.
Proof.
  intros Ha u. unfold u. destruct (Z.leb_spec 0 a).
  - apply ui_value; [lia|]. exists 0. lia.
  - apply ui_value; [lia|]. unfold swrap. rewrite Z.mod_eq by lia.
    exists (- ((- a + 2 ^ (64 - 1)) / 2 ^ 64)). lia.
Qed.

Lemma muldi3_spec a b :
  - 2 ^ 63 ≤ a < 2 ^ 63 → - 2 ^ 63 ≤ b < 2 ^ 63 → __muldi3 a b = i64 (a * b).
Proof.
  intros Ha Hb. pose proof (magnitude a Ha) as Hu. pose proof (magnitude b Hb) as Hv.
  cbv zeta in Hu, Hv.
  assert (Hneg : ∀ x, i64 (- i64 x) = i64 (- x)).
  { intros x. apply swrap_mod; [lia|]. unfold swrap. rewrite Z.mod_eq by lia.
    exists ((x + 2 ^ (64 - 1)) / 2 ^ 64). lia. }
  change (__muldi3 a b) with
    (let '(u, n1) := if 0 <=? a then (a, false) else (i64 (- a), true) in
     let '(v, n2) := if 0 <=? b then (b, n1) else (i64 (- b), negb n1) in
     if (n2 : bool) then i64 (- uprod u v) else uprod u v).
  destruct (Z.leb_spec 0 a), (Z.leb_spec 0 b); cbn [negb]; rewrite uprod_mod, Hu, Hv, ?Hneg;
    f_equal; rewrite ?(Z.abs_eq a), ?(Z.abs_eq b), ?(Z.abs_neq a), ?(Z.abs_neq b) by lia; ring.
Qed.

(** ** Claims *)

(** The 64-bit arithmetic of the millicode is arithmetic modulo 2^64: addition,
    subtraction and negation with the carry between the halves, and
    multiplication by Karatsuba's three products on half-words, give the
    two's-complement result for all operands. *)
Theorem arithmetic_correct a b :
  - 2 ^ 63 ≤ a < 2 ^ 63 → - 2 ^ 63 ≤ b < 2 ^ 63 →
  __adddi3 a b = i64 (a + b) ∧ __subdi3 a b = i64 (a - b) ∧ __negdi2 a = i64 (- a) ∧
  __muldi3 a b = i64 (a * b).
Proof.
  intros Ha Hb. by rewrite adddi3_spec, subdi3_spec, negdi2_spec, muldi3_spec.
Qed.

Lemma arithmetic_correct_witness :
  __adddi3 0x7fffffffffffffff 1 = i64 (0x7fffffffffffffff + 1) ∧
  __subdi3 0x7fffffffffffffff 1 = i64 (0x7fffffffffffffff - 1) ∧
  __negdi2 0x7fffffffffffffff = i64 (- 0x7fffffffffffffff) ∧
  __muldi3 0x7fffffffffffffff 1 = i64 (0x7fffffffffffffff * 1).
Proof. apply (arithmetic_correct 0x7fffffffffffffff 1); lia. Defined.

(** The shifts of the millicode by [0] to [63] places: left shifts drop the bits
    that leave the word, the arithmetic right shift keeps the sign and the
    logical one shifts in zeros. *)
Theorem shifts_correct a s :
  - 2 ^ 63 ≤ a < 2 ^ 63 → 0 ≤ s < 64 →
  __ashldi3 a s = i64 (Z.shiftl a s) ∧ __lshldi3 a s = i64 (Z.shiftl a s) ∧
  __ashrdi3 a s = Z.shiftr a s ∧ __lshrdi3 a s = i64 (Z.shiftr (u64 a) s).
Proof.
  intros Ha Hs. by rewrite ashldi3_spec, lshldi3_spec, ashrdi3_spec, lshrdi3_spec.
Qed.

Lemma shifts_correct_witness :
  __ashldi3 (-5) 33 = i64 (Z.shiftl (-5) 33) ∧ __lshldi3 (-5) 33 = i64 (Z.shiftl (-5) 33) ∧
  __ashrdi3 (-5) 33 = Z.shiftr (-5) 33 ∧ __lshrdi3 (-5) 33 = i64 (Z.shiftr (u64 (-5)) 33).
Proof. apply (shifts_correct (-5) 33); lia. Defined.

(** The three-way comparisons return 0, 1 or 2 as the first number is below,
    equal to or above the second, signed and unsigned, and the bitwise
    operations act on all 64 bits. *)
Theorem comparisons_correct a b :
  - 2 ^ 63 ≤ a < 2 ^ 63 → - 2 ^ 63 ≤ b < 2 ^ 63 →
  __cmpdi2 a b = cmp3 a b ∧ __ucmpdi2 (u64 a) (u64 b) = cmp3 (u64 a) (u64 b) ∧
  __anddi3 a b = i64 (Z.land a b) ∧ __iordi3 a b = i64 (Z.lor a b) ∧
  __xordi3 a b = i64 (Z.lxor a b) ∧ __one_cmpldi2 a = i64 (Z.lnot a).
Proof.
  intros Ha Hb. rewrite cmpdi2_spec, ucmpdi2_spec by (try done; by apply Z.mod_pos_bound).
  by rewrite anddi3_spec, iordi3_spec, xordi3_spec, one_cmpldi2_spec.
Qed.

Lemma comparisons_correct_witness :
  __cmpdi2 (-1) 1 = 0 ∧ __ucmpdi2 (u64 (-1)) 1 = 2.
Proof.
  destruct (comparisons_correct (-1) 1) as (H & H' & _); [lia|lia|].
  split; [exact H|exact H'].
Defined.
