(* ===== verification/Qdivrem.v ===== *)
(** * Qdivrem: common/gcc-millicode/qdivrem.c, 64-bit division

    [__qdivrem] is Knuth's algorithm D in base 2^16 on arrays of five digits,
    with pointers that skip leading zeros.  Array accesses are checked: [None]
    is an access outside an array, a loop that does not end within its fuel, or
    the division by zero that traps.  [qdivrem_correct] shows that none of them
    happens when the divisor is not zero, and that the results are the quotient
    and the remainder; the arrays are not initialised in C, so the theorem is
    for any value [junk] they hold at the start. *)

From stdpp Require Import base list option.
From Stdlib Require Import ZArith Lia Bool.
From S2P Require Import Prelude Millicode.
Set Default Goal Selector "!".
Open Scope Z_scope.

(** The digit base, and [unsigned short]. *)
Definition B : Z := 65536.
Abbreviation u16 := (wrap 16).

Definition COMBINE (a b : Z) : Z := Z.lor (u32 (Z.shiftl a HALF_BITS)) b.

(** Access to an array of digits. *)
Definition dget (a : list Z) (i : Z) : option Z := arr_get a i.
Definition dset (a : list Z) (i x : Z) : option (list Z) :=
  if (0 <=? i) && (i <? zlen a) then Some (arr_set a i x) else None.

(** [shl(&a[p], len, sh)], from index [i] with [cnt = len - i]. *)
Fixpoint shl (cnt : nat) (a : list Z) (p i sh : Z) : option (list Z) :=
  match cnt with
  | O =>
      x ← dget a (p + i);
      dset a (p + i) (u16 (LHALF (u32 (Z.shiftl x sh))))
  | S cnt' =>
      x ← dget a (p + i);
      y ← dget a (p + i + 1);
      a' ← dset a (p + i) (u16 (Z.lor (LHALF (u32 (Z.shiftl x sh))) (Z.shiftr y (HALF_BITS - sh))));
      shl cnt' a' p (i + 1) sh
  end.

(** [for (n = 4; v[1] == 0; v++) if (--n == 1) ...]: the pointer and [n] when the
    loop ends; [n = 1] stands for the branch taken inside it. *)
Fixpoint lead_v (fuel : nat) (vs : list Z) (pv n : Z) : option (Z * Z) :=
  match fuel with
  | O => None
  | S fuel' =>
      x ← dget vs (pv + 1);
      if x =? 0 then
        let n := n - 1 in
        if n =? 1 then Some (pv, n) else lead_v fuel' vs (pv + 1) n
      else Some (pv, n)
  end.

(** [for (m = 4 - n; u[1] == 0; u++) m--] *)
Fixpoint lead_u (fuel : nat) (us : list Z) (pu m : Z) : option (Z * Z) :=
  match fuel with
  | O => None
  | S fuel' =>
      x ← dget us (pu + 1);
      if x =? 0 then lead_u fuel' us (pu + 1) (m - 1) else Some (pu, m)
  end.

(** [for (t = v[1]; t < B / 2; t <<= 1) d++] *)
Fixpoint norm (fuel : nat) (t d : Z) : option Z :=
  match fuel with
  | O => None
  | S fuel' => if t <? B / 2 then norm fuel' (u32 (Z.shiftl t 1)) (d + 1) else Some d
  end.

(** The loop that corrects [qhat]; [entry] says that it is entered at the label
    [qhat_too_big]. *)
Fixpoint adjust (fuel : nat) (entry : bool) (v1 v2 uj2 qhat rhat : Z) : option Z :=
  match fuel with
  | O => None
  | S fuel' =>
      if entry || (COMBINE rhat uj2 <? u32 (v2 * qhat)) then
        let qhat := u32 (qhat - 1) in
        let rhat := u32 (rhat + v1) in
        if B <=? rhat then Some qhat else adjust fuel' false v1 v2 uj2 qhat rhat
      else Some qhat
  end.

(** D4: [for (t = 0, i = n; i > 0; i--)], multiply and subtract. *)
Fixpoint mulsub (i : nat) (us : list Z) (pu j : Z) (vs : list Z) (pv qhat t : Z)
  : option (list Z * Z) :=
  match i with
  | O => Some (us, t)
  | S i' =>
      let k := Z.of_nat i in
      x ← dget us (pu + k + j);
      y ← dget vs (pv + k);
      let t := u32 (x - u32 (y * qhat) - t) in
      us' ← dset us (pu + k + j) (u16 (LHALF t));
      mulsub i' us' pu j vs pv qhat (Z.land (u32 (B - HHALF t)) (B - 1))
  end.

(** D6: add back. *)
Fixpoint addback (i : nat) (us : list Z) (pu j : Z) (vs : list Z) (pv t : Z)
  : option (list Z * Z) :=
  match i with
  | O => Some (us, t)
  | S i' =>
      let k := Z.of_nat i in
      x ← dget us (pu + k + j);
      y ← dget vs (pv + k);
      let t := u32 (t + (x + y)) in
      us' ← dset us (pu + k + j) (u16 (LHALF t));
      addback i' us' pu j vs pv (HHALF t)
  end.

(** D3 to D6 for one [j]: the new dividend and the quotient digit. *)
Definition div_step (us : list Z) (pu : Z) (vs : list Z) (pv n j : Z) : option (list Z * Z) :=
  v1 ← dget vs (pv + 1);
  v2 ← dget vs (pv + 2);
  uj0 ← dget us (pu + j);
  uj1 ← dget us (pu + j + 1);
  uj2 ← dget us (pu + j + 2);
  qhat ← (if uj0 =? v1 then adjust 4 true v1 v2 uj2 B uj1
          else
            let nn := COMBINE uj0 uj1 in
            adjust 4 false v1 v2 uj2 (nn / v1) (nn mod v1));
  '(us1, t) ← mulsub (Z.to_nat n) us pu j vs pv qhat 0;
  x ← dget us1 (pu + j);
  let t := u32 (x - t) in
  us2 ← dset us1 (pu + j) (u16 (LHALF t));
  if negb (HHALF t =? 0) then
    '(us3, c) ← addback (Z.to_nat n) us2 pu j vs pv 0;
    y ← dget us3 (pu + j);
    us4 ← dset us3 (pu + j) (u16 (LHALF (u32 (y + c))));
    Some (us4, u16 (u32 (qhat - 1)))
  else Some (us2, u16 qhat).

(** [do ... while (++j <= m)], [cnt] iterations being left. *)
Fixpoint div_loop (cnt : nat) (us : list Z) (pu : Z) (vs : list Z) (pv n : Z)
  (qs : list Z) (pq j : Z) : option (list Z * list Z) :=
  match cnt with
  | O => Some (us, qs)
  | S cnt' =>
      '(us', qj) ← div_step us pu vs pv n j;
      qs' ← dset qs (pq + j) qj;
      div_loop cnt' us' pu vs pv n qs' pq (j + 1)
  end.

(** [for (i = m + n; i > m; --i)], the shift of the remainder; [cnt = i - m]. *)
Fixpoint shr (cnt : nat) (us : list Z) (pu m d : Z) : option (list Z) :=
  match cnt with
  | O => dset us (pu + m) 0
  | S cnt' =>
      let i := m + Z.of_nat cnt in
      x ← dget us (pu + i);
      y ← dget us (pu + i - 1);
      us' ← dset us (pu + i) (u16 (Z.lor (Z.shiftr x d) (LHALF (u32 (Z.shiftl y (HALF_BITS - d))))));
      shr cnt' us' pu m d
  end.

(** [for (i = 4 - m; --i >= 0;) q[i] = 0], from [cnt = i]. *)
Fixpoint clear_q (cnt : nat) (qs : list Z) : option (list Z) :=
  match cnt with
  | O => Some qs
  | S cnt' => qs' ← dset qs (Z.of_nat cnt') 0; clear_q cnt' qs'
  end.

(** The number in [a[1..4]]. *)
Definition get4 (a : list Z) : option Z :=
  a1 ← dget a 1; a2 ← dget a 2; a3 ← dget a 3; a4 ← dget a 4;
  Some (COMBINE a1 a2 * 2 ^ 32 + COMBINE a3 a4).

(** The arrays [u[0..4]] and [v[0..4]]. *)
Definition digits_of (zero ll : Z) : list Z :=
  [zero; u16 (HHALF (ui_H ll)); u16 (LHALF (ui_H ll)); u16 (HHALF (ui_L ll)); u16 (LHALF (ui_L ll))].

(** Division by a single digit. *)
Definition div_single (us : list Z) (t : Z) : option (Z * Z) :=
  u1 ← dget us 1; u2 ← dget us 2; u3 ← dget us 3; u4 ← dget us 4;
  let q1 := u16 (u1 / t) in
  let rbj := COMBINE (u1 mod t) u2 in
  let q2 := u16 (rbj / t) in
  let rbj := COMBINE (rbj mod t) u3 in
  let q3 := u16 (rbj / t) in
  let rbj := COMBINE (rbj mod t) u4 in
  let q4 := u16 (rbj / t) in
  Some (COMBINE q1 q2 * 2 ^ 32 + COMBINE q3 q4, rbj mod t).

Definition __qdivrem (junk ull vll : Z) : option (Z * Z) :=
  if vll =? 0 then None
  else if ull <? vll then Some (0, ull)
  else
    let us := digits_of 0 ull in
    let vs := digits_of junk vll in
    '(pv, n) ← lead_v 5 vs 0 4;
    if n =? 1 then t ← dget vs (pv + 2); div_single us t
    else
    '(pu, m) ← lead_u 5 us 0 (4 - n);
    qs ← clear_q (Z.to_nat (4 - m)) (replicate 5 junk);
    let pq := 4 - m in
    vtop ← dget vs (pv + 1);
    d ← norm 17 vtop 0;
    us ← (if 0 <? d then shl (Z.to_nat (m + n)) us pu 0 d else Some us);
    vs ← (if 0 <? d then shl (Z.to_nat (n - 1)) vs (pv + 1) 0 d else Some vs);
    '(us, qs) ← div_loop (Z.to_nat (m + 1)) us pu vs pv n qs pq 0;
    us ← (if negb (d =? 0) then shr (Z.to_nat n) us pu m d else Some us);
    r ← get4 us;
    q ← get4 qs;
    Some (q, r).

(** The operations built on it. *)
Definition __udivdi3 (junk a b : Z) : option Z := fst <$> __qdivrem junk a b.
Definition __umoddi3 (junk a b : Z) : option Z := snd <$> __qdivrem junk a b.

Definition __divdi3 (junk a b : Z) : option Z :=
  let '(ua, neg) := if a <? 0 then (u64 (- u64 a), true) else (u64 a, false) in
  let '(ub, neg) := if b <? 0 then (u64 (- u64 b), negb neg) else (u64 b, neg) in
  qr ← __qdivrem junk ua ub;
  Some (i64 (if (neg : bool) then u64 (- qr.1) else qr.1)).

Definition __moddi3 (junk a b : Z) : option Z :=
  let '(ua, neg) := if a <? 0 then (u64 (- u64 a), true) else (u64 a, false) in
  let ub := if b <? 0 then u64 (- u64 b) else u64 b in
  qr ← __qdivrem junk ua ub;
  Some (i64 (if (neg : bool) then u64 (- qr.2) else qr.2)).

(** ** Digits and numbers *)

(** Digit [i], and the number in the [c] digits from [k] on. *)
Definition dg (a : list Z) (i : Z) : Z := default 0 (arr_get a i).

Fixpoint dv (a : list Z) (k : Z) (c : nat) : Z :=
  match c with
  | O => 0
  | S c' => dv a k c' * B + dg a (k + Z.of_nat c')
  end.

Definition darray (a : list Z) : Prop :=
  length a = 5%nat ∧ ∀ i, 0 ≤ i < 5 → 0 ≤ dg a i < B.

Lemma dget_ok a i : length a = 5%nat → 0 ≤ i < 5 → dget a i = Some (dg a i).
Proof.
  intros Hl Hi. unfold dget, dg. destruct (arr_get_ex a i) as [x ->]; [lia|done].
Qed.

Lemma dset_ok a i x : length a = 5%nat → 0 ≤ i < 5 → dset a i x = Some (arr_set a i x).
Proof.
  intros Hl Hi. unfold dset. rewrite (proj2 (Z.leb_le _ _)), (proj2 (Z.ltb_lt _ _)) by lia. done.
Qed.

Lemma dg_set a i j x :
  length a = 5%nat → 0 ≤ i < 5 → dg (arr_set a i x) j = if decide (i = j) then x else dg a j.
Proof.
  intros Hl Hi. unfold dg. rewrite arr_get_set by lia. by case_decide.
Qed.

Lemma darray_set a i x : darray a → 0 ≤ i < 5 → 0 ≤ x < B → darray (arr_set a i x).
Proof.
  intros [Hl Hd] Hi Hx. split; [by rewrite length_arr_set|].
  intros j Hj. rewrite dg_set by done. case_decide; [done|by apply Hd].
Qed.

Lemma dv_ext a b k c :
  (∀ i, k ≤ i < k + Z.of_nat c → dg a i = dg b i) → dv a k c = dv b k c.
Proof.
  induction c as [|c IH]; intros He; [done|]. cbn [dv]. rewrite IH, He by (intros; try apply He; lia).
  done.
Qed.

Lemma dv_range a k c :
  darray a → 0 ≤ k → k + Z.of_nat c ≤ 5 → 0 ≤ dv a k c < B ^ Z.of_nat c.
Proof.
  intros [Hl Hd] Hk. induction c as [|c IH]; intros Hc; [done|]. cbn [dv].
  specialize (IH ltac:(lia)). specialize (Hd (k + Z.of_nat c) ltac:(lia)).
  rewrite Nat2Z.inj_succ, Z.pow_succ_r by lia. unfold B in *. nia.
Qed.

Lemma dv_app a k c1 c2 :
  dv a k (c1 + c2) = dv a k c1 * B ^ Z.of_nat c2 + dv a (k + Z.of_nat c1) c2.
Proof.
  induction c2 as [|c2 IH]; [rewrite Nat.add_0_r; cbn; lia|].
  rewrite Nat.add_succ_r. cbn [dv]. rewrite IH, Nat2Z.inj_succ, Z.pow_succ_r by lia.
  replace (k + Z.of_nat (c1 + c2)) with (k + Z.of_nat c1 + Z.of_nat c2) by lia. ring.
Qed.

(** The first digit. *)
Lemma dv_cons a k c : dv a k (S c) = dg a k * B ^ Z.of_nat c + dv a (k + 1) c.
Proof.
  change (S c) with (1 + c)%nat. rewrite dv_app. cbn [dv]. rewrite Z.add_0_r. done.
Qed.

Lemma B_pos c : 0 < B ^ Z.of_nat c.
Proof. apply Z.pow_pos_nonneg; unfold B; lia. Qed.

(** The macros on words and digits. *)
Lemma LHALF_mod x : LHALF x = x mod B.
Proof. unfold LHALF. change 0xffff with (2 ^ 16 - 1). by rewrite land_ones_low. Qed.

Lemma HHALF_div x : HHALF x = x / B.
Proof. unfold HHALF, HALF_BITS. by rewrite Z.shiftr_div_pow2. Qed.

Lemma LHALF_range x : 0 ≤ LHALF x < B.
Proof. rewrite LHALF_mod. by apply Z.mod_pos_bound. Qed.

Lemma COMBINE_add a b : 0 ≤ a < B → 0 ≤ b < B → COMBINE a b = a * B + b.
Proof.
  intros Ha Hb. unfold COMBINE, HALF_BITS, B in *. rewrite Z.shiftl_mul_pow2 by lia.
  rewrite wrap_small by lia. apply (lor_disjoint_add 16); [lia|by apply Z.mod_mul|done].
Qed.

(** ** D4 and D6 *)

(** One digit of a subtraction: the digit and the borrow. *)
Lemma sub_digit x y t :
  0 ≤ x < B → 0 ≤ y ≤ (B - 1) * (B - 1) → 0 ≤ t < B →
  let w := u32 (x - u32 y - t) in
  let b := Z.land (u32 (B - HHALF w)) (B - 1) in
  0 ≤ b < B ∧ LHALF w - b * B = x - y - t.
Proof.
  intros Hx Hy Ht w b. unfold b. rewrite HHALF_div. change (B - 1) with (2 ^ 16 - 1).
  rewrite land_ones_low, LHALF_mod by lia. unfold w. clear w b.
  rewrite (wrap_small 32 y) by (unfold B in *; lia).
  set (z := x - y - t). assert (Hz : - (B - 1) * B ≤ z < B) by (unfold z, B in *; lia).
  pose proof (Z.div_mod z B ltac:(done)) as Hdm. pose proof (Z.mod_pos_bound z B ltac:(done)) as Hmb.
  destruct (decide (0 ≤ z)).
  - rewrite (wrap_small 32 z) by (unfold B in *; lia). rewrite (Z.div_small z B), (Z.mod_small z B) by lia.
    change (u32 (B - 0) mod 2 ^ 16) with 0. unfold B in *. lia.
  - assert (u32 z = z + 2 ^ 32) as ->.
    { symmetry. apply (Z.mod_unique _ _ (-1)); unfold B in *; lia. }
    replace (z + 2 ^ 32) with (z + B * B) by done.
    rewrite Z.div_add, Z.mod_add by done.
    assert (Hq : - (B - 1) ≤ z / B < 0).
    { split; [apply Z.div_le_lower_bound; unfold B in *; lia|apply Z.div_lt_upper_bound; unfold B in *; lia]. }
    rewrite (wrap_small 32 (B - (z / B + B))) by (unfold B in *; lia).
    change (2 ^ 16) with B. rewrite Z.mod_small by (unfold B in *; lia). lia.
Qed.

Lemma u16_LHALF x : u16 (LHALF x) = LHALF x.
Proof. apply wrap_small. apply LHALF_range. Qed.

Lemma mulsub_spec i us pu j vs pv q t :
  darray us → darray vs → 0 ≤ pu + j → pu + j + Z.of_nat i < 5 → 0 ≤ pv → pv + Z.of_nat i < 5 →
  0 ≤ q < B → 0 ≤ t < B →
  ∃ us' t', mulsub i us pu j vs pv q t = Some (us', t') ∧ darray us' ∧
    (∀ k, ¬ pu + j < k ≤ pu + j + Z.of_nat i → dg us' k = dg us k) ∧ 0 ≤ t' < B ∧
    dv us' (pu + j + 1) i - t' * B ^ Z.of_nat i =
    dv us (pu + j + 1) i - q * dv vs (pv + 1) i - t.
Proof.
  revert us t. induction i as [|i IH]; intros us t Hus Hvs H1 H2 H3 H4 Hq Ht.
  { exists us, t. split_and!; try done; try lia. cbn. lia. }
  cbn [mulsub]. set (k := Z.of_nat (S i)) in *.
  pose proof (proj1 Hus) as Hlu. pose proof (proj1 Hvs) as Hlv.
  rewrite dget_ok by (try done; lia). cbn [mbind option_bind].
  rewrite dget_ok by (try done; lia). cbn [mbind option_bind].
  pose proof (proj2 Hus (pu + k + j) ltac:(lia)) as Hx.
  pose proof (proj2 Hvs (pv + k) ltac:(lia)) as Hy.
  assert (Hyq : 0 ≤ dg vs (pv + k) * q ≤ (B - 1) * (B - 1)) by (unfold B in *; nia).
  destruct (sub_digit _ _ t Hx Hyq Ht) as [Hb Heq]. set (w := u32 (_ - _ - t)) in *.
  set (b := Z.land _ _) in *. rewrite dset_ok by (try done; lia). cbn [mbind option_bind].
  rewrite u16_LHALF. set (us1 := arr_set us (pu + k + j) (LHALF w)).
  assert (Hd1 : darray us1) by (apply darray_set; [done|lia|apply LHALF_range]).
  destruct (IH us1 b Hd1 Hvs ltac:(lia) ltac:(lia) H3 ltac:(lia) Hq Hb) as (us' & t' & -> & Hd' & Hk' & Ht' & Heq').
  exists us', t'. split_and!; try done; try lia.
  - intros x Hx'. rewrite Hk' by lia. unfold us1. rewrite dg_set by (try done; lia).
    rewrite decide_False by lia. done.
  - cbn [dv]. unfold k. rewrite Nat2Z.inj_succ, Z.pow_succ_r by lia.
    assert (Hlow : dg us' (pu + j + 1 + Z.of_nat i) = LHALF w).
    { rewrite Hk' by lia. unfold us1. rewrite dg_set, decide_True by (try done; lia). done. }
    assert (Hsame : dv us1 (pu + j + 1) i = dv us (pu + j + 1) i).
    { apply dv_ext. intros x Hx'. unfold us1. rewrite dg_set, decide_False by (try done; lia). done. }
    rewrite Hlow. rewrite Hsame in Heq'.
    replace (pu + j + 1 + Z.of_nat i) with (pu + k + j) by lia.
    replace (pv + 1 + Z.of_nat i) with (pv + k) by lia.
    transitivity (B * (dv us' (pu + j + 1) i - t' * B ^ Z.of_nat i) + LHALF w); [ring|].
    rewrite Heq'. replace (LHALF w) with (dg us (pu + k + j) - dg vs (pv + k) * q - t + b * B) by lia.
    ring.
Qed.

Lemma add_digit x y t :
  0 ≤ x < B → 0 ≤ y < B → 0 ≤ t ≤ 1 →
  let w := u32 (t + (x + y)) in
  0 ≤ HHALF w ≤ 1 ∧ LHALF w + HHALF w * B = x + y + t.
Proof.
  intros Hx Hy Ht w. unfold w. rewrite (wrap_small 32) by (unfold B in *; lia).
  rewrite HHALF_div, LHALF_mod. pose proof (Z.div_mod (t + (x + y)) B ltac:(done)).
  split; [|lia]. split; [apply Z.div_pos; unfold B in *; lia|].
  enough ((t + (x + y)) / B < 2) by lia. apply Z.div_lt_upper_bound; unfold B in *; lia.
Qed.

Lemma addback_spec i us pu j vs pv t :
  darray us → darray vs → 0 ≤ pu + j → pu + j + Z.of_nat i < 5 → 0 ≤ pv → pv + Z.of_nat i < 5 →
  0 ≤ t ≤ 1 →
  ∃ us' t', addback i us pu j vs pv t = Some (us', t') ∧ darray us' ∧
    (∀ k, ¬ pu + j < k ≤ pu + j + Z.of_nat i → dg us' k = dg us k) ∧ 0 ≤ t' ≤ 1 ∧
    dv us' (pu + j + 1) i + t' * B ^ Z.of_nat i =
    dv us (pu + j + 1) i + dv vs (pv + 1) i + t.
Proof.
  revert us t. induction i as [|i IH]; intros us t Hus Hvs H1 H2 H3 H4 Ht.
  { exists us, t. split_and!; try done; try lia. cbn. lia. }
  cbn [addback]. set (k := Z.of_nat (S i)) in *.
  pose proof (proj1 Hus) as Hlu. pose proof (proj1 Hvs) as Hlv.
  rewrite dget_ok by (try done; lia). cbn [mbind option_bind].
  rewrite dget_ok by (try done; lia). cbn [mbind option_bind].
  pose proof (proj2 Hus (pu + k + j) ltac:(lia)) as Hx.
  pose proof (proj2 Hvs (pv + k) ltac:(lia)) as Hy.
  destruct (add_digit _ _ t Hx Hy Ht) as [Hb Heq]. set (w := u32 (t + _)) in *.
  rewrite dset_ok by (try done; lia). cbn [mbind option_bind].
  rewrite u16_LHALF. set (us1 := arr_set us (pu + k + j) (LHALF w)).
  assert (Hd1 : darray us1) by (apply darray_set; [done|lia|apply LHALF_range]).
  destruct (IH us1 (HHALF w) Hd1 Hvs ltac:(lia) ltac:(lia) H3 ltac:(lia) Hb) as (us' & t' & -> & Hd' & Hk' & Ht' & Heq').
  exists us', t'. split_and!; try done; try lia.
  - intros x Hx'. rewrite Hk' by lia. unfold us1. rewrite dg_set by (try done; lia).
    rewrite decide_False by lia. done.
  - cbn [dv]. unfold k. rewrite Nat2Z.inj_succ, Z.pow_succ_r by lia.
    assert (Hlow : dg us' (pu + j + 1 + Z.of_nat i) = LHALF w).
    { rewrite Hk' by lia. unfold us1. rewrite dg_set, decide_True by (try done; lia). done. }
    assert (Hsame : dv us1 (pu + j + 1) i = dv us (pu + j + 1) i).
    { apply dv_ext. intros x Hx'. unfold us1. rewrite dg_set, decide_False by (try done; lia). done. }
    rewrite Hlow. rewrite Hsame in Heq'.
    replace (pu + j + 1 + Z.of_nat i) with (pu + k + j) by lia.
    replace (pv + 1 + Z.of_nat i) with (pv + k) by lia.
    transitivity (B * (dv us' (pu + j + 1) i + t' * B ^ Z.of_nat i) + LHALF w); [ring|].
    rewrite Heq'. replace (LHALF w) with (dg us (pu + k + j) + dg vs (pv + k) + t - HHALF w * B) by lia.
    ring.
Qed.

(** ** D3 *)

(** The corrected estimate: at least any [Q] below [B] that the first three digits
    allow, and itself allowed by them. *)
Lemma adjust_spec fuel entry v1 v2 uj2 N qhat rhat Q :
  B / 2 ≤ v1 < B → 0 ≤ v2 < B → 0 ≤ uj2 < B →
  qhat * v1 + rhat = N → 0 ≤ rhat < B → B ≤ rhat + Z.of_nat fuel * v1 →
  0 ≤ Q → Q * (v1 * B + v2) ≤ N * B + uj2 →
  (if (entry : bool) then Q < qhat ≤ B else Q ≤ qhat < B) →
  ∃ q, adjust (S fuel) entry v1 v2 uj2 qhat rhat = Some q ∧ Q ≤ q < B ∧
    q * (v1 * B + v2) ≤ N * B + uj2.
Proof.
  intros Hv1 Hv2 Hu2. revert entry qhat rhat.
  induction fuel as [|fuel IH]; intros entry qhat rhat HN Hr Hf HQ HQ3 He; [cbn in Hf; lia|].
  assert (Hv1' : 0 < v1) by (unfold B in *; lia).
  assert (Hqr : 0 ≤ qhat ≤ B) by (destruct entry; lia).
  cbn [adjust]. rewrite COMBINE_add by done.
  assert (Hdec : Q < qhat → ∃ q,
    (if B <=? u32 (rhat + v1) then Some (u32 (qhat - 1))
     else adjust (S fuel) false v1 v2 uj2 (u32 (qhat - 1)) (u32 (rhat + v1))) = Some q ∧
    Q ≤ q < B ∧ q * (v1 * B + v2) ≤ N * B + uj2).
  { intros Hlt. rewrite (wrap_small 32 (qhat - 1)), (wrap_small 32 (rhat + v1)) by (unfold B in *; lia).
    destruct (Z.leb_spec B (rhat + v1)).
    - exists (qhat - 1). split; [done|]. split; [lia|].
      assert ((qhat - 1) * v2 ≤ (B - 1) * (B - 1)) by (apply Z.mul_le_mono_nonneg; lia).
      assert (B * B ≤ (rhat + v1) * B) by (apply Z.mul_le_mono_nonneg_r; unfold B in *; lia).
      replace (N * B + uj2) with ((qhat - 1) * (v1 * B) + ((rhat + v1) * B + uj2)) by (rewrite <- HN; ring).
      rewrite Z.mul_add_distr_l. unfold B in *. lia.
    - apply IH; try done; try lia. }
  destruct entry; cbn [orb]; [apply Hdec; lia|].
  assert (Hvq : 0 ≤ v2 * qhat < 2 ^ 32).
  { change (2 ^ 32) with (B * B). split; [lia|]. apply Z.mul_lt_mono_nonneg; lia. }
  rewrite (wrap_small 32 (v2 * qhat)) by done.
  destruct (Z.ltb_spec (rhat * B + uj2) (v2 * qhat)) as [Hgt|Hle].
  - apply Hdec. enough (Q * (v1 * B + v2) < qhat * (v1 * B + v2)).
    { apply (Z.mul_lt_mono_pos_r (v1 * B + v2)); [|done]. unfold B in *. lia. }
    eapply Z.le_lt_trans; [exact HQ3|]. rewrite <- HN. lia.
  - exists qhat. split; [done|]. split; [lia|]. rewrite <- HN. lia.
Qed.

(** The estimate exceeds the quotient by at most one: [b] is the weight of the
    digits beyond the first two of the divisor. *)
Lemma qhat_bound U V q v12 u012 b ulow :
  0 < b → 0 ≤ q < B → V < (v12 + 1) * b → B * b ≤ V → U = u012 * b + ulow → 0 ≤ ulow →
  q * v12 ≤ u012 → q * V < U + V.
Proof.
  intros Hb Hq HV HBV HU Hlow Hq3.
  assert (q * V ≤ q * ((v12 + 1) * b)) by (apply Z.mul_le_mono_nonneg_l; lia).
  assert (q * v12 * b ≤ u012 * b) by (apply Z.mul_le_mono_nonneg_r; lia).
  assert (q * b < B * b) by (apply Z.mul_lt_mono_pos_r; lia). lia.
Qed.

Lemma qhat_lower U V Q v12 u012 b ulow :
  0 < b → 0 ≤ Q → v12 * b ≤ V → U = u012 * b + ulow → ulow < b → Q * V ≤ U → Q * v12 ≤ u012.
Proof.
  intros Hb HQ HV HU Hlow HQV.
  assert (Q * (v12 * b) ≤ Q * V) by (apply Z.mul_le_mono_nonneg_l; lia).
  assert (Q * v12 * b < (u012 + 1) * b) by lia.
  assert (Q * v12 < u012 + 1); [|lia]. by apply (Z.mul_lt_mono_pos_r b).
Qed.

(** The digit estimate of one step, from the leading digits. *)
Lemma estimate uj0 uj1 uj2 v1 v2 b ulow V U :
  0 ≤ uj0 < B → 0 ≤ uj1 < B → 0 ≤ uj2 < B → B / 2 ≤ v1 < B → 0 ≤ v2 < B → 0 < b →
  0 ≤ ulow < b → U = ((uj0 * B + uj1) * B + uj2) * b + ulow →
  (v1 * B + v2) * b ≤ V < (v1 * B + v2 + 1) * b → U < V * B →
  ∃ q, (if uj0 =? v1 then adjust 4 true v1 v2 uj2 B uj1
        else adjust 4 false v1 v2 uj2 (COMBINE uj0 uj1 / v1) (COMBINE uj0 uj1 mod v1)) = Some q ∧
    0 ≤ q < B ∧ U / V ≤ q ∧ q * V < U + V.
Proof.
  intros H0 H1 H2 Hv1 Hv2 Hb Hul HU HV HUV.
  assert (Hv1p : 0 < v1) by (change (B / 2) with 32768 in Hv1; lia).
  assert (HBV : B * b ≤ V).
  { eapply Z.le_trans; [|apply HV]. apply Z.mul_le_mono_nonneg_r; [lia|].
    assert (1 * B ≤ v1 * B) by (apply Z.mul_le_mono_nonneg_r; [done|lia]). lia. }
  assert (HVp : 0 < V) by (assert (0 < B * b) by (by apply Z.mul_pos_pos); lia).
  pose proof (Z.div_mod U V ltac:(lia)) as Hdm. pose proof (Z.mod_pos_bound U V HVp) as Hmb.
  set (Q := U / V) in *.
  assert (HU0 : 0 ≤ U).
  { rewrite HU. apply Z.add_nonneg_nonneg; [|lia]. apply Z.mul_nonneg_nonneg; [|lia].
    clear - H0 H1 H2. unfold B in *. lia. }
  assert (HQ : 0 ≤ Q < B) by (split; [by apply Z.div_pos|apply Z.div_lt_upper_bound; lia]).
  assert (HQ3 : Q * (v1 * B + v2) ≤ (uj0 * B + uj1) * B + uj2).
  { apply (qhat_lower U V Q (v1 * B + v2) ((uj0 * B + uj1) * B + uj2) b ulow); (done || lia). }
  assert (Hle : uj0 ≤ v1).
  { destruct (decide (uj0 ≤ v1)); [done|exfalso].
    assert (Hbb : 0 ≤ B * B * b) by (apply Z.mul_nonneg_nonneg; [done|lia]).
    assert ((v1 + 1) * (B * B * b) ≤ uj0 * (B * B * b)) by (apply Z.mul_le_mono_nonneg_r; lia).
    assert (V * B < (v1 * B + v2 + 1) * b * B) by (apply Z.mul_lt_mono_pos_r; [done|lia]).
    assert ((v1 * B + v2 + 1) * b * B ≤ (v1 * B + B) * b * B).
    { apply Z.mul_le_mono_nonneg_r; [done|]. apply Z.mul_le_mono_nonneg_r; lia. }
    assert (0 ≤ (uj1 * B + uj2) * b).
    { apply Z.mul_nonneg_nonneg; [|lia]. apply Z.add_nonneg_nonneg; [|lia].
      apply Z.mul_nonneg_nonneg; [lia|done]. }
    lia. }
  assert (Hfin : ∀ q, Q ≤ q < B → q * (v1 * B + v2) ≤ (uj0 * B + uj1) * B + uj2 →
    0 ≤ q < B ∧ Q ≤ q ∧ q * V < U + V).
  { intros q Hq Hq3. split; [lia|]. split; [lia|].
    apply (qhat_bound U V q (v1 * B + v2) ((uj0 * B + uj1) * B + uj2) b ulow); (done || lia). }
  destruct (Z.eqb_spec uj0 v1) as [->|Hne].
  - destruct (adjust_spec 3 true v1 v2 uj2 (v1 * B + uj1) B uj1 Q) as (q & -> & Hq & Hq3); try done; try lia.
    { clear - Hv1 H1. change (B / 2) with 32768 in Hv1. change B with 65536 in *. lia. }
    exists q. split; [done|]. by apply Hfin.
  - rewrite COMBINE_add by done. set (N := uj0 * B + uj1) in *.
    pose proof (Z.div_mod N v1 ltac:(lia)) as HN. pose proof (Z.mod_pos_bound N v1 Hv1p) as HNm.
    assert (HNr : 0 ≤ N < v1 * B) by (clear - H0 H1 Hle Hne Hv1p; unfold N, B in *; lia).
    destruct (adjust_spec 3 false v1 v2 uj2 N (N / v1) (N mod v1) Q) as (q & -> & Hq & Hq3); try done; try lia.
    { clear - Hv1 HNm. change (B / 2) with 32768 in Hv1. change B with 65536 in *. lia. }
    { split; [|apply Z.div_lt_upper_bound; lia]. apply Z.div_le_lower_bound; [done|].
      assert (Q * v1 * B < (N + 1) * B); [|assert (Q * v1 < N + 1); [by apply (Z.mul_lt_mono_pos_r B)|lia]].
      assert (0 ≤ Q * v2) by (apply Z.mul_nonneg_nonneg; lia). lia. }
    exists q. split; [done|]. by apply Hfin.
Qed.

(** ** One step *)

Section step.
Context (us vs : list Z) (pu pv j : Z) (c : nat).
Context (Hus : darray us) (Hvs : darray vs).
Context (Hj : 0 ≤ pu + j) (Hjn : pu + j + Z.of_nat c < 5) (Hpv : 0 ≤ pv) (Hpn : pv + Z.of_nat c < 5).

Abbreviation V := (dv vs (pv + 1) c).
Abbreviation U := (dv us (pu + j) (S c)).

(** After multiply and subtract with a digit [q] that is the quotient or one more. *)
Lemma subtract_spec q :
  0 < V → 0 ≤ q < B → U / V ≤ q → q * V < U + V →
  ∃ us', (
    '(us1, t) ← mulsub c us pu j vs pv q 0;
    x ← dget us1 (pu + j);
    let t := u32 (x - t) in
    us2 ← dset us1 (pu + j) (u16 (LHALF t));
    if negb (HHALF t =? 0) then
      '(us3, c) ← addback c us2 pu j vs pv 0;
      y ← dget us3 (pu + j);
      us4 ← dset us3 (pu + j) (u16 (LHALF (u32 (y + c))));
      Some (us4, u16 (u32 (q - 1)))
    else Some (us2, u16 q)) = Some (us', U / V) ∧ darray us' ∧
    (∀ k, ¬ pu + j ≤ k ≤ pu + j + Z.of_nat c → dg us' k = dg us k) ∧
    dv us' (pu + j) (S c) = U mod V.
Proof using All.
  intros HV Hq HQ Hq1.
  destruct (mulsub_spec c us pu j vs pv q 0 Hus Hvs Hj Hjn Hpv Hpn Hq ltac:(done))
    as (us1 & t & -> & Hd1 & Hk1 & Ht & Heq).
  cbn [mbind option_bind]. rewrite dget_ok by (try apply Hd1; lia). cbn [mbind option_bind].
  rewrite (Hk1 (pu + j)) by lia. pose proof (proj2 Hus (pu + j) ltac:(lia)) as Hx.
  set (x := dg us (pu + j)) in *.
  rewrite dset_ok by (try apply Hd1; lia). cbn [mbind option_bind]. rewrite u16_LHALF.
  pose proof (dv_range us1 (pu + j + 1) c Hd1 ltac:(lia) ltac:(lia)) as Hr1.
  pose proof (dv_range vs (pv + 1) c Hvs ltac:(lia) ltac:(lia)) as HVr.
  pose proof (B_pos c) as HBc. set (W := B ^ Z.of_nat c) in *.
  assert (HD : U - q * V = (x - t) * W + dv us1 (pu + j + 1) c).
  { rewrite (dv_cons us). fold x W. lia. }
  pose proof (Z.div_mod U V ltac:(lia)) as Hdm. pose proof (Z.mod_pos_bound U V HV) as Hmb.
  set (us2 := arr_set us1 (pu + j) (LHALF (u32 (x - t)))).
  assert (Hd2 : darray us2) by (apply darray_set; [done|lia|apply LHALF_range]).
  assert (Hs2 : dv us2 (pu + j + 1) c = dv us1 (pu + j + 1) c).
  { apply dv_ext. intros i Hi. unfold us2. rewrite dg_set, decide_False by (try apply Hd1; lia). done. }
  assert (Hg2 : dg us2 (pu + j) = LHALF (u32 (x - t))).
  { unfold us2. rewrite dg_set, decide_True by (try apply Hd1; lia). done. }
  assert (Hk2 : ∀ k, ¬ pu + j ≤ k ≤ pu + j + Z.of_nat c → dg us2 k = dg us k).
  { intros k Hk. unfold us2. rewrite dg_set, decide_False by (try apply Hd1; lia). apply Hk1. lia. }
  destruct (decide (t ≤ x)) as [Hle|Hlt].
  - rewrite (wrap_small 32 (x - t)) in * by (clear - Hx Ht Hle; unfold B in *; lia).
    rewrite HHALF_div, Z.div_small by lia. cbn [Z.eqb negb].
    assert (0 ≤ (x - t) * W) by (apply Z.mul_nonneg_nonneg; lia).
    assert (HqV : q * V ≤ U) by lia.
    assert (U / V * V ≤ q * V) by (apply Z.mul_le_mono_nonneg_r; lia).
    assert (Hqe : q = U / V) by (apply (Z.div_unique_pos _ _ _ (U - q * V)); lia).
    exists us2. rewrite (wrap_small 16 q) by done. rewrite <- Hqe. split_and!; try done.
    rewrite dv_cons, Hs2, Hg2. fold W. rewrite LHALF_mod, Z.mod_small by lia.
    rewrite Hqe in HD. lia.
  - assert (Hw : u32 (x - t) = x - t + 2 ^ 32).
    { symmetry. apply (Z.mod_unique _ _ (-1)); clear - Hx Ht Hlt; unfold B in *; lia. }
    assert (Hneg : U - q * V < 0).
    { rewrite HD. assert ((x - t) * W ≤ (-1) * W) by (apply Z.mul_le_mono_nonneg_r; lia). lia. }
    assert (Hqe : q - 1 = U / V).
    { apply (Z.div_unique_pos _ _ _ (U - (q - 1) * V)); lia. }
    assert (HLH : HHALF (u32 (x - t)) = B - 1 ∧ LHALF (u32 (x - t)) = x - t + B).
    { rewrite Hw, HHALF_div, LHALF_mod. replace (x - t + 2 ^ 32) with (x - t + B + (B - 1) * B) by (unfold B; lia).
      rewrite Z.div_add, Z.mod_add, Z.div_small, Z.mod_small by (clear - Hx Ht Hlt; unfold B in *; lia). done. }
    destruct HLH as [-> HL]. cbn [negb].
    destruct (addback_spec c us2 pu j vs pv 0 Hd2 Hvs Hj Hjn Hpv Hpn ltac:(lia))
      as (us3 & cy & -> & Hd3 & Hk3 & Hcy & Heq3).
    change (negb (B - 1 =? 0)) with true. cbn [mbind option_bind].
    rewrite dget_ok by (try apply Hd3; lia). cbn [mbind option_bind].
    rewrite (Hk3 (pu + j)), Hg2, HL by lia.
    rewrite dset_ok by (try apply Hd3; lia). cbn [mbind option_bind]. rewrite u16_LHALF.
    pose proof (dv_range us3 (pu + j + 1) c Hd3 ltac:(lia) ltac:(lia)) as Hr3. fold W in Hr3.
    assert (Hsum : U mod V = (x - t + cy) * W + dv us3 (pu + j + 1) c).
    { rewrite Hs2 in Heq3. fold W in Heq3. rewrite <- Hqe in Hdm. lia. }
    assert (Hz : x - t + cy = 0).
    { assert (-1 < x - t + cy < 1); [|lia].
      split; apply (Z.mul_lt_mono_pos_r W); lia. }
    assert (HQ0 : 0 ≤ U / V) by (apply Z.div_pos; [apply dv_range; (done || lia)|done]).
    eexists. rewrite (wrap_small 32 (q - 1)), (wrap_small 16 (q - 1)) by (clear - Hqe Hq HQ0; unfold B in *; lia).
    rewrite Hqe. split; [reflexivity|]. split_and!.
    + apply darray_set; [done|lia|apply LHALF_range].
    + intros k Hk. rewrite dg_set, decide_False by (try apply Hd3; lia). rewrite Hk3 by lia. by apply Hk2.
    + rewrite dv_cons. fold W. rewrite dg_set, decide_True by (try apply Hd3; lia).
      replace (x - t + B + cy) with B by lia. change (LHALF (u32 B)) with 0.
      rewrite Hsum, Hz. rewrite !Z.mul_0_l, !Z.add_0_l. apply dv_ext.
      intros i Hi. rewrite dg_set, decide_False by (try apply Hd3; lia). done.
Qed.

End step.

Lemma div_step_spec us vs pu pv j c :
  darray us → darray vs → 0 ≤ pu + j → pu + j + Z.of_nat c < 5 → 0 ≤ pv → pv + Z.of_nat c < 5 →
  (2 ≤ c)%nat → B / 2 ≤ dg vs (pv + 1) → dv us (pu + j) (S c) < dv vs (pv + 1) c * B →
  ∃ us', div_step us pu vs pv (Z.of_nat c) j =
      Some (us', dv us (pu + j) (S c) / dv vs (pv + 1) c) ∧ darray us' ∧
    (∀ k, ¬ pu + j ≤ k ≤ pu + j + Z.of_nat c → dg us' k = dg us k) ∧
    dv us' (pu + j) (S c) = dv us (pu + j) (S c) mod dv vs (pv + 1) c.
Proof.
  intros Hus Hvs Hj Hjn Hpv Hpn Hc Hv1 HUV. destruct c as [|[|b]]; [lia|lia|].
  set (c := S (S b)) in *.
  assert (HVe : dv vs (pv + 1) c = (dg vs (pv + 1) * B + dg vs (pv + 2)) * B ^ Z.of_nat b + dv vs (pv + 3) b).
  { unfold c. rewrite !dv_cons. rewrite Nat2Z.inj_succ, Z.pow_succ_r by lia.
    replace (pv + 1 + 1) with (pv + 2) by lia. replace (pv + 2 + 1) with (pv + 3) by lia. ring. }
  assert (HUe : dv us (pu + j) (S c) = ((dg us (pu + j) * B + dg us (pu + j + 1)) * B + dg us (pu + j + 2))
    * B ^ Z.of_nat b + dv us (pu + j + 3) b).
  { unfold c. rewrite !dv_cons. rewrite !Nat2Z.inj_succ, !Z.pow_succ_r by lia.
    replace (pu + j + 1 + 1) with (pu + j + 2) by lia.
    replace (pu + j + 2 + 1) with (pu + j + 3) by lia. ring. }
  pose proof (dv_range vs (pv + 3) b Hvs ltac:(lia) ltac:(lia)) as Hvl.
  pose proof (dv_range us (pu + j + 3) b Hus ltac:(lia) ltac:(lia)) as Hul.
  pose proof (proj2 Hvs (pv + 1) ltac:(lia)) as Hd1. pose proof (proj2 Hvs (pv + 2) ltac:(lia)) as Hd2.
  destruct (estimate (dg us (pu + j)) (dg us (pu + j + 1)) (dg us (pu + j + 2)) (dg vs (pv + 1))
    (dg vs (pv + 2)) (B ^ Z.of_nat b) (dv us (pu + j + 3) b) (dv vs (pv + 1) c) (dv us (pu + j) (S c)))
    as (q & Hq & Hqr & HQ & Hq1);
    try (apply Hus; lia); try done; try apply B_pos; try lia.
  unfold div_step. pose proof (proj1 Hus) as Hlu. pose proof (proj1 Hvs) as Hlv.
  do 5 (rewrite dget_ok by (try done; lia); cbn [mbind option_bind]).
  rewrite Hq. cbn [mbind option_bind]. rewrite Nat2Z.id.
  assert (0 < dv vs (pv + 1) c).
  { rewrite HVe. pose proof (B_pos b). change (B / 2) with 32768 in Hv1.
    assert (1 * B ^ Z.of_nat b ≤ (dg vs (pv + 1) * B + dg vs (pv + 2)) * B ^ Z.of_nat b); [|lia].
    apply Z.mul_le_mono_nonneg_r; [lia|]. clear - Hv1 Hd2. unfold B in *. lia. }
  by apply (subtract_spec us vs pu pv j c).
Qed.

(** ** The loop *)

(** After the steps, the dividend is the remainder and the quotient digits are in
    place. *)
Lemma div_loop_spec cnt us vs qs pu pv pq c j :
  darray us → darray vs → length qs = 5%nat → (∀ i, 0 ≤ i < pq + j → 0 ≤ dg qs i < B) →
  0 ≤ pu → 0 ≤ j → pu + j + Z.of_nat (cnt + c) ≤ 5 → 0 ≤ pv → pv + Z.of_nat c < 5 →
  (2 ≤ c)%nat → 0 ≤ pq → pq + j + Z.of_nat cnt = 5 → B / 2 ≤ dg vs (pv + 1) →
  dv us (pu + j) c < dv vs (pv + 1) c →
  ∃ us' qs', div_loop cnt us pu vs pv (Z.of_nat c) qs pq j = Some (us', qs') ∧
    darray us' ∧ darray qs' ∧ (∀ i, i < pu + j → dg us' i = dg us i) ∧
    (∀ i, i < pq + j → dg qs' i = dg qs i) ∧
    (∀ i, pu + j ≤ i < pu + j + Z.of_nat cnt → dg us' i = 0) ∧
    dv us (pu + j) (c + cnt) = dv qs' (pq + j) cnt * dv vs (pv + 1) c + dv us' (pu + j + Z.of_nat cnt) c ∧
    0 ≤ dv us' (pu + j + Z.of_nat cnt) c < dv vs (pv + 1) c.
Proof.
  revert us qs j. induction cnt as [|cnt IH];
    intros us qs j Hus Hvs Hlq Hqs Hpu Hj Hb Hpv Hpn Hc Hpq Hpqn Hv1 Hlt.
  { exists us, qs. split; [done|]. rewrite Z.add_0_r, Nat.add_0_r.
    pose proof (dv_range us (pu + j) c Hus ltac:(lia) ltac:(lia)).
    assert (darray qs) by (split; [done|]; intros i Hi; apply Hqs; lia).
    split_and!; try done; try lia. }
  set (V := dv vs (pv + 1) c) in *.
  assert (HU : dv us (pu + j) (S c) < V * B).
  { cbn [dv]. pose proof (proj2 Hus (pu + j + Z.of_nat c) ltac:(lia)).
    assert (dv us (pu + j) c * B ≤ (V - 1) * B) by (apply Z.mul_le_mono_nonneg_r; [done|lia]). lia. }
  destruct (div_step_spec us vs pu pv j c Hus Hvs ltac:(lia) ltac:(lia) Hpv Hpn Hc Hv1 HU)
    as (us1 & Hst & Hd1 & Hk1 & Hr1). fold V in Hst, Hr1.
  cbn [div_loop]. rewrite Hst. cbn [mbind option_bind].
  set (U := dv us (pu + j) (S c)) in *. set (q := U / V) in *.
  rewrite dset_ok by (try done; lia). cbn [mbind option_bind].
  assert (HV : 0 < V).
  { pose proof (dv_range us (pu + j) c Hus ltac:(lia) ltac:(lia)). lia. }
  pose proof (dv_range us (pu + j) (S c) Hus ltac:(lia) ltac:(lia)) as HU0. fold U in HU0.
  assert (Hq : 0 ≤ q < B) by (split; [apply Z.div_pos; lia|apply Z.div_lt_upper_bound; lia]).
  set (qs1 := arr_set qs (pq + j) q).
  assert (Hg1 : ∀ i, dg qs1 i = if decide (pq + j = i) then q else dg qs i).
  { intros i. apply dg_set; [done|lia]. }
  pose proof (Z.mod_pos_bound U V HV) as Hmb. pose proof (Z.div_mod U V ltac:(lia)) as Hdm.
  pose proof (dv_range vs (pv + 1) c Hvs ltac:(lia) ltac:(lia)) as HVr. fold V in HVr.
  pose proof (dv_range us1 (pu + j + 1) c Hd1 ltac:(lia) ltac:(lia)) as Hr1'.
  pose proof (proj2 Hd1 (pu + j) ltac:(lia)) as Htop.
  assert (H0 : dg us1 (pu + j) = 0).
  { rewrite dv_cons in Hr1. destruct (decide (dg us1 (pu + j) = 0)); [done|].
    assert (1 * B ^ Z.of_nat c ≤ dg us1 (pu + j) * B ^ Z.of_nat c) by (apply Z.mul_le_mono_nonneg_r; lia).
    lia. }
  assert (Hrem : dv us1 (pu + (j + 1)) c = U mod V).
  { rewrite dv_cons, H0 in Hr1. rewrite Z.add_assoc. lia. }
  destruct (IH us1 qs1 (j + 1)) as (us' & qs' & -> & Hd' & Hdq & Hku & Hkq & Hz & Heq & Hlt');
    try done; try lia.
  { unfold qs1. by rewrite length_arr_set. }
  { intros i Hi. rewrite Hg1. case_decide; [done|]. apply Hqs. lia. }
  exists us', qs'. split; [done|]. split_and!; try done.
  - intros i Hi. rewrite Hku by lia. apply Hk1. lia.
  - intros i Hi. rewrite Hkq by lia. rewrite Hg1, decide_False by lia. done.
  - intros i Hi. destruct (decide (i = pu + j)) as [->|]; [rewrite Hku by lia; done|]. apply Hz. lia.
  - replace (pu + j + Z.of_nat (S cnt)) with (pu + (j + 1) + Z.of_nat cnt) by lia.
    replace (c + S cnt)%nat with (S c + cnt)%nat by lia. rewrite dv_app. fold U.
    rewrite dv_app, Hrem in Heq.
    assert (Htail : dv us1 (pu + (j + 1) + Z.of_nat c) cnt = dv us (pu + j + Z.of_nat (S c)) cnt).
    { replace (pu + (j + 1) + Z.of_nat c) with (pu + j + Z.of_nat (S c)) by lia.
      apply dv_ext. intros i Hi. apply Hk1. lia. }
    rewrite dv_cons. rewrite (Hkq (pq + j)), Hg1, decide_True by lia.
    replace (pq + j + 1) with (pq + (j + 1)) by lia.
    rewrite Htail in Heq. rewrite Hdm at 1. fold q. lia.
  - replace (pu + j + Z.of_nat (S cnt)) with (pu + (j + 1) + Z.of_nat cnt) by lia. apply Hlt'.
  - replace (pu + j + Z.of_nat (S cnt)) with (pu + (j + 1) + Z.of_nat cnt) by lia. apply Hlt'.
Qed.

(** ** Normalisation *)

Lemma norm_spec fuel t d0 :
  0 < t < B → B / 2 ≤ t * 2 ^ (Z.of_nat fuel) →
  ∃ d, norm (S fuel) t d0 = Some (d0 + d) ∧ 0 ≤ d ≤ Z.of_nat fuel ∧ B / 2 ≤ t * 2 ^ d < B.
Proof.
  change (B / 2) with 32768. revert t d0. induction fuel as [|fuel IH]; intros t d0 Ht Hf.
  { exists 0. cbn [norm]. change (B / 2) with 32768. rewrite (proj2 (Z.ltb_ge _ _)) by lia.
    rewrite Z.add_0_r. split; [done|]. lia. }
  cbn [norm]. change (B / 2) with 32768. destruct (Z.ltb_spec t 32768) as [Hlt|Hge].
  - rewrite Z.shiftl_mul_pow2, wrap_small by (unfold B in *; lia). rewrite Z.pow_1_r.
    rewrite Nat2Z.inj_succ, Z.pow_succ_r in Hf by lia.
    destruct (IH (t * 2) (d0 + 1)) as (d & Hn & Hd & Hb); [unfold B in *; lia|lia|].
    exists (d + 1). cbn [norm] in Hn. change (B / 2) with 32768 in Hn. rewrite Hn.
    split; [f_equal; lia|]. split; [lia|]. rewrite Z.pow_add_r by lia. lia.
  - exists 0. rewrite Z.add_0_r. split; [done|]. lia.
Qed.

Lemma B_split sh : 0 < sh < 16 → B = 2 ^ (16 - sh) * 2 ^ sh.
Proof.
  intros Hsh. rewrite <- Z.pow_add_r by lia. by replace (16 - sh + sh) with 16 by lia.
Qed.

(** A digit shifted left, with the bits that come from the next digit. *)
Lemma shl_digit x h sh :
  0 ≤ x < B → 0 < sh < 16 → 0 ≤ h < 2 ^ sh →
  u16 (Z.lor (LHALF (u32 (Z.shiftl x sh))) h) = (x * 2 ^ sh + h) mod B ∧
  (x * 2 ^ sh + h) mod B = x * 2 ^ sh mod B + h.
Proof.
  intros Hx Hsh Hh. rewrite Z.shiftl_mul_pow2 by lia.
  pose proof (B_split sh Hsh) as H2.
  pose proof (Z.pow_pos_nonneg 2 sh). pose proof (Z.pow_pos_nonneg 2 (16 - sh)).
  assert (Hsb : 2 ^ sh < B) by (change B with (2 ^ 16); apply Z.pow_lt_mono_r; lia).
  assert (Hx2 : x * 2 ^ sh < B * B) by (apply Z.mul_lt_mono_nonneg; lia).
  assert (Hx0 : 0 ≤ x * 2 ^ sh) by (apply Z.mul_nonneg_nonneg; lia).
  rewrite (wrap_small 32) by exact (conj Hx0 Hx2). rewrite LHALF_mod.
  assert (Hm : x * 2 ^ sh mod B = (x mod 2 ^ (16 - sh)) * 2 ^ sh).
  { rewrite H2 at 1. rewrite Z.mul_mod_distr_r by lia. done. }
  pose proof (Z.mod_pos_bound x (2 ^ (16 - sh)) ltac:(lia)) as Hmb.
  assert (Hle : x mod 2 ^ (16 - sh) * 2 ^ sh + h < B).
  { assert (x mod 2 ^ (16 - sh) * 2 ^ sh ≤ (2 ^ (16 - sh) - 1) * 2 ^ sh) by (apply Z.mul_le_mono_nonneg_r; lia).
    lia. }
  assert (Hs : (x * 2 ^ sh + h) mod B = x * 2 ^ sh mod B + h).
  { rewrite <- Zplus_mod_idemp_l, Hm. apply Z.mod_small. lia. }
  split; [|done]. rewrite Hs, Hm. rewrite (lor_disjoint_add sh); [|lia|apply Z.mod_mul; lia|done].
  apply wrap_small. change (2 ^ 16) with B. lia.
Qed.

(** The digit that crosses into the next one: the high bits of a number are those
    of its first digit. *)
Lemma high_bits y tl b sh :
  0 ≤ y < B → 0 < sh < 16 → 0 < b → 0 ≤ tl < b →
  (y * b + tl) * 2 ^ sh / (b * B) = y / 2 ^ (16 - sh).
Proof.
  intros Hy Hsh Hb Htl.
  pose proof (B_split sh Hsh) as H2.
  pose proof (Z.pow_pos_nonneg 2 sh). pose proof (Z.pow_pos_nonneg 2 (16 - sh)).
  rewrite H2. replace (b * (2 ^ (16 - sh) * 2 ^ sh)) with (b * 2 ^ (16 - sh) * 2 ^ sh) by ring.
  rewrite Z.div_mul_cancel_r by lia. rewrite <- Z.div_div by lia. f_equal.
  symmetry. apply (Z.div_unique_pos _ _ _ tl); lia.
Qed.

Lemma high_range y sh : 0 ≤ y < B → 0 < sh < 16 → 0 ≤ y / 2 ^ (16 - sh) < 2 ^ sh.
Proof.
  intros Hy Hsh. pose proof (Z.pow_pos_nonneg 2 (16 - sh)).
  split; [apply Z.div_pos; lia|]. apply Z.div_lt_upper_bound; [lia|].
  rewrite <- (B_split sh Hsh). lia.
Qed.

Lemma shl_spec cnt a p i sh :
  darray a → 0 ≤ p + i → p + i + Z.of_nat cnt < 5 → 0 < sh < 16 →
  ∃ a', shl cnt a p i sh = Some a' ∧ darray a' ∧
    (∀ k, ¬ p + i ≤ k ≤ p + i + Z.of_nat cnt → dg a' k = dg a k) ∧
    dv a' (p + i) (S cnt) = dv a (p + i) (S cnt) * 2 ^ sh mod B ^ Z.of_nat (S cnt).
Proof.
  revert a i. induction cnt as [|cnt IH]; intros a i Ha H1 H2 Hsh; pose proof (proj1 Ha) as Hl;
    pose proof (proj2 Ha (p + i) ltac:(lia)) as Hx; cbn [shl].
  - rewrite dget_ok by (done || lia). cbn [mbind option_bind]. rewrite dset_ok by (done || lia).
    destruct (shl_digit (dg a (p + i)) 0 sh Hx Hsh) as [Hd _].
    { split; [done|]. apply Z.pow_pos_nonneg; lia. }
    rewrite Z.lor_0_r, Z.add_0_r in Hd. rewrite Hd. eexists. split; [done|]. split_and!.
    + apply darray_set; [done|lia|]. by apply Z.mod_pos_bound.
    + intros k Hk. rewrite dg_set, decide_False by (done || lia). done.
    + cbn [dv]. rewrite Z.add_0_r, dg_set, decide_True by (done || lia).
      rewrite !Z.mul_0_l, !Z.add_0_l. done.
  - rewrite dget_ok by (done || lia). cbn [mbind option_bind].
    rewrite dget_ok by (done || lia). cbn [mbind option_bind]. rewrite dset_ok by (done || lia).
    cbn [mbind option_bind]. pose proof (proj2 Ha (p + i + 1) ltac:(lia)) as Hy.
    set (x := dg a (p + i)) in *. set (y := dg a (p + i + 1)) in *.
    unfold HALF_BITS. rewrite (Z.shiftr_div_pow2 y) by lia.
    pose proof (high_range y sh Hy Hsh) as Hh.
    destruct (shl_digit x _ sh Hx Hsh Hh) as [Hd _]. rewrite Hd. clear Hd.
    set (h := y / 2 ^ (16 - sh)) in *. set (w := (x * 2 ^ sh + h) mod B).
    assert (Hw : 0 ≤ w < B) by (by apply Z.mod_pos_bound).
    set (a1 := arr_set a (p + i) w).
    assert (Ha1 : darray a1) by (by apply darray_set; [done|lia|]).
    destruct (IH a1 (i + 1) Ha1) as (a' & -> & Ha' & Hk & Heq); [lia|lia|done|].
    exists a'. split; [done|]. split; [done|].
    assert (Hg : ∀ k, dg a1 k = if decide (p + i = k) then w else dg a k).
    { intros k. apply dg_set; [done|lia]. }
    split.
    + intros k Hk'. rewrite Hk, Hg, decide_False by lia. done.
    + rewrite dv_cons, (dv_cons a (p + i) (S cnt)). fold x.
      rewrite (Hk (p + i)), Hg, decide_True by lia. rewrite <- Z.add_assoc, Heq.
      replace (p + (i + 1)) with (p + i + 1) by lia.
      assert (Hs : dv a1 (p + i + 1) (S cnt) = dv a (p + i + 1) (S cnt)).
      { apply dv_ext. intros k Hk'. rewrite Hg, decide_False by lia. done. }
      rewrite Hs. set (T := dv a (p + i + 1) (S cnt)) in *.
      set (W := B ^ Z.of_nat (S cnt)) in *. pose proof (B_pos (S cnt)) as HW. fold W in HW.
      assert (HTW : T * 2 ^ sh / W = h).
      { unfold T, W. rewrite dv_cons. fold y. rewrite Nat2Z.inj_succ, Z.pow_succ_r by lia.
        rewrite (Z.mul_comm B). apply high_bits; try done; [apply B_pos|].
        apply dv_range; [done|lia|lia]. }
      pose proof (Z.div_mod (T * 2 ^ sh) W ltac:(lia)) as Hdm. rewrite HTW in Hdm.
      replace (B ^ Z.of_nat (S (S cnt))) with (W * B) by (unfold W; rewrite !Nat2Z.inj_succ, !Z.pow_succ_r by lia; ring).
      replace ((x * W + T) * 2 ^ sh) with ((x * 2 ^ sh + h) * W + (T * 2 ^ sh) mod W) by lia.
      pose proof (Z.mod_pos_bound (T * 2 ^ sh) W HW) as Hm.
      rewrite (Z.rem_mul_r _ W B) by lia. rewrite Z.div_add_l, (Z.div_small (_ mod _)) by lia.
      rewrite Z.add_0_r. fold w. set (r := T * 2 ^ sh mod W) in *.
      assert (((x * 2 ^ sh + h) * W + r) mod W = r) as ->; [|lia].
      rewrite (Z.add_comm _ r), Z.mod_add by lia. by apply Z.mod_small.
Qed.

(** A digit shifted right, with the bits that come from the digit above. *)
Lemma shr_digit x y d :
  0 ≤ x < B → 0 ≤ y < B → 0 < d < 16 →
  u16 (Z.lor (Z.shiftr x d) (LHALF (u32 (Z.shiftl y (HALF_BITS - d))))) =
  x / 2 ^ d + (y mod 2 ^ d) * 2 ^ (16 - d) ∧
  0 ≤ x / 2 ^ d + (y mod 2 ^ d) * 2 ^ (16 - d) < B.
Proof.
  intros Hx Hy Hd. unfold HALF_BITS. rewrite Z.shiftr_div_pow2, Z.shiftl_mul_pow2 by lia.
  pose proof (B_split (16 - d) ltac:(lia)) as H2. replace (16 - (16 - d)) with d in H2 by lia.
  pose proof (Z.pow_pos_nonneg 2 d). pose proof (Z.pow_pos_nonneg 2 (16 - d)).
  assert (Hsb : 2 ^ (16 - d) < B) by (change B with (2 ^ 16); apply Z.pow_lt_mono_r; lia).
  assert (Hx2 : y * 2 ^ (16 - d) < B * B) by (apply Z.mul_lt_mono_nonneg; lia).
  assert (Hx0 : 0 ≤ y * 2 ^ (16 - d)) by (apply Z.mul_nonneg_nonneg; lia).
  rewrite (wrap_small 32) by exact (conj Hx0 Hx2). rewrite LHALF_mod.
  assert (Hm : y * 2 ^ (16 - d) mod B = (y mod 2 ^ d) * 2 ^ (16 - d)).
  { rewrite H2 at 1. rewrite Z.mul_mod_distr_r by lia. done. }
  rewrite Hm. pose proof (Z.mod_pos_bound y (2 ^ d) ltac:(lia)) as Hmb.
  assert (Hxd : 0 ≤ x / 2 ^ d < 2 ^ (16 - d)).
  { split; [apply Z.div_pos; lia|]. apply Z.div_lt_upper_bound; [lia|]. rewrite <- H2. lia. }
  assert (y mod 2 ^ d * 2 ^ (16 - d) ≤ (2 ^ d - 1) * 2 ^ (16 - d)) by (apply Z.mul_le_mono_nonneg_r; lia).
  assert (0 ≤ y mod 2 ^ d * 2 ^ (16 - d)) by (apply Z.mul_nonneg_nonneg; lia).
  assert (Hr : 0 ≤ x / 2 ^ d + y mod 2 ^ d * 2 ^ (16 - d) < B) by lia.
  split; [|done]. rewrite Z.lor_comm, (lor_disjoint_add (16 - d)); [|lia|apply Z.mod_mul; lia|done].
  rewrite Z.add_comm. by apply wrap_small.
Qed.

Lemma shr_spec cnt us pu m d :
  darray us → 0 ≤ pu + m → pu + m + Z.of_nat cnt < 5 → 0 < d < 16 →
  ∃ us', shr cnt us pu m d = Some us' ∧ darray us' ∧ dg us' (pu + m) = 0 ∧
    (∀ k, ¬ pu + m ≤ k ≤ pu + m + Z.of_nat cnt → dg us' k = dg us k) ∧
    dv us' (pu + m + 1) cnt = (dv us (pu + m) (S cnt) / 2 ^ d) mod B ^ Z.of_nat cnt.
Proof.
  revert us. induction cnt as [|cnt IH]; intros us Hus H1 H2 Hd; pose proof (proj1 Hus) as Hl; cbn [shr].
  - rewrite dset_ok by (done || lia). eexists. split; [done|]. split_and!.
    + apply darray_set; [done|lia|done].
    + rewrite dg_set, decide_True by (done || lia). done.
    + intros k Hk. rewrite dg_set, decide_False by (done || lia). done.
    + cbn [dv]. by rewrite Z.mod_1_r.
  - set (i := m + Z.of_nat (S cnt)). rewrite dget_ok by (done || lia). cbn [mbind option_bind].
    rewrite dget_ok by (done || lia). cbn [mbind option_bind]. rewrite dset_ok by (done || lia).
    cbn [mbind option_bind]. pose proof (proj2 Hus (pu + i) ltac:(lia)) as Hx.
    pose proof (proj2 Hus (pu + i - 1) ltac:(lia)) as Hy.
    set (x := dg us (pu + i)) in *. set (y := dg us (pu + i - 1)) in *.
    destruct (shr_digit x y d Hx Hy Hd) as [-> Hw]. set (w := x / 2 ^ d + _) in *.
    set (us1 := arr_set us (pu + i) w).
    assert (Hus1 : darray us1) by (by apply darray_set; [done|lia|]).
    destruct (IH us1 Hus1) as (us' & -> & Hd' & Hz & Hk & Heq); [lia|lia|done|].
    assert (Hg : ∀ k, dg us1 k = if decide (pu + i = k) then w else dg us k).
    { intros k. apply dg_set; [done|lia]. }
    exists us'. split_and!; try done.
    + intros k Hk'. rewrite Hk, Hg, decide_False by lia. done.
    + cbn [dv]. replace (pu + m + 1 + Z.of_nat cnt) with (pu + i) by lia.
      rewrite (Hk (pu + i)), Hg, decide_True by lia. rewrite Heq.
      assert (Hs : dv us1 (pu + m) (S cnt) = dv us (pu + m) (S cnt)).
      { apply dv_ext. intros k Hk'. rewrite Hg, decide_False by lia. done. }
      rewrite Hs. change (dv us (pu + m) cnt * B + dg us (pu + m + Z.of_nat cnt)) with (dv us (pu + m) (S cnt)).
      replace (pu + m + Z.of_nat (S cnt)) with (pu + i) by lia. fold x.
      set (T := dv us (pu + m) (S cnt)) in *.
      assert (HT : T mod 2 ^ d = y mod 2 ^ d).
      { unfold T. cbn [dv]. replace (pu + m + Z.of_nat cnt) with (pu + i - 1) by lia. fold y.
        rewrite (B_split (16 - d) ltac:(lia)). replace (16 - (16 - d)) with d by lia.
        rewrite Z.mul_assoc, <- Z.mul_assoc, (Z.mul_comm (2 ^ d)), Z.mul_assoc, Z.add_comm.
        apply Z.mod_add. pose proof (Z.pow_pos_nonneg 2 d). lia. }
      pose proof (Z.pow_pos_nonneg 2 d ltac:(lia) ltac:(lia)) as Hp.
      assert (Hdiv : (T * B + x) / 2 ^ d = T / 2 ^ d * B + w).
      { unfold w. rewrite <- HT.
        pose proof (B_split (16 - d) ltac:(lia)) as HB2. replace (16 - (16 - d)) with d in HB2 by lia.
        pose proof (Z.div_mod T (2 ^ d) ltac:(lia)) as HTd.
        replace (T * B + x) with (x + T * 2 ^ (16 - d) * 2 ^ d) by (rewrite HB2; ring).
        rewrite Z.div_add by lia. rewrite HTd at 1. rewrite HB2. ring. }
      rewrite Hdiv. rewrite Nat2Z.inj_succ, Z.pow_succ_r by lia.
      pose proof (B_pos cnt). rewrite (Z.rem_mul_r _ B) by (done || lia).
      rewrite Z.div_add_l, (Z.div_small w), Z.add_0_r by (done || lia).
      rewrite (Z.add_comm (T / 2 ^ d * B)), Z.mod_add, (Z.mod_small w) by (done || lia). lia.
Qed.

(** ** Leading zeros *)

Lemma darray_inv a :
  darray a → ∃ a0 a1 a2 a3 a4, a = [a0; a1; a2; a3; a4] ∧
    0 ≤ a0 < B ∧ 0 ≤ a1 < B ∧ 0 ≤ a2 < B ∧ 0 ≤ a3 < B ∧ 0 ≤ a4 < B.
Proof.
  intros [Hl Hd]. destruct a as [|a0 [|a1 [|a2 [|a3 [|a4 [|]]]]]]; try done.
  exists a0, a1, a2, a3, a4. split; [done|].
  split_and!; first [apply (Hd 0); lia|apply (Hd 1); lia|apply (Hd 2); lia|apply (Hd 3); lia|apply (Hd 4); lia].
Qed.

Lemma dv4 a0 a1 a2 a3 a4 : dv [a0; a1; a2; a3; a4] 1 4 = ((a1 * B + a2) * B + a3) * B + a4.
Proof. reflexivity. Qed.

Lemma lead_v_spec vs :
  darray vs →
  ∃ pv n, lead_v 5 vs 0 4 = Some (pv, n) ∧
    ((n = 1 ∧ pv = 2 ∧ dv vs 1 4 = dg vs 4) ∨
     (2 ≤ n ≤ 4 ∧ pv = 4 - n ∧ dv vs 1 4 = dv vs (pv + 1) (Z.to_nat n) ∧ dg vs (pv + 1) ≠ 0)).
Proof.
  intros (v0 & v1 & v2 & v3 & v4 & -> & _)%darray_inv.
  change (lead_v 5 [v0; v1; v2; v3; v4] 0 4) with
    (if v1 =? 0 then if v2 =? 0 then if v3 =? 0 then Some (2, 1) else Some (2, 2)
                     else Some (1, 3) else Some (0, 4)).
  rewrite dv4. destruct (Z.eqb_spec v1 0) as [->|].
  2:{ exists 0, 4. split; [done|]. right. split; [lia|]. split; [done|]. split; [reflexivity|done]. }
  destruct (Z.eqb_spec v2 0) as [->|].
  2:{ exists 1, 3. split; [done|]. right. split; [lia|]. by split. }
  destruct (Z.eqb_spec v3 0) as [->|].
  2:{ exists 2, 2. split; [done|]. right. split; [lia|]. by split. }
  exists 2, 1. split; [done|]. left. done.
Qed.

Lemma lead_u_spec us m :
  darray us → dv us 1 4 ≠ 0 →
  ∃ pu, lead_u 5 us 0 m = Some (pu, m - pu) ∧ 0 ≤ pu ≤ 3 ∧
    (∀ i, 1 ≤ i ≤ pu → dg us i = 0) ∧ dg us (pu + 1) ≠ 0.
Proof.
  intros (u0 & u1 & u2 & u3 & u4 & -> & _)%darray_inv Hnz. rewrite dv4 in Hnz.
  assert (lead_u 5 [u0; u1; u2; u3; u4] 0 m =
    (if u1 =? 0 then if u2 =? 0 then if u3 =? 0 then
       if u4 =? 0 then None else Some (3, m - 1 - 1 - 1)
       else Some (2, m - 1 - 1) else Some (1, m - 1) else Some (0, m))) as -> by reflexivity.
  assert (Hz : ∀ k i, 1 ≤ i ≤ k → i = 1 ∨ i = 2 ∨ i = 3 ∨ 3 < k) by lia.
  destruct (Z.eqb_spec u1 0) as [->|].
  2:{ exists 0. split; [f_equal; f_equal; lia|]. split; [lia|]. split; [lia|done]. }
  destruct (Z.eqb_spec u2 0) as [->|].
  2:{ exists 1. split; [done|]. split; [lia|]. split; [|done]. intros i Hi. by replace i with 1 by lia. }
  destruct (Z.eqb_spec u3 0) as [->|].
  2:{ exists 2. split; [f_equal; f_equal; lia|]. split; [lia|]. split; [|done].
      intros i Hi. destruct (Hz 2 i Hi) as [->|[->|[->|?]]]; (done || lia). }
  destruct (Z.eqb_spec u4 0) as [->|]; [done|].
  exists 3. split; [f_equal; f_equal; lia|]. split; [lia|]. split; [|done].
  intros i Hi. destruct (Hz 3 i Hi) as [->|[->|[->|?]]]; (done || lia).
Qed.

Lemma clear_q_spec cnt qs :
  (cnt ≤ 5)%nat → length qs = 5%nat →
  ∃ qs', clear_q cnt qs = Some qs' ∧ length qs' = 5%nat ∧
    (∀ i, 0 ≤ i < Z.of_nat cnt → dg qs' i = 0) ∧ (∀ i, Z.of_nat cnt ≤ i → dg qs' i = dg qs i).
Proof.
  revert qs. induction cnt as [|cnt IH]; intros qs Hc Hl.
  { exists qs. split_and!; try done. lia. }
  cbn [clear_q]. rewrite dset_ok by (done || lia). cbn [mbind option_bind].
  destruct (IH (arr_set qs (Z.of_nat cnt) 0)) as (qs' & -> & Hl' & Hz & Hk); [lia|by rewrite length_arr_set|].
  exists qs'. split; [done|]. split; [done|]. split.
  - intros i Hi. destruct (decide (i = Z.of_nat cnt)) as [->|]; [|apply Hz; lia].
    rewrite Hk, dg_set, decide_True by (done || lia). done.
  - intros i Hi. rewrite Hk, dg_set, decide_False by (done || lia). done.
Qed.

Lemma get4_spec a : darray a → get4 a = Some (dv a 1 4).
Proof.
  intros (a0 & a1 & a2 & a3 & a4 & -> & _ & H1 & H2 & H3 & H4)%darray_inv. rewrite dv4.
  change (get4 [a0; a1; a2; a3; a4]) with (Some (COMBINE a1 a2 * 2 ^ 32 + COMBINE a3 a4)).
  rewrite !COMBINE_add by done. f_equal. change (2 ^ 32) with (B * B). ring.
Qed.

(** The digits of a 64-bit number. *)
Lemma digits_of_spec z x :
  0 ≤ x < 2 ^ 64 → 0 ≤ z < B → darray (digits_of z x) ∧ dv (digits_of z x) 1 4 = x.
Proof.
  intros Hx Hz. pose proof (ui_range x) as [HH HL]. pose proof (ui_value x x Hx) as Hv.
  pose proof (half_range _ HH) as [? ?]. pose proof (half_range _ HL) as [? ?].
  pose proof (half_split (ui_H x)) as S1. pose proof (half_split (ui_L x)) as S2.
  unfold digits_of. rewrite !(wrap_small 16) by done. split.
  - split; [done|]. intros i Hi.
    assert (i = 0 ∨ i = 1 ∨ i = 2 ∨ i = 3 ∨ i = 4) as [->|[->|[->|[->| ->]]]] by lia; done.
  - rewrite dv4. rewrite <- Hv at 5 by (exists 0; lia).
    change (2 ^ 32) with (B * B). change (2 ^ 16) with B in *. lia.
Qed.

Lemma div_single_spec us t :
  darray us → 0 < t < B →
  div_single us t = Some (dv us 1 4 / t, dv us 1 4 mod t).
Proof.
  intros (u0 & u1 & u2 & u3 & u4 & -> & _ & H1 & H2 & H3 & H4)%darray_inv Ht. rewrite dv4.
  assert (Hstep : ∀ r x, 0 ≤ r < t → 0 ≤ x < B →
    COMBINE r x = r * B + x ∧ 0 ≤ (r * B + x) / t < B ∧ 0 ≤ (r * B + x) mod t < t ∧
    r * B + x = t * ((r * B + x) / t) + (r * B + x) mod t).
  { intros r x Hr Hx. split; [apply COMBINE_add; lia|].
    split; [|split; [apply Z.mod_pos_bound; lia|apply Z.div_mod; lia]].
    split; [apply Z.div_pos; [|lia]; assert (0 ≤ r * B) by (apply Z.mul_nonneg_nonneg; [lia|done]); lia|].
    apply Z.div_lt_upper_bound; [lia|].
    assert (r * B ≤ (t - 1) * B) by (apply Z.mul_le_mono_nonneg_r; [done|lia]). lia. }
  change (div_single [u0; u1; u2; u3; u4] t) with (
    let rbj2 := COMBINE (u1 mod t) u2 in let rbj3 := COMBINE (rbj2 mod t) u3 in
    let rbj4 := COMBINE (rbj3 mod t) u4 in
    Some (COMBINE (u16 (u1 / t)) (u16 (rbj2 / t)) * 2 ^ 32 + COMBINE (u16 (rbj3 / t)) (u16 (rbj4 / t)),
          rbj4 mod t)).
  cbv zeta. destruct (Hstep 0 u1 ltac:(lia) H1) as (_ & Q1 & R1 & E1). rewrite Z.mul_0_l, Z.add_0_l in *.
  destruct (Hstep (u1 mod t) u2 R1 H2) as (-> & Q2 & R2 & E2). set (x2 := u1 mod t * B + u2) in *.
  destruct (Hstep (x2 mod t) u3 R2 H3) as (-> & Q3 & R3 & E3). set (x3 := x2 mod t * B + u3) in *.
  destruct (Hstep (x3 mod t) u4 R3 H4) as (-> & Q4 & R4 & E4). set (x4 := x3 mod t * B + u4) in *.
  rewrite !(wrap_small 16), !COMBINE_add by done. change (2 ^ 32) with (B * B).
  set (N := ((u1 * B + u2) * B + u3) * B + u4).
  assert (HN : N = t * (((u1 / t * B + x2 / t) * B + x3 / t) * B + x4 / t) + x4 mod t).
  { unfold N. replace u2 with (t * (x2 / t) + x2 mod t - u1 mod t * B) by (rewrite <- E2; unfold x2; lia).
    replace u3 with (t * (x3 / t) + x3 mod t - x2 mod t * B) by (rewrite <- E3; unfold x3; lia).
    replace u4 with (t * (x4 / t) + x4 mod t - x3 mod t * B) by (rewrite <- E4; unfold x4; lia).
    rewrite E1 at 1. ring. }
  f_equal. f_equal.
  - apply (Z.div_unique_pos _ _ _ (x4 mod t)); [done|]. rewrite HN. ring.
  - apply (Z.mod_unique_pos _ _ (((u1 / t * B + x2 / t) * B + x3 / t) * B + x4 / t)); [done|].
    rewrite HN. done.
Qed.

(** ** The whole function *)

(** The normalised operands: what [shl] leaves when [d] may be zero. *)
Lemma shift_opt_spec cnt a p d :
  darray a → 0 ≤ p → p + Z.of_nat cnt < 5 → 0 ≤ d < 16 →
  dv a p (S cnt) * 2 ^ d < B ^ Z.of_nat (S cnt) →
  ∃ a', (if 0 <? d then shl cnt a p 0 d else Some a) = Some a' ∧ darray a' ∧
    (∀ k, ¬ p ≤ k ≤ p + Z.of_nat cnt → dg a' k = dg a k) ∧
    dv a' p (S cnt) = dv a p (S cnt) * 2 ^ d.
Proof.
  intros Ha Hp Hc Hd Hlt. pose proof (dv_range a p (S cnt) Ha Hp ltac:(lia)) as Hr.
  destruct (Z.ltb_spec 0 d) as [H0|H0].
  - destruct (shl_spec cnt a p 0 d Ha) as (a' & -> & Ha' & Hk & Hv); [lia|lia|lia|].
    rewrite Z.add_0_r in Hk, Hv. exists a'. split; [done|]. split; [done|]. split; [done|].
    rewrite Hv. apply Z.mod_small. split; [|done].
    apply Z.mul_nonneg_nonneg; [lia|apply Z.pow_nonneg; lia].
  - exists a. replace d with 0 by lia. rewrite Z.mul_1_r. by split_and!.
Qed.

Lemma unshift_opt_spec cnt us pu m d :
  darray us → 0 ≤ pu + m → pu + m + Z.of_nat cnt < 5 → 0 ≤ d < 16 → dg us (pu + m) = 0 →
  ∃ us', (if negb (d =? 0) then shr cnt us pu m d else Some us) = Some us' ∧ darray us' ∧
    (∀ k, ¬ pu + m < k ≤ pu + m + Z.of_nat cnt → dg us' k = dg us k) ∧
    dv us' (pu + m + 1) cnt = dv us (pu + m + 1) cnt / 2 ^ d.
Proof.
  intros Hus Hp Hc Hd Hz. destruct (Z.eqb_spec d 0) as [->|H0]; cbn [negb].
  - exists us. rewrite Z.div_1_r. by split_and!.
  - destruct (shr_spec cnt us pu m d Hus) as (us' & -> & Hus' & Hz' & Hk & Hv); [lia|lia|lia|].
    exists us'. split; [done|]. split; [done|]. split.
    + intros k Hk'. destruct (decide (k = pu + m)) as [->|]; [by rewrite Hz, Hz'|]. apply Hk. lia.
    + rewrite Hv, dv_cons, Hz, Z.mul_0_l, Z.add_0_l. apply Z.mod_small.
      pose proof (dv_range us (pu + m + 1) cnt Hus ltac:(lia) ltac:(lia)) as Hr.
      pose proof (Z.pow_pos_nonneg 2 d ltac:(lia) ltac:(lia)).
      split; [apply Z.div_pos; lia|]. apply Z.div_lt_upper_bound; [lia|].
      assert (1 * B ^ Z.of_nat cnt ≤ 2 ^ d * B ^ Z.of_nat cnt); [|lia].
      apply Z.mul_le_mono_nonneg_r; [|lia]. pose proof (B_pos cnt). lia.
Qed.

Lemma dv_zeros a k c : (∀ i, k ≤ i < k + Z.of_nat c → dg a i = 0) → dv a k c = 0.
Proof.
  induction c as [|c IH]; intros Hz; [done|]. cbn [dv]. rewrite IH, Hz by (intros; try apply Hz; lia). done.
Qed.

(** Zero digits in front do not count. *)
Lemma dv_lead a k c1 c2 :
  (∀ i, k ≤ i < k + Z.of_nat c1 → dg a i = 0) → dv a k (c1 + c2) = dv a (k + Z.of_nat c1) c2.
Proof. intros Hz. rewrite dv_app, dv_zeros by done. lia. Qed.

(** The dividend is at least as long as the divisor. *)
Lemma length_le us vs pu pv c :
  darray us → darray vs → 0 ≤ pu ≤ 4 → pv + Z.of_nat c = 4 → 0 ≤ pv → (1 ≤ c)%nat →
  (∀ i, 1 ≤ i ≤ pu → dg us i = 0) → dg vs (pv + 1) ≠ 0 →
  dv vs (pv + 1) c ≤ dv us 1 4 → pu + Z.of_nat c ≤ 4.
Proof.
  intros Hus Hvs Hpu Hpv Hpv0 Hc Hz Hnz Hle. apply Z.nlt_ge. intros Hgt.
  assert (HU : dv us 1 4 < B ^ Z.of_nat (Z.to_nat (4 - pu))).
  { replace 4%nat with (Z.to_nat pu + Z.to_nat (4 - pu))%nat by lia.
    rewrite dv_lead by (intros i Hi; apply Hz; lia). apply dv_range; [done|lia|lia]. }
  destruct c as [|c]; [lia|]. rewrite dv_cons in Hle.
  pose proof (dv_range vs (pv + 1 + 1) c Hvs ltac:(lia) ltac:(lia)).
  pose proof (proj2 Hvs (pv + 1) ltac:(lia)).
  assert (1 * B ^ Z.of_nat c ≤ dg vs (pv + 1) * B ^ Z.of_nat c).
  { apply Z.mul_le_mono_nonneg_r; [pose proof (B_pos c)|]; lia. }
  assert (B ^ Z.of_nat (Z.to_nat (4 - pu)) ≤ B ^ Z.of_nat c) by (apply Z.pow_le_mono_r; [done|lia]).
  lia.
Qed.

(** The normalised divisor fits and its first digit is at least [B / 2]. *)
Lemma normalised_fits v1 d V b :
  0 ≤ d < 16 → 0 < b → v1 * 2 ^ d < B → V < (v1 + 1) * b → V * 2 ^ d < B * b.
Proof.
  intros Hd Hb Hv HV. pose proof (Z.pow_pos_nonneg 2 d ltac:(lia) ltac:(lia)) as Hp.
  assert (HB : B = 2 ^ (16 - d) * 2 ^ d) by (rewrite <- Z.pow_add_r by lia; by replace (16 - d + d) with 16 by lia).
  assert (v1 + 1 ≤ 2 ^ (16 - d)).
  { rewrite HB in Hv. apply Z.mul_lt_mono_pos_r in Hv; [lia|done]. }
  apply Z.lt_le_trans with ((v1 + 1) * b * 2 ^ d); [by apply Z.mul_lt_mono_pos_r|].
  rewrite HB. replace ((v1 + 1) * b * 2 ^ d) with ((v1 + 1) * (b * 2 ^ d)) by ring.
  replace (2 ^ (16 - d) * 2 ^ d * b) with (2 ^ (16 - d) * (b * 2 ^ d)) by ring.
  apply Z.mul_le_mono_nonneg_r; [|done]. apply Z.mul_nonneg_nonneg; lia.
Qed.

Lemma normalised_top V v1 w1 rest b d :
  0 ≤ d → 0 < b → B / 2 ≤ v1 * 2 ^ d → v1 * b ≤ V → V * 2 ^ d = w1 * b + rest → rest < b → B / 2 ≤ w1.
Proof.
  intros Hd Hb Hn HV Heq Hr. apply Z.nlt_ge. intros Hlt.
  pose proof (Z.pow_pos_nonneg 2 d ltac:(lia) ltac:(lia)) as Hp.
  assert (v1 * b * 2 ^ d ≤ V * 2 ^ d) by (apply Z.mul_le_mono_nonneg_r; lia).
  assert (B / 2 * b ≤ v1 * 2 ^ d * b) by (apply Z.mul_le_mono_nonneg_r; lia).
  assert (w1 * b ≤ (B / 2 - 1) * b) by (apply Z.mul_le_mono_nonneg_r; lia). lia.
Qed.

(** The leading digits of the shifted dividend are below the divisor. *)
Lemma leading_below x U tl V d bc bm :
  0 ≤ d < 16 → 0 < bc → 0 < bm → U * 2 ^ d = x * (B * bm) + tl → 0 ≤ tl →
  U < bc * B * bm → B / 2 * bc ≤ V → x < V.
Proof.
  intros Hd Hbc Hbm Heq Htl HU HV. apply Z.nle_gt. intros Hge.
  pose proof (Z.pow_pos_nonneg 2 d ltac:(lia) ltac:(lia)) as Hp.
  assert (H2 : 2 ^ d ≤ B / 2) by (change (B / 2) with (2 ^ 15); apply Z.pow_le_mono_r; lia).
  assert (HBm : 0 < B * bm) by (by apply Z.mul_pos_pos).
  assert (U * 2 ^ d < bc * B * bm * 2 ^ d) by (by apply Z.mul_lt_mono_pos_r).
  assert (bc * B * bm * 2 ^ d ≤ bc * B * bm * (B / 2)).
  { apply Z.mul_le_mono_nonneg_l; [|done]. rewrite <- Z.mul_assoc. apply Z.mul_nonneg_nonneg; lia. }
  assert (B / 2 * bc * (B * bm) ≤ x * (B * bm)) by (apply Z.mul_le_mono_nonneg_r; lia). lia.
Qed.

(** Undoing the normalisation. *)
Lemma undo_shift U V Q R d :
  0 ≤ d → 0 < V → U * 2 ^ d = Q * (V * 2 ^ d) + R → 0 ≤ R < V * 2 ^ d →
  Q = U / V ∧ R / 2 ^ d = U mod V.
Proof.
  intros Hd HV Heq HR. pose proof (Z.pow_pos_nonneg 2 d ltac:(lia) ltac:(lia)) as Hp.
  assert (HR' : R = (U - Q * V) * 2 ^ d) by lia. rewrite HR' in HR |- *.
  rewrite Z.div_mul by lia.
  assert (Hr : 0 ≤ U - Q * V < V).
  { split; [|destruct HR as [_ HR]; by apply Z.mul_lt_mono_pos_r in HR].
    destruct HR as [HR _]. apply Z.mul_nonneg_cancel_r in HR; done. }
  split; [apply (Z.div_unique_pos _ _ _ (U - Q * V))|apply (Z.mod_unique_pos _ _ Q)]; lia.
Qed.

Section long.
Context (us vs : list Z) (pu pv d : Z) (c mn : nat).
Hypothesis Hus : darray us.
Hypothesis Hvs : darray vs.
Hypothesis Hc : (2 ≤ c)%nat.
Hypothesis Hpv : pv + Z.of_nat c = 4.
Hypothesis Hpv0 : 0 ≤ pv.
Hypothesis Hpu : pu + Z.of_nat mn + Z.of_nat c = 4.
Hypothesis Hpu0 : 0 ≤ pu.
Hypothesis Hz : ∀ i, 0 ≤ i ≤ pu → dg us i = 0.
Hypothesis Hd : 0 ≤ d < 16.
Hypothesis Hnorm : B / 2 ≤ dg vs (pv + 1) * 2 ^ d < B.

Let U : Z := dv us 1 4.
Let V : Z := dv vs (pv + 1) c.

Lemma long_U : dv us pu (S (mn + c)) = U ∧ 0 ≤ U < B ^ Z.of_nat (mn + c).
Proof.
  assert (HU : U = dv us (pu + 1) (mn + c)).
  { unfold U. replace 4%nat with (Z.to_nat pu + (mn + c))%nat by lia.
    rewrite dv_lead by (intros i Hi; apply Hz; lia). f_equal. lia. }
  rewrite dv_cons, (Hz pu), HU by lia. split; [lia|]. apply dv_range; [done|lia|lia].
Qed.

Lemma long_V :
  ∃ b, 0 < b ∧ B ^ Z.of_nat c = B * b ∧ b = B ^ Z.of_nat (c - 1) ∧
    V = dg vs (pv + 1) * b + dv vs (pv + 2) (c - 1) ∧ 0 ≤ dv vs (pv + 2) (c - 1) < b.
Proof.
  exists (B ^ Z.of_nat (c - 1)). split; [apply B_pos|]. split.
  { rewrite <- Z.pow_succ_r by lia. f_equal. lia. }
  split; [done|]. split; [|apply dv_range; [done|lia|lia]].
  unfold V. replace c with (S (c - 1)) at 1 by lia. rewrite dv_cons.
  by replace (pv + 1 + 1) with (pv + 2) by lia.
Qed.

Lemma long_shift_v :
  ∃ vs', (if 0 <? d then shl (c - 1) vs (pv + 1) 0 d else Some vs) = Some vs' ∧ darray vs' ∧
    dv vs' (pv + 1) c = V * 2 ^ d ∧ B / 2 ≤ dg vs' (pv + 1).
Proof.
  destruct long_V as (b & Hb & HBc & Hbe & HV & Hr). pose proof (proj2 Hvs (pv + 1) ltac:(lia)) as H1.
  destruct (shift_opt_spec (c - 1) vs (pv + 1) d) as (vs' & -> & Hvs' & _ & Hv'); try done; try lia.
  { replace (S (c - 1)) with c by lia. rewrite HBc. fold V.
    apply (normalised_fits (dg vs (pv + 1))); try done; lia. }
  exists vs'. split; [done|]. split; [done|]. replace (S (c - 1)) with c in Hv' by lia.
  split; [done|]. apply (normalised_top V (dg vs (pv + 1)) _ (dv vs' (pv + 1 + 1) (c - 1)) b d);
    try done; try lia.
  - fold V in Hv'. rewrite <- Hv', Hbe. replace c with (S (c - 1)) at 1 by lia. apply dv_cons.
  - rewrite Hbe. apply dv_range; [done|lia|lia].
Qed.

Lemma long_shift_u :
  ∃ us', (if 0 <? d then shl (mn + c) us pu 0 d else Some us) = Some us' ∧ darray us' ∧
    (∀ k, k < pu → dg us' k = dg us k) ∧ dv us' pu (S (mn + c)) = U * 2 ^ d.
Proof.
  destruct long_U as [HU HUr]. pose proof (Z.pow_pos_nonneg 2 d ltac:(lia) ltac:(lia)) as Hp.
  assert (2 ^ d ≤ B) by (change B with (2 ^ 16); apply Z.pow_le_mono_r; lia).
  destruct (shift_opt_spec (mn + c) us pu d) as (us' & -> & Hus' & Hk & Hv'); try done; try lia.
  - rewrite HU, Nat2Z.inj_succ, Z.pow_succ_r by lia.
    apply Z.lt_le_trans with (B ^ Z.of_nat (mn + c) * 2 ^ d); [apply Z.mul_lt_mono_pos_r; lia|].
    rewrite Z.mul_comm. apply Z.mul_le_mono_nonneg_r; lia.
  - rewrite HU in Hv'. exists us'. split; [done|]. split; [done|]. split; [|done].
    intros k Hk'. apply Hk. lia.
Qed.

Lemma long_start us' vs' :
  darray us' → dv us' pu (S (mn + c)) = U * 2 ^ d → dv vs' (pv + 1) c = V * 2 ^ d →
  dv us' pu c < dv vs' (pv + 1) c.
Proof.
  intros Hus' HU' HV'. destruct long_U as [_ HUr]. destruct long_V as (b & Hb & HBc & Hbe & HV & Hr).
  rewrite HV'. replace (S (mn + c)) with (c + S mn)%nat in HU' by lia.
  rewrite dv_app, Nat2Z.inj_succ, Z.pow_succ_r in HU' by lia.
  apply (leading_below _ U (dv us' (pu + Z.of_nat c) (S mn)) _ d b (B ^ Z.of_nat mn)); try done.
  - apply B_pos.
  - apply dv_range; [done|lia|lia].
  - replace (b * B * B ^ Z.of_nat mn) with (B ^ Z.of_nat (mn + c)); [lia|].
    rewrite Nat2Z.inj_add, Z.pow_add_r, HBc by lia. ring.
  - apply Z.le_trans with (dg vs (pv + 1) * 2 ^ d * b); [apply Z.mul_le_mono_nonneg_r; lia|].
    rewrite HV. pose proof (Z.pow_pos_nonneg 2 d ltac:(lia) ltac:(lia)) as Hp.
    replace (dg vs (pv + 1) * 2 ^ d * b) with (dg vs (pv + 1) * b * 2 ^ d) by ring.
    apply Z.mul_le_mono_nonneg_r; lia.
Qed.

(** Normalise, divide digit by digit, shift the remainder back. *)
Lemma long_division junk :
  0 < V →
  (qs ← clear_q (Z.to_nat (4 - Z.of_nat mn)) (replicate 5 junk);
   us ← (if 0 <? d then shl (mn + c) us pu 0 d else Some us);
   vs ← (if 0 <? d then shl (c - 1) vs (pv + 1) 0 d else Some vs);
   '(us, qs) ← div_loop (S mn) us pu vs pv (Z.of_nat c) qs (4 - Z.of_nat mn) 0;
   us ← (if negb (d =? 0) then shr c us pu (Z.of_nat mn) d else Some us);
   r ← get4 us;
   q ← get4 qs;
   Some (q, r)) = Some (U / V, U mod V).
Proof.
  intros HVp.
  destruct (clear_q_spec (Z.to_nat (4 - Z.of_nat mn)) (replicate 5 junk)) as (qs & -> & Hlq & Hqz & _);
    [lia|done|]. cbn [mbind option_bind].
  destruct long_shift_u as (us1 & -> & Hus1 & Hk1 & HU1). cbn [mbind option_bind].
  destruct long_shift_v as (vs1 & -> & Hvs1 & HV1 & Htop). cbn [mbind option_bind].
  pose proof (long_start us1 vs1 Hus1 HU1 HV1) as Hst.
  destruct (div_loop_spec (S mn) us1 vs1 qs pu pv (4 - Z.of_nat mn) c 0)
    as (us2 & qs2 & -> & Hus2 & Hqs2 & Hku & Hkq & Hz2 & Heq & Hlt); try done; try lia.
  { intros i Hi. rewrite Hqz by lia. done. }
  { by rewrite Z.add_0_r. }
  cbn [mbind option_bind]. rewrite !Z.add_0_r in *.
  destruct (unshift_opt_spec c us2 pu (Z.of_nat mn) d) as (us3 & -> & Hus3 & Hk3 & Hr3); try done; try lia.
  { apply Hz2. lia. }
  cbn [mbind option_bind]. rewrite !get4_spec by done. cbn [mbind option_bind].
  replace (c + S mn)%nat with (S (mn + c)) in Heq by lia. rewrite HU1, HV1 in Heq.
  replace (pu + Z.of_nat (S mn)) with (pu + Z.of_nat mn + 1) in Heq, Hlt by lia. rewrite HV1 in Hlt.
  destruct (undo_shift U V (dv qs2 (4 - Z.of_nat mn) (S mn)) (dv us2 (pu + Z.of_nat mn + 1) c) d)
    as [HQ HR]; [lia|done|done|done|].
  f_equal. f_equal.
  - rewrite <- HQ. replace 4%nat with (Z.to_nat (3 - Z.of_nat mn) + S mn)%nat by lia.
    rewrite dv_lead; [f_equal; lia|]. intros i Hi. rewrite Hkq, Hqz by lia. done.
  - rewrite <- HR, <- Hr3. replace 4%nat with (Z.to_nat (pu + Z.of_nat mn) + c)%nat by lia.
    rewrite dv_lead; [f_equal; lia|]. intros i Hi. rewrite Hk3 by lia.
    destruct (decide (i < pu)); [rewrite Hku, Hk1, Hz by lia; done|]. apply Hz2. lia.
Qed.
End long.

Lemma qdivrem_long junk u v :
  0 ≤ u < 2 ^ 64 → 0 < v < 2 ^ 64 → v ≤ u → 0 ≤ junk < B →
  __qdivrem junk u v = Some (u / v, u mod v).
Proof.
  intros Hu Hv Hle Hj. unfold __qdivrem.
  rewrite (proj2 (Z.eqb_neq _ _)), (proj2 (Z.ltb_ge _ _)) by lia. cbv zeta.
  destruct (digits_of_spec 0 u Hu) as [Hus HU]; [done|].
  destruct (digits_of_spec junk v ltac:(lia) Hj) as [Hvs HV].
  assert (Hu0 : dg (digits_of 0 u) 0 = 0) by done.
  set (us := digits_of 0 u) in *. set (vs := digits_of junk v) in *. clearbody us vs.
  destruct (lead_v_spec vs Hvs) as (pv & n & -> & [(-> & -> & H1)|(Hn & -> & H1 & Hnz)]).
  { cbn [mbind option_bind]. change (1 =? 1) with true. cbv iota.
    rewrite dget_ok by (apply Hvs || lia). cbn [mbind option_bind]. change (2 + 2) with 4.
    pose proof (proj2 Hvs 4 ltac:(lia)).
    rewrite div_single_spec, HU, <- H1, HV by (done || lia). done. }
  cbn [mbind option_bind]. rewrite (proj2 (Z.eqb_neq n 1)) by lia. set (c := Z.to_nat n) in *.
  assert (Hnc : n = Z.of_nat c) by (unfold c; lia). rewrite Hnc in *. clear Hnc.
  destruct (lead_u_spec us (4 - Z.of_nat c) Hus) as (pu & -> & Hpu & Hz & _); [lia|].
  cbn [mbind option_bind].
  pose proof (length_le us vs pu (4 - Z.of_nat c) c Hus Hvs ltac:(lia) ltac:(lia) ltac:(lia) ltac:(lia)
    Hz Hnz ltac:(lia)) as Hlen.
  replace (4 - Z.of_nat c - pu) with (Z.of_nat (Z.to_nat (4 - Z.of_nat c - pu))) by lia.
  set (mn := Z.to_nat (4 - Z.of_nat c - pu)).
  pose proof (proj2 Hvs (4 - Z.of_nat c + 1) ltac:(lia)) as Hd1.
  destruct (norm_spec 16 (dg vs (4 - Z.of_nat c + 1)) 0) as (d & Hnm & Hd & Hn2).
  { lia. }
  { change (B / 2) with 32768. change (2 ^ Z.of_nat 16) with 65536. lia. }
  assert (d < 16).
  { apply Z.nle_gt. intros Hge. assert (2 ^ 16 ≤ 2 ^ d) by (apply Z.pow_le_mono_r; lia).
    assert (1 * 2 ^ d ≤ dg vs (4 - Z.of_nat c + 1) * 2 ^ d) by (apply Z.mul_le_mono_nonneg_r; lia).
    unfold B in *. lia. }
  pose proof (long_division us vs pu (4 - Z.of_nat c) d c mn Hus Hvs ltac:(lia) ltac:(lia) ltac:(lia)
    ltac:(lia) ltac:(lia)) as Hlong.
  rewrite <- H1, HV, HU in Hlong. rewrite <- (Hlong) with (junk := junk); try done; try lia.
  - destruct (clear_q _ _) as [qs|]; [|done]. cbn [mbind option_bind].
    rewrite dget_ok by (apply Hvs || lia). cbn [mbind option_bind]. rewrite Hnm. cbn [mbind option_bind].
    replace (Z.to_nat (Z.of_nat mn + Z.of_nat c)) with (mn + c)%nat by lia.
    replace (Z.to_nat (Z.of_nat c - 1)) with (c - 1)%nat by lia.
    replace (Z.to_nat (Z.of_nat mn + 1)) with (S mn) by lia. done.
  - intros i Hi. destruct (decide (i = 0)) as [->|]; [done|]. apply Hz. lia.
Qed.

Lemma qdivrem_spec junk u v :
  0 ≤ u < 2 ^ 64 → 0 < v < 2 ^ 64 → 0 ≤ junk < B →
  __qdivrem junk u v = Some (u / v, u mod v).
Proof.
  intros Hu Hv Hj. destruct (decide (v ≤ u)); [by apply qdivrem_long|].
  unfold __qdivrem. rewrite (proj2 (Z.eqb_neq _ _)), (proj2 (Z.ltb_lt _ _)) by lia.
  by rewrite Z.div_small, Z.mod_small by lia.
Qed.

(** ** Signed division *)

Lemma swrap_wrap x : i64 (u64 x) = i64 x.
Proof. unfold swrap, wrap. by rewrite Zplus_mod_idemp_l. Qed.

(** The magnitude of a signed number. *)
Lemma ua_abs a :
  - 2 ^ 63 ≤ a < 2 ^ 63 → (if a <? 0 then u64 (- u64 a) else u64 a) = Z.abs a ∧ 0 ≤ Z.abs a < 2 ^ 64.
Proof.
  intros Ha. split; [|lia]. destruct (Z.ltb_spec a 0).
  - assert (u64 a = a + 2 ^ 64) as -> by (symmetry; apply (Z.mod_unique_pos _ _ (-1)); lia).
    unfold wrap. replace (- (a + 2 ^ 64)) with (- a + (-1) * 2 ^ 64) by lia.
    rewrite Z.mod_add, Z.mod_small by lia. lia.
  - rewrite wrap_small by lia. lia.
Qed.

Lemma divdi3_spec junk a b :
  - 2 ^ 63 ≤ a < 2 ^ 63 → - 2 ^ 63 ≤ b < 2 ^ 63 → b ≠ 0 → 0 ≤ junk < B →
  __divdi3 junk a b = Some (i64 (Z.quot a b)).
Proof.
  intros Ha Hb Hnz Hj. destruct (ua_abs a Ha) as [HA HAr]. destruct (ua_abs b Hb) as [HB HBr].
  rewrite Z.quot_div by done. unfold __divdi3.
  destruct (Z.ltb_spec a 0) as [Ha0|Ha0], (Z.ltb_spec b 0) as [Hb0|Hb0]; cbv iota in HA, HB; cbn [negb];
    rewrite HA, HB, qdivrem_spec by (done || lia); cbn [mbind option_bind fst];
    rewrite ?swrap_wrap; f_equal; f_equal;
    first [rewrite (Z.sgn_neg b) by lia|rewrite (Z.sgn_pos b) by lia];
    destruct (Z.sgn_spec a) as [[? ->]|[[Hz ->]|[? ->]]]; try lia;
    rewrite <- Hz, Z.div_0_l by lia; done.
Qed.

Lemma moddi3_spec junk a b :
  - 2 ^ 63 ≤ a < 2 ^ 63 → - 2 ^ 63 ≤ b < 2 ^ 63 → b ≠ 0 → 0 ≤ junk < B →
  __moddi3 junk a b = Some (Z.rem a b).
Proof.
  intros Ha Hb Hnz Hj. destruct (ua_abs a Ha) as [HA HAr]. destruct (ua_abs b Hb) as [HB HBr].
  assert (Hr : - 2 ^ 63 ≤ Z.rem a b < 2 ^ 63).
  { rewrite Z.rem_mod by done. pose proof (Z.mod_pos_bound (Z.abs a) (Z.abs b) ltac:(lia)).
    destruct (Z.sgn_spec a) as [[? ->]|[[? ->]|[? ->]]]; lia. }
  rewrite <- (swrap_small 64 (Z.rem a b)) by (done || lia). rewrite Z.rem_mod by done. unfold __moddi3.
  rewrite HB. destruct (Z.ltb_spec a 0) as [Ha0|Ha0]; cbv iota in HA;
    rewrite HA, qdivrem_spec by (done || lia); cbn [mbind option_bind snd]; rewrite ?swrap_wrap; f_equal; f_equal.
  - rewrite Z.sgn_neg by lia. lia.
  - destruct (decide (a = 0)) as [->|]; [by rewrite Z.mod_0_l by lia|]. rewrite Z.sgn_pos by lia. lia.
Qed.

(** ** Claims *)

(** C27: [__qdivrem] divides.  On any dividend and any divisor but zero, whatever the
    uninitialised digits hold, Knuth's algorithm D stays inside its arrays, its
    loops end, and the results are the exact quotient and remainder. *)
Theorem qdivrem_correct junk u v :
  0 ≤ u < 2 ^ 64 → 0 < v < 2 ^ 64 → 0 ≤ junk < B →
  __qdivrem junk u v = Some (u / v, u mod v) ∧
  __udivdi3 junk u v = Some (u / v) ∧ __umoddi3 junk u v = Some (u mod v).
Proof.
  intros Hu Hv Hj. unfold __udivdi3, __umoddi3. by rewrite qdivrem_spec.
Qed.

(** An operand for which the first guess of a quotient digit is too large. *)
Lemma qdivrem_correct_witness :
  __qdivrem 7 0x7fff800000000001 0x800000000001 = Some (0xfffe, 0x7fffffff0003)
  ∧ __umoddi3 7 0x7fff800000000001 0x800000000001 = Some 0x7fffffff0003.
Proof.
  destruct (qdivrem_correct 7 0x7fff800000000001 0x800000000001) as (H & _ & H');
    [lia|lia|unfold B; lia|].
  split; [exact H|exact H'].
Defined.

(** Signed division truncates towards zero and the remainder has the sign of the
    dividend, as C requires; the only quotient that does not fit, the smallest
    number by -1, wraps. *)
Theorem signed_division_correct junk a b :
  - 2 ^ 63 ≤ a < 2 ^ 63 → - 2 ^ 63 ≤ b < 2 ^ 63 → b ≠ 0 → 0 ≤ junk < B →
  __divdi3 junk a b = Some (i64 (Z.quot a b)) ∧ __moddi3 junk a b = Some (Z.rem a b).
Proof. intros. by rewrite divdi3_spec, moddi3_spec. Qed.

Lemma signed_division_correct_witness :
  __divdi3 9 (-7) 2 = Some (-3) ∧ __moddi3 9 (-7) 2 = Some (-1).
Proof.
  apply (signed_division_correct 9 (-7) 2); unfold B; lia.
Defined.
