(* ===== verification/Strings.v ===== *)
(** * Strings: common/libc/string and common/libc/stdlib/atoi.c

    The routines work on a memory of bytes, a function from addresses.  Copies
    move one element at a time, of four bytes when both pointers and the length
    are aligned and of one byte otherwise, in the direction the code takes.
    Scans that end at a terminator take fuel, one unit for each character they
    may look at; [None] says that the fuel was too little, which the theorems
    rule out for a terminated string.  A null pointer is [0]. *)

From stdpp Require Import base list option.
From Stdlib Require Import ZArith Lia.
From S2P Require Import Prelude.
Set Default Goal Selector "!".
Open Scope Z_scope.

Abbreviation mem := (Z → Z).
Abbreviation u8 := (wrap 8).

Definition upd (m : mem) (a x : Z) : mem := λ b, if decide (b = a) then x else m b.

Definition sizeof_long : Z := 4.

(** [d[k] = s[k]] for elements of [w] bytes at [dst] and [src]. *)
Definition copy_elem (w : Z) (m : mem) (dst src : Z) : mem := λ a,
  if decide (dst ≤ a < dst + w) then m (src + (a - dst)) else m a.

(** [for (i=0; i<n; i++) d[i] = s[i]], [n] being the iterations left. *)
Fixpoint copy_up (w : Z) (n : nat) (i : Z) (m : mem) (d s : Z) : mem :=
  match n with
  | O => m
  | S n' => copy_up w n' (i + 1) (copy_elem w m (d + i * w) (s + i * w)) d s
  end.

(** [for (i=n; i>0; i--) d[i-1] = s[i-1]] *)
Fixpoint copy_down (w : Z) (i : nat) (m : mem) (d s : Z) : mem :=
  match i with
  | O => m
  | S i' => copy_down w i' (copy_elem w m (d + Z.of_nat i' * w) (s + Z.of_nat i' * w)) d s
  end.

(** Whether a block can be handled by words. *)
Definition aligned (ps : list Z) : bool := forallb (λ p, p mod sizeof_long =? 0) ps.

Definition memcpy (m : mem) (dst src len : Z) : mem :=
  if aligned [dst; src; len] then copy_up sizeof_long (Z.to_nat (len / sizeof_long)) 0 m dst src
  else copy_up 1 (Z.to_nat len) 0 m dst src.

Definition memmove (m : mem) (dst src len : Z) : mem :=
  if dst <? src then memcpy m dst src len
  else if aligned [dst; src; len] then copy_down sizeof_long (Z.to_nat (len / sizeof_long)) m dst src
  else copy_down 1 (Z.to_nat len) m dst src.

(** [for (i=0; i<n; i++) p[i] = x] for elements of [w] bytes that all hold [x]. *)
Fixpoint fill (w : Z) (n : nat) (i : Z) (m : mem) (p x : Z) : mem :=
  match n with
  | O => m
  | S n' => fill w n' (i + 1) (λ a, if decide (p + i * w ≤ a < p + i * w + w) then x else m a) p x
  end.

Definition memset (m : mem) (ptr ch len : Z) : mem := fill 1 (Z.to_nat len) 0 m ptr (u8 ch).

Definition bzero (m : mem) (block len : Z) : mem :=
  if aligned [block; len] then fill sizeof_long (Z.to_nat (len / sizeof_long)) 0 m block 0
  else fill 1 (Z.to_nat len) 0 m block 0.

Fixpoint strlen_loop (fuel : nat) (m : mem) (str ret : Z) : option Z :=
  match fuel with
  | O => None
  | S fuel' => if m (str + ret) =? 0 then Some ret else strlen_loop fuel' m str (ret + 1)
  end.
Definition strlen (fuel : nat) (m : mem) (str : Z) : option Z := strlen_loop fuel m str 0.

Fixpoint strcpy_loop (fuel : nat) (m : mem) (dest src i : Z) : option mem :=
  match fuel with
  | O => None
  | S fuel' =>
      if m (src + i) =? 0 then Some (upd m (dest + i) 0)
      else strcpy_loop fuel' (upd m (dest + i) (m (src + i))) dest src (i + 1)
  end.
Definition strcpy (fuel : nat) (m : mem) (dest src : Z) : option mem :=
  strcpy_loop fuel m dest src 0.

Definition strcat (fuel : nat) (m : mem) (dest src : Z) : option mem :=
  offset ← strlen fuel m dest;
  strcpy fuel m (dest + offset) src.

Fixpoint strchr_loop (fuel : nat) (m : mem) (s ch : Z) : option Z :=
  match fuel with
  | O => None
  | S fuel' =>
      if m s =? 0 then Some (if m s =? ch then s else 0)
      else if m s =? ch then Some s
      else strchr_loop fuel' m (s + 1) ch
  end.
Definition strchr (fuel : nat) (m : mem) (s ch_arg : Z) : option Z :=
  strchr_loop fuel m s (u8 ch_arg).

(** The loop of [strrchr] from [i] down. *)
Fixpoint strrchr_loop (i : nat) (m : mem) (s ch : Z) : Z :=
  match i with
  | O => 0
  | S i' => if m (s + Z.of_nat i') =? ch then s + Z.of_nat i' else strrchr_loop i' m s ch
  end.
Definition strrchr (fuel : nat) (m : mem) (s ch_arg : Z) : option Z :=
  len ← strlen fuel m s;
  Some (strrchr_loop (Z.to_nat (len + 1)) m s (u8 ch_arg)).

Fixpoint strcmp_loop (fuel : nat) (m : mem) (a b i : Z) : option Z :=
  match fuel with
  | O => None
  | S fuel' =>
      if negb (m (a + i) =? 0) && (m (a + i) =? m (b + i)) then strcmp_loop fuel' m a b (i + 1)
      else Some (if m (b + i) <? m (a + i) then 1 else if m (a + i) =? m (b + i) then 0 else -1)
  end.
Definition strcmp (fuel : nat) (m : mem) (a b : Z) : option Z := strcmp_loop fuel m a b 0.

(** [while ( *p && (strchr(seps, *p) != NULL) == want) p++]; [sfuel] is the fuel of
    [strchr]. *)
Fixpoint strtok_skip (sfuel fuel : nat) (m : mem) (seps : Z) (want : bool) (p : Z) : option Z :=
  match fuel with
  | O => None
  | S fuel' =>
      if m p =? 0 then Some p
      else
        w ← strchr sfuel m seps (m p);
        if Bool.eqb (negb (w =? 0)) want then strtok_skip sfuel fuel' m seps want (p + 1) else Some p
  end.

(** The word, the memory and the context. *)
Definition strtok_r (fuel : nat) (m : mem) (string seps context : Z) : option (Z * mem * Z) :=
  let context := if string =? 0 then context else string in
  let head := context in
  if head =? 0 then Some (0, m, context)
  else
    head ← strtok_skip fuel fuel m seps true head;
    if m head =? 0 then Some (0, m, 0)
    else
      tail ← strtok_skip fuel fuel m seps false head;
      if m tail =? 0 then Some (head, m, 0)
      else Some (head, upd m tail 0, tail + 1).

(** The loop over the digits; [digits] is the address of the string of digits. *)
Fixpoint atoi_digits (fuel : nat) (m : mem) (digits s val : Z) : option Z :=
  match fuel with
  | O => None
  | S fuel' =>
      if m s =? 0 then Some val
      else
        wh ← strchr 11 m digits (m s);
        if wh =? 0 then Some val
        else atoi_digits fuel' m digits (s + 1) (u32 (val * 10 + (wh - digits)))
  end.

Fixpoint atoi_skip (fuel : nat) (m : mem) (s : Z) : option Z :=
  match fuel with
  | O => None
  | S fuel' => if (m s =? 32) || (m s =? 9) then atoi_skip fuel' m (s + 1) else Some s
  end.

Definition atoi (fuel : nat) (m : mem) (digits s : Z) : option Z :=
  s ← atoi_skip fuel m s;
  let '(neg, s) := if m s =? 45 then (true, s + 1) else if m s =? 43 then (false, s + 1) else (false, s) in
  val ← atoi_digits fuel m digits s 0;
  Some (i32 (if (neg : bool) then u32 (- val) else val)).

(** ** Blocks *)

(** The effect of copying [len] bytes. *)
Definition copied (m : mem) (dst src len : Z) : mem := λ a,
  if decide (dst ≤ a < dst + len) then m (src + (a - dst)) else m a.

Lemma copy_up_spec w n i m d s :
  0 < w → 0 ≤ i → d ≤ s ∨ s + (i + Z.of_nat n) * w ≤ d →
  ∀ a, copy_up w n i m d s a =
    if decide (d + i * w ≤ a < d + (i + Z.of_nat n) * w) then m (s + (a - d)) else m a.
Proof.
  intros Hw. revert i m. induction n as [|n IH]; intros i m Hi Hds a; cbn [copy_up].
  { rewrite decide_False by lia. done. }
  assert (Hn : 0 ≤ Z.of_nat n * w) by (apply Z.mul_nonneg_nonneg; lia).
  assert (Hiw : 0 ≤ i * w) by (apply Z.mul_nonneg_nonneg; lia).
  rewrite IH by lia. unfold copy_elem.
  destruct (decide (d + (i + 1) * w ≤ a < d + (i + 1 + Z.of_nat n) * w)) as [H1|H1].
  - rewrite decide_False, decide_True by lia. done.
  - destruct (decide (d + i * w ≤ a < d + i * w + w)) as [H2|H2].
    + rewrite decide_True by lia. f_equal. lia.
    + rewrite decide_False by lia. done.
Qed.

Lemma copy_down_spec w n m d s :
  0 < w → s ≤ d →
  ∀ a, copy_down w n m d s a = copied m d s (Z.of_nat n * w) a.
Proof.
  intros Hw Hds. unfold copied. revert m. induction n as [|n IH]; intros m a; cbn [copy_down].
  { rewrite decide_False by lia. done. }
  assert (Hn : 0 ≤ Z.of_nat n * w) by (apply Z.mul_nonneg_nonneg; lia).
  rewrite IH. unfold copy_elem.
  destruct (decide (d ≤ a < d + Z.of_nat n * w)) as [H1|H1].
  - rewrite decide_False, decide_True by lia. done.
  - destruct (decide (d + Z.of_nat n * w ≤ a < d + Z.of_nat n * w + w)) as [H2|H2].
    + rewrite decide_True by lia. f_equal. lia.
    + rewrite decide_False by lia. done.
Qed.

Lemma fill_spec w n i m p x :
  0 < w → ∀ a, fill w n i m p x a =
    if decide (p + i * w ≤ a < p + (i + Z.of_nat n) * w) then x else m a.
Proof.
  intros Hw. revert i m. induction n as [|n IH]; intros i m a; cbn [fill].
  { rewrite decide_False by lia. done. }
  assert (Hn : 0 ≤ Z.of_nat n * w) by (apply Z.mul_nonneg_nonneg; lia).
  rewrite IH. repeat case_decide; (done || lia).
Qed.

Lemma aligned_len ps len :
  aligned (ps ++ [len]) = true → len / sizeof_long * sizeof_long = len.
Proof.
  unfold aligned. rewrite forallb_app. intros [_ H]%andb_prop. cbn in H.
  rewrite andb_true_r in H. apply Z.eqb_eq in H. unfold sizeof_long in *.
  pose proof (Z.div_mod len 4). lia.
Qed.

Lemma memcpy_spec m dst src len :
  0 ≤ len → dst ≤ src ∨ src + len ≤ dst → ∀ a, memcpy m dst src len a = copied m dst src len a.
Proof.
  intros Hl Hds a. unfold memcpy, copied. destruct (aligned _) eqn:Ha.
  - apply (aligned_len [dst; src]) in Ha. pose proof (Z.div_pos len sizeof_long Hl ltac:(done)).
    rewrite copy_up_spec; [|done|done|rewrite Z2Nat.id, Z.add_0_l, Ha by done; lia].
    rewrite Z2Nat.id, Z.add_0_l, Ha, Z.add_0_r by done. done.
  - rewrite copy_up_spec; [|done|done|lia].
    rewrite Z2Nat.id, !Z.mul_1_r, Z.add_0_l, Z.add_0_r by done. done.
Qed.

Lemma memmove_spec m dst src len :
  0 ≤ len → ∀ a, memmove m dst src len a = copied m dst src len a.
Proof.
  intros Hl a. unfold memmove. destruct (Z.ltb_spec dst src).
  { apply memcpy_spec; lia. }
  destruct (aligned _) eqn:Ha.
  - apply (aligned_len [dst; src]) in Ha. pose proof (Z.div_pos len sizeof_long Hl ltac:(done)).
    rewrite copy_down_spec, Z2Nat.id, Ha by (done || lia). done.
  - rewrite copy_down_spec, Z2Nat.id, Z.mul_1_r by (done || lia). done.
Qed.

Lemma bzero_spec m block len :
  0 ≤ len → ∀ a, bzero m block len a = if decide (block ≤ a < block + len) then 0 else m a.
Proof.
  intros Hl a. unfold bzero. destruct (aligned _) eqn:Ha.
  - apply (aligned_len [block]) in Ha. pose proof (Z.div_pos len sizeof_long Hl ltac:(done)).
    rewrite fill_spec, Z2Nat.id, Z.add_0_l, Ha, Z.add_0_r by done. done.
  - rewrite fill_spec, Z2Nat.id, !Z.mul_1_r, Z.add_0_l, Z.add_0_r by done. done.
Qed.

Lemma memset_spec m ptr ch len :
  0 ≤ len → ∀ a, memset m ptr ch len a = if decide (ptr ≤ a < ptr + len) then u8 ch else m a.
Proof.
  intros Hl a. unfold memset. rewrite fill_spec, Z2Nat.id, !Z.mul_1_r, Z.add_0_l, Z.add_0_r by done. done.
Qed.

(** ** Terminated strings *)

(** The string [s], of bytes that are not zero, is at [p]. *)
Fixpoint cstr (m : mem) (p : Z) (s : list Z) : Prop :=
  match s with
  | [] => m p = 0
  | c :: s' => m p = c ∧ 0 < c < 256 ∧ cstr m (p + 1) s'
  end.

Lemma cstr_ext m m' p s :
  cstr m p s → (∀ a, p ≤ a ≤ p + zlen s → m' a = m a) → cstr m' p s.
Proof.
  revert p. induction s as [|c s IH]; intros p Hs He; cbn in *; [rewrite He; [done|lia]|].
  destruct Hs as (Hc & Hr & Hs). rewrite He by lia. split_and!; try done; try lia.
  apply IH; [done|]. intros a Ha. apply He. lia.
Qed.

Lemma cstr_app m p s t :
  cstr m p (s ++ t) → (∀ i c, s !! i = Some c → m (p + Z.of_nat i) = c ∧ 0 < c < 256) ∧ cstr m (p + zlen s) t.
Proof.
  revert p. induction s as [|c s IH]; intros p Hs; cbn in *; [by rewrite Z.add_0_r|].
  destruct Hs as (Hc & Hr & Hs). apply IH in Hs as [Hs Ht]. split.
  - intros [|i] d Hd; cbn in Hd; [injection Hd as <-; by rewrite Z.add_0_r|].
    apply Hs in Hd. by replace (p + Z.of_nat (S i)) with (p + 1 + Z.of_nat i) by lia.
  - by replace (p + Z.of_nat (S (length s))) with (p + 1 + zlen s) by lia.
Qed.

Lemma cstr_end m p s : cstr m p s → m (p + zlen s) = 0.
Proof. intros Hs. rewrite <- (app_nil_r s) in Hs. by apply cstr_app in Hs as [_ ?]. Qed.

Lemma cstr_intro m p s :
  (∀ i c, s !! i = Some c → m (p + Z.of_nat i) = c ∧ 0 < c < 256) → m (p + zlen s) = 0 → cstr m p s.
Proof.
  revert p. induction s as [|c s IH]; intros p Hs He; cbn in *; [by rewrite Z.add_0_r in He|].
  destruct (Hs O c eq_refl) as [Hc Hr]. rewrite Z.add_0_r in Hc. split_and!; try done; try lia.
  apply IH.
  - intros i d Hd. replace (p + 1 + Z.of_nat i) with (p + Z.of_nat (S i)) by lia. by apply Hs.
  - by replace (p + 1 + zlen s) with (p + Z.of_nat (S (length s))) by lia.
Qed.

Lemma cstr_bytes m p s : cstr m p s → Forall (λ c, 0 < c < 256) s.
Proof.
  revert p. induction s as [|c s IH]; intros p Hs; [done|]. destruct Hs as (_ & Hc & Hs).
  apply Forall_cons; [done|by eapply IH].
Qed.

(** Copying the bytes of a string, its terminator included, copies the string. *)
Lemma copied_cstr m dst src s :
  cstr m src s → cstr (copied m dst src (zlen s + 1)) dst s.
Proof.
  intros Hs. pose proof Hs as Hs'. rewrite <- (app_nil_r s) in Hs'. apply cstr_app in Hs' as [Hs' He].
  unfold copied. apply cstr_intro.
  - intros i c Hc. pose proof (lookup_lt_Some _ _ _ Hc). rewrite decide_True by lia.
    replace (src + (dst + Z.of_nat i - dst)) with (src + Z.of_nat i) by lia. by apply Hs'.
  - rewrite decide_True by lia. by replace (src + (dst + zlen s - dst)) with (src + zlen s) by lia.
Qed.

Lemma strlen_spec fuel m p s : cstr m p s → (length s < fuel)%nat → strlen fuel m p = Some (zlen s).
Proof.
  unfold strlen. rewrite <- (Z.add_0_l (zlen s)). intros Hs. rewrite <- (Z.add_0_r p) in Hs.
  revert Hs. generalize 0 as r. revert fuel. induction s as [|c s IH]; intros fuel r Hs Hf;
    (destruct fuel as [|fuel]; [cbn in Hf; lia|]); cbn [strlen_loop cstr] in *.
  - rewrite Hs. cbn. f_equal. lia.
  - destruct Hs as (Hc & Hr & Hs). rewrite (proj2 (Z.eqb_neq _ _)) by lia.
    rewrite IH; [f_equal; cbn; lia| |cbn in Hf; lia]. by replace (p + (r + 1)) with (p + r + 1) by lia.
Qed.

(** [strcpy] on buffers that do not overlap the wrong way copies the string with
    its terminator and nothing else. *)
Lemma strcpy_spec fuel m dest src s :
  cstr m src s → (length s < fuel)%nat → dest ≤ src ∨ src + zlen s < dest →
  ∃ m', strcpy fuel m dest src = Some m' ∧ ∀ a, m' a = copied m dest src (zlen s + 1) a.
Proof.
  unfold strcpy. intros Hs Hf Hds.
  enough (Hgen : ∀ s i m, 0 ≤ i → cstr m (src + i) s → (length s < fuel)%nat →
    dest ≤ src ∨ src + i + zlen s < dest →
    ∃ m', strcpy_loop fuel m dest src i = Some m' ∧
      ∀ a, m' a = if decide (dest + i ≤ a < dest + i + zlen s + 1) then m (src + (a - dest)) else m a).
  { destruct (Hgen s 0 m ltac:(done) ltac:(by rewrite Z.add_0_r) Hf) as (m' & Hm & Ha); [lia|].
    exists m'. split; [done|]. intros a. rewrite Ha. unfold copied. rewrite !Z.add_0_r, Z.add_assoc. done. }
  clear. induction fuel as [|fuel IH]; intros s i m Hi Hs Hf Hds; [lia|].
  cbn [strcpy_loop]. destruct s as [|c s]; cbn [cstr] in Hs.
  - rewrite Hs. cbn. eexists. split; [done|]. intros a. unfold upd.
    destruct (decide (a = dest + i)) as [->|]; [rewrite decide_True by lia|by rewrite decide_False by lia].
    replace (src + (dest + i - dest)) with (src + i) by lia. done.
  - destruct Hs as (Hc & Hr & Hs). rewrite (proj2 (Z.eqb_neq _ _)) by lia. cbn in Hf, Hds.
    destruct (IH s (i + 1) (upd m (dest + i) (m (src + i)))) as (m' & -> & Ha); [lia| |lia|lia|].
    { rewrite Z.add_assoc. eapply cstr_ext; [done|]. intros a Ha. unfold upd.
      rewrite decide_False by lia. done. }
    exists m'. split; [done|]. intros a. rewrite Ha. unfold upd. cbn.
    destruct (decide (dest + (i + 1) ≤ a < dest + (i + 1) + zlen s + 1)) as [H1|H1].
    + rewrite decide_False, decide_True by lia. done.
    + destruct (decide (a = dest + i)) as [->|]; [rewrite decide_True by lia|by rewrite decide_False by lia].
      f_equal. lia.
Qed.

Lemma strcat_spec fuel m dest src d s :
  cstr m dest d → cstr m src s → (length d < fuel)%nat → (length s < fuel)%nat →
  dest + zlen d ≤ src ∨ src + zlen s < dest + zlen d →
  ∃ m', strcat fuel m dest src = Some m' ∧ cstr m' dest (d ++ s) ∧
    ∀ a, ¬ dest + zlen d ≤ a ≤ dest + zlen d + zlen s → m' a = m a.
Proof.
  intros Hd Hs Hfd Hfs Hds. unfold strcat. rewrite (strlen_spec _ _ _ _ Hd Hfd). cbn [mbind option_bind].
  destruct (strcpy_spec fuel m (dest + zlen d) src s Hs Hfs Hds) as (m' & -> & Ha).
  exists m'. split; [done|]. split; cycle 1.
  { intros a Hna. rewrite Ha. unfold copied. rewrite decide_False by lia. done. }
  assert (Hs' : cstr m' (dest + zlen d) s).
  { eapply cstr_ext; [by apply copied_cstr|]. intros a _. apply Ha. }
  rewrite <- (app_nil_r d) in Hd. apply cstr_app in Hd as [Hd _].
  rewrite <- (app_nil_r s) in Hs'. apply cstr_app in Hs' as [Hs' He]. cbn in He.
  apply cstr_intro.
  - intros i c [Hi|[Hl Hi]]%lookup_app_Some.
    + pose proof (lookup_lt_Some _ _ _ Hi). rewrite Ha. unfold copied. rewrite decide_False by lia.
      by apply Hd.
    + replace (dest + Z.of_nat i) with (dest + zlen d + Z.of_nat (i - length d)) by lia. by apply Hs'.
  - rewrite length_app, Nat2Z.inj_add, Z.add_assoc. done.
Qed.

(** [strchr]: the leftmost occurrence, the terminator being a character too. *)
Lemma strchr_loop_spec fuel m p s c :
  cstr m p s → (length s < fuel)%nat → 0 ≤ c →
  strchr_loop fuel m p c =
    Some (match list_find (λ x, x = c) (s ++ [0]) with Some (i, _) => p + Z.of_nat i | None => 0 end).
Proof.
  intros Hs Hf Hc. revert fuel p Hs Hf. induction s as [|x s IH]; intros fuel p Hs Hf;
    (destruct fuel as [|fuel]; [cbn in Hf; lia|]); cbn [strchr_loop cstr app list_find] in *.
  - rewrite Hs. change (0 =? 0) with true. cbv iota.
    case_decide as Hd; [subst c; cbn; f_equal; lia|]. by rewrite (proj2 (Z.eqb_neq _ _)).
  - destruct Hs as (Hx & Hr & Hs). rewrite Hx, (proj2 (Z.eqb_neq x 0)) by lia.
    case_decide as Hd; [rewrite (proj2 (Z.eqb_eq _ _)) by done; f_equal; lia|].
    rewrite (proj2 (Z.eqb_neq _ _)) by done. rewrite IH by (done || cbn in Hf; lia).
    destruct (list_find _ (s ++ [0])) as [[i y]|]; cbn; [f_equal; lia|done].
Qed.

(** Whether a character is in a string, as the callers of [strchr] ask. *)
Lemma strchr_mem fuel m p s c :
  cstr m p s → (length s < fuel)%nat → 0 < c < 256 → 0 < p →
  ∃ r, strchr fuel m p c = Some r ∧ (r = 0 ↔ c ∉ s).
Proof.
  intros Hs Hf Hc Hp. unfold strchr. rewrite wrap_small by lia.
  rewrite (strchr_loop_spec _ _ _ _ _ Hs Hf) by lia. eexists. split; [done|].
  destruct (list_find _ (s ++ [0])) as [[i y]|] eqn:Hl.
  - apply list_find_Some in Hl as (Hi & -> & _). split; [lia|]. intros Hn. destruct Hn.
    apply lookup_app_Some in Hi as [Hi|[_ Hi]]; [by eapply list_elem_of_lookup_2|].
    apply list_lookup_singleton_Some in Hi as [_ <-]. lia.
  - apply list_find_None in Hl. split; [|done]. intros _ [i Hi]%list_elem_of_lookup.
    rewrite Forall_lookup in Hl. by apply (Hl i c); [apply lookup_app_l_Some|].
Qed.

Lemma strrchr_loop_spec m p s c n :
  cstr m p s → (n ≤ length s + 1)%nat →
  (strrchr_loop n m p c = 0 ∧ ∀ i, (i < n)%nat → (s ++ [0]) !! i ≠ Some c) ∨
  ∃ i, strrchr_loop n m p c = p + Z.of_nat i ∧ (s ++ [0]) !! i = Some c ∧
    ∀ j, (i < j < n)%nat → (s ++ [0]) !! j ≠ Some c.
Proof.
  intros Hs. pose proof (cstr_end _ _ _ Hs) as He. rewrite <- (app_nil_r s) in Hs.
  apply cstr_app in Hs as [Hs _]. induction n as [|n IH]; intros Hn; cbn [strrchr_loop].
  { left. split; [done|]. lia. }
  assert (Hc : (s ++ [0]) !! n = Some (m (p + Z.of_nat n))).
  { destruct (decide (n = length s)) as [->|].
    - rewrite lookup_app_r, Nat.sub_diag, He by done. done.
    - rewrite lookup_app_l by lia. destruct (lookup_lt_is_Some_2 s n ltac:(lia)) as [x Hx].
      rewrite Hx. f_equal. symmetry. by apply Hs. }
  destruct (Z.eqb_spec (m (p + Z.of_nat n)) c) as [Heq|Hne].
  - right. exists n. rewrite Hc, Heq. split; [done|]. split; [done|]. lia.
  - destruct (IH ltac:(lia)) as [[-> Hno]|(i & -> & Hi & Hno)]; [left|right; exists i].
    + split; [done|]. intros i Hi. destruct (decide (i = n)) as [->|]; [rewrite Hc; congruence|apply Hno; lia].
    + split; [done|]. split; [done|]. intros j Hj.
      destruct (decide (j = n)) as [->|]; [rewrite Hc; congruence|apply Hno; lia].
Qed.

(** The order of strings: the first difference decides, a prefix comes first. *)
Fixpoint lexcmp (s t : list Z) : Z :=
  match s, t with
  | [], [] => 0
  | [], _ :: _ => -1
  | _ :: _, [] => 1
  | a :: s', b :: t' => if a <? b then -1 else if b <? a then 1 else lexcmp s' t'
  end.

Lemma strcmp_spec fuel m a b s t :
  cstr m a s → cstr m b t → (length s < fuel)%nat → strcmp fuel m a b = Some (lexcmp s t).
Proof.
  unfold strcmp. intros Hs Ht. rewrite <- (Z.add_0_r a) in Hs. rewrite <- (Z.add_0_r b) in Ht.
  revert Hs Ht. generalize 0 at 1 2 3 as i. revert fuel t.
  induction s as [|x s IH]; intros fuel t i Hs Ht Hf;
    (destruct fuel as [|fuel]; [cbn in Hf; lia|]); cbn [strcmp_loop cstr] in *.
  - rewrite Hs. change (0 =? 0) with true. cbn [negb andb]. destruct t as [|y t]; cbn [cstr lexcmp] in *.
    + rewrite Ht. done.
    + destruct Ht as (Hy & Hr & _). rewrite Hy, (proj2 (Z.ltb_ge _ _)), (proj2 (Z.eqb_neq _ _)) by lia. done.
  - destruct Hs as (Hx & Hr & Hs). rewrite Hx, (proj2 (Z.eqb_neq x 0)) by lia. cbn [negb andb].
    destruct t as [|y t]; cbn [cstr lexcmp] in *.
    + rewrite Ht, (proj2 (Z.eqb_neq x 0)), (proj2 (Z.ltb_lt _ _)) by lia. done.
    + destruct Ht as (Hy & Hry & Ht). rewrite Hy. destruct (Z.eqb_spec x y) as [->|].
      * rewrite Z.ltb_irrefl. apply IH; [by rewrite Z.add_assoc|by rewrite Z.add_assoc|cbn in Hf; lia].
      * destruct (Z.ltb_spec x y), (Z.ltb_spec y x); (done || lia).
Qed.

Lemma lexcmp_eq s t : lexcmp s t = 0 ↔ s = t.
Proof.
  revert t. induction s as [|a s IH]; intros [|b t]; cbn; try done.
  destruct (Z.ltb_spec a b), (Z.ltb_spec b a); try lia.
  - split; [done|]. intros [= -> _]. lia.
  - split; [done|]. intros [= -> _]. lia.
  - rewrite IH. split; [intros ->; f_equal; lia|congruence].
Qed.

Lemma lexcmp_flip s t : lexcmp t s = - lexcmp s t.
Proof.
  revert t. induction s as [|a s IH]; intros [|b t]; cbn; try done.
  destruct (Z.ltb_spec a b), (Z.ltb_spec b a); (done || lia || apply IH).
Qed.

Lemma lexcmp_trans s t u : lexcmp s t = -1 → lexcmp t u = -1 → lexcmp s u = -1.
Proof.
  revert t u. induction s as [|a s IH]; intros [|b t] [|c u]; cbn; try done.
  destruct (Z.ltb_spec a b), (Z.ltb_spec b a); try done; try lia;
    destruct (Z.ltb_spec b c), (Z.ltb_spec c b); try done; try lia; intros Hst Htu;
    destruct (Z.ltb_spec a c), (Z.ltb_spec c a); try done; try lia. by apply (IH t).
Qed.

(** ** Words *)

(** The maximal runs of characters that are not separators. *)
Fixpoint words (sep : Z → bool) (s : list Z) : list (list Z) :=
  match s with
  | [] => []
  | c :: s' =>
      if sep c then words sep s'
      else match s' with
           | [] => [[c]]
           | d :: _ =>
               if sep d then [c] :: words sep s'
               else match words sep s' with [] => [[c]] | w :: ws => (c :: w) :: ws end
           end
  end.

Fixpoint span (f : Z → bool) (s : list Z) : list Z * list Z :=
  match s with
  | [] => ([], [])
  | c :: s' => if f c then let '(a, b) := span f s' in (c :: a, b) else ([], s)
  end.

Lemma span_spec f s :
  s = (span f s).1 ++ (span f s).2 ∧ Forall (λ c, f c = true) (span f s).1 ∧
  match (span f s).2 with [] => True | c :: _ => f c = false end.
Proof.
  induction s as [|c s IH]; cbn [span]; [done|]. destruct (f c) eqn:Hc; [|done].
  destruct (span f s) as [a b]. cbn in *. destruct IH as (-> & Ha & Hb).
  split; [done|]. split; [by apply Forall_cons|done].
Qed.

Lemma words_lead sep a s : Forall (λ c, sep c = true) a → words sep (a ++ s) = words sep s.
Proof. induction 1 as [|c a Hc Ha IH]; [done|]. cbn [app words]. by rewrite Hc. Qed.

Lemma words_word sep w s :
  w ≠ [] → Forall (λ c, sep c = false) w →
  match s with [] => True | c :: _ => sep c = true end →
  words sep (w ++ s) = w :: words sep (tail s).
Proof.
  intros Hne Hw Hs. induction Hw as [|c w Hc Hw IH]; [done|]. cbn [app words]. rewrite Hc.
  destruct w as [|d w]; cbn [app].
  - destruct s as [|e s]; [done|]. rewrite Hs. cbn [words tail]. by rewrite Hs.
  - assert (sep d = false) as Hd by (by inversion Hw). rewrite Hd. change (d :: w ++ s) with ((d :: w) ++ s).
    by rewrite IH.
Qed.

Section strtok.
Context (m0 : mem) (seps : Z) (ss : list Z) (fuel : nat).
Hypothesis Hseps0 : 0 < seps.
Hypothesis Hss : (length ss < fuel)%nat.

Definition is_sep (c : Z) : bool := bool_decide (c ∈ ss).

Lemma strtok_skip_spec m p s k want :
  cstr m seps ss → cstr m p s → (length s < k)%nat →
  strtok_skip fuel k m seps want p = Some (p + zlen (span (λ c, Bool.eqb (is_sep c) want) s).1).
Proof.
  intros Hs. revert p k. induction s as [|c s IH]; intros p k Hp Hk;
    (destruct k as [|k]; [cbn in Hk; lia|]); cbn [strtok_skip span cstr] in *.
  - rewrite Hp. cbn. f_equal. lia.
  - destruct Hp as (Hc & Hr & Hp). rewrite Hc, (proj2 (Z.eqb_neq c 0)) by lia.
    destruct (strchr_mem fuel m seps ss c Hs Hss Hr Hseps0) as (r & -> & Hr0). cbn [mbind option_bind].
    assert (negb (r =? 0) = is_sep c) as ->.
    { unfold is_sep. destruct (Z.eqb_spec r 0) as [Hz|Hz].
      - rewrite bool_decide_eq_false_2; [done|by apply Hr0].
      - rewrite bool_decide_eq_true_2; [done|]. apply dec_stable. by rewrite <- Hr0. }
    destruct (Bool.eqb (is_sep c) want); [|cbn; f_equal; lia].
    rewrite IH by (done || cbn in Hk; lia). destruct (span _ s) as [a b]. cbn. f_equal. lia.
Qed.

(** One call, on the rest [s] of the string at [c]. *)
Lemma strtok_step m c s string ctx :
  cstr m seps ss → cstr m c s → (length s < fuel)%nat → 0 < c →
  (if string =? 0 then ctx else string) = c →
  (words is_sep s = [] ∧ strtok_r fuel m string seps ctx = Some (0, m, 0)) ∨
  ∃ w ws h m' ctx', words is_sep s = w :: ws ∧ strtok_r fuel m string seps ctx = Some (h, m', ctx') ∧
    c ≤ h ∧ h + zlen w ≤ c + zlen s ∧ cstr m' h w ∧
    (∀ a, ¬ c ≤ a < c + zlen s → m' a = m a) ∧
    ((ctx' = 0 ∧ ws = []) ∨
     ∃ s', ctx' = h + zlen w + 1 ∧ cstr m' ctx' s' ∧ words is_sep s' = ws ∧ ctx' + zlen s' = c + zlen s).
Proof.
  intros Hs Hc Hf Hc0 Heff. unfold strtok_r. rewrite Heff, (proj2 (Z.eqb_neq c 0)) by lia.
  rewrite (strtok_skip_spec _ _ s) by done. cbn [mbind option_bind].
  destruct (span_spec (λ c, Bool.eqb (is_sep c) true) s) as (Hsp & Hlead & Hhd).
  destruct (span _ s) as [a b]. cbn [fst snd] in *. subst s.
  pose proof (cstr_app _ _ _ _ Hc) as [_ Hbx]. assert (Hb := Hbx). rewrite length_app in *.
  assert (Hw : words is_sep (a ++ b) = words is_sep b).
  { apply words_lead. eapply Forall_impl; [|exact Hlead]. cbn. intros x. by destruct (is_sep x). }
  rewrite Hw. destruct b as [|x b]; cbn [cstr] in Hb.
  { left. rewrite Hb. done. }
  destruct Hb as (Hx & Hxr & Hb). rewrite Hx, (proj2 (Z.eqb_neq x 0)) by lia. right.
  rewrite (strtok_skip_spec _ _ (x :: b)) by (done || lia). cbn [mbind option_bind].
  destruct (span_spec (λ c, Bool.eqb (is_sep c) false) (x :: b)) as (Hsp & Hword & Hhd').
  destruct (span _ (x :: b)) as [w r] eqn:Espan. cbn [fst snd] in *.
  assert (w ≠ []).
  { intros ->. cbn in Hsp. subst r. revert Hhd Hhd'. by destruct (is_sep x). }
  rewrite Hsp in *. rewrite length_app in *.
  assert (Hww : words is_sep (w ++ r) = w :: words is_sep (tail r)).
  { apply words_word; [done| |].
    - eapply Forall_impl; [|exact Hword]. cbn. intros y. by destruct (is_sep y).
    - destruct r as [|y r]; [done|]. revert Hhd'. by destruct (is_sep y). }
  pose proof (cstr_app _ _ _ _ Hbx) as [Hwb Hr]. destruct r as [|y r]; cbn [cstr] in Hr.
  - rewrite Hr. exists w, [], (c + zlen a), m, 0. cbn [length] in *.
    split; [done|]. split; [done|]. split; [lia|]. split; [lia|]. split; [|by auto].
    by rewrite app_nil_r in Hbx.
  - destruct Hr as (Hy & Hyr & Hr). rewrite Hy, (proj2 (Z.eqb_neq y 0)) by lia. cbn [length] in *.
    exists w, (words is_sep r), (c + zlen a), (upd m (c + zlen a + zlen w) 0), (c + zlen a + zlen w + 1).
    split; [done|]. split; [done|]. split; [lia|]. split; [lia|]. split; [|split].
    + apply cstr_intro; [|unfold upd; by rewrite decide_True].
      intros i d Hd. pose proof (lookup_lt_Some _ _ _ Hd). unfold upd. rewrite decide_False by lia. by apply Hwb.
    + intros d Hd. unfold upd. rewrite decide_False by lia. done.
    + right. exists r. split; [done|]. split; [|split; [done|lia]].
      eapply cstr_ext; [done|]. intros d Hd. unfold upd. rewrite decide_False by lia. done.
Qed.
End strtok.

(** ** Numbers *)

Definition dec_digits : list Z := [48; 49; 50; 51; 52; 53; 54; 55; 56; 57].
Definition is_digit (c : Z) : bool := (48 <=? c) && (c <=? 57).

(** The number a string of digits denotes. *)
Definition dec_val (ds : list Z) : Z := foldl (λ v c, v * 10 + (c - 48)) 0 ds.

Lemma strchr_digit m digits c :
  cstr m digits dec_digits → 0 < digits → 0 < c < 256 →
  strchr 11 m digits c = Some (if is_digit c then digits + (c - 48) else 0).
Proof.
  intros Hd Hp Hc. unfold strchr. rewrite wrap_small, (strchr_loop_spec _ _ _ dec_digits) by (done || cbn; lia).
  f_equal. unfold is_digit. destruct ((48 <=? c) && (c <=? 57)) eqn:Hr.
  - apply andb_prop in Hr as [H1%Z.leb_le H2%Z.leb_le].
    assert (∃ k, c = 48 + Z.of_nat k ∧ (k < 10)%nat) as (k & -> & Hk) by (exists (Z.to_nat (c - 48)); lia).
    assert (list_find (λ x, x = 48 + Z.of_nat k) (dec_digits ++ [0]) = Some (k, 48 + Z.of_nat k)) as ->; [|lia].
    do 10 (destruct k as [|k]; [reflexivity|]). lia.
  - assert (c < 48 ∨ 57 < c) by (apply andb_false_iff in Hr as [?%Z.leb_gt|?%Z.leb_gt]; lia).
    destruct (list_find _ _) as [[i y]|] eqn:Hl; [|done].
    apply list_find_Some in Hl as (Hi & -> & _).
    do 11 (destruct i as [|i]; [injection Hi as Hi; lia|]). done.
Qed.

Lemma atoi_digits_spec fuel m digits p ds rest v :
  cstr m digits dec_digits → 0 < digits → cstr m p (ds ++ rest) →
  Forall (λ c, is_digit c = true) ds → match rest with [] => True | c :: _ => is_digit c = false end →
  (length ds < fuel)%nat →
  atoi_digits fuel m digits p (u32 v) = Some (u32 (foldl (λ v c, v * 10 + (c - 48)) v ds)).
Proof.
  intros Hd Hp Hs Hds Hr. revert fuel p v Hs. induction Hds as [|c ds Hc Hds IH];
    intros fuel p v Hs Hf; (destruct fuel as [|fuel]; [cbn in Hf; lia|]); cbn [atoi_digits app foldl cstr] in *.
  - destruct rest as [|c rest]; cbn [cstr] in Hs; [by rewrite Hs|]. destruct Hs as (Hc & Hcr & _).
    rewrite Hc, (proj2 (Z.eqb_neq c 0)), strchr_digit, Hr by (done || lia). done.
  - destruct Hs as (Hx & Hcr & Hs). rewrite Hx, (proj2 (Z.eqb_neq c 0)), strchr_digit, Hc by (done || lia).
    cbn [mbind option_bind]. assert (digits + (c - 48) ≠ 0).
    { unfold is_digit in Hc. apply andb_prop in Hc as [H1%Z.leb_le _]. lia. }
    rewrite (proj2 (Z.eqb_neq _ 0)) by done.
    replace (u32 (u32 v * 10 + (digits + (c - 48) - digits))) with (u32 (v * 10 + (c - 48))).
    { apply IH; [done|cbn in Hf; lia]. }
    replace (digits + (c - 48) - digits) with (c - 48) by lia. unfold wrap.
    rewrite <- (Zplus_mod_idemp_l (v mod 2 ^ 32 * 10)), Zmult_mod_idemp_l, Zplus_mod_idemp_l. done.
Qed.

Lemma atoi_skip_spec fuel m p ws s :
  Forall (λ c, c = 32 ∨ c = 9) ws → match s with [] => True | c :: _ => c ≠ 32 ∧ c ≠ 9 end →
  cstr m p (ws ++ s) → (length ws < fuel)%nat → atoi_skip fuel m p = Some (p + zlen ws).
Proof.
  intros Hws Hs. revert fuel p. induction Hws as [|c ws Hc Hws IH]; intros fuel p Hp Hf;
    (destruct fuel as [|fuel]; [cbn in Hf; lia|]); cbn [atoi_skip app] in *.
  - assert (m p ≠ 32 ∧ m p ≠ 9) as [H1 H2].
    { destruct s as [|c s]; cbn in Hp; [rewrite Hp; lia|]. by destruct Hp as (-> & _). }
    rewrite (proj2 (Z.eqb_neq _ 32)), (proj2 (Z.eqb_neq _ 9)) by done. cbn. f_equal. lia.
  - destruct Hp as (Hx & _ & Hp). rewrite Hx.
    assert ((c =? 32) || (c =? 9) = true) as ->.
    { destruct Hc as [-> | ->]; done. }
    rewrite IH by (done || cbn in Hf; lia). cbn. f_equal. lia.
Qed.

Lemma i32_neg v : i32 (u32 (- u32 v)) = i32 (- v).
Proof.
  unfold swrap, wrap. rewrite Zplus_mod_idemp_l. replace (- (v mod 2 ^ 32)) with (0 - v mod 2 ^ 32) by lia.
  rewrite <- Zplus_mod_idemp_l, Zminus_mod_idemp_r, Zplus_mod_idemp_l. done.
Qed.

Lemma i32_wrap v : i32 (u32 v) = i32 v.
Proof. unfold swrap, wrap. by rewrite Zplus_mod_idemp_l. Qed.

(** An optional sign and digits. *)
Definition sign_of (sg : Z) : list Z := if sg =? 0 then [] else [sg].
Definition signed_val (sg : Z) (ds : list Z) : Z := if sg =? 45 then - dec_val ds else dec_val ds.

Lemma atoi_spec fuel m digits p ws sg ds rest :
  cstr m digits dec_digits → 0 < digits →
  Forall (λ c, c = 32 ∨ c = 9) ws → sg = 0 ∨ sg = 43 ∨ sg = 45 →
  Forall (λ c, is_digit c = true) ds → ds ≠ [] →
  match rest with [] => True | c :: _ => is_digit c = false end →
  cstr m p (ws ++ sign_of sg ++ ds ++ rest) → (length ws + length ds < fuel)%nat →
  atoi fuel m digits p = Some (i32 (signed_val sg ds)).
Proof.
  intros Hd Hp Hws Hsg Hds Hne Hr Hs Hf. unfold atoi.
  destruct ds as [|d ds]; [done|].
  assert (Hdr : 48 ≤ d ≤ 57).
  { inversion Hds as [|x l Hx _]; subst. unfold is_digit in Hx. apply andb_prop in Hx as [?%Z.leb_le ?%Z.leb_le]. lia. }
  rewrite (atoi_skip_spec fuel m p ws (sign_of sg ++ (d :: ds) ++ rest)); try done; try lia; cycle 1.
  { unfold sign_of. destruct Hsg as [->|[-> | ->]]; cbn; lia. }
  cbn [mbind option_bind]. apply cstr_app in Hs as [_ Hs].
  pose proof (atoi_digits_spec fuel m digits) as Hdig.
  destruct Hsg as [->|[-> | ->]]; unfold sign_of, signed_val in *; cbn [Z.eqb Pos.eqb app cstr] in Hs |- *.
  - destruct Hs as (Hm & Hm' & Hs). rewrite Hm, (proj2 (Z.eqb_neq d 45)), (proj2 (Z.eqb_neq d 43)) by lia.
    rewrite (Hdig _ (d :: ds) rest 0); try done; try lia.
    cbn [mbind option_bind]. by rewrite i32_wrap.
  - destruct Hs as (Hm & _ & Hs). rewrite Hm. cbn [Z.eqb Pos.eqb].
    rewrite (Hdig _ (d :: ds) rest 0); try done; try lia. cbn [mbind option_bind]. by rewrite i32_wrap.
  - destruct Hs as (Hm & _ & Hs). rewrite Hm. cbn [Z.eqb Pos.eqb].
    rewrite (Hdig _ (d :: ds) rest 0); try done; try lia. cbn [mbind option_bind]. by rewrite i32_neg.
Qed.

(** ** Claims *)

(** A memory that holds the bytes [bs] at [p] and is zero elsewhere. *)
Definition mem_at (p : Z) (bs : list Z) : mem := λ a, default 0 (arr_get bs (a - p)).

(** The block routines, by words or by bytes as alignment allows: [memmove]
    copies its source as it was, for all ways the two blocks can overlap;
    [memcpy] does so when the destination does not start inside the source;
    [bzero] and [memset] fill exactly their block. *)
Theorem blocks_correct m dst src len ch a :
  0 ≤ len →
  memmove m dst src len a = copied m dst src len a ∧
  (dst ≤ src ∨ src + len ≤ dst → memcpy m dst src len a = copied m dst src len a) ∧
  bzero m dst len a = (if decide (dst ≤ a < dst + len) then 0 else m a) ∧
  memset m dst ch len a = (if decide (dst ≤ a < dst + len) then u8 ch else m a).
Proof.
  intros Hl. split; [by apply memmove_spec|]. split; [intros; by apply memcpy_spec|].
  split; [by apply bzero_spec|by apply memset_spec].
Qed.

(** Three words moved up by one, the last word of the result. *)
Lemma blocks_correct_witness :
  memmove (mem_at 8 [1; 2; 3; 4; 5; 6; 7; 8; 9; 10; 11; 12]) 12 8 12 20 = 9.
Proof.
  rewrite (proj1 (blocks_correct (mem_at 8 [1; 2; 3; 4; 5; 6; 7; 8; 9; 10; 11; 12]) 12 8 12 0 20 ltac:(lia))).
  vm_compute. reflexivity.
Defined.

(** [strcmp] returns after at most one look at each character of the first string,
    and gives the order of the two strings as strings of unsigned characters:
    zero exactly for equal strings, the opposite for swapped arguments, and
    transitive. *)
Theorem strcmp_correct fuel m a b s t :
  cstr m a s → cstr m b t → (length s < fuel)%nat → (length t < fuel)%nat →
  ∃ r, strcmp fuel m a b = Some r ∧ strcmp fuel m b a = Some (- r) ∧ (r = 0 ↔ s = t) ∧
    (r = -1 → ∀ c u, cstr m c u → strcmp fuel m b c = Some (-1) → strcmp fuel m a c = Some (-1)).
Proof.
  intros Hs Ht Hfs Hft. exists (lexcmp s t). rewrite (strcmp_spec _ _ a b s t), (strcmp_spec _ _ b a t s) by done.
  split; [done|]. split; [by rewrite lexcmp_flip|]. split; [apply lexcmp_eq|].
  intros Hst c u Hu. rewrite (strcmp_spec _ _ b c t u), (strcmp_spec _ _ a c s u) by done.
  intros [= Htu]. f_equal. by apply (lexcmp_trans s t u).
Qed.

Lemma strcmp_correct_witness :
  ∃ r, strcmp 4 (mem_at 100 [97; 98; 0; 97; 200; 0]) 100 103 = Some r ∧
       strcmp 4 (mem_at 100 [97; 98; 0; 97; 200; 0]) 103 100 = Some (- r).
Proof.
  destruct (strcmp_correct 4 (mem_at 100 [97; 98; 0; 97; 200; 0]) 100 103 [97; 98] [97; 200])
    as (r & H1 & H2 & _); [cbn; vm_compute; intuition congruence..|cbn; lia|cbn; lia|].
  exists r. split; [exact H1|exact H2].
Defined.

(** [atoi] reads leading blanks, a sign and decimal digits up to the first other
    character, and returns the number they denote, modulo 2^32 as a signed
    [int]. *)
Theorem atoi_correct fuel m digits p ws sg ds rest :
  cstr m digits dec_digits → 0 < digits →
  Forall (λ c, c = 32 ∨ c = 9) ws → sg = 0 ∨ sg = 43 ∨ sg = 45 →
  Forall (λ c, is_digit c = true) ds → ds ≠ [] →
  match rest with [] => True | c :: _ => is_digit c = false end →
  cstr m p (ws ++ sign_of sg ++ ds ++ rest) → (length ws + length ds < fuel)%nat →
  atoi fuel m digits p = Some (i32 (signed_val sg ds)).
Proof. apply atoi_spec. Qed.

(** " -42x" *)
Lemma atoi_correct_witness :
  atoi 9 (mem_at 100 [48; 49; 50; 51; 52; 53; 54; 55; 56; 57; 0; 32; 45; 52; 50; 120; 0]) 100 111 = Some (-42).
Proof.
  apply (atoi_correct 9 _ 100 111 [32] 45 [52; 50] [120]);
    [vm_compute; intuition congruence|lia|repeat constructor|lia|repeat constructor|congruence|reflexivity
    |vm_compute; intuition congruence|cbn; lia].
Defined.
