(* ===== verification/Bitmap.v ===== *)
(** * Bitmap: the fixed-size bit arrays of kern/lib/bitmap.c

    The bits are kept in bytes, as the code keeps them.  [bitmap_set] reads a
    bitmap as the finite set of its marked indices, and the theorems show that
    [bitmap_create], [bitmap_alloc], [bitmap_mark], [bitmap_unmark] and
    [bitmap_isset] implement the corresponding operations of a set of indices
    below [nbits]. *)

From stdpp Require Import base gmap list strings fin_maps.
From Stdlib Require Import ZArith Lia.
From S2P Require Import Prelude Types.
Set Default Goal Selector "!".
Open Scope Z_scope.

Definition BITS_PER_WORD : Z := 8.
Definition WORD_ALLBITS : Z := 255.

Record bitmap := Bitmap {
  nbits : Z;
  bv : list Z;
}.

(** [*index]: the byte [bitno / 8] and the mask of the bit within it. *)
Definition bitmap_translate (bitno : Z) : Z * Z :=
  let ix := bitno / BITS_PER_WORD in
  let offset := bitno mod BITS_PER_WORD in
  (ix, u8 (Z.shiftl 1 offset)).

(** The loop that marks the bits past [nbits] of the last byte in use. *)
Fixpoint mark_overbits (fuel : nat) (w j : Z) : Z :=
  match fuel with
  | O => w
  | S fuel' =>
      if j <? BITS_PER_WORD
      then mark_overbits fuel' (u8 (Z.lor w (Z.shiftl 1 j))) (j + 1)
      else w
  end.

(** [b_mem] and [v_mem] say whether the two calls of [kmalloc] succeed. *)
Definition bitmap_create {S} (b_mem v_mem : bool) (nb : Z) : K S (option bitmap) :=
  let words := DIVROUNDUP nb BITS_PER_WORD in
  if negb b_mem then mret None else
  if negb v_mem then mret None else
  let v := replicate (Z.to_nat words) 0 in
  if nb / BITS_PER_WORD <? words then
    let ix := u32 (words - 1) in
    let overbits := u32 (nb - u32 (ix * BITS_PER_WORD)) in
    KASSERT (nb / BITS_PER_WORD =? u32 (words - 1)) "nbits / BITS_PER_WORD == words-1" ;;
    KASSERT ((0 <? overbits) && (overbits <? BITS_PER_WORD))
      "overbits > 0 && overbits < BITS_PER_WORD" ;;
    w ← index v ix;
    mret (Some (Bitmap nb (arr_set v ix (mark_overbits 8 w overbits))))
  else mret (Some (Bitmap nb v)).

Definition bitmap_getdata (b : bitmap) : list Z := bv b.

(** The inner loop of [bitmap_alloc]: the first clear bit of a byte. *)
Fixpoint find_offset (fuel : nat) (w offset : Z) : option Z :=
  match fuel with
  | O => None
  | S fuel' =>
      if offset <? BITS_PER_WORD then
        if Z.land w (u8 (Z.shiftl 1 offset)) =? 0 then Some offset
        else find_offset fuel' w (offset + 1)
      else None
  end.

(** The outer loop, from byte [ix]; [inl ENOSPC] is the error return and
    [inr (index, b')] the bit taken with the updated bitmap. *)
Fixpoint alloc_from {S} (fuel : nat) (b : bitmap) (ix : Z)
  : K S (Z + Z * bitmap) :=
  match fuel with
  | O => diverge
  | Datatypes.S fuel' =>
      if ix <? DIVROUNDUP (nbits b) BITS_PER_WORD then
        w ← index (bv b) ix;
        if negb (w =? WORD_ALLBITS) then
          match find_offset 8 w 0 with
          | Some offset =>
              let mask := u8 (Z.shiftl 1 offset) in
              let i := u32 (u32 (ix * BITS_PER_WORD) + offset) in
              KASSERT (i <? nbits b) "*index < b->nbits" ;;
              mret (inr (i, Bitmap (nbits b) (arr_set (bv b) ix (Z.lor w mask))))
          | None => panic "0"
          end
        else alloc_from fuel' b (ix + 1)
      else mret (inl ENOSPC)
  end.

Definition bitmap_alloc {S} (b : bitmap) : K S (Z + Z * bitmap) :=
  alloc_from (Datatypes.S (length (bv b))) b 0.

Definition bitmap_mark {S} (b : bitmap) (i : Z) : K S bitmap :=
  KASSERT (i <? nbits b) "index < b->nbits" ;;
  let '(ix, mask) := bitmap_translate i in
  w ← index (bv b) ix;
  KASSERT (Z.land w mask =? 0) "(b->v[ix] & mask)==0" ;;
  mret (Bitmap (nbits b) (arr_set (bv b) ix (Z.lor w mask))).

Definition bitmap_unmark {S} (b : bitmap) (i : Z) : K S bitmap :=
  KASSERT (i <? nbits b) "index < b->nbits" ;;
  let '(ix, mask) := bitmap_translate i in
  w ← index (bv b) ix;
  KASSERT (negb (Z.land w mask =? 0)) "(b->v[ix] & mask)!=0" ;;
  mret (Bitmap (nbits b) (arr_set (bv b) ix (u8 (Z.land w (Z.lnot mask))))).

Definition bitmap_isset {S} (b : bitmap) (i : Z) : K S Z :=
  let '(ix, mask) := bitmap_translate i in
  w ← index (bv b) ix;
  mret (Z.land w mask).

(** ** The abstract reading *)

Definition bm_get (b : bitmap) (i : Z) : bool :=
  match arr_get (bv b) (i / 8) with
  | Some w => Z.testbit w (i mod 8)
  | None => false
  end.

(** The set of marked indices. *)
Definition bitmap_set (b : bitmap) : gset Z :=
  list_to_set (filter (λ i, bm_get b i = true) (seqZ 0 (nbits b))).

(** The representation invariant: a byte array of the right length whose
    padding bits are marked. *)
Record bitmap_wf (b : bitmap) : Prop := {
  wf_nbits : 0 ≤ nbits b < 2 ^ 32 - 8;
  wf_len : zlen (bv b) = (nbits b + 7) / 8;
  wf_byte : ∀ ix w, arr_get (bv b) ix = Some w → 0 ≤ w < 256;
  wf_pad : ∀ i, nbits b ≤ i < 8 * zlen (bv b) → bm_get b i = true;
}.

(** ** Lemmas *)

Lemma shift1 k : 0 ≤ k < 8 → u8 (Z.shiftl 1 k) = 2 ^ k.
Proof.
  intros. rewrite Z.shiftl_1_l. apply wrap_small. split; [lia|].
  apply Z.pow_lt_mono_r; lia.
Qed.

Lemma translate_spec i :
  0 ≤ i → bitmap_translate i = (i / 8, 2 ^ (i mod 8)).
Proof.
  intros. unfold bitmap_translate, BITS_PER_WORD.
  rewrite shift1 by (apply Z.mod_pos_bound; lia). done.
Qed.

Lemma elem_of_bitmap_set b i :
  i ∈ bitmap_set b ↔ 0 ≤ i < nbits b ∧ bm_get b i = true.
Proof.
  unfold bitmap_set. rewrite elem_of_list_to_set, list_elem_of_filter, elem_of_seqZ.
  naive_solver lia.
Qed.

(** Replacing byte [ix] by [w] changes the eight bits it holds. *)
Lemma bm_get_update b ix w i :
  0 ≤ ix < zlen (bv b) →
  bm_get (Bitmap (nbits b) (arr_set (bv b) ix w)) i =
  if decide (i / 8 = ix) then Z.testbit w (i mod 8) else bm_get b i.
Proof.
  intros Hix. unfold bm_get. cbn [bv]. rewrite arr_get_set by done.
  repeat case_decide; congruence.
Qed.

Lemma div8_eq i j : i / 8 = j / 8 → i mod 8 = j mod 8 → i = j.
Proof. intros. rewrite (Z.div_mod i 8), (Z.div_mod j 8) by lia. lia. Qed.

Section ops.
Context (b : bitmap) (Hwf : bitmap_wf b).

Lemma wf_words : DIVROUNDUP (nbits b) BITS_PER_WORD = zlen (bv b).
Proof.
  destruct Hwf as [Hn Hl _ _]. unfold BITS_PER_WORD.
  rewrite DIVROUNDUP_spec by lia. rewrite Hl. f_equal. lia.
Qed.

Lemma wf_word_of i :
  0 ≤ i < nbits b → ∃ w, arr_get (bv b) (i / 8) = Some w ∧ 0 ≤ w < 256 ∧
  bm_get b i = Z.testbit w (i mod 8).
Proof.
  intros Hi. pose proof (wf_len b Hwf) as Hl.
  destruct (arr_get_ex (bv b) (i / 8)) as [w Hw].
  { split; [by apply Z.div_pos; lia|].
    rewrite Hl. apply Z.div_lt_upper_bound; [lia|].
    pose proof (Z.div_mod (nbits b + 7) 8). 
    pose proof (Z.mod_pos_bound (nbits b + 7) 8). lia. }
  exists w. split; [done|]. split; [by eapply wf_byte|].
  unfold bm_get. by rewrite Hw.
Qed.

(** Setting one byte of a well-formed bitmap keeps it well formed when the
    padding bits stay marked. *)
Lemma wf_update ix w w' :
  arr_get (bv b) ix = Some w → 0 ≤ w' < 256 →
  (∀ k, 0 ≤ k < 8 → nbits b ≤ 8 * ix + k → Z.testbit w k = true →
        Z.testbit w' k = true) →
  bitmap_wf (Bitmap (nbits b) (arr_set (bv b) ix w')).
Proof.
  intros Hix Hw' Hpad. pose proof (arr_get_range _ _ _ Hix) as Hr.
  destruct Hwf as [Hn Hl Hb Hp]. split; cbn [nbits bv];
    rewrite ?length_arr_set; [done|done| |].
  - intros j v. rewrite arr_get_set by done.
    case_decide; [intros [= <-]; done|apply Hb].
  - intros i Hi. rewrite bm_get_update by done.
    case_decide as Hd; [|by apply Hp].
    pose proof (Z.div_mod i 8). pose proof (Z.mod_pos_bound i 8).
    apply Hpad; [lia|lia|].
    specialize (Hp i Hi). unfold bm_get in Hp. by rewrite Hd, Hix in Hp.
Qed.

Lemma mark_set i w :
  0 ≤ i < nbits b → arr_get (bv b) (i / 8) = Some w →
  let b' := Bitmap (nbits b) (arr_set (bv b) (i / 8) (Z.lor w (2 ^ (i mod 8)))) in
  bitmap_wf b' ∧ bitmap_set b' = {[i]} ∪ bitmap_set b.
Proof.
  intros Hi Hw b'. pose proof (arr_get_range _ _ _ Hw) as Hr.
  pose proof (Z.mod_pos_bound i 8 ltac:(lia)) as Hm.
  assert (Hbw : 0 ≤ w < 256) by (by eapply wf_byte).
  split.
  - apply (wf_update _ w); [done| |].
    + apply (lor_range 8); [lia|done|]. split; [lia|]. apply Z.pow_lt_mono_r; lia.
    + intros k Hk _ Ht. rewrite testbit_set, Ht by lia. done.
  - apply set_eq. intros j. rewrite elem_of_union, elem_of_singleton, !elem_of_bitmap_set.
    subst b'. rewrite bm_get_update by done. cbn [nbits].
    case_decide as Hd.
    + rewrite testbit_set by lia. unfold bm_get. rewrite Hd, Hw.
      destruct (Z.eqb_spec (i mod 8) (j mod 8)) as [He|He].
      * rewrite orb_true_r. pose proof (div8_eq j i). naive_solver lia.
      * rewrite orb_false_r. naive_solver.
    + naive_solver.
Qed.

Lemma unmark_set i w :
  0 ≤ i < nbits b → arr_get (bv b) (i / 8) = Some w →
  let b' := Bitmap (nbits b)
    (arr_set (bv b) (i / 8) (u8 (Z.land w (Z.lnot (2 ^ (i mod 8)))))) in
  bitmap_wf b' ∧ bitmap_set b' = bitmap_set b ∖ {[i]}.
Proof.
  intros Hi Hw b'. pose proof (arr_get_range _ _ _ Hw) as Hr.
  pose proof (Z.mod_pos_bound i 8 ltac:(lia)) as Hm.
  assert (Hbw : 0 ≤ w < 256) by (by eapply wf_byte).
  assert (Hu : u8 (Z.land w (Z.lnot (2 ^ (i mod 8)))) =
    Z.land w (Z.lnot (2 ^ (i mod 8)))).
  { apply wrap_small. by apply (land_range 8). }
  split.
  - apply (wf_update _ w); [done| |].
    + rewrite Hu. by apply (land_range 8).
    + intros k Hk Hnb Ht. rewrite Hu, testbit_clear, Ht by lia.
      destruct (Z.eqb_spec (i mod 8) k); [|done].
      pose proof (Z.div_mod i 8). lia.
  - apply set_eq. intros j. rewrite elem_of_difference, elem_of_singleton, !elem_of_bitmap_set.
    subst b'. rewrite bm_get_update, Hu by done. cbn [nbits].
    case_decide as Hd.
    + rewrite testbit_clear by (try apply Z.mod_pos_bound; lia).
      unfold bm_get. rewrite Hd, Hw.
      destruct (Z.eqb_spec (i mod 8) (j mod 8)) as [He|He]; cbn [negb].
      * rewrite andb_false_r. pose proof (div8_eq j i). naive_solver lia.
      * rewrite andb_true_r. naive_solver.
    + naive_solver.
Qed.

End ops.

(** The inner loop finds the lowest clear bit. *)
Lemma find_offset_spec fuel w k :
  0 ≤ k → 8 - k ≤ Z.of_nat fuel →
  match find_offset fuel w k with
  | Some o => k ≤ o < 8 ∧ Z.testbit w o = false ∧
              (∀ j, k ≤ j < o → Z.testbit w j = true)
  | None => ∀ j, k ≤ j < 8 → Z.testbit w j = true
  end.
Proof.
  revert k. induction fuel as [|fuel IH]; intros k Hk Hf; cbn [find_offset].
  { intros j Hj. lia. }
  unfold BITS_PER_WORD. destruct (Z.ltb_spec k 8) as [Hlt|]; [|intros j Hj; lia].
  rewrite shift1, land_bit by lia. destruct (Z.testbit w k) eqn:Ek; cbn [negb].
  - specialize (IH (k + 1) ltac:(lia) ltac:(lia)).
    destruct (find_offset fuel w (k + 1)) as [o|].
    + destruct IH as (? & ? & Hb). split; [lia|]. split; [done|].
      intros j Hj. destruct (decide (j = k)) as [->|]; [done|]. apply Hb. lia.
    + intros j Hj. destruct (decide (j = k)) as [->|]; [done|]. apply IH. lia.
  - split; [lia|]. split; [done|]. intros j Hj. lia.
Qed.

(** A byte with all bits set is 255. *)
Lemma byte_all_ones w :
  0 ≤ w < 256 → (∀ k, 0 ≤ k < 8 → Z.testbit w k = true) → w = 255.
Proof.
  intros Hw Hb. change 255 with (Z.ones 8). apply Z.bits_inj'. intros i Hi.
  destruct (decide (i < 8)).
  - rewrite Hb, Z.ones_spec_low by lia. done.
  - rewrite Z.ones_spec_high by lia. change 256 with (2 ^ 8) in Hw.
    rewrite <- (Z.mod_small w (2 ^ 8)) by done.
    apply Z.mod_pow2_bits_high. lia.
Qed.

Lemma ones_testbit k : 0 ≤ k < 8 → Z.testbit 255 k = true.
Proof. intros. change 255 with (Z.ones 8). by apply Z.ones_spec_low. Qed.

(** What [bitmap_alloc] promises: the lowest unmarked index is marked and
    returned, and ENOSPC means that every index is marked. *)
Definition alloc_post (b : bitmap) (r : Z + Z * bitmap) : Prop :=
  match r with
  | inl e => e = ENOSPC ∧ ∀ i, 0 ≤ i < nbits b → i ∈ bitmap_set b
  | inr (i, b') =>
      bitmap_wf b' ∧ nbits b' = nbits b ∧
      0 ≤ i < nbits b ∧ (i ∉ bitmap_set b) ∧
      bitmap_set b' = {[i]} ∪ bitmap_set b ∧
      (∀ j, 0 ≤ j < i → j ∈ bitmap_set b)
  end.

(** Every index below [8 * ix] is marked: the invariant of the outer loop. *)
Definition full_below (b : bitmap) (ix : Z) : Prop :=
  ∀ i, 0 ≤ i < nbits b → i / 8 < ix → bm_get b i = true.

Lemma full_below_mem b ix i :
  full_below b ix → 0 ≤ i < nbits b → i / 8 < ix → i ∈ bitmap_set b.
Proof. intros Hf Hi Hlt. apply elem_of_bitmap_set. split; [done|by apply Hf]. Qed.

(** The byte at [ix] has a clear bit: the step of the outer loop that returns. *)
Lemma alloc_hit {S} (s : S) b ix w o :
  bitmap_wf b → full_below b ix → arr_get (bv b) ix = Some w →
  0 ≤ o < 8 → Z.testbit w o = false → (∀ j, 0 ≤ j < o → Z.testbit w j = true) →
  let i := u32 (u32 (ix * BITS_PER_WORD) + o) in
  (i = 8 * ix + o) ∧ i < nbits b ∧
  alloc_post b (inr (i, Bitmap (nbits b) (arr_set (bv b) ix (Z.lor w (2 ^ o))))).
Proof.
  intros Hwf Hf Hix Ho Hbit Hlow i.
  pose proof (arr_get_range _ _ _ Hix) as Hr.
  destruct Hwf as [Hn Hl Hb Hp] eqn:HW.
  assert (Hm : 8 * zlen (bv b) ≤ nbits b + 7).
  { rewrite Hl. apply Z.mul_div_le. lia. }
  assert (Hi : i = 8 * ix + o).
  { subst i. unfold BITS_PER_WORD. rewrite (wrap_small _ (ix * 8)) by lia.
    rewrite wrap_small; lia. }
  assert (Hd : i / 8 = ix) by (rewrite Hi; symmetry; apply (Z.div_unique _ _ _ o); lia).
  assert (Hmo : i mod 8 = o) by (rewrite Hi; symmetry; apply (Z.mod_unique _ _ ix); lia).
  assert (Hget : bm_get b i = false).
  { unfold bm_get. by rewrite Hd, Hix, Hmo. }
  assert (Hlt : i < nbits b).
  { destruct (decide (i < nbits b)) as [|Hge]; [done|].
    rewrite Hp in Hget by lia. done. }
  split; [done|]. split; [done|].
  destruct (mark_set b Hwf i w) as [Hw' Hs]; [lia|by rewrite Hd|].
  rewrite Hd, Hmo in Hw', Hs. cbn. split_and!; try done; try lia.
  - rewrite elem_of_bitmap_set. intros [_ Hc]. congruence.
  - intros j Hj. destruct (decide (j / 8 < ix)).
    { apply (full_below_mem b ix); [done|lia|done]. }
    pose proof (Z.div_mod j 8 ltac:(lia)). pose proof (Z.mod_pos_bound j 8 ltac:(lia)).
    assert (Hj8 : j / 8 = ix) by lia.
    apply elem_of_bitmap_set. split; [lia|]. unfold bm_get. rewrite Hj8, Hix.
    apply Hlow. lia.
Qed.

Lemma alloc_from_spec {S} fuel b ix (s : S) :
  bitmap_wf b → 0 ≤ ix ≤ zlen (bv b) → full_below b ix →
  zlen (bv b) - ix < Z.of_nat fuel →
  ∃ r, alloc_from fuel b ix s = Ret r s ∧ alloc_post b r.
Proof.
  intros Hwf. revert ix. induction fuel as [|fuel IH]; intros ix Hix Hf Hfuel; [lia|].
  cbn [alloc_from]. rewrite wf_words by done.
  destruct (Z.ltb_spec ix (zlen (bv b))) as [Hlt|Hge].
  - destruct (arr_get_ex (bv b) ix) as [w Hw]; [lia|].
    rewrite (run_index_bind _ _ w) by done.
    pose proof (wf_byte b Hwf ix w Hw) as Hbw.
    unfold WORD_ALLBITS. destruct (Z.eqb_spec w 255) as [->|Hne]; cbn [negb].
    + apply IH; [lia| |lia]. intros i Hi Hd.
      destruct (decide (i / 8 < ix)); [by apply Hf|].
      assert (i / 8 = ix) as He by lia. unfold bm_get. rewrite He, Hw.
      apply ones_testbit. by apply Z.mod_pos_bound.
    + pose proof (find_offset_spec 8 w 0 ltac:(lia) ltac:(lia)) as Ho.
      destruct (find_offset 8 w 0) as [o|].
      * destruct Ho as (Ho & Hbit & Hlow). rewrite shift1 by done.
        destruct (alloc_hit s b ix w o) as (_ & Hi & Hp); try done.
        rewrite (proj2 (Z.ltb_lt _ _) Hi).
        eexists. split; [reflexivity|done].
      * destruct Hne. by apply byte_all_ones.
  - eexists. split; [reflexivity|]. split; [done|]. intros i Hi.
    apply (full_below_mem b ix); [done|done|].
    destruct Hwf as [_ Hl _ _]. apply Z.le_lt_trans with ((nbits b - 1) / 8).
    { apply Z.div_le_mono; lia. }
    pose proof (Z.div_mod (nbits b + 7) 8). pose proof (Z.mod_pos_bound (nbits b + 7) 8).
    apply Z.div_lt_upper_bound; lia.
Qed.

Lemma bitmap_alloc_run {S} b (s : S) :
  bitmap_wf b → ∃ r, bitmap_alloc b s = Ret r s ∧ alloc_post b r.
Proof.
  intros Hwf. apply alloc_from_spec; [done|lia| |lia].
  intros i Hi Hd. pose proof (Z.div_pos i 8). lia.
Qed.

Lemma bitmap_isset_run {S} b i (s : S) :
  bitmap_wf b → 0 ≤ i < nbits b →
  ∃ v, bitmap_isset b i s = Ret v s ∧ (v ≠ 0 ↔ i ∈ bitmap_set b).
Proof.
  intros Hwf Hi. destruct (wf_word_of b Hwf i Hi) as (w & Hw & Hb & Hg).
  unfold bitmap_isset. rewrite translate_spec by lia.
  rewrite (run_index_bind _ _ w) by done.
  eexists. split; [reflexivity|]. rewrite elem_of_bitmap_set, Hg.
  pose proof (Z.mod_pos_bound i 8 ltac:(lia)).
  pose proof (land_bit w (i mod 8) ltac:(lia)) as Hl.
  destruct (Z.testbit w (i mod 8)); cbn [negb] in Hl; zbool; naive_solver.
Qed.

Lemma bitmap_unmark_run {S} b i (s : S) :
  bitmap_wf b → i ∈ bitmap_set b →
  ∃ b', bitmap_unmark b i s = Ret b' s ∧ bitmap_wf b' ∧ nbits b' = nbits b ∧
        bitmap_set b' = bitmap_set b ∖ {[i]}.
Proof.
  intros Hwf [Hi Hg]%elem_of_bitmap_set.
  destruct (wf_word_of b Hwf i Hi) as (w & Hw & Hb & Hg').
  unfold bitmap_unmark. rewrite run_assert by (apply Z.ltb_lt; lia).
  rewrite translate_spec by lia.
  rewrite (run_index_bind _ _ w) by done.
  pose proof (Z.mod_pos_bound i 8 ltac:(lia)).
  rewrite land_bit, <- Hg', Hg by lia. eexists. split; [reflexivity|].
  destruct (unmark_set b Hwf i w) as [? ?]; [done|done|done].
Qed.

Lemma bitmap_mark_run {S} b i (s : S) :
  bitmap_wf b → 0 ≤ i < nbits b → i ∉ bitmap_set b →
  ∃ b', bitmap_mark b i s = Ret b' s ∧ bitmap_wf b' ∧ nbits b' = nbits b ∧
        bitmap_set b' = {[i]} ∪ bitmap_set b.
Proof.
  intros Hwf Hi Hni. destruct (wf_word_of b Hwf i Hi) as (w & Hw & Hb & Hg).
  assert (Hf : bm_get b i = false).
  { destruct (bm_get b i) eqn:E; [|done]. destruct Hni. by apply elem_of_bitmap_set. }
  unfold bitmap_mark. rewrite run_assert by (apply Z.ltb_lt; lia).
  rewrite translate_spec by lia.
  rewrite (run_index_bind _ _ w) by done.
  pose proof (Z.mod_pos_bound i 8 ltac:(lia)).
  rewrite land_bit, <- Hg, Hf by lia. eexists. split; [reflexivity|].
  destruct (mark_set b Hwf i w) as [? ?]; [done|done|done].
Qed.

Lemma mark_overbits_spec fuel w j :
  0 ≤ j → 8 - j ≤ Z.of_nat fuel → 0 ≤ w < 256 →
  0 ≤ mark_overbits fuel w j < 256 ∧
  ∀ k, 0 ≤ k < 8 →
    Z.testbit (mark_overbits fuel w j) k = (Z.testbit w k || (j <=? k))%bool.
Proof.
  revert w j. induction fuel as [|fuel IH]; intros w j Hj Hf Hw; cbn [mark_overbits].
  { split; [done|]. intros k Hk. rewrite (proj2 (Z.leb_gt _ _)) by lia.
    by rewrite orb_false_r. }
  unfold BITS_PER_WORD. destruct (Z.ltb_spec j 8).
  - assert (Hp : 0 ≤ 2 ^ j < 2 ^ 8) by (split; [lia|apply Z.pow_lt_mono_r; lia]).
    assert (Hl : 0 ≤ Z.lor w (2 ^ j) < 2 ^ 8) by (apply lor_range; [lia|done|done]).
    rewrite Z.shiftl_1_l, wrap_small by done.
    destruct (IH (Z.lor w (2 ^ j)) (j + 1)) as [Hr Hb]; [lia|lia|exact Hl|].
    split; [done|]. intros k Hk. rewrite Hb, testbit_set by lia.
    rewrite <- orb_assoc. f_equal. zcases; try done; lia.
  - split; [done|]. intros k Hk. rewrite (proj2 (Z.leb_gt _ _)) by lia.
    by rewrite orb_false_r.
Qed.

Lemma arr_get_replicate {A} n (x y : A) i :
  arr_get (replicate n x) i = Some y → y = x.
Proof. intros [_ H]%arr_get_Some. by apply lookup_replicate in H as [-> _]. Qed.

(** A bitmap of zero bytes with the bits from [nb] on marked. *)
Lemma create_wf nb v :
  0 ≤ nb < 2 ^ 32 - 8 → zlen v = (nb + 7) / 8 →
  (∀ ix w, arr_get v ix = Some w → 0 ≤ w < 256 ∧
     ∀ k, 0 ≤ k < 8 → Z.testbit w k = (nb <=? 8 * ix + k)) →
  bitmap_wf (Bitmap nb v) ∧ bitmap_set (Bitmap nb v) = ∅.
Proof.
  intros Hnb Hl Hv.
  assert (Hget : ∀ i w, arr_get v (i / 8) = Some w →
    Z.testbit w (i mod 8) = (nb <=? i)).
  { intros i w Hw. destruct (Hv _ _ Hw) as [_ ->]; [|by apply Z.mod_pos_bound].
    f_equal. pose proof (Z.div_mod i 8). lia. }
  split.
  - split; cbn [nbits bv]; [done|done|by intros ix w [? _]%Hv|].
    intros i Hi. unfold bm_get. cbn [bv].
    destruct (arr_get_ex v (i / 8)) as [w Hw].
    { split; [apply Z.div_pos; lia|apply Z.div_lt_upper_bound; lia]. }
    rewrite Hw, (Hget i w Hw). apply Z.leb_le. lia.
  - apply set_eq. intros i. rewrite elem_of_bitmap_set. split; [|set_solver].
    intros [Hi Hg]. cbn [nbits] in Hi. unfold bm_get in Hg. cbn [bv] in Hg.
    destruct (arr_get v (i / 8)) as [w|] eqn:Hw; [|done].
    rewrite (Hget i w Hw) in Hg. zbool. lia.
Qed.

Lemma bitmap_create_run {S} nb (s : S) :
  0 ≤ nb < 2 ^ 32 - 8 →
  ∃ b, bitmap_create true true nb s = Ret (Some b) s ∧
       bitmap_wf b ∧ nbits b = nb ∧ bitmap_set b = ∅.
Proof.
  intros Hnb. unfold bitmap_create, BITS_PER_WORD. cbn [negb].
  rewrite DIVROUNDUP_spec by lia. replace (nb + 8 - 1) with (nb + 7) by lia.
  pose proof (Z.div_mod nb 8 ltac:(lia)) as Hdm.
  pose proof (Z.mod_pos_bound nb 8 ltac:(lia)) as Hmb.
  assert (Hlen : zlen (replicate (Z.to_nat ((nb + 7) / 8)) 0) = (nb + 7) / 8).
  { rewrite length_replicate. pose proof (Z.div_pos (nb + 7) 8). lia. }
  assert (Hq : (nb + 7) / 8 = if decide (nb mod 8 = 0) then nb / 8 else nb / 8 + 1).
  { case_decide.
    - symmetry. apply (Z.div_unique _ _ _ 7); lia.
    - symmetry. apply (Z.div_unique _ _ _ (nb mod 8 - 1)); lia. }
  destruct (Z.ltb_spec (nb / 8) ((nb + 7) / 8)) as [Hlt|Hge].
  - destruct (decide (nb mod 8 = 0)) as [Hd|Hd]; [lia|].
    rewrite Hq in *. replace (nb / 8 + 1 - 1) with (nb / 8) by lia.
    rewrite !(wrap_small 32 (nb / 8)) by lia.
    rewrite (wrap_small 32 (nb / 8 * 8)) by lia.
    replace (nb - nb / 8 * 8) with (nb mod 8) by lia.
    rewrite wrap_small by lia.
    rewrite run_assert by apply Z.eqb_refl.
    rewrite run_assert by (apply andb_true_intro; split; apply Z.ltb_lt; lia).
    set (v := replicate (Z.to_nat (nb / 8 + 1)) 0) in *.
    destruct (arr_get_ex v (nb / 8)) as [w Hw]; [lia|].
    rewrite (run_index_bind _ _ w) by done.
    apply arr_get_replicate in Hw as ->.
    eexists. split; [reflexivity|].
    destruct (create_wf nb (arr_set v (nb / 8) (mark_overbits 8 0 (nb mod 8)))) as [Hwf Hs].
    + done.
    + by rewrite length_arr_set, Hlen.
    + destruct (mark_overbits_spec 8 0 (nb mod 8)) as [Hr Hb]; [lia|lia|lia|].
      intros ix w. rewrite arr_get_set by lia. case_decide as Hx.
      * intros [= <-]. split; [done|]. intros k Hk. rewrite Hb, Z.bits_0 by done.
        subst ix. cbn [orb]. zcases; try done; lia.
      * intros Hw. pose proof (arr_get_range _ _ _ Hw).
        apply arr_get_replicate in Hw as ->. split; [lia|]. intros k Hk.
        rewrite Z.bits_0. symmetry. apply Z.leb_gt. lia.
    + done.
  - destruct (decide (nb mod 8 = 0)) as [Hd|Hd]; [|lia]. eexists. split; [reflexivity|].
    destruct (create_wf nb (replicate (Z.to_nat ((nb + 7) / 8)) 0)) as [Hwf Hs]; [done|done| |done].
    intros ix w Hw. pose proof (arr_get_range _ _ _ Hw).
    apply arr_get_replicate in Hw as ->. split; [lia|]. intros k Hk.
    rewrite Z.bits_0. symmetry. apply Z.leb_gt. lia.
Qed.
