(* ===== verification/Array.v ===== *)
(** * Resizeable arrays: kern/lib/array.c and kern/include/array.h

    An array is a block of words from the heap with the number of words in use
    and the number there are.  The model keeps all three fields, and the block
    that [kmalloc] returned is an argument of the operations that allocate:
    [None] is a null pointer, and the words of a new block are arbitrary, as
    they are in memory.  The theorems show that well-formed arrays stay so and
    are lists, and what the sizes do at the ends of their range.

    The loop that doubles the capacity runs with fuel; [doublings] units are
    enough for every request that fits, and [preallocate_never_returns] shows
    that no fuel is enough for one that does not. *)

From Stdlib Require Import ZArith Lia.
From stdpp Require Import base list strings.
From S2P Require Import Prelude Types.
Set Default Goal Selector "!".
Open Scope Z_scope.

Section array.
(** The words stored, pointers of the clients. *)
Context {V : Type}.

Record array := Array { a_v : list V; a_num : Z; a_max : Z }.

Abbreviation M := (K array).

Definition array_init : M unit := modify (λ _, Array [] 0 0).

(** [ok]: whether [kmalloc] had room for the structure itself. *)
Definition array_create (ok : bool) : option array :=
  if ok then match array_init (Array [] 0 0) with Ret _ a => Some a | _ => None end
  else None.

Definition array_cleanup : M unit :=
  a ← gets id;
  KASSERT (a_num a =? 0) "a->num == 0";;
  modify (λ a, Array [] (a_num a) (a_max a)).

(** The structure is freed after its contents. *)
Definition array_destroy : M unit := array_cleanup.

Definition array_num : M Z := gets a_num.

(** [while (num > newmax) newmax = newmax ? newmax*2 : 4;] *)
Fixpoint grow (fuel : nat) (num newmax : Z) : option Z :=
  if newmax <? num then
    match fuel with
    | O => None
    | S fuel' => grow fuel' num (if newmax =? 0 then 4 else u32 (newmax * 2))
    end
  else Some newmax.

Definition doublings : nat := 34.

(** [memcpy (dst, src, n * sizeof ( *src))] between blocks. *)
Definition copy_words (dst src : list V) (n : Z) : M (list V) :=
  if (n <=? zlen src) && (n <=? zlen dst)
  then mret (take (Z.to_nat n) src ++ drop (Z.to_nat n) dst)
  else panic "out of bounds".

(** What is asked of [kmalloc], in bytes. *)
Definition block_size (newmax : Z) : Z := u32 (newmax * 4).

Definition array_preallocate (fuel : nat) (kmalloc : Z → option (list V)) (num : Z) : M Z :=
  a ← gets id;
  if a_max a <? num then
    match grow fuel num (a_max a) with
    | None => diverge
    | Some newmax =>
        match kmalloc (block_size newmax) with
        | None => mret ENOMEM
        | Some newptr =>
            v ← copy_words newptr (a_v a) (a_num a);
            modify (λ a, Array v (a_num a) newmax);;
            mret 0
        end
    end
  else mret 0.

Definition array_setsize (fuel : nat) (kmalloc : Z → option (list V)) (num : Z) : M Z :=
  result ← array_preallocate fuel kmalloc num;
  if result =? 0 then
    modify (λ a, Array (a_v a) num (a_max a));; mret 0
  else mret result.

(** [a->v[index] = val] on the words of the block. *)
Definition store_word (i : Z) (val : V) : M unit :=
  a ← gets id;
  if (0 <=? i) && (i <? zlen (a_v a))
  then modify (λ a, Array (arr_set (a_v a) i val) (a_num a) (a_max a))
  else panic "out of bounds".

Definition array_get (i : Z) : M V :=
  a ← gets id;
  KASSERT (i <? a_num a) "index < a->num";;
  index (a_v a) i.

Definition array_set (i : Z) (val : V) : M unit :=
  a ← gets id;
  KASSERT (i <? a_num a) "index < a->num";;
  store_word i val.

(** Returns the error code and the index, [index_ret], of the new element. *)
Definition array_add (fuel : nat) (kmalloc : Z → option (list V)) (val : V) : M (Z * option Z) :=
  i ← array_num;
  ret ← array_setsize fuel kmalloc (u32 (i + 1));
  if ret =? 0 then store_word i val;; mret (0, Some i)
  else mret (ret, None).

(** [memmove (v + dst, v + src, n words)] inside one block. *)
Definition move_words (v : list V) (dst src n : Z) : M (list V) :=
  if (src + n <=? zlen v) && (dst + n <=? zlen v)
  then mret (take (Z.to_nat dst) v ++ take (Z.to_nat n) (drop (Z.to_nat src) v)
             ++ drop (Z.to_nat (dst + n)) v)
  else panic "out of bounds".

Definition array_remove (i : Z) : M unit :=
  a ← gets id;
  KASSERT (a_num a <=? a_max a) "a->num <= a->max";;
  KASSERT (i <? a_num a) "index < a->num";;
  let num_to_move := u32 (a_num a - (i + 1)) in
  v ← move_words (a_v a) i (i + 1) num_to_move;
  modify (λ a, Array v (a_num a - 1) (a_max a)).

(** ** The abstract arrays: lists

    An operation with its arguments, its result, and what it does to a list.
    [grown n l l'] is the effect of a change of size: new elements are
    arbitrary. *)
Inductive aop :=
| Get (i : Z) | Set_ (i : Z) (x : V) | Add (x : V) | Setsize (n : Z)
| Preallocate (n : Z) | Remove (i : Z).

Inductive ares := RUnit | RVal (x : V) | RErr (e : Z) | RIndex (i : Z).

Definition aop_run (fuel : nat) (kmalloc : Z → option (list V)) (o : aop) : M ares :=
  match o with
  | Get i => x ← array_get i; mret (RVal x)
  | Set_ i x => array_set i x;; mret RUnit
  | Add x =>
      r ← array_add fuel kmalloc x;
      mret (match r.2 with Some i => RIndex i | None => RErr r.1 end)
  | Setsize n => r ← array_setsize fuel kmalloc n; mret (RErr r)
  | Preallocate n => r ← array_preallocate fuel kmalloc n; mret (RErr r)
  | Remove i => array_remove i;; mret RUnit
  end.

Definition grown (n : Z) (l l' : list V) : Prop :=
  zlen l' = n ∧ take (Z.to_nat n) l `prefix_of` l'.

(** What the caller must know: indices in range, sizes up to 2^29. *)
Definition aop_allowed (l : list V) (o : aop) : Prop :=
  match o with
  | Get i | Set_ i _ | Remove i => 0 ≤ i < zlen l
  | Add _ => zlen l < 2 ^ 29
  | Setsize n | Preallocate n => 0 ≤ n ≤ 2 ^ 29
  end.

(** The words an operation needs. *)
Definition room (l : list V) (o : aop) : Z :=
  match o with Add _ => zlen l + 1 | Setsize n | Preallocate n => n | Get _ | Set_ _ _ | Remove _ => 0 end.

(** The operations on a list [l] with room for [cap] elements.  The operations that ask for room get it, and never give any back. *)
Definition list_step (l : list V) (cap : Z) (o : aop) (r : ares) (l' : list V) (cap' : Z) : Prop :=
  match o with
  | Get i => ∃ x, r = RVal x ∧ arr_get l i = Some x ∧ l' = l ∧ cap' = cap
  | Set_ i x => r = RUnit ∧ l' = arr_set l i x ∧ cap' = cap
  | Add x => r = RIndex (zlen l) ∧ l' = l ++ [x] ∧ Z.max cap (room l o) ≤ cap'
  | Setsize n => r = RErr 0 ∧ grown n l l' ∧ Z.max cap (room l o) ≤ cap'
  | Preallocate n => r = RErr 0 ∧ l' = l ∧ Z.max cap (room l o) ≤ cap'
  | Remove i => r = RUnit ∧ l' = delete (Z.to_nat i) l ∧ cap' = cap
  end.

(** The list an array stands for. *)
Definition contents (a : array) : list V := take (Z.to_nat (a_num a)) (a_v a).

(** Well-formed arrays: the number in use is within the block, the block has
    the words it says, and the number of words is a power of two. *)
Definition array_wf (a : array) : Prop :=
  0 ≤ a_num a ≤ a_max a ∧ zlen (a_v a) = a_max a ∧
  (a_max a = 0 ∨ ∃ k, 2 ≤ k ≤ 29 ∧ a_max a = 2 ^ k).

(** The blocks [kmalloc] gives have the size asked for. *)
Definition kmalloc_sized (kmalloc : Z → option (list V)) : Prop :=
  ∀ size b, kmalloc size = Some b → 4 * zlen b = size.

(** ** The loop that doubles *)

Lemma grow_eq fuel num newmax :
  grow fuel num newmax =
  if newmax <? num then
    match fuel with
    | O => None
    | S fuel' => grow fuel' num (if newmax =? 0 then 4 else u32 (newmax * 2))
    end
  else Some newmax.
Proof. by destruct fuel. Qed.

(** From a power of two, the loop reaches the first power that is enough. *)
Lemma grow_pow fuel num k :
  2 ≤ k ≤ 29 → num ≤ 2 ^ 29 → 29 - k < Z.of_nat fuel →
  ∃ k', k ≤ k' ≤ 29 ∧ num ≤ 2 ^ k' ∧ grow fuel num (2 ^ k) = Some (2 ^ k').
Proof.
  revert k. induction fuel as [|fuel IH]; intros k Hk Hn Hf; [lia|].
  rewrite grow_eq. destruct (Z.ltb_spec (2 ^ k) num) as [Hlt|Hge]; [|by exists k; repeat split; lia].
  assert (k < 29) by (destruct (decide (k = 29)) as [->|]; lia).
  rewrite (proj2 (Z.eqb_neq (2 ^ k) 0)) by (pose proof (Z.pow_pos_nonneg 2 k); lia).
  replace (2 ^ k * 2) with (2 ^ (k + 1)) by (rewrite Z.pow_add_r by lia; lia).
  rewrite wrap_small.
  2:{ split; [pose proof (Z.pow_pos_nonneg 2 (k + 1)); lia|apply Z.pow_lt_mono_r; lia]. }
  destruct (IH (k + 1)) as (k' & ? & ? & ->); [lia..|]. exists k'. repeat split; lia.
Qed.

Lemma grow_ok num a :
  array_wf a → a_max a < num ≤ 2 ^ 29 →
  ∃ k, 2 ≤ k ≤ 29 ∧ num ≤ 2 ^ k ∧ grow doublings num (a_max a) = Some (2 ^ k).
Proof.
  intros (Hn & Hl & [H0|(k & Hk & He)]) Hnum.
  - rewrite H0. unfold doublings. rewrite grow_eq, (proj2 (Z.ltb_lt 0 num)) by lia. cbn [Z.eqb].
    destruct (grow_pow 33 num 2) as (k' & ? & ? & Hg); [lia..|].
    change (2 ^ 2) with 4 in Hg. rewrite Hg. exists k'. repeat split; lia.
  - rewrite He. destruct (grow_pow doublings num k) as (k' & ? & ? & ->); [lia|lia|unfold doublings; lia|].
    exists k'. repeat split; lia.
Qed.

Lemma block_size_pow k : 0 ≤ k ≤ 29 → block_size (2 ^ k) = 4 * 2 ^ k.
Proof.
  intros. unfold block_size. rewrite wrap_small; [lia|].
  assert (2 ^ k ≤ 2 ^ 29) by (apply Z.pow_le_mono_r; lia).
  pose proof (Z.pow_pos_nonneg 2 k). lia.
Qed.

(** ** The operations on well-formed arrays *)

Lemma contents_length a : array_wf a → zlen (contents a) = a_num a.
Proof. intros (? & ? & _). unfold contents. rewrite length_take. lia. Qed.

Lemma array_wf_num a n : array_wf a → 0 ≤ n ≤ a_max a → array_wf (Array (a_v a) n (a_max a)).
Proof. by intros (? & ? & ?) ?. Qed.

Lemma array_wf_v a v :
  array_wf a → length v = length (a_v a) → array_wf (Array v (a_num a) (a_max a)).
Proof. intros (? & ? & ?) ?. split; [done|]. cbn. split; [lia|done]. Qed.

(** Preallocating gives room or ENOMEM, and the elements stay. *)
Lemma preallocate_spec kmalloc num a :
  array_wf a → kmalloc_sized kmalloc → 0 ≤ num ≤ 2 ^ 29 →
  ∃ r a', array_preallocate doublings kmalloc num a = Ret r a' ∧
    array_wf a' ∧ contents a' = contents a ∧ a_num a' = a_num a ∧
    (r = 0 ∧ Z.max (a_max a) num ≤ a_max a' ∨ r = ENOMEM ∧ a' = a ∧ a_max a < num ∧ ∃ size, kmalloc size = None).
Proof.
  intros Hwf Hkm Hnum. unfold array_preallocate. krun.
  destruct (Z.ltb_spec (a_max (id a)) num) as [Hlt|Hge]; cbn [id] in *.
  2:{ exists 0, a. do 4 (split; [done|]). left. split; [done|lia]. }
  destruct (grow_ok num a Hwf ltac:(lia)) as (k & Hk & Hle & ->).
  destruct (kmalloc (block_size (2 ^ k))) as [b|] eqn:Eb.
  2:{ exists ENOMEM, a. do 4 (split; [done|]). right. eauto. }
  pose proof (Hkm _ _ Eb) as Hb. rewrite block_size_pow in Hb by lia.
  pose proof Hwf as (Hn & Hl & _).
  unfold copy_words. rewrite (proj2 (Z.leb_le _ _)), (proj2 (Z.leb_le _ _)) by lia. cbn [andb]. krun.
  eexists 0, _. split; [reflexivity|]. cbn [a_v a_num a_max].
  assert (length (take (Z.to_nat (a_num a)) (a_v a)) = Z.to_nat (a_num a)) as Ht
    by (rewrite length_take; lia).
  split; [|split; [|split; [done|left; split; [done|lia]]]].
  - split; cbn [a_v a_num a_max]; [lia|]. rewrite length_app, length_drop, Ht.
    split; [lia|right; exists k; split; [lia|done]].
  - unfold contents. cbn [a_v a_num]. by rewrite take_app_length' by done.
Qed.

Lemma setsize_spec kmalloc num a :
  array_wf a → kmalloc_sized kmalloc → 0 ≤ num ≤ 2 ^ 29 →
  ∃ r a', array_setsize doublings kmalloc num a = Ret r a' ∧ array_wf a' ∧
    (r = 0 ∧ grown num (contents a) (contents a') ∧ a_num a' = num ∧ Z.max (a_max a) num ≤ a_max a' ∨
     r = ENOMEM ∧ a' = a ∧ a_max a < num ∧ ∃ size, kmalloc size = None).
Proof.
  intros Hwf Hkm Hnum. unfold array_setsize.
  destruct (preallocate_spec kmalloc num a Hwf Hkm Hnum) as (r & a1 & Hrun & Hwf1 & Hc & Hn1 & Hr).
  rewrite (run_bind_ret _ _ _ _ _ Hrun).
  destruct Hr as [[-> Hle]|(-> & -> & Hlt & Hnone)]; cbn [Z.eqb].
  2:{ exists ENOMEM, a. do 2 (split; [done|]). right. eauto. }
  change (0 =? 0) with true. cbv iota. krun. eexists 0, _. split; [reflexivity|].
  split; [apply array_wf_num; [done|lia]|]. left. split; [done|]. split; [|split; [done|exact Hle]].
  destruct Hwf1 as (? & ? & _). split.
  - unfold contents. cbn. rewrite length_take. lia.
  - rewrite <- Hc. unfold contents. cbn. rewrite take_take.
    destruct (decide (Z.to_nat (a_num a1) ≤ Z.to_nat num)%nat).
    + rewrite Nat.min_r by lia.
      pose proof (prefix_take (take (Z.to_nat num) (a_v a1)) (Z.to_nat (a_num a1))) as Hp.
      by rewrite take_take, Nat.min_l in Hp by lia.
    + by rewrite Nat.min_l by lia.
Qed.

Lemma get_spec a i :
  array_wf a → 0 ≤ i < a_num a →
  ∃ x, array_get i a = Ret x a ∧ arr_get (contents a) i = Some x.
Proof.
  intros (Hn & Hl & _) Hi. unfold array_get. krun.
  rewrite run_assert by (cbn; apply Z.ltb_lt; lia).
  destruct (arr_get_ex (a_v a) i ltac:(lia)) as [x Hx]. exists x. split; [by apply run_index|].
  rewrite arr_get_nonneg in Hx |- * by lia. unfold contents. rewrite lookup_take_lt by lia. done.
Qed.

Lemma store_word_spec a i x :
  array_wf a → 0 ≤ i < a_max a →
  store_word i x a = Ret tt (Array (arr_set (a_v a) i x) (a_num a) (a_max a)).
Proof.
  intros (Hn & Hl & _) Hi. unfold store_word. krun. cbn [id].
  rewrite (proj2 (Z.leb_le _ _)), (proj2 (Z.ltb_lt _ _)) by lia. done.
Qed.

Lemma set_spec a i x :
  array_wf a → 0 ≤ i < a_num a →
  ∃ a', array_set i x a = Ret tt a' ∧ array_wf a' ∧ contents a' = arr_set (contents a) i x ∧ a_max a' = a_max a.
Proof.
  intros Hwf Hi. pose proof Hwf as (Hn & Hl & _). unfold array_set. krun.
  rewrite run_assert by (cbn; apply Z.ltb_lt; lia).
  rewrite (store_word_spec a i x Hwf) by lia. eexists. split; [done|].
  split; [by apply array_wf_v, length_arr_set|].
  split; [|done]. unfold contents, arr_set. cbn. rewrite (proj2 (Z.leb_le 0 i)) by lia.
  by rewrite take_insert_lt by lia.
Qed.

Lemma remove_spec a i :
  array_wf a → 0 ≤ i < a_num a →
  ∃ a', array_remove i a = Ret tt a' ∧ array_wf a' ∧ contents a' = delete (Z.to_nat i) (contents a) ∧ a_max a' = a_max a.
Proof.
  intros Hwf Hi. pose proof Hwf as (Hn & Hl & Hm). unfold array_remove. krun. cbn [id].
  rewrite !run_assert by (first [apply Z.ltb_lt|apply Z.leb_le]; lia).
  assert (a_max a ≤ 2 ^ 29) as Hmax.
  { destruct Hm as [->|(k & ? & ->)]; [lia|apply Z.pow_le_mono_r; lia]. }
  rewrite (wrap_small 32 (a_num a - (i + 1))) by lia. unfold move_words.
  rewrite (proj2 (Z.leb_le _ _)), (proj2 (Z.leb_le _ _)) by lia. cbn [andb]. krun.
  eexists. split; [reflexivity|]. split; [|split; [|done]].
  - split; cbn [a_v a_num a_max]; [lia|]. split; [|done].
    rewrite !length_app, !length_take, !length_drop. lia.
  - unfold contents. cbn [a_v a_num a_max]. rewrite delete_take_drop, take_take.
    rewrite app_assoc, take_app_le.
    2:{ rewrite length_app, !length_take, length_drop. lia. }
    rewrite take_ge.
    2:{ rewrite length_app, !length_take, length_drop. lia. }
    rewrite Nat.min_l by lia. f_equal.
    replace (S (Z.to_nat i)) with (Z.to_nat (i + 1)) by lia.
    rewrite skipn_firstn_comm. f_equal. lia.
Qed.

Lemma add_spec kmalloc x a :
  array_wf a → kmalloc_sized kmalloc → a_num a < 2 ^ 29 →
  ∃ a', array_wf a' ∧
    (array_add doublings kmalloc x a = Ret (0, Some (a_num a)) a' ∧ contents a' = contents a ++ [x] ∧ Z.max (a_max a) (a_num a + 1) ≤ a_max a' ∨
     array_add doublings kmalloc x a = Ret (ENOMEM, None) a' ∧ a' = a ∧ a_max a < a_num a + 1 ∧ ∃ size, kmalloc size = None).
Proof.
  intros Hwf Hkm Hnum. pose proof Hwf as (Hn & Hl & _). unfold array_add, array_num. krun.
  rewrite wrap_small by lia.
  destruct (setsize_spec kmalloc (a_num a + 1) a Hwf Hkm ltac:(lia)) as (r & a1 & Hrun & Hwf1 & Hr).
  rewrite (run_bind_ret _ _ _ _ _ Hrun).
  destruct Hr as [(-> & [Hlen Hpre] & Hn1 & Hcap)|(-> & -> & Hlt & Hnone)]; [|exists a; split; [done|right; done]].
  change (0 =? 0) with true. cbv iota. pose proof Hwf1 as (Hb1 & Hl1 & _).
  rewrite (run_bind_ret _ _ _ _ _ (store_word_spec a1 (a_num a) x Hwf1 ltac:(lia))).
  eexists. split; [by apply array_wf_v, length_arr_set|]. left. split; [done|]. split; [|exact Hcap].
  pose proof (contents_length a Hwf) as Hc.
  rewrite take_ge in Hpre by lia. destruct Hpre as [t Ht].
  assert (length t = 1%nat) as Ht1.
  { apply (f_equal length) in Ht. rewrite length_app in Ht. lia. }
  destruct t as [|y [|]]; [done| |done].
  unfold contents in *. cbn [a_v a_num] in *. unfold arr_set. rewrite (proj2 (Z.leb_le 0 _)) by lia.
  rewrite take_insert_lt by lia. rewrite Ht, insert_app_r_alt by lia.
  replace (_ - _)%nat with O by lia. done.
Qed.

(** ** The ends of the range *)

(** Above 2^31 the doubled capacity wraps to zero and the loop starts again. *)
Lemma grow_never num :
  2 ^ 31 < num →
  ∀ fuel newmax, newmax = 0 ∨ (∃ k, 2 ≤ k ≤ 31 ∧ newmax = 2 ^ k) → grow fuel num newmax = None.
Proof.
  intros Hnum fuel. induction fuel as [|fuel IH]; intros newmax Hm; rewrite grow_eq.
  all: assert (newmax ≤ 2 ^ 31) by (destruct Hm as [->|(k & ? & ->)]; [lia|apply Z.pow_le_mono_r; lia]).
  all: rewrite (proj2 (Z.ltb_lt newmax num)) by lia.
  1: done.
  apply IH. destruct Hm as [->|(k & Hk & ->)]; [right; exists 2; split; [lia|done]|].
  rewrite (proj2 (Z.eqb_neq (2 ^ k) 0)) by (pose proof (Z.pow_pos_nonneg 2 k); lia).
  replace (2 ^ k * 2) with (2 ^ (k + 1)) by (rewrite Z.pow_add_r by lia; lia).
  destruct (decide (k = 31)) as [->|]; [by left|right]. exists (k + 1). split; [lia|].
  apply wrap_small. split; [apply Z.pow_nonneg; lia|apply Z.pow_lt_mono_r; lia].
Qed.

(** Asking a well-formed array for more than 2^31 words loops for ever. *)
Theorem preallocate_never_returns kmalloc num a :
  array_wf a → 2 ^ 31 < num → ∀ fuel, array_preallocate fuel kmalloc num a = Diverge.
Proof.
  intros (_ & _ & Hm) Hnum fuel. unfold array_preallocate. krun.
  assert (a_max a ≤ 2 ^ 29) by (destruct Hm as [->|(k & ? & ->)]; [lia|apply Z.pow_le_mono_r; lia]).
  cbn [id]. rewrite (proj2 (Z.ltb_lt _ num)) by lia.
  rewrite grow_never; [done..|]. destruct Hm as [|(k & ? & ?)]; [by left|right; exists k; split; [lia|done]].
Qed.

(** With 2^30 words the size in bytes wraps to zero: the call succeeds with a
    block of no words, and the array is not well-formed any more. *)
Theorem setsize_wraps :
  ∃ a, array_setsize doublings (λ size, if size =? 0 then Some [] else None) (2 ^ 30) (Array [] 0 0) = Ret 0 a ∧
    a_num a = 2 ^ 30 ∧ ¬ array_wf a ∧ ∀ x, array_set 0 x a = Panic "out of bounds".
Proof.
  eexists. split; [vm_compute; reflexivity|]. cbn. split; [done|]. split; [|done].
  intros (_ & Hl & _). done.
Qed.

(** C32: arrays.  On a well-formed array, and for sizes up to 2^29 (beyond, [preallocate_never_returns] and [setsize_wraps]) and indices in range, every
    operation returns, with no assertion and no access outside the block; the
    array is well-formed again and has been treated as a list with its room:
    reading, replacing, appending, removing with the following elements moved
    down, and changes of size that keep the elements.  What asks for room has it afterwards, and room is never given up; so after a preallocation of [n] no
    addition fails up to [n] elements.  The only error is ENOMEM, when the operation needs more room than there is and
    [kmalloc] fails, and then nothing has changed. *)
Theorem array_ops_well_typed kmalloc o a :
  array_wf a → kmalloc_sized kmalloc → aop_allowed (contents a) o →
  ∃ r a', aop_run doublings kmalloc o a = Ret r a' ∧ array_wf a' ∧
    (list_step (contents a) (a_max a) o r (contents a') (a_max a') ∨
     r = RErr ENOMEM ∧ a' = a ∧ a_max a < room (contents a) o ∧ ∃ size, kmalloc size = None).
Proof.
  intros Hwf Hkm Ho. pose proof (contents_length a Hwf) as Hc.
  destruct o as [i|i x|x|n|n|i]; cbn [aop_allowed aop_run list_step room] in *.
  - destruct (get_spec a i Hwf ltac:(lia)) as (x & Hr & Hx).
    rewrite (run_bind_ret _ _ _ _ _ Hr). eauto 10.
  - destruct (set_spec a i x Hwf ltac:(lia)) as (a' & Hr & ? & ? & ?).
    rewrite (run_bind_ret _ _ _ _ _ Hr). eauto 10.
  - destruct (add_spec kmalloc x a Hwf Hkm ltac:(lia)) as (a' & Hwf' & [(Hr & ? & ?)|(Hr & -> & ? & ?)]);
      rewrite (run_bind_ret _ _ _ _ _ Hr); rewrite Hc; eauto 10.
  - destruct (setsize_spec kmalloc n a Hwf Hkm ltac:(lia)) as (r & a' & Hr & ? & [(-> & ? & ? & ?)|(-> & -> & ? & ?)]);
      rewrite (run_bind_ret _ _ _ _ _ Hr); eauto 10.
  - destruct (preallocate_spec kmalloc n a Hwf Hkm ltac:(lia)) as (r & a' & Hr & ? & ? & ? & [(-> & ?)|(-> & -> & ? & ?)]);
      rewrite (run_bind_ret _ _ _ _ _ Hr); eauto 10.
  - destruct (remove_spec a i Hwf ltac:(lia)) as (a' & Hr & ? & ? & ?).
    rewrite (run_bind_ret _ _ _ _ _ Hr). eauto 10.
Qed.

(** A new array is well-formed and empty. *)
Lemma array_init_wf a : ∃ a', array_init a = Ret tt a' ∧ array_wf a' ∧ contents a' = [].
Proof. eexists. split; [reflexivity|]. split; [|done]. split; [cbn; lia|]. split; [done|by left]. Qed.

(** Only an empty array may be cleaned up, and its block is given back. *)
Lemma array_cleanup_spec a :
  array_wf a →
  array_cleanup a = if a_num a =? 0 then Ret tt (Array [] 0 (a_max a)) else Panic "a->num == 0".
Proof.
  intros (? & _). unfold array_cleanup. krun. cbn [id]. unfold KASSERT.
  destruct (Z.eqb_spec (a_num a) 0) as [He|]; [|done]. krun. unfold modify. by rewrite He.
Qed.

End array.
Arguments array : clear implicits.

(** An array of five numbers in eight words, from which the second is removed. *)
Definition five : array Z := Array [10; 11; 12; 13; 14; 0; 0; 0] 5 8.

(** A heap with room for the words that are asked for. *)
Definition zeros (size : Z) : option (list Z) :=
  if (0 <=? size) && (size mod 4 =? 0) && (size <? 4096)
  then Some (replicate (Z.to_nat (size / 4)) 0) else None.

Lemma zeros_sized : kmalloc_sized zeros.
Proof.
  intros size b. unfold zeros.
  destruct (0 <=? size) eqn:E1; cbn [andb]; [|done].
  destruct (size mod 4 =? 0) eqn:E2; cbn [andb]; [|done].
  destruct (size <? 4096) eqn:E3; [|done]. intros [= <-]. zbool.
  rewrite length_replicate. pose proof (Z.div_mod size 4). lia.
Qed.

Lemma array_ops_well_typed_witness :
  ∃ r a', aop_run doublings zeros (Remove 1) five = Ret r a' ∧ array_wf a' ∧
    (list_step (contents five) 8 (Remove 1) r (contents a') (a_max a') ∨
     r = RErr ENOMEM ∧ a' = five ∧ 8 < room (contents five) (Remove 1) ∧ ∃ size, zeros size = None).
Proof.
  apply (array_ops_well_typed zeros (Remove 1) five).
  - split; [cbn; lia|]. split; [done|]. right. exists 3. split; [lia|done].
  - exact zeros_sized.
  - change (0 ≤ 1 < 5). lia.
Defined.

(** The array grows from four to eight words with its fifth element. *)
Example five_adds :
  (a1 ← (array_add doublings zeros 10;; array_add doublings zeros 11;; array_add doublings zeros 12;;
         array_add doublings zeros 13;; array_add doublings zeros 14); gets a_max) (Array [] 0 0) = Ret 8 five.
Proof. vm_compute. reflexivity. Qed.
