(* ===== verification/Bswap.v ===== *)
(** * Byte order and times: kern/lib/bswap.c and kern/lib/time.c

    The swaps are compared with the reversal of the bytes of a word; the two
    halves of a 64-bit argument, as system calls pass it in registers, are
    joined and split; times are numbers of nanoseconds. *)

From Stdlib Require Import ZArith Lia.
From stdpp Require Import base list.
From S2P Require Import Prelude.
Set Default Goal Selector "!".
Open Scope Z_scope.

(** ** bswap.c *)

Definition bswap16 (val : Z) : Z :=
  wrap 16 (Z.lor (Z.shiftl (Z.land val 0x00ff) 8)
                 (Z.shiftr (Z.land val 0xff00) 8)).

Definition bswap32 (val : Z) : Z :=
  Z.lor (u32 (Z.shiftl (Z.land val 0x000000ff) 24))
  (Z.lor (u32 (Z.shiftl (Z.land val 0x0000ff00) 8))
  (Z.lor (Z.shiftr (Z.land val 0x00ff0000) 8)
         (Z.shiftr (Z.land val 0xff000000) 24))).

Definition bswap64 (val : Z) : Z :=
  Z.lor (u64 (Z.shiftl (Z.land val 0x00000000000000ff) 56))
  (Z.lor (u64 (Z.shiftl (Z.land val 0x000000000000ff00) 40))
  (Z.lor (u64 (Z.shiftl (Z.land val 0x0000000000ff0000) 24))
  (Z.lor (u64 (Z.shiftl (Z.land val 0x00000000ff000000) 8))
  (Z.lor (u64 (Z.shiftl (Z.land val 0x000000ff00000000) 8))
  (Z.lor (u64 (Z.shiftl (Z.land val 0x0000ff0000000000) 24))
  (Z.lor (Z.shiftr (Z.land val 0x00ff000000000000) 40)
         (Z.shiftr (Z.land val 0xff00000000000000) 56))))))).

(** The machine is big-endian: network order is its own. *)
Definition ntohs (val : Z) : Z := val.
Definition htons (val : Z) : Z := val.
Definition ntohl (val : Z) : Z := val.
Definition htonl (val : Z) : Z := val.
Definition ntohll (val : Z) : Z := val.
Definition htonll (val : Z) : Z := val.

Definition join32to64 (x1 x2 : Z) : Z := Z.lor (u64 (Z.shiftl x1 32)) x2.
Definition split64to32 (x : Z) : Z * Z := (u32 (Z.shiftr x 32), u32 (Z.land x 0xffffffff)).

(** ** time.c *)

Record timespec := Timespec { tv_sec : Z; tv_nsec : Z }.

Definition timespec_add (ts1 ts2 : timespec) : timespec :=
  let nsec := i32 (tv_nsec ts1 + tv_nsec ts2) in
  let sec := i64 (tv_sec ts1 + tv_sec ts2) in
  if 1000000000 <=? nsec
  then Timespec (i64 (sec + 1)) (i32 (nsec - 1000000000))
  else Timespec sec nsec.

Definition timespec_sub (ts1 ts2 : timespec) : timespec :=
  let r := if tv_nsec ts1 <? tv_nsec ts2
           then Timespec (i64 (tv_sec ts1 - 1)) (i32 (tv_nsec ts1 + 1000000000))
           else ts1 in
  Timespec (i64 (tv_sec r - tv_sec ts2)) (i32 (tv_nsec r - tv_nsec ts2)).

(** ** Bytes of a word *)

Definition byte (x k : Z) : Z := Z.land (Z.shiftr x (8 * k)) 0xff.

Lemma testbit_byte x k i :
  0 ≤ k → 0 ≤ i → Z.testbit (byte x k) i = ((i <? 8) && Z.testbit x (8 * k + i))%bool.
Proof.
  intros Hk Hi. unfold byte. rewrite Z.land_spec, Z.shiftr_spec by done.
  change 0xff with (Z.ones 8). rewrite Z.testbit_ones_nonneg by lia.
  rewrite andb_comm. do 2 f_equal. lia.
Qed.

(** Two words agree when their bytes do. *)
Lemma bytes_ext n x y :
  0 ≤ x < 2 ^ (8 * n) → 0 ≤ y < 2 ^ (8 * n) →
  (∀ k, 0 ≤ k < n → byte x k = byte y k) → x = y.
Proof.
  intros Hx Hy Hb. apply Z.bits_inj'. intros i Hi.
  assert (0 ≤ n) by (destruct (Z.ltb_spec n 0); [rewrite Z.pow_neg_r in Hx by lia; lia|done]).
  destruct (Z.ltb_spec i (8 * n)).
  - pose proof (Z.div_mod i 8). pose proof (Z.mod_pos_bound i 8).
    assert (Hk : byte x (i / 8) = byte y (i / 8)) by (apply Hb; split; lia).
    apply (f_equal (λ b, Z.testbit b (i mod 8))) in Hk.
    rewrite !testbit_byte, (proj2 (Z.ltb_lt (i mod 8) 8)) in Hk by lia. cbn [andb] in Hk.
    by replace (8 * (i / 8) + i mod 8) with i in Hk by lia.
  - rewrite <- (Z.mod_small x (2 ^ (8 * n))), <- (Z.mod_small y (2 ^ (8 * n))) by done.
    by rewrite !Z.mod_pow2_bits_high by lia.
Qed.

(** Evaluates a bit of a word built by masks and shifts. *)
Ltac bit_eval :=
  unfold byte, wrap;
  rewrite ?Z.land_spec, ?Z.shiftr_spec, ?Z.lor_spec by lia;
  rewrite ?Z.shiftr_spec, ?Z.mod_pow2_bits_low, ?Z.mod_pow2_bits_high by lia;
  rewrite ?Z.lor_spec;
  rewrite ?Z.shiftr_spec, ?Z.mod_pow2_bits_low, ?Z.mod_pow2_bits_high by lia;
  rewrite ?Z.shiftl_spec, ?Z.shiftr_spec by lia;
  rewrite ?Z.land_spec;
  repeat match goal with
  | |- context [Z.testbit (Z.pos ?c) ?i] =>
      let r := eval vm_compute in (Z.testbit (Z.pos c) i) in
      change (Z.testbit (Z.pos c) i) with r
  end;
  rewrite ?andb_false_r, ?andb_true_r, ?orb_false_r, ?orb_false_l; try done.

Lemma Z_cases8 i : 0 ≤ i < 8 → i = 0 ∨ i = 1 ∨ i = 2 ∨ i = 3 ∨ i = 4 ∨ i = 5 ∨ i = 6 ∨ i = 7.
Proof. lia. Qed.

Lemma byte_bit_ext x y k j :
  0 ≤ k → 0 ≤ j →
  (∀ i, 0 ≤ i < 8 → Z.testbit x (8 * k + i) = Z.testbit y (8 * j + i)) → byte x k = byte y j.
Proof.
  intros Hk Hj H. apply Z.bits_inj'. intros i Hi. rewrite !testbit_byte by done.
  destruct (Z.ltb_spec i 8); [|done]. cbn [andb]. by apply H.
Qed.

Lemma bswap32_byte x k : 0 ≤ k < 4 → byte (bswap32 x) k = byte x (3 - k).
Proof.
  intros Hk. apply byte_bit_ext; [lia..|]. intros i Hi. unfold bswap32.
  assert (k = 0 ∨ k = 1 ∨ k = 2 ∨ k = 3) as Hc by lia.
  destruct Hc as [->|[->|[->| ->]]];
    destruct (Z_cases8 i Hi) as [->|[->|[->|[->|[->|[->|[->| ->]]]]]]]; bit_eval.
Qed.

Lemma bswap16_byte x k : 0 ≤ k < 2 → byte (bswap16 x) k = byte x (1 - k).
Proof.
  intros Hk. apply byte_bit_ext; [lia..|]. intros i Hi. unfold bswap16.
  assert (k = 0 ∨ k = 1) as Hc by lia.
  destruct Hc as [->| ->];
    destruct (Z_cases8 i Hi) as [->|[->|[->|[->|[->|[->|[->| ->]]]]]]]; bit_eval.
Qed.

Lemma shiftr_range w x s : 0 ≤ s → 0 ≤ x < 2 ^ w → 0 ≤ Z.shiftr x s < 2 ^ w.
Proof.
  intros Hs Hx. rewrite Z.shiftr_div_pow2 by done. pose proof (Z.pow_pos_nonneg 2 s).
  split; [apply Z.div_pos; lia|]. apply Z.div_lt_upper_bound; [lia|]. nia.
Qed.

Ltac word_range :=
  repeat first
    [ apply lor_range; [lia| |] | apply wrap_range; lia
    | apply shiftr_range; [lia|] | apply land_range; [lia|] ]; try done.

Lemma bswap16_range x : 0 ≤ bswap16 x < 2 ^ 16.
Proof. apply wrap_range. lia. Qed.

Lemma bswap32_range x : 0 ≤ x < 2 ^ 32 → 0 ≤ bswap32 x < 2 ^ 32.
Proof. intros. unfold bswap32. word_range. Qed.

Lemma bswap64_range x : 0 ≤ x < 2 ^ 64 → 0 ≤ bswap64 x < 2 ^ 64.
Proof. intros. unfold bswap64. word_range. Qed.

(** Swapping twice gives the word back. *)
Theorem bswap16_involutive x : 0 ≤ x < 2 ^ 16 → bswap16 (bswap16 x) = x.
Proof.
  intros Hx. apply (bytes_ext 2); [apply bswap16_range|done|]. intros k Hk.
  rewrite !bswap16_byte by lia. f_equal. lia.
Qed.

Theorem bswap32_involutive x : 0 ≤ x < 2 ^ 32 → bswap32 (bswap32 x) = x.
Proof.
  intros Hx. apply (bytes_ext 4); [by apply bswap32_range, bswap32_range|done|]. intros k Hk.
  rewrite !bswap32_byte by lia. f_equal. lia.
Qed.

(** What [bswap64] makes of each byte: bytes 4 and 5 are shifted the wrong way, so that byte 4 is mixed into
    byte 5 and byte 5 is lost. *)
Definition bswap64_bytes (x k : Z) : Z :=
  match k with
  | 2 | 3 => 0
  | 5 => Z.lor (byte x 2) (byte x 4)
  | _ => byte x (7 - k)
  end.

Lemma bswap64_byte x k : 0 ≤ k < 8 → byte (bswap64 x) k = bswap64_bytes x k.
Proof.
  intros Hk. apply Z.bits_inj'. intros i Hi. rewrite testbit_byte by lia.
  destruct (Z_cases8 k Hk) as [->|[->|[->|[->|[->|[->|[->| ->]]]]]]]; cbn [bswap64_bytes];
    rewrite ?Z.bits_0, ?Z.lor_spec, ?testbit_byte by lia;
    (destruct (Z.ltb_spec i 8); [|done]); cbn [andb]; unfold bswap64;
    destruct (Z_cases8 i ltac:(lia)) as [->|[->|[->|[->|[->|[->|[->| ->]]]]]]]; bit_eval.
Qed.

(** [bswap64] reverses a word exactly when its bytes 4 and 5 are zero. *)
Theorem bswap64_correct_iff x :
  (∀ k, 0 ≤ k < 8 → byte (bswap64 x) k = byte x (7 - k)) ↔ byte x 4 = 0 ∧ byte x 5 = 0.
Proof.
  split.
  - intros H. split.
    + specialize (H 3 ltac:(lia)). by rewrite bswap64_byte in H by lia.
    + specialize (H 2 ltac:(lia)). by rewrite bswap64_byte in H by lia.
  - intros [H4 H5] k Hk. rewrite bswap64_byte by done.
    destruct (Z_cases8 k Hk) as [->|[->|[->|[->|[->|[->|[->| ->]]]]]]]; cbn [bswap64_bytes]; try done.
    by rewrite H4, Z.lor_0_r.
Qed.

Example bswap64_wrong : bswap64 0x0102030405060708 = 0x0807060500000201.
Proof. reflexivity. Qed.

(** ** Halves of 64-bit words *)

Lemma join32to64_value x1 x2 :
  0 ≤ x1 < 2 ^ 32 → 0 ≤ x2 < 2 ^ 32 → join32to64 x1 x2 = x1 * 2 ^ 32 + x2.
Proof.
  intros H1 H2. unfold join32to64. rewrite Z.shiftl_mul_pow2 by lia.
  rewrite wrap_small by lia. rewrite (lor_disjoint_add 32); [done|lia| |done].
  apply Z.mod_mul. lia.
Qed.

Lemma split64to32_value x : 0 ≤ x < 2 ^ 64 → split64to32 x = (x / 2 ^ 32, x mod 2 ^ 32).
Proof.
  intros Hx. unfold split64to32. rewrite Z.shiftr_div_pow2 by lia.
  change 0xffffffff with (2 ^ 32 - 1). rewrite land_ones_low by lia.
  rewrite !wrap_small; [done|by apply Z.mod_pos_bound|]. split; [apply Z.div_pos; lia|apply Z.div_lt_upper_bound; lia].
Qed.

(** Splitting undoes joining, and joining undoes splitting. *)
Theorem split_join x1 x2 :
  0 ≤ x1 < 2 ^ 32 → 0 ≤ x2 < 2 ^ 32 → split64to32 (join32to64 x1 x2) = (x1, x2).
Proof.
  intros H1 H2. rewrite join32to64_value by done. rewrite split64to32_value by lia.
  rewrite Z.div_add_l, Z.div_small, (Z.add_comm (x1 * _)), Z.mod_add, Z.mod_small by lia.
  f_equal. lia.
Qed.

Theorem join_split x :
  0 ≤ x < 2 ^ 64 → join32to64 (split64to32 x).1 (split64to32 x).2 = x.
Proof.
  intros Hx. rewrite split64to32_value by done. cbn [fst snd]. rewrite join32to64_value.
  - pose proof (Z.div_mod x (2 ^ 32)). lia.
  - split; [apply Z.div_pos; lia|apply Z.div_lt_upper_bound; lia].
  - apply Z.mod_pos_bound. lia.
Qed.

(** ** Times *)

(** A time in nanoseconds, and the times whose parts are in their ranges. *)
Definition nanoseconds (ts : timespec) : Z := tv_sec ts * 1000000000 + tv_nsec ts.
Definition time_ok (ts : timespec) : Prop :=
  0 ≤ tv_nsec ts < 1000000000 ∧ - 2 ^ 61 ≤ tv_sec ts < 2 ^ 61.

Ltac no_overflow :=
  repeat match goal with
  | |- context [swrap ?w ?x] => rewrite (swrap_small w x) by (cbn; lia)
  end.

(** The sum and the difference of times are those of their nanoseconds, again with less than a second of
    nanoseconds; equal arguments and results may share their storage. *)
Theorem timespec_add_correct t1 t2 :
  time_ok t1 → time_ok t2 →
  nanoseconds (timespec_add t1 t2) = nanoseconds t1 + nanoseconds t2 ∧
  0 ≤ tv_nsec (timespec_add t1 t2) < 1000000000.
Proof.
  destruct t1 as [s1 n1], t2 as [s2 n2]. unfold time_ok, timespec_add, nanoseconds.
  cbn [tv_sec tv_nsec]. intros [? ?] [? ?]. no_overflow. zcases; cbn [tv_sec tv_nsec]; no_overflow; lia.
Qed.

Theorem timespec_sub_correct t1 t2 :
  time_ok t1 → time_ok t2 →
  nanoseconds (timespec_sub t1 t2) = nanoseconds t1 - nanoseconds t2 ∧
  0 ≤ tv_nsec (timespec_sub t1 t2) < 1000000000.
Proof.
  destruct t1 as [s1 n1], t2 as [s2 n2]. unfold time_ok, timespec_sub, nanoseconds.
  cbn [tv_sec tv_nsec]. intros [? ?] [? ?]. zcases; cbn [tv_sec tv_nsec]; no_overflow; lia.
Qed.

(** Subtracting what was added gives the same time. *)
Theorem timespec_add_sub t1 t2 :
  time_ok t1 → time_ok t2 → timespec_sub (timespec_add t1 t2) t2 = t1.
Proof.
  destruct t1 as [s1 n1], t2 as [s2 n2]. unfold time_ok, timespec_add, timespec_sub.
  cbn [tv_sec tv_nsec]. intros [? ?] [? ?]. no_overflow.
  zcases; cbn [tv_sec tv_nsec] in *; no_overflow; try lia; f_equal; lia.
Qed.
