(* ===== verification/Machine.v ===== *)
(** * Machine: the kernel state the memory-management code works on

    The record [kstate] gathers the static variables of the files under
    kern/vm (the coremap and its victim index, the swap map and swap file, the
    TLB bookkeeping, the statistics), the page tables and address spaces the
    kernel allocates, the process table, the physical memory and the processor's
    TLB.  A page-table entry is named by a pointer [(table, index)], as the
    coremap's [cm_ptentry] names it.

    Files are reached through the vnode interface of kern/include/vnode.h.  The
    file systems behind it end in device registers, so the operations are a
    class [VnodeOps] and what the memory manager relies on is [VnodeLaws];
    [ramfile] is an instance. *)

From stdpp Require Import base gmap list strings fin_maps.
From Stdlib Require Import ZArith Lia.
From S2P Require Import Prelude Types Bitmap.
Set Default Goal Selector "!".
Open Scope Z_scope.

(** ** The vnode interface *)

(** [VOP_READ v off n]: an error code, or the bytes transferred, at most [n];
    the caller's [uio_resid] is [n] minus their number.
    [VOP_WRITE v off bs]: an error code, or the new file and the number of
    bytes of [bs] transferred. *)
Class VnodeOps (V : Type) := {
  VOP_READ : V → Z → Z → Z + list Z;
  VOP_WRITE : V → Z → list Z → Z + V * Z;
}.

(** The documented behaviour of the two operations on a regular file whose
    byte at offset [a] is [file_byte v a]. *)
Class VnodeLaws (V : Type) `{VnodeOps V} (file_byte : V → Z → Z) : Prop := {
  vop_read_len : ∀ v off n bs,
    VOP_READ v off n = inr bs → 0 ≤ n → zlen bs ≤ n;
  vop_read_bytes : ∀ v off n bs i b,
    VOP_READ v off n = inr bs → arr_get bs i = Some b → b = file_byte v (off + i);
  vop_write_bytes : ∀ v off bs v' n a,
    VOP_WRITE v off bs = inr (v', n) →
    file_byte v' a =
    if decide (off ≤ a < off + n) then default 0 (arr_get bs (a - off))
    else file_byte v a;
  vop_write_len : ∀ v off bs v' n,
    VOP_WRITE v off bs = inr (v', n) → 0 ≤ n ≤ zlen bs;
}.

(** ** Data structures *)

(** kern/include/pt.h.  The four states fill the two bits of [pt_status]. *)
Inductive pt_state := NOT_LOADED | IN_MEMORY | IN_SWAP | IN_MEMORY_RDONLY.

#[global] Instance pt_state_eq_dec : EqDecision pt_state.
Proof. solve_decision. Defined.

Record pt_entry := PtEntry {
  pt_frame_index : Z;   (* 20 bits *)
  pt_swap_index : Z;    (* 12 bits *)
  pt_status : pt_state;
}.

(** A [struct pt_entry *]: the page table and the index in it. *)
Abbreviation ptptr := (Z * Z)%type.

(** kern/include/coremap.h.  [cm_free] is 1 for a frame in use. *)
Record cm_entry := CmEntry {
  cm_free : Z;
  cm_size_alloc : Z;    (* 20 bits *)
  cm_lock : Z;
  cm_ptentry : option ptptr;
}.

(** kern/include/segment.h *)
Record segment := Segment {
  seg_first_vaddr : Z;
  seg_last_vaddr : Z;
  seg_elf_size : Z;
  seg_elf_offset : Z;
  seg_npages : Z;
}.

(** kern/include/addrspace.h; a null pointer is [None]. *)
Record addrspace := Addrspace {
  as_text : option segment;
  as_data : option segment;
  as_stack : option segment;
  as_ptable : option Z;
}.

(** The fields of kern/include/proc.h the memory manager and [sys__exit] use;
    [p_sem] is the count of the exit semaphore. *)
Record proc (V : Type) := Proc {
  p_numthreads : Z;
  p_addrspace : option Z;
  p_vnode : option V;
  p_status : Z;
  p_sem : Z;
}.
Arguments Proc {V} _ _ _ _ _.
Arguments p_numthreads {V} _.
Arguments p_addrspace {V} _.
Arguments p_vnode {V} _.
Arguments p_status {V} _.
Arguments p_sem {V} _.

(** kern/vm/vm_tlb.c and the processor's TLB: pairs of entryhi and entrylo. *)
Record tlb_state := TlbState {
  tlb_slots : list (Z * Z);
  tlb_victim : Z;
  tlb_free : bool;
}.

(** kern/vm/coremap.c *)
Record cm_state := CmState {
  coremap : list cm_entry;
  nRamFrames : Z;
  victim_index : Z;
}.

(** kern/vm/swapfile.c *)
Record swap_state (V : Type) := SwapState {
  swapfile : V;
  swapmap : bitmap;
}.
Arguments SwapState {V} _ _.
Arguments swapfile {V} _.
Arguments swapmap {V} _.

(** The static spinlocks of kern/vm and the lock of each process. *)
Inductive spinlock := cm_spinlock | swaplock | vmstats_l | p_lock (p : Z).

#[global] Instance spinlock_eq_dec : EqDecision spinlock.
Proof. solve_decision. Defined.

Record kstate (V : Type) := KState {
  k_cm : cm_state;
  k_ptabs : gmap Z (list pt_entry);
  k_ram : Z → Z;
  k_swap : swap_state V;
  k_tlb : tlb_state;
  k_stats : list Z;
  k_ases : gmap Z addrspace;
  k_procs : gmap Z (proc V);
  k_curproc : option Z;
  k_held : list spinlock;      (* held by this cpu; c_spinlocks is its length *)
  k_in_interrupt : bool;
  k_nomem : bool;              (* whether the next calls of kmalloc fail *)
  k_next : Z;                  (* address of the next object of kmalloc *)
}.
Arguments KState {V} _ _ _ _ _ _ _ _ _ _ _ _ _.
Arguments k_cm {V} _.
Arguments k_ptabs {V} _.
Arguments k_ram {V} _ _.
Arguments k_swap {V} _.
Arguments k_tlb {V} _.
Arguments k_stats {V} _.
Arguments k_ases {V} _.
Arguments k_procs {V} _.
Arguments k_curproc {V} _.
Arguments k_held {V} _.
Arguments k_in_interrupt {V} _.
Arguments k_nomem {V} _.
Arguments k_next {V} _.

Section setters.
Context {V : Type}.
Implicit Types s : kstate V.

Definition set_cm x s := KState x (k_ptabs s) (k_ram s) (k_swap s) (k_tlb s)
  (k_stats s) (k_ases s) (k_procs s) (k_curproc s) (k_held s)
  (k_in_interrupt s) (k_nomem s) (k_next s).
Definition set_ptabs x s := KState (k_cm s) x (k_ram s) (k_swap s) (k_tlb s)
  (k_stats s) (k_ases s) (k_procs s) (k_curproc s) (k_held s)
  (k_in_interrupt s) (k_nomem s) (k_next s).
Definition set_ram x s := KState (k_cm s) (k_ptabs s) x (k_swap s) (k_tlb s)
  (k_stats s) (k_ases s) (k_procs s) (k_curproc s) (k_held s)
  (k_in_interrupt s) (k_nomem s) (k_next s).
Definition set_swap x s := KState (k_cm s) (k_ptabs s) (k_ram s) x (k_tlb s)
  (k_stats s) (k_ases s) (k_procs s) (k_curproc s) (k_held s)
  (k_in_interrupt s) (k_nomem s) (k_next s).
Definition set_tlb x s := KState (k_cm s) (k_ptabs s) (k_ram s) (k_swap s) x
  (k_stats s) (k_ases s) (k_procs s) (k_curproc s) (k_held s)
  (k_in_interrupt s) (k_nomem s) (k_next s).
Definition set_stats x s := KState (k_cm s) (k_ptabs s) (k_ram s) (k_swap s)
  (k_tlb s) x (k_ases s) (k_procs s) (k_curproc s) (k_held s)
  (k_in_interrupt s) (k_nomem s) (k_next s).
Definition set_ases x s := KState (k_cm s) (k_ptabs s) (k_ram s) (k_swap s)
  (k_tlb s) (k_stats s) x (k_procs s) (k_curproc s) (k_held s)
  (k_in_interrupt s) (k_nomem s) (k_next s).
Definition set_procs x s := KState (k_cm s) (k_ptabs s) (k_ram s) (k_swap s)
  (k_tlb s) (k_stats s) (k_ases s) x (k_curproc s) (k_held s)
  (k_in_interrupt s) (k_nomem s) (k_next s).
Definition set_curproc x s := KState (k_cm s) (k_ptabs s) (k_ram s) (k_swap s)
  (k_tlb s) (k_stats s) (k_ases s) (k_procs s) x (k_held s)
  (k_in_interrupt s) (k_nomem s) (k_next s).
Definition set_held x s := KState (k_cm s) (k_ptabs s) (k_ram s) (k_swap s)
  (k_tlb s) (k_stats s) (k_ases s) (k_procs s) (k_curproc s) x
  (k_in_interrupt s) (k_nomem s) (k_next s).
Definition set_next x s := KState (k_cm s) (k_ptabs s) (k_ram s) (k_swap s)
  (k_tlb s) (k_stats s) (k_ases s) (k_procs s) (k_curproc s) (k_held s)
  (k_in_interrupt s) (k_nomem s) x.

Definition set_coremap x s :=
  set_cm (CmState x (nRamFrames (k_cm s)) (victim_index (k_cm s))) s.
Definition set_victim_index x s :=
  set_cm (CmState (coremap (k_cm s)) (nRamFrames (k_cm s)) x) s.
Definition set_swapmap x s := set_swap (SwapState (swapfile (k_swap s)) x) s.
Definition set_swapfile x s := set_swap (SwapState x (swapmap (k_swap s))) s.
Definition set_slots x s :=
  set_tlb (TlbState x (tlb_victim (k_tlb s)) (tlb_free (k_tlb s))) s.

(** ** Spinlocks (kern/thread/spinlock.c), as seen by the cpu that runs

    The current cpu exists and no other cpu holds the lock, so the wait ends
    at once. *)
Definition spinlock_acquire (l : spinlock) : K (kstate V) unit :=
  held ← gets k_held;
  if bool_decide (l ∈ held) then panic "Deadlock on spinlock"
  else modify (set_held (l :: held)).

Definition spinlock_release (l : spinlock) : K (kstate V) unit :=
  held ← gets k_held;
  KASSERT (bool_decide (l ∈ held)) "splk->splk_holder == curcpu->c_self" ;;
  KASSERT (bool_decide (0 < zlen held)) "curcpu->c_spinlocks > 0" ;;
  modify (set_held (filter (λ x, x ≠ l) held)).

(** ** Page-table entries through pointers *)
Definition pte_get (s : kstate V) (p : ptptr) : option pt_entry :=
  match k_ptabs s !! p.1 with Some t => arr_get t p.2 | None => None end.

Definition pte_set (p : ptptr) (r : pt_entry) (s : kstate V) : kstate V :=
  match k_ptabs s !! p.1 with
  | Some t => set_ptabs (<[p.1 := arr_set t p.2 r]> (k_ptabs s)) s
  | None => s
  end.

(** ** Physical memory

    The kernel reaches physical memory through kseg0; [kmem_write] stores the
    bytes [bs] at a kernel virtual address and [kmem_read] fetches [n]. *)
Definition ram_write (pa : Z) (bs : list Z) (ram : Z → Z) : Z → Z := λ a,
  if decide (pa ≤ a < pa + zlen bs) then default 0 (arr_get bs (a - pa)) else ram a.

Definition kmem_write (kva : Z) (bs : list Z) (s : kstate V) : kstate V :=
  set_ram (ram_write (KVADDR_TO_PADDR kva) bs (k_ram s)) s.

Definition kmem_read (kva n : Z) (s : kstate V) : list Z :=
  map (λ i, k_ram s (KVADDR_TO_PADDR kva + i)) (seqZ 0 n).

(** [bzero] on kernel memory. *)
Definition kmem_zero (kva n : Z) (s : kstate V) : kstate V :=
  set_ram (λ a, if decide (KVADDR_TO_PADDR kva ≤ a < KVADDR_TO_PADDR kva + n)
                then 0 else k_ram s a) s.

(** The address of a new kernel object, or null. *)
Definition kmalloc : K (kstate V) (option Z) :=
  nomem ← gets k_nomem;
  if (nomem : bool) then mret None else
  p ← gets k_next;
  modify (set_next (p + 1)) ;;
  mret (Some p).

End setters.

(** ** An instance of the vnode interface: a file kept in memory *)
Record ramfile := Ramfile { rf_bytes : list Z }.

Definition rf_byte (f : ramfile) (a : Z) : Z := default 0 (arr_get (rf_bytes f) a).

(** Reading past the end gives fewer bytes; writing past the end extends the
    file with zeroes. *)
Definition rf_read (f : ramfile) (off n : Z) : Z + list Z :=
  if off <? 0 then inl EINVAL
  else inr (take (Z.to_nat n) (drop (Z.to_nat off) (rf_bytes f))).

Definition rf_write (f : ramfile) (off : Z) (bs : list Z) : Z + ramfile * Z :=
  if off <? 0 then inl EINVAL
  else
    let size := Z.to_nat (Z.max (zlen (rf_bytes f)) (off + zlen bs)) in
    inr (Ramfile (map (λ a, if decide (off ≤ a < off + zlen bs)
                            then default 0 (arr_get bs (a - off))
                            else rf_byte f a) (seqZ 0 (Z.of_nat size))),
         zlen bs).

#[global] Instance ramfile_ops : VnodeOps ramfile := {
  VOP_READ := rf_read;
  VOP_WRITE := rf_write;
}.

(** ** Lemmas *)

(** Reduces projections of updated states. *)
Ltac ksimpl :=
  cbn [k_cm k_ptabs k_ram k_swap k_tlb k_stats k_ases k_procs k_curproc k_held
       k_in_interrupt k_nomem k_next set_cm set_ptabs set_ram set_swap set_tlb
       set_stats set_ases set_procs set_curproc set_held set_next set_coremap
       set_victim_index set_swapmap set_swapfile set_slots coremap nRamFrames
       victim_index swapfile swapmap tlb_slots tlb_victim tlb_free kmem_write
       kmem_zero].
Tactic Notation "ksimpl" "in" hyp(H) :=
  cbn [k_cm k_ptabs k_ram k_swap k_tlb k_stats k_ases k_procs k_curproc k_held
       k_in_interrupt k_nomem k_next set_cm set_ptabs set_ram set_swap set_tlb
       set_stats set_ases set_procs set_curproc set_held set_next set_coremap
       set_victim_index set_swapmap set_swapfile set_slots coremap nRamFrames
       victim_index swapfile swapmap tlb_slots tlb_victim tlb_free kmem_write
       kmem_zero] in H.

Section state_lemmas.
Context {V : Type}.
Implicit Types (s : kstate V) (p q : ptptr).

Lemma set_held_id s h : k_held s = h → set_held h s = s.
Proof. by intros <-; destruct s. Qed.

Lemma run_acquire {B} l (f : unit → K (kstate V) B) s :
  l ∉ k_held s →
  mbind f (spinlock_acquire l) s = f tt (set_held (l :: k_held s) s).
Proof.
  intros Hl. unfold spinlock_acquire. krun.
  by rewrite bool_decide_eq_false_2.
Qed.

Lemma release_last l s h :
  k_held s = l :: h → l ∉ h →
  spinlock_release l s = Ret tt (set_held h s).
Proof.
  intros Hh Hl. unfold spinlock_release. krun. rewrite Hh.
  rewrite run_assert by (apply bool_decide_eq_true_2; set_solver).
  rewrite run_assert by (apply bool_decide_eq_true_2; cbn; lia).
  unfold modify. do 2 f_equal. clear Hh.
  rewrite filter_cons_False by congruence.
  induction h as [|x h IH]; [done|]. rewrite not_elem_of_cons in Hl.
  destruct Hl. rewrite filter_cons_True by congruence. f_equal. by apply IH.
Qed.

Lemma run_release {B} l (f : unit → K (kstate V) B) s h :
  k_held s = l :: h → l ∉ h →
  mbind f (spinlock_release l) s = f tt (set_held h s).
Proof. intros. rewrite run_bind. by rewrite (release_last l s h). Qed.

Lemma pte_get_Some s p r :
  pte_get s p = Some r ↔ ∃ t, k_ptabs s !! p.1 = Some t ∧ arr_get t p.2 = Some r.
Proof. unfold pte_get. destruct (k_ptabs s !! p.1); naive_solver. Qed.

Lemma pte_get_set s p q r r0 :
  pte_get s p = Some r0 →
  pte_get (pte_set p r s) q = if decide (p = q) then Some r else pte_get s q.
Proof.
  intros (t & Ht & Hi)%pte_get_Some. pose proof (arr_get_range _ _ _ Hi) as Hr.
  unfold pte_get, pte_set. rewrite Ht. ksimpl.
  destruct (decide (p.1 = q.1)) as [He|Hne].
  - rewrite He, lookup_insert_eq, arr_get_set by done. rewrite <- He, Ht.
    destruct p, q; cbn in *. repeat case_decide; naive_solver.
  - rewrite lookup_insert_ne by done. case_decide; naive_solver.
Qed.

Lemma pte_get_set_eq s p r r0 :
  pte_get s p = Some r0 → pte_get (pte_set p r s) p = Some r.
Proof. intros H. by rewrite (pte_get_set _ _ _ _ _ H), decide_True. Qed.

Lemma pte_get_set_ne s p q r : p ≠ q → pte_get (pte_set p r s) q = pte_get s q.
Proof.
  intros Hne. unfold pte_set. destruct (k_ptabs s !! p.1) as [t|] eqn:Ht; [|done].
  unfold pte_get. ksimpl. destruct (decide (p.1 = q.1)) as [He|].
  - rewrite He, lookup_insert_eq, <- He, Ht. apply arr_get_set_ne.
    destruct p, q; cbn in *. naive_solver.
  - by rewrite lookup_insert_ne.
Qed.

(** Storing through a pointer changes the page tables only. *)
Lemma pte_set_frame s p r :
  ∃ pt, pte_set p r s = set_ptabs pt s.
Proof.
  unfold pte_set. destruct (k_ptabs s !! p.1); [by eexists|].
  exists (k_ptabs s). by destruct s.
Qed.

(** Reading depends on the physical memory only. *)
Lemma kmem_read_ram kva n s s' :
  k_ram s = k_ram s' → kmem_read kva n s = kmem_read kva n s'.
Proof. intros H. unfold kmem_read. by rewrite H. Qed.

Lemma kmem_read_len kva n s : 0 ≤ n → zlen (kmem_read kva n s) = n.
Proof. intros. unfold kmem_read. rewrite length_map, length_seqZ. lia. Qed.

Lemma arr_get_seqZ n i : 0 ≤ i < n → arr_get (seqZ 0 n) i = Some i.
Proof.
  intros. rewrite arr_get_nonneg by lia. rewrite lookup_seqZ_lt by lia. f_equal. lia.
Qed.

Lemma kmem_read_get kva n s i :
  0 ≤ i < n → arr_get (kmem_read kva n s) i = Some (k_ram s (KVADDR_TO_PADDR kva + i)).
Proof.
  intros Hi. pose proof (arr_get_seqZ n i Hi) as Hg.
  unfold kmem_read, arr_get in *. destruct (0 <=? i); [|done].
  by rewrite list_lookup_fmap, Hg.
Qed.

Lemma ram_write_in pa bs ram a b :
  arr_get bs (a - pa) = Some b → ram_write pa bs ram a = b.
Proof.
  intros Hb. pose proof (arr_get_range _ _ _ Hb). unfold ram_write.
  rewrite decide_True by lia. by rewrite Hb.
Qed.

Lemma ram_write_out pa bs ram a :
  ¬ (pa ≤ a < pa + zlen bs) → ram_write pa bs ram a = ram a.
Proof. intros. unfold ram_write. by rewrite decide_False. Qed.

End state_lemmas.

#[global] Instance ramfile_laws : VnodeLaws ramfile rf_byte.
Proof.
  split.
  - intros [f] off n bs H ?. cbn in H. unfold rf_read in H.
    destruct (off <? 0); simplify_eq. rewrite length_take. lia.
  - intros f off n bs i b H Hb. cbn in H. unfold rf_read in H.
    destruct (Z.ltb_spec off 0); simplify_eq.
    apply arr_get_Some in Hb as [Hi Hb]. unfold rf_byte.
    apply lookup_take_Some in Hb as [Hb _]. rewrite lookup_drop in Hb.
    rewrite arr_get_nonneg by lia.
    replace (Z.to_nat (off + i)) with (Z.to_nat off + Z.to_nat i)%nat by lia.
    by rewrite Hb.
  - intros f off bs v' n a H. cbn in H. unfold rf_write in H.
    destruct (Z.ltb_spec off 0); simplify_eq. unfold rf_byte at 1. cbn [rf_bytes].
    destruct (decide (0 ≤ a < Z.max (zlen (rf_bytes f)) (off + zlen bs))) as [Ha|Ha].
    + pose proof (arr_get_seqZ (Z.max (zlen (rf_bytes f)) (off + zlen bs)) a Ha) as Hg.
      rewrite Z2Nat.id by lia. unfold arr_get in *.
      destruct (0 <=? a); [|done]. rewrite list_lookup_fmap, Hg. cbn. done.
    + assert (Hn : arr_get (rf_bytes f) a = None).
      { destruct (arr_get _ _) eqn:E; [|done]. apply arr_get_range in E. lia. }
      rewrite decide_False by lia. unfold rf_byte. rewrite Hn.
      destruct (arr_get (map _ _) a) eqn:E; [|done]. apply arr_get_range in E.
      rewrite length_map, length_seqZ in E. lia.
  - intros f off bs v' n H. cbn in H. unfold rf_write in H.
    destruct (off <? 0); simplify_eq. lia.
Qed.
