(* ===== verification/Vmstats.v ===== *)
(** * Vmstats: the statistics counters of kern/vm/vmstats.c *)

From stdpp Require Import base gmap list strings fin_maps.
From Stdlib Require Import ZArith Lia.
From S2P Require Import Prelude Types Bitmap Machine.
Set Default Goal Selector "!".
Open Scope Z_scope.

Definition VMSTAT_TLB_FAULT : Z := 0.
Definition VMSTAT_TLB_FAULT_FREE : Z := 1.
Definition VMSTAT_TLB_FAULT_REPLACE : Z := 2.
Definition VMSTAT_TLB_INVALIDATION : Z := 3.
Definition VMSTAT_TLB_RELOAD : Z := 4.
Definition VMSTAT_PAGE_FAULT_ZERO : Z := 5.
Definition VMSTAT_PAGE_FAULT_DISK : Z := 6.
Definition VMSTAT_PAGE_FAULT_ELF : Z := 7.
Definition VMSTAT_PAGE_FAULT_SWAP : Z := 8.
Definition VMSTAT_SWAP_WRITE : Z := 9.

(** [vmstats[stat]++] under the lock; the counters are [int]s. *)
Definition vmstats_hit {V} (stat : Z) : K (kstate V) unit :=
  spinlock_acquire vmstats_l ;;
  KASSERT (stat <? 10) "stat < 10" ;;
  st ← gets k_stats;
  n ← index st stat;
  modify (set_stats (arr_set st stat (i32 (n + 1)))) ;;
  spinlock_release vmstats_l.

(** The counter vector after one hit of [stat]. *)
Definition hit (stat : Z) (st : list Z) : list Z :=
  arr_set st stat (i32 (default 0 (arr_get st stat) + 1)).

Lemma length_hit stat st : length (hit stat st) = length st.
Proof. apply length_arr_set. Qed.

Lemma run_vmstats_hit {V B} stat (f : unit → K (kstate V) B) s :
  vmstats_l ∉ k_held s → length (k_stats s) = 10%nat → 0 ≤ stat < 10 →
  mbind f (vmstats_hit stat) s = f tt (set_stats (hit stat (k_stats s)) s).
Proof.
  intros Hl Hlen Hst. unfold vmstats_hit. krun.
  rewrite run_acquire by done. krun. rewrite run_assert by (apply Z.ltb_lt; lia). krun.
  ksimpl. destruct (arr_get_ex (k_stats s) stat) as [n Hn]; [lia|].
  krun. rewrite (run_index_bind _ _ n) by done. krun.
  rewrite (run_release _ _ _ (k_held s)) by done.
  unfold hit. rewrite Hn. by destruct s.
Qed.

Lemma vmstats_hit_run {V} stat (s : kstate V) :
  vmstats_l ∉ k_held s → length (k_stats s) = 10%nat → 0 ≤ stat < 10 →
  vmstats_hit stat s = Ret tt (set_stats (hit stat (k_stats s)) s).
Proof.
  intros Hl Hst Hr. pose proof (run_vmstats_hit stat (λ u, mret u) s Hl Hst Hr) as Hv.
  rewrite run_bind in Hv. by destruct (vmstats_hit stat s) as [[] s0| | |].
Qed.

#[export] Hint Rewrite length_hit : krn_rw.
