(* ===== verification/Tlb.v ===== *)
(** * Tlb: kern/vm/vm_tlb.c

    The TLB is an array of 64 pairs (entryhi, entrylo).  [tlb_write] and
    [tlb_read] are the machine operations of kern/arch/mips/vm/tlb-mips161.S;
    [tlb_lookup] is the matching rule stated in kern/arch/mips/include/tlb.h.
    Interrupt levels are not part of the state: the code runs on one cpu
    between [splhigh] and [splx]. *)

From stdpp Require Import base gmap list strings fin_maps.
From Stdlib Require Import ZArith Lia.
From S2P Require Import Prelude Types Bitmap Machine Vmstats.
Set Default Goal Selector "!".
Open Scope Z_scope.

Definition NUM_TLB : Z := 64.
Definition TLBHI_VPAGE : Z := 0xfffff000.
Definition TLBLO_PPAGE : Z := 0xfffff000.
Definition TLBLO_DIRTY : Z := 0x400.
Definition TLBLO_VALID : Z := 0x200.
Definition TLBHI_INVALID (entryno : Z) : Z := u32 (Z.shiftl (0x80000 + entryno) 12).
Definition TLBLO_INVALID : Z := 0.

Section tlb.
Context {V : Type}.

Definition tlb_write (hi lo i : Z) : K (kstate V) unit :=
  t ← gets (λ s, tlb_slots (k_tlb s));
  KASSERT ((0 <=? i) && (i <? zlen t)) "tlb index" ;;
  modify (set_slots (arr_set t i (hi, lo))).

Definition tlb_read (i : Z) : K (kstate V) (Z * Z) :=
  t ← gets (λ s, tlb_slots (k_tlb s));
  index t i.

Definition tlb_invalidate : K (kstate V) unit :=
  for_each (seqZ 0 NUM_TLB) (λ i, tlb_write (TLBHI_INVALID i) TLBLO_INVALID i) ;;
  modify (λ s, set_tlb (TlbState (tlb_slots (k_tlb s)) 0 true) s) ;;
  vmstats_hit VMSTAT_TLB_INVALIDATION.

Definition tlb_insert (vaddr paddr : Z) (ro : bool) : K (kstate V) unit :=
  KASSERT (Z.land paddr PAGE_FRAME =? paddr) "(paddr & PAGE_FRAME) == paddr" ;;
  let ehi := vaddr in
  let elo := Z.lor paddr TLBLO_VALID in
  let elo := if negb ro then Z.lor elo TLBLO_DIRTY else elo in
  victim ← gets (λ s, tlb_victim (k_tlb s));
  tlb_write ehi elo victim ;;
  modify (λ s, set_tlb (TlbState (tlb_slots (k_tlb s))
                          ((tlb_victim (k_tlb s) + 1) mod NUM_TLB)
                          (tlb_free (k_tlb s))) s) ;;
  free ← gets (λ s, tlb_free (k_tlb s));
  vmstats_hit (if (free : bool) then VMSTAT_TLB_FAULT_FREE
               else VMSTAT_TLB_FAULT_REPLACE) ;;
  victim' ← gets (λ s, tlb_victim (k_tlb s));
  if victim' =? 0
  then modify (λ s, set_tlb (TlbState (tlb_slots (k_tlb s))
                              (tlb_victim (k_tlb s)) false) s)
  else mret tt.

(** The loop of [tlb_remove_by_paddr] over the remaining indices. *)
Fixpoint tlb_remove_from (l : list Z) (paddr : Z) : K (kstate V) unit :=
  match l with
  | [] => mret tt
  | i :: l' =>
      e ← tlb_read i;
      if paddr =? Z.land (e.2) PAGE_FRAME
      then tlb_write (TLBHI_INVALID i) TLBLO_INVALID i
      else tlb_remove_from l' paddr
  end.

Definition tlb_remove_by_paddr (paddr : Z) : K (kstate V) unit :=
  KASSERT (paddr mod PAGE_SIZE =? 0) "paddr % PAGE_SIZE == 0" ;;
  tlb_remove_from (seqZ 0 NUM_TLB) paddr.

(** The slot whose virtual page is that of [vaddr], if any. *)
Definition tlb_lookup (t : tlb_state) (vaddr : Z) : option (Z * Z) :=
  snd <$> list_find (λ e, Z.land (e.1) TLBHI_VPAGE = Z.land vaddr TLBHI_VPAGE)
            (tlb_slots t).

End tlb.

(** ** The effect of each operation as a function of the TLB state *)

Definition invalid_slot (i : Z) : Z * Z := (TLBHI_INVALID i, TLBLO_INVALID).

Definition entrylo (paddr : Z) (ro : bool) : Z :=
  if ro then Z.lor paddr TLBLO_VALID
  else Z.lor (Z.lor paddr TLBLO_VALID) TLBLO_DIRTY.

Definition tlb_inserted (vaddr paddr : Z) (ro : bool) (t : tlb_state) : tlb_state :=
  let victim' := (tlb_victim t + 1) mod NUM_TLB in
  TlbState (arr_set (tlb_slots t) (tlb_victim t) (vaddr, entrylo paddr ro))
    victim' (if victim' =? 0 then false else tlb_free t).

(** The first slot from index [i] on that names frame [paddr] is invalidated. *)
Fixpoint remove_slots (i : Z) (l : list (Z * Z)) (paddr : Z) : list (Z * Z) :=
  match l with
  | [] => []
  | e :: l' =>
      if paddr =? Z.land (e.2) PAGE_FRAME then invalid_slot i :: l'
      else e :: remove_slots (i + 1) l' paddr
  end.

Definition all_invalid : list (Z * Z) := map invalid_slot (seqZ 0 NUM_TLB).

(** ** Well-formed TLBs

    Every slot is either the invalid entry of its index or a valid entry for a
    page of user space, and no virtual page occurs twice. *)
Inductive slot_ok (i : Z) : Z * Z → Prop :=
| slot_invalid : slot_ok i (invalid_slot i)
| slot_valid va f ro :
    0 ≤ va < MIPS_KSEG0 → va mod PAGE_SIZE = 0 → 0 ≤ f < 2 ^ 20 →
    slot_ok i (va, entrylo (f * PAGE_SIZE) ro).

Record tlb_wf (t : tlb_state) : Prop := {
  tw_len : length (tlb_slots t) = 64%nat;
  tw_victim : 0 ≤ tlb_victim t < NUM_TLB;
  tw_slots : ∀ i e, arr_get (tlb_slots t) i = Some e → slot_ok i e;
  tw_unique : ∀ i j e e', arr_get (tlb_slots t) i = Some e →
    arr_get (tlb_slots t) j = Some e' → e.1 = e'.1 → i = j;
}.

(** The translation a TLB holds: virtual page [va] to frame [f]. *)
Definition tlb_maps (t : tlb_state) (va f : Z) (ro : bool) : Prop :=
  ∃ i, arr_get (tlb_slots t) i = Some (va, entrylo (f * PAGE_SIZE) ro).

(** ** Lemmas *)

Section run.
Context {V : Type}.
Implicit Types s : kstate V.

Lemma set_slots_id l s : tlb_slots (k_tlb s) = l → set_slots l s = s.
Proof. intros <-. by destruct s as [? ? ? ? []]. Qed.

Lemma run_tlb_write {B} hi lo i (f : unit → K (kstate V) B) s :
  0 ≤ i < zlen (tlb_slots (k_tlb s)) →
  mbind f (tlb_write hi lo i) s =
  f tt (set_slots (arr_set (tlb_slots (k_tlb s)) i (hi, lo)) s).
Proof.
  intros Hi. unfold tlb_write. krun. rewrite run_assert; [by krun|].
  apply andb_true_intro. split; [apply Z.leb_le|apply Z.ltb_lt]; lia.
Qed.

Lemma tlb_write_run hi lo i s :
  0 ≤ i < zlen (tlb_slots (k_tlb s)) →
  tlb_write hi lo i s = Ret tt (set_slots (arr_set (tlb_slots (k_tlb s)) i (hi, lo)) s).
Proof.
  intros Hi. pose proof (run_tlb_write hi lo i (λ u, mret u) s Hi) as H.
  rewrite run_bind in H. destruct (tlb_write hi lo i s) as [[]| | |]; naive_solver.
Qed.

Lemma run_tlb_insert {B} vaddr paddr ro (f : unit → K (kstate V) B) s :
  Z.land paddr PAGE_FRAME = paddr → vmstats_l ∉ k_held s →
  length (k_stats s) = 10%nat →
  0 ≤ tlb_victim (k_tlb s) < zlen (tlb_slots (k_tlb s)) →
  mbind f (tlb_insert vaddr paddr ro) s =
  f tt (set_tlb (tlb_inserted vaddr paddr ro (k_tlb s))
          (set_stats (hit (if tlb_free (k_tlb s) then VMSTAT_TLB_FAULT_FREE
                           else VMSTAT_TLB_FAULT_REPLACE) (k_stats s)) s)).
Proof.
  intros Hp Hl Hst Hv. unfold tlb_insert. krun.
  rewrite run_assert by (by apply Z.eqb_eq). krun.
  rewrite run_tlb_write by done. krun. ksimpl.
  rewrite run_vmstats_hit; [|done|done|by destruct (tlb_free _)].
  krun. ksimpl. unfold tlb_inserted, entrylo.
  destruct (_ =? 0); krun; ksimpl; destruct ro; cbn [negb]; done.
Qed.

Lemma tlb_remove_from_run paddr pre l s :
  tlb_slots (k_tlb s) = pre ++ l →
  tlb_remove_from (seqZ (zlen pre) (zlen l)) paddr s =
  Ret tt (set_slots (pre ++ remove_slots (zlen pre) l paddr) s).
Proof.
  revert pre. induction l as [|e l IH]; intros pre Hs.
  { by rewrite set_slots_id. }
  replace (zlen (e :: l)) with (Z.succ (zlen l)) by (cbn; lia).
  rewrite seqZ_cons by lia. replace (Z.pred (Z.succ (zlen l))) with (zlen l) by lia.
  cbn [tlb_remove_from remove_slots].
  assert (Hg : arr_get (tlb_slots (k_tlb s)) (zlen pre) = Some e).
  { rewrite Hs, arr_get_nonneg, Nat2Z.id by lia. by apply list_lookup_middle. }
  unfold tlb_read. krun. rewrite (run_index_bind _ _ e) by done.
  destruct (paddr =? Z.land (e.2) PAGE_FRAME).
  - rewrite tlb_write_run by (by eapply arr_get_range). do 2 f_equal.
    unfold arr_set, invalid_slot. rewrite (proj2 (Z.leb_le _ _)), Nat2Z.id, Hs by lia.
    by rewrite insert_app_r_alt, Nat.sub_diag by lia.
  - specialize (IH (pre ++ [e])). rewrite length_app in IH. cbn [length] in IH.
    replace (Z.of_nat (length pre + 1)) with (Z.succ (zlen pre)) in IH by lia.
    rewrite IH by (by rewrite <- (app_assoc pre [e] l)).
    by rewrite <- (app_assoc pre [e]).
Qed.

Lemma run_tlb_remove {B} paddr (f : unit → K (kstate V) B) s :
  paddr mod PAGE_SIZE = 0 → length (tlb_slots (k_tlb s)) = 64%nat →
  mbind f (tlb_remove_by_paddr paddr) s =
  f tt (set_slots (remove_slots 0 (tlb_slots (k_tlb s)) paddr) s).
Proof.
  intros Hp Hlen. unfold tlb_remove_by_paddr. krun.
  rewrite run_assert by (by apply Z.eqb_eq).
  rewrite run_bind. unfold NUM_TLB.
  pose proof (tlb_remove_from_run paddr [] (tlb_slots (k_tlb s)) s eq_refl) as Hr.
  rewrite Hlen in Hr. cbn [length app] in Hr. change (Z.of_nat 0) with 0 in Hr.
  change (Z.of_nat 64) with 64 in Hr. by rewrite Hr.
Qed.

Lemma invalidate_loop n s :
  (n ≤ 64)%nat → length (tlb_slots (k_tlb s)) = 64%nat →
  for_each (seqZ 0 (Z.of_nat n))
    (λ i, tlb_write (TLBHI_INVALID i) TLBLO_INVALID i) s =
  Ret tt (set_slots (map invalid_slot (seqZ 0 (Z.of_nat n)) ++
                     drop n (tlb_slots (k_tlb s))) s).
Proof.
  intros Hn Hlen.
  assert (Hgen : ∀ l pre s, tlb_slots (k_tlb s) = pre ++ l →
    ∀ m, (m ≤ length l)%nat →
    for_each (seqZ (zlen pre) (Z.of_nat m))
      (λ i, tlb_write (TLBHI_INVALID i) TLBLO_INVALID i) s =
    Ret tt (set_slots (pre ++ map invalid_slot (seqZ (zlen pre) (Z.of_nat m)) ++
                       drop m l) s)).
  { clear. induction l as [|e l IH]; intros pre s Hs m Hm.
    { destruct m; [|cbn in Hm; lia]. by rewrite set_slots_id. }
    destruct m as [|m]; [by rewrite set_slots_id|].
    rewrite Nat2Z.inj_succ, seqZ_cons, Z.pred_succ by lia. cbn [for_each map drop].
    rewrite run_tlb_write by (rewrite Hs, length_app; cbn; lia).
    set (s' := set_slots _ s).
    assert (Hs' : tlb_slots (k_tlb s') = (pre ++ [invalid_slot (zlen pre)]) ++ l).
    { subst s'. ksimpl. unfold arr_set, invalid_slot.
      rewrite (proj2 (Z.leb_le _ _)), Nat2Z.id, Hs by lia.
      by rewrite insert_app_r_alt, Nat.sub_diag, <- app_assoc by lia. }
    specialize (IH _ s' Hs' m ltac:(cbn in Hm; lia)).
    rewrite length_app in IH. cbn [length] in IH.
    replace (Z.of_nat (length pre + 1)) with (Z.succ (zlen pre)) in IH by lia.
    rewrite IH, <- app_assoc. subst s'. done. }
  apply (Hgen _ [] s eq_refl n). lia.
Qed.

Lemma run_tlb_invalidate {B} (f : unit → K (kstate V) B) s :
  length (tlb_slots (k_tlb s)) = 64%nat → vmstats_l ∉ k_held s →
  length (k_stats s) = 10%nat →
  mbind f tlb_invalidate s =
  f tt (set_stats (hit VMSTAT_TLB_INVALIDATION (k_stats s))
          (set_tlb (TlbState all_invalid 0 true) s)).
Proof.
  intros Hlen Hl Hst. unfold tlb_invalidate. krun. rewrite run_bind.
  unfold NUM_TLB. change 64 with (Z.of_nat 64).
  rewrite (invalidate_loop 64 s) by done. krun.
  rewrite run_vmstats_hit by done. ksimpl.
  rewrite drop_ge, app_nil_r by (rewrite Hlen; done). done.
Qed.

End run.

(** The low-order word is the frame address plus the flag bits. *)
Lemma entrylo_add f ro :
  entrylo (f * PAGE_SIZE) ro = f * PAGE_SIZE + (if ro then 512 else 1536).
Proof.
  unfold entrylo, PAGE_SIZE, TLBLO_VALID, TLBLO_DIRTY.
  destruct ro; rewrite <- ?Z.lor_assoc; apply (lor_disjoint_add 12);
    try (cbn; lia); change (2 ^ 12) with 4096; apply Z.mod_mul; lia.
Qed.

Lemma entrylo_frame f ro :
  0 ≤ f < 2 ^ 20 → Z.land (entrylo (f * PAGE_SIZE) ro) PAGE_FRAME = f * PAGE_SIZE.
Proof.
  intros Hf. rewrite entrylo_add, page_frame_spec.
  - unfold PAGE_SIZE. f_equal. symmetry.
    apply (Z.div_unique _ _ _ (if ro then 512 else 1536)); destruct ro; lia.
  - unfold PAGE_SIZE. destruct ro; lia.
Qed.

Lemma entrylo_inj f ro f' ro' :
  entrylo (f * PAGE_SIZE) ro = entrylo (f' * PAGE_SIZE) ro' → f = f' ∧ ro = ro'.
Proof.
  rewrite !entrylo_add. unfold PAGE_SIZE. destruct ro, ro'; intros; split; try done; lia.
Qed.

Lemma entrylo_valid f ro : Z.land (entrylo (f * PAGE_SIZE) ro) TLBLO_VALID ≠ 0.
Proof.
  intros H%Z.eqb_eq. unfold TLBLO_VALID in H. change 0x200 with (2 ^ 9) in H.
  rewrite land_bit in H by lia. apply negb_true_iff in H. revert H.
  unfold entrylo, TLBLO_VALID. destruct ro; rewrite !Z.lor_spec;
    change (Z.testbit 512 9) with true; rewrite ?orb_true_r; done.
Qed.

Lemma entrylo_dirty f ro :
  (Z.land (entrylo (f * PAGE_SIZE) ro) TLBLO_DIRTY =? 0) = ro.
Proof.
  unfold TLBLO_DIRTY. change 0x400 with (2 ^ 10). rewrite land_bit by lia.
  rewrite entrylo_add.
  assert (Hb : Z.testbit (f * PAGE_SIZE + (if ro then 512 else 1536)) 10 = negb ro).
  { rewrite <- (Z.mod_pow2_bits_low _ 12 10) by lia. change (2 ^ 12) with PAGE_SIZE.
    rewrite Z.add_comm, Z.mod_add by done. by destruct ro. }
  rewrite Hb. by destruct ro.
Qed.

Lemma invalid_hi i : 0 ≤ i < 64 → TLBHI_INVALID i = MIPS_KSEG0 + i * PAGE_SIZE.
Proof.
  intros. unfold TLBHI_INVALID, MIPS_KSEG0, PAGE_SIZE.
  rewrite Z.shiftl_mul_pow2 by lia. change (2 ^ 12) with 4096.
  rewrite wrap_small; lia.
Qed.

Lemma invalid_hi_kseg i va :
  0 ≤ i < 64 → 0 ≤ va < MIPS_KSEG0 → TLBHI_INVALID i ≠ va.
Proof. intros. rewrite invalid_hi by done. unfold PAGE_SIZE. lia. Qed.

Section tlb_facts.
Context (t : tlb_state) (Hwf : tlb_wf t).

Lemma tw_zlen : zlen (tlb_slots t) = NUM_TLB.
Proof. by rewrite (tw_len t Hwf). Qed.

Lemma tlb_maps_fun va f f' ro ro' :
  tlb_maps t va f ro → tlb_maps t va f' ro' → f = f' ∧ ro = ro'.
Proof.
  intros [i Hi] [j Hj]. assert (i = j) as -> by (by eapply (tw_unique t Hwf); eauto).
  rewrite Hi in Hj. apply entrylo_inj. naive_solver.
Qed.

Lemma tlb_maps_range va f ro :
  tlb_maps t va f ro → 0 ≤ va < MIPS_KSEG0 ∧ va mod PAGE_SIZE = 0 ∧ 0 ≤ f < 2 ^ 20.
Proof.
  intros [i Hi]. pose proof (arr_get_range _ _ _ Hi) as Hr. rewrite tw_zlen in Hr.
  assert (Hs := tw_slots t Hwf _ _ Hi). unfold NUM_TLB in Hr.
  inversion Hs as [Heq|va' f' ro' ? ? ? [Hva Hlo]].
  - exfalso. assert (Hlo : entrylo (f * PAGE_SIZE) ro = TLBLO_INVALID) by congruence.
    destruct (entrylo_valid f ro). rewrite Hlo. done.
  - apply entrylo_inj in Hlo as [-> ->]. subst. done.
Qed.

(** Inserting a page that is not mapped. *)
Lemma tlb_wf_inserted va f ro :
  0 ≤ va < MIPS_KSEG0 → va mod PAGE_SIZE = 0 → 0 ≤ f < 2 ^ 20 →
  (∀ f' ro', ¬ tlb_maps t va f' ro') →
  tlb_wf (tlb_inserted va (f * PAGE_SIZE) ro t).
Proof.
  intros Hva Hal Hf Hno. pose proof tw_zlen as Hz. pose proof (tw_victim t Hwf) as Hv.
  assert (Hfresh : ∀ i e, arr_get (tlb_slots t) i = Some e → e.1 ≠ va).
  { intros i e Hi He. pose proof (arr_get_range _ _ _ Hi). unfold NUM_TLB in Hz.
    destruct (tw_slots t Hwf i e Hi) as [|va' f' ro' ? ? ?].
    - cbn in He. by apply (invalid_hi_kseg i va) in He; [|lia|lia].
    - cbn in He. subst. apply (Hno f' ro'). by exists i. }
  split; cbn [tlb_slots tlb_victim tlb_inserted].
  - rewrite length_arr_set. by apply tw_len.
  - by apply Z.mod_pos_bound.
  - intros i e. rewrite arr_get_set by (by rewrite Hz).
    case_decide; [intros [= <-]; by constructor|by apply tw_slots].
  - intros i j e e'. rewrite !arr_get_set by (by rewrite Hz).
    repeat case_decide; intros Hi Hj He; simplify_eq; try done.
    + by apply Hfresh in Hj.
    + by apply Hfresh in Hi.
    + by eapply (tw_unique t Hwf).
Qed.

Lemma tlb_maps_inserted va f ro :
  tlb_maps (tlb_inserted va (f * PAGE_SIZE) ro t) va f ro.
Proof.
  exists (tlb_victim t). cbn [tlb_inserted tlb_slots].
  apply arr_get_set_eq. rewrite tw_zlen. by apply tw_victim.
Qed.

(** The other translations after an insertion are translations before it. *)
Lemma tlb_maps_inserted_inv va f ro va' f' ro' :
  tlb_maps (tlb_inserted va (f * PAGE_SIZE) ro t) va' f' ro' →
  (va', f', ro') = (va, f, ro) ∨ tlb_maps t va' f' ro'.
Proof.
  intros [i Hi]. cbn [tlb_inserted tlb_slots] in Hi.
  rewrite arr_get_set in Hi by (rewrite tw_zlen; by apply tw_victim).
  case_decide; [|right; by exists i].
  left. injection Hi as ? He. apply entrylo_inj in He as [-> ->]. by subst.
Qed.

End tlb_facts.

(** Removal leaves every slot as it is or invalidates it, and it invalidates
    one that named the frame. *)
Lemma remove_slots_get k l pa i :
  arr_get (remove_slots k l pa) i = arr_get l i ∨
  (arr_get (remove_slots k l pa) i = Some (invalid_slot (k + i)) ∧
   ∃ e, arr_get l i = Some e ∧ Z.land (e.2) PAGE_FRAME = pa ∧
   ∀ j e', 0 ≤ j < i → arr_get l j = Some e' → Z.land (e'.2) PAGE_FRAME ≠ pa).
Proof.
  revert k i. induction l as [|e l IH]; intros k i; cbn [remove_slots]; [by left|].
  destruct (Z.eqb_spec pa (Z.land (e.2) PAGE_FRAME)) as [Heq|Hne].
  - destruct (Z.lt_trichotomy i 0) as [?|[->|?]].
    + left. by rewrite !arr_get_neg.
    + right. rewrite !arr_get_hd, Z.add_0_r. split; [done|]. exists e.
      split; [done|]. split; [done|]. intros j e' Hj. lia.
    + left. by rewrite !arr_get_tl.
  - destruct (Z.lt_trichotomy i 0) as [?|[->|?]].
    + left. by rewrite !arr_get_neg.
    + left. by rewrite !arr_get_hd.
    + rewrite !arr_get_tl by done.
      destruct (IH (k + 1) (i - 1)) as [?|[-> (e0 & He0 & Hpa & Hfst)]]; [by left|].
      right. replace (k + 1 + (i - 1)) with (k + i) by lia. split; [done|].
      exists e0. split; [done|]. split; [done|]. intros j e' Hj.
      destruct (decide (j = 0)) as [->|].
      * rewrite arr_get_hd. intros [= <-]. done.
      * rewrite arr_get_tl by lia. apply Hfst. lia.
Qed.

Lemma length_remove_slots k l pa : length (remove_slots k l pa) = length l.
Proof.
  revert k. induction l as [|e l IH]; intros k; cbn [remove_slots]; [done|].
  destruct (_ =? _); cbn; [done|by rewrite IH].
Qed.

(** If no slot up to the one removed names the frame, nothing is removed: every
    slot that names frame [pa] first in order is invalidated. *)
Lemma remove_slots_hit k l pa i e :
  arr_get l i = Some e → Z.land (e.2) PAGE_FRAME = pa →
  (∀ j e', arr_get l j = Some e' → Z.land (e'.2) PAGE_FRAME = pa → j = i) →
  arr_get (remove_slots k l pa) i = Some (invalid_slot (k + i)).
Proof.
  revert k i. induction l as [|e0 l IH]; intros k i Hi Hpa Hun;
    pose proof (arr_get_range _ _ _ Hi) as Hr; cbn [length] in Hr; [lia|].
  cbn [remove_slots]. destruct (Z.eqb_spec pa (Z.land (e0.2) PAGE_FRAME)) as [He|Hne].
  - assert (0 = i) as <- by (apply (Hun 0 e0); done). by rewrite Z.add_0_r.
  - destruct (decide (i = 0)) as [->|Hi0].
    { cbn in Hi. injection Hi as ->. congruence. }
    specialize (IH (k + 1) (i - 1)). rewrite arr_get_tl in Hi |- * by lia. rewrite IH; [do 2 f_equal; lia|done|done|].
    intros j e' Hj Hpe. pose proof (arr_get_range _ _ _ Hj).
    assert (j + 1 = i); [|lia]. apply (Hun (j + 1) e'); [|done].
    rewrite arr_get_tl by lia. by replace (j + 1 - 1) with j by lia.
Qed.

Definition removed (f : Z) (t : tlb_state) : tlb_state :=
  TlbState (remove_slots 0 (tlb_slots t) (f * PAGE_SIZE)) (tlb_victim t) (tlb_free t).

Section removal.
Context (t : tlb_state) (Hwf : tlb_wf t) (f : Z) (Hf : 0 < f < 2 ^ 20).

Lemma removed_slot i :
  arr_get (tlb_slots (removed f t)) i = arr_get (tlb_slots t) i ∨
  (arr_get (tlb_slots (removed f t)) i = Some (invalid_slot i) ∧
   ∃ va ro, arr_get (tlb_slots t) i = Some (va, entrylo (f * PAGE_SIZE) ro)).
Proof.
  destruct (remove_slots_get 0 (tlb_slots t) (f * PAGE_SIZE) i) as
    [?|[Hi (e & He & Hpa & _)]]; [by left|right]. split; [done|].
  destruct (tw_slots t Hwf i e He) as [|va f' ro ? ? ?].
  - exfalso. revert Hpa. change (0 = f * PAGE_SIZE → False). unfold PAGE_SIZE. lia.
  - cbn in Hpa. rewrite entrylo_frame in Hpa by done. unfold PAGE_SIZE in Hpa.
    assert (f' = f) as -> by lia. eauto.
Qed.

Lemma tlb_wf_removed : tlb_wf (removed f t).
Proof.
  pose proof (tw_zlen t Hwf) as Hz. unfold NUM_TLB in Hz.
  assert (Hhi : ∀ i e, arr_get (tlb_slots (removed f t)) i = Some e →
    arr_get (tlb_slots t) i = Some e ∨ e = invalid_slot i ∧ 0 ≤ i < 64).
  { intros i e Hi. destruct (removed_slot i) as [H|[H (va & ro & Hg)]]; rewrite H in Hi.
    - by left.
    - right. apply arr_get_range in Hg. split; [congruence|lia]. }
  assert (Hne : ∀ i j e, arr_get (tlb_slots t) i = Some e → 0 ≤ j < 64 →
    e.1 = TLBHI_INVALID j → i = j).
  { intros i j e Hi Hj He. pose proof (arr_get_range _ _ _ Hi).
    destruct (tw_slots t Hwf i e Hi); cbn in He.
    - rewrite !invalid_hi in He by lia. unfold PAGE_SIZE in He. lia.
    - symmetry in He. by apply invalid_hi_kseg in He. }
  split.
  - cbn. rewrite length_remove_slots. by apply tw_len.
  - exact (tw_victim t Hwf).
  - intros i e [Hi|[-> ?]]%Hhi; [by apply (tw_slots t Hwf)|constructor].
  - intros i j e e' [Hi|[-> Hi]]%Hhi [Hj|[-> Hj]]%Hhi He.
    + by eapply (tw_unique t Hwf).
    + by eapply Hne.
    + symmetry. eapply Hne; eauto.
    + cbn in He. rewrite !invalid_hi in He by done. unfold PAGE_SIZE in He. lia.
Qed.

Lemma tlb_maps_removed_inv va f' ro :
  tlb_maps (removed f t) va f' ro → tlb_maps t va f' ro.
Proof.
  intros [i Hi]. destruct (removed_slot i) as [H|[H _]]; rewrite H in Hi; [by exists i|].
  injection Hi as _ Hlo. destruct (entrylo_valid f' ro). rewrite <- Hlo. done.
Qed.

(** When at most one slot names the frame, none names it afterwards. *)
Lemma tlb_removed_gone va ro :
  (∀ va1 ro1 va2 ro2, tlb_maps t va1 f ro1 → tlb_maps t va2 f ro2 → va1 = va2) →
  ¬ tlb_maps (removed f t) va f ro.
Proof.
  intros Hun Hm. pose proof (tlb_maps_removed_inv _ _ _ Hm) as [j Hj].
  destruct Hm as [i Hi].
  assert (Hgen : arr_get (tlb_slots (removed f t)) j = Some (invalid_slot (0 + j))).
  { eapply remove_slots_hit; [done|cbn; by apply entrylo_frame; lia|].
    intros k e' Hk Hpa. destruct (tw_slots t Hwf k e' Hk) as [|va' f' ro' ? ? ?].
    - exfalso. revert Hpa. change (0 = f * PAGE_SIZE → False). unfold PAGE_SIZE. lia.
    - cbn in Hpa. rewrite entrylo_frame in Hpa by done. unfold PAGE_SIZE in Hpa.
      assert (f' = f) as -> by lia.
      assert (va' = va) as -> by (eapply Hun; eexists; eauto).
      by eapply (tw_unique t Hwf). }
  assert (i = j) as ->.
  { destruct (removed_slot i) as [H|[H _]].
    - rewrite H in Hi. by eapply (tw_unique t Hwf); eauto.
    - rewrite H in Hi. injection Hi as _ Hlo. destruct (entrylo_valid f ro).
      rewrite <- Hlo. done. }
  rewrite Hgen in Hi. injection Hi as _ Hlo. destruct (entrylo_valid f ro).
  rewrite <- Hlo. done.
Qed.

End removal.

Lemma all_invalid_get i e :
  arr_get all_invalid i = Some e → 0 ≤ i < 64 ∧ e = invalid_slot i.
Proof.
  intros H. pose proof (arr_get_range _ _ _ H) as Hr. unfold all_invalid in *.
  rewrite length_map, length_seqZ in Hr. unfold NUM_TLB in *.
  pose proof (arr_get_seqZ 64 i ltac:(lia)) as Hg. split; [lia|].
  unfold arr_get in *. destruct (0 <=? i); [|done].
  rewrite list_lookup_fmap, Hg in H. by injection H.
Qed.

Lemma tlb_wf_invalid : tlb_wf (TlbState all_invalid 0 true).
Proof.
  split; cbn [tlb_slots tlb_victim].
  - done.
  - unfold NUM_TLB. lia.
  - intros i e [_ ->]%all_invalid_get. constructor.
  - intros i j e e' [? ->]%all_invalid_get [? ->]%all_invalid_get. cbn.
    rewrite !invalid_hi by done. unfold PAGE_SIZE. lia.
Qed.

Lemma tlb_maps_invalid va f ro : ¬ tlb_maps (TlbState all_invalid 0 true) va f ro.
Proof.
  intros [i Hi]. cbn in Hi. apply all_invalid_get in Hi as [_ Hi].
  injection Hi as _ Hlo. destruct (entrylo_valid f ro). by rewrite Hlo.
Qed.
