(* ===== verification/Swapfile.v ===== *)
(** * Swapfile: kern/vm/swapfile.c

    The swap file is a vnode and [swapmap] says which of its pages are in use.
    [vfs_open] is a parameter of [swap_bootstrap]: its result is given. *)

From stdpp Require Import base gmap list strings fin_maps.
From Stdlib Require Import ZArith Lia.
From S2P Require Import Prelude Types Bitmap Machine Vmstats.
Set Default Goal Selector "!".
Open Scope Z_scope.

Definition SWAPFILE_SIZE : Z := 9 * 1024 * 1024.
Definition SWAP_INDEX_SIZE : Z := 12.
Definition SWAPFILE_NPAGES : Z := SWAPFILE_SIZE / PAGE_SIZE.

Section swap.
Context {V : Type} `{VnodeOps V}.

(** [opened]: the vnode [vfs_open] gives for emu0:/SWAPFILE, or its error;
    [b_mem] and [v_mem] are the outcomes of [bitmap_create]'s allocations. *)
Definition swap_bootstrap (opened : Z + V) (b_mem v_mem : bool)
  : K (kstate V) unit :=
  KASSERT (SWAPFILE_SIZE mod PAGE_SIZE =? 0) "SWAPFILE_SIZE % PAGE_SIZE == 0" ;;
  match opened with
  | inl _ => panic "Cannot open SWAPFILE"
  | inr v =>
      modify (set_swapfile v) ;;
      b ← bitmap_create b_mem v_mem SWAPFILE_NPAGES;
      b' ← deref b;
      modify (set_swapmap b')
  end.

Definition swap_in (page_paddr swap_index : Z) : K (kstate V) unit :=
  vmstats_hit VMSTAT_PAGE_FAULT_DISK ;;
  vmstats_hit VMSTAT_PAGE_FAULT_SWAP ;;
  KASSERT (page_paddr mod PAGE_SIZE =? 0) "page_paddr % PAGE_SIZE == 0" ;;
  KASSERT (swap_index <? SWAPFILE_NPAGES) "swap_index < SWAPFILE_NPAGES" ;;
  spinlock_acquire swaplock ;;
  map ← gets (λ s, swapmap (k_swap s));
  set ← bitmap_isset map swap_index;
  KASSERT (negb (set =? 0)) "bitmap_isset(swapmap, swap_index)" ;;
  spinlock_release swaplock ;;
  let swap_offset := u32 (swap_index * PAGE_SIZE) in
  file ← gets (λ s, swapfile (k_swap s));
  match VOP_READ file swap_offset PAGE_SIZE with
  | inl _ => panic "Error swapping in"
  | inr bs =>
      modify (kmem_write (PADDR_TO_KVADDR page_paddr) bs) ;;
      (if negb (PAGE_SIZE - zlen bs =? 0) then panic "SWAP: short read on page"
       else mret tt) ;;
      spinlock_acquire swaplock ;;
      map' ← gets (λ s, swapmap (k_swap s));
      map'' ← bitmap_unmark map' swap_index;
      modify (set_swapmap map'') ;;
      spinlock_release swaplock
  end.

Definition swap_out (page_paddr : Z) : K (kstate V) Z :=
  vmstats_hit VMSTAT_SWAP_WRITE ;;
  KASSERT (page_paddr mod PAGE_SIZE =? 0) "page_paddr % PAGE_SIZE == 0" ;;
  spinlock_acquire swaplock ;;
  map ← gets (λ s, swapmap (k_swap s));
  r ← bitmap_alloc map;
  match r with
  | inl _ => spinlock_release swaplock ;; panic "Out of swap space"
  | inr (swap_index, map') =>
      modify (set_swapmap map') ;;
      spinlock_release swaplock ;;
      let swap_offset := u32 (swap_index * PAGE_SIZE) in
      file ← gets (λ s, swapfile (k_swap s));
      page ← gets (kmem_read (PADDR_TO_KVADDR page_paddr) PAGE_SIZE);
      match VOP_WRITE file swap_offset page with
      | inl _ => panic "Error swapping out"
      | inr (file', _) => modify (set_swapfile file') ;; mret swap_index
      end
  end.

Definition swap_free (swap_index : Z) : K (kstate V) unit :=
  spinlock_acquire swaplock ;;
  map ← gets (λ s, swapmap (k_swap s));
  map' ← bitmap_unmark map swap_index;
  modify (set_swapmap map') ;;
  spinlock_release swaplock.

End swap.

(** ** Running the operations *)

Lemma npages_val : SWAPFILE_NPAGES = 2304.
Proof. reflexivity. Qed.

Section run.
Context {V : Type} `{VnodeOps V}.
Implicit Types s : kstate V.

(** The swap map describes the 2304 pages of the swap file. *)
Definition swap_wf s : Prop :=
  bitmap_wf (swapmap (k_swap s)) ∧ nbits (swapmap (k_swap s)) = SWAPFILE_NPAGES.

(** The pages of the swap file in use. *)
Definition swap_used s : gset Z := bitmap_set (swapmap (k_swap s)).

Lemma swap_used_range s i : swap_wf s → i ∈ swap_used s → 0 ≤ i < SWAPFILE_NPAGES.
Proof. intros [_ <-] Hi. by apply elem_of_bitmap_set in Hi as [? _]. Qed.

Lemma swap_offset i : 0 ≤ i < SWAPFILE_NPAGES → u32 (i * PAGE_SIZE) = i * PAGE_SIZE.
Proof.
  intros. apply wrap_small. unfold PAGE_SIZE. rewrite npages_val in *. lia.
Qed.

Lemma wp_swap_out pa (Q : Z → kstate V → Prop) E s :
  swap_wf s → vmstats_l ∉ k_held s → swaplock ∉ k_held s →
  length (k_stats s) = 10%nat → pa mod PAGE_SIZE = 0 →
  (∀ i map' file' n,
     alloc_post (swapmap (k_swap s)) (inr (i, map')) →
     VOP_WRITE (swapfile (k_swap s)) (i * PAGE_SIZE)
       (kmem_read (PADDR_TO_KVADDR pa) PAGE_SIZE s) = inr (file', n) →
     Q i (set_swap (SwapState file' map')
            (set_stats (hit VMSTAT_SWAP_WRITE (k_stats s)) s))) →
  ((∀ i, 0 ≤ i < SWAPFILE_NPAGES → i ∈ swap_used s) → E "Out of swap space") →
  E "Error swapping out" →
  wp (swap_out pa) Q E s.
Proof.
  intros [Hwf Hnb] Hl1 Hl2 Hst Hpa HQ HE1 HE2. unfold swap_out, wp.
  rewrite run_vmstats_hit by done.
  rewrite run_assert by (by apply Z.eqb_eq). rewrite run_acquire by done. krun. ksimpl.
  destruct (bitmap_alloc_run (swapmap (k_swap s))
    (set_held (swaplock :: k_held s) (set_stats (hit VMSTAT_SWAP_WRITE (k_stats s)) s)) Hwf)
    as (r & Hr & Hpost).
  rewrite run_bind, Hr. destruct r as [e|[i map']].
  - rewrite (run_release _ _ _ (k_held s)) by done. cbn. apply HE1.
    destruct Hpost as [_ Hp]. rewrite <- Hnb. done.
  - krun. rewrite (run_release _ _ _ (k_held s)) by done. krun. ksimpl.
    assert (Hi : 0 ≤ i < SWAPFILE_NPAGES) by (rewrite <- Hnb; apply Hpost).
    rewrite swap_offset by done.
    rewrite (kmem_read_ram _ _ _ s) by done.
    match goal with |- context [VOP_WRITE ?a ?b ?c] => destruct (VOP_WRITE a b c)
      as [err|[file' n]] eqn:Hw end; [done|].
    exact (HQ i map' file' n Hpost Hw).
Qed.

Lemma wp_swap_in pa i (Q : unit → kstate V → Prop) E s :
  swap_wf s → vmstats_l ∉ k_held s → swaplock ∉ k_held s →
  length (k_stats s) = 10%nat → pa mod PAGE_SIZE = 0 → i ∈ swap_used s →
  (∀ bs map',
     VOP_READ (swapfile (k_swap s)) (i * PAGE_SIZE) PAGE_SIZE = inr bs →
     zlen bs = PAGE_SIZE →
     bitmap_wf map' → nbits map' = SWAPFILE_NPAGES → bitmap_set map' = swap_used s ∖ {[i]} →
     Q tt (set_swapmap map' (kmem_write (PADDR_TO_KVADDR pa) bs
            (set_stats (hit VMSTAT_PAGE_FAULT_SWAP
              (hit VMSTAT_PAGE_FAULT_DISK (k_stats s))) s)))) →
  E "Error swapping in" → E "SWAP: short read on page" →
  wp (swap_in pa i) Q E s.
Proof.
  intros Hsw Hl1 Hl2 Hst Hpa Hi HQ HE1 HE2. pose proof Hsw as [Hwf Hnb].
  pose proof (swap_used_range s i Hsw Hi) as Hir. unfold swap_in, wp.
  rewrite run_vmstats_hit by done. ksimpl.
  rewrite run_vmstats_hit by (ksimpl; rewrite ?length_hit; done). ksimpl.
  rewrite run_assert by (by apply Z.eqb_eq).
  rewrite run_assert by (apply Z.ltb_lt; lia). rewrite run_acquire by done. krun. ksimpl.
  match goal with |- context [mbind _ _ ?s1] =>
    destruct (bitmap_isset_run (swapmap (k_swap s)) i s1 Hwf) as (v & Hv & Hset) end.
  { by rewrite Hnb. }
  rewrite run_bind, Hv. rewrite run_assert; cycle 1.
  { apply negb_true_iff, Z.eqb_neq. by apply Hset. }
  rewrite (run_release _ _ _ (k_held s)) by done. krun. ksimpl.
  rewrite swap_offset by done.
  destruct (VOP_READ (swapfile (k_swap s)) (i * PAGE_SIZE) PAGE_SIZE) as [e|bs] eqn:Hrd; [done|].
  krun. ksimpl. destruct (Z.eqb_spec (PAGE_SIZE - zlen bs) 0) as [Hz|]; cbn [negb]; krun; [|done].
  rewrite run_acquire by done. krun. ksimpl.
  match goal with |- context [mbind _ (bitmap_unmark _ _) ?s1] =>
    destruct (bitmap_unmark_run (swapmap (k_swap s)) i s1 Hwf Hi)
      as (map' & Hu & Hwf' & Hnb' & Hset') end.
  rewrite run_bind, Hu. krun. rewrite (release_last _ _ (k_held s)) by done.
  refine (HQ bs map' eq_refl _ Hwf' _ Hset'); [lia|congruence].
Qed.

Lemma run_swap_free {B} i (f : unit → K (kstate V) B) s :
  swap_wf s → swaplock ∉ k_held s → i ∈ swap_used s →
  ∃ map', mbind f (swap_free i) s = f tt (set_swapmap map' s) ∧
    bitmap_wf map' ∧ nbits map' = SWAPFILE_NPAGES ∧ bitmap_set map' = swap_used s ∖ {[i]}.
Proof.
  intros [Hwf Hnb] Hl Hi. unfold swap_free. krun. rewrite run_acquire by done. krun. ksimpl.
  destruct (bitmap_unmark_run (swapmap (k_swap s)) i (set_held (swaplock :: k_held s) s) Hwf Hi)
    as (map' & Hu & Hwf' & Hnb' & Hset').
  exists map'. rewrite run_bind, Hu. krun. rewrite (run_release _ _ _ (k_held s)) by done.
  split; [|split; [done|split; [congruence|done]]]. by destruct s.
Qed.

End run.
