(* ===== verification/Segment.v ===== *)
(** * Segment: kern/vm/segment.c *)

From stdpp Require Import base gmap list strings fin_maps.
From Stdlib Require Import ZArith Lia.
From S2P Require Import Prelude Types Bitmap Machine.
Set Default Goal Selector "!".
Open Scope Z_scope.

Section segment.
Context {V : Type}.

(** A new segment has all its fields zero. *)
Definition segment_create : K (kstate V) segment :=
  p ← kmalloc;
  KASSERT (bool_decide (is_Some p)) "seg != NULL" ;;
  mret (Segment 0 0 0 0 0).

Definition segment_define (seg : segment)
  (elf_offset base_vaddr first_vaddr last_vaddr npages elfsize : Z)
  : K (kstate V) segment :=
  KASSERT (seg_elf_offset seg =? 0) "seg->seg_elf_offset == 0" ;;
  KASSERT (seg_first_vaddr seg =? 0) "seg->seg_first_vaddr == 0" ;;
  KASSERT (seg_last_vaddr seg =? 0) "seg->seg_last_vaddr == 0" ;;
  KASSERT (seg_npages seg =? 0) "seg->seg_npages == 0" ;;
  KASSERT (seg_elf_size seg =? 0) "seg->seg_elf_size == 0" ;;
  KASSERT (base_vaddr <? USERSPACETOP) "base_vaddr < USERSPACETOP" ;;
  KASSERT (first_vaddr <? USERSPACETOP) "first_vaddr < USERSPACETOP" ;;
  KASSERT (last_vaddr <=? USERSPACETOP) "last_vaddr <= USERSPACETOP" ;;
  let elfsize :=
    if u32 (last_vaddr - first_vaddr) <? elfsize
    then u32 (last_vaddr - first_vaddr) else elfsize in
  mret (Segment first_vaddr last_vaddr elfsize elf_offset npages).

End segment.
