(* ===== verification/Pagetable.v ===== *)
(** * Pagetable: kern/vm/pt.c, with the segment lookup of kern/vm/addrspace.c

    A page table has one entry for each page of the text, data and stack
    segments, in this order; [pt_get_index] finds the entry of a virtual
    address.  [pt_empty], which frees frames and swap pages, is with the
    coremap's clients in Vm.v. *)

From stdpp Require Import base gmap list strings fin_maps.
From Stdlib Require Import ZArith Lia.
From S2P Require Import Prelude Types Bitmap Machine.
Set Default Goal Selector "!".
Open Scope Z_scope.

(** kern/include/addrspace.h; 0 is no segment. *)
Definition SEGMENT_TEXT : Z := 1.
Definition SEGMENT_DATA : Z := 2.
Definition SEGMENT_STACK : Z := 3.

Section pt.
Context {V : Type}.

(** The address space a pointer designates. *)
Definition as_load (a : Z) : K (kstate V) addrspace :=
  m ← gets k_ases;
  deref (m !! a).

Definition in_segment (seg : segment) (vaddr : Z) : bool :=
  (seg_first_vaddr seg <=? vaddr) && (vaddr <? seg_last_vaddr seg).

Definition as_get_segment_type (a vaddr : Z) : K (kstate V) Z :=
  as_ ← as_load a;
  text ← deref (as_text as_);
  if in_segment text vaddr then mret SEGMENT_TEXT else
  data ← deref (as_data as_);
  if in_segment data vaddr then mret SEGMENT_DATA else
  stack ← deref (as_stack as_);
  if in_segment stack vaddr then mret SEGMENT_STACK else
  mret 0.

(** The index of a page within its segment. *)
Definition page_index (seg : segment) (vaddr : Z) : Z :=
  u32 (vaddr - Z.land (seg_first_vaddr seg) PAGE_FRAME) / PAGE_SIZE.

Definition pt_get_index (a vaddr : Z) : K (kstate V) Z :=
  ty ← as_get_segment_type a vaddr;
  as_ ← as_load a;
  if ty =? SEGMENT_TEXT then
    text ← deref (as_text as_);
    let pt_index := page_index text vaddr in
    KASSERT (pt_index <? seg_npages text) "pt_index < text npages" ;;
    mret pt_index
  else if ty =? SEGMENT_DATA then
    text ← deref (as_text as_);
    data ← deref (as_data as_);
    let pt_index := u32 (seg_npages text + page_index data vaddr) in
    KASSERT (pt_index <? u32 (seg_npages text + seg_npages data))
      "pt_index < text + data npages" ;;
    mret pt_index
  else if ty =? SEGMENT_STACK then
    text ← deref (as_text as_);
    data ← deref (as_data as_);
    stack ← deref (as_stack as_);
    let pt_index :=
      u32 (u32 (seg_npages data + seg_npages text) + page_index stack vaddr) in
    KASSERT (pt_index <?
             u32 (u32 (seg_npages data + seg_npages text) + seg_npages stack))
      "pt_index < data + text + stack npages" ;;
    mret pt_index
  else panic "invalid segment type! (pt_get_index)".

(** The entries of a new page table. *)
Definition pt_blank : pt_entry := PtEntry 0 0 NOT_LOADED.

Definition pt_create (pagetable_size : Z) : K (kstate V) (option Z) :=
  p ← kmalloc;
  match p with
  | None => mret None
  | Some pt =>
      modify (λ s, set_ptabs
        (<[pt := replicate (Z.to_nat pagetable_size) pt_blank]> (k_ptabs s)) s) ;;
      mret (Some pt)
  end.

(** The pointer [&as->as_ptable[pt_index]]. *)
Definition pt_get_entry (a vaddr : Z) : K (kstate V) ptptr :=
  pt_index ← pt_get_index a vaddr;
  as_ ← as_load a;
  pt ← deref (as_ptable as_);
  mret (pt, pt_index).

Definition pt_destroy (pt : Z) : K (kstate V) unit :=
  modify (λ s, set_ptabs (delete pt (k_ptabs s)) s).

(** Reading an entry through its pointer. *)
Definition pt_load (p : ptptr) : K (kstate V) pt_entry :=
  r ← gets (λ s, pte_get s p);
  deref r.

(** [status] is one of the four states by its type. *)
Definition pt_set_entry (p : ptptr) (paddr swap_index : Z) (status : pt_state)
  : K (kstate V) unit :=
  KASSERT (swap_index <? 0xfff) "swap_index < 0xfff" ;;
  pt_load p ;;
  modify (pte_set p (PtEntry (wrap 20 (paddr / PAGE_SIZE)) (wrap 12 swap_index) status)).

End pt.

(** ** Running the accessors *)

Section run.
Context {V : Type}.
Implicit Types s : kstate V.

Lemma run_pt_load {B} p r (f : pt_entry → K (kstate V) B) s :
  pte_get s p = Some r → mbind f (pt_load p) s = f r s.
Proof. intros Hr. unfold pt_load. krun. by rewrite Hr. Qed.

Lemma run_pt_set_entry {B} p r pa i st (f : unit → K (kstate V) B) s :
  pte_get s p = Some r → i < 0xfff →
  mbind f (pt_set_entry p pa i st) s =
  f tt (pte_set p (PtEntry (wrap 20 (pa / PAGE_SIZE)) (wrap 12 i) st) s).
Proof.
  intros Hr Hi. unfold pt_set_entry. krun.
  rewrite run_assert by (by apply Z.ltb_lt). krun. by rewrite (run_pt_load p r).
Qed.

Lemma run_as_load {B} a as_ (f : addrspace → K (kstate V) B) s :
  k_ases s !! a = Some as_ → mbind f (as_load a) s = f as_ s.
Proof. intros Ha. unfold as_load. krun. by rewrite Ha. Qed.

End run.
