(* ===== verification/Coremap.v ===== *)
(** * Coremap: kern/vm/coremap.c, the allocator of physical frames

    The build modelled has the options swap and noswap_rdonly on, as
    kern/conf/DEMANDVM sets them.  [cm_free = 1] marks a frame in use, and
    [cm_size_alloc] is the length of an allocation at its first frame. *)

From stdpp Require Import base gmap list strings fin_maps.
From Stdlib Require Import ZArith Lia.
From S2P Require Import Prelude Types Bitmap Machine Vmstats Tlb Swapfile Pagetable.
Set Default Goal Selector "!".
Open Scope Z_scope.

(** [sizeof(struct cm_entry)]: the bit-fields share a word, then a pointer. *)
Definition sizeof_cm_entry : Z := 8.

Section coremap.
Context {V : Type} `{VnodeOps V}.

Definition cm_blank : cm_entry := CmEntry 0 0 0 None.

(** [ramsize] is what [mainbus_ramsize] returns and [firstfree] the address
    start.S left.  The two loops write every entry once or twice; the array is
    given by its final entries. *)
Definition coremap_bootstrap (ramsize firstfree : Z) : K (kstate V) unit :=
  let lastpaddr :=
    if 512 * 1024 * 1024 <? ramsize then 512 * 1024 * 1024 else ramsize in
  let firstpaddr := KVADDR_TO_PADDR firstfree in
  KASSERT (lastpaddr mod PAGE_SIZE =? 0) "lastpaddr % PAGE_SIZE == 0" ;;
  KASSERT (firstpaddr mod PAGE_SIZE =? 0) "firstpaddr % PAGE_SIZE == 0" ;;
  let nRam := lastpaddr / PAGE_SIZE in
  let coremap_size := u32 (sizeof_cm_entry * nRam) in
  let coremap_pages := DIVROUNDUP coremap_size PAGE_SIZE in
  let kernel_pages := firstpaddr / PAGE_SIZE in
  modify (λ s, set_cm (CmState (replicate (Z.to_nat nRam) cm_blank) nRam
                         (victim_index (k_cm s))) s) ;;
  for_each (seqZ 0 (kernel_pages + coremap_pages)) (λ i,
    cm ← gets (λ s, coremap (k_cm s));
    e ← index cm i;
    modify (set_coremap (arr_set cm i (CmEntry 1 1 (cm_lock e) (cm_ptentry e))))).

(** The scan of [coremap_find_freeframes] from [end_], the start of the current
    run of free frames being [beginning] (-1 for none).  [None]: out of fuel. *)
Fixpoint find_scan (fuel : nat) (cm : list cm_entry) (nRam npages : Z)
  (end_ beginning : Z) : option (option (Z * Z)) :=
  match fuel with
  | O => None
  | S fuel' =>
      if end_ <? nRam then
        match arr_get cm end_ with
        | None => Some None
        | Some e =>
            if cm_free e =? 1
            then find_scan fuel' cm nRam npages (end_ + cm_size_alloc e) (-1)
            else
              let beginning := if beginning =? -1 then end_ else beginning in
              let end_ := end_ + 1 in
              if end_ - beginning =? npages then Some (Some (end_, beginning))
              else find_scan fuel' cm nRam npages end_ beginning
        end
      else Some (Some (end_, beginning))
  end.

Definition coremap_find_freeframes (npages : Z) : K (kstate V) Z :=
  cm ← gets k_cm;
  match find_scan (S (length (coremap cm))) (coremap cm) (nRamFrames cm) npages 0 (-1) with
  | None => diverge
  | Some None => panic "out of bounds"
  | Some (Some (end_, beginning)) =>
      mret (if negb (end_ - beginning =? npages) then -1 else beginning)
  end.

(** The loop of [coremap_get_victim], [fuel] iterations being left. *)
Fixpoint victim_scan (fuel : nat) : K (kstate V) Z :=
  match fuel with
  | O => mret (-1)
  | S fuel' =>
      modify (λ s, set_victim_index
        ((victim_index (k_cm s) + 1) mod nRamFrames (k_cm s)) s) ;;
      cm ← gets k_cm;
      e ← index (coremap cm) (victim_index cm);
      if bool_decide (is_Some (cm_ptentry e)) && (cm_lock e =? 0) then
        KASSERT (cm_free e =? 1) "coremap[victim_index].cm_free == 1" ;;
        KASSERT (cm_size_alloc e =? 1) "coremap[victim_index].cm_size_alloc == 1" ;;
        mret (victim_index cm)
      else victim_scan fuel'
  end.

Definition coremap_get_victim : K (kstate V) Z :=
  n ← gets (λ s, nRamFrames (k_cm s));
  victim_scan (Z.to_nat n).

(** Updates one coremap entry in place. *)
Definition cm_update (i : Z) (g : cm_entry → cm_entry) : K (kstate V) unit :=
  cm ← gets (λ s, coremap (k_cm s));
  e ← index cm i;
  modify (set_coremap (arr_set cm i (g e))).

Definition set_lock_bit (b : Z) (e : cm_entry) : cm_entry :=
  CmEntry (cm_free e) (cm_size_alloc e) b (cm_ptentry e).
Definition set_size (n : Z) (e : cm_entry) : cm_entry :=
  CmEntry (cm_free e) (wrap 20 n) (cm_lock e) (cm_ptentry e).
Definition set_free_bit (b : Z) (e : cm_entry) : cm_entry :=
  CmEntry b (cm_size_alloc e) (cm_lock e) (cm_ptentry e).
Definition set_owner (p : option ptptr) (e : cm_entry) : cm_entry :=
  CmEntry 1 (cm_size_alloc e) (cm_lock e) p.

Definition coremap_swapout (npages : Z) : K (kstate V) Z :=
  if 1 <? npages then panic "Cannot swap out multiple pages" else
  victim ← coremap_get_victim;
  if victim =? -1 then panic "Cannot find swappable victim" else
  cm ← gets (λ s, coremap (k_cm s));
  e ← index cm victim;
  p ← deref (cm_ptentry e);
  r ← pt_load p;
  if bool_decide (pt_status r = IN_MEMORY_RDONLY) then
    pt_set_entry p 0 0 NOT_LOADED ;;
    tlb_remove_by_paddr (victim * PAGE_SIZE) ;;
    mret victim
  else
    cm_update victim (set_lock_bit 1) ;;
    spinlock_release cm_spinlock ;;
    swap_index ← swap_out (victim * PAGE_SIZE);
    spinlock_acquire cm_spinlock ;;
    cm_update victim (set_lock_bit 0) ;;
    cm' ← gets (λ s, coremap (k_cm s));
    e' ← index cm' victim;
    p' ← deref (cm_ptentry e');
    pt_set_entry p' 0 swap_index IN_SWAP ;;
    tlb_remove_by_paddr (victim * PAGE_SIZE) ;;
    mret victim.

(** The return value 0 stands for no page. *)
Definition coremap_getppages (npages : Z) (ptentry : option ptptr) : K (kstate V) Z :=
  spinlock_acquire cm_spinlock ;;
  found ← coremap_find_freeframes npages;
  beginning ← (if found =? -1 then coremap_swapout npages else mret found);
  if beginning =? -1 then spinlock_release cm_spinlock ;; mret 0 else
  modify (kmem_zero (PADDR_TO_KVADDR (beginning * PAGE_SIZE)) (PAGE_SIZE * npages)) ;;
  cm_update beginning (set_size npages) ;;
  for_each (seqZ 0 npages) (λ i, cm_update (beginning + i) (set_owner ptentry)) ;;
  spinlock_release cm_spinlock ;;
  mret (beginning * PAGE_SIZE).

Definition coremap_freeppages (addr : Z) : K (kstate V) unit :=
  KASSERT (addr mod PAGE_SIZE =? 0) "addr % PAGE_SIZE == 0" ;;
  let first := addr / PAGE_SIZE in
  cm ← gets (λ s, coremap (k_cm s));
  e ← index cm first;
  let allocSize := cm_size_alloc e in
  cm_update first (set_size 0) ;;
  nRam ← gets (λ s, nRamFrames (k_cm s));
  KASSERT (first <? nRam) "nRamFrames > first" ;;
  KASSERT (0 <? allocSize) "allocSize > 0" ;;
  spinlock_acquire cm_spinlock ;;
  for_each (seqZ 0 allocSize) (λ i,
    cm' ← gets (λ s, coremap (k_cm s));
    e' ← index cm' (first + i);
    KASSERT (cm_free e' =? 1) "coremap[first + i].cm_free == 1" ;;
    cm_update (first + i) (set_free_bit 0)) ;;
  spinlock_release cm_spinlock.

End coremap.

(** ** The shape of the coremap

    Frames are free, or belong to an allocation that starts at a frame whose
    [cm_size_alloc] is its length and whose other frames have length zero.  A
    frame owned by a page-table entry is an allocation of its own. *)

Definition used_frame (cm : list cm_entry) (f : Z) : Prop :=
  ∃ e, arr_get cm f = Some e ∧ cm_free e = 1.
Definition free_frame (cm : list cm_entry) (f : Z) : Prop :=
  ∃ e, arr_get cm f = Some e ∧ cm_free e = 0.
(** [head cm f n]: an allocation of [n] frames starts at [f]. *)
Definition head (cm : list cm_entry) (f n : Z) : Prop :=
  ∃ e, arr_get cm f = Some e ∧ cm_free e = 1 ∧ cm_size_alloc e = n ∧ 0 < n.
Definition user_frame (cm : list cm_entry) (f : Z) (p : ptptr) : Prop :=
  ∃ e, arr_get cm f = Some e ∧ cm_free e = 1 ∧ cm_ptentry e = Some p.

Record cm_inv (cm : list cm_entry) : Prop := {
  ci_bits : ∀ f e, arr_get cm f = Some e →
    (cm_free e = 0 ∨ cm_free e = 1) ∧ cm_lock e = 0 ∧ 0 ≤ cm_size_alloc e;
  ci_free : ∀ f e, arr_get cm f = Some e → cm_free e = 0 → cm_size_alloc e = 0;
  ci_block : ∀ f n k, head cm f n → 0 < k < n →
    ∃ e, arr_get cm (f + k) = Some e ∧ cm_free e = 1 ∧ cm_size_alloc e = 0;
  ci_inner : ∀ f e, arr_get cm f = Some e → cm_free e = 1 → cm_size_alloc e = 0 →
    ∃ h n, head cm h n ∧ h < f < h + n;
  ci_user : ∀ f e, arr_get cm f = Some e → cm_free e = 1 →
    is_Some (cm_ptentry e) → cm_size_alloc e = 1;
}.

(** [n] free frames from [b] on. *)
Definition free_run (cm : list cm_entry) (b n : Z) : Prop :=
  ∀ k, 0 ≤ k < n → free_frame cm (b + k).

(** A position where an allocation may start: the end of the array, a free
    frame, or the first frame of an allocation. *)
Definition boundary (cm : list cm_entry) (f : Z) : Prop :=
  ∀ e, arr_get cm f = Some e → cm_free e = 1 → 0 < cm_size_alloc e.

Section scan.
Context (cm : list cm_entry) (Hinv : cm_inv cm).

Lemma frame_cases f : 0 ≤ f < zlen cm → used_frame cm f ∨ free_frame cm f.
Proof.
  intros Hf. destruct (arr_get_ex cm f Hf) as [e He].
  destruct (ci_bits cm Hinv f e He) as [[?|?] _]; [right|left]; by exists e.
Qed.

Lemma used_not_free f : used_frame cm f → free_frame cm f → False.
Proof. intros (e & He & ?) (e' & He' & ?). simplify_eq. lia. Qed.

Lemma head_used f n k : head cm f n → 0 ≤ k < n → used_frame cm (f + k).
Proof.
  intros Hh Hk. destruct (decide (k = 0)) as [->|].
  - rewrite Z.add_0_r. destruct Hh as (e & ? & ? & _). by exists e.
  - destruct (ci_block cm Hinv f n k) as (e & ? & ? & _); [done|lia|]. by exists e.
Qed.

Lemma head_len f n : head cm f n → 0 ≤ f ∧ f + n ≤ zlen cm.
Proof.
  intros Hh. pose proof Hh as (e & He & _ & _ & Hn).
  destruct (head_used f n (n - 1)) as (e' & He' & _); [done|lia|].
  apply arr_get_range in He, He'. lia.
Qed.

Lemma boundary_after_head f n : head cm f n → boundary cm (f + n).
Proof.
  intros Hh e He Hu. pose proof Hh as (ef & Hef & Huf & Hsf & Hn).
  destruct (ci_bits cm Hinv _ _ He) as (_ & _ & Hs).
  destruct (decide (cm_size_alloc e = 0)) as [H0|]; [|lia].
  destruct (ci_inner cm Hinv _ _ He Hu H0) as (h & m & Hhm & Hr).
  pose proof Hhm as (eh & Heh & _ & Hsh & _).
  destruct (Z.lt_trichotomy h f) as [?|[->|?]].
  - destruct (ci_block cm Hinv h m (f - h)) as (e1 & He1 & _ & Hz); [done|lia|].
    replace (h + (f - h)) with f in He1 by lia. simplify_eq. lia.
  - simplify_eq. lia.
  - destruct (ci_block cm Hinv f n (h - f)) as (e1 & He1 & _ & Hz); [done|lia|].
    replace (f + (h - f)) with h in He1 by lia. simplify_eq. lia.
Qed.

Lemma boundary_after_free f : free_frame cm f → boundary cm (f + 1).
Proof.
  intros Hf e He Hu. destruct (ci_bits cm Hinv _ _ He) as (_ & _ & Hs).
  destruct (decide (cm_size_alloc e = 0)) as [H0|]; [|lia].
  destruct (ci_inner cm Hinv _ _ He Hu H0) as (h & m & Hhm & Hr).
  exfalso. apply (used_not_free f); [|done].
  replace f with (h + (f - h)) by lia. apply (head_used h m); [done|lia].
Qed.

Lemma boundary_0 : boundary cm 0.
Proof.
  intros e He Hu. destruct (ci_bits cm Hinv _ _ He) as (_ & _ & Hs).
  destruct (decide (cm_size_alloc e = 0)) as [H0|]; [|lia].
  destruct (ci_inner cm Hinv _ _ He Hu H0) as (h & m & Hhm & Hr).
  apply head_len in Hhm. lia.
Qed.

(** No run of [n] free frames starts below [lo]. *)
Definition no_run_below (n lo : Z) : Prop :=
  ∀ b, 0 ≤ b → free_run cm b n → lo ≤ b.

(** The invariant of the scan at position [end_]. *)
Definition scan_inv (n end_ beginning : Z) : Prop :=
  0 ≤ end_ ≤ zlen cm ∧ boundary cm end_ ∧
  if decide (beginning = -1) then no_run_below n end_
  else 0 ≤ beginning < end_ ∧ end_ - beginning < n ∧
       free_run cm beginning (end_ - beginning) ∧ no_run_below n beginning.

Lemma scan_skip n end_ beginning m :
  scan_inv n end_ beginning → head cm end_ m → 1 ≤ n →
  scan_inv n (end_ + m) (-1).
Proof.
  intros (H0 & Hb & Hrun) Hh Hn. pose proof Hh as (? & _ & _ & _ & Hm).
  split; [apply head_len in Hh; lia|]. split; [by apply boundary_after_head|].
  rewrite decide_True by done. intros b Hb0 Hr.
  destruct (decide (end_ + m ≤ b)); [done|exfalso].
  assert (Hin : end_ ≤ b → False).
  { intros. apply (used_not_free b); [|by rewrite <- (Z.add_0_r b); apply Hr; lia].
    replace b with (end_ + (b - end_)) by lia. apply (head_used end_ m); [done|lia]. }
  case_decide.
  - apply Hin. by apply Hrun.
  - destruct Hrun as (Hbe & Hlt & _ & Hlow). specialize (Hlow b Hb0 Hr).
    destruct (decide (end_ ≤ b)) as [|Hbe']; [by apply Hin|].
    apply (used_not_free end_).
    + rewrite <- (Z.add_0_r end_). apply (head_used end_ m); [done|lia].
    + replace end_ with (b + (end_ - b)) by lia. apply Hr. lia.
Qed.

Lemma scan_free n end_ beginning :
  scan_inv n end_ beginning → free_frame cm end_ → 1 ≤ n →
  let beginning' := if beginning =? -1 then end_ else beginning in
  (end_ + 1 - beginning' = n ∧ 0 ≤ beginning' ∧ free_run cm beginning' n ∧
   no_run_below n beginning') ∨
  (end_ + 1 - beginning' ≠ n ∧ scan_inv n (end_ + 1) beginning').
Proof.
  intros (H0 & Hb & Hrun) Hf Hn beginning'.
  assert (Hbeg : 0 ≤ beginning' ≤ end_ ∧ end_ - beginning' < n ∧
    free_run cm beginning' (end_ + 1 - beginning') ∧ no_run_below n beginning').
  { subst beginning'. case_decide as Hd.
    - rewrite (proj2 (Z.eqb_eq _ _) Hd). split_and!; try lia; [|done].
      intros k Hk. by replace (end_ + k) with end_ by lia.
    - rewrite (proj2 (Z.eqb_neq _ _) Hd). destruct Hrun as (? & ? & Hr & ?).
      split_and!; try lia; [|done]. intros k Hk.
      destruct (decide (k = end_ - beginning)) as [->|].
      + by replace (beginning + (end_ - beginning)) with end_ by lia.
      + apply Hr. lia. }
  destruct Hbeg as (? & ? & Hr & Hlow).
  destruct (decide (end_ + 1 - beginning' = n)) as [He|He]; [left|right].
  - split_and!; [done|lia| |done]. by rewrite <- He.
  - split; [done|]. split.
    { destruct Hf as (e & Hg%arr_get_range & _). lia. }
    split; [by apply boundary_after_free|].
    rewrite decide_False by lia. split_and!; try lia; done.
Qed.

Lemma find_scan_spec fuel n end_ beginning :
  scan_inv n end_ beginning → 1 ≤ n → zlen cm - end_ < Z.of_nat fuel →
  ∃ e' b', find_scan fuel cm (zlen cm) n end_ beginning = Some (Some (e', b')) ∧
    ((e' - b' = n ∧ 0 ≤ b' ∧ free_run cm b' n ∧ no_run_below n b') ∨
     ((e' - b' = n → b' = -1) ∧ ∀ b, 0 ≤ b → ¬ free_run cm b n)).
Proof.
  revert end_ beginning. induction fuel as [|fuel IH]; intros end_ beginning Hs Hn Hf.
  { destruct Hs as (H0 & _). lia. }
  cbn [find_scan]. destruct (Z.ltb_spec end_ (zlen cm)) as [Hlt|Hge].
  - pose proof Hs as (H0 & Hb & _). destruct (arr_get_ex cm end_) as [e He]; [lia|].
    rewrite He. destruct (ci_bits cm Hinv _ _ He) as ([Hfr|Hus] & _ & _).
    + rewrite Hfr. cbn [Z.eqb].
      destruct (scan_free n end_ beginning) as [(Hq & Hr)|(Hq & Hs')]; [done|by exists e|done| |].
      * rewrite (proj2 (Z.eqb_eq _ _) Hq). do 2 eexists. split; [done|]. by left.
      * rewrite (proj2 (Z.eqb_neq _ _) Hq). apply IH; [done|done|lia].
    + rewrite Hus. cbn [Z.eqb Pos.eqb].
      assert (Hh : head cm end_ (cm_size_alloc e)).
      { exists e. split_and!; try done. by apply Hb. }
      apply IH; [by apply scan_skip with beginning|done|].
      destruct Hh as (? & _ & _ & _ & ?). lia.
  - do 2 eexists. split; [done|]. right. destruct Hs as (H0 & _ & Hd).
    assert (Hend : ∀ b, 0 ≤ b → free_run cm b n → b + n ≤ zlen cm).
    { intros b Hb0 Hr. destruct (Hr (n - 1)) as (e & He & _); [lia|].
      apply arr_get_range in He. lia. }
    case_decide.
    + split; [done|]. intros b Hb Hr. specialize (Hend b Hb Hr).
      specialize (Hd b Hb Hr). lia.
    + destruct Hd as (? & ? & ? & Hlow). split; [lia|].
      intros b Hb Hr. specialize (Hend b Hb Hr). specialize (Hlow b Hb Hr). lia.
Qed.

End scan.

(** ** Allocation and release preserve the shape *)

Section shape.
Context (cm : list cm_entry) (Hinv : cm_inv cm).

Lemma head_not_inner f n k m : head cm f n → 0 < k < n → ¬ head cm (f + k) m.
Proof.
  intros Hf Hk (e & He & _ & Hs & Hm).
  destruct (ci_block cm Hinv f n k Hf Hk) as (e' & He' & _ & Hz). simplify_eq. lia.
Qed.

Lemma heads_disjoint f m b n :
  head cm f m → head cm b n → f ≠ b → f + m ≤ b ∨ b + n ≤ f.
Proof.
  intros Hf Hb Hne. destruct (decide (f + m ≤ b)); [by left|].
  destruct (decide (b + n ≤ f)); [by right|exfalso].
  destruct (decide (f < b)).
  - apply (head_not_inner f m (b - f) n); [done|lia|].
    by replace (f + (b - f)) with b by lia.
  - apply (head_not_inner b n (f - b) m); [done|lia|].
    by replace (b + (f - b)) with f by lia.
Qed.

(** The frames [b .. b + n - 1] can be given away: they are free, or one
    allocation of one frame that is taken over. *)
Definition available (b n : Z) : Prop := free_run cm b n ∨ n = 1 ∧ head cm b 1.

Lemma available_outside b n f m k :
  available b n → head cm f m → 0 ≤ k < m → b ≤ f + k < b + n →
  f = b ∧ n = 1 ∧ k = 0.
Proof.
  intros [Hr|[-> Hb]] Hf Hk Hin.
  - exfalso. apply (used_not_free cm (f + k)).
    + by apply (head_used cm Hinv f m).
    + replace (f + k) with (b + (f + k - b)) by lia. apply Hr. lia.
  - assert (f + k = b) by lia. destruct (decide (f = b)) as [->|]; [lia|].
    destruct (heads_disjoint f m b 1 Hf Hb); lia.
Qed.

Lemma alloc_inv cm' b n p :
  1 ≤ n → 0 ≤ b → available b n → (is_Some p → n = 1) →
  (∀ f, arr_get cm' f =
     if decide (b ≤ f < b + n) then Some (CmEntry 1 (if decide (f = b) then n else 0) 0 p)
     else arr_get cm f) →
  cm_inv cm'.
Proof.
  intros Hn Hb Hav Hp Hget.
  assert (Hhead : ∀ f m, head cm' f m ↔
    (f = b ∧ m = n) ∨ (¬ b ≤ f < b + n ∧ head cm f m)).
  { intros f m. unfold head. rewrite Hget. repeat case_decide; naive_solver lia. }
  split.
  - intros f e. rewrite Hget. case_decide; [|by apply (ci_bits cm Hinv)].
    intros [= <-]. cbn. case_decide; lia.
  - intros f e. rewrite Hget. case_decide; [|by apply (ci_free cm Hinv)].
    intros [= <-]. cbn. lia.
  - intros f m k [[-> ->]|[Hout Hh]]%Hhead Hk; rewrite Hget.
    + rewrite decide_True by lia. eexists. split; [done|]. split; [done|].
      cbn. by rewrite decide_False by lia.
    + rewrite decide_False; [by apply (ci_block cm Hinv f m k)|].
      intros Hin. destruct (available_outside b n f m k) as (? & ? & ?); try done; lia.
  - intros f e. rewrite Hget. case_decide as Hin.
    + intros [= <-]. cbn. case_decide; [lia|]. intros _ _.
      exists b, n. split; [apply Hhead; by left|lia].
    + intros He Hu Hz. destruct (ci_inner cm Hinv f e He Hu Hz) as (h & m & Hh & Hr).
      exists h, m. split; [|done]. apply Hhead. right. split; [|done].
      intros Hin'. destruct (available_outside b n h m 0) as (-> & -> & _);
        rewrite ?Z.add_0_r; try done; [lia|].
      destruct Hav as [Hfr|[_ Hh1]].
      * apply (used_not_free cm b).
        { rewrite <- (Z.add_0_r b). apply (head_used cm Hinv b m); [done|lia]. }
        { rewrite <- (Z.add_0_r b). apply Hfr. lia. }
      * destruct Hh as (? & ? & ? & ? & ?), Hh1 as (? & ? & ? & ? & ?). simplify_eq. lia.
  - intros f e. rewrite Hget. case_decide as Hin; [|by apply (ci_user cm Hinv)].
    intros [= <-] _ Hs. cbn in *. specialize (Hp Hs). by rewrite decide_True by lia.
Qed.

Lemma free_inv cm' b n :
  head cm b n →
  (∀ f, arr_get cm' f =
     if decide (b ≤ f < b + n) then (λ e, CmEntry 0 0 0 (cm_ptentry e)) <$> arr_get cm f
     else arr_get cm f) →
  cm_inv cm'.
Proof.
  intros Hb Hget. assert (Hn : 0 < n) by (by destruct Hb as (? & ? & ? & ? & ?)).
  assert (Hhead : ∀ f m, head cm' f m ↔ ¬ b ≤ f < b + n ∧ head cm f m).
  { intros f m. unfold head. rewrite Hget. case_decide; [|naive_solver].
    destruct (arr_get cm f); cbn; naive_solver lia. }
  split.
  - intros f e. rewrite Hget. case_decide; [|by apply (ci_bits cm Hinv)].
    intros (e' & _ & ->)%fmap_Some. cbn. lia.
  - intros f e. rewrite Hget. case_decide; [|by apply (ci_free cm Hinv)].
    by intros (e' & _ & ->)%fmap_Some.
  - intros f m k [Hout Hh]%Hhead Hk. rewrite Hget.
    rewrite decide_False; [by apply (ci_block cm Hinv f m k)|].
    assert (f ≠ b) by lia. destruct (heads_disjoint f m b n) as [?|?]; try done; lia.
  - intros f e. rewrite Hget. case_decide as Hin.
    { intros (e' & _ & ->)%fmap_Some. cbn. lia. }
    intros He Hu Hz. destruct (ci_inner cm Hinv f e He Hu Hz) as (h & m & Hh & Hr).
    exists h, m. split; [|done]. apply Hhead. split; [|done]. intros Hin'.
    destruct (decide (h = b)) as [->|].
    + destruct Hh as (? & ? & ? & ? & ?), Hb as (? & ? & ? & ? & ?). simplify_eq. lia.
    + destruct (heads_disjoint h m b n) as [?|?]; try done; lia.
  - intros f e. rewrite Hget. case_decide; [|by apply (ci_user cm Hinv)].
    intros (e' & _ & ->)%fmap_Some. cbn. lia.
Qed.

End shape.

(** ** Running the operations on a well-shaped coremap *)

Section run.
Context {V : Type} `{VnodeOps V}.
Implicit Types s : kstate V.

Abbreviation cmap s := (coremap (k_cm s)).

(** The coremap part of the kernel state is well formed. *)
Record cm_good s : Prop := {
  cg_inv : cm_inv (cmap s);
  cg_len : nRamFrames (k_cm s) = zlen (cmap s);
  cg_size : 0 < zlen (cmap s) ≤ 2 ^ 17;
  cg_vic : 0 ≤ victim_index (k_cm s) < zlen (cmap s);
}.

Lemma set_coremap_id s : set_coremap (cmap s) s = s.
Proof. by destruct s as [[]]. Qed.

Lemma find_run n s :
  cm_good s → 1 ≤ n →
  ∃ r, coremap_find_freeframes n s = Ret r s ∧
    ((r = -1 ∧ ∀ b, 0 ≤ b → ¬ free_run (cmap s) b n) ∨
     (0 ≤ r ∧ free_run (cmap s) r n ∧ no_run_below (cmap s) n r)).
Proof.
  intros [Hinv Hlen Hsz _] Hn. unfold coremap_find_freeframes. krun.
  destruct (find_scan_spec (cmap s) Hinv (S (length (cmap s))) n 0 (-1)) as
    (e & b & Hf & Hr).
  - split; [lia|]. split; [by apply boundary_0|].
    rewrite decide_True by done. by intros ? ?.
  - done.
  - lia.
  - rewrite Hlen, Hf. eexists. split; [reflexivity|].
    destruct Hr as [(Heq & ? & ? & ?)|(Hb & Hno)].
    + rewrite (proj2 (Z.eqb_eq _ _) Heq). by right.
    + left. split; [|done]. destruct (Z.eqb_spec (e - b) n); cbn [negb]; auto.
Qed.

Lemma cm_update_run i g e s :
  arr_get (cmap s) i = Some e →
  cm_update i g s = Ret tt (set_coremap (arr_set (cmap s) i (g e)) s).
Proof. intros He. unfold cm_update. krun. by rewrite (run_index_bind _ _ e). Qed.

Lemma run_cm_update {B} i g e (f : unit → K (kstate V) B) s :
  arr_get (cmap s) i = Some e →
  mbind f (cm_update i g) s = f tt (set_coremap (arr_set (cmap s) i (g e)) s).
Proof. intros He. by rewrite run_bind, (cm_update_run i g e). Qed.

(** A loop that updates the entries [b .. b + n - 1], each once. *)
Lemma update_loop (P : cm_entry → Prop) (g : cm_entry → cm_entry)
  (body : Z → K (kstate V) unit) b n s :
  0 ≤ b → 0 ≤ n →
  (∀ i e s', arr_get (cmap s') (b + i) = Some e → P e →
     body i s' = Ret tt (set_coremap (arr_set (cmap s') (b + i) (g e)) s')) →
  (∀ k, 0 ≤ k < n → ∃ e, arr_get (cmap s) (b + k) = Some e ∧ P e) →
  ∃ cm', for_each (seqZ 0 n) body s = Ret tt (set_coremap cm' s) ∧
    length cm' = length (cmap s) ∧
    ∀ f, arr_get cm' f = if decide (b ≤ f < b + n) then g <$> arr_get (cmap s) f
                         else arr_get (cmap s) f.
Proof.
  intros Hb Hn Hbody. cut (∀ m i s, 0 ≤ i → Z.of_nat m = n - i →
    (∀ k, i ≤ k < n → ∃ e, arr_get (cmap s) (b + k) = Some e ∧ P e) →
    ∃ cm', for_each (seqZ i (Z.of_nat m)) body s = Ret tt (set_coremap cm' s) ∧
    length cm' = length (cmap s) ∧
    ∀ f, arr_get cm' f = if decide (b + i ≤ f < b + n) then g <$> arr_get (cmap s) f
                         else arr_get (cmap s) f).
  { intros Hc Hp. destruct (Hc (Z.to_nat n) 0 s) as (cm' & Hr); [lia|lia|done|].
    exists cm'. rewrite Z2Nat.id in Hr by lia. by rewrite Z.add_0_r in Hr. }
  clear s. induction m as [|m IH]; intros i s Hi Hm Hp.
  { exists (cmap s). rewrite set_coremap_id. split; [done|]. split; [done|].
    intros f. by rewrite decide_False by lia. }
  rewrite Nat2Z.inj_succ, seqZ_cons, Z.pred_succ by lia. cbn [for_each].
  destruct (Hp i) as (e & He & HPe); [lia|].
  pose proof (arr_get_range _ _ _ He) as Hr.
  rewrite run_bind, (Hbody i e s) by done.
  destruct (IH (Z.succ i) (set_coremap (arr_set (cmap s) (b + i) (g e)) s))
    as (cm' & Hrun & Hlen & Hget); [lia|lia| |].
  { intros k Hk. ksimpl. rewrite arr_get_set_ne by lia. apply Hp. lia. }
  exists cm'. rewrite Hrun. split; [done|]. ksimpl.
  ksimpl in Hlen. ksimpl in Hget. rewrite length_arr_set in Hlen. split; [done|]. intros f. rewrite Hget.
  rewrite arr_get_set by lia. destruct (decide (b + i = f)) as [<-|].
  - rewrite decide_False by lia. rewrite decide_True by lia. by rewrite He.
  - repeat case_decide; try lia; done.
Qed.

(** Round robin: the victim is the first frame after [victim_index], in cyclic
    order, that a page-table entry owns. *)
Lemma victim_scan_run fuel s :
  cm_good s → (∀ f, 0 ≤ f < zlen (cmap s) → used_frame (cmap s) f) →
  ∃ v i, victim_scan fuel s = Ret v (set_victim_index i s) ∧
    0 ≤ i < zlen (cmap s) ∧
    let at_ j := (victim_index (k_cm s) + j) mod zlen (cmap s) in
    ((v = -1 ∧ ∀ j p, 1 ≤ j ≤ Z.of_nat fuel → ¬ user_frame (cmap s) (at_ j) p) ∨
     (∃ k p, v = i ∧ v = at_ k ∧ 1 ≤ k ≤ Z.of_nat fuel ∧ user_frame (cmap s) v p ∧
      ∀ j q, 1 ≤ j < k → ¬ user_frame (cmap s) (at_ j) q)).
Proof.
  revert s. induction fuel as [|fuel IH]; intros s Hg Hall; cbn [victim_scan].
  { exists (-1), (victim_index (k_cm s)). split.
    { by destruct s as [[]]. }
    split; [by apply cg_vic|]. left. split; [done|]. intros. lia. }
  pose proof Hg as [Hinv Hlen Hsz Hvic]. krun. rewrite Hlen.
  set (i := (victim_index (k_cm s) + 1) mod zlen (cmap s)). ksimpl.
  assert (Hi : 0 ≤ i < zlen (cmap s)) by (apply Z.mod_pos_bound; lia).
  destruct (Hall i Hi) as (e & He & Hu).
  rewrite (run_index_bind _ _ e) by done.
  destruct (ci_bits _ Hinv _ _ He) as (_ & Hl & _). rewrite Hl. cbn [Z.eqb].
  rewrite andb_true_r. case_bool_decide as Hp.
  - rewrite Hu. rewrite run_assert by done.
    rewrite (ci_user _ Hinv i e) by done. rewrite run_assert by done.
    exists i, i. split; [done|]. split; [done|]. right. destruct Hp as [p Hp].
    exists 1, p. split_and!; try done; try lia; by exists e.
  - destruct (IH (set_victim_index i s)) as (v & i' & Hr & Hi' & Hcase).
    { by split; ksimpl. }
    { done. }
    exists v, i'. split; [exact Hr|]. ksimpl. split; [done|].
    assert (Hmod : ∀ j, (i + j) mod zlen (cmap s) =
      (victim_index (k_cm s) + (j + 1)) mod zlen (cmap s)).
    { intros j. subst i. rewrite Zplus_mod_idemp_l. f_equal. lia. }
    assert (Hno : ∀ q, ¬ user_frame (cmap s) i q).
    { intros q (e' & ? & ? & ?). simplify_eq. apply Hp. eauto. }
    destruct Hcase as [[-> Hn]|(k & p & -> & Hk & Hkr & Huf & Hn)].
    + left. split; [done|]. intros j p Hj. destruct (decide (j = 1)) as [->|].
      { apply Hno. }
      specialize (Hn (j - 1) p ltac:(lia)). rewrite Hmod in Hn.
      by replace (j - 1 + 1) with j in Hn by lia.
    + right. exists (k + 1), p. rewrite Hmod in Hk. split_and!; try done; try lia.
      intros j q Hj. destruct (decide (j = 1)) as [->|]; [apply Hno|].
      specialize (Hn (j - 1) q ltac:(lia)). rewrite Hmod in Hn.
      by replace (j - 1 + 1) with j in Hn by lia.
Qed.

End run.
