(* ===== verification/VmInv.v ===== *)
(** * VmInv: the invariant of the memory manager and the allocation of frames

    [vm_inv] ties together the coremap, the page tables, the swap map, the TLB
    and the physical memory.  [content] is what a page holds wherever it is: in
    the executable, in a frame or in the swap file.  The lemmas of this file
    show that [coremap_swapout] and [coremap_getppages] keep the invariant and
    the contents of every page. *)

From stdpp Require Import base gmap list strings fin_maps.
From Stdlib Require Import ZArith Lia.
From S2P Require Import Prelude Types Bitmap Machine Vmstats Tlb Swapfile Pagetable Coremap.
Set Default Goal Selector "!".
Open Scope Z_scope.

Definition in_mem (r : pt_entry) : Prop :=
  pt_status r = IN_MEMORY ∨ pt_status r = IN_MEMORY_RDONLY.

#[global] Instance in_mem_dec r : Decision (in_mem r).
Proof. unfold in_mem. apply _. Defined.

(** The reasons for which an allocation of one frame may stop the machine. *)
Definition alloc_err (w : string) : Prop :=
  w = "Cannot find swappable victim" ∨ w = "Out of swap space" ∨
  w = "Error swapping out".

Section inv.
Context {V : Type} `{VnodeOps V}.
(** The byte of a file at an offset. *)
Context (file_byte : V → Z → Z).
(** The entry of each page of the running process, and the initial contents of
    every page (the bytes of its executable, then zeroes). *)
Context (pmap : Z → option ptptr) (elf0 : ptptr → Z → Z).
(** Which entries describe pages of a text segment. *)
Context (is_text : ptptr → bool).
Implicit Types (s : kstate V) (p q : ptptr) (r : pt_entry).

Abbreviation cmap s := (coremap (k_cm s)).

(** The byte at offset [off] of the page that entry [p] describes. *)
Definition content s p (off : Z) : Z :=
  match pte_get s p with
  | None => 0
  | Some r =>
      match pt_status r with
      | NOT_LOADED => elf0 p off
      | IN_SWAP => file_byte (swapfile (k_swap s)) (pt_swap_index r * PAGE_SIZE + off)
      | IN_MEMORY | IN_MEMORY_RDONLY => k_ram s (pt_frame_index r * PAGE_SIZE + off)
      end
  end.

(** [X] is the entry whose page is in transit: a frame is reserved for it
    though the entry does not say so. *)
Record vm_inv_x (X : option ptptr) s : Prop := {
  vi_cm : cm_good s;
  vi_kern0 : ∀ p, ¬ user_frame (cmap s) 0 p;
  vi_used0 : used_frame (cmap s) 0;
  vi_own : ∀ f p, user_frame (cmap s) f p → X ≠ Some p →
    ∃ r, pte_get s p = Some r ∧ in_mem r ∧ pt_frame_index r = f;
  vi_mem : ∀ p r, pte_get s p = Some r → in_mem r →
    user_frame (cmap s) (pt_frame_index r) p;
  vi_pend : ∀ p, X = Some p → ∃ r, pte_get s p = Some r ∧ ¬ in_mem r;
  vi_pend1 : ∀ p f f', X = Some p →
    user_frame (cmap s) f p → user_frame (cmap s) f' p → f = f';
  vi_map : swap_wf s;
  vi_swap : ∀ p r, pte_get s p = Some r → pt_status r = IN_SWAP →
    pt_swap_index r ∈ swap_used s;
  vi_swap_inj : ∀ p q r r', pte_get s p = Some r → pte_get s q = Some r' →
    pt_status r = IN_SWAP → pt_status r' = IN_SWAP →
    pt_swap_index r = pt_swap_index r' → p = q;
  vi_swap_used : ∀ i, i ∈ swap_used s →
    ∃ p r, pte_get s p = Some r ∧ pt_status r = IN_SWAP ∧ pt_swap_index r = i;
  vi_tlbwf : tlb_wf (k_tlb s);
  vi_tlb : ∀ va f ro, tlb_maps (k_tlb s) va f ro →
    ∃ p r, pmap va = Some p ∧ pte_get s p = Some r ∧ in_mem r ∧
      pt_frame_index r = f ∧ (ro = true ↔ pt_status r = IN_MEMORY_RDONLY);
  vi_ro : ∀ p r off, pte_get s p = Some r → pt_status r = IN_MEMORY_RDONLY →
    0 ≤ off < PAGE_SIZE → k_ram s (pt_frame_index r * PAGE_SIZE + off) = elf0 p off;
  vi_text : ∀ p r, pte_get s p = Some r →
    if is_text p then pt_status r = NOT_LOADED ∨ pt_status r = IN_MEMORY_RDONLY
    else pt_status r ≠ IN_MEMORY_RDONLY;
  vi_stats : length (k_stats s) = 10%nat;
}.

Definition vm_inv s : Prop := vm_inv_x None s.

(** The parts of the state that frame allocation leaves alone. *)
Record same_env s s' : Prop := {
  se_ases : k_ases s' = k_ases s;
  se_procs : k_procs s' = k_procs s;
  se_cur : k_curproc s' = k_curproc s;
  se_int : k_in_interrupt s' = k_in_interrupt s;
  se_nram : zlen (cmap s') = zlen (cmap s);
  se_tabs : ∀ p, is_Some (pte_get s' p) ↔ is_Some (pte_get s p);
}.

#[global] Instance same_env_preorder : PreOrder same_env.
Proof.
  split.
  - intros s. by split.
  - intros s1 s2 s3 [] [? ? ? ? ? Ht2]. split; try congruence. intros p. by rewrite Ht2.
Qed.

Definition same_content s s' : Prop :=
  ∀ p off, 0 ≤ off < PAGE_SIZE → content s' p off = content s p off.

#[global] Instance same_content_preorder : PreOrder same_content.
Proof.
  split.
  - by intros s p off.
  - intros s1 s2 s3 H12 H23 p off Hoff. by rewrite H23, H12.
Qed.

Lemma user_frame_fun cm f p q : user_frame cm f p → user_frame cm f q → p = q.
Proof. intros (e & ? & ? & ?) (e' & ? & ? & ?). congruence. Qed.

Lemma not_in_mem_cases r :
  ¬ in_mem r → pt_status r = NOT_LOADED ∨ pt_status r = IN_SWAP.
Proof. unfold in_mem. destruct (pt_status r); naive_solver. Qed.

Section with_inv.
Context (X : option ptptr) (s : kstate V) (Hi : vm_inv_x X s).

Lemma frame_range f p : user_frame (cmap s) f p → 0 < f < 2 ^ 17.
Proof.
  intros Hu. pose proof Hu as (e & He%arr_get_range & _).
  destruct (vi_cm _ _ Hi) as [_ _ Hsz _].
  destruct (decide (f = 0)) as [->|]; [|lia]. by destruct (vi_kern0 _ _ Hi p).
Qed.

(** Entries whose pages are in memory have different frames. *)
Lemma frame_inj p q r r' :
  pte_get s p = Some r → pte_get s q = Some r' → in_mem r → in_mem r' →
  pt_frame_index r = pt_frame_index r' → p = q.
Proof.
  intros Hp Hq Hr Hr' Hf. apply (user_frame_fun (cmap s) (pt_frame_index r)).
  - by eapply vi_mem.
  - rewrite Hf. by eapply vi_mem.
Qed.

Context (pmap_inj : ∀ va va' p, pmap va = Some p → pmap va' = Some p → va = va').

Lemma tlb_frame_unique f va1 ro1 va2 ro2 :
  tlb_maps (k_tlb s) va1 f ro1 → tlb_maps (k_tlb s) va2 f ro2 → va1 = va2.
Proof.
  intros (p & r & Hp & Hr & Hm & Hf & _)%(vi_tlb _ _ Hi)
         (q & r' & Hq & Hr' & Hm' & Hf' & _)%(vi_tlb _ _ Hi).
  assert (p = q) as -> by (eapply frame_inj; eauto; congruence). eauto.
Qed.

End with_inv.

(** ** Eviction

    The state after a victim frame [v], owned by [q], has been emptied: the
    entry [q] is changed, the TLB no longer maps [v], and either the page was
    read-only and is dropped, or it is now page [i] of the swap file. *)
Record evicted s s' (v : Z) (q : ptptr) : Prop := {
  ev_frame : user_frame (cmap s) v q;
  ev_cmap : cmap s' = cmap s;
  ev_good : cm_good s';
  ev_ram : k_ram s' = k_ram s;
  ev_tlb : k_tlb s' = removed v (k_tlb s);
  ev_stats : length (k_stats s') = 10%nat;
  ev_other : ∀ p, p ≠ q → pte_get s' p = pte_get s p;
  ev_how : ∃ r r', pte_get s q = Some r ∧ pte_get s' q = Some r' ∧
    ((pt_status r = IN_MEMORY_RDONLY ∧ pt_status r' = NOT_LOADED ∧
      k_swap s' = k_swap s) ∨
     (∃ n, pt_status r = IN_MEMORY ∧ pt_status r' = IN_SWAP ∧
      alloc_post (swapmap (k_swap s)) (inr (pt_swap_index r', swapmap (k_swap s'))) ∧
      VOP_WRITE (swapfile (k_swap s)) (pt_swap_index r' * PAGE_SIZE)
        (kmem_read (PADDR_TO_KVADDR (v * PAGE_SIZE)) PAGE_SIZE s)
      = inr (swapfile (k_swap s'), n)));
}.

Context (pmap_inj : ∀ va va' p, pmap va = Some p → pmap va' = Some p → va = va').
Context `{!VnodeLaws V file_byte}.
(** Writes to the swap file are complete. *)
Context (write_full : ∀ v off bs v' n, VOP_WRITE v off bs = inr (v', n) → n = zlen bs).

(** A page written to the swap file is read back from its new place, and the
    other pages of the swap file are as before. *)
Lemma swap_write_bytes s file' n i v j off :
  0 ≤ v < 2 ^ 17 → 0 ≤ off < PAGE_SIZE →
  VOP_WRITE (swapfile (k_swap s)) (i * PAGE_SIZE)
    (kmem_read (PADDR_TO_KVADDR (v * PAGE_SIZE)) PAGE_SIZE s) = inr (file', n) →
  file_byte file' (j * PAGE_SIZE + off) =
  if decide (j = i) then k_ram s (v * PAGE_SIZE + off)
  else file_byte (swapfile (k_swap s)) (j * PAGE_SIZE + off).
Proof.
  intros Hv Hoff Hw. rewrite (vop_write_bytes _ _ _ _ _ _ Hw).
  rewrite (write_full _ _ _ _ _ Hw), kmem_read_len by done.
  unfold PAGE_SIZE in Hoff.
  case_decide as Hj.
  - destruct (decide (i * PAGE_SIZE ≤ j * PAGE_SIZE + off < i * PAGE_SIZE + PAGE_SIZE))
      as [Hr|Hr]; case_decide as Hd; try done; unfold PAGE_SIZE in *; try lia.
    subst j. replace (i * 4096 + off - i * 4096) with off by lia.
    rewrite kmem_read_get by lia. cbn. rewrite kvaddr_roundtrip by lia. done.
  - case_decide as Hd; [|done]. exfalso. subst. apply Hj. unfold PAGE_SIZE. lia.
Qed.

Section eviction.
Context (s s' : kstate V) (v : Z) (q : ptptr).
Context (Hi : vm_inv s) (He : evicted s s' v q).

(** The entry of the victim before and after. *)
Lemma ev_entry : ∃ r r', pte_get s q = Some r ∧ in_mem r ∧ pt_frame_index r = v ∧
  pte_get s' q = Some r' ∧ ¬ in_mem r'.
Proof.
  destruct (vi_own _ _ Hi v q (ev_frame _ _ _ _ He) ltac:(done)) as (r & Hr & Hm & Hf).
  destruct (ev_how _ _ _ _ He) as (r1 & r' & Hr1 & Hr' & Hc). simplify_eq.
  exists r, r'. split_and!; try done. unfold in_mem.
  destruct Hc as [(_ & -> & _)|(n & _ & -> & _)]; naive_solver.
Qed.

(** The swap map only grew by the page given to [q]. *)
Lemma ev_swap_used i :
  i ∈ swap_used s' ↔ i ∈ swap_used s ∨
    ∃ r', pte_get s' q = Some r' ∧ pt_status r' = IN_SWAP ∧ pt_swap_index r' = i.
Proof.
  destruct (ev_how _ _ _ _ He) as (r & r' & Hr & Hr' & [(_ & Hs & Hsw)|(n & _ & Hs & Hp & _)]).
  - unfold swap_used. rewrite Hsw. split; [by left|].
    intros [?|(r1 & ? & ? & ?)]; [done|congruence].
  - destruct Hp as (_ & _ & _ & _ & Hset & _). unfold swap_used. rewrite Hset.
    set_solver.
Qed.

Lemma ev_swap_fresh r' :
  pte_get s' q = Some r' → pt_status r' = IN_SWAP → pt_swap_index r' ∉ swap_used s.
Proof.
  intros Hr' Hs. destruct (ev_how _ _ _ _ He) as
    (r & r1 & Hr & Hr1 & [(_ & Hs' & _)|(n & _ & _ & Hp & _)]); simplify_eq; [congruence|].
  by destruct Hp as (_ & _ & _ & Hni & _).
Qed.

Lemma ev_pte p r :
  pte_get s' p = Some r → p = q ∨ (p ≠ q ∧ pte_get s p = Some r).
Proof.
  intros Hp. destruct (decide (p = q)); [by left|right].
  by rewrite <- (ev_other _ _ _ _ He).
Qed.

Lemma evicted_content : same_content s s'.
Proof.
  intros p off Hoff. unfold content. destruct ev_entry as (r & r' & Hr & Hm & Hf & Hr' & Hn).
  destruct (ev_how _ _ _ _ He) as (r1 & r1' & H1 & H2 & Hc).
  rewrite Hr in H1. injection H1 as <-. rewrite Hr' in H2. injection H2 as <-.
  pose proof (frame_range _ _ Hi _ _ (ev_frame _ _ _ _ He)) as Hv.
  assert (Hv0 : 0 ≤ v < 2 ^ 17) by lia.
  destruct (decide (p = q)) as [->|Hne].
  - rewrite Hr, Hr'. destruct Hc as [(Hs & -> & _)|(n & -> & -> & Hp & Hw)].
    + rewrite Hs. symmetry. by apply (vi_ro _ _ Hi).
    + rewrite (swap_write_bytes _ _ _ _ _ _ _ Hv0 Hoff Hw), decide_True by done.
      by rewrite Hf.
  - rewrite (ev_other _ _ _ _ He) by done. destruct (pte_get s p) as [rp|] eqn:Hp; [|done].
    rewrite (ev_ram _ _ _ _ He). destruct (pt_status rp) eqn:Hst; try done.
    destruct Hc as [(_ & _ & ->)|(n & _ & Hs' & Hpost & Hw)]; [done|].
    rewrite (swap_write_bytes _ _ _ _ _ _ _ Hv0 Hoff Hw), decide_False; [done|].
    intros Heq. apply (ev_swap_fresh r' Hr' Hs'). rewrite <- Heq. by eapply (vi_swap _ _ Hi).
Qed.

Lemma evicted_tlb va f ro :
  tlb_maps (k_tlb s') va f ro → tlb_maps (k_tlb s) va f ro ∧ f ≠ v.
Proof.
  rewrite (ev_tlb _ _ _ _ He). intros Hm.
  pose proof (frame_range _ _ Hi _ _ (ev_frame _ _ _ _ He)) as Hv.
  split; [eapply tlb_maps_removed_inv; eauto using vi_tlbwf; lia|]. intros ->.
  eapply tlb_removed_gone; eauto using vi_tlbwf; [lia|].
  intros ? ? ? ?. by apply tlb_frame_unique with (X := None).
Qed.

Lemma evicted_swap_wf : swap_wf s'.
Proof.
  destruct (vi_map _ _ Hi) as [Hwf Hnb].
  destruct (ev_how _ _ _ _ He) as (r & r' & _ & _ & [(_ & _ & Hsw)|(n & _ & _ & Hp & _)]).
  - unfold swap_wf. by rewrite Hsw.
  - destruct Hp as (? & Hn & _). split; [done|]. by rewrite Hn.
Qed.

Lemma evicted_inv : vm_inv_x (Some q) s'.
Proof.
  destruct ev_entry as (r & r' & Hr & Hm & Hf & Hr' & Hn).
  pose proof (ev_cmap _ _ _ _ He) as Hc.
  pose proof (frame_range _ _ Hi _ _ (ev_frame _ _ _ _ He)) as Hv.
  split; rewrite ?Hc; try by apply Hi.
  - by apply (ev_good _ _ _ _ He).
  - intros f p Hu Hx. rewrite (ev_other _ _ _ _ He) by congruence.
    by apply (vi_own _ _ Hi).
  - intros p rp Hp Hmp. destruct (ev_pte p rp Hp) as [->|[Hne Hp']].
    + rewrite Hr' in Hp. injection Hp as <-. done.
    + by apply (vi_mem _ _ Hi).
  - intros p [= <-]. eauto.
  - intros p f f' [= <-] Hu Hu'.
    destruct (vi_own _ _ Hi f q Hu) as (? & ? & _ & ?); [done|].
    destruct (vi_own _ _ Hi f' q Hu') as (? & ? & _ & ?); [done|]. congruence.
  - apply evicted_swap_wf.
  - intros p rp Hp Hs. apply ev_swap_used. destruct (ev_pte p rp Hp) as [->|[Hne Hp']].
    + right. eauto.
    + left. by eapply (vi_swap _ _ Hi).
  - intros p1 p2 r1 r2 Hp1 Hp2 Hs1 Hs2 Heq.
    destruct (ev_pte _ _ Hp1) as [->|[H1 Hp1']], (ev_pte _ _ Hp2) as [->|[H2 Hp2']]; [done| | |].
    + destruct (ev_swap_fresh r1 Hp1 Hs1). rewrite Heq. by eapply (vi_swap _ _ Hi).
    + destruct (ev_swap_fresh r2 Hp2 Hs2). rewrite <- Heq. by eapply (vi_swap _ _ Hi).
    + by eapply (vi_swap_inj _ _ Hi).
  - intros i [Hu|(r1 & ? & ? & ?)]%ev_swap_used; [|eauto].
    destruct (vi_swap_used _ _ Hi i Hu) as (p & rp & Hp & Hs & Hx). exists p, rp.
    split_and!; try done. rewrite (ev_other _ _ _ _ He); [done|]. intros ->.
    simplify_eq. destruct Hm; congruence.
  - rewrite (ev_tlb _ _ _ _ He). apply tlb_wf_removed; [by apply Hi|lia].
  - intros va f ro [Hmap Hfv]%evicted_tlb.
    destruct (vi_tlb _ _ Hi va f ro Hmap) as (p & rp & Hp & Hpr & Hmp & Hfp & Hro).
    exists p, rp. split_and!; try done.
    rewrite (ev_other _ _ _ _ He); [done|]. intros ->. congruence.
  - intros p rp off Hp Hs Hoff. rewrite (ev_ram _ _ _ _ He).
    destruct (ev_pte p rp Hp) as [->|[_ Hp']]; [|by apply (vi_ro _ _ Hi)].
    simplify_eq. destruct Hn. by right.
  - intros p rp Hp. destruct (ev_pte p rp Hp) as [->|[_ Hp']]; [|by apply (vi_text _ _ Hi)].
    pose proof (vi_text _ _ Hi q r Hr) as Ht.
    destruct (ev_how _ _ _ _ He) as (r1 & r1' & Hr1 & Hr1' & Hc').
    rewrite Hr in Hr1. injection Hr1 as <-. rewrite Hp in Hr1'. injection Hr1' as <-.
    destruct Hc' as [(Hs & Hs' & _)|(n & Hs & Hs' & _)]; rewrite Hs, ?Hs' in *;
      destruct (is_text q); naive_solver.
  - by apply (ev_stats _ _ _ _ He).
Qed.

End eviction.

(** ** Choosing and emptying a victim *)

(** The projections of a state whose page tables alone changed. *)
Lemma pte_set_proj p r s :
  k_cm (pte_set p r s) = k_cm s ∧ k_ram (pte_set p r s) = k_ram s ∧
  k_swap (pte_set p r s) = k_swap s ∧ k_tlb (pte_set p r s) = k_tlb s ∧
  k_stats (pte_set p r s) = k_stats s ∧ k_ases (pte_set p r s) = k_ases s ∧
  k_procs (pte_set p r s) = k_procs s ∧ k_curproc (pte_set p r s) = k_curproc s ∧
  k_held (pte_set p r s) = k_held s ∧
  k_in_interrupt (pte_set p r s) = k_in_interrupt s.
Proof. destruct (pte_set_frame s p r) as [pt ->]. done. Qed.

Lemma victim_run s :
  cm_good s → (∀ f, 0 ≤ f < zlen (cmap s) → used_frame (cmap s) f) →
  ∃ v i, coremap_get_victim s = Ret v (set_victim_index i s) ∧
    0 ≤ i < zlen (cmap s) ∧ (v = -1 ∨ ∃ q, user_frame (cmap s) v q).
Proof.
  intros Hg Hall. unfold coremap_get_victim. krun.
  destruct (victim_scan_run (Z.to_nat (nRamFrames (k_cm s))) s Hg Hall)
    as (v & i & Hr & Hir & Hc).
  exists v, i. split; [done|]. split; [done|].
  destruct Hc as [[-> _]|(k & p & _ & _ & _ & Hu & _)]; [by left|right; eauto].
Qed.

(** The lock bit of a frame is set for the transfer and cleared after it. *)
Lemma lock_unlock cm v e :
  arr_get cm v = Some e → cm_lock e = 0 →
  arr_set (arr_set cm v (set_lock_bit 1 e)) v (set_lock_bit 0 (set_lock_bit 1 e)) = cm.
Proof.
  intros He Hl. rewrite arr_set_set. apply arr_set_id. rewrite He.
  destruct e; cbn in *. by subst.
Qed.

Lemma cm_good_victim s i : cm_good s → 0 ≤ i < zlen (cmap s) → cm_good (set_victim_index i s).
Proof. intros [] ?. by split. Qed.

(** The last steps of [coremap_swapout]: the entry of the victim's page is
    rewritten and its translation removed. *)
Lemma wp_unmap s s1 v q r si st n :
  vm_inv s → user_frame (cmap s) v q → pte_get s q = Some r →
  (∀ p, pte_get s1 p = pte_get s p) → cmap s1 = cmap s → cm_good s1 →
  k_ram s1 = k_ram s → k_tlb s1 = k_tlb s → length (k_stats s1) = 10%nat →
  k_held s1 = [cm_spinlock] → same_env s s1 → 0 ≤ si < SWAPFILE_NPAGES →
  ((pt_status r = IN_MEMORY_RDONLY ∧ st = NOT_LOADED ∧ k_swap s1 = k_swap s) ∨
   (pt_status r = IN_MEMORY ∧ st = IN_SWAP ∧
    alloc_post (swapmap (k_swap s)) (inr (si, swapmap (k_swap s1))) ∧
    VOP_WRITE (swapfile (k_swap s)) (si * PAGE_SIZE)
      (kmem_read (PADDR_TO_KVADDR (v * PAGE_SIZE)) PAGE_SIZE s)
    = inr (swapfile (k_swap s1), n))) →
  wp (pt_set_entry q 0 si st ;; tlb_remove_by_paddr (v * PAGE_SIZE) ;; mret v)
    (λ v s', ∃ q, evicted s s' v q ∧ k_held s' = [cm_spinlock] ∧ same_env s s')
    alloc_err s1.
Proof.
  intros Hi Hu Hr Hpt Hcm Hg Hram Htlb Hst Hh [] Hsi Hcase. rewrite npages_val in Hsi.
  assert (Hr1 : pte_get s1 q = Some r) by (by rewrite Hpt).
  unfold wp. rewrite (run_pt_set_entry q r) by (try done; lia).
  rewrite (wrap_small 12 si) by lia. set (r' := PtEntry _ si st).
  destruct (pte_set_proj q r' s1) as (Ec & Er & Es & Et & Est & Ea & Ep & Ecu & Eh & Ei).
  rewrite run_tlb_remove;
    [|by apply Z.mod_mul|rewrite Et, Htlb; apply (tw_len _ (vi_tlbwf _ _ Hi))].
  exists q. split; [split|split]; ksimpl;
    rewrite ?Ec, ?Er, ?Es, ?Et, ?Est, ?Eh, ?Hcm, ?Hram, ?Htlb; try done.
  - by destruct Hg; split; ksimpl; rewrite ?Ec.
  - intros p Hne. rewrite <- Hpt. exact (pte_get_set_ne s1 q p r' (not_eq_sym Hne)).
  - exists r, r'. split; [done|]. split; [exact (pte_get_set_eq s1 q r' r Hr1)|].
    destruct Hcase as [?|?]; [by left|right; by exists n].
  - split; ksimpl; rewrite ?Ea, ?Ep, ?Ecu, ?Ei, ?Ec; try done.
    intros p. change (is_Some (pte_get (pte_set q r' s1) p) ↔ is_Some (pte_get s p)).
    rewrite (pte_get_set s1 q p r' r Hr1), Hpt. case_decide; [subst; rewrite Hr|done].
    split; eauto.
Qed.

Lemma wp_swapout s :
  vm_inv s → k_held s = [cm_spinlock] →
  (∀ f, 0 ≤ f < zlen (cmap s) → used_frame (cmap s) f) →
  wp (coremap_swapout 1)
    (λ v s', ∃ q, evicted s s' v q ∧ k_held s' = [cm_spinlock] ∧ same_env s s')
    alloc_err s.
Proof.
  intros Hi Hh Hall. unfold coremap_swapout. cbn [Z.ltb Z.compare Pos.compare Pos.compare_cont].
  pose proof (vi_cm _ _ Hi) as Hg.
  destruct (victim_run s Hg Hall) as (v & i & Hv & Hir & Hc). apply wp_bind.
  eapply wp_eq; [exact Hv|]. destruct Hc as [->|[q Hu]]; [by left|].
  pose proof (frame_range _ _ Hi _ _ Hu) as Hvr.
  rewrite (proj2 (Z.eqb_neq v (-1))) by lia.
  pose proof Hu as (e & He & Hue & Hpe).
  destruct (vi_own _ _ Hi v q Hu ltac:(done)) as (r & Hr & Hm & Hf).
  unfold wp. krun. ksimpl. rewrite (run_index_bind _ _ e) by done.
  rewrite (run_deref _ _ q) by done. rewrite (run_pt_load q r) by done.
  case_bool_decide as Hro.
  - eapply (wp_unmap s _ v q r 0 NOT_LOADED 0); try done; [|apply Hi|by left].
    by apply cm_good_victim.
  - assert (Hst : pt_status r = IN_MEMORY) by (destruct Hm; congruence).
    destruct (ci_bits _ (cg_inv _ Hg) v e He) as (_ & Hlk & _).
    rewrite (run_cm_update v _ e) by done.
    rewrite (run_release _ _ _ []) by (ksimpl; first [done|set_solver]).
    apply wp_bind. apply wp_swap_out; ksimpl; try done;
      [apply (vi_map _ _ Hi)|set_solver|set_solver|apply (vi_stats _ _ Hi)
      |by apply Z.mod_mul| |by right; left|by right; right].
    intros si map' file' n Hpost Hw. unfold wp. rewrite run_acquire by (ksimpl; set_solver).
    rewrite (run_cm_update v _ (set_lock_bit 1 e))
      by (ksimpl; apply arr_get_set_eq; by eapply arr_get_range).
    krun. ksimpl. rewrite (lock_unlock (cmap s) v e) by done.
    rewrite (run_index_bind _ _ e) by done. rewrite (run_deref _ _ q) by done.
    eapply (wp_unmap s _ v q r si IN_SWAP n); ksimpl; try done.
    + by destruct Hg.
    + rewrite length_hit. apply (vi_stats _ _ Hi).
    + destruct (vi_map _ _ Hi) as [_ <-]. by apply Hpost.
    + right. by rewrite (kmem_read_ram _ _ _ s) in Hw.
Qed.

(** ** Giving frames to a new owner *)

(** The frames [b .. b + n - 1] may be handed out: they are free, or [b] is the
    frame of the page in transit. *)
Definition vacant (X : option ptptr) s (b n : Z) : Prop :=
  (X = None ∧ free_run (cmap s) b n) ∨
  (∃ q, X = Some q ∧ n = 1 ∧ user_frame (cmap s) b q).

(** The new owner: the kernel, or an entry whose page is not in memory. *)
Definition may_own s (n : Z) (o : option ptptr) : Prop :=
  match o with
  | None => True
  | Some p => n = 1 ∧ ∃ r, pte_get s p = Some r ∧ ¬ in_mem r
  end.

(** The state after the frames have been cleared and recorded. *)
Record placed s s' (b n : Z) (o : option ptptr) : Prop := {
  pl_cmap : ∀ f, arr_get (cmap s') f =
    if decide (b ≤ f < b + n) then Some (CmEntry 1 (if decide (f = b) then n else 0) 0 o)
    else arr_get (cmap s) f;
  pl_cm : zlen (cmap s') = zlen (cmap s) ∧ nRamFrames (k_cm s') = nRamFrames (k_cm s) ∧
    victim_index (k_cm s') = victim_index (k_cm s);
  pl_pt : k_ptabs s' = k_ptabs s;
  pl_swap : k_swap s' = k_swap s;
  pl_tlb : k_tlb s' = k_tlb s;
  pl_stats : k_stats s' = k_stats s;
  pl_ram : ∀ a, k_ram s' a =
    if decide (b * PAGE_SIZE ≤ a < (b + n) * PAGE_SIZE) then 0 else k_ram s a;
}.

Section placement.
Context (X : option ptptr) (s s' : kstate V) (b n : Z) (o : option ptptr).
Context (Hi : vm_inv_x X s) (Hp : placed s s' b n o).
Context (Hn : 1 ≤ n) (Hb : 0 ≤ b) (Hva : vacant X s b n) (Ho : may_own s n o).

Lemma pl_pte p : pte_get s' p = pte_get s p.
Proof. unfold pte_get. by rewrite (pl_pt _ _ _ _ _ Hp). Qed.

Lemma vacant_available : available (cmap s) b n.
Proof.
  destruct Hva as [[_ ?]|(q & _ & -> & (e & He & Hu & Hq))]; [by left|right].
  split; [done|]. exists e. split; [done|]. split; [done|]. split; [|lia].
  apply (ci_user _ (cg_inv _ (vi_cm _ _ Hi)) b e He Hu). by rewrite Hq.
Qed.

(** No page in memory is in the frames handed out. *)
Lemma vacant_not_mem p r :
  pte_get s p = Some r → in_mem r → ¬ b ≤ pt_frame_index r < b + n.
Proof.
  intros Hr Hm Hin. pose proof (vi_mem _ _ Hi p r Hr Hm) as Hu.
  destruct Hva as [[_ Hf]|(q & -> & -> & Hq)].
  - pose proof Hu as (e & He & Hue & _). apply (used_not_free (cmap s) (pt_frame_index r)).
    { by exists e. }
    replace (pt_frame_index r) with (b + (pt_frame_index r - b)) by lia. apply Hf. lia.
  - replace (pt_frame_index r) with b in Hu by lia.
    rewrite (user_frame_fun _ _ _ _ Hu Hq) in Hr.
    destruct (vi_pend _ _ Hi q eq_refl) as (r' & Hr' & Hn'). congruence.
Qed.

Lemma placed_user f p :
  user_frame (cmap s') f p ↔
  (b ≤ f < b + n ∧ o = Some p) ∨ (¬ b ≤ f < b + n ∧ user_frame (cmap s) f p).
Proof.
  unfold user_frame. rewrite (pl_cmap _ _ _ _ _ Hp). case_decide; naive_solver.
Qed.

Lemma placed_ram r off :
  ¬ b ≤ pt_frame_index r < b + n → 0 ≤ off < PAGE_SIZE →
  k_ram s' (pt_frame_index r * PAGE_SIZE + off) = k_ram s (pt_frame_index r * PAGE_SIZE + off).
Proof.
  intros Hf Hoff. rewrite (pl_ram _ _ _ _ _ Hp), decide_False; [done|].
  unfold PAGE_SIZE in *. lia.
Qed.

Lemma placed_content : same_content s s'.
Proof.
  intros p off Hoff. unfold content. rewrite pl_pte, (pl_swap _ _ _ _ _ Hp).
  destruct (pte_get s p) as [r|] eqn:Hr; [|done].
  assert (in_mem r → ¬ b ≤ pt_frame_index r < b + n) by (by apply (vacant_not_mem p)).
  destruct (pt_status r) eqn:Hs; try done; apply placed_ram; try done;
    apply H0; [left|right]; done.
Qed.

Lemma placed_good : cm_good s'.
Proof.
  destruct (vi_cm _ _ Hi) as [Hinv Hlen Hsz Hvic], (pl_cm _ _ _ _ _ Hp) as (Hz & Hr & Hv).
  split; rewrite ?Hz, ?Hr, ?Hv; try done.
  eapply (alloc_inv (cmap s) Hinv); [exact Hn|exact Hb|apply vacant_available| |apply Hp].
  destruct o as [p|]; [|by intros [? ?]]. intros _. by destruct Ho.
Qed.

(** Frame 0, which the kernel occupies, is never handed out. *)
Lemma vacant_pos : 0 < b.
Proof.
  destruct (decide (b = 0)) as [Hb0|]; [exfalso|lia].
  destruct Hva as [[_ Hf]|(q & _ & _ & Hq)].
  - apply (used_not_free (cmap s) 0); [by apply (vi_used0 _ _ Hi)|].
    replace 0 with (b + 0) by lia. apply Hf. lia.
  - rewrite Hb0 in Hq. by apply (vi_kern0 _ _ Hi q).
Qed.

Lemma placed_own_pend p r f :
  o = Some p → pte_get s p = Some r → ¬ in_mem r → user_frame (cmap s) f p → f = b.
Proof.
  intros -> Hr Hnm Hu. destruct (decide (X = Some p)) as [HX|HX].
  - destruct Hva as [[HN _]|(q & Hq & -> & Hqf)]; [congruence|].
    assert (q = p) as -> by congruence. by eapply (vi_pend1 _ _ Hi).
  - destruct (vi_own _ _ Hi f p Hu HX) as (r1 & Hr1 & Hm & _). congruence.
Qed.

Lemma placed_inv : vm_inv_x o s'.
Proof.
  pose proof vacant_pos as Hpos.
  split.
  - apply placed_good.
  - intros p. rewrite placed_user. intros [[? _]|[_ Hu]]; [lia|by apply (vi_kern0 _ _ Hi p)].
  - destruct (vi_used0 _ _ Hi) as (e & He & Hu). exists e.
    by rewrite (pl_cmap _ _ _ _ _ Hp), decide_False by lia.
  - intros f p Hu Ho'. rewrite pl_pte. apply placed_user in Hu as [[_ ?]|[Hout Hu]]; [congruence|].
    apply (vi_own _ _ Hi); [done|]. intros HX.
    destruct Hva as [[? _]|(q & HXq & -> & Hq)]; [congruence|].
    assert (q = p) as -> by congruence.
    assert (f = b) by (by eapply (vi_pend1 _ _ Hi)). lia.
  - intros p r. rewrite pl_pte. intros Hr Hm. apply placed_user. right.
    split; [by eapply vacant_not_mem|by apply (vi_mem _ _ Hi)].
  - intros p Hop. rewrite pl_pte. rewrite Hop in Ho. by destruct Ho.
  - intros p f f' Hop. rewrite !placed_user.
    assert (Hr : n = 1 ∧ ∃ r, pte_get s p = Some r ∧ ¬ in_mem r) by (by rewrite Hop in Ho).
    destruct Hr as (Hn1 & r & Hr & Hnm).
    intros [[? _]|[? Hu]] [[? _]|[? Hu']]; try lia;
      try (pose proof (placed_own_pend p r f Hop Hr Hnm Hu); lia);
      pose proof (placed_own_pend p r f' Hop Hr Hnm Hu'); lia.
  - unfold swap_wf. rewrite (pl_swap _ _ _ _ _ Hp). apply Hi.
  - intros p r. rewrite pl_pte. unfold swap_used. rewrite (pl_swap _ _ _ _ _ Hp). apply Hi.
  - intros p q r r'. rewrite !pl_pte. apply Hi.
  - intros i. unfold swap_used. rewrite (pl_swap _ _ _ _ _ Hp). setoid_rewrite pl_pte. apply Hi.
  - rewrite (pl_tlb _ _ _ _ _ Hp). apply Hi.
  - rewrite (pl_tlb _ _ _ _ _ Hp). setoid_rewrite pl_pte. apply Hi.
  - intros p r off. rewrite pl_pte. intros Hr Hs Hoff.
    rewrite placed_ram; [by apply (vi_ro _ _ Hi)| |done].
    eapply vacant_not_mem; [done|by right].
  - intros p r. rewrite pl_pte. apply (vi_text _ _ Hi).
  - rewrite (pl_stats _ _ _ _ _ Hp). apply Hi.
Qed.

End placement.

(** ** [coremap_getppages] *)

(** The last part of [coremap_getppages]: clear the frames, record the
    allocation, release the lock. *)
Lemma run_place X s b n o :
  vm_inv_x X s → k_held s = [cm_spinlock] → 1 ≤ n → 0 ≤ b → vacant X s b n →
  ∃ s', (modify (kmem_zero (PADDR_TO_KVADDR (b * PAGE_SIZE)) (PAGE_SIZE * n)) ;;
         cm_update b (set_size n) ;;
         for_each (seqZ 0 n) (λ i, cm_update (b + i) (set_owner o)) ;;
         spinlock_release cm_spinlock ;;
         mret (b * PAGE_SIZE)) s = Ret (b * PAGE_SIZE) s' ∧
    placed s s' b n o ∧ k_held s' = [] ∧ same_env s s' ∧ b + n ≤ zlen (cmap s).
Proof.
  intros Hi Hh Hn Hb Hva. pose proof (vi_cm _ _ Hi) as [Hinv Hlen Hsz Hvic].
  assert (Hent : ∀ k, 0 ≤ k < n → ∃ e, arr_get (cmap s) (b + k) = Some e ∧
    cm_lock e = 0 ∧ (k = 0 ∨ cm_size_alloc e = 0)).
  { intros k Hk. destruct Hva as [[_ Hf]|(q & _ & -> & (e & He & _))].
    - destruct (Hf k Hk) as (e & He & Hfe). exists e.
      split_and!; [done|by apply (ci_bits _ Hinv _ _ He)|right; by eapply ci_free].
    - replace k with 0 by lia. rewrite Z.add_0_r. exists e.
      split_and!; [done|by apply (ci_bits _ Hinv _ _ He)|by left]. }
  assert (Hbn : b + n ≤ zlen (cmap s)).
  { destruct (Hent (n - 1)) as (e & He%arr_get_range & _); lia. }
  destruct (Hent 0 ltac:(lia)) as (e0 & He0 & Hl0 & _). rewrite Z.add_0_r in He0.
  rewrite run_modify, (run_cm_update b _ e0) by done. ksimpl.
  match goal with |- context [mbind _ (for_each _ _) ?x] => set (s1 := x) end.
  assert (Hg1 : ∀ f, arr_get (cmap s1) f =
    if decide (b = f) then Some (set_size n e0) else arr_get (cmap s) f).
  { intros f. apply arr_get_set. lia. }
  destruct (update_loop (λ _, True) (set_owner o) (λ i, cm_update (b + i) (set_owner o)) b n s1)
    as (cm' & Hrun & Hlen' & Hget'); [lia|lia| | |].
  { intros i e s' He _. by apply cm_update_run. }
  { intros k Hk. rewrite Hg1. case_decide; [by eexists|]. destruct (Hent k Hk) as (e & He & _). eauto. }
  rewrite run_bind, Hrun, (run_release _ _ _ []) by (first [done|set_solver]).
  eexists. split; [reflexivity|].
  assert (Hz : length cm' = length (cmap s)).
  { rewrite Hlen'. apply length_arr_set. }
  split; [split|split; [done|split; [|done]]]; ksimpl; try done.
  - intros f. rewrite Hget'. case_decide as Hf; [|by rewrite Hg1, decide_False by lia].
    rewrite Hg1. destruct (Hent (f - b)) as (e & He & Hle & Hse); [lia|].
    replace (b + (f - b)) with f in He by lia.
    destruct (decide (b = f)) as [<-|]; cbn.
    + rewrite decide_True by done. unfold set_owner. cbn. rewrite wrap_small, Hl0 by lia. done.
    + rewrite decide_False, He by done. cbn. unfold set_owner. rewrite Hle.
      destruct Hse as [?|Hse]; [lia|by rewrite Hse].
  - by rewrite Hz.
  - intros a. cbn. rewrite kvaddr_roundtrip by (unfold PAGE_SIZE; lia).
    unfold PAGE_SIZE. repeat case_decide; lia.
  - split; ksimpl; try done. by rewrite Hz.
Qed.

(** What an allocation of [n] frames for [o] establishes. *)
Record allocated s s' (b n : Z) (o : option ptptr) : Prop := {
  al_range : 0 < b ∧ b + n ≤ zlen (cmap s');
  al_inv : vm_inv_x o s';
  al_frames : ∀ f, b ≤ f < b + n →
    arr_get (cmap s') f = Some (CmEntry 1 (if decide (f = b) then n else 0) 0 o);
  al_zero : ∀ a, b * PAGE_SIZE ≤ a < (b + n) * PAGE_SIZE → k_ram s' a = 0;
  al_pte : ∀ p, o = Some p → pte_get s' p = pte_get s p;
  al_tlb : ∀ va f ro, tlb_maps (k_tlb s') va f ro → tlb_maps (k_tlb s) va f ro;
  al_content : same_content s s';
  al_env : same_env s s';
  al_held : k_held s' = [];
}.

Definition getppages_err (n : Z) (w : string) : Prop :=
  alloc_err w ∨ (1 < n ∧ w = "Cannot swap out multiple pages").

Lemma placed_allocated X s s1 s' b n o :
  vm_inv_x X s1 → 1 ≤ n → 0 ≤ b → vacant X s1 b n → may_own s1 n o →
  (∀ p, o = Some p → pte_get s1 p = pte_get s p) →
  (∀ va f ro, tlb_maps (k_tlb s1) va f ro → tlb_maps (k_tlb s) va f ro) →
  same_content s s1 → same_env s s1 →
  placed s1 s' b n o → k_held s' = [] → same_env s1 s' → b + n ≤ zlen (cmap s1) →
  allocated s s' b n o.
Proof.
  intros Hi Hn Hb Hva Ho Hpte Htl Hc He Hp Hh He' Hbn.
  assert (Hpos : 0 < b) by (by eapply vacant_pos).
  split; [|by eapply placed_inv| | | | | | |done].
  - destruct (pl_cm _ _ _ _ _ Hp) as (-> & _). lia.
  - intros f Hf. by rewrite (pl_cmap _ _ _ _ _ Hp), decide_True.
  - intros a Ha. by rewrite (pl_ram _ _ _ _ _ Hp), decide_True.
  - intros p Hop. rewrite <- Hpte by done. by eapply pl_pte.
  - intros va f ro. rewrite (pl_tlb _ _ _ _ _ Hp). apply Htl.
  - etrans; [done|]. by eapply placed_content.
  - by etrans.
Qed.

Lemma set_held_inv X s h : vm_inv_x X s → vm_inv_x X (set_held h s).
Proof. intros [[]]. by split; [split|..]. Qed.

Lemma no_free_frame s :
  cm_good s → (∀ b, 0 ≤ b → ¬ free_run (cmap s) b 1) →
  ∀ f, 0 ≤ f < zlen (cmap s) → used_frame (cmap s) f.
Proof.
  intros Hg Hno f Hf. destruct (frame_cases _ (cg_inv _ Hg) f Hf) as [|Hfr]; [done|].
  destruct (Hno f); [lia|]. intros k Hk. by replace (f + k) with f by lia.
Qed.

Lemma wp_getppages s n o :
  vm_inv s → k_held s = [] → 1 ≤ n → may_own s n o →
  wp (coremap_getppages n o) (λ pa s', ∃ b, pa = b * PAGE_SIZE ∧ allocated s s' b n o)
    (getppages_err n) s.
Proof.
  intros Hi Hh Hn Ho. unfold coremap_getppages.
  eapply wp_run; [rewrite run_acquire by (rewrite Hh; set_solver); reflexivity|].
  rewrite Hh. set (s0 := set_held [cm_spinlock] s).
  assert (Hi0 : vm_inv s0) by (by apply set_held_inv).
  destruct (find_run n s0 (vi_cm _ _ Hi0) Hn) as (r & Hr & Hc).
  apply wp_bind. eapply wp_eq; [exact Hr|].
  destruct Hc as [[-> Hno]|(Hr0 & Hfr & _)].
  - destruct (decide (n = 1)) as [->|].
    + apply wp_bind. eapply wp_mono; [|by left|apply wp_swapout; [done|done|]].
      * intros v s1 (q & Hev & Hh1 & He1).
        assert (Hi1 : vm_inv_x (Some q) s1) by (by eapply evicted_inv).
        assert (Hpte : ∀ p, o = Some p → pte_get s1 p = pte_get s p).
        { intros p Hop. rewrite (ev_other _ _ _ _ Hev); [done|]. intros ->. rewrite Hop in Ho.
          destruct Ho as (_ & r & Hrq & Hnm).
          destruct (ev_entry s0 s1 v q Hi0 Hev) as (r1 & _ & Hr1 & Hm & _).
          change (pte_get s q = Some r1) in Hr1. congruence. }
        assert (Hvf : user_frame (cmap s1) v q).
        { rewrite (ev_cmap _ _ _ _ Hev). apply Hev. }
        pose proof (frame_range _ _ Hi1 _ _ Hvf).
        rewrite (proj2 (Z.eqb_neq v (-1))) by lia.
        destruct (run_place (Some q) s1 v 1 o Hi1 Hh1) as (s2 & Hrun & Hpl & Hh2 & He2 & Hbn);
          [lia|lia|right; eauto|].
        eapply wp_eq; [exact Hrun|]. exists v. split; [done|].
        eapply (placed_allocated (Some q) s s1); try done; try lia; [right; eauto| | | |by destruct He1].
        { destruct o as [p|]; [|done]. destruct Ho as [? Ho]. split; [done|]. by rewrite Hpte. }
        { intros va f ro Hm. by eapply (evicted_tlb s0) in Hm as [? _]. }
        { by eapply (evicted_content s0). }
      * by apply no_free_frame; [apply Hi0|].
    + apply wp_bind. unfold coremap_swapout. rewrite (proj2 (Z.ltb_lt 1 n)) by lia.
      right. split; [lia|done].
  - rewrite (proj2 (Z.eqb_neq r (-1))) by lia. apply wp_bind, wp_ret.
    rewrite (proj2 (Z.eqb_neq r (-1))) by lia.
    destruct (run_place None s0 r n o Hi0 eq_refl) as (s2 & Hrun & Hpl & Hh2 & He2 & Hbn);
      [done|done|by left|].
    eapply wp_eq; [exact Hrun|]. exists r. split; [done|].
    eapply (placed_allocated None s s0); try done. by left.
Qed.

(** ** Installing a page

    The state after the page of entry [p], in transit with frame [b], has been
    brought in: the frame holds the contents of the page, the entry says so,
    and the page's place in the swap file is given back. *)
Record installed s s' (p : ptptr) (b : Z) (r' : pt_entry) : Prop := {
  in_cmap : k_cm s' = k_cm s;
  in_frame : pt_frame_index r' = b;
  in_status : pt_status r' = if is_text p then IN_MEMORY_RDONLY else IN_MEMORY;
  in_self : pte_get s' p = Some r';
  in_other : ∀ q, q ≠ p → pte_get s' q = pte_get s q;
  in_tlb : k_tlb s' = k_tlb s;
  in_stats : length (k_stats s') = 10%nat;
  in_file : swapfile (k_swap s') = swapfile (k_swap s);
  in_swapwf : swap_wf s';
  in_swap : ∀ i, i ∈ swap_used s' ↔ i ∈ swap_used s ∧
    ¬ ∃ r, pte_get s p = Some r ∧ pt_status r = IN_SWAP ∧ pt_swap_index r = i;
  in_ram_other : ∀ a, ¬ b * PAGE_SIZE ≤ a < (b + 1) * PAGE_SIZE → k_ram s' a = k_ram s a;
  in_ram : ∀ off, 0 ≤ off < PAGE_SIZE → k_ram s' (b * PAGE_SIZE + off) = content s p off;
}.

Section installation.
Context (s s' : kstate V) (p : ptptr) (b : Z) (r' : pt_entry).
Context (Hi : vm_inv_x (Some p) s) (Hb : user_frame (cmap s) b p) (Hin : installed s s' p b r').

Lemma in_in_mem : in_mem r'.
Proof. unfold in_mem. rewrite (in_status _ _ _ _ _ Hin). destruct (is_text p); auto. Qed.

(** The frames of the other pages in memory are different from [b]. *)
Lemma other_frame q r :
  q ≠ p → pte_get s q = Some r → in_mem r → pt_frame_index r ≠ b.
Proof.
  intros Hne Hq Hm Hf. apply Hne. apply (user_frame_fun (cmap s) b); [|done].
  rewrite <- Hf. by apply (vi_mem _ _ Hi).
Qed.

Lemma other_ram r off :
  pt_frame_index r ≠ b → 0 ≤ off < PAGE_SIZE →
  k_ram s' (pt_frame_index r * PAGE_SIZE + off) = k_ram s (pt_frame_index r * PAGE_SIZE + off).
Proof.
  intros Hne Hoff. apply (in_ram_other _ _ _ _ _ Hin). unfold PAGE_SIZE in *. lia.
Qed.

Lemma installed_content : same_content s s'.
Proof.
  intros q off Hoff. destruct (decide (q = p)) as [->|Hne].
  - rewrite <- (in_ram _ _ _ _ _ Hin off Hoff). unfold content.
    rewrite (in_self _ _ _ _ _ Hin), (in_status _ _ _ _ _ Hin), (in_frame _ _ _ _ _ Hin).
    by destruct (is_text p).
  - unfold content. rewrite (in_other _ _ _ _ _ Hin) by done.
    destruct (pte_get s q) as [r|] eqn:Hq; [|done].
    rewrite (in_file _ _ _ _ _ Hin). destruct (pt_status r) eqn:Hs; try done;
      apply other_ram; try done; (eapply other_frame; [done..|]); [left|right]; done.
Qed.

Lemma in_pte q r : pte_get s' q = Some r → (q = p ∧ r = r') ∨ (q ≠ p ∧ pte_get s q = Some r).
Proof.
  intros Hq. destruct (decide (q = p)) as [->|Hne].
  - left. rewrite (in_self _ _ _ _ _ Hin) in Hq. naive_solver.
  - right. by rewrite <- (in_other _ _ _ _ _ Hin).
Qed.

Lemma installed_not_swap r : r = r' → pt_status r ≠ IN_SWAP.
Proof. intros ->. rewrite (in_status _ _ _ _ _ Hin). by destruct (is_text p). Qed.

(** A text page comes from the executable, never from the swap file. *)
Lemma installed_ro off :
  is_text p = true → 0 ≤ off < PAGE_SIZE → k_ram s' (b * PAGE_SIZE + off) = elf0 p off.
Proof.
  intros Ht Hoff. rewrite (in_ram _ _ _ _ _ Hin) by done. unfold content.
  destruct (vi_pend _ _ Hi p eq_refl) as (r & Hr & Hnm). rewrite Hr.
  pose proof (vi_text _ _ Hi p r Hr) as Hs. rewrite Ht in Hs.
  destruct Hs as [->|Hs]; [done|]. destruct Hnm. by right.
Qed.

Lemma installed_inv : vm_inv s'.
Proof.
  pose proof in_in_mem as Hmem. pose proof (in_cmap _ _ _ _ _ Hin) as Hc.
  split; rewrite ?Hc; try by apply Hi.
  - destruct (vi_cm _ _ Hi). by split; rewrite ?Hc.
  - intros f q Hu _. destruct (decide (q = p)) as [->|Hne].
    + exists r'. split_and!; [apply Hin|done|]. rewrite (in_frame _ _ _ _ _ Hin).
      by eapply (vi_pend1 _ _ Hi).
    + rewrite (in_other _ _ _ _ _ Hin) by done. apply (vi_own _ _ Hi); congruence.
  - intros q r [[-> ->]|[Hne Hq]]%in_pte Hm.
    + by rewrite (in_frame _ _ _ _ _ Hin).
    + by apply (vi_mem _ _ Hi).
  - done.
  - done.
  - apply Hin.
  - intros q r Hq Hs. destruct (in_pte q r Hq) as [[-> ->]|[Hne Hq']].
    { by destruct (installed_not_swap r'). }
    apply (in_swap _ _ _ _ _ Hin). split; [by eapply (vi_swap _ _ Hi)|].
    intros (rp & Hp & Hsp & He). apply Hne. by eapply (vi_swap_inj _ _ Hi).
  - intros q1 q2 r1 r2 H1 H2 Hs1 Hs2 He.
    destruct (in_pte _ _ H1) as [[-> ?]|[_ H1']]; [by destruct (installed_not_swap r1)|].
    destruct (in_pte _ _ H2) as [[-> ?]|[_ H2']]; [by destruct (installed_not_swap r2)|].
    by eapply (vi_swap_inj _ _ Hi).
  - intros i [Hu Hno]%(in_swap _ _ _ _ _ Hin).
    destruct (vi_swap_used _ _ Hi i Hu) as (q & r & Hq & Hs & He). exists q, r.
    split_and!; try done. rewrite (in_other _ _ _ _ _ Hin); [done|]. intros ->. apply Hno. eauto.
  - rewrite (in_tlb _ _ _ _ _ Hin). apply Hi.
  - intros va f ro. rewrite (in_tlb _ _ _ _ _ Hin). intros Hm.
    destruct (vi_tlb _ _ Hi va f ro Hm) as (q & r & Hq & Hr & Hmr & Hf & Hro).
    exists q, r. split_and!; try done. rewrite (in_other _ _ _ _ _ Hin); [done|]. intros ->.
    destruct (vi_pend _ _ Hi p eq_refl) as (r1 & Hr1 & Hn1). congruence.
  - intros q r off [[-> ->]|[Hne Hq]]%in_pte Hs Hoff.
    + rewrite (in_frame _ _ _ _ _ Hin). apply installed_ro; [|done].
      rewrite (in_status _ _ _ _ _ Hin) in Hs. by destruct (is_text p).
    + rewrite other_ram; [by apply (vi_ro _ _ Hi)| |done].
      eapply other_frame; [done..|]. by right.
  - intros q r [[-> ->]|[Hne Hq]]%in_pte; [|by apply (vi_text _ _ Hi)].
    rewrite (in_status _ _ _ _ _ Hin). destruct (is_text p); auto.
  - apply Hin.
Qed.

End installation.

(** Recording a translation of a page in memory that the TLB does not hold. *)
Lemma vm_inv_insert s va p r st :
  vm_inv s → 0 ≤ va < MIPS_KSEG0 → va mod PAGE_SIZE = 0 →
  pmap va = Some p → pte_get s p = Some r → in_mem r →
  (∀ f ro, ¬ tlb_maps (k_tlb s) va f ro) → length st = 10%nat →
  vm_inv (set_tlb (tlb_inserted va (pt_frame_index r * PAGE_SIZE) (is_text p) (k_tlb s))
           (set_stats st s)).
Proof.
  intros Hi Hva Hal Hp Hr Hm Hmiss Hst.
  assert (Hf := frame_range _ _ Hi _ _ (vi_mem _ _ Hi p r Hr Hm)).
  destruct Hi as [Hcm]. split; try done.
  - by destruct Hcm.
  - apply tlb_wf_inserted; try done; lia.
  - intros va' f' ro' Hmap. ksimpl in Hmap.
    apply tlb_maps_inserted_inv in Hmap as [[= -> -> ->]|Hmap]; [| |done].
    + exists p, r. split_and!; try done. specialize (vi_text0 p r Hr).
      destruct (is_text p); [|naive_solver].
      split; [|done]. intros _. destruct vi_text0 as [Hs|]; [|done].
      destruct Hm; congruence.
    + by apply vi_tlb0.
Qed.

End inv.
