(* ===== verification/Vm.v ===== *)
(** * Vm: kern/vm/vm.c with the parts of kern/vm/addrspace.c, kern/vm/pt.c,
    kern/syscall/loadelf.c, kern/syscall/proc_syscall.c and kern/proc/proc.c it
    works with

    [vm_fault] resolves a TLB miss: it finds the page-table entry of the
    address, brings the page into a frame if it is not in one, and installs the
    translation.  Address spaces are created, filled in and destroyed here. *)

From stdpp Require Import base gmap list strings fin_maps.
From Stdlib Require Import ZArith Lia.
From S2P Require Import Prelude Types Bitmap Machine Vmstats Tlb Swapfile Segment Pagetable Coremap.
Set Default Goal Selector "!".
Open Scope Z_scope.

Definition VM_FAULT_READ : Z := 0.
Definition VM_FAULT_WRITE : Z := 1.
Definition VM_FAULT_READONLY : Z := 2.
Definition VM_STACKPAGES : Z := 18.

Section vm.
Context {V : Type} `{VnodeOps V}.

(** ** kern/vm/vm.c: page allocation *)

Definition vm_can_sleep : K (kstate V) unit :=
  held ← gets k_held;
  intr ← gets k_in_interrupt;
  KASSERT (zlen held =? 0) "curcpu->c_spinlocks == 0" ;;
  KASSERT (negb intr) "curthread->t_in_interrupt == 0".

Definition getppages (npages : Z) (ptentry : option ptptr) : K (kstate V) Z :=
  addr ← coremap_getppages npages ptentry;
  if addr =? 0 then panic "Out of memory" else mret addr.

Definition freeppages (addr : Z) : K (kstate V) unit := coremap_freeppages addr.

Definition alloc_kpages (npages : Z) : K (kstate V) Z :=
  vm_can_sleep ;;
  pa ← getppages npages None;
  mret (PADDR_TO_KVADDR pa).

Definition free_kpages (addr : Z) : K (kstate V) unit :=
  freeppages (KVADDR_TO_PADDR addr).

Definition alloc_upage (pt_row : ptptr) : K (kstate V) Z :=
  vm_can_sleep ;;
  getppages 1 (Some pt_row).

Definition free_upage (addr : Z) : K (kstate V) unit := freeppages addr.

Definition vm_tlbshootdown : K (kstate V) unit := panic "vm tried to do tlb shootdown?!".

Definition vm_bootstrap (opened : Z + V) (b_mem v_mem : bool) : K (kstate V) unit :=
  swap_bootstrap opened b_mem v_mem.

(** ** kern/vm/pt.c: releasing the pages of a table *)

Definition pt_empty (pt size : Z) : K (kstate V) unit :=
  for_each (seqZ 0 size) (λ i,
    r ← pt_load (pt, i);
    match pt_status r with
    | IN_MEMORY_RDONLY | IN_MEMORY => free_upage (u32 (pt_frame_index r * PAGE_SIZE))
    | IN_SWAP => swap_free (pt_swap_index r)
    | NOT_LOADED => mret tt
    end).

(** ** kern/vm/addrspace.c *)

Definition as_create : K (kstate V) (option Z) :=
  p ← kmalloc;
  match p with
  | None => mret None
  | Some a =>
      modify (λ s, set_ases (<[a := Addrspace None None None None]> (k_ases s)) s) ;;
      mret (Some a)
  end.

Definition as_copy : K (kstate V) Z := panic "as_copy() still not implemented!".

(** Segments are part of the address-space record, so freeing them and the
    record is one step. *)
Definition as_destroy (a : Z) : K (kstate V) unit :=
  as_ ← as_load a;
  data ← deref (as_data as_);
  text ← deref (as_text as_);
  stack ← deref (as_stack as_);
  let pt_size := u32 (u32 (seg_npages data + seg_npages text) + seg_npages stack) in
  pt ← deref (as_ptable as_);
  pt_empty pt pt_size ;;
  pt_destroy pt ;;
  modify (λ s, set_ases (delete a (k_ases s)) s).

Definition as_deactivate : K (kstate V) unit := mret tt.

(** Stores one field of an address space. *)
Definition as_store (a : Z) (as_ : addrspace) : K (kstate V) unit :=
  modify (λ s, set_ases (<[a := as_]> (k_ases s)) s).

Definition as_define_region (a first_vaddr memsize elf_offset elfsize : Z)
  : K (kstate V) Z :=
  let last_vaddr := u32 (first_vaddr + memsize) in
  KASSERT (negb (memsize =? 0)) "memsize != 0" ;;
  let memsize := u32 (memsize + Z.land first_vaddr 0xfff) in
  let npages := DIVROUNDUP memsize PAGE_SIZE in
  let base_vaddr := Z.land first_vaddr PAGE_FRAME in
  as_ ← as_load a;
  match as_text as_ with
  | None =>
      seg ← segment_create;
      seg' ← segment_define seg elf_offset base_vaddr first_vaddr last_vaddr npages elfsize;
      as_store a (Addrspace (Some seg') (as_data as_) (as_stack as_) (as_ptable as_)) ;;
      mret 0
  | Some _ =>
      match as_data as_ with
      | None =>
          seg ← segment_create;
          seg' ← segment_define seg elf_offset base_vaddr first_vaddr last_vaddr npages elfsize;
          as_store a (Addrspace (as_text as_) (Some seg') (as_stack as_) (as_ptable as_)) ;;
          mret 0
      | Some _ => panic "vm: Warning: too many regions"
      end
  end.

(** Returns the initial stack pointer with the result 0. *)
Definition as_define_stack (a : Z) : K (kstate V) (Z * Z) :=
  seg ← segment_create;
  let base := USERSTACK - VM_STACKPAGES * PAGE_SIZE in
  seg' ← segment_define seg 0 base base USERSTACK VM_STACKPAGES 0;
  as_ ← as_load a;
  as_store a (Addrspace (as_text as_) (as_data as_) (Some seg') (as_ptable as_)) ;;
  mret (USERSTACK, 0).

Definition as_define_pt (a : Z) : K (kstate V) Z :=
  as_ ← as_load a;
  data ← deref (as_data as_);
  text ← deref (as_text as_);
  stack ← deref (as_stack as_);
  let npages := u32 (u32 (seg_npages data + seg_npages text) + seg_npages stack) in
  pt ← pt_create npages;
  as_store a (Addrspace (as_text as_) (as_data as_) (as_stack as_) pt) ;;
  mret 0.

Definition as_get_segment (a vaddr : Z) : K (kstate V) segment :=
  ty ← as_get_segment_type a vaddr;
  as_ ← as_load a;
  if ty =? SEGMENT_TEXT then deref (as_text as_)
  else if ty =? SEGMENT_DATA then deref (as_data as_)
  else if ty =? SEGMENT_STACK then deref (as_stack as_)
  else panic "invalid segment type! (as_get_segment)".

Definition as_check_in_elf (a vaddr : Z) : K (kstate V) bool :=
  seg ← as_get_segment a vaddr;
  KASSERT (seg_first_vaddr seg <=? vaddr) "vaddr >= seg->seg_first_vaddr" ;;
  KASSERT (vaddr <? seg_last_vaddr seg) "vaddr < seg->seg_last_vaddr" ;;
  mret (vaddr <? ROUNDUP (u32 (seg_first_vaddr seg + seg_elf_size seg)) PAGE_SIZE).

(** kern/syscall/loadelf.c *)
Definition load_page (v : V) (offset page_paddr size : Z) : K (kstate V) unit :=
  match VOP_READ v offset size with
  | inl _ => panic "Error loading page"
  | inr bs =>
      modify (kmem_write (PADDR_TO_KVADDR page_paddr) bs) ;;
      if negb (size - zlen bs =? 0)
      then panic "ELF: short read on segment - file truncated?"
      else mret tt
  end.

(** The part of the executable to read for the page of [faultaddress]: file
    offset, physical address and size.  The three cases are the first page of
    the segment, the last page with bytes of the file, and a page between. *)
Definition load_args (seg : segment) (frame faultaddress : Z) : Z * Z * Z :=
  let first := seg_first_vaddr seg in
  if Z.land first PAGE_FRAME =? Z.land faultaddress PAGE_FRAME then
    let room := PAGE_SIZE - Z.land first 0xfff in
    (seg_elf_offset seg,
     u32 (frame * PAGE_SIZE + Z.land first 0xfff),
     if seg_elf_size seg <? room then seg_elf_size seg else room)
  else if Z.land (u32 (first + seg_elf_size seg)) PAGE_FRAME =?
          Z.land faultaddress PAGE_FRAME then
    (seg_elf_offset seg + Z.land faultaddress PAGE_FRAME - first,
     u32 (frame * PAGE_SIZE),
     Z.land (u32 (first + seg_elf_size seg)) 0xfff)
  else
    (seg_elf_offset seg + Z.land faultaddress PAGE_FRAME - first,
     u32 (frame * PAGE_SIZE),
     PAGE_SIZE).

Definition as_load_page (a : Z) (vnode : V) (faultaddress : Z) : K (kstate V) Z :=
  vmstats_hit VMSTAT_PAGE_FAULT_DISK ;;
  vmstats_hit VMSTAT_PAGE_FAULT_ELF ;;
  p ← pt_get_entry a faultaddress;
  r ← pt_load p;
  seg ← as_get_segment a faultaddress;
  KASSERT (faultaddress <?
           ROUNDUP (u32 (seg_first_vaddr seg + seg_elf_size seg)) PAGE_SIZE)
    "faultaddress < ROUNDUP(...)" ;;
  KASSERT (Z.land (seg_first_vaddr seg) PAGE_FRAME <=? faultaddress)
    "faultaddress >= (seg_first_vaddr & PAGE_FRAME)" ;;
  let '(offset, target_addr, size) := load_args seg (pt_frame_index r) faultaddress in
  load_page vnode offset target_addr size ;;
  mret 0.

(** ** kern/proc/proc.c *)

(** The process table entry of [curproc], which is not null. *)
Definition proc_load (pid : Z) : K (kstate V) (proc V) :=
  m ← gets k_procs;
  deref (m !! pid).

Definition proc_getas : K (kstate V) (option Z) :=
  cur ← gets k_curproc;
  match cur with
  | None => mret None
  | Some pid =>
      spinlock_acquire (p_lock pid) ;;
      p ← proc_load pid;
      spinlock_release (p_lock pid) ;;
      mret (p_addrspace p)
  end.

Definition proc_setas (newas : option Z) : K (kstate V) (option Z) :=
  cur ← gets k_curproc;
  pid ← deref cur;
  spinlock_acquire (p_lock pid) ;;
  p ← proc_load pid;
  modify (λ s, set_procs (<[pid := Proc (p_numthreads p) newas (p_vnode p)
                                      (p_status p) (p_sem p)]> (k_procs s)) s) ;;
  spinlock_release (p_lock pid) ;;
  mret (p_addrspace p).

(** The current thread leaves its process; there is no [curproc] afterwards. *)
Definition proc_remthread : K (kstate V) unit :=
  cur ← gets k_curproc;
  pid ← deref cur;
  spinlock_acquire (p_lock pid) ;;
  p ← proc_load pid;
  KASSERT (0 <? p_numthreads p) "proc->p_numthreads > 0" ;;
  modify (λ s, set_procs (<[pid := Proc (p_numthreads p - 1) (p_addrspace p)
                                     (p_vnode p) (p_status p) (p_sem p)]> (k_procs s)) s) ;;
  spinlock_release (p_lock pid) ;;
  modify (set_curproc None).

Definition as_activate : K (kstate V) unit :=
  a ← proc_getas;
  match a with
  | None => mret tt
  | Some _ => tlb_invalidate
  end.

(** [thread_exit] (kern/thread/thread.c), seen by its caller: the calling
    thread ends. *)
Definition thread_exit {A} (code : Z) : K (kstate V) A := λ s, Exit code s.

(** kern/syscall/proc_syscall.c, with the waitpid option: the status is kept,
    the thread leaves the process and the exit semaphore is posted.  The last
    call, [thread_exit], does not return. *)
Definition sys__exit {A} (status : Z) : K (kstate V) A :=
  cur ← gets k_curproc;
  pid ← deref cur;
  p ← proc_load pid;
  modify (λ s, set_procs (<[pid := Proc (p_numthreads p) (p_addrspace p) (p_vnode p)
                                     (Z.land status 0xff) (p_sem p)]> (k_procs s)) s) ;;
  proc_remthread ;;
  p' ← proc_load pid;
  modify (λ s, set_procs (<[pid := Proc (p_numthreads p') (p_addrspace p') (p_vnode p')
                                     (p_status p') (p_sem p' + 1)]> (k_procs s)) s) ;;
  thread_exit (Z.land status 0xff).

(** ** kern/vm/vm.c: the fault handler *)

(** The status of a page brought into memory. *)
Definition resident (readonly : bool) : pt_state :=
  if readonly then IN_MEMORY_RDONLY else IN_MEMORY.

(** The case of a page that has never been loaded. *)
Definition fault_not_loaded (a : Z) (pt_row : ptptr) (seg_type faultaddress : Z)
  (readonly : bool) : K (kstate V) unit :=
  page_paddr ← alloc_upage pt_row;
  pt_set_entry pt_row page_paddr 0 (resident readonly) ;;
  in_elf ← (if negb (seg_type =? SEGMENT_STACK) then as_check_in_elf a faultaddress
            else mret false);
  if (in_elf : bool) then
    cur ← gets k_curproc;
    pid ← deref cur;
    p ← proc_load pid;
    v ← deref (p_vnode p);
    as_load_page a v faultaddress ;;
    mret tt
  else vmstats_hit VMSTAT_PAGE_FAULT_ZERO.

(** The case of a page in the swap file. *)
Definition fault_in_swap (pt_row : ptptr) (readonly : bool) : K (kstate V) unit :=
  page_paddr ← alloc_upage pt_row;
  r ← pt_load pt_row;
  swap_in page_paddr (pt_swap_index r) ;;
  pt_set_entry pt_row page_paddr 0 (resident readonly).

Definition vm_fault (faulttype faultaddress : Z) : K (kstate V) Z :=
  vmstats_hit VMSTAT_TLB_FAULT ;;
  let basefaultaddr := Z.land faultaddress PAGE_FRAME in
  if faulttype =? VM_FAULT_READONLY then sys__exit (-1)
  else if negb ((faulttype =? VM_FAULT_READ) || (faulttype =? VM_FAULT_WRITE))
  then mret EINVAL
  else
  cur ← gets k_curproc;
  match cur with
  | None => mret EFAULT
  | Some _ =>
  oa ← proc_getas;
  match oa with
  | None => mret EFAULT
  | Some a =>
  as_ ← as_load a;
  KASSERT (bool_decide (is_Some (as_data as_))) "as->as_data != NULL" ;;
  KASSERT (bool_decide (is_Some (as_stack as_))) "as->as_stack != NULL" ;;
  KASSERT (bool_decide (is_Some (as_text as_))) "as->as_text != NULL" ;;
  KASSERT (bool_decide (is_Some (as_ptable as_))) "as->as_ptable != NULL" ;;
  seg_type ← as_get_segment_type a faultaddress;
  (if seg_type =? 0 then sys__exit (-1) else mret tt) ;;
  pt_row ← pt_get_entry a faultaddress;
  let readonly := seg_type =? SEGMENT_TEXT in
  r ← pt_load pt_row;
  (match pt_status r with
   | NOT_LOADED => fault_not_loaded a pt_row seg_type faultaddress readonly
   | IN_MEMORY_RDONLY | IN_MEMORY => vmstats_hit VMSTAT_TLB_RELOAD
   | IN_SWAP => fault_in_swap pt_row readonly
   end) ;;
  KASSERT (negb (seg_type =? 0)) "seg_type != 0" ;;
  r' ← pt_load pt_row;
  tlb_insert basefaultaddr (u32 (pt_frame_index r' * PAGE_SIZE)) readonly ;;
  mret 0
  end
  end.

End vm.

(** ** Running the accessors of the current process *)

Section run.
Context {V : Type} `{VnodeOps V}.
Context (s : kstate V) (pid : Z) (pr : proc V).
Context (Hcur : k_curproc s = Some pid) (Hpr : k_procs s !! pid = Some pr) (Hh : k_held s = []).

Lemma run_getas {B} (f : option Z → K (kstate V) B) :
  mbind f proc_getas s = f (p_addrspace pr) s.
Proof using All.
  unfold proc_getas, proc_load. krun. rewrite Hcur.
  krun. rewrite run_acquire by (rewrite Hh; set_solver). krun. ksimpl.
  rewrite (run_deref _ _ pr) by done.
  krun. rewrite (run_release _ _ _ []); [|by ksimpl; rewrite Hh|set_solver].
  krun. destruct s; cbn in *. by subst.
Qed.

Lemma run_setas {B} newas (f : option Z → K (kstate V) B) :
  mbind f (proc_setas newas) s =
  f (p_addrspace pr) (set_procs (<[pid := Proc (p_numthreads pr) newas (p_vnode pr)
                                            (p_status pr) (p_sem pr)]> (k_procs s)) s).
Proof using All.
  unfold proc_setas, proc_load. krun. rewrite (run_deref _ _ pid) by done.
  krun. rewrite run_acquire by (rewrite Hh; set_solver). krun. ksimpl.
  rewrite (run_deref _ _ pr) by done. krun.
  rewrite (run_release _ _ _ []); [|by ksimpl; rewrite Hh|set_solver].
  krun. destruct s; cbn in *. by subst.
Qed.

End run.
