(* ===== verification/Boot.v ===== *)
(** * Boot: the state after the memory manager is initialised

    [coremap_bootstrap] and [vm_bootstrap] establish the invariant on a machine
    that has no process yet.  [demo_state] is a concrete machine of 8 frames
    with an executable on a file kept in memory. *)

From stdpp Require Import base gmap list strings fin_maps.
From Stdlib Require Import ZArith Lia.
From S2P Require Import Prelude Types Bitmap Machine Vmstats Tlb Swapfile Segment.
From S2P Require Import Pagetable Coremap VmInv Vm.
Set Default Goal Selector "!".
Open Scope Z_scope.

(** ** [coremap_bootstrap] *)

(** The number of frames taken by the kernel image and the coremap. *)
Definition boot_frames (ramsize firstfree : Z) : Z :=
  firstfree / PAGE_SIZE + (8 * (ramsize / PAGE_SIZE) + PAGE_SIZE - 1) / PAGE_SIZE.

(** The machine has at most 512 MB, and the kernel and the coremap fit. *)
Record boot_ok (ramsize firstfree : Z) : Prop := {
  bo_ram : 0 < ramsize ≤ 512 * 1024 * 1024;
  bo_align : ramsize mod PAGE_SIZE = 0;
  bo_free : 0 ≤ firstfree < ramsize;
  bo_falign : firstfree mod PAGE_SIZE = 0;
  bo_fit : boot_frames ramsize firstfree ≤ ramsize / PAGE_SIZE;
}.

(** The coremap with the first [k] of [n] frames in use by the kernel. *)
Definition boot_map (n k : Z) (cm : list cm_entry) : Prop :=
  zlen cm = n ∧
  ∀ f, 0 ≤ f < n → arr_get cm f = Some (if f <? k then CmEntry 1 1 0 None else CmEntry 0 0 0 None).

Lemma boot_map_get n k cm f e :
  boot_map n k cm → arr_get cm f = Some e →
  0 ≤ f < n ∧ e = if f <? k then CmEntry 1 1 0 None else CmEntry 0 0 0 None.
Proof.
  intros [Hl Hg] He. pose proof (arr_get_range _ _ _ He) as Hr. rewrite Hl in Hr.
  rewrite (Hg f Hr) in He. split; [done|congruence].
Qed.

Lemma boot_map_inv n k cm : boot_map n k cm → cm_inv cm.
Proof.
  intros Hb. split.
  - intros f e [_ ->]%(boot_map_get n k); [|done]. destruct (f <? k); cbn; lia.
  - intros f e [_ ->]%(boot_map_get n k); [|done]. by destruct (f <? k).
  - intros f m i (e & [_ He]%(boot_map_get n k) & Hu & Hs & _) Hi; [|done].
    subst e. destruct (f <? k); cbn in *; lia.
  - intros f e [_ ->]%(boot_map_get n k); [|done]. by destruct (f <? k).
  - intros f e [_ ->]%(boot_map_get n k); [|done]. intros _ [p Hp]. by destruct (f <? k).
Qed.

Section boot.
Context {V : Type} `{VnodeOps V}.
Implicit Types s : kstate V.

Lemma coremap_bootstrap_run ramsize firstfree s :
  boot_ok ramsize firstfree →
  ∃ cm, coremap_bootstrap ramsize (PADDR_TO_KVADDR firstfree) s =
    Ret tt (set_cm (CmState cm (ramsize / PAGE_SIZE) (victim_index (k_cm s))) s) ∧
    boot_map (ramsize / PAGE_SIZE) (boot_frames ramsize firstfree) cm.
Proof.
  intros [Hram Hal Hff Hfal Hfit]. unfold coremap_bootstrap.
  rewrite (proj2 (Z.ltb_ge _ _)) by lia. rewrite kvaddr_roundtrip by lia.
  rewrite run_assert by (by apply Z.eqb_eq). rewrite run_assert by (by apply Z.eqb_eq). krun.
  unfold sizeof_cm_entry. set (n := ramsize / PAGE_SIZE) in *.
  assert (Hn : 0 ≤ n ≤ 2 ^ 17).
  { split; [apply Z.div_pos; unfold PAGE_SIZE; lia|].
    apply Z.div_le_upper_bound; unfold PAGE_SIZE; lia. }
  rewrite (wrap_small 32 (8 * n)) by lia. rewrite DIVROUNDUP_spec by (unfold PAGE_SIZE; lia).
  fold n. change (firstfree / PAGE_SIZE + (8 * n + PAGE_SIZE - 1) / PAGE_SIZE)
    with (boot_frames ramsize firstfree). set (k := boot_frames ramsize firstfree) in *.
  assert (Hk : 0 ≤ k).
  { unfold k, boot_frames. fold n. pose proof (Z.div_pos firstfree PAGE_SIZE).
    pose proof (Z.div_pos (8 * n + PAGE_SIZE - 1) PAGE_SIZE). unfold PAGE_SIZE in *. lia. }
  set (cm0 := replicate (Z.to_nat n) cm_blank).
  assert (Hl0 : zlen cm0 = n) by (unfold cm0; rewrite length_replicate; lia).
  assert (Hg0 : ∀ f, 0 ≤ f < n → arr_get cm0 f = Some cm_blank).
  { intros f Hf. rewrite arr_get_nonneg by lia. apply lookup_replicate. split; [done|lia]. }
  set (s1 := set_cm _ s).
  destruct (update_loop (λ _, True) (λ e, CmEntry 1 1 (cm_lock e) (cm_ptentry e))
    (λ i, cm ← gets (λ s, coremap (k_cm s)); e ← index cm i;
          modify (set_coremap (arr_set cm i (CmEntry 1 1 (cm_lock e) (cm_ptentry e))))) 0 k s1)
    as (cm' & Hrun & Hlen & Hget); [lia|lia| | |].
  - intros i e s' He _. krun. by rewrite (run_index_bind _ _ e) by done.
  - intros i Hi. exists cm_blank. split; [|done]. apply Hg0. lia.
  - exists cm'. split; [exact Hrun|]. unfold s1 in Hlen, Hget. ksimpl in Hlen.
    split; [by rewrite Hlen, Hl0|]. intros f Hf. rewrite Hget. ksimpl. fold cm0.
    rewrite Hg0 by done. cbn. destruct (Z.ltb_spec f k); case_decide; (done || lia).
Qed.

Lemma swap_bootstrap_run file s :
  ∃ map, swap_bootstrap (inr file) true true s = Ret tt (set_swap (SwapState file map) s) ∧
    bitmap_wf map ∧ nbits map = SWAPFILE_NPAGES ∧ bitmap_set map = ∅.
Proof.
  unfold swap_bootstrap. rewrite run_assert by done. krun.
  destruct (bitmap_create_run SWAPFILE_NPAGES (set_swapfile file s)) as (map & Hc & Hm).
  { by rewrite npages_val. }
  exists map. rewrite run_bind, Hc, (run_deref _ _ map) by done. done.
Qed.

(** No page is in memory or in the swap file, and the TLB is empty. *)
Record fresh s : Prop := {
  fr_cm : cm_good s;
  fr_user : ∀ f p, ¬ user_frame (coremap (k_cm s)) f p;
  fr_used0 : used_frame (coremap (k_cm s)) 0;
  fr_pte : ∀ p r, pte_get s p = Some r → pt_status r = NOT_LOADED;
  fr_swap : swap_wf s ∧ swap_used s = ∅;
  fr_tlb : k_tlb s = TlbState all_invalid 0 true;
  fr_stats : length (k_stats s) = 10%nat;
}.

Lemma fresh_inv pmap elf0 is_text s : fresh s → vm_inv pmap elf0 is_text s.
Proof.
  intros [Hcm Hu H0 Hp [Hsw Hse] Ht Hst].
  assert (Hno : ∀ p r, pte_get s p = Some r → in_mem r → False).
  { intros p r Hr%Hp [?|?]; congruence. }
  split; try done.
  - intros f p []%Hu.
  - intros p r Hr Hm. by destruct (Hno p r).
  - intros p r Hr%Hp. congruence.
  - intros p q r r' Hr%Hp. congruence.
  - intros i. rewrite Hse. set_solver.
  - rewrite Ht. apply tlb_wf_invalid.
  - intros va f ro. rewrite Ht. by intros ?%tlb_maps_invalid.
  - intros p r off Hr%Hp. congruence.
  - intros p r Hr%Hp. destruct (is_text p); [by left|congruence].
Qed.

(** [boot] in kern/main/main.c calls [coremap_bootstrap] before [kmalloc] is
    first used (through [ram_bootstrap] of the other configurations) and
    [vm_bootstrap] once the devices are there. *)
Definition boot_vm (ramsize firstfree : Z) (opened : Z + V) : K (kstate V) unit :=
  coremap_bootstrap ramsize firstfree ;;
  vm_bootstrap opened true true.

Lemma boot_vm_run ramsize firstfree file s :
  boot_ok ramsize firstfree → k_ptabs s = ∅ → k_tlb s = TlbState all_invalid 0 true →
  length (k_stats s) = 10%nat → victim_index (k_cm s) = 0 →
  ∃ s', boot_vm ramsize (PADDR_TO_KVADDR firstfree) (inr file) s = Ret tt s' ∧ fresh s' ∧
    boot_map (ramsize / PAGE_SIZE) (boot_frames ramsize firstfree) (coremap (k_cm s')) ∧
    swapfile (k_swap s') = file.
Proof.
  intros Hok Hpt Htlb Hst Hv. unfold boot_vm.
  destruct (coremap_bootstrap_run ramsize firstfree s Hok) as (cm & Hc & Hm).
  rewrite run_bind, Hc. unfold vm_bootstrap.
  match goal with |- context [swap_bootstrap _ _ _ ?s1] =>
    destruct (swap_bootstrap_run file s1) as (map & -> & Hwf & Hnb & Hset) end.
  eexists. split; [reflexivity|]. split; [|done]. pose proof Hm as [Hl Hg].
  pose proof Hok as [Hram Hal Hff Hfal Hfit].
  assert (Hn : 0 < ramsize / PAGE_SIZE ≤ 2 ^ 17).
  { pose proof (page_split ramsize) as Hs. rewrite Hal in Hs. unfold PAGE_SIZE in *. lia. }
  split; ksimpl; try done.
  - split; ksimpl; try lia. by eapply boot_map_inv.
  - intros f p (e & [_ ->]%(boot_map_get _ _ _ _ _ Hm) & Hu & Hp). by destruct (f <? _).
  - assert (0 < boot_frames ramsize firstfree).
    { unfold boot_frames. pose proof (Z.div_pos firstfree PAGE_SIZE).
      assert (1 ≤ (8 * (ramsize / PAGE_SIZE) + PAGE_SIZE - 1) / PAGE_SIZE).
      { apply Z.div_le_lower_bound; unfold PAGE_SIZE in *; lia. }
      unfold PAGE_SIZE in *. lia. }
    eexists. rewrite (Hg 0), (proj2 (Z.ltb_lt _ _)) by lia. done.
  - intros p r. unfold pte_get. ksimpl. by rewrite Hpt, lookup_empty.
Qed.

End boot.
