(* ===== verification/Layout.v ===== *)
(** * Layout: address spaces and their pages

    [as_wf] is what [load_elf], [as_define_stack] and [as_define_pt] set up: three
    segments on disjoint pages of user space.  For such an address space the
    page-table index is a bijection between the pages of the segments and the
    entries of the table, the arguments of [load_page] select exactly the bytes
    of the executable that belong to the page, and [vm_fault] installs a
    translation to a frame with the contents of the page while every page of
    every process keeps its contents. *)

From stdpp Require Import base gmap list strings fin_maps.
From Stdlib Require Import ZArith Lia.
From S2P Require Import Prelude Types Bitmap Machine Vmstats Tlb Swapfile Segment.
From S2P Require Import Pagetable Coremap VmInv Vm.
Set Default Goal Selector "!".
Open Scope Z_scope.

(** ** Segments and their pages *)

(** The number of the page of an address, and the first address of a page. *)
Definition vpn (va : Z) : Z := va / PAGE_SIZE.
Definition page_base (va : Z) : Z := vpn va * PAGE_SIZE.

Record seg_wf (seg : segment) : Prop := {
  sw_range : 0 ≤ seg_first_vaddr seg < seg_last_vaddr seg;
  sw_user : seg_last_vaddr seg ≤ USERSPACETOP;
  sw_npages : seg_npages seg =
    vpn (seg_last_vaddr seg - 1) - vpn (seg_first_vaddr seg) + 1;
  sw_elf : 0 ≤ seg_elf_size seg ≤ seg_last_vaddr seg - seg_first_vaddr seg;
}.

(** Page [n] is one of the pages of the segment. *)
Definition seg_page (seg : segment) (n : Z) : Prop :=
  vpn (seg_first_vaddr seg) ≤ n ≤ vpn (seg_last_vaddr seg - 1).

#[global] Instance seg_page_dec seg n : Decision (seg_page seg n).
Proof. unfold seg_page. apply _. Defined.

(** The initial contents of address [va] of a segment loaded from file [v]. *)
Definition init_byte {V} (file_byte : V → Z → Z) (v : V) (seg : segment) (va : Z) : Z :=
  if decide (seg_first_vaddr seg ≤ va < seg_first_vaddr seg + seg_elf_size seg)
  then file_byte v (seg_elf_offset seg + (va - seg_first_vaddr seg))
  else 0.

(** An address space with its three segments and its page table. *)
Record as_layout := AsLayout {
  al_text : segment;
  al_data : segment;
  al_stack : segment;
  al_pt : Z;
}.

Definition layout_as (L : as_layout) : addrspace :=
  Addrspace (Some (al_text L)) (Some (al_data L)) (Some (al_stack L)) (Some (al_pt L)).

Record as_wf (L : as_layout) : Prop := {
  aw_text : seg_wf (al_text L);
  aw_data : seg_wf (al_data L);
  aw_stack : seg_wf (al_stack L);
  aw_noelf : seg_elf_size (al_stack L) = 0;
  aw_td : ∀ n, seg_page (al_text L) n → seg_page (al_data L) n → False;
  aw_ts : ∀ n, seg_page (al_text L) n → seg_page (al_stack L) n → False;
  aw_ds : ∀ n, seg_page (al_data L) n → seg_page (al_stack L) n → False;
}.

(** The segment a page belongs to, its type and the index of its first entry. *)
Definition seg_of (L : as_layout) (n : Z) : option (segment * Z * Z) :=
  if decide (seg_page (al_text L) n) then Some (al_text L, SEGMENT_TEXT, 0)
  else if decide (seg_page (al_data L) n) then
    Some (al_data L, SEGMENT_DATA, seg_npages (al_text L))
  else if decide (seg_page (al_stack L) n) then
    Some (al_stack L, SEGMENT_STACK, seg_npages (al_text L) + seg_npages (al_data L))
  else None.

(** The entry of the page that starts at [va]. *)
Definition page_map (L : as_layout) (va : Z) : option ptptr :=
  if decide (va mod PAGE_SIZE = 0) then
    match seg_of L (vpn va) with
    | Some (seg, _, base) => Some (al_pt L, base + (vpn va - vpn (seg_first_vaddr seg)))
    | None => None
    end
  else None.

Definition pt_size (L : as_layout) : Z :=
  seg_npages (al_text L) + seg_npages (al_data L) + seg_npages (al_stack L).

(** [vaddr] is an address of segment [seg], of type [ty], of the space. *)
Definition seg_at (L : as_layout) (vaddr : Z) (seg : segment) (ty base : Z) : Prop :=
  in_segment seg vaddr = true ∧ seg_of L (vpn vaddr) = Some (seg, ty, base).

(** ** Lemmas *)

Lemma vpn_le a b : a ≤ b → vpn a ≤ vpn b.
Proof. intros. by apply Z.div_le_mono. Qed.

Lemma vpn_bounds a : vpn a * PAGE_SIZE ≤ a < (vpn a + 1) * PAGE_SIZE.
Proof.
  unfold vpn, PAGE_SIZE. pose proof (Z.div_mod a 4096 ltac:(lia)).
  pose proof (Z.mod_pos_bound a 4096 ltac:(lia)). lia.
Qed.

Lemma vpn_add n off : 0 ≤ off < PAGE_SIZE → vpn (n * PAGE_SIZE + off) = n.
Proof. intros. symmetry. apply (Z.div_unique _ _ _ off); lia. Qed.

Lemma vpn_base va : vpn (page_base va) = vpn va.
Proof. unfold page_base, vpn, PAGE_SIZE. apply Z.div_mul. lia. Qed.

Lemma page_base_mod va : page_base va mod PAGE_SIZE = 0.
Proof. unfold page_base. by apply Z.mod_mul. Qed.

Lemma page_base_land va : 0 ≤ va < 2 ^ 32 → Z.land va PAGE_FRAME = page_base va.
Proof. intros. by rewrite page_frame_spec. Qed.

Lemma in_segment_iff seg va :
  in_segment seg va = true ↔ seg_first_vaddr seg ≤ va < seg_last_vaddr seg.
Proof. unfold in_segment. rewrite andb_true_iff, Z.leb_le, Z.ltb_lt. done. Qed.

Lemma in_segment_page seg va : in_segment seg va = true → seg_page seg (vpn va).
Proof. rewrite in_segment_iff. intros. split; apply vpn_le; lia. Qed.

Lemma seg_npages_bound seg : seg_wf seg → 0 < seg_npages seg ≤ 2 ^ 19.
Proof.
  intros [Hr Hu Hn _]. rewrite Hn. unfold USERSPACETOP, MIPS_KSEG0 in Hu.
  pose proof (vpn_le (seg_first_vaddr seg) (seg_last_vaddr seg - 1) ltac:(lia)).
  assert (0 ≤ vpn (seg_first_vaddr seg)) by (apply Z.div_pos; unfold PAGE_SIZE; lia).
  assert (vpn (seg_last_vaddr seg - 1) < 2 ^ 19).
  { apply Z.div_lt_upper_bound; unfold PAGE_SIZE; lia. }
  lia.
Qed.

Section layout.
Context (L : as_layout) (Hwf : as_wf L).

Lemma seg_of_cases n seg ty base :
  seg_of L n = Some (seg, ty, base) →
  seg_page seg n ∧ seg_wf seg ∧ 0 ≤ base ∧ base + seg_npages seg ≤ pt_size L ∧
  ((seg = al_text L ∧ ty = SEGMENT_TEXT ∧ base = 0) ∨
   (seg = al_data L ∧ ty = SEGMENT_DATA ∧ base = seg_npages (al_text L)) ∨
   (seg = al_stack L ∧ ty = SEGMENT_STACK ∧
    base = seg_npages (al_text L) + seg_npages (al_data L))).
Proof.
  unfold seg_of, pt_size.
  pose proof (seg_npages_bound _ (aw_text _ Hwf)).
  pose proof (seg_npages_bound _ (aw_data _ Hwf)).
  pose proof (seg_npages_bound _ (aw_stack _ Hwf)).
  pose proof (aw_text _ Hwf). pose proof (aw_data _ Hwf). pose proof (aw_stack _ Hwf).
  intros Hs. repeat case_decide; simplify_eq; split_and!; try done; try lia.
  - left. done.
  - right; left. done.
  - right; right. done.
Qed.

Lemma pt_size_bound : 0 < pt_size L ≤ 3 * 2 ^ 19.
Proof.
  unfold pt_size. pose proof (seg_npages_bound _ (aw_text _ Hwf)).
  pose proof (seg_npages_bound _ (aw_data _ Hwf)).
  pose proof (seg_npages_bound _ (aw_stack _ Hwf)). lia.
Qed.

Lemma page_map_index va p :
  page_map L va = Some p → p.1 = al_pt L ∧ 0 ≤ p.2 < pt_size L.
Proof.
  unfold page_map. case_decide; [|done].
  destruct (seg_of L (vpn va)) as [[[seg ty] base]|] eqn:Hs; [|done].
  intros [= <-]. split; [done|]. cbn.
  destruct (seg_of_cases _ _ _ _ Hs) as ([Hp1 Hp2] & [_ _ Hn _] & ? & ? & _). lia.
Qed.

(** Different pages have different entries. *)
Lemma page_map_inj va va' p :
  page_map L va = Some p → page_map L va' = Some p → va = va'.
Proof.
  unfold page_map. do 2 (case_decide; [|done]).
  destruct (seg_of L (vpn va)) as [[[seg ty] base]|] eqn:Hs; [|done].
  destruct (seg_of L (vpn va')) as [[[seg' ty'] base']|] eqn:Hs'; [|done].
  intros [= <-] [= He].
  destruct (seg_of_cases _ _ _ _ Hs) as ([Hp1 Hp2] & [_ _ Hn _] & _ & _ & Hc).
  destruct (seg_of_cases _ _ _ _ Hs') as ([Hp1' Hp2'] & [_ _ Hn' _] & _ & _ & Hc').
  assert (vpn va = vpn va') as Hv.
  { pose proof (seg_npages_bound _ (aw_text _ Hwf)).
    pose proof (seg_npages_bound _ (aw_data _ Hwf)).
    destruct Hc as [(-> & _ & ->)|[(-> & _ & ->)|(-> & _ & ->)]],
      Hc' as [(-> & _ & ->)|[(-> & _ & ->)|(-> & _ & ->)]]; lia. }
  rewrite (page_split va), (page_split va'). unfold vpn in Hv. rewrite Hv. lia.
Qed.

(** The three tests of [as_get_segment_type] and the segment they find. *)
Lemma seg_at_cases vaddr seg ty base :
  seg_at L vaddr seg ty base →
  (seg = al_text L ∧ ty = SEGMENT_TEXT ∧ base = 0 ∧ in_segment (al_text L) vaddr = true) ∨
  (seg = al_data L ∧ ty = SEGMENT_DATA ∧ base = seg_npages (al_text L) ∧
   in_segment (al_text L) vaddr = false ∧ in_segment (al_data L) vaddr = true) ∨
  (seg = al_stack L ∧ ty = SEGMENT_STACK ∧
   base = seg_npages (al_text L) + seg_npages (al_data L) ∧
   in_segment (al_text L) vaddr = false ∧ in_segment (al_data L) vaddr = false ∧
   in_segment (al_stack L) vaddr = true).
Proof.
  intros [Hin Hs]. destruct (seg_of_cases _ _ _ _ Hs) as (Hp & _ & _ & _ & Hc).
  assert (Hno : ∀ sg, (seg_page sg (vpn vaddr) → False) → in_segment sg vaddr = false).
  { intros sg Hsg. destruct (in_segment sg vaddr) eqn:E; [|done].
    destruct Hsg. by apply in_segment_page. }
  destruct Hc as [(-> & -> & ->)|[(-> & -> & ->)|(-> & -> & ->)]].
  - left. done.
  - right; left. split_and!; try done. apply Hno. intros. by eapply (aw_td _ Hwf).
  - right; right. split_and!; try done; apply Hno; intros;
      [by eapply (aw_ts _ Hwf)|by eapply (aw_ds _ Hwf)].
Qed.

Section run.
Context {V : Type} `{VnodeOps V}.
Context (s : kstate V) (a : Z) (Ha : k_ases s !! a = Some (layout_as L)).

Lemma run_seg_type {B} vaddr seg ty base (f : Z → K (kstate V) B) :
  seg_at L vaddr seg ty base → mbind f (as_get_segment_type a vaddr) s = f ty s.
Proof.
  intros Hs. unfold as_get_segment_type. krun. rewrite (run_as_load _ (layout_as L)) by done.
  krun. rewrite (run_deref _ _ (al_text L)) by done.
  destruct (seg_at_cases _ _ _ _ Hs) as [(_ & -> & _ & ->)|[(_ & -> & _ & -> & H1)|(_ & -> & _ & -> & H1 & H2)]];
    [done| |]; krun; rewrite (run_deref _ _ (al_data L)) by done; rewrite H1; [done|].
  krun. rewrite (run_deref _ _ (al_stack L)) by done. by rewrite H2.
Qed.

(** Outside the segments the answer is 0. *)
Lemma run_seg_type_none {B} vaddr (f : Z → K (kstate V) B) :
  in_segment (al_text L) vaddr = false → in_segment (al_data L) vaddr = false →
  in_segment (al_stack L) vaddr = false →
  mbind f (as_get_segment_type a vaddr) s = f 0 s.
Proof.
  intros H1 H2 H3. unfold as_get_segment_type. krun.
  rewrite (run_as_load _ (layout_as L)) by done.
  krun. rewrite (run_deref _ _ (al_text L)), H1 by done.
  krun. rewrite (run_deref _ _ (al_data L)), H2 by done.
  krun. rewrite (run_deref _ _ (al_stack L)), H3 by done. done.
Qed.

Lemma run_get_segment {B} vaddr seg ty base (f : segment → K (kstate V) B) :
  seg_at L vaddr seg ty base → mbind f (as_get_segment a vaddr) s = f seg s.
Proof.
  intros Hs. unfold as_get_segment. krun. rewrite (run_seg_type _ seg ty base) by done.
  krun. rewrite (run_as_load _ (layout_as L)) by done.
  by destruct (seg_at_cases _ _ _ _ Hs) as [(-> & -> & _)|[(-> & -> & _)|(-> & -> & _)]].
Qed.

Lemma seg_at_user vaddr seg ty base :
  seg_at L vaddr seg ty base → seg_wf seg ∧
  seg_first_vaddr seg ≤ vaddr < seg_last_vaddr seg ∧ 0 ≤ vaddr < USERSPACETOP.
Proof.
  intros [Hin Hs]. destruct (seg_of_cases _ _ _ _ Hs) as (_ & Hw & _).
  apply in_segment_iff in Hin. split; [done|]. destruct Hw. lia.
Qed.

(** The index computed for an address is that of its page. *)
Lemma page_index_spec seg vaddr :
  seg_wf seg → seg_first_vaddr seg ≤ vaddr < seg_last_vaddr seg →
  page_index seg vaddr = vpn vaddr - vpn (seg_first_vaddr seg) ∧
  0 ≤ page_index seg vaddr < seg_npages seg.
Proof.
  intros [Hr Hu Hn _] Hv. unfold page_index. unfold USERSPACETOP, MIPS_KSEG0 in Hu.
  rewrite page_base_land by lia.
  pose proof (vpn_bounds (seg_first_vaddr seg)) as Hb.
  assert (0 ≤ vpn (seg_first_vaddr seg)) by (apply Z.div_pos; unfold PAGE_SIZE; lia).
  rewrite wrap_small by (unfold page_base, PAGE_SIZE in *; lia).
  assert (Hd : (vaddr - page_base (seg_first_vaddr seg)) / PAGE_SIZE =
    vpn vaddr - vpn (seg_first_vaddr seg)).
  { unfold page_base, vpn, PAGE_SIZE.
    replace (vaddr - _) with (vaddr + - (seg_first_vaddr seg / 4096) * 4096) by lia.
    rewrite Z.div_add by lia. lia. }
  rewrite Hd. split; [done|].
  pose proof (vpn_le (seg_first_vaddr seg) vaddr ltac:(lia)).
  pose proof (vpn_le vaddr (seg_last_vaddr seg - 1) ltac:(lia)). lia.
Qed.

Lemma page_map_at vaddr seg ty base :
  seg_at L vaddr seg ty base →
  page_map L (page_base vaddr) = Some (al_pt L, base + page_index seg vaddr).
Proof.
  intros Hs. destruct (seg_at_user _ _ _ _ Hs) as (Hw & Hv & _). destruct Hs as [_ Hs].
  unfold page_map. rewrite decide_True by apply page_base_mod.
  rewrite vpn_base, Hs. by destruct (page_index_spec seg vaddr Hw Hv) as [-> _].
Qed.

Lemma run_pt_get_entry {B} vaddr seg ty base (f : ptptr → K (kstate V) B) :
  seg_at L vaddr seg ty base →
  mbind f (pt_get_entry a vaddr) s = f (al_pt L, base + page_index seg vaddr) s.
Proof.
  intros Hs. unfold pt_get_entry, pt_get_index. krun.
  rewrite (run_seg_type _ seg ty base) by done. krun.
  rewrite (run_as_load _ (layout_as L)) by done.
  destruct (seg_at_user _ _ _ _ Hs) as (Hw & Hv & _).
  destruct (page_index_spec seg vaddr Hw Hv) as [_ Hi].
  pose proof (seg_npages_bound _ (aw_text _ Hwf)).
  pose proof (seg_npages_bound _ (aw_data _ Hwf)).
  pose proof (seg_npages_bound _ (aw_stack _ Hwf)).
  destruct (seg_at_cases _ _ _ _ Hs) as [(-> & -> & -> & _)|[(-> & -> & -> & _)|(-> & -> & -> & _)]];
    cbn [Z.eqb SEGMENT_TEXT SEGMENT_DATA SEGMENT_STACK Pos.eqb];
    krun; rewrite (run_deref _ _ (al_text L)) by done;
    krun; rewrite ?(run_deref _ _ (al_data L)) by done;
    krun; rewrite ?(run_deref _ _ (al_stack L)) by done;
    rewrite ?(wrap_small 32 (seg_npages (al_data L) + seg_npages (al_text L))) by lia;
    repeat rewrite wrap_small by lia;
    krun; rewrite run_assert by (apply Z.ltb_lt; lia);
    krun; rewrite (run_as_load _ (layout_as L)) by done;
    krun; rewrite (run_deref _ _ (al_pt L)) by done; krun; do 2 f_equal; lia.
Qed.

End run.

End layout.

(** ** Loading a page from the executable *)

Lemma roundup_page x :
  0 ≤ x ≤ 2 ^ 31 →
  ROUNDUP x PAGE_SIZE = (vpn x + (if decide (x mod PAGE_SIZE = 0) then 0 else 1)) * PAGE_SIZE.
Proof.
  intros Hx. rewrite ROUNDUP_spec by (unfold PAGE_SIZE; lia). f_equal.
  unfold vpn, PAGE_SIZE in *. pose proof (Z.div_mod x 4096 ltac:(lia)).
  pose proof (Z.mod_pos_bound x 4096 ltac:(lia)). symmetry.
  case_decide; [apply (Z.div_unique _ _ _ 4095)|apply (Z.div_unique _ _ _ (x mod 4096 - 1))]; lia.
Qed.

Section load.
Context (seg : segment) (Hwf : seg_wf seg) (frame fa : Z).
Context (Hfa : seg_first_vaddr seg ≤ fa < seg_last_vaddr seg).
Context (Hfr : 0 ≤ frame < 2 ^ 17).
Context (Helf : fa < ROUNDUP (u32 (seg_first_vaddr seg + seg_elf_size seg)) PAGE_SIZE).

(** What is read covers exactly the bytes of the page that come from the file,
    each at its place. *)
Lemma load_args_spec offset target size :
  load_args seg frame fa = (offset, target, size) →
  0 ≤ size ∧ frame * PAGE_SIZE ≤ target ∧ target + size ≤ (frame + 1) * PAGE_SIZE ∧
  ∀ off, 0 ≤ off < PAGE_SIZE →
    (target ≤ frame * PAGE_SIZE + off < target + size ↔
     seg_first_vaddr seg ≤ page_base fa + off < seg_first_vaddr seg + seg_elf_size seg) ∧
    offset + (frame * PAGE_SIZE + off - target) =
    seg_elf_offset seg + (page_base fa + off - seg_first_vaddr seg).
Proof.
  destruct Hwf as [Hr Hu _ He]. unfold USERSPACETOP, MIPS_KSEG0 in Hu.
  revert Helf. unfold load_args. set (first := seg_first_vaddr seg) in *.
  set (E := first + seg_elf_size seg).
  rewrite (wrap_small 32 E) by lia. rewrite !page_base_land, !page_off_spec by lia.
  rewrite roundup_page by lia.
  pose proof (page_split first) as Hf. pose proof (page_split fa) as Hfa'.
  pose proof (page_split E) as HE. unfold page_base. fold (vpn first) (vpn fa) (vpn E) in *.
  pose proof (Z.mod_pos_bound first PAGE_SIZE ltac:(done)) as Hm1.
  pose proof (Z.mod_pos_bound fa PAGE_SIZE ltac:(done)) as Hm2.
  pose proof (Z.mod_pos_bound E PAGE_SIZE ltac:(done)) as Hm3.
  unfold PAGE_SIZE in *. fold (vpn first) (vpn fa) (vpn E) in *.
  assert (Hq : vpn first ≤ vpn fa) by (apply vpn_le; lia).
  intros Hlt.
  assert (Hq3 : vpn fa < vpn E + (if decide (E mod 4096 = 0) then 0 else 1)) by lia.
  rewrite (wrap_small 32 (frame * 4096)) by lia.
  rewrite (wrap_small 32 (frame * 4096 + first mod 4096)) by lia.
  destruct (Z.eqb_spec (vpn first * 4096) (vpn fa * 4096)) as [H1|H1];
    [|destruct (Z.eqb_spec (vpn E * 4096) (vpn fa * 4096)) as [H2|H2]].
  - intros [= <- <- <-]. destruct (Z.ltb_spec (seg_elf_size seg) (4096 - first mod 4096));
      (split_and!; [lia|lia|lia|]); intros off Hoff; split; lia.
  - intros [= <- <- <-]. split_and!; [lia|lia|lia|]. intros off Hoff. split; lia.
  - intros [= <- <- <-]. case_decide; (split_and!; [lia|lia|lia|]); intros off Hoff; split; lia.
Qed.

End load.

(** A page not reached by the file part of its segment is zero. *)
Lemma init_byte_zero {V} (file_byte : V → Z → Z) v seg fa off :
  seg_wf seg → seg_first_vaddr seg ≤ fa < seg_last_vaddr seg → 0 ≤ off < PAGE_SIZE →
  ROUNDUP (u32 (seg_first_vaddr seg + seg_elf_size seg)) PAGE_SIZE ≤ fa →
  init_byte file_byte v seg (page_base fa + off) = 0.
Proof.
  intros [Hr Hu _ He] Hfa Hoff Hge. unfold init_byte. rewrite decide_False; [done|].
  unfold USERSPACETOP, MIPS_KSEG0 in Hu. revert Hge.
  set (E := seg_first_vaddr seg + seg_elf_size seg).
  rewrite (wrap_small 32 E), roundup_page by lia. intros Hge.
  pose proof (page_split E) as HE. pose proof (page_split fa) as Hf.
  unfold page_base. fold (vpn E) (vpn fa) in *. unfold PAGE_SIZE in *. fold (vpn E) (vpn fa) in *.
  pose proof (Z.mod_pos_bound E 4096 ltac:(done)). pose proof (Z.mod_pos_bound fa 4096 ltac:(done)).
  case_decide; lia.
Qed.
