(* ===== verification/Fault.v ===== *)
(** * Fault: the fault handler brings in the page and keeps every content

    For a process whose address space is well formed, [vm_fault] on an address
    of one of the three segments returns 0 with the translation of the page in
    the TLB and the page in a frame; the bytes of every page of every process
    stay what they were and the invariant of the memory manager holds.  The
    only other outcomes are the panics of [fault_err]: no frame can be emptied,
    or the file system reports an error or a truncated file. *)

From stdpp Require Import base gmap list strings fin_maps.
From Stdlib Require Import ZArith Lia.
From S2P Require Import Prelude Types Bitmap Machine Vmstats Tlb Swapfile Segment.
From S2P Require Import Pagetable Coremap VmInv Vm Layout.
Set Default Goal Selector "!".
Open Scope Z_scope.

(** The reasons for which the fault handler may stop the machine. *)
Definition fault_err (w : string) : Prop :=
  alloc_err w ∨ w = "Error loading page" ∨
  w = "ELF: short read on segment - file truncated?" ∨
  w = "Error swapping in" ∨ w = "SWAP: short read on page".

Section fault.
Context {V : Type} `{VnodeOps V} (file_byte : V → Z → Z).
Context (elf0 : ptptr → Z → Z) (is_text : ptptr → bool).
(** The running process, its address space and its executable. *)
Context (pid a : Z) (L : as_layout) (v : V).
Implicit Types s : kstate V.

Abbreviation cmap s := (coremap (k_cm s)).
Abbreviation inv := (vm_inv (page_map L) elf0 is_text).
Abbreviation inv_x := (vm_inv_x (page_map L) elf0 is_text).
Abbreviation same_content := (same_content file_byte elf0).
Abbreviation content := (content file_byte elf0).

(** The process runs user code: it has an address space with its page table
    and an executable, no spinlock is held and no interrupt is served. *)
Record running s : Prop := {
  rn_cur : k_curproc s = Some pid;
  rn_proc : ∃ pr, k_procs s !! pid = Some pr ∧ p_addrspace pr = Some a ∧ p_vnode pr = Some v;
  rn_as : k_ases s !! a = Some (layout_as L);
  rn_tab : ∀ i, 0 ≤ i < pt_size L → is_Some (pte_get s (al_pt L, i));
  rn_held : k_held s = [];
  rn_int : k_in_interrupt s = false;
}.

(** The initial contents of the pages of the process are those of its
    executable, and its read-only pages are those of the text segment. *)
Definition image_of : Prop :=
  ∀ fa seg ty base p, seg_at L fa seg ty base → page_map L (page_base fa) = Some p →
    is_text p = (ty =? SEGMENT_TEXT) ∧
    ∀ off, 0 ≤ off < PAGE_SIZE → elf0 p off = init_byte file_byte v seg (page_base fa + off).

(** What happened when the page of entry [p] was brought into memory. *)
Record brought s s' p : Prop := {
  br_inv : inv s';
  br_entry : ∃ r, pte_get s' p = Some r ∧ in_mem r;
  br_content : same_content s s';
  br_env : same_env s s';
  br_tlb : ∀ va f ro, tlb_maps (k_tlb s') va f ro → tlb_maps (k_tlb s) va f ro;
  br_held : k_held s' = [];
}.

Context `{!VnodeLaws V file_byte}.
Context (write_full : ∀ v off bs v' n, VOP_WRITE v off bs = inr (v', n) → n = zlen bs).
Context (Hwf : as_wf L) (Himg : image_of).

Lemma running_env s s' : running s → same_env s s' → k_held s' = [] → running s'.
Proof.
  intros [Hc Hp Ha Ht Hh Hi] [Ea Ep Ec Ei _ Et] Hh'. split; try congruence.
  - by rewrite Ep.
  - intros i Hi'. apply Et. by apply Ht.
Qed.

Lemma pinj va va' p : page_map L va = Some p → page_map L va' = Some p → va = va'.
Proof. by apply page_map_inj. Qed.

Lemma alloc_upage_wp s p r :
  inv s → running s → pte_get s p = Some r → ¬ in_mem r →
  wp (alloc_upage p) (λ pa s', ∃ b, pa = b * PAGE_SIZE ∧
      allocated file_byte (page_map L) elf0 is_text s s' b 1 (Some p)) alloc_err s.
Proof.
  intros Hi Hrn Hr Hnm. unfold alloc_upage, vm_can_sleep, wp. krun.
  rewrite (rn_held _ Hrn), (rn_int _ Hrn). rewrite !run_assert by done.
  unfold getppages.
  change (wp (addr ← coremap_getppages 1 (Some p);
    if addr =? 0 then panic "Out of memory" else mret addr)
    (λ pa s', ∃ b, pa = b * PAGE_SIZE ∧
      allocated file_byte (page_map L) elf0 is_text s s' b 1 (Some p)) alloc_err s).
  apply wp_bind. eapply wp_mono; [| |eapply wp_getppages; eauto using pinj].
  - intros pa s' (b & -> & Hal). destruct (al_range _ _ _ _ _ _ _ _ _ Hal) as [Hb _].
    rewrite (proj2 (Z.eqb_neq _ 0)) by (unfold PAGE_SIZE; lia). apply wp_ret. eauto.
  - intros w [?|[? _]]; [done|lia].
  - apply Hrn.
  - lia.
  - split; [done|eauto].
Qed.

(** What loading the page of [fa] into frame [b] does to the memory: the bytes
    of the page that come from the file are stored, the others stay. *)
Definition loaded (ram ram' : Z → Z) (seg : segment) (b fa : Z) : Prop :=
  (∀ x, ¬ b * PAGE_SIZE ≤ x < (b + 1) * PAGE_SIZE → ram' x = ram x) ∧
  (∀ off, 0 ≤ off < PAGE_SIZE → ram (b * PAGE_SIZE + off) = 0 →
     ram' (b * PAGE_SIZE + off) = init_byte file_byte v seg (page_base fa + off)).

Lemma load_page_wp s seg b fa offset target size :
  seg_wf seg → seg_first_vaddr seg ≤ fa < seg_last_vaddr seg → 0 ≤ b < 2 ^ 17 →
  fa < ROUNDUP (u32 (seg_first_vaddr seg + seg_elf_size seg)) PAGE_SIZE →
  load_args seg b fa = (offset, target, size) →
  wp (load_page v offset target size)
    (λ _ s', ∃ ram', s' = set_ram ram' s ∧ loaded (k_ram s) ram' seg b fa) fault_err s.
Proof.
  intros Hsw Hfa Hb Helf Hla.
  destruct (load_args_spec seg Hsw b fa Hfa Hb Helf _ _ _ Hla) as (Hs0 & Ht1 & Ht2 & Hoff).
  unfold load_page, wp. destruct (VOP_READ v offset size) as [e|bs] eqn:Hrd.
  { right; left. done. }
  krun. destruct (Z.eqb_spec (size - zlen bs) 0) as [Hz|]; cbn [negb]; [|by right; right; left].
  assert (Htp : 0 ≤ target < 2 ^ 30) by (unfold PAGE_SIZE in *; lia).
  eexists. split; [reflexivity|]. ksimpl. rewrite kvaddr_roundtrip by lia. split.
  - intros x Hx. apply ram_write_out. unfold PAGE_SIZE in *. lia.
  - intros off Ho Hzero. destruct (Hoff off Ho) as [Hin Heq]. unfold init_byte.
    case_decide as Hd.
    + apply Hin in Hd. destruct (arr_get_ex bs (b * PAGE_SIZE + off - target)) as [x Hx]; [lia|].
      rewrite (ram_write_in _ _ _ _ x) by done. rewrite (vop_read_bytes _ _ _ _ _ _ Hrd Hx).
      by rewrite Heq.
    + rewrite ram_write_out; [done|]. intros Hc. apply Hd, Hin. lia.
Qed.

Lemma as_load_page_wp s fa seg ty base r :
  running s → length (k_stats s) = 10%nat → seg_at L fa seg ty base →
  pte_get s (al_pt L, base + page_index seg fa) = Some r →
  0 ≤ pt_frame_index r < 2 ^ 17 →
  fa < ROUNDUP (u32 (seg_first_vaddr seg + seg_elf_size seg)) PAGE_SIZE →
  wp (as_load_page a v fa)
    (λ _ s', ∃ ram' st', s' = set_ram ram' (set_stats st' s) ∧ length st' = 10%nat ∧
       loaded (k_ram s) ram' seg (pt_frame_index r) fa) fault_err s.
Proof.
  intros Hrn Hst Hat Hr Hf Helf. destruct (seg_at_user L Hwf _ _ _ _ Hat) as (Hsw & Hfa & Hu).
  unfold as_load_page, wp. rewrite run_vmstats_hit; [|by rewrite (rn_held _ Hrn); set_solver|done|done].
  rewrite run_vmstats_hit; ksimpl;
    [|by rewrite (rn_held _ Hrn); set_solver|by rewrite length_hit|done].
  match goal with |- context [mbind _ (pt_get_entry _ _) ?s1] =>
    assert (Ha : k_ases s1 !! a = Some (layout_as L)) by apply Hrn end.
  rewrite (run_pt_get_entry L Hwf _ a Ha _ seg ty base) by done.
  rewrite (run_pt_load _ r) by done.
  rewrite (run_get_segment L Hwf _ a Ha _ seg ty base) by done.
  rewrite run_assert by (by apply Z.ltb_lt).
  rewrite run_assert; cycle 1.
  { apply Z.leb_le. destruct Hsw. unfold USERSPACETOP, MIPS_KSEG0 in *.
    rewrite page_base_land by lia.
    pose proof (vpn_bounds (seg_first_vaddr seg)). unfold page_base. lia. }
  destruct (load_args seg (pt_frame_index r) fa) as [[offset target] size] eqn:Hla.
  apply wp_bind. eapply wp_mono; [|done|by eapply load_page_wp].
  intros _ s' (ram' & -> & Hl). apply wp_ret. exists ram'. eexists. split; [done|].
  split; [by rewrite !length_hit|done].
Qed.

Abbreviation allocated := (allocated file_byte (page_map L) elf0 is_text).
Abbreviation installed := (installed file_byte elf0 is_text).

Lemma al_user s s' b p : allocated s s' b 1 (Some p) → user_frame (cmap s') b p.
Proof.
  intros Hal. eexists. split; [apply (al_frames _ _ _ _ _ _ _ _ _ Hal); lia|]. done.
Qed.

Lemma al_frame_range s s' b p : allocated s s' b 1 (Some p) → 0 ≤ b < 2 ^ 17.
Proof.
  intros Hal. pose proof (frame_range _ _ _ _ _ (al_inv _ _ _ _ _ _ _ _ _ Hal) _ _ (al_user _ _ _ _ Hal)).
  lia.
Qed.

Lemma installed_brought s s1 s' p b r' :
  allocated s s1 b 1 (Some p) → installed s1 s' p b r' → same_env s1 s' → k_held s' = [] →
  brought s s' p.
Proof.
  intros Hal Hin He Hh. pose proof (al_user _ _ _ _ Hal) as Hu.
  pose proof (al_inv _ _ _ _ _ _ _ _ _ Hal) as Hi. split; [| | | | |done].
  - by eapply installed_inv.
  - exists r'. split; [apply Hin|]. by eapply in_in_mem.
  - etrans; [apply Hal|]. by eapply installed_content.
  - etrans; [apply Hal|done].
  - rewrite (in_tlb _ _ _ _ _ _ _ _ Hin). apply Hal.
Qed.

(** An entry rewritten, with changes of the memory, the counters and the swap
    map beside it. *)
Lemma same_env_set s p r r0 ram st sw :
  pte_get s p = Some r0 →
  same_env s (set_swapmap sw (set_ram ram (set_stats st (pte_set p r s)))).
Proof.
  intros Hr. destruct (pte_set_proj p r s) as (Ec & _ & _ & _ & _ & Ea & Ep & Ecu & _ & Ei).
  split; ksimpl; rewrite ?Ec; try done. intros q.
  change (is_Some (pte_get (pte_set p r s) q) ↔ is_Some (pte_get s q)).
  rewrite (pte_get_set s p q r r0 Hr). case_decide; [subst; rewrite Hr|done]. split; eauto.
Qed.

(** The page of [p] comes from the executable. *)
Lemma load_installed s p b r ram st :
  inv_x (Some p) s → pte_get s p = Some r → pt_status r = NOT_LOADED →
  length st = 10%nat →
  (∀ x, ¬ b * PAGE_SIZE ≤ x < (b + 1) * PAGE_SIZE → ram x = k_ram s x) →
  (∀ off, 0 ≤ off < PAGE_SIZE → ram (b * PAGE_SIZE + off) = elf0 p off) →
  installed s (set_ram ram (set_stats st (pte_set p (PtEntry b 0 (resident (is_text p))) s)))
    p b (PtEntry b 0 (resident (is_text p))).
Proof.
  intros Hi Hr Hs Hst Hout Hin. set (r' := PtEntry b 0 _).
  destruct (pte_set_proj p r' s) as (Ec & Er & Es & Et & _).
  split; ksimpl; rewrite ?Ec, ?Er, ?Es, ?Et; try done.
  - exact (pte_get_set_eq s p r' r Hr).
  - intros q Hne. exact (pte_get_set_ne s p q r' (not_eq_sym Hne)).
  - unfold swap_wf. ksimpl. rewrite Es. apply (vi_map _ _ _ _ _ Hi).
  - intros i. unfold swap_used. ksimpl. rewrite Es. split; [|by intros [? _]].
    intros ?. split; [done|]. intros (r1 & ? & ? & ?). congruence.
  - intros off Ho. rewrite Hin by done. unfold VmInv.content. by rewrite Hr, Hs.
Qed.

Lemma alloc_frame b : 0 ≤ b < 2 ^ 17 → wrap 20 (b * PAGE_SIZE / PAGE_SIZE) = b.
Proof. intros. rewrite Z.div_mul by done. apply wrap_small. lia. Qed.

(** The second half of [fault_not_loaded]: a cleared frame receives the part of
    the page that is in the executable. *)
Lemma fill_wp s fa seg ty base p r :
  running s → length (k_stats s) = 10%nat → seg_at L fa seg ty base →
  p = (al_pt L, base + page_index seg fa) → pte_get s p = Some r →
  0 ≤ pt_frame_index r < 2 ^ 17 →
  (∀ off, 0 ≤ off < PAGE_SIZE → k_ram s (pt_frame_index r * PAGE_SIZE + off) = 0) →
  wp (in_elf ← (if negb (ty =? SEGMENT_STACK) then as_check_in_elf a fa else mret false);
      if (in_elf : bool) then
        cur ← gets k_curproc;
        pid ← deref cur;
        p ← proc_load pid;
        v ← deref (p_vnode p);
        as_load_page a v fa ;;
        mret tt
      else vmstats_hit VMSTAT_PAGE_FAULT_ZERO)
    (λ _ s', ∃ ram st, s' = set_ram ram (set_stats st s) ∧ length st = 10%nat ∧
      loaded (k_ram s) ram seg (pt_frame_index r) fa) fault_err s.
Proof.
  intros Hrn Hst Hat Hp Hr Hf Hzero.
  destruct (seg_at_user L Hwf _ _ _ _ Hat) as (Hsw & Hfa & Hu).
  set (inside := fa <? ROUNDUP (u32 (seg_first_vaddr seg + seg_elf_size seg)) PAGE_SIZE).
  assert (Hchk : ∃ e, (if negb (ty =? SEGMENT_STACK) then as_check_in_elf a fa else mret false) s
    = Ret e s ∧ (e = true → inside = true) ∧
      (e = false → ∀ off, 0 ≤ off < PAGE_SIZE →
         init_byte file_byte v seg (page_base fa + off) = 0)).
  { destruct (Z.eqb_spec ty SEGMENT_STACK) as [Hty|Hty]; cbn [negb].
    - exists false. split_and!; [done|done|]. intros _ off Hoff. unfold init_byte.
      assert (seg_elf_size seg = 0) as ->; [|by rewrite decide_False by lia].
      destruct (seg_at_cases L Hwf _ _ _ _ Hat) as [(_ & ? & _)|[(_ & ? & _)|(-> & _)]];
        [by subst|by subst|]. apply (aw_noelf _ Hwf).
    - exists inside. split; [|split; [done|]].
      + unfold as_check_in_elf.
        rewrite (run_get_segment L Hwf _ a (rn_as _ Hrn) _ seg ty base) by done.
        rewrite run_assert by (apply Z.leb_le; lia). by rewrite run_assert by (apply Z.ltb_lt; lia).
      + intros Hf' off Hoff. apply init_byte_zero; try done. by apply Z.ltb_ge. }
  destruct Hchk as (e & He & Htrue & Hfalse). apply wp_bind. eapply wp_eq; [exact He|].
  destruct e.
  - destruct (rn_proc _ Hrn) as (pr & Hpr & _ & Hv). unfold wp. krun.
    rewrite (run_deref _ _ pid) by apply Hrn. unfold proc_load. krun.
    rewrite (run_deref _ _ pr), (run_deref _ _ v) by done.
    apply wp_bind. eapply wp_mono; [|done|eapply as_load_page_wp; try done].
    + intros _ s' (ram & st & -> & ? & ?). apply wp_ret. exists ram, st. done.
    + by subst p.
    + apply Z.ltb_lt. by apply Htrue.
  - eapply wp_eq; [apply vmstats_hit_run; [rewrite (rn_held _ Hrn); set_solver|done|done]|].
    exists (k_ram s), (hit VMSTAT_PAGE_FAULT_ZERO (k_stats s)). split; [done|].
    split; [by rewrite length_hit|]. split; [done|]. intros off Ho _.
    rewrite Hzero by done. symmetry. by apply Hfalse.
Qed.

Lemma fault_not_loaded_wp s fa seg ty base p r :
  inv s → running s → seg_at L fa seg ty base → p = (al_pt L, base + page_index seg fa) →
  pte_get s p = Some r → pt_status r = NOT_LOADED →
  wp (fault_not_loaded a p ty fa (ty =? SEGMENT_TEXT)) (λ _ s', brought s s' p) fault_err s.
Proof.
  intros Hi Hrn Hat Hp Hr Hs.
  assert (Hpm : page_map L (page_base fa) = Some p) by (subst p; by apply page_map_at with ty).
  destruct (Himg _ _ _ _ _ Hat Hpm) as [Htx Hel].
  unfold fault_not_loaded. apply wp_bind.
  eapply wp_mono; [|by left|eapply alloc_upage_wp; try done];
    [|unfold in_mem; rewrite Hs; naive_solver].
  intros pa s1 (b & -> & Hal). pose proof (al_frame_range _ _ _ _ Hal) as Hb.
  pose proof (al_inv _ _ _ _ _ _ _ _ _ Hal) as Hi1.
  assert (Hr1 : pte_get s1 p = Some r) by (by rewrite (al_pte _ _ _ _ _ _ _ _ _ Hal)).
  unfold wp. rewrite (run_pt_set_entry p r) by done.
  rewrite alloc_frame by done. rewrite <- Htx. change (wrap 12 0) with 0.
  set (r' := PtEntry b 0 _). set (s2 := pte_set p r' s1).
  assert (Hr2 : pte_get s2 p = Some r') by (by eapply pte_get_set_eq).
  destruct (pte_set_proj p r' s1) as (Ec & Er & Es & Et & Est & Ea & Ep & Ecu & Eh & Ei).
  assert (Hrn2 : running s2).
  { eapply running_env; [exact Hrn| |].
    - etrans; [apply Hal|]. pose proof (same_env_set s1 p r' r (k_ram s2) (k_stats s2)
        (swapmap (k_swap s2)) Hr1) as He. fold s2 in He. by destruct s2 as [? ? ? []].
    - unfold s2. rewrite Eh. apply Hal. }
  assert (Hz : ∀ off, 0 ≤ off < PAGE_SIZE → k_ram s1 (b * PAGE_SIZE + off) = 0).
  { intros off Ho. apply (al_zero _ _ _ _ _ _ _ _ _ Hal). unfold PAGE_SIZE in *. lia. }
  eapply wp_mono; [|done|eapply (fill_wp s2 fa seg ty base p r'); try done].
  - intros _ s' (ram & st & -> & Hst & Hout & Hin). unfold s2 in *. rewrite Er in Hout, Hin.
    eapply installed_brought; [exact Hal|eapply load_installed; try done| |].
    + intros off Ho. rewrite Hel by done. apply Hin; [done|]. by apply Hz.
    + pose proof (same_env_set s1 p r' r ram st (swapmap (k_swap (pte_set p r' s1))) Hr1) as He.
      by destruct (pte_set p r' s1) as [? ? ? []].
    + ksimpl. rewrite Eh. apply Hal.
  - unfold s2. rewrite Est. apply (vi_stats _ _ _ _ _ Hi1).
  - unfold s2. by rewrite Er.
Qed.

(** The page of [p] comes from the swap file. *)
Lemma swapin_installed s p b r bs map st :
  inv_x (Some p) s → pte_get s p = Some r → pt_status r = IN_SWAP → 0 ≤ b < 2 ^ 17 →
  VOP_READ (swapfile (k_swap s)) (pt_swap_index r * PAGE_SIZE) PAGE_SIZE = inr bs →
  zlen bs = PAGE_SIZE → bitmap_wf map → nbits map = SWAPFILE_NPAGES →
  bitmap_set map = swap_used s ∖ {[pt_swap_index r]} → length st = 10%nat →
  let r' := PtEntry b 0 (resident (is_text p)) in
  installed s (pte_set p r' (set_swapmap map
    (kmem_write (PADDR_TO_KVADDR (b * PAGE_SIZE)) bs (set_stats st s)))) p b r'.
Proof.
  intros Hi Hr Hs Hb Hrd Hlen Hwf' Hnb Hset Hst r'.
  match goal with |- installed _ (pte_set _ _ ?s1) _ _ _ =>
    set (s1' := s1); assert (Hr1 : pte_get s1' p = Some r) by done;
    destruct (pte_set_proj p r' s1) as (Ec & Er & Es & Et & Est & _) end.
  fold s1' in Ec, Er, Es, Et, Est.
  assert (Hb' : KVADDR_TO_PADDR (PADDR_TO_KVADDR (b * PAGE_SIZE)) = b * PAGE_SIZE).
  { apply kvaddr_roundtrip. unfold PAGE_SIZE. lia. }
  split; rewrite ?Ec, ?Er, ?Es, ?Et, ?Est; try done.
  - by eapply pte_get_set_eq.
  - intros q Hne. exact (pte_get_set_ne s1' p q r' (not_eq_sym Hne)).
  - split; rewrite Es; done.
  - intros i. unfold swap_used. rewrite Es. unfold s1'. ksimpl. rewrite Hset.
    rewrite elem_of_difference, elem_of_singleton. unfold swap_used.
    split; intros [Hu Hne]; (split; [done|]).
    + intros (r1 & ? & ? & ?). naive_solver.
    + intros ->. apply Hne. eauto.
  - intros x Hx. unfold s1'. ksimpl. rewrite Hb'. apply ram_write_out.
    rewrite Hlen. unfold PAGE_SIZE in *. lia.
  - intros off Ho. unfold s1', VmInv.content. ksimpl. rewrite Hb', Hr, Hs.
    destruct (arr_get_ex bs off) as [x Hx]; [lia|].
    rewrite (ram_write_in _ _ _ _ x) by (by replace (b * PAGE_SIZE + off - b * PAGE_SIZE) with off by lia).
    apply (vop_read_bytes _ _ _ _ _ _ Hrd Hx).
Qed.

Lemma fault_in_swap_wp s p r :
  inv s → running s → pte_get s p = Some r → pt_status r = IN_SWAP →
  wp (fault_in_swap p (is_text p)) (λ _ s', brought s s' p) fault_err s.
Proof.
  intros Hi Hrn Hr Hs. unfold fault_in_swap. apply wp_bind.
  eapply wp_mono; [|by left|eapply alloc_upage_wp; try done];
    [|unfold in_mem; rewrite Hs; naive_solver].
  intros pa s1 (b & -> & Hal). pose proof (al_frame_range _ _ _ _ Hal) as Hb.
  pose proof (al_inv _ _ _ _ _ _ _ _ _ Hal) as Hi1.
  assert (Hr1 : pte_get s1 p = Some r) by (by rewrite (al_pte _ _ _ _ _ _ _ _ _ Hal)).
  pose proof (al_held _ _ _ _ _ _ _ _ _ Hal) as Hh1.
  unfold wp. rewrite (run_pt_load p r) by done. apply wp_bind.
  apply wp_swap_in; try (rewrite Hh1; set_solver).
  - apply (vi_map _ _ _ _ _ Hi1).
  - apply (vi_stats _ _ _ _ _ Hi1).
  - by apply Z.mod_mul.
  - by eapply (vi_swap _ _ _ _ _ Hi1).
  - intros bs map Hrd Hlen Hwf' Hnb Hset. unfold wp.
    match goal with |- context [pt_set_entry _ _ _ _ ?x] => set (s2 := x) end.
    pose proof (run_pt_set_entry p r (b * PAGE_SIZE) 0 (resident (is_text p)) (λ u, mret u) s2) as Hv.
    rewrite run_bind in Hv.
    destruct (pt_set_entry _ _ _ _ s2) as [[] s'| | |]; specialize (Hv Hr1 ltac:(done)); try done.
    injection Hv as ->. rewrite alloc_frame by done. change (wrap 12 0) with 0.
    set (r' := PtEntry b 0 _).
    destruct (pte_set_proj p r' s2) as (Ec & _ & _ & _ & _ & Ea & Ep & Ecu & Eh & Ei).
    eapply (installed_brought s s1 _ p b r'); [done| | |by rewrite Eh].
    + eapply swapin_installed; try done. rewrite !length_hit. apply (vi_stats _ _ _ _ _ Hi1).
    + split; rewrite ?Ea, ?Ep, ?Ecu, ?Ei, ?Ec; try done. intros q.
      rewrite (pte_get_set s2 p q r' r Hr1). case_decide; [|done]. subst q.
      rewrite Hr1. split; eauto.
  - by do 3 right; left.
  - by do 4 right.
Qed.

(** ** [vm_fault] *)

Lemma run_proc_getas {B} (f : option Z → K (kstate V) B) s :
  running s → mbind f proc_getas s = f (Some a) s.
Proof.
  intros Hrn. destruct (rn_proc _ Hrn) as (pr & Hpr & <- & _).
  apply (run_getas s pid pr); [apply Hrn|done|apply Hrn].
Qed.

Lemma set_stats_inv s st : inv s → length st = 10%nat → inv (set_stats st s).
Proof. intros [Hcm] ?. split; try done. by destruct Hcm. Qed.

Lemma set_stats_running s st : running s → running (set_stats st s).
Proof. by intros []. Qed.

(** What a fault on [fa] that is resolved leaves behind. *)
Record resolved s s' (fa : Z) (p : ptptr) : Prop := {
  rs_inv : inv s';
  rs_running : running s';
  rs_env : same_env s s';
  rs_content : same_content s s';
  rs_tlb : ∃ r, pte_get s' p = Some r ∧ in_mem r ∧
    tlb_maps (k_tlb s') (page_base fa) (pt_frame_index r) (is_text p);
}.

(** The last part: the translation of a page in memory goes to the TLB. *)
Lemma insert_wp s s1 fa p :
  running s → same_env s s1 → same_content s s1 →
  inv s1 → k_held s1 = [] → (∃ r, pte_get s1 p = Some r ∧ in_mem r) →
  page_map L (page_base fa) = Some p → 0 ≤ fa < USERSPACETOP →
  (∀ f ro, ¬ tlb_maps (k_tlb s1) (page_base fa) f ro) →
  wp (r' ← pt_load p;
      tlb_insert (Z.land fa PAGE_FRAME) (u32 (pt_frame_index r' * PAGE_SIZE)) (is_text p) ;;
      mret 0)
    (λ c s', c = 0 ∧ resolved s s' fa p) fault_err s1.
Proof.
  intros Hrn He Hc Hi Hh (r & Hr & Hm) Hpm Hfa Hmiss.
  assert (Hf := frame_range _ _ _ _ _ Hi _ _ (vi_mem _ _ _ _ _ Hi p r Hr Hm)).
  pose proof (vi_tlbwf _ _ _ _ _ Hi) as Htw.
  unfold USERSPACETOP, MIPS_KSEG0 in Hfa. unfold wp. rewrite (run_pt_load p r) by done.
  rewrite page_base_land by lia. rewrite wrap_small by (unfold PAGE_SIZE; lia).
  rewrite run_tlb_insert; [|by rewrite page_frame_spec, Z.div_mul by (unfold PAGE_SIZE; lia)
    |rewrite Hh; set_solver|apply (vi_stats _ _ _ _ _ Hi)
    |rewrite tw_zlen by done; apply Htw].
  set (st := hit _ _). split; [done|].
  assert (Hva : 0 ≤ page_base fa < MIPS_KSEG0).
  { pose proof (vpn_bounds fa) as Hb. fold (page_base fa) in Hb. unfold MIPS_KSEG0.
    split; [|lia]. unfold page_base. assert (0 ≤ vpn fa) by (apply Z.div_pos; unfold PAGE_SIZE; lia).
    unfold PAGE_SIZE. lia. }
  split.
  - eapply vm_inv_insert; try done; [apply page_base_mod|]. unfold st. rewrite length_hit.
    apply (vi_stats _ _ _ _ _ Hi).
  - eapply running_env; [done| |done]. etrans; [done|]. by split.
  - etrans; [done|]. by split.
  - etrans; [done|]. by intros q off.
  - exists r. split_and!; [done|done|]. apply tlb_maps_inserted. done.
Qed.

Lemma vm_fault_wp s ft fa seg ty base p :
  inv s → running s → ft = VM_FAULT_READ ∨ ft = VM_FAULT_WRITE →
  seg_at L fa seg ty base → page_map L (page_base fa) = Some p →
  (∀ f ro, ¬ tlb_maps (k_tlb s) (page_base fa) f ro) →
  wp (vm_fault ft fa) (λ c s', c = 0 ∧ resolved s s' fa p) fault_err s.
Proof.
  intros Hi Hrn Hft Hat Hpm Hmiss. unfold vm_fault, wp.
  destruct (Himg _ _ _ _ _ Hat Hpm) as [Htx _].
  assert (p = (al_pt L, base + page_index seg fa)) as Hp.
  { rewrite (page_map_at L Hwf _ _ _ _ Hat) in Hpm. by injection Hpm. }
  rewrite run_vmstats_hit; [|rewrite (rn_held _ Hrn); set_solver|apply (vi_stats _ _ _ _ _ Hi)|done].
  set (s0 := set_stats _ s).
  assert (Hi0 : inv s0) by (apply set_stats_inv; [done|rewrite length_hit; apply (vi_stats _ _ _ _ _ Hi)]).
  assert (Hrn0 : running s0) by (by apply set_stats_running).
  assert (Hc0 : same_content s s0) by (by intros q off).
  assert (He0 : same_env s s0) by (by split).
  assert (Hreload : ∀ r, pte_get s0 p = Some r → in_mem r → wp (vmstats_hit VMSTAT_TLB_RELOAD)
    (λ _ s1, brought s0 s1 p) fault_err s0).
  { intros r Hr Hm. eapply wp_eq; [apply vmstats_hit_run; [rewrite (rn_held _ Hrn0); set_solver| |done]|].
    - apply (vi_stats _ _ _ _ _ Hi0).
    - split; try done; [|by eauto|apply Hrn0].
      apply set_stats_inv; [done|]. rewrite length_hit. apply (vi_stats _ _ _ _ _ Hi0). }
  rewrite (proj2 (Z.eqb_neq ft VM_FAULT_READONLY)) by (destruct Hft; subst; done).
  replace (negb _) with false by (destruct Hft; subst; done).
  krun. rewrite (rn_cur _ Hrn0). rewrite run_proc_getas by done.
  rewrite (run_as_load _ _ _ _ (rn_as _ Hrn0)). rewrite !run_assert by done.
  rewrite (run_seg_type L Hwf _ _ (rn_as _ Hrn0) _ seg ty base) by done.
  assert (Hty : (ty =? 0) = false).
  { destruct (seg_at_cases L Hwf _ _ _ _ Hat) as [(_ & -> & _)|[(_ & -> & _)|(_ & -> & _)]]; done. }
  rewrite Hty. krun. rewrite (run_pt_get_entry L Hwf _ _ (rn_as _ Hrn0) _ seg ty base) by done.
  rewrite <- Hp. destruct (seg_at_user L Hwf _ _ _ _ Hat) as (_ & _ & Hu).
  destruct (rn_tab _ Hrn0 p.2) as [r Hr].
  { by destruct (page_map_index L Hwf _ _ Hpm). }
  replace (al_pt L, p.2) with p in Hr by (by subst p).
  rewrite (run_pt_load p r) by done. rewrite <- Htx.
  set (Q := λ _ : unit, λ s1, same_env s s1 ∧ same_content s s1 ∧ inv s1 ∧ k_held s1 = [] ∧
    (∃ r, pte_get s1 p = Some r ∧ in_mem r) ∧ (∀ f ro, ¬ tlb_maps (k_tlb s1) (page_base fa) f ro)).
  match goal with |- context [mbind ?k ?m s0] => change (wp (mbind k m)
    (λ c s', c = 0 ∧ resolved s s' fa p) fault_err s0); apply wp_bind;
    enough (Hmid : wp m Q fault_err s0) end.
  { eapply wp_mono; [|done|exact Hmid]. intros [] s1 (He & Hc & Hi1 & Hh & Hex & Hm1).
    unfold wp. krun. rewrite run_assert by (by cbn). by eapply insert_wp. }
  assert (Hbr : ∀ s1, brought s0 s1 p → Q tt s1).
  { intros s1 []. split_and!; [by etrans|by etrans|done|done|done|]. intros f ro Hm.
    by eapply Hmiss, br_tlb0. }
  eapply (wp_mono _ (λ _ s1, brought s0 s1 p)); [by intros [] s1 ?%Hbr|done|].
  destruct (pt_status r) eqn:Hs.
  - rewrite Htx. by eapply fault_not_loaded_wp.
  - eapply Hreload; [done|by left].
  - by eapply fault_in_swap_wp.
  - eapply Hreload; [done|by right].
Qed.

End fault.

(** ** Faults that end the process *)

Section killed.
Context {V : Type} `{VnodeOps V}.
Implicit Types s : kstate V.

(** The state in which a thread of process [pid] ends with [status]: the status
    is recorded, the thread has left the process and the exit semaphore is
    posted. *)
Definition exited (pid status : Z) (pr : proc V) s : kstate V :=
  set_curproc None (set_procs
    (<[pid := Proc (p_numthreads pr - 1) (p_addrspace pr) (p_vnode pr)
                (Z.land status 0xff) (p_sem pr + 1)]> (k_procs s)) s).

Lemma sys__exit_run {A} s pid pr status :
  k_curproc s = Some pid → k_procs s !! pid = Some pr → k_held s = [] → 0 < p_numthreads pr →
  sys__exit (A := A) status s = Exit (Z.land status 0xff) (exited pid status pr s).
Proof.
  intros Hc Hp Hh Hn. unfold sys__exit, proc_load. krun.
  rewrite (run_deref _ _ pid) by done. krun. rewrite (run_deref _ _ pr) by done. krun.
  unfold proc_remthread, proc_load. krun. ksimpl. rewrite (run_deref _ _ pid) by done.
  krun. rewrite run_acquire by (ksimpl; rewrite Hh; set_solver). krun. ksimpl.
  erewrite run_deref by apply lookup_insert_eq. cbn [p_numthreads p_addrspace p_vnode p_status p_sem].
  krun. rewrite run_assert by (by apply Z.ltb_lt). krun.
  rewrite (run_release _ _ _ []); [|by ksimpl; rewrite Hh|set_solver]. krun. ksimpl.
  erewrite run_deref by apply lookup_insert_eq. cbn [p_numthreads p_addrspace p_vnode p_status p_sem].
  krun. unfold thread_exit. f_equal. unfold exited. destruct s; cbn in *. subst.
  unfold set_curproc, set_procs; cbn. f_equal. by rewrite !insert_insert_eq.
Qed.

End killed.
