(* ===== verification/User.v ===== *)
(** * User: the memory that user code sees

    The MIPS memory unit translates the address of each access through the TLB
    and raises an exception when it cannot; [mips_trap]
    (kern/arch/mips/locore/trap.c) hands the exception to [vm_fault] and the
    access is tried again.  For a process whose address space is well formed,
    any sequence of loads and stores behaves as on a flat memory whose initial
    contents are those of the executable: demand loading, eviction to the swap
    file, reloading and TLB replacement cannot be observed. *)

From stdpp Require Import base gmap list strings fin_maps.
From Stdlib Require Import ZArith Lia.
From S2P Require Import Prelude Types Bitmap Machine Vmstats Tlb Swapfile Segment.
From S2P Require Import Pagetable Coremap VmInv Vm Layout Fault.
Set Default Goal Selector "!".
Open Scope Z_scope.

(** kern/arch/mips/include/trapframe.h: the exception codes of the memory unit *)
Definition EX_MOD : Z := 1.
Definition EX_TLBL : Z := 2.
Definition EX_TLBS : Z := 3.
Definition EX_ADEL : Z := 4.
Definition EX_ADES : Z := 5.

(** The memory unit for an access of user mode: the exception code, or the
    physical address. *)
Definition mmu (t : tlb_state) (va : Z) (store : bool) : Z + Z :=
  if negb ((0 <=? va) && (va <? MIPS_KSEG0)) then inl (if store then EX_ADES else EX_ADEL)
  else
    match tlb_lookup t va with
    | None => inl (if store then EX_TLBS else EX_TLBL)
    | Some (_, lo) =>
        if Z.land lo TLBLO_VALID =? 0 then inl (if store then EX_TLBS else EX_TLBL)
        else if store && (Z.land lo TLBLO_DIRTY =? 0) then inl EX_MOD
        else inr (Z.land lo TLBLO_PPAGE + Z.land va 0xfff)
    end.

Section user.
Context {V : Type} `{VnodeOps V}.

(** An exception of the memory unit in user mode.  [vm_fault] resolves it, or
    the fault is fatal and [kill_curthread] stops the machine. *)
Definition kill_curthread (code : Z) : K (kstate V) unit :=
  panic "I don't know how to handle this".

Definition mips_trap (code vaddr : Z) : K (kstate V) unit :=
  if code =? EX_MOD then
    r ← vm_fault VM_FAULT_READONLY vaddr;
    if r =? 0 then mret tt else kill_curthread code
  else if code =? EX_TLBL then
    r ← vm_fault VM_FAULT_READ vaddr;
    if r =? 0 then mret tt else kill_curthread code
  else if code =? EX_TLBS then
    r ← vm_fault VM_FAULT_WRITE vaddr;
    if r =? 0 then mret tt else kill_curthread code
  else kill_curthread code.

(** The access of one byte: after an exception that is resolved, the
    instruction runs again. *)
Fixpoint user_load (fuel : nat) (va : Z) : K (kstate V) Z :=
  match fuel with
  | O => diverge
  | S fuel' =>
      t ← gets k_tlb;
      match mmu t va false with
      | inr pa => gets (λ s, k_ram s pa)
      | inl code => mips_trap code va ;; user_load fuel' va
      end
  end.

Fixpoint user_store (fuel : nat) (va x : Z) : K (kstate V) unit :=
  match fuel with
  | O => diverge
  | S fuel' =>
      t ← gets k_tlb;
      match mmu t va true with
      | inr pa => modify (λ s, set_ram (λ a, if decide (a = pa) then x else k_ram s a) s)
      | inl code => mips_trap code va ;; user_store fuel' va x
      end
  end.

(** A sequence of accesses, and the values it loads. *)
Inductive user_op := ULoad (va : Z) | UStore (va x : Z).

Fixpoint user_run (fuel : nat) (ops : list user_op) : K (kstate V) (list Z) :=
  match ops with
  | [] => mret []
  | ULoad va :: ops' =>
      x ← user_load fuel va;
      xs ← user_run fuel ops';
      mret (x :: xs)
  | UStore va x :: ops' => user_store fuel va x ;; user_run fuel ops'
  end.

End user.

(** The flat memory of the specification. *)
Fixpoint flat_run (mem : Z → Z) (ops : list user_op) : list Z * (Z → Z) :=
  match ops with
  | [] => ([], mem)
  | ULoad va :: ops' =>
      let '(xs, mem') := flat_run mem ops' in (mem va :: xs, mem')
  | UStore va x :: ops' => flat_run (λ a, if decide (a = va) then x else mem a) ops'
  end.

(** ** The memory unit on a well-formed TLB *)

Section mmu_lemmas.
Context (t : tlb_state) (Ht : tlb_wf t) (va : Z) (Hva : 0 ≤ va < MIPS_KSEG0).

Lemma vpage_base : Z.land va TLBHI_VPAGE = page_base va.
Proof. apply page_base_land. unfold MIPS_KSEG0 in *. lia. Qed.

(** The slots that match [va] are those of its page. *)
Lemma slot_match i e :
  arr_get (tlb_slots t) i = Some e →
  Z.land e.1 TLBHI_VPAGE = Z.land va TLBHI_VPAGE ↔
  ∃ f ro, 0 ≤ f < 2 ^ 20 ∧ e = (page_base va, entrylo (f * PAGE_SIZE) ro).
Proof.
  intros He. rewrite vpage_base. pose proof (tw_slots _ Ht _ _ He) as Hs.
  pose proof (arr_get_range _ _ _ He) as Hr. rewrite tw_zlen in Hr by done.
  pose proof (vpn_bounds va) as Hb. fold (page_base va) in Hb.
  inversion Hs as [|w f ro Hw Hm Hf]; subst; cbn [fst].
  - cbn [invalid_slot fst]. rewrite invalid_hi by done. unfold NUM_TLB in Hr.
    rewrite page_base_land by (unfold MIPS_KSEG0, PAGE_SIZE; lia).
    unfold MIPS_KSEG0 in *. split.
    + intros Heq. unfold page_base at 1 in Heq.
      replace (2147483648 + i * PAGE_SIZE) with ((524288 + i) * PAGE_SIZE + 0) in Heq
        by (unfold PAGE_SIZE; lia).
      rewrite vpn_add in Heq by (unfold PAGE_SIZE; lia). unfold PAGE_SIZE in *. lia.
    + intros (f & ro & _ & [= Heq _]). rewrite invalid_hi in Heq by (unfold NUM_TLB; lia).
      unfold MIPS_KSEG0, PAGE_SIZE in *. lia.
  - unfold MIPS_KSEG0 in *. rewrite page_base_land by lia.
    assert (page_base w = w) as ->.
    { rewrite (page_split w) at 2. unfold page_base. by rewrite Hm, Z.add_0_r. }
    split; [intros ->; eauto|]. by intros (f' & ro' & _ & [= -> _]).
Qed.

Lemma lookup_hit f ro :
  tlb_maps t (page_base va) f ro →
  tlb_lookup t va = Some (page_base va, entrylo (f * PAGE_SIZE) ro).
Proof.
  intros Hm. unfold tlb_lookup.
  destruct (list_find _ _) as [[j e]|] eqn:Hl; cbn.
  - apply list_find_Some in Hl as (Hj & Hp & _).
    assert (Hg : arr_get (tlb_slots t) (Z.of_nat j) = Some e)
      by (rewrite arr_get_nonneg, Nat2Z.id by lia; done).
    apply (slot_match _ _ Hg) in Hp as (f' & ro' & _ & ->).
    assert (tlb_maps t (page_base va) f' ro') as Hm' by (by eexists).
    by destruct (tlb_maps_fun t Ht _ _ _ _ _ Hm Hm') as [-> ->].
  - destruct Hm as [i Hi]. apply list_find_None in Hl.
    pose proof Hi as [_ Hi']%arr_get_Some. rewrite Forall_lookup in Hl.
    destruct (Hl _ _ Hi'). cbn. rewrite vpage_base.
    pose proof (vpn_bounds va). unfold MIPS_KSEG0 in *.
    assert (0 ≤ vpn va) by (apply Z.div_pos; unfold PAGE_SIZE; lia).
    change TLBHI_VPAGE with PAGE_FRAME.
    rewrite page_base_land by (unfold page_base, PAGE_SIZE in *; lia).
    unfold page_base at 1. by rewrite vpn_base.
Qed.

Lemma lookup_miss :
  (∀ f ro, ¬ tlb_maps t (page_base va) f ro) → tlb_lookup t va = None.
Proof.
  intros Hno. unfold tlb_lookup. destruct (list_find _ _) as [[j e]|] eqn:Hl; [|done].
  apply list_find_Some in Hl as (Hj & Hp & _).
  assert (Hg : arr_get (tlb_slots t) (Z.of_nat j) = Some e)
    by (rewrite arr_get_nonneg, Nat2Z.id by lia; done).
  apply (slot_match _ _ Hg) in Hp as (f' & ro' & _ & ->). destruct (Hno f' ro'). by eexists.
Qed.

Lemma tlb_cases :
  (∃ f ro, tlb_maps t (page_base va) f ro) ∨ (∀ f ro, ¬ tlb_maps t (page_base va) f ro).
Proof.
  destruct (tlb_lookup t va) as [e|] eqn:Hl; unfold tlb_lookup in Hl.
  - left. destruct (list_find _ _) as [[j e']|] eqn:Hf; [|done]. injection Hl as ->.
    apply list_find_Some in Hf as (Hj & Hp & _).
    assert (Hg : arr_get (tlb_slots t) (Z.of_nat j) = Some e)
      by (rewrite arr_get_nonneg, Nat2Z.id by lia; done).
    apply (slot_match _ _ Hg) in Hp as (f & ro & _ & ->). exists f, ro. by eexists.
  - right. intros f ro Hm%lookup_hit. unfold tlb_lookup in Hm. congruence.
Qed.

Lemma user_addr : negb ((0 <=? va) && (va <? MIPS_KSEG0)) = false.
Proof. apply negb_false_iff, andb_true_intro. split; [apply Z.leb_le|apply Z.ltb_lt]; lia. Qed.

Lemma mmu_miss store :
  (∀ f ro, ¬ tlb_maps t (page_base va) f ro) →
  mmu t va store = inl (if store then EX_TLBS else EX_TLBL).
Proof. intros Hno. unfold mmu. by rewrite user_addr, lookup_miss. Qed.

Lemma mmu_hit store f ro :
  tlb_maps t (page_base va) f ro →
  mmu t va store = if store && ro then inl EX_MOD else inr (f * PAGE_SIZE + va mod PAGE_SIZE).
Proof.
  intros Hm. unfold mmu. rewrite user_addr, (lookup_hit f ro Hm).
  rewrite (proj2 (Z.eqb_neq _ 0)) by apply entrylo_valid. rewrite entrylo_dirty.
  destruct (store && ro); [done|]. change TLBLO_PPAGE with PAGE_FRAME.
  destruct (tlb_maps_range t Ht _ _ _ Hm) as (_ & _ & Hf). rewrite entrylo_frame by done.
  unfold MIPS_KSEG0 in *. by rewrite page_off_spec by lia.
Qed.

End mmu_lemmas.

(** ** Accesses of the running process *)

Section simulation.
Context {V : Type} `{VnodeOps V} (file_byte : V → Z → Z) `{!VnodeLaws V file_byte}.
Context (write_full : ∀ v off bs v' n, VOP_WRITE v off bs = inr (v', n) → n = zlen bs).
Context (elf0 : ptptr → Z → Z) (is_text : ptptr → bool).
Context (pid a : Z) (L : as_layout) (v : V).
Context (Hwf : as_wf L) (Himg : image_of file_byte elf0 is_text L v).
Implicit Types s : kstate V.

Abbreviation inv := (vm_inv (page_map L) elf0 is_text).
Abbreviation running := (running pid a L v).
Abbreviation same_content := (same_content file_byte elf0).
Abbreviation content := (content file_byte elf0).

(** The byte the process has at address [va]. *)
Definition view s (va : Z) : Z :=
  match page_map L (page_base va) with
  | Some p => content s p (va mod PAGE_SIZE)
  | None => 0
  end.

Lemma page_off_range va : 0 ≤ va mod PAGE_SIZE < PAGE_SIZE.
Proof. by apply Z.mod_pos_bound. Qed.

Lemma same_content_view s s' va : same_content s s' → view s' va = view s va.
Proof.
  intros Hc. unfold view. destruct (page_map L (page_base va)); [|done].
  apply Hc, page_off_range.
Qed.

(** A TLB hit designates the frame of the page. *)
Lemma hit_entry s va p f ro :
  inv s → page_map L (page_base va) = Some p → tlb_maps (k_tlb s) (page_base va) f ro →
  ∃ r, pte_get s p = Some r ∧ in_mem r ∧ pt_frame_index r = f ∧ ro = is_text p.
Proof.
  intros Hi Hp Hm. destruct (vi_tlb _ _ _ _ _ Hi _ _ _ Hm) as (q & r & Hq & Hr & Hmr & Hf & Hro).
  assert (p = q) as <- by congruence. exists r. split_and!; try done.
  pose proof (vi_text _ _ _ _ _ Hi p r Hr) as Ht. destruct (is_text p), ro; try done.
  - destruct Ht as [Hs|Hs]; [destruct Hmr; congruence|]. by destruct Hro as [_ ->].
  - by destruct Ht, Hro as [-> _].
Qed.

Lemma hit_load s va p f ro :
  inv s → page_map L (page_base va) = Some p → tlb_maps (k_tlb s) (page_base va) f ro →
  k_ram s (f * PAGE_SIZE + va mod PAGE_SIZE) = view s va.
Proof.
  intros Hi Hp Hm. destruct (hit_entry _ _ _ _ _ Hi Hp Hm) as (r & Hr & Hmr & <- & _).
  unfold view, VmInv.content. rewrite Hp, Hr. by destruct Hmr as [-> | ->].
Qed.

(** Writing a byte of a page in memory that is not of the text segment. *)
Lemma store_byte s p r o x :
  inv s → pte_get s p = Some r → in_mem r → is_text p = false → 0 ≤ o < PAGE_SIZE →
  let s' := set_ram (λ a, if decide (a = pt_frame_index r * PAGE_SIZE + o) then x else k_ram s a) s in
  inv s' ∧ ∀ q off, 0 ≤ off < PAGE_SIZE →
    content s' q off = if decide (q = p ∧ off = o) then x else content s q off.
Proof.
  intros Hi Hr Hm Ht Ho s'.
  assert (Hne : ∀ q rq off, pte_get s q = Some rq → in_mem rq → 0 ≤ off < PAGE_SIZE →
    pt_frame_index rq * PAGE_SIZE + off = pt_frame_index r * PAGE_SIZE + o → q = p ∧ off = o).
  { intros q rq off Hq Hmq Hoff He.
    assert (pt_frame_index rq = pt_frame_index r) by (unfold PAGE_SIZE in *; lia).
    split; [by eapply (frame_inj _ _ _ _ _ Hi)|lia]. }
  split.
  - pose proof (vi_ro _ _ _ _ _ Hi) as Hro. pose proof (vi_text _ _ _ _ _ Hi) as Htx.
    destruct Hi as [Hcm]. split; try done; [by destruct Hcm|].
    intros q rq off Hq Hs Hoff. unfold s'. ksimpl. change (pte_get s q = Some rq) in Hq.
    rewrite decide_False; [by apply Hro|]. intros He.
    destruct (Hne q rq off) as [-> _]; try done; [by right|].
    specialize (Htx p rq Hq). by rewrite Ht in Htx.
  - intros q off Hoff. unfold VmInv.content. change (pte_get s' q) with (pte_get s q).
    destruct (pte_get s q) as [rq|] eqn:Hq; cycle 1.
    { rewrite decide_False; [done|]. intros [-> _]. congruence. }
    destruct (decide (q = p ∧ off = o)) as [[-> ->]|Hd].
    + assert (rq = r) as -> by congruence. unfold s'. ksimpl.
      destruct Hm as [-> | ->]; by rewrite decide_True.
    + unfold s'. ksimpl. destruct (pt_status rq) eqn:Hs; try done;
        (rewrite decide_False; [done|]); intros He; apply Hd; eapply Hne; try done;
        [by left|by right].
Qed.

(** The effect of one access that goes through. *)
Record stepped s s' (mem : Z → Z) : Prop := {
  st_inv : inv s';
  st_running : running s';
  st_view : ∀ va, view s' va = mem va;
  st_other : ∀ q off, q.1 ≠ al_pt L → 0 ≤ off < PAGE_SIZE → content s' q off = content s q off;
}.

(** A fault resolved by [mips_trap]: the next attempt finds the translation. *)
Lemma trap_wp s va (store : bool) seg ty base p :
  inv s → running s → seg_at L va seg ty base → page_map L (page_base va) = Some p →
  (∀ f ro, ¬ tlb_maps (k_tlb s) (page_base va) f ro) →
  wp (mips_trap (if store then EX_TLBS else EX_TLBL) va)
    (λ _ s', stepped s s' (view s) ∧ ∃ f, tlb_maps (k_tlb s') (page_base va) f (is_text p))
    fault_err s.
Proof.
  intros Hi Hrn Hat Hp Hmiss.
  assert (Hw : ∀ ft, ft = VM_FAULT_READ ∨ ft = VM_FAULT_WRITE →
    wp (r ← vm_fault ft va; if r =? 0 then mret tt else kill_curthread (if store then EX_TLBS else EX_TLBL))
    (λ _ s', stepped s s' (view s) ∧ ∃ f, tlb_maps (k_tlb s') (page_base va) f (is_text p))
    fault_err s).
  { intros ft Hft. apply wp_bind. eapply wp_mono; [|done|by eapply vm_fault_wp].
    intros c s' [-> [Hi' Hrn' _ Hc (r & _ & _ & Hm)]]. apply wp_ret.
    split; [split; try done|by eauto].
    - intros w. by apply same_content_view.
    - intros q off _. apply Hc. }
  destruct store; apply Hw; [by right|by left].
Qed.

Lemma seg_at_map va seg ty base :
  seg_at L va seg ty base → 0 ≤ va < MIPS_KSEG0 ∧ ∃ p, page_map L (page_base va) = Some p ∧
    is_text p = (ty =? SEGMENT_TEXT).
Proof.
  intros Hat. destruct (seg_at_user L Hwf _ _ _ _ Hat) as (_ & _ & Hu).
  split; [done|]. eexists. pose proof (page_map_at L Hwf _ _ _ _ Hat) as Hp.
  split; [exact Hp|]. by eapply Himg.
Qed.

Lemma user_load_wp s fuel va seg ty base :
  (2 ≤ fuel)%nat → inv s → running s → seg_at L va seg ty base →
  wp (user_load fuel va) (λ x s', x = view s va ∧ stepped s s' (view s)) fault_err s.
Proof.
  intros Hfuel Hi Hrn Hat. destruct fuel as [|[|fuel]]; [lia|lia|].
  destruct (seg_at_map _ _ _ _ Hat) as (Hva & p & Hp & _).
  pose proof (vi_tlbwf _ _ _ _ _ Hi) as Htw. cbn [user_load]. unfold wp. krun.
  destruct (tlb_cases (k_tlb s) Htw va Hva) as [(f & ro & Hm)|Hmiss].
  - rewrite (mmu_hit _ Htw va Hva false f ro Hm). cbn [andb].
    split; [by eapply hit_load|]. by split.
  - rewrite (mmu_miss _ Htw va Hva false Hmiss). apply wp_bind.
    eapply wp_mono; [|done|by eapply (trap_wp s va false)].
    intros _ s' ([Hi' Hrn' Hv Ho] & f & Hm). unfold wp. krun.
    rewrite (mmu_hit _ (vi_tlbwf _ _ _ _ _ Hi') va Hva false f _ Hm). cbn [andb].
    split; [rewrite <- Hv; by eapply hit_load|]. by split.
Qed.

(** Storing through a translation that permits it. *)
Lemma hit_store s va p f x :
  inv s → running s → page_map L (page_base va) = Some p → is_text p = false →
  tlb_maps (k_tlb s) (page_base va) f false →
  stepped s (set_ram (λ a, if decide (a = f * PAGE_SIZE + va mod PAGE_SIZE) then x else k_ram s a) s)
    (λ w, if decide (w = va) then x else view s w).
Proof.
  intros Hi Hrn Hp Ht Hm. destruct (hit_entry _ _ _ _ _ Hi Hp Hm) as (r & Hr & Hmr & <- & _).
  destruct (store_byte s p r (va mod PAGE_SIZE) x) as [Hi' Hc]; try done; [apply page_off_range|].
  split; [done|by destruct Hrn| |].
  2:{ intros q off Hq Hoff. rewrite Hc, decide_False; [done| |done]. intros [-> _].
      by destruct (page_map_index L Hwf _ _ Hp). }
  intros w. unfold view.
  destruct (page_map L (page_base w)) as [q|] eqn:Hq; cycle 1.
  { rewrite decide_False; [done|]. intros ->. congruence. }
  rewrite Hc by apply page_off_range. repeat case_decide; try done.
  - exfalso. destruct_and!. subst q.
    assert (page_base w = page_base va) as Hb by (by eapply page_map_inj).
    pose proof (page_split w). pose proof (page_split va). unfold page_base, vpn in Hb. lia.
  - exfalso. subst w. naive_solver.
Qed.

Lemma user_store_wp s fuel va x seg ty base :
  (2 ≤ fuel)%nat → inv s → running s → seg_at L va seg ty base → ty ≠ SEGMENT_TEXT →
  wp (user_store fuel va x)
    (λ _ s', stepped s s' (λ w, if decide (w = va) then x else view s w)) fault_err s.
Proof.
  intros Hfuel Hi Hrn Hat Hty. destruct fuel as [|[|fuel]]; [lia|lia|].
  destruct (seg_at_map _ _ _ _ Hat) as (Hva & p & Hp & Ht).
  rewrite (proj2 (Z.eqb_neq _ _) Hty) in Ht.
  pose proof (vi_tlbwf _ _ _ _ _ Hi) as Htw. cbn [user_store]. unfold wp. krun.
  destruct (tlb_cases (k_tlb s) Htw va Hva) as [(f & ro & Hm)|Hmiss].
  - destruct (hit_entry _ _ _ _ _ Hi Hp Hm) as (_ & _ & _ & _ & Hro). rewrite Ht in Hro. subst ro.
    rewrite (mmu_hit _ Htw va Hva true f false Hm). cbn [andb]. by eapply hit_store.
  - rewrite (mmu_miss _ Htw va Hva true Hmiss). apply wp_bind.
    eapply wp_mono; [|done|by eapply (trap_wp s va true)].
    intros _ s' ([Hi' Hrn' Hv Ho] & f & Hm). rewrite Ht in Hm. unfold wp. krun.
    rewrite (mmu_hit _ (vi_tlbwf _ _ _ _ _ Hi') va Hva true f _ Hm). cbn [andb].
    destruct (hit_store s' va p f x Hi' Hrn' Hp Ht Hm) as [? ? Hw Ho']. split; try done.
    + intros w. rewrite Hw. by rewrite Hv.
    + intros q off Hq Hoff. by rewrite Ho', Ho.
Qed.

(** The result of an access that must not go through: the process ends with
    status 255 and no page has changed. *)
Definition refused {A} s (o : outcome (kstate V) A) : Prop :=
  match o with
  | Exit c s' => c = 255 ∧ (∃ pr, k_procs s' !! pid = Some pr ∧ p_status pr = 255) ∧
      k_curproc s' = None ∧ same_content s s'
  | Panic w => fault_err w
  | _ => False
  end.

Lemma readonly_refused s va pr :
  inv s → running s → k_procs s !! pid = Some pr → 0 < p_numthreads pr →
  vm_fault VM_FAULT_READONLY va s =
  Exit 255 (exited pid (-1) pr (set_stats (hit VMSTAT_TLB_FAULT (k_stats s)) s)).
Proof.
  intros Hi Hrn Hpr Hn. unfold vm_fault.
  rewrite run_vmstats_hit; [|rewrite (rn_held _ _ _ _ _ Hrn); set_solver|apply (vi_stats _ _ _ _ _ Hi)|done].
  cbn [Z.eqb VM_FAULT_READONLY Pos.eqb]. apply (sys__exit_run _ pid pr (-1)); try done; apply Hrn.
Qed.

Lemma outside_fault s ft va pr :
  inv s → running s → k_procs s !! pid = Some pr → 0 < p_numthreads pr →
  ft = VM_FAULT_READ ∨ ft = VM_FAULT_WRITE → seg_of L (vpn va) = None →
  vm_fault ft va s = Exit 255 (exited pid (-1) pr (set_stats (hit VMSTAT_TLB_FAULT (k_stats s)) s)).
Proof using Hwf.
  clear - Hwf. intros Hi Hrn Hpr Hn Hft Hout. unfold vm_fault.
  rewrite run_vmstats_hit; [|rewrite (rn_held _ _ _ _ _ Hrn); set_solver|apply (vi_stats _ _ _ _ _ Hi)|done].
  set (s0 := set_stats _ s).
  assert (Hrn0 : running s0) by (by apply set_stats_running).
  rewrite (proj2 (Z.eqb_neq ft VM_FAULT_READONLY)) by (destruct Hft; subst; done).
  replace (negb _) with false by (destruct Hft; subst; done).
  krun. rewrite (rn_cur _ _ _ _ _ Hrn0), (run_proc_getas pid a L v) by done.
  rewrite (run_as_load _ _ _ _ (rn_as _ _ _ _ _ Hrn0)). rewrite !run_assert by done.
  assert (Hno : ∀ sg, ¬ seg_page sg (vpn va) → in_segment sg va = false).
  { intros sg Hsg. destruct (in_segment sg va) eqn:E; [|done]. by apply in_segment_page in E. }
  rewrite (run_seg_type_none L s0 a (rn_as _ _ _ _ _ Hrn0));
    [|apply Hno; unfold seg_of in Hout; by repeat case_decide..].
  cbn [Z.eqb]. rewrite run_bind, (sys__exit_run s0 pid pr (-1)); try done; apply Hrn0.
Qed.

Lemma outside_refused s va pr :
  inv s → running s → k_procs s !! pid = Some pr → 0 < p_numthreads pr →
  0 ≤ va < MIPS_KSEG0 → seg_of L (vpn va) = None →
  refused s (user_load 1 va s) ∧ ∀ x, refused s (user_store 1 va x s).
Proof using Hwf.
  clear - Hwf. intros Hi Hrn Hpr Hn Hva Hout. pose proof (vi_tlbwf _ _ _ _ _ Hi) as Htw.
  assert (Hmiss : ∀ f ro, ¬ tlb_maps (k_tlb s) (page_base va) f ro).
  { intros f ro (p & r & Hp & _)%(vi_tlb _ _ _ _ _ Hi). unfold page_map in Hp.
    rewrite decide_True, vpn_base, Hout in Hp by apply page_base_mod. done. }
  assert (Hex : refused (A := Z) s (Exit 255 (exited pid (-1) pr
    (set_stats (hit VMSTAT_TLB_FAULT (k_stats s)) s)))).
  { split; [done|]. split; [eexists; split; [apply lookup_insert_eq|done]|]. split; [done|].
    by intros q off. }
  split; [|intros x]; cbn [user_load user_store]; rewrite run_gets, mmu_miss by done;
    rewrite run_bind; unfold mips_trap; cbn [Z.eqb EX_MOD EX_TLBL EX_TLBS Pos.eqb];
    rewrite run_bind, (outside_fault s _ va pr); auto.
Qed.

Lemma store_text_refused s va x seg base :
  inv s → running s → seg_at L va seg SEGMENT_TEXT base →
  (∃ pr, k_procs s !! pid = Some pr ∧ 0 < p_numthreads pr) →
  refused s (user_store 2 va x s).
Proof.
  intros Hi Hrn Hat Hthr. destruct (seg_at_map _ _ _ _ Hat) as (Hva & p & Hp & Ht).
  cbn in Ht. pose proof (vi_tlbwf _ _ _ _ _ Hi) as Htw.
  assert (Hmod : ∀ s' fuel f, inv s' → running s' → same_content s s' → k_procs s' = k_procs s →
    tlb_maps (k_tlb s') (page_base va) f true → refused s (user_store (S fuel) va x s')).
  { intros s' fuel f Hi' Hrn' Hc Hpe Hm. destruct Hthr as (pr & Hpr & Hn). cbn [user_store]. krun.
    rewrite (mmu_hit _ (vi_tlbwf _ _ _ _ _ Hi') va Hva true f true Hm). cbn [andb].
    unfold mips_trap. cbn [Z.eqb EX_MOD Pos.eqb]. rewrite !run_bind.
    rewrite (readonly_refused s' va pr) by (try done; by rewrite Hpe).
    split; [done|]. split; [eexists; split; [apply lookup_insert_eq|done]|]. split; [done|].
    etrans; [exact Hc|]. by intros q off. }
  destruct (tlb_cases (k_tlb s) Htw va Hva) as [(f & ro & Hm)|Hmiss].
  - destruct (hit_entry _ _ _ _ _ Hi Hp Hm) as (_ & _ & _ & _ & Hro). rewrite Ht in Hro. subst ro.
    by eapply Hmod.
  - cbn [user_store]. rewrite run_gets.
    rewrite (mmu_miss _ Htw va Hva true Hmiss). rewrite run_bind.
    unfold mips_trap. cbn [Z.eqb EX_MOD EX_TLBL EX_TLBS Pos.eqb]. rewrite run_bind.
    pose proof (vm_fault_wp file_byte elf0 is_text pid a L v write_full Hwf Himg s
      VM_FAULT_WRITE va seg SEGMENT_TEXT base p Hi Hrn (or_intror eq_refl) Hat Hp Hmiss) as Hw.
    unfold wp in Hw. destruct (vm_fault VM_FAULT_WRITE va s) as [c s'|w|c s'|]; [|done|done|done].
    destruct Hw as [-> [Hi' Hrn' He Hc (r & _ & _ & Hm)]]. rewrite Ht in Hm.
    apply (Hmod s' 0%nat (pt_frame_index r)); try done. apply He.
Qed.

(** An access within the segments that does not write the text segment. *)
Definition allowed (op : user_op) : Prop :=
  match op with
  | ULoad va => ∃ seg ty base, seg_at L va seg ty base
  | UStore va _ => ∃ seg ty base, seg_at L va seg ty base ∧ ty ≠ SEGMENT_TEXT
  end.

Definition allowedb (op : user_op) : bool :=
  match op with
  | ULoad va =>
      match seg_of L (vpn va) with Some (seg, _, _) => in_segment seg va | None => false end
  | UStore va _ =>
      match seg_of L (vpn va) with
      | Some (seg, ty, _) => in_segment seg va && negb (ty =? SEGMENT_TEXT)
      | None => false
      end
  end.

Lemma allowedb_spec op : allowedb op = true ↔ allowed op.
Proof.
  destruct op as [va|va x]; cbn; unfold seg_at;
    destruct (seg_of L (vpn va)) as [[[seg ty] base]|]; [|naive_solver| |naive_solver].
  - naive_solver.
  - rewrite andb_true_iff, negb_true_iff, Z.eqb_neq. naive_solver.
Qed.

Lemma allowedb_all ops : forallb allowedb ops = true → Forall allowed ops.
Proof.
  rewrite forallb_forall, Forall_forall. intros Hf op Hop.
  apply allowedb_spec, Hf. by apply list_elem_of_In.
Qed.

Lemma flat_run_ext mem mem' ops :
  (∀ a, mem a = mem' a) →
  (flat_run mem ops).1 = (flat_run mem' ops).1 ∧
  ∀ a, (flat_run mem ops).2 a = (flat_run mem' ops).2 a.
Proof.
  revert mem mem'. induction ops as [|[va|va x] ops IH]; intros mem mem' He; cbn; [done| |].
  - destruct (IH mem mem' He) as [H1 H2]. rewrite He.
    destruct (flat_run mem ops), (flat_run mem' ops). cbn in *. by subst.
  - apply IH. intros w. by rewrite He.
Qed.

Lemma user_run_wp ops s fuel :
  (2 ≤ fuel)%nat → inv s → running s → Forall allowed ops →
  wp (user_run fuel ops) (λ xs s', xs = (flat_run (view s) ops).1 ∧
      stepped s s' (flat_run (view s) ops).2) fault_err s.
Proof.
  intros Hfuel. revert s. induction ops as [|op ops IH]; intros s Hi Hrn Hops.
  { apply wp_ret. split; [done|]. by split. }
  apply Forall_cons in Hops as [Hop Hops']. destruct op as [va|va x]; cbn [user_run flat_run].
  - destruct Hop as (seg & ty & base & Hat). apply wp_bind.
    eapply wp_mono; [|done|by eapply user_load_wp]. intros y s1 (-> & [Hi1 Hrn1 Hv1 Ho1]).
    apply wp_bind. eapply wp_mono; [|done|by apply IH]. intros ys s2 (-> & [Hi2 Hrn2 Hv2 Ho2]).
    apply wp_ret. destruct (flat_run_ext (view s1) (view s) ops Hv1) as [E1 E2].
    destruct (flat_run (view s) ops) as [zs mem] eqn:Hf. cbn in *.
    split; [by rewrite E1|]. split; try done; [intros w; by rewrite Hv2|].
    intros q off Hq Hoff. by rewrite Ho2, Ho1.
  - destruct Hop as (seg & ty & base & Hat & Hty). apply wp_bind.
    eapply wp_mono; [|done|by eapply user_store_wp]. intros _ s1 [Hi1 Hrn1 Hv1 Ho1].
    eapply wp_mono; [|done|by apply IH]. intros ys s2 (-> & [Hi2 Hrn2 Hv2 Ho2]).
    destruct (flat_run_ext (view s1) _ ops Hv1) as [E1 E2].
    split; [done|]. split; try done; [intros w; rewrite Hv2; apply E2|].
    intros q off Hq Hoff. by rewrite Ho2, Ho1.
Qed.

End simulation.
