(* ===== verification/Loadelf.v ===== *)
(** * Loadelf: kern/syscall/loadelf.c and kern/syscall/runprogram.c

    [load_elf] reads the headers of an executable through its vnode and defines
    the text and data regions; [runprogram] builds the address space of a new
    process around it.  With demand paging no page is read here.  The result of
    [vfs_open] is a parameter of [runprogram]. *)

From stdpp Require Import base gmap list strings fin_maps.
From Stdlib Require Import ZArith Lia.
From S2P Require Import Prelude Types Bitmap Machine Vmstats Tlb Swapfile Segment.
From S2P Require Import Pagetable Coremap VmInv Vm Layout Fault.
Set Default Goal Selector "!".
Open Scope Z_scope.

(** ** kern/include/elf.h *)

Definition ELFCLASS32 : Z := 1.
Definition ELFDATA2MSB : Z := 2.
Definition EV_CURRENT : Z := 1.
Definition ET_EXEC : Z := 2.
Definition EM_MIPS : Z := 8.
Definition PT_NULL : Z := 0.
Definition PT_LOAD : Z := 1.
Definition PT_PHDR : Z := 6.
Definition PT_MIPS_REGINFO : Z := 0x70000000.
Definition sizeof_Ehdr : Z := 52.
Definition sizeof_Phdr : Z := 32.

Record Elf_Ehdr := {
  e_ident : list Z;
  e_type : Z;
  e_machine : Z;
  e_version : Z;
  e_entry : Z;
  e_phoff : Z;
  e_phentsize : Z;
  e_phnum : Z;
}.

Record Elf_Phdr := {
  p_type : Z;
  p_offset : Z;
  p_vaddr : Z;
  p_filesz : Z;
  p_memsz : Z;
}.

(** The unsigned integer of [n] bytes at offset [off] of a buffer; the machine
    is big-endian. *)
Definition be (n : nat) (bs : list Z) (off : Z) : Z :=
  foldl (λ acc b, acc * 256 + b) 0 (take n (drop (Z.to_nat off) bs)).

(** The structures as they lie in the file. *)
Definition ehdr_of (bs : list Z) : Elf_Ehdr := {|
  e_ident := take 16 bs;
  e_type := be 2 bs 16;
  e_machine := be 2 bs 18;
  e_version := be 4 bs 20;
  e_entry := be 4 bs 24;
  e_phoff := be 4 bs 28;
  e_phentsize := be 2 bs 42;
  e_phnum := be 2 bs 44;
|}.

Definition phdr_of (bs : list Z) : Elf_Phdr := {|
  p_type := be 4 bs 0;
  p_offset := be 4 bs 4;
  p_vaddr := be 4 bs 8;
  p_filesz := be 4 bs 16;
  p_memsz := be 4 bs 20;
|}.

(** The ten tests on the executable header. *)
Definition ehdr_ok (eh : Elf_Ehdr) : bool :=
  bool_decide (take 7 (e_ident eh) =
    [0x7f; 69; 76; 70; ELFCLASS32; ELFDATA2MSB; EV_CURRENT]) &&
  (e_version eh =? EV_CURRENT) && (e_type eh =? ET_EXEC) && (e_machine eh =? EM_MIPS).

Section load.
Context {V : Type} `{VnodeOps V}.

(** The loop over the program headers, [l] being the indices left. *)
Fixpoint load_phdrs (l : list Z) (a : Z) (v : V) (eh : Elf_Ehdr) : K (kstate V) Z :=
  match l with
  | [] => mret 0
  | i :: l' =>
      let offset := u32 (e_phoff eh + i * e_phentsize eh) in
      match VOP_READ v offset sizeof_Phdr with
      | inl result => mret result
      | inr bs =>
          if negb (sizeof_Phdr - zlen bs =? 0) then mret ENOEXEC else
          let ph := phdr_of bs in
          if (p_type ph =? PT_NULL) || (p_type ph =? PT_PHDR) ||
             (p_type ph =? PT_MIPS_REGINFO)
          then load_phdrs l' a v eh
          else if negb (p_type ph =? PT_LOAD) then mret ENOEXEC
          else
            result ← as_define_region a (p_vaddr ph) (p_memsz ph) (p_offset ph) (p_filesz ph);
            if negb (result =? 0) then mret result else load_phdrs l' a v eh
      end
  end.

(** The result code, and the entry point when it is 0. *)
Definition load_elf (v : V) : K (kstate V) (Z * Z) :=
  oa ← proc_getas;
  match VOP_READ v 0 sizeof_Ehdr with
  | inl result => mret (result, 0)
  | inr bs =>
      if negb (sizeof_Ehdr - zlen bs =? 0) then mret (ENOEXEC, 0) else
      let eh := ehdr_of bs in
      if negb (ehdr_ok eh) then mret (ENOEXEC, 0) else
      a ← deref oa;
      result ← load_phdrs (seqZ 0 (e_phnum eh)) a v eh;
      if negb (result =? 0) then mret (result, 0) else mret (0, e_entry eh)
  end.

(** [curproc->p_vnode = v] *)
Definition set_p_vnode (v : V) : K (kstate V) unit :=
  cur ← gets k_curproc;
  pid ← deref cur;
  p ← proc_load pid;
  modify (λ s, set_procs (<[pid := Proc (p_numthreads p) (p_addrspace p) (Some v)
                                     (p_status p) (p_sem p)]> (k_procs s)) s).

(** [opened] is the result of [vfs_open].  The value is an error code, or the
    stack pointer and the entry point given to [enter_new_process], which does
    not return. *)
Definition runprogram (opened : Z + V) : K (kstate V) (Z + Z * Z) :=
  match opened with
  | inl result => mret (inl result)
  | inr v =>
      old ← proc_getas;
      KASSERT (bool_decide (old = None)) "proc_getas() == NULL" ;;
      oa ← as_create;
      match oa with
      | None => mret (inl ENOMEM)
      | Some a =>
          proc_setas (Some a) ;;
          as_activate ;;
          '(result, entrypoint) ← load_elf v;
          if negb (result =? 0) then mret (inl result) else
          set_p_vnode v ;;
          '(stackptr, result) ← as_define_stack a;
          if negb (result =? 0) then mret (inl result) else
          result ← as_define_pt a;
          if negb (result =? 0) then mret (inl result) else
          mret (inr (stackptr, entrypoint))
      end
  end.

End load.

(** ** What the loader builds *)

(** The segment of a region of [memsz] bytes at [first]. *)
Definition region (first memsz off filesz : Z) : segment :=
  Segment first (first + memsz) (if memsz <? filesz then memsz else filesz) off
    (vpn (first + memsz - 1) - vpn first + 1).

Definition region_ok (first memsz filesz : Z) : Prop :=
  0 ≤ first ∧ 0 < memsz ∧ first + memsz ≤ USERSPACETOP ∧ 0 ≤ filesz.

Lemma region_wf first memsz off filesz :
  region_ok first memsz filesz → seg_wf (region first memsz off filesz).
Proof.
  intros (H1 & H2 & H3 & H4). split; cbn; try lia; try done.
  destruct (Z.ltb_spec memsz filesz); lia.
Qed.

(** The number of pages [as_define_region] computes. *)
Lemma region_npages first memsz filesz :
  region_ok first memsz filesz →
  DIVROUNDUP (u32 (memsz + Z.land first 0xfff)) PAGE_SIZE =
  vpn (first + memsz - 1) - vpn first + 1.
Proof.
  intros (H1 & H2 & H3 & H4). unfold USERSPACETOP, MIPS_KSEG0 in H3.
  rewrite page_off_spec by lia. pose proof (page_split first) as Hf.
  pose proof (Z.mod_pos_bound first PAGE_SIZE ltac:(done)) as Hm.
  rewrite wrap_small by (unfold PAGE_SIZE in *; lia).
  rewrite DIVROUNDUP_spec by (unfold PAGE_SIZE in *; lia).
  unfold vpn, PAGE_SIZE in *.
  replace (first + memsz - 1) with (memsz + first mod 4096 - 1 + first / 4096 * 4096) by lia.
  rewrite Z.div_add by lia.
  replace (memsz + first mod 4096 + 4096 - 1) with (memsz + first mod 4096 - 1 + 1 * 4096) by lia.
  rewrite Z.div_add by lia. lia.
Qed.

(** The program headers [load_elf] skips, and those it can map. *)
Definition skipped (ph : Elf_Phdr) : bool :=
  (p_type ph =? PT_NULL) || (p_type ph =? PT_PHDR) || (p_type ph =? PT_MIPS_REGINFO).

Definition ph_region (ph : Elf_Phdr) : segment :=
  region (p_vaddr ph) (p_memsz ph) (p_offset ph) (p_filesz ph).

Definition loadable (ph : Elf_Phdr) : Prop :=
  p_type ph = PT_LOAD ∧ region_ok (p_vaddr ph) (p_memsz ph) (p_filesz ph).

(** The first region is the text segment, the second the data segment. *)
Definition add_region (as_ : addrspace) (ph : Elf_Phdr) : addrspace :=
  match as_text as_ with
  | None => Addrspace (Some (ph_region ph)) (as_data as_) (as_stack as_) (as_ptable as_)
  | Some _ => Addrspace (as_text as_) (Some (ph_region ph)) (as_stack as_) (as_ptable as_)
  end.

(** [n] more regions can be defined. *)
Definition room (as_ : addrspace) (n : nat) : Prop :=
  match as_text as_, as_data as_ with
  | None, None => (n ≤ 2)%nat
  | Some _, None => (n ≤ 1)%nat
  | _, _ => n = 0%nat
  end.

Definition add_regions (as_ : addrspace) (phs : list Elf_Phdr) : addrspace :=
  foldl (λ as_ ph, if skipped ph then as_ else add_region as_ ph) as_ phs.

Definition count_loads (phs : list Elf_Phdr) : nat :=
  length (base.filter (λ ph, skipped ph = false) phs).

Section run.
Context {V : Type} `{VnodeOps V}.
Implicit Types s : kstate V.

Lemma run_kmalloc {B} (f : option Z → K (kstate V) B) s :
  k_nomem s = false → mbind f kmalloc s = f (Some (k_next s)) (set_next (k_next s + 1) s).
Proof. intros Hn. unfold kmalloc. krun. rewrite Hn. by krun. Qed.

Lemma run_segment_create {B} (f : segment → K (kstate V) B) s :
  k_nomem s = false →
  mbind f segment_create s = f (Segment 0 0 0 0 0) (set_next (k_next s + 1) s).
Proof.
  intros Hn. unfold segment_create. krun. rewrite run_kmalloc by done.
  krun. by rewrite run_assert by (by apply bool_decide_eq_true_2; eexists).
Qed.

Lemma run_segment_define {B} off base first last npages elfsize (f : segment → K (kstate V) B) s :
  base < USERSPACETOP → first < USERSPACETOP → last ≤ USERSPACETOP → 0 ≤ last - first < 2 ^ 32 →
  mbind f (segment_define (Segment 0 0 0 0 0) off base first last npages elfsize) s =
  f (Segment first last (if last - first <? elfsize then last - first else elfsize) off npages) s.
Proof.
  intros Hb Hf Hl Hr. unfold segment_define.
  repeat (krun; rewrite run_assert by (first [done|by apply Z.ltb_lt|by apply Z.leb_le])). krun.
  by rewrite !wrap_small by lia.
Qed.

Lemma as_define_region_run s a as_ ph :
  k_ases s !! a = Some as_ → k_nomem s = false → loadable ph → room as_ 1 →
  as_define_region a (p_vaddr ph) (p_memsz ph) (p_offset ph) (p_filesz ph) s =
  Ret 0 (set_ases (<[a := add_region as_ ph]> (k_ases s)) (set_next (k_next s + 1) s)).
Proof.
  intros Ha Hn [_ Hok] Hroom. pose proof Hok as (H1 & H2 & H3 & H4).
  pose proof (region_npages _ _ _ Hok) as Hnp. unfold as_define_region. cbv zeta.
  unfold USERSPACETOP, MIPS_KSEG0 in H3. rewrite (wrap_small 32 (p_vaddr ph + _)) by lia.
  rewrite run_assert by (apply negb_true_iff, Z.eqb_neq; lia).
  rewrite (run_as_load a as_) by done. rewrite Hnp. rewrite page_base_land by lia.
  pose proof (vpn_bounds (p_vaddr ph)) as Hv. fold (page_base (p_vaddr ph)) in Hv.
  assert (Hseg : Segment (p_vaddr ph) (p_vaddr ph + p_memsz ph)
    (if p_vaddr ph + p_memsz ph - p_vaddr ph <? p_filesz ph
     then p_vaddr ph + p_memsz ph - p_vaddr ph else p_filesz ph) (p_offset ph)
    (vpn (p_vaddr ph + p_memsz ph - 1) - vpn (p_vaddr ph) + 1) = ph_region ph).
  { replace (p_vaddr ph + p_memsz ph - p_vaddr ph) with (p_memsz ph) by lia. done. }
  unfold room in Hroom. unfold add_region.
  destruct (as_text as_) as [t|] eqn:Ht; destruct (as_data as_) as [d|] eqn:Hd; try lia;
    (rewrite run_segment_create by done; rewrite run_segment_define;
      [|unfold USERSPACETOP, MIPS_KSEG0; lia..]);
    by rewrite Hseg.
Qed.

(** The file has program header [ph] at index [i]. *)
Definition has_phdr (v : V) (eh : Elf_Ehdr) (i : Z) (ph : Elf_Phdr) : Prop :=
  ∃ bs, VOP_READ v (u32 (e_phoff eh + i * e_phentsize eh)) sizeof_Phdr = inr bs ∧
    zlen bs = sizeof_Phdr ∧ phdr_of bs = ph.

Lemma room_add as_ ph n : room as_ (S n) → room as_ 1 ∧ room (add_region as_ ph) n.
Proof.
  unfold room, add_region. destruct (as_text as_) eqn:Ht, (as_data as_) eqn:Hd; cbn;
    rewrite ?Ht, ?Hd; lia.
Qed.

Lemma load_phdrs_run a v eh phs k s as_ :
  (∀ i ph, phs !! i = Some ph → has_phdr v eh (k + Z.of_nat i) ph) →
  Forall (λ ph, skipped ph = true ∨ loadable ph) phs →
  k_ases s !! a = Some as_ → k_nomem s = false → room as_ (count_loads phs) →
  load_phdrs (seqZ k (zlen phs)) a v eh s =
  Ret 0 (set_ases (<[a := add_regions as_ phs]> (k_ases s))
           (set_next (k_next s + Z.of_nat (count_loads phs)) s)).
Proof.
  revert k s as_. induction phs as [|ph phs IH]; intros k s as_ Hph Hall Ha Hn Hroom.
  { cbn. rewrite insert_id by done. destruct s; cbn. by rewrite Z.add_0_r. }
  apply Forall_cons in Hall as [Hh Hall].
  rewrite seqZ_cons by (cbn; lia). replace (Z.pred (zlen (ph :: phs))) with (zlen phs) by (cbn; lia).
  cbn [load_phdrs]. destruct (Hph 0%nat ph eq_refl) as (bs & Hrd & Hlen & Hp).
  rewrite Z.add_0_r in Hrd. rewrite Hrd, Hlen. cbn [negb]. rewrite Z.sub_diag. cbn [Z.eqb negb].
  rewrite Hp. fold (skipped ph).
  assert (Hph' : ∀ i ph, phs !! i = Some ph → has_phdr v eh (Z.succ k + Z.of_nat i) ph).
  { intros i ph' Hi. specialize (Hph (S i) ph' Hi).
    by replace (Z.succ k + Z.of_nat i) with (k + Z.of_nat (S i)) by lia. }
  unfold count_loads in *. cbn [add_regions foldl].
  destruct (skipped ph) eqn:Hs.
  - rewrite filter_cons_False in Hroom by congruence. rewrite filter_cons_False by congruence.
    by rewrite (IH (Z.succ k) s as_).
  - destruct Hh as [?|Hl]; [done|]. rewrite filter_cons_True in Hroom by done.
    rewrite filter_cons_True by done. cbn [length] in *.
    destruct (room_add _ ph _ Hroom) as [H1 H2].
    rewrite (proj2 (Z.eqb_eq _ _) (proj1 Hl)). cbn [negb].
    rewrite run_bind, (as_define_region_run s a as_ ph) by done. cbn [negb Z.eqb].
    rewrite (IH (Z.succ k) _ (add_region as_ ph)); [|done|done|apply lookup_insert_eq|done|done].
    ksimpl. rewrite insert_insert_eq. unfold set_ases, set_next; cbn. do 2 f_equal. lia.
Qed.

End run.
