(* ===== verification/Exec.v ===== *)
(** * Exec: a new process starts on the image of its executable

    [runprogram] on an executable with two loadable segments gives a well-formed
    address space whose pages are all still in the file; the invariant of the
    memory manager holds and the pages of the other processes keep their
    contents.  With the simulation of User.v this says that user code runs on a
    flat memory that starts with the bytes of the executable. *)

From stdpp Require Import base gmap list strings fin_maps.
From Stdlib Require Import ZArith Lia.
From S2P Require Import Prelude Types Bitmap Machine Vmstats Tlb Swapfile Segment.
From S2P Require Import Pagetable Coremap VmInv Vm Layout Fault User Loadelf.
Set Default Goal Selector "!".
Open Scope Z_scope.

(** ** A new page table *)

(** Changing the running process and adding a page table: the TLB is empty and
    the new table's pages are not loaded. *)
Section new_table.
Context {V : Type} `{VnodeOps V} (file_byte : V → Z → Z).
Context (pmap pmap' : Z → option ptptr) (elf0 elf1 : ptptr → Z → Z).
Context (is_text is_text' : ptptr → bool) (s s' : kstate V) (pt n : Z).
Context (Hnew : k_ptabs s !! pt = None).
Context (Htab : k_ptabs s' = <[pt := replicate (Z.to_nat n) pt_blank]> (k_ptabs s)).
Context (Hcm : k_cm s' = k_cm s) (Hram : k_ram s' = k_ram s) (Hsw : k_swap s' = k_swap s).
Context (Htlb : k_tlb s' = TlbState all_invalid 0 true) (Hst : length (k_stats s') = 10%nat).
Context (Hsame : ∀ p, p.1 ≠ pt → is_text' p = is_text p ∧ ∀ off, elf1 p off = elf0 p off).

Lemma new_pte p : p.1 ≠ pt → pte_get s' p = pte_get s p.
Proof. intros Hp. unfold pte_get. by rewrite Htab, lookup_insert_ne. Qed.

Lemma new_pte_blank i : 0 ≤ i < n → pte_get s' (pt, i) = Some pt_blank.
Proof using Htab.
  clear - Htab. intros Hi. unfold pte_get. cbn. rewrite Htab, lookup_insert_eq.
  rewrite arr_get_nonneg by lia. apply lookup_replicate. split; [done|lia].
Qed.

Lemma new_pte_cases p r :
  pte_get s' p = Some r → (p.1 = pt ∧ r = pt_blank) ∨ (p.1 ≠ pt ∧ pte_get s p = Some r).
Proof.
  intros Hp. destruct (decide (p.1 = pt)) as [He|Hne]; [left|right].
  - split; [done|]. unfold pte_get in Hp. rewrite Htab, He, lookup_insert_eq in Hp.
    apply arr_get_Some in Hp as [_ Hp]. by apply lookup_replicate in Hp as [-> _].
  - by rewrite <- new_pte.
Qed.

(** No entry of the new table is in use before. *)
Lemma old_pte p r : pte_get s p = Some r → p.1 ≠ pt.
Proof. intros Hp He. unfold pte_get in Hp. by rewrite He, Hnew in Hp. Qed.

Lemma new_table_content p off :
  is_Some (pte_get s p) → content file_byte elf1 s' p off = content file_byte elf0 s p off.
Proof.
  intros [r Hr]. pose proof (old_pte _ _ Hr) as Hp. unfold content.
  rewrite new_pte, Hr, Hram, Hsw by done. destruct (pt_status r); try done. by apply Hsame.
Qed.

Lemma new_table_inv : vm_inv pmap elf0 is_text s → vm_inv pmap' elf1 is_text' s'.
Proof.
  intros Hi. split; rewrite ?Hcm, ?Hram, ?Htlb; try done.
  - by destruct (vi_cm _ _ _ _ _ Hi); split; rewrite Hcm.
  - apply (vi_kern0 _ _ _ _ _ Hi).
  - apply (vi_used0 _ _ _ _ _ Hi).
  - intros f p Hu _. destruct (vi_own _ _ _ _ _ Hi f p Hu) as (r & Hr & ?); [done|].
    exists r. rewrite new_pte by (by eapply old_pte). done.
  - intros p r [[_ ->]|[_ Hp]]%new_pte_cases Hm; [by destruct Hm|by apply (vi_mem _ _ _ _ _ Hi)].
  - unfold swap_wf. rewrite Hsw. apply (vi_map _ _ _ _ _ Hi).
  - intros p r [[_ ->]|[_ Hp]]%new_pte_cases Hs; [done|].
    unfold swap_used. rewrite Hsw. by eapply (vi_swap _ _ _ _ _ Hi).
  - intros p q r r' [[_ ->]|[_ Hp]]%new_pte_cases [[_ ->]|[_ Hq]]%new_pte_cases; try done.
    by apply (vi_swap_inj _ _ _ _ _ Hi).
  - intros i. unfold swap_used. rewrite Hsw. intros Hu.
    destruct (vi_swap_used _ _ _ _ _ Hi i Hu) as (p & r & Hp & ?). exists p, r.
    rewrite new_pte by (by eapply old_pte). done.
  - apply tlb_wf_invalid.
  - intros va f ro Hm. by apply tlb_maps_invalid in Hm.
  - intros p r off [[_ ->]|[Hne Hp]]%new_pte_cases Hs Hoff; [done|].
    rewrite (proj2 (Hsame p Hne)). by apply (vi_ro _ _ _ _ _ Hi).
  - intros p r [[_ ->]|[Hne Hp]]%new_pte_cases; [by destruct (is_text' p); [left|]|].
    rewrite (proj1 (Hsame p Hne)). by apply (vi_text _ _ _ _ _ Hi).
Qed.

End new_table.

(** ** The image of an executable *)

(** The segment and the page of entry [i] of the table of [L]. *)
Definition page_of (L : as_layout) (i : Z) : segment * Z :=
  let nt := seg_npages (al_text L) in
  let nd := seg_npages (al_data L) in
  if i <? nt then (al_text L, vpn (seg_first_vaddr (al_text L)) + i)
  else if i <? nt + nd then (al_data L, vpn (seg_first_vaddr (al_data L)) + (i - nt))
  else (al_stack L, vpn (seg_first_vaddr (al_stack L)) + (i - nt - nd)).

(** The initial contents and the read-only pages once the process of layout [L]
    has been added to those known before. *)
Definition elf_with {V} (file_byte : V → Z → Z) (v : V) (L : as_layout)
  (elf0 : ptptr → Z → Z) (p : ptptr) (off : Z) : Z :=
  if decide (p.1 = al_pt L) then
    let '(seg, n) := page_of L p.2 in init_byte file_byte v seg (n * PAGE_SIZE + off)
  else elf0 p off.

Definition text_with (L : as_layout) (is_text : ptptr → bool) (p : ptptr) : bool :=
  if decide (p.1 = al_pt L) then p.2 <? seg_npages (al_text L) else is_text p.

Lemma image_with {V} (file_byte : V → Z → Z) v L elf0 is_text :
  as_wf L →
  image_of file_byte (elf_with file_byte v L elf0) (text_with L is_text) L v.
Proof.
  intros Hwf fa seg ty base p Hat Hp. rewrite (page_map_at L Hwf _ _ _ _ Hat) in Hp.
  injection Hp as <-. destruct (seg_at_user L Hwf _ _ _ _ Hat) as (Hsw & Hfa & _).
  destruct (page_index_spec seg fa Hsw Hfa) as [Hpi Hr].
  pose proof (seg_npages_bound _ (aw_text _ Hwf)). pose proof (seg_npages_bound _ (aw_data _ Hwf)).
  unfold elf_with, text_with, page_of, page_base. cbn [fst snd].
  rewrite !decide_True by done. split.
  - destruct (seg_at_cases L Hwf _ _ _ _ Hat) as [(-> & -> & -> & _)|[(-> & -> & -> & _)|(-> & -> & -> & _)]];
      [apply Z.ltb_lt|apply Z.ltb_ge|apply Z.ltb_ge]; lia.
  - intros off Hoff. rewrite decide_True by done.
    destruct (seg_at_cases L Hwf _ _ _ _ Hat) as [(-> & -> & -> & _)|[(-> & -> & -> & _)|(-> & -> & -> & _)]].
    + rewrite (proj2 (Z.ltb_lt _ _)) by lia. do 3 f_equal. lia.
    + rewrite (proj2 (Z.ltb_ge _ _)), (proj2 (Z.ltb_lt _ _)) by lia. do 3 f_equal. lia.
    + rewrite !(proj2 (Z.ltb_ge _ _)) by lia. do 3 f_equal. lia.
Qed.

(** The memory of a process that has not written to it yet. *)
Definition exec_image {V} (file_byte : V → Z → Z) (v : V) (L : as_layout) (va : Z) : Z :=
  match seg_of L (vpn va) with
  | Some (seg, _, _) => init_byte file_byte v seg va
  | None => 0
  end.

Lemma elf_with_page {V} (file_byte : V → Z → Z) v L elf0 (Hwf : as_wf L) va i :
  page_map L (page_base va) = Some (al_pt L, i) →
  elf_with file_byte v L elf0 (al_pt L, i) (va mod PAGE_SIZE) =
  match seg_of L (vpn va) with
  | Some (seg, _, _) => init_byte file_byte v seg va
  | None => 0
  end.
Proof.
  intros Hp. unfold page_map in Hp. rewrite decide_True in Hp by apply page_base_mod.
  rewrite vpn_base in Hp. destruct (seg_of L (vpn va)) as [[[seg ty] base]|] eqn:Hs; [|done].
  injection Hp as <-. destruct (seg_of_cases L Hwf _ _ _ _ Hs) as ([Hn1 Hn2] & Hsw & _ & _ & Hc).
  pose proof (seg_npages_bound _ (aw_text _ Hwf)). pose proof (seg_npages_bound _ (aw_data _ Hwf)).
  pose proof (sw_npages _ Hsw) as Hnp.
  assert (Hva : vpn va * PAGE_SIZE + va mod PAGE_SIZE = va) by (symmetry; apply page_split).
  unfold elf_with, page_of. cbn [fst snd]. rewrite decide_True by done.
  destruct Hc as [(-> & _ & ->)|[(-> & _ & ->)|(-> & _ & ->)]].
  - rewrite (proj2 (Z.ltb_lt _ _)) by lia. f_equal. rewrite <- Hva at 3. f_equal. f_equal. lia.
  - rewrite (proj2 (Z.ltb_ge _ _)), (proj2 (Z.ltb_lt _ _)) by lia.
    f_equal. rewrite <- Hva at 3. f_equal. f_equal. lia.
  - rewrite !(proj2 (Z.ltb_ge _ _)) by lia. f_equal. rewrite <- Hva at 3. f_equal. f_equal. lia.
Qed.

(** ** [runprogram] *)

Definition stack_base : Z := USERSTACK - VM_STACKPAGES * PAGE_SIZE.
Definition stack_segment : segment := Segment stack_base USERSTACK 0 0 VM_STACKPAGES.

(** The address space of a process with loadable headers [t] and [d]. *)
Definition exec_layout (t d : Elf_Phdr) (pt : Z) : as_layout :=
  AsLayout (ph_region t) (ph_region d) stack_segment pt.

(** A file that can be run: its headers can be read and are those of a MIPS
    executable with two loadable segments on disjoint pages below the stack. *)
Record executable {V} `{VnodeOps V} (v : V) (eh : Elf_Ehdr) (t d : Elf_Phdr) : Prop := {
  ex_ehdr : ∃ bs, VOP_READ v 0 sizeof_Ehdr = inr bs ∧ zlen bs = sizeof_Ehdr ∧ ehdr_of bs = eh;
  ex_ok : ehdr_ok eh = true;
  ex_phdrs : ∃ phs, e_phnum eh = zlen phs ∧
    (∀ i ph, phs !! i = Some ph → has_phdr v eh (Z.of_nat i) ph) ∧
    Forall (λ ph, skipped ph = true ∨ p_type ph = PT_LOAD) phs ∧
    base.filter (λ ph, skipped ph = false) phs = [t; d];
  ex_text : region_ok (p_vaddr t) (p_memsz t) (p_filesz t);
  ex_data : region_ok (p_vaddr d) (p_memsz d) (p_filesz d);
  ex_disj : ∀ n, seg_page (ph_region t) n → seg_page (ph_region d) n → False;
  ex_below : p_vaddr t + p_memsz t ≤ stack_base ∧ p_vaddr d + p_memsz d ≤ stack_base;
}.

Lemma below_stack ph n :
  region_ok (p_vaddr ph) (p_memsz ph) (p_filesz ph) → p_vaddr ph + p_memsz ph ≤ stack_base →
  seg_page (ph_region ph) n → seg_page stack_segment n → False.
Proof.
  intros (H1 & H2 & _) Hb [_ Hn] [Hn' _]. cbn [ph_region region seg_last_vaddr seg_first_vaddr stack_segment] in Hn, Hn'.
  assert (Hs : vpn stack_base = 524270) by done.
  assert (vpn (p_vaddr ph + p_memsz ph - 1) < 524270); [|lia].
  apply Z.div_lt_upper_bound; [done|]. unfold stack_base, USERSTACK, USERSPACETOP, MIPS_KSEG0,
    VM_STACKPAGES, PAGE_SIZE in *. lia.
Qed.

Section runprogram.
Context {V : Type} `{VnodeOps V} (v : V) (eh : Elf_Ehdr) (t d : Elf_Phdr).
Context (Hex : executable v eh t d).

Lemma exec_layout_wf pt : as_wf (exec_layout t d pt).
Proof using All.
  destruct Hex as [_ _ _ Ht Hd Hdis [Hbt Hbd]].
  split; cbn [al_text al_data al_stack exec_layout]; try done.
  - by apply region_wf.
  - by apply region_wf.
  - intros n. by eapply below_stack.
  - intros n. by eapply below_stack.
Qed.

(** The process that calls [runprogram]: it has no address space. *)
Record starting (pid : Z) (pr : proc V) (s : kstate V) : Prop := {
  sg_cur : k_curproc s = Some pid;
  sg_proc : k_procs s !! pid = Some pr;
  sg_as : p_addrspace pr = None;
  sg_held : k_held s = [];
  sg_int : k_in_interrupt s = false;
  sg_mem : k_nomem s = false;
}.

Lemma load_elf_run s pid pr a as_ :
  k_curproc s = Some pid → k_procs s !! pid = Some pr → k_held s = [] →
  p_addrspace pr = Some a → k_ases s !! a = Some (Addrspace None None as_ None) →
  k_nomem s = false →
  load_elf v s = Ret (0, e_entry eh)
    (set_ases (<[a := Addrspace (Some (ph_region t)) (Some (ph_region d)) as_ None]> (k_ases s))
       (set_next (k_next s + 2) s)).
Proof using All.
  intros Hc Hp Hh Has Ha Hn. unfold load_elf. rewrite (run_getas s pid pr) by done.
  destruct (ex_ehdr _ _ _ _ Hex) as (bs & -> & -> & Heh).
  rewrite Z.sub_diag. cbn [negb Z.eqb]. rewrite Heh, (ex_ok _ _ _ _ Hex). cbn [negb].
  rewrite (run_deref _ _ a) by done.
  destruct (ex_phdrs _ _ _ _ Hex) as (phs & Hnum & Hph & Hall & Hf). rewrite Hnum, run_bind.
  assert (Hld : Forall (λ ph, skipped ph = true ∨ loadable ph) phs).
  { apply Forall_lookup_2. intros i ph Hi. rewrite Forall_lookup in Hall.
    destruct (skipped ph) eqn:Hs; [by left|right].
    destruct (Hall i ph Hi) as [?|Hty]; [congruence|]. split; [done|].
    assert (Hin : ph ∈ [t; d]).
    { rewrite <- Hf. apply list_elem_of_filter. split; [done|]. by eapply list_elem_of_lookup_2. }
    rewrite !elem_of_cons in Hin. destruct Hin as [->|[->|Hin]]; [apply Hex|apply Hex|].
    by apply not_elem_of_nil in Hin. }
  rewrite (load_phdrs_run a v eh phs 0 s (Addrspace None None as_ None));
    [|done|done|done|done|unfold room, count_loads; rewrite Hf; cbn; lia].
  unfold count_loads. rewrite Hf. cbn [Z.eqb negb length].
  assert (∀ l (b : addrspace), add_regions b l =
    foldl add_region b (base.filter (λ ph, skipped ph = false) l)) as ->.
  { induction l as [|ph l IH]; intros b; [done|]. cbn [add_regions foldl].
    fold (add_regions (if skipped ph then b else add_region b ph) l). rewrite IH.
    destruct (skipped ph) eqn:E;
      [rewrite filter_cons_False by congruence|rewrite filter_cons_True by done]; done. }
  by rewrite Hf.
Qed.

(** The layout of the process started in [s]: the page table is the fifth
    object allocated, after the address space and its three segments. *)
Definition new_layout (s : kstate V) : as_layout := exec_layout t d (k_next s + 4).

(** What [runprogram] has done when it enters user mode. *)
Record launched (pid : Z) (s s' : kstate V) : Prop := {
  la_cm : k_cm s' = k_cm s;
  la_ram : k_ram s' = k_ram s;
  la_swap : k_swap s' = k_swap s;
  la_tlb : k_tlb s' = TlbState all_invalid 0 true;
  la_stats : length (k_stats s') = 10%nat;
  la_tabs : k_ptabs s' = <[al_pt (new_layout s) :=
    replicate (Z.to_nat (pt_size (new_layout s))) pt_blank]> (k_ptabs s);
  la_as : k_ases s' !! k_next s = Some (layout_as (new_layout s));
  la_cur : k_curproc s' = Some pid;
  la_proc : ∃ pr, k_procs s' !! pid = Some pr ∧ p_addrspace pr = Some (k_next s) ∧
    p_vnode pr = Some v;
  la_held : k_held s' = [];
  la_int : k_in_interrupt s' = false;
}.

Lemma run_stack {B} a as_ (f : Z * Z → K (kstate V) B) (s : kstate V) :
  k_ases s !! a = Some as_ → k_nomem s = false →
  mbind f (as_define_stack a) s =
  f (USERSTACK, 0) (set_ases (<[a := Addrspace (as_text as_) (as_data as_)
    (Some stack_segment) (as_ptable as_)]> (k_ases s)) (set_next (k_next s + 1) s)).
Proof.
  intros Ha Hn. unfold as_define_stack. krun. rewrite run_segment_create by done.
  krun. rewrite run_segment_define by done. krun.
  rewrite (run_as_load a as_) by done. unfold as_store. by krun.
Qed.

Lemma run_define_pt {B} a L (f : Z → K (kstate V) B) (s : kstate V) :
  as_wf L →
  k_ases s !! a = Some (Addrspace (Some (al_text L)) (Some (al_data L)) (Some (al_stack L)) None) →
  k_nomem s = false → al_pt L = k_next s →
  mbind f (as_define_pt a) s =
  f 0 (set_ases (<[a := layout_as L]> (k_ases s))
        (set_ptabs (<[al_pt L := replicate (Z.to_nat (pt_size L)) pt_blank]> (k_ptabs s))
          (set_next (k_next s + 1) s))).
Proof.
  intros Hwf Ha Hn Hpt. unfold as_define_pt. krun. erewrite run_as_load by done.
  krun. erewrite run_deref by done. krun. erewrite run_deref by done. krun.
  erewrite run_deref by done. krun. unfold pt_create. krun. rewrite run_kmalloc by done.
  krun. unfold as_store. krun. ksimpl.
  pose proof (seg_npages_bound _ (aw_text _ Hwf)). pose proof (seg_npages_bound _ (aw_data _ Hwf)).
  pose proof (seg_npages_bound _ (aw_stack _ Hwf)).
  rewrite (wrap_small 32 (seg_npages (al_data L) + seg_npages (al_text L))) by lia.
  rewrite wrap_small by lia. unfold pt_size, layout_as. rewrite Hpt.
  by rewrite (Z.add_comm (seg_npages (al_data L))).
Qed.

Lemma runprogram_run s pid pr :
  starting pid pr s → length (tlb_slots (k_tlb s)) = 64%nat → length (k_stats s) = 10%nat →
  ∃ s', runprogram (inr v) s = Ret (inr (USERSTACK, e_entry eh)) s' ∧ launched pid s s'.
Proof using All.
  intros [Hc Hp Has Hh Hint Hn] Hslots Hst. unfold runprogram.
  rewrite (run_getas s pid pr) by done. rewrite Has, run_assert by done.
  unfold as_create. krun. rewrite run_kmalloc by done. krun.
  erewrite run_setas by done. unfold as_activate. krun.
  erewrite run_getas; [|done|ksimpl; apply lookup_insert_eq|done]. cbn [p_addrspace].
  rewrite run_tlb_invalidate; [|done|ksimpl; rewrite Hh; apply not_elem_of_nil|done]. rewrite run_bind.
  erewrite (load_elf_run _ pid _ (k_next s) None);
    [|done|ksimpl; apply lookup_insert_eq|done|done|ksimpl; apply lookup_insert_eq|done].
  cbn [Z.eqb negb]. unfold set_p_vnode, proc_load. krun. ksimpl.
  rewrite (run_deref _ _ pid) by done. krun. ksimpl.
  erewrite run_deref by apply lookup_insert_eq. krun. ksimpl.
  erewrite run_stack; [|ksimpl; apply lookup_insert_eq|done]. cbn [Z.eqb negb].
  rewrite (run_define_pt (k_next s) (new_layout s)); cycle 1.
  { apply exec_layout_wf. }
  { ksimpl. by rewrite lookup_insert_eq. }
  { done. }
  { cbn. lia. }
  cbn [Z.eqb negb]. eexists. split; [reflexivity|].
  split; ksimpl; try done.
  - by rewrite length_hit.
  - apply lookup_insert_eq.
  - eexists. split; [apply lookup_insert_eq|done].
Qed.

End runprogram.

(** The started process runs on the image of its executable. *)
Section started.
Context {V : Type} `{VnodeOps V} (file_byte : V → Z → Z).
Context (v : V) (eh : Elf_Ehdr) (t d : Elf_Phdr) (Hex : executable v eh t d).
Context (pid : Z) (s s' : kstate V) (Hla : launched v t d pid s s').
Context (pmap : Z → option ptptr) (elf0 : ptptr → Z → Z) (is_text : ptptr → bool).
Context (Hi : vm_inv pmap elf0 is_text s) (Hnew : k_ptabs s !! (k_next s + 4) = None).

Abbreviation L := (new_layout t d s).

Lemma started_running : running pid (k_next s) L v s'.
Proof using Hla.
  destruct Hla. split; try done. intros i Hi'. exists pt_blank.
  by eapply new_pte_blank.
Qed.

Lemma started_inv :
  vm_inv (page_map L) (elf_with file_byte v L elf0) (text_with L is_text) s'.
Proof using All.
  destruct Hla. eapply (new_table_inv pmap (page_map L) elf0 _ is_text _ s s' (k_next s + 4)); try done.
  intros p Hp. unfold text_with, elf_with. cbn [al_pt new_layout exec_layout].
  rewrite decide_False by done. split; [done|]. intros off. by rewrite decide_False.
Qed.

(** Every page already known keeps its contents. *)
Lemma started_others p off :
  is_Some (pte_get s p) →
  content file_byte (elf_with file_byte v L elf0) s' p off = content file_byte elf0 s p off.
Proof using Hla Hnew is_text.
  destruct Hla. apply (new_table_content file_byte elf0 _ is_text (text_with L is_text) s s'
    (k_next s + 4) (pt_size L)); try done.
  intros q Hq. unfold text_with, elf_with. cbn [al_pt new_layout exec_layout].
  rewrite decide_False by done. split; [done|]. intros o. by rewrite decide_False.
Qed.

(** The process sees the bytes of its executable, and zeroes. *)
Lemma started_view va :
  view file_byte (elf_with file_byte v L elf0) L s' va = exec_image file_byte v L va.
Proof using Hex Hla.
  pose proof (exec_layout_wf v eh t d Hex (k_next s + 4)) as Hwf.
  unfold view, exec_image. destruct (page_map L (page_base va)) as [p|] eqn:Hp; cycle 1.
  { unfold page_map in Hp. rewrite decide_True in Hp by apply page_base_mod.
    rewrite vpn_base in Hp. by destruct (seg_of L (vpn va)) as [[[? ?] ?]|]. }
  destruct (page_map_index L Hwf _ _ Hp) as [Hpt Hr]. destruct p as [pt i].
  cbn [fst snd] in *. subst pt.
  unfold content. rewrite (new_pte_blank s s' (al_pt L) (pt_size L) (la_tabs _ _ _ _ _ _ Hla)) by exact Hr.
  cbn [pt_status pt_blank]. by rewrite (elf_with_page file_byte v L elf0 Hwf va i Hp).
Qed.

End started.
