(* ===== verification/Demo.v ===== *)
(** * Demo: a concrete machine and a concrete executable

    A machine of 8 frames whose kernel takes the first, with one process and an
    executable kept in memory: a register-info header that is skipped, a text
    segment of 8 bytes and a data segment of 8 kB, 12 bytes of it in the file,
    that starts near the end of a page.  The theorems of the other files are
    applied to it. *)

From stdpp Require Import base gmap list strings fin_maps.
From Stdlib Require Import ZArith Lia.
From S2P Require Import Prelude Types Bitmap Machine Vmstats Tlb Swapfile Segment.
From S2P Require Import Pagetable Coremap VmInv Vm Boot Layout Fault User Loadelf Exec.
Set Default Goal Selector "!".
Open Scope Z_scope.

(** The big-endian bytes of a word and of a half word. *)
Definition w4 (x : Z) : list Z := [x / 2 ^ 24; x / 2 ^ 16 mod 256; x / 2 ^ 8 mod 256; x mod 256].
Definition w2 (x : Z) : list Z := [x / 2 ^ 8; x mod 256].

Definition demo_ehdr_bytes : list Z :=
  [0x7f; 69; 76; 70; 1; 2; 1; 0; 0; 0; 0; 0; 0; 0; 0; 0] ++
  w2 2 ++ w2 8 ++ w4 1 ++ w4 0x400000 ++ w4 52 ++ w4 0 ++ w4 0 ++
  w2 52 ++ w2 32 ++ w2 3 ++ w2 0 ++ w2 0 ++ w2 0.

Definition phdr_bytes (ty off va filesz memsz : Z) : list Z :=
  w4 ty ++ w4 off ++ w4 va ++ w4 0 ++ w4 filesz ++ w4 memsz ++ w4 0 ++ w4 0.

Definition demo_file : ramfile := Ramfile (
  demo_ehdr_bytes ++
  phdr_bytes PT_MIPS_REGINFO 0 0 0 0 ++
  phdr_bytes PT_LOAD 148 0x400000 8 8 ++
  phdr_bytes PT_LOAD 156 0x10000ff8 12 0x2000 ++
  [1; 2; 3; 4; 5; 6; 7; 8] ++
  [101; 102; 103; 104; 105; 106; 107; 108; 109; 110; 111; 112]).

Definition demo_eh : Elf_Ehdr := ehdr_of demo_ehdr_bytes.
Definition demo_text : Elf_Phdr := phdr_of (phdr_bytes PT_LOAD 148 0x400000 8 8).
Definition demo_data : Elf_Phdr := phdr_of (phdr_bytes PT_LOAD 156 0x10000ff8 12 0x2000).

Lemma demo_executable : executable demo_file demo_eh demo_text demo_data.
Proof.
  split.
  - exists demo_ehdr_bytes. split_and!; vm_compute; reflexivity.
  - vm_compute. reflexivity.
  - exists [phdr_of (phdr_bytes PT_MIPS_REGINFO 0 0 0 0); demo_text; demo_data].
    split_and!; [vm_compute; reflexivity| | |vm_compute; reflexivity].
    + intros [|[|[|i]]] ph Hi; cbn in Hi; [| | |done]; injection Hi as <-;
        (eexists; split_and!; [vm_compute; reflexivity..|vm_compute; reflexivity]).
    + rewrite !Forall_cons. split_and!;
        [left; reflexivity|right; reflexivity|right; reflexivity|by constructor].
  - vm_compute. intuition discriminate.
  - vm_compute. intuition discriminate.
  - intros n Ht Hd. vm_compute in Ht, Hd. unfold Z.le in *.
    destruct Ht as [Ht1 Ht2], Hd as [Hd1 Hd2].
    assert (n ≤ 1024) by exact Ht2. assert (65536 ≤ n) by exact Hd1. lia.
  - vm_compute. intuition discriminate.
Qed.

(** The machine before the memory manager starts. *)
Definition demo_machine : kstate ramfile := KState
  (CmState [] 0 0) ∅ (λ _, 0) (SwapState (Ramfile []) (Bitmap 0 []))
  (TlbState all_invalid 0 true) (replicate 10 0) ∅
  {[ 1 := Proc 1 None None 0 0 ]} (Some 1) [] false false 100.

Definition final {S A} (o : outcome S A) (s : S) : S :=
  match o with Ret _ s' => s' | _ => s end.

(** After the initialisation, and after the process has been started. *)
Definition demo_boot : kstate ramfile :=
  final (boot_vm 32768 (PADDR_TO_KVADDR 4096) (inr (Ramfile [])) demo_machine) demo_machine.
Definition demo_state : kstate ramfile :=
  final (runprogram (inr demo_file) demo_boot) demo_boot.

Lemma demo_boot_ok : boot_ok 32768 4096.
Proof. split; vm_compute; intuition discriminate. Qed.

Lemma demo_fresh : fresh demo_boot.
Proof.
  destruct (boot_vm_run 32768 4096 (Ramfile []) demo_machine demo_boot_ok) as (s' & Hr & Hf & _);
    [done..|]. unfold demo_boot. by rewrite Hr.
Qed.

Lemma demo_inv pmap elf0 is_text : vm_inv pmap elf0 is_text demo_boot.
Proof. apply fresh_inv, demo_fresh. Qed.

Lemma demo_starting : starting 1 (Proc 1 None None 0 0) demo_boot.
Proof. split; vm_compute; reflexivity. Qed.

Lemma demo_new : k_ptabs demo_boot !! (k_next demo_boot + 4) = None.
Proof. vm_compute. reflexivity. Qed.

Lemma demo_launched : launched demo_file demo_text demo_data 1 demo_boot demo_state.
Proof.
  destruct (runprogram_run demo_file _ _ _ demo_executable demo_boot 1 _ demo_starting)
    as (s' & Hr & Hl); [by rewrite (fr_tlb _ demo_fresh)|apply demo_fresh|].
  unfold demo_state. by rewrite Hr.
Qed.

(** The view of the demo process. *)
Abbreviation demo_L := (new_layout demo_text demo_data demo_boot).
Definition demo_elf : ptptr → Z → Z := elf_with rf_byte demo_file demo_L (λ _ _, 0).
Definition demo_is_text : ptptr → bool := text_with demo_L (λ _, false).

Lemma demo_wf : as_wf demo_L.
Proof. apply (exec_layout_wf demo_file demo_eh), demo_executable. Qed.

Lemma demo_image : image_of rf_byte demo_elf demo_is_text demo_L demo_file.
Proof. apply image_with, demo_wf. Qed.

Lemma demo_vm_inv : vm_inv (page_map demo_L) demo_elf demo_is_text demo_state.
Proof.
  eapply (started_inv rf_byte demo_file demo_eh demo_text demo_data demo_executable 1);
    [apply demo_launched|apply (demo_inv (λ _, None))|apply demo_new].
Qed.

Lemma demo_running : running 1 (k_next demo_boot) demo_L demo_file demo_state.
Proof. apply started_running, demo_launched. Qed.

Lemma ramfile_full (v : ramfile) off bs v' n : VOP_WRITE v off bs = inr (v', n) → n = zlen bs.
Proof. cbn. unfold rf_write. destruct (off <? 0); [done|]. by intros [= _ <-]. Qed.

(** A program that reads its text, writes and reads back its data across a page
    boundary and reads a zero of its stack, and the machine after it. *)
Definition demo_ops : list user_op :=
  [ULoad 0x400003; ULoad 0x10000fff; UStore 0x10001000 77; ULoad 0x10001000;
   ULoad 0x10001001; UStore 0x7ffffffc 9; ULoad 0x7ffffffc; ULoad 0x7fff0000].

Definition demo_after : kstate ramfile := final (user_run 2 demo_ops demo_state) demo_state.

Lemma demo_allowed : Forall (allowed demo_L) demo_ops.
Proof. apply allowedb_all. vm_compute. reflexivity. Qed.

Definition returned {S A} (o : outcome S A) : bool := match o with Ret _ _ => true | _ => false end.

Lemma demo_after_inv :
  vm_inv (page_map demo_L) demo_elf demo_is_text demo_after ∧
  running 1 (k_next demo_boot) demo_L demo_file demo_after.
Proof.
  pose proof (user_run_wp rf_byte ramfile_full demo_elf demo_is_text 1 (k_next demo_boot) demo_L
    demo_file demo_wf demo_image demo_ops demo_state 2 ltac:(lia) demo_vm_inv demo_running
    demo_allowed) as Hw.
  assert (Hr : returned (user_run 2 demo_ops demo_state) = true) by (vm_compute; reflexivity).
  unfold demo_after. unfold wp in Hw.
  destruct (user_run 2 demo_ops demo_state) as [xs s| | |]; [|done..].
  by destruct Hw as (_ & []).
Qed.
