(* ===== verification/Paging.v ===== *)
(** * Paging: demand paging is transparent to user code

    The theorems of this file are about whole paths through the memory manager:
    a program started by [runprogram] and its loads and stores, each of which may
    fault, load a page of the executable, evict a page of another process to the
    swap file, bring one back, and replace TLB entries. *)

From stdpp Require Import base gmap list strings fin_maps.
From Stdlib Require Import ZArith Lia.
From S2P Require Import Prelude Types Bitmap Machine Vmstats Tlb Swapfile Segment.
From S2P Require Import Pagetable Coremap VmInv Vm Boot Layout Fault User Loadelf Exec Demo.
Set Default Goal Selector "!".
Open Scope Z_scope.

(** Reading and writing the same file, with complete writes, as hypotheses on
    the file system. *)
Section paging.
Context {V : Type} `{VnodeOps V} (file_byte : V → Z → Z) `{!VnodeLaws V file_byte}.
Context (write_full : ∀ v off bs v' n, VOP_WRITE v off bs = inr (v', n) → n = zlen bs).
Implicit Types s : kstate V.

(** C1: a program runs on a flat memory.  When [runprogram] starts an executable
    file, it succeeds with the initial stack pointer and the entry point, and
    any sequence of loads and stores the program then makes within its segments
    (stores not to the text segment) loads the values that a flat memory would
    give whose initial contents are the bytes of the executable at their
    addresses and zero elsewhere, whatever pages were evicted and reloaded on
    the way; the only other outcome is a panic of [fault_err].  Two attempts
    per access are enough. *)
Theorem program_runs_on_flat_memory s pid pr v eh t d pmap elf0 is_text ops :
  vm_inv pmap elf0 is_text s → starting pid pr s → executable v eh t d →
  k_ptabs s !! (k_next s + 4) = None →
  Forall (allowed (new_layout t d s)) ops →
  ∃ s1, runprogram (inr v) s = Ret (inr (USERSTACK, e_entry eh)) s1 ∧
    wp (user_run 2 ops)
      (λ xs s2, xs = (flat_run (exec_image file_byte v (new_layout t d s)) ops).1 ∧
         ∀ va, view file_byte (elf_with file_byte v (new_layout t d s) elf0) (new_layout t d s) s2 va =
               (flat_run (exec_image file_byte v (new_layout t d s)) ops).2 va)
      fault_err s1.
Proof using All.
  intros Hi Hs Hex Hnew Hops.
  destruct (runprogram_run v eh t d Hex s pid pr Hs) as (s1 & Hrun & Hla).
  { apply (tw_len _ (vi_tlbwf _ _ _ _ _ Hi)). }
  { apply (vi_stats _ _ _ _ _ Hi). }
  exists s1. split; [done|]. set (L := new_layout t d s) in *.
  assert (Hwf : as_wf L) by (by eapply exec_layout_wf).
  eapply wp_mono; [|done|eapply (user_run_wp file_byte write_full (elf_with file_byte v L elf0)
    (text_with L is_text) pid (k_next s) L v Hwf); [|lia| | |done]].
  - intros xs s2 (-> & [_ _ Hv _]).
    destruct (flat_run_ext (view file_byte (elf_with file_byte v L elf0) L s1)
      (exec_image file_byte v L) ops) as [E1 E2].
    { intros va. by apply (started_view file_byte v eh t d Hex pid s s1 Hla). }
    split; [done|]. intros va. rewrite Hv. apply E2.
  - by apply image_with.
  - by eapply started_inv.
  - by apply started_running.
Qed.

(** C2: a page fault is resolved.  When the running process misses the TLB on an
    address of one of its segments, [vm_fault] returns 0, the TLB then maps the
    page (read-only exactly for text pages) to the frame its page-table entry
    names, the invariant tying the coremap, the page tables, the swap map, the
    TLB and the memory holds, and the contents of every page of every process
    are what they were; the only other outcome is a panic of [fault_err]. *)
Theorem vm_fault_resolves s pid a L v elf0 is_text ft fa seg ty base p :
  as_wf L → image_of file_byte elf0 is_text L v →
  vm_inv (page_map L) elf0 is_text s → running pid a L v s →
  ft = VM_FAULT_READ ∨ ft = VM_FAULT_WRITE →
  seg_at L fa seg ty base → page_map L (page_base fa) = Some p →
  (∀ f ro, ¬ tlb_maps (k_tlb s) (page_base fa) f ro) →
  wp (vm_fault ft fa)
    (λ c s', c = 0 ∧ vm_inv (page_map L) elf0 is_text s' ∧ running pid a L v s' ∧
       same_content file_byte elf0 s s' ∧
       ∃ r, pte_get s' p = Some r ∧ in_mem r ∧
         tlb_maps (k_tlb s') (page_base fa) (pt_frame_index r) (ty =? SEGMENT_TEXT))
    fault_err s.
Proof using All.
  intros Hwf Himg Hi Hrn Hft Hat Hp Hmiss.
  eapply wp_mono; [|done|by eapply (vm_fault_wp file_byte elf0 is_text pid a L v)].
  intros c s' [-> [? ? _ ? Htlb]]. destruct (Himg _ _ _ _ _ Hat Hp) as [<- _]. done.
Qed.

(** C3: processes are isolated.  Whatever a process loads and stores within its
    segments, every page of every other page table keeps its contents, be it in
    the executable, in memory or in the swap file, also when the accesses evict
    it, and the invariant is kept. *)
Theorem processes_are_isolated s pid a L v elf0 is_text ops :
  as_wf L → image_of file_byte elf0 is_text L v →
  vm_inv (page_map L) elf0 is_text s → running pid a L v s → Forall (allowed L) ops →
  wp (user_run 2 ops)
    (λ _ s', vm_inv (page_map L) elf0 is_text s' ∧ running pid a L v s' ∧
       ∀ q off, q.1 ≠ al_pt L → 0 ≤ off < PAGE_SIZE →
         content file_byte elf0 s' q off = content file_byte elf0 s q off)
    fault_err s.
Proof using All.
  intros Hwf Himg Hi Hrn Hops.
  eapply wp_mono; [|done|by eapply (user_run_wp file_byte write_full elf0 is_text pid a L v)].
  intros xs s' [_ []]. done.
Qed.

(** C4: the text segment is read-only.  A store to an address of the text
    segment never completes: the process ends with status 255 and the contents
    of all pages are unchanged (or the machine panics while loading the page). *)
Theorem text_is_read_only s pid a L v elf0 is_text va x seg base :
  as_wf L → image_of file_byte elf0 is_text L v →
  vm_inv (page_map L) elf0 is_text s → running pid a L v s →
  seg_at L va seg SEGMENT_TEXT base →
  (∃ pr, k_procs s !! pid = Some pr ∧ 0 < p_numthreads pr) →
  refused file_byte elf0 pid s (user_store 2 va x s).
Proof using All. intros. by eapply store_text_refused. Qed.

(** An access outside the segments ends the process.  A load or a store to a
    user address on no page of the segments makes [vm_fault] end the process
    with status 255, at the first attempt and with all contents unchanged. *)
Theorem outside_access_ends_process s pid a L v elf0 is_text va pr :
  as_wf L → vm_inv (page_map L) elf0 is_text s → running pid a L v s →
  k_procs s !! pid = Some pr → 0 < p_numthreads pr →
  0 ≤ va < MIPS_KSEG0 → seg_of L (vpn va) = None →
  refused file_byte elf0 pid s (user_load 1 va s) ∧
  ∀ x, refused file_byte elf0 pid s (user_store 1 va x s).
Proof. intros. by eapply outside_refused. Qed.

End paging.

Lemma program_runs_on_flat_memory_witness :
  ∃ s1, runprogram (inr demo_file) demo_boot = Ret (inr (0x80000000, 0x400000)) s1 ∧
    wp (user_run 2 demo_ops) (λ xs _, xs = [4; 108; 77; 110; 9; 0]) fault_err s1.
Proof.
  destruct (program_runs_on_flat_memory rf_byte ramfile_full demo_boot 1 _ demo_file demo_eh
    demo_text demo_data (λ _, None) (λ _ _, 0) (λ _, false) demo_ops (demo_inv _ _ _)
    demo_starting demo_executable demo_new demo_allowed) as (s1 & Hrun & Hw).
  exists s1. split; [exact Hrun|].
  eapply wp_mono; [|exact (λ w Hw, Hw)|exact Hw].
  intros xs s2 [-> _]. vm_compute. reflexivity.
Defined.

Lemma demo_miss va f ro : ¬ tlb_maps (k_tlb demo_state) va f ro.
Proof. rewrite (la_tlb _ _ _ _ _ _ demo_launched). apply tlb_maps_invalid. Qed.

(** Address 0x10001004 is in the data segment, on the second of its pages. *)
Lemma demo_data_at : seg_at demo_L 0x10001004 (al_data demo_L) SEGMENT_DATA 1.
Proof. split; vm_compute; reflexivity. Qed.

Lemma demo_text_at : seg_at demo_L 0x400004 (al_text demo_L) SEGMENT_TEXT 0.
Proof. split; vm_compute; reflexivity. Qed.

Lemma demo_page : page_map demo_L (page_base 0x10001004) = Some (104, 2).
Proof. vm_compute. reflexivity. Qed.

Lemma demo_proc : ∃ pr, k_procs demo_state !! 1 = Some pr ∧ 0 < p_numthreads pr.
Proof. eexists. split; [vm_compute; reflexivity|]. reflexivity. Qed.

Lemma vm_fault_resolves_witness :
  wp (vm_fault VM_FAULT_WRITE 0x10001004)
    (λ c s', c = 0 ∧ ∃ f, tlb_maps (k_tlb s') 0x10001000 f false) fault_err demo_state.
Proof.
  eapply wp_mono; [|exact (λ w Hw, Hw)|exact (vm_fault_resolves rf_byte ramfile_full demo_state 1
    (k_next demo_boot) demo_L demo_file demo_elf demo_is_text VM_FAULT_WRITE 0x10001004
    _ _ _ _ demo_wf demo_image demo_vm_inv demo_running (or_intror eq_refl) demo_data_at demo_page
    (demo_miss _))].
  intros c s' (-> & _ & _ & _ & r & _ & _ & Hm). split; [reflexivity|].
  exists (pt_frame_index r). exact Hm.
Defined.

Lemma processes_are_isolated_witness :
  wp (user_run 2 demo_ops) (λ _ s', vm_inv (page_map demo_L) demo_elf demo_is_text s')
    fault_err demo_state.
Proof.
  eapply wp_mono; [|exact (λ w Hw, Hw)|exact (processes_are_isolated rf_byte ramfile_full demo_state 1
    (k_next demo_boot) demo_L demo_file demo_elf demo_is_text demo_ops
    demo_wf demo_image demo_vm_inv demo_running demo_allowed)].
  intros c s' (Hi & _). exact Hi.
Defined.

Lemma text_is_read_only_witness :
  refused rf_byte demo_elf 1 demo_state (user_store 2 0x400004 5 demo_state).
Proof.
  exact (text_is_read_only rf_byte ramfile_full demo_state 1 (k_next demo_boot) demo_L demo_file
    demo_elf demo_is_text 0x400004 5 _ _ demo_wf demo_image demo_vm_inv demo_running demo_text_at
    demo_proc).
Defined.

Lemma outside_access_ends_process_witness :
  refused rf_byte demo_elf 1 demo_state (user_load 1 0x2000 demo_state).
Proof.
  destruct demo_proc as (pr & Hpr & Hn).
  refine (proj1 (outside_access_ends_process rf_byte demo_state 1 (k_next demo_boot) demo_L demo_file
    demo_elf demo_is_text 0x2000 pr demo_wf demo_vm_inv demo_running Hpr Hn _ _)).
  - vm_compute. split; [discriminate|reflexivity].
  - vm_compute. reflexivity.
Defined.
