(* ===== verification/Release.v ===== *)
(** * Release: giving frames and swap pages back

    [coremap_freeppages] undoes an allocation, and [as_destroy] (through
    [pt_empty]) returns every frame and every page of the swap file a process
    holds while the pages of the other processes stay where they are.  The TLB
    may still hold translations of the process when it is destroyed; they are
    flushed when another address space is activated, so the invariant is stated
    for the state with an empty TLB. *)

From stdpp Require Import base gmap list strings fin_maps.
From Stdlib Require Import ZArith Lia.
From S2P Require Import Prelude Types Bitmap Machine Vmstats Tlb Swapfile Segment.
From S2P Require Import Pagetable Coremap VmInv Vm Boot Layout Fault User Loadelf Exec Demo.
Set Default Goal Selector "!".
Open Scope Z_scope.

Section release.
Context {V : Type} `{VnodeOps V}.
Implicit Types s : kstate V.

Abbreviation cmap s := (coremap (k_cm s)).

Definition freed_entry (e : cm_entry) : cm_entry := CmEntry 0 0 0 (cm_ptentry e).

(** The frames [b .. b + n - 1] are released in [cm']. *)
Definition released (cm cm' : list cm_entry) (b n : Z) : Prop :=
  length cm' = length cm ∧
  ∀ f, arr_get cm' f =
    if decide (b ≤ f < b + n) then freed_entry <$> arr_get cm f else arr_get cm f.

Lemma freeppages_run s b n :
  cm_good s → cm_spinlock ∉ k_held s → head (cmap s) b n →
  ∃ cm', coremap_freeppages (b * PAGE_SIZE) s = Ret tt (set_coremap cm' s) ∧
    released (cmap s) cm' b n ∧ cm_good (set_coremap cm' s).
Proof.
  intros [Hinv Hlen Hsz Hvic] Hh Hhd. pose proof Hhd as (e & He & Hu & Hse & Hn).
  pose proof (head_len _ Hinv _ _ Hhd) as [Hb Hbn]. unfold coremap_freeppages.
  rewrite run_assert by (apply Z.eqb_eq; by apply Z.mod_mul).
  rewrite Z.div_mul by done. krun. rewrite (run_index_bind _ _ e) by done.
  rewrite (run_cm_update b _ e) by done. krun. ksimpl. rewrite Hlen, Hse.
  rewrite !run_assert by (apply Z.ltb_lt; lia). rewrite run_acquire by done. ksimpl.
  match goal with |- context [mbind _ (for_each _ _) ?x] => set (s1 := x) end.
  assert (Hg1 : ∀ f, arr_get (cmap s1) f =
    if decide (b = f) then Some (set_size 0 e) else arr_get (cmap s) f).
  { intros f. apply arr_get_set. lia. }
  assert (Hent : ∀ k, 0 ≤ k < n → ∃ e', arr_get (cmap s1) (b + k) = Some e' ∧ cm_free e' = 1 ∧
    cm_size_alloc e' = 0 ∧ cm_lock e' = 0).
  { intros k Hk. rewrite Hg1. case_decide.
    - eexists. split; [done|]. cbn. split_and!; try done. apply (ci_bits _ Hinv b e He).
    - destruct (ci_block _ Hinv b n k Hhd ltac:(lia)) as (e' & He' & ? & ?).
      exists e'. split_and!; try done. apply (ci_bits _ Hinv _ e' He'). }
  destruct (update_loop (λ e', cm_free e' = 1) (set_free_bit 0)
    (λ i, cm' ← gets (λ s, coremap (k_cm s)); e' ← index cm' (b + i);
          KASSERT (cm_free e' =? 1) "coremap[first + i].cm_free == 1" ;;
          cm_update (b + i) (set_free_bit 0)) b n s1)
    as (cm' & Hrun & Hlen' & Hget'); [lia|lia| | |].
  { intros i e' s' He' Hu'. krun. rewrite (run_index_bind _ _ e') by done.
    rewrite run_assert by (by apply Z.eqb_eq). by apply cm_update_run. }
  { intros k Hk. destruct (Hent k Hk) as (e' & ? & ? & _). eauto. }
  rewrite run_bind, Hrun. rewrite (release_last _ _ (k_held s)) by done.
  assert (Hl' : length cm' = length (cmap s)) by (rewrite Hlen'; apply length_arr_set).
  exists cm'. split; [by destruct s as [[]]|].
  assert (Hrel : ∀ f, arr_get cm' f =
    if decide (b ≤ f < b + n) then freed_entry <$> arr_get (cmap s) f else arr_get (cmap s) f).
  { intros f. rewrite Hget'. case_decide as Hf; [|by rewrite Hg1, decide_False by lia].
    destruct (Hent (f - b)) as (e' & He' & _ & Hz & Hl); [lia|].
    replace (b + (f - b)) with f in He' by lia. rewrite He'. cbn. rewrite Hg1 in He'.
    destruct (decide (b = f)) as [<-|].
    - rewrite He. injection He' as <-. cbn in *. unfold set_free_bit, freed_entry. cbn.
      by rewrite Hl.
    - rewrite He'. cbn. unfold set_free_bit, freed_entry. by rewrite Hz, Hl. }
  split; [done|]. split; ksimpl; rewrite ?Hl'; try done.
  by apply (free_inv _ Hinv cm' b n Hhd).
Qed.

(** ** [pt_empty] *)

Definition flush s : kstate V := set_tlb (TlbState all_invalid 0 true) s.

Section empty.
Context (pmap : Z → option ptptr) (elf0 : ptptr → Z → Z) (is_text : ptptr → bool).
Context (s : kstate V) (pt : Z) (tbl : list pt_entry).
Context (Hi : vm_inv pmap elf0 is_text (flush s)) (Ht : k_ptabs s !! pt = Some tbl).
Context (Hh : k_held s = []).

(** The frames and the swap pages of the first [i] entries of the table. *)
Definition frame_of_first (i f : Z) : Prop :=
  ∃ j r, 0 ≤ j < i ∧ arr_get tbl j = Some r ∧ in_mem r ∧ pt_frame_index r = f.
Definition slot_of_first (i x : Z) : Prop :=
  ∃ j r, 0 ≤ j < i ∧ arr_get tbl j = Some r ∧ pt_status r = IN_SWAP ∧ pt_swap_index r = x.

(** The state when the first [i] entries have been handled. *)
Record emptied (i : Z) (cm : list cm_entry) (map : bitmap) : Prop := {
  em_good : cm_good (set_coremap cm s);
  em_freed : ∀ f e, frame_of_first i f → arr_get (cmap s) f = Some e →
    arr_get cm f = Some (freed_entry e);
  em_kept : ∀ f, ¬ frame_of_first i f → arr_get cm f = arr_get (cmap s) f;
  em_wf : bitmap_wf map;
  em_nbits : nbits map = SWAPFILE_NPAGES;
  em_set : ∀ x, x ∈ bitmap_set map ↔ x ∈ swap_used s ∧ ¬ slot_of_first i x;
}.

Lemma tbl_pte j r : arr_get tbl j = Some r → pte_get (flush s) (pt, j) = Some r.
Proof. intros Hr. apply pte_get_Some. eexists. split; [exact Ht|done]. Qed.

(** An entry whose page is in memory owns its frame, and no earlier entry does. *)
Lemma entry_frame i r e :
  arr_get tbl i = Some r → in_mem r → arr_get (cmap s) (pt_frame_index r) = Some e →
  ¬ frame_of_first i (pt_frame_index r) ∧ cm_free e = 1 ∧ cm_size_alloc e = 1.
Proof.
  intros Hr Hm He. pose proof (tbl_pte _ _ Hr) as Hp. split.
  - intros (j & r' & Hj & Hr' & Hm' & Hf).
    pose proof (frame_inj _ _ _ _ _ Hi _ _ _ _ (tbl_pte _ _ Hr') Hp Hm' Hm Hf) as [= ->]. lia.
  - destruct (vi_mem _ _ _ _ _ Hi _ _ Hp Hm) as (e' & He' & Hu & Ho).
    change (arr_get (cmap s) (pt_frame_index r) = Some e') in He'. simplify_eq.
    split; [done|]. apply (ci_user _ (cg_inv _ (vi_cm _ _ _ _ _ Hi)) _ e He Hu). by rewrite Ho.
Qed.

Lemma first_frame_S i f r :
  arr_get tbl i = Some r → 0 ≤ i →
  frame_of_first (i + 1) f ↔ frame_of_first i f ∨ (in_mem r ∧ pt_frame_index r = f).
Proof.
  intros Hr Hi0. split.
  - intros (j & r' & Hj & Hr' & ? & ?). destruct (decide (j = i)) as [->|].
    + right. by simplify_eq.
    + left. exists j, r'. split; [lia|done].
  - intros [(j & r' & Hj & ?)|[? ?]]; [exists j, r'|exists i, r]; (split; [lia|done]).
Qed.

Lemma first_slot_S i x r :
  arr_get tbl i = Some r → 0 ≤ i →
  slot_of_first (i + 1) x ↔ slot_of_first i x ∨ (pt_status r = IN_SWAP ∧ pt_swap_index r = x).
Proof.
  intros Hr Hi0. split.
  - intros (j & r' & Hj & Hr' & ? & ?). destruct (decide (j = i)) as [->|].
    + right. by simplify_eq.
    + left. exists j, r'. split; [lia|done].
  - intros [(j & r' & Hj & ?)|[? ?]]; [exists j, r'|exists i, r]; (split; [lia|done]).
Qed.

(** The handling of a page in memory and of a page in the swap file. *)
Lemma empty_frame i r cm map :
  emptied i cm map → arr_get tbl i = Some r → 0 ≤ i → in_mem r →
  ∃ cm', free_upage (u32 (pt_frame_index r * PAGE_SIZE)) (set_swapmap map (set_coremap cm s)) =
      Ret tt (set_swapmap map (set_coremap cm' s)) ∧ emptied (i + 1) cm' map.
Proof.
  intros [Hg Hfr Hk Hwf Hnb Hset] Hr Hi0 Hm. set (f := pt_frame_index r).
  pose proof (vi_mem _ _ _ _ _ Hi _ _ (tbl_pte _ _ Hr) Hm) as Huf.
  pose proof (frame_range _ _ _ _ _ Hi _ _ Huf) as Hf. fold f in Huf, Hf.
  destruct Huf as (e & He & _). change (arr_get (cmap s) f = Some e) in He.
  destruct (entry_frame i r e Hr Hm He) as (Hnf & Hu & Hs1). fold f in Hnf.
  rewrite wrap_small by (unfold PAGE_SIZE; lia).
  assert (Hec : arr_get cm f = Some e) by (by rewrite Hk).
  destruct (freeppages_run (set_swapmap map (set_coremap cm s)) f 1) as (cm' & Hrun & [_ Hrel] & Hg').
  { by destruct Hg; split. }
  { ksimpl. rewrite Hh. set_solver. }
  { exists e. ksimpl. split_and!; try done. }
  ksimpl in Hrel. exists cm'. split; [by destruct s as [[]]|]. split; try done.
  - by destruct Hg'; split.
  - intros f' e' Hf' He'. rewrite Hrel. destruct (decide (f ≤ f' < f + 1)).
    + assert (f' = f) as -> by lia. rewrite Hec. by simplify_eq.
    + apply (first_frame_S i f' r Hr Hi0) in Hf' as [?|[_ ?]]; [by apply Hfr|]. unfold f in *. lia.
  - intros f' Hf'. rewrite (first_frame_S i f' r Hr Hi0) in Hf'. rewrite Hrel, decide_False.
    + apply Hk. tauto.
    + intros ?. apply Hf'. right. split; [done|]. fold f. lia.
  - intros x. rewrite Hset, (first_slot_S i x r Hr Hi0).
    destruct Hm as [Hm|Hm]; rewrite Hm; naive_solver.
Qed.

Lemma empty_slot i r cm map :
  emptied i cm map → arr_get tbl i = Some r → 0 ≤ i → pt_status r = IN_SWAP →
  ∃ map', swap_free (pt_swap_index r) (set_swapmap map (set_coremap cm s)) =
      Ret tt (set_swapmap map' (set_coremap cm s)) ∧ emptied (i + 1) cm map'.
Proof.
  intros [Hg Hfr Hk Hwf Hnb Hset] Hr Hi0 Hs. pose proof (tbl_pte _ _ Hr) as Hp.
  assert (Hin : pt_swap_index r ∈ bitmap_set map).
  { apply Hset. split; [by apply (vi_swap _ _ _ _ _ Hi _ _ Hp)|].
    intros (j & r' & Hj & Hr' & Hs' & He).
    pose proof (vi_swap_inj _ _ _ _ _ Hi _ _ _ _ (tbl_pte _ _ Hr') Hp Hs' Hs He) as [= ->]. lia. }
  destruct (run_swap_free (pt_swap_index r) (λ u, mret u) (set_swapmap map (set_coremap cm s)))
    as (map' & Hrun & Hwf' & Hnb' & Hset'); [by split|ksimpl; rewrite Hh; set_solver|done|].
  exists map'. split.
  { rewrite run_bind in Hrun.
    destruct (swap_free _ _) as [[] ?| | |]; try done. }
  split; try done.
  - intros f e Hf. apply Hfr. apply (first_frame_S i f r Hr Hi0) in Hf as [?|[[?|?] _]]; congruence.
  - intros f Hf. apply Hk. rewrite (first_frame_S i f r Hr Hi0) in Hf. tauto.
  - intros x. rewrite Hset', elem_of_difference, elem_of_singleton. unfold swap_used at 1. ksimpl.
    rewrite Hset, (first_slot_S i x r Hr Hi0). naive_solver.
Qed.

Lemma pt_empty_from m i cm map :
  0 ≤ i → i + Z.of_nat m = zlen tbl → emptied i cm map →
  ∃ cm' map', for_each (seqZ i (Z.of_nat m)) (λ i,
      r ← pt_load (pt, i);
      match pt_status r with
      | IN_MEMORY_RDONLY | IN_MEMORY => free_upage (u32 (pt_frame_index r * PAGE_SIZE))
      | IN_SWAP => swap_free (pt_swap_index r)
      | NOT_LOADED => mret tt
      end) (set_swapmap map (set_coremap cm s)) =
    Ret tt (set_swapmap map' (set_coremap cm' s)) ∧ emptied (zlen tbl) cm' map'.
Proof using All.
  revert i cm map. induction m as [|m IH]; intros i cm map Hi0 Hm He.
  { exists cm, map. split; [done|]. by replace (zlen tbl) with i by lia. }
  rewrite Nat2Z.inj_succ, seqZ_cons, Z.pred_succ by lia. cbn [for_each].
  destruct (arr_get_ex tbl i) as [r Hr]; [lia|].
  assert (Hstep : ∃ cm1 map1, emptied (i + 1) cm1 map1 ∧
    match pt_status r with
    | IN_MEMORY_RDONLY | IN_MEMORY => free_upage (u32 (pt_frame_index r * PAGE_SIZE))
    | IN_SWAP => swap_free (pt_swap_index r)
    | NOT_LOADED => mret tt
    end (set_swapmap map (set_coremap cm s)) = Ret tt (set_swapmap map1 (set_coremap cm1 s))).
  { destruct (pt_status r) eqn:Hs.
    - exists cm, map. split; [|done]. destruct He as [Hg Hfr Hk Hwf Hnb Hset]. split; try done.
      + intros f e Hf. apply Hfr.
        apply (first_frame_S i f r Hr Hi0) in Hf as [?|[[?|?] _]]; congruence.
      + intros f Hf. apply Hk. rewrite (first_frame_S i f r Hr Hi0) in Hf. tauto.
      + intros x. rewrite Hset, (first_slot_S i x r Hr Hi0), Hs. intuition congruence.
    - destruct (empty_frame i r cm map He Hr Hi0) as (cm1 & ? & ?); [by left|eauto].
    - destruct (empty_slot i r cm map He Hr Hi0 Hs) as (map1 & ? & ?). eauto.
    - destruct (empty_frame i r cm map He Hr Hi0) as (cm1 & ? & ?); [by right|eauto]. }
  destruct Hstep as (cm1 & map1 & He1 & Hrun1). rewrite run_bind.
  rewrite (run_pt_load (pt, i) r) by (apply pte_get_Some; exists tbl; done).
  rewrite Hrun1. apply (IH (Z.succ i)); [lia|lia|]. by replace (Z.succ i) with (i + 1) by lia.
Qed.

(** The state after the table has been emptied and freed. *)
Record destroyed s' : Prop := {
  de_ptabs : k_ptabs s' = delete pt (k_ptabs s);
  de_em : emptied (zlen tbl) (cmap s') (swapmap (k_swap s'));
  de_cm : nRamFrames (k_cm s') = nRamFrames (k_cm s) ∧ victim_index (k_cm s') = victim_index (k_cm s);
  de_file : swapfile (k_swap s') = swapfile (k_swap s);
  de_ram : k_ram s' = k_ram s;
  de_stats : k_stats s' = k_stats s;
}.

Section destroyed_facts.
Context (s' : kstate V) (Hd : destroyed s').

Lemma de_pte p r : pte_get (flush s') p = Some r ↔ p.1 ≠ pt ∧ pte_get (flush s) p = Some r.
Proof.
  unfold pte_get. cbn. rewrite (de_ptabs _ Hd). destruct (decide (p.1 = pt)) as [->|].
  - rewrite lookup_delete_eq. naive_solver.
  - rewrite lookup_delete_ne by done. naive_solver.
Qed.

(** The frames of the other tables are not among those released. *)
Lemma other_kept p r : p.1 ≠ pt → pte_get (flush s) p = Some r → in_mem r →
  ¬ frame_of_first (zlen tbl) (pt_frame_index r).
Proof.
  intros Hne Hp Hm (j & r' & _ & Hr' & Hm' & Hf).
  pose proof (frame_inj _ _ _ _ _ Hi _ _ _ _ (tbl_pte _ _ Hr') Hp Hm' Hm Hf) as <-. done.
Qed.

Lemma destroyed_user f p :
  user_frame (cmap s') f p ↔ ¬ frame_of_first (zlen tbl) f ∧ user_frame (cmap s) f p.
Proof.
  destruct (de_em _ Hd) as [_ Hfr Hk _ _ _]. split.
  - intros (e & He & Hu & Ho).
    assert (Hnf : ¬ frame_of_first (zlen tbl) f).
    { intros Hf. pose proof Hf as (j & r & _ & Hr & Hm & <-).
      destruct (vi_mem _ _ _ _ _ Hi _ _ (tbl_pte _ _ Hr) Hm) as (e0 & He0 & _).
      rewrite (Hfr _ e0 Hf He0) in He. injection He as <-. done. }
    split; [done|]. exists e. by rewrite <- Hk.
  - intros (Hnf & e & He & ?). exists e. by rewrite Hk.
Qed.

Lemma destroyed_inv pmap' : vm_inv pmap' elf0 is_text (flush s').
Proof using All.
  pose proof (de_em _ Hd) as [Hg Hfr Hk Hwf Hnb Hset].
  split; try by (cbn; done).
  - destruct Hg as [? ? ? ?]. destruct (de_cm _ Hd) as [Hn Hv].
    split; cbn in *; rewrite ?Hn, ?Hv; done.
  - intros p [_ Hu]%destroyed_user. by apply (vi_kern0 _ _ _ _ _ Hi p).
  - change (∃ e, arr_get (cmap s') 0 = Some e ∧ cm_free e = 1). rewrite Hk; [apply (vi_used0 _ _ _ _ _ Hi)|].
    intros (j & r & _ & Hr & Hm & Hf0). apply (vi_kern0 _ _ _ _ _ Hi (pt, j)).
    rewrite <- Hf0. apply (vi_mem _ _ _ _ _ Hi _ _ (tbl_pte _ _ Hr) Hm).
  - intros f p [Hnf Hu]%destroyed_user _.
    destruct (vi_own _ _ _ _ _ Hi f p Hu) as (r & Hr & Hm & Hf); [done|].
    exists r. split; [|done]. apply de_pte. split; [|done]. intros Hpt.
    destruct p as [x j]. cbn in Hpt. subst x.
    apply pte_get_Some in Hr as (t' & Ht' & Hr). cbn in Ht', Hr. rewrite Ht in Ht'. injection Ht' as <-.
    apply Hnf. exists j, r. split; [by eapply arr_get_range|done].
  - intros p r [Hne Hp]%de_pte Hm. apply destroyed_user.
    split; [by eapply other_kept|]. by apply (vi_mem _ _ _ _ _ Hi).
  - intros p r [Hne Hp]%de_pte Hs. apply Hset. split; [by eapply (vi_swap _ _ _ _ _ Hi)|].
    intros (j & r' & _ & Hr' & Hs' & He).
    pose proof (vi_swap_inj _ _ _ _ _ Hi _ _ _ _ (tbl_pte _ _ Hr') Hp Hs' Hs He) as <-. done.
  - intros p q r r' [_ Hp]%de_pte [_ Hq]%de_pte. by apply (vi_swap_inj _ _ _ _ _ Hi).
  - intros x [Hu Hns]%Hset. destruct (vi_swap_used _ _ _ _ _ Hi x Hu) as (p & r & Hp & Hs & Hx).
    exists p, r. split; [|done]. apply de_pte. split; [|done]. intros Hpt. destruct p as [y j].
    cbn in Hpt. subst y. apply pte_get_Some in Hp as (t' & Ht' & Hr). cbn in Ht', Hr.
    rewrite Ht in Ht'. injection Ht' as <-. apply Hns. exists j, r.
    split; [by eapply arr_get_range|done].
  - apply tlb_wf_invalid.
  - intros va f ro Hm. by apply tlb_maps_invalid in Hm.
  - intros p r off [_ Hp]%de_pte Hs Hoff. cbn. rewrite (de_ram _ Hd). by apply (vi_ro _ _ _ _ _ Hi).
  - intros p r [_ Hp]%de_pte. by apply (vi_text _ _ _ _ _ Hi).
  - cbn. rewrite (de_stats _ Hd). apply (vi_stats _ _ _ _ _ Hi).
Qed.

Lemma destroyed_content file_byte p off :
  p.1 ≠ pt → content file_byte elf0 s' p off = content file_byte elf0 s p off.
Proof.
  intros Hne. unfold content. rewrite (de_ram _ Hd), (de_file _ Hd).
  assert (pte_get s' p = pte_get s p) as ->; [|done].
  unfold pte_get. by rewrite (de_ptabs _ Hd), lookup_delete_ne.
Qed.

End destroyed_facts.

End empty.

Lemma flush_inv pmap pmap' elf0 is_text s :
  vm_inv pmap elf0 is_text s → vm_inv pmap' elf0 is_text (flush s).
Proof.
  intros [Hcm]. split; try done.
  - by destruct Hcm.
  - apply tlb_wf_invalid.
  - intros va f ro Hm. by apply tlb_maps_invalid in Hm.
Qed.

Lemma as_destroy_run s a L tbl pmap elf0 is_text :
  as_wf L → vm_inv pmap elf0 is_text (flush s) → k_held s = [] →
  k_ases s !! a = Some (layout_as L) → k_ptabs s !! al_pt L = Some tbl → zlen tbl = pt_size L →
  ∃ s', as_destroy a s = Ret tt s' ∧ destroyed s (al_pt L) tbl s' ∧ k_ases s' = delete a (k_ases s).
Proof.
  intros Hwf Hi Hh Ha Ht Hlen. unfold as_destroy. rewrite (run_as_load a _ _ _ Ha).
  rewrite (run_deref _ _ (al_data L)), (run_deref _ _ (al_text L)), (run_deref _ _ (al_stack L)) by done.
  pose proof (seg_npages_bound _ (aw_text _ Hwf)). pose proof (seg_npages_bound _ (aw_data _ Hwf)).
  pose proof (seg_npages_bound _ (aw_stack _ Hwf)).
  rewrite (wrap_small 32 (seg_npages (al_data L) + seg_npages (al_text L))) by lia.
  rewrite wrap_small by lia. rewrite (run_deref _ _ (al_pt L)) by done.
  replace (seg_npages (al_data L) + seg_npages (al_text L) + seg_npages (al_stack L))
    with (zlen tbl) by (rewrite Hlen; unfold pt_size; lia).
  destruct (pt_empty_from pmap elf0 is_text s (al_pt L) tbl Hi Ht Hh (length tbl) 0 (cmap s)
    (swapmap (k_swap s))) as (cm & map & Hrun & He); [lia|lia| |].
  { destruct (vi_cm _ _ _ _ _ Hi). destruct (vi_map _ _ _ _ _ Hi).
    assert (Hno : ∀ f, ¬ frame_of_first tbl 0 f) by (intros f (j & r & ? & _); lia).
    assert (Hno' : ∀ f, ¬ slot_of_first tbl 0 f) by (intros f (j & r & ? & _); lia).
    split; try done.
    - intros f e Hf. by apply Hno in Hf.
    - intros x. split; [|by intros [? _]]. split; [done|]. apply Hno'. }
  rewrite run_bind. unfold pt_empty.
  assert (set_swapmap (swapmap (k_swap s)) (set_coremap (cmap s) s) = s) as Hs
    by (by destruct s as [[] ? ? []]).
  rewrite Hs in Hrun. rewrite Hrun. unfold pt_destroy. krun. unfold modify.
  eexists. split; [reflexivity|]. split; [by split|done].
Qed.

End release.

Section theorems.
Context {V : Type} `{VnodeOps V}.

(** C5: destroying an address space releases everything it holds.  [as_destroy]
    returns; every frame and every page of the swap file the process held is
    free again, its page table and its address space are gone, the pages of the
    other processes keep their contents, and the invariant holds for the frames,
    swap pages and page tables that remain. *)
Theorem as_destroy_releases file_byte (s : kstate V) a L tbl pmap pmap' elf0 is_text :
  as_wf L → vm_inv pmap elf0 is_text (flush s) → k_held s = [] →
  k_ases s !! a = Some (layout_as L) → k_ptabs s !! al_pt L = Some tbl → zlen tbl = pt_size L →
  ∃ s', as_destroy a s = Ret tt s' ∧ k_ases s' !! a = None ∧ k_ptabs s' !! al_pt L = None ∧
    vm_inv pmap' elf0 is_text (flush s') ∧
    (∀ j r, arr_get tbl j = Some r → in_mem r → free_frame (coremap (k_cm s')) (pt_frame_index r)) ∧
    (∀ j r, arr_get tbl j = Some r → pt_status r = IN_SWAP → pt_swap_index r ∉ swap_used s') ∧
    ∀ p off, p.1 ≠ al_pt L → content file_byte elf0 s' p off = content file_byte elf0 s p off.
Proof.
  intros Hwf Hi Hh Ha Ht Hlen.
  destruct (as_destroy_run s a L tbl pmap elf0 is_text Hwf Hi Hh Ha Ht Hlen) as (s' & Hrun & Hd & Has).
  pose proof (de_em _ _ _ _ Hd) as He.
  exists s'. split; [done|]. split; [rewrite Has; apply lookup_delete_eq|].
  split; [rewrite (de_ptabs _ _ _ _ Hd); apply lookup_delete_eq|].
  split; [by eapply destroyed_inv|]. split_and!.
  - intros j r Hr Hm.
    destruct (vi_mem _ _ _ _ _ Hi _ _ (tbl_pte s _ tbl Ht _ _ Hr) Hm) as (e & He0 & _).
    exists (freed_entry e). split; [|done]. apply (em_freed _ _ _ _ _ He); [|done].
    exists j, r. split; [by eapply arr_get_range|done].
  - intros j r Hr Hs [_ Hn]%(em_set _ _ _ _ _ He). apply Hn. exists j, r.
    split; [by eapply arr_get_range|done].
  - intros p off Hp. by eapply destroyed_content.
Qed.

(** [coremap_freeppages] undoes an allocation.  On the address of an
    allocation of [n] frames it returns, makes exactly these frames free, leaves
    every other entry of the coremap alone and keeps its shape; the next
    allocation of [n] frames finds a run. *)
Theorem freeppages_releases (s : kstate V) b n :
  cm_good s → k_held s = [] → head (coremap (k_cm s)) b n →
  ∃ cm', coremap_freeppages (b * PAGE_SIZE) s = Ret tt (set_coremap cm' s) ∧
    cm_good (set_coremap cm' s) ∧ free_run cm' b n ∧
    (∀ f, ¬ b ≤ f < b + n → arr_get cm' f = arr_get (coremap (k_cm s)) f) ∧
    ∃ r, coremap_find_freeframes n (set_coremap cm' s) = Ret r (set_coremap cm' s) ∧
      0 ≤ r ≤ b ∧ free_run cm' r n.
Proof.
  intros Hg Hh Hhd. pose proof (head_len _ (cg_inv _ Hg) _ _ Hhd) as [Hb Hbn].
  assert (Hn : 0 < n) by (by destruct Hhd as (? & ? & ? & ? & ?)).
  destruct (freeppages_run s b n Hg) as (cm' & Hrun & [Hlen Hrel] & Hg'); [rewrite Hh; set_solver|done|].
  assert (Hfr : free_run cm' b n).
  { intros k Hk. destruct (arr_get_ex (coremap (k_cm s)) (b + k)) as [e He]; [lia|].
    exists (freed_entry e). rewrite Hrel, decide_True, He by lia. done. }
  exists cm'. split_and!; try done.
  - intros f Hf. by rewrite Hrel, decide_False.
  - destruct (find_run n _ Hg' ltac:(lia)) as (r & Hr & [[_ Hno]|(Hr0 & Hfr' & Hlow)]);
      [by destruct (Hno b Hb)|].
    exists r. split; [done|]. split; [|done]. split; [done|]. by apply Hlow.
Qed.

End theorems.

(** The process of the demo after it has run, with four pages in memory. *)
Lemma as_destroy_releases_witness :
  ∃ s' tbl, k_ptabs demo_after !! 104 = Some tbl ∧ as_destroy 100 demo_after = Ret tt s' ∧
    ∀ j r, arr_get tbl j = Some r → in_mem r → free_frame (coremap (k_cm s')) (pt_frame_index r).
Proof.
  assert (Ht : is_Some (k_ptabs demo_after !! 104)) by (vm_compute; eexists; reflexivity).
  destruct (k_ptabs demo_after !! 104) as [tbl|] eqn:E; [|destruct Ht; discriminate].
  assert (Hlen : zlen tbl = pt_size demo_L).
  { enough (Some (zlen tbl) = Some (pt_size demo_L)) as [= Heq] by exact Heq.
    change (Some (zlen tbl)) with ((λ t : list pt_entry, zlen t) <$> Some tbl).
    rewrite <- E. vm_compute. reflexivity. }
  destruct (as_destroy_releases rf_byte demo_after 100 demo_L tbl (page_map demo_L) (λ _, None)
    demo_elf demo_is_text demo_wf (flush_inv _ _ _ _ _ (proj1 demo_after_inv))
    (rn_held _ _ _ _ _ (proj2 demo_after_inv)) (rn_as _ _ _ _ _ (proj2 demo_after_inv)) E Hlen)
    as (s' & Hrun & _ & _ & _ & Hf & _).
  exists s', tbl. split; [reflexivity|]. split; [exact Hrun|exact Hf].
Defined.

Lemma freeppages_releases_witness :
  ∃ cm', coremap_freeppages 4096 demo_boot = Ret tt (set_coremap cm' demo_boot) ∧ free_run cm' 1 1.
Proof.
  destruct (freeppages_releases demo_boot 1 1 (fr_cm _ demo_fresh) eq_refl) as (cm' & Hr & _ & Hf & _).
  - exists (CmEntry 1 1 0 None). vm_compute. split; [reflexivity|]. split; [reflexivity|].
    split; [reflexivity|reflexivity].
  - exists cm'. split; [exact Hr|exact Hf].
Defined.
