(* ===== verification/Menu.v ===== *)
(** * Menu: reading and splitting command lines (kern/lib/kgets.c, kern/main/menu.c)

    [kgets] is the line editor of the console; [menu_execute] cuts a line at the
    semicolons and [cmd_dispatch] cuts a command at blanks and looks the first
    word up in the command table.  Both cut with [strtok_r], each with its own
    context, on the same buffer.  The commands themselves are a parameter: a
    function of the entry of the table and of the strings it is given. *)

From stdpp Require Import base list option.
From Stdlib Require Import ZArith Lia.
From S2P Require Import Prelude Types Strings.
Set Default Goal Selector "!".
Open Scope Z_scope.

Definition MAXMENUARGS : Z := 16.

(** The string at [p], as a command reads it. *)
Fixpoint read_str (fuel : nat) (m : mem) (p : Z) : option (list Z) :=
  match fuel with
  | O => None
  | S fuel' => if m p =? 0 then Some [] else (m p ::.) <$> read_str fuel' m (p + 1)
  end.

(** Reads the strings at several pointers. *)
Fixpoint read_strs (fuel : nat) (m : mem) (ps : list Z) : option (list (list Z)) :=
  match ps with
  | [] => Some []
  | p :: ps' => s ← read_str fuel m p; ss ← read_strs fuel m ps'; Some (s :: ss)
  end.

Section menu.
(** The addresses of the separators, and the table: the address of each name
    and what the command returns on its arguments. *)
Context (semi spaces : Z) (cmdtable : list (Z * (list (list Z) → Z))).

(** The loop over the words of a command. *)
Fixpoint args_loop (k fuel : nat) (m : mem) (word context : Z) (args : list Z)
  : option (mem * (Z + list Z)) :=
  match k with
  | O => None
  | S k' =>
      if word =? 0 then Some (m, inr args)
      else if MAXMENUARGS <=? zlen args then Some (m, inl E2BIG)
      else
        '(word', m', context') ← strtok_r fuel m 0 spaces context;
        args_loop k' fuel m' word' context' (args ++ [word])
  end.

(** The loop over the table: the entry whose name is [arg0]. *)
Fixpoint find_cmd (fuel : nat) (m : mem) (arg0 : Z) (table : list (Z * (list (list Z) → Z)))
  : option (option (Z * (list (list Z) → Z))) :=
  match table with
  | [] => Some None
  | e :: table' =>
      if m e.1 =? 0 then find_cmd fuel m arg0 table'
      else
        r ← strcmp fuel m arg0 e.1;
        if r =? 0 then Some (Some e) else find_cmd fuel m arg0 table'
  end.

(** The memory, the result, and the command run with its arguments. *)
Definition cmd_dispatch (fuel : nat) (m : mem) (cmd : Z)
  : option (mem * Z * list (Z * list (list Z))) :=
  '(word, m, context) ← strtok_r fuel m cmd spaces 0;
  '(m, r) ← args_loop fuel fuel m word context [];
  match r with
  | inl e => Some (m, e, [])
  | inr [] => Some (m, 0, [])
  | inr ((a0 :: _) as args) =>
      e ← find_cmd fuel m a0 cmdtable;
      match e with
      | None => Some (m, EINVAL, [])
      | Some (name, func) =>
          ss ← read_strs fuel m args;
          Some (m, func ss, [(name, ss)])
      end
  end.

(** The commands run, and whether the kernel panicked. *)
Fixpoint menu_loop (k fuel : nat) (m : mem) (command context : Z) (isargs : bool)
  : option (list (Z * list (list Z)) * bool) :=
  match k with
  | O => None
  | S k' =>
      if command =? 0 then Some ([], false)
      else
        '(m, result, run) ← cmd_dispatch fuel m command;
        if negb (result =? 0) && isargs then Some (run, true)
        else
          '(command', m', context') ← strtok_r fuel m 0 semi context;
          '(runs, b) ← menu_loop k' fuel m' command' context' isargs;
          Some (run ++ runs, b)
  end.

Definition menu_execute (fuel : nat) (m : mem) (line : Z) (isargs : bool)
  : option (list (Z * list (list Z)) * bool) :=
  '(command, m, context) ← strtok_r fuel m line semi 0;
  menu_loop fuel fuel m command context isargs.

End menu.

(** ** kgets *)

(** What the editor does with one character: go on with a buffer and a position,
    or stop. *)
Inductive kgets_step := KNext (buf : list Z) (pos : Z) | KStop (buf : list Z) (pos : Z).

(** [while (pos > 0 && (buf[pos-1]==' ') == blank) pos--] *)
Fixpoint erase_while (fuel : nat) (buf : list Z) (pos : Z) (blank : bool) : option Z :=
  match fuel with
  | O => None
  | S fuel' =>
      if 0 <? pos then
        c ← arr_get buf (pos - 1);
        if Bool.eqb (c =? 32) blank then erase_while fuel' buf (pos - 1) blank else Some pos
      else Some pos
  end.

Definition kgets_char (maxlen : Z) (buf : list Z) (pos ch : Z) : option kgets_step :=
  if (ch =? 10) || (ch =? 13) then Some (KStop buf pos)
  else if (32 <=? ch) && (ch <? 127) && (pos <? u32 (maxlen - 1)) then
    if pos <? zlen buf then Some (KNext (arr_set buf pos ch) (pos + 1)) else None
  else if ((ch =? 8) || (ch =? 127)) && (0 <? pos) then Some (KNext buf (pos - 1))
  else if ch =? 3 then Some (KStop buf 0)
  else if ch =? 18 then
    if pos <? zlen buf then Some (KNext (arr_set buf pos 0) pos) else None
  else if ch =? 21 then Some (KNext buf 0)
  else if ch =? 23 then
    pos ← erase_while (S (Z.to_nat pos)) buf pos true;
    pos ← erase_while (S (Z.to_nat pos)) buf pos false;
    Some (KNext buf pos)
  else Some (KNext buf pos).

(** The loop over the characters typed; [None] is an access outside the buffer,
    [Some None] a line that is not finished. *)
Fixpoint kgets_loop (maxlen : Z) (buf : list Z) (pos : Z) (chars : list Z) : option (option (list Z)) :=
  match chars with
  | [] => Some None
  | ch :: chars' =>
      st ← kgets_char maxlen buf pos ch;
      match st with
      | KNext buf pos => kgets_loop maxlen buf pos chars'
      | KStop buf pos => if pos <? zlen buf then Some (Some (arr_set buf pos 0)) else None
      end
  end.

Definition kgets (buf : list Z) (maxlen : Z) (chars : list Z) : option (option (list Z)) :=
  kgets_loop maxlen buf 0 chars.

(** ** Tokens *)

Lemma read_str_spec fuel m p s : cstr m p s → (length s < fuel)%nat → read_str fuel m p = Some s.
Proof.
  revert fuel p. induction s as [|c s IH]; intros fuel p Hs Hf;
    (destruct fuel as [|fuel]; [cbn in Hf; lia|]); cbn [read_str cstr] in *; [by rewrite Hs|].
  destruct Hs as (Hc & Hr & Hs). rewrite Hc, (proj2 (Z.eqb_neq c 0)) by lia.
  by rewrite IH by (done || cbn in Hf; lia).
Qed.

Lemma read_strs_spec fuel m ps ss :
  Forall2 (cstr m) ps ss → Forall (λ s, (length s < fuel)%nat) ss → read_strs fuel m ps = Some ss.
Proof.
  induction 1 as [|p s ps ss Hs Hss IH]; intros Hf; [done|]. inversion Hf; subst. cbn [read_strs].
  rewrite (read_str_spec _ _ _ s) by done. cbn. by rewrite IH.
Qed.

Section tokens.
Context (seps : Z) (ss : list Z) (fuel : nat).
Hypothesis Hseps0 : 0 < seps.
Hypothesis Hss : (length ss < fuel)%nat.
Abbreviation words := (words (is_sep ss)).

(** What the context [ctx] still holds, after a word that ends at [e]. *)
Definition rest_state (m : mem) (hi ctx e : Z) (ws : list (list Z)) : Prop :=
  (ctx = 0 ∧ ws = []) ∨
  ∃ s, ctx = e + 1 ∧ cstr m ctx s ∧ words s = ws ∧ ctx + zlen s = hi.

(** The state after a call that returned [word], the words [ws] being left. *)
Definition tok_state (m : mem) (lo hi word ctx : Z) (ws : list (list Z)) : Prop :=
  (word = 0 ∧ ws = []) ∨
  ∃ w ws', ws = w :: ws' ∧ 0 < word ∧ lo ≤ word ∧ word + zlen w ≤ hi ∧ cstr m word w ∧
    rest_state m hi ctx (word + zlen w) ws'.

Lemma tok_call m c s string ctx :
  cstr m seps ss → cstr m c s → (length s < fuel)%nat → 0 < c →
  (if string =? 0 then ctx else string) = c →
  ∃ word m' ctx', strtok_r fuel m string seps ctx = Some (word, m', ctx') ∧
    tok_state m' c (c + zlen s) word ctx' (words s) ∧ (∀ a, ¬ c ≤ a < c + zlen s → m' a = m a).
Proof.
  intros Hs Hc Hf Hc0 He.
  destruct (strtok_step seps ss fuel Hseps0 Hss m c s string ctx Hs Hc Hf Hc0 He)
    as [[Hw ->]|(w & ws & h & m' & ctx' & Hw & -> & Hh & Hhi & Hcs & Hm & Hrest)].
  - exists 0, m, 0. split; [done|]. split; [by left|done].
  - exists h, m', ctx'. split; [done|]. split; [|done]. right. exists w, ws.
    split; [done|]. split; [lia|]. split; [done|]. split; [done|]. split; [done|].
    destruct Hrest as [?|(s' & -> & Hs' & Hws & Hend)]; [by left|right]. exists s'. by split_and!.
Qed.

Lemma tok_first m c s :
  cstr m seps ss → cstr m c s → (length s < fuel)%nat → 0 < c →
  ∃ word m' ctx', strtok_r fuel m c seps 0 = Some (word, m', ctx') ∧
    tok_state m' c (c + zlen s) word ctx' (words s) ∧ (∀ a, ¬ c ≤ a < c + zlen s → m' a = m a).
Proof.
  intros. apply tok_call; try done. by rewrite (proj2 (Z.eqb_neq c 0)) by lia.
Qed.

Lemma tok_next m hi e ctx ws :
  cstr m seps ss → rest_state m hi ctx e ws → 0 < e → hi - e ≤ Z.of_nat fuel →
  ∃ word m' ctx', strtok_r fuel m 0 seps ctx = Some (word, m', ctx') ∧
    tok_state m' (e + 1) hi word ctx' ws ∧ (∀ a, ¬ e < a < hi → m' a = m a).
Proof.
  intros Hs [[-> ->]|(s & -> & Hc & <- & <-)] He Hf.
  - exists 0, m, 0. split; [done|]. split; [by left|done].
  - destruct (tok_call m (e + 1) s 0 (e + 1)) as (word & m' & ctx' & Hr & Ht & Hm); try done; [lia|lia|].
    exists word, m', ctx'. split; [done|]. split; [done|]. intros a Ha. apply Hm. lia.
Qed.
End tokens.

(** ** Commands *)

Lemma cstr_keep m m' p s lo hi :
  cstr m p s → (∀ a, ¬ lo ≤ a < hi → m' a = m a) → p + zlen s < lo ∨ hi ≤ p → cstr m' p s.
Proof. intros Hs Hm Ho. eapply cstr_ext; [done|]. intros a Ha. apply Hm. lia. Qed.

Lemma words_bounds sep s :
  (length (words sep s) ≤ length s)%nat ∧ Forall (λ w, (length w ≤ length s)%nat) (words sep s).
Proof.
  induction s as [|c s [Hl Hf]]; cbn [words]; [done|].
  assert (Hf' : Forall (λ w, (length w ≤ S (length s))%nat) (words sep s)).
  { eapply Forall_impl; [|exact Hf]. cbn. lia. }
  destruct (sep c); [split; [cbn; lia|done]|]. destruct s as [|d s']; [by repeat constructor|].
  destruct (sep d); [split; [cbn in *; lia|]; constructor; [cbn; lia|done]|].
  destruct (words sep (d :: s')) as [|w ws]; [split; [cbn; lia|]; constructor; [cbn; lia|constructor]|].
  inversion Hf; subst. inversion Hf'; subst. split; [cbn in *; lia|]. constructor; [cbn in *; lia|done].
Qed.

Section commands.
Context (semi spaces : Z) (cmdtable : list (Z * (list (list Z) → Z))).
Context (ss sp : list Z) (names : list (list Z)) (fuel : nat).
Hypothesis Hsemi0 : 0 < semi.
Hypothesis Hspaces0 : 0 < spaces.
Hypothesis Hss : (length ss < fuel)%nat.
Hypothesis Hsp : (length sp < fuel)%nat.

(** The strings the menu reads besides the line are in place, outside [lo, hi]. *)
Record fixed (m : mem) (lo hi : Z) : Prop := {
  fx_semi : cstr m semi ss;
  fx_spaces : cstr m spaces sp;
  fx_names : Forall2 (λ e n, cstr m e.1 n ∧ (e.1 + zlen n < lo ∨ hi ≤ e.1)) cmdtable names;
  fx_semi_apart : semi + zlen ss < lo ∨ hi ≤ semi;
  fx_spaces_apart : spaces + zlen sp < lo ∨ hi ≤ spaces;
}.

Lemma fixed_keep m m' lo hi lo' hi' :
  fixed m lo hi → (∀ a, ¬ lo' ≤ a < hi' → m' a = m a) → lo ≤ lo' → hi' ≤ hi → fixed m' lo' hi'.
Proof.
  intros [Hs1 Hs2 Hn Ha1 Ha2] Hm Hlo Hhi.
  split; try (eapply cstr_keep; [done|done|lia]); try lia.
  eapply Forall2_impl; [|exact Hn]. intros e n [He Hap]. split; [eapply cstr_keep; [done|done|lia]|lia].
Qed.

Lemma args_loop_spec k m lo hi word ctx ws args ds :
  fixed m lo hi → tok_state sp m lo hi word ctx ws → (length ws < k)%nat →
  0 < lo → hi - lo ≤ Z.of_nat fuel → zlen ds ≤ MAXMENUARGS →
  Forall2 (λ p d, cstr m p d ∧ p + zlen d < lo) args ds →
  ∃ m' r, args_loop spaces k fuel m word ctx args = Some (m', r) ∧
    (∀ a, ¬ lo ≤ a < hi → m' a = m a) ∧
    if MAXMENUARGS <? zlen ds + zlen ws then r = inl E2BIG
    else ∃ ps, r = inr ps ∧ Forall2 (cstr m') ps (ds ++ ws).
Proof.
  revert m lo word ctx ws args ds. induction k as [|k IH];
    intros m lo word ctx ws args ds Hfx Htok Hk Hlo Hfu Hds Hargs; [lia|].
  pose proof (Forall2_length Hargs) as Hlen. cbn [args_loop].
  destruct Htok as [[-> ->]|(w & ws' & -> & Hw0 & Hlow & Hhiw & Hcw & Hrest)].
  - rewrite Z.eqb_refl. exists m, (inr args). split; [done|]. split; [done|].
    cbn [length]. rewrite (proj2 (Z.ltb_ge _ _)) by lia. exists args. split; [done|].
    rewrite app_nil_r. eapply Forall2_impl; [|exact Hargs]. by intros p d [? _].
  - rewrite (proj2 (Z.eqb_neq word 0)) by lia. cbn [length] in *. rewrite Hlen.
    destruct (Z.leb_spec MAXMENUARGS (zlen ds)).
    { exists m, (inl E2BIG). split; [done|]. split; [done|]. rewrite (proj2 (Z.ltb_lt _ _)) by lia. done. }
    destruct (tok_next spaces sp fuel Hspaces0 Hsp m hi (word + zlen w) ctx ws')
      as (word' & m' & ctx' & -> & Htok & Hm); try done; try lia.
    { apply Hfx. }
    cbn [mbind option_bind].
    assert (Hm1 : ∀ a, ¬ word + zlen w + 1 ≤ a < hi → m' a = m a) by (intros; apply Hm; lia).
    destruct (IH m' (word + zlen w + 1) word' ctx' ws' (args ++ [word]) (ds ++ [w]))
      as (m2 & r & Hrun & Hm2 & Hr); try done; try lia.
    + eapply fixed_keep; [done|done|lia|lia].
    + rewrite length_app. cbn. lia.
    + apply Forall2_app; [|by constructor; [split; [eapply cstr_keep; [done|done|]|]; lia|constructor]].
      eapply Forall2_impl; [|exact Hargs]. intros p d [Hp Hpl]. split; [eapply cstr_keep; [done|done|lia]|lia].
    + exists m2, r. split; [done|]. split.
      * intros a Ha. rewrite Hm2, Hm1 by lia. done.
      * rewrite length_app in Hr. cbn [length] in Hr.
        replace (Z.of_nat (length ds + 1) + zlen ws') with (zlen ds + Z.of_nat (S (length ws'))) in Hr by lia.
        destruct (_ <? _); [done|]. by rewrite <- app_assoc in Hr.
Qed.

(** The entry whose name is [w]; an empty name matches nothing. *)
Fixpoint lookup_cmd (w : list Z) (table : list (Z * (list (list Z) → Z))) (ns : list (list Z))
  : option (Z * (list (list Z) → Z)) :=
  match table, ns with
  | e :: table', n :: ns' =>
      if bool_decide (n ≠ [] ∧ n = w) then Some e else lookup_cmd w table' ns'
  | _, _ => None
  end.

Lemma find_cmd_spec m lo hi arg0 w table ns :
  cstr m arg0 w → (length w < fuel)%nat →
  Forall2 (λ e n, cstr m e.1 n ∧ (e.1 + zlen n < lo ∨ hi ≤ e.1)) table ns →
  find_cmd fuel m arg0 table = Some (lookup_cmd w table ns).
Proof.
  intros Hw Hf. induction 1 as [|e n table ns [He _] Hn IH]; cbn [find_cmd lookup_cmd]; [done|].
  destruct n as [|c n].
  - cbn in He. rewrite He. rewrite bool_decide_eq_false_2 by (by intros [? _]). done.
  - assert (m e.1 ≠ 0) by (cbn in He; lia). rewrite (proj2 (Z.eqb_neq _ 0)) by done.
    rewrite (strcmp_spec fuel m arg0 e.1 w (c :: n)) by done. cbn [mbind option_bind].
    destruct (Z.eqb_spec (lexcmp w (c :: n)) 0) as [Hz|Hz].
    + apply lexcmp_eq in Hz as ->. by rewrite bool_decide_eq_true_2.
    + rewrite bool_decide_eq_false_2; [done|]. intros [_ <-]. by apply Hz, lexcmp_eq.
Qed.

(** What a command line [s] should do: the result and the command it runs. *)
Definition spec_dispatch (s : list Z) : Z * list (Z * list (list Z)) :=
  match words (is_sep sp) s with
  | [] => (0, [])
  | (w0 :: _) as ws =>
      if MAXMENUARGS <? zlen ws then (E2BIG, [])
      else match lookup_cmd w0 cmdtable names with
           | None => (EINVAL, [])
           | Some (name, func) => (func ws, [(name, ws)])
           end
  end.

Lemma cmd_dispatch_spec m cmd s :
  fixed m cmd (cmd + zlen s) → cstr m cmd s → (length s < fuel)%nat → 0 < cmd →
  ∃ m', cmd_dispatch spaces cmdtable fuel m cmd = Some (m', (spec_dispatch s).1, (spec_dispatch s).2) ∧
    ∀ a, ¬ cmd ≤ a < cmd + zlen s → m' a = m a.
Proof.
  intros Hfx Hs Hf Hc. unfold cmd_dispatch, spec_dispatch.
  destruct (words_bounds (is_sep sp) s) as [Hwl Hwf].
  destruct (tok_first spaces sp fuel Hspaces0 Hsp m cmd s) as (word & m1 & ctx & -> & Htok & Hm1); try done.
  { apply Hfx. }
  cbn [mbind option_bind].
  assert (Hfx1 : fixed m1 cmd (cmd + zlen s)) by (eapply fixed_keep; [done|done|lia|lia]).
  destruct (args_loop_spec fuel m1 cmd (cmd + zlen s) word ctx (words (is_sep sp) s) [] [])
    as (m2 & r & -> & Hm2 & Hr); try done; try lia.
  cbn [mbind option_bind].
  assert (Hm : ∀ a, ¬ cmd ≤ a < cmd + zlen s → m2 a = m a) by (intros; rewrite Hm2, Hm1 by done; done).
  cbn [length] in Hr. rewrite Z.add_0_l in Hr.
  assert (Hfx2 : fixed m2 cmd (cmd + zlen s)) by (eapply fixed_keep; [exact Hfx|done|lia|lia]).
  destruct (words (is_sep sp) s) as [|w0 ws] eqn:Ew.
  { cbn in Hr. destruct Hr as (ps & -> & Hps). inversion Hps; subst. by exists m2. }
  revert Hr. destruct (MAXMENUARGS <? zlen (w0 :: ws)); intros Hr; [subst r; by exists m2|].
  destruct Hr as (ps & -> & Hps). cbn [app] in Hps. pose proof Hps as Hps'.
  inversion Hps as [|p0 w0' ps' ws' Hp0 Hps0]; subst.
  assert (Hlw : Forall (λ w, (length w < fuel)%nat) (w0 :: ws)).
  { eapply Forall_impl; [|exact Hwf]. cbn. lia. }
  rewrite (find_cmd_spec m2 cmd (cmd + zlen s) p0 w0 cmdtable names); [|done|by inversion Hlw|apply Hfx2].
  cbn [mbind option_bind]. destruct (lookup_cmd w0 cmdtable names) as [[name func]|]; [|by exists m2].
  rewrite (read_strs_spec fuel m2 (p0 :: ps') (w0 :: ws)) by done. cbn [mbind option_bind]. by exists m2.
Qed.

(** What the commands of a line should do. *)
Fixpoint spec_menu (isargs : bool) (cmds : list (list Z)) : list (Z * list (list Z)) * bool :=
  match cmds with
  | [] => ([], false)
  | c :: cmds' =>
      let '(result, run) := spec_dispatch c in
      if negb (result =? 0) && isargs then (run, true)
      else let '(runs, b) := spec_menu isargs cmds' in (run ++ runs, b)
  end.

Lemma menu_loop_spec k m lo hi word ctx ws isargs :
  fixed m lo hi → tok_state ss m lo hi word ctx ws → (length ws < k)%nat →
  0 < lo → hi - lo < Z.of_nat fuel →
  menu_loop semi spaces cmdtable k fuel m word ctx isargs = Some (spec_menu isargs ws).
Proof.
  revert m lo word ctx ws. induction k as [|k IH]; intros m lo word ctx ws Hfx Htok Hk Hlo Hfu; [lia|].
  cbn [menu_loop]. destruct Htok as [[-> ->]|(w & ws' & -> & Hw0 & Hlow & Hhiw & Hcw & Hrest)].
  { by rewrite Z.eqb_refl. }
  rewrite (proj2 (Z.eqb_neq word 0)) by lia. cbn [length spec_menu] in *.
  destruct (cmd_dispatch_spec m word w) as (m1 & -> & Hm1); try done; try lia.
  { eapply fixed_keep; [done|done|lia|lia]. }
  cbn [mbind option_bind]. destruct (spec_dispatch w) as [result run]. cbn [fst snd].
  destruct (negb (result =? 0) && isargs); [done|].
  assert (Hfx1 : fixed m1 lo hi).
  { eapply fixed_keep; [exact Hfx| |lia|lia]. intros a Ha. apply Hm1. lia. }
  assert (Hrest1 : rest_state ss m1 hi ctx (word + zlen w) ws').
  { destruct Hrest as [?|(s & -> & Hs & Hws & Hend)]; [by left|right]. exists s.
    split; [done|]. split; [|done]. eapply cstr_ext; [done|]. intros a Ha. apply Hm1. lia. }
  destruct (tok_next semi ss fuel Hsemi0 Hss m1 hi (word + zlen w) ctx ws')
    as (word' & m' & ctx' & -> & Htok & Hm); try done; try lia.
  { apply Hfx1. }
  cbn [mbind option_bind].
  rewrite (IH m' (word + zlen w + 1) word' ctx' ws'); try done; try lia.
  - cbn [mbind option_bind]. by destruct (spec_menu isargs ws').
  - eapply fixed_keep; [exact Hfx1| |lia|lia]. intros a Ha. apply Hm. lia.
Qed.
End commands.

(** ** The line editor *)

(** The line without the characters at its end that satisfy [f]. *)
Definition rtrim (f : Z → bool) (l : list Z) : list Z := reverse (span f (reverse l)).2.

(** The editor on lists: whether the line is finished, and the line. *)
Definition edit_char (maxlen : Z) (line : list Z) (ch : Z) : bool * list Z :=
  if (ch =? 10) || (ch =? 13) then (true, line)
  else if (32 <=? ch) && (ch <? 127) && (zlen line <? maxlen - 1) then (false, line ++ [ch])
  else if (ch =? 8) || (ch =? 127) then (false, removelast line)
  else if ch =? 3 then (true, [])
  else if ch =? 21 then (false, [])
  else if ch =? 23 then
    (false, rtrim (λ c, Bool.eqb (c =? 32) false) (rtrim (λ c, Bool.eqb (c =? 32) true) line))
  else (false, line).

Fixpoint edit (maxlen : Z) (line : list Z) (chars : list Z) : option (list Z) :=
  match chars with
  | [] => None
  | ch :: chars' =>
      match edit_char maxlen line ch with
      | (true, line') => Some line'
      | (false, line') => edit maxlen line' chars'
      end
  end.

Lemma rtrim_snoc f l c : rtrim f (l ++ [c]) = if f c then rtrim f l else l ++ [c].
Proof.
  unfold rtrim. rewrite reverse_snoc. cbn [span]. destruct (f c).
  - by destruct (span f (reverse l)).
  - cbn [snd]. by rewrite reverse_cons, reverse_involutive.
Qed.

(** [buf] starts with [line]. *)
Definition holds (buf line : list Z) : Prop := ∀ i c, line !! i = Some c → arr_get buf (Z.of_nat i) = Some c.

Lemma holds_app buf l1 l2 : holds buf (l1 ++ l2) → holds buf l1.
Proof. intros Hh i c Hc. apply Hh. by apply lookup_app_l_Some. Qed.

Lemma rtrim_prefix f l : ∃ t, l = rtrim f l ++ t.
Proof.
  induction l as [|c l [t IH]] using rev_ind; [by exists []|]. rewrite rtrim_snoc.
  destruct (f c); [|by exists []; rewrite app_nil_r]. exists (t ++ [c]). by rewrite IH at 1; rewrite <- app_assoc.
Qed.

Lemma erase_while_spec buf line blank fuel :
  holds buf line → (length line < fuel)%nat →
  erase_while fuel buf (zlen line) blank = Some (zlen (rtrim (λ c, Bool.eqb (c =? 32) blank) line)).
Proof.
  revert fuel. induction line as [|c line IH] using rev_ind; intros fuel Hh Hf;
    (destruct fuel as [|fuel]; [lia|]); cbn [erase_while]; [done|].
  rewrite length_app in *. cbn [length] in *. rewrite (proj2 (Z.ltb_lt _ _)) by lia.
  replace (Z.of_nat (length line + 1) - 1) with (zlen line) by lia.
  rewrite (Hh (length line) c) by (by rewrite lookup_app_r, Nat.sub_diag). cbn [mbind option_bind].
  rewrite rtrim_snoc. destruct (Bool.eqb (c =? 32) blank).
  - apply IH; [by eapply holds_app|lia].
  - by rewrite length_app.
Qed.

Lemma removelast_snoc (l : list Z) : l ≠ [] → ∃ c, l = removelast l ++ [c].
Proof. intros Hne. exists (List.last l 0). by apply app_removelast_last. Qed.

Definition step_of (stop : bool) (buf : list Z) (pos : Z) : kgets_step :=
  if stop then KStop buf pos else KNext buf pos.

(** The buffer holds the line, with room for the terminator. *)
Record editing (maxlen : Z) (size : Z) (buf line : list Z) : Prop := {
  ed_size : zlen buf = size;
  ed_holds : holds buf line;
  ed_fits : zlen line < maxlen;
}.

Lemma editing_prefix maxlen size buf l1 l2 : editing maxlen size buf (l1 ++ l2) → editing maxlen size buf l1.
Proof.
  intros [Hs Hh Hf]. rewrite length_app in Hf. split; [done|by eapply holds_app|lia].
Qed.

(** Writing at the end of the line. *)
Lemma editing_write maxlen size buf line x :
  editing maxlen size buf line → editing maxlen size (arr_set buf (zlen line) x) line.
Proof.
  intros [Hs Hh Hf]. split; [by rewrite length_arr_set| |done].
  intros i c Hc. pose proof (lookup_lt_Some _ _ _ Hc). rewrite arr_get_set_ne by lia. by apply Hh.
Qed.

Lemma editing_type maxlen size buf line x :
  editing maxlen size buf line → zlen line < maxlen - 1 → zlen line < size →
  editing maxlen size (arr_set buf (zlen line) x) (line ++ [x]).
Proof.
  intros He Hr Hsz. destruct (editing_write _ _ _ _ x He) as [Hs Hh _]. pose proof (ed_size _ _ _ _ He).
  split; [done| |rewrite length_app; cbn; lia].
  intros i c [Hc|[Hi Hc]]%lookup_app_Some; [by apply Hh|].
  apply list_lookup_singleton_Some in Hc as [Hi' <-]. replace i with (length line) by lia.
  apply arr_get_set_eq. lia.
Qed.

Lemma editing_rtrim maxlen size buf line f :
  editing maxlen size buf line → editing maxlen size buf (rtrim f line).
Proof. intros He. destruct (rtrim_prefix f line) as [t Ht]. rewrite Ht in He. by eapply editing_prefix. Qed.

(** One character: no access outside the buffer, and the same edit. *)
Lemma kgets_char_spec maxlen size buf line ch :
  1 ≤ maxlen ≤ size → size < 2 ^ 32 → editing maxlen size buf line →
  ∃ buf', kgets_char maxlen buf (zlen line) ch =
      Some (step_of (edit_char maxlen line ch).1 buf' (zlen (edit_char maxlen line ch).2)) ∧
    editing maxlen size buf' (edit_char maxlen line ch).2.
Proof.
  intros Hmax Hsz He. pose proof (ed_size _ _ _ _ He) as Hlen. pose proof (ed_fits _ _ _ _ He) as Hfit.
  assert (Hnil : editing maxlen size buf []) by (by apply (editing_prefix _ _ _ [] line)).
  assert (Hw : u32 (maxlen - 1) = maxlen - 1) by (apply wrap_small; lia).
  unfold kgets_char, edit_char. rewrite Hw.
  destruct ((ch =? 10) || (ch =? 13)); [by exists buf|].
  destruct ((32 <=? ch) && (ch <? 127) && (zlen line <? maxlen - 1)) eqn:Hp.
  { apply andb_prop in Hp as [_ Hp%Z.ltb_lt]. rewrite (proj2 (Z.ltb_lt _ _)) by lia. eexists.
    split; [|apply editing_type; (done || lia)]. cbn [fst snd step_of]. do 2 f_equal. rewrite length_app. cbn. lia. }
  destruct ((ch =? 8) || (ch =? 127)) eqn:Hbs; cbn [andb].
  { destruct line as [|x l]; cbn [fst snd].
    - cbn [removelast]. exists buf. split; [|done]. cbn [length]. change (0 <? Z.of_nat 0) with false.
      by apply orb_prop in Hbs as [->%Z.eqb_eq| ->%Z.eqb_eq].
    - destruct (removelast_snoc (x :: l) ltac:(done)) as [c Hc]. rewrite (proj2 (Z.ltb_lt _ _)) by (cbn; lia).
      exists buf. rewrite Hc in He. split; [|by apply editing_prefix in He]. cbn [step_of]. do 2 f_equal.
      rewrite Hc at 1. rewrite length_app. change (length [c]) with 1%nat. lia. }
  destruct (ch =? 3); [by exists buf|]. destruct (ch =? 18) eqn:H18.
  { apply Z.eqb_eq in H18 as ->. cbn [Z.eqb Pos.eqb]. rewrite (proj2 (Z.ltb_lt _ _)) by lia.
    eexists. split; [done|by apply editing_write]. }
  destruct (ch =? 21); [by exists buf|]. destruct (ch =? 23); [|by exists buf].
  rewrite erase_while_spec by (apply He || lia). cbn [mbind option_bind].
  rewrite erase_while_spec by (try apply (editing_rtrim _ _ _ _ _ He); lia). cbn [mbind option_bind].
  exists buf. split; [done|]. by do 2 apply editing_rtrim.
Qed.

Lemma kgets_loop_spec maxlen size chars buf line :
  1 ≤ maxlen ≤ size → size < 2 ^ 32 → editing maxlen size buf line →
  match edit maxlen line chars with
  | None => kgets_loop maxlen buf (zlen line) chars = Some None
  | Some line' => ∃ buf', kgets_loop maxlen buf (zlen line) chars = Some (Some buf') ∧
      editing maxlen size buf' line' ∧ arr_get buf' (zlen line') = Some 0
  end.
Proof.
  intros Hmax Hsz. revert buf line. induction chars as [|ch chars IH]; intros buf line He; [done|].
  cbn [edit kgets_loop]. destruct (kgets_char_spec maxlen size buf line ch Hmax Hsz He) as (buf' & -> & He').
  cbn [mbind option_bind]. destruct (edit_char maxlen line ch) as [[] line']; cbn [fst snd step_of] in *; [|by apply IH].
  pose proof (ed_size _ _ _ _ He'). pose proof (ed_fits _ _ _ _ He').
  rewrite (proj2 (Z.ltb_lt _ _)) by lia. eexists. split; [done|].
  split; [by apply editing_write|]. apply arr_get_set_eq. lia.
Qed.

(** The lines the editor produces hold printable characters only. *)
Lemma edit_printable maxlen line chars line' :
  Forall (λ c, 32 ≤ c < 127) line → edit maxlen line chars = Some line' → Forall (λ c, 32 ≤ c < 127) line'.
Proof.
  revert line. induction chars as [|ch chars IH]; intros line Hl; cbn [edit]; [done|].
  assert (Hrt : ∀ f l, Forall (λ c, 32 ≤ c < 127) l → Forall (λ c, 32 ≤ c < 127) (rtrim f l)).
  { intros f l H. destruct (rtrim_prefix f l) as [t Ht]. rewrite Ht in H. by apply Forall_app in H as [? _]. }
  assert (He : Forall (λ c, 32 ≤ c < 127) (edit_char maxlen line ch).2).
  { unfold edit_char. destruct (_ || _); [done|]. destruct (_ && _) eqn:Hp.
    { rewrite !andb_true_iff in Hp. destruct Hp as [[?%Z.leb_le ?%Z.ltb_lt] _].
      apply Forall_app. split; [done|]. by constructor. }
    destruct (_ || _).
    { destruct line as [|x l]; [done|]. destruct (removelast_snoc (x :: l) ltac:(done)) as [c Hc].
      rewrite Hc in Hl. by apply Forall_app in Hl as [? _]. }
    repeat (destruct (_ =? _); [cbn [snd]; auto|]). done. }
  destruct (edit_char maxlen line ch) as [[] l]; [by intros [= <-]|by apply IH].
Qed.

(** ** Claims *)

(** A command line runs its commands.  [menu_execute] cuts the line at the
    semicolons and each command at the blanks, in place, and runs in order
    exactly the commands whose first word is in the table, each with all its
    words as arguments; a command of more than sixteen words or with an unknown
    name runs nothing and is an error; an error on the kernel's own command
    line stops the machine. *)
Theorem menu_runs_line semi spaces cmdtable ss sp names fuel m line s isargs :
  0 < semi → 0 < spaces → (length ss < fuel)%nat → (length sp < fuel)%nat →
  fixed semi spaces cmdtable ss sp names m line (line + zlen s) → cstr m line s →
  (length s < fuel)%nat → 0 < line →
  menu_execute semi spaces cmdtable fuel m line isargs =
    Some (spec_menu cmdtable sp names isargs (words (is_sep ss) s)).
Proof.
  intros Hse Hsp Hlss Hlsp Hfx Hs Hf Hl. unfold menu_execute.
  destruct (tok_first semi ss fuel Hse Hlss m line s) as (word & m1 & ctx & -> & Htok & Hm1); try done.
  { apply Hfx. }
  cbn [mbind option_bind]. destruct (words_bounds (is_sep ss) s) as [Hwl _].
  eapply (menu_loop_spec semi spaces cmdtable ss sp names fuel); try done; try lia.
  by eapply fixed_keep; try exact Hm1; try exact Hfx; try lia.
Qed.

(** The separators, the names "s" and "p", and the line "p x;; s". *)
Definition demo_mem : mem :=
  mem_at 10 [32; 9; 0; 59; 0; 115; 0; 112; 0; 112; 32; 120; 59; 59; 32; 115; 0].
Definition demo_table : list (Z * (list (list Z) → Z)) := [(15, λ _, 0); (17, λ _, 0)].

Lemma menu_runs_line_witness :
  menu_execute 13 10 demo_table 9 demo_mem 19 true =
    Some ([(17, [[112]; [120]]); (15, [[115]])], false).
Proof.
  rewrite (menu_runs_line 13 10 demo_table [59] [32; 9] [[115]; [112]] 9 demo_mem 19
    [112; 32; 120; 59; 59; 32; 115] true); [vm_compute; reflexivity|lia|lia|cbn; lia|cbn; lia
    | |vm_compute; intuition congruence|cbn; lia|lia].
  split; [vm_compute; intuition congruence|vm_compute; intuition congruence| |cbn; lia|cbn; lia].
  repeat constructor; cbn; lia.
Defined.

(** The line editor.  Whatever is typed, [kgets] stays inside its buffer and
    produces the line that editing a list of characters with backspace, ^U, ^W
    and ^C gives, terminated, shorter than the buffer and made of printable
    characters; without an end of line it keeps waiting. *)
Theorem kgets_edits buf maxlen chars :
  1 ≤ maxlen ≤ zlen buf → zlen buf < 2 ^ 32 →
  match edit maxlen [] chars with
  | None => kgets buf maxlen chars = Some None
  | Some line => zlen line < maxlen ∧ Forall (λ c, 32 ≤ c < 127) line ∧
      ∃ buf', kgets buf maxlen chars = Some (Some buf') ∧ zlen buf' = zlen buf ∧
        holds buf' line ∧ arr_get buf' (zlen line) = Some 0
  end.
Proof.
  intros Hmax Hsz. assert (He : editing maxlen (zlen buf) buf []) by (split; [done|done|cbn; lia]).
  pose proof (kgets_loop_spec maxlen (zlen buf) chars buf [] Hmax Hsz He) as Hr.
  destruct (edit maxlen [] chars) as [line|] eqn:Hl; [|done].
  destruct Hr as (buf' & Hr & [Hs Hh Hf] & Hz). split; [done|].
  split; [by eapply edit_printable; [|exact Hl]|]. by exists buf'.
Qed.

(** "ls x", ^W, "-", backspace, newline. *)
Lemma kgets_edits_witness :
  ∃ buf', kgets (replicate 8 1) 8 [108; 115; 32; 120; 23; 45; 8; 10] = Some (Some buf') ∧
    arr_get buf' 3 = Some 0.
Proof.
  pose proof (kgets_edits (replicate 8 1) 8 [108; 115; 32; 120; 23; 45; 8; 10] ltac:(cbn; lia) ltac:(cbn; lia))
    as (_ & _ & buf' & H & _ & _ & Hz).
  exists buf'. split; [exact H|exact Hz].
Defined.
