(* ===== verification/Threadlist.v ===== *)
(** * Threadlist: kern/thread/threadlist.c

    Doubly linked lists of threads with two bookends.  A node is part of a
    threadlist (its head or its tail) or of a thread; the heap of nodes is a
    function from such addresses, a null pointer is [None], and an operation
    that follows a null pointer or fails an assertion gives [None].  The
    operations refine the obvious ones on lists, for all the lists of the
    system at once: a thread is on one list at most, and a thread on none has
    null links. *)

From Stdlib Require Import ZArith Lia.
From stdpp Require Import base list option list_numbers sets.
From S2P Require Import Prelude.
Set Default Goal Selector "!".
Open Scope Z_scope.

(** [&tl->tl_head], [&tl->tl_tail], [&t->t_listnode] *)
Inductive nptr := NHead (tl : Z) | NTail (tl : Z) | NThread (t : Z).

#[global] Instance nptr_eq_dec : EqDecision nptr.
Proof. solve_decision. Defined.

Record threadlistnode := Node {
  tln_prev : option nptr;
  tln_next : option nptr;
  tln_self : option Z;
}.

Record tlheap := TlHeap {
  nodes : nptr → threadlistnode;
  tl_count : Z → Z;
}.

Definition upd_node (p : nptr) (n : threadlistnode) (s : tlheap) : tlheap :=
  TlHeap (λ q, if decide (q = p) then n else nodes s q) (tl_count s).
Definition set_count (tl c : Z) (s : tlheap) : tlheap :=
  TlHeap (nodes s) (λ k, if decide (k = tl) then c else tl_count s k).

(** Assignments to the fields of the node at [p]. *)
Definition set_prev (p : nptr) (x : option nptr) (s : tlheap) : tlheap :=
  upd_node p (Node x (tln_next (nodes s p)) (tln_self (nodes s p))) s.
Definition set_next (p : nptr) (x : option nptr) (s : tlheap) : tlheap :=
  upd_node p (Node (tln_prev (nodes s p)) x (tln_self (nodes s p))) s.

(** ** Operations *)

Definition threadlistnode_init (tln : nptr) (t : Z) (s : tlheap) : tlheap :=
  upd_node tln (Node None None (Some t)) s.

(** Whether the assertions hold. *)
Definition threadlistnode_cleanup (tln : nptr) (s : tlheap) : bool :=
  bool_decide (tln_next (nodes s tln) = None ∧ tln_prev (nodes s tln) = None ∧
               tln_self (nodes s tln) ≠ None).

Definition threadlist_init (tl : Z) (s : tlheap) : tlheap :=
  set_count tl 0
    (upd_node (NTail tl) (Node (Some (NHead tl)) None None)
      (upd_node (NHead tl) (Node None (Some (NTail tl)) None) s)).

Definition threadlist_isempty (tl : Z) (s : tlheap) : bool := tl_count s tl =? 0.

Definition threadlist_cleanup (tl : Z) (s : tlheap) : bool :=
  threadlist_isempty tl s && (tl_count s tl =? 0).

Definition threadlist_insertafternode (onlist : nptr) (t : Z) (s : tlheap) : option tlheap :=
  let addee := NThread t in
  let s := set_prev addee (Some onlist) s in
  let s := set_next addee (tln_next (nodes s onlist)) s in
  p ← tln_prev (nodes s addee);
  let s := set_next p (Some addee) s in
  n ← tln_next (nodes s addee);
  Some (set_prev n (Some addee) s).

Definition threadlist_insertbeforenode (t : Z) (onlist : nptr) (s : tlheap) : option tlheap :=
  let addee := NThread t in
  let s := set_prev addee (tln_prev (nodes s onlist)) s in
  let s := set_next addee (Some onlist) s in
  p ← tln_prev (nodes s addee);
  let s := set_next p (Some addee) s in
  n ← tln_next (nodes s addee);
  Some (set_prev n (Some addee) s).

Definition threadlist_removenode (tln : nptr) (s : tlheap) : option tlheap :=
  p ← tln_prev (nodes s tln);
  let s := set_next p (tln_next (nodes s tln)) s in
  n ← tln_next (nodes s tln);
  let s := set_prev n (tln_prev (nodes s tln)) s in
  let s := set_prev tln None s in
  Some (set_next tln None s).

(** [tl_count] is unsigned. *)
Definition incr_count (tl : Z) (s : tlheap) : tlheap := set_count tl (u32 (tl_count s tl + 1)) s.
Definition decr_count (tl : Z) (s : tlheap) : tlheap := set_count tl (u32 (tl_count s tl - 1)) s.

Definition threadlist_addhead (tl t : Z) (s : tlheap) : option tlheap :=
  incr_count tl <$> threadlist_insertafternode (NHead tl) t s.

Definition threadlist_addtail (tl t : Z) (s : tlheap) : option tlheap :=
  incr_count tl <$> threadlist_insertbeforenode t (NTail tl) s.

(** The thread removed, or null. *)
Definition threadlist_remhead (tl : Z) (s : tlheap) : option (tlheap * option Z) :=
  tln ← tln_next (nodes s (NHead tl));
  match tln_next (nodes s tln) with
  | None => Some (s, None)
  | Some _ =>
      s ← threadlist_removenode tln s;
      let s := decr_count tl s in
      Some (s, tln_self (nodes s tln))
  end.

Definition threadlist_remtail (tl : Z) (s : tlheap) : option (tlheap * option Z) :=
  tln ← tln_prev (nodes s (NTail tl));
  match tln_prev (nodes s tln) with
  | None => Some (s, None)
  | Some _ =>
      s ← threadlist_removenode tln s;
      let s := decr_count tl s in
      Some (s, tln_self (nodes s tln))
  end.

Definition threadlist_insertafter (tl onlist addee : Z) (s : tlheap) : option tlheap :=
  incr_count tl <$> threadlist_insertafternode (NThread onlist) addee s.

Definition threadlist_insertbefore (tl addee onlist : Z) (s : tlheap) : option tlheap :=
  incr_count tl <$> threadlist_insertbeforenode addee (NThread onlist) s.

Definition threadlist_remove (tl t : Z) (s : tlheap) : option tlheap :=
  decr_count tl <$> threadlist_removenode (NThread t) s.

(** [THREADLIST_FORALL], from the node [p]: the threads it visits. *)
Fixpoint forall_from (fuel : nat) (s : tlheap) (p : nptr) : option (list Z) :=
  match fuel with
  | O => None
  | S fuel' =>
      q ← tln_next (nodes s p);
      match tln_self (nodes s q) with
      | None => Some []
      | Some t => (t ::.) <$> forall_from fuel' s (NThread t)
      end
  end.
Definition THREADLIST_FORALL (fuel : nat) (tl : Z) (s : tlheap) : option (list Z) :=
  forall_from fuel s (NHead tl).

(** ** Chains of nodes *)

(** The nodes [l] follow [a], linked both ways. *)
Fixpoint chain (s : tlheap) (a : nptr) (l : list nptr) : Prop :=
  match l with
  | [] => True
  | q :: l' => tln_next (nodes s a) = Some q ∧ tln_prev (nodes s q) = Some a ∧ chain s q l'
  end.

Fixpoint lastp (a : nptr) (l : list nptr) : nptr :=
  match l with [] => a | q :: l' => lastp q l' end.

Lemma lastp_in a l : lastp a l ∈ a :: l.
Proof.
  revert a. induction l as [|q l IH]; intros a; cbn [lastp]; [left|right; apply IH].
Qed.

Lemma lastp_snoc a l q : lastp a (l ++ [q]) = q.
Proof. revert a. induction l; intros; cbn; auto. Qed.

Lemma chain_app s a l1 l2 : chain s a (l1 ++ l2) ↔ chain s a l1 ∧ chain s (lastp a l1) l2.
Proof.
  revert a. induction l1 as [|q l1 IH]; intros a; cbn [app chain lastp]; [tauto|]. rewrite IH. tauto.
Qed.

(** What a chain depends on: the forward links of all its nodes but the last, the
    backward links of all but the first. *)
Lemma chain_frame s s' a l :
  NoDup (a :: l) →
  (∀ q, q ∈ a :: l → q ≠ lastp a l → tln_next (nodes s' q) = tln_next (nodes s q)) →
  (∀ q, q ∈ l → tln_prev (nodes s' q) = tln_prev (nodes s q)) →
  chain s a l → chain s' a l.
Proof.
  revert a. induction l as [|q l IH]; intros a Hnd Hn Hp; cbn [chain lastp] in *; [done|].
  apply NoDup_cons in Hnd as [Ha Hnd]. intros (H1 & H2 & Hc).
  rewrite (Hn a) by (first [by left|intros Heq; apply Ha; rewrite Heq; apply lastp_in]).
  rewrite (Hp q) by left. split; [done|]. split; [done|]. apply IH; try done.
  - intros r Hr. apply Hn. by right.
  - intros r Hr. apply Hp. by right.
Qed.

Lemma chain_nodes s s' a l : nodes s' = nodes s → chain s a l → chain s' a l.
Proof. intros Hn. revert a. induction l as [|q l IH]; intros a; cbn [chain]; [done|]. rewrite Hn. naive_solver. Qed.

(** [t] comes between [p] and [n]. *)
Record spliced (p t n : nptr) (s s' : tlheap) : Prop := {
  sp_t : nodes s' t = Node (Some p) (Some n) (tln_self (nodes s t));
  sp_p : nodes s' p = Node (tln_prev (nodes s p)) (Some t) (tln_self (nodes s p));
  sp_n : nodes s' n = Node (Some t) (tln_next (nodes s n)) (tln_self (nodes s n));
  sp_other : ∀ q, q ≠ p → q ≠ t → q ≠ n → nodes s' q = nodes s q;
  sp_count : tl_count s' = tl_count s;
}.

(** Reduces reads of an updated heap. *)
Ltac heap_simpl :=
  unfold set_prev, set_next, upd_node;
  repeat first [progress cbn [nodes tl_count tln_prev tln_next tln_self mbind option_bind]
               |rewrite decide_True by congruence|rewrite decide_False by congruence].

Lemma insertafternode_run p t n s :
  p ≠ NThread t → n ≠ NThread t → p ≠ n → tln_next (nodes s p) = Some n →
  ∃ s', threadlist_insertafternode p t s = Some s' ∧ spliced p (NThread t) n s s'.
Proof.
  intros Hpt Hnt Hpn Hn. unfold threadlist_insertafternode. heap_simpl.
  rewrite Hn. heap_simpl. eexists. split; [done|].
  split; cbn [nodes tl_count]; repeat first [rewrite decide_True by congruence|rewrite decide_False by congruence]; try done.
  intros q Hp Ht Hq. by rewrite !decide_False by congruence.
Qed.

Lemma insertbeforenode_run p t n s :
  p ≠ NThread t → n ≠ NThread t → p ≠ n → tln_prev (nodes s n) = Some p →
  ∃ s', threadlist_insertbeforenode t n s = Some s' ∧ spliced p (NThread t) n s s'.
Proof.
  intros Hpt Hnt Hpn Hn. unfold threadlist_insertbeforenode. heap_simpl.
  rewrite Hn. heap_simpl. eexists. split; [done|].
  split; cbn [nodes tl_count]; repeat first [rewrite decide_True by congruence|rewrite decide_False by congruence]; try done.
  intros q Hp Ht Hq. by rewrite !decide_False by congruence.
Qed.

(** [t] is taken from between [p] and [n]. *)
Record unspliced (p t n : nptr) (s s' : tlheap) : Prop := {
  us_t : nodes s' t = Node None None (tln_self (nodes s t));
  us_p : nodes s' p = Node (tln_prev (nodes s p)) (Some n) (tln_self (nodes s p));
  us_n : nodes s' n = Node (Some p) (tln_next (nodes s n)) (tln_self (nodes s n));
  us_other : ∀ q, q ≠ p → q ≠ t → q ≠ n → nodes s' q = nodes s q;
  us_count : tl_count s' = tl_count s;
}.

Lemma removenode_run p t n s :
  p ≠ t → n ≠ t → p ≠ n → tln_prev (nodes s t) = Some p → tln_next (nodes s t) = Some n →
  ∃ s', threadlist_removenode t s = Some s' ∧ unspliced p t n s s'.
Proof.
  intros Hpt Hnt Hpn Hp Hn. unfold threadlist_removenode. rewrite Hp. heap_simpl.
  rewrite Hn. heap_simpl. rewrite Hp. eexists. split; [done|].
  split; cbn [nodes tl_count]; repeat first [rewrite decide_True by congruence|rewrite decide_False by congruence]; try done.
  intros q Hq1 Ht Hq. by rewrite !decide_False by congruence.
Qed.

(** ** Inserting in a chain and removing from it *)

Lemma nodup_ins (a : nptr) l1 t n l2 :
  t ∉ a :: l1 ++ n :: l2 → NoDup (a :: l1 ++ n :: l2) →
  NoDup (a :: l1) ∧ NoDup (n :: l2) ∧ (∀ q, q ∈ a :: l1 → (q ∉ n :: l2)) ∧ (t ∉ a :: l1) ∧ (t ∉ n :: l2).
Proof.
  rewrite app_comm_cons. intros Ht (H1 & H2 & H3)%NoDup_app. rewrite not_elem_of_app in Ht.
  destruct Ht as [Ht1 Ht2]. by split_and!.
Qed.

Lemma chain_insert s s' a l1 t n l2 :
  t ∉ a :: l1 ++ n :: l2 → NoDup (a :: l1 ++ n :: l2) →
  spliced (lastp a l1) t n s s' → chain s a (l1 ++ n :: l2) → chain s' a (l1 ++ t :: n :: l2).
Proof.
  intros Ht Hnd [Et Ep En Eo _]. destruct (nodup_ins _ _ _ _ _ Ht Hnd) as (Hn1 & Hn2 & Hd & Ht1 & Ht2).
  pose proof (lastp_in a l1) as Hlast. rewrite !chain_app. cbn [chain]. intros (Hc1 & H1 & H2 & Hc2).
  rewrite Et, Ep, En. cbn [tln_next tln_prev]. split; [|split; [done|split; [done|split; [done|split; [done|]]]]].
  - eapply chain_frame; [done| | |exact Hc1].
    + intros q Hq Hne. rewrite Eo; [done|done|set_solver|]. intros ->. by destruct (Hd n Hq); left.
    + intros q Hq. destruct (decide (q = lastp a l1)) as [->|]; [by rewrite Ep|].
      rewrite Eo; [done|done|set_solver|]. intros ->. destruct (Hd n); [by right|by left].
  - eapply chain_frame; [done| | |exact Hc2].
    + intros q Hq Hne. destruct (decide (q = n)) as [->|]; [by rewrite En|].
      rewrite Eo; [done| |set_solver|done]. intros ->. by apply (Hd _ Hlast).
    + intros q Hq. rewrite Eo; [done| |set_solver|].
      * intros ->. apply (Hd _ Hlast). by right.
      * intros ->. by apply NoDup_cons in Hn2 as [? _].
Qed.

Lemma chain_remove s s' a l1 t n l2 :
  NoDup (a :: l1 ++ t :: n :: l2) →
  unspliced (lastp a l1) t n s s' → chain s a (l1 ++ t :: n :: l2) → chain s' a (l1 ++ n :: l2).
Proof.
  intros Hnd [Et Ep En Eo _]. rewrite app_comm_cons in Hnd. apply NoDup_app in Hnd as (Hn1 & Hd & Hn2).
  apply NoDup_cons in Hn2 as [Htn Hn2].
  pose proof (lastp_in a l1) as Hlast. rewrite !chain_app. cbn [chain]. intros (Hc1 & H1 & H2 & H3 & H4 & Hc2).
  rewrite Ep, En. cbn [tln_next tln_prev]. split; [|split; [done|split; [done|]]].
  - eapply chain_frame; [done| | |exact Hc1].
    + intros q Hq Hne. specialize (Hd q Hq). rewrite Eo; set_solver.
    + intros q Hq. destruct (decide (q = lastp a l1)) as [->|]; [by rewrite Ep|].
      specialize (Hd q ltac:(by right)). rewrite Eo; set_solver.
  - specialize (Hd _ Hlast). eapply chain_frame; [done| | |exact Hc2].
    + intros q Hq Hne. destruct (decide (q = n)) as [->|]; [by rewrite En|]. rewrite Eo; set_solver.
    + intros q Hq. apply NoDup_cons in Hn2 as [Hn2 _]. rewrite Eo; set_solver.
Qed.

(** ** Lists *)

(** The nodes after the head of a list of the threads [xs]. *)
Definition body (tl : Z) (xs : list Z) : list nptr := map NThread xs ++ [NTail tl].

Record list_at (s : tlheap) (tl : Z) (xs : list Z) : Prop := {
  la_chain : chain s (NHead tl) (body tl xs);
  la_head : tln_prev (nodes s (NHead tl)) = None ∧ tln_self (nodes s (NHead tl)) = None;
  la_tail : tln_next (nodes s (NTail tl)) = None ∧ tln_self (nodes s (NTail tl)) = None;
  la_self : ∀ x, x ∈ xs → tln_self (nodes s (NThread x)) = Some x;
  la_count : tl_count s tl = u32 (zlen xs);
  la_nodup : NoDup xs;
}.

Lemma in_body tl xs q : q ∈ NHead tl :: body tl xs ↔ q = NHead tl ∨ q = NTail tl ∨ ∃ x, q = NThread x ∧ x ∈ xs.
Proof.
  unfold body. rewrite elem_of_cons, elem_of_app, list_elem_of_fmap, list_elem_of_singleton. naive_solver.
Qed.

Lemma body_nodup tl xs : NoDup xs → NoDup (NHead tl :: body tl xs).
Proof.
  intros Hnd. unfold body. apply NoDup_cons. split; [set_solver|]. apply NoDup_app. split_and!.
  - apply NoDup_fmap_2; [|done]. by intros ?? [= ->].
  - set_solver.
  - apply NoDup_singleton.
Qed.

(** A list that an operation does not touch. *)
Lemma list_at_frame s s' tl xs :
  (∀ q, q ∈ NHead tl :: body tl xs → nodes s' q = nodes s q) → tl_count s' tl = tl_count s tl →
  list_at s tl xs → list_at s' tl xs.
Proof.
  intros Hq Hc [H1 H2 H3 H4 H5 H6]. pose proof (in_body tl xs) as Hin. split; try done.
  - eapply chain_frame; [by apply body_nodup| | |exact H1].
    + intros q Hq' _. by rewrite Hq.
    + intros q Hq'. rewrite Hq; [done|by right].
  - by rewrite Hq by (rewrite Hin; auto).
  - by rewrite Hq by (rewrite Hin; auto).
  - intros x Hx. rewrite Hq by (rewrite Hin; eauto). by apply H4.
  - by rewrite Hc.
Qed.

(** The neighbours of a place in a list. *)
Definition before (tl : Z) (xs : list Z) : nptr := lastp (NHead tl) (map NThread xs).
Definition after (ys : list Z) (tl : Z) : nptr := match ys with [] => NTail tl | y :: _ => NThread y end.

Lemma body_after tl xs ys :
  ∃ l2, body tl (xs ++ ys) = map NThread xs ++ after ys tl :: l2 ∧ ∀ t, body tl (xs ++ t :: ys) = map NThread xs ++ NThread t :: after ys tl :: l2.
Proof.
  unfold body. destruct ys as [|y ys]; [exists []|exists (map NThread ys ++ [NTail tl])].
  - split; [by rewrite app_nil_r|]. intros t. by rewrite map_app, <- app_assoc.
  - split; [by rewrite map_app, <- app_assoc|]. intros t. by rewrite map_app, <- app_assoc.
Qed.

Lemma list_at_links s tl xs ys :
  list_at s tl (xs ++ ys) →
  tln_next (nodes s (before tl xs)) = Some (after ys tl) ∧
  tln_prev (nodes s (after ys tl)) = Some (before tl xs).
Proof.
  intros [Hc _ _ _ _ _]. destruct (body_after tl xs ys) as (l2 & Hb & _). rewrite Hb in Hc.
  apply chain_app in Hc as [_ Hc]. cbn [chain] in Hc. tauto.
Qed.

Lemma list_at_nodes s tl xs ys :
  list_at s tl (xs ++ ys) →
  before tl xs ∈ NHead tl :: body tl (xs ++ ys) ∧ after ys tl ∈ NHead tl :: body tl (xs ++ ys) ∧
  before tl xs ≠ after ys tl.
Proof.
  intros Hl. pose proof (body_nodup tl _ (la_nodup _ _ _ Hl)) as Hnd.
  destruct (body_after tl xs ys) as (l2 & Hb & _). rewrite Hb in *.
  pose proof (lastp_in (NHead tl) (map NThread xs)) as Hin. fold (before tl xs) in Hin.
  rewrite app_comm_cons in *. apply NoDup_app in Hnd as (_ & Hd & _). specialize (Hd _ Hin). set_solver.
Qed.

(** Inserting [t] in the middle of the list [tl]. *)
Lemma list_at_insert s s' tl xs ys t :
  list_at s tl (xs ++ ys) → t ∉ xs ++ ys → tln_self (nodes s (NThread t)) = Some t →
  spliced (before tl xs) (NThread t) (after ys tl) s s' →
  list_at (incr_count tl s') tl (xs ++ t :: ys).
Proof.
  intros Hl Ht Hs Hsp. pose proof (body_nodup tl _ (la_nodup _ _ _ Hl)) as Hnd.
  assert (Hself : ∀ q, tln_self (nodes s' q) = tln_self (nodes s q)).
  { intros q. destruct Hsp as [Et Ep En Eo _].
    destruct (decide (q = before tl xs)) as [->|]; [by rewrite Ep|].
    destruct (decide (q = NThread t)) as [->|]; [by rewrite Et|].
    destruct (decide (q = after ys tl)) as [->|]; [by rewrite En|by rewrite Eo]. }
  destruct (list_at_nodes _ _ _ _ Hl) as (_ & _ & Hne).
  assert (Hbt : NThread t ∉ NHead tl :: body tl (xs ++ ys)) by (rewrite in_body; naive_solver).
  destruct Hl as [Hc [Hh1 Hh2] [Ht1 Ht2] Hse Hco Hnd'].
  split; cbn [incr_count set_count nodes tl_count]; rewrite ?Hself; try done.
  - destruct (body_after tl xs ys) as (l2 & Hb & Hb'). rewrite Hb'. rewrite Hb in *.
    by apply (chain_nodes s'), (chain_insert s s').
  - split; [|done]. destruct Hsp as [Et Ep En Eo _].
    destruct (decide (NHead tl = before tl xs)) as [E|]; [by rewrite E, Ep, <- E|].
    rewrite Eo; [done|done|done|by destruct ys].
  - split; [|done]. destruct Hsp as [Et Ep En Eo _].
    destruct (decide (NTail tl = after ys tl)) as [E|]; [by rewrite E, En, <- E|].
    rewrite Eo; [done| |done|done]. intros E. unfold before in E.
    assert (Hin := lastp_in (NHead tl) (map NThread xs)). rewrite <- E in Hin. set_solver.
  - intros x Hx. rewrite Hself. rewrite elem_of_app, elem_of_cons in Hx.
    destruct Hx as [Hx|[->|Hx]]; [apply Hse; set_solver|done|apply Hse; set_solver].
  - rewrite decide_True by done. destruct Hsp as [_ _ _ _ ->]. rewrite Hco, !length_app. cbn [length].
    unfold wrap. rewrite Zplus_mod_idemp_l. f_equal. lia.
  - rewrite <- Permutation_middle. by apply NoDup_cons.
Qed.

(** Removing [t] from the middle of the list [tl]. *)
Lemma list_at_remove s s' tl xs ys t :
  list_at s tl (xs ++ t :: ys) → unspliced (before tl xs) (NThread t) (after ys tl) s s' →
  list_at (decr_count tl s') tl (xs ++ ys).
Proof.
  intros Hl Hsp. pose proof (body_nodup tl _ (la_nodup _ _ _ Hl)) as Hnd.
  assert (Hself : ∀ q, tln_self (nodes s' q) = tln_self (nodes s q)).
  { intros q. destruct Hsp as [Et Ep En Eo _].
    destruct (decide (q = before tl xs)) as [->|]; [by rewrite Ep|].
    destruct (decide (q = NThread t)) as [->|]; [by rewrite Et|].
    destruct (decide (q = after ys tl)) as [->|]; [by rewrite En|by rewrite Eo]. }
  destruct Hl as [Hc [Hh1 Hh2] [Ht1 Ht2] Hse Hco Hnd'].
  split; cbn [decr_count set_count nodes tl_count]; rewrite ?Hself; try done.
  - destruct (body_after tl xs ys) as (l2 & Hb & Hb'). rewrite Hb. rewrite Hb' in *.
    by apply (chain_nodes s'), (chain_remove s s' _ _ (NThread t)).
  - split; [|done]. destruct Hsp as [Et Ep En Eo _].
    destruct (decide (NHead tl = before tl xs)) as [E|]; [by rewrite E, Ep, <- E|].
    rewrite Eo; [done|done|done|by destruct ys].
  - split; [|done]. destruct Hsp as [Et Ep En Eo _].
    destruct (decide (NTail tl = after ys tl)) as [E|]; [by rewrite E, En, <- E|].
    rewrite Eo; [done| |done|done]. intros E. unfold before in E.
    assert (Hin := lastp_in (NHead tl) (map NThread xs)). rewrite <- E in Hin. set_solver.
  - intros x Hx. rewrite Hself. apply Hse. set_solver.
  - rewrite decide_True by done. destruct Hsp as [_ _ _ _ ->]. rewrite Hco, !length_app. cbn [length].
    unfold wrap. rewrite Zminus_mod_idemp_l. f_equal. lia.
  - rewrite <- Permutation_middle in Hnd'. by apply NoDup_cons in Hnd' as [_ ?].
Qed.

(** ** All the lists of the system *)

(** [A] gives the lists that exist, [T] the threads that exist. *)
Record heap_wf (s : tlheap) (A : Z → option (list Z)) (T : Z → Prop) : Prop := {
  hw_list : ∀ tl xs, A tl = Some xs → list_at s tl xs;
  hw_disj : ∀ tl1 tl2 xs1 xs2 t, A tl1 = Some xs1 → A tl2 = Some xs2 → t ∈ xs1 → t ∈ xs2 → tl1 = tl2;
  hw_member : ∀ tl xs t, A tl = Some xs → t ∈ xs → T t;
  hw_detached : ∀ t, T t → (∀ tl xs, A tl = Some xs → t ∉ xs) → nodes s (NThread t) = Node None None (Some t);
}.

Definition upd_lists (A : Z → option (list Z)) (tl : Z) (xs : list Z) : Z → option (list Z) :=
  λ k, if decide (k = tl) then Some xs else A k.

(** The nodes of two lists are different. *)
Lemma lists_apart s A T tl1 tl2 xs1 xs2 q :
  heap_wf s A T → A tl1 = Some xs1 → A tl2 = Some xs2 → tl1 ≠ tl2 →
  q ∈ NHead tl1 :: body tl1 xs1 → q ∉ NHead tl2 :: body tl2 xs2.
Proof.
  intros Hw H1 H2 Hne Hq1 Hq2. rewrite in_body in Hq1, Hq2.
  destruct Hq1 as [->|[->|(x & -> & Hx)]], Hq2 as [?|[?|(y & ? & Hy)]]; simplify_eq.
  by apply Hne, (hw_disj _ _ _ Hw tl1 tl2 xs1 xs2 y).
Qed.

Lemma heap_insert s s' A T tl xs ys t :
  heap_wf s A T → A tl = Some (xs ++ ys) → T t → (∀ k zs, A k = Some zs → t ∉ zs) →
  spliced (before tl xs) (NThread t) (after ys tl) s s' →
  heap_wf (incr_count tl s') (upd_lists A tl (xs ++ t :: ys)) T.
Proof.
  intros Hw HA HT Hfree Hsp. pose proof (hw_list _ _ _ Hw _ _ HA) as Hl.
  pose proof (hw_detached _ _ _ Hw t HT Hfree) as Hdt.
  destruct (list_at_nodes _ _ _ _ Hl) as (Hin1 & Hin2 & _). unfold upd_lists. split.
  - intros k zs. destruct (decide (k = tl)) as [->|Hk].
    + intros [= <-]. eapply list_at_insert; try done; [by eapply Hfree|by rewrite Hdt].
    + intros Hz. pose proof (hw_list _ _ _ Hw _ _ Hz) as Hlz.
      eapply list_at_frame; [| |exact Hlz]; cbn [incr_count set_count nodes tl_count].
      * intros q Hq. destruct Hsp as [_ _ _ Eo _]. apply Eo.
        -- intros ->. by eapply (lists_apart _ _ _ k tl) in Hq.
        -- intros ->. apply in_body in Hq as [?|[?|(x & [= <-] & Hx)]]; try done. by eapply Hfree.
        -- intros ->. by eapply (lists_apart _ _ _ k tl) in Hq.
      * rewrite decide_False by done. by destruct Hsp as [_ _ _ _ ->].
  - assert (Hz : ∀ k zs u, (if decide (k = tl) then Some (xs ++ t :: ys) else A k) = Some zs → u ∈ zs →
      u = t ∧ k = tl ∨ u ≠ t ∧ ∃ zs', A k = Some zs' ∧ u ∈ zs').
    { intros k zs u. destruct (decide (k = tl)) as [->|Hk].
      - intros [= <-] Hu. destruct (decide (u = t)) as [->|]; [by left|right]. split; [done|].
        exists (xs ++ ys). split; [done|]. set_solver.
      - intros Hz Hu. right. split; [intros ->; by eapply Hfree|eauto]. }
    intros k1 k2 z1 z2 u H1 H2 Hu1 Hu2.
    destruct (Hz _ _ _ H1 Hu1) as [[-> ->]|(Hut & w1 & Hw1 & Hu1')], (Hz _ _ _ H2 Hu2) as [[Hx ->]|(Hut2 & w2 & Hw2 & Hu2')];
      try congruence.
    by apply (hw_disj _ _ _ Hw k1 k2 w1 w2 u).
  - intros k zs u. destruct (decide (k = tl)) as [->|Hk]; [|apply (hw_member _ _ _ Hw)].
    intros [= <-]. rewrite elem_of_app, elem_of_cons. intros [Hu|[->|Hu]]; [|done|];
      apply (hw_member _ _ _ Hw tl _ u HA); set_solver.
  - intros u Hu Hno. assert (Hne : u ≠ t).
    { intros ->. apply (Hno tl (xs ++ t :: ys)); [by rewrite decide_True|set_solver]. }
    assert (Hno' : ∀ k zs, A k = Some zs → u ∉ zs).
    { intros k zs Hz. destruct (decide (k = tl)) as [->|Hk].
      - assert (zs = xs ++ ys) as -> by congruence. specialize (Hno tl _ ltac:(by rewrite decide_True)). set_solver.
      - apply (Hno k). by rewrite decide_False. }
    cbn [incr_count set_count nodes]. rewrite <- (hw_detached _ _ _ Hw u Hu Hno').
    destruct Hsp as [_ _ _ Eo _]. specialize (Hno' tl _ HA).
    apply Eo; [|by intros [= ->]|]; intros E; rewrite <- E in *; rewrite in_body in *; naive_solver.
Qed.

Lemma heap_remove s s' A T tl xs ys t :
  heap_wf s A T → A tl = Some (xs ++ t :: ys) →
  unspliced (before tl xs) (NThread t) (after ys tl) s s' →
  heap_wf (decr_count tl s') (upd_lists A tl (xs ++ ys)) T.
Proof.
  intros Hw HA Hsp. pose proof (hw_list _ _ _ Hw _ _ HA) as Hl.
  pose proof (la_nodup _ _ _ Hl) as Hnd. rewrite <- Permutation_middle in Hnd. apply NoDup_cons in Hnd as [Hto _].
  assert (Hin1 : before tl xs ∈ NHead tl :: body tl (xs ++ t :: ys)) by (by apply list_at_nodes with s).
  assert (Hin2 : after ys tl ∈ NHead tl :: body tl (xs ++ t :: ys)).
  { rewrite in_body. destruct ys as [|y ys]; cbn; [by auto|]. right. right. exists y. set_solver. }
  assert (Hz : ∀ k zs u, upd_lists A tl (xs ++ ys) k = Some zs → u ∈ zs → ∃ zs', A k = Some zs' ∧ u ∈ zs').
  { unfold upd_lists. intros k zs u. destruct (decide (k = tl)) as [->|Hk]; [|by eauto].
    intros [= <-] Hu. exists (xs ++ t :: ys). split; [done|]. set_solver. }
  split.
  - unfold upd_lists. intros k zs. destruct (decide (k = tl)) as [->|Hk].
    + intros [= <-]. by eapply list_at_remove.
    + intros Hzs. pose proof (hw_list _ _ _ Hw _ _ Hzs) as Hlz.
      eapply list_at_frame; [| |exact Hlz]; cbn [decr_count set_count nodes tl_count].
      * intros q Hq. destruct Hsp as [_ _ _ Eo _].
        apply Eo; intros ->; (eapply (lists_apart _ _ _ k tl) in Hq; [|done..]); [done| |done].
        apply Hq, in_body. right. right. exists t. set_solver.
      * rewrite decide_False by done. by destruct Hsp as [_ _ _ _ ->].
  - intros k1 k2 z1 z2 u H1 H2 Hu1 Hu2.
    destruct (Hz _ _ _ H1 Hu1) as (w1 & Hw1 & Hu1'), (Hz _ _ _ H2 Hu2) as (w2 & Hw2 & Hu2').
    by apply (hw_disj _ _ _ Hw k1 k2 w1 w2 u).
  - intros k zs u H1 Hu. destruct (Hz _ _ _ H1 Hu) as (w & Hw1 & Hu'). by apply (hw_member _ _ _ Hw k w).
  - intros u Hu Hno. cbn [decr_count set_count nodes]. destruct (decide (u = t)) as [->|Hne].
    { destruct Hsp as [-> _ _ _ _]. f_equal. apply (la_self _ _ _ Hl). set_solver. }
    assert (Hno' : ∀ k zs, A k = Some zs → u ∉ zs).
    { intros k zs Hzs. destruct (decide (k = tl)) as [->|Hk].
      - assert (zs = xs ++ t :: ys) as -> by congruence.
        specialize (Hno tl (xs ++ ys)). unfold upd_lists in Hno. rewrite decide_True in Hno by done. set_solver.
      - apply (Hno k). unfold upd_lists. by rewrite decide_False. }
    rewrite <- (hw_detached _ _ _ Hw u Hu Hno'). destruct Hsp as [_ _ _ Eo _]. specialize (Hno' tl _ HA).
    apply Eo; [|by intros [= ->]|]; intros E; rewrite <- E in *; rewrite in_body in *; naive_solver.
Qed.

(** ** Operations on all the lists *)

Section operations.
Context (s : tlheap) (A : Z → option (list Z)) (T : Z → Prop) (Hw : heap_wf s A T).

Lemma apart_free tl xs t : A tl = Some xs → t ∉ xs → NThread t ∉ NHead tl :: body tl xs.
Proof. intros HA Ht. rewrite in_body. naive_solver. Qed.

Lemma insert_run tl xs ys t :
  A tl = Some (xs ++ ys) → T t → (∀ k zs, A k = Some zs → t ∉ zs) →
  ∃ s1, threadlist_insertafternode (before tl xs) t s = Some s1 ∧
    heap_wf (incr_count tl s1) (upd_lists A tl (xs ++ t :: ys)) T ∧
  ∃ s2, threadlist_insertbeforenode t (after ys tl) s = Some s2 ∧
    heap_wf (incr_count tl s2) (upd_lists A tl (xs ++ t :: ys)) T.
Proof.
  intros HA HT Hfree. pose proof (hw_list _ _ _ Hw _ _ HA) as Hl.
  destruct (list_at_nodes _ _ _ _ Hl) as (H1 & H2 & Hne). destruct (list_at_links _ _ _ _ Hl) as [Hn Hp].
  pose proof (apart_free _ _ _ HA (Hfree _ _ HA)) as Ht.
  assert (before tl xs ≠ NThread t) by (intros E; by rewrite E in H1).
  assert (after ys tl ≠ NThread t) by (intros E; by rewrite E in H2).
  destruct (insertafternode_run (before tl xs) t (after ys tl) s) as (s1 & Hr1 & Hs1); try done.
  destruct (insertbeforenode_run (before tl xs) t (after ys tl) s) as (s2 & Hr2 & Hs2); try done.
  exists s1. split; [done|]. split; [by eapply heap_insert|]. exists s2. split; [done|]. by eapply heap_insert.
Qed.

Lemma remove_run tl xs ys t :
  A tl = Some (xs ++ t :: ys) →
  ∃ s', threadlist_removenode (NThread t) s = Some s' ∧ tln_self (nodes s' (NThread t)) = Some t ∧
    heap_wf (decr_count tl s') (upd_lists A tl (xs ++ ys)) T.
Proof.
  intros HA. pose proof (hw_list _ _ _ Hw _ _ HA) as Hl.
  destruct (list_at_links _ _ _ _ Hl) as [_ Hp]. cbn [after] in Hp.
  assert (Hl2 := Hl). rewrite cons_middle, app_assoc in Hl2. destruct (list_at_links _ _ _ _ Hl2) as [Hn _].
  assert (Hb : before tl (xs ++ [t]) = NThread t) by (unfold before; rewrite map_app; apply lastp_snoc).
  rewrite Hb in Hn. destruct (list_at_nodes _ _ _ _ Hl) as (H1 & _ & Hne1).
  destruct (list_at_nodes _ _ _ _ Hl2) as (_ & _ & Hne2). rewrite Hb in Hne2.
  assert (Hne3 : before tl xs ≠ after ys tl).
  { pose proof (body_nodup tl _ (la_nodup _ _ _ Hl)) as Hnd.
    destruct (body_after tl xs ys) as (l2 & _ & Hb'). rewrite Hb', app_comm_cons in Hnd.
    apply NoDup_app in Hnd as (_ & Hd & _).
    specialize (Hd _ (lastp_in (NHead tl) (map NThread xs))). fold (before tl xs) in Hd. set_solver. }
  destruct (removenode_run (before tl xs) (NThread t) (after ys tl) s) as (s' & Hr & Hs); try done.
  exists s'. split; [done|]. split; [|by eapply heap_remove].
  destruct Hs as [-> _ _ _ _]. apply (la_self _ _ _ Hl). set_solver.
Qed.

End operations.

(** The uses of the lists that the kernel makes. *)
Inductive tl_op :=
  | AddHead (tl t : Z) | AddTail (tl t : Z) | RemHead (tl : Z) | RemTail (tl : Z)
  | InsertAfter (tl onlist addee : Z) | InsertBefore (tl addee onlist : Z) | Remove (tl t : Z).

Definition tl_run (op : tl_op) (s : tlheap) : option (tlheap * option Z) :=
  match op with
  | AddHead tl t => (λ s, (s, None)) <$> threadlist_addhead tl t s
  | AddTail tl t => (λ s, (s, None)) <$> threadlist_addtail tl t s
  | RemHead tl => threadlist_remhead tl s
  | RemTail tl => threadlist_remtail tl s
  | InsertAfter tl onlist addee => (λ s, (s, None)) <$> threadlist_insertafter tl onlist addee s
  | InsertBefore tl addee onlist => (λ s, (s, None)) <$> threadlist_insertbefore tl addee onlist s
  | Remove tl t => (λ s, (s, None)) <$> threadlist_remove tl t s
  end.

(** A thread that may be added: it exists and is on no list. *)
Definition addable (A : Z → option (list Z)) (T : Z → Prop) (t : Z) : Prop :=
  T t ∧ ∀ k zs, A k = Some zs → t ∉ zs.

(** The same operations on lists, where they are allowed. *)
Inductive tl_step (A : Z → option (list Z)) (T : Z → Prop) :
  tl_op → (Z → option (list Z)) → option Z → Prop :=
  | st_addhead tl t xs : A tl = Some xs → addable A T t →
      tl_step A T (AddHead tl t) (upd_lists A tl (t :: xs)) None
  | st_addtail tl t xs : A tl = Some xs → addable A T t →
      tl_step A T (AddTail tl t) (upd_lists A tl (xs ++ [t])) None
  | st_remhead tl x xs : A tl = Some (x :: xs) →
      tl_step A T (RemHead tl) (upd_lists A tl xs) (Some x)
  | st_remhead_empty tl : A tl = Some [] → tl_step A T (RemHead tl) A None
  | st_remtail tl xs x : A tl = Some (xs ++ [x]) →
      tl_step A T (RemTail tl) (upd_lists A tl xs) (Some x)
  | st_remtail_empty tl : A tl = Some [] → tl_step A T (RemTail tl) A None
  | st_insertafter tl xs x ys t : A tl = Some (xs ++ x :: ys) → addable A T t →
      tl_step A T (InsertAfter tl x t) (upd_lists A tl (xs ++ x :: t :: ys)) None
  | st_insertbefore tl xs x ys t : A tl = Some (xs ++ x :: ys) → addable A T t →
      tl_step A T (InsertBefore tl t x) (upd_lists A tl (xs ++ t :: x :: ys)) None
  | st_remove tl xs t ys : A tl = Some (xs ++ t :: ys) →
      tl_step A T (Remove tl t) (upd_lists A tl (xs ++ ys)) None.

Lemma before_snoc tl xs t : before tl (xs ++ [t]) = NThread t.
Proof. unfold before. rewrite map_app. apply lastp_snoc. Qed.

Lemma tl_run_spec s A T op A' r :
  heap_wf s A T → tl_step A T op A' r → ∃ s', tl_run op s = Some (s', r) ∧ heap_wf s' A' T.
Proof.
  intros Hw Hst. destruct Hst as [tl t xs HA [HT Hf]|tl t xs HA [HT Hf]|tl x xs HA|tl HA|tl xs x HA|tl HA
    |tl xs x ys t HA [HT Hf]|tl xs x ys t HA [HT Hf]|tl xs t ys HA]; cbn [tl_run].
  - destruct (insert_run s A T Hw tl [] xs t HA HT Hf) as (s1 & Hr & Hwf & _).
    unfold threadlist_addhead. change (before tl []) with (NHead tl) in Hr. rewrite Hr. by eexists.
  - rewrite <- (app_nil_r xs) in HA.
    destruct (insert_run s A T Hw tl xs [] t HA HT Hf) as (_ & _ & _ & s2 & Hr & Hwf).
    unfold threadlist_addtail. change (after [] tl) with (NTail tl) in Hr. rewrite Hr. by eexists.
  - pose proof (hw_list _ _ _ Hw _ _ HA) as Hl. destruct (list_at_links _ _ [] _ Hl) as [Hn _].
    change (before tl []) with (NHead tl) in Hn. unfold threadlist_remhead. rewrite Hn. cbn [mbind option_bind after].
    destruct (list_at_links _ _ [x] xs Hl) as [Hn2 _]. change (before tl [x]) with (NThread x) in Hn2. rewrite Hn2.
    destruct (remove_run s A T Hw tl [] xs x HA) as (s' & -> & Hself & Hwf). cbn [mbind option_bind].
    change (nodes (decr_count tl s')) with (nodes s'). rewrite Hself. by eexists.
  - pose proof (hw_list _ _ _ Hw _ _ HA) as Hl. destruct (list_at_links _ _ [] [] Hl) as [Hn _].
    change (before tl []) with (NHead tl) in Hn. unfold threadlist_remhead. rewrite Hn. cbn [mbind option_bind after].
    destruct (la_tail _ _ _ Hl) as [-> _]. by eexists.
  - pose proof (hw_list _ _ _ Hw _ _ HA) as Hl. assert (Hl2 := Hl). rewrite <- (app_nil_r (xs ++ [x])) in Hl2.
    destruct (list_at_links _ _ _ _ Hl2) as [_ Hp]. cbn [after] in Hp. rewrite before_snoc in Hp.
    unfold threadlist_remtail. rewrite Hp. cbn [mbind option_bind].
    destruct (list_at_links _ _ _ _ Hl) as [_ Hp2]. cbn [after] in Hp2. rewrite Hp2.
    destruct (remove_run s A T Hw tl xs [] x HA) as (s' & -> & Hself & Hwf). cbn [mbind option_bind].
    change (nodes (decr_count tl s')) with (nodes s'). rewrite Hself. rewrite app_nil_r in Hwf. by eexists.
  - pose proof (hw_list _ _ _ Hw _ _ HA) as Hl. destruct (list_at_links _ _ [] [] Hl) as [_ Hp].
    cbn [after] in Hp. unfold threadlist_remtail. rewrite Hp. cbn [mbind option_bind].
    change (before tl []) with (NHead tl). destruct (la_head _ _ _ Hl) as [-> _]. by eexists.
  - rewrite cons_middle, app_assoc in HA.
    destruct (insert_run s A T Hw tl (xs ++ [x]) ys t HA HT Hf) as (s1 & Hr & Hwf & _).
    rewrite before_snoc in Hr. unfold threadlist_insertafter. rewrite Hr. rewrite <- app_assoc in Hwf. by eexists.
  - destruct (insert_run s A T Hw tl xs (x :: ys) t HA HT Hf) as (_ & _ & _ & s2 & Hr & Hwf).
    unfold threadlist_insertbefore. cbn [after] in Hr. rewrite Hr. by eexists.
  - destruct (remove_run s A T Hw tl xs ys t HA) as (s' & Hr & _ & Hwf).
    unfold threadlist_remove. rewrite Hr. by eexists.
Qed.

(** Traversal. *)
Lemma forall_from_spec s tl fuel p xs :
  chain s p (body tl xs) → tln_self (nodes s (NTail tl)) = None →
  (∀ x, x ∈ xs → tln_self (nodes s (NThread x)) = Some x) → (length xs < fuel)%nat →
  forall_from fuel s p = Some xs.
Proof.
  revert fuel p. induction xs as [|x xs IH]; intros fuel p Hc Ht Hs Hf;
    (destruct fuel as [|fuel]; [cbn in Hf; lia|]); cbn [forall_from body map app chain] in *;
    destruct Hc as (Hn & _ & Hc); rewrite Hn; cbn [mbind option_bind].
  - by rewrite Ht.
  - rewrite Hs by left. rewrite IH; [done|done|done| |cbn in Hf; lia]. intros y Hy. apply Hs. by right.
Qed.

(** Sequences of operations, with the results they give. *)
Fixpoint tl_runs (ops : list tl_op) (s : tlheap) : option (tlheap * list (option Z)) :=
  match ops with
  | [] => Some (s, [])
  | op :: ops' => '(s, r) ← tl_run op s; '(s, rs) ← tl_runs ops' s; Some (s, r :: rs)
  end.

Inductive tl_steps (T : Z → Prop) : (Z → option (list Z)) → list tl_op →
  (Z → option (list Z)) → list (option Z) → Prop :=
  | sts_nil A : tl_steps T A [] A []
  | sts_cons A op A' r ops A'' rs :
      tl_step A T op A' r → tl_steps T A' ops A'' rs → tl_steps T A (op :: ops) A'' (r :: rs).

(** C10: the linked lists of threads implement lists.  Starting from well-formed
    lists, any sequence of insertions at both ends and next to a member, and
    of removals, runs without following a null pointer, gives the results the
    same operations give on plain lists, and leaves the lists well formed;
    each list can then be traversed, and its emptiness test is right. *)
Theorem threadlists_refine_lists T s A ops A' rs :
  heap_wf s A T → tl_steps T A ops A' rs →
  ∃ s', tl_runs ops s = Some (s', rs) ∧ heap_wf s' A' T ∧
    ∀ tl xs, A' tl = Some xs →
      THREADLIST_FORALL (S (length xs)) tl s' = Some xs ∧
      (zlen xs < 2 ^ 32 → threadlist_isempty tl s' = bool_decide (xs = []) ∧
         (xs = [] → threadlist_cleanup tl s' = true)).
Proof.
  intros Hw Hst. revert s Hw. induction Hst as [A|A op A1 r ops A2 rs Hop Hst IH]; intros s Hw.
  - exists s. split; [done|]. split; [done|]. intros tl xs HA.
    destruct (hw_list _ _ _ Hw _ _ HA) as [Hc _ [_ Ht] Hs Hco _]. split.
    + eapply forall_from_spec; try done. lia.
    + intros Hlt. unfold threadlist_cleanup, threadlist_isempty. rewrite Hco, wrap_small by lia.
      destruct xs as [|x xs]; [done|]. split; [|done]. rewrite bool_decide_eq_false_2 by done. apply Z.eqb_neq. cbn. lia.
  - destruct (tl_run_spec _ _ _ _ _ _ Hw Hop) as (s1 & Hr1 & Hw1).
    destruct (IH s1 Hw1) as (s2 & Hr2 & Hw2 & Hall). exists s2. split; [|by split].
    cbn [tl_runs]. rewrite Hr1. cbn [mbind option_bind]. by rewrite Hr2.
Qed.

(** One empty list and two threads. *)
Definition demo_heap : tlheap :=
  threadlistnode_init (NThread 2) 2 (threadlistnode_init (NThread 1) 1
    (threadlist_init 7 (TlHeap (λ _, Node None None None) (λ _, 0)))).
Definition demo_lists : Z → option (list Z) := upd_lists (λ _, None) 7 [].

Lemma demo_heap_wf : heap_wf demo_heap demo_lists (λ t, t = 1 ∨ t = 2).
Proof.
  unfold demo_lists, upd_lists. split.
  - intros tl xs. destruct (decide (tl = 7)) as [->|]; [|done]. intros [= <-].
    split; try done; [set_solver|constructor].
  - intros tl1 tl2 xs1 xs2 t. repeat case_decide; intros; simplify_eq; set_solver.
  - intros tl xs t. case_decide; intros; simplify_eq. set_solver.
  - by intros t [->| ->].
Qed.

Lemma threadlists_refine_lists_witness :
  ∃ s', tl_runs [AddTail 7 1; AddHead 7 2; RemTail 7] demo_heap = Some (s', [None; None; Some 1]) ∧
    THREADLIST_FORALL 2 7 s' = Some [2].
Proof.
  assert (Hst : tl_steps (λ t, t = 1 ∨ t = 2) demo_lists [AddTail 7 1; AddHead 7 2; RemTail 7]
    (upd_lists (upd_lists (upd_lists demo_lists 7 ([] ++ [1])) 7 [2; 1]) 7 [2]) [None; None; Some 1]).
  { eapply sts_cons.
    { apply (st_addtail _ _ 7 1 []); [reflexivity|]. split; [by left|].
      intros k zs. unfold demo_lists, upd_lists. case_decide; intros; simplify_eq; set_solver. }
    eapply sts_cons.
    { apply (st_addhead _ _ 7 2 [1]); [reflexivity|]. split; [by right|].
      intros k zs. unfold demo_lists, upd_lists. case_decide; intros; simplify_eq; set_solver. }
    eapply sts_cons; [|constructor]. apply (st_remtail _ _ 7 [2] 1). reflexivity. }
  destruct (threadlists_refine_lists _ demo_heap demo_lists _ _ _ demo_heap_wf Hst) as (s' & Hr & _ & Hall).
  exists s'. split; [exact Hr|]. exact (proj1 (Hall 7 [2] eq_refl)).
Defined.
