(* ===== verification/Thread.v ===== *)
(** * Thread: the scheduler (kern/thread/thread.c)

    Several processors, each with a running thread, a run queue and a list of
    zombies, and the wait channels.  The queues are lists of threads, which
    Threadlist.v shows the linked lists to implement.  The code of a critical
    section (the run queue lock of a processor, the spinlock of a wait channel,
    or interrupts off for what only one processor touches) is one step; the
    steps of different processors interleave freely.

    [thread_switch] is two steps: the first puts the current thread away and
    leaves the processor idle, the second, [thread_pick], takes the next thread
    from the run queue and runs the end of [thread_switch] in its context.  In
    between, the processor may wait in [cpu_idle] and take interrupts while it
    still uses the stack of the thread it put away.

    [thread_consider_migration] is split in the same way: the threads it is
    moving are on the local list [victims] of the processor in between.  An
    assertion that fails, or a null pointer followed, gives [None].  The assertions about the context of the caller (in
    [wchan_sleep], [wchan_wakeone], [wchan_wakeall] and [thread_make_runnable]: not in an interrupt handler, the lock of the channel or of the
    run queue is held, and no other spinlock) are not modelled: locks are what makes a step a step here, and Spinlock.v is about them. *)

From Stdlib Require Import ZArith Lia.
From stdpp Require Import base gmap list list_numbers sets.
From S2P Require Import Prelude Types.
Set Default Goal Selector "!".
Open Scope Z_scope.

(** kern/include/thread.h *)
Inductive threadstate := S_RUN | S_READY | S_SLEEP | S_ZOMBIE.

#[global] Instance threadstate_eq_dec : EqDecision threadstate.
Proof. solve_decision. Defined.

Record thread := Thread {
  t_state : threadstate;
  t_cpu : nat;
  t_proc : option Z;
}.

(** kern/include/cpu.h; [victims] is the local variable of
    [thread_consider_migration]. *)
Record cpu := Cpu {
  c_curthread : Z;
  c_isidle : bool;
  c_runqueue : list Z;
  c_zombies : list Z;
  c_ipi_pending : Z;
  victims : list Z;
}.

Record tsys := TSys {
  cpus : list cpu;
  threads : gmap Z thread;
  wchans : gmap Z (list Z);
}.

Definition IPI_UNIDLE : Z := 2.

(** ** Updates *)

Definition set_tstate (st : threadstate) (th : thread) : thread := Thread st (t_cpu th) (t_proc th).
Definition set_tcpu (c : nat) (th : thread) : thread := Thread (t_state th) c (t_proc th).
Definition set_tproc (p : option Z) (th : thread) : thread := Thread (t_state th) (t_cpu th) p.

Definition set_cur (t : Z) (cp : cpu) : cpu :=
  Cpu t (c_isidle cp) (c_runqueue cp) (c_zombies cp) (c_ipi_pending cp) (victims cp).
Definition set_idle (b : bool) (cp : cpu) : cpu :=
  Cpu (c_curthread cp) b (c_runqueue cp) (c_zombies cp) (c_ipi_pending cp) (victims cp).
Definition set_runqueue (q : list Z) (cp : cpu) : cpu :=
  Cpu (c_curthread cp) (c_isidle cp) q (c_zombies cp) (c_ipi_pending cp) (victims cp).
Definition set_zombies (q : list Z) (cp : cpu) : cpu :=
  Cpu (c_curthread cp) (c_isidle cp) (c_runqueue cp) q (c_ipi_pending cp) (victims cp).
Definition set_ipi (b : Z) (cp : cpu) : cpu :=
  Cpu (c_curthread cp) (c_isidle cp) (c_runqueue cp) (c_zombies cp) b (victims cp).
Definition set_victims (q : list Z) (cp : cpu) : cpu :=
  Cpu (c_curthread cp) (c_isidle cp) (c_runqueue cp) (c_zombies cp) (c_ipi_pending cp) q.

Definition upd_thread (t : Z) (f : thread → thread) (s : tsys) : tsys :=
  TSys (cpus s) (alter f t (threads s)) (wchans s).
Definition upd_cpu (c : nat) (f : cpu → cpu) (s : tsys) : tsys :=
  TSys (alter f c (cpus s)) (threads s) (wchans s).
Definition set_wchan (w : Z) (l : list Z) (s : tsys) : tsys :=
  TSys (cpus s) (threads s) (<[w := l]> (wchans s)).

(** ** Operations, on the processor [c] *)

Definition ipi_send (target : nat) (code : Z) (s : tsys) : option tsys :=
  if (0 <=? code) && (code <? 32) then
    Some (upd_cpu target (λ cp, set_ipi (Z.lor (c_ipi_pending cp) (u32 (Z.shiftl 1 code))) cp) s)
  else None.

Definition thread_make_runnable (c : nat) (target : Z) (s : tsys) : option tsys :=
  th ← threads s !! target;
  let s := upd_thread target (set_tstate S_READY) s in
  cp ← cpus s !! t_cpu th;
  let s := upd_cpu (t_cpu th) (set_runqueue (c_runqueue cp ++ [target])) s in
  if c_isidle cp && negb (bool_decide (t_cpu th = c)) then ipi_send (t_cpu th) IPI_UNIDLE s
  else Some s.

(** The first half of [thread_switch]. *)
Definition thread_switch (c : nat) (newstate : threadstate) (wc : Z) (s : tsys) : option tsys :=
  cp ← cpus s !! c;
  let cur := c_curthread cp in
  if c_isidle cp then Some s
  else if bool_decide (newstate = S_READY ∧ c_runqueue cp = []) then Some s
  else
    s ← match newstate with
        | S_RUN => None
        | S_READY => thread_make_runnable c cur s
        | S_SLEEP => l ← wchans s !! wc; Some (set_wchan wc (l ++ [cur]) s)
        | S_ZOMBIE => Some (upd_cpu c (set_zombies (c_zombies cp ++ [cur])) s)
        end;
    Some (upd_cpu c (set_idle true) (upd_thread cur (set_tstate newstate) s)).

Definition thread_destroy (c : nat) (t : Z) (s : tsys) : option tsys :=
  cp ← cpus s !! c;
  th ← threads s !! t;
  if bool_decide (t = c_curthread cp) || bool_decide (t_state th = S_RUN)
     || negb (bool_decide (t_proc th = None)) then None
  else Some (TSys (cpus s) (delete t (threads s)) (wchans s)).

(** [while ((z = threadlist_remhead(&curcpu->c_zombies)) != NULL)] *)
Fixpoint exorcise_loop (c : nat) (zs : list Z) (s : tsys) : option tsys :=
  match zs with
  | [] => Some s
  | z :: zs' =>
      cp ← cpus s !! c;
      let s := upd_cpu c (set_zombies zs') s in
      th ← threads s !! z;
      if bool_decide (z = c_curthread cp) || negb (bool_decide (t_state th = S_ZOMBIE)) then None
      else s ← thread_destroy c z s; exorcise_loop c zs' s
  end.
Definition exorcise (c : nat) (s : tsys) : option tsys :=
  cp ← cpus s !! c; exorcise_loop c (c_zombies cp) s.

(** The second half: one turn of the loop that looks for a thread, and what runs
    in the context of the thread found ([thread_startup] if it is new). *)
Definition thread_pick (c : nat) (s : tsys) : option tsys :=
  cp ← cpus s !! c;
  match c_runqueue cp with
  | [] => Some s
  | next :: rq =>
      let s := upd_cpu c (λ cp, set_cur next (set_idle false (set_runqueue rq cp))) s in
      let s := upd_thread next (set_tstate S_RUN) s in
      exorcise c s
  end.

Definition thread_yield (c : nat) (s : tsys) : option tsys := thread_switch c S_READY 0 s.

(** The process is told by [proc_remthread] before; the loop ends in
    [thread_switch]. *)
Definition thread_exit (c : nat) (s : tsys) : option tsys :=
  cp ← cpus s !! c;
  thread_switch c S_ZOMBIE 0 (upd_thread (c_curthread cp) (set_tproc None) s).

(** [cpu_create] in the state [s] of the processors made so far; [t] is the memory
    of the first thread, [kproc] the kernel's process. *)
Definition cpu_create (t : option Z) (kproc : Z) (s : tsys) : option tsys :=
  t ← t;
  let number := length (cpus s) in
  Some (TSys (cpus s ++ [Cpu t false [] [] 0 []])
          (<[t := Thread S_READY number (Some kproc)]> (threads s)) (wchans s)).

(** [newthread] is the memory [thread_create] and the stack get, if any. *)
Definition thread_fork (c : nat) (newthread : option Z) (proc : option Z) (s : tsys) : option (tsys * Z) :=
  cp ← cpus s !! c;
  cur ← threads s !! c_curthread cp;
  match newthread with
  | None => Some (s, ENOMEM)
  | Some t =>
      let proc := match proc with Some p => Some p | None => t_proc cur end in
      let s := TSys (cpus s) (<[t := Thread S_READY (t_cpu cur) proc]> (threads s)) (wchans s) in
      s ← thread_make_runnable c t s;
      Some (s, 0)
  end.

Definition wchan_sleep (c : nat) (wc : Z) (s : tsys) : option tsys := thread_switch c S_SLEEP wc s.

Definition wchan_wakeone (c : nat) (wc : Z) (s : tsys) : option tsys :=
  l ← wchans s !! wc;
  match l with
  | [] => Some s
  | target :: l' => thread_make_runnable c target (set_wchan wc l' s)
  end.

Fixpoint make_all_runnable (c : nat) (ts : list Z) (s : tsys) : option tsys :=
  match ts with
  | [] => Some s
  | t :: ts' => s ← thread_make_runnable c t s; make_all_runnable c ts' s
  end.

(** The first loop empties the channel in a private list, which the caller still
    protects with the spinlock of the channel. *)
Definition wchan_wakeall (c : nat) (wc : Z) (s : tsys) : option tsys :=
  l ← wchans s !! wc;
  make_all_runnable c l (set_wchan wc [] s).

Definition wchan_isempty (wc : Z) (s : tsys) : option bool :=
  l ← wchans s !! wc; Some (bool_decide (l = [])).

Definition wchan_create (wc : option Z) (s : tsys) : option Z * tsys :=
  match wc with None => (None, s) | Some w => (Some w, set_wchan w [] s) end.

Definition wchan_destroy (wc : Z) (s : tsys) : option tsys :=
  l ← wchans s !! wc;
  if bool_decide (l = []) then Some (TSys (cpus s) (threads s) (delete wc (wchans s))) else None.

(** ** Migration *)

(** [counts] are the lengths of the run queues, as read one after the other. *)
Definition one_share (counts : list Z) : Z :=
  DIVROUNDUP (foldl (λ total n, u32 (total + n)) 0 counts) (zlen counts).

(** The first two loops: [to_send] threads go from the end of the run queue to
    the front of [victims]; [None] if a null thread is added. *)
Fixpoint take_victims (n : nat) (c : nat) (s : tsys) : option tsys :=
  match n with
  | O => Some s
  | S n' =>
      cp ← cpus s !! c;
      match reverse (c_runqueue cp) with
      | [] => None
      | t :: q => take_victims n' c (upd_cpu c (λ cp, set_victims (t :: victims cp) (set_runqueue (reverse q) cp)) s)
      end
  end.

(** The loop [while (c->c_runqueue.tl_count < one_share && to_send > 0)] for the
    processor [d]. *)
Fixpoint push_victims (to_send : nat) (share : Z) (c d : nat) (s : tsys) : option (tsys * nat) :=
  match to_send with
  | O => Some (s, O)
  | S n' =>
      dp ← cpus s !! d;
      if zlen (c_runqueue dp) <? share then
        cp ← cpus s !! c;
        match victims cp with
        | [] => None
        | t :: vs =>
            if bool_decide (t = c_curthread cp) then
              push_victims n' share c d (upd_cpu c (set_victims (vs ++ [t])) s)
            else
              let s := upd_cpu c (set_victims vs) s in
              let s := upd_thread t (set_tcpu d) s in
              let s := upd_cpu d (λ dp, set_runqueue (c_runqueue dp ++ [t]) dp) s in
              s ← (if c_isidle dp then ipi_send d IPI_UNIDLE s else Some s);
              push_victims n' share c d s
        end
      else Some (s, to_send)
  end.

(** [for (i=0; i < numcpus && to_send > 0; i++)], from [i = d]. *)
Fixpoint push_all (k : nat) (to_send : nat) (share : Z) (c d : nat) (s : tsys) : option tsys :=
  match k with
  | O => Some s
  | S k' =>
      if bool_decide (to_send = O) then Some s
      else if bool_decide (d = c) then push_all k' to_send share c (S d) s
      else '(s, n) ← push_victims to_send share c d s; push_all k' n share c (S d) s
  end.

(** The last loop: the leftovers go back to the end of the own run queue. *)
Fixpoint return_loop (c : nat) (vs : list Z) (s : tsys) : tsys :=
  match vs with
  | [] => s
  | t :: vs' =>
      return_loop c vs' (upd_cpu c (λ cp, set_victims vs' (set_runqueue (c_runqueue cp ++ [t]) cp)) s)
  end.
Definition return_victims (c : nat) (s : tsys) : option tsys :=
  cp ← cpus s !! c; Some (return_loop c (victims cp) s).

Definition thread_consider_migration (c : nat) (counts : list Z) (s : tsys) : option tsys :=
  my_count ← counts !! c;
  let share := one_share counts in
  if my_count <? share then Some s
  else
    let to_send := Z.to_nat (my_count - share) in
    s ← take_victims to_send c s;
    s ← push_all (length (cpus s)) to_send share c O s;
    return_victims c s.

(** ** Places *)

(** Where a thread can be. *)
Inductive place := PRun (c : nat) | PReady (c : nat) | PVictim (c : nat) | PZombie (c : nat) | PWait (w : Z).

#[global] Instance place_eq_dec : EqDecision place.
Proof. solve_decision. Defined.

Definition content (s : tsys) (p : place) : list Z :=
  match p with
  | PRun c => match cpus s !! c with Some cp => if c_isidle cp then [] else [c_curthread cp] | None => [] end
  | PReady c => match cpus s !! c with Some cp => c_runqueue cp | None => [] end
  | PVictim c => match cpus s !! c with Some cp => victims cp | None => [] end
  | PZombie c => match cpus s !! c with Some cp => c_zombies cp | None => [] end
  | PWait w => default [] (wchans s !! w)
  end.

(** The state and the processor a thread has there.  The first thread of a
    processor runs as [S_READY], as [thread_create] left it, until it has been
    switched away once. *)
Definition place_ok (p : place) (th : thread) : Prop :=
  match p with
  | PRun c => (t_state th = S_RUN ∨ t_state th = S_READY) ∧ t_cpu th = c
  | PReady c => t_state th = S_READY ∧ t_cpu th = c
  | PVictim c => t_state th = S_READY ∧ t_cpu th = c
  | PZombie c => t_state th = S_ZOMBIE ∧ t_cpu th = c ∧ t_proc th = None
  | PWait w => t_state th = S_SLEEP
  end.

(** Every thread is in exactly one place, once, with the state that belongs there;
    the thread whose stack a processor uses, idle or not, belongs to that
    processor. *)
Record sched_inv (s : tsys) : Prop := {
  si_state : ∀ p t, t ∈ content s p → ∃ th, threads s !! t = Some th ∧ place_ok p th;
  si_nodup : ∀ p, NoDup (content s p);
  si_unique : ∀ p q t, t ∈ content s p → t ∈ content s q → p = q;
  si_placed : ∀ t th, threads s !! t = Some th → ∃ p, t ∈ content s p;
  si_cur : ∀ c cp, cpus s !! c = Some cp → ∃ th, threads s !! c_curthread cp = Some th ∧ t_cpu th = c;
  si_cpu : ∀ t th, threads s !! t = Some th → is_Some (cpus s !! t_cpu th);
}.

(** [t] goes from [p] to [q]. *)
Record moved (t : Z) (p q : place) (s s' : tsys) : Prop := {
  mv_ne : p ≠ q;
  mv_from : content s p ≡ₚ t :: content s' p;
  mv_to : content s' q ≡ₚ t :: content s q;
  mv_other : ∀ r, r ≠ p → r ≠ q → content s' r = content s r;
  mv_threads : ∀ u, u ≠ t → threads s' !! u = threads s !! u;
  mv_thread : ∃ th, threads s' !! t = Some th ∧ place_ok q th ∧ is_Some (cpus s' !! t_cpu th);
  mv_cur : ∀ c cp, cpus s' !! c = Some cp → ∃ th, threads s' !! c_curthread cp = Some th ∧ t_cpu th = c;
  mv_cpus : length (cpus s') = length (cpus s);
}.

Lemma lookup_cpu_len (s s' : tsys) c :
  length (cpus s') = length (cpus s) → is_Some (cpus s !! c) → is_Some (cpus s' !! c).
Proof. rewrite !lookup_lt_is_Some. lia. Qed.

Lemma moved_inv t p q s s' : sched_inv s → moved t p q s s' → sched_inv s'.
Proof.
  intros [Hst Hnd Huq Hpl Hcu Hcp] [Hne Hfrom Hto Hoth Hth (tht & Htt & Hok & Hc) Hcur Hlen].
  assert (Htp : t ∈ content s p) by (rewrite Hfrom; left).
  assert (Hnp : NoDup (t :: content s' p)) by (rewrite <- Hfrom; apply Hnd).
  apply NoDup_cons in Hnp as [Htnp Hnp].
  assert (Hnq : t ∉ content s q) by (intros Hq; by apply Hne, (Huq p q t)).
  (* a thread in its new place *)
  assert (Hin : ∀ r u, u ∈ content s' r → (u = t ∧ r = q) ∨ (u ≠ t ∧ u ∈ content s r)).
  { intros r u Hu. destruct (decide (r = p)) as [->|Hrp].
    - right. split; [by intros ->|]. rewrite Hfrom. by right.
    - destruct (decide (r = q)) as [->|Hrq].
      + rewrite Hto, elem_of_cons in Hu. destruct Hu as [->|Hu]; [by left|right].
        split; [by intros ->|done].
      + right. rewrite Hoth in Hu by done. split; [|done]. intros ->. by apply Hrp, (Huq r p t). }
  split.
  - intros r u Hu. destruct (Hin r u Hu) as [[-> ->]|[Hut Hu']]; [by exists tht|].
    rewrite Hth by done. by apply Hst.
  - intros r. destruct (decide (r = p)) as [->|Hrp]; [done|].
    destruct (decide (r = q)) as [->|Hrq]; [|by rewrite Hoth].
    rewrite Hto. apply NoDup_cons. by split.
  - intros r1 r2 u H1 H2. destruct (Hin _ _ H1) as [[-> ->]|[Hut Hu1]], (Hin _ _ H2) as [[? ->]|[? Hu2]];
      try congruence. by apply (Huq r1 r2 u).
  - intros u th Hu. destruct (decide (u = t)) as [->|Hut].
    { exists q. rewrite Hto. left. }
    rewrite Hth in Hu by done. destruct (Hpl u th Hu) as [r Hr]. exists r.
    destruct (decide (r = p)) as [->|Hrp]; [rewrite Hfrom, elem_of_cons in Hr; by destruct Hr|].
    destruct (decide (r = q)) as [->|Hrq]; [rewrite Hto; by right|by rewrite Hoth].
  - done.
  - intros u th Hu. destruct (decide (u = t)) as [->|Hut].
    { assert (th = tht) as -> by congruence. done. }
    rewrite Hth in Hu by done. eapply lookup_cpu_len; [done|]. by eapply Hcp.
Qed.

(** ** Contents of updated states *)

Definition place_cpu (p : place) : option nat :=
  match p with PRun c | PReady c | PVictim c | PZombie c => Some c | PWait _ => None end.

Definition cpu_content (cp : cpu) (p : place) : list Z :=
  match p with
  | PRun _ => if c_isidle cp then [] else [c_curthread cp]
  | PReady _ => c_runqueue cp
  | PVictim _ => victims cp
  | PZombie _ => c_zombies cp
  | PWait _ => []
  end.

Lemma content_lookup s p c cp : place_cpu p = Some c → cpus s !! c = Some cp → content s p = cpu_content cp p.
Proof. intros Hp Hc. destruct p; cbn in *; simplify_eq; by rewrite Hc. Qed.

Lemma content_cpu_eq c f s cp p :
  cpus s !! c = Some cp → place_cpu p = Some c → content (upd_cpu c f s) p = cpu_content (f cp) p.
Proof.
  intros Hc Hp. apply (content_lookup _ _ c); [done|]. cbn. by rewrite list_lookup_alter_eq, Hc.
Qed.

Lemma content_cpu_ne c f s p : place_cpu p ≠ Some c → content (upd_cpu c f s) p = content s p.
Proof.
  intros Hp. destruct p as [d|d|d|d|w]; cbn in *; try done; by rewrite list_lookup_alter_ne by congruence.
Qed.

Lemma content_wchan w l s p : content (set_wchan w l s) p = if decide (p = PWait w) then l else content s p.
Proof.
  destruct p as [d|d|d|d|w']; cbn; try (by rewrite decide_False).
  destruct (decide (PWait w' = PWait w)) as [[= ->]|Hne]; [by rewrite lookup_insert_eq|].
  rewrite lookup_insert_ne; [done|congruence].
Qed.

Lemma upd_cpu_compose c f g s : upd_cpu c f (upd_cpu c g s) = upd_cpu c (f ∘ g) s.
Proof.
  unfold upd_cpu. cbn. f_equal. apply list_eq. intros i. destruct (decide (c = i)) as [->|].
  - rewrite !list_lookup_alter_eq. by destruct (cpus s !! i).
  - by rewrite !list_lookup_alter_ne.
Qed.

Lemma upd_cpu_ext c f g s cp : cpus s !! c = Some cp → f cp = g cp → upd_cpu c f s = upd_cpu c g s.
Proof.
  intros Hc Hfg. unfold upd_cpu. f_equal. apply list_eq. intros i.
  destruct (decide (i = c)) as [->|]; [|by rewrite !list_lookup_alter_ne].
  rewrite !list_lookup_alter_eq, Hc. cbn. by rewrite Hfg.
Qed.

(** What [thread_make_runnable] does. *)
Lemma make_runnable_run c t s th cp :
  threads s !! t = Some th → cpus s !! t_cpu th = Some cp →
  ∃ b, thread_make_runnable c t s =
    Some (upd_cpu (t_cpu th) (λ cp, set_ipi b (set_runqueue (c_runqueue cp ++ [t]) cp))
           (upd_thread t (set_tstate S_READY) s)).
Proof.
  intros Ht Hc. unfold thread_make_runnable. rewrite Ht. cbn [mbind option_bind].
  change (cpus (upd_thread t (set_tstate S_READY) s)) with (cpus s). rewrite Hc. cbn [mbind option_bind].
  destruct (c_isidle cp && negb (bool_decide (t_cpu th = c))).
  - unfold ipi_send. change ((0 <=? IPI_UNIDLE) && (IPI_UNIDLE <? 32)) with true. cbv iota.
    rewrite upd_cpu_compose. eexists. f_equal. by eapply upd_cpu_ext.
  - exists (c_ipi_pending cp). f_equal. eapply upd_cpu_ext; [done|]. by destruct cp.
Qed.

Lemma cur_kept s s' t th' :
  (∀ c cp, cpus s !! c = Some cp → ∃ th, threads s !! c_curthread cp = Some th ∧ t_cpu th = c) →
  (∀ c cp', cpus s' !! c = Some cp' → ∃ cp, cpus s !! c = Some cp ∧ c_curthread cp' = c_curthread cp) →
  (∀ u, u ≠ t → threads s' !! u = threads s !! u) → threads s' !! t = Some th' →
  (∀ th, threads s !! t = Some th → t_cpu th' = t_cpu th) →
  ∀ c cp, cpus s' !! c = Some cp → ∃ th, threads s' !! c_curthread cp = Some th ∧ t_cpu th = c.
Proof.
  intros Hc Hcp Hth Ht Hsame c cp' Hc'. destruct (Hcp c cp' Hc') as (cp & Hcs & ->).
  destruct (Hc c cp Hcs) as (th & Hcur & Hcpu).
  destruct (decide (c_curthread cp = t)) as [E|E]; [|rewrite Hth by done; eauto].
  rewrite E in *. exists th'. split; [done|]. by rewrite (Hsame th).
Qed.

(** Updates of a processor keep its running thread, up to what [f] does. *)
Lemma upd_cpu_cur c f s d dp' :
  (∀ cp, c_curthread (f cp) = c_curthread cp) → cpus (upd_cpu c f s) !! d = Some dp' →
  ∃ dp, cpus s !! d = Some dp ∧ c_curthread dp' = c_curthread dp.
Proof.
  intros Hf. cbn. destruct (decide (d = c)) as [->|].
  - rewrite list_lookup_alter_eq. intros (dp & -> & ->)%fmap_Some. by exists dp.
  - rewrite list_lookup_alter_ne by done. by eauto.
Qed.

(** A thread that leaves a wait channel. *)
Lemma wakeone_moved c w t l s :
  sched_inv s → wchans s !! w = Some (t :: l) →
  ∃ th s', threads s !! t = Some th ∧ wchan_wakeone c w s = Some s' ∧
    moved t (PWait w) (PReady (t_cpu th)) s s' ∧ wchans s' = <[w := l]> (wchans s) ∧
    content s' (PReady (t_cpu th)) = content s (PReady (t_cpu th)) ++ [t].
Proof.
  intros Hi Hw. assert (Hin : t ∈ content s (PWait w)) by (cbn; rewrite Hw; left).
  destruct (si_state _ Hi _ _ Hin) as (th & Ht & Hok). destruct (si_cpu _ Hi _ _ Ht) as [cp Hcp].
  unfold wchan_wakeone. rewrite Hw. cbn [mbind option_bind].
  destruct (make_runnable_run c t (set_wchan w l s) th cp Ht Hcp) as (b & ->).
  set (s1 := upd_thread t (set_tstate S_READY) (set_wchan w l s)).
  set (f := λ cp, set_ipi b (set_runqueue (c_runqueue cp ++ [t]) cp)).
  assert (Hc1 : cpus s1 !! t_cpu th = Some cp) by done.
  assert (Hct : ∀ p, content s1 p = if decide (p = PWait w) then l else content s p)
    by (intros p; apply (content_wchan w l s)).
  assert (Hq : content (upd_cpu (t_cpu th) f s1) (PReady (t_cpu th)) = content s (PReady (t_cpu th)) ++ [t]).
  { rewrite (content_cpu_eq _ _ _ cp) by done. cbn. by rewrite Hcp. }
  exists th, (upd_cpu (t_cpu th) f s1). split; [done|]. split; [done|]. split; [|done]. split.
  - done.
  - rewrite content_cpu_ne by done. rewrite Hct, decide_True by done. cbn. by rewrite Hw.
  - rewrite Hq. symmetry. apply Permutation_cons_append.
  - intros r Hr1 Hr2. destruct (decide (place_cpu r = Some (t_cpu th))) as [Hr|Hr].
    + rewrite (content_cpu_eq _ _ _ cp) by done. rewrite (content_lookup s r (t_cpu th) cp) by done.
      destruct r; cbn in *; simplify_eq; done.
    + rewrite content_cpu_ne by done. by rewrite Hct, decide_False.
  - intros u Hu. cbn. by rewrite lookup_alter_ne.
  - exists (set_tstate S_READY th). cbn. rewrite lookup_alter_eq, Ht. split; [done|]. split; [done|].
    rewrite list_lookup_alter_eq, Hcp. done.
  - eapply (cur_kept s _ t (set_tstate S_READY th)); [apply Hi| | | |].
    + intros d dp. by apply (upd_cpu_cur (t_cpu th) f s1).
    + intros u Hu. cbn. by rewrite lookup_alter_ne.
    + cbn. by rewrite lookup_alter_eq, Ht.
    + intros th' Ht'. by simplify_eq.
  - cbn. by rewrite length_alter.
Qed.

(** ** Switching *)

Section on_cpu.
Context (s : tsys) (c : nat) (cp : cpu) (Hi : sched_inv s) (Hc : cpus s !! c = Some cp).

Lemma cur_thread : ∃ th, threads s !! c_curthread cp = Some th ∧ t_cpu th = c.
Proof. by apply Hi. Qed.

(** The running thread is put in [q]. *)
Lemma put_away s' q th f :
  c_isidle cp = false → threads s !! c_curthread cp = Some th →
  cpus s' = alter f c (cpus s) → (∀ x, c_curthread (f x) = c_curthread x) → c_isidle (f cp) = true →
  (∀ u, u ≠ c_curthread cp → threads s' !! u = threads s !! u) →
  (∃ th', threads s' !! c_curthread cp = Some th' ∧ place_ok q th' ∧ t_cpu th' = t_cpu th) →
  q ≠ PRun c → content s' q ≡ₚ c_curthread cp :: content s q →
  (∀ r, r ≠ PRun c → r ≠ q → content s' r = content s r) →
  moved (c_curthread cp) (PRun c) q s s'.
Proof.
  intros Hidle Ht Hcs Hf Hfi Hth (th' & Ht' & Hok & Htc) Hq Hto Hoth.
  assert (Hc' : cpus s' !! c = Some (f cp)) by (by rewrite Hcs, list_lookup_alter_eq, Hc).
  split; try done.
  - cbn. by rewrite Hc, Hc', Hidle, Hfi.
  - exists th'. split; [done|]. split; [done|]. rewrite Htc.
    eapply (lookup_cpu_len s); [by rewrite Hcs, length_alter|]. by eapply Hi.
  - eapply (cur_kept s); [apply Hi| |exact Hth|exact Ht'|].
    + intros d dp. rewrite Hcs. by apply (upd_cpu_cur c f s).
    + intros th0 Ht0. by simplify_eq.
  - by rewrite Hcs, length_alter.
Qed.

Lemma sleep_moved w l :
  c_isidle cp = false → wchans s !! w = Some l →
  ∃ s', wchan_sleep c w s = Some s' ∧ moved (c_curthread cp) (PRun c) (PWait w) s s' ∧
    wchans s' = <[w := l ++ [c_curthread cp]]> (wchans s).
Proof.
  intros Hidle Hw. destruct cur_thread as (th & Ht & Htc). unfold wchan_sleep, thread_switch.
  rewrite Hc. cbn [mbind option_bind]. rewrite Hidle, bool_decide_eq_false_2 by (by intros [? _]).
  rewrite Hw. cbn [mbind option_bind]. eexists. split; [done|]. split; [|done].
  eapply (put_away _ _ _ (set_idle true)); try done.
  - intros u Hu. cbn. by rewrite lookup_alter_ne.
  - eexists. cbn. rewrite lookup_alter_eq, Ht. by split_and!.
  - rewrite content_cpu_ne by done. change (content (upd_thread ?t ?f ?s)) with (content s).
    rewrite content_wchan, decide_True by done. cbn. rewrite Hw. symmetry. apply Permutation_cons_append.
  - intros r H1 H2. destruct (decide (place_cpu r = Some c)) as [Hr|Hr].
    + rewrite (content_cpu_eq _ _ _ cp) by done. rewrite (content_lookup s r c cp) by done.
      destruct r; cbn in *; simplify_eq; done.
    + rewrite content_cpu_ne by done. change (content (upd_thread ?t ?f ?s)) with (content s).
      by rewrite content_wchan, decide_False.
Qed.

Lemma zombie_moved :
  c_isidle cp = false →
  ∃ s', thread_exit c s = Some s' ∧ moved (c_curthread cp) (PRun c) (PZombie c) s s' ∧ wchans s' = wchans s.
Proof.
  intros Hidle. destruct cur_thread as (th & Ht & Htc). unfold thread_exit. rewrite Hc. cbn [mbind option_bind].
  unfold thread_switch. change (cpus (upd_thread ?t ?f ?s)) with (cpus s). rewrite Hc. cbn [mbind option_bind].
  rewrite Hidle, bool_decide_eq_false_2 by (by intros [? _]). cbn [mbind option_bind].
  eexists. split; [done|]. split; [|done].
  eapply (put_away _ _ _ (set_idle true ∘ set_zombies (c_zombies cp ++ [c_curthread cp]))); try done.
  - unfold upd_cpu, upd_thread. cbn. apply list_eq. intros i. destruct (decide (c = i)) as [->|].
    + rewrite !list_lookup_alter_eq. by destruct (cpus s !! i).
    + by rewrite !list_lookup_alter_ne.
  - intros u Hu. cbn. by rewrite !lookup_alter_ne.
  - eexists. cbn. rewrite lookup_alter_eq, lookup_alter_eq, Ht. by split_and!.
  - rewrite (content_cpu_eq _ _ _ (set_zombies (c_zombies cp ++ [c_curthread cp]) cp)); [|cbn; by rewrite list_lookup_alter_eq, Hc|done].
    cbn. rewrite Hc. symmetry. apply Permutation_cons_append.
  - intros r H1 H2. destruct (decide (place_cpu r = Some c)) as [Hr|Hr].
    + rewrite (content_cpu_eq _ _ _ (set_zombies (c_zombies cp ++ [c_curthread cp]) cp)); [|cbn; by rewrite list_lookup_alter_eq, Hc|done].
      rewrite (content_lookup s r c cp) by done. destruct r; cbn in *; simplify_eq; done.
    + rewrite content_cpu_ne by done. change (content (upd_thread ?t ?f ?s)) with (content s).
      by rewrite content_cpu_ne.
Qed.

(** Yielding with nothing else to run does nothing. *)
Lemma yield_alone : c_isidle cp = false → c_runqueue cp = [] → thread_yield c s = Some s.
Proof.
  intros Hidle Hq. unfold thread_yield, thread_switch. rewrite Hc. cbn [mbind option_bind].
  by rewrite Hidle, bool_decide_eq_true_2.
Qed.

Lemma yield_idle : c_isidle cp = true → thread_yield c s = Some s.
Proof. intros Hidle. unfold thread_yield, thread_switch. rewrite Hc. cbn [mbind option_bind]. by rewrite Hidle. Qed.

Lemma yield_moved :
  c_isidle cp = false → c_runqueue cp ≠ [] →
  ∃ s', thread_yield c s = Some s' ∧ moved (c_curthread cp) (PRun c) (PReady c) s s' ∧ wchans s' = wchans s ∧
    ∃ cp', cpus s' !! c = Some cp' ∧ c_isidle cp' = true ∧ c_runqueue cp' = c_runqueue cp ++ [c_curthread cp].
Proof.
  intros Hidle Hq. destruct cur_thread as (th & Ht & Htc). unfold thread_yield, thread_switch.
  rewrite Hc. cbn [mbind option_bind]. rewrite Hidle, bool_decide_eq_false_2 by (by intros [_ ?]).
  destruct (make_runnable_run c (c_curthread cp) s th cp Ht ltac:(by rewrite Htc)) as (b & ->).
  cbn [mbind option_bind]. rewrite Htc.
  set (f := λ x, set_ipi b (set_runqueue (c_runqueue x ++ [c_curthread cp]) x)).
  eexists. split; [done|]. split; [|split; [done|]]; cycle 1.
  { cbn. rewrite list_lookup_alter_eq, list_lookup_alter_eq, Hc. by eexists. }
  eapply (put_away _ _ _ (set_idle true ∘ f)); try done.
  - unfold upd_cpu, upd_thread. cbn. apply list_eq. intros i. destruct (decide (c = i)) as [->|].
    + rewrite !list_lookup_alter_eq. by destruct (cpus s !! i).
    + by rewrite !list_lookup_alter_ne.
  - intros u Hu. cbn. by rewrite !lookup_alter_ne.
  - eexists. cbn. rewrite lookup_alter_eq, lookup_alter_eq, Ht. by split_and!.
  - rewrite (content_cpu_eq _ _ _ (f cp)); [|cbn; by rewrite list_lookup_alter_eq, Hc|done].
    cbn. rewrite Hc. symmetry. apply Permutation_cons_append.
  - intros r H1 H2. destruct (decide (place_cpu r = Some c)) as [Hr|Hr].
    + rewrite (content_cpu_eq _ _ _ (f cp)); [|cbn; by rewrite list_lookup_alter_eq, Hc|done].
      rewrite (content_lookup s r c cp) by done. destruct r; cbn in *; simplify_eq; done.
    + rewrite content_cpu_ne by done. change (content (upd_thread ?t ?g ?s)) with (content s).
      rewrite content_cpu_ne by done. done.
Qed.

End on_cpu.

(** ** Picking the next thread *)

Lemma upd_cpu_others c f s d dp :
  cpus (upd_cpu c f s) !! d = Some dp → d ≠ c → cpus s !! d = Some dp.
Proof. intros Hd Hne. cbn in Hd. by rewrite list_lookup_alter_ne in Hd. Qed.

Lemma pick_moved s c cp next rq :
  sched_inv s → cpus s !! c = Some cp → c_isidle cp = true → c_runqueue cp = next :: rq →
  let s1 := upd_thread next (set_tstate S_RUN)
              (upd_cpu c (λ cp, set_cur next (set_idle false (set_runqueue rq cp))) s) in
  moved next (PReady c) (PRun c) s s1.
Proof.
  intros Hi Hc Hidle Hq s1.
  assert (Hin : next ∈ content s (PReady c)) by (cbn; rewrite Hc, Hq; left).
  destruct (si_state _ Hi _ _ Hin) as (th & Ht & Hst & Htc).
  assert (Hc1 : cpus s1 !! c = Some (set_cur next (set_idle false (set_runqueue rq cp))))
    by (cbn; by rewrite list_lookup_alter_eq, Hc).
  assert (Ht1 : threads s1 !! next = Some (set_tstate S_RUN th)) by (cbn; by rewrite lookup_alter_eq, Ht).
  split.
  - done.
  - cbn. by rewrite Hc, list_lookup_alter_eq, Hc, Hq.
  - cbn. by rewrite Hc, list_lookup_alter_eq, Hc, Hidle.
  - intros r H1 H2. unfold s1. change (content (upd_thread ?t ?g ?s)) with (content s).
    destruct (decide (place_cpu r = Some c)) as [Hr|Hr]; [|by rewrite content_cpu_ne].
    rewrite (content_cpu_eq _ _ _ cp) by done. rewrite (content_lookup s r c cp) by done.
    destruct r; cbn in *; simplify_eq; done.
  - intros u Hu. cbn. by rewrite lookup_alter_ne.
  - exists (set_tstate S_RUN th). split; [done|]. split; [by split; [left|]|]. cbn. rewrite Htc.
    rewrite list_lookup_alter_eq, Hc. done.
  - intros d dp Hd. destruct (decide (d = c)) as [->|Hne].
    { rewrite Hc1 in Hd. injection Hd as <-. exists (set_tstate S_RUN th). by split. }
    apply (upd_cpu_others c) in Hd; [|done]. destruct (si_cur _ Hi _ _ Hd) as (th' & Ht' & Htc').
    exists th'. split; [|done]. cbn. rewrite lookup_alter_ne; [done|].
    intros ->. assert (th = th') as -> by congruence. congruence.
  - cbn. by rewrite length_alter.
Qed.

(** [t] disappears from [p]. *)
Lemma gone_inv t p s s' :
  sched_inv s → content s p ≡ₚ t :: content s' p → (∀ r, r ≠ p → content s' r = content s r) →
  threads s' = delete t (threads s) → length (cpus s') = length (cpus s) →
  (∀ c cp', cpus s' !! c = Some cp' → ∃ cp, cpus s !! c = Some cp ∧ c_curthread cp' = c_curthread cp ∧
     c_curthread cp ≠ t) →
  sched_inv s'.
Proof.
  intros [Hst Hnd Huq Hpl Hcu Hcp] Hfrom Hoth Hth Hlen Hcur.
  assert (Htp : t ∈ content s p) by (rewrite Hfrom; left).
  assert (Hnp : NoDup (t :: content s' p)) by (rewrite <- Hfrom; apply Hnd).
  apply NoDup_cons in Hnp as [Htnp Hnp].
  assert (Hin : ∀ r u, u ∈ content s' r → u ≠ t ∧ u ∈ content s r).
  { intros r u Hu. destruct (decide (r = p)) as [->|Hrp].
    - split; [by intros ->|]. rewrite Hfrom. by right.
    - rewrite Hoth in Hu by done. split; [|done]. intros ->. by apply Hrp, (Huq r p t). }
  split.
  - intros r u Hu. destruct (Hin r u Hu) as [Hut Hu']. rewrite Hth, lookup_delete_ne by done. by apply Hst.
  - intros r. destruct (decide (r = p)) as [->|]; [done|]. by rewrite Hoth.
  - intros r1 r2 u H1 H2. destruct (Hin _ _ H1), (Hin _ _ H2). by apply (Huq r1 r2 u).
  - intros u th Hu. rewrite Hth in Hu. apply lookup_delete_Some in Hu as [Hut Hu].
    destruct (Hpl u th Hu) as [r Hr]. exists r. destruct (decide (r = p)) as [->|]; [|by rewrite Hoth].
    rewrite Hfrom, elem_of_cons in Hr. by destruct Hr.
  - intros c cp' Hc'. destruct (Hcur c cp' Hc') as (cp & Hc & -> & Hne). rewrite Hth, lookup_delete_ne by done.
    by apply Hcu.
  - intros u th Hu. rewrite Hth in Hu. apply lookup_delete_Some in Hu as [Hut Hu].
    eapply lookup_cpu_len; [done|]. by eapply Hcp.
Qed.

(** The zombies of a processor that runs a thread are destroyed, and no assertion
    of [exorcise] or [thread_destroy] fails. *)
Lemma exorcise_run c zs s cp :
  sched_inv s → cpus s !! c = Some cp → c_isidle cp = false → c_zombies cp = zs →
  ∃ s', exorcise_loop c zs s = Some s' ∧ sched_inv s' ∧ cpus s' !! c = Some (set_zombies [] cp) ∧
    wchans s' = wchans s ∧ (∀ d, d ≠ c → cpus s' !! d = cpus s !! d) ∧
    (∀ u th, threads s' !! u = Some th ↔ threads s !! u = Some th ∧ u ∉ zs).
Proof.
  revert s cp. induction zs as [|z zs IH]; intros s cp Hi Hc Hidle Hz; cbn [exorcise_loop].
  { exists s. split; [done|]. split; [done|]. split; [rewrite Hc; f_equal; by destruct cp; cbn in *; subst|].
    split; [done|]. split; [done|]. set_solver. }
  rewrite Hc. cbn [mbind option_bind].
  assert (Hin : z ∈ content s (PZombie c)) by (cbn; rewrite Hc, Hz; left).
  destruct (si_state _ Hi _ _ Hin) as (th & Ht & Hst & Htc & Htp).
  assert (Hne : ∀ d dp, cpus s !! d = Some dp → c_isidle dp = false ∨ d ≠ c → c_curthread dp ≠ z).
  { intros d dp Hd Hor E. destruct (decide (d = c)) as [->|Hdc].
    - assert (dp = cp) as -> by congruence. assert (PRun c = PZombie c); [|done].
      apply (si_unique _ Hi _ _ z); [|done]. cbn. rewrite Hc, Hidle, E. left.
    - destruct (si_cur _ Hi _ _ Hd) as (th' & Ht' & Htc'). congruence. }
  change (threads (upd_cpu ?c ?f ?s)) with (threads s). rewrite Ht. cbn [mbind option_bind].
  rewrite bool_decide_eq_false_2 by (intros ->; by eapply (Hne c cp); auto).
  rewrite (bool_decide_eq_true_2 (t_state th = S_ZOMBIE)) by done. cbn [negb orb].
  set (s1 := upd_cpu c (set_zombies zs) s).
  assert (Hc1 : cpus s1 !! c = Some (set_zombies zs cp)) by (cbn; by rewrite list_lookup_alter_eq, Hc).
  unfold thread_destroy. rewrite Hc1. cbn [mbind option_bind]. change (threads s1) with (threads s). rewrite Ht.
  cbn [mbind option_bind]. rewrite bool_decide_eq_false_2 by (intros ->; by eapply (Hne c cp); auto).
  rewrite bool_decide_eq_false_2 by (by rewrite Hst). rewrite (bool_decide_eq_true_2 (t_proc th = None)) by done.
  cbn [negb orb mbind option_bind].
  set (s2 := TSys (cpus s1) (delete z (threads s)) (wchans s1)).
  assert (Hi2 : sched_inv s2).
  { apply (gone_inv z (PZombie c) s); try done.
    - cbn. by rewrite list_lookup_alter_eq, Hc, Hz.
    - intros r Hr. change (content s2) with (content s1). unfold s1.
      destruct (decide (place_cpu r = Some c)) as [Hr'|Hr']; [|by rewrite content_cpu_ne].
      rewrite (content_cpu_eq _ _ _ cp) by done. rewrite (content_lookup s r c cp) by done.
      destruct r; cbn in *; simplify_eq; done.
    - cbn. by rewrite length_alter.
    - intros d dp' Hd. destruct (upd_cpu_cur c (set_zombies zs) s d dp' ltac:(done) Hd) as (dp & Hdp & Hcd).
      exists dp. split; [done|]. split; [done|]. eapply Hne; [done|].
      destruct (decide (d = c)) as [->|]; [left|by right]. by simplify_eq. }
  destruct (IH s2 (set_zombies zs cp)) as (s' & -> & Hi' & Hc' & Hw' & Hd' & Ht'); try done.
  exists s'. split; [done|]. split; [done|]. split; [done|]. split; [done|]. split.
  - intros d Hd. rewrite Hd' by done. cbn. by rewrite list_lookup_alter_ne.
  - intros u th'. rewrite Ht'. cbn. rewrite lookup_delete_Some, not_elem_of_cons. naive_solver.
Qed.

Lemma pick_run s c cp next rq :
  sched_inv s → cpus s !! c = Some cp → c_isidle cp = true → c_runqueue cp = next :: rq →
  ∃ s', thread_pick c s = Some s' ∧ sched_inv s' ∧ content s' (PRun c) = [next] ∧
    content s' (PReady c) = rq ∧ wchans s' = wchans s ∧ (∀ d, d ≠ c → cpus s' !! d = cpus s !! d) ∧
    (∀ u, is_Some (threads s' !! u) ↔ is_Some (threads s !! u) ∧ u ∉ c_zombies cp) ∧ content s' (PVictim c) = victims cp.
Proof.
  intros Hi Hc Hidle Hq. unfold thread_pick. rewrite Hc. cbn [mbind option_bind]. rewrite Hq.
  pose proof (pick_moved s c cp next rq Hi Hc Hidle Hq) as Hmv. cbv zeta in Hmv.
  set (s1 := upd_thread next _ _) in *.
  assert (Hc1 : cpus s1 !! c = Some (set_cur next (set_idle false (set_runqueue rq cp))))
    by (cbn; by rewrite list_lookup_alter_eq, Hc).
  pose proof (moved_inv _ _ _ _ _ Hi Hmv) as Hi1. unfold exorcise. rewrite Hc1.
  cbn [mbind option_bind c_zombies set_cur set_idle set_runqueue].
  destruct (exorcise_run c (c_zombies cp) s1 _ Hi1 Hc1) as (s' & -> & Hi' & Hc' & Hw' & Hd' & Ht'); try done.
  exists s'. split; [done|]. split; [done|]. split; [cbn; by rewrite Hc'|]. split; [cbn; by rewrite Hc'|].
  split; [done|]. split; [|split; [|cbn; by rewrite Hc']].
  - intros d Hd. rewrite Hd' by done. cbn. by rewrite list_lookup_alter_ne.
  - intros u. assert (Hs1 : is_Some (threads s1 !! u) ↔ is_Some (threads s !! u)).
    { cbn. destruct (decide (u = next)) as [->|].
      - rewrite lookup_alter_eq. by rewrite fmap_is_Some.
      - by rewrite lookup_alter_ne. }
    rewrite <- Hs1. split.
    + intros [th Hth]. apply Ht' in Hth as [? ?]. by eauto.
    + intros [[th Hth] Hn]. exists th. by apply Ht'.
Qed.

(** ** New threads and wake-ups *)

Lemma added_inv t th q s s' :
  sched_inv s → threads s !! t = None → threads s' = <[t := th]> (threads s) → place_ok q th →
  is_Some (cpus s !! t_cpu th) → content s' q ≡ₚ t :: content s q → (∀ r, r ≠ q → content s' r = content s r) →
  length (cpus s') = length (cpus s) →
  (∀ c cp', cpus s' !! c = Some cp' → ∃ cp, cpus s !! c = Some cp ∧ c_curthread cp' = c_curthread cp) →
  sched_inv s'.
Proof.
  intros [Hst Hnd Huq Hpl Hcu Hcp] Hnew Hth Hok Htc Hto Hoth Hlen Hcur.
  assert (Hno : ∀ r, t ∉ content s r) by (intros r Hr; destruct (Hst r t Hr) as (? & ? & _); congruence).
  assert (Hin : ∀ r u, u ∈ content s' r → (u = t ∧ r = q) ∨ (u ≠ t ∧ u ∈ content s r)).
  { intros r u Hu. destruct (decide (r = q)) as [->|Hrq].
    - rewrite Hto, elem_of_cons in Hu. destruct Hu as [->|Hu]; [by left|right].
      split; [intros ->; by eapply Hno|done].
    - rewrite Hoth in Hu by done. right. split; [intros ->; by eapply Hno|done]. }
  split.
  - intros r u Hu. rewrite Hth. destruct (Hin r u Hu) as [[-> ->]|[Hut Hu']].
    + exists th. by rewrite lookup_insert_eq.
    + rewrite lookup_insert_ne by done. by apply Hst.
  - intros r. destruct (decide (r = q)) as [->|]; [|by rewrite Hoth]. rewrite Hto. by apply NoDup_cons.
  - intros r1 r2 u H1 H2. destruct (Hin _ _ H1) as [[-> ->]|[? ?]], (Hin _ _ H2) as [[? ->]|[? ?]]; try congruence.
    by apply (Huq r1 r2 u).
  - intros u th' Hu. rewrite Hth in Hu. apply lookup_insert_Some in Hu as [[<- <-]|[Hut Hu]].
    + exists q. rewrite Hto. left.
    + destruct (Hpl u th' Hu) as [r Hr]. exists r.
      destruct (decide (r = q)) as [->|]; [rewrite Hto; by right|by rewrite Hoth].
  - intros c cp' Hc'. destruct (Hcur c cp' Hc') as (cp & Hc & ->). destruct (Hcu _ _ Hc) as (th' & Ht' & Htc').
    exists th'. split; [|done]. rewrite Hth, lookup_insert_ne; [done|]. intros ->. congruence.
  - intros u th' Hu. eapply lookup_cpu_len; [done|]. rewrite Hth in Hu.
    apply lookup_insert_Some in Hu as [[<- <-]|[Hut Hu]]; [done|by eapply Hcp].
Qed.

Lemma fork_run s c cp t proc :
  sched_inv s → cpus s !! c = Some cp → threads s !! t = None →
  ∃ s', thread_fork c (Some t) proc s = Some (s', 0) ∧ sched_inv s' ∧
    content s' (PReady c) = content s (PReady c) ++ [t] ∧ wchans s' = wchans s.
Proof.
  intros Hi Hc Hnew. destruct (si_cur _ Hi _ _ Hc) as (cur & Hcur & Htc).
  unfold thread_fork. rewrite Hc. cbn [mbind option_bind]. rewrite Hcur. cbn [mbind option_bind].
  set (th := Thread S_READY (t_cpu cur) _). set (s1 := TSys (cpus s) (<[t := th]> (threads s)) (wchans s)).
  destruct (make_runnable_run c t s1 th cp) as (b & ->).
  { cbn. by rewrite lookup_insert_eq. }
  { cbn. by rewrite Htc. }
  cbn [mbind option_bind]. change (t_cpu th) with (t_cpu cur). rewrite Htc.
  set (f := λ cp, set_ipi b (set_runqueue (c_runqueue cp ++ [t]) cp)).
  assert (Hq : content (upd_cpu c f (upd_thread t (set_tstate S_READY) s1)) (PReady c) = content s (PReady c) ++ [t]).
  { rewrite (content_cpu_eq _ _ _ cp) by done. cbn. by rewrite Hc. }
  eexists. split; [done|]. split; [|done].
  apply (added_inv t th (PReady c) s); try done.
  - cbn. by rewrite alter_insert_eq.
  - cbn. rewrite Htc, Hc. done.
  - rewrite Hq. symmetry. apply Permutation_cons_append.
  - intros r Hr. destruct (decide (place_cpu r = Some c)) as [Hr'|Hr']; [|by rewrite content_cpu_ne].
    rewrite (content_cpu_eq _ _ _ cp) by done. rewrite (content_lookup s r c cp) by done.
    destruct r; cbn in *; simplify_eq; done.
  - cbn. by rewrite length_alter.
  - intros d dp. by apply (upd_cpu_cur c f s).
Qed.

(** Waking all is waking one after the other. *)
Lemma make_runnable_wchan c t w l l' s :
  thread_make_runnable c t (set_wchan w l s) = set_wchan w l <$> thread_make_runnable c t (set_wchan w l' s).
Proof.
  unfold thread_make_runnable. change (threads (set_wchan w ?l s)) with (threads s).
  destruct (threads s !! t) as [th|]; [|done]. cbn [mbind option_bind].
  change (cpus (upd_thread ?t ?f (set_wchan w ?l s))) with (cpus s).
  destruct (cpus s !! t_cpu th) as [cp|]; [|done]. cbn [mbind option_bind].
  assert (He : ∀ f g x, upd_cpu (t_cpu th) f (upd_thread t g (set_wchan w x s)) =
    set_wchan w x (upd_cpu (t_cpu th) f (upd_thread t g s))) by done.
  assert (Hs : ∀ x y u, set_wchan w x (set_wchan w y u) = set_wchan w x u).
  { intros x y u. unfold set_wchan. cbn. by rewrite insert_insert_eq. }
  destruct (c_isidle cp && negb (bool_decide (t_cpu th = c))).
  - unfold ipi_send. destruct (_ && _); [|done]. cbn. f_equal. unfold set_wchan. cbn. by rewrite insert_insert_eq.
  - cbn. f_equal. by rewrite !He, Hs.
Qed.

Lemma wakeall_run c w l s :
  sched_inv s → wchans s !! w = Some l →
  ∃ s', wchan_wakeall c w s = Some s' ∧ sched_inv s' ∧ wchans s' = <[w := []]> (wchans s) ∧
    ∀ t th, threads s !! t = Some th → t ∈ l ∨ t_state th = S_READY →
      ∃ th', threads s' !! t = Some th' ∧ t_state th' = S_READY.
Proof.
  revert s. induction l as [|t l IH]; intros s Hi Hw; unfold wchan_wakeall; rewrite Hw; cbn [mbind option_bind].
  { exists s. cbn [make_all_runnable]. assert (set_wchan w [] s = s) as ->.
    { destruct s as [cs ts ws]. unfold set_wchan. cbn in *. f_equal. by apply insert_id. }
    split; [done|]. split; [done|]. split; [by rewrite insert_id|]. set_solver. }
  destruct (wakeone_moved c w t l s Hi Hw) as (th & s1 & Ht & Hr & Hmv & Hws & _).
  unfold wchan_wakeone in Hr. rewrite Hw in Hr. cbn [mbind option_bind] in Hr.
  cbn [make_all_runnable]. rewrite (make_runnable_wchan c t w [] l), Hr. cbn [fmap option_fmap option_map mbind option_bind].
  pose proof (moved_inv _ _ _ _ _ Hi Hmv) as Hi1.
  assert (Hw1 : wchans s1 !! w = Some l) by (by rewrite Hws, lookup_insert_eq).
  destruct (IH s1 Hi1 Hw1) as (s' & Hr' & Hi' & Hws' & Hall).
  unfold wchan_wakeall in Hr'. rewrite Hw1 in Hr'. cbn [mbind option_bind] in Hr'.
  exists s'. split; [done|]. split; [done|]. split; [by rewrite Hws', Hws, insert_insert_eq|].
  intros u thu Hu Hor. destruct (decide (u = t)) as [->|Hne].
  - destruct (mv_thread _ _ _ _ _ Hmv) as (tht & Htt & [Hst _] & _). apply (Hall t tht); by auto.
  - apply (Hall u thu); [by rewrite (mv_threads _ _ _ _ _ Hmv)|]. set_solver.
Qed.

(** ** Migration *)

Lemma reverse_split (l : list Z) t q : reverse l = t :: q → l = reverse q ++ [t].
Proof. intros Hl. rewrite <- (reverse_involutive l), Hl. apply reverse_cons. Qed.

(** Moving a victim within the processor [c]. *)
Lemma local_moved s c cp t p q f :
  sched_inv s → cpus s !! c = Some cp →
  (p = PReady c ∧ q = PVictim c) ∨ (p = PVictim c ∧ q = PReady c) →
  cpu_content cp p ≡ₚ t :: cpu_content (f cp) p → cpu_content (f cp) q ≡ₚ t :: cpu_content cp q →
  (∀ r, place_cpu r = Some c → r ≠ p → r ≠ q → cpu_content (f cp) r = cpu_content cp r) →
  (∀ x, c_curthread (f x) = c_curthread x) →
  moved t p q s (upd_cpu c f s).
Proof.
  intros Hi Hc Hpq Hfrom Hto Hoth Hf.
  assert (Hp : place_cpu p = Some c ∧ place_cpu q = Some c ∧ p ≠ q) by (by destruct Hpq as [[-> ->]|[-> ->]]).
  destruct Hp as (Hp & Hq & Hne).
  assert (Hin : t ∈ content s p) by (rewrite (content_lookup s p c cp), Hfrom by done; left).
  destruct (si_state _ Hi _ _ Hin) as (th & Ht & Hok).
  split; try done.
  - by rewrite (content_lookup s p c cp), (content_cpu_eq c f s cp) by done.
  - by rewrite (content_lookup s q c cp), (content_cpu_eq c f s cp) by done.
  - intros r H1 H2. destruct (decide (place_cpu r = Some c)) as [Hr|Hr]; [|by rewrite content_cpu_ne].
    rewrite (content_lookup s r c cp), (content_cpu_eq c f s cp) by done. by apply Hoth.
  - exists th. split; [done|]. split; [by destruct Hpq as [[-> ->]|[-> ->]]|].
    eapply (lookup_cpu_len s); [cbn; by rewrite length_alter|by eapply Hi].
  - intros d dp Hd. destruct (upd_cpu_cur c f s d dp Hf Hd) as (dp0 & Hd0 & ->). by apply Hi.
  - cbn. by rewrite length_alter.
Qed.

Lemma take_victims_run n c s cp :
  sched_inv s → cpus s !! c = Some cp → (n ≤ length (c_runqueue cp))%nat →
  ∃ s' cp', take_victims n c s = Some s' ∧ sched_inv s' ∧ cpus s' !! c = Some cp' ∧
    c_runqueue cp = c_runqueue cp' ++ take n (victims cp') ∧ victims cp' = take n (victims cp') ++ victims cp ∧
    length (take n (victims cp')) = n ∧
    c_curthread cp' = c_curthread cp ∧ length (cpus s') = length (cpus s) ∧
    threads s' = threads s ∧ (∀ d, d ≠ c → cpus s' !! d = cpus s !! d).
Proof.
  revert s cp. induction n as [|n IH]; intros s cp Hi Hc Hn; cbn [take_victims].
  { exists s, cp. rewrite app_nil_r. by split_and!. }
  rewrite Hc. cbn [mbind option_bind]. destruct (reverse (c_runqueue cp)) as [|t q] eqn:Hr.
  { apply (f_equal length) in Hr. rewrite length_reverse in Hr. cbn in Hr. lia. }
  apply reverse_split in Hr. set (f := λ cp, set_victims (t :: victims cp) (set_runqueue (reverse q) cp)).
  assert (Hmv : moved t (PReady c) (PVictim c) s (upd_cpu c f s)).
  { eapply local_moved; try done; [by left|cbn; rewrite Hr; symmetry; apply Permutation_cons_append|].
    intros r Hr' H1 H2. by destruct r; cbn in *; simplify_eq. }
  assert (Hc1 : cpus (upd_cpu c f s) !! c = Some (f cp)) by (cbn; by rewrite list_lookup_alter_eq, Hc).
  rewrite Hr, length_app in Hn. cbn in Hn.
  destruct (IH (upd_cpu c f s) (f cp)) as (s' & cp' & -> & Hi' & Hc' & Hq' & Hv' & Hl' & Hcur' & Hlen' & Hth' & Hd');
    [by eapply moved_inv|done|cbn; lia|].
  cbn in Hq', Hv', Hcur', Hlen'. rewrite length_alter in Hlen'.
  exists s', cp'. split; [done|]. split; [done|]. split; [done|].
  assert (Htk : take (S n) (victims cp') = take n (victims cp') ++ [t]).
  { rewrite Hv' at 1. rewrite take_app_ge by lia. rewrite Hl'.
    replace (S n - n)%nat with 1%nat by lia. done. }
  rewrite Htk. split; [by rewrite Hr, Hq', <- app_assoc|]. split; [by rewrite <- app_assoc|].
  split; [rewrite length_app, Hl'; cbn; lia|]. split_and!; try done.
  intros d Hd. rewrite Hd' by done. cbn. by rewrite list_lookup_alter_ne.
Qed.

Lemma permuted_inv s s' :
  sched_inv s → (∀ r, content s' r ≡ₚ content s r) → threads s' = threads s → length (cpus s') = length (cpus s) →
  (∀ c cp', cpus s' !! c = Some cp' → ∃ cp, cpus s !! c = Some cp ∧ c_curthread cp' = c_curthread cp) →
  sched_inv s'.
Proof.
  intros [Hst Hnd Huq Hpl Hcu Hcp] Hp Hth Hlen Hcur. split.
  - intros r u. rewrite Hp, Hth. apply Hst.
  - intros r. rewrite Hp. apply Hnd.
  - intros r1 r2 u. rewrite !Hp. apply Huq.
  - intros u th. rewrite Hth. intros Hu. destruct (Hpl u th Hu) as [r Hr]. exists r. by rewrite Hp.
  - intros c cp' Hc'. destruct (Hcur c cp' Hc') as (cp & Hc & ->). rewrite Hth. by apply Hcu.
  - intros u th. rewrite Hth. intros Hu. eapply lookup_cpu_len; [done|]. by eapply Hcp.
Qed.

(** What a push keeps of the processor [c] that migrates, and of the target [d]. *)
Record pushed (share : Z) (c d : nat) (s s' : tsys) : Prop := {
  pu_inv : sched_inv s';
  pu_len : length (cpus s') = length (cpus s);
  pu_cur : ∀ e ep', cpus s' !! e = Some ep' → ∃ ep, cpus s !! e = Some ep ∧ c_curthread ep' = c_curthread ep;
  pu_other : ∀ e, e ≠ c → e ≠ d → cpus s' !! e = cpus s !! e;
  pu_own : content s' (PReady c) = content s (PReady c);
  pu_dom : ∀ u, is_Some (threads s' !! u) ↔ is_Some (threads s !! u);
  pu_share : zlen (content s' (PReady d)) ≤ Z.max share (zlen (content s (PReady d)));
  pu_grows : zlen (content s (PReady d)) ≤ zlen (content s' (PReady d));
}.

Lemma pushed_trans share c d s1 s2 s3 :
  d ≠ c → pushed share c d s1 s2 → pushed share c d s2 s3 → pushed share c d s1 s3.
Proof.
  intros Hne [I1 L1 C1 O1 W1 D1 S1 G1] [I2 L2 C2 O2 W2 D2 S2 G2]. split; try done; try congruence; try lia.
  - intros e ep Hep. destruct (C2 e ep Hep) as (ep2 & Hep2 & ->). by apply C1.
  - intros e H1 H2. by rewrite O2, O1.
  - intros u. by rewrite D2, D1.
Qed.

Lemma rotate_pushed share s c d cp t vs :
  sched_inv s → cpus s !! c = Some cp → victims cp = t :: vs → d ≠ c →
  pushed share c d s (upd_cpu c (set_victims (vs ++ [t])) s).
Proof.
  intros Hi Hc Hv Hne. set (f := set_victims (vs ++ [t])).
  assert (Hct : ∀ r, r ≠ PVictim c → content (upd_cpu c f s) r = content s r).
  { intros r Hr. destruct (decide (place_cpu r = Some c)) as [Hr'|Hr']; [|by rewrite content_cpu_ne].
    rewrite (content_lookup s r c cp), (content_cpu_eq c f s cp) by done. by destruct r; cbn in *; simplify_eq. }
  split.
  - apply (permuted_inv s); try done.
    + intros r. destruct (decide (r = PVictim c)) as [->|]; [|by rewrite Hct].
      rewrite (content_lookup s _ c cp), (content_cpu_eq c f s cp) by done. cbn. rewrite Hv.
      symmetry. apply Permutation_cons_append.
    + cbn. by rewrite length_alter.
    + intros e ep. by apply (upd_cpu_cur c f s).
  - cbn. by rewrite length_alter.
  - intros e ep. by apply (upd_cpu_cur c f s).
  - intros e He _. cbn. by rewrite list_lookup_alter_ne.
  - by apply Hct.
  - done.
  - rewrite Hct by done. lia.
  - rewrite Hct by done. lia.
Qed.

(** The state after [t] went to the run queue of [d]. *)
Definition sent (c d : nat) (t : Z) (vs : list Z) (b : Z) (s : tsys) : tsys :=
  upd_cpu d (λ dp, set_ipi b (set_runqueue (c_runqueue dp ++ [t]) dp))
    (upd_thread t (set_tcpu d) (upd_cpu c (set_victims vs) s)).

Lemma sent_pushed share s c d cp dp t vs b :
  sched_inv s → cpus s !! c = Some cp → cpus s !! d = Some dp → victims cp = t :: vs → d ≠ c →
  t ≠ c_curthread cp → zlen (c_runqueue dp) < share →
  pushed share c d s (sent c d t vs b s).
Proof.
  intros Hi Hc Hd Hv Hne Hcur Hlt.
  set (f := set_victims vs). set (g := λ dp, set_ipi b (set_runqueue (c_runqueue dp ++ [t]) dp)).
  assert (Hin : t ∈ content s (PVictim c)) by (cbn; rewrite Hc, Hv; left).
  destruct (si_state _ Hi _ _ Hin) as (th & Ht & Hst & Htc).
  set (s1 := upd_thread t (set_tcpu d) (upd_cpu c f s)).
  assert (Hd1 : cpus s1 !! d = Some dp) by (cbn; by rewrite list_lookup_alter_ne).
  assert (Hct : ∀ r, r ≠ PVictim c → r ≠ PReady d → content (sent c d t vs b s) r = content s r).
  { intros r H1 H2. unfold sent. fold s1 g. destruct (decide (place_cpu r = Some d)) as [Hr|Hr].
    - rewrite (content_lookup s r d dp), (content_cpu_eq d g s1 dp) by done. by destruct r; cbn in *; simplify_eq.
    - rewrite content_cpu_ne by done. trans (content (upd_cpu c f s) r); [done|].
      destruct (decide (place_cpu r = Some c)) as [Hr'|Hr']; [|by rewrite content_cpu_ne].
      rewrite (content_lookup s r c cp), (content_cpu_eq c f s cp) by done. by destruct r; cbn in *; simplify_eq. }
  assert (Hq : content (sent c d t vs b s) (PReady d) = content s (PReady d) ++ [t]).
  { unfold sent. fold s1 g. rewrite (content_lookup s _ d dp), (content_cpu_eq d g s1 dp) by done. done. }
  assert (Hcs : ∀ e ep', cpus (sent c d t vs b s) !! e = Some ep' →
    ∃ ep, cpus s !! e = Some ep ∧ c_curthread ep' = c_curthread ep).
  { intros e ep' He. destruct (upd_cpu_cur d g s1 e ep' ltac:(done) He) as (ep1 & He1 & ->).
    destruct (upd_cpu_cur c f s e ep1 ltac:(done) He1) as (ep & He0 & ->). by exists ep. }
  assert (Hlen : length (cpus (sent c d t vs b s)) = length (cpus s)) by (cbn; by rewrite !length_alter).
  assert (Hmv : moved t (PVictim c) (PReady d) s (sent c d t vs b s)).
  { split; try done.
    - unfold sent. fold s1 g. rewrite content_cpu_ne by (cbn; congruence).
      trans (t :: content (upd_cpu c f s) (PVictim c)); [|done]. rewrite (content_cpu_eq c f s cp) by done. cbn.
      by rewrite Hc, Hv.
    - rewrite Hq. symmetry. apply Permutation_cons_append.
    - intros u Hu. cbn. by rewrite lookup_alter_ne.
    - exists (set_tcpu d th). cbn. rewrite lookup_alter_eq, Ht. split; [done|]. split; [done|].
      rewrite list_lookup_alter_eq, list_lookup_alter_ne, Hd by done. done.
    - intros e ep' He. destruct (Hcs e ep' He) as (ep & He0 & ->).
      destruct (si_cur _ Hi _ _ He0) as (th' & Ht' & Htc'). exists th'. split; [|done].
      cbn. rewrite lookup_alter_ne; [done|]. intros E.
      assert (th' = th) as -> by congruence. rewrite Htc in Htc'. subst e. apply Hcur. congruence. }
  split; try done.
  - by eapply moved_inv.
  - intros e H1 H2. cbn. rewrite list_lookup_alter_ne, list_lookup_alter_ne by done. done.
  - apply Hct; [done|congruence].
  - intros u. cbn. destruct (decide (u = t)) as [->|]; [rewrite lookup_alter_eq; apply fmap_is_Some|].
    by rewrite lookup_alter_ne.
  - rewrite Hq, length_app. cbn. rewrite Hd. lia.
  - rewrite Hq, length_app. lia.
Qed.

Lemma push_victims_run share n c d s cp :
  sched_inv s → cpus s !! c = Some cp → is_Some (cpus s !! d) → d ≠ c → (n ≤ length (victims cp))%nat →
  ∃ s' n' cp', push_victims n share c d s = Some (s', n') ∧ pushed share c d s s' ∧
    cpus s' !! c = Some cp' ∧ (n' ≤ length (victims cp'))%nat ∧ (n' ≤ n)%nat ∧
    (n' = O ∨ share ≤ zlen (content s' (PReady d))).
Proof.
  revert s cp. induction n as [|n IH]; intros s cp Hi Hc [dp Hd] Hne Hn; cbn [push_victims].
  { exists s, O, cp. split; [done|]. split; [|split_and!; (done || lia || by left)].
    split; try done; try lia. by eauto. }
  rewrite Hd. cbn [mbind option_bind]. destruct (Z.ltb_spec (zlen (c_runqueue dp)) share) as [Hlt|Hge].
  2:{ exists s, (S n), cp. split; [done|]. split; [split; try done; try lia; by eauto|].
      split; [done|]. split; [done|]. split; [done|]. right. cbn. by rewrite Hd. }
  rewrite Hc. cbn [mbind option_bind]. destruct (victims cp) as [|t vs] eqn:Hv; [cbn in Hn; lia|].
  assert (Hgo : ∀ s1, pushed share c d s s1 → (∃ cp1, cpus s1 !! c = Some cp1 ∧ (n ≤ length (victims cp1))%nat) →
    ∃ s' n' cp', push_victims n share c d s1 = Some (s', n') ∧ pushed share c d s s' ∧
    cpus s' !! c = Some cp' ∧ (n' ≤ length (victims cp'))%nat ∧ (n' ≤ S n)%nat ∧
    (n' = O ∨ share ≤ zlen (content s' (PReady d)))).
  { intros s1 Hp1 (cp1 & Hc1 & Hn1).
    destruct (IH s1 cp1) as (s' & n' & cp' & Hr & Hp' & Hc' & Hv' & Hn' & Hor); [apply Hp1|done| |done|done|].
    { eapply (lookup_cpu_len s); [apply Hp1|by eauto]. }
    exists s', n', cp'. split; [done|]. split; [by eapply pushed_trans|]. split_and!; (done || lia). }
  destruct (decide (t = c_curthread cp)) as [E|E].
  - rewrite bool_decide_eq_true_2 by done. apply Hgo; [by apply (rotate_pushed share s c d cp)|].
    eexists. cbn. rewrite list_lookup_alter_eq, Hc. split; [done|]. cbn. rewrite length_app. cbn in *. lia.
  - rewrite bool_decide_eq_false_2 by done.
    assert (Hs : ∃ b, (if c_isidle dp then ipi_send d IPI_UNIDLE (upd_cpu d (λ dp, set_runqueue (c_runqueue dp ++ [t]) dp)
        (upd_thread t (set_tcpu d) (upd_cpu c (set_victims vs) s)))
      else Some (upd_cpu d (λ dp, set_runqueue (c_runqueue dp ++ [t]) dp)
        (upd_thread t (set_tcpu d) (upd_cpu c (set_victims vs) s)))) = Some (sent c d t vs b s)).
    { assert (Hd1 : cpus (upd_thread t (set_tcpu d) (upd_cpu c (set_victims vs) s)) !! d = Some dp)
        by (cbn; by rewrite list_lookup_alter_ne).
      destruct (c_isidle dp).
      - unfold ipi_send. change ((0 <=? IPI_UNIDLE) && (IPI_UNIDLE <? 32)) with true. cbv iota.
        rewrite upd_cpu_compose. eexists. f_equal. by eapply upd_cpu_ext.
      - exists (c_ipi_pending dp). f_equal. eapply upd_cpu_ext; [done|]. by destruct dp. }
    destruct Hs as (b & ->). cbn [mbind option_bind].
    apply Hgo; [by apply (sent_pushed share s c d cp dp)|].
    eexists. cbn. rewrite list_lookup_alter_ne, list_lookup_alter_eq, Hc by done. split; [done|]. cbn in *. lia.
Qed.

(** The effect of all the pushes of the processor [c]. *)
Record spread (share : Z) (c : nat) (s s' : tsys) : Prop := {
  sd_inv : sched_inv s';
  sd_len : length (cpus s') = length (cpus s);
  sd_cur : ∀ e ep', cpus s' !! e = Some ep' → ∃ ep, cpus s !! e = Some ep ∧ c_curthread ep' = c_curthread ep;
  sd_own : content s' (PReady c) = content s (PReady c);
  sd_dom : ∀ u, is_Some (threads s' !! u) ↔ is_Some (threads s !! u);
  sd_share : ∀ e, e ≠ c → zlen (content s (PReady e)) ≤ zlen (content s' (PReady e)) ≤
    Z.max share (zlen (content s (PReady e)));
}.

Lemma spread_refl share c s : sched_inv s → spread share c s s.
Proof. intros Hi. split; try done; [by eauto|lia]. Qed.

Lemma pushed_spread share c d s1 s2 s3 :
  d ≠ c → pushed share c d s1 s2 → spread share c s2 s3 → spread share c s1 s3.
Proof.
  intros Hne [I1 L1 C1 O1 W1 D1 S1 G1] [I2 L2 C2 W2 D2 S2]. split; try done; try congruence.
  - intros e ep Hep. destruct (C2 e ep Hep) as (ep2 & Hep2 & ->). by apply C1.
  - intros u. by rewrite D2, D1.
  - intros e He. specialize (S2 e He). destruct (decide (e = d)) as [->|Hed]; [lia|].
    assert (Heq : content s2 (PReady e) = content s1 (PReady e)) by (cbn; by rewrite O1). rewrite Heq in S2. lia.
Qed.

Lemma push_all_run k share n c d s cp :
  sched_inv s → cpus s !! c = Some cp → (d + k = length (cpus s))%nat → (n ≤ length (victims cp))%nat →
  ∃ s', push_all k n share c d s = Some s' ∧ spread share c s s'.
Proof.
  revert n d s cp. induction k as [|k IH]; intros n d s cp Hi Hc Hk Hn; cbn [push_all].
  { exists s. split; [done|]. by apply spread_refl. }
  case_bool_decide; [exists s; split; [done|]; by apply spread_refl|].
  case_bool_decide as Hd; [by eapply IH; [| |lia|]|].
  destruct (push_victims_run share n c d s cp) as (s1 & n1 & cp1 & -> & Hp & Hc1 & Hv1 & _); try done.
  { apply lookup_lt_is_Some. lia. }
  cbn [mbind option_bind].
  destruct (IH n1 (S d) s1 cp1) as (s2 & -> & Hs2); try done; [apply Hp|rewrite (pu_len _ _ _ _ _ Hp); lia|].
  exists s2. split; [done|]. by eapply pushed_spread.
Qed.

(** The leftovers return. *)
Lemma return_loop_run c vs s cp :
  sched_inv s → cpus s !! c = Some cp → victims cp = vs →
  sched_inv (return_loop c vs s) ∧
  (∃ cp', cpus (return_loop c vs s) !! c = Some cp' ∧ victims cp' = [] ∧
     c_runqueue cp' = c_runqueue cp ++ vs ∧ c_curthread cp' = c_curthread cp ∧ c_isidle cp' = c_isidle cp) ∧
  (∀ d, d ≠ c → cpus (return_loop c vs s) !! d = cpus s !! d) ∧ threads (return_loop c vs s) = threads s.
Proof.
  revert s cp. induction vs as [|t vs IH]; intros s cp Hi Hc Hv; cbn [return_loop].
  { split; [done|]. split; [|done]. exists cp. by rewrite app_nil_r. }
  set (f := λ cp, set_victims vs (set_runqueue (c_runqueue cp ++ [t]) cp)).
  assert (Hmv : moved t (PVictim c) (PReady c) s (upd_cpu c f s)).
  { eapply local_moved; try done; [by right|cbn; by rewrite Hv|cbn; symmetry; apply Permutation_cons_append|].
    intros r Hr' H1 H2. by destruct r; cbn in *; simplify_eq. }
  assert (Hc1 : cpus (upd_cpu c f s) !! c = Some (f cp)) by (cbn; by rewrite list_lookup_alter_eq, Hc).
  destruct (IH (upd_cpu c f s) (f cp)) as (Hi' & (cp' & Hc' & Hv' & Hq' & Hcur' & Hid') & Hd' & Ht');
    [by eapply moved_inv|done|done|].
  split; [done|]. split.
  - exists cp'. cbn in Hq'. rewrite <- app_assoc in Hq'. by split_and!.
  - split; [|done]. intros d Hd. rewrite Hd' by done. cbn. by rewrite list_lookup_alter_ne.
Qed.

Lemma migration_run c counts s cp n :
  sched_inv s → cpus s !! c = Some cp → victims cp = [] → counts !! c = Some n →
  0 ≤ n ≤ zlen (c_runqueue cp) → 0 ≤ one_share counts →
  ∃ s', thread_consider_migration c counts s = Some s' ∧ sched_inv s' ∧
    length (cpus s') = length (cpus s) ∧ content s' (PVictim c) = [] ∧
    (∀ e ep', cpus s' !! e = Some ep' → ∃ ep, cpus s !! e = Some ep ∧ c_curthread ep' = c_curthread ep) ∧
    (∀ u, is_Some (threads s' !! u) ↔ is_Some (threads s !! u)) ∧
    (∀ e, e ≠ c → zlen (content s (PReady e)) ≤ zlen (content s' (PReady e)) ≤
       Z.max (one_share counts) (zlen (content s (PReady e)))) ∧
    (one_share counts ≤ n → one_share counts ≤ zlen (content s' (PReady c))).
Proof.
  intros Hi Hc Hvs Hn Hnr Hsh. unfold thread_consider_migration. rewrite Hn. cbn [mbind option_bind].
  destruct (Z.ltb_spec n (one_share counts)) as [Hlt|Hge].
  { exists s. split; [done|]. split; [done|]. split; [done|]. split; [cbn; by rewrite Hc|].
    split; [by eauto|]. split; [done|]. split; [lia|]. lia. }
  set (share := one_share counts) in *. set (k := Z.to_nat (n - share)).
  destruct (take_victims_run k c s cp Hi Hc) as
    (s1 & cp1 & -> & Hi1 & Hc1 & Hq1 & Hv1 & Hl1 & Hcur1 & Hlen1 & Hth1 & Hd1); [lia|].
  cbn [mbind option_bind]. rewrite Hvs, app_nil_r in Hv1.
  destruct (push_all_run (length (cpus s1)) share k c 0 s1 cp1) as (s2 & -> & Hs2); try done.
  { rewrite Hv1. lia. }
  cbn [mbind option_bind]. destruct (lookup_cpu_len s1 s2 c (sd_len _ _ _ _ Hs2)) as [cp2 Hc2]; [by eauto|].
  unfold return_victims. rewrite Hc2. cbn [mbind option_bind].
  destruct (return_loop_run c (victims cp2) s2 cp2) as
    (Hi3 & (cp3 & Hc3 & Hv3 & Hq3 & Hcur3 & _) & Hd3 & Ht3); try done; [apply Hs2|].
  set (s3 := return_loop c (victims cp2) s2) in *.
  assert (Hother : ∀ e, e ≠ c → content s1 (PReady e) = content s (PReady e) ∧
    content s3 (PReady e) = content s2 (PReady e)).
  { intros e He. cbn. by rewrite Hd1, Hd3. }
  exists s3. split; [done|]. split; [done|]. split.
  { assert (Hlen3 : length (cpus s3) = length (cpus s2)); [|rewrite Hlen3, (sd_len _ _ _ _ Hs2); lia].
    unfold s3. generalize (victims cp2) s2. intros l. clear. induction l as [|t l IH]; intros s; [done|].
    cbn [return_loop]. rewrite IH. cbn. apply length_alter. }
  split; [cbn; by rewrite Hc3|]. split.
  { intros e ep' He. destruct (decide (e = c)) as [->|Hec].
    - assert (ep' = cp3) as -> by congruence. destruct (sd_cur _ _ _ _ Hs2 c cp2 Hc2) as (x & Hx & Hcx).
      exists cp. split; [done|]. rewrite Hcur3, Hcx, <- Hcur1. congruence.
    - rewrite Hd3 in He by done. destruct (sd_cur _ _ _ _ Hs2 e ep' He) as (x & Hx & ->).
      rewrite Hd1 in Hx by done. by exists x. }
  split; [intros u; rewrite Ht3, (sd_dom _ _ _ _ Hs2), Hth1; done|]. split.
  - intros e He. destruct (Hother e He) as [E1 E3]. rewrite E3. pose proof (sd_share _ _ _ _ Hs2 e He) as Hb.
    by rewrite E1 in Hb.
  - intros _. cbn. rewrite Hc3, Hq3, length_app. pose proof (sd_own _ _ _ _ Hs2) as Ho. cbn in Ho.
    rewrite Hc2, Hc1 in Ho. rewrite Ho. apply (f_equal length) in Hq1. rewrite length_app, Hl1 in Hq1. lia.
Qed.

Lemma one_share_nonneg counts n c : counts !! c = Some n → 0 ≤ one_share counts.
Proof.
  intros Hc%lookup_lt_Some. unfold one_share, DIVROUNDUP. apply Z.div_pos; [|lia].
  apply Z.mod_pos_bound. lia.
Qed.

(** The pushes of a processor [c] that is not idle take threads from the front of its [victims], leave the order of the
    others, and put them on the run queues of other processors. *)
Record drained (c : nat) (s s' : tsys) (cp : cpu) (gone : list Z) (cp' : cpu) : Prop := {
  dr_cpu : cpus s' !! c = Some cp';
  dr_victims : victims cp = gone ++ victims cp';
  dr_queue : c_runqueue cp' = c_runqueue cp;
  dr_cur : c_curthread cp' = c_curthread cp ∧ c_isidle cp' = c_isidle cp;
  dr_gone : ∀ t, t ∈ gone → ∃ e, e ≠ c ∧ t ∈ content s' (PReady e);
  dr_others : ∀ e t, e ≠ c → t ∈ content s (PReady e) → t ∈ content s' (PReady e);
}.

Lemma drained_refl c s cp : cpus s !! c = Some cp → drained c s s cp [] cp.
Proof. intros Hc. split; try done. intros t Ht. by apply not_elem_of_nil in Ht. Qed.

Lemma drained_trans c s1 s2 s3 cp1 g1 cp2 g2 cp3 :
  drained c s1 s2 cp1 g1 cp2 → drained c s2 s3 cp2 g2 cp3 → drained c s1 s3 cp1 (g1 ++ g2) cp3.
Proof.
  intros [A1 A2 A3 [A4 A5] A6 A7] [B1 B2 B3 [B4 B5] B6 B7]. split; [done|by rewrite A2, B2, app_assoc|congruence|split; congruence| |].
  - intros t [Ht|Ht]%elem_of_app; [|by apply B6]. destruct (A6 t Ht) as (e & He & Hin). exists e. split; [done|by apply B7].
  - intros e t He Ht. by apply B7, A7.
Qed.

Lemma push_drained share n c d : ∀ s s' n' cp,
  d ≠ c → cpus s !! c = Some cp → c_curthread cp ∉ victims cp → push_victims n share c d s = Some (s', n') → ∃ gone cp', drained c s s' cp gone cp'.
Proof.
  induction n as [|n IH]; intros s s' n' cp Hne Hc Hcur; cbn [push_victims]; [intros [= <- _]; exists [], cp; by apply drained_refl|].
  destruct (cpus s !! d) as [dp|] eqn:Hd; [|done]. cbn [mbind option_bind]. destruct (_ <? share); [|intros [= <- _]; exists [], cp; by apply drained_refl].
  rewrite Hc. cbn [mbind option_bind]. destruct (victims cp) as [|t vs] eqn:Hv; [done|].
  apply not_elem_of_cons in Hcur as [Hcur Hvs]. rewrite bool_decide_eq_false_2 by congruence.
  set (s1 := upd_cpu d _ _). destruct (if c_isidle dp then _ else _) as [s2|] eqn:Hs2; [|done]. cbn [mbind option_bind]. intros Hrun.
  assert (Hs : ∃ b, s2 = sent c d t vs b s).
  { assert (Hd1 : cpus (upd_thread t (set_tcpu d) (upd_cpu c (set_victims vs) s)) !! d = Some dp) by (cbn; by rewrite list_lookup_alter_ne). destruct (c_isidle dp).
    - unfold ipi_send in Hs2. change ((0 <=? IPI_UNIDLE) && (IPI_UNIDLE <? 32)) with true in Hs2. cbv iota in Hs2. injection Hs2 as <-. unfold s1. rewrite upd_cpu_compose.
      eexists. unfold sent. by eapply upd_cpu_ext.
    - injection Hs2 as <-. exists (c_ipi_pending dp). unfold s1, sent. eapply upd_cpu_ext; [done|]. by destruct dp. }
  destruct Hs as (b & ->). assert (Hc1 : cpus (sent c d t vs b s) !! c = Some (set_victims vs cp)) by (cbn; by rewrite list_lookup_alter_ne, list_lookup_alter_eq, Hc).
  assert (Hq : content (sent c d t vs b s) (PReady d) = content s (PReady d) ++ [t]) by (cbn; rewrite list_lookup_alter_eq, list_lookup_alter_ne, Hd by done; done).
  destruct (IH _ _ _ (set_victims vs cp) Hne Hc1 Hvs Hrun) as (gone & cp' & Hdr). exists ([t] ++ gone), cp'. eapply drained_trans; [|exact Hdr].
  split; [done|by rewrite Hv|done|done| |].
  - intros u ->%list_elem_of_singleton. exists d. split; [done|]. rewrite Hq. set_solver.
  - intros e u He Hu. destruct (decide (e = d)) as [->|Hed]; [rewrite Hq; set_solver|]. cbn in Hu |- *. by rewrite list_lookup_alter_ne, list_lookup_alter_ne by done.
Qed.

Lemma push_all_drained share c : ∀ k n d s s' cp,
  cpus s !! c = Some cp → c_curthread cp ∉ victims cp → push_all k n share c d s = Some s' → ∃ gone cp', drained c s s' cp gone cp'.
Proof.
  induction k as [|k IH]; intros n d s s' cp Hc Hcur; cbn [push_all]; [intros [= <-]; exists [], cp; by apply drained_refl|].
  case_bool_decide; [intros [= <-]; exists [], cp; by apply drained_refl|]. case_bool_decide as Hd; [by apply IH|].
  destruct (push_victims n share c d s) as [[s1 n1]|] eqn:Hp; [|done]. cbn [mbind option_bind]. intros Hrun.
  destruct (push_drained share n c d s s1 n1 cp Hd Hc Hcur Hp) as (g1 & cp1 & D1). destruct (IH n1 (S d) s1 s' cp1 (dr_cpu _ _ _ _ _ _ D1)) as (g2 & cp2 & D2); [|done|].
  { rewrite (proj1 (dr_cur _ _ _ _ _ _ D1)). intros Hin. apply Hcur. rewrite (dr_victims _ _ _ _ _ _ D1). set_solver. }
  eexists _, cp2. by eapply drained_trans.
Qed.

Lemma take_idle n c : ∀ s s' cp cp', take_victims n c s = Some s' → cpus s !! c = Some cp → cpus s' !! c = Some cp' → c_isidle cp' = c_isidle cp.
Proof.
  induction n as [|n IH]; intros s s' cp cp'; cbn [take_victims]; [intros [= <-] H1 H2; congruence|].
  intros Hrun Hc Hc'. rewrite Hc in Hrun. cbn [mbind option_bind] in Hrun. destruct (reverse (c_runqueue cp)) as [|t q]; [done|].
  etrans; [eapply IH; [exact Hrun| |exact Hc']; cbn; rewrite list_lookup_alter_eq, Hc; reflexivity|done].
Qed.

(** A processor with a running thread migrates: the threads that stay keep their order, and those that go are on the run
    queues of other processors. *)
Lemma migration_order c counts s cp n :
  sched_inv s → cpus s !! c = Some cp → c_isidle cp = false → victims cp = [] → counts !! c = Some n → 0 ≤ n ≤ zlen (c_runqueue cp) →
  ∃ s' q gone q', thread_consider_migration c counts s = Some s' ∧ sched_inv s' ∧ content s' (PRun c) = content s (PRun c) ∧ content s' (PVictim c) = [] ∧
    content s (PReady c) = q ++ gone ++ q' ∧ content s' (PReady c) = q ++ q' ∧ ∀ t, t ∈ gone → ∃ e, e ≠ c ∧ t ∈ content s' (PReady e).
Proof.
  intros Hi Hc Hid Hvs Hn Hnr. destruct (migration_run c counts s cp n Hi Hc Hvs Hn Hnr (one_share_nonneg _ _ _ Hn)) as (s' & Hrun & Hi' & _ & Hv' & _).
  exists s'. pose proof Hrun as Hrun'. unfold thread_consider_migration in Hrun'. rewrite Hn in Hrun'. cbn [mbind option_bind] in Hrun'.
  destruct (Z.ltb_spec n (one_share counts)) as [Hlt|Hge].
  { injection Hrun' as ->. exists (content s' (PReady c)), [], []. rewrite !app_nil_r. split_and!; try done. set_solver. }
  pose proof (one_share_nonneg _ _ _ Hn) as Hsh. set (k := Z.to_nat _) in *. destruct (take_victims_run k c s cp Hi Hc) as (s1 & cp1 & Ht & Hi1 & Hc1 & Hq1 & Hv1 & Hl1 & Hcur1 & _ & _ & Hd1); [lia|].
  rewrite Ht in Hrun'. cbn [mbind option_bind] in Hrun'. rewrite Hvs, app_nil_r in Hv1. rewrite <- Hv1 in Hq1. pose proof (take_idle k c s s1 cp cp1 Ht Hc Hc1) as Hid1.
  destruct (push_all _ _ _ _ _ s1) as [s2|] eqn:Hp; [|done]. cbn [mbind option_bind] in Hrun'.
  destruct (push_all_drained (one_share counts) c (length (cpus s1)) k 0%nat s1 s2 cp1 Hc1) as (gone & cp2 & D); [|exact Hp|].
  { intros Hin. assert (E : PRun c = PReady c); [|done]. apply (si_unique _ Hi _ _ (c_curthread cp)); cbn; rewrite Hc; [rewrite Hid; set_solver|]. rewrite Hq1, <- Hcur1. set_solver. }
  destruct (dr_cur _ _ _ _ _ _ D) as [Hcur2 Hid2]. pose proof (dr_cpu _ _ _ _ _ _ D) as Hc2. unfold return_victims in Hrun'. rewrite Hc2 in Hrun'. cbn [mbind option_bind] in Hrun'. injection Hrun' as Hrun'.
  destruct (push_all_run (length (cpus s1)) (one_share counts) k c 0 s1 cp1 Hi1 Hc1) as (s2' & Hp' & Hs2); [done|rewrite Hv1; lia|]. rewrite Hp in Hp'. injection Hp' as <-.
  destruct (return_loop_run c (victims cp2) s2 cp2 (sd_inv _ _ _ _ Hs2) Hc2 eq_refl) as (_ & (cp3 & Hc3 & _ & Hq3 & Hcur3 & Hid3) & Hd3 & _). rewrite Hrun' in Hc3, Hd3.
  exists (c_runqueue cp1), gone, (victims cp2). split; [done|]. split; [done|]. split; [cbn; rewrite Hc, Hc3, Hid3, Hid2, Hid1, Hid; f_equal; congruence|]. split; [done|].
  split; [cbn; rewrite Hc, Hq1; by rewrite (dr_victims _ _ _ _ _ _ D)|]. split; [cbn; rewrite Hc3, Hq3; by rewrite (dr_queue _ _ _ _ _ _ D)|].
  intros t Hin. destruct (dr_gone _ _ _ _ _ _ D t Hin) as (e & He & Hte). exists e. split; [done|]. cbn in Hte |- *. by rewrite Hd3.
Qed.

(** ** Runs of the system *)

Definition no_threads : tsys := TSys [] ∅ ∅.

Lemma no_threads_inv : sched_inv no_threads.
Proof. split; try done; intros []; intros; cbn in *; first [by constructor|set_solver]. Qed.

Lemma cpu_create_run t kproc s :
  sched_inv s → threads s !! t = None → ∃ s', cpu_create (Some t) kproc s = Some s' ∧ sched_inv s'.
Proof.
  intros Hi Hnew. eexists. split; [done|]. destruct Hi as [Hst Hnd Huq Hpl Hcu Hcp].
  set (n := length (cpus s)). set (s' := TSys _ _ _).
  assert (Hcpu : ∀ c, cpus s' !! c = if decide (c = n) then Some (Cpu t false [] [] 0 []) else cpus s !! c).
  { intros c. cbn. case_decide as Hc; [subst; by apply list_lookup_middle|].
    destruct (decide (c < n)%nat); [by apply lookup_app_l|].
    rewrite (lookup_ge_None_2 (cpus s)), (lookup_ge_None_2 (_ ++ _)); [done|rewrite length_app; cbn|]; unfold n in *; lia. }
  assert (Hct : ∀ r, content s' r = if decide (r = PRun n) then [t] else content s r).
  { assert (Hnone : cpus s !! n = None) by (by apply lookup_ge_None_2).
    intros r. destruct r as [c|c|c|c|w]; cbn [content]; rewrite ?Hcpu; try done;
      (destruct (decide (c = n)) as [->|]; [rewrite ?Hnone|]); repeat case_decide; simplify_eq; done. }
  assert (Hno : ∀ r, t ∉ content s r) by (intros r Hr; destruct (Hst r t Hr) as (? & ? & _); congruence).
  split.
  - intros r u. rewrite Hct. case_decide as Hr.
    + intros ->%list_elem_of_singleton. subst r. eexists. cbn. rewrite lookup_insert_eq. by split; [|split; [right|]].
    + intros Hu. cbn. rewrite lookup_insert_ne; [by apply Hst|]. intros ->. by eapply Hno.
  - intros r. rewrite Hct. case_decide; [apply NoDup_singleton|done].
  - intros r1 r2 u. rewrite !Hct. repeat case_decide; subst; try done; try set_solver.
  - intros u th. cbn. rewrite lookup_insert_Some. intros [[<- <-]|[Hne Hu]].
    + exists (PRun n). rewrite Hct, decide_True by done. left.
    + destruct (Hpl u th Hu) as [r Hr]. exists r. rewrite Hct, decide_False; [done|]. intros ->.
      cbn in Hr. rewrite lookup_ge_None_2 in Hr by done. set_solver.
  - intros c cp. rewrite Hcpu. case_decide as Hc.
    + intros [= <-]. cbn. rewrite lookup_insert_eq. eexists. by split.
    + intros Hcp'. destruct (Hcu _ _ Hcp') as (th & Ht & Htc). exists th. split; [|done]. cbn.
      rewrite lookup_insert_ne; [done|]. intros ->. congruence.
  - intros u th. cbn [threads s']. rewrite lookup_insert_Some. intros [[<- <-]|[Hne Hu]].
    + cbn [t_cpu]. rewrite Hcpu, decide_True by done. done.
    + destruct (Hcp _ _ Hu) as [x Hx]. rewrite Hcpu. case_decide; eauto.
Qed.

(** The operations, with the processor that runs them; the three parts of a
    migration are separate, so that others can run in between. *)
Inductive sched_op :=
  | OpCpuCreate (t kproc : Z) | OpYield (c : nat) | OpSleep (c : nat) (w : Z) | OpExit (c : nat)
  | OpPick (c : nat) | OpFork (c : nat) (t : Z) (proc : option Z)
  | OpWakeone (c : nat) (w : Z) | OpWakeall (c : nat) (w : Z) | OpWchanCreate (w : Z) | OpWchanDestroy (w : Z)
  | OpTake (c n : nat) | OpPush (c d n : nat) (share : Z) | OpReturn (c : nat).

Definition sched_do (op : sched_op) (s : tsys) : option tsys :=
  match op with
  | OpCpuCreate t kproc => cpu_create (Some t) kproc s
  | OpYield c => thread_yield c s
  | OpSleep c w => wchan_sleep c w s
  | OpExit c => thread_exit c s
  | OpPick c => thread_pick c s
  | OpFork c t proc => fst <$> thread_fork c (Some t) proc s
  | OpWakeone c w => wchan_wakeone c w s
  | OpWakeall c w => wchan_wakeall c w s
  | OpWchanCreate w => Some (snd (wchan_create (Some w) s))
  | OpWchanDestroy w => wchan_destroy w s
  | OpTake c n => take_victims n c s
  | OpPush c d n share => fst <$> push_victims n share c d s
  | OpReturn c => return_victims c s
  end.

(** A processor that runs a thread, or is in the idle loop. *)
Definition runs (s : tsys) (c : nat) (idle : bool) : Prop :=
  ∃ cp, cpus s !! c = Some cp ∧ c_isidle cp = idle.

(** When an operation can happen. *)
Definition sched_enabled (op : sched_op) (s : tsys) : Prop :=
  match op with
  | OpCpuCreate t _ => threads s !! t = None
  | OpYield c => is_Some (cpus s !! c)
  | OpSleep c w => runs s c false ∧ is_Some (wchans s !! w)
  | OpExit c => runs s c false
  | OpPick c => runs s c true
  | OpFork c t _ => runs s c false ∧ threads s !! t = None
  | OpWakeone c w | OpWakeall c w => is_Some (wchans s !! w)
  | OpWchanCreate w => wchans s !! w = None
  | OpWchanDestroy w => wchans s !! w = Some []
  | OpTake c n => is_Some (cpus s !! c) ∧ (n ≤ length (content s (PReady c)))%nat
  | OpPush c d n _ => is_Some (cpus s !! c) ∧ is_Some (cpus s !! d) ∧ d ≠ c ∧
      (n ≤ length (content s (PVictim c)))%nat
  | OpReturn c => is_Some (cpus s !! c)
  end.

(** Wait channels that come and go. *)
Lemma wchan_inv s w l :
  sched_inv s → default [] (wchans s !! w) = [] →
  sched_inv (set_wchan w [] s) ∧ (wchans s !! w = Some l → sched_inv (TSys (cpus s) (threads s) (delete w (wchans s)))).
Proof.
  intros Hi Hw. split; [|intros Hl]; apply (permuted_inv s); try done; try (by eauto); intros r.
  - rewrite content_wchan. case_decide; [subst; cbn; by rewrite Hw|done].
  - destruct r as [c|c|c|c|w']; try done. cbn. destruct (decide (w = w')) as [->|].
    + by rewrite lookup_delete_eq, Hw.
    + by rewrite lookup_delete_ne.
Qed.

Lemma sched_do_run op s :
  sched_inv s → sched_enabled op s → ∃ s', sched_do op s = Some s' ∧ sched_inv s'.
Proof.
  intros Hi. destruct op as [t kproc|c|c w|c|c|c t proc|c w|c w|w|w|c n|c d n share|c]; cbn [sched_enabled sched_do].
  - intros Hnew. by apply cpu_create_run.
  - intros [cp Hc]. destruct (c_isidle cp) eqn:Hid; [rewrite (yield_idle s c cp) by done; by eauto|].
    destruct (c_runqueue cp) as [|x q] eqn:Hq; [rewrite (yield_alone s c cp) by done; by eauto|].
    destruct (yield_moved s c cp Hi Hc Hid) as (s' & -> & Hmv & _); [by rewrite Hq|].
    exists s'. split; [done|]. by eapply moved_inv.
  - intros [(cp & Hc & Hid) [l Hl]]. destruct (sleep_moved s c cp Hi Hc w l Hid Hl) as (s' & -> & Hmv & _).
    exists s'. split; [done|]. by eapply moved_inv.
  - intros (cp & Hc & Hid). destruct (zombie_moved s c cp Hi Hc Hid) as (s' & -> & Hmv & _).
    exists s'. split; [done|]. by eapply moved_inv.
  - intros (cp & Hc & Hid). destruct (c_runqueue cp) as [|x q] eqn:Hq.
    + exists s. split; [|done]. unfold thread_pick. rewrite Hc. cbn. by rewrite Hq.
    + destruct (pick_run s c cp x q Hi Hc Hid Hq) as (s' & -> & Hi' & _). by eauto.
  - intros [(cp & Hc & _) Hnew]. destruct (fork_run s c cp t proc Hi Hc Hnew) as (s' & -> & Hi' & _). by eexists.
  - intros [[|t l] Hl]; [unfold wchan_wakeone; rewrite Hl; by eexists|].
    destruct (wakeone_moved c w t l s Hi Hl) as (th & s' & _ & -> & Hmv & _).
    exists s'. split; [done|]. by eapply moved_inv.
  - intros [l Hl]. destruct (wakeall_run c w l s Hi Hl) as (s' & -> & Hi' & _). by eauto.
  - intros Hw. eexists. split; [done|]. apply (wchan_inv s w []); [done|by rewrite Hw].
  - intros Hw. unfold wchan_destroy. rewrite Hw. cbn. eexists. split; [done|].
    apply (wchan_inv s w []); [done|by rewrite Hw|done].
  - intros [[cp Hc] Hn]. cbn in Hn. rewrite Hc in Hn.
    destruct (take_victims_run n c s cp Hi Hc Hn) as (s' & cp' & -> & Hi' & _). by eauto.
  - intros ([cp Hc] & Hd & Hne & Hn). cbn in Hn. rewrite Hc in Hn.
    destruct (push_victims_run share n c d s cp Hi Hc Hd Hne Hn) as (s' & n' & cp' & -> & Hp & _).
    exists s'. split; [done|]. apply Hp.
  - intros [cp Hc]. unfold return_victims. rewrite Hc. cbn. eexists. split; [done|].
    by apply (return_loop_run c (victims cp) s cp).
Qed.

(** The states the system goes through. *)
Inductive sched_reach : tsys → Prop :=
  | sr_start : sched_reach no_threads
  | sr_step op s s' : sched_reach s → sched_enabled op s → sched_do op s = Some s' → sched_reach s'.

Lemma sched_reach_inv s : sched_reach s → sched_inv s.
Proof.
  induction 1 as [|op s s' _ IH Hen Hdo]; [apply no_threads_inv|].
  destruct (sched_do_run op s IH Hen) as (s'' & Hdo' & Hi). congruence.
Qed.

(** ** Turns *)

(** A running thread yields and the processor takes the next one: both steps of [thread_switch]. *)
Definition turn (c : nat) (s : tsys) : option tsys := s ← thread_yield c s; thread_pick c s.

Lemma turn_run c s cur t q :
  sched_inv s → content s (PRun c) = [cur] → content s (PReady c) = t :: q →
  ∃ s', turn c s = Some s' ∧ sched_inv s' ∧ content s' (PRun c) = [t] ∧ content s' (PReady c) = q ++ [cur] ∧
    content s' (PVictim c) = content s (PVictim c) ∧ ∀ e, e ≠ c → content s' (PReady e) = content s (PReady e).
Proof.
  intros Hi Hr Hq. cbn in Hr, Hq. destruct (cpus s !! c) as [cp|] eqn:Hc; [|done].
  destruct (c_isidle cp) eqn:Hid; [done|]. injection Hr as Hcur.
  unfold turn. destruct (yield_moved s c cp Hi Hc Hid) as (s1 & -> & Hmv & _ & cp1 & Hc1 & Hid1 & Hq1); [by rewrite Hq|].
  cbn [mbind option_bind]. rewrite Hq, Hcur in Hq1.
  destruct (pick_run s1 c cp1 t (q ++ [cur])) as (s2 & -> & Hi2 & Hrun & Hready & _ & Hoth & _ & Hvic); try done; [by eapply moved_inv|].
  exists s2. split_and!; try done.
  - rewrite Hvic. pose proof (mv_other _ _ _ _ _ Hmv (PVictim c) ltac:(done) ltac:(done)) as E. cbn in E. by rewrite Hc1 in E.
  - intros e He. pose proof (mv_other _ _ _ _ _ Hmv (PReady e) ltac:(congruence) ltac:(congruence)) as E. rewrite <- E. cbn. by rewrite Hoth.
Qed.

(** ** Claims *)

(** C6: the threads of the system.  However the processors interleave creation, sleep,
    wake-up, yielding, exit, the idle loop and the steps of migration: every
    thread is in exactly one place (running, on the run queue of its processor,
    in migration, on one wait channel, or a zombie of its processor), once and
    with the matching state; no two processors use the stack of the same
    thread, not even while idle; and no operation that can happen fails an
    assertion or follows a null pointer. *)
Theorem threads_in_one_place s :
  sched_reach s →
  (∀ t th, threads s !! t = Some th →
     ∃ p, t ∈ content s p ∧ place_ok p th ∧ NoDup (content s p) ∧ ∀ q, t ∈ content s q → q = p) ∧
  (∀ p t, t ∈ content s p → is_Some (threads s !! t)) ∧
  (∀ c d cp dp, cpus s !! c = Some cp → cpus s !! d = Some dp → c_curthread cp = c_curthread dp → c = d) ∧
  (∀ op, sched_enabled op s → is_Some (sched_do op s)).
Proof.
  intros Hi%sched_reach_inv. split; [|split; [|split]].
  - intros t th Ht. destruct (si_placed _ Hi t th Ht) as [p Hp]. exists p.
    destruct (si_state _ Hi p t Hp) as (th' & Ht' & Hok). assert (th' = th) as -> by congruence.
    split_and!; try done; [apply Hi|]. intros q Hq. by apply (si_unique _ Hi q p t).
  - intros p t Hp. destruct (si_state _ Hi p t Hp) as (th & -> & _). done.
  - intros c d cp dp Hc Hd He. destruct (si_cur _ Hi _ _ Hc) as (th & Ht & <-).
    destruct (si_cur _ Hi _ _ Hd) as (th' & Ht' & <-). rewrite He in Ht. by simplify_eq.
  - intros op Hen. destruct (sched_do_run op s Hi Hen) as (s' & -> & _). done.
Qed.

(** Two processors; the second thread sleeps and is woken by the first while its
    processor is idle. *)
Definition demo_sched : list sched_op :=
  [OpCpuCreate 1 0; OpCpuCreate 2 0; OpWchanCreate 50; OpSleep 1 50; OpPick 1; OpFork 0 3 None; OpWakeone 0 50].

Fixpoint sched_dos (ops : list sched_op) (s : tsys) : option tsys :=
  match ops with [] => Some s | op :: ops' => s ← sched_do op s; sched_dos ops' s end.

Lemma threads_in_one_place_witness :
  ∃ s, sched_dos demo_sched no_threads = Some s ∧ content s (PReady 1) = [2] ∧
    ∀ op, sched_enabled op s → is_Some (sched_do op s).
Proof.
  eexists. split; [vm_compute; reflexivity|]. split; [vm_compute; reflexivity|].
  apply threads_in_one_place.
  eapply (sr_step (OpWakeone 0 50)).
  { eapply (sr_step (OpFork 0 3 None)).
    { eapply (sr_step (OpPick 1)).
      { eapply (sr_step (OpSleep 1 50)).
        { eapply (sr_step (OpWchanCreate 50)).
          { eapply (sr_step (OpCpuCreate 2 0)).
            { eapply (sr_step (OpCpuCreate 1 0)); [apply sr_start|reflexivity|reflexivity]. }
            { reflexivity. }
            { reflexivity. } }
          { reflexivity. }
          { reflexivity. } }
        { split; [eexists; split; reflexivity|eexists; reflexivity]. }
        { reflexivity. } }
      { eexists; split; reflexivity. }
      { reflexivity. } }
    { split; [eexists; split; reflexivity|reflexivity]. }
    { reflexivity. } }
  { eexists; reflexivity. }
  { vm_compute. reflexivity. }
Defined.

(** C23: migration.  With the queue lengths as it read them, [thread_consider_migration]
    returns with no thread lost or left in its local list; no processor changes
    the thread it runs, so the thread whose stack is in use never moves; the
    other run queues do not shrink and grow to the fair share at most, and the
    processor keeps at least its own share. *)
Theorem migration_balances s c cp counts n :
  sched_reach s → cpus s !! c = Some cp → victims cp = [] → counts !! c = Some n →
  0 ≤ n ≤ zlen (c_runqueue cp) →
  ∃ s', thread_consider_migration c counts s = Some s' ∧ sched_inv s' ∧ content s' (PVictim c) = [] ∧
    (∀ e ep', cpus s' !! e = Some ep' → ∃ ep, cpus s !! e = Some ep ∧ c_curthread ep' = c_curthread ep) ∧
    (∀ u, is_Some (threads s' !! u) ↔ is_Some (threads s !! u)) ∧
    (∀ e, e ≠ c → zlen (content s (PReady e)) ≤ zlen (content s' (PReady e)) ≤
       Z.max (one_share counts) (zlen (content s (PReady e)))) ∧
    (one_share counts ≤ n → one_share counts ≤ zlen (content s' (PReady c))).
Proof.
  intros Hi%sched_reach_inv Hc Hv Hn Hr.
  destruct (migration_run c counts s cp n Hi Hc Hv Hn Hr (one_share_nonneg _ _ _ Hn))
    as (s' & H1 & H2 & _ & H3 & H4 & H5 & H6 & H7).
  exists s'. by split_and!.
Qed.

(** One processor with two more threads, another with none waiting. *)
Lemma migration_balances_witness :
  ∃ s s', sched_dos [OpCpuCreate 1 0; OpCpuCreate 2 0; OpFork 0 3 None; OpFork 0 4 None] no_threads = Some s ∧
    thread_consider_migration 0 [2; 0] s = Some s' ∧ zlen (content s' (PReady 1)) ≤ 1.
Proof.
  assert (Hr : sched_reach (TSys [Cpu 1 false [3; 4] [] 0 []; Cpu 2 false [] [] 0 []]
    (<[4 := Thread S_READY 0 (Some 0)]> (<[3 := Thread S_READY 0 (Some 0)]>
      (<[2 := Thread S_READY 1 (Some 0)]> (<[1 := Thread S_READY 0 (Some 0)]> ∅)))) ∅)).
  { eapply (sr_step (OpFork 0 4 None)).
    { eapply (sr_step (OpFork 0 3 None)).
      { eapply (sr_step (OpCpuCreate 2 0)).
        { eapply (sr_step (OpCpuCreate 1 0)); [apply sr_start|reflexivity|reflexivity]. }
        { reflexivity. }
        { reflexivity. } }
      { split; [eexists; split; reflexivity|reflexivity]. }
      { reflexivity. } }
    { split; [eexists; split; reflexivity|reflexivity]. }
    { vm_compute. reflexivity. } }
  destruct (migration_balances _ 0 (Cpu 1 false [3; 4] [] 0 []) [2; 0] 2 Hr eq_refl eq_refl eq_refl ltac:(cbn; lia))
    as (s' & Hrun & _ & _ & _ & _ & Hsh & _).
  eexists. exists s'. split; [vm_compute; reflexivity|]. split; [exact Hrun|].
  destruct (Hsh 1%nat ltac:(discriminate)) as [_ Hb]. exact Hb.
Defined.
