(* ===== verification/Spinlock.v ===== *)
(** * Spinlock: kern/thread/spl.c and kern/thread/spinlock.c on several processors

    The interrupt level of a thread ([t_curspl], [t_iplhigh_count]) with the
    interrupt flag of its processor, and a spinlock contended by any number of
    processors.  [spinlock_acquire] and [spinlock_release] are sequences of
    steps, one for each access to the lock that other processors can see; the
    steps of the processors interleave, and each processor may change its
    interrupt level in between.  [spinlock_data_testandset] may fail
    although the lock is free, as the store-conditional instruction may.

    The processors run ([CURCPU_EXISTS]); before that, there is one processor
    and its interrupts are off. *)

From Stdlib Require Import ZArith Lia.
From stdpp Require Import base list list_numbers sets.
From S2P Require Import Prelude.
Set Default Goal Selector "!".
Open Scope Z_scope.

(** ** Interrupt levels *)

Definition IPL_NONE : Z := 0.
Definition IPL_HIGH : Z := 1.

Record splstate := Spl {
  curcpu_exists : bool;
  t_curspl : Z;
  t_iplhigh_count : Z;
  irq_on : bool;
}.

(** [None] is a failed assertion. *)
Definition splraise (oldspl newspl : Z) (s : splstate) : option splstate :=
  if negb (oldspl =? IPL_NONE) then None
  else if negb (newspl =? IPL_HIGH) then None
  else if negb (curcpu_exists s) then Some s
  else
    let irq := if t_iplhigh_count s =? 0 then false else irq_on s in
    Some (Spl true (t_curspl s) (t_iplhigh_count s + 1) irq).

Definition spllower (oldspl newspl : Z) (s : splstate) : option splstate :=
  if negb (oldspl =? IPL_HIGH) then None
  else if negb (newspl =? IPL_NONE) then None
  else if negb (curcpu_exists s) then Some s
  else
    let count := t_iplhigh_count s - 1 in
    Some (Spl true (t_curspl s) count (if count =? 0 then true else irq_on s)).

Definition set_curspl (spl : Z) (s : splstate) : splstate :=
  Spl (curcpu_exists s) spl (t_iplhigh_count s) (irq_on s).

(** The old level and the state. *)
Definition splx (spl : Z) (s : splstate) : option (Z * splstate) :=
  if negb (curcpu_exists s) then Some (spl, s)
  else if t_curspl s <? spl then
    s' ← splraise (t_curspl s) spl s;
    let ret := t_curspl s' in
    Some (ret, set_curspl spl s')
  else if spl <? t_curspl s then
    let ret := t_curspl s in
    s' ← spllower ret spl (set_curspl spl s);
    Some (ret, s')
  else Some (spl, s).

Arguments splraise : simpl never.
Arguments spllower : simpl never.
Arguments splx : simpl never.

(** What a thread does to its level: take or drop a spinlock, set the level. *)
Inductive spl_op := OpRaise | OpLower | OpSplx (spl : Z).

Definition spl_do (op : spl_op) (s : splstate) : option splstate :=
  match op with
  | OpRaise => splraise IPL_NONE IPL_HIGH s
  | OpLower => spllower IPL_HIGH IPL_NONE s
  | OpSplx spl => snd <$> splx spl s
  end.

(** [n] spinlocks are held. *)
Record spl_wf (n : Z) (s : splstate) : Prop := {
  sw_exists : curcpu_exists s = true;
  sw_level : t_curspl s = IPL_NONE ∨ t_curspl s = IPL_HIGH;
  sw_count : t_iplhigh_count s = n + t_curspl s;
  sw_irq : irq_on s = (t_iplhigh_count s =? 0);
  sw_held : 0 ≤ n;
}.

(** The spinlocks held after an operation, if it is allowed. *)
Definition spl_held (op : spl_op) (n : Z) : option Z :=
  match op with
  | OpRaise => Some (n + 1)
  | OpLower => if 0 <? n then Some (n - 1) else None
  | OpSplx spl => if (spl =? IPL_NONE) || (spl =? IPL_HIGH) then Some n else None
  end.

Lemma raise_wf n s :
  spl_wf n s → splraise IPL_NONE IPL_HIGH s = Some (Spl true (t_curspl s) (t_iplhigh_count s + 1) false) ∧
    spl_wf (n + 1) (Spl true (t_curspl s) (t_iplhigh_count s + 1) false).
Proof.
  intros [He Hl Hc Hi Hn]. unfold splraise. cbn. rewrite He. cbn. split.
  - rewrite Hi. by destruct (_ =? 0).
  - unfold IPL_NONE, IPL_HIGH in *. split; cbn; [done|done|lia| |lia]. symmetry. apply Z.eqb_neq. lia.
Qed.

Lemma lower_wf n s :
  spl_wf n s → 0 < n →
  let s' := Spl true (t_curspl s) (t_iplhigh_count s - 1) (t_iplhigh_count s - 1 =? 0) in
  spllower IPL_HIGH IPL_NONE s = Some s' ∧ spl_wf (n - 1) s'.
Proof.
  intros [He Hl Hc Hi Hn] Hpos s'. unfold spllower. cbn. rewrite He. cbn. unfold IPL_NONE, IPL_HIGH in *. split.
  - rewrite Hi, (proj2 (Z.eqb_neq (t_iplhigh_count s) 0)) by lia. subst s'. by destruct (_ - 1 =? 0).
  - split; cbn; [done|done|lia|done|lia].
Qed.

Lemma splx_wf n s spl :
  spl_wf n s → spl = IPL_NONE ∨ spl = IPL_HIGH →
  ∃ s', splx spl s = Some (t_curspl s, s') ∧ t_curspl s' = spl ∧ spl_wf n s'.
Proof.
  intros Hw Hs. pose proof Hw as [He Hl Hc Hi Hn]. unfold splx. rewrite He. cbn.
  unfold IPL_NONE, IPL_HIGH in *.
  destruct Hs as [-> | ->], Hl as [Hl|Hl]; rewrite Hl; cbn.
  - by exists s.
  - unfold spllower. cbn. rewrite He. cbn. eexists. split; [reflexivity|]. split; [done|].
    split; cbn; [done|by left|unfold IPL_NONE; lia| |lia].
    rewrite Hi, (proj2 (Z.eqb_neq (t_iplhigh_count s) 0)) by lia. by destruct (_ - 1 =? 0).
  - unfold splraise. cbn. rewrite He. cbn. rewrite Hl. eexists. split; [reflexivity|]. split; [done|].
    split; cbn; [done|by right|unfold IPL_HIGH; lia| |lia].
    rewrite Hi, (proj2 (Z.eqb_neq (t_iplhigh_count s + 1) 0)) by lia. by destruct (_ =? 0).
  - by exists s.
Qed.

Lemma spl_do_run op n n' s :
  spl_wf n s → spl_held op n = Some n' → ∃ s', spl_do op s = Some s' ∧ spl_wf n' s'.
Proof.
  intros Hw Hop. destruct op as [| |spl]; cbn in Hop.
  - injection Hop as <-. destruct (raise_wf n s Hw). eauto.
  - destruct (Z.ltb_spec 0 n); [|done]. injection Hop as <-. destruct (lower_wf n s Hw); eauto.
  - destruct (_ || _) eqn:Hs; [|done]. injection Hop as <-.
    destruct (splx_wf n s spl Hw) as (s' & Hr & _ & Hw').
    + apply orb_prop in Hs as [?%Z.eqb_eq|?%Z.eqb_eq]; auto.
    + exists s'. cbn. by rewrite Hr.
Qed.

Fixpoint spl_dos (ops : list spl_op) (s : splstate) : option splstate :=
  match ops with [] => Some s | op :: ops' => s ← spl_do op s; spl_dos ops' s end.

Fixpoint spl_helds (ops : list spl_op) (n : Z) : option Z :=
  match ops with [] => Some n | op :: ops' => n ← spl_held op n; spl_helds ops' n end.

(** ** The lock *)

(** Where a processor is in [spinlock_acquire] and [spinlock_release]:
    outside, before the plain read, before the test-and-set, before the holder is
    recorded, inside, and between clearing the holder and the lock word. *)
Inductive spc := SOut | STest | STas | SGot | SIn | SClear.

#[global] Instance spc_eq_dec : EqDecision spc.
Proof. solve_decision. Defined.

(** A processor: where it is, [c_spinlocks], and the interrupt state of its thread. *)
Record pcpu := Pcpu { c_pc : spc; c_spinlocks : Z; c_spl : splstate }.

Record slock := Slock {
  splk_lock : Z;
  splk_holder : option nat;
  cpus : list pcpu;
}.

Definition set_pc (c : nat) (p : pcpu) (s : slock) : slock :=
  Slock (splk_lock s) (splk_holder s) (<[c := p]> (cpus s)).

(** The lock is initialised and the processors run with interrupts on. *)
Definition spinlock_init (n : nat) : slock :=
  Slock 0 None (replicate n (Pcpu SOut 0 (Spl true IPL_NONE 0 true))).

(** [spinlock_cleanup]: does it pass its assertions? *)
Definition spinlock_cleanup (s : slock) : bool :=
  bool_decide (splk_holder s = None) && (splk_lock s =? 0).

(** One step of the processor [c]; [sc] says whether the store-conditional
    succeeds.  [None] is a failed assertion or the deadlock panic. *)
Definition slock_step (c : nat) (sc : bool) (s : slock) : option slock :=
  p ← cpus s !! c;
  let at_pc pc := Pcpu pc (c_spinlocks p) (c_spl p) in
  match c_pc p with
  | SOut =>
      spl ← splraise IPL_NONE IPL_HIGH (c_spl p);
      if bool_decide (splk_holder s = Some c) then None
      else Some (set_pc c (Pcpu STest (c_spinlocks p + 1) spl) s)
  | STest => if negb (splk_lock s =? 0) then Some s else Some (set_pc c (at_pc STas) s)
  | STas =>
      if negb sc then Some (set_pc c (at_pc STest) s)
      else if negb (splk_lock s =? 0) then Some (Slock 1 (splk_holder s) (<[c := at_pc STest]> (cpus s)))
      else Some (Slock 1 (splk_holder s) (<[c := at_pc SGot]> (cpus s)))
  | SGot => Some (Slock (splk_lock s) (Some c) (<[c := at_pc SIn]> (cpus s)))
  | SIn =>
      if negb (bool_decide (splk_holder s = Some c)) then None
      else if negb (0 <? c_spinlocks p) then None
      else Some (Slock (splk_lock s) None (<[c := Pcpu SClear (c_spinlocks p - 1) (c_spl p)]> (cpus s)))
  | SClear =>
      spl ← spllower IPL_HIGH IPL_NONE (c_spl p);
      Some (Slock 0 (splk_holder s) (<[c := Pcpu SOut (c_spinlocks p) spl]> (cpus s)))
  end.

(** What the processor [c] may do next: a step of the lock, or [splx], which it
    can call only outside of the two functions. *)
Inductive sact := ALock (c : nat) (sc : bool) | ASplx (c : nat) (spl : Z).

Definition slock_act (a : sact) (s : slock) : option slock :=
  match a with
  | ALock c sc => slock_step c sc s
  | ASplx c spl =>
      p ← cpus s !! c;
      match c_pc p with
      | SOut | SIn => '(_, spl') ← splx spl (c_spl p); Some (set_pc c (Pcpu (c_pc p) (c_spinlocks p) spl') s)
      | _ => Some s
      end
  end.

Fixpoint slock_acts (l : list sact) (s : slock) : option slock :=
  match l with [] => Some s | a :: l' => s ← slock_act a s; slock_acts l' s end.

(** The act names one of the [n] processors, and a level. *)
Definition sact_ok (n : nat) (a : sact) : Prop :=
  match a with
  | ALock c _ => (c < n)%nat
  | ASplx c spl => (c < n)%nat ∧ (spl = IPL_NONE ∨ spl = IPL_HIGH)
  end.

Definition spinlock_do_i_hold (c : nat) (s : slock) : bool := bool_decide (splk_holder s = Some c).

(** A processor owns the lock from the test-and-set to the store of zero. *)
Definition owns (pc : spc) : bool := match pc with SGot | SIn | SClear => true | _ => false end.

(** Spinlocks counted in [c_spinlocks], and levels raised for them. *)
Definition counted (pc : spc) : Z := match pc with SOut | SClear => 0 | _ => 1 end.
Definition raised (pc : spc) : Z := match pc with SOut => 0 | _ => 1 end.

Record pcpu_wf (p : pcpu) : Prop := {
  pw_count : c_spinlocks p = counted (c_pc p);
  pw_spl : spl_wf (raised (c_pc p)) (c_spl p);
}.

Record slock_inv (s : slock) : Prop := {
  sl_word : splk_lock s = if existsb (λ p, owns (c_pc p)) (cpus s) then 1 else 0;
  sl_one : ∀ c d p q, cpus s !! c = Some p → cpus s !! d = Some q →
    owns (c_pc p) = true → owns (c_pc q) = true → c = d;
  sl_holder : ∀ c, splk_holder s = Some c ↔ ∃ p, cpus s !! c = Some p ∧ c_pc p = SIn;
  sl_cpus : ∀ c p, cpus s !! c = Some p → pcpu_wf p;
}.

Lemma existsb_owns l :
  existsb (λ p, owns (c_pc p)) l = true ↔ ∃ c p, l !! c = Some p ∧ owns (c_pc p) = true.
Proof.
  rewrite existsb_exists. split.
  - intros (pc & [c Hc]%list_elem_of_In%list_elem_of_lookup & Ho). by exists c, pc.
  - intros (c & pc & Hc & Ho). exists pc. split; [|done]. by eapply list_elem_of_In, list_elem_of_lookup_2.
Qed.

(** The invariant after the processor [c] has moved from [p] to [p'], with the
    lock word and the holder that go with it. *)
Lemma slock_move s c p p' w h :
  slock_inv s → cpus s !! c = Some p → pcpu_wf p' →
  (owns (c_pc p) = false → owns (c_pc p') = true → splk_lock s = 0) →
  w = (if owns (c_pc p') then 1 else if owns (c_pc p) then 0 else splk_lock s) →
  h = (if decide (c_pc p' = SIn) then Some c else if decide (c_pc p = SIn) then None else splk_holder s) →
  slock_inv (Slock w h (<[c := p']> (cpus s))).
Proof.
  intros [Hw Ho Hh Hc] Hp Hp' Hfree -> ->.
  pose proof (lookup_lt_Some _ _ _ Hp) as Hlt.
  assert (Hothers : owns (c_pc p') = true → ∀ d q, d ≠ c → cpus s !! d = Some q → owns (c_pc q) = false).
  { intros Hown d q Hd Hq. destruct (owns (c_pc q)) eqn:Hoq; [|done]. exfalso.
    destruct (owns (c_pc p)) eqn:Hop; [exact (Hd (Ho _ _ _ _ Hq Hp Hoq Hop))|].
    specialize (Hfree eq_refl Hown). rewrite Hw in Hfree.
    assert (existsb (λ p, owns (c_pc p)) (cpus s) = true) as E; [|by rewrite E in Hfree].
    apply existsb_owns. eauto. }
  assert (Hlk : ∀ d q, <[c := p']> (cpus s) !! d = Some q ↔ (d = c ∧ q = p') ∨ (d ≠ c ∧ cpus s !! d = Some q)).
  { intros d q. rewrite list_lookup_insert_Some. naive_solver. }
  split; cbn.
  - destruct (owns (c_pc p')) eqn:Hop'.
    { rewrite (proj2 (existsb_owns _)); [done|]. exists c, p'. split; [|done]. apply Hlk. auto. }
    destruct (existsb _ (<[c := p']> _)) eqn:E.
    + apply existsb_owns in E as (d & q & [[-> ->]|[Hd Hq]]%Hlk & Hoq); [congruence|].
      destruct (owns (c_pc p)) eqn:Hop; [by destruct Hd; eapply Ho|].
      rewrite Hw, (proj2 (existsb_owns _)); [done|]. eauto.
    + destruct (owns (c_pc p)) eqn:Hop; [done|]. rewrite Hw.
      destruct (existsb _ (cpus s)) eqn:E'; [|done]. apply existsb_owns in E' as (d & q & Hq & Hoq).
      exfalso. apply not_true_iff_false in E as []. apply existsb_owns.
      exists d, q. split; [|done]. apply Hlk. destruct (decide (d = c)) as [->|]; [|auto]. congruence.
  - intros d e q r [[-> ->]|[Hd Hq]]%Hlk [[-> ->]|[He Hr]]%Hlk Hoq Hor; [done| | |by eapply Ho].
    + specialize (Hothers Hoq e r He Hr). congruence.
    + specialize (Hothers Hor d q Hd Hq). congruence.
  - intros d. destruct (decide (c_pc p' = SIn)) as [Hin|Hin].
    + split; [intros [= <-]; exists p'; split; [apply Hlk; auto|done]|].
      intros (q & [[-> ->]|[Hd Hq]]%Hlk & Hqin); [done|].
      assert (owns (c_pc p') = true) as Hown by (by rewrite Hin).
      specialize (Hothers Hown d q Hd Hq). by rewrite Hqin in Hothers.
    + assert (Hd : (∃ q, <[c := p']> (cpus s) !! d = Some q ∧ c_pc q = SIn) ↔ d ≠ c ∧ splk_holder s = Some d).
      { rewrite Hh. split.
        - intros (q & [[-> ->]|[Hd Hq]]%Hlk & Hqin); [done|eauto].
        - intros [Hd (q & Hq & Hqin)]. exists q. split; [apply Hlk; auto|done]. }
      rewrite Hd. destruct (decide (c_pc p = SIn)) as [Hpin|Hpin].
      * assert (splk_holder s = Some c) as -> by (apply Hh; eauto). naive_solver.
      * split; [|tauto]. intros Hs. split; [|done]. intros ->. apply Hh in Hs as (q & Hq & Hqin). congruence.
  - intros d q [[-> ->]|[_ Hq]]%Hlk; eauto.
Qed.

Ltac smove := match goal with Hp : cpus _ !! _ = Some _ |- _ =>
  eapply (slock_move _ _ _ _ _ _ ltac:(eassumption) Hp); cbn; eauto end.

(** Every step of every processor succeeds and keeps the invariant. *)
Lemma slock_step_run s c sc :
  slock_inv s → (c < length (cpus s))%nat →
  ∃ s', slock_step c sc s = Some s' ∧ slock_inv s' ∧ length (cpus s') = length (cpus s).
Proof.
  intros Hinv Hlt. destruct (lookup_lt_is_Some_2 (cpus s) c Hlt) as [p Hp].
  pose proof Hinv as [Hw Ho Hh Hcs]. destruct (Hcs c p Hp) as [Hn Hs].
  assert (Hsame : ∀ pc, counted pc = counted (c_pc p) → raised pc = raised (c_pc p) →
    pcpu_wf (Pcpu pc (c_spinlocks p) (c_spl p))).
  { intros pc E1 E2. split; cbn; [by rewrite E1|by rewrite E2]. }
  assert (Hword : (splk_lock s =? 0) = true → splk_lock s = 0) by lia.
  unfold slock_step. rewrite Hp. cbn. destruct (c_pc p) eqn:Hpc; cbn in Hn, Hs.
  - destruct (raise_wf _ _ Hs) as [-> Hs']. cbn. rewrite bool_decide_eq_false_2.
    2: { intros (q & Hq & Hin)%Hh. congruence. }
    eexists. split; [reflexivity|]. split; [|cbn; by rewrite length_insert].
    smove; rewrite ?Hpc; cbn; try done. split; cbn; [lia|done].
  - destruct (splk_lock s =? 0) eqn:E; cbn; eexists; (split; [reflexivity|]); [|done].
    split; [|cbn; by rewrite length_insert]. smove; rewrite ?Hpc; cbn; try done; by apply Hsame.
  - destruct sc; cbn; [destruct (splk_lock s =? 0) eqn:E; cbn|]; eexists; (split; [reflexivity|]);
      (split; [|cbn; by rewrite length_insert]); smove; rewrite ?Hpc; cbn; try done; auto.
    rewrite Hw. rewrite Hw in E. by destruct (existsb _ _).
  - eexists. split; [reflexivity|]. split; [|cbn; by rewrite length_insert].
    smove; rewrite ?Hpc; cbn; try done; auto.
    rewrite Hw, (proj2 (existsb_owns _)); [done|]. exists c, p. by rewrite Hpc.
  - rewrite bool_decide_eq_true_2 by (apply Hh; eauto). cbn. rewrite Hn. cbn.
    eexists. split; [reflexivity|]. split; [|cbn; by rewrite length_insert].
    smove; rewrite ?Hpc; cbn; try done; try (split; cbn; [lia|done]).
    rewrite Hw, (proj2 (existsb_owns _)); [done|]. exists c, p. by rewrite Hpc.
  - destruct (lower_wf _ _ Hs ltac:(lia)) as [-> Hs']. cbn. eexists. split; [reflexivity|].
    split; [|cbn; by rewrite length_insert]. smove; rewrite ?Hpc; cbn; try done.
Qed.

Lemma slock_act_run s a :
  slock_inv s → sact_ok (length (cpus s)) a →
  ∃ s', slock_act a s = Some s' ∧ slock_inv s' ∧ length (cpus s') = length (cpus s).
Proof.
  intros Hinv. destruct a as [c sc|c spl]; cbn; [by apply slock_step_run|]. intros [Hlt Hspl].
  destruct (lookup_lt_is_Some_2 (cpus s) c Hlt) as [p Hp]. rewrite Hp. cbn.
  destruct (sl_cpus _ Hinv c p Hp) as [Hn Hs]. destruct (splx_wf _ _ _ Hs Hspl) as (s' & Hr & _ & Hs').
  assert (Hm : slock_inv (set_pc c (Pcpu (c_pc p) (c_spinlocks p) s') s)).
  { smove; [by split|congruence| |].
    - rewrite (sl_word _ Hinv). destruct (owns (c_pc p)) eqn:E; [|done].
      rewrite (proj2 (existsb_owns _)); [done|]. eauto.
    - destruct (decide (c_pc p = SIn)); [|done]. apply (sl_holder _ Hinv). eauto. }
  destruct (c_pc p) eqn:Hpc; try (exists s; done);
    rewrite Hr; cbn; eexists; (split; [reflexivity|]); (split; [done|cbn; by rewrite length_insert]).
Qed.

Lemma slock_init_inv n : slock_inv (spinlock_init n).
Proof.
  assert (Hr : ∀ c p, cpus (spinlock_init n) !! c = Some p → p = Pcpu SOut 0 (Spl true IPL_NONE 0 true)).
  { intros c p [-> _]%lookup_replicate_1. done. }
  split.
  - destruct (existsb _ _) eqn:E; [|done]. apply existsb_owns in E as (c & p & ->%Hr & E). done.
  - by intros c d p q ->%Hr.
  - intros c. split; [done|]. by intros (p & ->%Hr & E).
  - intros c p ->%Hr. split; [done|]. split; cbn; auto; done.
Qed.

Lemma slock_acts_run l s :
  slock_inv s → Forall (sact_ok (length (cpus s))) l →
  ∃ s', slock_acts l s = Some s' ∧ slock_inv s' ∧ length (cpus s') = length (cpus s).
Proof.
  revert s. induction l as [|a l IH]; intros s Hinv Hl; [by exists s|].
  apply Forall_cons in Hl as [Ha Hl]. destruct (slock_act_run s a Hinv Ha) as (s1 & Hs1 & Hinv1 & Hlen).
  cbn. rewrite Hs1. cbn. rewrite <- Hlen in Hl. destruct (IH s1 Hinv1 Hl) as (s2 & ? & ? & ?).
  exists s2. split; [done|]. split; [done|congruence].
Qed.

Lemma spl_dos_run ops n n' s :
  spl_wf n s → spl_helds ops n = Some n' → ∃ s', spl_dos ops s = Some s' ∧ spl_wf n' s'.
Proof.
  revert n s. induction ops as [|op ops IH]; intros n s Hw Hh; cbn in Hh.
  - injection Hh as <-. by exists s.
  - destruct (spl_held op n) as [n1|] eqn:E; [|done]. cbn in Hh.
    destruct (spl_do_run op n n1 s Hw E) as (s1 & Hs1 & Hw1).
    destruct (IH n1 s1 Hw1 Hh) as (s2 & Hs2 & Hw2). exists s2. cbn. by rewrite Hs1.
Qed.

(** ** Properties *)

(** A thread that holds [n] spinlocks and takes spinlocks, drops spinlocks it
    holds and sets its level with [splx], in any order and without nesting, fails
    no assertion, and afterwards interrupts are on exactly when it holds no
    spinlock and its level is [IPL_NONE]; [splx] returns the level that a
    later [splx] restores. *)
Theorem interrupts_follow_level (ops : list spl_op) (n n' : Z) (s : splstate) :
  spl_wf n s → spl_helds ops n = Some n' →
  ∃ s', spl_dos ops s = Some s' ∧
    irq_on s' = (n' =? 0) && (t_curspl s' =? IPL_NONE) ∧
    ∀ spl, spl = IPL_NONE ∨ spl = IPL_HIGH →
      ∃ old s1 s2, splx spl s' = Some (old, s1) ∧ t_curspl s1 = spl ∧ splx old s1 = Some (spl, s2) ∧
        t_curspl s2 = t_curspl s' ∧ t_iplhigh_count s2 = t_iplhigh_count s' ∧ irq_on s2 = irq_on s'.
Proof.
  intros Hw Hh. destruct (spl_dos_run ops n n' s Hw Hh) as (s' & Hs' & Hw'). exists s'.
  split; [done|]. pose proof Hw' as [_ Hl Hc Hi Hn]. split.
  - rewrite Hi, Hc. unfold IPL_NONE, IPL_HIGH in *. lia.
  - intros spl Hspl. destruct (splx_wf n' s' spl Hw' Hspl) as (s1 & H1 & Hl1 & Hw1).
    destruct (splx_wf n' s1 (t_curspl s') Hw1 Hl) as (s2 & H2 & Hl2 & Hw2). rewrite Hl1 in H2.
    assert (t_iplhigh_count s2 = t_iplhigh_count s') as Ec.
    { rewrite (sw_count _ _ Hw2), (sw_count _ _ Hw'). congruence. }
    exists (t_curspl s'), s1, s2. repeat split; [done|done|done|done|done|].
    rewrite (sw_irq _ _ Hw2), (sw_irq _ _ Hw'). by rewrite Ec.
Qed.

(** The sequence of the comment in spl.c: two spinlocks and [splhigh] that do not nest. *)
Lemma interrupts_follow_level_witness :
  ∃ s', spl_dos [OpRaise; OpSplx IPL_HIGH; OpRaise; OpSplx IPL_NONE; OpLower; OpLower]
          (Spl true IPL_NONE 0 true) = Some s' ∧ irq_on s' = true.
Proof.
  destruct (interrupts_follow_level [OpRaise; OpSplx IPL_HIGH; OpRaise; OpSplx IPL_NONE; OpLower; OpLower] 0 0
    (Spl true IPL_NONE 0 true)) as (s' & Hs' & _).
  - split; cbn; auto; done.
  - reflexivity.
  - exists s'. split; [exact Hs'|]. vm_compute in Hs'. by injection Hs' as <-.
Defined.

(** C8: however the steps of the processors interleave, whichever
    store-conditionals fail and whenever they set their levels, no step fails an assertion or
    panics, at most one processor is between the test-and-set and the
    store of zero, [spinlock_do_i_hold] is true exactly for the one inside, and
    a processor that waits for the lock or has it runs with interrupts off. *)
Theorem spinlock_excludes (n : nat) (l : list sact) :
  Forall (sact_ok n) l →
  ∃ s, slock_acts l (spinlock_init n) = Some s ∧
    (∀ c d p q, cpus s !! c = Some p → cpus s !! d = Some q →
      owns (c_pc p) = true → owns (c_pc q) = true → c = d) ∧
    (∀ c, spinlock_do_i_hold c s = true ↔ ∃ p, cpus s !! c = Some p ∧ c_pc p = SIn) ∧
    (∀ c p, cpus s !! c = Some p → c_pc p ≠ SOut → irq_on (c_spl p) = false) ∧
    (spinlock_cleanup s = true ↔ ∀ c p, cpus s !! c = Some p → owns (c_pc p) = false).
Proof.
  intros Hl. destruct (slock_acts_run l (spinlock_init n) (slock_init_inv n)) as (s & Hs & Hinv & _).
  { cbn. by rewrite length_replicate. }
  exists s. split; [done|]. destruct Hinv as [Hw Ho Hh Hc]. split; [done|]. split; [|split].
  - intros c. unfold spinlock_do_i_hold. rewrite bool_decide_eq_true. apply Hh.
  - intros c p Hp Hpc. destruct (pw_spl _ (Hc c p Hp)) as [_ Hl' Hn Hi _].
    rewrite Hi, Hn. apply Z.eqb_neq. unfold IPL_NONE, IPL_HIGH in *. destruct (c_pc p); cbn in *; [done|lia..].
  - unfold spinlock_cleanup. rewrite andb_true_iff, bool_decide_eq_true, Z.eqb_eq, Hw. split.
    + intros [_ E] c p Hp. destruct (owns (c_pc p)) eqn:Hop; [|done].
      rewrite (proj2 (existsb_owns _)) in E; [done|eauto].
    + intros Hnone. split.
      * destruct (splk_holder s) as [c|] eqn:E; [|done]. destruct (proj1 (Hh c) eq_refl) as (p & Hp & Hin).
        specialize (Hnone c p Hp). by rewrite Hin in Hnone.
      * destruct (existsb _ _) eqn:E; [|done]. apply existsb_owns in E as (c & p & Hp & E).
        by rewrite (Hnone c p Hp) in E.
Qed.

(** Two processors read the free lock, both try the test-and-set, one gets it. *)
Lemma spinlock_excludes_witness :
  ∃ s, slock_acts [ALock 0 true; ALock 1 true; ALock 0 true; ALock 1 true; ALock 1 true; ALock 0 true; ALock 1 true]
         (spinlock_init 2) = Some s ∧ spinlock_do_i_hold 1 s = true ∧ spinlock_do_i_hold 0 s = false.
Proof.
  destruct (spinlock_excludes 2
    [ALock 0 true; ALock 1 true; ALock 0 true; ALock 1 true; ALock 1 true; ALock 0 true; ALock 1 true])
    as (s & Hs & _).
  - repeat (apply Forall_cons; split; [cbn; lia|]). apply Forall_nil. done.
  - exists s. split; [exact Hs|]. vm_compute in Hs. injection Hs as <-. by split.
Defined.

(** A processor that calls [spinlock_acquire] in a reachable state in which
    nobody has the lock, and whose store-conditional succeeds, has it after four
    of its own steps; two more release it and leave the lock free and the
    processor's interrupts and counters as they were. *)
Theorem free_spinlock_is_acquired (n : nat) (l : list sact) (s : slock) (c : nat) (p : pcpu) :
  Forall (sact_ok n) l → slock_acts l (spinlock_init n) = Some s →
  splk_lock s = 0 → cpus s !! c = Some p → c_pc p = SOut →
  ∃ s1, slock_acts [ALock c true; ALock c true; ALock c true; ALock c true] s = Some s1 ∧
    spinlock_do_i_hold c s1 = true ∧
    slock_acts [ALock c true; ALock c true] s1 = Some s.
Proof.
  intros Hl Hs Hfree Hp Hpc.
  destruct (slock_acts_run l (spinlock_init n) (slock_init_inv n)) as (s' & Hs' & Hinv & _).
  { cbn. by rewrite length_replicate. }
  rewrite Hs in Hs'. injection Hs' as <-. destruct (sl_cpus _ Hinv c p Hp) as [Hn Hspl].
  pose proof (lookup_lt_Some _ _ _ Hp) as Hlt.
  assert (Hnone : splk_holder s = None).
  { destruct (splk_holder s) as [d|] eqn:E; [|done]. apply (sl_holder _ Hinv) in E as (q & Hq & Hin).
    pose proof (sl_word _ Hinv) as Hw. rewrite Hfree, (proj2 (existsb_owns _)) in Hw; [done|].
    exists d, q. by rewrite Hin. }
  rewrite Hpc in Hn, Hspl. destruct (raise_wf _ _ Hspl) as [Hr Hspl'].
  destruct (lower_wf _ _ Hspl' ltac:(cbn; lia)) as [Hlow _]. cbn in Hlow.
  destruct p as [pc k spl]; cbn in *. subst pc k.
  set (spl' := Spl _ _ _ _) in *.
  assert (Hi : ∀ p, <[c := p]> (cpus s) !! c = Some p) by (intros; by apply list_lookup_insert_eq).
  set (at_pc w h pc := Slock w h (<[c := Pcpu pc 1 spl']> (cpus s))).
  assert (H1 : slock_step c true s = Some (at_pc 0 None STest)).
  { unfold slock_step. rewrite Hp. cbn. rewrite Hr, Hnone. cbn. unfold set_pc. by rewrite Hfree, Hnone. }
  assert (H2 : slock_step c true (at_pc 0 None STest) = Some (at_pc 0 None STas)).
  { unfold slock_step, at_pc, set_pc. cbn. rewrite Hi. cbn. by rewrite list_insert_insert_eq. }
  assert (H3 : slock_step c true (at_pc 0 None STas) = Some (at_pc 1 None SGot)).
  { unfold slock_step, at_pc, set_pc. cbn. rewrite Hi. cbn. by rewrite list_insert_insert_eq. }
  assert (H4 : slock_step c true (at_pc 1 None SGot) = Some (at_pc 1 (Some c) SIn)).
  { unfold slock_step, at_pc, set_pc. cbn. rewrite Hi. cbn. by rewrite list_insert_insert_eq. }
  assert (H5 : slock_step c true (at_pc 1 (Some c) SIn) =
    Some (Slock 1 None (<[c := Pcpu SClear 0 spl']> (cpus s)))).
  { unfold slock_step, at_pc. cbn. rewrite Hi. cbn. rewrite bool_decide_eq_true_2 by done. cbn.
    by rewrite list_insert_insert_eq. }
  assert (H6 : slock_step c true (Slock 1 None (<[c := Pcpu SClear 0 spl']> (cpus s))) = Some s).
  { unfold slock_step. cbn. rewrite Hi. cbn. rewrite Hlow. cbn. rewrite list_insert_insert_eq.
    destruct s as [w h cs]. cbn in *. subst w h. do 2 f_equal. apply list_insert_id. rewrite Hp. do 2 f_equal.
    destruct Hspl as [He _ _ Hirq _]. destruct spl as [e lv cnt irq]. cbn in *. subst e irq.
    f_equal; [lia|]. f_equal. lia. }
  exists (at_pc 1 (Some c) SIn). cbn [slock_acts slock_act]. rewrite H1. cbn [mbind option_bind].
  rewrite H2. cbn [mbind option_bind]. rewrite H3. cbn [mbind option_bind]. rewrite H4. cbn [mbind option_bind].
  rewrite H5. cbn [mbind option_bind]. rewrite H6.
  repeat split. unfold spinlock_do_i_hold. by rewrite bool_decide_eq_true.
Qed.

Lemma free_spinlock_is_acquired_witness :
  ∃ s1, slock_acts [ALock 1 true; ALock 1 true; ALock 1 true; ALock 1 true] (spinlock_init 2) = Some s1 ∧
    spinlock_do_i_hold 1 s1 = true.
Proof.
  destruct (free_spinlock_is_acquired 2 [] (spinlock_init 2) 1 (Pcpu SOut 0 (Spl true IPL_NONE 0 true)))
    as (s1 & H1 & H2 & _); try reflexivity.
  - by apply Forall_nil.
  - by exists s1.
Defined.
