(* ===== verification/Frame.v ===== *)
(** * Frame: what an operation of the scheduler leaves alone

    Synch.v and Proc.v reason about a few threads and one wait channel while
    the scheduler of Thread.v does anything else in between.  This file shows
    that an operation that is not on a given wait channel keeps it, and keeps
    every property [Φ] of threads that survives the changes the scheduler makes
    to threads it does not put away. *)

From Stdlib Require Import ZArith Lia.
From stdpp Require Import base gmap list list_numbers sets.
From S2P Require Import Prelude Types Thread.
Set Default Goal Selector "!".
Open Scope Z_scope.

Definition current (s : tsys) (c : nat) : option Z := c_curthread <$> cpus s !! c.

(** The operation leaves the wait channel [w] alone. *)
Definition not_on (w : Z) (op : sched_op) : Prop :=
  match op with
  | OpSleep _ w' | OpWakeone _ w' | OpWakeall _ w' | OpWchanCreate w' | OpWchanDestroy w' => w' ≠ w
  | _ => True
  end.

(** The processor whose thread goes away to sleep or for good. *)
Definition op_leaves (op : sched_op) : option nat :=
  match op with OpSleep c _ | OpExit c => Some c | _ => None end.

(** A property of threads that being made ready, run or migrated keeps, and that
    no thread has that [exorcise] destroys. *)
Class Lasting (Φ : thread → Prop) : Prop := {
  ls_ready : ∀ th, Φ th → Φ (set_tstate S_READY th);
  ls_run : ∀ th, Φ th → Φ (set_tstate S_RUN th);
  ls_cpu : ∀ th c, Φ th → Φ (set_tcpu c th);
  ls_alive : ∀ th, Φ th → t_state th = S_ZOMBIE → t_proc th = None → False;
}.

Section frames.
Context (w : Z) (x : option Z) (Φ : thread → Prop) `{HΦ : Lasting Φ}.

Definition has (s : tsys) (t : Z) : Prop := ∃ th, threads s !! t = Some th ∧ Φ th.

(** The wait channel [w] is as it was, and so are the threads with [Φ], [x] apart. *)
Record frame (s s' : tsys) : Prop := {
  fr_wchan : wchans s' !! w = wchans s !! w;
  fr_has : ∀ t, x ≠ Some t → has s t → has s' t;
}.

Lemma frame_refl s : frame s s.
Proof. by split. Qed.

Lemma frame_trans s1 s2 s3 : frame s1 s2 → frame s2 s3 → frame s1 s3.
Proof. intros [H1 H2] [H3 H4]. split; [congruence|]. eauto. Qed.

Lemma frame_cpu c f s : frame s (upd_cpu c f s).
Proof. by split. Qed.

Lemma frame_wchan w' l s : w' ≠ w → frame s (set_wchan w' l s).
Proof. intros Hne. split; [cbn; by rewrite lookup_insert_ne|done]. Qed.

Lemma frame_thread t f s : (x = Some t ∨ ∀ th, Φ th → Φ (f th)) → frame s (upd_thread t f s).
Proof.
  intros Hf. split; [done|]. intros u Hu (th & Hth & Hst). unfold has. cbn.
  destruct (decide (t = u)) as [->|Hne]; [|rewrite lookup_alter_ne by done; eauto].
  rewrite lookup_alter_eq, Hth. exists (f th). split; [done|]. destruct Hf; [done|auto].
Qed.

Lemma frame_new t th cs s :
  threads s !! t = None → frame s (TSys cs (<[t := th]> (threads s)) (wchans s)).
Proof.
  intros Hnew. split; [done|]. intros u Hu (th' & Hth & Hst'). unfold has. cbn.
  rewrite lookup_insert_ne by (by intros ->; simplify_eq). eauto.
Qed.

#[local] Arguments ipi_send : simpl never.

Lemma frame_ipi d code s s' : ipi_send d code s = Some s' → frame s s'.
Proof. unfold ipi_send. destruct (_ && _); [|done]. intros [= <-]. apply frame_cpu. Qed.

Lemma frame_make_runnable c t s s' : thread_make_runnable c t s = Some s' → frame s s'.
Proof.
  unfold thread_make_runnable. destruct (threads s !! t) as [th|]; [|done]. cbn.
  destruct (cpus s !! t_cpu th) as [cp|]; [|done]. cbn. intros Hs.
  eapply frame_trans; [apply (frame_thread t); right; apply ls_ready|]. eapply frame_trans; [eapply frame_cpu|].
  destruct (_ && _); [exact (frame_ipi _ _ _ _ Hs)|]. injection Hs as <-. apply frame_refl.
Qed.

Lemma frame_make_all c l s s' : make_all_runnable c l s = Some s' → frame s s'.
Proof.
  revert s. induction l as [|t l IH]; intros s; cbn; [intros [= <-]; apply frame_refl|].
  destruct (thread_make_runnable c t s) as [s1|] eqn:E; [|done]. cbn. intros Hs.
  eapply frame_trans; [exact (frame_make_runnable _ _ _ _ E)|by apply IH].
Qed.

(** Only the thread that is put away may lose [Φ]. *)
Lemma frame_switch c st w' s s' :
  thread_switch c st w' s = Some s' → (st = S_SLEEP → w' ≠ w) →
  (x = current s c ∨ ∀ th, Φ th → Φ (set_tstate st th)) → frame s s'.
Proof.
  unfold thread_switch, current. destruct (cpus s !! c) as [cp|] eqn:Hc; [|done]. cbn.
  destruct (c_isidle cp); [intros [= <-] _ _; apply frame_refl|].
  destruct (bool_decide _); [intros [= <-] _ _; apply frame_refl|].
  intros Hs Hne Hx.
  assert (Hend : ∀ s0, frame s s0 → frame s (upd_cpu c (set_idle true) (upd_thread (c_curthread cp) (set_tstate st) s0))).
  { intros s0 Hs0. eapply frame_trans; [exact Hs0|]. eapply frame_trans; [apply frame_thread; exact Hx|apply frame_cpu]. }
  destruct st; cbn in Hs; [done| | |].
  - destruct (thread_make_runnable _ _ _) as [s1|] eqn:E; [|done]. injection Hs as <-.
    by eapply Hend, frame_make_runnable.
  - destruct (wchans s !! w') as [l|] eqn:Hl; [|done]. injection Hs as <-. by apply Hend, frame_wchan, Hne.
  - injection Hs as <-. apply Hend, frame_cpu.
Qed.

(** What [exorcise] destroys does not have [Φ]. *)
Lemma frame_exorcise c zs s s' : exorcise_loop c zs s = Some s' → frame s s'.
Proof.
  revert s. induction zs as [|z zs IH]; intros s; cbn; [intros [= <-]; apply frame_refl|].
  destruct (cpus s !! c) as [cp|] eqn:Hc; [|done]. cbn. unfold thread_destroy. cbn.
  rewrite list_lookup_alter_eq, Hc. cbn. destruct (threads s !! z) as [th|] eqn:Hz; [|done]. cbn.
  destruct (bool_decide (t_state th = S_ZOMBIE)) eqn:Hst; [|by rewrite orb_true_r].
  destruct (_ || negb _); [done|].
  destruct (bool_decide (t_proc th = None)) eqn:Hpr; [|by rewrite orb_true_r].
  destruct (_ || _); [done|]. cbn. intros Hs.
  eapply frame_trans; [|exact (IH _ Hs)]. apply bool_decide_eq_true in Hst, Hpr.
  split; [done|]. intros t _ (th' & Ht & Hst'). exists th'. cbn.
  rewrite lookup_delete_ne; [done|]. intros ->. simplify_eq. by destruct (ls_alive _ Hst').
Qed.

Lemma frame_pick c s s' : thread_pick c s = Some s' → frame s s'.
Proof.
  unfold thread_pick. destruct (cpus s !! c) as [cp|]; [|done]. cbn.
  destruct (c_runqueue cp) as [|t q]; [intros [= <-]; apply frame_refl|]. unfold exorcise.
  destruct (cpus _ !! c) as [cp'|]; [|done]. cbn. intros Hs%frame_exorcise.
  eapply frame_trans; [eapply frame_cpu|]. eapply frame_trans; [|exact Hs].
  apply frame_thread. right. apply ls_run.
Qed.

Lemma frame_take n c s s' : take_victims n c s = Some s' → frame s s'.
Proof.
  revert s. induction n as [|n IH]; intros s; cbn; [intros [= <-]; apply frame_refl|].
  destruct (cpus s !! c) as [cp|]; [|done]. cbn. destruct (reverse _) as [|t q]; [done|].
  intros Hs%IH. eapply frame_trans; [eapply frame_cpu|exact Hs].
Qed.

Lemma frame_push n share c d s s' n' : push_victims n share c d s = Some (s', n') → frame s s'.
Proof.
  revert s. induction n as [|n IH]; intros s; cbn; [intros [= <- _]; apply frame_refl|].
  destruct (cpus s !! d) as [dp|]; [|done]. cbn. destruct (_ <? _); [|intros [= <- _]; apply frame_refl].
  destruct (cpus s !! c) as [cp|]; [|done]. cbn. destruct (victims cp) as [|t vs]; [done|].
  destruct (bool_decide _); [intros Hs%IH; eapply frame_trans; [eapply frame_cpu|exact Hs]|].
  set (s1 := upd_cpu d _ _). assert (H1 : frame s s1).
  { eapply frame_trans; [|apply frame_cpu]. eapply frame_trans; [apply frame_cpu|].
    apply frame_thread. right. intros. by apply ls_cpu. }
  destruct (if c_isidle dp then _ else _) as [s2|] eqn:E; [|done]. cbn. intros Hs%IH.
  eapply frame_trans; [exact H1|]. eapply frame_trans; [|exact Hs].
  destruct (c_isidle dp); [exact (frame_ipi _ _ _ _ E)|]. injection E as <-. apply frame_refl.
Qed.

Lemma frame_return c vs s : frame s (return_loop c vs s).
Proof.
  revert s. induction vs as [|t vs IH]; intros s; cbn; [apply frame_refl|].
  eapply frame_trans; [|apply IH]. apply frame_cpu.
Qed.

(** Every operation of the scheduler on other wait channels. *)
Lemma frame_sched op s s' :
  sched_enabled op s → sched_do op s = Some s' → not_on w op →
  (∀ c w', op = OpSleep c w' → x = current s c ∨ ∀ th, Φ th → Φ (set_tstate S_SLEEP th)) →
  (∀ c, op = OpExit c → x = current s c) →
  frame s s'.
Proof.
  destruct op as [t kproc|c|c w'|c|c|c t proc|c w'|c w'|w'|w'|c n|c d n share|c]; cbn; intros Hen Hs Hon Hsl Hex.
  - injection Hs as <-. by apply frame_new.
  - unfold thread_yield in Hs. eapply frame_switch; [exact Hs|done|]. right. apply ls_ready.
  - unfold wchan_sleep in Hs. eapply frame_switch; [exact Hs|done|]. by eapply Hsl.
  - unfold thread_exit in Hs. destruct (cpus s !! c) as [cp|] eqn:Hc; [|done]. cbn in Hs.
    specialize (Hex c eq_refl). unfold current in Hex. rewrite Hc in Hex.
    eapply frame_trans; [|eapply frame_switch; [exact Hs|done|]].
    + apply frame_thread. by left.
    + left. unfold current. cbn. by rewrite Hc.
  - by apply frame_pick in Hs.
  - unfold thread_fork in Hs. destruct (cpus s !! c) as [cp|]; [|done]. cbn in Hs.
    destruct (threads s !! c_curthread cp) as [cur|]; [|done]. cbn in Hs.
    destruct (thread_make_runnable _ _ _) as [s1|] eqn:E; [|done]. injection Hs as <-.
    eapply frame_trans; [|by eapply frame_make_runnable]. apply frame_new, Hen.
  - unfold wchan_wakeone in Hs. destruct (wchans s !! w') as [[|t l]|] eqn:Hl; cbn in Hs; [..|done].
    + injection Hs as <-. apply frame_refl.
    + eapply frame_trans; [|by eapply frame_make_runnable]. by apply frame_wchan.
  - unfold wchan_wakeall in Hs. destruct (wchans s !! w') as [l|] eqn:Hl; cbn in Hs; [|done].
    eapply frame_trans; [|by eapply frame_make_all]. by apply frame_wchan.
  - injection Hs as <-. by apply frame_wchan.
  - unfold wchan_destroy in Hs. destruct (wchans s !! w') as [l|] eqn:Hl; cbn in Hs; [|done].
    destruct (bool_decide _); [|done]. injection Hs as <-. split; [cbn; by rewrite lookup_delete_ne|done].
  - by eapply frame_take.
  - destruct (push_victims _ _ _ _ _) as [[s1 n1]|] eqn:E; [|done]. injection Hs as <-. by eapply frame_push.
  - unfold return_victims in Hs. destruct (cpus s !! c); [|done]. injection Hs as <-. apply frame_return.
Qed.

(** [wchan_sleep] and [wchan_wakeone] on [w] itself leave the other threads alone. *)
Lemma has_moved t p q s s' u : moved t p q s s' → u ≠ t → has s u → has s' u.
Proof using Type. intros Hm Hu (th & Hth & Hst). exists th. by rewrite (mv_threads _ _ _ _ _ Hm). Qed.

End frames.

(** ** The properties used *)

(** The thread runs or can run. *)
Definition awake_state (th : thread) : Prop := t_state th = S_RUN ∨ t_state th = S_READY.
Abbreviation is_awake := (has awake_state).

#[global] Instance awake_lasting : Lasting awake_state.
Proof.
  split; unfold awake_state; cbn; auto. intros th [H|H] Hz _; congruence.
Qed.

(** The thread belongs to the process [p]. *)
Definition in_proc (p : Z) (th : thread) : Prop := t_proc th = Some p.

#[global] Instance in_proc_lasting p : Lasting (in_proc p).
Proof. split; unfold in_proc; cbn; auto. intros th H _ Hn. congruence. Qed.
