(* ===== verification/Synch.v ===== *)
(** * Synch: semaphores (kern/thread/synch.c) on top of the scheduler

    The critical sections of [P] and [V] (the spinlock of the semaphore) are the
    steps; [P] is one step for each round of its loop, because
    [wchan_sleep] gives the spinlock up while the thread sleeps.  The system of
    this file is a scheduler state of Thread.v with one semaphore in it: any
    thread enters [P], goes through its loop again once it has been woken,
    or calls [V], and every operation of the scheduler that is not on the
    semaphore's own wait channel can happen in between.

    The locks and condition variables of synch.c have no code yet (the functions
    ignore their arguments), so there is nothing of them to model. *)

From Stdlib Require Import ZArith Lia.
From stdpp Require Import base gmap list list_numbers sets fin_sets.
From S2P Require Import Prelude Types Thread Frame.
Set Default Goal Selector "!".
Open Scope Z_scope.

(** The addresses of the structure and its name, the wait channel and the count. *)
Record semaphore := Sem {
  sem_addr : Z;
  sem_name : Z;
  sem_wchan : Z;
  sem_count : Z;
}.

Definition set_count (n : Z) (sem : semaphore) : semaphore :=
  Sem (sem_addr sem) (sem_name sem) (sem_wchan sem) n.

(** ** Operations *)

(** [mem], [name] and [wc] are what [kmalloc], [kstrdup] and the [kmalloc] of
    [wchan_create] return; [heap] are the blocks in use. *)
Definition sem_create (mem name wc : option Z) (initial_count : Z) (heap : gset Z) (s : tsys) :
    option semaphore * gset Z * tsys :=
  match mem with
  | None => (None, heap, s)
  | Some sem =>
      let heap := {[sem]} ∪ heap in
      match name with
      | None => (None, heap ∖ {[sem]}, s)
      | Some nm =>
          let heap := {[nm]} ∪ heap in
          match wchan_create wc s with
          | (None, s) => (None, heap ∖ {[nm]} ∖ {[sem]}, s)
          | (Some w, s) => (Some (Sem sem nm w initial_count), {[w]} ∪ heap, s)
          end
      end
  end.

Definition sem_destroy (sem : semaphore) (heap : gset Z) (s : tsys) : option (gset Z * tsys) :=
  s ← wchan_destroy (sem_wchan sem) s;
  Some (heap ∖ {[sem_wchan sem]} ∖ {[sem_name sem]} ∖ {[sem_addr sem]}, s).

(** One round of the loop of [P]: has the thread passed? *)
Definition P_pass (c : nat) (sem : semaphore) (s : tsys) : option (bool * semaphore * tsys) :=
  if sem_count sem =? 0 then
    s ← wchan_sleep c (sem_wchan sem) s;
    Some (false, sem, s)
  else if negb (0 <? sem_count sem) then None
  else Some (true, set_count (u32 (sem_count sem - 1)) sem, s).

Definition P (c : nat) (t_in_interrupt : bool) (sem : semaphore) (s : tsys) : option (bool * semaphore * tsys) :=
  if t_in_interrupt then None else P_pass c sem s.

Definition V (c : nat) (sem : semaphore) (s : tsys) : option (semaphore * tsys) :=
  let sem := set_count (u32 (sem_count sem + 1)) sem in
  if negb (0 <? sem_count sem) then None
  else
    s ← wchan_wakeone c (sem_wchan sem) s;
    Some (sem, s).

(** ** The system *)

(** [inP] are the threads that have entered [P] and not passed; [passed] and
    [posted] count the calls of [P] and [V] that are through. *)
Record ssys := SSys {
  ss_sys : tsys;
  ss_sem : semaphore;
  inP : gset Z;
  passed : Z;
  posted : Z;
}.

Inductive sem_act := AEnter (c : nat) | ARetry (c : nat) | AV (c : nat) | ASched (op : sched_op).

Definition sem_do (a : sem_act) (s : ssys) : option ssys :=
  match a with
  | AEnter c =>
      t ← current (ss_sys s) c;
      '(ok, sem, ts) ← P c false (ss_sem s) (ss_sys s);
      Some (if ok : bool then SSys ts sem (inP s) (passed s + 1) (posted s)
            else SSys ts sem ({[t]} ∪ inP s) (passed s) (posted s))
  | ARetry c =>
      t ← current (ss_sys s) c;
      '(ok, sem, ts) ← P_pass c (ss_sem s) (ss_sys s);
      Some (if ok : bool then SSys ts sem (inP s ∖ {[t]}) (passed s + 1) (posted s)
            else SSys ts sem (inP s) (passed s) (posted s))
  | AV c =>
      '(sem, ts) ← V c (ss_sem s) (ss_sys s);
      Some (SSys ts sem (inP s) (passed s) (posted s + 1))
  | ASched op =>
      ts ← sched_do op (ss_sys s);
      Some (SSys ts (ss_sem s) (inP s) (passed s) (posted s))
  end.

(** When an action can happen: a thread in [P] does nothing else, and the count
    does not pass 2{^32} - 1. *)
Definition sem_enabled (a : sem_act) (s : ssys) : Prop :=
  match a with
  | AEnter c => runs (ss_sys s) c false ∧ ∀ t, current (ss_sys s) c = Some t → t ∉ inP s
  | ARetry c => runs (ss_sys s) c false ∧ ∃ t, current (ss_sys s) c = Some t ∧ t ∈ inP s
  | AV c => sem_count (ss_sem s) < 2 ^ 32 - 1
  | ASched op =>
      sched_enabled op (ss_sys s) ∧ not_on (sem_wchan (ss_sem s)) op ∧
      ∀ c t, op_leaves op = Some c → current (ss_sys s) c = Some t → t ∉ inP s
  end.

(** From a scheduler that has run, a semaphore is created with the count [n]. *)
Inductive sem_reach (n : Z) : ssys → Prop :=
  | sm_start ts heap mem name w :
      sched_reach ts → wchans ts !! w = None → 0 ≤ n < 2 ^ 32 →
      ∀ sem heap' ts', sem_create (Some mem) (Some name) (Some w) n heap ts = (Some sem, heap', ts') →
      sem_reach n (SSys ts' sem ∅ 0 0)
  | sm_step a s s' : sem_reach n s → sem_enabled a s → sem_do a s = Some s' → sem_reach n s'.

(** ** The invariant *)

Record sem_inv (n : Z) (s : ssys) : Prop := {
  sv_sched : sched_inv (ss_sys s);
  sv_count : sem_count (ss_sem s) = n + posted s - passed s;
  sv_range : 0 ≤ sem_count (ss_sem s) < 2 ^ 32;
  sv_wchan : ∃ sl, wchans (ss_sys s) !! sem_wchan (ss_sem s) = Some sl ∧
    (∀ t, t ∈ sl → t ∈ inP s) ∧
    (∀ t, t ∈ inP s → t ∉ sl → is_awake (ss_sys s) t) ∧
    (sl ≠ [] → sem_count (ss_sem s) ≤ Z.of_nat (size (inP s ∖ list_to_set sl)));
}.

(** A running thread sleeps nowhere. *)
Lemma running_awake s c cp w sl :
  sched_inv s → cpus s !! c = Some cp → c_isidle cp = false → wchans s !! w = Some sl → c_curthread cp ∉ sl.
Proof.
  intros Hi Hc Hid Hw Hin.
  assert (PRun c = PWait w) as E; [|done].
  apply (si_unique _ Hi _ _ (c_curthread cp)); cbn; [rewrite Hc, Hid; by left|by rewrite Hw].
Qed.

(** A thread goes to sleep in [P]. *)
Lemma sem_sleep n s c cp t :
  sem_inv n s → cpus (ss_sys s) !! c = Some cp → c_isidle cp = false → c_curthread cp = t →
  sem_count (ss_sem s) = 0 →
  ∃ ts, P_pass c (ss_sem s) (ss_sys s) = Some (false, ss_sem s, ts) ∧
    sem_inv n (SSys ts (ss_sem s) ({[t]} ∪ inP s) (passed s) (posted s)).
Proof.
  intros [Hi Hn Hr (sl & Hw & Hsub & Hawk & _)] Hc Hid <- Hz. unfold P_pass. rewrite Hz. cbn.
  destruct (sleep_moved _ c cp Hi Hc _ sl Hid Hw) as (ts & -> & Hm & Hws). cbn.
  exists ts. split; [done|]. split; cbn; try done; [by eapply moved_inv|].
  exists (sl ++ [c_curthread cp]). split; [by rewrite Hws, lookup_insert_eq|]. split; [|split].
  - intros t. rewrite elem_of_app, list_elem_of_singleton. set_solver.
  - intros t Ht. rewrite elem_of_app, list_elem_of_singleton. intros Hnot.
    apply (has_moved awake_state _ _ _ _ _ t Hm); [set_solver|]. apply Hawk; set_solver.
  - intros _. rewrite Hz. lia.
Qed.

(** A thread passes: [X] is what is left in [P]. *)
Lemma sem_pass n s c X :
  sem_inv n s → sem_count (ss_sem s) ≠ 0 →
  X ⊆ inP s → (∀ sl, wchans (ss_sys s) !! sem_wchan (ss_sem s) = Some sl → ∀ t, t ∈ sl → t ∈ X) →
  Z.of_nat (size (inP s)) - 1 ≤ Z.of_nat (size X) →
  ∃ sem, P_pass c (ss_sem s) (ss_sys s) = Some (true, sem, ss_sys s) ∧
    sem_inv n (SSys (ss_sys s) sem X (passed s + 1) (posted s)).
Proof.
  intros [Hi Hn Hr (sl & Hw & Hsub & Hawk & Hlost)] Hz HX HslX Hsize. unfold P_pass.
  rewrite (proj2 (Z.eqb_neq _ _) Hz), (proj2 (Z.ltb_lt _ _)) by lia. cbn. eexists. split; [done|].
  split; cbn; try done; [rewrite (wrap_small 32) by lia; lia|rewrite (wrap_small 32) by lia; lia|].
  exists sl. split; [done|]. split; [by apply HslX|]. split; [set_solver|]. intros Hne.
  specialize (Hlost Hne). rewrite (wrap_small 32) by lia.
  assert (Hs : ∀ Y : gset Z, list_to_set sl ⊆ Y → size (Y ∖ list_to_set sl) = (size Y - size (list_to_set sl : gset Z))%nat).
  { intros Y HY. by rewrite size_difference. }
  assert (H1 : (list_to_set sl : gset Z) ⊆ X).
  { intros t Ht%elem_of_list_to_set. by apply (HslX sl). }
  pose proof (subseteq_size _ _ H1). pose proof (subseteq_size _ _ HX).
  rewrite Hs in Hlost |- * by set_solver. lia.
Qed.

(** [V] wakes the first sleeper, if there is one. *)
Lemma sem_V n s c :
  sem_inv n s → sem_count (ss_sem s) < 2 ^ 32 - 1 →
  ∃ sem ts, V c (ss_sem s) (ss_sys s) = Some (sem, ts) ∧
    sem_inv n (SSys ts sem (inP s) (passed s) (posted s + 1)).
Proof.
  intros [Hi Hn Hr (sl & Hw & Hsub & Hawk & Hlost)] Hlt. unfold V. cbn. rewrite (wrap_small 32) by lia.
  rewrite (proj2 (Z.ltb_lt _ _)) by lia. cbn. destruct sl as [|t l].
  - unfold wchan_wakeone. rewrite Hw. cbn. eexists _, _. split; [done|].
    split; cbn; try done; [lia|lia|]. by exists [].
  - destruct (wakeone_moved c _ t l _ Hi Hw) as (th & ts & Ht & -> & Hm & Hws & _). cbn.
    eexists _, _. split; [done|]. split; cbn; [by eapply moved_inv|lia|lia|].
    exists l. split; [by rewrite Hws, lookup_insert_eq|]. split; [intros; apply Hsub; by right|].
    assert (Hnd : t ∉ l).
    { pose proof (si_nodup _ Hi (PWait (sem_wchan (ss_sem s)))) as Hnd. cbn in Hnd. rewrite Hw in Hnd.
      by apply NoDup_cons in Hnd as [? _]. }
    split.
    + intros u Hu Hul. destruct (decide (u = t)) as [->|Hne].
      * destruct (mv_thread _ _ _ _ _ Hm) as (th' & Hth' & [Hst _] & _). exists th'. split; [done|by right].
      * apply (has_moved awake_state _ _ _ _ _ u Hm Hne), Hawk; [done|]. by rewrite not_elem_of_cons.
    + intros _. specialize (Hlost ltac:(done)).
      assert (inP s ∖ list_to_set l = {[t]} ∪ inP s ∖ list_to_set (t :: l)) as ->.
      { cbn. apply set_eq. intros u. specialize (Hsub t ltac:(by left)).
        destruct (decide (u = t)) as [->|]; [|set_solver].
        rewrite elem_of_union, elem_of_singleton, elem_of_difference, elem_of_list_to_set. tauto. }
      rewrite size_union, size_singleton by set_solver. lia.
Qed.

Lemma sem_do_run n a s :
  sem_inv n s → sem_enabled a s → ∃ s', sem_do a s = Some s' ∧ sem_inv n s'.
Proof.
  intros Hinv Hen. pose proof Hinv as [Hi Hn Hr (sl & Hw & Hsub & Hawk & Hlost)].
  destruct a as [c|c|c|op]; cbn in Hen.
  - destruct Hen as [(cp & Hc & Hid) Hnew]. unfold current in Hnew. rewrite Hc in Hnew. cbn. unfold current.
    rewrite Hc. cbn. destruct (decide (sem_count (ss_sem s) = 0)) as [Hz|Hz].
    + destruct (sem_sleep n s c cp _ Hinv Hc Hid eq_refl Hz) as (ts & -> & Hinv'). cbn. eauto.
    + destruct (sem_pass n s c (inP s) Hinv Hz) as (sem & -> & Hinv'); [done| |lia|cbn; eauto].
      intros sl' Hsl'. by simplify_eq.
  - destruct Hen as [(cp & Hc & Hid) (t & Ht & Hin)]. cbn. rewrite Ht. unfold current in Ht. rewrite Hc in Ht.
    injection Ht as Ht. cbn. destruct (decide (sem_count (ss_sem s) = 0)) as [Hz|Hz].
    + destruct (sem_sleep n s c cp _ Hinv Hc Hid Ht Hz) as (ts & -> & Hinv'). cbn. eexists. split; [done|].
      by replace ({[t]} ∪ inP s) with (inP s) in Hinv' by set_solver.
    + pose proof (running_awake _ c cp _ sl Hi Hc Hid Hw) as Hno. rewrite Ht in Hno.
      destruct (sem_pass n s c (inP s ∖ {[t]}) Hinv Hz) as (sem & -> & Hinv'); [set_solver| | |cbn; eauto].
      * intros sl' Hsl' u Hu. simplify_eq. set_solver.
      * rewrite size_difference, size_singleton by set_solver. lia.
  - destruct (sem_V n s c Hinv Hen) as (sem & ts & Hv & Hinv'). cbn. rewrite Hv. cbn. eauto.
  - destruct Hen as (Hen & Hon & Hleave). destruct (sched_do_run op _ Hi Hen) as (ts & Hts & Hi').
    cbn. rewrite Hts. cbn. eexists. split; [done|].
    destruct (frame_sched (sem_wchan (ss_sem s)) (c ← op_leaves op; current (ss_sys s) c) awake_state op _ _ Hen Hts Hon)
      as [Hfw Hfa]; [by intros c w' ->; left|by intros c ->|].
    split; cbn; try done. exists sl. split; [by rewrite Hfw|]. split; [done|]. split; [|done].
    intros t Ht Hsl. apply Hfa; [|by apply Hawk]. intros Hx.
    destruct (op_leaves op) as [c|] eqn:E; [|done]. by apply (Hleave c t).
Qed.

Lemma sem_reach_inv n s : sem_reach n s → sem_inv n s.
Proof.
  induction 1 as [ts heap mem name w Hts Hw Hn sem heap' ts' Hcr|a s s' Hs IH Hen Hdo].
  - cbn in Hcr. injection Hcr as <- <- <-.
    split; cbn; [|lia|lia|exists []; rewrite lookup_insert_eq; set_solver].
    apply (wchan_inv ts w []); [by apply sched_reach_inv|by rewrite Hw].
  - destruct (sem_do_run n a s IH Hen) as (s1 & Hs1 & Hinv). rewrite Hdo in Hs1. by injection Hs1 as <-.
Qed.

(** ** Properties *)

(** C7: a semaphore made with the count [n], used by any number of threads on any
    number of processors: it lets at most [n] more threads through [P] than
    [V] was called, and its count is exactly what is left; no wake-up is lost,
    that is, while threads sleep on it there are at least as many threads awake
    (running or ready) inside [P] as the count, so one of them is on its way to
    take each unit; and every step that can happen succeeds. *)
Theorem semaphore_counts (n : Z) (s : ssys) :
  sem_reach n s →
  passed s ≤ n + posted s ∧ sem_count (ss_sem s) = n + posted s - passed s ∧
  (∀ sl, wchans (ss_sys s) !! sem_wchan (ss_sem s) = Some sl → sl ≠ [] →
     ∃ A : gset Z, sem_count (ss_sem s) ≤ Z.of_nat (size A) ∧
       ∀ t, t ∈ A → t ∈ inP s ∧ is_awake (ss_sys s) t ∧ t ∉ sl) ∧
  (∀ a, sem_enabled a s → is_Some (sem_do a s)).
Proof.
  intros Hinv%sem_reach_inv. pose proof Hinv as [Hi Hn Hr (sl & Hw & Hsub & Hawk & Hlost)].
  split; [lia|]. split; [done|]. split.
  - intros sl' Hsl' Hne. rewrite Hw in Hsl'. injection Hsl' as <-. exists (inP s ∖ list_to_set sl). split; [by apply Hlost|].
    intros t [Hin Hno]%elem_of_difference. rewrite elem_of_list_to_set in Hno. auto.
  - intros a Hen. destruct (sem_do_run n a s Hinv Hen) as (s' & -> & _). done.
Qed.

Fixpoint sem_dos (l : list sem_act) (s : ssys) : option ssys :=
  match l with [] => Some s | a :: l' => s ← sem_do a s; sem_dos l' s end.

Definition demo_sem_start : ssys :=
  SSys (TSys [Cpu 1 false [] [] 0 []; Cpu 2 false [] [] 0 []]
          (<[2 := Thread S_READY 1 (Some 0)]> (<[1 := Thread S_READY 0 (Some 0)]> ∅)) {[70 := []]})
       (Sem 60 61 70 0) ∅ 0 0.

Lemma demo_sem_reach : sem_reach 0 demo_sem_start.
Proof.
  eapply (sm_start 0 (TSys _ _ ∅) ∅ 60 61 70).
  - eapply (sr_step (OpCpuCreate 2 0)).
    + eapply (sr_step (OpCpuCreate 1 0)); [apply sr_start|reflexivity|reflexivity].
    + reflexivity.
    + reflexivity.
  - reflexivity.
  - lia.
  - reflexivity.
Qed.

(** The second processor's thread sleeps in [P]; the first calls [V] and wakes it,
    it runs and passes. *)
Lemma semaphore_counts_witness :
  ∃ s, sem_dos [AEnter 1; AV 0; ASched (OpPick 1); ARetry 1] demo_sem_start = Some s ∧
    passed s = 1 ∧ inP s = ∅ ∧ ∀ a, sem_enabled a s → is_Some (sem_do a s).
Proof.
  eexists. split; [vm_compute; reflexivity|]. split; [reflexivity|]. split; [reflexivity|].
  apply (semaphore_counts 0).
  eapply (sm_step 0 (ARetry 1)).
  { eapply (sm_step 0 (ASched (OpPick 1))).
    { eapply (sm_step 0 (AV 0)).
      { eapply (sm_step 0 (AEnter 1)); [exact demo_sem_reach| |vm_compute; reflexivity].
        split; [eexists; split; reflexivity|]. intros t [= <-]. apply not_elem_of_empty. }
      { cbn. lia. }
      { vm_compute. reflexivity. } }
    { split; [eexists; split; reflexivity|]. split; [exact I|]. done. }
    { vm_compute. reflexivity. } }
  { split; [eexists; split; reflexivity|]. exists 2. split; [reflexivity|]. refine (bool_decide_unpack (2 ∈ _) _). vm_compute. exact I. }
  { vm_compute. reflexivity. }
Defined.

(** [sem_create] is all or nothing: if one of its three allocations fails it
    returns NULL and gives the others back, and otherwise the semaphore has the
    count asked for and nobody waits; [sem_destroy] of a semaphore on which nobody
    waits gives everything back, and fails an assertion if somebody does. *)
Theorem sem_create_destroy (mem name wc : option Z) (n : Z) (heap : gset Z) (s : tsys) :
  (∀ a b, mem = Some a → name = Some b → (a ∉ heap) ∧ (b ∉ heap) ∧ a ≠ b) →
  (∀ w, wc = Some w → wchans s !! w = None ∧ (w ∉ heap) ∧ mem ≠ Some w ∧ name ≠ Some w) →
  (∀ a, mem = Some a → a ∉ heap) →
  let '(sem, heap', s') := sem_create mem name wc n heap s in
  match sem with
  | None => (mem = None ∨ name = None ∨ wc = None) ∧ heap' = heap ∧ s' = s
  | Some sem =>
      sem_count sem = n ∧ wchans s' !! sem_wchan sem = Some [] ∧
      sem_destroy sem heap' s' = Some (heap, s) ∧
      ∀ s1 t l, wchans s1 !! sem_wchan sem = Some (t :: l) → sem_destroy sem heap' s1 = None
  end.
Proof.
  intros H1 H2 H4. destruct mem as [a|]; cbn; [|auto]. specialize (H4 a eq_refl).
  destruct name as [b|]; cbn; [|split; [auto|split; [set_solver|done]]].
  destruct (H1 a b eq_refl eq_refl) as (Ha & Hb & Hab). destruct wc as [w|]; cbn.
  - destruct (H2 w eq_refl) as (Hw & Hwh & Hwa & Hwb). split; [done|]. split; [by rewrite lookup_insert_eq|].
    split.
    + unfold sem_destroy, wchan_destroy, set_wchan. cbn. rewrite lookup_insert_eq. cbn.
      rewrite delete_insert_id by done. destruct s as [cs ts ws]. do 2 f_equal. set_solver.
    + intros s1 t l Hl. unfold sem_destroy, wchan_destroy. cbn. by rewrite Hl.
  - split; [auto|]. split; [set_solver|done].
Qed.

Lemma sem_create_destroy_witness :
  ∃ sem heap' s', sem_create (Some 60) (Some 61) (Some 70) 3 ∅ no_threads = (Some sem, heap', s') ∧
    sem_destroy sem heap' s' = Some (∅, no_threads).
Proof.
  pose proof (sem_create_destroy (Some 60) (Some 61) (Some 70) 3 ∅ no_threads) as H. cbn in H.
  eexists _, _, _. split; [reflexivity|]. apply H.
  - intros a b [= <-] [= <-]. split; [apply not_elem_of_empty|]. split; [apply not_elem_of_empty|done].
  - intros w [= <-]. split; [reflexivity|]. split; [apply not_elem_of_empty|done].
  - intros a _. apply not_elem_of_empty.
Defined.
