(* ===== verification/Proc.v ===== *)
(** * Proc: processes, their exit and the wait for it (kern/proc/proc.c)

    The process table on top of the scheduler and the semaphores: [proc_create],
    [proc_create_runprogram], [proc_addthread], [proc_remthread], [proc_destroy],
    with the reference counts of the vnodes a process holds (kern/vfs/vnode.c),
    and the protocol between [sys__exit] of a process and [proc_wait] of the
    thread that started it, where both run on any processor and interleave with
    everything else the scheduler does.

    A pointer that was never assigned is [None]; following it, or a failed
    assertion, gives [None].  What [as_destroy] does to the pages of an address
    space is in Release.v; here the address space leaves the set of those that
    exist. *)

From Stdlib Require Import ZArith Lia.
From stdpp Require Import base gmap list list_numbers sets.
From S2P Require Import Prelude Types Thread Frame Synch.
Set Default Goal Selector "!".
Open Scope Z_scope.

Record proc := Proc {
  p_name : Z;
  p_numthreads : Z;
  p_addrspace : option Z;
  p_cwd : option Z;
  p_vnode : option Z;
  status : option Z;
  p_sem : option semaphore;
}.

(** [vrefs] are the reference counts of the vnodes, [ps_heap] the blocks in use. *)
Record psys := PSys {
  ps_sys : tsys;
  procs : gmap Z proc;
  vrefs : gmap Z Z;
  aspaces : gset Z;
  ps_heap : gset Z;
}.

Definition set_numthreads (n : Z) (p : proc) : proc :=
  Proc (p_name p) n (p_addrspace p) (p_cwd p) (p_vnode p) (status p) (p_sem p).
Definition set_status (st : Z) (p : proc) : proc :=
  Proc (p_name p) (p_numthreads p) (p_addrspace p) (p_cwd p) (p_vnode p) (Some st) (p_sem p).
Definition set_sem (sem : option semaphore) (p : proc) : proc :=
  Proc (p_name p) (p_numthreads p) (p_addrspace p) (p_cwd p) (p_vnode p) (status p) sem.
Definition set_as (a : option Z) (p : proc) : proc :=
  Proc (p_name p) (p_numthreads p) a (p_cwd p) (p_vnode p) (status p) (p_sem p).
Definition set_pvnode (v : option Z) (p : proc) : proc :=
  Proc (p_name p) (p_numthreads p) (p_addrspace p) (p_cwd p) v (status p) (p_sem p).

Definition with_procs (f : gmap Z proc → gmap Z proc) (s : psys) : psys :=
  PSys (ps_sys s) (f (procs s)) (vrefs s) (aspaces s) (ps_heap s).
Definition with_sys (ts : tsys) (s : psys) : psys :=
  PSys ts (procs s) (vrefs s) (aspaces s) (ps_heap s).
Definition with_vrefs (m : gmap Z Z) (s : psys) : psys :=
  PSys (ps_sys s) (procs s) m (aspaces s) (ps_heap s).

(** ** Reference counts *)


(** [reclaim] is the [VOP_RECLAIM] of the file system. *)
Definition vnode_decref (reclaim : Z → gmap Z Z → gmap Z Z) (v : Z) (m : gmap Z Z) : option (gmap Z Z) :=
  n ← m !! v;
  if negb (0 <? n) then None
  else if 1 <? n then Some (<[v := n - 1]> m)
  else Some (reclaim v m).


(** ** Processes *)



Definition proc_addthread (proc t : Z) (s : psys) : option psys :=
  th ← threads (ps_sys s) !! t;
  if negb (bool_decide (t_proc th = None)) then None
  else
    p ← procs s !! proc;
    let s := with_procs <[proc := set_numthreads (u32 (p_numthreads p + 1)) p]> s in
    Some (with_sys (upd_thread t (set_tproc (Some proc)) (ps_sys s)) s).

Definition proc_remthread (t : Z) (s : psys) : option psys :=
  th ← threads (ps_sys s) !! t;
  proc ← t_proc th;
  p ← procs s !! proc;
  if negb (0 <? p_numthreads p) then None
  else
    let s := with_procs <[proc := set_numthreads (p_numthreads p - 1) p]> s in
    Some (with_sys (upd_thread t (set_tproc None) (ps_sys s)) s).

(** [vfs_close(proc->p_vnode)] comes first, before the assertions. *)
Definition proc_destroy (reclaim : Z → gmap Z Z → gmap Z Z) (kproc proc : Z) (s : psys) : option psys :=
  p ← procs s !! proc;
  v ← p_vnode p;
  m ← vnode_decref reclaim v (vrefs s);
  if bool_decide (proc = kproc) then None
  else
    m ← match p_cwd p with None => Some m | Some cwd => vnode_decref reclaim cwd m end;
    let spaces := match p_addrspace p with None => aspaces s | Some space => aspaces s ∖ {[space]} end in
    if negb (p_numthreads p =? 0) then None
    else
      sem ← p_sem p;
      '(heap, ts) ← sem_destroy sem (ps_heap s) (ps_sys s);
      Some (PSys ts (delete proc (procs s)) m spaces (heap ∖ {[p_name p]} ∖ {[proc]})).

(** ** The protocol of exit and wait

    One process [pid] with the thread [child], started and waited for by the
    thread [parent].  The child loads its program, and [runprogram] sets
    [p_vnode]; then it stores its status, leaves the process and posts its
    semaphore ([sys__exit]).  If [runprogram] fails, before it has set [p_vnode]
    or after, the child returns from [cmd_progthread] and exits.  The parent is
    in [proc_wait]. *)
Inductive cstage := CRun | CLoaded | CStored | CRemoved | CPosted | CFailed.
Inductive wstage := WBefore | WIn | WPassed | WDone (status : Z).

#[global] Instance cstage_eq_dec : EqDecision cstage.
Proof. solve_decision. Defined.

Record jsys := JSys {
  j_ps : psys;
  j_inP : gset Z;
  j_passed : Z;
  j_posted : Z;
  j_child : cstage;
  j_wait : wstage;
}.

(** [JLoad]: the file [v] is open and loaded, with the address space [space]; [JFail]: with the address space that
    [runprogram] has made, or none. *)
Inductive join_act :=
  | JLoad (c : nat) (v space : Z)
  | JStore (c : nat) | JRemove (c : nat) | JPost (c : nat) | JFail (c : nat) (space : option Z)
  | JWait (c : nat) | JAgain (c : nat) | JDestroy (c : nat) | JSched (op : sched_op).

Section join.
Context (reclaim : Z → gmap Z Z → gmap Z Z).
Context (kproc pid parent child code : Z).

Definition at_child (st : cstage) (j : jsys) : jsys :=
  JSys (j_ps j) (j_inP j) (j_passed j) (j_posted j) st (j_wait j).
Definition at_wait (st : wstage) (j : jsys) : jsys :=
  JSys (j_ps j) (j_inP j) (j_passed j) (j_posted j) (j_child j) st.
Definition with_ps (ps : psys) (j : jsys) : jsys :=
  JSys ps (j_inP j) (j_passed j) (j_posted j) (j_child j) (j_wait j).

(** The semaphore of the process in the system of Synch.v. *)
Definition sem_view (j : jsys) (sem : semaphore) : ssys :=
  SSys (ps_sys (j_ps j)) sem (j_inP j) (j_passed j) (j_posted j).

(** A step of the semaphore of the process. *)
Definition with_sem (a : sem_act) (j : jsys) : option jsys :=
  p ← procs (j_ps j) !! pid;
  sem ← p_sem p;
  s ← sem_do a (sem_view j sem);
  Some (JSys (with_procs <[pid := set_sem (Some (ss_sem s)) p]> (with_sys (ss_sys s) (j_ps j)))
          (inP s) (passed s) (posted s) (j_child j) (j_wait j)).

(** Has the thread passed [P]? *)
Definition wait_step (a : sem_act) (j : jsys) : option jsys :=
  j' ← with_sem a j;
  Some (at_wait (if j_passed j' =? j_passed j then WIn else WPassed) j').

(** The new address space of the process. *)
Definition give_space (space : Z) (ps : psys) : psys :=
  PSys (ps_sys ps) (alter (set_as (Some space)) pid (procs ps)) (vrefs ps) ({[space]} ∪ aspaces ps) (ps_heap ps).

Definition join_do (a : join_act) (j : jsys) : option jsys :=
  match a with
  | JLoad c v space =>
      p ← procs (j_ps j) !! pid;
      let m := <[v := default 0 (vrefs (j_ps j) !! v) + 1]> (vrefs (j_ps j)) in
      Some (at_child CLoaded (with_ps (with_procs (alter (set_pvnode (Some v)) pid) (with_vrefs m (give_space space (j_ps j)))) j))
  | JStore c =>
      p ← procs (j_ps j) !! pid;
      Some (at_child CStored (with_ps (with_procs <[pid := set_status (Z.land code 255) p]> (j_ps j)) j))
  | JRemove c => ps ← proc_remthread child (j_ps j); Some (at_child CRemoved (with_ps ps j))
  | JPost c => j ← with_sem (AV c) j; Some (at_child CPosted j)
  | JFail c space =>
      ps ← proc_remthread child (match space with None => j_ps j | Some a => give_space a (j_ps j) end);
      ts ← thread_exit c (ps_sys ps);
      Some (at_child CFailed (with_ps (with_sys ts ps) j))
  | JWait c => if bool_decide (pid = kproc) then None else wait_step (AEnter c) j
  | JAgain c => wait_step (ARetry c) j
  | JDestroy c =>
      p ← procs (j_ps j) !! pid;
      return_status ← status p;
      ps ← proc_destroy reclaim kproc pid (j_ps j);
      Some (at_wait (WDone return_status) (with_ps ps j))
  | JSched op => ts ← sched_do op (ps_sys (j_ps j)); Some (with_ps (with_sys ts (j_ps j)) j)
  end.

(** The thread [t] runs on [c]. *)
Definition on (j : jsys) (c : nat) (t : Z) : Prop :=
  runs (ps_sys (j_ps j)) c false ∧ current (ps_sys (j_ps j)) c = Some t.

(** The wait channel of the process, while it exists. *)
Definition proc_wchan (j : jsys) : option Z :=
  p ← procs (j_ps j) !! pid; sem ← p_sem p; Some (sem_wchan sem).

Definition cwd_of (j : jsys) : option Z := p ← procs (j_ps j) !! pid; p_cwd p.

(** A program is a file, and not the current directory. *)
Definition join_enabled (a : join_act) (j : jsys) : Prop :=
  match a with
  | JLoad c v _ => on j c child ∧ j_child j = CRun ∧ 0 ≤ default 0 (vrefs (j_ps j) !! v) ∧ cwd_of j ≠ Some v
  | JStore c => on j c child ∧ j_child j = CLoaded
  | JRemove c => on j c child ∧ j_child j = CStored
  | JPost c => on j c child ∧ j_child j = CRemoved
  | JFail c _ => on j c child ∧ (j_child j = CRun ∨ j_child j = CLoaded)
  | JWait c => on j c parent ∧ j_wait j = WBefore
  | JAgain c => on j c parent ∧ j_wait j = WIn
  | JDestroy c => on j c parent ∧ j_wait j = WPassed
  | JSched op =>
      sched_enabled op (ps_sys (j_ps j)) ∧
      (∀ w, proc_wchan j = Some w → not_on w op) ∧
      (∀ c, op_leaves op = Some c → current (ps_sys (j_ps j)) c = Some parent → j_wait j ≠ WIn) ∧
      (∀ c, op = OpExit c → current (ps_sys (j_ps j)) c = Some child → j_child j = CPosted)
  end.

(** The process has been made by [common_prog], and its thread runs; [p_vnode] is not set, and nobody has used the
    semaphore. *)
Record join_start (j : jsys) : Prop := {
  js_sched : sched_inv (ps_sys (j_ps j));
  js_stages : j_child j = CRun ∧ j_wait j = WBefore ∧ j_inP j = ∅ ∧ j_passed j = 0 ∧ j_posted j = 0;
  js_child : has (in_proc pid) (ps_sys (j_ps j)) child;
  js_proc : ∃ name space cwd sem,
    procs (j_ps j) !! pid = Some (Proc name 1 space cwd None None (Some sem)) ∧
    sem_count sem = 0 ∧ wchans (ps_sys (j_ps j)) !! sem_wchan sem = Some [] ∧
    ∀ d, cwd = Some d → ∃ k, vrefs (j_ps j) !! d = Some k ∧ 0 < k;
}.

Inductive join_reach : jsys → Prop :=
  | jr_start j : join_start j → join_reach j
  | jr_step a j j' : join_reach j → join_enabled a j → join_do a j = Some j' → join_reach j'.

(** ** The invariant *)

Definition waiting (j : jsys) : Prop := match j_wait j with WDone _ => False | _ => True end.

(** The child is still in its process; it has stored its status; its file is set. *)
Definition in_process (st : cstage) : bool := match st with CRun | CLoaded | CStored => true | _ => false end.
Definition stored (st : cstage) : bool := match st with CStored | CRemoved | CPosted => true | _ => false end.
Definition loaded (st : cstage) : bool := match st with CRun | CFailed => false | _ => true end.

Definition file_set (m : gmap Z Z) (p : proc) : Prop := ∃ v n, p_vnode p = Some v ∧ m !! v = Some n ∧ 0 < n ∧ p_cwd p ≠ Some v.
Definition cwd_counted (m : gmap Z Z) (p : proc) : Prop := ∀ d, p_cwd p = Some d → ∃ k, m !! d = Some k ∧ 0 < k.

(** What is known of the process at the stage [st] of the child. *)
Record proc_at (st : cstage) (m : gmap Z Z) (p : proc) : Prop := {
  pa_threads : p_numthreads p = if in_process st then 1 else 0;
  pa_status : stored st = true → status p = Some (Z.land code 255);
  pa_file : loaded st = true → file_set m p;
  pa_cwd : cwd_counted m p;
}.

Record join_inv (j : jsys) : Prop := {
  ji_sched : sched_inv (ps_sys (j_ps j));
  ji_posted : j_posted j = if decide (j_child j = CPosted) then 1 else 0;
  ji_passed : j_passed j = match j_wait j with WPassed | WDone _ => 1 | _ => 0 end;
  ji_inP : j_inP j = match j_wait j with WIn => {[parent]} | _ => ∅ end;
  ji_child : in_process (j_child j) = true → has (in_proc pid) (ps_sys (j_ps j)) child;
  ji_proc : waiting j → ∃ p sem, procs (j_ps j) !! pid = Some p ∧ p_sem p = Some sem ∧ sem_inv 0 (sem_view j sem) ∧ proc_at (j_child j) (vrefs (j_ps j)) p;
  ji_done : ∀ st, j_wait j = WDone st →
    st = Z.land code 255 ∧ j_child j = CPosted ∧ procs (j_ps j) !! pid = None;
}.

Lemma start_inv j : join_start j → join_inv j.
Proof.
  intros [Hs (Hc & Hw & HP & Hp1 & Hp2) Hch (name & space & cwd & sem & Hp & Hn & Hwc & Hcwd)].
  split; rewrite ?Hc, ?Hw; try done.
  - intros _. eexists _, sem. split; [exact Hp|]. cbn. split; [done|]. split; [|by split].
    unfold sem_view. rewrite HP, Hp1, Hp2. split; cbn; [done|lia|lia|].
    exists []. split; [done|]. set_solver.
Qed.

(** Forgetting the process of a thread keeps the scheduler's invariant. *)
Lemma tproc_inv t s : sched_inv s → sched_inv (upd_thread t (set_tproc None) s).
Proof.
  intros [H1 H2 H3 H4 H5 H6].
  assert (Hlk : ∀ u th, threads s !! u = Some th →
    ∃ th', threads (upd_thread t (set_tproc None) s) !! u = Some th' ∧ t_cpu th' = t_cpu th ∧
      ∀ p, place_ok p th → place_ok p th').
  { intros u th Hu. cbn. destruct (decide (t = u)) as [->|].
    - rewrite lookup_alter_eq, Hu. eexists. split; [done|]. split; [done|].
      intros [c|c|c|c|w']; cbn; tauto.
    - rewrite lookup_alter_ne by done. by eauto. }
  split; try done.
  - intros p u Hu. destruct (H1 p u Hu) as (th & Hth & Hok). destruct (Hlk u th Hth) as (th' & ? & _ & Hpl). eauto.
  - intros u th. cbn. rewrite lookup_alter_Some. intros [(-> & th0 & Hu & ->)|[_ Hu]]; exact (H4 _ _ Hu).
  - intros c cp Hc. destruct (H5 c cp Hc) as (th & Hth & Hcpu). destruct (Hlk _ th Hth) as (th' & ? & ? & _).
    exists th'. split; [done|congruence].
  - intros u th. cbn. rewrite lookup_alter_Some. intros [(-> & th0 & Hu & ->)|[_ Hu]]; exact (H6 _ _ Hu).
Qed.

Lemma tproc_sem_inv n t s : sem_inv n s →
  sem_inv n (SSys (upd_thread t (set_tproc None) (ss_sys s)) (ss_sem s) (inP s) (passed s) (posted s)).
Proof.
  intros [Hi Hn Hr (sl & Hw & Hsub & Hawk & Hlost)]. split; cbn; [by apply tproc_inv|done|done|].
  exists sl. split; [done|]. split; [done|]. split; [|done]. intros u Hu Hsl.
  eapply (fr_has 0 None awake_state); [|done|by apply Hawk]. apply frame_thread. right. intros th. done.
Qed.

(** ** Steps of the semaphore *)

(** They leave the threads in their processes. *)
Lemma pass_has c sem s ok sem' s' t :
  P_pass c sem s = Some (ok, sem', s') → has (in_proc pid) s t → has (in_proc pid) s' t.
Proof.
  unfold P_pass. destruct (sem_count sem =? 0).
  - unfold wchan_sleep. destruct (thread_switch c S_SLEEP (sem_wchan sem) s) as [s1|] eqn:E; [|done]. cbn.
    intros [= _ _ <-]. eapply (fr_has (sem_wchan sem + 1) None); [|done].
    refine (frame_switch _ _ _ _ _ _ _ _ E _ _); [lia|]. right. by intros.
  - destruct (negb _); [done|]. by intros [= _ _ <-].
Qed.

Lemma V_has c sem s sem' s' t : V c sem s = Some (sem', s') → has (in_proc pid) s t → has (in_proc pid) s' t.
Proof.
  unfold V. destruct (negb _); [done|]. unfold wchan_wakeone. cbn.
  destruct (wchans s !! sem_wchan sem) as [[|u l]|]; cbn; [by intros [= _ <-]| |done].
  destruct (thread_make_runnable _ _ _) as [s1|] eqn:E; [|done]. cbn. intros [= _ <-] Hh.
  eapply (fr_has (sem_wchan sem + 1) None); [exact (frame_make_runnable _ _ _ _ _ _ _ E)|done|]. exact Hh.
Qed.

Lemma enter_result c s s' t :
  sem_do (AEnter c) s = Some s' → current (ss_sys s) c = Some t →
  posted s' = posted s ∧
  (passed s' = passed s + 1 ∧ inP s' = inP s ∨ passed s' = passed s ∧ inP s' = {[t]} ∪ inP s) ∧
  ∀ u, has (in_proc pid) (ss_sys s) u → has (in_proc pid) (ss_sys s') u.
Proof.
  intros Hs Ht. cbn in Hs. rewrite Ht in Hs. cbn in Hs.
  destruct (P_pass _ _ _) as [[[ok sem] ts]|] eqn:E; [|done]. cbn in Hs.
  pose proof (λ u, pass_has _ _ _ _ _ _ u E) as Hh.
  destruct ok; injection Hs as <-; cbn; auto 6.
Qed.

Lemma retry_result c s s' t :
  sem_do (ARetry c) s = Some s' → current (ss_sys s) c = Some t →
  posted s' = posted s ∧
  (passed s' = passed s + 1 ∧ inP s' = inP s ∖ {[t]} ∨ passed s' = passed s ∧ inP s' = inP s) ∧
  ∀ u, has (in_proc pid) (ss_sys s) u → has (in_proc pid) (ss_sys s') u.
Proof.
  intros Hs Ht. cbn in Hs. rewrite Ht in Hs. cbn in Hs.
  destruct (P_pass _ _ _) as [[[ok sem] ts]|] eqn:E; [|done]. cbn in Hs.
  pose proof (λ u, pass_has _ _ _ _ _ _ u E) as Hh.
  destruct ok; injection Hs as <-; cbn; auto 6.
Qed.

Lemma V_result c s s' :
  sem_do (AV c) s = Some s' →
  posted s' = posted s + 1 ∧ passed s' = passed s ∧ inP s' = inP s.
Proof. cbn. destruct (V _ _ _) as [[sem ts]|]; [|done]. cbn. by intros [= <-]. Qed.

Lemma with_sem_run a j p sem :
  procs (j_ps j) !! pid = Some p → p_sem p = Some sem → sem_inv 0 (sem_view j sem) →
  sem_enabled a (sem_view j sem) →
  ∃ s, sem_do a (sem_view j sem) = Some s ∧ sem_inv 0 s ∧
    with_sem a j = Some (JSys (with_procs <[pid := set_sem (Some (ss_sem s)) p]> (with_sys (ss_sys s) (j_ps j)))
                           (inP s) (passed s) (posted s) (j_child j) (j_wait j)).
Proof.
  intros Hp Hsem Hinv Hen. destruct (sem_do_run 0 a _ Hinv Hen) as (s & Hs & Hinv').
  exists s. split; [done|]. split; [done|]. unfold with_sem. rewrite Hp. cbn. rewrite Hsem. cbn. by rewrite Hs.
Qed.

(** ** Every step succeeds and keeps the invariant *)

Lemma child_waiting j : join_inv j → j_child j ≠ CPosted → waiting j.
Proof.
  intros Hi Hc. unfold waiting. destruct (j_wait j) as [| | |st] eqn:E; try done.
  by destruct (ji_done _ Hi st E) as (_ & ? & _).
Qed.

(** While the child has not posted, the parent has not passed. *)
Lemma not_posted j : join_inv j → j_child j ≠ CPosted → j_wait j = WBefore ∨ j_wait j = WIn.
Proof.
  intros Hi Hc. destruct (ji_proc _ Hi (child_waiting _ Hi Hc)) as (p & sem & _ & _ & Hsem & _).
  pose proof (sv_count _ _ Hsem) as Hn. pose proof (sv_range _ _ Hsem) as Hr. cbn in Hn, Hr.
  pose proof (ji_posted _ Hi) as Hpo. rewrite decide_False in Hpo by done.
  pose proof (ji_passed _ Hi) as Hpa. destruct (j_wait j); auto; lia.
Qed.

Lemma load_run c v space j :
  join_inv j → join_enabled (JLoad c v space) j → ∃ j', join_do (JLoad c v space) j = Some j' ∧ join_inv j'.
Proof.
  intros Hi (_ & Hc & Hv & Hcwd). pose proof (child_waiting _ Hi ltac:(by rewrite Hc)) as Hwt.
  destruct (ji_proc _ Hi Hwt) as (p & sem & Hp & Hsem & Hinv & [A1 A2 A3 A4]). unfold cwd_of in Hcwd. rewrite Hp in Hcwd. cbn in Hcwd.
  cbn. rewrite Hp. cbn. eexists. split; [done|]. destruct Hi as [H1 H2 H3 H4 H5 _ H7]. rewrite Hc in *.
  split; cbn; [done|by rewrite H2, !decide_False|done|done|by auto| |].
  - intros _. eexists _, sem. rewrite lookup_alter_eq, lookup_alter_eq, Hp. split; [done|]. cbn. split; [done|]. split; [exact Hinv|].
    split; cbn; [done|done| |].
    + intros _. exists v, (default 0 (vrefs (j_ps j) !! v) + 1). rewrite lookup_insert_eq. split_and!; [done|done|lia|done].
    + intros d Hd. cbn in Hd. destruct (A4 d Hd) as (k & Hk & Hpos). exists k. rewrite lookup_insert_ne by congruence. done.
  - intros st Hst. destruct (H7 st Hst) as (_ & ? & _). congruence.
Qed.

Lemma status_run c j : join_inv j → join_enabled (JStore c) j → ∃ j', join_do (JStore c) j = Some j' ∧ join_inv j'.
Proof.
  intros Hi [_ Hc]. pose proof (child_waiting _ Hi ltac:(by rewrite Hc)) as Hwt.
  destruct (ji_proc _ Hi Hwt) as (p & sem & Hp & Hsem & Hinv & [A1 A2 A3 A4]).
  cbn. rewrite Hp. cbn. eexists. split; [done|]. destruct Hi as [H1 H2 H3 H4 H5 _ H7]. rewrite Hc in *.
  split; cbn; [done|by rewrite H2, !decide_False|done|done|by auto| |].
  - intros _. eexists _, sem. split; [by rewrite lookup_insert_eq|]. cbn. split; [done|]. split; [exact Hinv|]. split; cbn; [done|done|intros _; by apply A3|done].
  - intros st Hst. destruct (H7 st Hst) as (_ & ? & _). congruence.
Qed.

Lemma remthread_run t th p s :
  threads (ps_sys s) !! t = Some th → t_proc th = Some pid → procs s !! pid = Some p → p_numthreads p = 1 →
  proc_remthread t s = Some (with_sys (upd_thread t (set_tproc None) (ps_sys s))
                               (with_procs <[pid := set_numthreads 0 p]> s)).
Proof. intros Ht Hth Hp Hn. unfold proc_remthread. rewrite Ht. cbn. rewrite Hth. cbn. rewrite Hp. cbn. by rewrite Hn. Qed.

Lemma leave_run c j : join_inv j → join_enabled (JRemove c) j → ∃ j', join_do (JRemove c) j = Some j' ∧ join_inv j'.
Proof.
  intros Hi [_ Hc]. pose proof (child_waiting _ Hi ltac:(by rewrite Hc)) as Hwt.
  destruct (ji_proc _ Hi Hwt) as (p & sem & Hp & Hsem & Hinv & [A1 A2 A3 A4]). rewrite Hc in A1, A2, A3.
  destruct (ji_child _ Hi ltac:(by rewrite Hc)) as (th & Hth & Hpr).
  cbn. rewrite (remthread_run child th p _ Hth Hpr Hp A1). cbn. eexists. split; [done|].
  destruct Hi as [H1 H2 H3 H4 H5 _ H7]. rewrite Hc in *. split; cbn; [by apply tproc_inv|by rewrite H2, !decide_False|done|done|done| |].
  - intros _. eexists _, sem. split; [by rewrite lookup_insert_eq|]. cbn. split; [done|].
    split; [exact (tproc_sem_inv 0 child _ Hinv)|]. split; cbn; [done|intros _; by apply A2|intros _; by apply A3|done].
  - intros st' Hst'. destruct (H7 st' Hst') as (_ & ? & _). congruence.
Qed.

Lemma post_run c j : join_inv j → join_enabled (JPost c) j → ∃ j', join_do (JPost c) j = Some j' ∧ join_inv j'.
Proof.
  intros Hi [_ Hc]. pose proof (child_waiting _ Hi ltac:(by rewrite Hc)) as Hwt.
  destruct (ji_proc _ Hi Hwt) as (p & sem & Hp & Hsem & Hinv & [A1 A2 A3 A4]). rewrite Hc in A1, A2, A3.
  pose proof (ji_posted _ Hi) as Hpo. rewrite Hc, decide_False in Hpo by done.
  destruct (with_sem_run (AV c) j p sem Hp Hsem Hinv) as (s & Hs & Hinv' & Hdo).
  { pose proof (ji_passed _ Hi) as Hpa. pose proof (sv_count _ _ Hinv) as Hn. cbn in Hn |- *.
    destruct (j_wait j); lia. }
  destruct (V_result c _ _ Hs) as (Hq1 & Hq2 & Hq3). cbn in Hq1, Hq2, Hq3.
  cbn. rewrite Hdo. cbn. eexists. split; [done|]. destruct Hi as [H1 H2 H3 H4 H5 _ H7]. split; cbn.
  - apply Hinv'.
  - rewrite decide_True by done. lia.
  - by rewrite Hq2, H3.
  - by rewrite Hq3, H4.
  - done.
  - intros _. eexists _, (ss_sem s). split; [by rewrite lookup_insert_eq|]. cbn. split; [done|].
    split; [by destruct s|]. split; cbn; [done|intros _; by apply A2|intros _; by apply A3|done].
  - intros st Hst'. destruct (H7 st Hst') as (_ & ? & _). congruence.
Qed.

Lemma spaced_proc space ps p :
  procs ps !! pid = Some p → ∃ p', procs (match space with None => ps | Some a => give_space a ps end) !! pid = Some p' ∧
    p_numthreads p' = p_numthreads p ∧ p_sem p' = p_sem p ∧ p_cwd p' = p_cwd p.
Proof. intros Hp. destruct space as [a|]; [|by exists p]. cbn. rewrite lookup_alter_eq, Hp. by eexists. Qed.

Lemma fail_run c space j :
  parent ≠ child → join_inv j → join_enabled (JFail c space) j → ∃ j', join_do (JFail c space) j = Some j' ∧ join_inv j'.
Proof.
  intros Hne Hi [Hon Hc]. assert (Hin : in_process (j_child j) = true ∧ j_child j ≠ CPosted) by (by destruct Hc as [-> | ->]).
  destruct Hin as [Hin Hnp]. pose proof (child_waiting _ Hi Hnp) as Hwt. destruct (ji_proc _ Hi Hwt) as (p & sem & Hp & Hsem & Hinv & [A1 _ _ A4]). rewrite Hin in A1.
  destruct (ji_child _ Hi Hin) as (th & Hth & Hpr). destruct (spaced_proc space _ p Hp) as (p' & Hp' & E1 & E2 & E3). set (ps := match space with None => _ | Some a => _ end) in *.
  assert (Eps : ps_sys ps = ps_sys (j_ps j) ∧ vrefs ps = vrefs (j_ps j)) by (unfold ps; by destruct space). destruct Eps as [Es Ev].
  cbn [join_do]. fold ps. rewrite (remthread_run child th p' ps) by (by rewrite ?Es, ?E1). cbn [mbind option_bind].
  pose proof (tproc_sem_inv 0 child _ Hinv) as Hinv1. destruct Hon as [Hr Hcur].
  destruct (sem_do_run 0 (ASched (OpExit c)) _ Hinv1) as (s & Hs & Hinv').
  { cbn. split; [exact Hr|]. split; [done|]. intros c' t [= <-] Ht. unfold current in Ht, Hcur. cbn in Ht, Hcur.
    rewrite Hcur in Ht. injection Ht as <-. rewrite (ji_inP _ Hi). destruct (j_wait j); set_solver. }
  cbn in Hs. rewrite <- Es in Hs. cbn [with_sys ps_sys with_procs]. destruct (thread_exit c _) as [ts|] eqn:E; [|done]. cbn in Hs. injection Hs as <-.
  cbn. eexists. split; [done|]. destruct Hi as [H1 H2 H3 H4 H5 _ H7]. split; cbn; [apply Hinv'|by rewrite H2, !decide_False|done|done|done| |].
  - intros _. eexists _, sem. split; [by rewrite lookup_insert_eq|]. cbn. split; [congruence|]. split; [exact Hinv'|].
    split; [done|done|done|]. unfold cwd_counted. cbn. by rewrite E3, Ev.
  - intros st' Hst'. destruct (H7 st' Hst') as (_ & ? & _). congruence.
Qed.

(** Both rounds of [P] in [proc_wait]. *)
Lemma wait_run j a s p sem :
  join_inv j → waiting j → j_passed j = 0 →
  procs (j_ps j) !! pid = Some p → p_sem p = Some sem → sem_inv 0 s → proc_at (j_child j) (vrefs (j_ps j)) p →
  with_sem a j = Some (JSys (with_procs <[pid := set_sem (Some (ss_sem s)) p]> (with_sys (ss_sys s) (j_ps j)))
                         (inP s) (passed s) (posted s) (j_child j) (j_wait j)) →
  posted s = j_posted j → (passed s = 1 ∧ inP s = ∅ ∨ passed s = 0 ∧ inP s = {[parent]}) →
  (∀ u, has (in_proc pid) (ps_sys (j_ps j)) u → has (in_proc pid) (ss_sys s) u) →
  ∃ j', wait_step a j = Some j' ∧ join_inv j'.
Proof.
  intros Hi Hwt Hp0 Hp Hsem Hinv [A1 A2 A3 A4] Hdo Hpo Hres Hhas.
  unfold wait_step. rewrite Hdo. cbn. eexists. split; [done|]. destruct Hi as [H1 H2 H3 H4 H5 _ H7].
  rewrite Hp0. split; cbn; [apply Hinv|congruence| | |by auto| |].
  - destruct Hres as [[-> _]|[-> _]]; done.
  - destruct Hres as [[-> ->]|[-> ->]]; done.
  - intros _. eexists _, (ss_sem s). split; [by rewrite lookup_insert_eq|]. cbn. split; [done|].
    split; [by destruct s|]. by split.
  - intros st. by destruct (passed s =? 0).
Qed.

Lemma enter_run c j :
  pid ≠ kproc → join_inv j → join_enabled (JWait c) j → ∃ j', join_do (JWait c) j = Some j' ∧ join_inv j'.
Proof.
  intros Hk Hi [[Hr Hcur] Hw]. assert (Hwt : waiting j) by (unfold waiting; by rewrite Hw).
  destruct (ji_proc _ Hi Hwt) as (p & sem & Hp & Hsem & Hinv & Hat).
  pose proof (ji_inP _ Hi) as HP. pose proof (ji_passed _ Hi) as Hpa. rewrite Hw in HP, Hpa.
  destruct (with_sem_run (AEnter c) j p sem Hp Hsem Hinv) as (s & Hs & Hinv' & Hdo).
  { split; [exact Hr|]. cbn. intros t _. rewrite HP. apply not_elem_of_empty. }
  destruct (enter_result c _ _ parent Hs Hcur) as (Hpo & Hres & Hhas). cbn in Hpo, Hres, Hhas.
  cbn [join_do]. rewrite bool_decide_eq_false_2 by done.
  eapply wait_run; try done. rewrite Hpa, HP in Hres. destruct Hres as [[-> ->]|[-> ->]]; [by left|right]. set_solver.
Qed.

Lemma again_run c j :
  join_inv j → join_enabled (JAgain c) j → ∃ j', join_do (JAgain c) j = Some j' ∧ join_inv j'.
Proof.
  intros Hi [[Hr Hcur] Hw]. assert (Hwt : waiting j) by (unfold waiting; by rewrite Hw).
  destruct (ji_proc _ Hi Hwt) as (p & sem & Hp & Hsem & Hinv & Hat).
  pose proof (ji_inP _ Hi) as HP. pose proof (ji_passed _ Hi) as Hpa. rewrite Hw in HP, Hpa.
  destruct (with_sem_run (ARetry c) j p sem Hp Hsem Hinv) as (s & Hs & Hinv' & Hdo).
  { split; [exact Hr|]. cbn. exists parent. split; [done|]. rewrite HP. set_solver. }
  destruct (retry_result c _ _ parent Hs Hcur) as (Hpo & Hres & Hhas). cbn in Hpo, Hres, Hhas.
  eapply wait_run; try done. rewrite Hpa, HP in Hres. destruct Hres as [[-> ->]|[-> ->]]; [left|by right]. set_solver.
Qed.

(** The file system's [VOP_RECLAIM] of a vnode leaves the counts of the others. *)
Definition reclaim_local : Prop := ∀ v u m, u ≠ v → reclaim v m !! u = m !! u.

Lemma decref_run v n m : m !! v = Some n → 0 < n → ∃ m', vnode_decref reclaim v m = Some m' ∧
  (reclaim_local → ∀ u, u ≠ v → m' !! u = m !! u).
Proof.
  intros Hv Hn. unfold vnode_decref. rewrite Hv. cbn. rewrite (proj2 (Z.ltb_lt 0 n) Hn). cbn.
  destruct (1 <? n); eexists; (split; [done|]); intros Hr u Hu; [by rewrite lookup_insert_ne|by apply Hr].
Qed.

Lemma destroy_run c j :
  reclaim_local → pid ≠ kproc → join_inv j → join_enabled (JDestroy c) j →
  ∃ j', join_do (JDestroy c) j = Some j' ∧ join_inv j'.
Proof.
  intros Hloc Hk Hi [_ Hw]. assert (Hwt : waiting j) by (unfold waiting; by rewrite Hw).
  destruct (ji_proc _ Hi Hwt) as (p & sem & Hp & Hsem & Hinv & [Hnt Hst Hfile Hcwd]).
  assert (Hc : j_child j = CPosted).
  { destruct (decide (j_child j = CPosted)) as [|Hnot]; [done|].
    by destruct (not_posted _ Hi Hnot) as [?|?]; rewrite Hw in *. }
  rewrite Hc in Hnt, Hst, Hfile. specialize (Hst eq_refl). destruct (Hfile eq_refl) as (v & n & Hv & Hvn & Hn0 & Hvd). cbn in Hnt.
  destruct (sv_wchan _ _ Hinv) as (sl & Hsl & Hsub & _). cbn in Hsl, Hsub.
  assert (sl = []) as ->.
  { destruct sl as [|t l]; [done|]. specialize (Hsub t ltac:(by left)). rewrite (ji_inP _ Hi), Hw in Hsub. set_solver. }
  destruct (decref_run v n _ Hvn Hn0) as (m & Hm & Hmo). specialize (Hmo Hloc).
  assert (∃ m2, match p_cwd p with None => Some m | Some cwd => vnode_decref reclaim cwd m end = Some m2) as [m2 Hm2].
  { destruct (p_cwd p) as [d|] eqn:Ed; [|by eexists]. destruct (Hcwd d) as (k & Hk1 & Hk2); [done|].
    rewrite <- Hmo in Hk1 by congruence. destruct (decref_run d k m Hk1 Hk2) as (m2 & ? & _). eauto. }
  cbn. rewrite Hp. cbn. rewrite Hst. cbn. unfold proc_destroy. rewrite Hp. cbn. rewrite Hv. cbn. rewrite Hm. cbn.
  rewrite bool_decide_eq_false_2, Hm2 by done. cbn. rewrite Hnt. cbn. rewrite Hsem. cbn.
  unfold sem_destroy, wchan_destroy. rewrite Hsl. cbn. eexists. split; [done|].
  pose proof (ji_sched _ Hi) as Hs. destruct Hi as [H1 H2 H3 H4 H5 _ H7]. split; cbn.
  - apply (wchan_inv _ _ []); [done|by rewrite Hsl|done].
  - done.
  - by rewrite H3, Hw.
  - by rewrite H4, Hw.
  - by rewrite Hc.
  - done.
  - intros st [= <-]. by rewrite Hc, lookup_delete_eq.
Qed.

Lemma sched_run op j : join_inv j → join_enabled (JSched op) j → ∃ j', join_do (JSched op) j = Some j' ∧ join_inv j'.
Proof.
  intros Hi (Hen & Hon & Hpar & Hexit).
  destruct (sched_do_run op _ (ji_sched _ Hi) Hen) as (ts & Hts & Hs'). cbn. rewrite Hts. cbn. eexists. split; [done|].
  assert (Hch : in_process (j_child j) = true → has (in_proc pid) ts child).
  { intros Hc. set (x := match op with OpExit c => current (ps_sys (j_ps j)) c | _ => None end).
    assert (Hfree : ∃ w0, not_on w0 op).
    { destruct op; cbn; try (exists 0; done); match goal with |- ∃ w0, ?w ≠ w0 => exists (w + 1); lia end. }
    destruct Hfree as [w0 Hw0].
    destruct (frame_sched w0 x (in_proc pid) op _ _ Hen Hts Hw0) as [_ Hfh].
    - intros c w' ->. right. by intros.
    - by intros c ->.
    - apply Hfh; [|by apply Hi]. intros Hx. destruct op; try done. specialize (Hexit _ eq_refl Hx).
      by rewrite Hexit in Hc. }
  destruct Hi as [H1 H2 H3 H4 H5 H6 H7]. split; cbn; try done.
  intros Hwt. destruct (H6 Hwt) as (p & sem & Hp & Hsem & Hinv & Hrest).
  exists p, sem. split; [done|]. split; [done|]. split; [|done].
  destruct (sem_do_run 0 (ASched op) _ Hinv) as (s & Hs & Hinv').
  { cbn. split; [done|]. split; [apply Hon; unfold proc_wchan; rewrite Hp; cbn; by rewrite Hsem|].
    intros c t Hl Ht. rewrite H4. specialize (Hpar c Hl). destruct (j_wait j); set_solver. }
  cbn in Hs. rewrite Hts in Hs. injection Hs as <-. exact Hinv'.
Qed.

Lemma join_run a j :
  reclaim_local → pid ≠ kproc → parent ≠ child → join_inv j → join_enabled a j →
  ∃ j', join_do a j = Some j' ∧ join_inv j'.
Proof.
  intros Hloc Hk Hne Hi. destruct a as [c v space|c|c|c|c space|c|c|c|op]; intros Hen.
  - by apply load_run.
  - by apply status_run.
  - by apply leave_run.
  - by apply post_run.
  - by apply fail_run.
  - by apply enter_run.
  - by apply again_run.
  - by apply destroy_run.
  - by apply sched_run.
Qed.

Lemma join_reach_inv j : reclaim_local → pid ≠ kproc → parent ≠ child → join_reach j → join_inv j.
Proof.
  intros Hloc Hk Hne. induction 1 as [j Hst|a j j' _ IH Hen Hdo]; [by apply start_inv|].
  destruct (join_run a j Hloc Hk Hne IH Hen) as (j1 & Hj1 & Hi). rewrite Hdo in Hj1. by injection Hj1 as <-.
Qed.

End join.

(** ** Properties *)

(** C9: exit and wait.  However the two threads interleave with each other and with
    everything else on the processors: when [proc_wait] returns, its result is
    the status the process gave to [sys__exit], modulo 256, the process has
    left its thread and posted before, and its structure is gone; no assertion
    fails ([p_numthreads] is zero and nobody waits when the process is
    destroyed) and nothing is followed that was freed or never set. *)
Theorem wait_returns_exit_status reclaim kproc pid parent child code j :
  reclaim_local reclaim → pid ≠ kproc → parent ≠ child →
  join_reach reclaim kproc pid parent child code j →
  (∀ st, j_wait j = WDone st →
     st = Z.land code 255 ∧ j_child j = CPosted ∧ procs (j_ps j) !! pid = None) ∧
  (∀ a, join_enabled pid parent child a j → is_Some (join_do reclaim kproc pid child code a j)).
Proof.
  intros Hloc Hk Hne Hr. pose proof (join_reach_inv _ _ _ _ _ _ j Hloc Hk Hne Hr) as Hi.
  split; [apply (ji_done _ _ _ _ _ Hi)|]. intros a Hen.
  destruct (join_run reclaim kproc pid parent child code a j Hloc Hk Hne Hi Hen) as (j' & -> & _). done.
Qed.

Definition demo_join : jsys :=
  JSys (PSys (TSys [Cpu 1 false [] [] 0 []; Cpu 2 false [] [] 0 []]
                (<[2 := Thread S_READY 1 (Some 9)]> (<[1 := Thread S_READY 0 (Some 0)]> ∅)) {[70 := []]})
             {[9 := Proc 90 1 None (Some 92) None None (Some (Sem 60 61 70 0))]}
             {[92 := 2]} ∅ {[90; 9; 60; 61; 70]})
       ∅ 0 0 CRun WBefore.

Fixpoint join_dos (l : list join_act) (j : jsys) : option jsys :=
  match l with
  | [] => Some j
  | a :: l' => j ← join_do (λ v m, delete v m) 0 9 2 300 a j; join_dos l' j
  end.

Lemma demo_join_start : join_start 9 2 demo_join.
Proof.
  split.
  - apply (wchan_inv (TSys _ _ ∅) 70 []); [|reflexivity]. eapply sched_reach_inv.
    eapply (sr_step (OpCpuCreate 2 9)).
    { eapply (sr_step (OpCpuCreate 1 0)); [apply sr_start|reflexivity|reflexivity]. }
    { reflexivity. }
    { reflexivity. }
  - done.
  - by eexists.
  - eexists 90, _, _, _. split; [reflexivity|]. split; [reflexivity|]. split; [reflexivity|]. intros d [= <-]. by exists 2.
Qed.

(** The parent sleeps in [proc_wait] before the child exits with 300. *)
Lemma wait_returns_exit_status_witness :
  ∃ j, join_dos [JWait 0; JLoad 1 93 91; JStore 1; JRemove 1; JPost 1; JSched (OpPick 0); JAgain 0; JDestroy 0] demo_join = Some j ∧
    j_wait j = WDone 44 ∧ procs (j_ps j) !! 9 = None.
Proof.
  eexists. split; [vm_compute; reflexivity|]. split; [reflexivity|].
  refine (proj2 (proj2 (proj1 (wait_returns_exit_status (λ v m, delete v m) 0 9 1 2 300 _ _ _ _ _) 44 _)));
    [..|reflexivity].
  - intros v u m Hu. by rewrite lookup_delete_ne.
  - done.
  - done.
  - eapply (jr_step _ _ _ _ _ _ (JDestroy 0)).
    { eapply (jr_step _ _ _ _ _ _ (JAgain 0)).
      { eapply (jr_step _ _ _ _ _ _ (JSched (OpPick 0))).
        { eapply (jr_step _ _ _ _ _ _ (JPost 1)).
          { eapply (jr_step _ _ _ _ _ _ (JRemove 1)).
            { eapply (jr_step _ _ _ _ _ _ (JStore 1)).
              { eapply (jr_step _ _ _ _ _ _ (JLoad 1 93 91)).
                { eapply (jr_step _ _ _ _ _ _ (JWait 0)).
                  { apply jr_start, demo_join_start. }
                  { by split; [split; [eexists|]|]. }
                  { vm_compute. reflexivity. } }
                { split; [split; [eexists; done|done]|]. split; [done|]. split; [done|]. vm_compute. discriminate. }
                { vm_compute. reflexivity. } }
              { by split; [split; [eexists|]|]. }
              { vm_compute. reflexivity. } }
            { by split; [split; [eexists|]|]. }
            { vm_compute. reflexivity. } }
          { by split; [split; [eexists|]|]. }
          { vm_compute. reflexivity. } }
        { cbn. split; [by eexists|]. by split. }
        { vm_compute. reflexivity. } }
      { by split; [split; [eexists|]|]. }
      { vm_compute. reflexivity. } }
    { by split; [split; [eexists|]|]. }
    { vm_compute. reflexivity. }
Defined.

(** A step of the protocol that can happen. *)
Definition join_step reclaim kproc pid parent child code (j j' : jsys) : Prop :=
  ∃ a, join_enabled pid parent child a j ∧ join_do reclaim kproc pid child code a j = Some j'.

Lemma failed_stays reclaim kproc pid parent child code j j' :
  join_step reclaim kproc pid parent child code j j' → j_child j = CFailed → j_child j' = CFailed.
Proof.
  intros (a & Hen & Hdo) Hf.
  assert (Hsem : ∀ a j', with_sem pid a j = Some j' → j_child j' = CFailed).
  { intros b j1. unfold with_sem. destruct (procs (j_ps j) !! pid) as [p|]; [|done]. cbn.
    destruct (p_sem p); [|done]. cbn. destruct (sem_do b _); [|done]. cbn. by intros [= <-]. }
  assert (Hwait : ∀ a j', wait_step pid a j = Some j' → j_child j' = CFailed).
  { intros b j1. unfold wait_step. destruct (with_sem pid b j) as [j2|] eqn:E; [|done]. cbn. intros [= <-].
    exact (Hsem _ _ E). }
  destruct a as [c v space|c|c|c|c space|c|c|c|op]; cbn in Hen; try (destruct Hen; congruence).
  { destruct Hen as (_ & Hc & _). congruence. }
  { destruct Hen as [_ [Hc|Hc]]; congruence. }
  - cbn in Hdo. destruct (bool_decide _); [done|]. by apply Hwait in Hdo.
  - by apply Hwait in Hdo.
  - cbn in Hdo. destruct (procs (j_ps j) !! pid) as [p|]; [|done]. cbn in Hdo.
    destruct (status p); [|done]. cbn in Hdo. destruct (proc_destroy _ _ _ _); [|done]. by injection Hdo as <-.
  - cbn in Hdo. destruct (sched_do _ _); [|done]. by injection Hdo as <-.
Qed.

(** C25: a program that cannot be run.  [runprogram] fails, before it has set [p_vnode] (the file cannot be opened, there is no
    memory, or it is no executable) or after: [cmd_progthread] returns, its thread
    leaves the process and exits without posting the semaphore of the process: from then on
    [proc_wait] never returns, whatever happens. *)
Theorem failed_program_blocks_wait reclaim kproc pid parent child code j c space j1 j2 :
  reclaim_local reclaim → pid ≠ kproc → parent ≠ child →
  join_reach reclaim kproc pid parent child code j →
  join_enabled pid parent child (JFail c space) j → join_do reclaim kproc pid child code (JFail c space) j = Some j1 →
  rtc (join_step reclaim kproc pid parent child code) j1 j2 →
  j_wait j2 = WBefore ∨ j_wait j2 = WIn.
Proof.
  intros Hloc Hk Hne Hr Hen Hdo Hrun.
  assert (Hf : j_child j1 = CFailed).
  { cbn in Hdo. destruct (proc_remthread _ _) as [ps|]; [|done]. cbn in Hdo.
    destruct (thread_exit _ _); [|done]. by injection Hdo as <-. }
  assert (Hi : join_inv pid parent child code j1).
  { eapply (join_reach_inv reclaim kproc); try done. by eapply jr_step. }
  clear Hen Hdo Hr. induction Hrun as [j1|j1 j3 j2 Hstep _ IH].
  { eapply not_posted; [done|]. by rewrite Hf. }
  apply IH; [by eapply failed_stays|]. destruct Hstep as (a & Hen & Hdo).
  destruct (join_run reclaim kproc pid parent child code a j1 Hloc Hk Hne Hi Hen) as (j4 & Hj4 & Hi4).
  rewrite Hdo in Hj4. by injection Hj4 as <-.
Qed.

Lemma failed_program_blocks_wait_witness :
  ∃ j1, join_dos [JFail 1 (Some 91)] demo_join = Some j1 ∧ (j_wait j1 = WBefore ∨ j_wait j1 = WIn).
Proof.
  eexists. split; [vm_compute; reflexivity|].
  eapply (failed_program_blocks_wait (λ v m, delete v m) 0 9 1 2 300 demo_join 1 (Some 91)).
  - intros v u m Hu. by rewrite lookup_delete_ne.
  - done.
  - done.
  - apply jr_start, demo_join_start.
  - split; [by split; [eexists|]|by left].
  - vm_compute. reflexivity.
  - apply rtc_refl.
Defined.



