(* ===== verification/Copyinout.v ===== *)
(** * Copyinout: copying between the kernel and user memory (kern/vm/copyinout.c)

    The kernel reads and writes user memory through the same TLB as the program;
    a fault in kernel mode that [vm_fault] cannot resolve continues in
    [copyfail], which makes the copy return [EFAULT].  A copy is the sequence of
    its accesses of one byte each ([memcpy] moves aligned words, of which all
    bytes lie on one page).

    On addresses of the segments these functions read and write the flat
    memory of User.v, with the lengths and the errors of their comments. *)

From stdpp Require Import base gmap list list_numbers strings fin_maps.
From Stdlib Require Import ZArith Lia.
From S2P Require Import Prelude Types Bitmap Machine Vmstats Tlb Swapfile Segment.
From S2P Require Import Pagetable Coremap VmInv Vm Layout Fault User Exec Demo Paging.
Set Default Goal Selector "!".
Open Scope Z_scope.

(** The result and [*stoplen]. *)
Definition copycheck (userptr len : Z) : Z * Z :=
  let bot := userptr in
  let top := u32 (bot + len - 1) in
  if top <? bot then (EFAULT, len)
  else if USERSPACETOP <=? bot then (EFAULT, len)
  else if USERSPACETOP <=? top then (0, u32 (USERSPACETOP - bot))
  else (0, len).

Section copyinout.
Context {V : Type} `{VnodeOps V}.

(** An exception of the memory unit in kernel mode while [tm_badfaultfunc] is
    set: does the access run again, or does [copyfail] take over? *)
Definition copy_trap (code vaddr : Z) : K (kstate V) bool :=
  if code =? EX_MOD then
    r ← vm_fault VM_FAULT_READONLY vaddr; mret (r =? 0)
  else if code =? EX_TLBL then
    r ← vm_fault VM_FAULT_READ vaddr; mret (r =? 0)
  else if code =? EX_TLBS then
    r ← vm_fault VM_FAULT_WRITE vaddr; mret (r =? 0)
  else mret false.

(** One access; [None] and [false] mean that [copyfail] took over. *)
Fixpoint copy_load (fuel : nat) (va : Z) : K (kstate V) (option Z) :=
  match fuel with
  | O => diverge
  | S fuel' =>
      t ← gets k_tlb;
      match mmu t va false with
      | inr pa => gets (λ s, Some (k_ram s pa))
      | inl code => b ← copy_trap code va; if b : bool then copy_load fuel' va else mret None
      end
  end.

Fixpoint copy_store (fuel : nat) (va x : Z) : K (kstate V) bool :=
  match fuel with
  | O => diverge
  | S fuel' =>
      t ← gets k_tlb;
      match mmu t va true with
      | inr pa => modify (λ s, set_ram (λ a, if decide (a = pa) then x else k_ram s a) s) ;; mret true
      | inl code => b ← copy_trap code va; if b : bool then copy_store fuel' va x else mret false
      end
  end.

(** [memcpy] from and to user memory. *)
Fixpoint load_block (fuel : nat) (va : Z) (n : nat) : K (kstate V) (option (list Z)) :=
  match n with
  | O => mret (Some [])
  | S n' =>
      o ← copy_load fuel va;
      match o with
      | None => mret None
      | Some x =>
          os ← load_block fuel (va + 1) n';
          mret (match os with Some xs => Some (x :: xs) | None => None end)
      end
  end.

Fixpoint store_block (fuel : nat) (va : Z) (bs : list Z) : K (kstate V) bool :=
  match bs with
  | [] => mret true
  | x :: bs' => b ← copy_store fuel va x; if b : bool then store_block fuel (va + 1) bs' else mret false
  end.

(** The error, or the bytes at [dest]. *)
Definition copyin (fuel : nat) (usersrc len : Z) : K (kstate V) (Z + list Z) :=
  let '(result, stoplen) := copycheck usersrc len in
  if negb (result =? 0) then mret (inl result)
  else if negb (stoplen =? len) then mret (inl EFAULT)
  else
    o ← load_block fuel usersrc (Z.to_nat len);
    mret (match o with None => inl EFAULT | Some bs => inr bs end).

(** [bs] are the bytes at [src]. *)
Definition copyout (fuel : nat) (bs : list Z) (userdest : Z) : K (kstate V) Z :=
  let len := zlen bs in
  let '(result, stoplen) := copycheck userdest len in
  if negb (result =? 0) then mret result
  else if negb (stoplen =? len) then mret EFAULT
  else
    b ← store_block fuel userdest bs;
    mret (if b : bool then 0 else EFAULT).

(** The loop of [copystr] with the source in user memory, [n] rounds at most;
    each round reads the byte to copy it and again to compare it.
    Was the terminator found, and what has been copied? *)
Fixpoint copystr_in (fuel : nat) (src : Z) (n : nat) : K (kstate V) (option (bool * list Z)) :=
  match n with
  | O => mret (Some (false, []))
  | S n' =>
      o ← copy_load fuel src;
      match o with
      | None => mret None
      | Some x =>
          o2 ← copy_load fuel src;
          match o2 with
          | None => mret None
          | Some y =>
              if y =? 0 then mret (Some (true, [x]))
              else
                r ← copystr_in fuel (src + 1) n';
                mret (match r with Some (b, xs) => Some (b, x :: xs) | None => None end)
          end
      end
  end.

(** With the destination in user memory. *)
Fixpoint copystr_out (fuel : nat) (dest : Z) (src : list Z) (n : nat) : K (kstate V) (option (bool * Z)) :=
  match n with
  | O => mret (Some (false, 0))
  | S n' =>
      match src with
      | [] => panic "out of bounds"
      | x :: src' =>
          b ← copy_store fuel dest x;
          if negb b then mret None
          else if x =? 0 then mret (Some (true, 1))
          else
            r ← copystr_out fuel (dest + 1) src' n';
            mret (match r with Some (b, k) => Some (b, k + 1) | None => None end)
      end
  end.

(** The result of [copystr] after its loop. *)
Definition copystr_result (found : bool) (maxlen stoplen : Z) : Z :=
  if found then 0 else if stoplen <? maxlen then EFAULT else ENAMETOOLONG.

(** The result and what was copied to [dest]; [*actual] is its length. *)
Definition copyinstr (fuel : nat) (usersrc len : Z) : K (kstate V) (Z * list Z) :=
  let '(result, stoplen) := copycheck usersrc len in
  if negb (result =? 0) then mret (result, [])
  else
    o ← copystr_in fuel usersrc (Z.to_nat (Z.min len stoplen));
    mret (match o with
          | None => (EFAULT, [])
          | Some (found, bs) => (copystr_result found len stoplen, bs)
          end).

(** The result and [*actual]. *)
Definition copyoutstr (fuel : nat) (src : list Z) (userdest len : Z) : K (kstate V) (Z * Z) :=
  let '(result, stoplen) := copycheck userdest len in
  if negb (result =? 0) then mret (result, 0)
  else
    o ← copystr_out fuel userdest src (Z.to_nat (Z.min len stoplen));
    mret (match o with
          | None => (EFAULT, 0)
          | Some (found, n) => (copystr_result found len stoplen, n)
          end).

End copyinout.

(** ** The range check *)

Lemma copycheck_inside userptr len :
  0 < len → 0 ≤ userptr → userptr + len ≤ USERSPACETOP → copycheck userptr len = (0, len).
Proof.
  unfold copycheck, USERSPACETOP, MIPS_KSEG0. intros. rewrite (wrap_small 32) by lia. by zcases; try lia.
Qed.

Lemma copycheck_spec va len :
  0 ≤ va < 2 ^ 32 → 0 ≤ len < 2 ^ 32 →
  copycheck va len =
    (if (len =? 0) && (va =? 0) then (0, USERSPACETOP)
     else if (len =? 0) || (USERSPACETOP <=? va) || (2 ^ 32 <? va + len) then (EFAULT, len)
     else (0, Z.min len (USERSPACETOP - va))).
Proof.
  intros Hva Hlen. unfold copycheck, USERSPACETOP, MIPS_KSEG0.
  destruct (Z.eq_dec (va + len) 0) as [Hz|Hz].
  { assert (va = 0) as -> by lia. assert (len = 0) as -> by lia. reflexivity. }
  assert (Htop : u32 (va + len - 1) = if 2 ^ 32 <? va + len then va + len - 1 - 2 ^ 32 else va + len - 1).
  { unfold wrap. zcases.
    - rewrite <- (Z_mod_plus_full _ (-1) (2 ^ 32)), Z.mod_small by lia. lia.
    - rewrite Z.mod_small by lia. done. }
  rewrite Htop. destruct (Z.leb_spec 2147483648 va).
  - zcases; try lia; done.
  - rewrite (wrap_small 32 (_ - va)) by lia. zcases; try lia; try done; f_equal; lia.
Qed.

(** ** Accesses of the kernel behave like those of the program *)

(** The same outcome, with the value mapped by [f]; the panic of
    [kill_curthread] apart, which is of user mode. *)
Definition agrees {S A B} (f : A → B) (o : outcome S A) (o' : outcome S B) : Prop :=
  match o with
  | Ret x s => o' = Ret (f x) s
  | Panic w => w = "I don't know how to handle this" ∨ o' = Panic w
  | Exit c s => o' = Exit c s
  | Diverge => o' = Diverge
  end.

Lemma not_kill w : fault_err w → w ≠ "I don't know how to handle this".
Proof. intros Hf ->. unfold fault_err, alloc_err in Hf. naive_solver. Qed.

Section agreement.
Context {V : Type} `{VnodeOps V}.
Implicit Types s : kstate V.

Lemma trap_agrees code va s : agrees (λ _, true) (mips_trap code va s) (copy_trap code va s).
Proof.
  assert (Hft : ∀ ft, agrees (λ _, true)
    (mbind (λ r, if r =? 0 then mret tt else kill_curthread code) (vm_fault ft va) s)
    (mbind (λ r, mret (r =? 0)) (vm_fault ft va) s)).
  { intros ft. rewrite !run_bind. destruct (vm_fault ft va s) as [r s'|w|c s'|]; cbn; auto.
    destruct (r =? 0) eqn:E; cbn; [done|by left]. }
  unfold mips_trap, copy_trap. destruct (code =? EX_MOD); [apply Hft|].
  destruct (code =? EX_TLBL); [apply Hft|]. destruct (code =? EX_TLBS); [apply Hft|]. cbn. by left.
Qed.

Lemma load_agrees fuel va s : agrees Some (user_load fuel va s) (copy_load fuel va s).
Proof.
  revert s. induction fuel as [|fuel IH]; intros s; [done|]. cbn [user_load copy_load]. krun.
  destruct (mmu (k_tlb s) va false) as [code|pa]; [|done]. rewrite !run_bind.
  pose proof (trap_agrees code va s) as Ht.
  destruct (mips_trap code va s) as [[] s'|w|c s'|]; cbn in Ht |- *.
  - rewrite Ht. apply IH.
  - destruct Ht as [->|Ht]; [by left|]. rewrite Ht. by right.
  - by rewrite Ht.
  - by rewrite Ht.
Qed.

Lemma store_agrees fuel va x s : agrees (λ _, true) (user_store fuel va x s) (copy_store fuel va x s).
Proof.
  revert s. induction fuel as [|fuel IH]; intros s; [done|]. cbn [user_store copy_store]. krun.
  destruct (mmu (k_tlb s) va true) as [code|pa]; [|done]. rewrite !run_bind.
  pose proof (trap_agrees code va s) as Ht.
  destruct (mips_trap code va s) as [[] s'|w|c s'|]; cbn in Ht |- *.
  - rewrite Ht. apply IH.
  - destruct Ht as [->|Ht]; [by left|]. rewrite Ht. by right.
  - by rewrite Ht.
  - by rewrite Ht.
Qed.

Lemma agrees_wp {A B} (f : A → B) (m : K (kstate V) A) (m' : K (kstate V) B) (Q : A → kstate V → Prop) s :
  agrees f (m s) (m' s) → wp m Q fault_err s → wp m' (λ y s', ∃ x, y = f x ∧ Q x s') fault_err s.
Proof.
  unfold wp. intros Ha. destruct (m s) as [x s'|w|c s'|]; cbn in Ha; [rewrite Ha; eauto| |done|done].
  intros Hw. destruct Ha as [->|Ha]; [by destruct (not_kill _ Hw)|]. by rewrite Ha.
Qed.

End agreement.

Lemma fmap_seqZ_S (f : Z → Z) va n :
  f <$> seqZ va (Z.of_nat (S n)) = f va :: (f <$> seqZ (va + 1) (Z.of_nat n)).
Proof.
  rewrite (seqZ_cons va) by lia. rewrite fmap_cons.
  replace (Z.pred (Z.of_nat (S n))) with (Z.of_nat n) by lia.
  by replace (Z.succ va) with (va + 1) by lia.
Qed.

(** ** Copies of the running process *)

Section copies.
Context {V : Type} `{VnodeOps V} (file_byte : V → Z → Z) `{!VnodeLaws V file_byte}.
Context (write_full : ∀ v off bs v' n, VOP_WRITE v off bs = inr (v', n) → n = zlen bs).
Context (elf0 : ptptr → Z → Z) (is_text : ptptr → bool).
Context (pid a : Z) (L : as_layout) (v : V).
Context (Hwf : as_wf L) (Himg : image_of file_byte elf0 is_text L v).
Implicit Types s : kstate V.

Abbreviation inv := (vm_inv (page_map L) elf0 is_text).
Abbreviation running := (running pid a L v).
Abbreviation view := (view file_byte elf0 L).
Abbreviation stepped := (stepped file_byte elf0 is_text pid a L v).

(** The addresses from [va] on, [n] of them, can be read, and written. *)
Definition readable (va n : Z) : Prop := ∀ w, va ≤ w < va + n → allowed L (ULoad w).
Definition writable (va n : Z) : Prop := ∀ w, va ≤ w < va + n → allowed L (UStore w 0).

Lemma stepped_refl s : inv s → running s → stepped s s (view s).
Proof. by split. Qed.

Lemma stepped_trans s1 s2 s3 m1 m2 : stepped s1 s2 m1 → stepped s2 s3 m2 → stepped s1 s3 m2.
Proof. intros [_ _ _ H1] [H2 H3 H4 H5]. split; try done. intros q off Hq Ho. by rewrite H5, H1. Qed.

Lemma stepped_ext s1 s2 m1 m2 : (∀ w, m1 w = m2 w) → stepped s1 s2 m1 → stepped s1 s2 m2.
Proof. intros He [H1 H2 H3 H4]. split; try done. intros w. by rewrite H3. Qed.

Lemma copy_load_wp s va :
  inv s → running s → allowed L (ULoad va) →
  wp (copy_load 2 va) (λ o s', o = Some (view s va) ∧ stepped s s' (view s)) fault_err s.
Proof using All.
  intros Hi Hrn (seg & ty & base & Hat).
  eapply wp_mono; [|done|eapply (agrees_wp Some); [apply load_agrees|by eapply user_load_wp]].
  intros o s' (x & -> & -> & Hs). done.
Qed.

Lemma copy_store_wp s va x :
  inv s → running s → allowed L (UStore va 0) →
  wp (copy_store 2 va x) (λ b s', b = true ∧ stepped s s' (λ w, if decide (w = va) then x else view s w)) fault_err s.
Proof using All.
  intros Hi Hrn (seg & ty & base & Hat & Hty).
  eapply wp_mono; [|done|eapply (agrees_wp (λ _, true)); [apply store_agrees|by eapply user_store_wp]].
  intros b s' ([] & -> & Hs). done.
Qed.

Lemma load_block_wp n s va :
  inv s → running s → readable va (Z.of_nat n) →
  wp (load_block 2 va n) (λ o s', o = Some (view s <$> seqZ va (Z.of_nat n)) ∧ stepped s s' (view s)) fault_err s.
Proof using All.
  revert s va. induction n as [|n IH]; intros s va Hi Hrn Hrd; cbn [load_block].
  { apply wp_ret. split; [done|]. by apply stepped_refl. }
  apply wp_bind. eapply wp_mono; [|done|apply copy_load_wp; [done|done|apply Hrd; lia]].
  intros o s1 [-> Hs1]. apply wp_bind.
  eapply wp_mono; [|done|apply IH; [apply Hs1|apply Hs1|intros w Hw; apply Hrd; lia]].
  intros os s2 [-> Hs2]. apply wp_ret. split.
  - rewrite fmap_seqZ_S. by rewrite (list_fmap_ext (view s1) (view s) _ (λ i w _, st_view _ _ _ _ _ _ _ _ _ _ Hs1 w)).
  - eapply stepped_ext; [|by eapply stepped_trans]. intros w. apply Hs1.
Qed.

(** The memory with [bs] written at [va]. *)
Definition write_bytes (m : Z → Z) (va : Z) (bs : list Z) : Z → Z := λ w,
  if (va <=? w) && (w <? va + zlen bs) then default 0 (bs !! Z.to_nat (w - va)) else m w.

Lemma store_block_wp bs s va :
  inv s → running s → writable va (zlen bs) →
  wp (store_block 2 va bs) (λ b s', b = true ∧ stepped s s' (write_bytes (view s) va bs)) fault_err s.
Proof using All.
  revert s va. induction bs as [|x bs IH]; intros s va Hi Hrn Hwr; cbn [store_block].
  { apply wp_ret. split; [done|]. eapply stepped_ext; [|by apply stepped_refl].
    intros w. unfold write_bytes. cbn. zcases; try done; lia. }
  cbn [length] in Hwr. apply wp_bind. eapply wp_mono; [|done|apply (copy_store_wp s va x); [done|done|apply Hwr; lia]].
  intros b s1 [-> Hs1].
  eapply wp_mono; [|done|apply IH; [apply Hs1|apply Hs1|intros w Hw; apply Hwr; lia]].
  intros b s2 [-> Hs2]. split; [done|].
  eapply stepped_ext; [|by eapply stepped_trans]. intros w. unfold write_bytes. cbn [length].
  rewrite (st_view _ _ _ _ _ _ _ _ _ _ Hs1). destruct (decide (w = va)) as [->|Hne].
  - zcases; try lia. by rewrite Z.sub_diag.
  - zcases; try lia; try done. replace (Z.to_nat (w - va)) with (S (Z.to_nat (w - (va + 1)))) by lia. done.
Qed.

(** The string at [va]: [str] and its terminator. *)
Definition string_at (m : Z → Z) (va : Z) (str : list Z) : Prop :=
  (∀ i x, str !! i = Some x → m (va + Z.of_nat i) = x ∧ x ≠ 0) ∧ m (va + zlen str) = 0.

Lemma copystr_in_wp str n s va :
  inv s → running s → (length str < n)%nat → readable va (zlen str + 1) → string_at (view s) va str →
  wp (copystr_in 2 va n) (λ o s', o = Some (true, str ++ [0]) ∧ stepped s s' (view s)) fault_err s.
Proof using All.
  revert n s va. induction str as [|x str IH]; intros [|n] s va Hi Hrn Hlen Hrd [Hstr Hz]; cbn [length] in *;
    try lia; cbn [copystr_in].
  - apply wp_bind. eapply wp_mono; [|done|apply copy_load_wp; [done|done|apply Hrd; lia]].
    intros o s1 [-> Hs1]. apply wp_bind.
    eapply wp_mono; [|done|apply copy_load_wp; [apply Hs1|apply Hs1|apply Hrd; lia]].
    intros o s2 [-> Hs2]. rewrite (st_view _ _ _ _ _ _ _ _ _ _ Hs1). replace (va + Z.of_nat 0) with va in Hz by lia.
    rewrite Hz. cbn. split; [done|]. eapply stepped_ext; [|by eapply stepped_trans]. apply Hs1.
  - destruct (Hstr O x eq_refl) as [Hx Hx0]. replace (va + Z.of_nat 0) with va in Hx by lia.
    apply wp_bind. eapply wp_mono; [|done|apply copy_load_wp; [done|done|apply Hrd; lia]].
    intros o s1 [-> Hs1]. apply wp_bind.
    eapply wp_mono; [|done|apply copy_load_wp; [apply Hs1|apply Hs1|apply Hrd; lia]].
    intros o s2 [-> Hs2]. rewrite (st_view _ _ _ _ _ _ _ _ _ _ Hs1), Hx, (proj2 (Z.eqb_neq x 0) Hx0).
    assert (Hv2 : ∀ w, view s2 w = view s w).
    { intros w. rewrite (st_view _ _ _ _ _ _ _ _ _ _ Hs2). apply Hs1. }
    apply wp_bind. eapply wp_mono; [|done|apply (IH n s2 (va + 1)); [apply Hs2|apply Hs2|lia| |]].
    + intros r s3 [-> Hs3]. cbn. split; [done|]. eapply stepped_ext; [|eapply stepped_trans; [|exact Hs3]].
      * apply Hv2.
      * by eapply stepped_trans.
    + intros w Hw. apply Hrd. lia.
    + split.
      * intros i y Hy. rewrite Hv2. replace (va + 1 + Z.of_nat i) with (va + Z.of_nat (S i)) by lia. by apply Hstr.
      * rewrite Hv2. rewrite <- Hz. f_equal. lia.
Qed.

(** No terminator among the first [n] bytes. *)
Lemma copystr_in_long n s va :
  inv s → running s → readable va (Z.of_nat n) → (∀ w, va ≤ w < va + Z.of_nat n → view s w ≠ 0) →
  wp (copystr_in 2 va n) (λ o s', o = Some (false, view s <$> seqZ va (Z.of_nat n)) ∧ stepped s s' (view s)) fault_err s.
Proof using All.
  revert s va. induction n as [|n IH]; intros s va Hi Hrn Hrd Hnz; cbn [copystr_in].
  { apply wp_ret. split; [done|]. by apply stepped_refl. }
  apply wp_bind. eapply wp_mono; [|done|apply copy_load_wp; [done|done|apply Hrd; lia]].
  intros o s1 [-> Hs1]. apply wp_bind.
  eapply wp_mono; [|done|apply copy_load_wp; [apply Hs1|apply Hs1|apply Hrd; lia]].
  intros o s2 [-> Hs2]. rewrite (st_view _ _ _ _ _ _ _ _ _ _ Hs1), (proj2 (Z.eqb_neq _ 0) (Hnz va ltac:(lia))).
  assert (Hv2 : ∀ w, view s2 w = view s w).
  { intros w. rewrite (st_view _ _ _ _ _ _ _ _ _ _ Hs2). apply Hs1. }
  apply wp_bind. eapply wp_mono; [|done|apply (IH s2 (va + 1)); [apply Hs2|apply Hs2| |]].
  - intros r s3 [-> Hs3]. apply wp_ret. split.
    + rewrite fmap_seqZ_S. by rewrite (list_fmap_ext (view s2) (view s) _ (λ i w _, Hv2 w)).
    + eapply stepped_ext; [|eapply stepped_trans; [|exact Hs3]]; [apply Hv2|by eapply stepped_trans].
  - intros w Hw. apply Hrd. lia.
  - intros w Hw. rewrite Hv2. apply Hnz. lia.
Qed.

End copies.

(** ** Properties *)

(** C21: block copies.  [copyin] of a block of addresses of the segments, the
    read-only text included, returns the bytes the program has there, and [copyout] to a block it may write leaves
    exactly these bytes there; nothing else of the process or of any other
    process changes, whichever pages are loaded, evicted and reloaded
    meanwhile; the only other outcome is a panic of [fault_err]. *)
Theorem copies_are_exact {V} `{VnodeOps V} (file_byte : V → Z → Z) `{!VnodeLaws V file_byte}
    (s : kstate V) pid a L v elf0 is_text va len bs :
  (∀ v off bs v' n, VOP_WRITE v off bs = inr (v', n) → n = zlen bs) →
  as_wf L → image_of file_byte elf0 is_text L v →
  vm_inv (page_map L) elf0 is_text s → running pid a L v s →
  0 < len → zlen bs = len → 0 ≤ va → va + len ≤ USERSPACETOP → readable L va len →
  wp (copyin 2 va len) (λ r s', r = inr (view file_byte elf0 L s <$> seqZ va len) ∧
    stepped file_byte elf0 is_text pid a L v s s' (view file_byte elf0 L s)) fault_err s ∧
  (writable L va len → wp (copyout 2 bs va) (λ r s', r = 0 ∧
    stepped file_byte elf0 is_text pid a L v s s' (write_bytes (view file_byte elf0 L s) va bs)) fault_err s).
Proof.
  intros Hfull Hwf Himg Hi Hrn Hlen Hbs Hva Htop Hrd. unfold copyin, copyout. rewrite Hbs, copycheck_inside by done. cbn [Z.eqb negb].
  rewrite !Z.eqb_refl. cbn [negb]. split; [|intros Hwr]; apply wp_bind.
  - eapply wp_mono; [|done|eapply (load_block_wp file_byte Hfull elf0 is_text pid a L v); try done].
    + intros o s' [-> Hs]. rewrite Z2Nat.id by lia. by apply wp_ret.
    + by rewrite Z2Nat.id by lia.
  - eapply wp_mono; [|done|eapply (store_block_wp file_byte Hfull elf0 is_text pid a L v); try done].
    + intros b s' [-> Hs]. by apply wp_ret.
    + by rewrite Hbs.
Qed.

(** String copies.  [copyinstr] of a string that ends within [len] bytes returns
    it with its terminator; a string that does not is [ENAMETOOLONG], and one
    that runs into the end of user space before is [EFAULT]; memory is
    unchanged in all three cases. *)
Theorem copyinstr_correct {V} `{VnodeOps V} (file_byte : V → Z → Z) `{!VnodeLaws V file_byte}
    (s : kstate V) pid a L v elf0 is_text va len :
  (∀ v off bs v' n, VOP_WRITE v off bs = inr (v', n) → n = zlen bs) →
  as_wf L → image_of file_byte elf0 is_text L v →
  vm_inv (page_map L) elf0 is_text s → running pid a L v s →
  0 < len → 0 ≤ va < USERSPACETOP → va + len ≤ 2 ^ 32 →
  let mem := view file_byte elf0 L s in
  let ends r := wp (copyinstr 2 va len)
    (λ x s', x = r ∧ stepped file_byte elf0 is_text pid a L v s s' mem) fault_err s in
  (∀ str, zlen str < len → va + zlen str < USERSPACETOP → readable L va (zlen str + 1) →
     string_at mem va str → ends (0, str ++ [0])) ∧
  (va + len ≤ USERSPACETOP → readable L va len → (∀ w, va ≤ w < va + len → mem w ≠ 0) →
     ends (ENAMETOOLONG, mem <$> seqZ va len)) ∧
  (USERSPACETOP < va + len → readable L va (USERSPACETOP - va) → (∀ w, va ≤ w < USERSPACETOP → mem w ≠ 0) →
     ends (EFAULT, mem <$> seqZ va (USERSPACETOP - va))).
Proof.
  intros Hfull Hwf Himg Hi Hrn Hlen Hva H32 mem ends.
  assert (Hck : copycheck va len = (0, Z.min len (USERSPACETOP - va))).
  { unfold copycheck, USERSPACETOP, MIPS_KSEG0 in *. rewrite !(wrap_small 32) by lia. zcases; try lia; f_equal; lia. }
  subst ends. unfold copyinstr. rewrite Hck. cbn [Z.eqb negb].
  rewrite Z.min_assoc, Z.min_id. split; [|split].
  - intros str Hl1 Hl2 Hrd Hstr. apply wp_bind.
    eapply wp_mono; [|done|eapply (copystr_in_wp file_byte Hfull elf0 is_text pid a L v); try done; lia].
    intros o s' [-> Hs]. by apply wp_ret.
  - intros Htop Hrd Hnz. rewrite Z.min_l by lia. apply wp_bind.
    eapply wp_mono; [|done|eapply (copystr_in_long file_byte Hfull elf0 is_text pid a L v); rewrite ?Z2Nat.id by lia; done].
    intros o s' [-> Hs]. rewrite Z2Nat.id by lia. apply wp_ret. split; [|done].
    unfold copystr_result. by rewrite Z.ltb_irrefl.
  - intros Htop Hrd Hnz. rewrite Z.min_r by lia. apply wp_bind.
    eapply wp_mono; [|done|eapply (copystr_in_long file_byte Hfull elf0 is_text pid a L v); rewrite ?Z2Nat.id by lia; try done].
    + intros o s' [-> Hs]. rewrite Z2Nat.id by lia. apply wp_ret. split; [|done].
      unfold copystr_result. by rewrite (proj2 (Z.ltb_lt _ _)) by lia.
    + intros w Hw. apply Hnz. lia.
Qed.

(** C22: the errors of the copies.  On 32-bit arguments [copycheck] refuses the
    blocks that begin in the kernel or wrap around, and cuts the others at the end
    of user space; so [copyin] and [copyout] return [EFAULT] without any access for
    every block that is not in user space, and for every empty block.
    A [copyin] from a block in user space that begins at an address of no segment does not give [EFAULT]: the
    process ends with status 255. *)
Theorem copy_errors {V} `{VnodeOps V} (file_byte : V → Z → Z)
    (s : kstate V) pid a L v elf0 is_text va len pr :
  as_wf L → vm_inv (page_map L) elf0 is_text s → running pid a L v s →
  k_procs s !! pid = Some pr → 0 < p_numthreads pr →
  0 ≤ va < 2 ^ 32 → 0 ≤ len < 2 ^ 32 →
  copycheck va len =
    (if (len =? 0) && (va =? 0) then (0, USERSPACETOP)
     else if (len =? 0) || (USERSPACETOP <=? va) || (2 ^ 32 <? va + len) then (EFAULT, len)
     else (0, Z.min len (USERSPACETOP - va))) ∧
  (len = 0 ∨ USERSPACETOP < va + len → copyin 2 va len s = Ret (inl EFAULT) s ∧
     ∀ bs, zlen bs = len → copyout 2 bs va s = Ret EFAULT s) ∧
  (0 < len → va + len ≤ USERSPACETOP → seg_of L (vpn va) = None →
     refused file_byte elf0 pid s (copyin 1 va len s)).
Proof.
  intros Hwf Hi Hrn Hpr Hn Hva Hlen. pose proof (copycheck_spec va len Hva Hlen) as Hck. split; [done|]. split.
  - intros Hbad. assert (He : copycheck va len = (EFAULT, len) ∨ ∃ n, copycheck va len = (0, n) ∧ n ≠ len).
    { rewrite Hck. unfold USERSPACETOP, MIPS_KSEG0 in *. zcases; cbn [andb orb]; try lia; try (by left);
        right; eexists; (split; [reflexivity|]); lia. }
    split; [unfold copyin|intros bs Hbs; unfold copyout; rewrite Hbs];
      (destruct He as [-> |(n & -> & Hne)]; [done|]); cbn [Z.eqb negb]; by rewrite (proj2 (Z.eqb_neq _ _) Hne).
  - intros Hlen0 Htop Hout. unfold copyin. rewrite copycheck_inside by lia. cbn [Z.eqb negb].
    rewrite Z.eqb_refl. cbn [negb]. replace (Z.to_nat len) with (S (Z.to_nat (len - 1))) by lia.
    destruct (outside_refused file_byte elf0 is_text pid a L v Hwf s va pr Hi Hrn Hpr Hn) as [Hr _]; [|done|].
    { unfold USERSPACETOP in Htop. lia. }
    pose proof (load_agrees 1 va s) as Ha. cbn [load_block]. rewrite !run_bind.
    destruct (user_load 1 va s) as [x s'|w|c s'|]; cbn in Hr, Ha |- *; [done| | |done].
    + destruct Ha as [->|Ha]; [by destruct (not_kill _ Hr)|]. by rewrite Ha.
    + by rewrite Ha.
Qed.

(** Bytes of the text of the demonstration program are read, and bytes of its data segment, on two pages, are written. *)
Lemma copies_are_exact_witness :
  wp (copyin 2 0x400000 4) (λ r _, r = inr (view rf_byte demo_elf demo_L demo_state <$> seqZ 0x400000 4)) fault_err demo_state ∧
  wp (copyout 2 [1; 2; 3; 4] 0x10000ffe) (λ r _, r = 0) fault_err demo_state.
Proof.
  split.
  - eapply wp_mono; [|exact (λ w Hw, Hw)|refine (proj1 (copies_are_exact rf_byte demo_state 1 (k_next demo_boot)
      demo_L demo_file demo_elf demo_is_text 0x400000 4 [1; 2; 3; 4] ramfile_full demo_wf demo_image demo_vm_inv demo_running _ _ _ _ _))].
    + intros r s' [-> _]. reflexivity.
    + lia.
    + reflexivity.
    + lia.
    + vm_compute. discriminate.
    + intros w Hw. apply (allowedb_spec demo_L (ULoad w)).
      assert (w = 0x400000 ∨ w = 0x400001 ∨ w = 0x400002 ∨ w = 0x400003) as [-> |[-> |[-> | ->]]] by lia; vm_compute; reflexivity.
  - assert (Hw : ∀ w, 0x10000ffe ≤ w < 0x10000ffe + 4 → allowed demo_L (ULoad w) ∧ allowed demo_L (UStore w 0)).
    { intros w Hw. assert (w = 0x10000ffe ∨ w = 0x10000fff ∨ w = 0x10001000 ∨ w = 0x10001001) as [-> |[-> |[-> | ->]]] by lia;
        (split; apply (allowedb_spec demo_L); vm_compute; reflexivity). }
    eapply wp_mono; [|exact (λ w Hw, Hw)|refine (proj2 (copies_are_exact rf_byte demo_state 1 (k_next demo_boot)
      demo_L demo_file demo_elf demo_is_text 0x10000ffe 4 [1; 2; 3; 4] ramfile_full demo_wf demo_image demo_vm_inv demo_running _ _ _ _ _) _)].
    + intros r s' [-> _]. reflexivity.
    + lia.
    + reflexivity.
    + lia.
    + vm_compute. discriminate.
    + intros w H. exact (proj1 (Hw w H)).
    + intros w H. exact (proj2 (Hw w H)).
Defined.

Lemma copy_errors_witness :
  copyin 2 0x80000000 4 demo_state = Ret (inl EFAULT) demo_state.
Proof.
  destruct demo_proc as (pr & Hpr & Hn).
  refine (proj1 (proj1 (proj2 (copy_errors rf_byte demo_state 1 (k_next demo_boot) demo_L demo_file
    demo_elf demo_is_text 0x80000000 4 pr demo_wf demo_vm_inv demo_running Hpr Hn _ _)) _)).
  - lia.
  - lia.
  - right. vm_compute. reflexivity.
Defined.

(** The twelve bytes of the data segment in the file, and the zero after them. *)
Lemma copyinstr_correct_witness :
  wp (copyinstr 2 0x10000ff8 20) (λ r _, r = (0, [101; 102; 103; 104; 105; 106; 107; 108; 109; 110; 111; 112; 0]))
    fault_err demo_state.
Proof.
  destruct (copyinstr_correct rf_byte demo_state 1 (k_next demo_boot)
    demo_L demo_file demo_elf demo_is_text 0x10000ff8 20 ramfile_full
    demo_wf demo_image demo_vm_inv demo_running) as [Hend _].
  - lia.
  - unfold USERSPACETOP, MIPS_KSEG0. lia.
  - lia.
  - specialize (Hend [101; 102; 103; 104; 105; 106; 107; 108; 109; 110; 111; 112]). cbv beta in Hend.
    eapply wp_mono; [|exact (λ w Hw, Hw)|apply Hend; clear Hend]; [intros r s' [Hr _]; exact Hr|..].
    { cbn. lia. }
    { cbn. unfold USERSPACETOP, MIPS_KSEG0. lia. }
    { intros w Hw. apply (allowedb_spec demo_L). cbn in Hw.
      assert (Hin : w ∈ seqZ 0x10000ff8 13) by (apply elem_of_seqZ; lia).
      assert (Hall : forallb (λ w, allowedb demo_L (ULoad w)) (seqZ 0x10000ff8 13) = true) by (vm_compute; reflexivity).
      rewrite forallb_forall in Hall. apply Hall. by apply list_elem_of_In. }
    { split; [|vm_compute; reflexivity]. intros i x Hx.
      assert (Hnz : Forall (λ y, y ≠ 0) [101; 102; 103; 104; 105; 106; 107; 108; 109; 110; 111; 112])
        by (repeat (apply Forall_cons; split; [discriminate|]); by apply Forall_nil).
      split; [|by eapply Forall_lookup_1 in Hnz].
      assert (Hall : view rf_byte demo_elf demo_L demo_state <$> seqZ 0x10000ff8 12 =
        [101; 102; 103; 104; 105; 106; 107; 108; 109; 110; 111; 112]) by (vm_compute; reflexivity).
      rewrite <- Hall in Hx. apply list_lookup_fmap_Some in Hx as (w & Hv & Hw).
      apply lookup_seqZ in Hw as [-> _]. symmetry. exact Hv. }
Defined.
