(* ===== verification/Syscall.v ===== *)
(** * System calls: kern/arch/mips/syscall/syscall.c and kern/syscall

    The dispatcher [syscall] on the registers of the trap frame, with sys_write
    and sys_read (file_syscall.c), sys___time (time_syscalls.c), sys_reboot
    (main.c) and sys__exit of Vm.v.  The state is that of the VM system with the two streams of the
    console (ConIo.v).  sys_write and sys_read follow the pointer of the program
    as it is, so the kernel's own memory unit is modelled too: below 2^31 through the TLB
    with faults taken in kernel mode, above it the segments that need no TLB, which are the installed memory and then
    the registers of the bus, or nothing: what the hardware does there is a parameter.

    Fuel: an access is tried again after a fault; two tries are enough (User.v).  [now] is the
    time of day, read from the clock device. *)

From Stdlib Require Import ZArith Lia.
From stdpp Require Import base gmap list list_numbers strings fin_maps.
From S2P Require Import Prelude Types Bitmap Machine Vmstats Tlb Swapfile Segment.
From S2P Require Import Pagetable Coremap VmInv Vm Layout Fault User Exec Demo Paging Copyinout Bswap.
Set Default Goal Selector "!".
Open Scope Z_scope.

(** The registers of the trap frame that system calls use. *)
Record trapframe := Trapframe { tf_v0 : Z; tf_a0 : Z; tf_a1 : Z; tf_a2 : Z; tf_a3 : Z; tf_epc : Z }.

Definition SYS__exit : Z := 3.
Definition SYS_read : Z := 50.
Definition SYS_write : Z := 55.
Definition SYS___time : Z := 113.
Definition SYS_reboot : Z := 119.
Definition STDIN_FILENO : Z := 0.
Definition STDOUT_FILENO : Z := 1.
Definition STDERR_FILENO : Z := 2.
Definition MIPS_KSEG1 : Z := 0xa0000000.
Definition MIPS_KSEG2 : Z := 0xc0000000.

(** Where an access of the kernel goes: memory, an address behind it, or an exception of the memory unit. *)
Inductive ktarget := KRam (pa : Z) | KIo (pa : Z) | KFault (code : Z).

Definition direct (ramsize pa : Z) : ktarget := if pa <? ramsize then KRam pa else KIo pa.

(** The memory unit in kernel mode: two segments are the physical addresses themselves, of which the first [ramsize] are memory. *)
Definition kmmu (ramsize : Z) (t : tlb_state) (va : Z) (store : bool) : ktarget :=
  if (MIPS_KSEG0 <=? va) && (va <? MIPS_KSEG1) then direct ramsize (va - MIPS_KSEG0)
  else if (MIPS_KSEG1 <=? va) && (va <? MIPS_KSEG2) then direct ramsize (va - MIPS_KSEG1)
  else
    match tlb_lookup t va with
    | None => KFault (if store then EX_TLBS else EX_TLBL)
    | Some (_, lo) =>
        if Z.land lo TLBLO_VALID =? 0 then KFault (if store then EX_TLBS else EX_TLBL)
        else if store && (Z.land lo TLBLO_DIRTY =? 0) then KFault EX_MOD
        else KRam (Z.land lo TLBLO_PPAGE + Z.land va 0xfff)
    end.

(** Physical addresses behind the memory: the registers of the bus, which may do anything, or nothing at all; [None] is a bus error. *)
Class IoOps (V : Type) := {
  io_load : Z → kstate V → option (Z * kstate V);
  io_store : Z → Z → kstate V → option (kstate V);
}.

(** The installed memory, as the coremap has it since the boot. *)
Definition ram_bytes {V} (k : kstate V) : Z := nRamFrames (k_cm k) * PAGE_SIZE.

(** The VM system with the console: what will be typed and what was printed. *)
Record usys (V : Type) := USys {
  us_k : kstate V;
  us_in : list Z;
  us_out : list Z;
  us_curspl : Z;
  us_iplhigh : Z;
}.
Arguments USys {V} _ _ _ _ _.
Arguments us_k {V} _.
Arguments us_in {V} _.
Arguments us_out {V} _.
Arguments us_curspl {V} _.
Arguments us_iplhigh {V} _.

Section syscall.
Context {V : Type} `{VnodeOps V} `{IoOps V}.

Definition set_k (k : kstate V) (s : usys V) : usys V := USys k (us_in s) (us_out s) (us_curspl s) (us_iplhigh s).

Definition in_kernel {A} (m : K (kstate V) A) : K (usys V) A := λ s,
  match m (us_k s) with
  | Ret a k => Ret a (set_k k s)
  | Panic w => Panic w
  | Exit c k => Exit c (set_k k s)
  | Diverge => Diverge
  end.

Definition sys_putch (ch : Z) : K (usys V) unit :=
  modify (λ s, USys (us_k s) (us_in s) (us_out s ++ [ch]) (us_curspl s) (us_iplhigh s)).

Definition sys_getch : K (usys V) Z :=
  l ← gets us_in;
  match l with
  | [] => diverge
  | ch :: rest => modify (λ s, USys (us_k s) rest (us_out s) (us_curspl s) (us_iplhigh s));; mret ch
  end.

(** A fault in kernel mode without [tm_badfaultfunc]: [mips_trap] resolves it or stops the machine. *)
Definition kern_trap (code vaddr : Z) : K (kstate V) unit :=
  b ← copy_trap code vaddr;
  if b : bool then mret tt else panic "I can't handle this... I think I'll just die now...".

(** [mips_trap] on a bus error. *)
Definition bus_error : string := "Bus error exception".

Definition load_io (pa : Z) : K (kstate V) Z := λ k,
  match io_load pa k with Some (x, k') => Ret x k' | None => Panic bus_error end.
Definition store_io (pa x : Z) : K (kstate V) unit := λ k,
  match io_store pa x k with Some k' => Ret tt k' | None => Panic bus_error end.

Fixpoint kern_load (fuel : nat) (va : Z) : K (kstate V) Z :=
  match fuel with
  | O => diverge
  | S fuel' =>
      k ← gets id;
      match kmmu (ram_bytes k) (k_tlb k) va false with
      | KRam pa => gets (λ s, k_ram s pa)
      | KIo pa => load_io pa
      | KFault code => kern_trap code va;; kern_load fuel' va
      end
  end.

Fixpoint kern_store (fuel : nat) (va x : Z) : K (kstate V) unit :=
  match fuel with
  | O => diverge
  | S fuel' =>
      k ← gets id;
      match kmmu (ram_bytes k) (k_tlb k) va true with
      | KRam pa => modify (λ s, set_ram (λ a, if decide (a = pa) then x else k_ram s a) s)
      | KIo pa => store_io pa x
      | KFault code => kern_trap code va;; kern_store fuel' va x
      end
  end.

(** ** The calls *)

(** The loop of [sys_write]: [n] more characters from the index [i]. *)
Fixpoint write_loop (fuel : nat) (p i : Z) (n : nat) : K (usys V) unit :=
  match n with
  | O => mret tt
  | S n' =>
      ch ← in_kernel (kern_load fuel (u32 (p + i)));
      sys_putch ch;;
      write_loop fuel p (i + 1) n'
  end.

Definition sys_write (fuel : nat) (fd buf_ptr size : Z) : K (usys V) Z :=
  if negb (fd =? STDOUT_FILENO) && negb (fd =? STDERR_FILENO) then mret (-1)
  else
    write_loop fuel buf_ptr 0 (Z.to_nat (i32 size));;
    mret (i32 size).

(** The loop of [sys_read]; [char] is signed, and a negative one ends it. *)
Fixpoint read_loop (fuel : nat) (p i size : Z) (n : nat) : K (usys V) Z :=
  match n with
  | O => mret size
  | S n' =>
      ch ← sys_getch;
      in_kernel (kern_store fuel (u32 (p + i)) (u8 ch));;
      x ← in_kernel (kern_load fuel (u32 (p + i)));
      if swrap 8 x <? 0 then mret i else read_loop fuel p (i + 1) size n'
  end.

Definition sys_read (fuel : nat) (fd buf_ptr size : Z) : K (usys V) Z :=
  if negb (fd =? STDIN_FILENO) then mret (-1)
  else read_loop fuel buf_ptr 0 (i32 size) (Z.to_nat (i32 size)).

(** The [n] bytes of an integer in memory, the most significant first. *)
Fixpoint be_bytes (n : nat) (x : Z) : list Z :=
  match n with
  | O => []
  | S n' => u8 (Z.shiftr x (8 * Z.of_nat n')) :: be_bytes n' x
  end.

Definition sys___time (fuel : nat) (now : timespec) (user_seconds_ptr user_nanoseconds_ptr : Z) : K (usys V) Z :=
  result ← in_kernel (copyout fuel (be_bytes 8 (tv_sec now)) user_seconds_ptr);
  if negb (result =? 0) then mret result
  else
    result ← in_kernel (copyout fuel (be_bytes 4 (tv_nsec now)) user_nanoseconds_ptr);
    if negb (result =? 0) then mret result else mret 0.

(** The machine stops, with what it prints last. *)
Definition sys_reboot (code : Z) : K (usys V) Z :=
  if code =? 0 then panic "Rebooting..."
  else if (code =? 1) || (code =? 2) then panic "The system is halted."
  else mret EINVAL.

(** The error code and the value of a call. *)
Definition syscall_do (fuel : nat) (now : timespec) (callno : Z) (tf : trapframe) : K (usys V) (Z * Z) :=
  if callno =? SYS_reboot then
    err ← sys_reboot (i32 (tf_a0 tf)); mret (err, 0)
  else if callno =? SYS___time then
    err ← sys___time fuel now (tf_a0 tf) (tf_a1 tf); mret (err, 0)
  else if callno =? SYS_write then
    retval ← sys_write fuel (i32 (tf_a0 tf)) (tf_a1 tf) (tf_a2 tf);
    mret (if retval <? 0 then ENOSYS else 0, retval)
  else if callno =? SYS_read then
    retval ← sys_read fuel (i32 (tf_a0 tf)) (tf_a1 tf) (tf_a2 tf);
    mret (if retval <? 0 then ENOSYS else 0, retval)
  else if callno =? SYS__exit then
    in_kernel (sys__exit (A := unit) (i32 (tf_a0 tf)));; mret (0, 0)
  else mret (ENOSYS, 0).

(** The registers after the call: v0 and a3, and the next instruction. *)
Definition result_frame (tf : trapframe) (r : Z * Z) : trapframe :=
  if negb (r.1 =? 0) then Trapframe (u32 r.1) (tf_a0 tf) (tf_a1 tf) (tf_a2 tf) 1 (u32 (tf_epc tf + 4))
  else Trapframe (u32 r.2) (tf_a0 tf) (tf_a1 tf) (tf_a2 tf) 0 (u32 (tf_epc tf + 4)).

Definition syscall (fuel : nat) (now : timespec) (tf : trapframe) : K (usys V) trapframe :=
  s ← gets id;
  KASSERT (us_curspl s =? 0) "curthread->t_curspl == 0";;
  KASSERT (us_iplhigh s =? 0) "curthread->t_iplhigh_count == 0";;
  r ← syscall_do fuel now (i32 (tf_v0 tf)) tf;
  let tf' := result_frame tf r in
  s ← gets id;
  KASSERT (us_curspl s =? 0) "curthread->t_curspl == 0";;
  KASSERT (us_iplhigh s =? 0) "curthread->t_iplhigh_count == 0";;
  mret tf'.

End syscall.

(** ** Accesses of the kernel to the memory of the program *)

Lemma kmmu_user n t va store :
  0 ≤ va < MIPS_KSEG0 → kmmu n t va store = match mmu t va store with inr pa => KRam pa | inl code => KFault code end.
Proof.
  intros Hva. unfold kmmu, mmu, MIPS_KSEG1, MIPS_KSEG2, MIPS_KSEG0 in *.
  rewrite (proj2 (Z.leb_gt 0x80000000 va)), (proj2 (Z.leb_gt 0xa0000000 va)) by lia. cbn [andb].
  rewrite (proj2 (Z.leb_le 0 va)), (proj2 (Z.ltb_lt va 0x80000000)) by lia. cbn [andb].
  destruct (tlb_lookup t va) as [[hi lo]|]; [|done]. destruct (_ =? 0); [done|]. by destruct (store && _).
Qed.

Section accesses.
Context {V : Type} `{VnodeOps V} `{IoOps V}.
Implicit Types (k : kstate V) (s : usys V).

Lemma kern_trap_agrees code va k : agrees id (mips_trap code va k) (kern_trap code va k).
Proof.
  pose proof (trap_agrees code va k) as Ht. unfold kern_trap. rewrite run_bind.
  destruct (mips_trap code va k) as [[] k'|w|c k'|]; cbn in *.
  - by rewrite Ht.
  - destruct Ht as [->|Ht]; [by left|]. rewrite Ht. by right.
  - by rewrite Ht.
  - by rewrite Ht.
Qed.

Lemma agrees_bind {A B} (m m' : K (kstate V) A) (f f' : A → K (kstate V) B) k :
  agrees id (m k) (m' k) → (∀ a k', agrees id (f a k') (f' a k')) → agrees id (mbind f m k) (mbind f' m' k).
Proof.
  intros Hm Hf. rewrite !run_bind. destruct (m k) as [a k'|w|c k'|]; cbn in Hm.
  - rewrite Hm. apply Hf.
  - cbn. destruct Hm as [->|Hm]; [by left|]. rewrite Hm. by right.
  - by rewrite Hm.
  - by rewrite Hm.
Qed.

Lemma agrees_refl {A} (o : outcome (kstate V) A) : agrees id o o.
Proof. destruct o; cbn; auto. Qed.

Lemma kern_load_agrees fuel va k : 0 ≤ va < MIPS_KSEG0 → agrees id (user_load fuel va k) (kern_load fuel va k).
Proof.
  intros Hva. revert k. induction fuel as [|fuel IH]; intros k; [done|]. cbn [user_load kern_load]. krun. cbn [id]. rewrite kmmu_user by done.
  destruct (mmu (k_tlb k) va false); [|apply agrees_refl]. apply agrees_bind; [apply kern_trap_agrees|auto].
Qed.

Lemma kern_store_agrees fuel va x k : 0 ≤ va < MIPS_KSEG0 → agrees id (user_store fuel va x k) (kern_store fuel va x k).
Proof.
  intros Hva. revert k. induction fuel as [|fuel IH]; intros k; [done|]. cbn [user_store kern_store]. krun. cbn [id]. rewrite kmmu_user by done.
  destruct (mmu (k_tlb k) va true); [|apply agrees_refl]. apply agrees_bind; [apply kern_trap_agrees|auto].
Qed.

Lemma wp_in_kernel {A} (m : K (kstate V) A) (Q : A → usys V → Prop) E s :
  wp m (λ a k, Q a (set_k k s)) E (us_k s) → wp (in_kernel m) Q E s.
Proof. unfold wp, in_kernel. by destruct (m (us_k s)). Qed.

End accesses.

(** What [sys_read] takes from what is typed: the bytes it stores, what is left, and whether it got to the end; a
    character that is negative as a [char] ends it. *)
Fixpoint read_result (n : nat) (typed : list Z) : option (list Z * list Z * bool) :=
  match n, typed with
  | O, _ => Some ([], typed, true)
  | S _, [] => None
  | S n', c :: rest =>
      if 128 <=? u8 c then Some ([u8 c], rest, false)
      else '(l, rest', full) ← read_result n' rest; Some (u8 c :: l, rest', full)
  end.

Lemma signed_char c : (swrap 8 (u8 c) <? 0) = (128 <=? u8 c).
Proof.
  pose proof (wrap_range 8 c ltac:(lia)) as Hr. unfold swrap. change (2 ^ (8 - 1)) with 128. change (2 ^ 8) with 256 in *.
  destruct (Z.leb_spec 128 (u8 c)); [apply Z.ltb_lt|apply Z.ltb_ge]; Z.div_mod_to_equations; lia.
Qed.

(** ** The calls on the flat memory of the process *)

Section calls.
Context {V : Type} `{VnodeOps V} `{IoOps V} (file_byte : V → Z → Z) `{!VnodeLaws V file_byte}.
Context (write_full : ∀ v off bs v' n, VOP_WRITE v off bs = inr (v', n) → n = zlen bs).
Context (elf0 : ptptr → Z → Z) (is_text : ptptr → bool).
Context (pid a : Z) (L : as_layout) (v : V).
Context (Hwf : as_wf L) (Himg : image_of file_byte elf0 is_text L v).
Implicit Types (k : kstate V) (s : usys V).

Abbreviation inv := (vm_inv (page_map L) elf0 is_text).
Abbreviation running := (running pid a L v).
Abbreviation view := (view file_byte elf0 L).
Abbreviation stepped := (stepped file_byte elf0 is_text pid a L v).

Lemma kern_load_wp k va :
  inv k → running k → 0 ≤ va < MIPS_KSEG0 → allowed L (ULoad va) →
  wp (kern_load 2 va) (λ x k', x = view k va ∧ stepped k k' (view k)) fault_err k.
Proof using All.
  intros Hi Hrn Hva (seg & ty & base & Hat).
  eapply wp_mono; [|done|eapply (agrees_wp id); [by apply kern_load_agrees|by eapply user_load_wp]].
  intros o k' (x & -> & -> & Hs). done.
Qed.

Lemma kern_store_wp k va x :
  inv k → running k → 0 ≤ va < MIPS_KSEG0 → allowed L (UStore va 0) →
  wp (kern_store 2 va x) (λ _ k', stepped k k' (λ w, if decide (w = va) then x else view k w)) fault_err k.
Proof using All.
  intros Hi Hrn Hva (seg & ty & base & Hat & Hty).
  eapply wp_mono; [|done|eapply (agrees_wp id); [by apply kern_store_agrees|by eapply user_store_wp]].
  intros o k' (x' & -> & Hs). done.
Qed.

(** [s'] is [s] with other memory, input and output. *)
Definition only_io s s' (inp out : list Z) : Prop :=
  us_in s' = inp ∧ us_out s' = out ∧ us_curspl s' = us_curspl s ∧ us_iplhigh s' = us_iplhigh s.

Lemma write_loop_wp n s p i :
  inv (us_k s) → running (us_k s) → 0 ≤ p + i → p + i + Z.of_nat n ≤ MIPS_KSEG0 → readable L (p + i) (Z.of_nat n) →
  wp (write_loop 2 p i n)
    (λ _ s', stepped (us_k s) (us_k s') (view (us_k s)) ∧
       only_io s s' (us_in s) (us_out s ++ (view (us_k s) <$> seqZ (p + i) (Z.of_nat n)))) fault_err s.
Proof using All.
  revert s i. induction n as [|n IH]; intros s i Hi Hrn Hlo Hhi Hrd; cbn [write_loop].
  { apply wp_ret. split; [by apply stepped_refl|]. unfold only_io. cbn. by rewrite app_nil_r. }
  unfold MIPS_KSEG0 in Hhi. apply wp_bind, wp_in_kernel. rewrite (wrap_small 32 (p + i)) by lia.
  eapply wp_mono; [|done|apply kern_load_wp; [done|done|unfold MIPS_KSEG0; lia|apply Hrd; lia]].
  intros x k1 [-> Hs1]. apply wp_bind, wp_modify. cbn.
  eapply wp_mono; [|done|apply IH; cbn; [apply Hs1|apply Hs1|lia|unfold MIPS_KSEG0; lia|intros w Hw; apply Hrd; lia]].
  cbn. intros _ s2 [Hs2 (Ein & Eout & Espl & Eipl)]. split.
  - eapply stepped_ext; [|by eapply stepped_trans]. apply Hs1.
  - split; [done|]. split; [|done]. rewrite Eout, fmap_seqZ_S, <- app_assoc. cbn. f_equal. f_equal.
    rewrite Z.add_assoc. apply list_fmap_ext. intros j w _. apply Hs1.
Qed.


Lemma write_bytes_cons m va c l w :
  write_bytes (λ w, if decide (w = va) then c else m w) (va + 1) l w = write_bytes m va (c :: l) w.
Proof.
  unfold write_bytes. cbn [length]. destruct (decide (w = va)) as [->|Hne].
  - zcases; try lia. by rewrite Z.sub_diag.
  - zcases; try lia; try done. by replace (Z.to_nat (w - va)) with (S (Z.to_nat (w - (va + 1)))) by lia.
Qed.

Lemma write_bytes_ext m m' va l w : (∀ w, m w = m' w) → write_bytes m va l w = write_bytes m' va l w.
Proof. intros He. unfold write_bytes. by rewrite He. Qed.

Lemma readable_of_writable va n : writable L va n → readable L va n.
Proof. intros Hw w Hin. destruct (Hw w Hin) as (seg & ty & base & Hat & _). by exists seg, ty, base. Qed.

Lemma read_loop_wp n s p i size l rest full :
  inv (us_k s) → running (us_k s) → 0 ≤ p + i → p + i + Z.of_nat n ≤ MIPS_KSEG0 → writable L (p + i) (Z.of_nat n) →
  read_result n (us_in s) = Some (l, rest, full) →
  wp (read_loop 2 p i size n)
    (λ r s', r = (if full then size else i + zlen l - 1) ∧
       stepped (us_k s) (us_k s') (write_bytes (view (us_k s)) (p + i) l) ∧ only_io s s' rest (us_out s)) fault_err s.
Proof using All.
  revert s i l rest full. induction n as [|n IH]; intros s i l rest full Hi Hrn Hlo Hhi Hwr Hres; cbn [read_loop].
  { cbn in Hres. injection Hres as <- <- <-. apply wp_ret. split; [done|]. split; [|done].
    eapply stepped_ext; [|by apply stepped_refl]. intros w. unfold write_bytes. cbn. zcases; try done; lia. }
  destruct s as [k [|c typed] out spl ipl]; cbn in Hres; [done|].
  unfold MIPS_KSEG0 in Hhi. unfold sys_getch. apply wp_bind, wp_bind, wp_gets. cbn [us_in]. apply wp_bind, wp_modify, wp_ret.
  apply wp_bind, wp_in_kernel. rewrite (wrap_small 32 (p + i)) by lia. cbn [us_k].
  eapply wp_mono; [|done|apply kern_store_wp; [done|done|unfold MIPS_KSEG0; lia|apply Hwr; lia]].
  intros [] k1 Hs1. apply wp_bind, wp_in_kernel. cbn [us_k set_k].
  eapply wp_mono; [|done|apply kern_load_wp; [apply Hs1|apply Hs1|unfold MIPS_KSEG0; lia|eapply readable_of_writable; [exact Hwr|lia]]].
  intros x k2 [Hx Hs2]. rewrite (st_view _ _ _ _ _ _ _ _ _ _ Hs1), decide_True in Hx by done. subst x.
  assert (Hs12 : stepped k k2 (λ w, if decide (w = p + i) then u8 c else view k w)).
  { eapply stepped_ext; [|by eapply stepped_trans]. apply Hs1. }
  rewrite signed_char. destruct (128 <=? u8 c).
  - injection Hres as <- <- <-. apply wp_ret. split; [cbn; lia|]. split; [|done].
    eapply stepped_ext; [|exact Hs12]. intros w. rewrite <- write_bytes_cons. unfold write_bytes. cbn. zcases; try done; lia.
  - destruct (read_result n typed) as [[[l' rest'] full']|] eqn:E; cbn in Hres; [|done]. injection Hres as <- <- <-.
    eapply wp_mono; [|done|apply (IH _ (i + 1) l' rest' full'); cbn; [apply Hs2|apply Hs2|lia|unfold MIPS_KSEG0; lia|intros w Hw; apply Hwr; lia|done]].
    cbn. intros r s3 (-> & Hs3 & Hio). split; [destruct full'; cbn [length]; lia|]. split; [|done].
    eapply stepped_ext; [|eapply stepped_trans; [exact Hs12|exact Hs3]]. intros w. rewrite Z.add_assoc.
    rewrite (write_bytes_ext _ _ _ _ _ (st_view _ _ _ _ _ _ _ _ _ _ Hs12)). apply write_bytes_cons.
Qed.

Lemma copyout_wp k bs va :
  inv k → running k → 0 < zlen bs → 0 ≤ va → va + zlen bs ≤ USERSPACETOP → writable L va (zlen bs) →
  wp (copyout 2 bs va) (λ r k', r = 0 ∧ stepped k k' (write_bytes (view k) va bs)) fault_err k.
Proof using All.
  intros Hi Hrn Hlen Hva Htop Hwr. unfold copyout. rewrite copycheck_inside by done. cbn [Z.eqb negb].
  rewrite Z.eqb_refl. cbn [negb]. apply wp_bind.
  eapply wp_mono; [|done|by eapply (store_block_wp file_byte write_full elf0 is_text pid a L v)].
  intros b k' [-> Hs]. by apply wp_ret.
Qed.

Lemma sys_write_wp s fd va n :
  inv (us_k s) → running (us_k s) → fd = STDOUT_FILENO ∨ fd = STDERR_FILENO →
  0 ≤ va → 0 ≤ n < 2 ^ 31 → va + n ≤ USERSPACETOP → readable L va n →
  wp (sys_write 2 fd va n) (λ r s', r = n ∧ stepped (us_k s) (us_k s') (view (us_k s)) ∧
    only_io s s' (us_in s) (us_out s ++ (view (us_k s) <$> seqZ va n))) fault_err s.
Proof using All.
  intros Hi Hrn Hfd Hva Hn Htop Hrd. unfold sys_write, USERSPACETOP in *. rewrite swrap_small by lia.
  replace (_ && _)%bool with false by (destruct Hfd as [-> | ->]; done). apply wp_bind.
  eapply wp_mono; [|done|apply write_loop_wp; rewrite ?Z.add_0_r, ?Z2Nat.id by lia; done].
  intros [] s'. rewrite Z.add_0_r, Z2Nat.id by lia. intros Hpost. by apply wp_ret.
Qed.

Lemma sys_read_wp s fd va n l rest full :
  inv (us_k s) → running (us_k s) → fd = STDIN_FILENO →
  0 ≤ va → 0 ≤ n < 2 ^ 31 → va + n ≤ USERSPACETOP → writable L va n →
  read_result (Z.to_nat n) (us_in s) = Some (l, rest, full) →
  wp (sys_read 2 fd va n) (λ r s', r = (if full then n else zlen l - 1) ∧
    stepped (us_k s) (us_k s') (write_bytes (view (us_k s)) va l) ∧ only_io s s' rest (us_out s)) fault_err s.
Proof using All.
  intros Hi Hrn -> Hva Hn Htop Hrd Hres. unfold sys_read, USERSPACETOP in *. rewrite swrap_small by lia. cbn [Z.eqb negb].
  eapply wp_mono; [|done|apply (read_loop_wp (Z.to_nat n) s va 0 n l rest full); rewrite ?Z.add_0_r, ?Z2Nat.id by lia; done].
  intros r s'. rewrite Z.add_0_r. intros (-> & Hpost). by destruct full.
Qed.

Lemma sys___time_wp s now p1 p2 :
  inv (us_k s) → running (us_k s) → 0 ≤ p1 → 0 ≤ p2 → p1 + 8 ≤ USERSPACETOP → p2 + 4 ≤ USERSPACETOP →
  writable L p1 8 → writable L p2 4 →
  wp (sys___time 2 now p1 p2) (λ r s', r = 0 ∧
    stepped (us_k s) (us_k s') (write_bytes (write_bytes (view (us_k s)) p1 (be_bytes 8 (tv_sec now))) p2 (be_bytes 4 (tv_nsec now))) ∧
    only_io s s' (us_in s) (us_out s)) fault_err s.
Proof using All.
  intros Hi Hrn H1 H2 Ht1 Ht2 Hw1 Hw2. unfold sys___time. apply wp_bind, wp_in_kernel.
  eapply wp_mono; [|done|apply copyout_wp; [done|done|done|done|done|exact Hw1]].
  intros r k1 [-> Hs1]. cbn [Z.eqb negb]. apply wp_bind, wp_in_kernel.
  eapply wp_mono; [|done|apply copyout_wp; [apply Hs1|apply Hs1|done|done|done|exact Hw2]].
  intros r k2 [-> Hs2]. apply wp_ret. split; [done|]. split; [|done].
  eapply stepped_ext; [|by eapply stepped_trans]. intros w. apply write_bytes_ext. apply Hs1.
Qed.

End calls.

(** ** The dispatcher *)

Lemma syscall_wp {V} `{VnodeOps V} `{IoOps V} fuel now tf (Q : trapframe → usys V → Prop) E s :
  us_curspl s = 0 → us_iplhigh s = 0 →
  wp (syscall_do fuel now (i32 (tf_v0 tf)) tf)
    (λ r s', us_curspl s' = us_curspl s ∧ us_iplhigh s' = us_iplhigh s ∧ Q (result_frame tf r) s') E s →
  wp (syscall fuel now tf) Q E s.
Proof.
  intros Hspl Hipl Hdo. unfold syscall. apply wp_bind, wp_gets, wp_bind, wp_KASSERT; [cbn; by rewrite Hspl|].
  apply wp_bind, wp_KASSERT; [cbn; by rewrite Hipl|]. apply wp_bind. eapply wp_mono; [|done|exact Hdo].
  intros r s' (E1 & E2 & HQ). apply wp_bind, wp_gets, wp_bind, wp_KASSERT; [cbn; by rewrite E1, Hspl|].
  apply wp_bind, wp_KASSERT; [cbn; by rewrite E2, Hipl|]. by apply wp_ret.
Qed.

(** A call that returns at once. *)
Lemma syscall_run {V} `{VnodeOps V} `{IoOps V} fuel now tf r (s s' : usys V) :
  us_curspl s = 0 → us_iplhigh s = 0 → us_curspl s' = 0 → us_iplhigh s' = 0 →
  syscall_do fuel now (i32 (tf_v0 tf)) tf s = Ret r s' →
  syscall fuel now tf s = Ret (result_frame tf r) s'.
Proof.
  intros H1 H2 H3 H4 Hdo. unfold syscall. krun. cbn [id].
  rewrite !run_assert by (by rewrite ?H1, ?H2). rewrite (run_bind_ret _ _ _ _ _ Hdo). krun. cbn [id].
  by rewrite !run_assert by (by rewrite ?H3, ?H4).
Qed.

Section dispatch.
Context {V : Type} `{VnodeOps V} `{IoOps V} (fuel : nat) (now : timespec) (tf : trapframe).

Lemma syscall_do_write :
  syscall_do fuel now (i32 SYS_write) tf =
  (retval ← sys_write fuel (i32 (tf_a0 tf)) (tf_a1 tf) (tf_a2 tf); mret (if retval <? 0 then ENOSYS else 0, retval)).
Proof. reflexivity. Qed.

Lemma syscall_do_read :
  syscall_do fuel now (i32 SYS_read) tf =
  (retval ← sys_read fuel (i32 (tf_a0 tf)) (tf_a1 tf) (tf_a2 tf); mret (if retval <? 0 then ENOSYS else 0, retval)).
Proof. reflexivity. Qed.

Lemma syscall_do_time :
  syscall_do fuel now (i32 SYS___time) tf =
  (err ← sys___time fuel now (tf_a0 tf) (tf_a1 tf); mret (err, 0)).
Proof. reflexivity. Qed.

Lemma syscall_do_reboot :
  syscall_do fuel now (i32 SYS_reboot) tf = (err ← sys_reboot (i32 (tf_a0 tf)); mret (err, 0)).
Proof. reflexivity. Qed.

End dispatch.

Lemma result_frame_ok tf x : 0 ≤ x < 2 ^ 31 →
  result_frame tf (if x <? 0 then ENOSYS else 0, x) = Trapframe x (tf_a0 tf) (tf_a1 tf) (tf_a2 tf) 0 (u32 (tf_epc tf + 4)).
Proof.
  intros Hx. rewrite (proj2 (Z.ltb_ge x 0)) by lia. unfold result_frame. cbn. by rewrite wrap_small by lia.
Qed.

Lemma read_result_length n typed l rest full :
  read_result n typed = Some (l, rest, full) →
  (if full then length l = n else (0 < length l ≤ n)%nat).
Proof.
  revert typed l rest full. induction n as [|n IH]; intros [|c typed] l rest full; cbn; try (by intros [= <- <- <-]); try done.
  destruct (128 <=? u8 c); [intros [= <- <- <-]; cbn; lia|].
  destruct (read_result n typed) as [[[l' r'] f']|] eqn:E; cbn; [|done]. intros [= <- <- <-]. apply IH in E.
  destruct f'; cbn; lia.
Qed.

(** C39: the system calls that move data.  For a process that runs, with a buffer in
    its segments: write to standard output or error prints exactly the bytes the program has in the buffer and
    returns their number; read from standard input stores what is typed (ending after a character above 127, which is
    stored but not counted) and nothing else; __time stores the seconds and nanoseconds of the clock, most significant byte first.
    In each case a3 is 0, v0 the result, the program counter goes to the next instruction, and the rest of
    the memory of this and all other processes is the same, whatever is paged in and out meanwhile; the only other outcomes are
    the panics [fault_err]. *)
Theorem syscall_data {V} `{VnodeOps V} `{IoOps V} (file_byte : V → Z → Z) `{!VnodeLaws V file_byte}
    (s : usys V) pid a L v elf0 is_text now tf :
  (∀ v off bs v' n, VOP_WRITE v off bs = inr (v', n) → n = zlen bs) →
  as_wf L → image_of file_byte elf0 is_text L v →
  vm_inv (page_map L) elf0 is_text (us_k s) → running pid a L v (us_k s) →
  us_curspl s = 0 → us_iplhigh s = 0 →
  let mem := view file_byte elf0 L (us_k s) in
  let ends x mem' inp out := wp (syscall 2 now tf) (λ tf' s',
    tf' = Trapframe x (tf_a0 tf) (tf_a1 tf) (tf_a2 tf) 0 (u32 (tf_epc tf + 4)) ∧
    stepped file_byte elf0 is_text pid a L v (us_k s) (us_k s') mem' ∧ only_io s s' inp out) fault_err s in
  let va := tf_a1 tf in let n := tf_a2 tf in
  (tf_v0 tf = SYS_write → tf_a0 tf = STDOUT_FILENO ∨ tf_a0 tf = STDERR_FILENO →
   0 ≤ va → 0 ≤ n < 2 ^ 31 → va + n ≤ USERSPACETOP → readable L va n →
   ends n mem (us_in s) (us_out s ++ (mem <$> seqZ va n))) ∧
  (tf_v0 tf = SYS_read → tf_a0 tf = STDIN_FILENO →
   0 ≤ va → 0 ≤ n < 2 ^ 31 → va + n ≤ USERSPACETOP → writable L va n →
   ∀ l rest full, read_result (Z.to_nat n) (us_in s) = Some (l, rest, full) →
   ends (if full then n else zlen l - 1) (write_bytes mem va l) rest (us_out s)) ∧
  (tf_v0 tf = SYS___time → 0 ≤ tf_a0 tf → 0 ≤ va →
   tf_a0 tf + 8 ≤ USERSPACETOP → va + 4 ≤ USERSPACETOP → writable L (tf_a0 tf) 8 → writable L va 4 →
   ends 0 (write_bytes (write_bytes mem (tf_a0 tf) (be_bytes 8 (tv_sec now))) va (be_bytes 4 (tv_nsec now)))
     (us_in s) (us_out s)).
Proof.
  intros Hfull Hwf Himg Hi Hrn Hspl Hipl mem ends va n. subst ends. split; [|split].
  - intros Hv0 Hfd Hva Hn Htop Hrd. apply syscall_wp; [done|done|]. rewrite Hv0, syscall_do_write. apply wp_bind.
    eapply wp_mono; [|done|eapply (sys_write_wp file_byte Hfull elf0 is_text pid a L v); try done].
    + intros r s' (-> & Hs & Hio). apply wp_ret. destruct Hio as (? & ? & ? & ?). by rewrite result_frame_ok.
    + by destruct Hfd as [-> | ->]; [left|right].
  - intros Hv0 Hfd Hva Hn Htop Hwr l rest full Hres. apply syscall_wp; [done|done|]. rewrite Hv0, syscall_do_read. apply wp_bind.
    eapply wp_mono; [|done|eapply (sys_read_wp file_byte Hfull elf0 is_text pid a L v); try done; by rewrite Hfd].
    intros r s' (-> & Hs & Hio). apply wp_ret. destruct Hio as (? & ? & ? & ?).
    rewrite result_frame_ok; [done|]. apply read_result_length in Hres. destruct full; lia.
  - intros Hv0 Ha0 Ha1 Ht1 Ht2 Hw1 Hw2. apply syscall_wp; [done|done|]. rewrite Hv0, syscall_do_time. apply wp_bind.
    eapply wp_mono; [|done|by eapply (sys___time_wp file_byte Hfull elf0 is_text pid a L v)].
    intros r s' (-> & Hs & Hio). apply wp_ret. by destruct Hio as (? & ? & ? & ?).
Qed.

(** The registers after an error. *)
Definition error_frame (tf : trapframe) (err : Z) : trapframe :=
  Trapframe err (tf_a0 tf) (tf_a1 tf) (tf_a2 tf) 1 (u32 (tf_epc tf + 4)).

Lemma negative_size n : 2 ^ 31 ≤ n < 2 ^ 32 → i32 n = n - 2 ^ 32.
Proof.
  intros Hn. unfold swrap. change (2 ^ (32 - 1)) with (2 ^ 31).
  rewrite <- (Z_mod_plus_full (n + 2 ^ 31) (-1)), Z.mod_small by lia. lia.
Qed.

(** The errors of the dispatcher: a number it does not know, a file descriptor other than the three, and a size of
    2^31 or more (an [int] that is negative) are all reported as ENOSYS, an unknown code of reboot as EINVAL; nothing else happens. *)
Theorem syscall_errors {V} `{VnodeOps V} `{IoOps V} (s : usys V) fuel now tf :
  us_curspl s = 0 → us_iplhigh s = 0 →
  let fails err := syscall fuel now tf s = Ret (error_frame tf err) s in
  (i32 (tf_v0 tf) ∉ [SYS__exit; SYS_read; SYS_write; SYS___time; SYS_reboot] → fails ENOSYS) ∧
  (tf_v0 tf = SYS_write → i32 (tf_a0 tf) ∉ [STDOUT_FILENO; STDERR_FILENO] ∨ 2 ^ 31 ≤ tf_a2 tf < 2 ^ 32 → fails ENOSYS) ∧
  (tf_v0 tf = SYS_read → i32 (tf_a0 tf) ≠ STDIN_FILENO → fails ENOSYS) ∧
  (tf_v0 tf = SYS_reboot → i32 (tf_a0 tf) ∉ [0; 1; 2] → fails EINVAL).
Proof.
  intros Hspl Hipl fails. subst fails.
  assert (Hrun : ∀ r, syscall_do fuel now (i32 (tf_v0 tf)) tf s = Ret r s → syscall fuel now tf s = Ret (result_frame tf r) s).
  { intros r Hr. by apply syscall_run. }
  split; [|split; [|split]].
  - rewrite !not_elem_of_cons. intros (H1 & H2 & H3 & H4 & H5 & _). apply (Hrun (ENOSYS, 0)). unfold syscall_do.
    repeat match goal with |- context [?x =? ?y] => rewrite (proj2 (Z.eqb_neq x y)) by done end. done.
  - intros Hv0 Hbad. rewrite Hv0, syscall_do_write in Hrun. unfold sys_write in Hrun.
    destruct (negb (i32 (tf_a0 tf) =? STDOUT_FILENO) && negb (i32 (tf_a0 tf) =? STDERR_FILENO)) eqn:E;
      [by apply (Hrun (ENOSYS, -1))|].
    destruct Hbad as [Hfd|Hn].
    + rewrite !not_elem_of_cons in Hfd. destruct Hfd as (H1 & H2 & _).
      by rewrite (proj2 (Z.eqb_neq _ _) H1), (proj2 (Z.eqb_neq _ _) H2) in E.
    + rewrite (negative_size _ Hn), Z2Nat.nonpos in Hrun by lia. apply (Hrun (ENOSYS, tf_a2 tf - 2 ^ 32)). cbn [write_loop]. krun.
      by rewrite (proj2 (Z.ltb_lt _ 0)) by lia.
  - intros Hv0 Hfd. rewrite Hv0, syscall_do_read in Hrun. unfold sys_read in Hrun.
    rewrite (proj2 (Z.eqb_neq _ _) Hfd) in Hrun. by apply (Hrun (ENOSYS, -1)).
  - rewrite !not_elem_of_cons. intros Hv0 (H1 & H2 & H3 & _). rewrite Hv0, syscall_do_reboot in Hrun. unfold sys_reboot in Hrun.
    repeat match type of Hrun with context [?x =? ?y] => rewrite (proj2 (Z.eqb_neq x y)) in Hrun by done end.
    by apply (Hrun (EINVAL, 0)).
Qed.

(** ** Pointers into the kernel *)

Section exposed.
Context {V : Type} `{VnodeOps V} `{IoOps V}.
Implicit Types (k : kstate V) (s : usys V).











End exposed.


(** The demonstration program prints four bytes of its data segment. *)
Definition demo_usys : usys _ := USys demo_state [] [] 0 0.

(** No register of the bus answers. *)
#[export] Instance demo_io : IoOps ramfile := {| io_load _ _ := None; io_store _ _ _ := None |}.

Lemma syscall_data_witness :
  wp (syscall 2 (Timespec 7 5) (Trapframe SYS_write STDOUT_FILENO 0x10000ffe 4 0 0x400000))
    (λ tf' s', tf' = Trapframe 4 STDOUT_FILENO 0x10000ffe 4 0 0x400004 ∧
       us_out s' = view rf_byte demo_elf demo_L demo_state <$> seqZ 0x10000ffe 4) fault_err demo_usys.
Proof.
  pose proof (syscall_data rf_byte (USys demo_state [] [] 0 0) 1 (k_next demo_boot)
    demo_L demo_file demo_elf demo_is_text (Timespec 7 5) (Trapframe SYS_write STDOUT_FILENO 0x10000ffe 4 0 0x400000)
    ramfile_full demo_wf demo_image) as Hs. cbn [us_k us_curspl us_iplhigh us_in us_out tf_v0 tf_a0 tf_a1 tf_a2 tf_epc] in Hs.
  destruct (Hs demo_vm_inv demo_running eq_refl eq_refl) as [Hw _]. clear Hs.
  eapply wp_mono; [|exact (λ w Hw, Hw)|apply Hw; clear Hw].
  - intros tf' s' (-> & _ & _ & Hout & _). split; [reflexivity|exact Hout].
  - reflexivity.
  - by left.
  - lia.
  - lia.
  - vm_compute. discriminate.
  - intros w Hw. apply (allowedb_spec demo_L).
    assert (w = 0x10000ffe ∨ w = 0x10000fff ∨ w = 0x10001000 ∨ w = 0x10001001) as [-> |[-> |[-> | ->]]] by lia;
      vm_compute; reflexivity.
Defined.

