(* ===== verification/Kmalloc.v ===== *)
(** * Kmalloc: the kernel heap (kern/vm/kmalloc.c)

    Blocks of eight sizes on pages of their own, with a free list threaded
    through the free blocks of each page, the pool of [pageref] structures that
    describe the pages, and whole pages for what is larger.

    The free lists are the words in memory that the code links, [next_samesize] and
    [next_all] are lists of the [pageref]s, and the pool is its array of roots
    with their bit maps.  The spinlock is given up while pages are
    allocated: the critical sections in between are the steps, a task is a call that has
    got as far as one of these points, and tasks interleave with each other and
    with the writes of the owners of blocks to their blocks.

    An assertion that fails gives [None].  The debugging modes (SLOW, GUARDS,
    LABELS) are off, as in the source. *)

From Stdlib Require Import ZArith Lia.
From stdpp Require Import base gmap list list_numbers sets fin_sets.
From S2P Require Import Prelude Types.
Set Default Goal Selector "!".
Open Scope Z_scope.

Definition NSIZES : Z := 8.
Definition sizes : list Z := [16; 32; 64; 128; 256; 512; 1024; 2048].
Definition LARGEST_SUBPAGE_SIZE : Z := 2048.
Definition INVALID_OFFSET : Z := 0xffff.
Definition NPAGEREFS_PER_PAGE : Z := 256.
Definition NUM_PAGEREFPAGES : Z := 16.
Abbreviation u16 := (wrap 16).

Record pageref := Pageref {
  pageaddr_and_blocktype : Z;
  freelist_offset : Z;
  nfree : Z;
}.

Definition PR_PAGEADDR (pr : pageref) : Z := Z.land (pageaddr_and_blocktype pr) PAGE_FRAME.
Definition PR_BLOCKTYPE (pr : pageref) : Z := Z.land (pageaddr_and_blocktype pr) 0xfff.
Definition MKPAB (pa blk : Z) : Z := Z.lor (Z.land pa PAGE_FRAME) (Z.land blk 0xfff).

(** A null [page] is 0. *)
Record kheap_root := Root {
  rt_page : Z;
  pagerefs_inuse : list Z;
  numinuse : Z;
}.

(** [prs] are the [pageref] structures by address, [words] the memory. *)
Record kheap := Kheap {
  kheaproots : list kheap_root;
  prs : gmap Z pageref;
  sizebases : list (list Z);
  allbase : list Z;
  words : Z → Z;
}.

Definition set_roots (x : list kheap_root) (h : kheap) : kheap := Kheap x (prs h) (sizebases h) (allbase h) (words h).
Definition set_pr (p : Z) (r : pageref) (h : kheap) : kheap :=
  Kheap (kheaproots h) (<[p := r]> (prs h)) (sizebases h) (allbase h) (words h).
Definition set_words (x : Z → Z) (h : kheap) : kheap := Kheap (kheaproots h) (prs h) (sizebases h) (allbase h) x.

Definition put_word (a x : Z) (m : Z → Z) : Z → Z := λ b, if decide (b = a) then x else m b.

Definition fill_deadbeef (vptr len : Z) (m : Z → Z) : Z → Z := λ a,
  if (vptr <=? a) && (a <? vptr + len / 4 * 4) && ((a - vptr) mod 4 =? 0) then 0xdeadbeef else m a.

(** ** The pool of pagerefs *)

(** The inner loop of [allocpageref]: [for (k=1,j=0; k!=0; k<<=1,j++)]. *)
Fixpoint find_clear (n : nat) (j w : Z) : option Z :=
  match n with
  | O => None
  | S n' => if Z.land w (Z.shiftl 1 j) =? 0 then Some j else find_clear n' (j + 1) w
  end.

(** [for (i=0; i<INUSE_WORDS; i++)]: the index of the slot. *)
Fixpoint find_word (ws : list Z) (i : Z) : option (option Z) :=
  match ws with
  | [] => Some None
  | w :: ws' =>
      if w =? 0xffffffff then find_word ws' (i + 1)
      else j ← find_clear 32 0 w; Some (Some (i * 32 + j))
  end.

(** [for (whichroot=0; ...)]: the root and the slot. *)
Fixpoint find_root (rs : list kheap_root) (whichroot : nat) : option (option (nat * Z)) :=
  match rs with
  | [] => Some None
  | root :: rs' =>
      if NPAGEREFS_PER_PAGE <=? numinuse root then find_root rs' (S whichroot)
      else
        o ← find_word (pagerefs_inuse root) 0;
        match o with
        | None => find_root rs' (S whichroot)
        | Some k => Some (Some (whichroot, k))
        end
  end.

Definition mark_slot (k : Z) (root : kheap_root) : kheap_root :=
  let i := k / 32 in
  Root (rt_page root)
    (arr_set (pagerefs_inuse root) i
       (Z.lor (default 0 (arr_get (pagerefs_inuse root) i)) (Z.shiftl 1 (k mod 32))))
    (numinuse root + 1).

(** [allocpageref] up to the test of [root->page]. *)
Definition allocpageref (h : kheap) : option (option (nat * Z) * kheap) :=
  o ← find_root (kheaproots h) O;
  match o with
  | None => Some (None, h)
  | Some (w, k) =>
      root ← kheaproots h !! w;
      Some (Some (w, k), set_roots (<[w := mark_slot k root]> (kheaproots h)) h)
  end.

(** The loop of [freepageref]. *)
Fixpoint freepageref_loop (p : Z) (rs : list kheap_root) : option (list kheap_root) :=
  match rs with
  | [] => None
  | root :: rs' =>
      if rt_page root =? 0 then
        if negb (numinuse root =? 0) then None else rs'' ← freepageref_loop p rs'; Some (root :: rs'')
      else
        let j := u32 ((p - rt_page root) / 16) in
        if j <? NPAGEREFS_PER_PAGE then
          let i := j / 32 in
          let k := Z.shiftl 1 (j mod 32) in
          word ← arr_get (pagerefs_inuse root) i;
          if Z.land word k =? 0 then None
          else if negb (0 <? numinuse root) then None
          else Some (Root (rt_page root) (arr_set (pagerefs_inuse root) i (Z.land word (Z.lnot k)))
                       (numinuse root - 1) :: rs')
        else rs'' ← freepageref_loop p rs'; Some (root :: rs'')
  end.
Definition freepageref (p : Z) (h : kheap) : option kheap :=
  rs ← freepageref_loop p (kheaproots h); Some (set_roots rs h).

(** ** Blocks *)

(** [None] is the panic. *)
Fixpoint blocktype_from (ss : list Z) (i clientsz : Z) : option Z :=
  match ss with
  | [] => None
  | s :: ss' => if clientsz <=? s then Some i else blocktype_from ss' (i + 1) clientsz
  end.
Definition blocktype (clientsz : Z) : option Z := blocktype_from sizes 0 clientsz.

(** The code at [doalloc]. *)
Definition doalloc (pr : Z) (h : kheap) : option (Z * kheap) :=
  r ← prs h !! pr;
  if negb (freelist_offset r <? PAGE_SIZE) then None
  else
    let prpage := PR_PAGEADDR r in
    let fla := u32 (prpage + freelist_offset r) in
    let fl := words h fla in
    let n := u16 (nfree r - 1) in
    if negb (fl =? 0) then
      if negb (0 <? n) then None
      else if negb (u32 (fl - prpage) <? PAGE_SIZE) then None
      else Some (fla, set_pr pr (Pageref (pageaddr_and_blocktype r) (u16 (fl - prpage)) n) h)
    else
      if negb (n =? 0) then None
      else Some (fla, set_pr pr (Pageref (pageaddr_and_blocktype r) INVALID_OFFSET n) h).

(** The search for a page with a free block. *)
Fixpoint find_page (l : list Z) (blktype : Z) (h : kheap) : option (option Z) :=
  match l with
  | [] => Some None
  | pr :: l' =>
      r ← prs h !! pr;
      if negb (PR_BLOCKTYPE r =? blktype) then None
      else if 0 <? nfree r then Some (Some pr)
      else find_page l' blktype h
  end.

(** [for (i=1; i<pr->nfree; i++)], [n] rounds from [i]; the last value of [fl]. *)
Fixpoint link_blocks (n : nat) (fla size i fl : Z) (m : Z → Z) : option (Z * (Z → Z)) :=
  match n with
  | O => Some (fl, m)
  | S n' =>
      let fl := u32 (fla + i * size) in
      let next := u32 (fla + (i - 1) * size) in
      if fl =? next then None else link_blocks n' fla size (i + 1) fl (put_word fl next m)
  end.

(** The new page [prpage] with its [pageref] at [pr]. *)
Definition new_page (pr prpage blktype : Z) (h : kheap) : option kheap :=
  size ← arr_get sizes blktype;
  let n := u16 (PAGE_SIZE / size) in
  '(fl, m) ← link_blocks (Z.to_nat (n - 1)) prpage size 1 prpage (put_word prpage 0 (words h));
  let offset := u16 (fl - prpage) in
  if negb (offset =? (n - 1) * size) then None
  else
    sb ← arr_get (sizebases h) blktype;
    Some (Kheap (kheaproots h) (<[pr := Pageref (MKPAB prpage blktype) offset n]> (prs h))
            (arr_set (sizebases h) blktype (pr :: sb)) (pr :: allbase h) m).

(** [remove_lists]: the first occurrence goes. *)
Fixpoint unlink (pr : Z) (l : list Z) : list Z :=
  match l with
  | [] => []
  | guy :: l' => if guy =? pr then l' else guy :: unlink pr l'
  end.
Definition remove_lists (pr blktype : Z) (h : kheap) : option kheap :=
  if negb ((0 <=? blktype) && (blktype <? NSIZES)) then None
  else
    sb ← arr_get (sizebases h) blktype;
    Some (Kheap (kheaproots h) (prs h) (arr_set (sizebases h) blktype (unlink pr sb))
            (unlink pr (allbase h)) (words h)).

(** The search of [subpage_kfree]. *)
Fixpoint find_owner (l : list Z) (ptraddr : Z) (h : kheap) : option (option (Z * pageref)) :=
  match l with
  | [] => Some None
  | pr :: l' =>
      r ← prs h !! pr;
      let prpage := PR_PAGEADDR r in
      if negb ((0 <=? PR_BLOCKTYPE r) && (PR_BLOCKTYPE r <? NSIZES)) then None
      else if (prpage <=? ptraddr) && (ptraddr <? prpage + PAGE_SIZE) then Some (Some (pr, r))
      else find_owner l' ptraddr h
  end.

(** Was the block on a page of the heap, and which page is to be given back? *)
Definition subpage_kfree (ptraddr : Z) (h : kheap) : option (bool * option Z * kheap) :=
  o ← find_owner (allbase h) ptraddr h;
  match o with
  | None => Some (false, None, h)
  | Some (pr, r) =>
      let prpage := PR_PAGEADDR r in
      let blktype := PR_BLOCKTYPE r in
      size ← arr_get sizes blktype;
      let offset := u32 (ptraddr - prpage) in
      if (PAGE_SIZE <=? offset) || negb (offset mod size =? 0) then None
      else
        let m := fill_deadbeef ptraddr size (words h) in
        let fl := u32 (prpage + offset) in
        let next := if freelist_offset r =? INVALID_OFFSET then 0 else u32 (prpage + freelist_offset r) in
        if negb (freelist_offset r =? INVALID_OFFSET) && (fl =? next) then None
        else
          let n := u16 (nfree r + 1) in
          let h := set_words (put_word fl next m) h in
          let h := set_pr pr (Pageref (pageaddr_and_blocktype r) (u16 offset) n) h in
          if negb (n <=? PAGE_SIZE / size) then None
          else if n =? PAGE_SIZE / size then
            h ← remove_lists pr blktype h;
            h ← freepageref pr h;
            Some (true, Some prpage, h)
          else Some (true, None, h)
  end.

(** ** Calls as steps

    [TSearch]: no page had room, [alloc_kpages] runs.  [TRef]: the slot [k] of the
    root [w] is taken for the page, and [alloc_kpages] runs for the page of the
    root.  [TBack]: somebody else has brought the page of the root, and ours is given
    back. *)
Inductive task :=
  | TSearch (sz blktype : Z)
  | TRef (sz blktype prpage : Z) (w : nat) (k : Z)
  | TBack (sz blktype prpage : Z) (w : nat) (k : Z).

(** [bigs] are the blocks of whole pages, by address, with their numbers of pages.
    [lost] is not in the code: it records the slots that [allocpageref] took for a root
    whose page it then did not get; nothing gives them back. *)
Record ksys := KSys {
  heap : kheap;
  tasks : gmap Z task;
  bigs : gmap Z Z;
  lost : gset (nat * Z);
}.

Inductive kact :=
  | AMalloc (t sz : Z)       (* the first critical section of a small [kmalloc] *)
  | APage (t va : Z)         (* [alloc_kpages(1)] returns to [subpage_kmalloc] *)
  | ARefPage (t va : Z)      (* [alloc_kpages(1)] returns to [allocpagerefpage] *)
  | AResume (t : Z)          (* [free_kpages] returns to [allocpagerefpage] *)
  | ABig (sz va : Z)         (* a large [kmalloc] for which [alloc_kpages] returns [va] *)
  | AFree (ptr : Z)          (* [kfree] *)
  | AWrite (a x : Z).        (* the owner of a block writes a word of it *)

(** The end of [subpage_kmalloc], with the [pageref] in hand; the task is over. *)
Definition finish (t blktype prpage : Z) (w : nat) (k : Z) (s : ksys) : option (Z * ksys) :=
  root ← kheaproots (heap s) !! w;
  let pr := rt_page root + 16 * k in
  h ← new_page pr prpage blktype (heap s);
  '(p, h) ← doalloc pr h;
  Some (p, KSys h (delete t (tasks s)) (bigs s) (lost s)).

(** The value returned, 0 for NULL, if the call ends with this step. *)
Definition kstep (a : kact) (s : ksys) : option (option Z * ksys) :=
  match a with
  | AMalloc t sz =>
      if LARGEST_SUBPAGE_SIZE <=? sz then None
      else
        blktype ← blocktype sz;
        sb ← arr_get (sizebases (heap s)) blktype;
        o ← find_page sb blktype (heap s);
        match o with
        | Some pr => '(p, h) ← doalloc pr (heap s); Some (Some p, KSys h (tasks s) (bigs s) (lost s))
        | None => Some (None, KSys (heap s) (<[t := TSearch sz blktype]> (tasks s)) (bigs s) (lost s))
        end
  | APage t prpage =>
      tk ← tasks s !! t;
      match tk with
      | TSearch sz blktype =>
          if prpage =? 0 then Some (Some 0, KSys (heap s) (delete t (tasks s)) (bigs s) (lost s))
          else if negb (prpage mod PAGE_SIZE =? 0) then None
          else
            '(o, h) ← allocpageref (heap s);
            match o with
            | None => Some (Some 0, KSys h (delete t (tasks s)) (bigs s) (lost s))
            | Some (w, k) =>
                root ← kheaproots h !! w;
                if rt_page root =? 0 then
                  Some (None, KSys h (<[t := TRef sz blktype prpage w k]> (tasks s)) (bigs s) (lost s))
                else '(p, s) ← finish t blktype prpage w k (KSys h (tasks s) (bigs s) (lost s)); Some (Some p, s)
            end
      | _ => None
      end
  | ARefPage t va =>
      tk ← tasks s !! t;
      match tk with
      | TRef sz blktype prpage w k =>
          root ← kheaproots (heap s) !! w;
          if va =? 0 then
            if rt_page root =? 0 then Some (Some 0, KSys (heap s) (delete t (tasks s)) (bigs s) ({[(w, k)]} ∪ lost s))
            else '(p, s) ← finish t blktype prpage w k s; Some (Some p, s)
          else if negb (va mod PAGE_SIZE =? 0) then None
          else if negb (rt_page root =? 0) then
            Some (None, KSys (heap s) (<[t := TBack sz blktype prpage w k]> (tasks s)) (bigs s) (lost s))
          else
            let h := set_roots (<[w := Root va (pagerefs_inuse root) (numinuse root)]> (kheaproots (heap s))) (heap s) in
            '(p, s) ← finish t blktype prpage w k (KSys h (tasks s) (bigs s) (lost s)); Some (Some p, s)
      | _ => None
      end
  | AResume t =>
      tk ← tasks s !! t;
      match tk with
      | TBack sz blktype prpage w k =>
          root ← kheaproots (heap s) !! w;
          if rt_page root =? 0 then None
          else '(p, s) ← finish t blktype prpage w k s; Some (Some p, s)
      | _ => None
      end
  | ABig sz va =>
      if sz <? LARGEST_SUBPAGE_SIZE then None
      else if va =? 0 then Some (Some 0, s)
      else if negb (va mod PAGE_SIZE =? 0) then None
      else Some (Some va, KSys (heap s) (tasks s) (<[va := u32 (sz + PAGE_SIZE - 1) / PAGE_SIZE]> (bigs s)) (lost s))
  | AFree ptr =>
      if ptr =? 0 then Some (Some 0, s)
      else
        '(found, _, h) ← subpage_kfree ptr (heap s);
        if found : bool then Some (Some 0, KSys h (tasks s) (bigs s) (lost s))
        else if negb (ptr mod PAGE_SIZE =? 0) then None
        else Some (Some 0, KSys h (tasks s) (delete ptr (bigs s)) (lost s))
  | AWrite a x => Some (None, KSys (set_words (put_word a x (words (heap s))) (heap s)) (tasks s) (bigs s) (lost s))
  end.

(** ** Pages and their owners *)

Inductive owner := OHeap (pr : Z) | ORoot (w : nat) | OTask (t : Z) | OBig (b : Z) | OLost.

#[global] Instance owner_eq_dec : EqDecision owner.
Proof. solve_decision. Defined.

Definition task_page (tk : task) : option Z :=
  match tk with TSearch _ _ => None | TRef _ _ p _ _ | TBack _ _ p _ _ => Some p end.
Definition task_slot (tk : task) : option (nat * Z) :=
  match tk with TSearch _ _ => None | TRef _ _ _ w k | TBack _ _ _ w k => Some (w, k) end.

Definition owned (s : ksys) (o : owner) (p : Z) : Prop :=
  match o with
  | OHeap pr => pr ∈ allbase (heap s) ∧ ∃ r, prs (heap s) !! pr = Some r ∧ PR_PAGEADDR r = p
  | ORoot w => ∃ rt, kheaproots (heap s) !! w = Some rt ∧ rt_page rt = p ∧ p ≠ 0
  | OTask t => ∃ tk, tasks s !! t = Some tk ∧ task_page tk = Some p
  | OBig b => ∃ n i, bigs s !! b = Some n ∧ 0 ≤ i < n ∧ p = b + i * PAGE_SIZE
  | OLost => False
  end.

(** A page of kernel memory: KSEG0, page aligned. *)
Definition page_ok (p : Z) : Prop := p mod PAGE_SIZE = 0 ∧ 0x80000000 ≤ p < 0xa0000000.

(** What [alloc_kpages] may return: [n] pages that nobody has. *)
Definition fresh_pages (s : ksys) (va n : Z) : Prop :=
  ∀ i, 0 ≤ i < n → page_ok (va + i * PAGE_SIZE) ∧ ∀ o, ¬ owned s o (va + i * PAGE_SIZE).

(** ** Well-formedness *)

(** Which slots of a root are taken. *)
Definition slot_bit (rt : kheap_root) (k : Z) : bool :=
  Z.testbit (default 0 (arr_get (pagerefs_inuse rt) (k / 32))) (k mod 32).
Definition used (rt : kheap_root) : gset Z :=
  list_to_set (filter (λ k, slot_bit rt k = true) (seqZ 0 NPAGEREFS_PER_PAGE)).

Record root_wf (rt : kheap_root) : Prop := {
  rw_len : length (pagerefs_inuse rt) = 8%nat;
  rw_words : Forall (λ w, 0 ≤ w < 2 ^ 32) (pagerefs_inuse rt);
  rw_count : numinuse rt = Z.of_nat (size (used rt));
}.

(** The free list of a page: the offsets [l], linked in memory. *)
Fixpoint chain (m : Z → Z) (page : Z) (l : list Z) : Prop :=
  match l with
  | [] => True
  | o :: l' => m (page + o) = match l' with [] => 0 | o' :: _ => page + o' end ∧ chain m page l'
  end.

Record page_wf (m : Z → Z) (r : pageref) (page size : Z) (l : list Z) : Prop := {
  pw_page : page_ok page;
  pw_pab : ∃ blk, 0 ≤ blk < NSIZES ∧ pageaddr_and_blocktype r = page + blk ∧ arr_get sizes blk = Some size;
  pw_offs : Forall (λ o, 0 ≤ o < PAGE_SIZE ∧ o mod size = 0) l;
  pw_nodup : NoDup l;
  pw_chain : chain m page l;
  pw_head : freelist_offset r = match l with [] => INVALID_OFFSET | o :: _ => o end;
  pw_nfree : nfree r = zlen l;
}.

(** The slot [k] of the root [w] is where the [pageref] [pr] is. *)
Definition slot_at (h : kheap) (w : nat) (k pr : Z) : Prop :=
  ∃ rt, kheaproots h !! w = Some rt ∧ rt_page rt ≠ 0 ∧ 0 ≤ k < NPAGEREFS_PER_PAGE ∧ pr = rt_page rt + 16 * k.

(** Who has the slot [k] of the root [w]. *)
Definition holds (s : ksys) (w : nat) (k : Z) (o : owner) : Prop :=
  match o with
  | OHeap pr => pr ∈ allbase (heap s) ∧ slot_at (heap s) w k pr
  | OTask t => ∃ tk, tasks s !! t = Some tk ∧ task_slot tk = Some (w, k)
  | OLost => (w, k) ∈ lost s
  | _ => False
  end.

Definition task_ok (h : kheap) (tk : task) : Prop :=
  match tk with
  | TSearch sz blk => 0 ≤ sz ∧ blocktype sz = Some blk
  | TRef sz blk _ w k => 0 ≤ sz ∧ blocktype sz = Some blk
  | TBack sz blk _ w k => 0 ≤ sz ∧ blocktype sz = Some blk ∧ ∃ rt, kheaproots h !! w = Some rt ∧ rt_page rt ≠ 0
  end.

Record kinv (s : ksys) : Prop := {
  ki_roots : length (kheaproots (heap s)) = Z.to_nat NUM_PAGEREFPAGES;
  ki_root : ∀ w rt, kheaproots (heap s) !! w = Some rt → root_wf rt;
  ki_slots : ∀ w rt k, kheaproots (heap s) !! w = Some rt → (k ∈ used rt ↔ ∃ o, holds s w k o);
  ki_holder : ∀ w k o o', holds s w k o → holds s w k o' → o = o';
  ki_rooted : ∀ w k o, holds s w k o → is_Some (kheaproots (heap s) !! w);
  ki_order : ∀ w w' rt rt', kheaproots (heap s) !! w = Some rt → kheaproots (heap s) !! w' = Some rt' →
    rt_page rt = 0 → (w < w')%nat → rt_page rt' = 0 ∧ used rt' = ∅;
  ki_nodup : NoDup (allbase (heap s));
  ki_placed : ∀ pr, pr ∈ allbase (heap s) → ∃ w k, slot_at (heap s) w k pr;
  ki_page : ∀ pr, pr ∈ allbase (heap s) → ∃ r page size l,
    prs (heap s) !! pr = Some r ∧ page_wf (words (heap s)) r page size l ∧ zlen l < PAGE_SIZE / size;
  ki_sizes : length (sizebases (heap s)) = Z.to_nat NSIZES;
  ki_sized : ∀ blk sb, arr_get (sizebases (heap s)) blk = Some sb →
    NoDup sb ∧ ∀ pr, pr ∈ sb ↔ pr ∈ allbase (heap s) ∧ ∃ r, prs (heap s) !! pr = Some r ∧ PR_BLOCKTYPE r = blk;
  ki_pages : ∀ o p, owned s o p → page_ok p;
  ki_unique : ∀ o o' p, owned s o p → owned s o' p → o = o';
  ki_tasks : ∀ t tk, tasks s !! t = Some tk → task_ok (heap s) tk;
  ki_few : Z.of_nat (size (tasks s) + size (lost s)) < NPAGEREFS_PER_PAGE;
  ki_bigs : ∀ b n, bigs s !! b = Some n → 0 < n;
}.

(** A block in use on the page of [r]: it is not on the free list. *)
Definition block_on (m : Z → Z) (r : pageref) (a n : Z) : Prop :=
  ∃ page l o, page_wf m r page n l ∧ 0 ≤ o < PAGE_SIZE ∧ o mod n = 0 ∧ a = page + o ∧ o ∉ l.

(** The block at [a], of [n] bytes, is in use. *)
Definition alive (s : ksys) (a n : Z) : Prop :=
  (∃ pr r, pr ∈ allbase (heap s) ∧ prs (heap s) !! pr = Some r ∧ block_on (words (heap s)) r a n) ∨
  (∃ k, bigs s !! a = Some k ∧ n = k * PAGE_SIZE).

(** ** Sizes and addresses *)

Lemma size_facts blk n :
  arr_get sizes blk = Some n →
  0 ≤ blk < NSIZES ∧ 16 ≤ n ≤ 2048 ∧ PAGE_SIZE mod n = 0 ∧ n mod 16 = 0 ∧ 2 ≤ PAGE_SIZE / n ≤ 256 ∧
  PAGE_SIZE / n * n = PAGE_SIZE.
Proof.
  unfold arr_get, NSIZES, PAGE_SIZE. destruct (Z.leb_spec 0 blk) as [Hb|]; [|done]. intros Hs.
  pose proof (lookup_lt_Some _ _ _ Hs) as Hlt. cbn in Hlt.
  assert (blk = 0 ∨ blk = 1 ∨ blk = 2 ∨ blk = 3 ∨ blk = 4 ∨ blk = 5 ∨ blk = 6 ∨ blk = 7) as Hc by lia.
  destruct Hc as [-> |[-> |[-> |[-> |[-> |[-> |[-> | ->]]]]]]]; injection Hs as <-; vm_compute; intuition discriminate.
Qed.

Lemma size_at blk : 0 ≤ blk < NSIZES → is_Some (arr_get sizes blk).
Proof. intros Hb. destruct (arr_get_ex sizes blk) as [n ->]; [unfold NSIZES in Hb; cbn; lia|]. done. Qed.

Lemma pab_page page blk : page_ok page → 0 ≤ blk < NSIZES → Z.land (page + blk) PAGE_FRAME = page.
Proof.
  unfold page_ok, PAGE_SIZE, NSIZES. intros [Hm Hr] Hb. rewrite page_frame_spec by lia. unfold PAGE_SIZE.
  Z.to_euclidean_division_equations. lia.
Qed.

Lemma pab_blk page blk : page_ok page → 0 ≤ blk < NSIZES → Z.land (page + blk) 0xfff = blk.
Proof. unfold page_ok, PAGE_SIZE, NSIZES. intros [Hm Hr] Hb. rewrite page_off_spec. unfold PAGE_SIZE.
  Z.to_euclidean_division_equations. lia. Qed.

Lemma mkpab page blk : page_ok page → 0 ≤ blk < NSIZES → MKPAB page blk = page + blk.
Proof.
  intros Hp Hb. unfold MKPAB. rewrite <- (Z.add_0_r page) at 1.
  rewrite pab_page by (unfold NSIZES in *; (done || lia)).
  rewrite page_off_spec, Z.mod_small by (unfold NSIZES, PAGE_SIZE in *; lia).
  apply (lor_disjoint_add 12); [done|apply Hp|unfold NSIZES in Hb; lia].
Qed.

Lemma pw_addr m r page n l : page_wf m r page n l → PR_PAGEADDR r = page.
Proof. intros Hw. destruct (pw_pab _ _ _ _ _ Hw) as (blk & Hb & Hp & _). unfold PR_PAGEADDR. rewrite Hp. apply pab_page, Hb. apply Hw. Qed.

Lemma pw_blk m r page n l : page_wf m r page n l → 0 ≤ PR_BLOCKTYPE r < NSIZES ∧ arr_get sizes (PR_BLOCKTYPE r) = Some n.
Proof.
  intros Hw. destruct (pw_pab _ _ _ _ _ Hw) as (blk & Hb & Hp & Hs). unfold PR_BLOCKTYPE.
  rewrite Hp, pab_blk; [done|apply Hw|done].
Qed.

(** ** Free lists *)

Lemma chain_ext m m' page l : (∀ o, o ∈ l → m' (page + o) = m (page + o)) → chain m page l → chain m' page l.
Proof.
  induction l as [|o l IH]; [done|]. intros He [H1 H2]. split; [rewrite He by (by left); done|].
  apply IH; [|done]. intros o' Ho'. apply He. by right.
Qed.

Lemma chain_unique m page l l' :
  0 < page → Forall (λ o, 0 ≤ o) l → Forall (λ o, 0 ≤ o) l' →
  head l = head l' → chain m page l → chain m page l' → l = l'.
Proof.
  intros Hp. revert l'. induction l as [|o l IH]; intros [|o' l'] Hl Hl' Hh Hc Hc'; try done.
  injection Hh as <-. destruct Hc as [H1 H2], Hc' as [H1' H2']. rewrite H1 in H1'.
  apply Forall_cons in Hl as [_ Hl], Hl' as [_ Hl']. f_equal. apply IH; try done.
  destruct l as [|x l], l' as [|y l']; try done; cbn in *.
  - apply Forall_cons in Hl' as [? _]. lia.
  - apply Forall_cons in Hl as [? _]. lia.
  - f_equal. lia.
Qed.

Lemma page_wf_fun m r page page' n n' l l' :
  page_wf m r page n l → page_wf m r page' n' l' → page = page' ∧ n = n' ∧ l = l'.
Proof.
  intros H1 H2. assert (page = page') as <- by (by rewrite <- (pw_addr _ _ _ _ _ H1), <- (pw_addr _ _ _ _ _ H2)).
  destruct (pw_blk _ _ _ _ _ H1) as [_ B1], (pw_blk _ _ _ _ _ H2) as [_ B2].
  assert (n = n') as <- by congruence. split; [done|]. split; [done|].
  assert (Hoff : ∀ l, page_wf m r page n l → Forall (λ o, 0 ≤ o) l).
  { intros k Hk. eapply Forall_impl; [apply (pw_offs _ _ _ _ _ Hk)|]. cbn. lia. }
  apply (chain_unique m page); auto; [destruct (pw_page _ _ _ _ _ H1); lia| |apply H1|apply H2].
  pose proof (pw_head _ _ _ _ _ H1) as E1. pose proof (pw_head _ _ _ _ _ H2) as E2. rewrite E1 in E2.
  pose proof (pw_offs _ _ _ _ _ H1) as O1. pose proof (pw_offs _ _ _ _ _ H2) as O2.
  unfold INVALID_OFFSET, PAGE_SIZE in *.
  destruct l as [|x l], l' as [|y l']; cbn; try done;
    try (apply Forall_cons in O1 as [? _]); try (apply Forall_cons in O2 as [? _]); try lia. by subst.
Qed.

(** Only the words on the free list matter. *)
Lemma page_wf_ext m m' r page n l :
  page_wf m r page n l → (∀ o, o ∈ l → m' (page + o) = m (page + o)) → page_wf m' r page n l.
Proof. intros [H1 H2 H3 H4 H5 H6 H7] He. split; try done. by eapply chain_ext. Qed.

(** Offsets of blocks on one page fit. *)
Lemma off_end blk n o : arr_get sizes blk = Some n → 0 ≤ o < PAGE_SIZE → o mod n = 0 → o + n ≤ PAGE_SIZE.
Proof.
  intros Hs Ho Hm. destruct (size_facts _ _ Hs) as (_ & Hn & _ & _ & _ & Hd).
  pose proof (Z.div_mod o n ltac:(lia)) as Hdm. rewrite Hm in Hdm.
  assert (o / n < PAGE_SIZE / n) by (apply Z.div_lt_upper_bound; lia). nia.
Qed.

Lemma offs_apart n o o' : 0 < n → o mod n = 0 → o' mod n = 0 → o < o' → o + n ≤ o'.
Proof.
  intros Hn Ho Ho' Hlt. pose proof (Z.div_mod o n ltac:(lia)). pose proof (Z.div_mod o' n ltac:(lia)).
  assert (o / n < o' / n) by nia. nia.
Qed.

(** The length of a free list. *)
Lemma free_bound m r page n l : page_wf m r page n l → zlen l ≤ PAGE_SIZE / n.
Proof.
  intros Hw. destruct (pw_pab _ _ _ _ _ Hw) as (blk & _ & _ & Hs). destruct (size_facts _ _ Hs) as (_ & Hn & _ & _ & Hq & Hd).
  assert (Hsub : ∀ x, x ∈ ((λ o, o / n) <$> l) → x ∈ seqZ 0 (PAGE_SIZE / n)).
  { intros x (o & -> & Ho)%list_elem_of_fmap. pose proof (pw_offs _ _ _ _ _ Hw) as Hf.
    rewrite Forall_forall in Hf. destruct (Hf o Ho) as [Hr _]. apply elem_of_seqZ.
    split; [apply Z.div_pos; lia|]. apply Z.div_lt_upper_bound; lia. }
  assert (Hnd : NoDup ((λ o, o / n) <$> l)).
  { apply NoDup_fmap_2_strong; [|apply Hw]. intros x y Hx Hy He. pose proof (pw_offs _ _ _ _ _ Hw) as Hf.
    rewrite Forall_forall in Hf. destruct (Hf x Hx) as [_ Hx0], (Hf y Hy) as [_ Hy0].
    pose proof (Z.div_mod x n ltac:(lia)). pose proof (Z.div_mod y n ltac:(lia)). rewrite He in *. lia. }
  pose proof (submseteq_length _ _ (NoDup_submseteq _ _ Hnd Hsub)) as Hlen.
  rewrite length_fmap, length_seqZ in Hlen. lia.
Qed.

(** [doalloc] takes the first block of the free list. *)
Lemma doalloc_run h pr r page n o l :
  prs h !! pr = Some r → page_wf (words h) r page n (o :: l) →
  ∃ r', doalloc pr h = Some (page + o, set_pr pr r' h) ∧ page_wf (words h) r' page n l ∧
    pageaddr_and_blocktype r' = pageaddr_and_blocktype r.
Proof.
  intros Hr Hw. pose proof (pw_addr _ _ _ _ _ Hw) as Hpa. pose proof (free_bound _ _ _ _ _ Hw) as Hfb.
  destruct Hw as [Hp Hpab Hoff Hnd [Hc1 Hc2] Hh Hn]. pose proof Hpab as (blk & _ & _ & Hs).
  destruct (size_facts _ _ Hs) as (_ & Hsz & _ & _ & Hq & _).
  apply Forall_cons in Hoff as [[Ho Hom] Hoff]. apply NoDup_cons in Hnd as [_ Hnd].
  unfold doalloc. rewrite Hr. cbn [mbind option_bind]. rewrite Hh, Hpa, Hn. unfold page_ok, PAGE_SIZE in *.
  rewrite (proj2 (Z.ltb_lt o 4096)) by lia. cbn [negb]. rewrite (wrap_small 32) by lia. rewrite Hc1. cbn [length] in *.
  rewrite (wrap_small 16 (_ - 1)) by lia. destruct l as [|o' l]; cbn [negb Z.eqb length] in *.
  - rewrite (proj2 (Z.eqb_eq _ 0)) by lia. cbn [negb]. eexists. split; [done|]. split; [|done].
    split; cbn; try done; lia.
  - apply Forall_cons in Hoff as Hoff'. destruct Hoff' as [[Ho' _] _].
    rewrite (proj2 (Z.eqb_neq _ 0)), (proj2 (Z.ltb_lt 0 _)) by lia. cbn [negb].
    replace (page + o' - page) with o' by lia. rewrite (wrap_small 32), (wrap_small 16) by lia.
    rewrite (proj2 (Z.ltb_lt o' 4096)) by lia. cbn [negb]. eexists. split; [done|]. split; [|done].
    split; cbn; try done; lia.
Qed.

(** ** A new page *)

(** The free list of a page with [n] free blocks: from the last to the first. *)
Fixpoint offs_down (n : nat) (size : Z) : list Z :=
  match n with O => [] | S n' => Z.of_nat n' * size :: offs_down n' size end.

Lemma offs_down_elem n size o : o ∈ offs_down n size ↔ ∃ i, 0 ≤ i < Z.of_nat n ∧ o = i * size.
Proof.
  induction n as [|n IH]; cbn [offs_down]; [split; [by intros ?%not_elem_of_nil|intros (i & ? & _); lia]|].
  rewrite elem_of_cons, IH. split.
  - intros [->|(i & Hi & ->)]; [exists (Z.of_nat n)|exists i]; lia.
  - intros (i & Hi & ->). destruct (decide (i = Z.of_nat n)) as [->|]; [by left|right]. exists i. lia.
Qed.

Lemma offs_down_nodup n size : 0 < size → NoDup (offs_down n size).
Proof.
  intros Hs. induction n as [|n IH]; cbn [offs_down]; [apply NoDup_nil_2|]. apply NoDup_cons. split; [|done].
  rewrite offs_down_elem. intros (i & Hi & He). nia.
Qed.

Lemma length_offs_down n size : length (offs_down n size) = n.
Proof. induction n; cbn; congruence. Qed.

Lemma link_blocks_run n i fla size m :
  0 < size → 0 ≤ fla → fla + Z.of_nat (i + n) * size ≤ 2 ^ 32 → (1 ≤ i)%nat →
  chain m fla (offs_down i size) →
  ∃ m', link_blocks n fla size (Z.of_nat i) (fla + (Z.of_nat i - 1) * size) m =
      Some (fla + (Z.of_nat (i + n) - 1) * size, m') ∧
    chain m' fla (offs_down (i + n) size) ∧
    ∀ a, a < fla ∨ fla + Z.of_nat (i + n) * size ≤ a → m' a = m a.
Proof.
  intros Hs Hf. revert i m. induction n as [|n IH]; intros i m Hb Hi Hc; cbn [link_blocks].
  { exists m. rewrite Nat.add_0_r. split; [done|]. by split. }
  rewrite !(wrap_small 32) by nia. rewrite (proj2 (Z.eqb_neq _ _)) by nia.
  set (m1 := put_word _ _ m).
  assert (Hc1 : chain m1 fla (offs_down (S i) size)).
  { cbn [offs_down chain]. split.
    - unfold m1, put_word. rewrite decide_True by done. destruct i as [|j]; [lia|]. cbn [offs_down]. lia.
    - eapply chain_ext; [|exact Hc]. intros o (j & Hj & ->)%offs_down_elem.
      unfold m1, put_word. rewrite decide_False by nia. done. }
  destruct (IH (S i) m1) as (m' & Hrun & Hc' & Hout); [lia|lia|done|].
  exists m'. replace (i + S n)%nat with (S i + n)%nat by lia. split; [|split; [done|]].
  - rewrite <- Hrun. f_equal; lia.
  - intros a Ha. rewrite Hout by done. unfold m1, put_word. apply decide_False. nia.
Qed.

Lemma new_page_run h pr page blk n sb :
  page_ok page → arr_get sizes blk = Some n → arr_get (sizebases h) blk = Some sb →
  ∃ r m, new_page pr page blk h =
      Some (Kheap (kheaproots h) (<[pr := r]> (prs h)) (arr_set (sizebases h) blk (pr :: sb)) (pr :: allbase h) m) ∧
    page_wf m r page n (offs_down (Z.to_nat (PAGE_SIZE / n)) n) ∧ PR_BLOCKTYPE r = blk ∧
    ∀ a, a < page ∨ page + PAGE_SIZE ≤ a → m a = words h a.
Proof.
  intros Hp Hs Hsb. destruct (size_facts _ _ Hs) as (Hb & Hn & _ & _ & Hq & Hd).
  unfold new_page. rewrite Hs. cbn [mbind option_bind]. rewrite (wrap_small 16) by lia.
  set (q := PAGE_SIZE / n) in *.
  destruct (link_blocks_run (Z.to_nat (q - 1)) 1 page n (put_word page 0 (words h))) as (m & Hrun & Hc & Hout).
  { lia. }
  { destruct Hp; lia. }
  { replace (1 + Z.to_nat (q - 1))%nat with (Z.to_nat q) by lia. rewrite Z2Nat.id by lia.
    destruct Hp as [_ Hr]. unfold PAGE_SIZE in Hd. lia. }
  { lia. }
  { cbn. split; [|done]. unfold put_word. apply decide_True. lia. }
  replace (page + (Z.of_nat 1 - 1) * n) with page in Hrun by lia. change (Z.of_nat 1) with 1 in Hrun. rewrite Hrun.
  replace (1 + Z.to_nat (q - 1))%nat with (Z.to_nat q) in * by lia. rewrite Z2Nat.id in * by lia. cbn [mbind option_bind].
  replace (page + (q - 1) * n - page) with ((q - 1) * n) by lia.
  rewrite (wrap_small 16) by (unfold PAGE_SIZE in Hd; nia). rewrite Z.eqb_refl. cbn [negb]. rewrite Hsb. cbn [mbind option_bind].
  eexists _, m. split; [reflexivity|]. split; [|split].
  - split; cbn; [done|exists blk; by rewrite mkpab| |by apply offs_down_nodup; lia|done| |].
    + apply Forall_forall. intros o (i & Hi & ->)%offs_down_elem. rewrite Z2Nat.id in Hi by lia.
      split; [nia|]. apply Z.mod_mul. lia.
    + destruct (Z.to_nat q) as [|q'] eqn:E; [lia|]. cbn. lia.
    + rewrite length_offs_down. lia.
  - unfold PR_BLOCKTYPE. cbn. rewrite mkpab by done. by apply pab_blk.
  - intros a Ha. rewrite Hout by lia. unfold put_word. apply decide_False. unfold PAGE_SIZE in *. lia.
Qed.

(** ** Finding a page with room *)

Lemma find_page_run h l blk :
  (∀ pr, pr ∈ l → ∃ r, prs h !! pr = Some r ∧ PR_BLOCKTYPE r = blk) →
  ∃ o, find_page l blk h = Some o ∧
    match o with
    | None => True
    | Some pr => pr ∈ l ∧ ∃ r, prs h !! pr = Some r ∧ 0 < nfree r
    end.
Proof.
  induction l as [|pr l IH]; intros Hl; cbn [find_page]; [by exists None|].
  destruct (Hl pr ltac:(by left)) as (r & Hr & Hb). rewrite Hr. cbn [mbind option_bind]. rewrite Hb, Z.eqb_refl. cbn [negb].
  destruct (Z.ltb_spec 0 (nfree r)).
  - exists (Some pr). split; [done|]. split; [by left|eauto].
  - destruct IH as (o & -> & Ho); [intros p Hp; apply Hl; by right|]. exists o. split; [done|].
    destruct o; [|done]. destruct Ho. split; [by right|done].
Qed.

Lemma find_owner_run h l a :
  (∀ pr, pr ∈ l → ∃ r, prs h !! pr = Some r ∧ 0 ≤ PR_BLOCKTYPE r < NSIZES) →
  ∃ o, find_owner l a h = Some o ∧
    match o with
    | None => ∀ pr r, pr ∈ l → prs h !! pr = Some r → ¬ PR_PAGEADDR r ≤ a < PR_PAGEADDR r + PAGE_SIZE
    | Some (pr, r) => pr ∈ l ∧ prs h !! pr = Some r ∧ PR_PAGEADDR r ≤ a < PR_PAGEADDR r + PAGE_SIZE
    end.
Proof.
  induction l as [|pr l IH]; intros Hl; cbn [find_owner].
  { exists None. split; [done|]. by intros pr r ?%not_elem_of_nil. }
  destruct (Hl pr ltac:(by left)) as (r & Hr & Hb). rewrite Hr. cbn [mbind option_bind].
  rewrite (proj2 (Z.leb_le 0 _)), (proj2 (Z.ltb_lt _ NSIZES)) by lia. cbn [andb negb].
  destruct (_ && _) eqn:E.
  - exists (Some (pr, r)). split; [done|]. split; [by left|]. split; [done|]. zbool. lia.
  - destruct IH as (o & -> & Ho); [intros p Hp; apply Hl; by right|]. exists o. split; [done|].
    destruct o as [[q rq]|].
    + destruct Ho. split; [by right|done].
    + intros q rq [->|Hq]%elem_of_cons Hrq; [|by eapply Ho]. simplify_eq. lia.
Qed.

(** ** Slots of the pool *)

Lemma elem_used rt k : k ∈ used rt ↔ 0 ≤ k < NPAGEREFS_PER_PAGE ∧ slot_bit rt k = true.
Proof.
  unfold used. rewrite elem_of_list_to_set, list_elem_of_filter, elem_of_seqZ. unfold NPAGEREFS_PER_PAGE.
  split; intros [H1 H2]; (split; [lia||done|lia||done]).
Qed.

Lemma slot_word rt k : root_wf rt → 0 ≤ k < NPAGEREFS_PER_PAGE →
  ∃ w, arr_get (pagerefs_inuse rt) (k / 32) = Some w ∧ 0 ≤ w < 2 ^ 32.
Proof.
  unfold NPAGEREFS_PER_PAGE. intros Hw Hk.
  destruct (arr_get_ex (pagerefs_inuse rt) (k / 32)) as [w Hget].
  { rewrite (rw_len _ Hw). Z.to_euclidean_division_equations. lia. }
  exists w. split; [done|]. pose proof (rw_words _ Hw) as Hf.
  unfold arr_get in Hget. destruct (0 <=? k / 32); [|done]. by eapply Forall_lookup_1 in Hf.
Qed.

(** Writing the word of the slot [k] so that only its bit changes. *)
Lemma used_update rt k w w' n (b : bool) :
  root_wf rt → 0 ≤ k < NPAGEREFS_PER_PAGE → arr_get (pagerefs_inuse rt) (k / 32) = Some w →
  (∀ i, 0 ≤ i → Z.testbit w' i = if decide (i = k mod 32) then b else Z.testbit w i) →
  used (Root (rt_page rt) (arr_set (pagerefs_inuse rt) (k / 32) w') n) =
    if b then {[k]} ∪ used rt else used rt ∖ {[k]}.
Proof.
  intros Hw Hk Hget Hbits. pose proof (arr_get_range _ _ _ Hget) as Hr.
  apply set_eq. intros j.
  assert (Hj : j ∈ used (Root (rt_page rt) (arr_set (pagerefs_inuse rt) (k / 32) w') n) ↔
    0 ≤ j < NPAGEREFS_PER_PAGE ∧ (if decide (j = k) then b else slot_bit rt j) = true).
  { rewrite elem_used. apply and_iff_compat_l. unfold slot_bit. cbn.
    destruct (decide (j / 32 = k / 32)) as [He|He].
    - rewrite He, arr_get_set_eq, Hget by done. cbn. rewrite Hbits by (apply Z.mod_pos_bound; lia).
      destruct (decide (j = k)) as [->|Hne]; [by rewrite decide_True|].
      rewrite decide_False; [done|]. intros Hm. apply Hne.
      rewrite (Z.div_mod j 32), (Z.div_mod k 32) by lia. congruence.
    - rewrite arr_get_set_ne, decide_False by congruence. done. }
  rewrite Hj. destruct b.
  - rewrite elem_of_union, elem_of_singleton, elem_used. destruct (decide (j = k)) as [->|]; naive_solver.
  - rewrite elem_of_difference, elem_of_singleton, elem_used. destruct (decide (j = k)) as [->|]; naive_solver.
Qed.

(** Taking a slot. *)
Lemma mark_slot_run rt k :
  root_wf rt → 0 ≤ k < NPAGEREFS_PER_PAGE → k ∉ used rt →
  root_wf (mark_slot k rt) ∧ used (mark_slot k rt) = {[k]} ∪ used rt ∧ rt_page (mark_slot k rt) = rt_page rt.
Proof.
  intros Hw Hk Hno. destruct (slot_word rt k Hw Hk) as (w & Hget & Hwr). pose proof (arr_get_range _ _ _ Hget) as Hr.
  assert (Hm : 0 ≤ k mod 32 < 32) by (apply Z.mod_pos_bound; lia).
  assert (Hu : used (mark_slot k rt) = {[k]} ∪ used rt).
  { unfold mark_slot. rewrite (used_update rt k w _ _ true); [done|done|done|done|].
    intros i Hi. rewrite Hget. cbn [default]. rewrite Z.shiftl_1_l, testbit_set by lia.
    destruct (decide (i = k mod 32)) as [->|]; [by rewrite Z.eqb_refl, orb_true_r|].
    rewrite (proj2 (Z.eqb_neq _ _)), orb_false_r by congruence. done. }
  split; [|done]. split.
  - cbn. rewrite length_arr_set. apply Hw.
  - cbn. rewrite Hget. unfold arr_set. rewrite (proj2 (Z.leb_le 0 _)) by lia. apply Forall_insert; [apply Hw|]. cbn.
    apply lor_range; [lia|done|]. rewrite Z.shiftl_1_l. split; [apply Z.pow_nonneg; lia|apply Z.pow_lt_mono_r; lia].
  - rewrite Hu, size_union, size_singleton by set_solver. cbn [numinuse mark_slot]. rewrite (rw_count _ Hw). lia.
Qed.

(** Giving it back. *)
Lemma clear_slot_run rt k w :
  root_wf rt → k ∈ used rt → arr_get (pagerefs_inuse rt) (k / 32) = Some w →
  let rt' := Root (rt_page rt) (arr_set (pagerefs_inuse rt) (k / 32) (Z.land w (Z.lnot (Z.shiftl 1 (k mod 32)))))
               (numinuse rt - 1) in
  root_wf rt' ∧ used rt' = used rt ∖ {[k]} ∧ (Z.land w (Z.shiftl 1 (k mod 32)) =? 0) = false ∧ 0 < numinuse rt.
Proof.
  intros Hw Hin Hget rt'. pose proof Hin as [Hk Hbit]%elem_used. pose proof (arr_get_range _ _ _ Hget) as Hr.
  destruct (slot_word rt k Hw Hk) as (w0 & Hw0 & Hwr). rewrite Hget in Hw0. injection Hw0 as <-.
  assert (Hm : 0 ≤ k mod 32 < 32) by (apply Z.mod_pos_bound; lia).
  assert (Hu : used rt' = used rt ∖ {[k]}).
  { apply (used_update rt k w _ _ false); try done. intros i Hi. rewrite Z.shiftl_1_l, testbit_clear by lia.
    destruct (decide (i = k mod 32)) as [->|]; [by rewrite Z.eqb_refl, andb_false_r|].
    rewrite (proj2 (Z.eqb_neq _ _)), andb_true_r by congruence. done. }
  assert (Hsz : 0 < numinuse rt).
  { rewrite (rw_count _ Hw). assert (size (used rt) ≠ 0%nat); [|lia]. apply size_non_empty_iff. set_solver. }
  split; [|split; [done|split; [|done]]].
  - split.
    + cbn. rewrite length_arr_set. apply Hw.
    + cbn. unfold arr_set. rewrite (proj2 (Z.leb_le 0 _)) by lia. apply Forall_insert; [apply Hw|]. by apply land_range.
    + rewrite Hu, size_difference, size_singleton by set_solver. cbn. rewrite (rw_count _ Hw) in *. lia.
  - rewrite Z.shiftl_1_l, land_bit by lia. unfold slot_bit in Hbit. rewrite Hget in Hbit. cbn in Hbit. by rewrite Hbit.
Qed.

(** ** The search of [allocpageref] *)

Lemma find_clear_run n j w :
  0 ≤ j → 
  match find_clear n j w with
  | None => ∀ i, j ≤ i < j + Z.of_nat n → Z.testbit w i = true
  | Some i => j ≤ i < j + Z.of_nat n ∧ Z.testbit w i = false
  end.
Proof.
  revert j. induction n as [|n IH]; intros j Hj; cbn [find_clear]; [lia|].
  rewrite Z.shiftl_1_l, land_bit by done. destruct (Z.testbit w j) eqn:E; cbn [negb].
  - specialize (IH (j + 1) ltac:(lia)). destruct (find_clear n (j + 1) w).
    + destruct IH. split; [lia|done].
    + intros i Hi. destruct (decide (i = j)) as [->|]; [done|]. apply IH. lia.
  - split; [lia|done].
Qed.

Lemma full_word w : 0 ≤ w < 2 ^ 32 → (∀ i, 0 ≤ i < 32 → Z.testbit w i = true) → w = 0xffffffff.
Proof.
  intros Hw Hb. apply Z.bits_inj'. intros i Hi. destruct (Z.lt_ge_cases i 32).
  - rewrite Hb by lia. symmetry. change 0xffffffff with (Z.ones 32). apply Z.ones_spec_low. lia.
  - change 0xffffffff with (Z.ones 32). rewrite Z.ones_spec_high by lia.
    rewrite <- (Z.mod_small w (2 ^ 32)) by done. apply Z.mod_pow2_bits_high. lia.
Qed.

Lemma find_word_run ws i :
  Forall (λ w, 0 ≤ w < 2 ^ 32) ws → 0 ≤ i →
  ∃ o, find_word ws i = Some o ∧
    match o with
    | None => ∀ j w, ws !! j = Some w → w = 0xffffffff
    | Some k => ∃ j w b, k = (i + Z.of_nat j) * 32 + b ∧ ws !! j = Some w ∧ 0 ≤ b < 32 ∧ Z.testbit w b = false
    end.
Proof.
  revert i. induction ws as [|w ws IH]; intros i Hf Hi; cbn [find_word]; [by exists None|].
  apply Forall_cons in Hf as [Hw Hf]. destruct (Z.eqb_spec w 0xffffffff) as [->|Hne].
  - destruct (IH (i + 1) Hf ltac:(lia)) as (o & -> & Ho). exists o. split; [done|]. destruct o as [k|].
    + destruct Ho as (j & w & b & -> & Hj & Hb). exists (S j), w, b. split; [lia|done].
    + intros [|j] w Hj; [by injection Hj|by eapply Ho].
  - pose proof (find_clear_run 32 0 w ltac:(lia)) as Hc. destruct (find_clear 32 0 w) as [b|].
    + cbn. eexists. split; [done|]. exists O, w, b. destruct Hc. split; [lia|]. split; [done|]. split; [lia|done].
    + exfalso. apply Hne, full_word; [done|]. intros. apply Hc. lia.
Qed.

(** A root that is not full has a free slot, and it is found. *)
Lemma find_slot_run rt :
  root_wf rt → numinuse rt < NPAGEREFS_PER_PAGE →
  ∃ k, find_word (pagerefs_inuse rt) 0 = Some (Some k) ∧ 0 ≤ k < NPAGEREFS_PER_PAGE ∧ k ∉ used rt.
Proof.
  intros Hw Hn. destruct (find_word_run (pagerefs_inuse rt) 0 (rw_words _ Hw) ltac:(lia)) as (o & -> & Ho).
  unfold NPAGEREFS_PER_PAGE in *. destruct o as [k|].
  - destruct Ho as (j & w & b & -> & Hj & Hb & Hbit). eexists. split; [done|].
    pose proof (lookup_lt_Some _ _ _ Hj) as Hlt. rewrite (rw_len _ Hw) in Hlt. split; [lia|].
    rewrite elem_used. intros [_ Hs]. unfold slot_bit in Hs.
    replace (((0 + Z.of_nat j) * 32 + b) / 32) with (Z.of_nat j) in Hs by (Z.to_euclidean_division_equations; lia).
    replace (((0 + Z.of_nat j) * 32 + b) mod 32) with b in Hs by (Z.to_euclidean_division_equations; lia).
    unfold arr_get in Hs. rewrite (proj2 (Z.leb_le 0 _)), Nat2Z.id, Hj in Hs by lia. cbn in Hs. congruence.
  - exfalso. assert (Hall : used rt = list_to_set (seqZ 0 256)).
    { apply set_eq. intros k. rewrite elem_used, elem_of_list_to_set, elem_of_seqZ. unfold NPAGEREFS_PER_PAGE.
      split; [lia|]. intros Hk. split; [lia|]. destruct (slot_word rt k Hw ltac:(unfold NPAGEREFS_PER_PAGE; lia)) as (w & Hget & _).
      unfold slot_bit. rewrite Hget. cbn. apply arr_get_Some in Hget as [_ Hget].
      rewrite (Ho _ _ Hget). change 0xffffffff with (Z.ones 32). apply Z.ones_spec_low.
      pose proof (Z.mod_pos_bound k 32). lia. }
    rewrite (rw_count _ Hw), Hall, size_list_to_set, length_seqZ in Hn by apply NoDup_seqZ. lia.
Qed.

Lemma find_root_run rs w0 :
  Forall root_wf rs →
  ∃ o, find_root rs w0 = Some o ∧
    match o with
    | None => Forall (λ rt, NPAGEREFS_PER_PAGE ≤ numinuse rt) rs
    | Some (w, k) => ∃ j rt, w = (w0 + j)%nat ∧ rs !! j = Some rt ∧ 0 ≤ k < NPAGEREFS_PER_PAGE ∧ (k ∉ used rt) ∧
        ∀ i rt', (i < j)%nat → rs !! i = Some rt' → NPAGEREFS_PER_PAGE ≤ numinuse rt'
    end.
Proof.
  revert w0. induction rs as [|rt rs IH]; intros w0 Hf; cbn [find_root]; [by exists None; rewrite Forall_nil|].
  apply Forall_cons in Hf as [Hw Hf]. destruct (Z.leb_spec NPAGEREFS_PER_PAGE (numinuse rt)) as [Hfull|Hroom].
  - destruct (IH (S w0) Hf) as (o & -> & Ho). exists o. split; [done|]. destruct o as [[w k]|]; [|by apply Forall_cons].
    destruct Ho as (j & rt' & -> & Hj & Hk & Hno & Hbefore). exists (S j), rt'. split; [lia|].
    split; [done|]. split; [done|]. split; [done|]. intros [|i] rt'' Hi Hget; [by injection Hget as <-|].
    apply (Hbefore i); [lia|done].
  - destruct (find_slot_run rt Hw Hroom) as (k & -> & Hk & Hno). cbn. eexists. split; [done|].
    exists O, rt. split; [lia|]. split; [done|]. split; [done|]. split; [done|]. intros; lia.
Qed.

(** ** [freepageref] *)

Lemma other_page_slot p q k :
  page_ok p → page_ok q → p ≠ q → 0 ≤ k < NPAGEREFS_PER_PAGE →
  (u32 ((p + 16 * k - q) / 16) <? NPAGEREFS_PER_PAGE) = false.
Proof.
  unfold page_ok, NPAGEREFS_PER_PAGE, PAGE_SIZE. intros [Hp1 Hp2] [Hq1 Hq2] Hne Hk. apply Z.ltb_ge.
  set (d := (p + 16 * k - q) / 16).
  assert (Hd : 256 ≤ d < 2 ^ 31 ∨ - 2 ^ 31 ≤ d ≤ -1).
  { unfold d. assert (p < q ∨ q < p) as [Hlt|Hlt] by lia; [right|left]; Z.to_euclidean_division_equations; lia. }
  destruct Hd as [Hd|Hd]; [rewrite (wrap_small 32) by lia; lia|].
  unfold wrap. rewrite <- (Z_mod_plus_full d 1 (2 ^ 32)), Z.mod_small by lia. lia.
Qed.

Lemma freepageref_loop_run rs w rt k :
  rs !! w = Some rt → root_wf rt → k ∈ used rt → page_ok (rt_page rt) →
  (∀ i rt', (i < w)%nat → rs !! i = Some rt' → page_ok (rt_page rt') ∧ rt_page rt' ≠ rt_page rt) →
  ∃ rt', freepageref_loop (rt_page rt + 16 * k) rs = Some (<[w := rt']> rs) ∧ root_wf rt' ∧
    used rt' = used rt ∖ {[k]} ∧ rt_page rt' = rt_page rt.
Proof.
  intros Hget Hw Hin Hp. pose proof Hin as [Hk _]%elem_used.
  revert w Hget. induction rs as [|r0 rs IH]; intros [|w] Hget Hbefore; try done; cbn [freepageref_loop].
  - injection Hget as ->. destruct (slot_word rt k Hw Hk) as (wd & Hwd & _).
    destruct (clear_slot_run rt k wd Hw Hin Hwd) as (Hw' & Hu' & Hset & Hn).
    rewrite (proj2 (Z.eqb_neq _ 0)) by (destruct Hp; lia).
    replace ((rt_page rt + 16 * k - rt_page rt) / 16) with k by (Z.to_euclidean_division_equations; lia).
    unfold NPAGEREFS_PER_PAGE in Hk. rewrite (wrap_small 32) by lia. unfold NPAGEREFS_PER_PAGE.
    rewrite (proj2 (Z.ltb_lt k 256)), Hwd by lia. cbn [mbind option_bind]. rewrite Hset, (proj2 (Z.ltb_lt 0 _) Hn). cbn [negb].
    eexists. split; [reflexivity|]. done.
  - destruct (Hbefore O r0 ltac:(lia) eq_refl) as [Hp0 Hne0].
    rewrite (proj2 (Z.eqb_neq _ 0)), other_page_slot by (congruence || (try done); destruct Hp0; lia).
    destruct (IH w Hget) as (rt' & -> & Hrest); [intros i rt' Hi Hr; apply (Hbefore (S i)); [lia|done]|].
    exists rt'. by split.
Qed.

(** ** Ownership *)

Lemma unlink_spec pr l : NoDup l → NoDup (unlink pr l) ∧ ∀ x, x ∈ unlink pr l ↔ x ∈ l ∧ x ≠ pr.
Proof.
  induction l as [|y l IH]; intros Hnd; cbn [unlink].
  { split; [done|]. intros x. split; [by intros ?%not_elem_of_nil|by intros [?%not_elem_of_nil _]]. }
  apply NoDup_cons in Hnd as [Hy Hnd]. destruct (IH Hnd) as [Hnd' Hin]. destruct (Z.eqb_spec y pr) as [->|Hne].
  - split; [done|]. intros x. rewrite elem_of_cons. split; [|naive_solver]. intros Hx. split; [by right|]. by intros ->.
  - split.
    + apply NoDup_cons. split; [|done]. rewrite Hin. tauto.
    + intros x. rewrite !elem_of_cons, Hin. naive_solver.
Qed.
