(* ===== verification/Kheap.v ===== *)
(** * Kheap: the kernel heap keeps its blocks apart

    The invariant of the heap of Kmalloc.v under its steps: what every step does
    to the blocks in use, whoever else is in the middle of a call. *)

From Stdlib Require Import ZArith Lia.
From stdpp Require Import base gmap list list_numbers sets fin_sets.
From S2P Require Import Prelude Types Kmalloc.
Set Default Goal Selector "!".
Open Scope Z_scope.

(** Addresses of slots determine them. *)
Lemma slot_inj s w k w' k' pr : kinv s → slot_at (heap s) w k pr → slot_at (heap s) w' k' pr → w = w' ∧ k = k'.
Proof.
  intros Hi (rt & Hrt & H0 & Hk & ->) (rt' & Hrt' & H0' & Hk' & He).
  assert (O1 : owned s (ORoot w) (rt_page rt)) by (exists rt; done).
  assert (O2 : owned s (ORoot w') (rt_page rt')) by (exists rt'; done).
  pose proof (ki_pages _ Hi _ _ O1) as [P1 _]. pose proof (ki_pages _ Hi _ _ O2) as [P2 _].
  unfold NPAGEREFS_PER_PAGE, PAGE_SIZE in *.
  assert (rt_page rt = rt_page rt') as Hpp by (Z.to_euclidean_division_equations; lia).
  rewrite <- Hpp in O2. pose proof (ki_unique _ Hi _ _ _ O1 O2) as [= ->]. split; [done|lia].
Qed.

Lemma heap_page s pr r page n l :
  kinv s → pr ∈ allbase (heap s) → prs (heap s) !! pr = Some r → page_wf (words (heap s)) r page n l →
  owned s (OHeap pr) page.
Proof. intros Hi Hin Hr Hw. split; [done|]. exists r. split; [done|]. by eapply pw_addr. Qed.

(** Two pages of the heap, or an aligned page and an address, do not overlap. *)
Lemma same_page p q a : p mod PAGE_SIZE = 0 → q mod PAGE_SIZE = 0 →
  p ≤ a < p + PAGE_SIZE → q ≤ a < q + PAGE_SIZE → p = q.
Proof. unfold PAGE_SIZE. intros. Z.to_euclidean_division_equations. lia. Qed.

(** The block belongs to the owner [o] of the page [p]. *)
Definition alive_at (s : ksys) (o : owner) (p a n : Z) : Prop :=
  match o with
  | OHeap pr => ∃ r l off, prs (heap s) !! pr = Some r ∧ page_wf (words (heap s)) r p n l ∧
      0 ≤ off < PAGE_SIZE ∧ off mod n = 0 ∧ a = p + off
  | OBig b => a = b ∧ ∃ k, bigs s !! b = Some k ∧ n = k * PAGE_SIZE
  | _ => False
  end.

(** Every address of a block in use is on a page of its owner. *)
Lemma alive_owner s a n x :
  kinv s → alive s a n → a ≤ x < a + n → ∃ o p, owned s o p ∧ p ≤ x < p + PAGE_SIZE ∧ alive_at s o p a n.
Proof.
  intros Hi [(pr & r & Hin & Hr & page & l & o & Hw & Ho & Hom & -> & _)|(k & Hb & ->)] Hx.
  - exists (OHeap pr), page. split; [by eapply heap_page|]. destruct (pw_pab _ _ _ _ _ Hw) as (blk & _ & _ & Hs).
    pose proof (off_end blk n o Hs Ho Hom). split; [lia|]. by exists r, l, o.
  - exists (OBig a), (a + (x - a) / PAGE_SIZE * PAGE_SIZE). unfold PAGE_SIZE in *. split; [|split].
    + exists k, ((x - a) / 4096). split; [done|]. split; [|done]. Z.to_euclidean_division_equations. nia.
    + Z.to_euclidean_division_equations. lia.
    + split; [done|]. by exists k.
Qed.

(** Blocks in use do not overlap. *)
Lemma alive_disjoint s a n b m x :
  kinv s → alive s a n → alive s b m → a ≤ x < a + n → b ≤ x < b + m → a = b ∧ n = m.
Proof.
  intros Hi Ha Hb Hxa Hxb.
  destruct (alive_owner _ _ _ _ Hi Ha Hxa) as (o1 & p1 & O1 & R1 & A1), (alive_owner _ _ _ _ Hi Hb Hxb) as (o2 & p2 & O2 & R2 & A2).
  assert (p1 = p2) as <- by (eapply same_page; [apply (ki_pages _ Hi _ _ O1)|apply (ki_pages _ Hi _ _ O2)|done|done]).
  pose proof (ki_unique _ Hi _ _ _ O1 O2) as <-. destruct o1 as [pr| | |c|]; try done.
  - destruct A1 as (r & l & o & Hr & Hw & Ho & Hom & ->), A2 as (r' & l' & o' & Hr' & Hw' & Ho' & Hom' & ->). simplify_eq.
    destruct (page_wf_fun _ _ _ _ _ _ _ _ Hw Hw') as (_ & <- & <-). split; [|done].
    destruct (pw_pab _ _ _ _ _ Hw) as (blk & _ & _ & Hs). destruct (size_facts _ _ Hs) as (_ & Hn & _).
    destruct (Z.lt_trichotomy o o') as [Hlt|[->|Hlt]]; [|done|].
    + pose proof (offs_apart n o o' ltac:(lia) Hom Hom' Hlt). lia.
    + pose proof (offs_apart n o' o ltac:(lia) Hom' Hom Hlt). lia.
  - destruct A1 as (-> & k & Hk & ->), A2 as (-> & k' & Hk' & ->). by simplify_eq.
Qed.

(** ** Changing one page *)

Lemma owned_iff s s' :
  (∀ pr, pr ∈ allbase (heap s') ↔ pr ∈ allbase (heap s)) →
  (∀ pr, PR_PAGEADDR <$> prs (heap s') !! pr = PR_PAGEADDR <$> prs (heap s) !! pr) →
  rt_page <$> kheaproots (heap s') = rt_page <$> kheaproots (heap s) → tasks s' = tasks s → bigs s' = bigs s →
  ∀ o p, owned s' o p ↔ owned s o p.
Proof.
  intros Ha Hp Hr Ht Hb o p. destruct o as [pr|w|t|b|]; cbn; rewrite ?Ht, ?Hb; try done.
  - rewrite Ha. apply and_iff_compat_l. specialize (Hp pr).
    destruct (prs (heap s') !! pr), (prs (heap s) !! pr); cbn in Hp; naive_solver.
  - assert (Hw : rt_page <$> kheaproots (heap s') !! w = rt_page <$> kheaproots (heap s) !! w).
    { by rewrite <- !list_lookup_fmap, Hr. }
    destruct (kheaproots (heap s') !! w), (kheaproots (heap s) !! w); cbn in Hw; naive_solver.
Qed.

(** Memory off the page of a well-formed [pageref] does not matter. *)
Lemma page_wf_off m m' r page n l :
  page_wf m r page n l → (∀ x, page ≤ x < page + PAGE_SIZE → m' x = m x) → page_wf m' r page n l.
Proof.
  intros Hw He. apply (page_wf_ext m); [done|]. intros o Ho. apply He.
  pose proof (pw_offs _ _ _ _ _ Hw) as Hf. rewrite Forall_forall in Hf. destruct (Hf o Ho). lia.
Qed.

Lemma block_on_off m m' r a n page :
  PR_PAGEADDR r = page → (∀ x, page ≤ x < page + PAGE_SIZE → m' x = m x) → block_on m r a n → block_on m' r a n.
Proof.
  intros Hp He (page' & l & o & Hw & Hrest). assert (page' = page) as -> by (by rewrite <- (pw_addr _ _ _ _ _ Hw)).
  exists page, l, o. split; [by eapply page_wf_off|done].
Qed.

(** A large block does not begin on a page of another owner. *)
Lemma big_apart s o p b k :
  kinv s → owned s o p → o ≠ OBig b → bigs s !! b = Some k → ¬ p ≤ b < p + PAGE_SIZE.
Proof.
  intros Hi O1 Hne Hk Hb.
  assert (O2 : owned s (OBig b) (b + 0 * PAGE_SIZE)).
  { exists k, 0. pose proof (ki_bigs _ Hi _ _ Hk). split; [done|]. split; [lia|done]. }
  assert (p = b + 0 * PAGE_SIZE) as E.
  { eapply (same_page _ _ b); [apply (ki_pages _ Hi _ _ O1)|apply (ki_pages _ Hi _ _ O2)|done|unfold PAGE_SIZE; lia]. }
  rewrite <- E in O2. by pose proof (ki_unique _ Hi _ _ _ O1 O2).
Qed.

(** The pages of two [pageref]s are apart. *)
Lemma pages_apart s pr pr' r r' x :
  kinv s → pr ∈ allbase (heap s) → pr' ∈ allbase (heap s) → pr ≠ pr' →
  prs (heap s) !! pr = Some r → prs (heap s) !! pr' = Some r' →
  PR_PAGEADDR r ≤ x < PR_PAGEADDR r + PAGE_SIZE → ¬ PR_PAGEADDR r' ≤ x < PR_PAGEADDR r' + PAGE_SIZE.
Proof.
  intros Hi Hin Hin' Hne Hr Hr' Hx Hx'.
  assert (O1 : owned s (OHeap pr) (PR_PAGEADDR r)) by (split; [done|eauto]).
  assert (O2 : owned s (OHeap pr') (PR_PAGEADDR r')) by (split; [done|eauto]).
  assert (PR_PAGEADDR r = PR_PAGEADDR r') as E
    by (eapply (same_page _ _ x); [apply (ki_pages _ Hi _ _ O1)|apply (ki_pages _ Hi _ _ O2)|done|done]).
  rewrite <- E in O2. pose proof (ki_unique _ Hi _ _ _ O1 O2). congruence.
Qed.

(** The words of the page and its [pageref] change, the rest does not. *)
Definition touched (s : ksys) (pr : Z) (r : pageref) (m : Z → Z) : ksys :=
  KSys (set_words m (set_pr pr r (heap s))) (tasks s) (bigs s) (lost s).

Section touch.
Context (s : ksys) (Hi : kinv s) (pr : Z) (r r' : pageref) (m : Z → Z) (page n : Z) (l l' : list Z).
Context (Hin : pr ∈ allbase (heap s)) (Hr : prs (heap s) !! pr = Some r).
Context (Hw : page_wf (words (heap s)) r page n l) (Hw' : page_wf m r' page n l').
Context (Hpab : pageaddr_and_blocktype r' = pageaddr_and_blocktype r).
Context (Hm : ∀ x, ¬ page ≤ x < page + PAGE_SIZE → m x = words (heap s) x).

Lemma touched_other q rq x :
  q ∈ allbase (heap s) → q ≠ pr → prs (heap s) !! q = Some rq →
  PR_PAGEADDR rq ≤ x < PR_PAGEADDR rq + PAGE_SIZE → m x = words (heap s) x.
Proof.
  intros Hq Hne Hrq Hx. apply Hm. rewrite <- (pw_addr _ _ _ _ _ Hw).
  eapply (pages_apart s q pr); done.
Qed.

Lemma touched_inv : zlen l' < PAGE_SIZE / n → kinv (touched s pr r' m).
Proof.
  intros Hlen.
  assert (Hown : ∀ o p, owned (touched s pr r' m) o p ↔ owned s o p).
  { apply owned_iff; try done. intros q. cbn. destruct (decide (pr = q)) as [->|].
    - rewrite lookup_insert_eq, Hr. cbn. unfold PR_PAGEADDR. by rewrite Hpab.
    - by rewrite lookup_insert_ne. }
  destruct Hi as [K1 K2 K3 K4 K5 K6 K7 K8 K9 K10 K11 K12 K13 K14 K15 K16].
  split; cbn; try done.
  - intros q Hq. destruct (decide (pr = q)) as [<-|Hne].
    + exists r', page, n, l'. rewrite lookup_insert_eq. done.
    + destruct (K9 q Hq) as (rq & pq & nq & lq & Hrq & Hwq & Hlq). exists rq, pq, nq, lq.
      rewrite lookup_insert_ne by done. split; [done|]. split; [|done]. eapply page_wf_off; [done|].
      intros x Hx. eapply (touched_other q rq); [done|congruence|done|]. by rewrite (pw_addr _ _ _ _ _ Hwq).
  - intros blk sb Hsb. destruct (K11 blk sb Hsb) as [Hnd Hiff]. split; [done|]. intros q. rewrite Hiff.
    apply and_iff_compat_l. destruct (decide (pr = q)) as [<-|Hne].
    + rewrite lookup_insert_eq, Hr. unfold PR_BLOCKTYPE. split; intros (x & [= <-] & Hx); eexists; (split; [done|]); congruence.
    + by rewrite lookup_insert_ne.
  - intros o p Ho%Hown. by eapply K12.
  - intros o o' p Ho%Hown Ho'%Hown. by eapply K13.
Qed.

(** Blocks of other pages stay, those of this page follow the free list. *)
Lemma touched_alive a k :
  alive (touched s pr r' m) a k ↔
    alive s a k ∧ ¬ block_on (words (heap s)) r a k ∨ block_on m r' a k.
Proof.
  assert (Hpa : PR_PAGEADDR r' = page) by (by eapply pw_addr).
  assert (Hoff : ∀ q rq, q ∈ allbase (heap s) → q ≠ pr → prs (heap s) !! q = Some rq →
    (block_on m rq a k ↔ block_on (words (heap s)) rq a k) ∧ (block_on (words (heap s)) rq a k → ¬ block_on (words (heap s)) r a k)).
  { intros q rq Hq Hne Hrq. split.
    - split; (eapply block_on_off; [done|]; intros x Hx); [symmetry|]; by eapply touched_other.
    - intros (p1 & l1 & o1 & W1 & R1 & _ & -> & _) (p2 & l2 & o2 & W2 & R2 & _ & E2 & _).
      eapply (pages_apart s q pr rq r (p1 + o1)); try done;
        [rewrite (pw_addr _ _ _ _ _ W1)|rewrite (pw_addr _ _ _ _ _ W2)]; lia. }
  assert (Hbig : ∀ j, bigs s !! a = Some j → ¬ block_on (words (heap s)) r a k).
  { intros j Hj (p2 & l2 & o2 & W2 & R2 & _ & E2 & _).
    apply (big_apart s (OHeap pr) p2 a j Hi); [by eapply heap_page|done|done|lia]. }
  unfold alive. cbn. split.
  - intros [(q & rq & Hq & Hrq & Hb)|(j & Hj & ->)].
    + destruct (decide (pr = q)) as [<-|Hne].
      * rewrite lookup_insert_eq in Hrq. injection Hrq as <-. by right.
      * rewrite lookup_insert_ne in Hrq by done. left. destruct (Hoff q rq Hq ltac:(congruence) Hrq) as [Hiff Hno].
        apply Hiff in Hb. split; [|by apply Hno]. left. eauto.
    + left. split; [right; eauto|by eapply Hbig].
  - intros [[[(q & rq & Hq & Hrq & Hb)|(j & Hj & ->)] Hno]|Hb].
    + left. exists q, rq. split; [done|]. destruct (decide (pr = q)) as [<-|Hne]; [by simplify_eq|].
      rewrite lookup_insert_ne by done. split; [done|]. by apply (Hoff q rq Hq ltac:(congruence) Hrq).
    + right. eauto.
    + left. exists pr, r'. by rewrite lookup_insert_eq.
Qed.

End touch.

(** ** What a step does to the blocks *)

(** The contents of the blocks that stay in use are kept. *)
Definition kept (s s' : ksys) : Prop :=
  ∀ a n x, alive s a n → alive s' a n → a ≤ x < a + n → words (heap s') x = words (heap s) x.

(** The block at [p], of [n] bytes, is new: no address of it was in use. *)
Record gains (s s' : ksys) (p n : Z) : Prop := {
  ga_alive : ∀ a m, alive s' a m ↔ alive s a m ∨ a = p ∧ m = n;
  ga_new : ∀ a m x, alive s a m → a ≤ x < a + m → ¬ p ≤ x < p + n;
  ga_kept : kept s s';
}.

(** The block at [p] is no longer in use. *)
Record loses (s s' : ksys) (p : Z) : Prop := {
  lo_alive : ∀ a m, alive s' a m ↔ alive s a m ∧ a ≠ p;
  lo_kept : kept s s';
}.

(** The same blocks. *)
Record unchanged (s s' : ksys) : Prop := {
  un_alive : ∀ a m, alive s' a m ↔ alive s a m;
  un_kept : kept s s';
}.

Lemma alive_pos s a n : kinv s → alive s a n → 0 < n.
Proof.
  intros Hi [(pr & r & Hin & Hr & page & l & o & Hw & _)|(k & Hk & ->)].
  - destruct (pw_pab _ _ _ _ _ Hw) as (blk & _ & _ & Hs). destruct (size_facts _ _ Hs). lia.
  - pose proof (ki_bigs _ Hi _ _ Hk). unfold PAGE_SIZE. lia.
Qed.

(** In a state that satisfies the invariant, a block that is new overlaps no other. *)
Lemma gains_intro s s' p n :
  kinv s' → (∀ a m, alive s' a m ↔ alive s a m ∨ a = p ∧ m = n) → (∀ m, ¬ alive s p m) → kept s s' →
  gains s s' p n.
Proof.
  intros Hi Ha Hno Hk. split; [done| |done]. intros a m x Hal Hx Hp.
  assert (H1 : alive s' a m) by (apply Ha; by left). assert (H2 : alive s' p n) by (apply Ha; by right).
  destruct (alive_disjoint s' a m p n x Hi H1 H2 Hx Hp) as [-> ->]. by eapply Hno.
Qed.

(** A block of a page, in terms of its free list. *)
Lemma block_on_iff m r page n l a k :
  page_wf m r page n l →
  block_on m r a k ↔ k = n ∧ page ≤ a < page + PAGE_SIZE ∧ (a - page) mod n = 0 ∧ a - page ∉ l.
Proof.
  intros Hw. split.
  - intros (p' & l' & o & Hw' & Ho & Hom & -> & Hno).
    destruct (page_wf_fun _ _ _ _ _ _ _ _ Hw Hw') as (<- & <- & <-).
    replace (page + o - page) with o by lia. split; [done|]. split; [lia|done].
  - intros (-> & Ha & Hm & Hno). exists page, l, (a - page). split; [done|]. split; [lia|]. split; [done|]. split; [lia|done].
Qed.

(** A block on a free list is not in use. *)
Lemma free_not_alive s pr r page n l o k :
  kinv s → pr ∈ allbase (heap s) → prs (heap s) !! pr = Some r → page_wf (words (heap s)) r page n l → o ∈ l →
  ¬ alive s (page + o) k.
Proof.
  intros Hi Hin Hr Hw Ho. pose proof (pw_offs _ _ _ _ _ Hw) as Hoff. rewrite Forall_forall in Hoff.
  destruct (Hoff o Ho) as [Hor _]. intros [(q & rq & Hq & Hrq & Hb)|(j & Hj & ->)].
  - destruct (decide (q = pr)) as [->|Hne].
    + rewrite Hr in Hrq. injection Hrq as <-. apply (block_on_iff _ _ _ _ _ _ _ Hw) in Hb as (_ & _ & _ & Hb).
      apply Hb. by replace (page + o - page) with o by lia.
    + destruct Hb as (p1 & l1 & o1 & W1 & R1 & _ & E1 & _).
      eapply (pages_apart s q pr rq r (page + o)); try done;
        [rewrite (pw_addr _ _ _ _ _ W1)|rewrite (pw_addr _ _ _ _ _ Hw)]; lia.
  - eapply (big_apart s (OHeap pr) page (page + o) j Hi); [by eapply heap_page|done|done|lia].
Qed.

Lemma doalloc_gains s pr r page n o l :
  kinv s → pr ∈ allbase (heap s) → prs (heap s) !! pr = Some r → page_wf (words (heap s)) r page n (o :: l) →
  ∃ h, doalloc pr (heap s) = Some (page + o, h) ∧
    kinv (KSys h (tasks s) (bigs s) (lost s)) ∧ gains s (KSys h (tasks s) (bigs s) (lost s)) (page + o) n.
Proof.
  intros Hi Hin Hr Hw. destruct (doalloc_run (heap s) pr r page n o l Hr Hw) as (r' & Hrun & Hw' & Hpab).
  eexists. split; [done|].
  destruct (ki_page _ Hi pr Hin) as (r0 & p0 & n0 & l0 & Hr0 & Hw0 & Hlt).
  rewrite Hr in Hr0. injection Hr0 as <-. destruct (page_wf_fun _ _ _ _ _ _ _ _ Hw Hw0) as (<- & <- & <-).
  change (KSys _ (tasks s) (bigs s) (lost s)) with (touched s pr r' (words (heap s))).
  assert (Hi' : kinv (touched s pr r' (words (heap s)))).
  { eapply (touched_inv s Hi pr r r' _ page n (o :: l) l); try done. cbn [length] in Hlt. lia. }
  split; [done|].
  pose proof (touched_alive s Hi pr r r' (words (heap s)) page n (o :: l) l Hin Hr Hw Hw' (λ _ _, eq_refl)) as Hal.
  pose proof (pw_offs _ _ _ _ _ Hw) as Hoff. apply Forall_cons in Hoff as [[Ho Hom] _].
  pose proof (pw_nodup _ _ _ _ _ Hw) as Hnd. apply NoDup_cons in Hnd as [Hnol _].
  apply gains_intro; [done| | |].
  - intros a k. rewrite Hal, (block_on_iff _ _ _ _ _ _ _ Hw), (block_on_iff _ _ _ _ _ _ _ Hw'). split.
    + intros [[Ha _]|(-> & Ha & Hm & Hno)]; [by left|].
      destruct (decide (a - page = o)) as [He|He]; [right; split; [lia|done]|].
      left. left. exists pr, r. split; [done|]. split; [done|].
      apply (block_on_iff _ _ _ _ _ _ _ Hw). rewrite not_elem_of_cons. auto.
    + intros [Ha|[-> ->]].
      * destruct (decide (k = n ∧ page ≤ a < page + PAGE_SIZE ∧ (a - page) mod n = 0 ∧ a - page ∉ o :: l)) as [Hd|Hd].
        -- right. rewrite not_elem_of_cons in Hd. tauto.
        -- by left.
      * right. replace (page + o - page) with o by lia. split; [done|]. split; [lia|done].
  - intros k. eapply (free_not_alive s pr r page n (o :: l) o); try done. by left.
  - by intros a k x.
Qed.

(** ** Freeing a block *)

(** The first word of the free block, and 0xdeadbeef in the others. *)
Definition freed_words (ptr n next : Z) (m : Z → Z) : Z → Z := put_word ptr next (fill_deadbeef ptr n m).

Lemma freed_words_out ptr n next m x : 16 ≤ n → ¬ ptr ≤ x < ptr + n → freed_words ptr n next m x = m x.
Proof.
  intros Hn Hx. unfold freed_words, put_word, fill_deadbeef. rewrite decide_False by lia.
  assert (n / 4 * 4 ≤ n) by (Z.to_euclidean_division_equations; lia).
  destruct (Z.leb_spec ptr x); [|done]. destruct (Z.ltb_spec x (ptr + n / 4 * 4)); [lia|done].
Qed.

(** The page after the block at the offset [o] has been put on its free list. *)
Lemma freed_page_wf m r page n l o :
  page_wf m r page n l → 0 ≤ o < PAGE_SIZE → o mod n = 0 → o ∉ l →
  let next := match l with [] => 0 | o' :: _ => page + o' end in
  page_wf (freed_words (page + o) n next m)
    (Pageref (pageaddr_and_blocktype r) o (zlen l + 1)) page n (o :: l).
Proof.
  intros Hw Ho Hom Hno next. destruct (pw_pab _ _ _ _ _ Hw) as (blk & Hb & Hp & Hs).
  destruct (size_facts _ _ Hs) as (_ & Hn & _). pose proof (pw_offs _ _ _ _ _ Hw) as Hoff.
  split; cbn [pageaddr_and_blocktype freelist_offset nfree].
  - apply Hw.
  - eauto.
  - by apply Forall_cons.
  - apply NoDup_cons. split; [done|apply Hw].
  - split.
    + unfold freed_words, put_word. by rewrite decide_True.
    + eapply chain_ext; [|apply (pw_chain _ _ _ _ _ Hw)]. intros o2 Ho2. apply freed_words_out; [lia|].
      rewrite Forall_forall in Hoff. destruct (Hoff o2 Ho2) as [_ Hm2].
      destruct (Z.lt_trichotomy o o2) as [Hlt|[->|Hlt]]; [|done|].
      * pose proof (offs_apart n o o2 ltac:(lia) Hom Hm2 Hlt). lia.
      * lia.
  - done.
  - cbn [length]. lia.
Qed.

Section free.
Context (s : ksys) (Hi : kinv s) (pr : Z) (r : pageref) (page n : Z) (l : list Z) (o : Z).
Context (Hin : pr ∈ allbase (heap s)) (Hr : prs (heap s) !! pr = Some r).
Context (Hw : page_wf (words (heap s)) r page n l) (Ho : 0 ≤ o < PAGE_SIZE) (Hom : o mod n = 0) (Hno : o ∉ l).

Definition free_next : Z := match l with [] => 0 | o' :: _ => page + o' end.
Definition free_ref : pageref := Pageref (pageaddr_and_blocktype r) o (zlen l + 1).
Definition free_words : Z → Z := freed_words (page + o) n free_next (words (heap s)).
Definition free_heap : kheap := set_pr pr free_ref (set_words free_words (heap s)).

Lemma free_wf : page_wf free_words free_ref page n (o :: l).
Proof. by apply freed_page_wf. Qed.

Lemma free_words_off x : ¬ page ≤ x < page + PAGE_SIZE → free_words x = words (heap s) x.
Proof.
  intros Hx. destruct (pw_pab _ _ _ _ _ Hw) as (blk & _ & _ & Hs). destruct (size_facts _ _ Hs) as (_ & Hn & _).
  pose proof (off_end _ _ _ Hs Ho Hom). apply freed_words_out; lia.
Qed.

(** [subpage_kfree] up to the test whether the whole page is free. *)
Lemma subpage_kfree_run :
  subpage_kfree (page + o) (heap s) =
    if zlen l + 1 =? PAGE_SIZE / n then
      h ← remove_lists pr (PR_BLOCKTYPE r) free_heap; h ← freepageref pr h; Some (true, Some page, h)
    else Some (true, None, free_heap).
Proof.
  destruct (pw_blk _ _ _ _ _ Hw) as [Hb Hs]. destruct (size_facts _ _ Hs) as (_ & Hn & _ & _ & Hq & _).
  pose proof (pw_addr _ _ _ _ _ Hw) as Hpa. pose proof (pw_page _ _ _ _ _ Hw) as [Hp1 Hp2].
  pose proof (free_bound _ _ _ _ _ free_wf) as Hfb. cbn [length] in Hfb.
  destruct (find_owner_run (heap s) (allbase (heap s)) (page + o)) as (x & Hfind & Hx).
  { intros q Hq'. destruct (ki_page _ Hi q Hq') as (rq & pq & nq & lq & Hrq & Hwq & _). exists rq. split; [done|].
    by apply (pw_blk _ _ _ _ _ Hwq). }
  assert (x = Some (pr, r)) as ->.
  { destruct x as [[q rq]|].
    - destruct Hx as (Hq' & Hrq & Hxr). destruct (decide (q = pr)) as [->|Hne]; [by rewrite Hr in Hrq; injection Hrq as <-|].
      exfalso. eapply (pages_apart s q pr rq r (page + o)); try done. rewrite Hpa. lia.
    - exfalso. apply (Hx pr r Hin Hr). rewrite Hpa. lia. }
  unfold subpage_kfree. rewrite Hfind. cbn [mbind option_bind]. rewrite Hs, Hpa. cbn [mbind option_bind].
  replace (page + o - page) with o by lia. unfold PAGE_SIZE in *. rewrite (wrap_small 32 o), (wrap_small 32 (page + o)) by lia.
  rewrite (proj2 (Z.leb_gt 4096 o)), (proj2 (Z.eqb_eq (o mod n) 0) Hom) by lia. cbn [orb negb].
  assert (Hnx : (if freelist_offset r =? INVALID_OFFSET then 0 else u32 (page + freelist_offset r)) = free_next ∧
    negb (freelist_offset r =? INVALID_OFFSET) && (page + o =? if freelist_offset r =? INVALID_OFFSET then 0 else u32 (page + freelist_offset r)) = false).
  { rewrite (pw_head _ _ _ _ _ Hw). unfold free_next, INVALID_OFFSET. pose proof (pw_offs _ _ _ _ _ Hw) as Hoff.
    destruct l as [|o' l']; [done|]. apply Forall_cons in Hoff as [[Ho' _] _]. unfold PAGE_SIZE in Ho'.
    rewrite (proj2 (Z.eqb_neq o' _)), (wrap_small 32) by lia. split; [done|]. cbn [negb andb]. apply Z.eqb_neq.
    intros He. apply Hno, elem_of_cons. left. lia. }
  destruct Hnx as [Hnx ->]. rewrite Hnx, (pw_nfree _ _ _ _ _ Hw). rewrite !(wrap_small 16) by lia.
  rewrite (proj2 (Z.leb_le (zlen l + 1) (4096 / n))) by lia. cbn [negb]. done.
Qed.

(** Some block of the page is still in use. *)
Lemma kfree_block :
  zlen l + 1 ≠ PAGE_SIZE / n →
  kinv (KSys free_heap (tasks s) (bigs s) (lost s)) ∧ loses s (KSys free_heap (tasks s) (bigs s) (lost s)) (page + o).
Proof.
  intros Hlt. change (KSys free_heap (tasks s) (bigs s) (lost s)) with (touched s pr free_ref free_words).
  pose proof (free_bound _ _ _ _ _ free_wf) as Hfb. cbn [length] in Hfb.
  pose proof (touched_alive s Hi pr r free_ref free_words page n l (o :: l) Hin Hr Hw free_wf free_words_off) as Hal.
  split.
  - eapply (touched_inv s Hi pr r free_ref free_words page n l (o :: l)); try done; [apply free_wf|apply free_words_off|].
    cbn [length]. lia.
  - assert (Hb0 : block_on (words (heap s)) r (page + o) n).
    { apply (block_on_iff _ _ _ _ _ _ _ Hw). replace (page + o - page) with o by lia. split; [done|]. split; [lia|done]. }
    split.
    + intros a k. rewrite Hal, (block_on_iff _ _ _ _ _ _ _ free_wf). split.
      * intros [[Ha Hnb]|(-> & Ha & Hm & Hnl)].
        -- split; [done|]. intros ->. apply Hnb. replace k with n; [done|].
           assert (Hp : alive s (page + o) n) by (left; eauto).
           pose proof (alive_pos _ _ _ Hi Ha). pose proof (alive_pos _ _ _ Hi Hp).
           by apply (alive_disjoint s (page + o) n (page + o) k (page + o)); [| | |lia|lia].
        -- rewrite not_elem_of_cons in Hnl. split; [|intros ->; destruct Hnl as [Hnl _]; apply Hnl; lia].
           left. exists pr, r. split; [done|]. split; [done|]. apply (block_on_iff _ _ _ _ _ _ _ Hw). tauto.
      * intros [Ha Hne]. destruct (decide (k = n ∧ page ≤ a < page + PAGE_SIZE ∧ (a - page) mod n = 0 ∧ a - page ∉ l)) as [Hd|Hd].
        -- right. destruct Hd as (-> & H1 & H2 & H3). rewrite not_elem_of_cons. repeat split; try done; lia.
        -- left. split; [done|]. by rewrite (block_on_iff _ _ _ _ _ _ _ Hw).
    + intros a k x Ha Ha' Hx. cbn.
      destruct (pw_blk _ _ _ _ _ Hw) as [_ Hs]. destruct (size_facts _ _ Hs) as (_ & Hn & _).
      apply freed_words_out; [lia|]. intros Hx'. assert (Hp : alive s (page + o) n) by (left; eauto).
      destruct (alive_disjoint s a k (page + o) n x Hi Ha Hp Hx Hx') as [-> ->].
      apply Hal in Ha' as [[_ Hnb]|Hb]; [done|].
      apply (block_on_iff _ _ _ _ _ _ _ free_wf) in Hb as (_ & _ & _ & Hb).
      apply Hb, elem_of_cons. left. lia.
Qed.

End free.

(** ** Giving a page back *)

(** A free list of full length has all blocks. *)
Lemma full_free_list m r page n l o :
  page_wf m r page n l → zlen l = PAGE_SIZE / n → 0 ≤ o < PAGE_SIZE → o mod n = 0 → o ∈ l.
Proof.
  intros Hw Hlen Ho Hom. destruct (pw_pab _ _ _ _ _ Hw) as (blk & _ & _ & Hs).
  destruct (size_facts _ _ Hs) as (_ & Hn & _ & _ & Hq & Hd).
  destruct (decide (o ∈ l)) as [|Hno]; [done|]. exfalso.
  pose proof (free_bound _ _ _ _ _ (freed_page_wf m r page n l o Hw Ho Hom Hno)) as Hb. cbn [length] in Hb. lia.
Qed.

Lemma slot_at_iff h h' :
  rt_page <$> kheaproots h' = rt_page <$> kheaproots h → ∀ w k pr, slot_at h' w k pr ↔ slot_at h w k pr.
Proof.
  intros He w k pr. assert (Hw : rt_page <$> kheaproots h' !! w = rt_page <$> kheaproots h !! w).
  { by rewrite <- !list_lookup_fmap, He. }
  split; intros (rt & Hrt & Hz & Hk & ->); rewrite Hrt in Hw; cbn in Hw.
  - destruct (kheaproots h !! w) as [rt0|] eqn:E; [|done]. injection Hw as Hw. rewrite Hw in *. by exists rt0.
  - destruct (kheaproots h' !! w) as [rt0|] eqn:E; [|done]. injection Hw as Hw. rewrite <- Hw in *. by exists rt0.
Qed.

Lemma insert_same_pages (rs : list kheap_root) w rt rt' :
  rs !! w = Some rt → rt_page rt' = rt_page rt → rt_page <$> <[w := rt']> rs = rt_page <$> rs.
Proof. intros Hw Hp. rewrite list_fmap_insert, Hp. apply list_insert_id. by rewrite list_lookup_fmap, Hw. Qed.

Section drop.
Context (s : ksys) (Hi : kinv s) (pr : Z) (r r' : pageref) (m : Z → Z) (page n : Z) (l sb : list Z).
Context (Hin : pr ∈ allbase (heap s)) (Hr : prs (heap s) !! pr = Some r).
Context (Hw : page_wf (words (heap s)) r page n l).
Context (Hm : ∀ x, ¬ page ≤ x < page + PAGE_SIZE → m x = words (heap s) x).
Context (Hsb : arr_get (sizebases (heap s)) (PR_BLOCKTYPE r) = Some sb).
Context (w : nat) (k : Z) (rt rt' : kheap_root) (Hat : slot_at (heap s) w k pr).
Context (Hrt : kheaproots (heap s) !! w = Some rt) (Hrw : root_wf rt') (Hru : used rt' = used rt ∖ {[k]}).
Context (Hrp : rt_page rt' = rt_page rt).

Definition dropped : ksys :=
  KSys (Kheap (<[w := rt']> (kheaproots (heap s))) (<[pr := r']> (prs (heap s)))
          (arr_set (sizebases (heap s)) (PR_BLOCKTYPE r) (unlink pr sb)) (unlink pr (allbase (heap s))) m)
    (tasks s) (bigs s) (lost s).

Lemma dropped_in q : q ∈ allbase (heap dropped) ↔ q ∈ allbase (heap s) ∧ q ≠ pr.
Proof. apply unlink_spec, Hi. Qed.

Lemma dropped_owned o p : owned dropped o p ↔ owned s o p ∧ o ≠ OHeap pr.
Proof.
  assert (Hpages : rt_page <$> kheaproots (heap dropped) = rt_page <$> kheaproots (heap s)) by (by eapply insert_same_pages).
  destruct o as [q|v|t|b|]; cbn [owned].
  - rewrite dropped_in. cbn. split.
    + intros [[Hq Hne] (rq & Hrq & Hp)]. rewrite lookup_insert_ne in Hrq by done. split; [eauto|congruence].
    + intros [[Hq Hex] Hne]. assert (q ≠ pr) by congruence. rewrite lookup_insert_ne by done. done.
  - assert (Hv : rt_page <$> kheaproots (heap dropped) !! v = rt_page <$> kheaproots (heap s) !! v).
    { by rewrite <- !list_lookup_fmap, Hpages. }
    destruct (kheaproots (heap dropped) !! v), (kheaproots (heap s) !! v); cbn in Hv; naive_solver.
  - naive_solver.
  - naive_solver.
  - tauto.
Qed.

Lemma dropped_holds v j o : holds dropped v j o ↔ holds s v j o ∧ o ≠ OHeap pr.
Proof.
  destruct o as [q| |t| |]; cbn [holds]; [|tauto|naive_solver|tauto|naive_solver].
  rewrite dropped_in, (slot_at_iff (heap s)) by (by eapply insert_same_pages). naive_solver.
Qed.

Lemma dropped_slots v rv j :
  kheaproots (heap dropped) !! v = Some rv → (j ∈ used rv ↔ ∃ o, holds dropped v j o).
Proof.
  intros Hv. cbn in Hv. assert (Hh : holds s w k (OHeap pr)) by done.
  apply list_lookup_insert_Some in Hv as [(<- & <- & _)|[Hne Hv]].
  - rewrite Hru, elem_of_difference, elem_of_singleton, (ki_slots _ Hi _ _ j Hrt). split.
    + intros [(o & Ho) Hj]. exists o. apply dropped_holds. split; [done|]. intros ->. apply Hj.
      destruct Ho as [_ Ho]. by destruct (slot_inj s _ _ _ _ pr Hi Ho Hat).
    + intros (o & [Ho Hne]%dropped_holds). split; [eauto|]. intros ->. by apply Hne, (ki_holder _ Hi w k).
  - rewrite (ki_slots _ Hi _ _ j Hv). split; intros (o & Ho); exists o; [|by apply dropped_holds in Ho as [? _]].
    apply dropped_holds. split; [done|]. intros ->. destruct Ho as [_ Ho].
    by destruct (slot_inj s _ _ _ _ pr Hi Ho Hat).
Qed.

Lemma dropped_inv : kinv dropped.
Proof.
  assert (Hroot : ∀ v rv, kheaproots (heap dropped) !! v = Some rv →
    ∃ rv0, kheaproots (heap s) !! v = Some rv0 ∧ root_wf rv ∧ rt_page rv = rt_page rv0 ∧ used rv ⊆ used rv0).
  { intros v rv [(<- & <- & _)|[Hne Hv]]%list_lookup_insert_Some; [exists rt; split_and!; try done; set_solver|].
    exists rv. split_and!; try done. by eapply (ki_root _ Hi). }
  split.
  - cbn. rewrite length_insert. apply Hi.
  - intros v rv Hv. by destruct (Hroot v rv Hv) as (_ & _ & ? & _).
  - apply dropped_slots.
  - intros v j o o' [H1 _]%dropped_holds [H2 _]%dropped_holds. by eapply (ki_holder _ Hi).
  - intros v j o [H1 _]%dropped_holds. cbn. rewrite list_lookup_insert_is_Some. by eapply (ki_rooted _ Hi).
  - intros v v' rv rv' Hv Hv' Hz Hlt. destruct (Hroot v rv Hv) as (x & Hx & _ & Ex & _), (Hroot v' rv' Hv') as (y & Hy & _ & Ey & Hsub).
    destruct (ki_order _ Hi v v' x y Hx Hy) as [Hz' Hu']; [congruence|done|]. split; [congruence|set_solver].
  - cbn. by apply unlink_spec, Hi.
  - intros q [Hq _]%dropped_in. destruct (ki_placed _ Hi q Hq) as (v & j & Hv). exists v, j.
    rewrite (slot_at_iff (heap s)) by (by eapply insert_same_pages). done.
  - intros q [Hq Hne]%dropped_in. destruct (ki_page _ Hi q Hq) as (rq & pq & nq & lq & Hrq & Hwq & Hlq). exists rq, pq, nq, lq.
    cbn. rewrite lookup_insert_ne by done. split; [done|]. split; [|done]. eapply page_wf_off; [done|].
    intros x Hx. eapply (touched_other s Hi pr r m page n l); try done. by rewrite (pw_addr _ _ _ _ _ Hwq).
  - cbn. rewrite length_arr_set. apply Hi.
  - intros blk sb' Hsb'. cbn in Hsb'. pose proof (arr_get_range _ _ _ Hsb) as Hrange.
    assert (Hother : ∀ q, q ≠ pr → prs (heap dropped) !! q = prs (heap s) !! q).
    { intros q Hq. cbn. by rewrite lookup_insert_ne. }
    rewrite arr_get_set in Hsb' by done. case_decide as Hb.
    + injection Hsb' as <-. destruct (ki_sized _ Hi _ _ Hsb) as [Hnd Hiff]. destruct (unlink_spec pr sb Hnd) as [Hnd' Hu].
      split; [done|]. intros q. rewrite Hu, Hiff, dropped_in. split.
      * intros [[Hq Hex] Hne]. rewrite Hother, <- Hb by done. done.
      * intros [[Hq Hne] Hex]. rewrite Hother, <- Hb in Hex by done. done.
    + destruct (ki_sized _ Hi _ _ Hsb') as [Hnd Hiff]. split; [done|]. intros q. rewrite Hiff, dropped_in. split.
      * intros [Hq (rq & Hrq & Hbq)]. assert (q ≠ pr) by (intros ->; simplify_eq). rewrite Hother by done. eauto.
      * intros [[Hq Hne] Hex]. rewrite Hother in Hex by done. done.
  - intros o p [Ho _]%dropped_owned. by eapply (ki_pages _ Hi).
  - intros o o' p [Ho _]%dropped_owned [Ho' _]%dropped_owned. by eapply (ki_unique _ Hi).
  - intros t tk Ht. pose proof (ki_tasks _ Hi t tk Ht) as Hok. destruct tk as [| |sz blk pg v j]; try done.
    destruct Hok as (H1 & H2 & rv & Hv & Hnz). split; [done|]. split; [done|]. cbn.
    destruct (decide (v = w)) as [->|Hne].
    + exists rt'. rewrite list_lookup_insert_eq by (by eapply lookup_lt_Some). split; [done|]. congruence.
    + exists rv. by rewrite list_lookup_insert_ne.
  - apply Hi.
  - apply Hi.
Qed.

Lemma dropped_alive a j : alive dropped a j ↔ alive s a j ∧ ¬ block_on (words (heap s)) r a j.
Proof.
  assert (Hoff : ∀ q rq, q ∈ allbase (heap s) → q ≠ pr → prs (heap s) !! q = Some rq →
    block_on m rq a j ↔ block_on (words (heap s)) rq a j).
  { intros q rq Hq Hne Hrq.
    split; (eapply block_on_off; [done|]; intros x Hx); [symmetry|]; by eapply (touched_other s Hi pr r m page n l). }
  unfold alive. split.
  - intros [(q & rq & [Hq Hne]%dropped_in & Hrq & Hb)|(i & Hb & ->)].
    + cbn in Hrq, Hb. rewrite lookup_insert_ne in Hrq by done. apply (Hoff q rq Hq Hne Hrq) in Hb.
      split; [left; eauto|]. intros (p2 & l2 & o2 & W2 & R2 & _ & E2 & _). destruct Hb as (p1 & l1 & o1 & W1 & R1 & _ & E1 & _).
      eapply (pages_apart s q pr rq r a); try done; [rewrite (pw_addr _ _ _ _ _ W1)|rewrite (pw_addr _ _ _ _ _ W2)]; lia.
    + split; [right; eauto|]. intros (p2 & l2 & o2 & W2 & R2 & _ & E2 & _).
      eapply (big_apart s (OHeap pr) p2 a i Hi); [by eapply heap_page|done|done|lia].
  - intros [[(q & rq & Hq & Hrq & Hb)|(i & Hb & ->)] Hno]; [left|right; eauto].
    assert (Hne : q ≠ pr) by (intros ->; rewrite Hr in Hrq; injection Hrq as <-; done). exists q, rq. rewrite dropped_in. cbn.
    rewrite lookup_insert_ne by done. split; [done|]. split; [done|]. by apply (Hoff q).
Qed.

End drop.

(** When all blocks but one are free, the page has this block only. *)
Lemma last_block m r page n l o a j :
  page_wf m r page n l → 0 ≤ o < PAGE_SIZE → o mod n = 0 → o ∉ l → zlen l + 1 = PAGE_SIZE / n →
  block_on m r a j ↔ a = page + o ∧ j = n.
Proof.
  intros Hw Ho Hom Hno Hall. rewrite (block_on_iff _ _ _ _ _ _ _ Hw). split.
  - intros (-> & Ha & Hm & Hnl). split; [|done].
    assert (a - page ∈ o :: l) as [?|?]%elem_of_cons; [|lia|done].
    eapply full_free_list; [by apply freed_page_wf|cbn [length]; lia|lia|done].
  - intros [-> ->]. replace (page + o - page) with o by lia. split; [done|]. split; [lia|done].
Qed.

(** A block in use that reaches into the page of [r] is a block of this page. *)
Lemma block_of_page s pr r page n l a j x :
  kinv s → pr ∈ allbase (heap s) → prs (heap s) !! pr = Some r → page_wf (words (heap s)) r page n l →
  alive s a j → a ≤ x < a + j → page ≤ x < page + PAGE_SIZE → block_on (words (heap s)) r a j.
Proof.
  intros Hi Hin Hr Hw Ha Hx Hx'. destruct (alive_owner _ _ _ x Hi Ha Hx) as (q & p & Oq & Rq & Aq).
  assert (p = page) as -> by (eapply (same_page _ _ x); [apply (ki_pages _ Hi _ _ Oq)|apply (pw_page _ _ _ _ _ Hw)|done|done]).
  pose proof (ki_unique _ Hi _ _ _ Oq (heap_page _ _ _ _ _ _ Hi Hin Hr Hw)) as ->.
  destruct Ha as [(q & rq & Hq & Hrq & Hbq)|(i & Hbi & ->)].
  - destruct (decide (q = pr)) as [->|Hne]; [rewrite Hr in Hrq; injection Hrq as <-; done|]. exfalso.
    destruct Hbq as (p1 & l1 & o1 & W1 & R1 & M1 & -> & _). destruct (pw_pab _ _ _ _ _ W1) as (blk & _ & _ & Hs1).
    pose proof (off_end _ _ _ Hs1 R1 M1).
    eapply (pages_apart s q pr rq r x); try done; [rewrite (pw_addr _ _ _ _ _ W1)|rewrite (pw_addr _ _ _ _ _ Hw)]; lia.
  - exfalso. destruct Aq as (r1 & l1 & o1 & Hr1 & W1 & R1 & _ & E1).
    eapply (big_apart s (OHeap pr) page a i Hi); [by eapply heap_page|done|done|lia].
Qed.

(** [freepageref] finds the slot of the [pageref]: no root before its own has a null page. *)
Lemma freepageref_run s pr w k rt :
  kinv s → pr ∈ allbase (heap s) → slot_at (heap s) w k pr → kheaproots (heap s) !! w = Some rt →
  ∃ rt', freepageref_loop pr (kheaproots (heap s)) = Some (<[w := rt']> (kheaproots (heap s))) ∧
    root_wf rt' ∧ used rt' = used rt ∖ {[k]} ∧ rt_page rt' = rt_page rt.
Proof.
  intros Hi Hin Hat Hrt. pose proof Hat as (rt0 & Hrt0 & Hnz & Hk & ->). rewrite Hrt in Hrt0. injection Hrt0 as <-.
  assert (Hku : k ∈ used rt) by (apply (ki_slots _ Hi _ _ _ Hrt); by exists (OHeap (rt_page rt + 16 * k))).
  assert (Hpok : ∀ i rt', kheaproots (heap s) !! i = Some rt' → rt_page rt' ≠ 0 → page_ok (rt_page rt')).
  { intros i rt' Hi' Hz'. apply (ki_pages _ Hi (ORoot i)). by exists rt'. }
  destruct (freepageref_loop_run (kheaproots (heap s)) w rt k Hrt (ki_root _ Hi _ _ Hrt) Hku (Hpok _ _ Hrt Hnz))
    as (rt' & Hloop & Hrest); [|by exists rt'].
  intros i rt0 Hlt Hi0. assert (rt_page rt0 ≠ 0) as Hz0.
  { intros Hz. destruct (ki_order _ Hi i w rt0 rt Hi0 Hrt Hz Hlt). done. }
  split; [by eapply Hpok|]. intros He. assert (ORoot i = ORoot w) as [= ->]; [|lia].
  apply (ki_unique _ Hi _ _ (rt_page rt)); eexists; split; try done.
Qed.

(** [kfree] of a block in use on a page of the heap. *)
Lemma kfree_small s pr r page n l o :
  kinv s → pr ∈ allbase (heap s) → prs (heap s) !! pr = Some r → page_wf (words (heap s)) r page n l →
  0 ≤ o < PAGE_SIZE → o mod n = 0 → o ∉ l →
  ∃ g h, subpage_kfree (page + o) (heap s) = Some (true, g, h) ∧
    kinv (KSys h (tasks s) (bigs s) (lost s)) ∧ loses s (KSys h (tasks s) (bigs s) (lost s)) (page + o) ∧
    (∀ p, g = Some p → ∀ q, ¬ owned (KSys h (tasks s) (bigs s) (lost s)) q p).
Proof.
  intros Hi Hin Hr Hw Ho Hom Hno. rewrite (subpage_kfree_run s Hi pr r page n l o) by done.
  destruct (Z.eqb_spec (zlen l + 1) (PAGE_SIZE / n)) as [Hall|Hsome]; cycle 1.
  { destruct (kfree_block s Hi pr r page n l o Hin Hr Hw Ho Hom Hno Hsome) as [Hi' Hl]. eexists _, _. by split_and!. }
  destruct (pw_blk _ _ _ _ _ Hw) as [Hb _].
  destruct (arr_get_ex (sizebases (heap s)) (PR_BLOCKTYPE r)) as [sb Hsb]; [by rewrite (ki_sizes _ Hi), Z2Nat.id|].
  unfold remove_lists. rewrite (proj2 (Z.leb_le 0 _)), (proj2 (Z.ltb_lt _ NSIZES)) by lia. cbn [andb negb].
  cbn [sizebases free_heap set_pr set_words]. rewrite Hsb. cbn [mbind option_bind].
  destruct (ki_placed _ Hi pr Hin) as (w & k & Hat). pose proof Hat as (rt & Hrt & _).
  destruct (freepageref_run s pr w k rt Hi Hin Hat Hrt) as (rt' & Hloop & Hrw & Hru & Hrp).
  unfold freepageref. cbn [kheaproots free_heap set_pr set_words]. rewrite Hloop. cbn [mbind option_bind]. eexists _, _. split; [done|].
  change (KSys _ (tasks s) (bigs s) (lost s)) with
    (dropped s pr r (free_ref r l o) (free_words s page n l o) sb w rt').
  pose proof (free_words_off s r page n l o Hw Ho Hom) as Hoff.
  split; [by eapply (dropped_inv s Hi pr r _ _ page n l sb Hin Hr Hw Hoff Hsb w k rt rt')|].
  pose proof (λ a j, dropped_alive s Hi pr r (free_ref r l o) _ page n l sb Hin Hr Hw Hoff w rt' a j) as Hal.
  pose proof (λ a j, last_block _ _ _ _ _ o a j Hw Ho Hom Hno Hall) as Honly.
  split; [split|].
  - intros a j. rewrite Hal, Honly. split; [|intros [Ha Hne]; split; [done|tauto]].
    intros [Ha Hnb]. split; [done|]. intros ->. apply Hnb. split; [done|].
    assert (Hp : alive s (page + o) n) by (left; exists pr, r; split; [done|]; split; [done|]; by apply Honly).
    pose proof (alive_pos _ _ _ Hi Ha). pose proof (alive_pos _ _ _ Hi Hp).
    by apply (alive_disjoint s (page + o) j (page + o) n (page + o)); [| | |lia|lia].
  - intros a j x Ha [_ Hnb]%Hal Hx. cbn. apply Hoff. intros Hx'. by eapply Hnb, (block_of_page s pr r page n l a j x).
  - intros p [= <-] q [Oq Hq]%(dropped_owned s Hi pr r _ _ sb w rt rt'); [|done|done].
    by pose proof (ki_unique _ Hi _ _ _ Oq (heap_page _ _ _ _ _ _ Hi Hin Hr Hw)).
Qed.

(** ** Calls that come and go *)

(** A root without a page has room: only calls under way and lost slots are on it. *)
Lemma pageless_room s w rt :
  kinv s → kheaproots (heap s) !! w = Some rt → rt_page rt = 0 → numinuse rt < NPAGEREFS_PER_PAGE.
Proof.
  intros Hi Hrt Hz. rewrite (rw_count _ (ki_root _ Hi _ _ Hrt)). pose proof (ki_few _ Hi) as Hfew.
  set (slots := ((λ x : Z * task, default 0 (snd <$> task_slot x.2)) <$> map_to_list (tasks s)) ++ (snd <$> elements (lost s))).
  assert (Hsub : elements (used rt) ⊆+ slots).
  { apply NoDup_submseteq; [apply NoDup_elements|]. intros k Hk%elem_of_elements.
    apply (ki_slots _ Hi _ _ _ Hrt) in Hk as (o & Ho). unfold slots. rewrite elem_of_app. destruct o as [pr| |t| |]; try done.
    - destruct Ho as (_ & rt' & Hrt' & Hnz & _). by simplify_eq.
    - destruct Ho as (tk & Ht & Hs). left. apply list_elem_of_fmap. exists (t, tk). cbn. rewrite Hs.
      split; [done|by apply elem_of_map_to_list].
    - right. apply list_elem_of_fmap. exists (w, k). split; [done|by apply elem_of_elements]. }
  apply submseteq_length in Hsub. unfold slots in Hsub. rewrite length_app, !length_fmap, length_map_to_list in Hsub.
  change (length (elements (used rt))) with (size (used rt)) in Hsub. change (length (elements (lost s))) with (size (lost s)) in Hsub. lia.

Qed.

(** Only who is where in a call changes. *)
Lemma retask_inv s ts lo :
  kinv s → let s' := KSys (heap s) ts (bigs s) lo in
  (∀ w k, (∃ o, holds s' w k o) ↔ ∃ o, holds s w k o) →
  (∀ w k o o', holds s' w k o → holds s' w k o' → o = o') →
  (∀ o p, owned s' o p → owned s o p) →
  (∀ t tk, ts !! t = Some tk → task_ok (heap s) tk) →
  Z.of_nat (size ts + size lo) < NPAGEREFS_PER_PAGE →
  kinv s' ∧ unchanged s s'.
Proof.
  intros [K1 K2 K3 K4 K5 K6 K7 K8 K9 K10 K11 K12 K13 K14 K15 K16] s' Hh Hu Ho Ht Hf. split; [|by split].
  split; try done.
  - intros w rt k Hw. by rewrite Hh, (K3 w rt k).
  - intros w k o Hk. assert (∃ o, holds s w k o) as (o' & Ho') by (apply Hh; eauto). by eapply K5.
  - intros o p Hp. by eapply K12, Ho.
  - intros o o' p Hp Hp'. by eapply K13; apply Ho.
Qed.

(** A call that has neither a page nor a slot begins, or ends. *)
Lemma search_begins s t sz blk :
  kinv s → tasks s !! t = None → 0 ≤ sz → blocktype sz = Some blk →
  Z.of_nat (size (tasks s) + size (lost s)) + 1 < NPAGEREFS_PER_PAGE →
  let s' := KSys (heap s) (<[t := TSearch sz blk]> (tasks s)) (bigs s) (lost s) in kinv s' ∧ unchanged s s'.
Proof.
  intros Hi Ht Hsz Hb Hf.
  assert (Hh : ∀ w k o, holds (KSys (heap s) (<[t := TSearch sz blk]> (tasks s)) (bigs s) (lost s)) w k o ↔ holds s w k o).
  { intros w k [| |t'| |]; cbn; try done. destruct (decide (t = t')) as [<-|Hne].
    - rewrite lookup_insert_eq, Ht. naive_solver.
    - by rewrite lookup_insert_ne. }
  apply retask_inv; try done.
  - intros w k. split; intros (o & Ho); exists o; by apply Hh.
  - intros w k o o' H1%Hh H2%Hh. by eapply (ki_holder _ Hi).
  - intros [| |t'| |] p; cbn; try done. destruct (decide (t = t')) as [<-|Hne].
    + rewrite lookup_insert_eq. naive_solver.
    + by rewrite lookup_insert_ne.
  - intros t' tk [(<- & <-)|[_ Hk]]%lookup_insert_Some; [done|by eapply (ki_tasks _ Hi)].
  - rewrite map_size_insert_None by done. lia.
Qed.

Lemma search_ends s t sz blk :
  kinv s → tasks s !! t = Some (TSearch sz blk) →
  let s' := KSys (heap s) (delete t (tasks s)) (bigs s) (lost s) in kinv s' ∧ unchanged s s'.
Proof.
  intros Hi Ht.
  assert (Hh : ∀ w k o, holds (KSys (heap s) (delete t (tasks s)) (bigs s) (lost s)) w k o ↔ holds s w k o).
  { intros w k [| |t'| |]; cbn; try done. destruct (decide (t = t')) as [<-|Hne].
    - rewrite lookup_delete_eq, Ht. naive_solver.
    - by rewrite lookup_delete_ne. }
  apply retask_inv; try done.
  - intros w k. split; intros (o & Ho); exists o; by apply Hh.
  - intros w k o o' H1%Hh H2%Hh. by eapply (ki_holder _ Hi).
  - intros [| |t'| |] p; cbn; try done. intros (tk & [_ Hk]%lookup_delete_Some & Hp). eauto.
  - intros t' tk [_ Hk]%lookup_delete_Some. by eapply (ki_tasks _ Hi).
  - pose proof (ki_few _ Hi). pose proof (map_size_delete_Some t (tasks s) (mk_is_Some _ _ Ht)). lia.
Qed.

(** Somebody else has brought the page of the root. *)
Lemma ref_goes_back s t sz blk pg w k rt :
  kinv s → tasks s !! t = Some (TRef sz blk pg w k) → kheaproots (heap s) !! w = Some rt → rt_page rt ≠ 0 →
  let s' := KSys (heap s) (<[t := TBack sz blk pg w k]> (tasks s)) (bigs s) (lost s) in kinv s' ∧ unchanged s s'.
Proof.
  intros Hi Ht Hrt Hnz.
  assert (Hh : ∀ v j o, holds (KSys (heap s) (<[t := TBack sz blk pg w k]> (tasks s)) (bigs s) (lost s)) v j o ↔ holds s v j o).
  { intros v j [| |t'| |]; cbn; try done. destruct (decide (t = t')) as [<-|Hne].
    - rewrite lookup_insert_eq, Ht. naive_solver.
    - by rewrite lookup_insert_ne. }
  apply retask_inv; try done.
  - intros v j. split; intros (o & Ho); exists o; by apply Hh.
  - intros v j o o' H1%Hh H2%Hh. by eapply (ki_holder _ Hi).
  - intros [| |t'| |] p; cbn; try done. destruct (decide (t = t')) as [<-|Hne].
    + rewrite lookup_insert_eq, Ht. naive_solver.
    + by rewrite lookup_insert_ne.
  - intros t' tk [(<- & <-)|[_ Hk]]%lookup_insert_Some; [|by eapply (ki_tasks _ Hi)].
    destruct (ki_tasks _ Hi _ _ Ht). split; [done|]. split; [done|]. eauto.
  - rewrite map_size_insert_Some by eauto. apply Hi.
Qed.

(** The page of the root is not to be had: the slot is lost. *)
Lemma ref_is_lost s t sz blk pg w k :
  kinv s → tasks s !! t = Some (TRef sz blk pg w k) →
  let s' := KSys (heap s) (delete t (tasks s)) (bigs s) ({[(w, k)]} ∪ lost s) in kinv s' ∧ unchanged s s'.
Proof.
  intros Hi Ht. set (s1 := KSys _ _ _ _).
  assert (Hmine : holds s w k (OTask t)) by (by exists (TRef sz blk pg w k)).
  assert (Hh : ∀ v j o, holds s1 v j o ↔ holds s v j o ∧ o ≠ OTask t ∨ o = OLost ∧ v = w ∧ j = k).
  { intros v j [| |t'| |]; cbn; [naive_solver|naive_solver| |naive_solver|].
    - destruct (decide (t = t')) as [<-|Hne].
      + rewrite lookup_delete_eq. naive_solver.
      + rewrite lookup_delete_ne by done. naive_solver.
    - rewrite elem_of_union, elem_of_singleton. naive_solver. }
  apply retask_inv; try done.
  - intros v j. split.
    + intros (o & [[Ho _]|(-> & -> & ->)]%Hh); eauto.
    + intros (o & Ho). destruct (decide (o = OTask t)) as [->|Hne]; [|exists o; apply Hh; by left].
      exists OLost. apply Hh. right. destruct Ho as (tk & Htk & Hsl). rewrite Ht in Htk. injection Htk as <-. by injection Hsl as <- <-.
  - intros v j o o' [[H1 N1]|(-> & -> & ->)]%Hh [[H2 N2]|(-> & E1 & E2)]%Hh; [by eapply (ki_holder _ Hi)| | |done].
    + subst. by rewrite (ki_holder _ Hi _ _ _ _ H1 Hmine) in N1.
    + by rewrite (ki_holder _ Hi _ _ _ _ H2 Hmine) in N2.
  - intros [| |t'| |] p; cbn; try done. intros (tk & [_ Hk]%lookup_delete_Some & Hp). eauto.
  - intros t' tk [_ Hk]%lookup_delete_Some. by eapply (ki_tasks _ Hi).
  - pose proof (ki_few _ Hi). pose proof (map_size_delete_Some t (tasks s) (mk_is_Some _ _ Ht)). pose proof (size_union_alt {[(w, k)]} (lost s)) as Hu.
    rewrite size_singleton in Hu. pose proof (subseteq_size (lost s ∖ {[(w, k)]}) (lost s) ltac:(set_solver)).
    destruct (decide (size (tasks s) = O)) as [Hz|]; [apply map_size_empty_inv in Hz; rewrite Hz in Ht; done|]. lia.
Qed.

(** ** The pool *)

(** The blocks in use, seen by a change of the pool or of the calls only. *)
Lemma pool_unchanged s s' :
  prs (heap s') = prs (heap s) → allbase (heap s') = allbase (heap s) → words (heap s') = words (heap s) →
  bigs s' = bigs s → unchanged s s'.
Proof.
  intros Hp Ha Hw Hb. split.
  - intros a n. unfold alive. by rewrite Hp, Ha, Hw, Hb.
  - intros a n x _ _ _. by rewrite Hw.
Qed.

Section take.
Context (s : ksys) (Hi : kinv s) (t sz blk pg : Z) (w : nat) (k : Z) (rt : kheap_root).
Context (Ht : tasks s !! t = Some (TSearch sz blk)) (Hrt : kheaproots (heap s) !! w = Some rt).
Context (Hk : 0 ≤ k < NPAGEREFS_PER_PAGE) (Hno : k ∉ used rt).
Context (Hfull : ∀ i rt', (i < w)%nat → kheaproots (heap s) !! i = Some rt' → NPAGEREFS_PER_PAGE ≤ numinuse rt').
Context (Hpg : page_ok pg) (Hfresh : ∀ o, ¬ owned s o pg).

Definition taken : ksys :=
  KSys (set_roots (<[w := mark_slot k rt]> (kheaproots (heap s))) (heap s))
    (<[t := TRef sz blk pg w k]> (tasks s)) (bigs s) (lost s).

Lemma taken_pages : rt_page <$> kheaproots (heap taken) = rt_page <$> kheaproots (heap s).
Proof. by eapply insert_same_pages. Qed.

Lemma taken_holds v j o : holds taken v j o ↔ holds s v j o ∨ o = OTask t ∧ v = w ∧ j = k.
Proof.
  destruct o as [q| |t'| |]; cbn [holds]; [|naive_solver| |naive_solver|cbn; naive_solver].
  - rewrite (slot_at_iff (heap s)) by apply taken_pages. cbn. naive_solver.
  - cbn. destruct (decide (t = t')) as [<-|Hne].
    + rewrite lookup_insert_eq, Ht. naive_solver.
    + rewrite lookup_insert_ne by done. naive_solver.
Qed.

Lemma taken_owned o p : owned taken o p ↔ owned s o p ∨ o = OTask t ∧ p = pg.
Proof.
  destruct o as [q|v|t'|b|]; cbn [owned]; [cbn; naive_solver| | |cbn; naive_solver|naive_solver].
  - assert (Hv : rt_page <$> kheaproots (heap taken) !! v = rt_page <$> kheaproots (heap s) !! v).
    { by rewrite <- !list_lookup_fmap, taken_pages. }
    destruct (kheaproots (heap taken) !! v), (kheaproots (heap s) !! v); cbn in Hv; naive_solver.
  - cbn. destruct (decide (t = t')) as [<-|Hne].
    + rewrite lookup_insert_eq, Ht. naive_solver.
    + rewrite lookup_insert_ne by done. naive_solver.
Qed.

Lemma taken_free o : ¬ holds s w k o.
Proof. intros Ho. apply Hno, (ki_slots _ Hi _ _ _ Hrt). eauto. Qed.

Lemma taken_root v rv :
  kheaproots (heap taken) !! v = Some rv → ∃ rv0, kheaproots (heap s) !! v = Some rv0 ∧ root_wf rv ∧ rt_page rv = rt_page rv0 ∧
    (v = w ∧ used rv = {[k]} ∪ used rv0 ∨ v ≠ w ∧ rv = rv0).
Proof.
  destruct (mark_slot_run rt k (ki_root _ Hi _ _ Hrt) Hk Hno) as (Hw & Hu & _).
  intros [(<- & <- & _)|[Hne Hv]]%list_lookup_insert_Some.
  - exists rt. split; [done|]. split; [done|]. split; [done|]. by left.
  - exists rv. split; [done|]. split; [by eapply (ki_root _ Hi)|]. split; [done|]. right. split; [congruence|done].
Qed.

Lemma taken_inv : kinv taken.
Proof.
  destruct Hi as [K1 K2 K3 K4 K5 K6 K7 K8 K9 K10 K11 K12 K13 K14 K15 K16].
  split; try done.
  - cbn. by rewrite length_insert.
  - intros v rv Hv. by destruct (taken_root v rv Hv) as (_ & _ & ? & _).
  - intros v rv j Hv. destruct (taken_root v rv Hv) as (rv0 & Hv0 & _ & _ & Hc). setoid_rewrite taken_holds.
    destruct Hc as [(-> & ->)|(Hne & ->)]; [rewrite elem_of_union, elem_of_singleton|]; rewrite (K3 _ _ _ Hv0); naive_solver.
  - intros v j o o' [H1|(-> & -> & ->)]%taken_holds [H2|(-> & E1 & E2)]%taken_holds; [by eapply K4| | |done].
    + subst. by apply taken_free in H1.
    + by apply taken_free in H2.
  - intros v j o Ho. cbn. rewrite list_lookup_insert_is_Some.
    apply taken_holds in Ho as [Ho|(_ & -> & _)]; [by eapply K5|by rewrite Hrt].
  - intros v v' rv rv' Hv Hv' Hz Hlt. destruct (taken_root _ _ Hv) as (x & Hx & _ & Ex & _), (taken_root _ _ Hv') as (y & Hy & _ & Ey & Hc).
    destruct (K6 v v' x y Hx Hy) as [Hz' Hu']; [congruence|done|]. split; [congruence|].
    destruct Hc as [(-> & _)|(_ & ->)]; [|done]. exfalso.
    pose proof (pageless_room s v x Hi Hx ltac:(congruence)). pose proof (Hfull v x Hlt Hx). lia.
  - intros q Hq. destruct (K8 q Hq) as (v & j & Hv). exists v, j. by rewrite (slot_at_iff (heap s)) by apply taken_pages.
  - intros o p [Ho|(-> & ->)]%taken_owned; [by eapply K12|done].
  - intros o o' p [Ho|(-> & ->)]%taken_owned [Ho'|(-> & E)]%taken_owned; [by eapply K13| | |done].
    + subst. by apply Hfresh in Ho.
    + by apply Hfresh in Ho'.
  - intros t' tk Hk'. cbn in Hk'. apply lookup_insert_Some in Hk' as [(<- & <-)|[_ Hk']]; [by apply (K14 _ _ Ht)|].
    pose proof (K14 _ _ Hk') as Hok. destruct tk as [| |sz' blk' pg' v j]; try done.
    destruct Hok as (H1 & H2 & rv & Hv & Hnz). split; [done|]. split; [done|].
    assert (rt_page <$> kheaproots (heap taken) !! v = Some (rt_page rv)) as Hx.
    { rewrite <- list_lookup_fmap, taken_pages, list_lookup_fmap, Hv. done. }
    apply fmap_Some in Hx as (rv' & Hv' & E). exists rv'. split; [done|congruence].
  - cbn. rewrite map_size_insert_Some by eauto. done.
Qed.

End take.

Section setpage.
Context (s : ksys) (Hi : kinv s) (t sz blk pg : Z) (w : nat) (k va : Z) (rt : kheap_root).
Context (Ht : tasks s !! t = Some (TRef sz blk pg w k)) (Hrt : kheaproots (heap s) !! w = Some rt) (Hz : rt_page rt = 0).
Context (Hva : page_ok va) (Hfresh : ∀ o, ¬ owned s o va).

Definition paged : ksys :=
  KSys (set_roots (<[w := Root va (pagerefs_inuse rt) (numinuse rt)]> (kheaproots (heap s))) (heap s))
    (tasks s) (bigs s) (lost s).

Lemma paged_root v rv :
  kheaproots (heap paged) !! v = Some rv → ∃ rv0, kheaproots (heap s) !! v = Some rv0 ∧ used rv = used rv0 ∧ root_wf rv ∧
    (v = w ∧ rt_page rv = va ∨ v ≠ w ∧ rv = rv0).
Proof.
  intros [(<- & <- & _)|[Hne Hv]]%list_lookup_insert_Some.
  - exists rt. split; [done|]. split; [done|]. destruct (ki_root _ Hi _ _ Hrt) as [R1 R2 R3]. split; [by split|by left].
  - exists rv. split; [done|]. split; [done|]. split; [by eapply (ki_root _ Hi)|]. right. split; [congruence|done].
Qed.

Lemma paged_slot v j q : q ∈ allbase (heap s) → slot_at (heap paged) v j q ↔ slot_at (heap s) v j q.
Proof.
  intros Hq. destruct (ki_placed _ Hi q Hq) as (v0 & j0 & rv0 & Hv0 & Hnz & Hj0 & Hq0). split.
  - intros (rv & Hv & Hnv & Hj & E). cbn in Hv. apply list_lookup_insert_Some in Hv as [(<- & <- & _)|[Hne Hv]]; [|by exists rv].
    exfalso. cbn in E. assert (O1 : owned s (ORoot v0) (rt_page rv0)) by (by exists rv0).
    pose proof (ki_pages _ Hi _ _ O1) as [P1 _]. destruct Hva as [P2 _].
    assert (rt_page rv0 = va) as Ev. { unfold PAGE_SIZE, NPAGEREFS_PER_PAGE in *. Z.to_euclidean_division_equations. lia. }
    rewrite Ev in O1. by apply Hfresh in O1.
  - intros (rv & Hv & Hnv & Hj & E). exists rv. split; [|done]. cbn. rewrite list_lookup_insert_ne; [done|]. intros <-. by simplify_eq.
Qed.

Lemma paged_holds v j o : holds paged v j o ↔ holds s v j o.
Proof.
  destruct o as [q| | | |]; cbn [holds]; try done. cbn [paged heap set_roots allbase]. split; intros [Hq Hs]; (split; [done|]).
  - by apply (paged_slot v j q Hq).
  - by apply (paged_slot v j q Hq).
Qed.

Lemma paged_owned o p : owned paged o p ↔ owned s o p ∨ o = ORoot w ∧ p = va.
Proof.
  destruct o as [q|v| | |]; cbn [owned]; try (cbn; naive_solver). cbn. split.
  - intros (rv & [(<- & <- & _)|[Hne Hv]]%list_lookup_insert_Some & <- & Hnz); [by right|left; eauto].
  - intros [(rv & Hv & E & Hp)|[[= ->] ->]].
    + exists rv. split; [|done]. rewrite list_lookup_insert_ne; [done|]. intros <-. rewrite Hrt in Hv. injection Hv as <-. congruence.
    + eexists. rewrite list_lookup_insert_eq by (by eapply lookup_lt_Some). split; [done|]. split; [done|].
      destruct Hva. lia.
Qed.

Lemma paged_inv : kinv paged.
Proof.
  assert (Hnz : va ≠ 0) by (destruct Hva; lia).
  destruct Hi as [K1 K2 K3 K4 K5 K6 K7 K8 K9 K10 K11 K12 K13 K14 K15 K16].
  split; try done.
  - cbn. by rewrite length_insert.
  - intros v rv Hv. by destruct (paged_root v rv Hv) as (_ & _ & _ & ? & _).
  - intros v rv j Hv. destruct (paged_root v rv Hv) as (rv0 & Hv0 & -> & _). setoid_rewrite paged_holds. by apply K3.
  - intros v j o o' H1%paged_holds H2%paged_holds. by eapply K4.
  - intros v j o Ho%paged_holds. cbn. rewrite list_lookup_insert_is_Some. by eapply K5.
  - intros v v' rv rv' Hv Hv' Hzv Hlt. destruct (paged_root _ _ Hv) as (x & Hx & _ & _ & [(-> & E)|(_ & ->)]); [congruence|].
    destruct (paged_root _ _ Hv') as (y & Hy & Uy & _ & Hc). destruct (K6 v v' x y Hx Hy) as [Hz' Hu']; [done|done|].
    split; [|congruence]. destruct Hc as [(-> & _)|(_ & ->)]; [|done]. exfalso.
    assert (k ∈ used y) by (apply (K3 _ _ _ Hy); exists (OTask t); by exists (TRef sz blk pg w k)). set_solver.
  - intros q Hq. destruct (K8 q Hq) as (v & j & Hv). exists v, j. by apply paged_slot.
  - intros o p [Ho|(-> & ->)]%paged_owned; [by eapply K12|done].
  - intros o o' p [Ho|(-> & ->)]%paged_owned [Ho'|(-> & E)]%paged_owned; [by eapply K13| | |done].
    + subst. by apply Hfresh in Ho.
    + by apply Hfresh in Ho'.
  - intros t' tk Hk'. pose proof (K14 _ _ Hk') as Hok. destruct tk as [| |sz' blk' pg' v j]; try done.
    destruct Hok as (H1 & H2 & rv & Hv & Hnv). split; [done|]. split; [done|]. exists rv. split; [|done].
    cbn. rewrite list_lookup_insert_ne; [done|]. intros <-. congruence.
Qed.

End setpage.

(** ** A new page *)

Section add.
Context (s : ksys) (Hi : kinv s) (t : Z) (tk : task) (pg : Z) (w : nat) (k : Z) (rt : kheap_root).
Context (Ht : tasks s !! t = Some tk) (Htp : task_page tk = Some pg) (Hts : task_slot tk = Some (w, k)).
Context (Hrt : kheaproots (heap s) !! w = Some rt) (Hnz : rt_page rt ≠ 0).
Context (r : pageref) (m : Z → Z) (n : Z) (l sb : list Z) (o : Z).
Context (Hw : page_wf m r pg n l) (Hm : ∀ x, ¬ pg ≤ x < pg + PAGE_SIZE → m x = words (heap s) x).
Context (Hsb : arr_get (sizebases (heap s)) (PR_BLOCKTYPE r) = Some sb).
Context (Hall : ∀ x, 0 ≤ x < PAGE_SIZE → x mod n = 0 → x ∉ l ↔ x = o).
Context (Ho : 0 ≤ o < PAGE_SIZE) (Hom : o mod n = 0) (Hlen : zlen l < PAGE_SIZE / n).

Definition new_ref : Z := rt_page rt + 16 * k.
Definition added : ksys :=
  KSys (Kheap (kheaproots (heap s)) (<[new_ref := r]> (prs (heap s)))
          (arr_set (sizebases (heap s)) (PR_BLOCKTYPE r) (new_ref :: sb)) (new_ref :: allbase (heap s)) m)
    (delete t (tasks s)) (bigs s) (lost s).

Lemma new_mine : holds s w k (OTask t).
Proof. by exists tk. Qed.

Lemma new_page_mine : owned s (OTask t) pg.
Proof. by exists tk. Qed.

Lemma new_slot : slot_at (heap s) w k new_ref.
Proof.
  assert (k ∈ used rt) as [Hk _]%elem_used by (apply (ki_slots _ Hi _ _ _ Hrt); exists (OTask t); apply new_mine).
  by exists rt.
Qed.

Lemma new_fresh : new_ref ∉ allbase (heap s).
Proof. intros Hin. by pose proof (ki_holder _ Hi w k _ _ (conj Hin new_slot : holds s w k (OHeap new_ref)) new_mine). Qed.

Lemma new_other q : q ∈ allbase (heap s) → prs (heap added) !! q = prs (heap s) !! q.
Proof. intros Hq. cbn. rewrite lookup_insert_ne; [done|]. intros <-. by apply new_fresh. Qed.

Lemma added_holds v j q : holds added v j q ↔ holds s v j q ∧ q ≠ OTask t ∨ q = OHeap new_ref ∧ v = w ∧ j = k.
Proof.
  destruct q as [q| |t'| |]; cbn [holds]; [|naive_solver| |naive_solver|cbn; naive_solver].
  - change (slot_at (heap added) v j q) with (slot_at (heap s) v j q). cbn. rewrite elem_of_cons. split.
    + intros [[->|Hq] Hs]; [right|by left]. destruct (slot_inj s _ _ _ _ _ Hi Hs new_slot) as [-> ->]. done.
    + intros [[[Hq Hs] _]|([= ->] & -> & ->)]; [by split; [right|]|]. split; [by left|apply new_slot].
  - cbn. destruct (decide (t = t')) as [<-|Hne].
    + rewrite lookup_delete_eq. naive_solver.
    + rewrite lookup_delete_ne by done. naive_solver.
Qed.

Lemma added_owned q p : owned added q p ↔ owned s q p ∧ q ≠ OTask t ∨ q = OHeap new_ref ∧ p = pg.
Proof.
  destruct q as [q| |t'| |]; cbn [owned]; [|cbn; naive_solver| |cbn; naive_solver|naive_solver].
  - pose proof (pw_addr _ _ _ _ _ Hw) as Hpa. cbn [heap added allbase]. rewrite elem_of_cons. split.
    + intros [[->|Hq] (rq & Hrq & E)].
      * cbn in Hrq. rewrite lookup_insert_eq in Hrq. right. split; [done|]. congruence.
      * rewrite new_other in Hrq by done. left. split; [|done]. split; [done|]. eauto.
    + intros [[[Hq Hex] _]|[[= ->] ->]].
      * rewrite new_other by done. split; [by right|done].
      * split; [by left|]. exists r. cbn. by rewrite lookup_insert_eq.
  - cbn. destruct (decide (t = t')) as [<-|Hne].
    + rewrite lookup_delete_eq. naive_solver.
    + rewrite lookup_delete_ne by done. naive_solver.
Qed.

(** What is on the pages of others does not change. *)
Lemma added_off q rq x :
  q ∈ allbase (heap s) → prs (heap s) !! q = Some rq → PR_PAGEADDR rq ≤ x < PR_PAGEADDR rq + PAGE_SIZE →
  m x = words (heap s) x.
Proof.
  intros Hq Hrq Hx. apply Hm. intros Hx'. assert (Oq : owned s (OHeap q) (PR_PAGEADDR rq)) by (split; [done|eauto]).
  assert (PR_PAGEADDR rq = pg) as E.
  { eapply (same_page _ _ x); [apply (ki_pages _ Hi _ _ Oq)|apply (ki_pages _ Hi _ _ new_page_mine)|done|done]. }
  rewrite E in Oq. by pose proof (ki_unique _ Hi _ _ _ Oq new_page_mine).
Qed.

Lemma added_sized blk sb' :
  arr_get (sizebases (heap added)) blk = Some sb' → NoDup sb' ∧
  ∀ q, q ∈ sb' ↔ q ∈ allbase (heap added) ∧ ∃ rq, prs (heap added) !! q = Some rq ∧ PR_BLOCKTYPE rq = blk.
Proof.
  intros Hsb'. cbn in Hsb'. rewrite arr_get_set in Hsb' by (by eapply arr_get_range).
  assert (Hnew : prs (heap added) !! new_ref = Some r) by (cbn; by rewrite lookup_insert_eq).
  change (allbase (heap added)) with (new_ref :: allbase (heap s)). case_decide as Hb.
  - injection Hsb' as <-. destruct (ki_sized _ Hi _ _ Hsb) as [Hnd Hiff]. split.
    + apply NoDup_cons. split; [|done]. intros [Hin _]%Hiff. by apply new_fresh.
    + intros q. rewrite !elem_of_cons, Hiff, <- Hb. split.
      * intros [->|[Hq Hex]]; [split; [by left|eauto]|]. rewrite new_other by done. split; [by right|done].
      * intros [[->|Hq] Hex]; [by left|]. rewrite new_other in Hex by done. by right.
  - destruct (ki_sized _ Hi _ _ Hsb') as [Hnd Hiff]. split; [done|]. intros q. rewrite elem_of_cons, Hiff. split.
    + intros [Hq Hex]. rewrite new_other by done. split; [by right|done].
    + intros [[->|Hq] (rq & Hrq & E)]; [rewrite Hnew in Hrq; congruence|]. rewrite new_other in Hrq by done. eauto.
Qed.

Lemma page_added_inv : kinv added.
Proof.
  pose proof new_mine as Hmine. pose proof new_page_mine as Hpmine.
  destruct Hi as [K1 K2 K3 K4 K5 K6 K7 K8 K9 K10 K11 K12 K13 K14 K15 K16].
  split; try done.
  - intros v rv j Hv. rewrite (K3 v rv j Hv). split.
    + intros (q & Hq). destruct (decide (q = OTask t)) as [->|Hne]; [|exists q; apply added_holds; by left].
      exists (OHeap new_ref). apply added_holds. right. destruct Hq as (tk' & Ht' & Hs'). naive_solver.
    + intros (q & [[Hq _]|(-> & -> & ->)]%added_holds); eauto.
  - intros v j q q' [[H1 N1]|(-> & -> & ->)]%added_holds [[H2 N2]|(-> & E1 & E2)]%added_holds; [by eapply K4| | |done].
    + subst. by pose proof (K4 _ _ _ _ H1 Hmine).
    + by pose proof (K4 _ _ _ _ H2 Hmine).
  - intros v j q [[Hq _]|(_ & -> & _)]%added_holds; [by eapply K5|by exists rt].
  - apply NoDup_cons. split; [apply new_fresh|done].
  - intros q [->|Hq]%elem_of_cons; [|by apply K8]. exists w, k. apply new_slot.
  - intros q [->|Hq]%elem_of_cons.
    + exists r, pg, n, l. cbn. rewrite lookup_insert_eq. done.
    + destruct (K9 q Hq) as (rq & pq & nq & lq & Hrq & Hwq & Hlq). exists rq, pq, nq, lq. rewrite new_other by done.
      split; [done|]. split; [|done]. eapply page_wf_off; [done|]. intros x Hx.
      eapply (added_off q rq); [done|done|]. by rewrite (pw_addr _ _ _ _ _ Hwq).
  - cbn. by rewrite length_arr_set.
  - apply added_sized.
  - intros q p [[Hq _]|(-> & ->)]%added_owned; [by eapply K12|by apply (pw_page _ _ _ _ _ Hw)].
  - intros q q' p [[H1 N1]|(-> & ->)]%added_owned [[H2 N2]|(-> & E1)]%added_owned; [by eapply K13| | |done].
    + subst. by pose proof (K13 _ _ _ H1 Hpmine).
    + by pose proof (K13 _ _ _ H2 Hpmine).
  - intros t' tk' Hk'. cbn in Hk'. apply lookup_delete_Some in Hk' as [_ Hk']. by eapply K14.
  - cbn. pose proof (map_size_delete_Some t (tasks s) (mk_is_Some _ _ Ht)). lia.
Qed.

Lemma added_gains : gains s added (pg + o) n.
Proof.
  apply gains_intro; [apply page_added_inv| | |].
  - intros a j.
    assert (Hnew : block_on m r a j ↔ a = pg + o ∧ j = n).
    { rewrite (block_on_iff _ _ _ _ _ _ _ Hw). split.
      - intros (-> & Ha & Hmod & Hnl). apply Hall in Hnl; [|lia|done]. split; [lia|done].
      - intros [-> ->]. replace (pg + o - pg) with o by lia. split; [done|]. split; [lia|]. split; [done|by apply Hall]. }
    rewrite <- Hnew. unfold alive. cbn [heap added allbase bigs words]. split.
    + intros [(q & rq & [->|Hq]%elem_of_cons & Hrq & Hb)|Hb]; [| |left; by right].
      * cbn in Hrq. rewrite lookup_insert_eq in Hrq. injection Hrq as <-. by right.
      * rewrite new_other in Hrq by done. left. left. exists q, rq. split; [done|]. split; [done|].
        eapply block_on_off; [done| |exact Hb]. intros x Hx. symmetry. by eapply added_off.
    + intros [[(q & rq & Hq & Hrq & Hb)|Hb]|Hb]; [left|by right|left].
      * exists q, rq. rewrite new_other by done. split; [by right|]. split; [done|].
        eapply block_on_off; [done| |exact Hb]. intros x Hx. by eapply added_off.
      * exists new_ref, r. cbn. rewrite lookup_insert_eq. split; [by left|done].
  - intros j Ha. pose proof (alive_pos _ _ _ Hi Ha).
    destruct (alive_owner s _ _ (pg + o) Hi Ha ltac:(lia)) as (q & p & Oq & Rq & Aq).
    assert (p = pg) as -> by (eapply (same_page _ _ (pg + o)); [apply (ki_pages _ Hi _ _ Oq)|apply (ki_pages _ Hi _ _ new_page_mine)|lia|lia]).
    by rewrite (ki_unique _ Hi _ _ _ Oq new_page_mine) in Aq.
  - intros a j x Ha _ Hx. cbn. apply Hm. intros Hx'.
    destruct (alive_owner s _ _ x Hi Ha Hx) as (q & p & Oq & Rq & Aq).
    assert (p = pg) as -> by (eapply (same_page _ _ x); [apply (ki_pages _ Hi _ _ Oq)|apply (ki_pages _ Hi _ _ new_page_mine)|lia|lia]).
    by rewrite (ki_unique _ Hi _ _ _ Oq new_page_mine) in Aq.
Qed.

End add.

Lemma blocktype_spec sz blk : 0 ≤ sz → blocktype sz = Some blk → ∃ n, arr_get sizes blk = Some n ∧ sz ≤ n.
Proof.
  unfold blocktype. cbn [blocktype_from sizes]. intros Hsz.
  repeat case_match; intros [= <-]; eexists; (split; [reflexivity|]); by apply Z.leb_le.
Qed.

(** The end of [subpage_kmalloc]: the block is the last one of the new page. *)
Lemma finish_gains s t tk sz blk pg w k rt :
  kinv s → tasks s !! t = Some tk → task_page tk = Some pg → task_slot tk = Some (w, k) →
  0 ≤ sz → blocktype sz = Some blk → kheaproots (heap s) !! w = Some rt → rt_page rt ≠ 0 →
  ∃ p n s', finish t blk pg w k s = Some (p, s') ∧ kinv s' ∧ p ≠ 0 ∧ sz ≤ n ∧ gains s s' p n.
Proof.
  intros Hi Ht Htp Hts Hsz Hb Hrt Hnz. destruct (blocktype_spec sz blk Hsz Hb) as (n & Hn & Hle).
  destruct (size_facts _ _ Hn) as (Hblk & Hnr & _ & _ & Hq & Hd).
  assert (Hpg : page_ok pg) by (eapply (ki_pages _ Hi (OTask t)); by exists tk).
  destruct (arr_get_ex (sizebases (heap s)) blk) as [sb Hsb]; [by rewrite (ki_sizes _ Hi), Z2Nat.id|].
  destruct (new_page_run (heap s) (rt_page rt + 16 * k) pg blk n sb Hpg Hn Hsb) as (r & m & Hrun & Hw & Hrb & Hout).
  set (c := Z.to_nat (PAGE_SIZE / n)) in *. assert (Hc : Z.of_nat c = PAGE_SIZE / n) by lia.
  destruct c as [|c'] eqn:Ec; [lia|]. cbn [offs_down] in Hw.
  unfold finish. rewrite Hrt. cbn [mbind option_bind]. rewrite Hrun. cbn [mbind option_bind].
  match goal with |- context [doalloc _ ?h] => destruct (doalloc_run h (rt_page rt + 16 * k) r pg n (Z.of_nat c' * n) (offs_down c' n)) as (r' & Hda & Hw' & Hpab) end;
    [cbn; by rewrite lookup_insert_eq|exact Hw|].
  rewrite Hda. cbn [mbind option_bind]. cbn [words] in Hw'.
  pose proof (pw_offs _ _ _ _ _ Hw) as Hoff. apply Forall_cons in Hoff as [[Ho Hom] _].
  assert (Hrb' : PR_BLOCKTYPE r' = blk) by (unfold PR_BLOCKTYPE in *; congruence).
  eexists (pg + Z.of_nat c' * n), n, (added s t k rt r' m sb).
  split.
  { unfold added, set_pr, new_ref. cbn. rewrite insert_insert_eq, Hrb'. done. }
  assert (Hm : ∀ x, ¬ pg ≤ x < pg + PAGE_SIZE → m x = words (heap s) x) by (intros x Hx; apply Hout; lia).
  rewrite <- Hrb' in Hsb.
  assert (Hlen : zlen (offs_down c' n) < PAGE_SIZE / n) by (rewrite length_offs_down; lia).
  assert (Hall : ∀ x, 0 ≤ x < PAGE_SIZE → x mod n = 0 → x ∉ offs_down c' n ↔ x = Z.of_nat c' * n).
  { intros x Hx Hxm. rewrite offs_down_elem. split.
    - intros Hno. destruct (decide (x = Z.of_nat c' * n)) as [|Hne]; [done|]. exfalso. apply Hno. exists (x / n).
      assert (x = x / n * n) by (pose proof (Z_div_mod_eq_full x n); lia). split; [|done].
      rewrite <- Hc in Hd. set (q := x / n) in *. assert (q ≠ Z.of_nat c') by congruence. nia.
    - intros -> (i & Hi' & E). nia. }
  split; [by eapply (page_added_inv s Hi t tk pg w k rt Ht Htp Hts Hrt Hnz r' m n (offs_down c' n) sb)|].
  split; [destruct Hpg; lia|]. split; [done|].
  by eapply (added_gains s Hi t tk pg w k rt Ht Htp Hts Hrt Hnz r' m n (offs_down c' n) sb).
Qed.
