(* ===== verification/Kruns.v ===== *)
(** * Kruns: every run of the kernel heap

    The steps of Kmalloc.v in any order: calls of [kmalloc] and [kfree] interleaved at
    the points where the spinlock is given up, with [alloc_kpages] that may
    fail each time, and writes to the blocks in between. *)

From Stdlib Require Import ZArith Lia.
From stdpp Require Import base gmap list list_numbers sets fin_sets.
From S2P Require Import Prelude Types Kmalloc Kheap.
Set Default Goal Selector "!".
Open Scope Z_scope.

(** ** Blocks of whole pages *)

Lemma rebig_inv s b :
  kinv s → let s' := KSys (heap s) (tasks s) b (lost s) in
  (∀ o p, owned s' o p → page_ok p) → (∀ o o' p, owned s' o p → owned s' o' p → o = o') →
  (∀ a n, b !! a = Some n → 0 < n) → kinv s'.
Proof. intros [K1 K2 K3 K4 K5 K6 K7 K8 K9 K10 K11 K12 K13 K14 K15 K16] s' Ho Hu Hb. by split. Qed.

Lemma big_gains s va n :
  kinv s → 0 < n → fresh_pages s va n →
  let s' := KSys (heap s) (tasks s) (<[va := n]> (bigs s)) (lost s) in
  kinv s' ∧ gains s s' va (n * PAGE_SIZE).
Proof.
  intros Hi Hn Hf s'.
  assert (Hnone : bigs s !! va = None).
  { apply eq_None_not_Some. intros [k Hk]. destruct (Hf 0 ltac:(lia)) as [_ Hno]. apply (Hno (OBig va)).
    exists k, 0. pose proof (ki_bigs _ Hi _ _ Hk). split; [done|]. split; [lia|done]. }
  assert (Hown : ∀ o p, owned s' o p ↔ owned s o p ∨ o = OBig va ∧ ∃ i, 0 ≤ i < n ∧ p = va + i * PAGE_SIZE).
  { intros [| | |c|] p; cbn [owned]; [cbn; naive_solver|cbn; naive_solver|cbn; naive_solver| |naive_solver]. cbn.
    destruct (decide (va = c)) as [<-|Hne].
    - rewrite lookup_insert_eq, Hnone. naive_solver.
    - rewrite lookup_insert_ne by done. naive_solver. }
  assert (Hi' : kinv s').
  { apply rebig_inv; [done| | |].
    - intros o p [Ho|(-> & i & Hr & ->)]%Hown; [by eapply (ki_pages _ Hi)|by apply Hf].
    - intros o o' p [Ho|(-> & i & Hr & ->)]%Hown [Ho'|(-> & i' & Hr' & E)]%Hown; [by eapply (ki_unique _ Hi)| | |done].
      + subst. by apply (Hf i' Hr') in Ho.
      + by apply (Hf i Hr) in Ho'.
    - intros a k [(<- & <-)|[_ Hk]]%lookup_insert_Some; [done|by eapply (ki_bigs _ Hi)]. }
  split; [done|]. apply gains_intro; [done| | |done].
  - intros a m. unfold alive. cbn. destruct (decide (va = a)) as [<-|Hne].
    + rewrite lookup_insert_eq, Hnone. naive_solver.
    + rewrite lookup_insert_ne by done. naive_solver.
  - intros m Ha. destruct (Hf 0 ltac:(lia)) as [[Hal _] Hno]. replace (va + 0 * PAGE_SIZE) with va in * by lia.
    destruct (alive_owner s va m va Hi Ha) as (o & p & Oo & Rp & _); [pose proof (alive_pos _ _ _ Hi Ha); lia|].
    assert (p = va) as -> by (eapply (same_page _ _ va); [apply (ki_pages _ Hi _ _ Oo)|done|done|unfold PAGE_SIZE; lia]).
    by apply Hno in Oo.
Qed.

Lemma big_loses s ptr k :
  kinv s → bigs s !! ptr = Some k →
  let s' := KSys (heap s) (tasks s) (delete ptr (bigs s)) (lost s) in kinv s' ∧ loses s s' ptr.
Proof.
  intros Hi Hk s'.
  assert (Hown : ∀ o p, owned s' o p → owned s o p).
  { intros [| | |c|] p; try done. cbn. intros (n & i & [_ Hn]%lookup_delete_Some & H). exists n, i. done. }
  split.
  - apply rebig_inv; [done| | |].
    + intros o p Ho. by eapply (ki_pages _ Hi), Hown.
    + intros o o' p Ho Ho'. by eapply (ki_unique _ Hi); apply Hown.
    + intros a n [_ Hn]%lookup_delete_Some. by eapply (ki_bigs _ Hi).
  - split; [|by intros a m x _ _ _].
    intros a m. unfold alive. cbn. destruct (decide (ptr = a)) as [<-|Hne].
    + rewrite lookup_delete_eq. split; [|naive_solver]. intros [(pr & r & Hin & Hr & pg & l & o & Hw & Ho & _ & E & _)|(? & [=] & _)].
      exfalso. eapply (big_apart s (OHeap pr) pg ptr k Hi); [by eapply heap_page|done|done|lia].
    + rewrite lookup_delete_ne by done. naive_solver.
Qed.

(** [kfree] finds no page of the heap for such a block. *)
Lemma subpage_kfree_big s ptr k :
  kinv s → bigs s !! ptr = Some k → subpage_kfree ptr (heap s) = Some (false, None, heap s).
Proof.
  intros Hi Hk. destruct (find_owner_run (heap s) (allbase (heap s)) ptr) as (x & Hfind & Hx).
  { intros q Hq. destruct (ki_page _ Hi q Hq) as (rq & pq & nq & lq & Hrq & Hwq & _). exists rq. split; [done|].
    by apply (pw_blk _ _ _ _ _ Hwq). }
  unfold subpage_kfree. rewrite Hfind. destruct x as [[q rq]|]; [|done]. exfalso.
  destruct Hx as (Hq & Hrq & Hr). eapply (big_apart s (OHeap q) _ ptr k Hi); [|done|done|exact Hr].
  split; [done|]. eauto.
Qed.

(** ** Writes of the owners *)

Lemma write_inv s a x b n :
  kinv s → alive s b n → b ≤ a < b + n →
  let s' := KSys (set_words (put_word a x (words (heap s))) (heap s)) (tasks s) (bigs s) (lost s) in
  kinv s' ∧ ∀ c m, alive s' c m ↔ alive s c m.
Proof.
  intros Hi Hb Ha s'.
  assert (Hfree : ∀ q rq pg nq lq, q ∈ allbase (heap s) → prs (heap s) !! q = Some rq → page_wf (words (heap s)) rq pg nq lq →
    page_wf (words (heap s')) rq pg nq lq).
  { intros q rq pg nq lq Hq Hrq Hw. apply (page_wf_ext (words (heap s))); [done|]. intros o Ho. cbn. unfold put_word.
    rewrite decide_False; [done|]. intros E.
    pose proof (pw_offs _ _ _ _ _ Hw) as Hoff. rewrite Forall_forall in Hoff. destruct (Hoff o Ho) as [Hr Hmod].
    destruct (alive_owner s b n a Hi Hb Ha) as (ow & p & Oo & Rp & Ao).
    assert (p = pg) as -> by (eapply (same_page _ _ a); [apply (ki_pages _ Hi _ _ Oo)|apply (pw_page _ _ _ _ _ Hw)|done|lia]).
    pose proof (ki_unique _ Hi _ _ _ Oo (heap_page _ _ _ _ _ _ Hi Hq Hrq Hw)) as ->.
    destruct Ao as (r' & l' & off & Hr' & Hw' & Hor & Hom & ->). rewrite Hrq in Hr'. injection Hr' as <-.
    destruct (page_wf_fun _ _ _ _ _ _ _ _ Hw Hw') as (_ & <- & <-).
    assert (off = o) as ->.
    { destruct (Z.lt_trichotomy off o) as [Hlt|[->|Hlt]]; [|done|lia].
      pose proof (pw_blk _ _ _ _ _ Hw) as [_ Hs]. destruct (size_facts _ _ Hs) as (_ & Hn & _).
      pose proof (offs_apart nq off o ltac:(lia) Hom Hmod Hlt). lia. }
    by eapply (free_not_alive s q rq pg nq lq o nq). }
  split.
  - destruct Hi as [K1 K2 K3 K4 K5 K6 K7 K8 K9 K10 K11 K12 K13 K14 K15 K16]. split; try done.
    intros q Hq. destruct (K9 q Hq) as (rq & pq & nq & lq & Hrq & Hwq & Hlq). exists rq, pq, nq, lq.
    split; [done|]. split; [by eapply Hfree|done].
  - intros c m. unfold alive. apply or_iff_compat_r. split; intros (q & rq & Hq & Hrq & pg & l & o & Hw & H); exists q, rq; (split; [done|]; split; [done|]).
    + destruct (ki_page _ Hi q Hq) as (rq' & pg' & nq & lq & Hrq' & Hw0 & _). cbn in Hrq. rewrite Hrq in Hrq'. injection Hrq' as <-.
      pose proof (Hfree q rq pg' nq lq Hq Hrq Hw0) as Hw1. destruct (page_wf_fun _ _ _ _ _ _ _ _ Hw Hw1) as (<- & <- & <-).
      by exists pg, l, o.
    + exists pg, l, o. split; [by eapply Hfree|done].
Qed.

(** ** What a step promises *)

Definition asked (tk : task) : Z := match tk with TSearch sz _ | TRef sz _ _ _ _ | TBack sz _ _ _ _ => sz end.

Definition npages (sz : Z) : Z := (sz + PAGE_SIZE - 1) / PAGE_SIZE.

(** What the callers and [alloc_kpages] owe: the size is one of a small block, or of whole pages
    without wrapping; a page handed out is nobody's; what is freed or written is in use.  At most 255
    calls are under way at a time, the slots lost before them included. *)
Definition kenabled (a : kact) (s : ksys) : Prop :=
  match a with
  | AMalloc t sz => tasks s !! t = None ∧ 0 ≤ sz < LARGEST_SUBPAGE_SIZE ∧
      Z.of_nat (size (tasks s) + size (lost s)) + 1 < NPAGEREFS_PER_PAGE
  | APage t va => (∃ sz blk, tasks s !! t = Some (TSearch sz blk)) ∧ (va = 0 ∨ fresh_pages s va 1)
  | ARefPage t va => (∃ sz blk pg w k, tasks s !! t = Some (TRef sz blk pg w k)) ∧ (va = 0 ∨ fresh_pages s va 1)
  | AResume t => ∃ sz blk pg w k, tasks s !! t = Some (TBack sz blk pg w k)
  | ABig sz va => LARGEST_SUBPAGE_SIZE ≤ sz ∧ sz + PAGE_SIZE - 1 < 2 ^ 32 ∧ (va = 0 ∨ fresh_pages s va (npages sz))
  | AFree ptr => ptr = 0 ∨ ∃ n, alive s ptr n
  | AWrite a _ => ∃ b n, alive s b n ∧ b ≤ a < b + n
  end.

(** No memory: [alloc_kpages] failed, or all [pageref]s are taken. *)
Definition no_memory (va : Z) (s : ksys) : Prop :=
  va = 0 ∨ Forall (λ rt, NPAGEREFS_PER_PAGE ≤ numinuse rt) (kheaproots (heap s)).

(** A [kmalloc] of [sz] bytes goes on, fails, or returns a new block of at least [sz] bytes. *)
Inductive allocates (va sz : Z) (s s' : ksys) : option Z → Prop :=
  | goes_on : unchanged s s' → allocates va sz s s' None
  | out_of_memory : no_memory va s → unchanged s s' → allocates va sz s s' (Some 0)
  | new_block p n : p ≠ 0 → sz ≤ n → gains s s' p n → allocates va sz s s' (Some p).

Definition kresult (a : kact) (s : ksys) (v : option Z) (s' : ksys) : Prop :=
  match a with
  | AMalloc _ sz => allocates 1 sz s s' v
  | APage t va | ARefPage t va => ∃ tk, tasks s !! t = Some tk ∧ allocates va (asked tk) s s' v
  | AResume t => ∃ tk p, tasks s !! t = Some tk ∧ v = Some p ∧ allocates 1 (asked tk) s s' v
  | ABig sz va => allocates va sz s s' v ∧ v ≠ None
  | AFree ptr => v = Some 0 ∧ if decide (ptr = 0) then s' = s else loses s s' ptr
  | AWrite a x => v = None ∧ (∀ c m, alive s' c m ↔ alive s c m) ∧
      ∀ b, words (heap s') b = if decide (b = a) then x else words (heap s) b
  end.

Definition steps_well (a : kact) (s : ksys) : Prop :=
  ∃ v s', kstep a s = Some (v, s') ∧ kinv s' ∧ kresult a s v s'.

Lemma blocktype_small sz : sz < LARGEST_SUBPAGE_SIZE → is_Some (blocktype sz).
Proof.
  unfold LARGEST_SUBPAGE_SIZE. intros H. unfold blocktype. cbn [blocktype_from sizes].
  repeat (case_match; [by eexists|]). zbool. lia.
Qed.

Lemma malloc_step s t sz : kinv s → kenabled (AMalloc t sz) s → steps_well (AMalloc t sz) s.
Proof.
  intros Hi (Ht & Hsz & Hfew). destruct (blocktype_small sz ltac:(lia)) as [blk Hb].
  destruct (blocktype_spec sz blk ltac:(lia) Hb) as (n & Hn & Hle). destruct (size_facts _ _ Hn) as (Hblk & _).
  destruct (arr_get_ex (sizebases (heap s)) blk) as [sb Hsb]; [by rewrite (ki_sizes _ Hi), Z2Nat.id|].
  destruct (ki_sized _ Hi _ _ Hsb) as [_ Hiff].
  destruct (find_page_run (heap s) sb blk) as (o & Hfind & Ho).
  { intros pr [Hin Hex]%Hiff. done. }
  unfold steps_well, kstep. rewrite (proj2 (Z.leb_gt _ _)) by lia. rewrite Hb. cbn [mbind option_bind]. rewrite Hsb. cbn [mbind option_bind].
  rewrite Hfind. cbn [mbind option_bind]. destruct o as [pr|].
  - destruct Ho as (Hpr & r & Hr & Hfree). apply Hiff in Hpr as (Hin & r' & Hr' & Hrb). rewrite Hr in Hr'. injection Hr' as <-.
    destruct (ki_page _ Hi pr Hin) as (r' & pg & n' & l & Hr' & Hw & _). rewrite Hr in Hr'. injection Hr' as <-.
    destruct l as [|o l]; [rewrite (pw_nfree _ _ _ _ _ Hw) in Hfree; done|].
    assert (n' = n) as -> by (destruct (pw_blk _ _ _ _ _ Hw) as [_ Hs]; congruence).
    destruct (doalloc_gains s pr r pg n o l Hi Hin Hr Hw) as (h & -> & Hi' & Hg). cbn.
    eexists _, _. split; [done|]. split; [done|]. eapply new_block; [|exact Hle|exact Hg].
    pose proof (pw_offs _ _ _ _ _ Hw) as Hoff. apply Forall_cons in Hoff as [[Hor _] _]. destruct (pw_page _ _ _ _ _ Hw). lia.
  - destruct (search_begins s t sz blk Hi Ht ltac:(lia) Hb Hfew) as [Hi' Hu].
    eexists _, _. split; [done|]. split; [done|]. by apply goes_on.
Qed.

(** Blocks gained after a step that changed none. *)
Lemma gains_after s s1 s2 p n : unchanged s s1 → gains s1 s2 p n → gains s s2 p n.
Proof.
  intros [U1 U2] [G1 G2 G3]. split.
  - intros a m. by rewrite G1, U1.
  - intros a m x Ha Hx. eapply G2; [by apply U1|done].
  - intros a m x Ha Ha2 Hx. assert (alive s1 a m) by (by apply U1).
    rewrite (G3 a m x) by done. by apply (U2 a m).
Qed.

Lemma finish_step s s1 t tk sz blk pg w k rt va :
  unchanged s s1 → kinv s1 → tasks s1 !! t = Some tk → task_page tk = Some pg → task_slot tk = Some (w, k) →
  0 ≤ sz → blocktype sz = Some blk → kheaproots (heap s1) !! w = Some rt → rt_page rt ≠ 0 →
  ∃ p s', ('(p, s) ← finish t blk pg w k s1; Some (Some p, s)) = Some (Some p, s') ∧ kinv s' ∧ allocates va sz s s' (Some p).
Proof.
  intros Hu Hi Ht Htp Hts Hsz Hb Hrt Hnz.
  destruct (finish_gains s1 t tk sz blk pg w k rt) as (p & n & s' & -> & Hi' & Hp & Hn & Hg); try done.
  exists p, s'. split; [done|]. split; [done|]. eapply new_block; [done|done|by eapply gains_after].
Qed.

Lemma page_step s t va : kinv s → kenabled (APage t va) s → steps_well (APage t va) s.
Proof.
  intros Hi [(sz & blk & Ht) Hva]. unfold steps_well, kstep, kresult. rewrite Ht. cbn [mbind option_bind].
  destruct (ki_tasks _ Hi _ _ Ht) as [Hsz Hb]. destruct (search_ends s t sz blk Hi Ht) as [Hie Hue].
  destruct (Z.eqb_spec va 0) as [->|Hnz].
  { eexists _, _. split; [done|]. split; [done|]. exists (TSearch sz blk). split; [done|]. apply out_of_memory; [by left|done]. }
  destruct Hva as [|Hva]; [done|]. destruct (Hva 0 ltac:(lia)) as [Hpg Hfr]. replace (va + 0 * PAGE_SIZE) with va in * by lia.
  rewrite (proj2 (Z.eqb_eq _ 0) (proj1 Hpg)). cbn [negb]. unfold allocpageref.
  destruct (find_root_run (kheaproots (heap s)) 0) as (o & Hfind & Ho).
  { apply Forall_lookup. intros i rt Hrt. by eapply (ki_root _ Hi). }
  rewrite Hfind. cbn [mbind option_bind]. destruct o as [[w k]|].
  2: { eexists _, _. split; [done|]. split; [done|]. exists (TSearch sz blk). split; [done|]. apply out_of_memory; [by right|done]. }
  destruct Ho as (j & rt & -> & Hrt & Hk & Hno & Hfull). rewrite Nat.add_0_l in *. rewrite Hrt. cbn [mbind option_bind kheaproots set_roots].
  pose proof (taken_inv s Hi t sz blk va j k rt Ht Hrt Hk Hno Hfull Hpg Hfr) as Hti.
  assert (Htu : unchanged s (taken s t sz blk va j k rt)) by (by apply pool_unchanged).
  rewrite list_lookup_insert_eq by (by eapply lookup_lt_Some). cbn [mbind option_bind].
  destruct (Z.eqb_spec (rt_page (mark_slot k rt)) 0) as [Hz|Hz].
  - eexists _, _. split; [done|]. split; [exact Hti|]. exists (TSearch sz blk). split; [done|]. by apply goes_on.
  - destruct (finish_step s (taken s t sz blk va j k rt) t (TRef sz blk va j k) sz blk va j k (mark_slot k rt) va)
      as (p & s' & Hrun & Hi' & Hal); try done.
    { cbn. by rewrite lookup_insert_eq. }
    { cbn. by rewrite list_lookup_insert_eq by (by eapply lookup_lt_Some). }
    exists (Some p), s'. split; [|split; [done|by exists (TSearch sz blk)]]. rewrite <- Hrun. unfold finish. cbn.
    by rewrite delete_insert_eq.
Qed.

Lemma refpage_step s t va : kinv s → kenabled (ARefPage t va) s → steps_well (ARefPage t va) s.
Proof.
  intros Hi [(sz & blk & pg & w & k & Ht) Hva]. unfold steps_well, kstep, kresult. rewrite Ht. cbn [mbind option_bind].
  destruct (ki_tasks _ Hi _ _ Ht) as [Hsz Hb].
  assert (Hh : holds s w k (OTask t)) by (by exists (TRef sz blk pg w k)).
  destruct (ki_rooted _ Hi _ _ _ Hh) as [rt Hrt]. rewrite Hrt. cbn [mbind option_bind].
  assert (Hfin : rt_page rt ≠ 0 → ∃ p s', ('(p, s) ← finish t blk pg w k s; Some (Some p, s)) = Some (Some p, s') ∧ kinv s' ∧ allocates va sz s s' (Some p)).
  { intros Hnz. by eapply (finish_step s s t (TRef sz blk pg w k)). }
  destruct (Z.eqb_spec va 0) as [->|Hnz].
  { destruct (Z.eqb_spec (rt_page rt) 0) as [Hz|Hz].
    - destruct (ref_is_lost s t sz blk pg w k Hi Ht) as [Hi' Hu]. eexists _, _. split; [done|]. split; [done|].
      eexists. split; [done|]. apply out_of_memory; [by left|done].
    - destruct (Hfin Hz) as (p & s' & Hrun & Hi' & Hal). exists (Some p), s'. split; [done|]. split; [done|]. by eexists. }
  destruct Hva as [|Hva]; [done|]. destruct (Hva 0 ltac:(lia)) as [Hpg Hfr]. replace (va + 0 * PAGE_SIZE) with va in * by lia.
  rewrite (proj2 (Z.eqb_eq _ 0) (proj1 Hpg)). cbn [negb].
  destruct (Z.eqb_spec (rt_page rt) 0) as [Hz|Hz]; cbn [negb].
  - pose proof (paged_inv s Hi t sz blk pg w k va rt Ht Hrt Hz Hpg Hfr) as Hpi.
    destruct (finish_step s (paged s w va rt) t (TRef sz blk pg w k) sz blk pg w k (Root va (pagerefs_inuse rt) (numinuse rt)) va)
      as (p & s' & Hrun & Hi' & Hal); try done.
    { cbn. by rewrite list_lookup_insert_eq by (by eapply lookup_lt_Some). }
    exists (Some p), s'. split; [done|]. split; [done|]. by eexists.
  - destruct (ref_goes_back s t sz blk pg w k rt Hi Ht Hrt Hz) as [Hi' Hu]. eexists _, _. split; [done|]. split; [done|].
    eexists. split; [done|]. by apply goes_on.
Qed.

Lemma resume_step s t : kinv s → kenabled (AResume t) s → steps_well (AResume t) s.
Proof.
  intros Hi (sz & blk & pg & w & k & Ht). unfold steps_well, kstep, kresult. rewrite Ht. cbn [mbind option_bind].
  destruct (ki_tasks _ Hi _ _ Ht) as (Hsz & Hb & rt & Hrt & Hnz). rewrite Hrt. cbn [mbind option_bind].
  rewrite (proj2 (Z.eqb_neq _ 0) Hnz).
  destruct (finish_step s s t (TBack sz blk pg w k) sz blk pg w k rt 1) as (p & s' & Hrun & Hi' & Hal); try done.
  exists (Some p), s'. split; [done|]. split; [done|]. by exists (TBack sz blk pg w k), p.
Qed.

Lemma big_step s sz va : kinv s → kenabled (ABig sz va) s → steps_well (ABig sz va) s.
Proof.
  intros Hi (Hsz & Hmax & Hva). unfold steps_well, kstep, kresult. rewrite (proj2 (Z.ltb_ge _ _)) by lia.
  destruct (Z.eqb_spec va 0) as [->|Hnz].
  { eexists _, _. split; [done|]. split; [done|]. split; [|done]. apply out_of_memory; [by left|by apply pool_unchanged]. }
  destruct Hva as [|Hva]; [done|]. unfold LARGEST_SUBPAGE_SIZE in Hsz.
  assert (Hn : 0 < npages sz ∧ sz ≤ npages sz * PAGE_SIZE) by (unfold npages, PAGE_SIZE; Z.to_euclidean_division_equations; lia).
  destruct (Hva 0 ltac:(lia)) as [[Hal _] _]. replace (va + 0 * PAGE_SIZE) with va in * by lia.
  rewrite (proj2 (Z.eqb_eq _ 0) Hal), (wrap_small 32) by (unfold PAGE_SIZE in *; lia). cbn [negb].
  destruct (big_gains s va (npages sz) Hi ltac:(lia) Hva) as [Hi' Hg].
  eexists _, _. split; [done|]. split; [exact Hi'|]. split; [|done]. destruct Hn. by apply (new_block _ _ _ _ va (npages sz * PAGE_SIZE)).
Qed.

Lemma free_step s ptr : kinv s → kenabled (AFree ptr) s → steps_well (AFree ptr) s.
Proof.
  intros Hi Hen. unfold steps_well, kstep, kresult. destruct (Z.eqb_spec ptr 0) as [->|Hnz].
  { eexists _, _. split; [done|]. split; [done|]. by rewrite decide_True. }
  destruct Hen as [|(n & [(pr & r & Hin & Hr & pg & l & o & Hw & Ho & Hom & -> & Hno)|(k & Hk & ->)])]; [done| |].
  - destruct (kfree_small s pr r pg n l o) as (g & h & -> & Hi' & Hl & _); try done. cbn.
    eexists _, _. split; [done|]. split; [done|]. rewrite decide_False by done. done.
  - rewrite (subpage_kfree_big s ptr k Hi Hk). cbn [mbind option_bind].
    destruct (ki_pages _ Hi (OBig ptr) ptr) as [Hal _].
    { exists k, 0. pose proof (ki_bigs _ Hi _ _ Hk). split; [done|]. lia. }
    rewrite (proj2 (Z.eqb_eq _ 0) Hal). cbn [negb]. destruct (big_loses s ptr k Hi Hk) as [Hi' Hl].
    eexists _, _. split; [done|]. split; [done|]. rewrite decide_False by done. done.
Qed.

(** Every step that is due succeeds and does what it promises. *)
Lemma kstep_well a s : kinv s → kenabled a s → steps_well a s.
Proof.
  intros Hi Hen. destruct a as [t sz|t va|t va|t|sz va|ptr|a x].
  - by apply malloc_step.
  - by apply page_step.
  - by apply refpage_step.
  - by apply resume_step.
  - by apply big_step.
  - by apply free_step.
  - destruct Hen as (b & n & Hb & Hr). destruct (write_inv s a x b n Hi Hb Hr) as [Hi' Ha].
    eexists _, _. split; [done|]. split; [exact Hi'|]. done.
Qed.

(** ** Runs *)

(** The heap before the first call, with anything in memory. *)
Definition kinit (m : Z → Z) : ksys :=
  KSys (Kheap (replicate 16 (Root 0 (replicate 8 0) 0)) ∅ (replicate 8 []) [] m) ∅ ∅ ∅.

Inductive kreach : ksys → Prop :=
  | kreach_init m : kreach (kinit m)
  | kreach_step a s v s' : kreach s → kenabled a s → kstep a s = Some (v, s') → kreach s'.

Inductive kruns : list kact → ksys → ksys → Prop :=
  | kruns_nil s : kruns [] s s
  | kruns_cons a l s v s' s'' : kenabled a s → kstep a s = Some (v, s') → kruns l s' s'' → kruns (a :: l) s s''.

Lemma kinit_root m w rt : kheaproots (heap (kinit m)) !! w = Some rt → rt = Root 0 (replicate 8 0) 0.
Proof. by intros [-> _]%lookup_replicate. Qed.

Lemma kinit_owned m o p : ¬ owned (kinit m) o p.
Proof.
  destruct o as [pr|w|t|b|]; cbn [owned]; [| | | |tauto].
  - by intros [?%not_elem_of_nil _].
  - by intros (rt & Hrt%kinit_root & Ep & Hp); subst.
  - intros (tk & Ht & _). cbn in Ht. by apply lookup_empty_Some in Ht.
  - intros (n & i & Hb & _). cbn in Hb. by apply lookup_empty_Some in Hb.
Qed.

Lemma kinit_holds m w k o : ¬ holds (kinit m) w k o.
Proof.
  destruct o as [pr|v|t|b|]; cbn [holds]; [|tauto| |tauto|cbn; set_solver].
  - by intros [?%not_elem_of_nil _].
  - intros (tk & Ht & _). cbn in Ht. by apply lookup_empty_Some in Ht.
Qed.

Lemma kinit_used : used (Root 0 (replicate 8 0) 0) = ∅.
Proof. by vm_compute. Qed.

Lemma kinit_inv m : kinv (kinit m).
Proof.
  split; try done.
  - intros w rt ->%kinit_root. split; [done|by repeat constructor|by rewrite kinit_used].
  - intros w rt k ->%kinit_root. rewrite kinit_used. split; [set_solver|]. intros (o & Ho). by apply kinit_holds in Ho.
  - intros w k o o' Ho. by apply kinit_holds in Ho.
  - intros w k o Ho. by apply kinit_holds in Ho.
  - intros w w' rt rt' ->%kinit_root ->%kinit_root _ _. by rewrite kinit_used.
  - apply NoDup_nil_2.
  - by intros pr ?%not_elem_of_nil.
  - by intros pr ?%not_elem_of_nil.
  - intros blk sb Hsb. apply arr_get_Some in Hsb as [_ [-> _]%lookup_replicate]. split; [apply NoDup_nil_2|].
    intros pr. split; [by intros ?%not_elem_of_nil|by intros [?%not_elem_of_nil _]].
  - intros o p Ho. by apply kinit_owned in Ho.
  - intros o o' p Ho. by apply kinit_owned in Ho.
Qed.

Lemma kreach_inv s : kreach s → kinv s.
Proof.
  induction 1 as [m|a s v s' _ IH Hen Hs]; [apply kinit_inv|].
  destruct (kstep_well a s IH Hen) as (v' & s1 & E & Hi & _). congruence.
Qed.

Lemma kstep_result a s v s' : kinv s → kenabled a s → kstep a s = Some (v, s') → kinv s' ∧ kresult a s v s'.
Proof. intros Hi Hen Hs. destruct (kstep_well a s Hi Hen) as (v' & s1 & E & H). by simplify_eq. Qed.

(** A block stays in use, and keeps its contents, under a step that neither frees it nor writes it. *)
Lemma kresult_kept a s v s' p n :
  kresult a s v s' → alive s p n → a ≠ AFree p →
  alive s' p n ∧ ∀ x, p ≤ x < p + n → (∀ y, a ≠ AWrite x y) → words (heap s') x = words (heap s) x.
Proof.
  assert (Hal : ∀ va sz, allocates va sz s s' v → alive s p n →
    alive s' p n ∧ ∀ x, p ≤ x < p + n → words (heap s') x = words (heap s) x).
  { intros va sz [[U K]|_ [U K]|q m _ _ [G _ K]] Hp.
    - assert (alive s' p n) by (by apply U). split; [done|]. intros x Hx. by apply (K p n).
    - assert (alive s' p n) by (by apply U). split; [done|]. intros x Hx. by apply (K p n).
    - assert (alive s' p n) by (apply G; by left). split; [done|]. intros x Hx. by apply (K p n). }
  intros Hr Hp Hne. destruct a as [t sz|t va|t va|t|sz va|ptr|a x].
  - destruct (Hal _ _ Hr Hp). eauto.
  - destruct Hr as (tk & _ & Hr). destruct (Hal _ _ Hr Hp). eauto.
  - destruct Hr as (tk & _ & Hr). destruct (Hal _ _ Hr Hp). eauto.
  - destruct Hr as (tk & q & _ & _ & Hr). destruct (Hal _ _ Hr Hp). eauto.
  - destruct Hr as (Hr & _). destruct (Hal _ _ Hr Hp). eauto.
  - destruct Hr as [_ Hr]. case_decide; [by subst|]. destruct Hr as [L K].
    assert (alive s' p n) by (apply L; split; [done|congruence]). split; [done|]. intros y Hy _. by apply (K p n).
  - destruct Hr as (_ & A & W). split; [by apply A|]. intros y Hy Hw. rewrite W, decide_False; [done|].
    intros ->. by apply (Hw x).
Qed.

(** C28: the heap keeps its promises in every state it can reach, however calls of [kmalloc]
    and [kfree] interleave at the points where the spinlock is given up and wherever
    [alloc_kpages] fails, as long as the calls under way and the slots of [pageref]s lost to failed calls together stay below
    256 ([kenabled]; [lost_slots_end_in_panic] is what happens beyond) and sizes do not wrap ([huge_request_wraps]).  A step that is due fails no assertion; a call of
    [kmalloc] that returns a pointer returns a block of at least the size
    asked for, of which no byte was in use, and leaves all blocks and their contents as they were; it
    returns NULL only when [alloc_kpages] failed or all [pageref]s are
    taken; [kfree] takes the block out of use, and no other. *)
Theorem heap_steps_well a s :
  kreach s → kenabled a s → ∃ v s', kstep a s = Some (v, s') ∧ kreach s' ∧ kresult a s v s'.
Proof.
  intros Hs Hen. destruct (kstep_well a s (kreach_inv s Hs) Hen) as (v & s' & Hst & _ & Hr).
  exists v, s'. split; [done|]. split; [by eapply kreach_step|done].
Qed.

(** C29: a block that [kmalloc] has returned stays in use, and every word of it keeps its value, through
    any run of the heap that does not free the block and does not write
    the word: the free lists, which are kept in the blocks themselves, never run through a block in use. *)
Theorem heap_block_kept l s s' p n x :
  kreach s → alive s p n → kruns l s s' → AFree p ∉ l → p ≤ x < p + n → (∀ y, AWrite x y ∉ l) →
  alive s' p n ∧ words (heap s') x = words (heap s) x.
Proof.
  intros Hs%kreach_inv Hp Hl Hf Hx Hw. revert Hs Hp Hf Hw.
  induction Hl as [s|a l s v s1 s' Hen Hst _ IH]; intros Hs Hp Hf Hw; [done|].
  apply not_elem_of_cons in Hf as [Hf Hf']. destruct (kstep_result a s v s1 Hs Hen Hst) as [Hi Hr].
  destruct (kresult_kept a s v s1 p n Hr Hp ltac:(congruence)) as [Hp1 Hk].
  destruct IH as [Ha E]; [done|done|done|intros y Hy; apply (Hw y); by right|]. split; [done|]. rewrite E. apply Hk; [done|].
  intros y ->. apply (Hw y). by left.
Qed.

(** ** Examples *)

(** The values returned by a sequence of steps. *)
Fixpoint kvalues (l : list kact) (s : ksys) : option (list (option Z)) :=
  match l with
  | [] => Some []
  | a :: l' => '(v, s') ← kstep a s; vs ← kvalues l' s'; Some (v :: vs)
  end.

(** Two calls race for the page of the first root: both get their blocks, then a third
    call shares a page, and a freed block is the next one returned. *)
Example heap_values :
  kvalues [AMalloc 1 100; AMalloc 2 1000; APage 1 0x80010000; APage 2 0x80020000; ARefPage 2 0x80030000;
    ARefPage 1 0x80040000; AResume 1; AMalloc 3 120; AFree 0x80010f80; AMalloc 3 128; ABig 5000 0x80050000] (kinit (λ _, 7))
  = Some [None; None; None; None; Some 0x80020c00; None; Some 0x80010f80; Some 0x80010f00; Some 0; Some 0x80010f80; Some 0x80050000].
Proof. by vm_compute. Qed.

(** A request close to the end of the address space wraps around: no page is asked for. *)
Example huge_request_wraps : snd <$> kstep (ABig 0xfffff800 0x80010000) (kinit (λ _, 7)) =
  Some (KSys (heap (kinit (λ _, 7))) ∅ {[0x80010000 := 0]} ∅).
Proof. by vm_compute. Qed.

(** ** Slots that are lost *)

(** Is the [pageref] at [p] one of the root, by the arithmetic of [freepageref]? *)
Definition on_root (p : Z) (root : kheap_root) : Prop := rt_page root ≠ 0 ∧ u32 ((p - rt_page root) / 16) < NPAGEREFS_PER_PAGE.

(** The loop of [freepageref] meets a root without a page that has slots in use before it meets the root of [p]. *)
Lemma freepageref_fails p : ∀ rs w rt,
  rs !! w = Some rt → rt_page rt = 0 → numinuse rt ≠ 0 → (∀ v rv, (v < w)%nat → rs !! v = Some rv → ¬ on_root p rv) → freepageref_loop p rs = None.
Proof.
  induction rs as [|root rs IH]; intros w rt Hw Hp Hn Hb; [done|]. cbn [freepageref_loop]. destruct w as [|w].
  - injection Hw as ->. by rewrite Hp, (proj2 (Z.eqb_neq _ 0) Hn).
  - cbn in Hw. assert (Hrest : freepageref_loop p rs = None) by (apply (IH w rt Hw Hp Hn); intros v rv Hv Hrv; apply (Hb (S v) rv); [lia|done]).
    specialize (Hb 0%nat root ltac:(lia) eq_refl). rewrite Hrest. destruct (Z.eqb_spec (rt_page root) 0) as [H0|H0]; [by destruct (negb _)|].
    destruct (Z.ltb_spec (u32 ((p - rt_page root) / 16)) NPAGEREFS_PER_PAGE); [by destruct Hb|done].
Qed.

(** C30: [allocpageref] does not give its slot back when the page of the root is not to be had, and the panic that follows.  In
    every state of the heap in which a root without a page has slots in use, a call of [kfree] for the last block in use
    of a page, whose [pageref] is not on a root before that one, fails an assertion: the one of [freepageref] that roots
    without a page are not in use, when the others hold.  The witness reaches such a state from the start with 256 calls of
    [kmalloc] that failed for want of the page of the first root, and one that succeeded. *)
Theorem lost_slots_end_in_panic s ptr pr r size w rt :
  ptr ≠ 0 → find_owner (allbase (heap s)) ptr (heap s) = Some (Some (pr, r)) → arr_get sizes (PR_BLOCKTYPE r) = Some size → u16 (nfree r + 1) = PAGE_SIZE / size →
  kheaproots (heap s) !! w = Some rt → rt_page rt = 0 → numinuse rt ≠ 0 → (∀ v rv, (v < w)%nat → kheaproots (heap s) !! v = Some rv → ¬ on_root pr rv) →
  kstep (AFree ptr) s = None.
Proof.
  intros Hptr Hf Hsz Hn Hw Hp Hu Hb. cbn [kstep]. rewrite (proj2 (Z.eqb_neq ptr 0) Hptr). unfold subpage_kfree. rewrite Hf. cbn [mbind option_bind]. rewrite Hsz. cbn [mbind option_bind].
  destruct (_ || _); [done|]. destruct (_ && _); [done|]. rewrite Hn, Z.leb_refl, Z.eqb_refl. cbn [negb].
  set (h := set_pr pr _ _). assert (Hfree : ∀ h', kheaproots h' = kheaproots (heap s) → freepageref pr h' = None).
  { intros h' E. unfold freepageref. by rewrite E, (freepageref_fails pr _ w rt Hw Hp Hu Hb). }
  assert (Hrm : ∀ h', remove_lists pr (PR_BLOCKTYPE r) h = Some h' → kheaproots h' = kheaproots (heap s)).
  { intros h'. unfold remove_lists. destruct (negb _); [done|]. destruct (arr_get (sizebases h) _) as [sb|]; [|done]. cbn [mbind option_bind]. by intros [= <-]. }
  destruct (remove_lists _ _ h) as [h'|]; [|done]. cbn [mbind option_bind]. by rewrite (Hfree h' (Hrm h' eq_refl)).
Qed.

(** Calls that fail for want of the page of a root, and then one that succeeds. *)
Definition starved : list kact := concat (replicate 256 [AMalloc 1 1500; APage 1 0x80010000; ARefPage 1 0]).
Definition then_served : list kact := [AMalloc 1 1500; APage 1 0x80010000; ARefPage 1 0x80020000].

(** The state after a sequence of steps. *)
Fixpoint kafter (l : list kact) (s : ksys) : option ksys :=
  match l with [] => Some s | a :: l' => '(_, s') ← kstep a s; kafter l' s' end.

Definition lost_state : ksys := match kafter (starved ++ then_served) (kinit (λ _, 7)) with Some s => s | None => kinit (λ _, 7) end.

Lemma lost_slots_end_in_panic_witness :
  is_Some (kafter (starved ++ then_served) (kinit (λ _, 7))) ∧ kstep (AFree 0x80010800) lost_state = None.
Proof.
  split.
  { assert (H : match kafter (starved ++ then_served) (kinit (λ _, 7)) with Some _ => true | None => false end = true) by (vm_compute; reflexivity).
    destruct (kafter _ _) as [s|]; [exact (ex_intro _ s eq_refl)|discriminate H]. }
  apply (lost_slots_end_in_panic lost_state 0x80010800 0x80020000 (Pageref 0x80010007 0 1) 2048 0 (Root 0 (replicate 8 0xffffffff) 256));
    [discriminate|vm_compute; reflexivity|vm_compute; reflexivity|vm_compute; reflexivity|vm_compute; reflexivity|reflexivity|discriminate|].
  intros v rv Hv. lia.
Defined.

Definition demo_heap : ksys :=
  KSys (heap (kinit (λ _, 7))) (<[1 := TSearch 100 3]> ∅) (<[0x80010000 := 2]> ∅) ∅.

Lemma demo_waiting : kreach (KSys (heap (kinit (λ _, 7))) (<[1 := TSearch 100 3]> ∅) ∅ ∅).
Proof.
  eapply (kreach_step (AMalloc 1 100) (kinit (λ _, 7)) None); [apply kreach_init| |by vm_compute].
  split; [done|]. by vm_compute.
Qed.

Lemma demo_fresh_pages b va n :
  (∀ i, 0 ≤ i < n → page_ok (va + i * PAGE_SIZE)) →
  (∀ c k i j, b !! c = Some k → 0 ≤ j < k → 0 ≤ i < n → va + i * PAGE_SIZE ≠ c + j * PAGE_SIZE) →
  fresh_pages (KSys (heap (kinit (λ _, 7))) (<[1 := TSearch 100 3]> ∅) b ∅) va n.
Proof.
  intros Hok Hb i Hi. split; [by apply Hok|]. intros o Ho. destruct o as [pr|w|t|c|].
  - by apply (kinit_owned (λ _, 7) (OHeap pr)) in Ho.
  - by apply (kinit_owned (λ _, 7) (ORoot w)) in Ho.
  - destruct Ho as (tk & Ht & Hp). cbn in Ht. apply lookup_insert_Some in Ht as [(<- & <-)|[_ Ht]]; [done|].
    by apply lookup_empty_Some in Ht.
  - destruct Ho as (k & j & Hc & Hj & E). by eapply (Hb c k i j).
  - done.
Qed.

Lemma heap_steps_well_witness :
  ∃ v s', kstep (ABig 5000 0x80010000) (KSys (heap (kinit (λ _, 7))) (<[1 := TSearch 100 3]> ∅) ∅ ∅) = Some (v, s') ∧ kreach s' ∧
    kresult (ABig 5000 0x80010000) (KSys (heap (kinit (λ _, 7))) (<[1 := TSearch 100 3]> ∅) ∅ ∅) v s'.
Proof.
  apply heap_steps_well; [apply demo_waiting|]. split; [done|]. split; [done|]. right. apply demo_fresh_pages.
  - unfold page_ok, npages, PAGE_SIZE. intros i Hi. change (0 ≤ i < 2) in Hi. Z.to_euclidean_division_equations. lia.
  - intros c k i j Hc. by apply lookup_empty_Some in Hc.
Defined.

Lemma demo_alive : alive demo_heap 0x80010000 8192.
Proof. right. exists 2. done. Qed.

Lemma demo_reach : kreach demo_heap.
Proof.
  eapply (kreach_step (ABig 5000 0x80010000) _ (Some 0x80010000)); [apply demo_waiting| |by vm_compute].
  split; [done|]. split; [done|]. right. apply demo_fresh_pages.
  - unfold page_ok, npages, PAGE_SIZE. intros i Hi. change (0 ≤ i < 2) in Hi. Z.to_euclidean_division_equations. lia.
  - intros c k i j Hc. by apply lookup_empty_Some in Hc.
Qed.

Lemma demo_kruns : kruns [APage 1 0x80020000; AWrite 0x80010004 5] demo_heap
  (match kstep (APage 1 0x80020000) demo_heap with
   | Some (_, s) => KSys (set_words (put_word 0x80010004 5 (words (heap s))) (heap s)) (tasks s) (bigs s) (lost s)
   | None => demo_heap end).
Proof.
  destruct (kstep (APage 1 0x80020000) demo_heap) as [[v s1]|] eqn:E; [|by vm_compute in E].
  assert (Hen : kenabled (APage 1 0x80020000) demo_heap).
  { split; [by exists 100, 3|]. right. apply demo_fresh_pages.
    - unfold page_ok, PAGE_SIZE. intros i Hi. Z.to_euclidean_division_equations. lia.
    - intros c k i j [(<- & <-)|[_ Hc]]%lookup_insert_Some Hj Hi; [unfold PAGE_SIZE; lia|by apply lookup_empty_Some in Hc]. }
  eapply kruns_cons; [exact Hen|exact E|]. eapply kruns_cons; [|done|apply kruns_nil].
  exists 0x80010000, 8192. split; [|lia].
  pose proof (kstep_result _ _ _ _ (kreach_inv _ demo_reach) Hen E) as [_ Hr]. by eapply (kresult_kept _ _ _ _ _ _ Hr demo_alive).
Qed.

Lemma heap_block_kept_witness : ∃ s', kruns [APage 1 0x80020000; AWrite 0x80010004 5] demo_heap s' ∧
  alive s' 0x80010000 8192 ∧ words (heap s') 0x80010008 = 7.
Proof.
  eexists. split; [apply demo_kruns|].
  apply (heap_block_kept _ _ _ 0x80010000 8192 0x80010008 demo_reach demo_alive demo_kruns); [|lia|].
  - intros H. repeat (apply elem_of_cons in H as [H|H]; [done|]). by apply not_elem_of_nil in H.
  - intros y H. repeat (apply elem_of_cons in H as [H|H]; [done|]). by apply not_elem_of_nil in H.
Defined.
