(* ===== verification/Printf.v ===== *)
(** * Printf: formatted output (common/libc/printf/__printf.c and snprintf.c)

    [__vprintf] is a state machine that is fed the format character by character
    and sends text to a callback; [vsnprintf] is a client whose callback fills
    a buffer.  The reference [spec_printf] takes the format apart into text
    and conversions, and says what each conversion prints.

    Characters are bytes.  A C string is the list of its characters.  The variable arguments are
    words of 32 bits (int, long, size_t and pointers), long longs,
    and strings; an argument of the wrong kind, a division by zero, an
    access outside the buffer of digits and the overflow of a signed
    integer give [None]. *)

From Stdlib Require Import ZArith Lia Ascii String.
From stdpp Require Import base list option list_numbers.
From S2P Require Import Prelude Strings.
Set Default Goal Selector "!".
Open Scope Z_scope.

Inductive intsize := INTSZ | LONGSZ | LLONGSZ | SIZETSZ.
#[global] Instance intsize_eq_dec : EqDecision intsize.
Proof. solve_decision. Defined.
Inductive va := Word (x : Z) | Llong (x : Z) | Str (s : option (list Z)).

(** The fields of [PF] that [__pf_endfield] resets. *)
Record pf_field := Field {
  in_pct : bool;
  pf_size : intsize;
  num : Z;
  sign : Z;
  spacing : Z;
  rightspc : bool;
  fillchar : Z;
  base : Z;
  baseprefix : bool;
  altformat : bool;
}.

Definition NUMBER_BUF_SIZE : Z := 8 * 8 / 3 + 2.
Definition INT_MAX : Z := 2 ^ 31 - 1.

Definition digits : list Z := [48; 49; 50; 51; 52; 53; 54; 55; 56; 57; 97; 98; 99; 100; 101; 102].

(** The field width is computed in ints. *)
Definition int_of (x : Z) : option Z := if (- 2 ^ 31 <=? x) && (x <=? INT_MAX) then Some x else None.

Section printf.
Context {C : Type} (sendfunc : C → list Z → C).

Record PF := Pf {
  clientdata : C;
  ap : list va;
  charcount : Z;
  fld : pf_field;
}.

Definition set_fld (f : pf_field) (pf : PF) : PF := Pf (clientdata pf) (ap pf) (charcount pf) f.

Definition __pf_print (txt : list Z) (pf : PF) : PF :=
  Pf (sendfunc (clientdata pf) txt) (ap pf) (i32 (charcount pf + zlen txt)) (fld pf).

Definition end_field : pf_field := Field false INTSZ 0 0 0 false 32 0 false false.
Definition __pf_endfield (pf : PF) : PF := set_fld end_field pf.

Definition __pf_modifier (ch : Z) (pf : PF) : option PF :=
  let 'Field p sz n sg spc rsp fillc b bp alt := fld pf in
  if ch =? 35 then Some (set_fld (Field p sz n sg spc rsp fillc b bp true) pf)
  else if ch =? 45 then Some (set_fld (Field p sz n sg spc true fillc b bp alt) pf)
  else if ch =? 108 then
    let sz' := match sz with LONGSZ => LLONGSZ | _ => LONGSZ end in
    Some (set_fld (Field p sz' n sg spc rsp fillc b bp alt) pf)
  else if ch =? 122 then Some (set_fld (Field p SIZETSZ n sg spc rsp fillc b bp alt) pf)
  else if ch =? 48 then
    if 0 <? spc then
      spc' ← int_of (spc * 10); Some (set_fld (Field p sz n sg spc' rsp fillc b bp alt) pf)
    else Some (set_fld (Field p sz n sg spc rsp 48 b bp alt) pf)
  else if (48 <? ch) && (ch <=? 57) then
    spc' ← int_of (spc * 10 + (ch - 48)); Some (set_fld (Field p sz n sg spc' rsp fillc b bp alt) pf)
  else None.

(** [va_arg] of a word, of a long long and of a string. *)
Definition arg_word (pf : PF) : option (Z * PF) :=
  match ap pf with Word x :: l => Some (x, Pf (clientdata pf) l (charcount pf) (fld pf)) | _ => None end.
Definition arg_llong (pf : PF) : option (Z * PF) :=
  match ap pf with Llong x :: l => Some (x, Pf (clientdata pf) l (charcount pf) (fld pf)) | _ => None end.
Definition arg_str (pf : PF) : option (option (list Z) * PF) :=
  match ap pf with Str s :: l => Some (s, Pf (clientdata pf) l (charcount pf) (fld pf)) | _ => None end.

Definition set_num (n sg : Z) (pf : PF) : PF :=
  let 'Field p sz _ _ spc rsp fillc b bp alt := fld pf in set_fld (Field p sz n sg spc rsp fillc b bp alt) pf.

Definition __pf_getnum (ch : Z) (pf : PF) : option PF :=
  if ch =? 112 then '(x, pf) ← arg_word pf; Some (set_num (u32 x) (sign (fld pf)) pf)
  else if ch =? 100 then
    '(signednum, pf) ← (match pf_size (fld pf) with
      | LLONGSZ => '(x, pf) ← arg_llong pf; Some (i64 x, pf)
      | _ => '(x, pf) ← arg_word pf; Some (i32 x, pf)
      end);
    if signednum <? 0 then Some (set_num (u64 (- signednum)) (-1) pf)
    else Some (set_num (u64 signednum) (sign (fld pf)) pf)
  else
    match pf_size (fld pf) with
    | LLONGSZ => '(x, pf) ← arg_llong pf; Some (set_num (u64 x) (sign (fld pf)) pf)
    | _ => '(x, pf) ← arg_word pf; Some (set_num (u32 x) (sign (fld pf)) pf)
    end.

Definition __pf_setbase (ch : Z) (pf : PF) : PF :=
  let 'Field p sz n sg spc rsp fillc b bp alt := fld pf in
  let b' := if (ch =? 100) || (ch =? 117) then 10 else if (ch =? 120) || (ch =? 112) then 16
            else if ch =? 111 then 8 else b in
  let bp' := if alt || (ch =? 112) then true else bp in
  set_fld (Field p sz n sg spc rsp fillc b' bp' alt) pf.

Fixpoint pf_fill_loop (n : nat) (f : Z) (pf : PF) : PF :=
  match n with O => pf | S n' => pf_fill_loop n' f (__pf_print [f] pf) end.
Definition __pf_fill (spc : Z) (pf : PF) : PF := pf_fill_loop (Z.to_nat spc) (fillchar (fld pf)) pf.

Definition __pf_printstuff (prefix prefix2 stuff : list Z) (pf : PF) : PF :=
  let len := i32 (zlen prefix + zlen prefix2 + zlen stuff) in
  let spc := spacing (fld pf) in
  let spc := if len <? spc then spc - len else 0 in
  let pf := if (0 <? spc) && negb (rightspc (fld pf)) && negb (fillchar (fld pf) =? 48) then __pf_fill spc pf else pf in
  let pf := __pf_print prefix pf in
  let pf := __pf_print prefix2 pf in
  let pf := if (0 <? spc) && negb (rightspc (fld pf)) && (fillchar (fld pf) =? 48) then __pf_fill spc pf else pf in
  let pf := __pf_print stuff pf in
  if (0 <? spc) && rightspc (fld pf) then __pf_fill spc pf else pf.

(** The loop over the digits: the buffer, and where [x] ends. *)
Fixpoint num_loop (fuel : nat) (buf : list Z) (x xnum b : Z) : option (list Z * Z) :=
  match fuel with
  | O => None
  | S fuel' =>
      if b =? 0 then None
      else
        d ← arr_get digits (xnum mod b);
        _ ← arr_get buf x;
        let buf := arr_set buf x d in
        let xnum := xnum / b in
        if 0 <? xnum then num_loop fuel' buf (x - 1) xnum b else Some (buf, x - 1)
  end.

(** The string in the buffer from the index [x]. *)
Fixpoint until_nul (l : list Z) : list Z :=
  match l with [] => [] | c :: l' => if c =? 0 then [] else c :: until_nul l' end.

(** Slots of the buffer that have not been written hold -1, which is no character. *)
Definition __pf_printnum (pf : PF) : option PF :=
  let f := fld pf in
  let buf := arr_set (replicate (Z.to_nat NUMBER_BUF_SIZE) (-1)) (NUMBER_BUF_SIZE - 1) 0 in
  '(buf, x) ← num_loop 64 buf (NUMBER_BUF_SIZE - 2) (num f) (base f);
  let bprefix := if baseprefix f && (base f =? 16) then [48; 120] else if baseprefix f && (base f =? 8) then [48] else [] in
  let sprefix := if negb (sign f =? 0) then [45] else [] in
  Some (__pf_printstuff sprefix bprefix (until_nul (drop (Z.to_nat (x + 1)) buf)) pf).

(** "#-lz0123456789" and "doupx". *)
Definition is_modifier (ch : Z) : bool := bool_decide (ch ∈ [35; 45; 108; 122; 48; 49; 50; 51; 52; 53; 54; 55; 56; 57]).
Definition is_integer (ch : Z) : bool := bool_decide (ch ∈ [100; 111; 117; 112; 120]).

Definition null_text : list Z := [40; 110; 117; 108; 108; 41].

Definition __pf_send (ch : Z) (pf : PF) : option PF :=
  if ch =? 0 then None
  else if negb (in_pct (fld pf)) && negb (ch =? 37) then Some (__pf_print [ch] pf)
  else if negb (in_pct (fld pf)) then
    let 'Field _ sz n sg spc rsp fillc b bp alt := fld pf in
    Some (set_fld (Field true sz n sg spc rsp fillc b bp alt) pf)
  else if is_modifier ch then __pf_modifier ch pf
  else if is_integer ch then
    pf ← __pf_getnum ch pf;
    pf ← __pf_printnum (__pf_setbase ch pf);
    Some (__pf_endfield pf)
  else if ch =? 115 then
    '(str, pf) ← arg_str pf;
    Some (__pf_endfield (__pf_printstuff [] [] (default null_text str) pf))
  else
    '(x, pf) ← (if ch =? 99 then '(x, pf) ← arg_word pf; Some (u8 x, pf) else Some (ch, pf));
    Some (__pf_endfield (__pf_printstuff [] [] (until_nul [x]) pf)).

Fixpoint send_all (format : list Z) (pf : PF) : option PF :=
  match format with [] => Some pf | ch :: format' => pf ← __pf_send ch pf; send_all format' pf end.

Definition __vprintf (cl : C) (format : list Z) (args : list va) : option (Z * C) :=
  pf ← send_all format (Pf cl args 0 end_field);
  Some (charcount pf, clientdata pf).

End printf.

(** ** snprintf.c *)

Record SNP := Snp { snp_mem : mem; snp_buf : Z; snp_buflen : Z; snp_bufpos : Z }.

Fixpoint __snprintf_send (snp : SNP) (data : list Z) : SNP :=
  match data with
  | [] => snp
  | c :: data' =>
      __snprintf_send
        (if snp_bufpos snp <? snp_buflen snp then
           Snp (upd (snp_mem snp) (u32 (snp_buf snp + snp_bufpos snp)) c) (snp_buf snp) (snp_buflen snp) (snp_bufpos snp + 1)
         else snp) data'
  end.

Definition vsnprintf (m : mem) (buf len : Z) (fmt : list Z) (args : list va) : option (Z * mem) :=
  let snp := Snp m buf (if len =? 0 then 0 else len - 1) 0 in
  '(chars, snp) ← __vprintf __snprintf_send snp fmt args;
  Some (chars, if 0 <? len then upd (snp_mem snp) (u32 (buf + snp_bufpos snp)) 0 else snp_mem snp).

Definition snprintf (m : mem) (buf len : Z) (fmt : list Z) (args : list va) : option (Z * mem) :=
  vsnprintf m buf len fmt args.

(** ** The reference *)

(** Text as a number, in base [b], and the shortest text for a number. *)
Definition digit_value (c : Z) : Z := if c <? 97 then c - 48 else c - 87.
Definition text_value (b : Z) (t : list Z) : Z := foldl (λ v c, v * b + digit_value c) 0 t.

Fixpoint numeral_from (fuel : nat) (b n : Z) (acc : list Z) : list Z :=
  match fuel with
  | O => acc
  | S fuel' =>
      let acc := default 0 (arr_get digits (n mod b)) :: acc in
      if 0 <? n / b then numeral_from fuel' b (n / b) acc else acc
  end.
Definition numeral (b n : Z) : list Z := numeral_from 64 b n [].

(** A conversion: what the characters between the percent sign and the type say. *)
Definition is_digit (c : Z) : bool := (48 <=? c) && (c <=? 57).
Definition width (mods : list Z) : Z := foldl (λ w c, w * 10 + (c - 48)) 0 (filter (λ c, is_digit c = true) mods).
Definition zeros (mods : list Z) : bool :=
  match filter (λ c, is_digit c = true) mods with 48 :: _ => true | _ => false end.
Definition size_step (sz : intsize) (c : Z) : intsize :=
  if c =? 108 then match sz with LONGSZ => LLONGSZ | _ => LONGSZ end else if c =? 122 then SIZETSZ else sz.
Definition size_of (mods : list Z) : intsize := foldl size_step INTSZ mods.

(** The text in its field: the padding is before the sign when it is of spaces, after the sign
    and the prefix when it is of zeros, and at the end when the field is aligned to the left. *)
Definition padded (mods pre body : list Z) : list Z :=
  let n := Z.to_nat (width mods - zlen (pre ++ body)) in
  let fillc := if zeros mods then 48 else 32 in
  if bool_decide (45 ∈ mods) then pre ++ body ++ replicate n fillc
  else if zeros mods then pre ++ replicate n 48 ++ body
  else replicate n 32 ++ pre ++ body.

(** The integer that the type [ch] takes from the arguments. *)
Definition spec_int (mods : list Z) (ch : Z) (args : list va) : option (Z * list va) :=
  let wide := negb (ch =? 112) && bool_decide (size_of mods = LLONGSZ) in
  match args with
  | Llong x :: l => if wide then Some (if ch =? 100 then i64 x else u64 x, l) else None
  | Word x :: l => if wide then None else Some (if ch =? 100 then i32 x else u32 x, l)
  | _ => None
  end.

Definition int_base (ch : Z) : Z := if (ch =? 100) || (ch =? 117) then 10 else if ch =? 111 then 8 else 16.

Definition int_text (mods : list Z) (ch n : Z) : list Z :=
  let b := int_base ch in
  let prefix := if bool_decide (35 ∈ mods) || (ch =? 112) then
      (if b =? 16 then [48; 120] else if b =? 8 then [48] else []) else [] in
  padded mods ((if n <? 0 then [45] else []) ++ prefix) (numeral b (Z.abs n)).

(** The text of one conversion.  The manual's X is not among the types of the code: like any other character it
    stands for itself. *)
Definition spec_conversion (mods : list Z) (ch : Z) (args : list va) : option (list Z * list va) :=
  if is_integer ch then '(n, l) ← spec_int mods ch args; Some (int_text mods ch n, l)
  else if ch =? 115 then
    match args with Str s :: l => Some (padded mods [] (default null_text s), l) | _ => None end
  else if ch =? 99 then
    match args with Word x :: l => Some (padded mods [] (until_nul [u8 x]), l) | _ => None end
  else Some (padded mods [] [ch], args).

Fixpoint spec_go (fuel : nat) (fmt : list Z) (args : list va) : option (list Z) :=
  match fuel with
  | O => None
  | S fuel' =>
      match fmt with
      | [] => Some []
      | c :: r =>
          if negb (c =? 37) then t ← spec_go fuel' r args; Some (c :: t)
          else
            let '(mods, r') := span is_modifier r in
            if negb (width mods <=? INT_MAX) then None
            else
              match r' with
              | [] => Some []
              | ch :: r'' =>
                  '(t, args') ← spec_conversion mods ch args;
                  t' ← spec_go fuel' r'' args';
                  Some (t ++ t')
              end
      end
  end.
Definition spec_printf (fmt : list Z) (args : list va) : option (list Z) := spec_go (S (length fmt)) fmt args.

Definition s2z (s : String.string) : list Z := (λ a, Z.of_nat (Ascii.nat_of_ascii a)) <$> String.list_ascii_of_string s.

(** ** Numerals *)

Lemma digit_at d : 0 ≤ d < 16 → ∃ c, arr_get digits d = Some c ∧ digit_value c = d ∧ 0 < c ∧ (c = 48 → d = 0).
Proof.
  intros Hd. assert (Hall : forallb (λ d, match arr_get digits d with
    | Some c => (digit_value c =? d) && (0 <? c) && (negb (c =? 48) || (d =? 0)) | None => false end) (seqZ 0 16) = true) by done.
  rewrite forallb_forall in Hall. specialize (Hall d). destruct (arr_get digits d) as [c|].
  - exists c. split; [done|]. assert (List.In d (seqZ 0 16)) as Hin by (apply list_elem_of_In, elem_of_seqZ; lia).
    specialize (Hall Hin). apply andb_prop in Hall as [[H1 H2]%andb_prop H3].
    apply Z.eqb_eq in H1. apply Z.ltb_lt in H2. split; [done|]. split; [done|]. intros ->. by apply Z.eqb_eq.
  - exfalso. assert (List.In d (seqZ 0 16)) as Hin by (apply list_elem_of_In, elem_of_seqZ; lia). by specialize (Hall Hin).
Qed.

(** What a text must be to be the numeral of [n]: it denotes [n], its characters are digits of the base, and
    it has no zero too much. *)
Record is_numeral (b n : Z) (t : list Z) : Prop := {
  nu_value : text_value b t = n;
  nu_digits : Forall (λ c, c ∈ digits ∧ 0 ≤ digit_value c < b) t;
  nu_short : match t with [] => False | c :: t' => c = 48 → t' = [] end;
}.

Lemma text_value_snoc b t c : text_value b (t ++ [c]) = text_value b t * b + digit_value c.
Proof. unfold text_value. by rewrite foldl_app. Qed.

Lemma numeral_from_spec fuel b n acc :
  2 ≤ b ≤ 16 → 0 ≤ n < b ^ Z.of_nat fuel → (0 < fuel)%nat →
  ∃ t, numeral_from fuel b n acc = t ++ acc ∧ is_numeral b n t ∧ (0 < n → match t with [] => False | c :: _ => c ≠ 48 end).
Proof.
  intros Hb. revert n acc. induction fuel as [|fuel IH]; intros n acc Hn Hf; [lia|]. cbn [numeral_from].
  pose proof (Z.mod_pos_bound n b ltac:(lia)) as Hm. destruct (digit_at (n mod b) ltac:(lia)) as (c & Hc & Hv & Hc0 & Hz).
  rewrite Hc. change (default 0 (Some c)) with c. pose proof (Z_div_mod_eq_full n b) as Hdiv.
  assert (Hcd : c ∈ digits ∧ 0 ≤ digit_value c < b).
  { split; [|lia]. apply arr_get_Some in Hc as [_ Hc]. by eapply list_elem_of_lookup_2. }
  destruct (Z.ltb_spec 0 (n / b)) as [Hpos|Hzero].
  - rewrite Nat2Z.inj_succ, Z.pow_succ_r in Hn by lia. assert (n / b < b ^ Z.of_nat fuel) as Hlt by (apply Z.div_lt_upper_bound; lia).
    destruct fuel as [|fuel']; [cbn in Hlt; lia|].
    destruct (IH (n / b) (c :: acc) ltac:(lia) ltac:(lia)) as (t & -> & [Ht1 Ht2 Ht3] & Ht4). specialize (Ht4 Hpos).
    exists (t ++ [c]). rewrite <- app_assoc. split; [done|]. destruct t as [|c1 t]; [done|]. split; [|by intros _].
    split; [rewrite text_value_snoc, Ht1, Hv; lia|by apply Forall_app; split; [|apply Forall_singleton]|by intros ->].
  - assert (n / b = 0) as Hz0 by (pose proof (Z.div_pos n b); lia). rewrite Hz0 in Hdiv.
    exists [c]. split; [done|]. split; [|intros Hn0 ->; specialize (Hz eq_refl); lia].
    split; [unfold text_value; cbn; lia|by apply Forall_singleton|done].
Qed.

Lemma numeral_spec b n : 2 ≤ b ≤ 16 → 0 ≤ n < 2 ^ 64 → is_numeral b n (numeral b n).
Proof.
  intros Hb Hn. destruct (numeral_from_spec 64 b n [] Hb) as (t & Ht & Hs & _); [|lia|].
  { split; [lia|]. eapply Z.lt_le_trans; [apply Hn|]. apply Z.pow_le_mono_l. lia. }
  unfold numeral. by rewrite Ht, app_nil_r.
Qed.

Lemma numeral_chars b n : 2 ≤ b ≤ 16 → 0 ≤ n < 2 ^ 64 → Forall (λ c, c ≠ 0) (numeral b n).
Proof.
  intros Hb Hn. eapply Forall_impl; [apply (nu_digits _ _ _ (numeral_spec b n Hb Hn))|]. intros c [Hc _].
  assert (Hall : Forall (λ c, c ≠ 0) digits) by (by repeat constructor). rewrite Forall_forall in Hall. by apply Hall.
Qed.

(** The loop leaves the numeral at the end of the buffer, and stays inside. *)
Lemma num_loop_run fuel buf x n b :
  2 ≤ b ≤ 16 → 0 ≤ n < b ^ (x + 1) → 0 ≤ x < zlen buf → x < Z.of_nat fuel →
  ∃ buf' x', num_loop fuel buf x n b = Some (buf', x') ∧
    drop (Z.to_nat (x' + 1)) buf' = numeral_from fuel b n (drop (Z.to_nat (x + 1)) buf).
Proof.
  intros Hb. revert buf x n. induction fuel as [|fuel IH]; intros buf x n Hn Hx Hf; [lia|]. cbn [num_loop numeral_from].
  rewrite (proj2 (Z.eqb_neq b 0)) by lia. pose proof (Z.mod_pos_bound n b ltac:(lia)).
  destruct (digit_at (n mod b) ltac:(lia)) as (c & Hc & _). rewrite Hc. cbn [mbind option_bind]. change (default 0 (Some c)) with c.
  destruct (arr_get_ex buf x Hx) as [old Hold]. rewrite Hold. cbn [mbind option_bind].
  assert (Hdrop : drop (Z.to_nat x) (arr_set buf x c) = c :: drop (Z.to_nat (x + 1)) buf).
  { unfold arr_set. rewrite (proj2 (Z.leb_le 0 x)) by lia. replace (Z.to_nat (x + 1)) with (S (Z.to_nat x)) by lia.
    rewrite (drop_S _ c) by (apply list_lookup_insert_eq; lia). f_equal. by rewrite drop_insert_lt by lia. }
  destruct (Z.ltb_spec 0 (n / b)) as [Hpos|Hzero].
  - replace (x + 1) with (Z.succ x) in Hn by lia. rewrite Z.pow_succ_r in Hn by lia.
    assert (n / b < b ^ x) as Hlt by (apply Z.div_lt_upper_bound; lia).
    assert (x ≠ 0) by (intros ->; cbn in Hlt; lia).
    destruct (IH (arr_set buf x c) (x - 1) (n / b)) as (buf' & x' & Hrun & Hd).
    { replace (x - 1 + 1) with x by lia. lia. }
    { rewrite length_arr_set. lia. }
    { lia. }
    exists buf', x'. split; [done|]. rewrite Hd. replace (x - 1 + 1) with x by lia. by rewrite Hdrop.
  - eexists _, _. split; [done|]. by replace (x - 1 + 1) with x by lia.
Qed.

Lemma until_nul_text t l : Forall (λ c, c ≠ 0) t → until_nul (t ++ 0 :: l) = t.
Proof.
  induction 1 as [|c t Hc _ IH]; [done|]. cbn [app until_nul]. rewrite (proj2 (Z.eqb_neq c 0)) by done. by rewrite IH.
Qed.

Lemma printnum_text n b :
  8 ≤ b ≤ 16 → 0 ≤ n < 2 ^ 64 →
  ∃ buf x, num_loop 64 (arr_set (replicate (Z.to_nat NUMBER_BUF_SIZE) (-1)) (NUMBER_BUF_SIZE - 1) 0) (NUMBER_BUF_SIZE - 2) n b = Some (buf, x) ∧
    until_nul (drop (Z.to_nat (x + 1)) buf) = numeral b n.
Proof.
  intros Hb Hn. set (buf0 := arr_set _ _ _).
  destruct (num_loop_run 64 buf0 (NUMBER_BUF_SIZE - 2) n b) as (buf & x & Hrun & Hd); [lia| |done|done|].
  { split; [lia|]. change (NUMBER_BUF_SIZE - 2 + 1) with 22. apply Z.lt_le_trans with (8 ^ 22); [lia|apply Z.pow_le_mono_l; lia]. }
  exists buf, x. split; [done|]. rewrite Hd. change (drop _ buf0) with [0].
  destruct (numeral_from_spec 64 b n [0]) as (t & Ht & _ & _); [lia| |lia|].
  { split; [lia|]. apply Z.lt_le_trans with (2 ^ 64); [lia|]. apply Z.pow_le_mono_l. lia. }
  assert (t = numeral b n) as ->.
  { unfold numeral. clear -Ht. revert Ht. generalize 64%nat as fuel.
    assert (Happ : ∀ fuel n acc, numeral_from fuel b n acc = numeral_from fuel b n [] ++ acc).
    { induction fuel as [|fuel IH]; intros m acc; [done|]. cbn [numeral_from]. destruct (0 <? m / b); [|done].
      by rewrite IH, (IH _ [_]), <- app_assoc. }
    intros fuel. rewrite Happ. intros H. by apply app_inj_tail in H as [-> _]. }
  rewrite Ht. apply until_nul_text, numeral_chars; lia.
Qed.

(** ** What is sent *)

Lemma i32_add a b : i32 (i32 a + b) = i32 (a + b).
Proof.
  unfold swrap. f_equal. replace ((a + 2 ^ (32 - 1)) mod 2 ^ 32 - 2 ^ (32 - 1) + b + 2 ^ (32 - 1)) with ((a + 2 ^ (32 - 1)) mod 2 ^ 32 + b) by lia.
  rewrite Zplus_mod_idemp_l. f_equal. lia.
Qed.

Section sending.
Context {C : Type} (sendfunc : C → list Z → C).
Implicit Types pf : PF (C := C).

Definition counted pf : Prop := i32 (charcount pf) = charcount pf.

(** Between the two states the text [txt] was sent, in some pieces. *)
Record sent pf pf' (txt : list Z) : Prop := {
  se_text : ∃ chunks, clientdata pf' = foldl sendfunc (clientdata pf) chunks ∧ concat chunks = txt;
  se_count : charcount pf' = i32 (charcount pf + zlen txt);
}.

(** Besides, nothing has changed. *)
Record sends pf pf' (txt : list Z) : Prop := {
  ss_sent : sent pf pf' txt;
  ss_ap : ap pf' = ap pf;
  ss_fld : fld pf' = fld pf;
}.

Lemma sent_refl pf : counted pf → sent pf pf [].
Proof. intros Hc. split; [by exists []|]. cbn. by rewrite Z.add_0_r. Qed.

Lemma sent_counted pf pf' t : sent pf pf' t → counted pf'.
Proof. intros [_ Hc]. unfold counted. rewrite Hc.
  pose proof (i32_add (charcount pf + zlen t) 0) as E. by rewrite !Z.add_0_r in E.
Qed.

Lemma sent_trans pf1 pf2 pf3 t u : sent pf1 pf2 t → sent pf2 pf3 u → sent pf1 pf3 (t ++ u).
Proof.
  intros [(c1 & H1 & <-) N1] [(c2 & H2 & <-) N2]. split.
  - exists (c1 ++ c2). by rewrite foldl_app, <- H1, concat_app.
  - rewrite N2, N1, i32_add, length_app. f_equal. lia.
Qed.

Lemma sends_refl pf : counted pf → sends pf pf [].
Proof. intros Hc. split; [by apply sent_refl|done|done]. Qed.

Lemma sends_trans pf1 pf2 pf3 t u : sends pf1 pf2 t → sends pf2 pf3 u → sends pf1 pf3 (t ++ u).
Proof. intros [S1 A1 F1] [S2 A2 F2]. split; [by eapply sent_trans|congruence|congruence]. Qed.

Lemma print_sends txt pf : sends pf (__pf_print sendfunc txt pf) txt.
Proof. split; [|done|done]. split; [|done]. exists [txt]. cbn. by rewrite app_nil_r. Qed.

Lemma fill_sends n f pf : counted pf → sends pf (pf_fill_loop sendfunc n f pf) (replicate n f).
Proof.
  revert pf. induction n as [|n IH]; intros pf Hc; [by apply sends_refl|]. cbn [pf_fill_loop replicate].
  apply (sends_trans _ (__pf_print sendfunc [f] pf) _ [f]); [apply print_sends|]. apply IH.
  eapply sent_counted, ss_sent, print_sends.
Qed.

(** Padding that may be left out. *)
Lemma maybe_fill_sends (b : bool) spc pf :
  counted pf → sends pf (if b then __pf_fill sendfunc spc pf else pf) (if b then replicate (Z.to_nat spc) (fillchar (fld pf)) else []).
Proof. intros Hc. destruct b; [by apply fill_sends|by apply sends_refl]. Qed.

Lemma maybe_fill_fld (b : bool) spc pf : fld (if b then __pf_fill sendfunc spc pf else pf) = fld pf.
Proof.
  destruct b; [|done]. unfold __pf_fill. generalize (fillchar (fld pf)) as f. intros f. revert pf.
  induction (Z.to_nat spc) as [|n IH]; intros pf; [done|]. cbn [pf_fill_loop]. by rewrite IH.
Qed.

(** The state of the conversion after its modifiers. *)
Definition st_of (mods : list Z) (n sg b : Z) (bp : bool) : pf_field :=
  Field true (size_of mods) n sg (width mods) (bool_decide (45 ∈ mods)) (if zeros mods then 48 else 32) b bp (bool_decide (35 ∈ mods)).

(** The pieces of [__pf_printstuff]. *)
Lemma padded_pieces mods n sg b bp pre body :
  let f := st_of mods n sg b bp in
  let len := zlen (pre ++ body) in
  let spc := if len <? spacing f then spacing f - len else 0 in
  let fillt := replicate (Z.to_nat spc) (fillchar f) in
  (if (0 <? spc) && negb (rightspc f) && negb (fillchar f =? 48) then fillt else []) ++ pre ++
  (if (0 <? spc) && negb (rightspc f) && (fillchar f =? 48) then fillt else []) ++ body ++
  (if (0 <? spc) && rightspc f then fillt else []) = padded mods pre body.
Proof.
  intros f len spc fillt. unfold padded. fold len.
  assert (Hn : Z.to_nat (width mods - len) = Z.to_nat spc).
  { unfold spc. cbn [f st_of spacing]. destruct (Z.ltb_spec len (width mods)); [done|]. lia. }
  rewrite Hn. unfold fillt. cbn [f st_of rightspc fillchar]. destruct (Z.ltb_spec 0 spc) as [Hp|Hp].
  - case_bool_decide; [done|]. destruct (zeros mods); cbn; by rewrite app_nil_r.
  - replace (Z.to_nat spc) with O by lia. case_bool_decide; [done|]. destruct (zeros mods); cbn; by rewrite app_nil_r.
Qed.

Lemma printstuff_sends mods n sg b bp p1 p2 body pf :
  counted pf → fld pf = st_of mods n sg b bp → zlen (p1 ++ p2 ++ body) < 2 ^ 31 →
  sends pf (__pf_printstuff sendfunc p1 p2 body pf) (padded mods (p1 ++ p2) body).
Proof.
  intros Hc Hf Hlen. rewrite <- (padded_pieces mods n sg b bp), <- Hf. unfold __pf_printstuff.
  rewrite (swrap_small 32) by (rewrite !length_app in Hlen; lia).
  replace (zlen p1 + zlen p2 + zlen body) with (zlen ((p1 ++ p2) ++ body)) by (rewrite !length_app; lia).
  cbv zeta. set (spc := if _ <? spacing (fld pf) then _ else 0).
  set (b1 := (0 <? spc) && _ && negb _). set (pf1 := if b1 then _ else pf).
  assert (E1 : fld pf1 = fld pf) by apply maybe_fill_fld.
  eapply sends_trans; [by apply maybe_fill_sends|]. rewrite <- app_assoc.
  eapply sends_trans; [apply print_sends|]. eapply sends_trans; [apply print_sends|].
  set (pf2 := __pf_print sendfunc p2 _). assert (Hc2 : counted pf2) by (eapply sent_counted, ss_sent, print_sends).
  assert (E2 : fld pf2 = fld pf) by done. rewrite <- E2. set (b2 := (0 <? spc) && _ && _). set (pf3 := if b2 then _ else pf2).
  assert (E3 : fld pf3 = fld pf2) by apply maybe_fill_fld.
  eapply sends_trans; [by apply maybe_fill_sends|]. eapply sends_trans; [apply print_sends|].
  set (pf4 := __pf_print sendfunc body pf3). assert (E4 : fld pf4 = fld pf2) by done. rewrite <- E4.
  apply maybe_fill_sends. eapply sent_counted, ss_sent, print_sends.
Qed.

(** ** Modifiers *)

Lemma filter_snoc_digit mods c :
  filter (λ c, is_digit c = true) (mods ++ [c]) = filter (λ c, is_digit c = true) mods ++ (if is_digit c then [c] else []).
Proof. rewrite filter_app. f_equal. cbn. destruct (is_digit c); done. Qed.

Lemma width_snoc mods c : width (mods ++ [c]) = if is_digit c then width mods * 10 + (c - 48) else width mods.
Proof. unfold width. rewrite filter_snoc_digit. destruct (is_digit c); [by rewrite foldl_app|by rewrite app_nil_r]. Qed.

Lemma width_from w l : 0 ≤ w → Forall (λ c, is_digit c = true) l → w ≤ foldl (λ w c, w * 10 + (c - 48)) w l.
Proof.
  intros Hw Hl. revert w Hw. induction Hl as [|c l Hc _ IH]; intros w Hw; [done|]. cbn [foldl].
  unfold is_digit in Hc. zbool. etrans; [|apply IH]; lia.
Qed.

Lemma digits_only mods : Forall (λ c, is_digit c = true) (filter (λ c, is_digit c = true) mods).
Proof. apply Forall_forall. intros c [Hc _]%list_elem_of_filter. done. Qed.

Lemma width_nonneg mods : 0 ≤ width mods.
Proof. apply width_from; [done|apply digits_only]. Qed.

(** The width is zero as long as there are only zeros. *)
Lemma width_zero mods : width mods = 0 → filter (λ c, is_digit c = true) mods = [] ∨ zeros mods = true.
Proof.
  unfold width, zeros. pose proof (digits_only mods) as Hd. destruct (filter _ mods) as [|c l]; [by left|]. intros Hw. right.
  apply Forall_cons in Hd as [Hc Hl]. cbn [foldl] in Hw. unfold is_digit in Hc. zbool.
  pose proof (width_from (0 * 10 + (c - 48)) l ltac:(lia) Hl). assert (c = 48) as -> by lia. done.
Qed.

Lemma zeros_snoc mods c :
  zeros (mods ++ [c]) = if is_digit c then (if decide (filter (λ c, is_digit c = true) mods = []) then c =? 48 else zeros mods) else zeros mods.
Proof.
  unfold zeros. rewrite filter_snoc_digit. destruct (is_digit c); [|by rewrite app_nil_r].
  destruct (filter _ mods) as [|d l]; [|done]. cbn. destruct (Z.eqb_spec c 48) as [->|Hne]; [done|].
  destruct c as [|p|p]; try done. repeat (destruct p as [p|p|]; try done).
Qed.

Lemma zeros_width mods : 0 < width mods → filter (λ c, is_digit c = true) mods ≠ [].
Proof. unfold width. intros Hw E. rewrite E in Hw. by cbn in Hw. Qed.

Lemma elem_snoc (c x : Z) mods : bool_decide (c ∈ mods ++ [x]) = bool_decide (c ∈ mods) || (x =? c).
Proof.
  apply Bool.eq_iff_eq_true. rewrite orb_true_iff, !bool_decide_eq_true, elem_of_app, list_elem_of_singleton, Z.eqb_eq. naive_solver.
Qed.

Lemma size_snoc mods c : size_of (mods ++ [c]) = size_step (size_of mods) c.
Proof. unfold size_of. by rewrite foldl_app. Qed.

Lemma int_of_small x : 0 ≤ x ≤ INT_MAX → int_of x = Some x.
Proof. unfold int_of, INT_MAX. intros Hx. rewrite (proj2 (Z.leb_le _ x)), (proj2 (Z.leb_le x _)) by lia. done. Qed.

Lemma modifier_run mods c pf :
  is_modifier c = true → width (mods ++ [c]) ≤ INT_MAX → fld pf = st_of mods 0 0 0 false →
  __pf_modifier c pf = Some (set_fld (st_of (mods ++ [c]) 0 0 0 false) pf).
Proof.
  intros Hc Hw Hf. unfold __pf_modifier. rewrite Hf. unfold st_of at 1.
  unfold st_of. rewrite size_snoc, !elem_snoc, zeros_snoc. pose proof (width_nonneg (mods ++ [c])) as Hn. pose proof (width_nonneg mods) as Hn0.
  rewrite width_snoc in *. unfold size_step.
  apply bool_decide_eq_true in Hc. rewrite !elem_of_cons, elem_of_nil in Hc.
  repeat (destruct Hc as [->|Hc]; [|]); [..|done]; cbn [Z.eqb Pos.eqb is_digit andb Z.leb Z.ltb Z.compare Pos.compare Pos.compare_cont] in *;
    rewrite ?orb_false_r, ?orb_true_r; try done.
  { destruct (Z.ltb_spec 0 (width mods)) as [Hp|Hp];
      change (if is_digit 48 then width mods * 10 + (48 - 48) else width mods) with (width mods * 10 + 0) in *.
    - rewrite Z.add_0_r in *. rewrite int_of_small by lia. cbn [mbind option_bind]. rewrite decide_False by (by apply zeros_width). done.
    - assert (width mods = 0) as Hz by lia. rewrite Hz. destruct (width_zero mods Hz) as [Hnil|Hzs].
      + by rewrite decide_True by done.
      + rewrite Hzs. by destruct (decide _). }
  all: rewrite int_of_small by (cbn in *; lia); cbn [mbind option_bind]; do 3 f_equal.
  all: destruct (decide _) as [E|E]; [unfold zeros; by rewrite E|done].
Qed.

Lemma width_app m1 m2 : width m1 ≤ width (m1 ++ m2).
Proof. unfold width. rewrite filter_app, foldl_app. apply width_from; [apply (width_nonneg m1)|apply digits_only]. Qed.

Lemma modifiers_run m1 m2 pf :
  Forall (λ c, is_modifier c = true) m2 → width (m1 ++ m2) ≤ INT_MAX → fld pf = st_of m1 0 0 0 false →
  send_all sendfunc m2 pf = Some (set_fld (st_of (m1 ++ m2) 0 0 0 false) pf).
Proof.
  intros Hm. revert m1 pf. induction Hm as [|c m2 Hc _ IH]; intros m1 pf Hw Hf; cbn [send_all].
  { rewrite app_nil_r, <- Hf. by destruct pf. }
  replace (m1 ++ c :: m2) with ((m1 ++ [c]) ++ m2) in * by (by rewrite <- app_assoc).
  unfold __pf_send. rewrite Hc, Hf. cbn [in_pct st_of negb andb].
  destruct (Z.eqb_spec c 0) as [->|_]; [done|]. rewrite (modifier_run m1 c pf) by (try done; pose proof (width_app (m1 ++ [c]) m2); lia).
  cbn [mbind option_bind]. by rewrite (IH (m1 ++ [c])) by done.
Qed.

(** ** Conversions *)

Lemma padded_len mods pre body : zlen (pre ++ body) ≤ zlen (padded mods pre body).
Proof. unfold padded. case_bool_decide; [|destruct (zeros mods)]; rewrite !length_app, length_replicate; lia. Qed.

Lemma getnum_run mods ch n l pf :
  is_integer ch = true → spec_int mods ch (ap pf) = Some (n, l) → fld pf = st_of mods 0 0 0 false →
  __pf_getnum ch pf = Some (Pf (clientdata pf) l (charcount pf) (st_of mods (Z.abs n) (if n <? 0 then -1 else 0) 0 false)) ∧
  Z.abs n < 2 ^ 64.
Proof.
  intros Hch Hs Hf. unfold spec_int in Hs. unfold __pf_getnum, arg_word, arg_llong. rewrite Hf. cbn [st_of pf_size sign].
  assert (Hu : ∀ w x, 0 < w ≤ 64 → 0 ≤ wrap w x < 2 ^ 64).
  { intros w x Hw. pose proof (wrap_range w x ltac:(lia)). pose proof (Z.pow_le_mono_r 2 w 64). lia. }
  assert (Hi : ∀ w x, 0 < w ≤ 64 → - 2 ^ 63 ≤ swrap w x < 2 ^ 63).
  { intros w x Hw. pose proof (swrap_range w x ltac:(lia)). pose proof (Z.pow_le_mono_r 2 (w - 1) 63). lia. }
  assert (Hpos : ∀ m, 0 ≤ m → Z.abs m = m ∧ (m <? 0) = false) by (intros m Hm; split; [lia|by apply Z.ltb_ge]).
  assert (Hd : ∀ m, - 2 ^ 63 ≤ m < 2 ^ 63 → (m <? 0) = true → u64 (- m) = Z.abs m) by (intros m Hm Hlt; zbool; rewrite wrap_small by lia; lia).
  assert (Hd' : ∀ m, - 2 ^ 63 ≤ m < 2 ^ 63 → (m <? 0) = false → u64 m = Z.abs m) by (intros m Hm Hlt; zbool; rewrite wrap_small by lia; lia).
  assert (Hsg : ∀ m args, - 2 ^ 63 ≤ m < 2 ^ 63 →
    (if m <? 0 then Some (set_num (u64 (- m)) (-1) (Pf (clientdata pf) args (charcount pf) (st_of mods 0 0 0 false)))
     else Some (set_num (u64 m) 0 (Pf (clientdata pf) args (charcount pf) (st_of mods 0 0 0 false)))) =
    Some (Pf (clientdata pf) args (charcount pf) (st_of mods (Z.abs m) (if m <? 0 then -1 else 0) 0 false))).
  { intros m args Hm. destruct (m <? 0) eqn:E; cbn [set_num fld st_of set_fld clientdata ap charcount]; by rewrite ?Hd, ?Hd'. }
  assert (Hun : ∀ m args, 0 ≤ m → Some (set_num m 0 (Pf (clientdata pf) args (charcount pf) (st_of mods 0 0 0 false))) =
    Some (Pf (clientdata pf) args (charcount pf) (st_of mods (Z.abs m) (if m <? 0 then -1 else 0) 0 false))).
  { intros m args Hm. by destruct (Hpos m Hm) as [-> ->]. }
  destruct (ap pf) as [|[x|x|s] args]; [done| | |done]; cbn [mbind option_bind sign st_of fld].
  - pose proof (Hu 32 x ltac:(lia)). pose proof (Hi 32 x ltac:(lia)).
    destruct (Z.eqb_spec ch 112) as [->|Hp]; cbn [negb andb] in Hs.
    { injection Hs as <- <-. change (112 =? 100) with false. cbv iota. split; [apply Hun; lia|lia]. }
    case_bool_decide as Hsz; [done|]. injection Hs as <- <-. destruct (Z.eqb_spec ch 100) as [->|Hne].
    + split; [|lia]. rewrite <- Hsg by done. by destruct (size_of mods).
    + split; [|lia]. rewrite <- Hun by lia. by destruct (size_of mods).
  - pose proof (Hu 64 x ltac:(lia)). pose proof (Hi 64 x ltac:(lia)).
    destruct (Z.eqb_spec ch 112) as [->|Hp]; cbn [negb andb] in Hs; [done|].
    case_bool_decide as Hsz; [|done]. injection Hs as <- <-. destruct (Z.eqb_spec ch 100) as [->|Hne].
    + split; [|lia]. rewrite <- Hsg by done. by rewrite Hsz.
    + split; [|lia]. rewrite <- Hun by lia. by rewrite Hsz.
Qed.

Lemma setbase_run mods n sg ch pf :
  is_integer ch = true → fld pf = st_of mods n sg 0 false →
  __pf_setbase ch pf = set_fld (st_of mods n sg (int_base ch) (bool_decide (35 ∈ mods) || (ch =? 112))) pf.
Proof.
  intros Hch Hf. unfold __pf_setbase. rewrite Hf. unfold st_of at 1. apply bool_decide_eq_true in Hch.
  rewrite !elem_of_cons, elem_of_nil in Hch. unfold st_of, int_base.
  repeat (destruct Hch as [->|Hch]; [by destruct (bool_decide (35 ∈ mods))|]). done.
Qed.

Lemma int_base_range ch : 8 ≤ int_base ch ≤ 16.
Proof. unfold int_base. destruct (_ || _); [lia|]. destruct (ch =? 111); lia. Qed.

Lemma printnum_sends mods n ch pf :
  counted pf → Z.abs n < 2 ^ 64 → zlen (int_text mods ch n) < 2 ^ 31 →
  fld pf = st_of mods (Z.abs n) (if n <? 0 then -1 else 0) (int_base ch) (bool_decide (35 ∈ mods) || (ch =? 112)) →
  ∃ pf', __pf_printnum sendfunc pf = Some pf' ∧ sends pf pf' (int_text mods ch n).
Proof.
  intros Hc Hn Hlen Hf. destruct (printnum_text (Z.abs n) (int_base ch) (int_base_range ch) ltac:(lia)) as (buf & x & Hrun & Ht).
  unfold __pf_printnum. rewrite Hf. cbn [st_of num base baseprefix sign]. rewrite Hrun. cbn [mbind option_bind]. rewrite Ht.
  eexists. split; [done|]. unfold int_text in *.
  assert (Hs : (if negb ((if n <? 0 then -1 else 0) =? 0) then [45] else []) = if n <? 0 then [45] else []) by (by destruct (n <? 0)).
  rewrite Hs. clear Hs. set (pre1 := if n <? 0 then [45] else []) in *.
  set (pre2 := if bool_decide (35 ∈ mods) || (ch =? 112) then _ else _) in *.
  assert (Hp2 : (if (bool_decide (35 ∈ mods) || (ch =? 112)) && (int_base ch =? 16) then [48; 120]
    else if (bool_decide (35 ∈ mods) || (ch =? 112)) && (int_base ch =? 8) then [48] else []) = pre2).
  { unfold pre2. by destruct (bool_decide (35 ∈ mods) || (ch =? 112)). }
  rewrite Hp2. eapply printstuff_sends; [done|done|]. pose proof (padded_len mods (pre1 ++ pre2) (numeral (int_base ch) (Z.abs n))) as Hp.
  rewrite <- app_assoc in Hp. lia.
Qed.

Lemma conversion_run mods ch t args pf :
  counted pf → fld pf = st_of mods 0 0 0 false → is_modifier ch = false → ch ≠ 0 →
  spec_conversion mods ch (ap pf) = Some (t, args) → zlen t < 2 ^ 31 →
  ∃ pf', __pf_send sendfunc ch pf = Some pf' ∧ sent pf pf' t ∧ ap pf' = args ∧ fld pf' = end_field.
Proof.
  intros Hc Hf Hm Hz Hs Hlen. unfold __pf_send, spec_conversion in *. rewrite (proj2 (Z.eqb_neq ch 0)) by done. rewrite Hf, Hm. cbn [in_pct st_of negb andb].
  assert (Hend : ∀ pf0 pf1, sends pf0 pf1 t → clientdata pf0 = clientdata pf → charcount pf0 = charcount pf → ap pf0 = args →
    sent pf (__pf_endfield pf1) t ∧ ap (__pf_endfield pf1) = args ∧ fld (__pf_endfield pf1) = end_field).
  { intros pf0 pf1 [[T N] A F] E1 E2 E3. rewrite E1 in T. rewrite E2 in N. split; [by split|]. split; [cbn; congruence|done]. }
  assert (Hstuff : ∀ body pf0, clientdata pf0 = clientdata pf → charcount pf0 = charcount pf → ap pf0 = args → fld pf0 = fld pf →
    t = padded mods [] body → ∃ pf', Some (__pf_endfield (__pf_printstuff sendfunc [] [] body pf0)) = Some pf' ∧
      sent pf pf' t ∧ ap pf' = args ∧ fld pf' = end_field).
  { intros body pf0 E1 E2 E3 E4 ->. eexists. split; [done|]. eapply (Hend pf0); try done.
    eapply (printstuff_sends mods 0 0 0 false [] []); [unfold counted; by rewrite E2|by rewrite E4|].
    pose proof (padded_len mods [] body). cbn [app] in *. lia. }
  destruct (is_integer ch) eqn:Hint.
  - destruct (spec_int mods ch (ap pf)) as [[n l]|] eqn:Hn; [|done]. cbn in Hs. injection Hs as <- <-.
    destruct (getnum_run mods ch n l pf Hint Hn Hf) as [-> Habs]. cbn [mbind option_bind].
    set (pf0 := Pf _ l _ _). rewrite (setbase_run mods (Z.abs n) (if n <? 0 then -1 else 0)) by done.
    destruct (printnum_sends mods n ch (set_fld (st_of mods (Z.abs n) (if n <? 0 then -1 else 0) (int_base ch) (bool_decide (35 ∈ mods) || (ch =? 112))) pf0)) as (pf1 & Hrun & Hsend); try done.
    rewrite Hrun. cbn [mbind option_bind]. eexists. split; [done|]. by eapply Hend.
  - destruct (ch =? 115).
    { unfold arg_str. destruct (ap pf) as [|[x|x|s] l]; try done. injection Hs as <- <-. cbn [mbind option_bind]. by apply Hstuff. }
    destruct (ch =? 99).
    { unfold arg_word. destruct (ap pf) as [|[x|x|s] l]; try done. injection Hs as <- <-. cbn [mbind option_bind]. by apply Hstuff. }
    injection Hs as <- <-. cbn [mbind option_bind]. apply Hstuff; try done. cbn [until_nul]. by rewrite (proj2 (Z.eqb_neq ch 0)).
Qed.

(** ** Whole formats *)

Lemma send_all_app a b pf : send_all sendfunc (a ++ b) pf = (pf ← send_all sendfunc a pf; send_all sendfunc b pf).
Proof. revert pf. induction a as [|c a IH]; intros pf; [done|]. cbn. destruct (__pf_send sendfunc c pf); [apply IH|done]. Qed.

Lemma vprintf_go fuel fmt pf txt :
  spec_go fuel fmt (ap pf) = Some txt → counted pf → fld pf = end_field → Forall (λ c, c ≠ 0) fmt → zlen txt < 2 ^ 31 →
  ∃ pf', send_all sendfunc fmt pf = Some pf' ∧ sent pf pf' txt.
Proof.
  revert fmt pf txt. induction fuel as [|fuel IH]; intros fmt pf txt Hs Hc Hf Hnz Hlen; [done|]. cbn [spec_go] in Hs.
  destruct fmt as [|c r]; [injection Hs as <-; exists pf; split; [done|by apply sent_refl]|].
  apply Forall_cons in Hnz as [Hc0 Hnz]. cbn [send_all]. unfold __pf_send at 1. rewrite Hf, (proj2 (Z.eqb_neq c 0)) by done. cbn [in_pct end_field negb andb].
  destruct (Z.eqb_spec c 37) as [->|Hpct]; cbn [negb andb mbind option_bind] in *.
  - set (pf1 := set_fld _ pf). pose proof (span_spec is_modifier r) as (Hr & Hmods & Hnext). destruct (span is_modifier r) as [mods r']. cbn in Hr, Hmods, Hnext.
    subst r. apply Forall_app in Hnz as [_ Hnz]. destruct (Z.leb_spec (width mods) INT_MAX) as [Hw|]; [|done]. cbn [negb] in Hs.
    rewrite send_all_app, (modifiers_run [] mods pf1) by done. cbn [mbind option_bind app].
    set (pf2 := set_fld _ pf1). destruct r' as [|ch r''].
    { injection Hs as <-. exists pf2. split; [done|]. split; [by exists []|]. cbn. by rewrite Z.add_0_r. }
    apply Forall_cons in Hnz as [Hch Hnz].
    destruct (spec_conversion mods ch (ap pf)) as [[t args]|] eqn:Hconv; [|done]. cbn in Hs.
    destruct (spec_go fuel r'' args) as [t'|] eqn:Hgo; [|done]. injection Hs as <-. rewrite length_app in Hlen.
    destruct (conversion_run mods ch t args pf2) as (pf3 & Hrun & Hsent & Hap & Hfld); try done; [lia|].
    cbn [send_all]. rewrite Hrun. cbn [mbind option_bind]. rewrite <- Hap in Hgo.
    destruct (IH r'' pf3 t' Hgo) as (pf4 & Hrun' & Hsent'); [by eapply sent_counted|done|done|lia|].
    exists pf4. split; [done|]. apply (sent_trans pf pf3); [|done]. destruct Hsent as [T N]. by split.
  - destruct (spec_go fuel r (ap pf)) as [t|] eqn:Hgo; [|done]. injection Hs as <-. cbn [length] in Hlen.
    destruct (IH r (__pf_print sendfunc [c] pf) t Hgo) as (pf' & Hrun & Hsent); [eapply sent_counted, ss_sent, print_sends|done|done|lia|].
    exists pf'. split; [done|]. eapply (sent_trans _ _ _ [c]); [apply ss_sent, print_sends|done].
Qed.

Lemma vprintf_run cl fmt args txt :
  spec_printf fmt args = Some txt → Forall (λ c, c ≠ 0) fmt → zlen txt < 2 ^ 31 →
  ∃ chunks, __vprintf sendfunc cl fmt args = Some (zlen txt, foldl sendfunc cl chunks) ∧ concat chunks = txt.
Proof.
  intros Hs Hnz Hlen. destruct (vprintf_go _ fmt (Pf cl args 0 end_field) txt Hs) as (pf' & Hrun & [(chunks & Hch & Htxt) Hcount]); try done.
  exists chunks. split; [|done]. unfold __vprintf. rewrite Hrun. cbn [mbind option_bind]. cbn in Hcount, Hch.
  rewrite Hcount, Hch, (swrap_small 32) by lia. done.
Qed.

End sending.

(** ** The buffer *)

Lemma snprintf_send_app snp a b : __snprintf_send snp (a ++ b) = __snprintf_send (__snprintf_send snp a) b.
Proof. revert snp. induction a as [|c a IH]; intros snp; [done|]. apply IH. Qed.

Lemma snprintf_send_concat snp chunks : foldl __snprintf_send snp chunks = __snprintf_send snp (concat chunks).
Proof. revert snp. induction chunks as [|c l IH]; intros snp; [done|]. cbn [foldl concat]. by rewrite IH, snprintf_send_app. Qed.

(** What fits is stored, the rest is dropped. *)
Lemma snprintf_send_run m buf len pos txt :
  0 ≤ buf → buf + len < 2 ^ 32 → 0 ≤ pos ≤ len →
  let snp := __snprintf_send (Snp m buf len pos) txt in
  snp_bufpos snp = Z.min len (pos + zlen txt) ∧
  ∀ a, snp_mem snp a = if decide (buf + pos ≤ a < buf + Z.min len (pos + zlen txt)) then default 0 (arr_get txt (a - buf - pos)) else m a.
Proof.
  intros Hb Hl. revert m pos. induction txt as [|c txt IH]; intros m pos Hp; cbn [__snprintf_send snp_bufpos snp_buflen snp_mem snp_buf].
  { cbn. split; [lia|]. intros a. by rewrite decide_False by lia. }
  destruct (Z.ltb_spec pos len) as [Hlt|Hge]; cbn [length].
  - rewrite (wrap_small 32) by lia. destruct (IH (upd m (buf + pos) c) (pos + 1) ltac:(lia)) as [H1 H2].
    split; [rewrite H1; lia|]. intros a. rewrite H2. unfold upd. repeat case_decide; try lia; try done.
    + by rewrite arr_get_tl, <- !Z.sub_add_distr, Z.add_assoc by lia.
    + subst a. replace (buf + pos - buf - pos) with 0 by lia. done.
  - destruct (IH m pos Hp) as [H1 H2]. split; [rewrite H1; lia|]. intros a. rewrite H2. repeat case_decide; try lia; done.
Qed.

(** ** Theorems *)

(** C31: [__vprintf] prints what its format says.  For a format and arguments that fit together ([spec_printf] gives the
    text, conversion by conversion: flags, width, padding, sign, base prefix; as in the code and not as in the manual, a
    character that is none of d, u, o, x, p, s and c, such as X, stands for itself and takes no argument), it
    fails no assertion and stays inside its buffer of digits, the client's function
    receives exactly the text, in some pieces, and the
    length of the text is returned.  Integers of up to 64 bits are printed as the
    numeral in their base that denotes them and has no leading zero. *)
Theorem vprintf_prints {C} (sendfunc : C → list Z → C) cl fmt args txt :
  spec_printf fmt args = Some txt → Forall (λ c, c ≠ 0) fmt → zlen txt < 2 ^ 31 →
  (∃ chunks, __vprintf sendfunc cl fmt args = Some (zlen txt, foldl sendfunc cl chunks) ∧ concat chunks = txt) ∧
  ∀ b n, 2 ≤ b ≤ 16 → 0 ≤ n < 2 ^ 64 → is_numeral b n (numeral b n).
Proof. intros Hs Hf Hl. split; [by apply vprintf_run|apply numeral_spec]. Qed.

(** [snprintf] never writes outside its buffer of [len] bytes.  It stores
    the beginning of the text, as much as fits before a terminator, and the terminator, and
    returns the length of the whole text; with a length of 0 it
    writes nothing. *)
Theorem snprintf_bounded m buf len fmt args txt :
  spec_printf fmt args = Some txt → Forall (λ c, c ≠ 0) fmt → zlen txt < 2 ^ 31 → 0 ≤ buf < 2 ^ 32 → 0 ≤ len → buf + len ≤ 2 ^ 32 →
  ∃ m', snprintf m buf len fmt args = Some (zlen txt, m') ∧
    ∀ a, m' a =
      let n := Z.min (len - 1) (zlen txt) in
      if decide (0 < len ∧ a = buf + n) then 0
      else if decide (buf ≤ a < buf + n) then default 0 (arr_get txt (a - buf)) else m a.
Proof.
  intros Hs Hf Hl Hb H0 Hlen. unfold snprintf, vsnprintf.
  destruct (vprintf_run __snprintf_send (Snp m buf (if len =? 0 then 0 else len - 1) 0) fmt args txt Hs Hf Hl) as (chunks & -> & Hch).
  cbn [mbind option_bind]. rewrite snprintf_send_concat, Hch. eexists. split; [done|]. intros a. cbv zeta.
  destruct (Z.eqb_spec len 0) as [->|Hne].
  - cbn [Z.ltb Z.compare]. destruct (snprintf_send_run m buf 0 0 txt) as [_ ->]; try lia. repeat case_decide; try lia; done.
  - rewrite (proj2 (Z.ltb_lt 0 len)) by lia. destruct (snprintf_send_run m buf (len - 1) 0 txt) as [Hpos Hmem]; try lia.
    unfold upd. rewrite Hpos, Hmem, (wrap_small 32) by lia. rewrite Z.sub_0_r. repeat case_decide; try lia; done.
Qed.

(** ** Examples *)

(** "%-5d|%05d|%#x|%s %lld" *)
Definition demo_format : list Z := s2z "%-5d|%05d|%#x|%s %lld"%string.
Definition demo_args : list va := [Word 42; Word (2 ^ 32 - 42); Word 255; Str (Some (s2z "abc"%string)); Llong (2 ^ 63)].
Definition demo_text : list Z := s2z "42   |-0042|0xff|abc -9223372036854775808"%string.

(** Zeros on the right of a number that is aligned to the left change it. *)
Example left_zeros : spec_printf (s2z "%-05d"%string) [Word 5] = Some (s2z "50000"%string).
Proof. by vm_compute. Qed.

(** The manual has an X for hexadecimal numbers in upper case; the code knows no such type, prints the letter, and leaves the argument to the
    next conversion. *)
Example upper_hex_unknown : __vprintf (λ l t, l ++ t) [] (s2z "%X %x"%string) [Word 171; Word 205] = Some (4, s2z "X ab"%string).
Proof. by vm_compute. Qed.

Lemma vprintf_prints_witness :
  (∃ chunks, __vprintf (λ l t, l ++ t) [] demo_format demo_args = Some (zlen demo_text, foldl (λ l t, l ++ t) [] chunks) ∧ concat chunks = demo_text) ∧
  ∀ b n, 2 ≤ b ≤ 16 → 0 ≤ n < 2 ^ 64 → is_numeral b n (numeral b n).
Proof. apply vprintf_prints; [by vm_compute|by repeat constructor|by vm_compute]. Defined.

Lemma snprintf_bounded_witness :
  ∃ m', snprintf (λ _, 7) 4096 10 demo_format demo_args = Some (41, m') ∧ m' 4095 = 7 ∧ m' 4096 = 52 ∧ m' 4105 = 0 ∧ m' 4106 = 7.
Proof.
  destruct (snprintf_bounded (λ _, 7) 4096 10 demo_format demo_args demo_text) as (m' & H & Hm);
    [by vm_compute|by repeat constructor|by vm_compute|done|done|done|].
  exists m'. split; [exact H|]. rewrite !Hm. clear H Hm. vm_compute. repeat split.
Defined.
