(* ===== verification/Uio.v ===== *)
(** * Uio: kern/lib/uio.c, moving data between kernel buffers and the regions of a request

    A request ([uio]) names regions of kernel memory, an offset into the object and the amount still to move.
    The buffers of the code that serves the request are lists of bytes.  Requests from user space
    move the same data with copyin and copyout (Copyinout.v); here the regions are in
    the kernel ([UIO_SYSSPACE]).  [None] is a panic. *)

From Stdlib Require Import ZArith Lia.
From stdpp Require Import base list option list_numbers.
From S2P Require Import Prelude Strings.
Set Default Goal Selector "!".
Open Scope Z_scope.

Inductive uio_dir := UIO_READ | UIO_WRITE.

Record uio := Uio {
  uio_iov : list (Z * Z);    (* address and length *)
  uio_offset : Z;
  uio_resid : Z;
  uio_rw : uio_dir;
}.

Definition set_offset (x : Z) (u : uio) : uio := Uio (uio_iov u) x (uio_resid u) (uio_rw u).
Definition set_resid (x : Z) (u : uio) : uio := Uio (uio_iov u) (uio_offset u) x (uio_rw u).

Definition put_bytes (m : mem) (p : Z) (l : list Z) : mem := λ a,
  if decide (p ≤ a < p + zlen l) then default 0 (arr_get l (a - p)) else m a.
Definition get_bytes (m : mem) (p n : Z) : list Z := m <$> seqZ p n.

(** Into the buffer, at the index [pos]. *)
Definition splice (buf : list Z) (pos : Z) (l : list Z) : list Z :=
  take (Z.to_nat pos) buf ++ l ++ drop (Z.to_nat pos + length l) buf.

(** The loop of [uiomove] on the regions; when a region is used up the next round goes to the next one. *)
Fixpoint uiomove_loop (iov : list (Z * Z)) (buf : list Z) (pos n : Z) (off resid : Z) (rw : uio_dir) (m : mem) : option (list Z * uio * mem) :=
  if negb ((0 <? n) && (0 <? resid)) then Some (buf, Uio iov off resid rw, m)
  else
    match iov with
    | [] => None
    | (base, len) :: rest =>
        let size := if n <? len then n else len in
        if size =? 0 then
          match rest with [] => None | _ => uiomove_loop rest buf pos n off resid rw m end
        else
          let buf' := match rw with UIO_READ => buf | UIO_WRITE => splice buf pos (get_bytes m base size) end in
          let m' := match rw with UIO_READ => put_bytes m base (take (Z.to_nat size) (drop (Z.to_nat pos) buf)) | UIO_WRITE => m end in
          let resid' := u32 (resid - size) in
          let off' := i64 (off + size) in
          let n' := n - size in
          if negb ((0 <? n') && (0 <? resid')) then Some (buf', Uio ((u32 (base + size), len - size) :: rest) off' resid' rw, m')
          else match rest with [] => None | _ => uiomove_loop rest buf' (pos + size) n' off' resid' rw m' end
    end.

(** [uiomove(buf + pos, n, uio)]. *)
Definition uiomove (buf : list Z) (pos n : Z) (u : uio) (m : mem) : option (list Z * uio * mem) :=
  uiomove_loop (uio_iov u) buf pos n (uio_offset u) (uio_resid u) (uio_rw u) m.

Fixpoint zeros_loop (fuel : nat) (n : Z) (u : uio) (m : mem) : option (uio * mem) :=
  match fuel with
  | O => None
  | S fuel' =>
      if 0 <? n then
        let amt := if n <? 16 then n else 16 in
        '(_, u, m) ← uiomove (replicate 16 0) 0 amt u m;
        zeros_loop fuel' (n - amt) u m
      else Some (u, m)
  end.

Definition uiomovezeros (n : Z) (u : uio) (m : mem) : option (uio * mem) :=
  match uio_rw u with UIO_READ => zeros_loop (S (Z.to_nat n)) n u m | UIO_WRITE => None end.

Definition uio_kinit (kbuf len pos : Z) (rw : uio_dir) : uio := Uio [(kbuf, len)] pos len rw.

(** ** One region *)

Lemma length_get_bytes m p n : 0 ≤ n → zlen (get_bytes m p n) = n.
Proof. intros Hn. unfold get_bytes. rewrite length_fmap, length_seqZ. lia. Qed.

Lemma get_bytes_at m p n i : 0 ≤ i < n → arr_get (get_bytes m p n) i = Some (m (p + i)).
Proof.
  intros Hi. rewrite arr_get_nonneg by lia. unfold get_bytes. rewrite list_lookup_fmap, lookup_seqZ_lt by lia. cbn. do 2 f_equal. lia.
Qed.

(** One region of memory, with room for the request. *)
Record region (u : uio) (base len : Z) : Prop := {
  rg_iov : uio_iov u = [(base, len)];
  rg_base : 0 ≤ base;
  rg_end : base + len < 2 ^ 32;
  rg_resid : 0 ≤ uio_resid u ≤ len;
  rg_off : 0 ≤ uio_offset u ∧ uio_offset u + uio_resid u < 2 ^ 62;
}.

(** The request after [n] bytes. *)
Definition advanced (u : uio) (n : Z) : uio :=
  Uio (match uio_iov u with (base, len) :: l => (base + n, len - n) :: l | [] => [] end)
    (uio_offset u + n) (uio_resid u - n) (uio_rw u).

Lemma advanced_region u base len n :
  region u base len → 0 ≤ n ≤ uio_resid u → region (advanced u n) (base + n) (len - n).
Proof. intros [H1 H2 H3 H4 H5] Hn. unfold advanced. rewrite H1. split; cbn; [done|lia|lia|lia|lia]. Qed.

Lemma advanced_0 u : advanced u 0 = u.
Proof. destruct u as [[|[base len] l] off resid rw]; unfold advanced; cbn; by rewrite ?Z.add_0_r, ?Z.sub_0_r. Qed.

Lemma advanced_advanced u a b : advanced (advanced u a) b = advanced u (a + b).
Proof.
  destruct u as [[|[base len] l] off resid rw]; unfold advanced; cbn; f_equal; try lia. do 2 f_equal; lia.
Qed.

(** [uiomove] within one region moves exactly [n] bytes. *)
Lemma uiomove_one buf pos n u base len m :
  region u base len → 0 < n ≤ uio_resid u →
  uiomove buf pos n u m = Some (
    match uio_rw u with UIO_READ => buf | UIO_WRITE => splice buf pos (get_bytes m base n) end,
    advanced u n,
    match uio_rw u with UIO_READ => put_bytes m base (take (Z.to_nat n) (drop (Z.to_nat pos) buf)) | UIO_WRITE => m end).
Proof.
  intros [H1 H2 H3 H4 H5] Hn. unfold uiomove, advanced. rewrite H1. cbn [uiomove_loop].
  rewrite (proj2 (Z.ltb_lt 0 n)), (proj2 (Z.ltb_lt 0 (uio_resid u))) by lia. cbn [andb negb].
  assert (Hs : (if n <? len then n else len) = n) by (destruct (Z.ltb_spec n len); lia).
  rewrite Hs, (proj2 (Z.eqb_neq n 0)), Z.sub_diag by lia. cbn [Z.ltb Z.compare andb negb].
  rewrite (wrap_small 32 (base + n)), (wrap_small 32 (uio_resid u - n)) by lia.
  rewrite (swrap_small 64) by lia. done.
Qed.

Lemma put_bytes_at m p l a :
  put_bytes m p l a = if decide (p ≤ a < p + zlen l) then default 0 (arr_get l (a - p)) else m a.
Proof. done. Qed.

(** [uiomovezeros] fills [n] bytes with zeros. *)
Lemma zeros_run fuel n u base len m :
  region u base len → uio_rw u = UIO_READ → 0 ≤ n ≤ uio_resid u → (Z.to_nat n < fuel)%nat →
  ∃ m', zeros_loop fuel n u m = Some (advanced u n, m') ∧
    ∀ a, m' a = if decide (base ≤ a < base + n) then 0 else m a.
Proof.
  revert n u base len m. induction fuel as [|fuel IH]; intros n u base len m Hu Hrw Hn Hf; [lia|].
  cbn [zeros_loop]. destruct (Z.ltb_spec 0 n) as [Hpos|Hpos].
  2: { assert (n = 0) as -> by lia. rewrite advanced_0. eexists. split; [done|]. intros a. by rewrite decide_False by lia. }
  set (amt := if n <? 16 then n else 16). assert (Ha : 0 < amt ≤ n ∧ amt ≤ 16) by (unfold amt; destruct (Z.ltb_spec n 16); lia).
  rewrite (uiomove_one _ _ _ u base len) by (done || lia). rewrite Hrw. cbv beta iota delta [mbind option_bind].
  edestruct (IH (n - amt) (advanced u amt) (base + amt) (len - amt)) as (m' & Hrun & Hm);
    [by apply advanced_region; [|lia]|done|cbn; lia|lia|].
  rewrite Hrun, advanced_advanced. replace (amt + (n - amt)) with n by lia. eexists. split; [done|].
  intros a. rewrite Hm, put_bytes_at, drop_0. rewrite take_replicate, Nat.min_l by lia. rewrite length_replicate, Z2Nat.id by lia.
  destruct (decide (base ≤ a < base + n)) as [Hin|Hout].
  - destruct (decide (base + amt ≤ a < base + amt + (n - amt))) as [|Hno]; [done|]. rewrite decide_True by lia.
    rewrite arr_get_nonneg, lookup_replicate_2 by lia. done.
  - rewrite !decide_False by lia. done.
Qed.
