(* ===== verification/Console.v ===== *)
(** * The console: kern/dev/generic/console.c, kern/dev/lamebus/lser.c and con_lser.c

    Characters go out through the serial device one at a time, and come in
    through its interrupts into a ring of 32 bytes.  Any number of threads on any
    processors call [putch]; interrupt handlers and code with interrupts off use
    the polled path of [putch]; the handler [lser_irq] runs on the boot processor
    (lamebus.c routes all interrupts there), so once at a time.

    A step is a critical section of [ls_lock], a call of [P] or [V], or one
    access to the ring, which no lock protects; an action [cdo] that is [None] is
    a panic.  A semaphore is its count: Synch.v shows that [P] passes as often as
    the count allows and that no wake-up is lost.  The serial device is hardware,
    the class [SerialLaws]; [line] is an instance. *)

From Stdlib Require Import ZArith Lia.
From stdpp Require Import base gmap list option.
From S2P Require Import Prelude.
Set Default Goal Selector "!".
Open Scope Z_scope.

(** ** The device *)

Definition LSER_REG_CHAR : Z := 0.
Definition LSER_REG_WIRQ : Z := 4.
Definition LSER_REG_RIRQ : Z := 8.
Definition LSER_IRQ_ENABLE : Z := 1.
Definition LSER_IRQ_ACTIVE : Z := 2.
Definition LSER_IRQ_FORCE : Z := 4.

(** What is known of the device: the character it is sending, whether it has
    reported the end of one, whether it may interrupt then, a character that has come in, and the
    characters that went out. *)
Record serial := Serial {
  ser_tx : option Z;
  ser_wactive : bool;
  ser_wenable : bool;
  ser_rx : option Z;
  ser_out : list Z;
}.

(** The registers, and what the device does by itself: end a transmission,
    receive a character. *)
Class SerialOps (H : Type) := {
  bus_read_register : H → Z → Z;
  bus_write_register : H → Z → Z → H;
  dev_done : H → H;
  dev_receive : H → Z → H;
}.

Class SerialLaws (H : Type) `{SerialOps H} (view : H → serial) := {
  read_wirq h :
    negb (Z.land (bus_read_register h LSER_REG_WIRQ) LSER_IRQ_ACTIVE =? 0) = ser_wactive (view h);
  read_rirq h :
    negb (Z.land (bus_read_register h LSER_REG_RIRQ) LSER_IRQ_ACTIVE =? 0) = bool_decide (is_Some (ser_rx (view h)));
  read_char h c : ser_rx (view h) = Some c → bus_read_register h LSER_REG_CHAR = c;
  write_char h c : ser_tx (view h) = None →
    view (bus_write_register h LSER_REG_CHAR c) =
    Serial (Some c) (ser_wactive (view h)) (ser_wenable (view h)) (ser_rx (view h)) (ser_out (view h));
  write_wirq h x : Z.testbit x 1 = false →
    view (bus_write_register h LSER_REG_WIRQ x) =
    Serial (ser_tx (view h)) false (Z.testbit x 0) (ser_rx (view h)) (ser_out (view h));
  write_rirq h x : Z.testbit x 1 = false →
    view (bus_write_register h LSER_REG_RIRQ x) =
    Serial (ser_tx (view h)) (ser_wactive (view h)) (ser_wenable (view h)) None (ser_out (view h));
  done_view h c : ser_tx (view h) = Some c →
    view (dev_done h) = Serial None true (ser_wenable (view h)) (ser_rx (view h)) (ser_out (view h) ++ [c]);
  receive_view h c : ser_rx (view h) = None →
    view (dev_receive h c) =
    Serial (ser_tx (view h)) (ser_wactive (view h)) (ser_wenable (view h)) (Some c) (ser_out (view h));
}.

Definition CONSOLE_INPUT_BUFFER_SIZE : Z := 32.

(** Where a call is: in [putch_intr] before [P] and before [lser_write]; in
    [lser_writepolled] before the lock, and polling with it before and after its
    character; in [lser_irq] before its lock, and then in [con_start] and
    [con_input]; in [getch_intr]. *)
Inductive pc :=
| PutP (ch : Z) | PutSend (ch : Z)
| PolledStart (ch : Z) | PolledFirst (ch : Z) | PolledDone (irqpending : bool)
| Irq | IrqStart (clear_to_write : bool) (got : option Z) | IrqInput (got : option Z)
| InStore (ch nexthead : Z) | InHead (ch nexthead : Z) | InV
| GetP | GetRead | GetTail (ret : Z).

#[export] Instance pc_eq_dec : EqDecision pc.
Proof. solve_decision. Defined.

(** [spinlock ls_lock] is the call that holds it. *)
Record lser_softc (H : Type) := Lser { ls_lock : option Z; ls_wbusy : bool; ls_dev : H }.
Arguments Lser {H} _ _ _.
Arguments ls_lock {H} _.
Arguments ls_wbusy {H} _.
Arguments ls_dev {H} _.

Record con_softc := Con {
  cs_rsem : Z;
  cs_wsem : Z;
  cs_gotchars : list Z;
  cs_gotchars_head : Z;
  cs_gotchars_tail : Z;
}.

(** The system, with three histories: the characters given to the device, put
    into the ring, and returned by [getch]. *)
Record csys (H : Type) := CSys {
  c_ls : lser_softc H;
  c_cs : con_softc;
  c_calls : gmap Z pc;
  h_written : list Z;
  h_accepted : list Z;
  h_delivered : list Z;
}.
Arguments CSys {H} _ _ _ _ _ _.
Arguments c_ls {H} _.
Arguments c_cs {H} _.
Arguments c_calls {H} _.
Arguments h_written {H} _.
Arguments h_accepted {H} _.
Arguments h_delivered {H} _.

Section console.
Context {H : Type} `{SerialOps H}.
Implicit Types (ls : lser_softc H) (cs : con_softc) (s : csys H).

(** ** lser.c *)

Definition write_reg (r x : Z) ls : lser_softc H := Lser (ls_lock ls) (ls_wbusy ls) (bus_write_register (ls_dev ls) r x).
Definition wactive ls : bool := negb (Z.land (bus_read_register (ls_dev ls) LSER_REG_WIRQ) LSER_IRQ_ACTIVE =? 0).
Definition set_lock (o : option Z) ls : lser_softc H := Lser o (ls_wbusy ls) (ls_dev ls).
Definition set_wbusy (b : bool) ls : lser_softc H := Lser (ls_lock ls) b (ls_dev ls).

(** [None]: the panic [lser: Not clear to write]. *)
Definition lser_write (ch : Z) ls : option (lser_softc H) :=
  if ls_wbusy ls then None
  else Some (write_reg LSER_REG_CHAR ch (set_wbusy true ls)).

(** From the lock to the first wait: with a transmission under way it waits for
    its end, otherwise it turns the interrupt off and sends. *)
Definition lser_writepolled_start (t ch : Z) ls : lser_softc H * pc :=
  let ls := set_lock (Some t) ls in
  if ls_wbusy ls then (ls, PolledFirst ch)
  else (write_reg LSER_REG_CHAR ch (write_reg LSER_REG_WIRQ 0 ls), PolledDone false).

(** The end of the other transmission is noted, with the interrupt still
    asserted, and the character is sent. *)
Definition lser_writepolled_send (ch : Z) ls : lser_softc H :=
  write_reg LSER_REG_CHAR ch (write_reg LSER_REG_WIRQ (Z.lor LSER_IRQ_FORCE LSER_IRQ_ENABLE) ls).

Definition lser_writepolled_end (irqpending : bool) ls : lser_softc H :=
  set_lock None (if irqpending then ls else write_reg LSER_REG_WIRQ LSER_IRQ_ENABLE ls).

(** The critical section of the interrupt handler: is the device clear to
    write, and what has come in? *)
Definition lser_irq ls : lser_softc H * bool * option Z :=
  let clear_to_write := wactive ls in
  let ls := if clear_to_write then write_reg LSER_REG_WIRQ LSER_IRQ_ENABLE (set_wbusy false ls) else ls in
  if negb (Z.land (bus_read_register (ls_dev ls) LSER_REG_RIRQ) LSER_IRQ_ACTIVE =? 0) then
    let ch := bus_read_register (ls_dev ls) LSER_REG_CHAR in
    (write_reg LSER_REG_RIRQ LSER_IRQ_ENABLE ls, clear_to_write, Some ch)
  else (ls, clear_to_write, None).

(** ** console.c *)

(** [V]: the count must not wrap to zero. *)
Definition sem_up (n : Z) : option Z := if u32 (n + 1) =? 0 then None else Some (u32 (n + 1)).

Definition set_wsem (n : Z) cs := Con (cs_rsem cs) n (cs_gotchars cs) (cs_gotchars_head cs) (cs_gotchars_tail cs).
Definition set_rsem (n : Z) cs := Con n (cs_wsem cs) (cs_gotchars cs) (cs_gotchars_head cs) (cs_gotchars_tail cs).
Definition set_head (n : Z) cs := Con (cs_rsem cs) (cs_wsem cs) (cs_gotchars cs) n (cs_gotchars_tail cs).
Definition set_tail (n : Z) cs := Con (cs_rsem cs) (cs_wsem cs) (cs_gotchars cs) (cs_gotchars_head cs) n.
Definition store_char (i ch : Z) cs :=
  Con (cs_rsem cs) (cs_wsem cs) (arr_set (cs_gotchars cs) i (u8 ch)) (cs_gotchars_head cs) (cs_gotchars_tail cs).

Definition con_start cs : option con_softc := n ← sem_up (cs_wsem cs); Some (set_wsem n cs).

(** The steps of [con_input]: the test for a full ring, the store, the new head, [V]. *)
Definition con_input_test (ch : Z) cs : option pc :=
  let nexthead := (cs_gotchars_head cs + 1) mod CONSOLE_INPUT_BUFFER_SIZE in
  if nexthead =? cs_gotchars_tail cs then None else Some (InStore ch nexthead).
Definition con_input_store (ch : Z) cs : con_softc := store_char (cs_gotchars_head cs) ch cs.
Definition con_input_head (nexthead : Z) cs : con_softc := set_head nexthead cs.
Definition con_input_V cs : option con_softc := n ← sem_up (cs_rsem cs); Some (set_rsem n cs).

(** The steps of [getch_intr]: [P], the character at the tail, the new tail. *)
Definition getch_P cs : con_softc := set_rsem (u32 (cs_rsem cs - 1)) cs.
Definition getch_read cs : option Z := arr_get (cs_gotchars cs) (cs_gotchars_tail cs).
Definition getch_tail cs : con_softc :=
  set_tail ((cs_gotchars_tail cs + 1) mod CONSOLE_INPUT_BUFFER_SIZE) cs.

Definition putch_P cs : con_softc := set_wsem (u32 (cs_wsem cs - 1)) cs.

(** How [putch] begins, with the state of the calling thread and processor. *)
Definition putch (t_in_interrupt : bool) (t_curspl c_spinlocks : Z) (ch : Z) : pc :=
  if t_in_interrupt || (0 <? t_curspl) || (0 <? c_spinlocks) then PolledStart ch else PutP ch.

(** [getch] asserts that it is not in an interrupt handler. *)
Definition getch (t_in_interrupt : bool) (t_iplhigh_count : Z) : option pc :=
  if negb t_in_interrupt && (t_iplhigh_count =? 0) then Some GetP else None.

(** ** The system *)

Definition set_call (t : Z) (p : pc) s : csys H :=
  CSys (c_ls s) (c_cs s) (<[t := p]> (c_calls s)) (h_written s) (h_accepted s) (h_delivered s).
Definition end_call (t : Z) s : csys H :=
  CSys (c_ls s) (c_cs s) (delete t (c_calls s)) (h_written s) (h_accepted s) (h_delivered s).
Definition set_ls ls s : csys H := CSys ls (c_cs s) (c_calls s) (h_written s) (h_accepted s) (h_delivered s).
Definition set_cs cs s : csys H := CSys (c_ls s) cs (c_calls s) (h_written s) (h_accepted s) (h_delivered s).
Definition log_written (ch : Z) s : csys H :=
  CSys (c_ls s) (c_cs s) (c_calls s) (h_written s ++ [ch]) (h_accepted s) (h_delivered s).
Definition log_accepted (ch : Z) s : csys H :=
  CSys (c_ls s) (c_cs s) (c_calls s) (h_written s) (h_accepted s ++ [ch]) (h_delivered s).
Definition log_delivered (ch : Z) s : csys H :=
  CSys (c_ls s) (c_cs s) (c_calls s) (h_written s) (h_accepted s) (h_delivered s ++ [ch]).

(** The next step of the call [t]. *)
Definition run_call (t : Z) (p : pc) s : option (csys H) :=
  match p with
  | PutP ch => Some (set_call t (PutSend ch) (set_cs (putch_P (c_cs s)) s))
  | PutSend ch => ls ← lser_write ch (c_ls s); Some (end_call t (log_written ch (set_ls ls s)))
  | PolledStart ch =>
      let '(ls, p') := lser_writepolled_start t ch (c_ls s) in
      Some (set_call t p' (if ls_wbusy (c_ls s) then set_ls ls s else log_written ch (set_ls ls s)))
  | PolledFirst ch =>
      Some (set_call t (PolledDone true) (log_written ch (set_ls (lser_writepolled_send ch (c_ls s)) s)))
  | PolledDone irqpending => Some (end_call t (set_ls (lser_writepolled_end irqpending (c_ls s)) s))
  | Irq =>
      let '(ls, clear_to_write, got) := lser_irq (c_ls s) in
      Some (set_call t (IrqStart clear_to_write got) (set_ls ls s))
  | IrqStart clear_to_write got =>
      if clear_to_write then cs ← con_start (c_cs s); Some (set_call t (IrqInput got) (set_cs cs s))
      else Some (set_call t (IrqInput got) s)
  | IrqInput None => Some (end_call t s)
  | IrqInput (Some ch) =>
      match con_input_test ch (c_cs s) with
      | None => Some (end_call t s)
      | Some p' => Some (set_call t p' s)
      end
  | InStore ch nexthead => Some (set_call t (InHead ch nexthead) (set_cs (con_input_store ch (c_cs s)) s))
  | InHead ch nexthead =>
      Some (set_call t InV (log_accepted (u8 ch) (set_cs (con_input_head nexthead (c_cs s)) s)))
  | InV => cs ← con_input_V (c_cs s); Some (end_call t (set_cs cs s))
  | GetP => Some (set_call t GetRead (set_cs (getch_P (c_cs s)) s))
  | GetRead => ret ← getch_read (c_cs s); Some (set_call t (GetTail ret) s)
  | GetTail ret => Some (end_call t (log_delivered ret (set_cs (getch_tail (c_cs s)) s)))
  end.

(** A call begins, a call goes on, the device ends a transmission, or receives. *)
Inductive con_act := ABegin (t : Z) (p : pc) | ARun (t : Z) | ADone | AReceive (ch : Z).

Definition set_dev (h : H) s : csys H := set_ls (Lser (ls_lock (c_ls s)) (ls_wbusy (c_ls s)) h) s.

Definition cdo (a : con_act) s : option (csys H) :=
  match a with
  | ABegin t p => Some (set_call t p s)
  | ARun t => p ← c_calls s !! t; run_call t p s
  | ADone => Some (set_dev (dev_done (ls_dev (c_ls s))) s)
  | AReceive ch => Some (set_dev (dev_receive (ls_dev (c_ls s)) ch) s)
  end.

(** The calls of the interrupt handler, and of readers. *)
Definition in_irq (p : pc) : bool :=
  match p with Irq | IrqStart _ _ | IrqInput _ | InStore _ _ | InHead _ _ | InV => true | _ => false end.
Definition in_get (p : pc) : bool := match p with GetP | GetRead | GetTail _ => true | _ => false end.
Definition starts (p : pc) : bool :=
  match p with PutP _ | PolledStart _ | Irq | GetP => true | _ => false end.

(** When a step can be taken: [P] needs a count, a critical section its lock, a polling loop the bit it waits for. *)
Definition can_run (p : pc) s : bool :=
  match p with
  | PutP _ => 0 <? cs_wsem (c_cs s)
  | GetP => 0 <? cs_rsem (c_cs s)
  | PutSend _ | PolledStart _ | Irq => bool_decide (ls_lock (c_ls s) = None)
  | PolledFirst _ | PolledDone _ => wactive (c_ls s)
  | _ => true
  end.

Definition none_in (f : pc → bool) s : Prop := ∀ t p, c_calls s !! t = Some p → f p = false.

Section device.
Context (view : H → serial).

(** [single]: there is one reader at a time. *)
Definition cenabled (single : bool) (a : con_act) s : Prop :=
  match a with
  | ABegin t p =>
      c_calls s !! t = None ∧ starts p = true ∧ (p = Irq → none_in in_irq s) ∧ (p = GetP → single = true → none_in in_get s)
  | ARun t => ∃ p, c_calls s !! t = Some p ∧ can_run p s = true
  | ADone => is_Some (ser_tx (view (ls_dev (c_ls s))))
  | AReceive ch => ser_rx (view (ls_dev (c_ls s))) = None
  end.

(** The state [config_con] leaves: semaphores with the counts 0 and 1, an empty ring, an idle device. *)
Inductive creach (single : bool) : csys H → Prop :=
| cr_start dev got :
    length got = Z.to_nat CONSOLE_INPUT_BUFFER_SIZE →
    view dev = Serial None false true None (ser_out (view dev)) →
    creach single (CSys (Lser None false dev) (Con 0 1 got 0 0) ∅ (ser_out (view dev)) [] [])
| cr_step a s s' : creach single s → cenabled single a s → cdo a s = Some s' → creach single s'.

End device.
End console.

(** ** The invariant of output *)

(** Who may give the next character to the device: the semaphore, a thread
    between [P] and [lser_write], the transmission under way, or the handler on its
    way to [con_start]. *)
Inductive token := TSem | TPut (t : Z) | TBusy | TIrq (t : Z).

Definition holds_token (p : pc) : bool :=
  match p with PutSend _ | IrqStart true _ => true | _ => false end.
Definition polls (p : pc) : bool := match p with PolledFirst _ | PolledDone _ => true | _ => false end.

(** The call that holds the token, if one does. *)
Definition token_call (k : token) (m : gmap Z pc) : Prop :=
  match k with
  | TPut t => ∃ ch, m !! t = Some (PutSend ch)
  | TIrq t => ∃ got, m !! t = Some (IrqStart true got)
  | _ => True
  end.

Definition token_of (k : token) (t : Z) : Prop := k = TPut t ∨ k = TIrq t.

Definition one_token (m : gmap Z pc) (wsem : Z) (wbusy : bool) : Prop :=
  ∃ k, wsem = (match k with TSem => 1 | _ => 0 end) ∧ wbusy = (match k with TBusy => true | _ => false end) ∧
    token_call k m ∧ ∀ t p, m !! t = Some p → holds_token p = true → token_of k t.

(** The device is sending a character or has just sent it, or is idle. *)
Definition sending (v : serial) : Prop :=
  (∃ c, ser_tx v = Some c) ∧ ser_wactive v = false ∨ ser_tx v = None ∧ ser_wactive v = true.
Definition idle (v : serial) : Prop := ser_tx v = None ∧ ser_wactive v = false.

Definition dev_ok (m : gmap Z pc) (lock : option Z) (wbusy : bool) (v : serial) : Prop :=
  (∀ t p, m !! t = Some p → polls p = true → lock = Some t) ∧
  match lock with
  | None => ser_wenable v = true ∧ if wbusy then sending v else idle v
  | Some t =>
      match m !! t with
      | Some (PolledFirst _) => wbusy = true ∧ sending v ∧ ser_wenable v = true
      | Some (PolledDone irqpending) => irqpending = wbusy ∧ sending v ∧ (wbusy = true → ser_wenable v = true)
      | _ => False
      end
  end.

Definition one_irq (m : gmap Z pc) : Prop :=
  ∀ t t' p p', m !! t = Some p → m !! t' = Some p' → in_irq p = true → in_irq p' = true → t = t'.

(** [m'] is [m] with the call at [t] replaced. *)
Definition at_call (t : Z) (o : option pc) (m m' : gmap Z pc) : Prop :=
  m' !! t = o ∧ ∀ t', t' ≠ t → m' !! t' = m !! t'.

Lemma at_insert t p (m : gmap Z pc) : at_call t (Some p) m (<[t := p]> m).
Proof. split; [apply lookup_insert_eq|intros; by apply lookup_insert_ne]. Qed.

Lemma at_delete t (m : gmap Z pc) : at_call t None m (delete t m).
Proof. split; [apply lookup_delete_eq|intros; by apply lookup_delete_ne]. Qed.

Create HintDb con discriminated.
#[export] Hint Resolve at_insert at_delete : con.

Section calls.
Context (t : Z) (m m' : gmap Z pc).

Definition has (f : pc → bool) (o : option pc) : bool := match o with Some p => f p | None => false end.

Lemma calls_keep (f : pc → bool) (P : Z → Prop) o :
  at_call t o m m' → has f o = false → (∀ t' p, m !! t' = Some p → f p = true → P t') →
  ∀ t' p, m' !! t' = Some p → f p = true → P t'.
Proof.
  intros [Ht Hne] Hf Hm t' p Hp Hfp. destruct (decide (t' = t)) as [->|].
  - rewrite Ht in Hp. rewrite Hp in Hf. cbn in Hf. congruence.
  - rewrite Hne in Hp by done. eauto.
Qed.

(** Calls that have nothing to do with the token. *)
Lemma token_keep o wsem wbusy :
  at_call t o m m' → has holds_token (m !! t) = false → has holds_token o = false →
  one_token m wsem wbusy → one_token m' wsem wbusy.
Proof.
  intros Ha Hm Ho (k & Hw & Hb & Hk & Hall). exists k. split; [done|]. split; [done|]. split.
  - destruct Ha as [_ Hne]. destruct k as [|t'| |t']; cbn in *; [done| |done|];
      destruct Hk as [x Hx]; exists x; rewrite Hne; try done; intros ->; rewrite Hx in Hm; done.
  - eapply calls_keep; eauto.
Qed.

(** A call takes the token. *)
Lemma token_take p k' wsem wbusy wsem' wbusy' :
  at_call t (Some p) m m' → (∀ k, wsem = (match k with TSem => 1 | _ => 0 end) → wbusy = (match k with TBusy => true | _ => false end) → ∀ t', ¬ token_of k t') →
  one_token m wsem wbusy → token_of k' t → token_call k' m' →
  wsem' = 0 → wbusy' = false → one_token m' wsem' wbusy'.
Proof.
  intros [Ht Hne] Hno (k & Hw & Hb & Hk & Hall) Hk' Hc -> ->. exists k'.
  split; [by destruct Hk' as [-> | ->]|]. split; [by destruct Hk' as [-> | ->]|]. split; [done|].
  intros t' p' Hp Hf. destruct (decide (t' = t)) as [->|]; [done|]. rewrite Hne in Hp by done.
  by destruct (Hno k Hw Hb t'); eauto.
Qed.

(** A call gives it up. *)
Lemma token_give o p k' wsem wbusy :
  at_call t o m m' → m !! t = Some p → holds_token p = true → has holds_token o = false →
  one_token m wsem wbusy → (k' = TSem ∨ k' = TBusy) →
  wsem = 0 ∧ wbusy = false ∧
  one_token m' (match k' with TSem => 1 | _ => 0 end) (match k' with TBusy => true | _ => false end).
Proof.
  intros [Ht Hne] Hm Hp Ho (k & Hw & Hb & Hk & Hall) Hk'. pose proof (Hall t p Hm Hp) as Hkt.
  split; [by destruct Hkt as [-> | ->]|]. split; [by destruct Hkt as [-> | ->]|].
  exists k'. split; [done|]. split; [done|]. split; [by destruct Hk' as [-> | ->]|].
  intros t' p' Hp' Hf. destruct (decide (t' = t)) as [->|].
  - rewrite Ht in Hp'. rewrite Hp' in Ho. cbn in Ho. congruence.
  - rewrite Hne in Hp' by done. destruct (Hall t' p' Hp' Hf) as [-> | ->]; destruct Hkt as [Hkt|Hkt]; congruence.
Qed.

(** Calls that do not poll. *)
Lemma dev_keep o lock wbusy v :
  at_call t o m m' → has polls (m !! t) = false → has polls o = false →
  dev_ok m lock wbusy v → dev_ok m' lock wbusy v.
Proof.
  intros Ha Hm Ho [Hl Hd]. split; [eapply calls_keep; eauto|].
  destruct lock as [t'|]; [|done]. destruct Ha as [Ht Hne]. destruct (decide (t' = t)) as [->|].
  - destruct (m !! t) as [[]|]; done.
  - by rewrite Hne.
Qed.

Lemma irq_keep o :
  at_call t o m m' → has in_irq o = false ∨ has in_irq (m !! t) = true → one_irq m → one_irq m'.
Proof.
  intros [Ht Hne] Ho Hm t1 t2 p1 p2 H1 H2 Hi1 Hi2.
  assert (Hold : ∀ t' p', m' !! t' = Some p' → in_irq p' = true → ∃ q, m !! t' = Some q ∧ in_irq q = true).
  { intros t' p' Hp Hi. destruct (decide (t' = t)) as [->|]; [|rewrite Hne in Hp by done; eauto].
    rewrite Ht in Hp. rewrite Hp in Ho. cbn in Ho. destruct Ho as [Ho|Ho]; [congruence|].
    destruct (m !! t) as [q|]; [eauto|done]. }
  destruct (Hold _ _ H1 Hi1) as (q1 & ? & ?), (Hold _ _ H2 Hi2) as (q2 & ? & ?). by eapply Hm.
Qed.

End calls.

Section output.
Context {H : Type} `{SerialOps H} (view : H → serial) `{!SerialLaws H view}.
Implicit Types (ls : lser_softc H) (s : csys H).

Abbreviation dev s := (view (ls_dev (c_ls s))).

Record out_inv s : Prop := {
  oi_token : one_token (c_calls s) (cs_wsem (c_cs s)) (ls_wbusy (c_ls s));
  oi_dev : dev_ok (c_calls s) (ls_lock (c_ls s)) (ls_wbusy (c_ls s)) (dev s);
  oi_irq : one_irq (c_calls s);
  oi_written : h_written s = ser_out (dev s) ++ option_list (ser_tx (dev s));
}.

(** Steps that touch neither the device nor the token. *)
Lemma out_inv_call s s' t o :
  out_inv s → at_call t o (c_calls s) (c_calls s') →
  has holds_token (c_calls s !! t) = false → has holds_token o = false →
  has polls (c_calls s !! t) = false → has polls o = false →
  one_irq (c_calls s') →
  c_ls s' = c_ls s → cs_wsem (c_cs s') = cs_wsem (c_cs s) → h_written s' = h_written s →
  out_inv s'.
Proof.
  intros [Ht Hd Hi Hw] Ha Hh Ho Hp Hpo Hi' Els Ews Ew. split.
  - rewrite Els, Ews. by eapply token_keep.
  - rewrite Els. by eapply dev_keep.
  - done.
  - by rewrite Els, Ew.
Qed.

Lemma wactive_view ls : wactive ls = ser_wactive (view (ls_dev ls)).
Proof. apply read_wirq. Qed.

(** A critical section: what the lock says of the device. *)
Lemma dev_ok_free m (wbusy : bool) v :
  dev_ok m None wbusy v → (∀ t p, m !! t = Some p → polls p = false) ∧
  ser_wenable v = true ∧ if wbusy then sending v else idle v.
Proof.
  intros [Hl Hd]. split; [|done]. intros t p Hp. destruct (polls p) eqn:E; [|done]. by specialize (Hl t p Hp E).
Qed.

Lemma dev_ok_unlocked m m' t o wbusy v (wbusy' : bool) v' :
  dev_ok m None wbusy v → at_call t o m m' → has polls o = false →
  ser_wenable v' = true → (if wbusy' then sending v' else idle v') → dev_ok m' None wbusy' v'.
Proof. intros [Hl _] Ha Ho He Hs. split; [|done]. by eapply calls_keep. Qed.

Lemma dev_ok_locked m m' t p wbusy wbusy' lock v v' :
  at_call t (Some p) m m' → (dev_ok m lock wbusy v) → (lock = None ∨ lock = Some t) →
  match p with
  | PolledFirst _ => wbusy' = true ∧ sending v' ∧ ser_wenable v' = true
  | PolledDone irqpending => irqpending = wbusy' ∧ sending v' ∧ (wbusy' = true → ser_wenable v' = true)
  | _ => False
  end → dev_ok m' (Some t) wbusy' v'.
Proof.
  intros [Ht Hne] [Hl _] Hlock Hp. split; [|by rewrite Ht].
  intros t' p' Hp' Hpo. destruct (decide (t' = t)) as [->|]; [done|]. rewrite Hne in Hp' by done.
  specialize (Hl t' p' Hp' Hpo). destruct Hlock as [-> | ->]; congruence.
Qed.

(** [putch_intr]: after [P] the device is not busy, so [lser_write] sends. *)
Lemma step_PutP s t ch :
  out_inv s → c_calls s !! t = Some (PutP ch) → 0 < cs_wsem (c_cs s) →
  out_inv (set_call t (PutSend ch) (set_cs (putch_P (c_cs s)) s)).
Proof.
  intros [Ht Hd Hi Hw] Hc Hpos.
  assert (Hs : cs_wsem (c_cs s) = 1 ∧ ls_wbusy (c_ls s) = false).
  { destruct Ht as (k & Hk & Hb & _). rewrite Hb. destruct k; lia || done. }
  destruct Hs as [Hs Hb]. split; cbn.
  - eapply (token_take t (c_calls s) _ (PutSend ch) (TPut t)); [apply at_insert| |exact Ht|by left| | |done].
    + rewrite Hs. intros k Hk _ t' Hk'. destruct Hk' as [-> | ->]; done.
    + exists ch. apply lookup_insert_eq.
    + by rewrite Hs.
  - eapply dev_keep; [apply at_insert|by rewrite Hc|done|done].
  - eapply irq_keep; [apply at_insert|by left|done].
  - done.
Qed.

Lemma step_PutSend s t ch :
  out_inv s → c_calls s !! t = Some (PutSend ch) → ls_lock (c_ls s) = None →
  ∃ ls, lser_write ch (c_ls s) = Some ls ∧ out_inv (end_call t (log_written ch (set_ls ls s))).
Proof using All.
  intros [Ht Hd Hi Hw] Hc Hlk.
  destruct (token_give t (c_calls s) (delete t (c_calls s)) None _ TBusy _ _ (at_delete _ _) Hc eq_refl eq_refl Ht ltac:(by right))
    as (Hs & Hb & Ht').
  unfold lser_write. rewrite Hb. eexists. split; [reflexivity|].
  rewrite Hlk, Hb in Hd. destruct (dev_ok_free _ _ _ Hd) as (_ & He & Htx & Hact).
  assert (Hv : view (bus_write_register (ls_dev (c_ls s)) LSER_REG_CHAR ch) =
    Serial (Some ch) false true (ser_rx (dev s)) (ser_out (dev s))).
  { by rewrite write_char, Hact, He by done. }
  split; cbn; rewrite ?Hv; cbn.
  - by rewrite Hs.
  - rewrite Hlk. eapply (dev_ok_unlocked _ _ t None); [exact Hd|apply at_delete|done|done|]. left. cbn. eauto.
  - eapply irq_keep; [apply at_delete|by left|done].
  - rewrite Hw, Htx. cbn. by rewrite app_nil_r.
Qed.

Lemma step_PolledStart s t ch ls p :
  out_inv s → c_calls s !! t = Some (PolledStart ch) → ls_lock (c_ls s) = None →
  lser_writepolled_start t ch (c_ls s) = (ls, p) →
  out_inv (set_call t p (if ls_wbusy (c_ls s) then set_ls ls s else log_written ch (set_ls ls s))).
Proof using All.
  intros [Ht Hd Hi Hw] Hc Hlk Hrun. rewrite Hlk in Hd.
  destruct (dev_ok_free _ _ _ Hd) as (_ & He & Hst). unfold lser_writepolled_start in Hrun. cbn in Hrun.
  destruct (ls_wbusy (c_ls s)) eqn:Hb; injection Hrun as <- <-.
  - split; cbn; rewrite ?Hb.
    + eapply token_keep; [apply at_insert|by rewrite Hc|done|done].
    + eapply dev_ok_locked; [apply at_insert|exact Hd|by left|done].
    + eapply irq_keep; [apply at_insert|by left|done].
    + done.
  - destruct Hst as [Htx Hact].
    assert (Hv : view (bus_write_register (bus_write_register (ls_dev (c_ls s)) LSER_REG_WIRQ 0) LSER_REG_CHAR ch) =
      Serial (Some ch) false false (ser_rx (dev s)) (ser_out (dev s))).
    { by rewrite write_char, write_wirq by (try done; by rewrite write_wirq). }
    split; cbn; rewrite ?Hb, ?Hv; cbn.
    + eapply token_keep; [apply at_insert|by rewrite Hc|done|done].
    + eapply dev_ok_locked; [apply at_insert|exact Hd|by left|]. split; [done|]. split; [|done]. left. cbn. eauto.
    + eapply irq_keep; [apply at_insert|by left|done].
    + rewrite Hw, Htx. cbn. by rewrite app_nil_r.
Qed.

Lemma polling s t p :
  out_inv s → c_calls s !! t = Some p → polls p = true → wactive (c_ls s) = true →
  ls_lock (c_ls s) = Some t ∧ ser_tx (dev s) = None ∧ ser_wactive (dev s) = true ∧
  match p with
  | PolledFirst _ => ls_wbusy (c_ls s) = true ∧ ser_wenable (dev s) = true
  | PolledDone irqpending => irqpending = ls_wbusy (c_ls s) ∧ (ls_wbusy (c_ls s) = true → ser_wenable (dev s) = true)
  | _ => False
  end.
Proof using All.
  intros [Ht [Hl Hd] Hi Hw] Hc Hp Hact. rewrite wactive_view in Hact. pose proof (Hl t p Hc Hp) as Hlk.
  rewrite Hlk in Hd |- *. rewrite Hc in Hd. split; [done|].
  destruct p; try done; destruct Hd as (? & [[_ ?]|[? ?]] & ?); try congruence; done.
Qed.

Lemma step_PolledFirst s t ch :
  out_inv s → c_calls s !! t = Some (PolledFirst ch) → wactive (c_ls s) = true →
  out_inv (set_call t (PolledDone true) (log_written ch (set_ls (lser_writepolled_send ch (c_ls s)) s))).
Proof using All.
  intros Hinv Hc Hact. destruct (polling s t _ Hinv Hc eq_refl Hact) as (Hlk & Htx & Ha & Hb & He).
  destruct Hinv as [Ht Hd Hi Hw].
  assert (Hv : view (bus_write_register (bus_write_register (ls_dev (c_ls s)) LSER_REG_WIRQ
      (Z.lor LSER_IRQ_FORCE LSER_IRQ_ENABLE)) LSER_REG_CHAR ch) = Serial (Some ch) false true (ser_rx (dev s)) (ser_out (dev s))).
  { by rewrite write_char, write_wirq by (try done; by rewrite write_wirq). }
  split; cbn; cbn in Hv; rewrite ?Hv; cbn.
  - eapply token_keep; [apply at_insert|by rewrite Hc|done|done].
  - rewrite Hlk in Hd |- *. eapply dev_ok_locked; [apply at_insert|exact Hd|by right|]. split; [done|]. split; [|done]. left. cbn. eauto.
  - eapply irq_keep; [apply at_insert|by left|done].
  - rewrite Hw, Htx. cbn. by rewrite app_nil_r.
Qed.


Lemma step_PolledDone s t irqpending :
  out_inv s → c_calls s !! t = Some (PolledDone irqpending) → wactive (c_ls s) = true →
  out_inv (end_call t (set_ls (lser_writepolled_end irqpending (c_ls s)) s)).
Proof using All.
  intros Hinv Hc Hact. destruct (polling s t _ Hinv Hc eq_refl Hact) as (Hlk & Htx & Ha & -> & He).
  destruct Hinv as [Ht [Hl Hd] Hi Hw].
  assert (Hnp : ∀ t' p, delete t (c_calls s) !! t' = Some p → polls p = true → None = Some t').
  { intros t' p [Hne Hp]%lookup_delete_Some Hpo. specialize (Hl t' p Hp Hpo). congruence. }
  assert (Hrest : one_token (delete t (c_calls s)) (cs_wsem (c_cs s)) (ls_wbusy (c_ls s)) ∧ one_irq (delete t (c_calls s))).
  { split; [eapply token_keep; [apply at_delete|by rewrite Hc|done|done]|eapply irq_keep; [apply at_delete|by left|done]]. }
  destruct Hrest as [Ht' Hi']. unfold lser_writepolled_end.
  destruct (ls_wbusy (c_ls s)) eqn:Hb; split; cbn; rewrite ?Hb; try done.
  - split; [done|]. split; [by apply He|]. by right.
  - rewrite write_wirq by done. split; [done|]. split; [done|]. by split.
  - rewrite write_wirq by done. done.
Qed.

(** The interrupt handler sees the end of the transmission that made the device busy, and of no other. *)
Lemma lser_irq_view ls :
  let '(ls', clear_to_write, got) := lser_irq ls in
  clear_to_write = ser_wactive (view (ls_dev ls)) ∧ got = ser_rx (view (ls_dev ls)) ∧ ls_lock ls' = ls_lock ls ∧
  ls_wbusy ls' = (if clear_to_write then false else ls_wbusy ls) ∧
  view (ls_dev ls') = Serial (ser_tx (view (ls_dev ls))) false
    (if clear_to_write then true else ser_wenable (view (ls_dev ls))) None (ser_out (view (ls_dev ls))).
Proof using All.
  unfold lser_irq. rewrite wactive_view. destruct (ser_wactive (view (ls_dev ls))) eqn:Ea; cbn.
  - rewrite read_rirq, !write_wirq by done. cbn. destruct (ser_rx (view (ls_dev ls))) as [c|] eqn:Er.
    + rewrite bool_decide_eq_true_2 by eauto. cbn. rewrite write_rirq, write_wirq by done. cbn.
      split; [done|]. split; [|done]. f_equal. apply read_char. by rewrite write_wirq.
    + rewrite bool_decide_eq_false_2 by (intros [? ?]; done). cbn. rewrite write_wirq by done. cbn. by rewrite Er.
  - rewrite read_rirq. destruct (ser_rx (view (ls_dev ls))) as [c|] eqn:Er.
    + rewrite bool_decide_eq_true_2 by eauto. cbn. rewrite write_rirq by done. rewrite Ea. cbn.
      split; [done|]. split; [|done]. f_equal. by apply read_char.
    + rewrite bool_decide_eq_false_2 by (intros [? ?]; done). cbn. do 4 (split; [done|]).
      by destruct (view (ls_dev ls)); cbn in *; subst.
Qed.

Lemma step_Irq s t ls clear_to_write got :
  out_inv s → c_calls s !! t = Some Irq → ls_lock (c_ls s) = None →
  lser_irq (c_ls s) = (ls, clear_to_write, got) →
  out_inv (set_call t (IrqStart clear_to_write got) (set_ls ls s)).
Proof using All.
  intros [Ht Hd Hi Hw] Hc Hlk Hrun. pose proof (lser_irq_view (c_ls s)) as Hv. rewrite Hrun in Hv.
  destruct Hv as (Hclear & _ & Hlk' & Hb' & Hv'). rewrite Hlk in Hd, Hlk'.
  destruct (dev_ok_free _ _ _ Hd) as (_ & He & Hst).
  assert (Hi' : one_irq (<[t := IrqStart clear_to_write got]> (c_calls s))).
  { eapply irq_keep; [apply at_insert|right; by rewrite Hc|done]. }
  destruct clear_to_write.
  - assert (Hb : ls_wbusy (c_ls s) = true).
    { destruct (ls_wbusy (c_ls s)); [done|]. destruct Hst. congruence. }
    rewrite Hb in Hst. destruct Hst as [[_ ?]|[Htx _]]; [congruence|].
    split; cbn; rewrite ?Hlk', ?Hb', ?Hv'; cbn; try done.
    + eapply (token_take t (c_calls s) _ _ (TIrq t)); [apply at_insert| |exact Ht|by right| | |done].
      * rewrite Hb. intros k _ Hk t' [-> | ->]; done.
      * exists got. apply lookup_insert_eq.
      * destruct Ht as (k & Hk & Hkb & _). rewrite Hb in Hkb. rewrite Hk. by destruct k.
    + eapply dev_ok_unlocked; [exact Hd|apply at_insert|done|done|]. by split.
  - split; cbn; rewrite ?Hlk', ?Hb', ?Hv'; cbn; try done.
    + eapply token_keep; [apply at_insert|by rewrite Hc|done|done].
    + eapply dev_ok_unlocked; [exact Hd|apply at_insert|done|done|].
      unfold sending, idle in *. cbn. rewrite <- Hclear in Hst. destruct (ls_wbusy (c_ls s)); [|done].
      destruct Hst as [[? _]|[_ ?]]; [by left|done].
Qed.

Lemma step_IrqStart s t got cs :
  out_inv s → c_calls s !! t = Some (IrqStart true got) → con_start (c_cs s) = Some cs →
  out_inv (set_call t (IrqInput got) (set_cs cs s)).
Proof using All.
  intros [Ht Hd Hi Hw] Hc Hrun.
  destruct (token_give t (c_calls s) (<[t := IrqInput got]> (c_calls s)) (Some (IrqInput got)) _ TSem _ _
    (at_insert _ _ _) Hc eq_refl eq_refl Ht ltac:(by left)) as (Hs & Hb & Ht').
  unfold con_start in Hrun. rewrite Hs in Hrun. cbn in Hrun. injection Hrun as <-.
  split; cbn; rewrite ?Hb; try done.
  - rewrite <- Hb. eapply dev_keep; [apply at_insert|by rewrite Hc|done|done].
  - eapply irq_keep; [apply at_insert|right; by rewrite Hc|done].
Qed.

(** The device by itself. *)
Lemma dev_ok_done m lock wbusy v v' :
  dev_ok m lock wbusy v → is_Some (ser_tx v) → ser_tx v' = None → ser_wactive v' = true →
  ser_wenable v' = ser_wenable v → dev_ok m lock wbusy v'.
Proof.
  intros [Hl Hd] [c Hc] Hn Ha He. split; [done|].
  assert (Hi : idle v → False) by (intros [? ?]; congruence). assert (Hs : sending v') by by right.
  destruct lock as [t|]; rewrite ?He.
  - destruct (m !! t) as [[]|]; try done; naive_solver.
  - destruct wbusy; naive_solver.
Qed.

Lemma dev_ok_same m lock wbusy v v' :
  dev_ok m lock wbusy v → ser_tx v' = ser_tx v → ser_wactive v' = ser_wactive v →
  ser_wenable v' = ser_wenable v → dev_ok m lock wbusy v'.
Proof. intros [Hl Hd] E1 E2 E3. split; [done|]. unfold sending, idle in *. by rewrite E1, E2, E3. Qed.

Lemma step_device s a s' single :
  out_inv s → cenabled view single a s → cdo a s = Some s' →
  match a with ADone | AReceive _ => out_inv s' | _ => True end.
Proof using All.
  intros [Ht Hd Hi Hw] Hen Hrun. destruct a as [| | |ch]; try done; cbn in Hen, Hrun; injection Hrun as <-; split; try done; cbn.
  - destruct Hen as [c Hc]. eapply dev_ok_done; [exact Hd|eauto|..]; by rewrite (done_view _ c).
  - destruct Hen as [c Hc]. rewrite (done_view _ c) by done. rewrite Hw, Hc. cbn. by rewrite app_nil_r.
  - eapply dev_ok_same; [exact Hd|..]; by rewrite receive_view.
  - by rewrite receive_view.
Qed.


(** A step of a call that is not about output. *)
Lemma call_other s t p s' single :
  out_inv s → c_calls s !! t = Some p → run_call t p s = Some s' →
  holds_token p = false → polls p = false → (∀ ch, p ≠ PutP ch) → (∀ ch, p ≠ PolledStart ch) → p ≠ Irq →
  cenabled view single (ARun t) s → out_inv s'.
Proof using All.
  intros Hinv Hc Hrun Hh Hp H1 H2 H3 _. pose proof (oi_irq _ Hinv) as Hi.
  assert (Hdel : one_irq (delete t (c_calls s))) by (eapply irq_keep; [apply at_delete|by left|done]).
  assert (Hins : ∀ q, has in_irq (Some q) = false ∨ in_irq p = true → one_irq (<[t := q]> (c_calls s))).
  { intros q Hq. eapply irq_keep; [apply at_insert| |done]. rewrite Hc. by destruct Hq; [left|right]. }
  assert (Hcall : ∀ o m', at_call t o (c_calls s) m' → has holds_token o = false → has polls o = false → one_irq m' →
    ∀ cs acc del, cs_wsem cs = cs_wsem (c_cs s) → out_inv (CSys (c_ls s) cs m' (h_written s) acc del)).
  { intros o m' Ha Ho Hpo Hi' cs acc del Hcs.
    eapply (out_inv_call s _ t o); [exact Hinv|exact Ha|by rewrite Hc|done|by rewrite Hc|done|done|done|done|done]. }
  destruct p; cbn in Hh, Hp, Hrun; try done; try congruence.
  - destruct clear_to_write; [done|]. injection Hrun as <-. eapply Hcall; [apply at_insert|done|done|apply Hins; by right|done].
  - destruct got as [ch|]; cbn in Hrun.
    + unfold con_input_test in Hrun. destruct (_ =? _); injection Hrun as <-.
      * eapply Hcall; [apply at_delete|done|done|done|done].
      * eapply Hcall; [apply at_insert|done|done|apply Hins; by right|done].
    + injection Hrun as <-. eapply Hcall; [apply at_delete|done|done|done|done].
  - injection Hrun as <-. eapply Hcall; [apply at_insert|done|done|apply Hins; by right|done].
  - injection Hrun as <-. eapply Hcall; [apply at_insert|done|done|apply Hins; by right|done].
  - unfold con_input_V in Hrun. destruct (sem_up _); cbn in Hrun; [|done]. injection Hrun as <-.
    eapply Hcall; [apply at_delete|done|done|done|done].
  - injection Hrun as <-. eapply Hcall; [apply at_insert|done|done|apply Hins; by left|done].
  - destruct (getch_read _); cbn in Hrun; [|done]. injection Hrun as <-.
    eapply Hcall; [apply at_insert|done|done|apply Hins; by left|done].
  - injection Hrun as <-. eapply Hcall; [apply at_delete|done|done|done|done].
Qed.

Lemma step_begin s t p single :
  out_inv s → cenabled view single (ABegin t p) s → out_inv (set_call t p s).
Proof using All.
  intros Hinv (Hnone & Hst & Hirq & _).
  eapply (out_inv_call s _ t (Some p)); [exact Hinv|apply at_insert|by rewrite Hnone|by destruct p|by rewrite Hnone|by destruct p| |done|done|done].
  cbn. destruct (decide (p = Irq)) as [->|Hne].
  - assert (Hno : ∀ t' p', c_calls s !! t' = Some p' → in_irq p' = true → False).
    { intros t' p' Hp'. by rewrite (Hirq eq_refl t' p' Hp'). }
    intros t1 t2 p1 p2 [[<- _]|[_ H1]]%lookup_insert_Some [[<- _]|[_ H2]]%lookup_insert_Some Hi1 Hi2; by try destruct (Hno _ _ H1); try destruct (Hno _ _ H2).
  - eapply irq_keep; [apply at_insert|left; by destruct p|apply Hinv].
Qed.

Lemma out_inv_step s a s' single :
  out_inv s → cenabled view single a s → cdo a s = Some s' → out_inv s'.
Proof using All.
  intros Hinv Hen Hrun. destruct a as [t p|t| |ch].
  - cbn in Hrun. injection Hrun as <-. by eapply step_begin.
  - pose proof Hen as (p & Hc & Hcan). cbn in Hrun. rewrite Hc in Hrun. cbn in Hrun.
    destruct p; try (by eapply call_other); cbn [run_call can_run] in *.
    + injection Hrun as <-. zbool. by apply step_PutP.
    + apply bool_decide_eq_true_1 in Hcan. destruct (step_PutSend s t ch Hinv Hc Hcan) as (ls & E & Hout).
      rewrite E in Hrun. cbn in Hrun. by injection Hrun as <-.
    + apply bool_decide_eq_true_1 in Hcan. destruct (lser_writepolled_start t ch (c_ls s)) as [ls q] eqn:E.
      injection Hrun as <-. by eapply step_PolledStart.
    + injection Hrun as <-. by apply step_PolledFirst.
    + injection Hrun as <-. by apply step_PolledDone.
    + apply bool_decide_eq_true_1 in Hcan. destruct (lser_irq (c_ls s)) as [[ls c] g] eqn:E. injection Hrun as <-.
      by eapply step_Irq.
    + destruct clear_to_write; [|by eapply call_other]. destruct (con_start (c_cs s)) as [cs|] eqn:E; cbn in Hrun; [|done].
      injection Hrun as <-. by eapply step_IrqStart.
  - exact (step_device s ADone s' single Hinv Hen Hrun).
  - exact (step_device s (AReceive ch) s' single Hinv Hen Hrun).
Qed.

Lemma creach_out_inv single s : creach view single s → out_inv s.
Proof using All.
  induction 1 as [dv got Hlen Hv|a s s' _ IH Hen Hrun]; [|by eapply out_inv_step]. split; cbn.
  - exists TSem. split; [done|]. split; [done|]. split; [done|]. intros t p Hp. by rewrite lookup_empty in Hp.
  - split; [intros t p Hp; by rewrite lookup_empty in Hp|]. rewrite Hv. split; [done|]. by split.
  - intros t t' p p' Hp. by rewrite lookup_empty in Hp.
  - rewrite Hv. cbn. by rewrite app_nil_r.
Qed.

(** When a call is there that does not wait for input, something can happen that no caller has to start: a step of
    a call, the end of a transmission, or an interrupt that the device has asked for. *)
Definition can_progress single s : Prop :=
  (∃ t, cenabled view single (ARun t) s) ∨ cenabled view single ADone s ∨
  (none_in in_irq s ∧ ls_lock (c_ls s) = None ∧ ser_wenable (dev s) = true ∧ ser_wactive (dev s) = true).

Lemma lock_progress s t single : out_inv s → ls_lock (c_ls s) = Some t → can_progress single s.
Proof using All.
  intros [_ [Hl Hd] _ _] Hlk. rewrite Hlk in Hd. destruct (c_calls s !! t) as [p|] eqn:Hc; [|done].
  assert (Hs : sending (dev s) ∧ polls p = true) by (destruct p; naive_solver). destruct Hs as [[[[c Hx] _]|[_ Ha]] Hp].
  - right. left. by exists c.
  - left. exists t, p. split; [done|]. destruct p; try done; cbn; by rewrite wactive_view.
Qed.

Lemma irq_progress s t p single : out_inv s → c_calls s !! t = Some p → in_irq p = true → can_progress single s.
Proof using All.
  intros Hinv Hc Hp. destruct (ls_lock (c_ls s)) as [t'|] eqn:Hlk; [by eapply lock_progress|].
  left. exists t, p. split; [done|]. destruct p; try done. cbn. by rewrite Hlk.
Qed.

Lemma output_progress single s t p :
  out_inv s → c_calls s !! t = Some p → p ≠ GetP → can_progress single s.
Proof using All.
  intros Hinv Hc Hne. destruct (ls_lock (c_ls s)) as [t'|] eqn:Hlk; [by eapply lock_progress|].
  destruct (can_run p s) eqn:Hcan; [by left; exists t, p|].
  destruct p; cbn in Hcan; try done; try (by rewrite Hlk in Hcan).
  - pose proof Hinv as [(k & Hk & Hb & Hkc & Hall) Hd _ _]. rewrite Hlk in Hd.
    destruct (dev_ok_free _ _ _ Hd) as (_ & He & Hst). destruct k as [|t'| |t']; rewrite Hb in Hst.
    + by rewrite Hk in Hcan.
    + destruct Hkc as [c Hc']. left. exists t', (PutSend c). split; [done|]. cbn. by rewrite Hlk.
    + destruct Hst as [[[c Hx] _]|[_ Ha]]; [right; left; by exists c|].
      destruct (decide (map_Exists (λ _ q, in_irq q = true) (c_calls s))) as [(t' & q & Hq & Hi)|Hno].
      * by eapply irq_progress.
      * right. right. split; [|done]. intros t' q Hq. destruct (in_irq q) eqn:E; [|done]. destruct Hno. by exists t', q.
    + destruct Hkc as [g Hg]. by eapply irq_progress.
  - destruct Hinv as [_ [Hl _] _ _]. specialize (Hl t _ Hc eq_refl). congruence.
  - destruct Hinv as [_ [Hl _] _ _]. specialize (Hl t _ Hc eq_refl). congruence.
Qed.

End output.
