(* ===== verification/ConsoleIn.v ===== *)
(** * The console: input, and the theorems

    The ring of characters of Console.v, filled by the interrupt handler and
    emptied by a reader without a lock between them; the theorems on output and
    input; con_io, which gives lines to the VFS; and the buffer for what is
    printed before there is a console. *)

From Stdlib Require Import ZArith Lia.
From stdpp Require Import base gmap list list_numbers option.
From S2P Require Import Prelude Console.
Set Default Goal Selector "!".
Open Scope Z_scope.

(** ** The invariant of input *)

Definition adds (p : pc) : bool := match p with InV => true | _ => false end.
Definition takes (p : pc) : bool := match p with GetRead | GetTail _ => true | _ => false end.
Definition inputs (p : pc) : bool :=
  match p with InStore _ _ | InHead _ _ | InV | GetRead | GetTail _ => true | _ => false end.

(** [b] says whether a call of a kind is there. *)
Definition flag (f : pc → bool) (m : gmap Z pc) (b : bool) : Prop :=
  b = true ↔ ∃ t p, m !! t = Some p ∧ f p = true.

Definition at_most_one (f : pc → bool) (m : gmap Z pc) : Prop :=
  ∀ t t' p p', m !! t = Some p → m !! t' = Some p' → f p = true → f p' = true → t = t'.

Section flags.
Context (t : Z) (o : option pc) (m m' : gmap Z pc) (Ha : at_call t o m m').

Lemma flag_keep f b : has f o = has f (m !! t) → flag f m b → flag f m' b.
Proof using Ha.
  destruct Ha as [Ht Hne]. intros Hf Hb. unfold flag in *. rewrite Hb. split; intros (t' & p & Hp & Hfp).
  - destruct (decide (t' = t)) as [->|]; [|by exists t', p; rewrite Hne].
    rewrite Hp in Hf. cbn in Hf. rewrite Hfp in Hf. destruct o as [q|]; [|done]. by exists t, q.
  - destruct (decide (t' = t)) as [->|]; [|by exists t', p; rewrite <- Hne].
    rewrite Ht in Hp. rewrite Hp in Hf. cbn in Hf. rewrite Hfp in Hf. destruct (m !! t) as [q|] eqn:E; [|done]. by exists t, q.
Qed.

Lemma flag_set f : has f o = true → flag f m' true.
Proof using Ha.
  destruct Ha as [Ht Hne]. intros Hf. split; [intros _|done]. destruct o as [q|]; [|done]. by exists t, q.
Qed.

Lemma flag_clear f : has f o = false → has f (m !! t) = true → at_most_one f m → flag f m' false.
Proof using Ha.
  destruct Ha as [Ht Hne]. intros Hf Hm Hone. split; [done|]. intros (t' & p & Hp & Hfp).
  destruct (decide (t' = t)) as [->|Hd].
  - rewrite Ht in Hp. rewrite Hp in Hf. cbn in Hf. congruence.
  - rewrite Hne in Hp by done. destruct (m !! t) as [q|] eqn:E; [|done].
    destruct Hd. by eapply Hone.
Qed.

Lemma flag_empty f b : at_most_one f m → flag f m b → has f (m !! t) = true → b = true.
Proof. intros Hone Hb Hf. apply Hb. destruct (m !! t) as [q|] eqn:E; [|done]. by exists t, q. Qed.

Lemma at_most_keep f : has f o = false ∨ has f (m !! t) = true → at_most_one f m → at_most_one f m'.
Proof using Ha.
  destruct Ha as [Ht Hne]. intros Ho Hm t1 t2 p1 p2 H1 H2 Hi1 Hi2.
  assert (Hold : ∀ t' p', m' !! t' = Some p' → f p' = true → ∃ q, m !! t' = Some q ∧ f q = true).
  { intros t' p' Hp Hi. destruct (decide (t' = t)) as [->|]; [|rewrite Hne in Hp by done; eauto].
    rewrite Ht in Hp. rewrite Hp in Ho. cbn in Ho. destruct Ho as [Ho|Ho]; [congruence|].
    destruct (m !! t) as [q|]; [eauto|done]. }
  destruct (Hold _ _ H1 Hi1) as (q1 & ? & ?), (Hold _ _ H2 Hi2) as (q2 & ? & ?). by eapply Hm.
Qed.

End flags.

(** What a call knows of the ring. *)
Definition knows (cs : con_softc) (unread : list Z) (p : pc) : Prop :=
  let nexthead := (cs_gotchars_head cs + 1) mod CONSOLE_INPUT_BUFFER_SIZE in
  match p with
  | InStore _ n => zlen unread ≤ 30 ∧ n = nexthead
  | InHead ch n => zlen unread ≤ 30 ∧ n = nexthead ∧ arr_get (cs_gotchars cs) (cs_gotchars_head cs) = Some (u8 ch)
  | GetTail ret => unread !! 0%nat = Some ret
  | _ => True
  end.

(** The ring holds [unread] from the tail on. *)
Record ring (cs : con_softc) (unread : list Z) : Prop := {
  rg_size : zlen (cs_gotchars cs) = CONSOLE_INPUT_BUFFER_SIZE;
  rg_tail : 0 ≤ cs_gotchars_tail cs < CONSOLE_INPUT_BUFFER_SIZE;
  rg_head : cs_gotchars_head cs = (cs_gotchars_tail cs + zlen unread) mod CONSOLE_INPUT_BUFFER_SIZE;
  rg_room : zlen unread ≤ 31;
  rg_chars : ∀ i x, unread !! i = Some x →
    arr_get (cs_gotchars cs) ((cs_gotchars_tail cs + Z.of_nat i) mod CONSOLE_INPUT_BUFFER_SIZE) = Some x;
}.

Section input.
Context {H : Type} `{SerialOps H} (view : H → serial) `{!SerialLaws H view}.
Implicit Types (s : csys H) (cs : con_softc).

Record in_inv s (unread : list Z) : Prop := {
  ii_ring : ring (c_cs s) unread;
  ii_history : h_accepted s = h_delivered s ++ unread;
  ii_get : at_most_one in_get (c_calls s);
  ii_count : ∃ a b, flag adds (c_calls s) a ∧ flag takes (c_calls s) b ∧
    cs_rsem (c_cs s) + Z.b2z a + Z.b2z b = zlen unread ∧ 0 ≤ cs_rsem (c_cs s);
  ii_knows : ∀ t p, c_calls s !! t = Some p → knows (c_cs s) unread p;
}.

(** The ring and the semaphore stay the same, and the call is not about input. *)
Lemma in_inv_call s s' t o n unread :
  in_inv s unread → at_call t o (c_calls s) (c_calls s') →
  has inputs (c_calls s !! t) = false → has inputs o = false → at_most_one in_get (c_calls s') →
  c_cs s' = set_wsem n (c_cs s) → h_accepted s' = h_accepted s → h_delivered s' = h_delivered s →
  in_inv s' unread.
Proof.
  intros [Hr Hh Hg (a & b & Ha & Hb & Hc) Hk] Hat Hm Ho Hg' Ecs Ea Ed.
  assert (Hsub : ∀ f, (∀ p, f p = true → inputs p = true) → has f (c_calls s !! t) = false ∧ has f o = false).
  { intros f Hf. split.
    - destruct (c_calls s !! t) as [q|]; [|done]. cbn in *. destruct (f q) eqn:E; [|done]. by rewrite Hf in Hm.
    - destruct o as [q|]; [|done]. cbn in *. destruct (f q) eqn:E; [|done]. by rewrite Hf in Ho. }
  destruct (Hsub adds ltac:(by intros [])) as [A1 A2], (Hsub takes ltac:(by intros [])) as [T1 T2].
  split; rewrite ?Ecs.
  - destruct Hr as [R1 R2 R3 R4 R5]. by split.
  - by rewrite Ea, Ed.
  - done.
  - exists a, b. split; [|split].
    + eapply flag_keep; [exact Hat|by rewrite A1, A2|done].
    + eapply flag_keep; [exact Hat|by rewrite T1, T2|done].
    + exact Hc.
  - intros t' p Hp. destruct Hat as [Ht Hne]. destruct (decide (t' = t)) as [->|].
    + rewrite Ht in Hp. rewrite Hp in Ho. cbn in Ho. by destruct p.
    + rewrite Hne in Hp by done. specialize (Hk t' p Hp). by destruct p.
Qed.


(** The slots of a ring: two within a turn are the same only if they are equal. *)
Lemma ring_slot_inj tail i j :
  0 ≤ i < CONSOLE_INPUT_BUFFER_SIZE → 0 ≤ j < CONSOLE_INPUT_BUFFER_SIZE →
  (tail + i) mod CONSOLE_INPUT_BUFFER_SIZE = (tail + j) mod CONSOLE_INPUT_BUFFER_SIZE → i = j.
Proof. unfold CONSOLE_INPUT_BUFFER_SIZE. intros. Z.div_mod_to_equations. lia. Qed.

Lemma slot_succ tail i :
  ((tail + i) mod CONSOLE_INPUT_BUFFER_SIZE + 1) mod CONSOLE_INPUT_BUFFER_SIZE = (tail + (i + 1)) mod CONSOLE_INPUT_BUFFER_SIZE.
Proof. rewrite Zplus_mod_idemp_l. f_equal. lia. Qed.

Lemma slot_range x : 0 ≤ x mod CONSOLE_INPUT_BUFFER_SIZE < CONSOLE_INPUT_BUFFER_SIZE.
Proof. by apply Z.mod_pos_bound. Qed.

(** A character is dropped exactly when 31 are waiting. *)
Lemma con_input_test_spec cs unread ch :
  ring cs unread →
  con_input_test ch cs = if zlen unread =? 31 then None
    else Some (InStore ch ((cs_gotchars_head cs + 1) mod CONSOLE_INPUT_BUFFER_SIZE)).
Proof.
  intros [R1 R2 R3 R4 R5]. unfold con_input_test. rewrite R3, slot_succ.
  destruct (Z.eqb_spec (zlen unread) 31) as [->|Hne].
  - replace (cs_gotchars_tail cs + (31 + 1)) with (cs_gotchars_tail cs + 1 * CONSOLE_INPUT_BUFFER_SIZE)
      by (unfold CONSOLE_INPUT_BUFFER_SIZE; lia).
    rewrite Z_mod_plus_full, Z.mod_small by done. by rewrite Z.eqb_refl.
  - rewrite (proj2 (Z.eqb_neq _ _)); [done|]. rewrite <- (Z.mod_small (cs_gotchars_tail cs) CONSOLE_INPUT_BUFFER_SIZE) at 2 by done.
    rewrite <- (Z.add_0_r (cs_gotchars_tail cs)) at 2. intros He%ring_slot_inj; unfold CONSOLE_INPUT_BUFFER_SIZE; lia.
Qed.

(** The store at the head touches no unread slot. *)
Lemma ring_store cs unread ch :
  ring cs unread → ring (con_input_store ch cs) unread ∧
    arr_get (cs_gotchars (con_input_store ch cs)) (cs_gotchars_head cs) = Some (u8 ch).
Proof.
  intros [R1 R2 R3 R4 R5]. pose proof (slot_range (cs_gotchars_tail cs + zlen unread)) as Hh. rewrite <- R3 in Hh.
  split; [split; cbn; rewrite ?length_arr_set; try done|].
  - intros i x Hx. rewrite arr_get_set_ne; [by apply R5|]. rewrite R3. intros He.
    apply lookup_lt_Some in Hx. apply ring_slot_inj in He; unfold CONSOLE_INPUT_BUFFER_SIZE in *; lia.
  - cbn. apply arr_get_set_eq. lia.
Qed.

Lemma ring_head cs unread ch :
  ring cs unread → zlen unread ≤ 30 → arr_get (cs_gotchars cs) (cs_gotchars_head cs) = Some (u8 ch) →
  ring (con_input_head ((cs_gotchars_head cs + 1) mod CONSOLE_INPUT_BUFFER_SIZE) cs) (unread ++ [u8 ch]).
Proof.
  intros [R1 R2 R3 R4 R5] Hl Hc. split; cbn; try done.
  - rewrite length_app, R3, slot_succ. cbn. f_equal. lia.
  - rewrite length_app. cbn. lia.
  - intros i x [Hx|[Hge Hx]]%lookup_app_Some; [by apply R5|].
    apply list_lookup_singleton_Some in Hx as [Hi <-]. rewrite <- Hc, R3. do 2 f_equal. lia.
Qed.

Lemma ring_tail cs x unread :
  ring cs (x :: unread) → getch_read cs = Some x ∧ ring (getch_tail cs) unread.
Proof.
  intros [R1 R2 R3 R4 R5]. cbn [length] in *. split.
  - unfold getch_read. rewrite <- (R5 O x eq_refl). f_equal. change (Z.of_nat 0) with 0. by rewrite Z.add_0_r, Z.mod_small.
  - split; cbn; try done.
    + apply slot_range.
    + rewrite R3, Zplus_mod_idemp_l. f_equal. lia.
    + lia.
    + intros i y Hy. rewrite <- (R5 (S i) y Hy), Zplus_mod_idemp_l. do 2 f_equal. lia.
Qed.

(** The handler's own steps; [Hirq]: it runs once at a time. *)
Lemma knows_others s s' t o unread unread' :
  in_inv s unread → at_call t o (c_calls s) (c_calls s') →
  (∀ p, o = Some p → knows (c_cs s') unread' p) →
  (∀ t' p, t' ≠ t → c_calls s !! t' = Some p → knows (c_cs s) unread p → knows (c_cs s') unread' p) →
  ∀ t' p, c_calls s' !! t' = Some p → knows (c_cs s') unread' p.
Proof.
  intros [_ _ _ _ Hk] [Ht Hne] Ho Hother t' p Hp. destruct (decide (t' = t)) as [->|Hd].
  - rewrite Ht in Hp. by apply Ho.
  - rewrite Hne in Hp by done. eauto.
Qed.

(** No other call is in the handler, or in [getch]. *)
Lemma not_other f (m : gmap Z pc) t q t' p :
  at_most_one f m → m !! t = Some q → f q = true → t' ≠ t → m !! t' = Some p → f p = false.
Proof. intros Hone Hq Hf Hne Hp. destruct (f p) eqn:E; [|done]. destruct Hne. by eapply Hone. Qed.

Lemma flag_none f (m : gmap Z pc) t q b g :
  at_most_one g m → m !! t = Some q → g q = true → f q = false → (∀ p, f p = true → g p = true) →
  flag f m b → b = false.
Proof.
  intros Hone Hq Hg Hf Hsub Hb. destruct b; [|done]. destruct (proj1 Hb eq_refl) as (t' & p & Hp & Hfp).
  assert (t' = t) as -> by (eapply Hone; eauto). congruence.
Qed.

Lemma at_most_sub f g m : (∀ p, f p = true → g p = true) → at_most_one g m → at_most_one f m.
Proof. intros Hsub Hone t t' p p' Hp Hp' Hf Hf'. eapply Hone; eauto. Qed.

Lemma step_InStore s t ch n unread :
  in_inv s unread → at_most_one in_irq (c_calls s) → c_calls s !! t = Some (InStore ch n) →
  in_inv (set_call t (InHead ch n) (set_cs (con_input_store ch (c_cs s)) s)) unread.
Proof.
  intros Hinv Hirq Hc. pose proof Hinv as [Hr Hh Hg (a & b & Ha & Hb & Hn) Hk].
  destruct (ring_store _ _ ch Hr) as [Hr' Hst]. destruct (Hk t _ Hc) as [Hl Hnh]. split; cbn; try done.
  - eapply at_most_keep; [apply at_insert|by left|done].
  - exists a, b. split; [|split; [|done]]; (eapply flag_keep; [apply at_insert|by rewrite Hc|done]).
  - eapply (knows_others s (set_call t (InHead ch n) (set_cs (con_input_store ch (c_cs s)) s)) t); [exact Hinv|apply at_insert| |].
    + intros p [= <-]. done.
    + intros t' p Hne Hp. pose proof (not_other in_irq _ t _ t' p Hirq Hc eq_refl Hne Hp). by destruct p.
Qed.

Lemma step_InHead s t ch n unread :
  in_inv s unread → at_most_one in_irq (c_calls s) → c_calls s !! t = Some (InHead ch n) →
  in_inv (set_call t InV (log_accepted (u8 ch) (set_cs (con_input_head n (c_cs s)) s))) (unread ++ [u8 ch]).
Proof.
  intros Hinv Hirq Hc. pose proof Hinv as [Hr Hh Hg (a & b & Ha & Hb & Hn) Hk].
  destruct (Hk t _ Hc) as (Hl & -> & Hst). pose proof (ring_head _ _ ch Hr Hl Hst) as Hr'. split; cbn; try done.
  - by rewrite Hh, app_assoc.
  - eapply at_most_keep; [apply at_insert|by left|done].
  - assert (a = false) as -> by (eapply (flag_none adds _ t _ a in_irq Hirq Hc); [done|done|by intros []|done]).
    exists true, b. split; [|split]; [eapply flag_set; [apply at_insert|done]|eapply flag_keep; [apply at_insert|by rewrite Hc|done]|].
    rewrite length_app. cbn in *. lia.
  - eapply (knows_others s (set_call t InV (log_accepted (u8 ch) (set_cs (con_input_head _ (c_cs s)) s))) t); [exact Hinv|apply at_insert| |].
    + intros p [= <-]. done.
    + intros t' p Hne Hp. pose proof (not_other in_irq _ t _ t' p Hirq Hc eq_refl Hne Hp). destruct p; try done.
      cbn. intros Hu. apply lookup_app_l_Some, Hu.
Qed.

Lemma step_InV s t unread :
  in_inv s unread → at_most_one in_irq (c_calls s) → c_calls s !! t = Some InV →
  ∃ cs, con_input_V (c_cs s) = Some cs ∧ in_inv (end_call t (set_cs cs s)) unread.
Proof.
  intros Hinv Hirq Hc. pose proof Hinv as [Hr Hh Hg (a & b & Ha & Hb & Hn & Hpos) Hk].
  assert (a = true) as -> by (apply Ha; by exists t, InV).
  pose proof (rg_room _ _ Hr) as Hroom. unfold con_input_V, sem_up.
  assert (cs_rsem (c_cs s) ≤ 31) by (destruct b; cbn in *; lia). rewrite wrap_small by lia.
  rewrite (proj2 (Z.eqb_neq _ _)) by lia. cbn. eexists. split; [reflexivity|]. split; cbn; try done.
  - by destruct Hr; split.
  - eapply at_most_keep; [apply at_delete|by left|done].
  - exists false, b. split; [|split]; [eapply flag_clear; [apply at_delete|done|by rewrite Hc|]|eapply flag_keep; [apply at_delete|by rewrite Hc|done]|].
    + eapply at_most_sub; [|exact Hirq]. by intros [].
    + cbn in *. lia.
  - eapply (knows_others s (end_call t (set_cs _ s)) t); [exact Hinv|apply at_delete|done|].
    intros t' p _ _. by destruct p.
Qed.

Lemma step_GetP s t unread :
  in_inv s unread → c_calls s !! t = Some GetP → 0 < cs_rsem (c_cs s) →
  in_inv (set_call t GetRead (set_cs (getch_P (c_cs s)) s)) unread.
Proof.
  intros Hinv Hc Hpos. pose proof Hinv as [Hr Hh Hg (a & b & Ha & Hb & Hn & _) Hk]. pose proof (rg_room _ _ Hr) as Hroom.
  assert (b = false) as -> by (eapply (flag_none takes _ t _ b in_get Hg Hc); [done|done|by intros []|done]).
  split; cbn; try done.
  - by destruct Hr; split.
  - eapply at_most_keep; [apply at_insert|right; by rewrite Hc|done].
  - exists a, true. split; [|split]; [eapply flag_keep; [apply at_insert|by rewrite Hc|done]|eapply flag_set; [apply at_insert|done]|].
    assert (cs_rsem (c_cs s) ≤ 31) by (destruct a; cbn in *; lia). rewrite wrap_small by lia. cbn in *. lia.
  - eapply (knows_others s (set_call t GetRead (set_cs _ s)) t); [exact Hinv|apply at_insert|by intros p [= <-]|].
    intros t' p _ _. by destruct p.
Qed.

Lemma takes_unread s t p unread :
  in_inv s unread → c_calls s !! t = Some p → takes p = true → ∃ x rest, unread = x :: rest.
Proof.
  intros [Hr Hh Hg (a & b & Ha & Hb & Hn & Hpos) Hk] Hc Hp.
  assert (b = true) as -> by (apply Hb; by exists t, p). destruct unread as [|x rest]; [|eauto].
  destruct a; cbn in *; lia.
Qed.

Lemma step_GetRead s t unread :
  in_inv s unread → c_calls s !! t = Some GetRead →
  ∃ ret, getch_read (c_cs s) = Some ret ∧ in_inv (set_call t (GetTail ret) s) unread.
Proof.
  intros Hinv Hc. destruct (takes_unread s t _ unread Hinv Hc eq_refl) as (x & rest & ->).
  pose proof Hinv as [Hr Hh Hg (a & b & Ha & Hb & Hn & Hpos) Hk]. destruct (ring_tail _ _ _ Hr) as [Hx _].
  exists x. split; [done|]. split; cbn; try done.
  - eapply at_most_keep; [apply at_insert|right; by rewrite Hc|done].
  - exists a, b. split; [|split; [|done]]; (eapply flag_keep; [apply at_insert|by rewrite Hc|done]).
  - eapply (knows_others s (set_call t (GetTail x) s) t); [exact Hinv|apply at_insert|by intros p [= <-]|].
    intros t' p _ _. by destruct p.
Qed.

Lemma step_GetTail s t ret unread :
  in_inv s unread → c_calls s !! t = Some (GetTail ret) →
  ∃ rest, unread = ret :: rest ∧ in_inv (end_call t (log_delivered ret (set_cs (getch_tail (c_cs s)) s))) rest.
Proof.
  intros Hinv Hc. destruct (takes_unread s t _ unread Hinv Hc eq_refl) as (x & rest & ->).
  pose proof Hinv as [Hr Hh Hg (a & b & Ha & Hb & Hn & Hpos) Hk].
  pose proof (Hk t _ Hc) as Hret. cbn in Hret. injection Hret as ->. destruct (ring_tail _ _ _ Hr) as [_ Hr'].
  exists rest. split; [done|]. assert (b = true) as -> by (apply Hb; by exists t, (GetTail ret)). split; cbn; try done.
  - by rewrite Hh, <- app_assoc.
  - eapply at_most_keep; [apply at_delete|by left|done].
  - exists a, false. split; [|split]; [eapply flag_keep; [apply at_delete|by rewrite Hc|done]|eapply flag_clear; [apply at_delete|done|by rewrite Hc|]|].
    + eapply at_most_sub; [|exact Hg]. by intros [].
    + cbn in *. lia.
  - eapply (knows_others s (end_call t (log_delivered ret (set_cs (getch_tail (c_cs s)) s))) t); [exact Hinv|apply at_delete|done|].
    intros t' p Hne Hp. pose proof (not_other in_get _ t _ t' p Hg Hc eq_refl Hne Hp). destruct p; try done; cbn [knows length]; naive_solver lia.
Qed.


(** With one reader, every step that is possible succeeds and keeps the ring. *)
Lemma in_inv_begin s t p unread :
  in_inv s unread → cenabled view true (ABegin t p) s → in_inv (set_call t p s) unread.
Proof.
  intros Hinv (Hnone & Hst & _ & Hget).
  eapply (in_inv_call s _ t (Some p) (cs_wsem (c_cs s))); [exact Hinv|apply at_insert|by rewrite Hnone|by destruct p| |by destruct s as [? [] ? ? ? ?]|done|done].
  cbn. destruct (decide (p = GetP)) as [->|Hne].
  - assert (Hno : ∀ t' p', c_calls s !! t' = Some p' → in_get p' = true → False).
    { intros t' p' Hp'. by rewrite (Hget eq_refl eq_refl t' p' Hp'). }
    intros t1 t2 p1 p2 [[<- _]|[_ H1]]%lookup_insert_Some [[<- _]|[_ H2]]%lookup_insert_Some Hi1 Hi2; by try destruct (Hno _ _ H1); try destruct (Hno _ _ H2).
  - eapply at_most_keep; [apply at_insert|left; by destruct p|apply Hinv].
Qed.

(** The steps of output leave the ring alone. *)
Lemma in_inv_other s t p unread ls o m' w n :
  in_inv s unread → c_calls s !! t = Some p → inputs p = false → in_get p = false →
  at_call t o (c_calls s) m' → has inputs o = false → has in_get o = false →
  in_inv (CSys ls (set_wsem n (c_cs s)) m' w (h_accepted s) (h_delivered s)) unread.
Proof.
  intros Hinv Hc Hp Hg Ha Ho Hgo. eapply (in_inv_call s _ t o n); [exact Hinv|exact Ha|by rewrite Hc|done| |done|done|done].
  eapply at_most_keep; [exact Ha|by left|apply Hinv].
Qed.

Lemma set_wsem_id cs : set_wsem (cs_wsem cs) cs = cs.
Proof. by destruct cs. Qed.

Lemma in_inv_run s t p unread :
  out_inv view s → in_inv s unread → c_calls s !! t = Some p → can_run p s = true →
  ∃ s' unread', run_call t p s = Some s' ∧ in_inv s' unread'.
Proof using All.
  intros Hout Hinv Hc Hcan.
  assert (Hirq : at_most_one in_irq (c_calls s)) by exact (oi_irq _ _ Hout).
  assert (Hother : ∀ ls o m' w n, inputs p = false → in_get p = false → at_call t o (c_calls s) m' → has inputs o = false → has in_get o = false →
    in_inv (CSys ls (set_wsem n (c_cs s)) m' w (h_accepted s) (h_delivered s)) unread) by (intros; by eapply in_inv_other).
  assert (Hsame : ∀ ls o m' w, inputs p = false → in_get p = false → at_call t o (c_calls s) m' → has inputs o = false → has in_get o = false →
    in_inv (CSys ls (c_cs s) m' w (h_accepted s) (h_delivered s)) unread)
    by (intros; rewrite <- (set_wsem_id (c_cs s)); eauto).
  destruct p; cbn [run_call can_run] in *; zbool.
  - eexists _, unread. split; [done|]. eapply Hother; [done|done|apply at_insert|done|done].
  - apply bool_decide_eq_true_1 in Hcan. destruct (step_PutSend view s t ch Hout Hc Hcan) as (ls & E & _). rewrite E. cbn.
    eexists _, unread. split; [done|]. eapply Hsame; [done|done|apply at_delete|done|done].
  - unfold lser_writepolled_start. cbn. destruct (ls_wbusy (c_ls s)); eexists _, unread; (split; [done|]);
      (eapply Hsame; [done|done|apply at_insert|done|done]).
  - eexists _, unread. split; [done|]. eapply Hsame; [done|done|apply at_insert|done|done].
  - eexists _, unread. split; [done|]. eapply Hsame; [done|done|apply at_delete|done|done].
  - destruct (lser_irq (c_ls s)) as [[ls c] g]. eexists _, unread. split; [done|]. eapply Hsame; [done|done|apply at_insert|done|done].
  - destruct clear_to_write.
    + destruct Hout as [(k & Hw & _ & _ & Hall) _ _ _]. specialize (Hall t _ Hc eq_refl).
      assert (cs_wsem (c_cs s) = 0) as Hw0 by (destruct Hall as [-> | ->]; done).
      unfold con_start. rewrite Hw0. cbn. eexists _, unread. split; [done|]. eapply Hother; [done|done|apply at_insert|done|done].
    + eexists _, unread. split; [done|]. eapply Hsame; [done|done|apply at_insert|done|done].
  - destruct got as [ch|].
    + rewrite (con_input_test_spec _ _ ch (ii_ring _ _ Hinv)). destruct (Z.eqb_spec (zlen unread) 31) as [He|He].
      * eexists _, unread. split; [done|]. eapply Hsame; [done|done|apply at_delete|done|done].
      * eexists _, unread. split; [done|]. pose proof (rg_room _ _ (ii_ring _ _ Hinv)). destruct Hinv as [Hr Hh Hg (a & b & Ha & Hb & Hn) Hk].
        split; cbn; try done.
        { eapply at_most_keep; [apply at_insert|by left|done]. }
        { exists a, b. split; [|split; [|done]]; (eapply flag_keep; [apply at_insert|by rewrite Hc|done]). }
        intros t' q [[<- <-]|[_ Hq]]%lookup_insert_Some; [split; [lia|done]|by apply (Hk t')].
    + eexists _, unread. split; [done|]. eapply Hsame; [done|done|apply at_delete|done|done].
  - eexists _, unread. split; [done|]. by apply step_InStore.
  - eexists _, _. split; [done|]. by apply step_InHead.
  - destruct (step_InV s t unread Hinv Hirq Hc) as (cs & -> & ?). cbn. eauto.
  - eexists _, unread. split; [done|]. by apply step_GetP.
  - destruct (step_GetRead s t unread Hinv Hc) as (ret & -> & ?). cbn. eauto.
  - destruct (step_GetTail s t ret unread Hinv Hc) as (rest & -> & ?). eauto.
Qed.

Lemma in_inv_step s a unread :
  out_inv view s → in_inv s unread → cenabled view true a s → ∃ s' unread', cdo a s = Some s' ∧ in_inv s' unread'.
Proof using All.
  intros Hout Hinv Hen. destruct a as [t p|t| |ch].
  - eexists _, unread. split; [done|]. by apply in_inv_begin.
  - destruct Hen as (p & Hc & Hcan). cbn. rewrite Hc. cbn. by eapply in_inv_run.
  - eexists _, unread. split; [done|]. by destruct Hinv; split.
  - eexists _, unread. split; [done|]. by destruct Hinv; split.
Qed.

Lemma creach_in_inv s : creach view true s → ∃ unread, in_inv s unread.
Proof using All.
  intros Hr. induction Hr as [dv got Hlen Hv|a s s' Hr [unread IH] Hen Hrun].
  - exists []. split; cbn; try done.
    + split; cbn; try done. by rewrite Hlen.
    + exists false, false. split; [|split; [|done]]; (split; [done|]); intros (t & p & Hp & _); by rewrite lookup_empty in Hp.
  - destruct (in_inv_step s a unread (creach_out_inv view true s Hr) IH Hen) as (s1 & u1 & Hrun1 & Hi1).
    rewrite Hrun in Hrun1. injection Hrun1 as <-. eauto.
Qed.

End input.

(** ** Theorems *)

(** C33: what is printed comes out.  Whatever threads and interrupt handlers print
    and however their steps interleave, by interrupts or by polling: the characters given to the device are,
    in this order, those that went out and the one it is sending, so that none is
    lost, doubled or overwritten; a thread past [P] never finds the device busy (the panic [lser: Not clear to
    write] cannot happen); and there is no deadlock: as long as a call is under way that does not wait
    for input, a call can take a step, or the device ends a transmission, or it has raised the interrupt that lets the
    next one begin. *)
Theorem console_output {H} `{SerialOps H} (view : H → serial) `{!SerialLaws H view} single (s : csys H) :
  creach view single s →
  h_written s = ser_out (view (ls_dev (c_ls s))) ++ option_list (ser_tx (view (ls_dev (c_ls s)))) ∧
  (∀ t ch, c_calls s !! t = Some (PutSend ch) → ls_lock (c_ls s) = None → is_Some (lser_write ch (c_ls s))) ∧
  (∀ t p, c_calls s !! t = Some p → p ≠ GetP → can_progress view single s).
Proof.
  intros Hr%creach_out_inv; [|done]. split; [apply Hr|]. split.
  - intros t ch Hc Hlk. destruct (step_PutSend view s t ch Hr Hc Hlk) as (ls & -> & _). done.
  - intros t p Hc Hne. by eapply output_progress.
Qed.

(** C34: the ring of the console is a queue.  With one reader at a time, and the interrupt
    handler on another processor: the characters [getch] has returned are, in order, the first of those
    that were put into the ring, the others (at most 31) are still there; the handler drops a character exactly when 31
    wait; when no call is in the middle of its work the read semaphore counts those that wait,
    so that no reader sleeps on a filled ring; and no step of console.c or lser.c panics. *)
Theorem console_input {H} `{SerialOps H} (view : H → serial) `{!SerialLaws H view} (s : csys H) :
  creach view true s →
  ∃ unread, h_accepted s = h_delivered s ++ unread ∧ zlen unread ≤ 31 ∧
    (∀ t ch, c_calls s !! t = Some (IrqInput (Some ch)) → con_input_test ch (c_cs s) = None ↔ zlen unread = 31) ∧
    (none_in adds s → none_in takes s → cs_rsem (c_cs s) = zlen unread) ∧
    (∀ a, cenabled view true a s → is_Some (cdo a s)).
Proof.
  intros Hr. destruct (creach_in_inv view s Hr) as [unread Hi]. pose proof (creach_out_inv view true s Hr) as Ho.
  exists unread. split; [apply Hi|]. split; [apply (ii_ring _ _ Hi)|]. split; [|split].
  - intros t ch _. rewrite (con_input_test_spec _ _ ch (ii_ring _ _ Hi)). destruct (Z.eqb_spec (zlen unread) 31); done.
  - intros Ha Ht. destruct (ii_count _ _ Hi) as (a & b & Hfa & Hfb & Hn & _).
    assert (a = false ∧ b = false) as [-> ->]; [|cbn in Hn; lia].
    split; [destruct a|destruct b]; try done; [destruct (proj1 Hfa eq_refl) as (t & p & Hp & Hf)|destruct (proj1 Hfb eq_refl) as (t & p & Hp & Hf)].
    + by rewrite (Ha t p Hp) in Hf.
    + by rewrite (Ht t p Hp) in Hf.
  - intros a Hen. destruct (in_inv_step view s a unread Ho Hi Hen) as (s' & u' & -> & _). done.
Qed.

(** ** A serial line *)

#[export] Instance line_ops : SerialOps serial := {
  bus_read_register h r :=
    if r =? LSER_REG_CHAR then default 0 (ser_rx h)
    else if r =? LSER_REG_WIRQ then
      Z.lor (if ser_wactive h then LSER_IRQ_ACTIVE else 0) (if ser_wenable h then LSER_IRQ_ENABLE else 0)
    else if r =? LSER_REG_RIRQ then (match ser_rx h with Some _ => LSER_IRQ_ACTIVE | None => 0 end)
    else 0;
  bus_write_register h r x :=
    if r =? LSER_REG_CHAR then Serial (Some x) (ser_wactive h) (ser_wenable h) (ser_rx h) (ser_out h)
    else if r =? LSER_REG_WIRQ then Serial (ser_tx h) (Z.testbit x 1) (Z.testbit x 0) (ser_rx h) (ser_out h)
    else if r =? LSER_REG_RIRQ then
      Serial (ser_tx h) (ser_wactive h) (ser_wenable h) (if Z.testbit x 1 then ser_rx h else None) (ser_out h)
    else h;
  dev_done h := Serial None true (ser_wenable h) (ser_rx h) (ser_out h ++ option_list (ser_tx h));
  dev_receive h c := Serial (ser_tx h) (ser_wactive h) (ser_wenable h) (Some c) (ser_out h);
}.

#[export] Instance line_laws : SerialLaws serial id.
Proof.
  split; cbn.
  - intros [tx [] [] rx out]; done.
  - intros [tx a e [c|] out]; done.
  - intros [tx a e rx out] c; cbn. by intros ->.
  - done.
  - intros h x ->. done.
  - intros h x ->. done.
  - intros [tx a e rx out] c; cbn. by intros ->.
  - done.
Qed.

#[export] Instance none_in_dec {H} f (s : csys H) : Decision (none_in f s).
Proof. change (Decision (map_Forall (λ _ p, f p = false) (c_calls s))). apply _. Defined.

#[export] Instance cenabled_dec {H} `{SerialOps H} view single a (s : csys H) : Decision (cenabled view single a s).
Proof.
  destruct a as [t p|t| |ch]; cbn.
  - apply _.
  - destruct (c_calls s !! t) as [p|] eqn:E.
    + destruct (can_run p s) eqn:Ec; [left; by exists p|right]. intros (q & Hq & Hr). congruence.
    + right. by intros (p & ? & _).
  - apply _.
  - apply _.
Defined.

(** A run: each action must be possible. *)
Fixpoint con_run {H} `{SerialOps H} (view : H → serial) (single : bool) (l : list con_act) (s : csys H) : option (csys H) :=
  match l with
  | [] => Some s
  | a :: l' => if decide (cenabled view single a s) then s ← cdo a s; con_run view single l' s else None
  end.

Lemma con_run_reach {H} `{SerialOps H} (view : H → serial) single l (s s' : csys H) :
  creach view single s → con_run view single l s = Some s' → creach view single s'.
Proof.
  revert s. induction l as [|a l IH]; intros s Hr; cbn [con_run]; [by intros [= <-]|].
  destruct (decide (cenabled view single a s)) as [He|]; [|done]. destruct (cdo a s) as [s1|] eqn:E; cbn; [|done].
  apply IH. by eapply cr_step.
Qed.

Definition quiet : serial := Serial None false true None [].
Definition console0 : csys serial :=
  CSys (Lser None false quiet) (Con 0 1 (replicate 32 0) 0 0) ∅ [] [] [].

Lemma console0_reach single : creach id single console0.
Proof. apply (cr_start id single quiet (replicate 32 0)); done. Qed.

(** Two threads print a and b by interrupts; while a is going out, a handler prints X by polling. *)
Definition printing : list con_act :=
  [ABegin 1 (putch false 0 0 97); ABegin 2 (putch false 0 0 98); ARun 1; ARun 1;
   ABegin 3 (putch true 1 0 88); ARun 3; ADone; ARun 3].

Definition printing_end : list con_act := [ADone; ARun 3; ABegin 4 Irq; ARun 4; ARun 4; ARun 4; ARun 2; ARun 2; ADone].

Definition printing_state : csys serial := default console0 (con_run id false printing console0).

Lemma console_output_witness :
  creach id false printing_state ∧ can_progress id false printing_state.
Proof.
  assert (Hr : creach id false printing_state)
    by exact (con_run_reach id false printing console0 printing_state (console0_reach false) ltac:(vm_compute; reflexivity)).
  split; [exact Hr|]. refine (proj2 (proj2 (console_output id false printing_state Hr)) 2 (PutP 98) _ _).
  - vm_compute. reflexivity.
  - discriminate.
Defined.

Example printing_result :
  (s ← con_run id false (printing ++ printing_end) console0; Some (ser_out (ls_dev (c_ls s)), ls_wbusy (c_ls s))) = Some ([97; 88; 98], true).
Proof. vm_compute. reflexivity. Qed.

(** A character comes in and is read. *)
Definition typing (ch : Z) : list con_act :=
  [AReceive ch; ABegin 9 Irq; ARun 9; ARun 9; ARun 9; ARun 9; ARun 9; ARun 9].

Definition typed_state : csys serial :=
  default console0 (con_run id true (typing 104 ++ typing 105 ++ [ABegin 1 GetP; ARun 1; ARun 1; ARun 1]) console0).

Lemma console_input_witness :
  ∃ unread, [104; 105] = [104] ++ unread ∧ zlen unread ≤ 31.
Proof.
  assert (Hr : creach id true typed_state).
  { exact (con_run_reach id true (typing 104 ++ typing 105 ++ [ABegin 1 GetP; ARun 1; ARun 1; ARun 1]) console0 typed_state
      (console0_reach true) ltac:(vm_compute; reflexivity)). }
  destruct (console_input id typed_state Hr) as (unread & Hh & Hl & _). exists unread. split; [exact Hh|exact Hl].
Defined.

(** Two readers at the same time: both get the first of two characters, and the second is lost. *)
Theorem two_readers_lose :
  ∃ s, con_run id false (typing 104 ++ typing 105 ++
      [ABegin 1 GetP; ABegin 2 GetP; ARun 1; ARun 2; ARun 1; ARun 2; ARun 1; ARun 2]) console0 = Some s ∧
    h_accepted s = [104; 105] ∧ h_delivered s = [104; 104] ∧ cs_rsem (c_cs s) = 0.
Proof. eexists. split; [vm_compute; reflexivity|]. done. Qed.

(** The thirty-second character is dropped. *)
Example ring_full :
  (s ← con_run id true (concat (typing <$> seqZ 65 31) ++ [AReceive 122; ABegin 9 Irq; ARun 9; ARun 9; ARun 9]) console0;
   Some (cs_rsem (c_cs s), h_accepted s)) = Some (31, seqZ 65 31).
Proof. vm_compute. reflexivity. Qed.
