(* ===== verification/ConIo.v ===== *)
(** * The console as a device: con_io and the start of the console

    The rest of kern/dev/generic/console.c: reading and writing the device con
    by lines, the buffer for what is printed before the console is found, and
    [config_con].  By ConsoleIn.v [getch] returns the characters in the order in
    which they were typed and [putch] prints in order, so here the console
    is two streams: what will be typed, and what has been printed.  A [getch] on an
    empty stream waits for ever.  The locks of console.c do nothing in this source. *)

From Stdlib Require Import ZArith Lia.
From stdpp Require Import base list list_numbers strings sets.
From S2P Require Import Prelude Types Strings Uio.
Set Default Goal Selector "!".
Open Scope Z_scope.

Record constate := ConState {
  co_in : list Z;
  co_out : list Z;
  co_uio : uio;
  co_mem : mem;
}.

Abbreviation M := (K constate).

Definition CR : Z := 13.
Definition LF : Z := 10.

Definition con_getch : M Z :=
  l ← gets co_in;
  match l with
  | [] => diverge
  | ch :: rest => modify (λ s, ConState rest (co_out s) (co_uio s) (co_mem s));; mret ch
  end.

Definition con_putch (ch : Z) : M unit :=
  modify (λ s, ConState (co_in s) (co_out s ++ [ch]) (co_uio s) (co_mem s)).

(** [uiomove (&ch, 1, uio)]: the byte [ch] afterwards. *)
Definition con_uiomove (ch : Z) : M Z :=
  u ← gets co_uio;
  m ← gets co_mem;
  match uiomove [ch] 0 1 u m with
  | Some ([ch'], u', m') => modify (λ s, ConState (co_in s) (co_out s) u' m');; mret ch'
  | _ => panic "uiomove"
  end.

(** The loop; every round moves one byte of [uio_resid].  [ch] is the local variable. *)
Fixpoint con_io_loop (fuel : nat) (ch : Z) : M Z :=
  u ← gets co_uio;
  if 0 <? uio_resid u then
    match fuel with
    | O => diverge
    | S fuel' =>
        match uio_rw u with
        | UIO_READ =>
            c ← con_getch;
            let ch := if c =? CR then LF else c in
            con_uiomove ch;;
            if ch =? LF then mret 0 else con_io_loop fuel' ch
        | UIO_WRITE =>
            ch ← con_uiomove ch;
            (if ch =? LF then con_putch CR else mret tt);;
            con_putch ch;;
            con_io_loop fuel' ch
        end
    end
  else mret 0.

Definition con_io (fuel : nat) : M Z := con_io_loop fuel 0.

Definition con_eachopen (openflags : Z) : Z := 0.
Definition con_ioctl (op data : Z) : Z := EINVAL.

(** ** Before there is a console *)

Definition DELAYBUFSIZE : Z := 1024.

(** [delayed_outbuf] up to its position; [None] is the failed assertion. *)
Definition putch_delayed (buf : list Z) (ch : Z) : option (list Z) :=
  if zlen buf <? DELAYBUFSIZE then Some (buf ++ [ch]) else None.

Definition flush_delay_buf (buf out : list Z) : list Z * list Z :=
  ([], foldl (λ out ch, out ++ [ch]) out buf).

Definition ENODEV : Z := 25.

(** The objects [config_con] makes. *)
Inductive con_obj := RSem | WSem | RLock | WLock | Dev.

#[export] Instance con_obj_eq_dec : EqDecision con_obj.
Proof. solve_decision. Defined.

(** The result, the objects in use, whether there is a console, the buffer and the output.  [ok o]: there is
    memory for [o]; [adddev]: the result of [vfs_adddev]. *)
Definition config_con (unit_ : Z) (ok : con_obj → bool) (adddev : Z)
    (heap : list con_obj) (the_console : bool) (buf out : list Z) :
    option (Z * list con_obj * bool * list Z * list Z) :=
  if 0 <? unit_ then
    if the_console then Some (ENODEV, heap, the_console, buf, out) else None
  else if the_console then None
  else if negb (ok RSem) then Some (ENOMEM, heap, the_console, buf, out)
  else let heap1 := RSem :: heap in
  if negb (ok WSem) then Some (ENOMEM, filter (λ o, o ≠ RSem) heap1, the_console, buf, out)
  else let heap2 := WSem :: heap1 in
  if negb (ok RLock) then Some (ENOMEM, filter (λ o, o ≠ WSem) (filter (λ o, o ≠ RSem) heap2), the_console, buf, out)
  else let heap3 := RLock :: heap2 in
  if negb (ok WLock) then
    Some (ENOMEM, filter (λ o, o ≠ WSem) (filter (λ o, o ≠ RSem) (filter (λ o, o ≠ RLock) heap3)), the_console, buf, out)
  else let heap4 := WLock :: heap3 in
  let '(buf', out') := flush_delay_buf buf out in
  if negb (ok Dev) then Some (ENOMEM, heap4, true, buf', out')
  else if negb (adddev =? 0) then Some (adddev, heap4, true, buf', out')
  else Some (0, Dev :: heap4, true, buf', out').

(** ** Lines *)

Definition newline (c : Z) : Z := if c =? CR then LF else c.

(** What a read of [n] bytes takes from what is typed: up to the end of the line. *)
Fixpoint line_of (n : nat) (typed : list Z) : option (list Z * list Z) :=
  match n, typed with
  | O, _ => Some ([], typed)
  | S _, [] => None
  | S n', c :: rest =>
      if newline c =? LF then Some ([LF], rest)
      else '(l, rest') ← line_of n' rest; Some (newline c :: l, rest')
  end.

(** What is printed for some text. *)
Definition print_text (l : list Z) : list Z := concat ((λ c, if c =? LF then [CR; LF] else [c]) <$> l).

Lemma con_uiomove_run s base len ch :
  region (co_uio s) base len → 0 < uio_resid (co_uio s) →
  con_uiomove ch s =
    match uio_rw (co_uio s) with
    | UIO_READ => Ret ch (ConState (co_in s) (co_out s) (advanced (co_uio s) 1) (put_bytes (co_mem s) base [ch]))
    | UIO_WRITE => Ret (co_mem s base) (ConState (co_in s) (co_out s) (advanced (co_uio s) 1) (co_mem s))
    end.
Proof.
  intros Hr Hpos. unfold con_uiomove. krun. rewrite (uiomove_one _ 0 1 _ base len) by (done || lia).
  destruct (uio_rw (co_uio s)); [done|]. unfold splice, get_bytes. cbn. done.
Qed.

Lemma con_getch_run s :
  con_getch s = match co_in s with
                | [] => Diverge
                | ch :: rest => Ret ch (ConState rest (co_out s) (co_uio s) (co_mem s))
                end.
Proof. unfold con_getch. krun. by destruct (co_in s). Qed.

Lemma put_bytes_cons m base c l a :
  put_bytes (put_bytes m base [c]) (base + 1) l a = put_bytes m base (c :: l) a.
Proof.
  unfold put_bytes. cbn [length]. repeat case_decide; try lia.
  - rewrite arr_get_tl by lia. do 2 f_equal. lia.
  - by replace (a - base) with 0 by lia.
Qed.

Lemma put_bytes_nil m base a : put_bytes m base [] a = m a.
Proof. unfold put_bytes. cbn. case_decide; [lia|done]. Qed.

Lemma line_of_length n typed l rest : line_of n typed = Some (l, rest) → (length l ≤ n)%nat.
Proof.
  revert typed l rest. induction n as [|n IH]; intros [|c typed] l rest; cbn [line_of]; try (intros [= <- <-]; cbn; lia); try done.
  destruct (newline c =? LF); [intros [= <- <-]; cbn; lia|].
  destruct (line_of n typed) as [[l' r']|] eqn:E; cbn; [|done]. intros [= <- <-]. cbn. apply IH in E. lia.
Qed.

Lemma con_read_loop fuel ch s base len l rest :
  region (co_uio s) base len → uio_rw (co_uio s) = UIO_READ → (Z.to_nat (uio_resid (co_uio s)) ≤ fuel)%nat →
  line_of (Z.to_nat (uio_resid (co_uio s))) (co_in s) = Some (l, rest) →
  ∃ m', con_io_loop fuel ch s = Ret 0 (ConState rest (co_out s) (advanced (co_uio s) (zlen l)) m') ∧
    ∀ a, m' a = put_bytes (co_mem s) base l a.
Proof.
  revert ch s base len l rest. induction fuel as [|fuel IH]; intros ch s base len l rest Hr Hrw Hf Hl; cbn [con_io_loop]; krun.
  all: destruct (Z.ltb_spec 0 (uio_resid (co_uio s))) as [Hpos|Hle]; try lia.
  1, 3: rewrite (Z2Nat.nonpos (uio_resid (co_uio s))) in Hl by done; cbn in Hl; injection Hl as <- <-;
    exists (co_mem s); (split; [|intros a; by rewrite put_bytes_nil]); unfold mret, K_ret; rewrite advanced_0; by destruct s.
  rewrite Hrw. destruct (Z.to_nat (uio_resid (co_uio s))) as [|n] eqn:En; [lia|].
  destruct s as [inp out u m]. cbn in *. destruct inp as [|c inp]; [done|].
  rewrite run_bind, con_getch_run. cbn [co_in co_out co_uio co_mem].
  set (s1 := ConState inp out u m). change (if c =? CR then LF else c) with (newline c).
  rewrite run_bind, (con_uiomove_run s1 base len (newline c) Hr Hpos). cbn. rewrite Hrw.
  destruct (newline c =? LF) eqn:E.
  - injection Hl as <- <-. apply Z.eqb_eq in E. rewrite E. eexists. split; [reflexivity|done].
  - destruct (line_of n inp) as [[l' r']|] eqn:El; cbn in Hl; [|done]. injection Hl as <- <-.
    assert (Hr' : region (advanced u 1) (base + 1) (len - 1)) by (apply advanced_region; [done|lia]).
    assert (Hn : Z.to_nat (uio_resid (advanced u 1)) = n) by (cbn; lia).
    destruct (IH (newline c) (ConState inp out (advanced u 1) (put_bytes m base [newline c])) (base + 1) (len - 1) l' r')
      as (m' & Hrun & Hm); cbn [co_uio co_in co_out co_mem] in *; [done|done|lia|by rewrite Hn|].
    exists m'. rewrite Hrun. split.
    + rewrite advanced_advanced. cbn [length]. do 3 f_equal. lia.
    + intros a. by rewrite Hm, put_bytes_cons.
Qed.

Lemma con_write_loop fuel ch s base len :
  region (co_uio s) base len → uio_rw (co_uio s) = UIO_WRITE → (Z.to_nat (uio_resid (co_uio s)) ≤ fuel)%nat →
  con_io_loop fuel ch s = Ret 0 (ConState (co_in s) (co_out s ++ print_text (get_bytes (co_mem s) base (uio_resid (co_uio s))))
    (advanced (co_uio s) (uio_resid (co_uio s))) (co_mem s)).
Proof.
  revert ch s base len. induction fuel as [|fuel IH]; intros ch s base len Hr Hrw Hf; cbn [con_io_loop]; krun.
  all: destruct (Z.ltb_spec 0 (uio_resid (co_uio s))) as [Hpos|Hle]; try lia.
  1, 3: replace (uio_resid (co_uio s)) with 0 by (destruct Hr; lia); unfold mret, K_ret, get_bytes; rewrite seqZ_nil by lia; cbn;
    rewrite advanced_0, app_nil_r; by destruct s.
  rewrite Hrw. rewrite run_bind, (con_uiomove_run s base len ch Hr Hpos), Hrw. destruct s as [inp out u m]. cbn in *.
  set (c := m base).
  assert (Hr' : region (advanced u 1) (base + 1) (len - 1)) by (apply advanced_region; [done|lia]).
  assert (Hput : ∀ k : M Z, ((if c =? LF then con_putch CR else mret tt) ;; con_putch c ;; k) (ConState inp out (advanced u 1) m) =
    k (ConState inp (out ++ if c =? LF then [CR; LF] else [c]) (advanced u 1) m)).
  { intros k. destruct (Z.eqb_spec c LF) as [->|]; unfold con_putch; krun; cbn; by rewrite <- ?app_assoc. }
  rewrite Hput, (IH c _ (base + 1) (len - 1)); cbn [co_uio co_in co_out co_mem]; [|done|done|cbn; lia].
  rewrite advanced_advanced. cbn [uio_resid advanced]. f_equal. f_equal.
  - rewrite <- app_assoc. f_equal. unfold get_bytes, print_text. rewrite (seqZ_cons base (uio_resid u)) by lia.
    rewrite !fmap_cons. cbn [concat]. fold c. done.
  - f_equal. lia.
Qed.

(** Without a whole line, or enough of it, a read does not return. *)
Lemma con_read_waits fuel ch s base len :
  region (co_uio s) base len → uio_rw (co_uio s) = UIO_READ →
  line_of (Z.to_nat (uio_resid (co_uio s))) (co_in s) = None → con_io_loop fuel ch s = Diverge.
Proof.
  revert ch s base len. induction fuel as [|fuel IH]; intros ch s base len Hr Hrw El; cbn [con_io_loop]; krun.
  all: destruct (Z.ltb_spec 0 (uio_resid (co_uio s))) as [Hpos|Hle]; [|by rewrite (Z2Nat.nonpos (uio_resid (co_uio s))) in El].
  1: done.
  rewrite Hrw. destruct (Z.to_nat (uio_resid (co_uio s))) as [|n] eqn:En; [lia|].
  destruct s as [inp out u m]. rewrite run_bind, con_getch_run. cbn in *. destruct inp as [|c inp]; [done|].
  change (if c =? CR then LF else c) with (newline c).
  rewrite run_bind, (con_uiomove_run (ConState inp out u m) base len (newline c) Hr Hpos). cbn. rewrite Hrw.
  destruct (newline c =? LF) eqn:E; [done|]. destruct (line_of n inp) as [[l' r']|] eqn:El'; cbn in El; [done|].
  eapply (IH _ _ (base + 1) (len - 1)); cbn; [apply advanced_region; [done|lia]|done|].
  by replace (Z.to_nat (uio_resid u - 1)) with n by lia.
Qed.

(** The console serves lines.  A read of the device con returns, in the buffer of
    the request, what is typed up to the end of the line or of the buffer, with carriage returns as line feeds, and leaves the rest for the
    next read; without enough input it waits.  A write prints the buffer, each line feed with a carriage
    return before it.  Both use up exactly the bytes they move. *)
Theorem con_io_lines s base len :
  region (co_uio s) base len →
  let u := co_uio s in
  match uio_rw u with
  | UIO_READ =>
      match line_of (Z.to_nat (uio_resid u)) (co_in s) with
      | Some (l, rest) =>
          ∃ m', con_io (Z.to_nat (uio_resid u)) s = Ret 0 (ConState rest (co_out s) (advanced u (zlen l)) m') ∧
            zlen l ≤ uio_resid u ∧ ∀ a, m' a = put_bytes (co_mem s) base l a
      | None => ∀ fuel, con_io fuel s = Diverge
      end
  | UIO_WRITE =>
      con_io (Z.to_nat (uio_resid u)) s =
        Ret 0 (ConState (co_in s) (co_out s ++ print_text (get_bytes (co_mem s) base (uio_resid u))) (advanced u (uio_resid u)) (co_mem s))
  end.
Proof.
  intros Hr u. destruct (uio_rw u) eqn:Hrw; [|by eapply con_write_loop].
  destruct (line_of _ _) as [[l rest]|] eqn:El.
  - pose proof (line_of_length _ _ _ _ El). destruct (con_read_loop (Z.to_nat (uio_resid u)) 0 s base len l rest Hr Hrw) as (m' & Hrun & Hm); [done|done|].
    exists m'. split; [done|]. split; [|done]. destruct Hr. subst u. lia.
  - intros fuel. by eapply con_read_waits.
Qed.

(** Reading six bytes of the line "hi" typed with a carriage return. *)
Definition typed_hi : constate := ConState [104; 105; 13; 108] [] (uio_kinit 100 6 0 UIO_READ) (λ _, 0).

Lemma con_io_lines_witness :
  ∃ m', con_io 6 typed_hi = Ret 0 (ConState [108] [] (advanced (co_uio typed_hi) 3) m') ∧ 3 ≤ 6 ∧
    ∀ a, m' a = put_bytes (co_mem typed_hi) 100 [104; 105; 10] a.
Proof.
  refine (con_io_lines typed_hi 100 6 _).
  split; cbn; (lia || done).
Defined.

Example print_hi : print_text [104; 105; 10] = [104; 105; 13; 10].
Proof. reflexivity. Qed.

(** What is printed before the console is there comes out when it is, up to 1024 characters; one more fails the assertion. *)
Lemma delayed_output l buf :
  foldl (λ o ch, b ← o; putch_delayed b ch) (Some buf) l =
    if bool_decide (zlen buf + zlen l ≤ DELAYBUFSIZE ∨ l = []) then Some (buf ++ l) else None.
Proof.
  revert buf. induction l as [|c l IH]; intros buf; cbn [foldl].
  { rewrite bool_decide_eq_true_2 by (by right). by rewrite app_nil_r. }
  cbn [mbind option_bind]. unfold putch_delayed at 2. destruct (Z.ltb_spec (zlen buf) DELAYBUFSIZE) as [Hlt|Hge].
  - rewrite IH, <- app_assoc. cbn [app]. rewrite length_app. cbn [length].
    apply (f_equal (λ b : bool, if b then Some (buf ++ c :: l) else None)), bool_decide_ext. split.
    + intros [Hl| ->]; left; cbn [length]; lia.
    + intros [Hl|?]; [left; lia|done].
  - rewrite bool_decide_eq_false_2 by (intros [Hl|?]; [cbn [length] in Hl; lia|done]).
    clear IH. by induction l.
Qed.

Lemma flush_prints buf out : flush_delay_buf buf out = ([], out ++ buf).
Proof.
  unfold flush_delay_buf. f_equal. revert out. induction buf as [|c buf IH]; intros out; cbn [foldl]; [by rewrite app_nil_r|].
  by rewrite IH, <- app_assoc.
Qed.

(** A console that cannot be set up for want of memory leaves nothing behind; one that is set up prints what was held back. *)
Theorem config_con_result ok adddev buf out :
  ∃ r heap cons buf' out', config_con 0 ok adddev [] false buf out = Some (r, heap, cons, buf', out') ∧
    (if cons then buf' = [] ∧ out' = out ++ buf ∧ RSem ∈ heap ∧ WSem ∈ heap ∧ RLock ∈ heap ∧ WLock ∈ heap
     else r = ENOMEM ∧ heap = [] ∧ buf' = buf ∧ out' = out).
Proof.
  unfold config_con. change (0 <? 0) with false. cbv iota. rewrite flush_prints.
  destruct (ok RSem), (ok WSem), (ok RLock), (ok WLock), (ok Dev), (adddev =? 0); cbn [negb];
    do 5 eexists; (split; [reflexivity|]); cbn; repeat split; set_solver.
Qed.
