(* ===== verification/Sfs.v ===== *)
(** * Sfs: the files and directories of SFS (kern/fs/sfs, on the disk driver of kern/dev/lamebus/lhd.c)

    sfs_balloc.c, sfs_bmap.c, sfs_io.c and sfs_dir.c: blocks, the block map of an inode, reading and
    writing at any offset, truncation, and directories of fixed-size entries.

    The disk is reached through [lhd_io]; below it are the registers of the device, and what they do with one
    sector is a parameter: [hw_read] and [hw_write] give the new state of the device with data or an
    error.  The in-memory inodes are named by their inode numbers.  The big lock of the VFS
    layer is held throughout, as the code asserts, so an operation is sequential; the static
    buffers of the code are filled before they are used, and are values here.
    Words on the disk are big-endian. *)

From Stdlib Require Import ZArith Lia.
From stdpp Require Import base gmap list option strings list_numbers.
From S2P Require Import Prelude Types Strings Bitmap Uio.
Set Default Goal Selector "!".
Open Scope Z_scope.

Definition ENOENT : Z := 19.
Definition EEXIST : Z := 22.
Definition EIO : Z := 32.
Definition EFBIG : Z := 38.

Definition SFS_BLOCKSIZE : Z := 512.
Definition SFS_NDIRECT : Z := 15.
Definition SFS_NINDIRECT : Z := 1.
Definition SFS_DBPERIDB : Z := 128.
Definition SFS_NAMELEN : Z := 60.
Definition SFS_NOINO : Z := 0.
Definition SFS_TYPE_DIR : Z := 2.
Definition LHD_SECTSIZE : Z := 512.

Record sfs_dinode := Dinode {
  sfi_size : Z;
  sfi_type : Z;
  sfi_linkcount : Z;
  sfi_direct : list Z;
  sfi_indirect : Z;
  sfi_waste : list Z;   (* 110 words *)
}.

Record sfs_vnode := Vnode {
  sv_i : sfs_dinode;
  sv_dirty : bool;
}.

Record sfs_direntry := Direntry {
  sfd_ino : Z;
  sfd_name : list Z;    (* 60 bytes *)
}.

(** ** Words in blocks *)

Fixpoint words_of (l : list Z) : list Z :=
  match l with
  | a :: b :: c :: d :: l' => a * 2 ^ 24 + b * 2 ^ 16 + c * 2 ^ 8 + d :: words_of l'
  | _ => []
  end.
Definition bytes_of_word (w : Z) : list Z := [w / 2 ^ 24 mod 2 ^ 8; w / 2 ^ 16 mod 2 ^ 8; w / 2 ^ 8 mod 2 ^ 8; w mod 2 ^ 8].
Definition bytes_of (ws : list Z) : list Z := ws ≫= bytes_of_word.

(** A name as the code reads it: up to the terminator, of which the last byte is made one. *)
Fixpoint c_string (l : list Z) : list Z :=
  match l with [] => [] | c :: l' => if c =? 0 then [] else c :: c_string l' end.
Definition entry_name (d : sfs_direntry) : list Z := c_string (arr_set (sfd_name d) (SFS_NAMELEN - 1) 0).
Definition decode_entry (l : list Z) : sfs_direntry := Direntry (default 0 (arr_get (words_of l) 0)) (drop 4 l).
Definition encode_entry (d : sfs_direntry) : list Z := bytes_of_word (sfd_ino d) ++ sfd_name d.

(** [if (result) return result]. *)
Definition ebind {S A B} (mx : K S (Z + A)) (f : A → K S (Z + B)) : K S (Z + B) :=
  r ← mx; match r with inl e => mret (inl e) | inr x => f x end.
Notation "x ←! m ; k" := (ebind m (λ x, k)) (at level 20, m at level 100, k at level 200, right associativity).

Section sfs.
Context {D : Type}.
Context (hw_read : D → Z → D * (Z + list Z)) (hw_write : D → Z → list Z → D * Z).

(** A mounted volume: the device, its size, the number of blocks of the superblock, the map of blocks
    in use, the inodes in memory; and kernel memory, which requests refer to. *)
Record vol := Vol {
  dev : D;
  d_blocks : Z;
  sb_nblocks : Z;
  freemap : bitmap;
  freemapdirty : bool;
  nodes : gmap Z sfs_vnode;
  kmem : mem;
}.

Definition set_dev (x : D) (v : vol) : vol := Vol x (d_blocks v) (sb_nblocks v) (freemap v) (freemapdirty v) (nodes v) (kmem v).
Definition set_freemap (x : bitmap) (v : vol) : vol := Vol (dev v) (d_blocks v) (sb_nblocks v) x true (nodes v) (kmem v).
Definition set_node (ino : Z) (x : sfs_vnode) (v : vol) : vol :=
  Vol (dev v) (d_blocks v) (sb_nblocks v) (freemap v) (freemapdirty v) (<[ino := x]> (nodes v)) (kmem v).
Definition set_kmem (x : mem) (v : vol) : vol := Vol (dev v) (d_blocks v) (sb_nblocks v) (freemap v) (freemapdirty v) (nodes v) x.

Abbreviation SF := (K vol).

Definition get_node (ino : Z) : SF sfs_vnode := o ← gets (λ v, nodes v !! ino); deref o.

(** Moving data to and from kernel memory. *)
Definition move (buf : list Z) (pos n : Z) (u : uio) : SF (list Z * uio) :=
  m ← gets kmem;
  match uiomove buf pos n u m with
  | Some (buf', u', m') => modify (set_kmem m') ;; mret (buf', u')
  | None => panic "uiomove"
  end.
Definition move_zeros (n : Z) (u : uio) : SF uio :=
  m ← gets kmem;
  match uiomovezeros n u m with
  | Some (u', m') => modify (set_kmem m') ;; mret u'
  | None => panic "uiomovezeros"
  end.

(** ** lhd.c *)

(** One sector: the error, and the request after what was moved. *)
Definition lhd_sector (sector : Z) (u : uio) : SF (Z * uio) :=
  match uio_rw u with
  | UIO_WRITE =>
      '(buf, u) ← move (replicate 512 0) 0 LHD_SECTSIZE u;
      d ← gets dev;
      let '(d', e) := hw_write d sector buf in
      modify (set_dev d') ;; mret (e, u)
  | UIO_READ =>
      d ← gets dev;
      let '(d', r) := hw_read d sector in
      modify (set_dev d') ;;
      match r with
      | inl e => mret (e, u)
      | inr buf => '(_, u) ← move buf 0 LHD_SECTSIZE u; mret (0, u)
      end
  end.

Fixpoint lhd_loop (n : nat) (sector : Z) (u : uio) : SF (Z * uio) :=
  match n with
  | O => mret (0, u)
  | S n' =>
      '(e, u) ← lhd_sector sector u;
      if negb (e =? 0) then mret (e, u) else lhd_loop n' (u32 (sector + 1)) u
  end.

Definition lhd_io (u : uio) : SF (Z * uio) :=
  let sector := u32 (uio_offset u / LHD_SECTSIZE) in
  let sectoff := u32 (uio_offset u mod LHD_SECTSIZE) in
  let len := uio_resid u / LHD_SECTSIZE in
  let lenoff := uio_resid u mod LHD_SECTSIZE in
  if negb (sectoff =? 0) || negb (lenoff =? 0) then mret (EINVAL, u)
  else
    nb ← gets d_blocks;
    if nb <? u32 (sector + len) then mret (EINVAL, u) else lhd_loop (Z.to_nat len) sector u.

(** ** sfs_io.c: blocks *)

(** [tries] retries are left. *)
Fixpoint rw_tries (tries : nat) (u : uio) : SF (Z * uio) :=
  '(e, u) ← lhd_io u;
  if e =? EINVAL then panic "sfs: DEVOP_IO returned EINVAL"
  else if e =? EIO then
    match tries with O => mret (e, u) | S tries' => rw_tries tries' u end
  else mret (e, u).
Definition sfs_rwblock (u : uio) : SF (Z * uio) := rw_tries 10 u.

(** The buffers of the file system are not regions of a caller: a transfer of one block to or from
    them runs on a memory of its own, with the buffer at address 0. *)
Definition private {A} (m0 : mem) (x : SF A) : SF A :=
  m ← gets kmem; modify (set_kmem m0) ;; a ← x; modify (set_kmem m) ;; mret a.

Definition sfs_readblock (block : Z) : SF (Z + list Z) :=
  private (λ _, 0)
    ('(e, u) ← sfs_rwblock (uio_kinit 0 SFS_BLOCKSIZE (block * SFS_BLOCKSIZE) UIO_READ);
     data ← gets (λ v, get_bytes (kmem v) 0 SFS_BLOCKSIZE);
     mret (if e =? 0 then inr data else inl e)).
Definition sfs_writeblock (block : Z) (data : list Z) : SF (Z + unit) :=
  KASSERT (zlen data =? SFS_BLOCKSIZE) "len == SFS_BLOCKSIZE" ;;
  private (put_bytes (λ _, 0) 0 data)
    ('(e, u) ← sfs_rwblock (uio_kinit 0 SFS_BLOCKSIZE (block * SFS_BLOCKSIZE) UIO_WRITE);
     mret (if e =? 0 then inr tt else inl e)).

(** ** sfs_balloc.c *)

Definition sfs_clearblock (block : Z) : SF (Z + unit) := sfs_writeblock block (replicate 512 0).

Definition sfs_balloc : SF (Z + Z) :=
  b ← gets freemap;
  r ← bitmap_alloc b;
  match r with
  | inl e => mret (inl e)
  | inr (diskblock, b') =>
      modify (set_freemap b') ;;
      nb ← gets sb_nblocks;
      if nb <=? diskblock then panic "sfs: balloc: invalid block"
      else
        r ← sfs_clearblock diskblock;
        match r with
        | inl e =>
            b ← gets freemap; b' ← bitmap_unmark b diskblock; modify (set_freemap b') ;; mret (inl e)
        | inr _ => mret (inr diskblock)
        end
  end.

Definition sfs_bfree (diskblock : Z) : SF unit :=
  b ← gets freemap; b' ← bitmap_unmark b diskblock; modify (set_freemap b').

Definition sfs_bused (diskblock : Z) : SF Z :=
  nb ← gets sb_nblocks;
  if nb <=? diskblock then panic "sfs: sfs_bused called on out of range block"
  else b ← gets freemap; bitmap_isset b diskblock.

(** ** sfs_bmap.c *)

Definition set_direct (i b : Z) (sv : sfs_vnode) : sfs_vnode :=
  let n := sv_i sv in
  Vnode (Dinode (sfi_size n) (sfi_type n) (sfi_linkcount n) (arr_set (sfi_direct n) i b) (sfi_indirect n) (sfi_waste n)) true.
Definition set_indirect (b : Z) (sv : sfs_vnode) : sfs_vnode :=
  let n := sv_i sv in Vnode (Dinode (sfi_size n) (sfi_type n) (sfi_linkcount n) (sfi_direct n) b (sfi_waste n)) true.
Definition set_size (x : Z) (sv : sfs_vnode) : sfs_vnode :=
  let n := sv_i sv in Vnode (Dinode x (sfi_type n) (sfi_linkcount n) (sfi_direct n) (sfi_indirect n) (sfi_waste n)) true.

Definition check_used (block : Z) : SF unit :=
  if block =? 0 then mret tt
  else x ← sfs_bused block; if x =? 0 then panic "sfs: Data block marked free" else mret tt.

Definition bmap_direct (ino fileblock : Z) (doalloc : bool) : SF (Z + Z) :=
  sv ← get_node ino;
  block ← index (sfi_direct (sv_i sv)) fileblock;
  block ←! (if (block =? 0) && doalloc then
              b ←! sfs_balloc;
              modify (set_node ino (set_direct fileblock b sv)) ;; mret (inr b)
            else mret (inr block));
  check_used block ;;
  mret (inr block).

(** The indirect block and its contents. *)
Definition load_indirect (ino : Z) (sv : sfs_vnode) : SF (Z + Z * list Z) :=
  if sfi_indirect (sv_i sv) =? 0 then
    idblock ←! sfs_balloc;
    modify (set_node ino (set_indirect idblock sv)) ;;
    mret (inr (idblock, replicate 128 0))
  else
    data ←! sfs_readblock (sfi_indirect (sv_i sv));
    mret (inr (sfi_indirect (sv_i sv), words_of data)).

Definition sfs_bmap (ino fileblock : Z) (doalloc : bool) : SF (Z + Z) :=
  if fileblock <? SFS_NDIRECT then bmap_direct ino fileblock doalloc
  else
    let fileblock := fileblock - SFS_NDIRECT in
    let idnum := fileblock / SFS_DBPERIDB in
    let idoff := fileblock mod SFS_DBPERIDB in
    if SFS_NINDIRECT <=? idnum then mret (inl EFBIG)
    else
      sv ← get_node ino;
      if (sfi_indirect (sv_i sv) =? 0) && negb doalloc then mret (inr 0)
      else
        x ←! load_indirect ino sv;
        let '(idblock, idbuf) := x in
        block ← index idbuf idoff;
        block ←! (if (block =? 0) && doalloc then
                    b ←! sfs_balloc;
                    _ ←! sfs_writeblock idblock (bytes_of (arr_set idbuf idoff b));
                    mret (inr b)
                  else mret (inr block));
        check_used block ;;
        mret (inr block).

(** The loop over the direct blocks, from [i]. *)
Fixpoint trunc_direct (n : nat) (i blocklen ino : Z) : SF unit :=
  match n with
  | O => mret tt
  | S n' =>
      sv ← get_node ino;
      block ← index (sfi_direct (sv_i sv)) i;
      (if (blocklen <=? i) && negb (block =? 0) then
         sfs_bfree block ;; modify (set_node ino (set_direct i 0 sv))
       else mret tt) ;;
      trunc_direct n' (i + 1) blocklen ino
  end.

(** The loop over the indirect block, from [j]: the buffer, and whether something was freed. *)
Fixpoint trunc_indirect (n : nat) (j blocklen : Z) (idbuf : list Z) (iddirty : bool) : SF (list Z * bool) :=
  match n with
  | O => mret (idbuf, iddirty)
  | S n' =>
      block ← index idbuf j;
      if (blocklen <? SFS_NDIRECT + j) && negb (block =? 0) then
        sfs_bfree block ;; trunc_indirect n' (j + 1) blocklen (arr_set idbuf j 0) true
      else trunc_indirect n' (j + 1) blocklen idbuf iddirty
  end.

Definition sfs_itrunc (ino len : Z) : SF (Z + unit) :=
  let blocklen := u32 ((len + SFS_BLOCKSIZE - 1) / SFS_BLOCKSIZE) in
  trunc_direct 15 0 blocklen ino ;;
  sv ← get_node ino;
  let idblock := sfi_indirect (sv_i sv) in
  let highblock := SFS_NDIRECT + SFS_DBPERIDB - 1 in
  _ ←! (if (blocklen <? highblock) && negb (idblock =? 0) then
          data ←! sfs_readblock idblock;
          '(idbuf, iddirty) ← trunc_indirect 128 0 blocklen (words_of data) false;
          if forallb (λ b, b =? 0) idbuf then
            sfs_bfree idblock ;; modify (set_node ino (set_indirect 0 sv)) ;; mret (inr tt)
          else if iddirty : bool then sfs_writeblock idblock (bytes_of idbuf)
          else mret (inr tt)
        else mret (inr tt));
  sv ← get_node ino;
  modify (set_node ino (set_size (u32 len) sv)) ;;
  mret (inr tt).

(** ** sfs_io.c: files *)

Definition is_write (u : uio) : bool := match uio_rw u with UIO_WRITE => true | UIO_READ => false end.

(** The error, 0 for none, and the request after what was moved. *)
Definition sfs_partialio (ino : Z) (u : uio) (skipstart len : Z) : SF (Z * uio) :=
  KASSERT (u32 (skipstart + len) <=? SFS_BLOCKSIZE) "skipstart + len <= SFS_BLOCKSIZE" ;;
  let fileblock := u32 (uio_offset u / SFS_BLOCKSIZE) in
  r ← sfs_bmap ino fileblock (is_write u);
  match r with
  | inl e => mret (e, u)
  | inr diskblock =>
      r ← (if diskblock =? 0 then
             KASSERT (negb (is_write u)) "uio->uio_rw == UIO_READ" ;; mret (inr (replicate 512 0))
           else sfs_readblock diskblock);
      match r with
      | inl e => mret (e, u)
      | inr iobuf =>
          '(iobuf, u) ← move iobuf skipstart len u;
          if is_write u then
            r ← sfs_writeblock diskblock iobuf;
            mret (match r with inl e => e | inr _ => 0 end, u)
          else mret (0, u)
      end
  end.

Definition sfs_blockio (ino : Z) (u : uio) : SF (Z * uio) :=
  let fileblock := u32 (uio_offset u / SFS_BLOCKSIZE) in
  r ← sfs_bmap ino fileblock (is_write u);
  match r with
  | inl e => mret (e, u)
  | inr diskblock =>
      if diskblock =? 0 then
        KASSERT (negb (is_write u)) "uio->uio_rw == UIO_READ" ;;
        u ← move_zeros SFS_BLOCKSIZE u; mret (0, u)
      else
        let saveoff := uio_offset u in
        let diskoff := u32 (diskblock * SFS_BLOCKSIZE) in
        KASSERT (SFS_BLOCKSIZE <=? uio_resid u) "uio->uio_resid >= SFS_BLOCKSIZE" ;;
        let saveres := uio_resid u in
        let diskres := SFS_BLOCKSIZE in
        '(e, u) ← sfs_rwblock (set_resid diskres (set_offset diskoff u));
        mret (e, set_resid (u32 (uio_resid u - diskres + saveres)) (set_offset (uio_offset u - diskoff + saveoff) u))
  end.

(** [for (i=0; i<nblocks; i++)], left at the first error. *)
Fixpoint io_blocks (n : nat) (ino : Z) (u : uio) : SF (Z * uio) :=
  match n with
  | O => mret (0, u)
  | S n' => '(e, u) ← sfs_blockio ino u; if negb (e =? 0) then mret (e, u) else io_blocks n' ino u
  end.

(** The part of [sfs_io] before the label [out]. *)
Definition io_parts (ino : Z) (u : uio) : SF (Z * uio) :=
  let blkoff := u32 (uio_offset u mod SFS_BLOCKSIZE) in
  '(e, u) ← (if negb (blkoff =? 0) then
               let len := SFS_BLOCKSIZE - blkoff in
               sfs_partialio ino u blkoff (if uio_resid u <? len then uio_resid u else len)
             else mret (0, u));
  if negb (e =? 0) then mret (e, u)
  else if uio_resid u =? 0 then mret (0, u)
  else
    KASSERT (uio_offset u mod SFS_BLOCKSIZE =? 0) "uio->uio_offset % SFS_BLOCKSIZE == 0" ;;
    '(e, u) ← io_blocks (Z.to_nat (uio_resid u / SFS_BLOCKSIZE)) ino u;
    if negb (e =? 0) then mret (e, u)
    else
      KASSERT (uio_resid u <? SFS_BLOCKSIZE) "uio->uio_resid < SFS_BLOCKSIZE" ;;
      if 0 <? uio_resid u then sfs_partialio ino u 0 (uio_resid u) else mret (0, u).

Definition sfs_io (ino : Z) (u : uio) : SF (Z * uio) :=
  let origresid := uio_resid u in
  sv ← get_node ino;
  let size := sfi_size (sv_i sv) in
  let endpos := uio_offset u + uio_resid u in
  if negb (is_write u) && (size <=? uio_offset u) then mret (0, u)
  else
    let extraresid := if negb (is_write u) && (size <? endpos) then u32 (endpos - size) else 0 in
    KASSERT ((extraresid =? 0) || (extraresid <? uio_resid u)) "uio->uio_resid > extraresid" ;;
    '(e, u) ← io_parts ino (set_resid (uio_resid u - extraresid) u);
    sv ← get_node ino;
    (if negb (uio_resid u =? origresid) && is_write u && (sfi_size (sv_i sv) <? uio_offset u) then
       modify (set_node ino (set_size (u32 (uio_offset u)) sv))
     else mret tt) ;;
    mret (e, set_resid (u32 (uio_resid u + extraresid)) u).

(** [data] is what is written, or [None] for a read. *)
Definition sfs_metaio (ino actualpos len : Z) (data : option (list Z)) : SF (Z + list Z) :=
  let vnblock := u32 (actualpos / SFS_BLOCKSIZE) in
  let blockoffset := u32 (actualpos mod SFS_BLOCKSIZE) in
  diskblock ←! sfs_bmap ino vnblock (match data with Some _ => true | None => false end);
  if diskblock =? 0 then
    KASSERT (match data with Some _ => false | None => true end) "rw == UIO_READ" ;;
    mret (inr (replicate (Z.to_nat len) 0))
  else
    buf ←! sfs_readblock diskblock;
    match data with
    | None => mret (inr (take (Z.to_nat len) (drop (Z.to_nat blockoffset) buf)))
    | Some x =>
        _ ←! sfs_writeblock diskblock (splice buf blockoffset x);
        sv ← get_node ino;
        let endpos := actualpos + len in
        (if sfi_size (sv_i sv) <? endpos then modify (set_node ino (set_size (u32 endpos) sv)) else mret tt) ;;
        mret (inr x)
    end.

(** ** sfs_dir.c *)

Definition sizeof_direntry : Z := 64.

Definition sfs_readdir (ino slot : Z) : SF (Z + sfs_direntry) :=
  data ←! sfs_metaio ino (u32 (slot * sizeof_direntry)) sizeof_direntry None;
  mret (inr (decode_entry data)).

Definition sfs_writedir (ino slot : Z) (sd : sfs_direntry) : SF (Z + unit) :=
  KASSERT (0 <=? slot) "slot>=0" ;;
  _ ←! sfs_metaio ino (u32 (slot * sizeof_direntry)) sizeof_direntry (Some (encode_entry sd));
  mret (inr tt).

Definition sfs_dir_nentries (ino : Z) : SF Z :=
  sv ← get_node ino;
  KASSERT (sfi_type (sv_i sv) =? SFS_TYPE_DIR) "sv->sv_i.sfi_type == SFS_TYPE_DIR" ;;
  let size := sfi_size (sv_i sv) in
  if negb (size mod sizeof_direntry =? 0) then panic "sfs: directory: Invalid size"
  else mret (size / sizeof_direntry).

(** What a search has found so far: the inode and the slot, and an empty slot. *)
Record found := Found { f_hit : option (Z * Z); f_empty : option Z }.

(** [for (i=0; i<nentries; i++)], from [i]. *)
Fixpoint find_loop (n : nat) (i ino : Z) (name : list Z) (f : found) : SF (Z + found) :=
  match n with
  | O => mret (inr f)
  | S n' =>
      tsd ←! sfs_readdir ino i;
      if sfd_ino tsd =? SFS_NOINO then find_loop n' (i + 1) ino name (Found (f_hit f) (Some i))
      else if bool_decide (entry_name tsd = name) then
        KASSERT (match f_hit f with None => true | Some _ => false end) "found==0" ;;
        find_loop n' (i + 1) ino name (Found (Some (sfd_ino tsd, i)) (f_empty f))
      else find_loop n' (i + 1) ino name f
  end.

(** [inl] is an error other than ENOENT; ENOENT is that there is no hit. *)
Definition sfs_dir_findname (ino : Z) (name : list Z) : SF (Z + found) :=
  nentries ← sfs_dir_nentries ino;
  find_loop (Z.to_nat nentries) 0 ino name (Found None None).

(** The slot of the new entry. *)
Definition sfs_dir_link (dir : Z) (name : list Z) (ino : Z) : SF (Z + Z) :=
  f ←! sfs_dir_findname dir name;
  match f_hit f with
  | Some _ => mret (inl EEXIST)
  | None =>
      if SFS_NAMELEN <? zlen name + 1 then mret (inl ENAMETOOLONG)
      else
        emptyslot ← match f_empty f with Some i => mret i | None => sfs_dir_nentries dir end;
        let sd := Direntry ino (name ++ replicate (Z.to_nat (SFS_NAMELEN - zlen name)) 0) in
        _ ←! sfs_writedir dir emptyslot sd;
        mret (inr emptyslot)
  end.

Definition sfs_dir_unlink (dir slot : Z) : SF (Z + unit) :=
  sfs_writedir dir slot (Direntry SFS_NOINO (replicate 60 0)).

End sfs.
