(* ===== verification/Disk.v ===== *)
(** * Disk: transfers of blocks

    What the file system relies on of its disk, and the block transfers of Sfs.v and the allocation of blocks under
    it.  A read may fail with EIO, but one of eleven attempts in a row succeeds; a
    write succeeds. *)

From Stdlib Require Import ZArith Lia.
From stdpp Require Import base gmap list option strings list_numbers.
From S2P Require Import Prelude Types Strings Bitmap Uio Sfs.
Set Default Goal Selector "!".
Open Scope Z_scope.

(** At most [n] attempts to read the sector fail. *)
Fixpoint reads_within {D} (hw_read : D → Z → D * (Z + list Z)) (n : nat) (d : D) (b : Z) : Prop :=
  match hw_read d b with
  | (_, inr _) => True
  | (d', inl _) => match n with O => False | S n' => reads_within hw_read n' d' b end
  end.

Class DiskLaws {D} (hw_read : D → Z → D * (Z + list Z)) (hw_write : D → Z → list Z → D * Z)
  (contents : D → Z → list Z) : Prop := {
  disk_len : ∀ d b, zlen (contents d b) = SFS_BLOCKSIZE;
  disk_bytes : ∀ d b, Forall (λ x, 0 ≤ x < 256) (contents d b);
  disk_read : ∀ d b d' r, hw_read d b = (d', r) →
    (∀ c, contents d' c = contents d c) ∧ match r with inl e => e = EIO | inr data => data = contents d b end;
  disk_retry : ∀ d b, reads_within hw_read 10 d b;
  disk_write : ∀ d b data d' e, hw_write d b data = (d', e) → zlen data = SFS_BLOCKSIZE → Forall (λ x, 0 ≤ x < 256) data →
    e = 0 ∧ ∀ c, contents d' c = if decide (c = b) then data else contents d c;
}.

Section disk.
Context {D : Type} (hw_read : D → Z → D * (Z + list Z)) (hw_write : D → Z → list Z → D * Z) (contents : D → Z → list Z).
Context `{Hd : !DiskLaws hw_read hw_write contents}.
Implicit Types v : vol (D := D).

Definition blk v (b : Z) : list Z := contents (dev v) b.
Definition used v : gset Z := bitmap_set (freemap v).

(** Volumes that differ in the state of the device only. *)
Record alike v v' : Prop := {
  al_blk : ∀ b, blk v' b = blk v b;
  al_blocks : d_blocks v' = d_blocks v;
  al_nblocks : sb_nblocks v' = sb_nblocks v;
  al_freemap : freemap v' = freemap v;
  al_nodes : nodes v' = nodes v;
  al_kmem : kmem v' = kmem v;
  al_mapdirty : freemapdirty v' = freemapdirty v;
}.

#[global] Instance alike_equiv : Equivalence alike.
Proof.
  split.
  - intros v. by split.
  - intros v v' [H1 H2 H3 H4 H5 H6 H7]. split; intros; by rewrite ?H1, ?H2, ?H3, ?H4, ?H5, ?H6, ?H7.
  - intros v1 v2 v3 [H1 H2 H3 H4 H5 H6 H7] [G1 G2 G3 G4 G5 G6 G7].
    split; intros; by rewrite ?G1, ?H1, ?G2, ?H2, ?G3, ?H3, ?G4, ?H4, ?G5, ?H5, ?G6, ?H6, ?G7, ?H7.
Qed.

Lemma blk_len v b : zlen (blk v b) = SFS_BLOCKSIZE.
Proof. exact (disk_len (dev v) b). Qed.

Definition bytes_ok (l : list Z) : Prop := Forall (λ x, 0 ≤ x < 256) l.

(** A request for one sector, at [base] in memory. *)
Record one_sector (u : uio) (base b : Z) (rw : uio_dir) : Prop := {
  os_region : ∃ len, uio_iov u = [(base, len)] ∧ 512 ≤ len ∧ base + len < 2 ^ 32;
  os_base : 0 ≤ base;
  os_off : uio_offset u = b * 512;
  os_resid : uio_resid u = 512;
  os_rw : uio_rw u = rw;
}.

Lemma move_sector u base b rw buf v :
  one_sector u base b rw → 0 ≤ b < 2 ^ 32 → zlen buf = 512 →
  move buf 0 LHD_SECTSIZE u v = Ret (match rw with UIO_READ => buf | UIO_WRITE => get_bytes (kmem v) base 512 end, advanced u 512)
    (match rw with UIO_READ => set_kmem (put_bytes (kmem v) base buf) v | UIO_WRITE => v end).
Proof.
  intros [(len & Hiov & Hlen & Hend) Hb Ho Hr Hrw] Hbr Hbuf. unfold move. rewrite run_gets. unfold uiomove. rewrite Hiov, Hr, Hrw, Ho. cbn [uiomove_loop].
  unfold LHD_SECTSIZE. change (negb ((0 <? 512) && (0 <? 512))) with false. cbv iota.
  assert (Hs : (if 512 <? len then 512 else len) = 512) by (destruct (Z.ltb_spec 512 len); lia). rewrite Hs.
  change (512 =? 0) with false. cbv iota. change (u32 (512 - 512)) with 0. change (512 - 512) with 0.
  change (negb ((0 <? 0) && (0 <? 0))) with true. cbv iota. rewrite run_modify.
  rewrite (wrap_small 32), (swrap_small 64) by lia.
  assert (Hu : advanced u 512 = Uio [(base + 512, len - 512)] (b * 512 + 512) 0 rw).
  { unfold advanced. by rewrite Hiov, Ho, Hr, Hrw. }
  rewrite Hu. destruct rw.
  - rewrite drop_0, take_ge by lia. done.
  - unfold splice. change (take (Z.to_nat 0) buf) with (@nil Z). cbn [app].
    rewrite drop_ge, app_nil_r by (pose proof (length_get_bytes (kmem v) base 512); lia). by destruct v.
Qed.

Lemma lhd_io_one u base b rw v :
  one_sector u base b rw → 0 ≤ b < d_blocks v → d_blocks v < 2 ^ 23 →
  lhd_io hw_read hw_write u v = ('(e, u) ← lhd_sector hw_read hw_write b u; mret (e, u)) v.
Proof.
  intros Hs Hb Hdb. pose proof Hs as [_ _ Ho Hr _]. unfold lhd_io. rewrite Ho, Hr. unfold LHD_SECTSIZE.
  rewrite Z.mod_mul, Z.div_mul by lia. rewrite (wrap_small 32 b) by lia. change (512 mod 512) with 0. change (512 / 512) with 1.
  change (u32 0) with 0. cbn [Z.eqb negb orb]. rewrite run_gets. rewrite (wrap_small 32) by lia. rewrite (proj2 (Z.ltb_ge _ _)) by lia.
  change (Z.to_nat 1) with 1%nat. cbn [lhd_loop]. rewrite !run_bind. destruct (lhd_sector hw_read hw_write b u v) as [[e u'] v'| | |]; try done.
  destruct (Z.eqb_spec e 0) as [->|]; done.
Qed.

Lemma rwblock_read u base b v :
  one_sector u base b UIO_READ → 0 ≤ b < d_blocks v → d_blocks v < 2 ^ 23 →
  ∃ v', sfs_rwblock hw_read hw_write u v = Ret (0, advanced u 512) v' ∧
    alike (set_kmem (put_bytes (kmem v) base (blk v b)) v) v'.
Proof.
  intros Hs Hb Hdb. unfold sfs_rwblock. pose proof (disk_retry (dev v) b) as Hr. revert v Hb Hdb Hr. generalize 10%nat as n.
  induction n as [|n IH]; intros v Hb Hdb Hr; cbn [rw_tries reads_within] in *.
  all: rewrite run_bind, (lhd_io_one u base b UIO_READ) by done.
  all: unfold lhd_sector; rewrite (os_rw _ _ _ _ Hs), run_assoc, run_gets.
  all: destruct (hw_read (dev v) b) as [d' r] eqn:Hhw; destruct (disk_read _ _ _ _ Hhw) as [Hsame Hrv].
  all: rewrite run_assoc, run_modify; destruct r as [e|data].
  1: done.
  2: { subst e. rewrite run_mret. cbn [mret K_ret]. change (EIO =? EINVAL) with false. change (EIO =? EIO) with true. cbv iota.
       destruct (IH (set_dev d' v)) as (v' & Hrun & Hal); [done|done|done|]. exists v'. split; [done|].
       etrans; [|exact Hal]. unfold blk. cbn. split; cbn; try done. by rewrite Hsame. }
  all: subst data; rewrite run_assoc, run_bind, (move_sector u base b UIO_READ) by first [done|lia|by rewrite disk_len].
  all: cbn [mret K_ret]; change (0 =? EINVAL) with false; change (0 =? EIO) with false; cbv iota.
  all: eexists; split; [done|]; split; cbn; try done; intros c; unfold blk; cbn; apply Hsame.
Qed.

(** The volume with other contents in one block. *)
Record written v v' (b : Z) (data : list Z) : Prop := {
  wr_blk : ∀ c, blk v' c = if decide (c = b) then data else blk v c;
  wr_blocks : d_blocks v' = d_blocks v;
  wr_nblocks : sb_nblocks v' = sb_nblocks v;
  wr_freemap : freemap v' = freemap v;
  wr_nodes : nodes v' = nodes v;
  wr_kmem : kmem v' = kmem v;
  wr_mapdirty : freemapdirty v' = freemapdirty v;
}.

Lemma rwblock_write u base b v :
  one_sector u base b UIO_WRITE → 0 ≤ b < d_blocks v → d_blocks v < 2 ^ 23 → bytes_ok (get_bytes (kmem v) base 512) →
  ∃ v', sfs_rwblock hw_read hw_write u v = Ret (0, advanced u 512) v' ∧ written v v' b (get_bytes (kmem v) base 512).
Proof.
  intros Hs Hb Hdb Hok. unfold sfs_rwblock. cbn [rw_tries]. rewrite run_bind, (lhd_io_one u base b UIO_WRITE) by done.
  unfold lhd_sector. rewrite (os_rw _ _ _ _ Hs), run_assoc, run_bind, (move_sector u base b UIO_WRITE) by first [done|lia].
  rewrite run_assoc, run_gets. destruct (hw_write (dev v) b (get_bytes (kmem v) base 512)) as [d' e] eqn:Hhw.
  destruct (disk_write _ _ _ _ _ Hhw) as [-> Hc]; [by apply length_get_bytes|done|].
  rewrite run_assoc, run_modify, run_mret. cbn [mret K_ret]. change (0 =? EINVAL) with false. change (0 =? EIO) with false. cbv iota.
  eexists. split; [done|]. by split.
Qed.

Lemma kinit_sector b rw : one_sector (uio_kinit 0 SFS_BLOCKSIZE (b * SFS_BLOCKSIZE) rw) 0 b rw.
Proof. split; try done. by exists 512. Qed.

Lemma get_put_bytes m p l : get_bytes (put_bytes m p l) p (zlen l) = l.
Proof.
  apply arr_ext. intros i. destruct (decide (0 ≤ i < zlen l)) as [Hi|Hi].
  - rewrite get_bytes_at by done. unfold put_bytes. rewrite decide_True by lia. replace (p + i - p) with i by lia.
    destruct (arr_get_ex l i Hi) as [x ->]. done.
  - assert (Ho : ∀ l' : list Z, zlen l' = zlen l → arr_get l' i = None).
    { intros l' Hl'. destruct (arr_get l' i) eqn:E; [|done]. apply arr_get_range in E. lia. }
    by rewrite (Ho l), Ho by (try done; apply length_get_bytes; lia).
Qed.

Lemma readblock_run b v :
  0 ≤ b < d_blocks v → d_blocks v < 2 ^ 23 →
  ∃ v', sfs_readblock hw_read hw_write b v = Ret (inr (blk v b)) v' ∧ alike v v'.
Proof.
  intros Hb Hdb. unfold sfs_readblock, private. rewrite run_gets, run_modify.
  set (v0 := set_kmem _ v). destruct (rwblock_read _ 0 b v0 (kinit_sector b UIO_READ)) as (v1 & Hrun & [A1 A2 A3 A4 A5 A6]); [done|done|].
  rewrite run_assoc, (run_bind_ret _ _ _ _ _ Hrun), run_assoc, run_gets, run_mret, run_modify.
  eexists. cbn [mret K_ret]. split.
  - rewrite A6. cbn [kmem set_kmem]. replace SFS_BLOCKSIZE with (zlen (blk v0 b)) by apply blk_len. by rewrite get_put_bytes.
  - split; cbn; try done.
Qed.

Lemma writeblock_run b data v :
  0 ≤ b < d_blocks v → d_blocks v < 2 ^ 23 → zlen data = SFS_BLOCKSIZE → bytes_ok data →
  ∃ v', sfs_writeblock hw_read hw_write b data v = Ret (inr tt) v' ∧ written v v' b data.
Proof.
  intros Hb Hdb Hlen Hok. unfold sfs_writeblock, private. rewrite run_assert by (by apply Z.eqb_eq). rewrite run_gets, run_modify.
  set (v0 := set_kmem _ v).
  assert (Hget : get_bytes (kmem v0) 0 512 = data) by (cbn; change 512 with SFS_BLOCKSIZE; rewrite <- Hlen; apply get_put_bytes).
  destruct (rwblock_write _ 0 b v0 (kinit_sector b UIO_WRITE)) as (v1 & Hrun & Hw); [done|done|by rewrite Hget|]. rewrite Hget in Hw.
  destruct Hw as [A1 A2 A3 A4 A5 A6].
  rewrite run_assoc, (run_bind_ret _ _ _ _ _ Hrun), run_mret, run_modify.
  eexists. cbn [mret K_ret]. split; [done|]. split; cbn; try done.
Qed.

(** ** Allocation *)

(** The map of blocks in use is about blocks of the disk; block 0, the superblock, is in use. *)
Record vol_ok v : Prop := {
  vo_map : bitmap_wf (freemap v);
  vo_bits : sb_nblocks v ≤ nbits (freemap v);
  vo_high : ∀ b, sb_nblocks v ≤ b < nbits (freemap v) → b ∈ used v;
  vo_zero : 0 ∈ used v;
  vo_disk : 0 < sb_nblocks v ≤ d_blocks v;
  vo_size : d_blocks v < 2 ^ 23;
}.

#[global] Instance vol_ok_proper : Proper (alike ==> iff) vol_ok.
Proof.
  intros v v' [A1 A2 A3 A4 A5 A6]. unfold used.
  split; intros [H1 H2 H3 H4 H5 H6]; split; unfold used in *; rewrite ?A2, ?A3, ?A4 in *; done.
Qed.

(** One more block in use, all zeros. *)
Record allocated v v' (b : Z) : Prop := {
  ac_new : (b ∉ used v) ∧ 0 < b < sb_nblocks v;
  ac_used : used v' = {[b]} ∪ used v;
  ac_blk : ∀ c, blk v' c = if decide (c = b) then replicate 512 0 else blk v c;
  ac_ok : vol_ok v';
  ac_blocks : d_blocks v' = d_blocks v;
  ac_nblocks : sb_nblocks v' = sb_nblocks v;
  ac_nodes : nodes v' = nodes v;
  ac_kmem : kmem v' = kmem v;
}.

Lemma balloc_run v :
  vol_ok v →
  sfs_balloc hw_read hw_write v = Ret (inl ENOSPC) v ∧ (∀ b, 0 ≤ b < sb_nblocks v → b ∈ used v) ∨
  ∃ b v', sfs_balloc hw_read hw_write v = Ret (inr b) v' ∧ allocated v v' b.
Proof.
  intros [H1 H2 H3 H4 H5 H6]. unfold sfs_balloc. rewrite run_gets. destruct (bitmap_alloc_run (freemap v) v H1) as (r & Hrun & Hpost).
  rewrite (run_bind_ret _ _ _ _ _ Hrun). destruct r as [e|[b fm]].
  - left. destruct Hpost as [-> Hfull]. split; [done|]. intros b Hb. apply Hfull. lia.
  - right. destruct Hpost as (Hwf & Hn & Hb & Hnew & Hset & _). rewrite run_modify, run_gets. cbn [sb_nblocks set_freemap].
    assert (Hlt : b < sb_nblocks v) by (destruct (decide (b < sb_nblocks v)); [done|]; exfalso; apply Hnew, H3; lia).
    rewrite (proj2 (Z.leb_gt _ _)) by done. unfold sfs_clearblock.
    destruct (writeblock_run b (replicate 512 0) (set_freemap fm v)) as (v' & Hw & [W1 W2 W3 W4 W5 W6]); [cbn; lia|done|done|by apply Forall_replicate|].
    rewrite (run_bind_ret _ _ _ _ _ Hw). eexists _, _. split; [done|].
    assert (Hb0 : b ≠ 0) by (intros ->; done).
    split; try done; [split; [done|lia]|unfold used; rewrite W4; done|].
    unfold used in *. split; unfold used; rewrite ?W2, ?W3, ?W4; cbn [set_freemap freemap sb_nblocks d_blocks]; [done|by rewrite Hn| | |done|done].
    + intros c Hc. rewrite Hset. apply elem_of_union_r, H3. by rewrite Hn in Hc.
    + rewrite Hset. by apply elem_of_union_r.
Qed.

(** One block less in use. *)
Lemma bfree_run b v :
  vol_ok v → b ∈ used v → 0 < b < sb_nblocks v →
  ∃ v', sfs_bfree b v = Ret tt v' ∧ used v' = used v ∖ {[b]} ∧ vol_ok v' ∧ (∀ c, blk v' c = blk v c) ∧
    d_blocks v' = d_blocks v ∧ sb_nblocks v' = sb_nblocks v ∧ nodes v' = nodes v ∧ kmem v' = kmem v.
Proof.
  intros [H1 H2 H3 H4 H5 H6] Hb Hr. unfold sfs_bfree. rewrite run_gets. destruct (bitmap_unmark_run (freemap v) b v H1 Hb) as (fm & Hrun & Hwf & Hn & Hset).
  rewrite (run_bind_ret _ _ _ _ _ Hrun). eexists. split; [done|]. split; [done|]. split; [|done].
  unfold used in *. split; unfold used; cbn [set_freemap freemap sb_nblocks d_blocks]; [done|by rewrite Hn| | |done|done].
  - intros c Hc. rewrite Hset. apply elem_of_difference. rewrite Hn in Hc. split; [by apply H3|]. rewrite elem_of_singleton. lia.
  - rewrite Hset. apply elem_of_difference. split; [done|]. rewrite elem_of_singleton. lia.
Qed.

Lemma check_used_run b v : vol_ok v → b = 0 ∨ 0 ≤ b < sb_nblocks v ∧ b ∈ used v → check_used b v = Ret tt v.
Proof.
  intros [H1 H2 H3 H4 H5 H6] Hb. unfold check_used. destruct (Z.eqb_spec b 0) as [->|Hne]; [done|]. destruct Hb as [|[Hr Hu]]; [done|].
  unfold sfs_bused. rewrite run_assoc, run_gets. rewrite (proj2 (Z.leb_gt _ _)) by lia. rewrite run_assoc, run_gets.
  destruct (bitmap_isset_run (freemap v) b v H1) as (x & Hrun & Hx); [lia|]. rewrite (run_bind_ret _ _ _ _ _ Hrun).
  rewrite (proj2 (Z.eqb_neq x 0)) by (by apply Hx). done.
Qed.

End disk.
