(* ===== verification/SfsFile.v ===== *)
(** * SfsFile: the block map of a file (sfs_bmap of kern/fs/sfs/sfs_bmap.c)

    The abstract view of an inode: the disk block of every block of the file, its contents and its
    bytes; the invariant that the blocks are in use and distinct; and what [sfs_bmap] does to it,
    with and without allocation. *)

From Stdlib Require Import ZArith Lia.
From stdpp Require Import base gmap list option strings list_numbers.
From S2P Require Import Prelude Types Strings Bitmap Uio Sfs Disk.
Set Default Goal Selector "!".
Open Scope Z_scope.

(** ** Words in blocks *)

Lemma bytes_of_cons w ws : bytes_of (w :: ws) = bytes_of_word w ++ bytes_of ws.
Proof. done. Qed.

Lemma length_bytes_of ws : zlen (bytes_of ws) = 4 * zlen ws.
Proof. induction ws as [|w ws IH]; [done|]. rewrite bytes_of_cons, length_app. cbn. lia. Qed.

Lemma bytes_of_ok ws : bytes_ok (bytes_of ws).
Proof.
  induction ws as [|w ws IH]; [by constructor|]. rewrite bytes_of_cons. apply Forall_app. split; [|done].
  repeat constructor; apply Z.mod_pos_bound; lia.
Qed.

Lemma word_bytes w : 0 ≤ w < 2 ^ 32 →
  (w / 2 ^ 24 mod 2 ^ 8) * 2 ^ 24 + (w / 2 ^ 16 mod 2 ^ 8) * 2 ^ 16 + (w / 2 ^ 8 mod 2 ^ 8) * 2 ^ 8 + w mod 2 ^ 8 = w.
Proof.
  intros Hw. change (2 ^ 24) with (2 ^ 8 * 2 ^ 16). change (2 ^ 16) with (2 ^ 8 * 2 ^ 8).
  rewrite <- !Z.div_div by lia. rewrite (Z.mod_small (w / 2 ^ 8 / 2 ^ 8 / 2 ^ 8)).
  2: { split; [repeat (apply Z.div_pos; [|lia]); lia|]. repeat (apply Z.div_lt_upper_bound; [lia|]). lia. }
  pose proof (Z.div_mod w (2 ^ 8)). pose proof (Z.div_mod (w / 2 ^ 8) (2 ^ 8)). pose proof (Z.div_mod (w / 2 ^ 8 / 2 ^ 8) (2 ^ 8)). lia.
Qed.

Definition words_ok (ws : list Z) : Prop := Forall (λ w, 0 ≤ w < 2 ^ 32) ws.

Lemma words_bytes ws : words_ok ws → words_of (bytes_of ws) = ws.
Proof.
  induction 1 as [|w ws Hw _ IH]; [done|]. rewrite bytes_of_cons. cbn [bytes_of_word app words_of].
  by rewrite word_bytes, IH.
Qed.

Lemma length_words n l : length l = (4 * n)%nat → length (words_of l) = n.
Proof.
  revert l. induction n as [|n IH]; intros l Hl; [by destruct l|].
  destruct l as [|a [|b [|c [|d l]]]]; cbn in Hl; try lia. cbn. f_equal. apply IH. lia.
Qed.

Lemma words_in_range l : bytes_ok l → words_ok (words_of l).
Proof.
  remember (length l) as n eqn:Hn. revert l Hn. induction (lt_wf n) as [n _ IH]. intros l -> Hl.
  destruct l as [|a [|b [|c [|d l]]]]; try by constructor. cbn [words_of].
  unfold bytes_ok in Hl. rewrite !Forall_cons in Hl. destruct Hl as (Ha & Hb & Hc & Hd & Hl). constructor; [lia|].
  apply (IH (length l)); [cbn; lia|done|done].
Qed.

Lemma set_words_ok ws i w : words_ok ws → 0 ≤ w < 2 ^ 32 → words_ok (arr_set ws i w).
Proof. intros Hws Hw. unfold arr_set. destruct (0 <=? i); [|done]. by apply Forall_insert. Qed.

Lemma words_replicate : words_of (replicate 512 0) = replicate 128 0.
Proof. reflexivity. Qed.

(** ** A file *)

(** The blocks a file can have. *)
Definition MAXBLOCKS : Z := SFS_NDIRECT + SFS_DBPERIDB.
Definition MAXFILE : Z := MAXBLOCKS * SFS_BLOCKSIZE.

Section file.
Context {D : Type} (hw_read : D → Z → D * (Z + list Z)) (hw_write : D → Z → list Z → D * Z) (contents : D → Z → list Z).
Context `{Hd : !DiskLaws hw_read hw_write contents}.
Implicit Types v : vol (D := D).
Implicit Types n : sfs_dinode.

Local Abbreviation blk := (blk contents).
Local Abbreviation alike := (alike contents).
Local Abbreviation written := (written contents).
Local Abbreviation allocated := (allocated contents).

(** The disk block of block [i] of the file, 0 where there is a hole. *)
Definition ptr v n (i : Z) : Z :=
  if i <? SFS_NDIRECT then default 0 (arr_get (sfi_direct n) i)
  else if sfi_indirect n =? 0 then 0
  else default 0 (arr_get (words_of (blk v (sfi_indirect n))) (i - SFS_NDIRECT)).

Definition fblock v n (i : Z) : list Z := if ptr v n i =? 0 then replicate 512 0 else blk v (ptr v n i).
Definition fbyte v n (p : Z) : Z := default 0 (arr_get (fblock v n (p / 512)) (p mod 512)).

(** The blocks that belong to the file. *)
Definition owns v n (b : Z) : Prop := b ≠ 0 ∧ (b = sfi_indirect n ∨ ∃ i, 0 ≤ i < MAXBLOCKS ∧ ptr v n i = b).

Definition valid_block v (b : Z) : Prop := 0 < b < sb_nblocks v ∧ b ∈ used v.

Record file_wf v n : Prop := {
  fw_direct : zlen (sfi_direct n) = SFS_NDIRECT;
  fw_valid : ∀ b, owns v n b → valid_block v b;
  fw_inj : ∀ i j, 0 ≤ i < MAXBLOCKS → 0 ≤ j < MAXBLOCKS → ptr v n i = ptr v n j → ptr v n i ≠ 0 → i = j;
  fw_indirect : ∀ i, 0 ≤ i < MAXBLOCKS → ptr v n i ≠ 0 → ptr v n i ≠ sfi_indirect n;
}.

Lemma ptr_owns v n i : 0 ≤ i < MAXBLOCKS → ptr v n i ≠ 0 → owns v n (ptr v n i).
Proof. intros Hi Hp. split; [done|]. right. by exists i. Qed.

(** The view depends on the device through the blocks the file owns. *)
Lemma ptr_same v v' n i :
  (sfi_indirect n ≠ 0 → blk v' (sfi_indirect n) = blk v (sfi_indirect n)) → ptr v' n i = ptr v n i.
Proof. intros H. unfold ptr. destruct (i <? SFS_NDIRECT); [done|]. destruct (Z.eqb_spec (sfi_indirect n) 0); [done|]. by rewrite H. Qed.

Lemma owns_same v v' n b :
  (sfi_indirect n ≠ 0 → blk v' (sfi_indirect n) = blk v (sfi_indirect n)) → owns v' n b ↔ owns v n b.
Proof. intros H. unfold owns. by setoid_rewrite (ptr_same v v' n _ H). Qed.

Lemma view_same v v' n :
  (∀ b, owns v n b → blk v' b = blk v b) →
  (∀ i, ptr v' n i = ptr v n i) ∧ (∀ i, 0 ≤ i < MAXBLOCKS → fblock v' n i = fblock v n i) ∧ (∀ b, owns v' n b ↔ owns v n b).
Proof.
  intros H. assert (Hi : sfi_indirect n ≠ 0 → blk v' (sfi_indirect n) = blk v (sfi_indirect n)) by (intros; apply H; split; [done|by left]).
  split_and!.
  - intros i. by apply ptr_same.
  - intros i Hr. unfold fblock. rewrite (ptr_same v v' n i Hi). destruct (Z.eqb_spec (ptr v n i) 0); [done|]. by apply H, ptr_owns.
  - intros b. by apply owns_same.
Qed.

Lemma wf_same v v' n :
  (∀ b, owns v n b → blk v' b = blk v b) → (∀ b, owns v n b → b ∈ used v → b ∈ used v') → sb_nblocks v' = sb_nblocks v →
  file_wf v n → file_wf v' n.
Proof.
  intros Hb Hu Hn [H1 H2 H3 H4]. destruct (view_same v v' n Hb) as (Hp & _ & Ho). split.
  - done.
  - intros b Hown%Ho. destruct (H2 b Hown) as [Hr Hin]. split; [by rewrite Hn|by apply Hu].
  - intros i j. rewrite !Hp. apply H3.
  - intros i. rewrite Hp. apply H4.
Qed.

(** ** Looking a block up *)

Lemma get_node_run {B} ino sv v (f : sfs_vnode → K vol B) : nodes v !! ino = Some sv → mbind f (get_node ino) v = f sv v.
Proof. intros H. unfold get_node. rewrite run_assoc, run_gets. by rewrite (run_deref _ _ sv). Qed.

Lemma direct_ptr v n i b : i < SFS_NDIRECT → arr_get (sfi_direct n) i = Some b → ptr v n i = b.
Proof. intros Hi Hb. unfold ptr. rewrite (proj2 (Z.ltb_lt _ _)) by done. by rewrite Hb. Qed.

Lemma ptr_checked v n i : vol_ok v → file_wf v n → 0 ≤ i < MAXBLOCKS → check_used (ptr v n i) v = Ret tt v.
Proof.
  intros Hok Hwf Hi. apply check_used_run; [done|]. destruct (decide (ptr v n i = 0)) as [|Hp]; [by left|right].
  destruct (fw_valid _ _ Hwf _ (ptr_owns _ _ _ Hi Hp)) as [Hr Hu]. split; [lia|done].
Qed.

Lemma indirect_words v n : length (words_of (blk v (sfi_indirect n))) = 128%nat.
Proof. apply (length_words 128). pose proof (blk_len hw_read hw_write contents v (sfi_indirect n)) as Hl. unfold SFS_BLOCKSIZE in Hl. lia. Qed.

Lemma alike_wf v v' n : alike v v' → file_wf v n → file_wf v' n.
Proof.
  intros Ha. apply wf_same; [intros; apply (al_blk _ _ _ Ha)| |apply (al_nblocks _ _ _ Ha)].
  intros b _. unfold used. by rewrite (al_freemap _ _ _ Ha).
Qed.

Lemma bmap_lookup ino sv i v :
  vol_ok v → nodes v !! ino = Some sv → file_wf v (sv_i sv) → 0 ≤ i < MAXBLOCKS →
  ∃ v', sfs_bmap hw_read hw_write ino i false v = Ret (inr (ptr v (sv_i sv) i)) v' ∧ alike v v'.
Proof.
  intros Hok Hn Hwf Hi. unfold sfs_bmap. destruct (Z.ltb_spec i SFS_NDIRECT) as [Hlt|Hge].
  - unfold bmap_direct, ebind. rewrite (get_node_run ino sv) by done.
    destruct (arr_get_ex (sfi_direct (sv_i sv)) i) as [b Hb]; [rewrite (fw_direct _ _ Hwf); lia|].
    rewrite (run_index_bind _ _ b) by done. rewrite andb_false_r, run_mret. rewrite <- (direct_ptr v (sv_i sv) i b) by done.
    rewrite (run_bind_ret _ _ _ _ _ (ptr_checked v (sv_i sv) i Hok Hwf Hi)). by exists v.
  - unfold MAXBLOCKS, SFS_DBPERIDB in *.
    rewrite Z.div_small, Z.mod_small by lia. cbn [Z.leb SFS_NINDIRECT Z.compare].
    rewrite (get_node_run ino sv) by done. unfold ptr. rewrite (proj2 (Z.ltb_ge _ _)) by done. cbn [negb]. rewrite andb_true_r.
    destruct (Z.eqb_spec (sfi_indirect (sv_i sv)) 0) as [Hid|Hid]; [by exists v|].
    unfold load_indirect, ebind. rewrite (proj2 (Z.eqb_neq _ _)) by done.
    destruct (fw_valid _ _ Hwf (sfi_indirect (sv_i sv))) as [Hr _]; [split; [done|by left]|].
    pose proof (vo_disk _ Hok). pose proof (vo_size _ Hok).
    destruct (readblock_run hw_read hw_write contents (sfi_indirect (sv_i sv)) v) as (v1 & Hrun & Ha); [lia|done|].
    rewrite run_assoc, (run_bind_ret _ _ _ _ _ Hrun), run_mret.
    destruct (arr_get_ex (words_of (blk v (sfi_indirect (sv_i sv)))) (i - SFS_NDIRECT)) as [b Hb].
    { rewrite indirect_words. lia. }
    rewrite (run_index_bind _ _ b) by done. rewrite andb_false_r, run_mret, Hb. cbn [default].
    assert (Hp : ptr v1 (sv_i sv) i = b).
    { rewrite (ptr_same v) by (intros; apply (al_blk _ _ _ Ha)). unfold ptr.
      rewrite (proj2 (Z.ltb_ge _ _)), (proj2 (Z.eqb_neq _ _)) by done. by rewrite Hb. }
    rewrite <- Hp, (run_bind_ret _ _ _ _ _ (ptr_checked v1 (sv_i sv) i ltac:(by rewrite <- Ha) (alike_wf _ _ _ Ha Hwf) Hi)).
    by exists v1.
Qed.

(** ** Growing *)

(** What an operation on the file leaves alone: the blocks in use that are not the file's. *)
Definition frame v n v' n' : Prop :=
  ∀ b, b ∈ used v → ¬ owns v n b → b ∈ used v' ∧ blk v' b = blk v b ∧ ¬ owns v' n' b.

(** A new block, of zeros, becomes a block of the file or its indirect block. *)
Record grown v n v' n' (b : Z) : Prop := {
  gr_new : (b ∉ used v) ∧ 0 < b < sb_nblocks v;
  gr_used : used v' = {[b]} ∪ used v;
  gr_nblocks : sb_nblocks v' = sb_nblocks v;
  gr_direct : zlen (sfi_direct n') = SFS_NDIRECT;
  gr_blk : ∀ c, c ∈ used v → c = 0 ∨ c ≠ sfi_indirect n → blk v' c = blk v c;
  gr_zero : blk v' b = replicate 512 0;
  gr_ptr : ∀ i, 0 ≤ i < MAXBLOCKS → ptr v' n' i = ptr v n i ∨ ptr v n i = 0 ∧ ptr v' n' i = b;
  gr_ind : sfi_indirect n' = sfi_indirect n ∨ sfi_indirect n = 0 ∧ sfi_indirect n' = b;
  gr_once : ∀ i j, 0 ≤ i < MAXBLOCKS → 0 ≤ j < MAXBLOCKS → ptr v' n' i = b → ptr v' n' j = b → i = j;
  gr_apart : ∀ i, 0 ≤ i < MAXBLOCKS → ptr v' n' i = b → sfi_indirect n' ≠ b;
}.

Lemma grown_owns v n v' n' b c : file_wf v n → grown v n v' n' b → owns v' n' c → c = b ∨ owns v n c.
Proof.
  intros Hwf G [Hc Hown]. destruct (decide (c = b)) as [|Hne]; [by left|right]. split; [done|].
  destruct Hown as [->|(i & Hi & Hp)].
  - left. destruct (gr_ind _ _ _ _ _ G) as [|[_ ?]]; [done|congruence].
  - right. exists i. split; [done|]. destruct (gr_ptr _ _ _ _ _ G i Hi) as [?|[_ ?]]; congruence.
Qed.

Lemma grown_wf v n v' n' b : file_wf v n → grown v n v' n' b → file_wf v' n'.
Proof.
  intros Hwf G. pose proof Hwf as [H1 H2 H3 H4].
  assert (Hold : ∀ i, 0 ≤ i < MAXBLOCKS → ptr v' n' i ≠ b → ptr v' n' i = ptr v n i).
  { intros i Hi Hb. by destruct (gr_ptr _ _ _ _ _ G i Hi) as [?|[_ ?]]. }
  assert (Hnew : ∀ i, 0 ≤ i < MAXBLOCKS → ptr v n i ≠ b).
  { intros i Hi Hp. destruct (gr_new _ _ _ _ _ G) as [Hf Hr]. apply Hf. rewrite <- Hp. apply H2, ptr_owns; [done|]. lia. }
  split.
  - apply (gr_direct _ _ _ _ _ G).
  - intros c Hc. unfold valid_block. rewrite (gr_nblocks _ _ _ _ _ G), (gr_used _ _ _ _ _ G), elem_of_union, elem_of_singleton.
    destruct (grown_owns _ _ _ _ _ _ Hwf G Hc) as [->|Ho]; [|destruct (H2 c Ho); tauto].
    destruct (gr_new _ _ _ _ _ G). tauto.
  - intros i j Hi Hj Heq Hne. destruct (decide (ptr v' n' i = b)) as [Hb|Hb].
    + apply (gr_once _ _ _ _ _ G); [done|done|done|congruence].
    + apply H3; [done|done| |]; rewrite <- !Hold by (done || congruence); done.
  - intros i Hi Hne Heq. destruct (decide (ptr v' n' i = b)) as [Hb|Hb].
    + by apply (gr_apart _ _ _ _ _ G i Hi Hb); congruence.
    + destruct (gr_ind _ _ _ _ _ G) as [Hind|[_ Hind]]; [|congruence].
      rewrite (Hold i Hi Hb) in *. apply (H4 i Hi Hne). congruence.
Qed.

Lemma grown_frame v n v' n' b : file_wf v n → grown v n v' n' b → frame v n v' n'.
Proof.
  intros Hwf G c Hu Ho. split_and!.
  - rewrite (gr_used _ _ _ _ _ G). by apply elem_of_union_r.
  - apply (gr_blk _ _ _ _ _ G); [done|]. destruct (decide (c = 0)) as [|Hz]; [by left|right]. intros ->. apply Ho. split; [done|by left].
  - intros Hc. destruct (grown_owns _ _ _ _ _ _ Hwf G Hc) as [->|]; [|done]. by destruct (gr_new _ _ _ _ _ G).
Qed.

Lemma grown_fblock v n v' n' b i :
  file_wf v n → grown v n v' n' b → 0 ≤ i < MAXBLOCKS → fblock v' n' i = fblock v n i.
Proof.
  intros Hwf G Hi. unfold fblock. destruct (gr_ptr _ _ _ _ _ G i Hi) as [->|[-> ->]].
  - destruct (Z.eqb_spec (ptr v n i) 0) as [|Hne]; [done|]. apply (gr_blk _ _ _ _ _ G).
    + by apply (fw_valid _ _ Hwf), ptr_owns.
    + right. by apply (fw_indirect _ _ Hwf).
  - rewrite (proj2 (Z.eqb_neq b 0)) by (destruct (gr_new _ _ _ _ _ G); lia). apply (gr_zero _ _ _ _ _ G).
Qed.

(** ** Steps of an operation on the file of inode [ino] *)

Record loaded ino sv v : Prop := {
  ld_node : nodes v !! ino = Some sv;
  ld_ok : vol_ok v;
  ld_wf : file_wf v (sv_i sv);
}.

Record step ino sv v sv' v' : Prop := {
  st_nodes : nodes v' = <[ino := sv']> (nodes v);
  st_loaded : loaded ino sv' v';
  st_frame : frame v (sv_i sv) v' (sv_i sv');
  st_nblocks : sb_nblocks v' = sb_nblocks v;
  st_dirty : sv' = sv ∨ sv_dirty sv' = true;
}.

Lemma step_alike ino sv v v' : loaded ino sv v → alike v v' → step ino sv v sv v'.
Proof.
  intros [H1 H2 H3] Ha. split.
  - rewrite (al_nodes _ _ _ Ha). symmetry. by apply insert_id.
  - split; [by rewrite (al_nodes _ _ _ Ha)|by rewrite <- Ha|by eapply alike_wf].
  - intros b Hu Ho. unfold used. rewrite (al_freemap _ _ _ Ha), (al_blk _ _ _ Ha). split_and!; [done|done|].
    rewrite owns_same; [done|]. intros; apply (al_blk _ _ _ Ha).
  - apply (al_nblocks _ _ _ Ha).
  - by left.
Qed.

Lemma step_trans ino sv v sv1 v1 sv2 v2 : step ino sv v sv1 v1 → step ino sv1 v1 sv2 v2 → step ino sv v sv2 v2.
Proof.
  intros [A1 A2 A3 A4 A5] [B1 B2 B3 B4 B5]. split; [by rewrite B1, A1, insert_insert_eq|done| |congruence|destruct B5 as [->|]; [done|by right]].
  intros b Hu Ho. destruct (A3 b Hu Ho) as (Hu1 & Hb1 & Ho1). destruct (B3 b Hu1 Ho1) as (Hu2 & Hb2 & Ho2). by rewrite Hb2, Hb1.
Qed.

Definition same_meta n n' : Prop :=
  sfi_type n' = sfi_type n ∧ sfi_linkcount n' = sfi_linkcount n ∧ sfi_waste n' = sfi_waste n.
Definition same_attr n n' : Prop := sfi_size n' = sfi_size n ∧ same_meta n n'.
Definition same_file v n v' n' : Prop :=
  same_attr n n' ∧ ∀ i, 0 ≤ i < MAXBLOCKS → fblock v' n' i = fblock v n i.

Lemma step_grown ino sv v sv' v' b :
  loaded ino sv v → vol_ok v' → nodes v' = <[ino := sv']> (nodes v) → same_attr (sv_i sv) (sv_i sv') →
  sv' = sv ∨ sv_dirty sv' = true → grown v (sv_i sv) v' (sv_i sv') b →
  step ino sv v sv' v' ∧ same_file v (sv_i sv) v' (sv_i sv').
Proof.
  intros [H1 H2 H3] Hok Hn Hs Hdirty G. split; [|split; [done|]].
  - split; [done| |by eapply grown_frame|apply (gr_nblocks _ _ _ _ _ G)|done].
    split; [rewrite Hn; apply lookup_insert_eq|done|by eapply grown_wf].
  - intros i Hi. by eapply grown_fblock.
Qed.

(** The new block is block [i] of the file. *)
Lemma grown_at v n v' n' b i :
  file_wf v n → (b ∉ used v) ∧ 0 < b < sb_nblocks v → used v' = {[b]} ∪ used v → sb_nblocks v' = sb_nblocks v →
  zlen (sfi_direct n') = SFS_NDIRECT → sfi_indirect n' = sfi_indirect n →
  (∀ c, c ∈ used v → c = 0 ∨ c ≠ sfi_indirect n → blk v' c = blk v c) → blk v' b = replicate 512 0 →
  ptr v n i = 0 → (∀ j, 0 ≤ j < MAXBLOCKS → ptr v' n' j = if decide (j = i) then b else ptr v n j) →
  grown v n v' n' b.
Proof.
  intros Hwf Hb Hu Hn Hd' Hind Hblk Hz Hp Hptr.
  assert (Hnew : ∀ j, 0 ≤ j < MAXBLOCKS → ptr v n j ≠ b).
  { intros j Hj E. apply (proj1 Hb). rewrite <- E. apply (fw_valid _ _ Hwf), ptr_owns; [done|lia]. }
  split; try done.
  - intros j Hj. rewrite Hptr by done. destruct (decide (j = i)) as [->|]; [by right|by left].
  - by left.
  - intros j k Hj Hk. rewrite !Hptr by done. intros Ej Ek.
    destruct (decide (j = i)), (decide (k = i)); [congruence|by apply Hnew in Ek|by apply Hnew in Ej|by apply Hnew in Ek].
  - intros j Hj _ Hib. apply (proj1 Hb). rewrite <- Hib, Hind. apply (fw_valid _ _ Hwf). split; [congruence || lia|by left].
Qed.

Lemma allocated_blk v v1 b c : allocated v v1 b → c ∈ used v → blk v1 c = blk v c.
Proof. intros A Hc. rewrite (ac_blk _ _ _ _ A), decide_False; [done|]. intros ->. by apply (ac_new _ _ _ _ A). Qed.

Lemma indirect_used v n : file_wf v n → sfi_indirect n ≠ 0 → sfi_indirect n ∈ used v.
Proof. intros Hwf Hne. apply (fw_valid _ _ Hwf). split; [done|by left]. Qed.

(** A new block for a hole among the direct blocks. *)
Lemma direct_grown ino v1 v sv b i :
  file_wf v (sv_i sv) → 0 ≤ i < SFS_NDIRECT → ptr v (sv_i sv) i = 0 → allocated v v1 b →
  grown v (sv_i sv) (set_node ino (set_direct i b sv) v1) (sv_i (set_direct i b sv)) b.
Proof.
  intros Hwf Hi Hp A. apply (grown_at _ _ _ _ _ i); try done; [apply A|apply A|apply A| |intros c Hc _; by apply (allocated_blk v v1 b)| |].
  - cbn. rewrite length_arr_set. apply (fw_direct _ _ Hwf).
  - change (blk v1 b = replicate 512 0). by rewrite (ac_blk _ _ _ _ A), decide_True.
  - intros j Hj. unfold ptr. cbn [sv_i set_direct sfi_direct sfi_indirect]. destruct (Z.ltb_spec j SFS_NDIRECT) as [Hlt|Hge].
    + destruct (decide (j = i)) as [->|Hne]; [|by rewrite arr_get_set_ne].
      by rewrite arr_get_set_eq by (rewrite (fw_direct _ _ Hwf); lia).
    + rewrite decide_False by lia. destruct (Z.eqb_spec (sfi_indirect (sv_i sv)) 0) as [|Hne]; [done|].
      change (blk (set_node ino (set_direct i b sv) v1)) with (blk v1). by rewrite (allocated_blk v v1 b) by (done || by apply indirect_used).
Qed.

(** An indirect block. *)
Lemma indirect_ptr ino v1 v sv b :
  sfi_indirect (sv_i sv) = 0 → allocated v v1 b →
  ∀ j, 0 ≤ j < MAXBLOCKS → ptr (set_node ino (set_indirect b sv) v1) (sv_i (set_indirect b sv)) j = ptr v (sv_i sv) j.
Proof.
  intros Hind A j Hj. pose proof (ac_new _ _ _ _ A) as [Hf Hr].
  unfold ptr. cbn [sv_i set_indirect sfi_direct sfi_indirect]. destruct (Z.ltb_spec j SFS_NDIRECT) as [|Hge]; [done|].
  rewrite (proj2 (Z.eqb_neq b 0)) by lia. rewrite Hind. cbn [Z.eqb].
  change (blk (set_node ino (set_indirect b sv) v1)) with (blk v1). rewrite (ac_blk _ _ _ _ A), decide_True, words_replicate by done.
  rewrite arr_get_nonneg, lookup_replicate_2 by (unfold MAXBLOCKS, SFS_DBPERIDB in Hj; lia). done.
Qed.

Lemma indirect_grown ino v1 v sv b :
  file_wf v (sv_i sv) → sfi_indirect (sv_i sv) = 0 → allocated v v1 b →
  grown v (sv_i sv) (set_node ino (set_indirect b sv) v1) (sv_i (set_indirect b sv)) b.
Proof.
  intros Hwf Hind A. pose proof (ac_new _ _ _ _ A) as [Hf Hr].
  assert (Hz : blk v1 b = replicate 512 0) by (by rewrite (ac_blk _ _ _ _ A), decide_True).
  pose proof (indirect_ptr ino v1 v sv b Hind A) as Hptr.
  assert (Hnew : ∀ j, 0 ≤ j < MAXBLOCKS → ptr v (sv_i sv) j ≠ b).
  { intros j Hj E. apply Hf. rewrite <- E. apply (fw_valid _ _ Hwf), ptr_owns; [done|lia]. }
  split; try done; [apply A|apply A|apply Hwf|intros c Hc _; by apply (allocated_blk v v1 b)| | | |].
  - intros j Hj. left. by apply Hptr.
  - by right.
  - intros j k Hj Hk. rewrite !Hptr by done. by intros ?%Hnew.
  - intros j Hj. rewrite Hptr by done. by intros ?%Hnew.
Qed.

(** A new block for a hole in the indirect block. *)
Lemma entry_grown v v1 v2 n b i :
  file_wf v n → SFS_NDIRECT ≤ i < MAXBLOCKS → ptr v n i = 0 → sfi_indirect n ≠ 0 → b < 2 ^ 32 → allocated v v1 b →
  written v1 v2 (sfi_indirect n) (bytes_of (arr_set (words_of (blk v (sfi_indirect n))) (i - SFS_NDIRECT) b)) →
  grown v n v2 n b.
Proof.
  intros Hwf Hi Hp Hind Hb A W. set (ws := words_of (blk v (sfi_indirect n))) in *.
  pose proof (indirect_words v n : length ws = 128%nat) as Hlen.
  assert (Hws : words_ok (arr_set ws (i - SFS_NDIRECT) b)).
  { apply set_words_ok; [apply words_in_range, (disk_bytes (dev v))|]. pose proof (ac_new _ _ _ _ A). lia. }
  unfold MAXBLOCKS, SFS_DBPERIDB in *.
  apply (grown_at _ _ _ _ _ i); try done; [apply A| |rewrite (wr_nblocks _ _ _ _ _ W); apply A|apply Hwf| | |].
  - unfold used in *. rewrite (wr_freemap _ _ _ _ _ W). apply A.
  - intros c Hc Hne. rewrite (wr_blk _ _ _ _ _ W), decide_False; [by apply (allocated_blk _ _ b)|]. intros ->. destruct Hne; done.
  - rewrite (wr_blk _ _ _ _ _ W), decide_False, (ac_blk _ _ _ _ A), decide_True; [done..|].
    intros ->. by apply (ac_new _ _ _ _ A), indirect_used.
  - intros j Hj. unfold ptr. destruct (Z.ltb_spec j SFS_NDIRECT) as [Hlt|Hge]; [by rewrite decide_False by lia|].
    rewrite (proj2 (Z.eqb_neq _ 0)) by done. rewrite (wr_blk _ _ _ _ _ W), decide_True, words_bytes by done.
    destruct (decide (j = i)) as [->|Hne]; [by rewrite arr_get_set_eq by (rewrite Hlen; lia)|by rewrite arr_get_set_ne by lia].
Qed.

(** ** Allocating a block *)

Definition full v : Prop := ∀ b, 0 ≤ b < sb_nblocks v → b ∈ used v.

(** The file is what it was, in a volume where more blocks may be in use. *)
Record extended ino sv v sv' v' : Prop := {
  ex_step : step ino sv v sv' v';
  ex_same : same_file v (sv_i sv) v' (sv_i sv');
  ex_kmem : kmem v' = kmem v;
}.

Lemma extended_trans ino sv v sv1 v1 sv2 v2 :
  extended ino sv v sv1 v1 → extended ino sv1 v1 sv2 v2 → extended ino sv v sv2 v2.
Proof.
  intros [A1 [(A2 & A3 & A4) A5] A6] [B1 [(B2 & B3 & B4) B5] B6]. split; [by eapply step_trans| |congruence].
  split; [unfold same_attr, same_meta; intuition congruence|]. intros i Hi. by rewrite B5, A5.
Qed.

Lemma extended_alike ino sv v v' : loaded ino sv v → alike v v' → extended ino sv v sv v'.
Proof.
  intros Hl Ha. split; [by apply step_alike| |apply (al_kmem _ _ _ Ha)]. split; [done|].
  intros i Hi. apply view_same; [|done]. intros; apply (al_blk _ _ _ Ha).
Qed.

Lemma extended_grown ino sv v sv' v' b :
  loaded ino sv v → vol_ok v' → nodes v' = <[ino := sv']> (nodes v) → same_attr (sv_i sv) (sv_i sv') → kmem v' = kmem v →
  sv' = sv ∨ sv_dirty sv' = true → grown v (sv_i sv) v' (sv_i sv') b → extended ino sv v sv' v'.
Proof. intros Hl Hok Hn Hs Hk Hdirty G. destruct (step_grown ino sv v sv' v' b) as [H1 H2]; [done..|]. by split. Qed.

Lemma bmap_direct_run ino sv i v :
  loaded ino sv v → 0 ≤ i < SFS_NDIRECT →
  ∃ r sv' v', bmap_direct hw_read hw_write ino i true v = Ret r v' ∧ extended ino sv v sv' v' ∧
    match r with inl e => e = ENOSPC ∧ full v' ∧ ptr v (sv_i sv) i = 0 | inr b => ptr v' (sv_i sv') i = b ∧ b ≠ 0 end.
Proof.
  intros Hl Hi. pose proof Hl as [Hn Hok Hwf]. unfold bmap_direct, ebind. rewrite (get_node_run ino sv) by done.
  destruct (arr_get_ex (sfi_direct (sv_i sv)) i) as [b Hb]; [rewrite (fw_direct _ _ Hwf); lia|].
  assert (Him : 0 ≤ i < MAXBLOCKS) by (unfold MAXBLOCKS, SFS_DBPERIDB; lia).
  pose proof (direct_ptr v _ i b (proj2 Hi) Hb) as Hp.
  rewrite (run_index_bind _ _ b) by done. rewrite andb_true_r. destruct (Z.eqb_spec b 0) as [->|Hne].
  - rewrite run_assoc. destruct (balloc_run hw_read hw_write contents v Hok) as [[Hrun Hfull]|(b & v1 & Hrun & A)].
    + rewrite (run_bind_ret _ _ _ _ _ Hrun), run_mret. exists (inl ENOSPC), sv, v. split; [done|]. split; [|done]. by apply extended_alike.
    + rewrite (run_bind_ret _ _ _ _ _ Hrun), run_assoc, run_modify, run_mret.
      set (v' := set_node ino (set_direct i b sv) v1). pose proof (ac_ok _ _ _ _ A) as Hok1.
      assert (E : extended ino sv v (set_direct i b sv) v').
      { eapply (extended_grown _ _ _ _ _ b); [done| |cbn; by rewrite (ac_nodes _ _ _ _ A)|done|apply (ac_kmem _ _ _ _ A)|by right|by apply direct_grown].
        destruct Hok1. by split. }
      destruct E as [[E1 [E2 E3 E4] E5 E6] E7 E8].
      assert (Hpb : ptr v' (sv_i (set_direct i b sv)) i = b).
      { apply direct_ptr; [lia|]. cbn. apply arr_get_set_eq. rewrite (fw_direct _ _ Hwf). lia. }
      pose proof (ptr_checked v' _ i E3 E4 Him) as Hc. rewrite Hpb in Hc. rewrite (run_bind_ret _ _ _ _ _ Hc).
      eexists _, _, _. split; [done|]. split; [done|]. split; [done|]. pose proof (ac_new _ _ _ _ A). lia.
  - rewrite run_mret. pose proof (ptr_checked v _ i Hok Hwf Him) as Hc. rewrite Hp in Hc. rewrite (run_bind_ret _ _ _ _ _ Hc).
    eexists _, _, _. split; [done|]. split; [by apply extended_alike|done].
Qed.

Lemma load_indirect_run ino sv v :
  loaded ino sv v →
  ∃ r sv' v', load_indirect hw_read hw_write ino sv v = Ret r v' ∧ extended ino sv v sv' v' ∧
    match r with
    | inl e => e = ENOSPC ∧ full v' ∧ sfi_indirect (sv_i sv) = 0
    | inr (id, ws) => id = sfi_indirect (sv_i sv') ∧ id ≠ 0 ∧ ws = words_of (blk v' id) ∧
        ∀ i, 0 ≤ i < MAXBLOCKS → ptr v' (sv_i sv') i = ptr v (sv_i sv) i
    end.
Proof.
  intros Hl. pose proof Hl as [Hn Hok Hwf]. unfold load_indirect, ebind. destruct (Z.eqb_spec (sfi_indirect (sv_i sv)) 0) as [Hz|Hne].
  - destruct (balloc_run hw_read hw_write contents v Hok) as [[Hrun Hfull]|(b & v1 & Hrun & A)].
    + rewrite (run_bind_ret _ _ _ _ _ Hrun). exists (inl ENOSPC), sv, v. split; [done|]. split; [|done]. by apply extended_alike.
    + rewrite (run_bind_ret _ _ _ _ _ Hrun), run_modify. pose proof (ac_ok _ _ _ _ A) as Hok1. pose proof (ac_new _ _ _ _ A) as [_ Hb].
      eexists _, (set_indirect b sv), _. split; [done|]. split.
      * eapply (extended_grown _ _ _ _ _ b); [done| |cbn; by rewrite (ac_nodes _ _ _ _ A)|done|apply (ac_kmem _ _ _ _ A)|by right|by apply indirect_grown].
        destruct Hok1. by split.
      * split_and!; [done|lia| |by apply indirect_ptr]. change (replicate 128 0 = words_of (blk v1 b)). by rewrite (ac_blk _ _ _ _ A), decide_True.
  - destruct (fw_valid _ _ Hwf (sfi_indirect (sv_i sv))) as [Hr _]; [split; [done|by left]|].
    pose proof (vo_disk _ Hok). pose proof (vo_size _ Hok).
    destruct (readblock_run hw_read hw_write contents (sfi_indirect (sv_i sv)) v) as (v1 & Hrun & Ha); [lia|done|].
    rewrite (run_bind_ret _ _ _ _ _ Hrun). eexists _, sv, v1. split; [done|]. split; [by apply extended_alike|].
    rewrite (al_blk _ _ _ Ha). split_and!; [done..|]. intros i Hi. apply ptr_same. intros _. apply (al_blk _ _ _ Ha).
Qed.

(** A hole in the indirect block is filled. *)
Lemma entry_run ino sv i v v1 b :
  loaded ino sv v → SFS_NDIRECT ≤ i < MAXBLOCKS → ptr v (sv_i sv) i = 0 → sfi_indirect (sv_i sv) ≠ 0 → allocated v v1 b →
  ∃ v', sfs_writeblock hw_read hw_write (sfi_indirect (sv_i sv))
      (bytes_of (arr_set (words_of (blk v (sfi_indirect (sv_i sv)))) (i - SFS_NDIRECT) b)) v1 = Ret (inr tt) v' ∧
    extended ino sv v sv v' ∧ ptr v' (sv_i sv) i = b.
Proof.
  intros Hl Hi Hp Hne A. pose proof Hl as [Hn Hok Hwf]. pose proof (ac_ok _ _ _ _ A) as Hok1. pose proof (ac_new _ _ _ _ A) as [Hnew Hb].
  destruct (fw_valid _ _ Hwf (sfi_indirect (sv_i sv))) as [Hr Hu]; [split; [done|by left]|].
  pose proof (vo_disk _ Hok). pose proof (vo_size _ Hok).
  pose proof (indirect_words v (sv_i sv)) as Hlen.
  set (ws := words_of _) in *.
  destruct (writeblock_run hw_read hw_write contents (sfi_indirect (sv_i sv)) (bytes_of (arr_set ws (i - SFS_NDIRECT) b)) v1) as (v' & Hrun & W).
  { rewrite (ac_blocks _ _ _ _ A). lia. }
  { by rewrite (ac_blocks _ _ _ _ A). }
  { rewrite length_bytes_of, length_arr_set, Hlen. done. }
  { apply bytes_of_ok. }
  exists v'. split; [done|].
  assert (G : grown v (sv_i sv) v' (sv_i sv) b) by (eapply (entry_grown v v1 v' _ b i); try done; lia).
  split.
  - eapply (extended_grown _ _ _ _ _ b); [done| | |done| |by left|done].
    + destruct Hok1. destruct W as [W1 W2 W3 W4 W5 W6]. split; unfold used in *; rewrite ?W2, ?W3, ?W4; done.
    + rewrite (wr_nodes _ _ _ _ _ W), (ac_nodes _ _ _ _ A). symmetry. by apply insert_id.
    + rewrite (wr_kmem _ _ _ _ _ W). apply A.
  - assert (Him : 0 ≤ i < MAXBLOCKS) by (unfold SFS_NDIRECT in *; lia).
    destruct (gr_ptr _ _ _ _ _ G i Him) as [E|[_ E]]; [|done]. exfalso. clear G.
    rewrite Hp in E. unfold ptr in E. rewrite (proj2 (Z.ltb_ge _ _)), (proj2 (Z.eqb_neq _ 0)) in E by (done || lia).
    rewrite (wr_blk _ _ _ _ _ W), decide_True, words_bytes in E; [|apply set_words_ok; [apply words_in_range, (disk_bytes (dev v))|lia]|done].
    rewrite arr_get_set_eq in E by (rewrite Hlen; unfold MAXBLOCKS, SFS_DBPERIDB in *; lia). cbn in E. lia.
Qed.

Lemma bmap_alloc ino sv i v :
  loaded ino sv v → 0 ≤ i < MAXBLOCKS →
  ∃ r sv' v', sfs_bmap hw_read hw_write ino i true v = Ret r v' ∧ extended ino sv v sv' v' ∧
    match r with inl e => e = ENOSPC ∧ full v' ∧ ptr v (sv_i sv) i = 0 | inr b => ptr v' (sv_i sv') i = b ∧ b ≠ 0 end.
Proof.
  intros Hl Hi. unfold sfs_bmap. destruct (Z.ltb_spec i SFS_NDIRECT) as [Hlt|Hge]; [apply bmap_direct_run; [done|lia]|].
  unfold MAXBLOCKS, SFS_DBPERIDB in *. rewrite Z.div_small, Z.mod_small by lia. cbn [Z.leb SFS_NINDIRECT Z.compare].
  rewrite (get_node_run ino sv) by apply Hl. rewrite andb_false_r.
  destruct (load_indirect_run ino sv v Hl) as (r & sv1 & v1 & Hrun & E1 & Hpost). unfold ebind at 1.
  rewrite (run_bind_ret _ _ _ _ _ Hrun). destruct r as [e|[id ws]].
  { exists (inl e), sv1, v1. split; [done|]. split; [done|]. destruct Hpost as (He & Hfull & Hz). split_and!; [done|done|].
    unfold ptr. by rewrite (proj2 (Z.ltb_ge _ _)), Hz. }
  destruct Hpost as (-> & Hne & -> & Hsame). pose proof (st_loaded _ _ _ _ _ (ex_step _ _ _ _ _ E1)) as Hl1. pose proof Hl1 as [Hn1 Hok1 Hwf1].
  destruct (arr_get_ex (words_of (blk v1 (sfi_indirect (sv_i sv1)))) (i - SFS_NDIRECT)) as [b Hb]; [rewrite indirect_words; lia|].
  assert (Hp : ptr v1 (sv_i sv1) i = b).
  { unfold ptr. rewrite (proj2 (Z.ltb_ge _ _)), (proj2 (Z.eqb_neq _ 0)) by done. by rewrite Hb. }
  rewrite (run_index_bind _ _ b) by done. rewrite andb_true_r. unfold ebind. destruct (Z.eqb_spec b 0) as [->|Hb0].
  - rewrite run_assoc. destruct (balloc_run hw_read hw_write contents v1 Hok1) as [[Hal Hfull]|(b & v2 & Hal & A)].
    + rewrite (run_bind_ret _ _ _ _ _ Hal), run_mret. exists (inl ENOSPC), sv1, v1. by rewrite <- Hsame.
    + rewrite (run_bind_ret _ _ _ _ _ Hal), run_assoc.
      destruct (entry_run ino sv1 i v1 v2 b) as (v3 & Hw & E3 & Hp3); [done|by split; [|apply Hi]|done|done|done|].
      rewrite (run_bind_ret _ _ _ _ _ Hw), run_mret. destruct (st_loaded _ _ _ _ _ (ex_step _ _ _ _ _ E3)) as [_ Hok3 Hwf3].
      pose proof (ptr_checked v3 _ i Hok3 Hwf3 Hi) as Hc. rewrite Hp3 in Hc. rewrite (run_bind_ret _ _ _ _ _ Hc).
      eexists _, sv1, v3. split; [done|]. split; [by eapply extended_trans|]. split; [done|]. pose proof (ac_new _ _ _ _ A). lia.
  - rewrite run_mret. pose proof (ptr_checked v1 _ i Hok1 Hwf1 Hi) as Hc. rewrite Hp in Hc. rewrite (run_bind_ret _ _ _ _ _ Hc).
    by eexists _, sv1, v1.
Qed.

(** A block that is there is found without an allocation. *)
Lemma bmap_mapped ino sv i v r v' :
  loaded ino sv v → 0 ≤ i < MAXBLOCKS → ptr v (sv_i sv) i ≠ 0 → sfs_bmap hw_read hw_write ino i true v = Ret r v' → alike v v'.
Proof.
  intros [Hn Hok Hwf] Hi Hp Hrun. destruct (bmap_lookup ino sv i v Hok Hn Hwf Hi) as (v1 & Hrun1 & Ha).
  assert (E : sfs_bmap hw_read hw_write ino i true v = sfs_bmap hw_read hw_write ino i false v); [|rewrite E, Hrun1 in Hrun; by injection Hrun as _ <-].
  unfold sfs_bmap. destruct (Z.ltb_spec i SFS_NDIRECT) as [Hlt|Hge].
  - destruct (arr_get_ex (sfi_direct (sv_i sv)) i) as [b Hb]; [rewrite (fw_direct _ _ Hwf); lia|]. rewrite (direct_ptr v _ i b Hlt Hb) in Hp.
    unfold bmap_direct. rewrite !(get_node_run ino sv) by done. rewrite !(run_index_bind _ _ b) by done. by rewrite (proj2 (Z.eqb_neq b 0)).
  - unfold MAXBLOCKS, SFS_DBPERIDB in *. rewrite Z.div_small, Z.mod_small by lia. cbn [Z.leb SFS_NINDIRECT Z.compare].
    rewrite !(get_node_run ino sv) by done. unfold ptr in Hp. rewrite (proj2 (Z.ltb_ge _ _)) in Hp by done.
    destruct (Z.eqb_spec (sfi_indirect (sv_i sv)) 0) as [Hid|Hid]; [done|]. cbn [andb]. unfold load_indirect, ebind. rewrite (proj2 (Z.eqb_neq _ _)) by done.
    destruct (fw_valid _ _ Hwf (sfi_indirect (sv_i sv))) as [Hr _]; [split; [done|by left]|]. pose proof (vo_disk _ Hok). pose proof (vo_size _ Hok).
    destruct (readblock_run hw_read hw_write contents (sfi_indirect (sv_i sv)) v) as (v2 & Hrd & Ha2); [lia|done|].
    rewrite !run_assoc, !(run_bind_ret _ _ _ _ _ Hrd), !run_mret.
    destruct (arr_get_ex (words_of (blk v (sfi_indirect (sv_i sv)))) (i - SFS_NDIRECT)) as [b Hb]; [rewrite indirect_words; lia|].
    rewrite Hb in Hp. rewrite !(run_index_bind _ _ b) by done. by rewrite (proj2 (Z.eqb_neq b 0)).
Qed.

Lemma bmap_big ino i alloc v : MAXBLOCKS ≤ i → sfs_bmap hw_read hw_write ino i alloc v = Ret (inl EFBIG) v.
Proof.
  intros Hi. unfold MAXBLOCKS, SFS_NDIRECT, SFS_DBPERIDB in Hi. unfold sfs_bmap. rewrite (proj2 (Z.ltb_ge _ _)) by (unfold SFS_NDIRECT; lia).
  rewrite (proj2 (Z.leb_le _ _)); [done|]. unfold SFS_NINDIRECT, SFS_NDIRECT, SFS_DBPERIDB. apply Z.div_le_lower_bound; lia.
Qed.

(** ** Writing a block of the file *)

Lemma written_step ino sv v v' i data :
  loaded ino sv v → 0 ≤ i < MAXBLOCKS → ptr v (sv_i sv) i ≠ 0 → written v v' (ptr v (sv_i sv) i) data →
  step ino sv v sv v' ∧
  ∀ j, 0 ≤ j < MAXBLOCKS → fblock v' (sv_i sv) j = if decide (j = i) then data else fblock v (sv_i sv) j.
Proof.
  intros [Hn Hok Hwf] Hi Hp [W1 W2 W3 W4 W5 W6].
  assert (Hind : blk v' (sfi_indirect (sv_i sv)) = blk v (sfi_indirect (sv_i sv))).
  { rewrite W1, decide_False; [done|]. intros E. by apply (fw_indirect _ _ Hwf i). }
  assert (Hptr : ∀ j, ptr v' (sv_i sv) j = ptr v (sv_i sv) j) by (intros j; by apply ptr_same).
  assert (Hown : ∀ b, owns v' (sv_i sv) b ↔ owns v (sv_i sv) b) by (intros b; by apply owns_same).
  split; [split|].
  - rewrite W5. symmetry. by apply insert_id.
  - split; [by rewrite W5| |].
    + destruct Hok. split; unfold used in *; rewrite ?W2, ?W3, ?W4; done.
    + destruct Hwf as [H1 H2 H3 H4]. split; [done| | |].
      * intros b Hb%Hown. destruct (H2 b Hb). unfold valid_block, used. by rewrite W3, W4.
      * intros j k. rewrite !Hptr. apply H3.
      * intros j. rewrite Hptr. apply H4.
  - intros b Hu Ho. rewrite W1, decide_False by (intros ->; apply Ho; by apply ptr_owns). unfold used in *. rewrite W4. split_and!; [done|done|].
    by rewrite Hown.
  - done.
  - by left.
  - intros j Hj. unfold fblock. rewrite Hptr, W1. destruct (decide (j = i)) as [->|Hne].
    + by rewrite decide_True, (proj2 (Z.eqb_neq _ 0)).
    + destruct (Z.eqb_spec (ptr v (sv_i sv) j) 0) as [|Hj0]; [done|]. rewrite decide_False; [done|].
      intros E. by apply Hne, (fw_inj _ _ Hwf).
Qed.

End file.
