(* ===== verification/SfsIo.v ===== *)
(** * SfsIo: reading and writing files (sfs_partialio, sfs_blockio and sfs_io of kern/fs/sfs/sfs_io.c)

    A file is an array of bytes.  Whatever the offset and the length, however the request is cut into partial and whole
    blocks, and whichever of the blocks are holes, a read moves the bytes of the file up to its end and a write
    replaces those bytes and no others: of the file, of other files, or of the blocks of the volume. *)

From Stdlib Require Import ZArith Lia.
From stdpp Require Import base gmap list option strings list_numbers.
From S2P Require Import Prelude Types Strings Bitmap Uio Sfs Disk SfsFile.
Set Default Goal Selector "!".
Open Scope Z_scope.

Lemma splice_at buf pos l x :
  0 ≤ pos → pos + zlen l ≤ zlen buf → 0 ≤ x →
  arr_get (splice buf pos l) x = if decide (pos ≤ x < pos + zlen l) then arr_get l (x - pos) else arr_get buf x.
Proof.
  intros Hp Hl Hx. unfold splice. rewrite !(arr_get_nonneg _ x) by lia.
  assert (Ht : length (take (Z.to_nat pos) buf) = Z.to_nat pos) by (rewrite length_take; lia).
  case_decide as Hin.
  - rewrite arr_get_nonneg, lookup_app_r, lookup_app_l by lia. rewrite Ht. f_equal. lia.
  - destruct (decide (x < pos)).
    + by rewrite lookup_app_l, lookup_take_lt by lia.
    + rewrite lookup_app_r, lookup_app_r by lia. rewrite lookup_drop, Ht. f_equal. lia.
Qed.

Lemma length_splice buf pos l : 0 ≤ pos → pos + zlen l ≤ zlen buf → zlen (splice buf pos l) = zlen buf.
Proof. intros Hp Hl. unfold splice. rewrite !length_app, length_take, length_drop. lia. Qed.

Lemma bytes_splice buf pos l : bytes_ok buf → bytes_ok l → bytes_ok (splice buf pos l).
Proof. intros Hb Hl. unfold splice, bytes_ok in *. rewrite !Forall_app. split_and!; [by apply Forall_take|done|by apply Forall_drop]. Qed.

Definition mem_bytes (m : mem) : Prop := ∀ a, 0 ≤ m a < 256.

Lemma bytes_get m p n : mem_bytes m → bytes_ok (get_bytes m p n).
Proof. intros Hm. unfold bytes_ok, get_bytes. apply Forall_fmap, Forall_true. intros x. apply Hm. Qed.

Section io.
Context {D : Type} (hw_read : D → Z → D * (Z + list Z)) (hw_write : D → Z → list Z → D * Z) (contents : D → Z → list Z).
Context `{Hd : !DiskLaws hw_read hw_write contents}.
Implicit Types v : vol (D := D).
Implicit Types n : sfs_dinode.

Local Abbreviation blk := (blk contents).
Local Abbreviation alike := (alike contents).
Local Abbreviation written := (written contents).
Local Abbreviation ptr := (ptr contents).
Local Abbreviation fblock := (fblock contents).
Local Abbreviation fbyte := (fbyte contents).
Local Abbreviation loaded := (loaded contents).
Local Abbreviation step := (step contents).
Local Abbreviation extended := (extended contents).

Lemma length_fblock v n i : zlen (fblock v n i) = 512.
Proof. unfold SfsFile.fblock. destruct (_ =? 0); [done|]. apply (disk_len (dev v)). Qed.

Lemma fblock_bytes v n i : bytes_ok (fblock v n i).
Proof. unfold SfsFile.fblock. destruct (_ =? 0); [by apply Forall_replicate|]. apply (disk_bytes (dev v)). Qed.

Lemma fbyte_range v n p : 0 ≤ fbyte v n p < 256.
Proof.
  unfold SfsFile.fbyte. destruct (arr_get _ _) as [x|] eqn:E; [|done]. cbn. apply arr_get_Some in E as [_ E].
  by apply (proj1 (Forall_lookup _ _) (fblock_bytes v n (p / 512))) in E.
Qed.

(** A byte in the block of the offset [off]. *)
Lemma fbyte_at v n off x :
  0 ≤ off → 0 ≤ off mod 512 + x < 512 → fbyte v n (off + x) = default 0 (arr_get (fblock v n (off / 512)) (off mod 512 + x)).
Proof.
  intros Ho Hx. unfold SfsFile.fbyte. replace (off + x) with (off mod 512 + x + off / 512 * 512) by (pose proof (Z.div_mod off 512); lia).
  rewrite Z.div_add, Z.mod_add, Z.div_small, Z.mod_small by lia. done.
Qed.

Lemma step_kmem ino sv v sv' v' m : step ino sv v sv' v' → step ino sv v sv' (set_kmem m v').
Proof. intros [S1 [L1 [V1 V2 V3 V4 V5 V6] [F1 F2 F3 F4]] S3 S4 S5]. split; [done| |done|done|done]. split; [done|by split|by split]. Qed.

(** ** What a transfer does *)

(** [k] bytes of the request [u], whose region is at [base], were moved. *)
Record moved ino u (base : Z) sv v (k : Z) sv' v' : Prop := {
  mv_step : step ino sv v sv' v';
  mv_attr : same_attr (sv_i sv) (sv_i sv');
  mv_mem : ∀ a, kmem v' a = match uio_rw u with
    | UIO_READ => if decide (base ≤ a < base + k) then fbyte v (sv_i sv) (uio_offset u + (a - base)) else kmem v a
    | UIO_WRITE => kmem v a end;
  mv_file : ∀ p, 0 ≤ p < MAXFILE → fbyte v' (sv_i sv') p = match uio_rw u with
    | UIO_READ => fbyte v (sv_i sv) p
    | UIO_WRITE => if decide (uio_offset u ≤ p < uio_offset u + k) then kmem v (base + (p - uio_offset u)) else fbyte v (sv_i sv) p end;
  mv_end : 0 ≤ k ∧ (k = 0 ∨ uio_offset u + k ≤ MAXFILE);
}.

(** How a transfer of [want] bytes ends. *)
Definition ended (u : uio) (want : Z) (e k : Z) v' : Prop :=
  e = 0 ∧ k = want ∨
  e = EFBIG ∧ k < want ∧ MAXFILE ≤ uio_offset u + k ∨
  e = ENOSPC ∧ k < want ∧ uio_rw u = UIO_WRITE ∧ full v'.

Lemma moved_bytes ino u base sv v k sv' v' : moved ino u base sv v k sv' v' → mem_bytes (kmem v) → mem_bytes (kmem v').
Proof.
  intros M Hm a. rewrite (mv_mem _ _ _ _ _ _ _ _ M). destruct (uio_rw u); [|done]. case_decide; [apply fbyte_range|done].
Qed.

Lemma moved_trans ino u base sv v k1 sv1 v1 k2 sv2 v2 :
  0 ≤ uio_offset u → moved ino u base sv v k1 sv1 v1 → moved ino (advanced u k1) (base + k1) sv1 v1 k2 sv2 v2 →
  moved ino u base sv v (k1 + k2) sv2 v2.
Proof.
  intros Ho [A1 A2 A3 A4 A5] [B1 B2 B3 B4 B5]. cbn [advanced uio_rw uio_offset] in *. split.
  - by eapply step_trans.
  - unfold same_attr, same_meta in *. intuition congruence.
  - intros a. rewrite B3, A3. destruct (uio_rw u); [|done].
    destruct (decide (base + k1 ≤ a < base + k1 + k2)) as [H|H].
    + rewrite (decide_True (P := base ≤ a < base + (k1 + k2))) by lia. rewrite A4 by lia. f_equal. lia.
    + destruct (decide (base ≤ a < base + k1)); [by rewrite decide_True by lia|by rewrite decide_False by lia].
  - intros p Hp. rewrite B4, A4 by done. destruct (uio_rw u); [done|]. rewrite A3.
    destruct (decide (uio_offset u + k1 ≤ p < uio_offset u + k1 + k2)) as [H|H].
    + rewrite (decide_True (P := uio_offset u ≤ p < uio_offset u + (k1 + k2))) by lia. f_equal. lia.
    + destruct (decide (uio_offset u ≤ p < uio_offset u + k1)); [by rewrite decide_True by lia|by rewrite decide_False by lia].
  - lia.
Qed.

Lemma fbyte_same v n v' n' p : same_file contents v n v' n' → 0 ≤ p < MAXFILE → fbyte v' n' p = fbyte v n p.
Proof.
  intros [_ H] Hp. unfold SfsFile.fbyte. rewrite H; [done|]. unfold MAXFILE, SFS_BLOCKSIZE in Hp.
  split; [apply Z.div_pos; lia|apply Z.div_lt_upper_bound; lia].
Qed.

(** Nothing was moved. *)
Lemma moved_none ino u base sv v sv' v' : extended ino sv v sv' v' → moved ino u base sv v 0 sv' v'.
Proof.
  intros [E1 E2 E3]. split; [done|apply E2| | |lia].
  - intros a. rewrite E3. destruct (uio_rw u); [|done]. by rewrite decide_False by lia.
  - intros p Hp. rewrite (fbyte_same _ _ _ _ _ E2 Hp). destruct (uio_rw u); [done|]. by rewrite decide_False by lia.
Qed.

Lemma block_in_file off k : 0 ≤ off → off / 512 < MAXBLOCKS → off mod 512 + k ≤ 512 → off + k ≤ MAXFILE.
Proof. intros Ho Hb Hk. unfold MAXFILE, SFS_BLOCKSIZE. pose proof (Z.div_mod off 512). lia. Qed.

(** Bytes of one block of the file are in memory. *)
Lemma moved_read ino u base sv v v1 v2 m k :
  loaded ino sv v → alike v v1 → alike (set_kmem m v1) v2 → uio_rw u = UIO_READ → 0 ≤ uio_offset u → uio_offset u / 512 < MAXBLOCKS →
  0 ≤ k → uio_offset u mod 512 + k ≤ 512 →
  (∀ a, m a = if decide (base ≤ a < base + k)
              then default 0 (arr_get (fblock v (sv_i sv) (uio_offset u / 512)) (uio_offset u mod 512 + (a - base))) else kmem v a) →
  moved ino u base sv v k sv v2.
Proof.
  intros Hl Ha Ha2 Hrw Ho Hb Hk Hk' Hm.
  assert (Ha' : alike v (set_kmem (kmem v) v2)).
  { destruct Ha as [A1 A2 A3 A4 A5 A6 A7], Ha2 as [B1 B2 B3 B4 B5 B6 B7].
    split; [intros b; rewrite <- A1; apply B1|rewrite <- A2; apply B2|rewrite <- A3; apply B3|rewrite <- A4; apply B4|rewrite <- A5; apply B5|done|rewrite <- A7; apply B7]. }
  pose proof (extended_alike contents ino sv v _ Hl Ha') as [E1 E2 E3].
  assert (Hv2 : v2 = set_kmem (kmem v2) (set_kmem (kmem v) v2)) by (by destruct v2).
  split; [rewrite Hv2; by apply step_kmem|done| | |].
  - intros a. rewrite Hrw, (al_kmem _ _ _ Ha2). change (kmem (set_kmem m v1) a) with (m a). rewrite Hm. case_decide as Hin; [|done].
    rewrite fbyte_at; [done|done|]. pose proof (Z.mod_pos_bound (uio_offset u) 512). lia.
  - intros p Hp. rewrite Hrw. apply (fbyte_same _ _ _ _ _ E2 Hp).
  - pose proof (block_in_file (uio_offset u) k). lia.
Qed.

(** Part of one block of the file has the bytes [l], from the position [off]. *)
Lemma spliced ino sv v sv1 v1 v2 off l :
  extended ino sv v sv1 v1 → 0 ≤ off → off / 512 < MAXBLOCKS → off mod 512 + zlen l ≤ 512 →
  ptr v1 (sv_i sv1) (off / 512) ≠ 0 →
  written v1 v2 (ptr v1 (sv_i sv1) (off / 512)) (splice (fblock v1 (sv_i sv1) (off / 512)) (off mod 512) l) →
  step ino sv v sv1 v2 ∧
  ∀ p, 0 ≤ p < MAXFILE →
    fbyte v2 (sv_i sv1) p = if decide (off ≤ p < off + zlen l) then default 0 (arr_get l (p - off)) else fbyte v (sv_i sv) p.
Proof.
  intros [E1 E2 E3] Ho Hb Hk' Hp W. set (i := off / 512) in *.
  assert (Hi : 0 ≤ i < MAXBLOCKS) by (split; [by apply Z.div_pos|done]).
  pose proof (Z.mod_pos_bound off 512 ltac:(lia)) as Hmod. pose proof (Z.div_mod off 512 ltac:(lia)) as Hdm.
  destruct (written_step contents ino sv1 v1 v2 i _ (st_loaded _ _ _ _ _ _ E1) Hi Hp W) as [S2 F2].
  split; [by eapply step_trans|].
  intros p Hpr. rewrite <- (fbyte_same _ _ _ _ _ E2 Hpr). unfold SfsFile.fbyte. rewrite F2.
  2: { unfold MAXFILE, SFS_BLOCKSIZE in Hpr. split; [apply Z.div_pos; lia|apply Z.div_lt_upper_bound; lia]. }
  pose proof (Z.mod_pos_bound p 512 ltac:(lia)) as Hpm. pose proof (Z.div_mod p 512 ltac:(lia)) as Hpd.
  destruct (decide (p / 512 = i)) as [Heq|Hne].
  - rewrite splice_at; [|lia|rewrite length_fblock; lia|lia]. rewrite Heq. destruct (decide (off ≤ p < off + zlen l)) as [Hin|Hout].
    + rewrite decide_True by lia. do 2 f_equal. lia.
    + rewrite decide_False by lia. done.
  - rewrite decide_False; [done|]. intros Hin. apply Hne. unfold i. apply (Z.div_unique_pos _ _ _ (p - i * 512)); lia.
Qed.

(** One block of the file has bytes of memory. *)
Lemma moved_write ino u base sv v sv1 v1 v2 k :
  extended ino sv v sv1 v1 → uio_rw u = UIO_WRITE → 0 ≤ uio_offset u → uio_offset u / 512 < MAXBLOCKS →
  0 ≤ k → uio_offset u mod 512 + k ≤ 512 → ptr v1 (sv_i sv1) (uio_offset u / 512) ≠ 0 →
  written v1 v2 (ptr v1 (sv_i sv1) (uio_offset u / 512))
    (splice (fblock v1 (sv_i sv1) (uio_offset u / 512)) (uio_offset u mod 512) (get_bytes (kmem v) base k)) →
  moved ino u base sv v k sv1 v2.
Proof.
  intros E Hrw Ho Hb Hk Hk' Hp W. pose proof (length_get_bytes (kmem v) base k Hk) as Hlen.
  destruct (spliced ino sv v sv1 v1 v2 (uio_offset u) (get_bytes (kmem v) base k)) as [S F]; [done..|lia|done|done|]. rewrite Hlen in F.
  split; [done|apply (ex_same _ _ _ _ _ _ E)| | |pose proof (block_in_file (uio_offset u) k); lia].
  - intros a. by rewrite Hrw, (wr_kmem _ _ _ _ _ W), (ex_kmem _ _ _ _ _ _ E).
  - intros p Hpr. rewrite Hrw, F by done. case_decide as Hin; [|done]. rewrite get_bytes_at by lia. done.
Qed.

(** ** Parts of a block *)

Lemma move_run buf pos k u base len v :
  region u base len → 0 < k ≤ uio_resid u →
  move buf pos k u v = Ret
    (match uio_rw u with UIO_READ => buf | UIO_WRITE => splice buf pos (get_bytes (kmem v) base k) end, advanced u k)
    (match uio_rw u with UIO_READ => set_kmem (put_bytes (kmem v) base (take (Z.to_nat k) (drop (Z.to_nat pos) buf))) v | UIO_WRITE => v end).
Proof.
  intros Hu Hk. unfold move. rewrite run_gets, (uiomove_one _ _ _ _ base len) by done. rewrite run_modify. destruct (uio_rw u); [done|]. by destruct v.
Qed.

Lemma put_slice m base buf pos k a :
  0 ≤ pos → 0 ≤ k → pos + k ≤ zlen buf →
  put_bytes m base (take (Z.to_nat k) (drop (Z.to_nat pos) buf)) a =
    if decide (base ≤ a < base + k) then default 0 (arr_get buf (pos + (a - base))) else m a.
Proof.
  intros Hp Hk Hl. rewrite put_bytes_at. rewrite length_take, length_drop.
  replace (Z.of_nat (Z.to_nat k `min` (length buf - Z.to_nat pos))) with k by lia. case_decide as Hin; [|done].
  rewrite !arr_get_nonneg by lia. rewrite lookup_take_lt, lookup_drop by lia.
  by replace (Z.to_nat (pos + (a - base))) with (Z.to_nat pos + Z.to_nat (a - base))%nat by lia.
Qed.

(** The block of the file at the offset of a request; the numbers of blocks fit in 32 bits. *)
Lemma fileblock_small u : 0 ≤ uio_offset u < 2 ^ 40 → u32 (uio_offset u / SFS_BLOCKSIZE) = uio_offset u / 512.
Proof.
  intros Ho. apply wrap_small. unfold SFS_BLOCKSIZE. split; [apply Z.div_pos; lia|]. apply Z.div_lt_upper_bound; lia.
Qed.

(** The contents of a block of the file, holes included. *)
Lemma read_fblock ino sv v i w :
  loaded ino sv v → 0 ≤ i < MAXBLOCKS →
  ∃ v', (if ptr v (sv_i sv) i =? 0 then KASSERT true w ;; mret (inr (replicate 512 0)) else sfs_readblock hw_read hw_write (ptr v (sv_i sv) i)) v
    = Ret (inr (fblock v (sv_i sv) i)) v' ∧ alike v v'.
Proof.
  intros [Hn Hok Hwf] Hi. unfold SfsFile.fblock. destruct (Z.eqb_spec (ptr v (sv_i sv) i) 0) as [|Hp]; [by exists v|].
  destruct (fw_valid _ _ _ Hwf _ (ptr_owns contents _ _ _ Hi Hp)) as [Hr _]. pose proof (vo_disk _ Hok).
  apply (readblock_run hw_read hw_write contents); [lia|apply (vo_size _ Hok)].
Qed.

Lemma loaded_alike ino sv v v' : loaded ino sv v → alike v v' → loaded ino sv v'.
Proof. intros Hl Ha. eapply st_loaded, (step_alike contents ino sv v v' Hl Ha). Qed.

Lemma fblock_alike v v' n i : alike v v' → fblock v' n i = fblock v n i ∧ ptr v' n i = ptr v n i.
Proof.
  intros Ha. assert (Hp : ptr v' n i = ptr v n i) by (apply ptr_same; intros; apply (al_blk _ _ _ Ha)).
  unfold SfsFile.fblock. rewrite Hp. split; [|done]. destruct (_ =? 0); [done|]. apply (al_blk _ _ _ Ha).
Qed.

(** A transfer within one block. *)
Definition in_block (u : uio) (base len k : Z) : Prop :=
  region u base len ∧ uio_offset u < 2 ^ 40 ∧ 0 < k ≤ uio_resid u ∧ uio_offset u mod 512 + k ≤ 512.

Lemma partial_read ino sv u base len k v :
  loaded ino sv v → in_block u base len k → uio_rw u = UIO_READ → uio_offset u / 512 < MAXBLOCKS →
  ∃ v', sfs_partialio hw_read hw_write ino u (uio_offset u mod 512) k v = Ret (0, advanced u k) v' ∧ moved ino u base sv v k sv v'.
Proof.
  intros Hl (Hu & Hoff & Hk & Hb) Hrw Hi. pose proof Hu as [_ _ _ _ [Ho _]].
  pose proof (Z.mod_pos_bound (uio_offset u) 512 ltac:(lia)) as Hmod.
  assert (Hir : 0 ≤ uio_offset u / 512 < MAXBLOCKS) by (split; [by apply Z.div_pos|done]).
  unfold sfs_partialio, is_write. rewrite Hrw. rewrite (wrap_small 32 (uio_offset u mod 512 + k)) by lia.
  rewrite run_assert by (apply Z.leb_le; unfold SFS_BLOCKSIZE; lia). rewrite fileblock_small by lia.
  pose proof Hl as [Hn Hok Hwf]. destruct (bmap_lookup hw_read hw_write contents ino sv _ v Hok Hn Hwf Hir) as (v1 & Hrun & Ha).
  rewrite (run_bind_ret _ _ _ _ _ Hrun). destruct (fblock_alike v v1 (sv_i sv) (uio_offset u / 512) Ha) as [Hf Hp].
  destruct (read_fblock ino sv v1 _ "uio->uio_rw == UIO_READ" (loaded_alike _ _ _ _ Hl Ha) Hir) as (v2 & Hrd & Ha2). rewrite Hf, Hp in Hrd.
  cbv beta iota delta [negb]. rewrite (run_bind_ret _ _ _ _ _ Hrd), run_bind, (move_run _ _ _ u base len) by done. rewrite Hrw.
  cbn [advanced uio_rw]. rewrite Hrw. eexists. split; [done|].
  eapply (moved_read ino u base sv v v2); try done; try lia; [by rewrite Ha|]. intros a.
  rewrite put_slice; [|lia|lia|rewrite length_fblock; lia]. by rewrite (al_kmem _ _ _ Ha2), (al_kmem _ _ _ Ha).
Qed.

Lemma partial_write ino sv u base len k v :
  loaded ino sv v → in_block u base len k → mem_bytes (kmem v) → uio_rw u = UIO_WRITE → uio_offset u / 512 < MAXBLOCKS →
  ∃ e j sv' v', sfs_partialio hw_read hw_write ino u (uio_offset u mod 512) k v = Ret (e, advanced u j) v' ∧
    moved ino u base sv v j sv' v' ∧ ended u k e j v'.
Proof.
  intros Hl (Hu & Hoff & Hk & Hb) Hm Hrw Hi. pose proof Hu as [_ _ _ _ [Ho _]].
  pose proof (Z.mod_pos_bound (uio_offset u) 512 ltac:(lia)) as Hmod.
  assert (Hir : 0 ≤ uio_offset u / 512 < MAXBLOCKS) by (split; [by apply Z.div_pos|done]).
  unfold sfs_partialio, is_write. rewrite Hrw. rewrite (wrap_small 32 (uio_offset u mod 512 + k)) by lia.
  rewrite run_assert by (apply Z.leb_le; unfold SFS_BLOCKSIZE; lia). rewrite fileblock_small by lia.
  destruct (bmap_alloc hw_read hw_write contents ino sv _ v Hl Hir) as (r & sv1 & v1 & Hrun & E & Hpost).
  rewrite (run_bind_ret _ _ _ _ _ Hrun). destruct r as [e|b].
  - destruct Hpost as (-> & Hfull & _). exists ENOSPC, 0, sv1, v1. rewrite advanced_0. split; [done|]. split; [by apply moved_none|].
    right; right. split_and!; [done|lia|done|done].
  - destruct Hpost as [<- Hp]. pose proof (st_loaded _ _ _ _ _ _ (ex_step _ _ _ _ _ _ E)) as Hl1. pose proof Hl1 as [Hn1 Hok1 Hwf1].
    rewrite (proj2 (Z.eqb_neq _ 0)) by done.
    destruct (read_fblock ino sv1 v1 _ EmptyString Hl1 Hir) as (v2 & Hrd & Ha). rewrite (proj2 (Z.eqb_neq _ 0)) in Hrd by done.
    rewrite (run_bind_ret _ _ _ _ _ Hrd), run_bind, (move_run _ _ _ u base len) by done. rewrite Hrw. cbn [advanced uio_rw]. rewrite Hrw.
    assert (Hk2 : kmem v2 = kmem v) by (rewrite (al_kmem _ _ _ Ha); apply (ex_kmem _ _ _ _ _ _ E)).
    destruct (fw_valid _ _ _ Hwf1 _ (ptr_owns contents _ _ _ Hir Hp)) as [Hr _]. pose proof (vo_disk _ Hok1). pose proof (vo_size _ Hok1).
    pose proof (length_get_bytes (kmem v2) base k ltac:(lia)) as Hlen.
    destruct (writeblock_run hw_read hw_write contents (ptr v1 (sv_i sv1) (uio_offset u / 512))
      (splice (fblock v1 (sv_i sv1) (uio_offset u / 512)) (uio_offset u mod 512) (get_bytes (kmem v2) base k)) v2) as (v3 & Hw & W).
    { rewrite (al_blocks _ _ _ Ha). lia. }
    { by rewrite (al_blocks _ _ _ Ha). }
    { rewrite length_splice by (rewrite ?length_fblock; lia). apply length_fblock. }
    { apply bytes_splice; [apply fblock_bytes|apply bytes_get; by rewrite Hk2]. }
    rewrite (run_bind_ret _ _ _ _ _ Hw). exists 0, k, sv1, v3. split; [done|]. split; [|by left].
    destruct (fblock_alike v1 v2 (sv_i sv1) (uio_offset u / 512) Ha) as [Hf Hpe].
    eapply (moved_write ino u base sv v sv1 v2); try done; try lia.
    + eapply extended_trans; [exact E|]. by apply extended_alike.
    + rewrite Hpe, Hf, <- Hk2. done.
Qed.

Lemma partial_run ino sv u base len k v :
  loaded ino sv v → in_block u base len k → mem_bytes (kmem v) →
  ∃ e j sv' v', sfs_partialio hw_read hw_write ino u (uio_offset u mod 512) k v = Ret (e, advanced u j) v' ∧
    moved ino u base sv v j sv' v' ∧ ended u k e j v'.
Proof.
  intros Hl Hin Hm. destruct (decide (uio_offset u / 512 < MAXBLOCKS)) as [Hi|Hi].
  - destruct (uio_rw u) eqn:Hrw.
    + destruct (partial_read ino sv u base len k v Hl Hin Hrw Hi) as (v' & Hrun & M). exists 0, k, sv, v'. split_and!; [done|done|by left].
    + by apply (partial_write ino sv u base len k v).
  - destruct Hin as (Hu & Hoff & Hk & Hb). pose proof Hu as [_ _ _ _ [Ho _]].
    pose proof (Z.mod_pos_bound (uio_offset u) 512 ltac:(lia)) as Hmod.
    unfold sfs_partialio. rewrite (wrap_small 32 (uio_offset u mod 512 + k)) by lia.
    rewrite run_assert by (apply Z.leb_le; unfold SFS_BLOCKSIZE; lia). rewrite fileblock_small by lia.
    rewrite run_bind, bmap_big by lia. exists EFBIG, 0, sv, v. rewrite advanced_0. split; [done|].
    split; [by apply moved_none, extended_alike|]. right; left. split_and!; [done|lia|].
    unfold MAXFILE, SFS_BLOCKSIZE. pose proof (Z.div_mod (uio_offset u) 512). lia.
Qed.

(** ** Whole blocks *)

(** The transfer goes straight to the region of the request. *)
Lemma direct_sector u base len b :
  region u base len → 512 ≤ uio_resid u →
  one_sector (set_resid SFS_BLOCKSIZE (set_offset (b * 512) u)) base b (uio_rw u) ∧
  set_resid (u32 (uio_resid (advanced (set_resid SFS_BLOCKSIZE (set_offset (b * 512) u)) 512) - SFS_BLOCKSIZE + uio_resid u))
    (set_offset (uio_offset (advanced (set_resid SFS_BLOCKSIZE (set_offset (b * 512) u)) 512) - b * 512 + uio_offset u)
      (advanced (set_resid SFS_BLOCKSIZE (set_offset (b * 512) u)) 512)) = advanced u 512.
Proof.
  intros [H1 H2 H3 H4 H5] Hr. split.
  - split; cbn; try done. exists len. split_and!; [done|lia|lia].
  - unfold advanced, set_resid, set_offset, SFS_BLOCKSIZE. cbn [uio_iov uio_offset uio_resid uio_rw]. f_equal; [lia|].
    rewrite (wrap_small 32) by lia. lia.
Qed.

Lemma diskoff_small v b : vol_ok v → 0 < b < sb_nblocks v → u32 (b * SFS_BLOCKSIZE) = b * 512.
Proof. intros Hok Hb. apply wrap_small. pose proof (vo_disk _ Hok). pose proof (vo_size _ Hok). unfold SFS_BLOCKSIZE. lia. Qed.

Lemma block_read ino sv u base len v :
  loaded ino sv v → in_block u base len 512 → uio_rw u = UIO_READ → uio_offset u / 512 < MAXBLOCKS →
  ∃ v', sfs_blockio hw_read hw_write ino u v = Ret (0, advanced u 512) v' ∧ moved ino u base sv v 512 sv v'.
Proof.
  intros Hl (Hu & Hoff & Hk & Hb) Hrw Hi. pose proof Hu as [_ _ _ _ [Ho _]].
  pose proof (Z.mod_pos_bound (uio_offset u) 512 ltac:(lia)) as Hmod.
  assert (Hir : 0 ≤ uio_offset u / 512 < MAXBLOCKS) by (split; [by apply Z.div_pos|done]).
  unfold sfs_blockio, is_write. rewrite Hrw. rewrite fileblock_small by lia.
  pose proof Hl as [Hn Hok Hwf]. destruct (bmap_lookup hw_read hw_write contents ino sv _ v Hok Hn Hwf Hir) as (v1 & Hrun & Ha).
  rewrite (run_bind_ret _ _ _ _ _ Hrun). assert (Hok1 : vol_ok v1) by (by rewrite <- Ha).
  destruct (Z.eqb_spec (ptr v (sv_i sv) (uio_offset u / 512)) 0) as [Hp|Hp].
  - rewrite run_assert by done. unfold move_zeros. rewrite run_assoc, run_gets. unfold uiomovezeros. rewrite Hrw.
    destruct (zeros_run (S (Z.to_nat SFS_BLOCKSIZE)) SFS_BLOCKSIZE u base len (kmem v1) Hu Hrw) as (m & Hz & Hm); [unfold SFS_BLOCKSIZE; lia|lia|].
    rewrite Hz, run_assoc, run_modify, run_mret. eexists. split; [done|].
    eapply (moved_read ino u base sv v v1); try done; try lia. intros a. rewrite Hm, (al_kmem _ _ _ Ha). unfold SFS_BLOCKSIZE. case_decide as Hin; [|done].
    unfold SfsFile.fblock. rewrite Hp. cbn [Z.eqb]. rewrite arr_get_nonneg, lookup_replicate_2 by lia. done.
  - rewrite run_assert by (apply Z.leb_le; unfold SFS_BLOCKSIZE; lia).
    destruct (fw_valid _ _ _ Hwf _ (ptr_owns contents _ _ _ Hir Hp)) as [Hr _]. pose proof (vo_disk _ Hok). pose proof (vo_size _ Hok).
    rewrite (diskoff_small v) by done. destruct (direct_sector u base len (ptr v (sv_i sv) (uio_offset u / 512)) Hu) as [Hs Hback]; [lia|]. rewrite Hrw in Hs.
    destruct (rwblock_read hw_read hw_write contents _ base _ v1 Hs) as (v2 & Hrd & A2); [rewrite (al_blocks _ _ _ Ha); lia|by rewrite (al_blocks _ _ _ Ha)|].
    rewrite (run_bind_ret _ _ _ _ _ Hrd), Hback. eexists. split; [done|].
    apply (moved_read ino u base sv v v1 v2 _ _ Hl Ha A2); try done; try lia. intros a.
    rewrite put_bytes_at, (al_kmem _ _ _ Ha), (blk_len hw_read hw_write contents). unfold SFS_BLOCKSIZE. case_decide as Hin; [|done].
    unfold SfsFile.fblock. rewrite (proj2 (Z.eqb_neq _ 0)) by done. rewrite (al_blk _ _ _ Ha). do 2 f_equal. lia.
Qed.

Lemma block_write ino sv u base len v :
  loaded ino sv v → in_block u base len 512 → mem_bytes (kmem v) → uio_rw u = UIO_WRITE → uio_offset u / 512 < MAXBLOCKS →
  ∃ e j sv' v', sfs_blockio hw_read hw_write ino u v = Ret (e, advanced u j) v' ∧
    moved ino u base sv v j sv' v' ∧ ended u 512 e j v'.
Proof.
  intros Hl (Hu & Hoff & Hk & Hb) Hm Hrw Hi. pose proof Hu as [_ _ _ _ [Ho _]].
  pose proof (Z.mod_pos_bound (uio_offset u) 512 ltac:(lia)) as Hmod.
  assert (Hir : 0 ≤ uio_offset u / 512 < MAXBLOCKS) by (split; [by apply Z.div_pos|done]).
  unfold sfs_blockio, is_write. rewrite Hrw. rewrite fileblock_small by lia.
  destruct (bmap_alloc hw_read hw_write contents ino sv _ v Hl Hir) as (r & sv1 & v1 & Hrun & E & Hpost).
  rewrite (run_bind_ret _ _ _ _ _ Hrun). destruct r as [e|b].
  - destruct Hpost as (-> & Hfull & _). exists ENOSPC, 0, sv1, v1. rewrite advanced_0. split; [done|]. split; [by apply moved_none|].
    right; right. split_and!; [done|lia|done|done].
  - destruct Hpost as [<- Hp]. destruct (st_loaded _ _ _ _ _ _ (ex_step _ _ _ _ _ _ E)) as [Hn1 Hok1 Hwf1].
    rewrite (proj2 (Z.eqb_neq _ 0)) by done. rewrite run_assert by (apply Z.leb_le; unfold SFS_BLOCKSIZE; lia).
    destruct (fw_valid _ _ _ Hwf1 _ (ptr_owns contents _ _ _ Hir Hp)) as [Hr _]. pose proof (vo_disk _ Hok1). pose proof (vo_size _ Hok1).
    pose proof (ex_kmem _ _ _ _ _ _ E) as Hkm.
    rewrite (diskoff_small v1) by done. destruct (direct_sector u base len (ptr v1 (sv_i sv1) (uio_offset u / 512)) Hu) as [Hs Hback]; [lia|]. rewrite Hrw in Hs.
    destruct (rwblock_write hw_read hw_write contents _ base _ v1 Hs) as (v2 & Hw & W); [lia|done|apply bytes_get; by rewrite Hkm|].
    rewrite (run_bind_ret _ _ _ _ _ Hw), Hback. exists 0, 512, sv1, v2. split; [done|]. split; [|by left].
    eapply (moved_write ino u base sv v sv1 v1 v2); try done; try lia.
    replace (uio_offset u mod 512) with 0 by lia. unfold splice. rewrite <- Hkm.
    pose proof (length_get_bytes (kmem v1) base 512 ltac:(lia)) as Hlen. pose proof (length_fblock v1 (sv_i sv1) (uio_offset u / 512)) as Hfl.
    change (Z.to_nat 0) with 0%nat. rewrite take_0, drop_ge, app_nil_r by lia. done.
Qed.

Lemma block_run ino sv u base len v :
  loaded ino sv v → in_block u base len 512 → mem_bytes (kmem v) →
  ∃ e j sv' v', sfs_blockio hw_read hw_write ino u v = Ret (e, advanced u j) v' ∧
    moved ino u base sv v j sv' v' ∧ ended u 512 e j v'.
Proof.
  intros Hl Hin Hm. destruct (decide (uio_offset u / 512 < MAXBLOCKS)) as [Hi|Hi].
  - destruct (uio_rw u) eqn:Hrw.
    + destruct (block_read ino sv u base len v Hl Hin Hrw Hi) as (v' & Hrun & M). exists 0, 512, sv, v'. split_and!; [done|done|by left].
    + by apply (block_write ino sv u base len v).
  - destruct Hin as (Hu & Hoff & Hk & Hb). pose proof Hu as [_ _ _ _ [Ho _]].
    unfold sfs_blockio. rewrite fileblock_small by lia.
    rewrite run_bind, bmap_big by lia. exists EFBIG, 0, sv, v. rewrite advanced_0. split; [done|].
    split; [by apply moved_none, extended_alike|]. right; left. split_and!; [done|lia|].
    unfold MAXFILE, SFS_BLOCKSIZE. pose proof (Z.div_mod (uio_offset u) 512). pose proof (Z.mod_pos_bound (uio_offset u) 512). lia.
Qed.

(** ** Whole requests *)

(** [m] transfers [want] bytes of the request, or stops with an error. *)
Definition transfer ino sv u base v (want : Z) (m : K vol (Z * uio)) : Prop :=
  ∃ e j sv' v', m v = Ret (e, advanced u j) v' ∧ moved ino u base sv v j sv' v' ∧ ended u want e j v'.

Lemma transfer_none ino sv u base v : loaded ino sv v → transfer ino sv u base v 0 (mret (0, u)).
Proof.
  intros Hl. exists 0, 0, sv, v. rewrite advanced_0. split; [done|]. split; [by apply moved_none, extended_alike|by left].
Qed.

Lemma transfer_seq ino sv u base v w1 w2 m (f : uio → K vol (Z * uio)) :
  0 ≤ uio_offset u → 0 ≤ w2 → mem_bytes (kmem v) → transfer ino sv u base v w1 m →
  (∀ sv1 v1, loaded ino sv1 v1 → mem_bytes (kmem v1) → transfer ino sv1 (advanced u w1) (base + w1) v1 w2 (f (advanced u w1))) →
  transfer ino sv u base v (w1 + w2) ('(e, u) ← m; if negb (e =? 0) then mret (e, u) else f u).
Proof.
  intros Ho Hw Hm (e & j & sv1 & v1 & Hrun & M & He) Hf. destruct (decide (e = 0)) as [->|Hne].
  - destruct He as [[_ ->]|[[? _]|[? _]]]; [|done|done].
    destruct (Hf sv1 v1) as (e & j & sv2 & v2 & Hrun2 & M2 & He2); [apply (mv_step _ _ _ _ _ _ _ _ M)|by eapply moved_bytes|].
    exists e, (w1 + j), sv2, v2. rewrite (run_bind_ret _ _ _ _ _ Hrun). cbv beta iota. cbn [Z.eqb negb]. rewrite Hrun2, advanced_advanced.
    split; [done|]. split; [by eapply moved_trans|]. unfold ended in *. cbn [advanced uio_offset uio_rw] in He2.
    destruct He2 as [[-> ->]|[(-> & ? & ?)|(-> & ? & ? & ?)]]; [by left|right; left|right; right]; split_and!; try done; lia.
  - exists e, j, sv1, v1. rewrite (run_bind_ret _ _ _ _ _ Hrun). cbv beta iota. rewrite (proj2 (Z.eqb_neq e 0)) by done. split; [done|]. split; [done|].
    destruct He as [[? _]|[(-> & ? & ?)|(-> & ? & ? & ?)]]; [done|right; left|right; right]; split_and!; try done; lia.
Qed.

Lemma blocks_run ino sv u base len v (k : nat) :
  loaded ino sv v → mem_bytes (kmem v) → region u base len → uio_offset u mod 512 = 0 → Z.of_nat k * 512 ≤ uio_resid u →
  uio_offset u + uio_resid u < 2 ^ 40 → transfer ino sv u base v (Z.of_nat k * 512) (io_blocks hw_read hw_write k ino u).
Proof.
  revert sv u base len v. induction k as [|k IH]; intros sv u base len v Hl Hm Hu Ho Hk Hoff; cbn [io_blocks]; [by apply transfer_none|].
  replace (Z.of_nat (S k) * 512) with (512 + Z.of_nat k * 512) by lia.
  apply transfer_seq; [apply (rg_off _ _ _ Hu)|lia|done| |].
  - apply (block_run ino sv u base len v); [done| |done]. split; [done|]. lia.
  - intros sv1 v1 Hl1 Hm1. apply (IH _ _ _ (len - 512)); [done|done|by apply advanced_region; [|lia]| |cbn; lia|cbn; lia].
    cbn [advanced uio_offset]. rewrite <- (Z.mul_1_l 512) at 1. rewrite Z.mod_add by lia. done.
Qed.

(** [sfs_io] after the leading partial block. *)
Lemma rest_run ino sv u base len v :
  loaded ino sv v → mem_bytes (kmem v) → region u base len → uio_offset u mod 512 = 0 → uio_offset u + uio_resid u < 2 ^ 40 →
  transfer ino sv u base v (uio_resid u)
    ('(e, u) ← io_blocks hw_read hw_write (Z.to_nat (uio_resid u / SFS_BLOCKSIZE)) ino u;
     if negb (e =? 0) then mret (e, u)
     else
       KASSERT (uio_resid u <? SFS_BLOCKSIZE) "uio->uio_resid < SFS_BLOCKSIZE" ;;
       if 0 <? uio_resid u then sfs_partialio hw_read hw_write ino u 0 (uio_resid u) else mret (0, u)).
Proof.
  intros Hl Hm Hu Ho Hoff. pose proof (rg_resid _ _ _ Hu) as Hr. unfold SFS_BLOCKSIZE.
  pose proof (Z.mod_pos_bound (uio_resid u) 512 ltac:(lia)) as Hmod. pose proof (Z.div_mod (uio_resid u) 512 ltac:(lia)) as Hdm.
  pose proof (Z.div_pos (uio_resid u) 512 ltac:(lia) ltac:(lia)) as Hq.
  replace (uio_resid u) with (uio_resid u / 512 * 512 + uio_resid u mod 512) at 1 by lia.
  apply (transfer_seq _ _ _ _ _ _ _ _ (λ u, KASSERT (uio_resid u <? 512) "uio->uio_resid < SFS_BLOCKSIZE" ;;
       if 0 <? uio_resid u then sfs_partialio hw_read hw_write ino u 0 (uio_resid u) else mret (0, u))); [apply (rg_off _ _ _ Hu)|lia|done| |].
  - replace (uio_resid u / 512) with (Z.of_nat (Z.to_nat (uio_resid u / 512))) at 1 by lia. apply (blocks_run _ _ _ _ len); [done..|lia|lia].
  - intros sv1 v1 Hl1 Hm1. set (u1 := advanced u (uio_resid u / 512 * 512)).
    assert (Hu1 : region u1 (base + uio_resid u / 512 * 512) (len - uio_resid u / 512 * 512)) by (apply advanced_region; [done|lia]).
    assert (Hr1 : uio_resid u1 = uio_resid u mod 512) by (cbn; lia).
    assert (Ho1 : uio_offset u1 mod 512 = 0) by (cbn; rewrite Z.mod_add by lia; done).
    unfold transfer. rewrite run_assert by (apply Z.ltb_lt; lia). rewrite Hr1.
    destruct (Z.ltb_spec 0 (uio_resid u mod 512)) as [Hpos|Hz].
    + rewrite <- Ho1. eapply (partial_run ino sv1 u1 _ _ (uio_resid u mod 512) v1 Hl1); [|done]. split; [exact Hu1|]. rewrite Hr1, Ho1. cbn. lia.
    + replace (uio_resid u mod 512) with 0 by lia. by apply transfer_none.
Qed.

Lemma io_parts_run ino sv u base len v :
  loaded ino sv v → mem_bytes (kmem v) → region u base len → 0 < uio_resid u → uio_offset u + uio_resid u < 2 ^ 40 →
  transfer ino sv u base v (uio_resid u) (io_parts hw_read hw_write ino u).
Proof.
  intros Hl Hm Hu Hpos Hoff. pose proof (rg_resid _ _ _ Hu) as Hr. pose proof (rg_off _ _ _ Hu) as [Ho _].
  pose proof (Z.mod_pos_bound (uio_offset u) 512 ltac:(lia)) as Hmod. unfold io_parts.
  rewrite (wrap_small 32) by (unfold SFS_BLOCKSIZE; lia). change SFS_BLOCKSIZE with 512.
  set (blkoff := uio_offset u mod 512) in *. set (first := if uio_resid u <? 512 - blkoff then uio_resid u else 512 - blkoff).
  assert (Hfirst : 0 < first ≤ uio_resid u ∧ blkoff + first ≤ 512 ∧ (first = uio_resid u ∨ blkoff + first = 512))
    by (unfold first; destruct (Z.ltb_spec (uio_resid u) (512 - blkoff)); lia).
  set (k := if blkoff =? 0 then 0 else first).
  assert (Hk : 0 ≤ k ≤ uio_resid u) by (unfold k; destruct (blkoff =? 0); lia).
  replace (uio_resid u) with (k + (uio_resid u - k)) at 1 by lia.
  apply (transfer_seq _ _ _ _ _ _ _ _ (λ u, if uio_resid u =? 0 then mret (0, u) else _)); [done|lia|done| |].
  - unfold k. destruct (Z.eqb_spec blkoff 0) as [Hb|Hb]; cbn [negb]; [by apply transfer_none|].
    apply (partial_run ino sv u base len first v Hl); [|done]. split; [done|]. fold blkoff. lia.
  - intros sv1 v1 Hl1 Hm1. set (u1 := advanced u k). assert (Hr1 : uio_resid u1 = uio_resid u - k) by done.
    assert (Hu1 : region u1 (base + k) (len - k)) by (by apply advanced_region).
    destruct (Z.eqb_spec (uio_resid u1) 0) as [Hz|Hz]; [replace (uio_resid u - k) with 0 by lia; by apply transfer_none|].
    assert (Hal : uio_offset u1 mod 512 = 0).
    { cbn [u1 advanced uio_offset]. unfold k in *. destruct (Z.eqb_spec blkoff 0) as [Hb|Hb]; [by rewrite Z.add_0_r|].
      pose proof (Z.div_mod (uio_offset u) 512 ltac:(lia)). fold blkoff in H.
      replace (uio_offset u + first) with ((uio_offset u / 512 + 1) * 512) by lia. apply Z.mod_mul. lia. }
    unfold transfer. rewrite run_assert by (by apply Z.eqb_eq). rewrite <- Hr1. apply (rest_run _ _ _ _ (len - k)); try done. cbn; lia.
Qed.

(** ** sfs_io *)

Lemma step_resize ino sv v x : loaded ino sv v → step ino sv v (set_size x sv) (set_node ino (set_size x sv) v).
Proof.
  intros [L1 [V1 V2 V3 V4 V5 V6] [F1 F2 F3 F4]]. split; [done| |by intros b|done|by right].
  split; [apply lookup_insert_eq|by split|by split].
Qed.

(** What a request did to the file and to memory, when it moved [k] bytes. *)
Record io_done ino u (base : Z) sv v (k : Z) sv' v' : Prop := {
  io_step : step ino sv v sv' v';
  io_size : sfi_size (sv_i sv') = match uio_rw u with
    | UIO_READ => sfi_size (sv_i sv)
    | UIO_WRITE => if k =? 0 then sfi_size (sv_i sv) else Z.max (sfi_size (sv_i sv)) (uio_offset u + k) end;
  io_type : same_meta (sv_i sv) (sv_i sv');
  io_mem : ∀ a, kmem v' a = match uio_rw u with
    | UIO_READ => if decide (base ≤ a < base + k) then fbyte v (sv_i sv) (uio_offset u + (a - base)) else kmem v a
    | UIO_WRITE => kmem v a end;
  io_file : ∀ p, 0 ≤ p < MAXFILE → fbyte v' (sv_i sv') p = match uio_rw u with
    | UIO_READ => fbyte v (sv_i sv) p
    | UIO_WRITE => if decide (uio_offset u ≤ p < uio_offset u + k) then kmem v (base + (p - uio_offset u)) else fbyte v (sv_i sv) p end;
  io_range : 0 ≤ k ∧ (k = 0 ∨ uio_offset u + k ≤ MAXFILE);
}.

(** The number of bytes a request is for: a read ends at the end of the file. *)
Definition io_want (u : uio) sv : Z :=
  match uio_rw u with
  | UIO_READ => Z.max 0 (Z.min (uio_resid u) (sfi_size (sv_i sv) - uio_offset u))
  | UIO_WRITE => uio_resid u
  end.

Lemma io_read_run ino sv u base len v :
  loaded ino sv v → mem_bytes (kmem v) → region u base len → 0 < uio_resid u → uio_offset u + uio_resid u < 2 ^ 40 → uio_rw u = UIO_READ →
  ∃ e k sv' v', sfs_io hw_read hw_write ino u v = Ret (e, advanced u k) v' ∧ io_done ino u base sv v k sv' v' ∧ ended u (io_want u sv) e k v'.
Proof.
  intros Hl Hm Hu Hpos Hoff Hrw. pose proof Hl as [Hn _ _]. pose proof Hu as [R1 R2 R3 R4 R5]. unfold sfs_io, is_write, io_want.
  rewrite (get_node_run ino sv) by done. rewrite Hrw. cbn [negb andb]. set (size := sfi_size (sv_i sv)).
  destruct (Z.leb_spec size (uio_offset u)) as [Heof|Heof].
  { exists 0, 0, sv, v. rewrite advanced_0. split; [done|]. destruct (moved_none ino u base sv v sv v) as [M1 M2 M3 M4 M5]; [by apply extended_alike|].
    split; [split; try done; rewrite Hrw; done|]. left. lia. }
  set (extra := if size <? uio_offset u + uio_resid u then u32 (uio_offset u + uio_resid u - size) else 0).
  assert (Hex : 0 ≤ extra < uio_resid u ∧ uio_resid u - extra = Z.min (uio_resid u) (size - uio_offset u)).
  { unfold extra. destruct (Z.ltb_spec size (uio_offset u + uio_resid u)); [|lia]. rewrite (wrap_small 32) by lia. lia. }
  rewrite run_assert by (apply orb_true_intro; right; apply Z.ltb_lt; lia).
  set (u0 := set_resid (uio_resid u - extra) u).
  assert (Hu0 : region u0 base len) by (split; cbn; try done; lia).
  destruct (io_parts_run ino sv u0 base len v Hl Hm Hu0) as (e & k & sv1 & v1 & Hrun & [M1 M2 M3 M4 M5] & He); [cbn; lia|cbn; lia|].
  cbn [u0 set_resid uio_rw uio_offset] in M3, M4, M5. rewrite Hrw in M3, M4.
  rewrite (run_bind_ret _ _ _ _ _ Hrun). destruct (st_loaded _ _ _ _ _ _ M1) as [Hn1 _ _]. rewrite (get_node_run ino sv1) by done.
  cbn [u0 advanced set_resid uio_rw uio_resid]. rewrite Hrw, andb_false_r. cbn [andb]. rewrite run_mret.
  assert (Hk : k ≤ uio_resid u - extra) by (destruct He as [[_ ->]|[(_ & H & _)|(_ & H & _)]]; cbn in *; lia).
  exists e, k, sv1, v1. split; [|split].
  - unfold mret, K_ret. do 2 f_equal. unfold set_resid, advanced, u0. cbn [uio_iov uio_offset uio_resid uio_rw set_resid].
    rewrite (wrap_small 32) by lia. f_equal. lia.
  - destruct M2 as (S1 & S2 & S3). split; try done; rewrite Hrw; done.
  - replace (Z.max 0 (Z.min (uio_resid u) (size - uio_offset u))) with (uio_resid u - extra) by lia. exact He.
Qed.

Lemma io_write_run ino sv u base len v :
  loaded ino sv v → mem_bytes (kmem v) → region u base len → 0 < uio_resid u → uio_offset u + uio_resid u < 2 ^ 40 → uio_rw u = UIO_WRITE →
  ∃ e k sv' v', sfs_io hw_read hw_write ino u v = Ret (e, advanced u k) v' ∧ io_done ino u base sv v k sv' v' ∧ ended u (io_want u sv) e k v'.
Proof.
  intros Hl Hm Hu Hpos Hoff Hrw. pose proof Hl as [Hn _ _]. pose proof Hu as [R1 R2 R3 R4 R5]. unfold sfs_io, is_write, io_want.
  rewrite (get_node_run ino sv) by done. rewrite Hrw. cbn [negb andb].
  rewrite run_assert by done. replace (set_resid (uio_resid u - 0) u) with u by (unfold set_resid; rewrite Z.sub_0_r; by destruct u).
  destruct (io_parts_run ino sv u base len v Hl Hm Hu) as (e & k & sv1 & v1 & Hrun & [M1 M2 M3 M4 M5] & He); [lia|lia|].
  rewrite Hrw in M3, M4. rewrite (run_bind_ret _ _ _ _ _ Hrun). pose proof (st_loaded _ _ _ _ _ _ M1) as Hl1. pose proof Hl1 as [Hn1 _ _].
  rewrite (get_node_run ino sv1) by done.
  change (uio_rw (advanced u k)) with (uio_rw u). change (uio_resid (advanced u k)) with (uio_resid u - k).
  change (uio_offset (advanced u k)) with (uio_offset u + k). rewrite Hrw, andb_true_r.
  assert (Hk : k ≤ uio_resid u) by (destruct He as [[_ ->]|[(_ & H & _)|(_ & H & _)]]; lia).
  assert (Hback : set_resid (u32 (uio_resid u - k + 0)) (advanced u k) = advanced u k).
  { unfold set_resid, advanced. cbn [uio_iov uio_offset uio_resid uio_rw]. rewrite Z.add_0_r, (wrap_small 32) by lia. done. }
  destruct M2 as (S1 & S2 & S3).
  assert (Hgrow : negb (uio_resid u - k =? uio_resid u) = negb (k =? 0)) by (f_equal; destruct (Z.eqb_spec (uio_resid u - k) (uio_resid u)), (Z.eqb_spec k 0); lia || done).
  rewrite Hgrow, S1. unfold MAXFILE, MAXBLOCKS, SFS_BLOCKSIZE, SFS_NDIRECT, SFS_DBPERIDB in M5.
  destruct (negb (k =? 0) && (sfi_size (sv_i sv) <? uio_offset u + k)) eqn:Hc.
  - apply andb_true_iff in Hc as [Hk0%negb_true_iff%Z.eqb_neq Hlt%Z.ltb_lt]. rewrite run_modify.
    eexists e, k, (set_size (u32 (uio_offset u + k)) sv1), _. split; [by rewrite Hback|]. split; [|exact He].
    split; try done.
    + eapply step_trans; [exact M1|]. by apply step_resize.
    + rewrite Hrw, (proj2 (Z.eqb_neq k 0)) by done. cbn [sv_i set_size sfi_size]. rewrite (wrap_small 32) by lia. lia.
    + intros a. rewrite Hrw. apply M3.
    + intros p Hp. rewrite Hrw. apply (M4 p Hp).
  - rewrite run_mret. exists e, k, sv1, v1. split; [by rewrite Hback|]. split; [|exact He]. split; try done; rewrite Hrw; try done.
    rewrite S1. apply andb_false_iff in Hc as [Hc%negb_false_iff|Hc%Z.ltb_ge]; [by rewrite Hc|]. destruct (k =? 0); lia.
Qed.

End io.
