(* ===== verification/SfsVol.v ===== *)
(** * SfsVol: the files of a volume (sfs_io and sfs_itrunc)

    The invariant of a mounted volume: every loaded inode has valid blocks of its own.  [sfs_io] and
    [sfs_itrunc] keep it, and do to one file what they say and to the others nothing. *)

From Stdlib Require Import ZArith Lia.
From stdpp Require Import base gmap list option strings list_numbers.
From S2P Require Import Prelude Types Strings Bitmap Uio Sfs Disk SfsFile SfsIo.
Set Default Goal Selector "!".
Open Scope Z_scope.

Section volume.
Context {D : Type} (hw_read : D → Z → D * (Z + list Z)) (hw_write : D → Z → list Z → D * Z) (contents : D → Z → list Z).
Context `{Hd : !DiskLaws hw_read hw_write contents}.
Implicit Types v : vol (D := D).
Implicit Types n : sfs_dinode.

Local Abbreviation blk := (blk contents).
Local Abbreviation alike := (alike contents).
Local Abbreviation written := (written contents).
Local Abbreviation ptr := (ptr contents).
Local Abbreviation fblock := (fblock contents).
Local Abbreviation fbyte := (fbyte contents).
Local Abbreviation owns := (owns contents).
Local Abbreviation loaded := (loaded contents).
Local Abbreviation step := (step contents).
Local Abbreviation io_done := (io_done contents).

Record vol_wf v : Prop := {
  vw_ok : vol_ok v;
  vw_file : ∀ ino sv, nodes v !! ino = Some sv → file_wf contents v (sv_i sv);
  vw_apart : ∀ i j sv sw b, i ≠ j → nodes v !! i = Some sv → nodes v !! j = Some sw → owns v (sv_i sv) b → ¬ owns v (sv_i sw) b;
}.

Lemma vol_wf_loaded v ino sv : vol_wf v → nodes v !! ino = Some sv → loaded ino sv v.
Proof. intros [H1 H2 H3] Hn. split; [done|done|by apply (H2 ino)]. Qed.

(** Another file, after a step of the file of [ino]. *)
Definition file_kept v v' n : Prop :=
  file_wf contents v' n ∧ (∀ b, owns v' n b ↔ owns v n b) ∧ ∀ p, 0 ≤ p < MAXFILE → fbyte v' n p = fbyte v n p.

Lemma kept_same v v' n :
  (∀ b, owns v n b → blk v' b = blk v b) → (∀ b, owns v n b → b ∈ used v → b ∈ used v') → sb_nblocks v' = sb_nblocks v →
  file_wf contents v n → file_kept v v' n.
Proof.
  intros Hb Hu Hn Hwf. destruct (view_same contents v v' n Hb) as (Hp & Hf & Ho). split_and!; [by apply (wf_same contents v)|done|].
  intros p Hpr. unfold SfsFile.fbyte. rewrite Hf; [done|]. unfold MAXFILE, SFS_BLOCKSIZE in Hpr.
  split; [apply Z.div_pos; lia|apply Z.div_lt_upper_bound; lia].
Qed.

Lemma kept_trans v v1 v2 n : file_kept v v1 n → file_kept v1 v2 n → file_kept v v2 n.
Proof. intros (A1 & A2 & A3) (B1 & B2 & B3). split_and!; [done|intros b; by rewrite B2|intros p Hp; by rewrite B3, A3]. Qed.

Lemma step_other ino sv v sv' v' n :
  step ino sv v sv' v' → file_wf contents v n → (∀ b, owns v n b → ¬ owns v (sv_i sv) b) →
  file_kept v v' n ∧ ∀ b, owns v' n b → ¬ owns v' (sv_i sv') b.
Proof.
  intros S Hwf Hap.
  assert (Hb : ∀ b, owns v n b → b ∈ used v' ∧ blk v' b = blk v b ∧ ¬ owns v' (sv_i sv') b).
  { intros b Hb. apply (st_frame _ _ _ _ _ _ S); [by apply (fw_valid _ _ _ Hwf)|by apply Hap]. }
  assert (Hk : file_kept v v' n).
  { apply kept_same; [intros b Ho; by apply Hb|intros b Ho _; by apply Hb|apply (st_nblocks _ _ _ _ _ _ S)|done]. }
  split; [done|]. destruct Hk as (_ & Ho & _). intros b Hown%Ho. by apply Hb.
Qed.

Lemma vol_wf_step ino sv v sv' v' :
  vol_wf v → nodes v !! ino = Some sv → step ino sv v sv' v' →
  vol_wf v' ∧ ∀ j sw, j ≠ ino → nodes v !! j = Some sw → nodes v' !! j = Some sw ∧ file_kept v v' (sv_i sw).
Proof.
  intros W Hn S. pose proof (st_nodes _ _ _ _ _ _ S) as Hnodes. pose proof (st_loaded _ _ _ _ _ _ S) as [Hn' Hok' Hwf'].
  assert (Hoth : ∀ j sw, j ≠ ino → nodes v !! j = Some sw → file_kept v v' (sv_i sw) ∧ ∀ b, owns v' (sv_i sw) b → ¬ owns v' (sv_i sv') b).
  { intros j sw Hj Hsw. eapply step_other; [done|by eapply vw_file|]. intros b. by apply (vw_apart _ W j ino). }
  split.
  - split; [done| |].
    + intros j sw. rewrite Hnodes. destruct (decide (j = ino)) as [->|Hj]; [rewrite lookup_insert_eq; by intros [= <-]|].
      rewrite lookup_insert_ne by done. intros Hsw. by apply (Hoth j).
    + intros i j sx sw b Hij. rewrite Hnodes. destruct (decide (i = ino)) as [->|Hi], (decide (j = ino)) as [->|Hj]; try done.
      * rewrite lookup_insert_eq, lookup_insert_ne by done. intros [= <-] Hw Ho Hb. by apply (proj2 (Hoth j sw Hj Hw) b).
      * rewrite lookup_insert_eq, lookup_insert_ne by done. intros Hw [= <-] Ho Hb. by apply (proj2 (Hoth i sx Hi Hw) b).
      * rewrite !lookup_insert_ne by done. intros Hx Hw Ho Hb. destruct (Hoth i sx Hi Hx) as [(_ & Hox & _) _].
        destruct (Hoth j sw Hj Hw) as [(_ & How & _) _]. rewrite Hox in Ho. rewrite How in Hb. by apply (vw_apart _ W i j sx sw b).
  - intros j sw Hj Hsw. split; [by rewrite Hnodes, lookup_insert_ne|]. by apply (Hoth j).
Qed.

(** C11: reading and writing a file, at any offset and of any length: [sfs_io] returns; with result 0 it has moved all of the
    request, up to the end of the file for a read; otherwise a prefix of it, and it stopped with EFBIG at the largest size a
    file can have, or, writing, with ENOSPC and no block of the volume free.  A read of k bytes puts those bytes of the
    file, zeros for holes, in memory at the region of the request and changes no other byte of memory nor any file; a
    write of k bytes makes them the bytes of the file at the offset, extends the file when they end after its
    end, and changes no other byte of it.  The other files, and all blocks in use that are not of this
    file, are as before, and the volume is well formed. *)
Theorem sfs_io_moves ino sv u base len v :
  vol_wf v → nodes v !! ino = Some sv → mem_bytes (kmem v) → region u base len → 0 < uio_resid u →
  uio_offset u + uio_resid u < 2 ^ 40 →
  ∃ e k sv' v', sfs_io hw_read hw_write ino u v = Ret (e, advanced u k) v' ∧
    ended u (io_want u sv) e k v' ∧ io_done ino u base sv v k sv' v' ∧ vol_wf v' ∧
    ∀ j sw, j ≠ ino → nodes v !! j = Some sw → nodes v' !! j = Some sw ∧ file_kept v v' (sv_i sw).
Proof.
  intros W Hn Hm Hu Hpos Hoff. pose proof (vol_wf_loaded v ino sv W Hn) as Hl.
  assert (H : ∃ e k sv' v', sfs_io hw_read hw_write ino u v = Ret (e, advanced u k) v' ∧ io_done ino u base sv v k sv' v' ∧ ended u (io_want u sv) e k v').
  { destruct (uio_rw u) eqn:Hrw; [by apply (io_read_run hw_read hw_write contents _ _ _ _ len)|by apply (io_write_run hw_read hw_write contents _ _ _ _ len)]. }
  destruct H as (e & k & sv' & v' & Hrun & Hdone & He). exists e, k, sv', v'. split; [done|]. split; [done|]. split; [done|].
  apply (vol_wf_step ino sv v sv' v' W Hn). apply (io_step _ _ _ _ _ _ _ _ _ Hdone).
Qed.

(** C19: what was written is read back: after a write, and whether or not it could move all of the request, a read at the same
    offset returns at least as many bytes, the first of which are the bytes that were written. *)
Theorem write_read_back ino sv u base len u2 base2 len2 v :
  vol_wf v → nodes v !! ino = Some sv → mem_bytes (kmem v) → region u base len → region u2 base2 len2 → 0 < uio_resid u →
  uio_offset u + uio_resid u < 2 ^ 40 → uio_rw u = UIO_WRITE → uio_rw u2 = UIO_READ →
  uio_offset u2 = uio_offset u → uio_resid u2 = uio_resid u →
  ∃ e k v' e2 k2 v2, sfs_io hw_read hw_write ino u v = Ret (e, advanced u k) v' ∧ (e = 0 → k = uio_resid u) ∧
    sfs_io hw_read hw_write ino u2 v' = Ret (e2, advanced u2 k2) v2 ∧ k ≤ k2 ∧
    ∀ i, 0 ≤ i < k → kmem v2 (base2 + i) = kmem v (base + i).
Proof.
  intros W Hn Hm Hu Hu2 Hpos Hoff Hrw Hrw2 Ho Hr. pose proof (vol_wf_loaded v ino sv W Hn) as Hl.
  destruct (io_write_run hw_read hw_write contents ino sv u base len v) as (e & k & sv' & v' & Hrun & [D1 D2 D3 D4 D5 D6] & He); [done..|].
  rewrite Hrw in D2, D4, D5. pose proof (st_loaded _ _ _ _ _ _ D1) as Hl'.
  destruct (io_read_run hw_read hw_write contents ino sv' u2 base2 len2 v') as (e2 & k2 & sv2 & v2 & Hrun2 & [F1 F2 F3 F4 F5 F6] & He2);
    [done|intros a; rewrite D4; apply Hm|done|by rewrite Hr|by rewrite Hr, Ho|done|].
  rewrite Hrw2 in F4. assert (Hk : k ≤ uio_resid u) by (unfold io_want in He; rewrite Hrw in He; destruct He as [[_ ->]|[(_ & H & _)|(_ & H & _)]]; lia).
  assert (Hk2 : k ≤ k2).
  { unfold ended, io_want in He2. rewrite Hrw2, Ho, Hr, D2 in He2. destruct He2 as [[_ ->]|[(_ & _ & H)|(_ & _ & ? & _)]]; [|lia|done].
    destruct (Z.eqb_spec k 0) as [->|]; lia. }
  exists e, k, v', e2, k2, v2. split_and!; [done| |done|done|].
  - intros ->. unfold io_want in He. rewrite Hrw in He. by destruct He as [[_ ->]|[(? & _)|(? & _)]].
  - intros i Hi. rewrite F4, decide_True by lia. rewrite Ho, D5 by (destruct (rg_off _ _ _ Hu); lia). rewrite decide_True by lia. f_equal. lia.
Qed.

End volume.

(** ** Errors of the disk *)

Section errors.
Context {D : Type} (hw_read : D → Z → D * (Z + list Z)) (hw_write : D → Z → list Z → D * Z).

(** C20: a write that fails is reported as done: when the disk answers the first attempt to write a block with EIO,
    the retry has nothing left to move, since the first attempt has used up the request, so the block is not written and
    [sfs_writeblock] returns success. *)
Theorem failed_write_reported_done b data (v : vol (D := D)) d' :
  0 ≤ b < d_blocks v → d_blocks v < 2 ^ 23 → zlen data = SFS_BLOCKSIZE → hw_write (dev v) b data = (d', EIO) →
  sfs_writeblock hw_read hw_write b data v = Ret (inr tt) (set_dev d' v).
Proof.
  intros Hb Hdb Hlen Hw. unfold sfs_writeblock, private. rewrite run_assert by (by apply Z.eqb_eq). rewrite run_gets, run_modify.
  set (v0 := set_kmem _ v). set (u := uio_kinit 0 SFS_BLOCKSIZE (b * SFS_BLOCKSIZE) UIO_WRITE).
  assert (Hget : get_bytes (kmem v0) 0 512 = data) by (cbn; change 512 with SFS_BLOCKSIZE; rewrite <- Hlen; apply get_put_bytes).
  assert (Hio : lhd_io hw_read hw_write u v0 = Ret (EIO, advanced u 512) (set_dev d' v0)).
  { rewrite (lhd_io_one hw_read hw_write u 0 b UIO_WRITE) by first [done|apply kinit_sector]. unfold lhd_sector. change (uio_rw u) with UIO_WRITE. cbv iota. rewrite run_assoc, run_bind.
    rewrite (move_sector u 0 b UIO_WRITE) by first [done|lia|apply kinit_sector]. rewrite run_assoc, run_gets, Hget. change (dev v0) with (dev v). by rewrite Hw. }
  unfold sfs_rwblock. cbn [rw_tries]. rewrite run_assoc, run_assoc, (run_bind_ret _ _ _ _ _ Hio). change (EIO =? EINVAL) with false. change (EIO =? EIO) with true. cbv iota.
  assert (Hret : lhd_io hw_read hw_write (advanced u 512) (set_dev d' v0) = Ret (0, advanced u 512) (set_dev d' v0)).
  { unfold lhd_io. change (uio_offset (advanced u 512)) with (b * 512 + 512). change (uio_resid (advanced u 512)) with 0. unfold LHD_SECTSIZE.
    replace (b * 512 + 512) with ((b + 1) * 512) by lia. rewrite Z.div_mul, Z.mod_mul by lia. change (u32 0) with 0. change (0 mod 512) with 0. change (0 / 512) with 0.
    cbn [Z.eqb negb orb]. rewrite run_gets. change (d_blocks (set_dev d' v0)) with (d_blocks v).
    rewrite (wrap_small 32 (b + 1)), Z.add_0_r, (wrap_small 32 (b + 1)), (proj2 (Z.ltb_ge _ _)) by lia. done. }
  rewrite run_assoc, (run_bind_ret _ _ _ _ _ Hret). change (0 =? EINVAL) with false. change (0 =? EIO) with false. cbv iota.
  rewrite !run_mret, run_modify. by destruct v.
Qed.

End errors.
