(* ===== verification/SfsTrunc.v ===== *)
(** * SfsTrunc: truncation of files (sfs_itrunc of kern/fs/sfs/sfs_bmap.c)

    Which blocks of the file are freed, and that they are exactly the blocks that stop being in use. *)

From Stdlib Require Import ZArith Lia.
From stdpp Require Import base gmap list option strings list_numbers.
From S2P Require Import Prelude Types Strings Bitmap Uio Sfs Disk SfsFile SfsIo SfsVol.
Set Default Goal Selector "!".
Open Scope Z_scope.

Section trunc.
Context {D : Type} (hw_read : D → Z → D * (Z + list Z)) (hw_write : D → Z → list Z → D * Z) (contents : D → Z → list Z).
Context `{Hd : !DiskLaws hw_read hw_write contents}.
Implicit Types v : vol (D := D).
Implicit Types n : sfs_dinode.

Local Abbreviation blk := (blk contents).
Local Abbreviation alike := (alike contents).
Local Abbreviation written := (written contents).
Local Abbreviation ptr := (ptr contents).
Local Abbreviation fblock := (fblock contents).
Local Abbreviation fbyte := (fbyte contents).
Local Abbreviation owns := (owns contents).
Local Abbreviation file_wf := (file_wf contents).
Local Abbreviation loaded := (loaded contents).
Local Abbreviation step := (step contents).
Local Abbreviation vol_wf := (vol_wf contents).

(** Blocks of the file are given up, and are no longer in use. *)
Record shrunk v n v' n' : Prop := {
  sk_nblocks : sb_nblocks v' = sb_nblocks v;
  sk_direct : zlen (sfi_direct n') = SFS_NDIRECT;
  sk_ptr : ∀ i, 0 ≤ i < MAXBLOCKS → ptr v' n' i = ptr v n i ∨ ptr v' n' i = 0;
  sk_ind : sfi_indirect n' = sfi_indirect n ∨ sfi_indirect n' = 0;
  sk_blk : ∀ c, c = 0 ∨ c ≠ sfi_indirect n → blk v' c = blk v c;
  sk_used : ∀ b, b ∈ used v' ↔ b ∈ used v ∧ (owns v n b → owns v' n' b);
}.

Lemma shrunk_owns v n v' n' b : shrunk v n v' n' → owns v' n' b → owns v n b.
Proof.
  intros S [Hb [->|(i & Hi & Hp)]]; (split; [done|]).
  - left. by destruct (sk_ind _ _ _ _ S).
  - right. exists i. split; [done|]. destruct (sk_ptr _ _ _ _ S i Hi); congruence.
Qed.

Lemma shrunk_wf v n v' n' : file_wf v n → shrunk v n v' n' → file_wf v' n'.
Proof.
  intros [H1 H2 H3 H4] S.
  assert (Hp : ∀ i, 0 ≤ i < MAXBLOCKS → ptr v' n' i ≠ 0 → ptr v' n' i = ptr v n i).
  { intros i Hi Hne. by destruct (sk_ptr _ _ _ _ S i Hi). }
  split.
  - apply (sk_direct _ _ _ _ S).
  - intros b Hb. destruct (H2 b) as [Hr Hu]; [by eapply shrunk_owns|]. split; [by rewrite (sk_nblocks _ _ _ _ S)|].
    apply (sk_used _ _ _ _ S). by split.
  - intros i j Hi Hj Heq Hne. apply H3; [done|done| |]; rewrite <- !Hp by congruence; done.
  - intros i Hi Hne Heq. destruct (sk_ind _ _ _ _ S) as [E|E]; [|congruence]. apply (H4 i Hi); rewrite <- Hp by done; congruence.
Qed.

Lemma shrunk_frame v n v' n' : shrunk v n v' n' → frame contents v n v' n'.
Proof.
  intros S b Hu Ho. split_and!.
  - apply (sk_used _ _ _ _ S). by split.
  - apply (sk_blk _ _ _ _ S). destruct (decide (b = 0)) as [|Hb]; [by left|right]. intros ->. apply Ho. split; [done|by left].
  - intros Hb. apply Ho. by eapply shrunk_owns.
Qed.

Lemma shrunk_trans v n v1 n1 v2 n2 : shrunk v n v1 n1 → shrunk v1 n1 v2 n2 → shrunk v n v2 n2.
Proof.
  intros A B. split.
  - rewrite (sk_nblocks _ _ _ _ B). apply A.
  - apply B.
  - intros i Hi. destruct (sk_ptr _ _ _ _ B i Hi) as [->|]; [by apply A|by right].
  - destruct (sk_ind _ _ _ _ B) as [->|]; [apply A|by right].
  - intros c Hc. rewrite (sk_blk _ _ _ _ B); [by apply A|]. destruct (sk_ind _ _ _ _ A) as [->| ->]; [done|]. lia.
  - intros b. rewrite (sk_used _ _ _ _ B), (sk_used _ _ _ _ A).
    pose proof (shrunk_owns v n v1 n1 b A). pose proof (shrunk_owns v1 n1 v2 n2 b B). tauto.
Qed.

Lemma shrunk_step ino sv v sv' v' :
  loaded ino sv v → vol_ok v' → nodes v' = <[ino := sv']> (nodes v) → sv' = sv ∨ sv_dirty sv' = true → shrunk v (sv_i sv) v' (sv_i sv') → step ino sv v sv' v'.
Proof.
  intros [L1 L2 L3] Hok Hn Hdirty S. split; [done| |by apply shrunk_frame|apply (sk_nblocks _ _ _ _ S)|done].
  split; [rewrite Hn; apply lookup_insert_eq|done|by eapply shrunk_wf].
Qed.

(** ** The direct blocks *)

(** What a loop of the truncation has done: [keep] says which blocks of the file stay. *)
Record cut ino sv v sv' v' (keep : Z → bool) : Prop := {
  ct_ok : vol_ok v';
  ct_nodes : nodes v' = <[ino := sv']> (nodes v);
  ct_kmem : kmem v' = kmem v;
  ct_dblocks : d_blocks v' = d_blocks v;
  ct_attr : same_attr (sv_i sv) (sv_i sv');
  ct_dirty : sv' = sv ∨ sv_dirty sv' = true;
  ct_shrunk : shrunk v (sv_i sv) v' (sv_i sv');
  ct_keep : ∀ i, 0 ≤ i < MAXBLOCKS → ptr v' (sv_i sv') i = if keep i then ptr v (sv_i sv) i else 0;
}.

Lemma cut_none ino sv v keep : loaded ino sv v → (∀ i, 0 ≤ i < MAXBLOCKS → keep i = true ∨ ptr v (sv_i sv) i = 0) → cut ino sv v sv v keep.
Proof.
  intros [L1 L2 L3] Hk. split; try done; [by rewrite insert_id|by left| |].
  - split; try done; [apply L3|by left|by left|tauto].
  - intros i Hi. destruct (Hk i Hi) as [-> | ->]; [done|by destruct (keep i)].
Qed.

Lemma cut_trans ino sv v sv1 v1 sv2 v2 k1 k2 keep :
  cut ino sv v sv1 v1 k1 → cut ino sv1 v1 sv2 v2 k2 → (∀ i, 0 ≤ i < MAXBLOCKS → keep i = k1 i && k2 i) → cut ino sv v sv2 v2 keep.
Proof.
  intros [A1 A2 A3 A4 A5 A0 A6 A7] [B1 B2 B3 B4 B5 B0 B6 B7] Hk.
  split; [done|by rewrite B2, A2, insert_insert_eq|congruence|congruence| |destruct B0 as [->|]; [done|by right]| |].
  - unfold same_attr, same_meta in *. intuition congruence.
  - by eapply shrunk_trans.
  - intros i Hi. rewrite B7, A7, Hk by done. by destruct (k1 i), (k2 i).
Qed.

Lemma cut_loaded ino sv v sv' v' keep : loaded ino sv v → cut ino sv v sv' v' keep → loaded ino sv' v'.
Proof.
  intros [L1 L2 L3] [A1 A2 A3 A4 A5 A0 A6 A7]. split; [rewrite A2; apply lookup_insert_eq|done|by eapply shrunk_wf].
Qed.

(** One direct block is freed. *)
Lemma free_direct ino sv v i :
  loaded ino sv v → 0 ≤ i < SFS_NDIRECT → ptr v (sv_i sv) i ≠ 0 →
  ∃ v1, sfs_bfree (ptr v (sv_i sv) i) v = Ret tt v1 ∧
    cut ino sv v (set_direct i 0 sv) (set_node ino (set_direct i 0 sv) v1) (λ j, negb (j =? i)) ∧
    sfi_indirect (sv_i (set_direct i 0 sv)) = sfi_indirect (sv_i sv).
Proof.
  intros Hl Hi Hp. pose proof Hl as [Hn Hok Hwf].
  assert (Him : 0 ≤ i < MAXBLOCKS) by (unfold MAXBLOCKS, SFS_DBPERIDB; lia).
  destruct (fw_valid _ _ _ Hwf _ (ptr_owns contents _ _ _ Him Hp)) as [Hr Hu].
  destruct (bfree_run contents _ v Hok Hu Hr) as (v1 & Hrun & Hused & Hok1 & Hblk & Hdb & Hnb & Hnodes & Hk).
  exists v1. split; [done|]. split; [|done]. set (n' := sv_i (set_direct i 0 sv)). set (v' := set_node _ _ v1).
  assert (Hptr : ∀ j, 0 ≤ j < MAXBLOCKS → ptr v' n' j = if negb (j =? i) then ptr v (sv_i sv) j else 0).
  { intros j Hj. unfold SfsFile.ptr. cbn [n' sv_i set_direct sfi_direct sfi_indirect]. destruct (Z.ltb_spec j SFS_NDIRECT) as [Hlt|Hge].
    - destruct (Z.eqb_spec j i) as [->|Hne]; cbn [negb]; [|by rewrite arr_get_set_ne].
      by rewrite arr_get_set_eq by (rewrite (fw_direct _ _ _ Hwf); lia).
    - rewrite (proj2 (Z.eqb_neq j i)) by lia. cbn [negb]. change (blk v') with (blk v1). by rewrite Hblk. }
  assert (Hind : sfi_indirect n' = sfi_indirect (sv_i sv)) by done.
  split; try done.
  - destruct Hok1. by split.
  - cbn. by rewrite Hnodes.
  - by right.
  - split; [done|cbn; rewrite length_arr_set; apply Hwf| |by left|by intros c _; apply Hblk|].
    + intros j Hj. rewrite Hptr by done. destruct (negb (j =? i)); [by left|by right].
    + intros b. change (used v') with (used v1). rewrite Hused, elem_of_difference, elem_of_singleton. split.
      * intros [Hb Hne]. split; [done|]. intros [Hb0 [->|(j & Hj & <-)]]; (split; [done|]); [by left|]. right. exists j. split; [done|].
        rewrite Hptr by done. destruct (Z.eqb_spec j i) as [->|]; done.
      * intros [Hb Ho]. split; [done|]. intros ->. destruct (Ho (ptr_owns contents _ _ _ Him Hp)) as [_ [E|(j & Hj & E)]].
        { by apply (fw_indirect _ _ _ Hwf i Him Hp). }
        rewrite Hptr in E by done. destruct (Z.eqb_spec j i) as [->|Hne]; [done|]. cbn in E. by apply Hne, (fw_inj _ _ _ Hwf); [| | |congruence].
Qed.

Lemma trunc_direct_run ino sv v blocklen (k : nat) i :
  loaded ino sv v → 0 ≤ i → i + Z.of_nat k = SFS_NDIRECT →
  ∃ sv' v', trunc_direct k i blocklen ino v = Ret tt v' ∧ sfi_indirect (sv_i sv') = sfi_indirect (sv_i sv) ∧
    cut ino sv v sv' v' (λ j, negb ((i <=? j) && (j <? SFS_NDIRECT) && (blocklen <=? j))).
Proof.
  revert sv v i. induction k as [|k IH]; intros sv v i Hl Hi Hk; cbn [trunc_direct].
  { exists sv, v. split; [done|]. split; [done|]. apply cut_none; [done|]. intros j _. left. apply negb_true_iff.
    destruct (Z.leb_spec i j), (Z.ltb_spec j SFS_NDIRECT); try done. lia. }
  pose proof Hl as [Hn Hok Hwf]. rewrite (get_node_run ino sv) by done.
  destruct (arr_get_ex (sfi_direct (sv_i sv)) i) as [b Hb]; [rewrite (fw_direct _ _ _ Hwf); lia|].
  rewrite (run_index_bind _ _ b) by done. pose proof (direct_ptr contents v _ i b ltac:(lia) Hb) as Hp.
  destruct ((blocklen <=? i) && negb (b =? 0)) eqn:Hc.
  - apply andb_true_iff in Hc as [Hle%Z.leb_le Hb0%negb_true_iff%Z.eqb_neq]. rewrite run_assoc.
    destruct (free_direct ino sv v i Hl) as (v1 & Hrun & C & Hind); [lia|congruence|]. rewrite Hp in Hrun.
    rewrite (run_bind_ret _ _ _ _ _ Hrun), run_modify.
    destruct (IH (set_direct i 0 sv) _ (i + 1) (cut_loaded _ _ _ _ _ _ Hl C)) as (sv2 & v2 & Hrun2 & Hind2 & C2); [lia|lia|].
    exists sv2, v2. split; [done|]. split; [congruence|]. eapply cut_trans; [exact C|exact C2|]. intros j Hj. cbn beta.
    destruct (Z.eqb_spec j i), (Z.leb_spec i j), (Z.leb_spec (i + 1) j), (Z.ltb_spec j SFS_NDIRECT), (Z.leb_spec blocklen j); try done; lia.
  - rewrite run_mret. destruct (IH sv v (i + 1) Hl) as (sv2 & v2 & Hrun2 & Hind2 & C2); [lia|lia|].
    exists sv2, v2. split; [done|]. split; [done|].
    assert (C0 : cut ino sv v sv v (λ j, negb ((j =? i) && (blocklen <=? j)))).
    { apply cut_none; [done|]. intros j Hj. destruct (Z.eqb_spec j i) as [->|]; [|by left].
      destruct (blocklen <=? i); [right|by left]. cbn in Hc. apply negb_false_iff, Z.eqb_eq in Hc. congruence. }
    eapply cut_trans; [exact C0|exact C2|]. intros j Hj. cbn beta.
    destruct (Z.eqb_spec j i), (Z.leb_spec i j), (Z.leb_spec (i + 1) j), (Z.ltb_spec j SFS_NDIRECT), (Z.leb_spec blocklen j); try done; lia.
Qed.

(** ** The indirect block *)

(** The blocks the loop over the indirect block frees, from entry [j]. *)
Definition freed (ws : list Z) (j blocklen b : Z) : Prop :=
  ∃ x, j ≤ x < SFS_DBPERIDB ∧ blocklen < SFS_NDIRECT + x ∧ arr_get ws x = Some b ∧ b ≠ 0.

Record entries_ok v (ws : list Z) (j : Z) : Prop := {
  en_len : zlen ws = SFS_DBPERIDB;
  en_valid : ∀ x b, j ≤ x → arr_get ws x = Some b → b ≠ 0 → 0 < b < sb_nblocks v ∧ b ∈ used v;
  en_inj : ∀ x y b, j ≤ x → j ≤ y → arr_get ws x = Some b → arr_get ws y = Some b → b ≠ 0 → x = y;
}.

(** Volumes that differ in the map of blocks in use. *)
Record remapped v v' (F : Z → Prop) : Prop := {
  rm_ok : vol_ok v';
  rm_used : ∀ b, b ∈ used v' ↔ b ∈ used v ∧ ¬ F b;
  rm_blk : ∀ c, blk v' c = blk v c;
  rm_same : d_blocks v' = d_blocks v ∧ sb_nblocks v' = sb_nblocks v ∧ nodes v' = nodes v ∧ kmem v' = kmem v;
}.

Lemma entry_freed v ws j b :
  vol_ok v → entries_ok v ws j → 0 ≤ j < SFS_DBPERIDB → arr_get ws j = Some b → b ≠ 0 →
  ∃ v1, sfs_bfree b v = Ret tt v1 ∧ remapped v v1 (λ c, c = b) ∧ entries_ok v1 (arr_set ws j 0) (j + 1).
Proof.
  intros Hok [E1 E2 E3] Hj Hb Hb0. destruct (E2 j b ltac:(lia) Hb Hb0) as [Hr Hu].
  destruct (bfree_run contents b v Hok Hu Hr) as (v1 & Hrun & Hused & Hok1 & Hblk & Hdb & Hnb & Hnodes & Hk).
  exists v1. split; [done|]. split.
  - split; [done| |done|done]. intros c. by rewrite Hused, elem_of_difference, elem_of_singleton.
  - split; [by rewrite length_arr_set| |].
    + intros x c Hx Hc Hc0. rewrite arr_get_set_ne in Hc by lia. destruct (E2 x c ltac:(lia) Hc Hc0) as [Hcr Hcu].
      rewrite Hnb, Hused, elem_of_difference, elem_of_singleton. split; [done|]. split; [done|]. intros ->.
      pose proof (E3 x j b ltac:(lia) ltac:(lia) Hc Hb Hb0). lia.
    + intros x y c Hx Hy. rewrite !arr_get_set_ne by lia. apply E3; lia.
Qed.

Lemma trunc_indirect_run v ws j blocklen dirty (k : nat) :
  vol_ok v → entries_ok v ws j → 0 ≤ j → j + Z.of_nat k = SFS_DBPERIDB →
  ∃ ws' dirty' v', trunc_indirect k j blocklen ws dirty v = Ret (ws', dirty') v' ∧
    zlen ws' = SFS_DBPERIDB ∧
    (∀ x, 0 ≤ x < SFS_DBPERIDB → arr_get ws' x = if (j <=? x) && (blocklen <? SFS_NDIRECT + x) then Some 0 else arr_get ws x) ∧
    (dirty' = false → dirty = false ∧ ws' = ws) ∧ remapped v v' (freed ws j blocklen).
Proof.
  revert v ws j dirty. induction k as [|k IH]; intros v ws j dirty Hok He Hj Hk; cbn [trunc_indirect].
  { exists ws, dirty, v. split; [done|]. split; [apply He|]. split_and!; [|done|].
    - intros x Hx. rewrite (proj2 (Z.leb_gt j x)) by lia. done.
    - split; try done. intros b. split; [|tauto]. intros Hb. split; [done|]. intros (x & Hx & _). lia. }
  destruct (arr_get_ex ws j) as [b Hb]; [rewrite (en_len _ _ _ He); lia|]. rewrite (run_index_bind _ _ b) by done.
  destruct ((blocklen <? SFS_NDIRECT + j) && negb (b =? 0)) eqn:Hc.
  - apply andb_true_iff in Hc as [Hlt%Z.ltb_lt Hb0%negb_true_iff%Z.eqb_neq].
    destruct (entry_freed v ws j b Hok He) as (v1 & Hrun & R1 & He1); [lia|done|done|]. rewrite (run_bind_ret _ _ _ _ _ Hrun).
    destruct (IH v1 (arr_set ws j 0) (j + 1) true (rm_ok _ _ _ R1) He1) as (ws' & d' & v' & Hrun2 & Hlen & Hws & Hd' & R2); [lia|lia|].
    exists ws', d', v'. split; [done|]. split; [done|]. split_and!.
    + intros x Hx. rewrite Hws by done. destruct (decide (x = j)) as [->|Hne].
      * rewrite (proj2 (Z.leb_gt (j + 1) j)), (proj2 (Z.leb_le j j)), (proj2 (Z.ltb_lt _ _)) by lia. cbn [andb].
        apply arr_get_set_eq. rewrite (en_len _ _ _ He). lia.
      * rewrite arr_get_set_ne by done. replace (j + 1 <=? x) with (j <=? x); [done|].
        destruct (Z.leb_spec j x), (Z.leb_spec (j + 1) x); lia || done.
    + intros E. by destruct (Hd' E).
    + destruct R1 as [A1 A2 A3 (A4 & A5 & A6 & A7)], R2 as [B1 B2 B3 (B4 & B5 & B6 & B7)].
      split; [done| |intros c; by rewrite B3, A3|split_and!; congruence]. intros c. rewrite B2, A2. split.
      * intros [[Hu Hne] Hf]. split; [done|]. intros (x & Hx & Hlx & Hgx & Hcx). destruct (decide (x = j)) as [->|]; [congruence|].
        apply Hf. exists x. rewrite arr_get_set_ne by done. split_and!; [lia|lia|lia|done|done].
      * intros [Hu Hf]. split; [split; [done|]|].
        -- intros ->. apply Hf. exists j. split_and!; [lia|lia|lia|done|done].
        -- intros (x & Hx & Hlx & Hgx & Hcx). apply Hf. exists x. rewrite arr_get_set_ne in Hgx by lia. split_and!; [lia|lia|lia|done|done].
  - destruct (IH v ws (j + 1) dirty Hok) as (ws' & d' & v' & Hrun2 & Hlen & Hws & Hd' & R2); [|lia|lia|].
    { destruct He as [E1 E2 E3]. split; [done|intros x c Hx; apply E2; lia|intros x y c Hx Hy; apply E3; lia]. }
    assert (Hz : blocklen < SFS_NDIRECT + j → b = 0).
    { intros H. rewrite (proj2 (Z.ltb_lt _ _) H) in Hc. cbn in Hc. by apply negb_false_iff, Z.eqb_eq in Hc. }
    exists ws', d', v'. split; [done|]. split; [done|]. split_and!; [|done|].
    + intros x Hx. rewrite Hws by done. destruct (decide (x = j)) as [->|Hne].
      * rewrite (proj2 (Z.leb_gt (j + 1) j)), (proj2 (Z.leb_le j j)) by lia. cbn [andb].
        destruct (Z.ltb_spec blocklen (SFS_NDIRECT + j)) as [H|]; [|done]. by rewrite Hb, (Hz H).
      * replace (j + 1 <=? x) with (j <=? x); [done|]. destruct (Z.leb_spec j x), (Z.leb_spec (j + 1) x); lia || done.
    + destruct R2 as [B1 B2 B3 B4]. split; [done| |done|done]. intros c. rewrite B2. split; intros [Hu Hf]; (split; [done|]).
      * intros (x & Hx & Hlx & Hgx & Hcx). destruct (decide (x = j)) as [->|]; [rewrite Hb in Hgx; injection Hgx as ->; by apply Hcx, Hz|].
        apply Hf. exists x. split_and!; [lia|lia|lia|done|done].
      * intros (x & Hx & Hlx & Hgx & Hcx). apply Hf. exists x. split_and!; [lia|lia|lia|done|done].
Qed.

(** Which blocks of the file a truncation to [blocklen] blocks keeps: the code compares the blocks of the
    indirect block with [<] where it compares the direct ones with [<=]. *)
Definition keeps (blocklen i : Z) : bool := if i <? SFS_NDIRECT then i <? blocklen else i <=? blocklen.
Definition keeps_indirect (blocklen i : Z) : bool := (i <? SFS_NDIRECT) || (i <=? blocklen).

Lemma ptr_indirect v n x : 0 ≤ x → sfi_indirect n ≠ 0 →
  ptr v n (SFS_NDIRECT + x) = default 0 (arr_get (words_of (blk v (sfi_indirect n))) x).
Proof.
  intros Hx Hne. unfold SfsFile.ptr. rewrite (proj2 (Z.ltb_ge _ _)), (proj2 (Z.eqb_neq _ 0)) by (done || lia). by rewrite Z.add_simpl_l.
Qed.

Lemma entries_of v n : file_wf v n → sfi_indirect n ≠ 0 → entries_ok v (words_of (blk v (sfi_indirect n))) 0.
Proof.
  intros Hwf Hne.
  assert (Hp : ∀ x b, arr_get (words_of (blk v (sfi_indirect n))) x = Some b → 0 ≤ SFS_NDIRECT + x < MAXBLOCKS ∧ ptr v n (SFS_NDIRECT + x) = b).
  { intros x b Hb. pose proof (arr_get_range _ _ _ Hb) as Hr. rewrite (indirect_words hw_read hw_write contents) in Hr.
    unfold MAXBLOCKS, SFS_NDIRECT, SFS_DBPERIDB in *. split; [lia|]. pose proof (ptr_indirect v n x) as E. unfold SFS_NDIRECT in E. rewrite E, Hb by (lia || done). done. }
  split.
  - by rewrite (indirect_words hw_read hw_write contents).
  - intros x b _ [Hi Hb]%Hp Hb0. destruct (fw_valid _ _ _ Hwf b) as [Hr Hu]; [|done]. split; [done|]. right. by exists (SFS_NDIRECT + x).
  - intros x y b _ _ [Hi Hx]%Hp [Hj Hy]%Hp Hb0. enough (SFS_NDIRECT + x = SFS_NDIRECT + y) by lia. apply (fw_inj _ _ _ Hwf); congruence.
Qed.

(** The file after the loop over the indirect block, which is kept with the entries that are left or given up. *)
Lemma indirect_cut v n v' n' blocklen :
  file_wf v n → sfi_indirect n ≠ 0 → sb_nblocks v' = sb_nblocks v → sfi_direct n' = sfi_direct n →
  (sfi_indirect n' = sfi_indirect n ∨ sfi_indirect n' = 0) → (∀ c, c ≠ sfi_indirect n → blk v' c = blk v c) →
  (∀ i, SFS_NDIRECT ≤ i < MAXBLOCKS → ptr v' n' i = if i <=? blocklen then ptr v n i else 0) →
  (∀ b, b ∈ used v' ↔ b ∈ used v ∧ ¬ freed (words_of (blk v (sfi_indirect n))) 0 blocklen b ∧ (sfi_indirect n' = 0 → b ≠ sfi_indirect n)) →
  shrunk v n v' n' ∧ ∀ i, 0 ≤ i < MAXBLOCKS → ptr v' n' i = if keeps_indirect blocklen i then ptr v n i else 0.
Proof.
  intros Hwf Hne Hnb Hdir Hind Hblk Hptr Hused.
  assert (Hk : ∀ i, 0 ≤ i < MAXBLOCKS → ptr v' n' i = if keeps_indirect blocklen i then ptr v n i else 0).
  { intros i Hi. unfold keeps_indirect. destruct (Z.ltb_spec i SFS_NDIRECT) as [Hlt|Hge]; [|apply Hptr; lia].
    unfold SfsFile.ptr. by rewrite (proj2 (Z.ltb_lt _ _)), Hdir. }
  assert (Hfree : ∀ b, freed (words_of (blk v (sfi_indirect n))) 0 blocklen b ↔
            b ≠ 0 ∧ ∃ i, 0 ≤ i < MAXBLOCKS ∧ keeps_indirect blocklen i = false ∧ ptr v n i = b).
  { intros b. unfold keeps_indirect, MAXBLOCKS. split.
    - intros (x & Hx & Hlx & Hgx & Hb). split; [done|]. exists (SFS_NDIRECT + x). rewrite ptr_indirect, Hgx by (done || lia).
      split_and!; [unfold SFS_NDIRECT; lia|lia| |done]. apply orb_false_iff. split; [apply Z.ltb_ge|apply Z.leb_gt]; lia.
    - intros (Hb & i & Hi & [Hk1%Z.ltb_ge Hk2%Z.leb_gt]%orb_false_iff & Hp). exists (i - SFS_NDIRECT). rewrite <- (Zplus_minus SFS_NDIRECT i), ptr_indirect in Hp by (done || lia).
      split_and!; [lia|lia|lia| |done]. destruct (arr_get _ _); cbn in Hp; congruence. }
  split; [|done]. split; [done|by rewrite Hdir; apply Hwf| |done| |].
  - intros i Hi. rewrite Hk by done. destruct (keeps_indirect _ _); [by left|by right].
  - intros c Hc. apply Hblk. destruct Hc; congruence.
  - intros b. rewrite Hused, Hfree. split.
    + intros (Hu & Hnf & Hnz). split; [done|]. intros [Hb0 [Hid|(i & Hi & Hp)]]; (split; [done|]).
      * left. destruct Hind as [|Hz]; [congruence|]. by destruct (Hnz Hz).
      * right. exists i. split; [done|]. rewrite Hk by done. destruct (keeps_indirect blocklen i) eqn:E; [done|]. exfalso. apply Hnf. split; [done|]. by exists i.
    + intros [Hu Ho]. split; [done|]. split.
      * intros (Hb0 & i & Hi & Hki & Hp). destruct Ho as [_ [E|(j & Hj & E)]]; [split; [done|]; right; by exists i| |].
        { destruct Hind as [E'|E']; [|congruence]. apply (fw_indirect _ _ _ Hwf i Hi); congruence. }
        rewrite Hk in E by done. destruct (keeps_indirect blocklen j) eqn:Hkj; [|congruence].
        assert (j = i) as -> by (apply (fw_inj _ _ _ Hwf); congruence). congruence.
      * intros Hz ->. destruct Ho as [_ [E|(j & Hj & E)]]; [split; [done|by left]|congruence|].
        rewrite Hk in E by done. destruct (keeps_indirect blocklen j); [|congruence]. by apply (fw_indirect _ _ _ Hwf j Hj); congruence.
Qed.

Lemma forallb_zero (l : list Z) : forallb (λ b, b =? 0) l = true → ∀ x, default 0 (arr_get l x) = 0.
Proof.
  intros H x. destruct (arr_get l x) as [b|] eqn:E; [|done]. apply arr_get_Some in E as [_ E].
  rewrite forallb_forall in H. apply Z.eqb_eq, H. by apply list_elem_of_In, (list_elem_of_lookup_2 _ _ _ E).
Qed.

(** The second half of [sfs_itrunc]. *)
Definition trunc_rest (ino blocklen : Z) (sv : sfs_vnode) : K vol (Z + unit) :=
  if (blocklen <? SFS_NDIRECT + SFS_DBPERIDB - 1) && negb (sfi_indirect (sv_i sv) =? 0) then
    ebind (sfs_readblock hw_read hw_write (sfi_indirect (sv_i sv))) (λ data,
      '(idbuf, iddirty) ← trunc_indirect 128 0 blocklen (words_of data) false;
      if forallb (λ b, b =? 0) idbuf then
        sfs_bfree (sfi_indirect (sv_i sv)) ;; modify (set_node ino (set_indirect 0 sv)) ;; mret (inr tt)
      else if iddirty : bool then sfs_writeblock hw_read hw_write (sfi_indirect (sv_i sv)) (bytes_of idbuf)
      else mret (inr tt))
  else mret (inr tt).

(** The entries that the loop leaves, as words of a block. *)
Lemma entries_left ws ws' blocklen :
  words_ok ws → (∀ x, 0 ≤ x < SFS_DBPERIDB → arr_get ws' x = if (0 <=? x) && (blocklen <? SFS_NDIRECT + x) then Some 0 else arr_get ws x) →
  zlen ws' = SFS_DBPERIDB → words_ok ws'.
Proof.
  intros Hws Heq Hl. apply Forall_lookup. intros k w Hw. assert (Hk : (k < length ws')%nat) by (by eapply lookup_lt_Some).
  specialize (Heq (Z.of_nat k) ltac:(lia)). rewrite !arr_get_nonneg, Nat2Z.id, Hw in Heq by lia.
  destruct (_ && _); [by injection Heq as ->|]. by apply (proj1 (Forall_lookup _ _) Hws k).
Qed.

Lemma ptr_left v n v' n' ws' blocklen i :
  sfi_indirect n ≠ 0 → SFS_NDIRECT ≤ i < MAXBLOCKS →
  (∀ x, 0 ≤ x < SFS_DBPERIDB → arr_get ws' x =
    if (0 <=? x) && (blocklen <? SFS_NDIRECT + x) then Some 0 else arr_get (words_of (blk v (sfi_indirect n))) x) →
  ptr v' n' i = default 0 (arr_get ws' (i - SFS_NDIRECT)) → ptr v' n' i = if i <=? blocklen then ptr v n i else 0.
Proof.
  intros Hne Hi Hws Hp. unfold MAXBLOCKS in Hi. rewrite Hp, Hws by lia. rewrite (proj2 (Z.leb_le 0 _)) by lia. cbn [andb].
  rewrite Zplus_minus. destruct (Z.ltb_spec blocklen i) as [H|H]; [by rewrite (proj2 (Z.leb_gt _ _))|].
  rewrite (proj2 (Z.leb_le _ _)) by lia. rewrite <- ptr_indirect, Zplus_minus by (done || lia). done.
Qed.

(** The volume after the loop over the indirect block, of which nothing is written yet. *)
Record looped v n v2 ws' blocklen : Prop := {
  lp_ok : vol_ok v2;
  lp_blk : ∀ c, blk v2 c = blk v c;
  lp_used : ∀ b, b ∈ used v2 ↔ b ∈ used v ∧ ¬ freed (words_of (blk v (sfi_indirect n))) 0 blocklen b;
  lp_same : d_blocks v2 = d_blocks v ∧ sb_nblocks v2 = sb_nblocks v ∧ nodes v2 = nodes v ∧ kmem v2 = kmem v;
  lp_len : zlen ws' = SFS_DBPERIDB;
  lp_ws : ∀ x, 0 ≤ x < SFS_DBPERIDB → arr_get ws' x =
    if (0 <=? x) && (blocklen <? SFS_NDIRECT + x) then Some 0 else arr_get (words_of (blk v (sfi_indirect n))) x;
}.

Lemma indirect_not_freed v n blocklen : file_wf v n → sfi_indirect n ≠ 0 →
  ¬ freed (words_of (blk v (sfi_indirect n))) 0 blocklen (sfi_indirect n).
Proof.
  intros Hwf Hne (x & Hx & _ & Hg & _). assert (Hp : ptr v n (SFS_NDIRECT + x) = sfi_indirect n) by (by rewrite ptr_indirect, Hg by (done || lia)).
  apply (fw_indirect _ _ _ Hwf (SFS_NDIRECT + x)); unfold MAXBLOCKS, SFS_NDIRECT in *; [lia|congruence|done].
Qed.

(** No entry is left: the indirect block is freed. *)
Lemma cut_freed ino sv v v2 ws' blocklen :
  loaded ino sv v → sfi_indirect (sv_i sv) ≠ 0 → looped v (sv_i sv) v2 ws' blocklen → forallb (λ b, b =? 0) ws' = true →
  ∃ v', (sfs_bfree (sfi_indirect (sv_i sv)) ;; modify (set_node ino (set_indirect 0 sv)) ;; mret (inr tt : Z + unit)) v2 = Ret (inr tt) v' ∧
    cut ino sv v (set_indirect 0 sv) v' (keeps_indirect blocklen).
Proof.
  intros [Hn Hok Hwf] Hne [L1 L2 L3 (L4 & L5 & L6 & L7) L8 L9] Hz.
  destruct (fw_valid _ _ _ Hwf (sfi_indirect (sv_i sv))) as [Hr Hu]; [split; [done|by left]|].
  destruct (bfree_run contents (sfi_indirect (sv_i sv)) v2 L1) as (v3 & Hrun & Hused & Hok3 & Hblk & Hdb & Hnb & Hnodes & Hk).
  { apply L3. split; [done|by apply indirect_not_freed]. }
  { by rewrite L5. }
  rewrite (run_bind_ret _ _ _ _ _ Hrun), run_modify. eexists. split; [done|]. set (v' := set_node _ _ v3).
  destruct (indirect_cut v (sv_i sv) v' (sv_i (set_indirect 0 sv)) blocklen) as [S K]; try done.
  - cbn. congruence.
  - by right.
  - intros c _. change (blk v' c) with (blk v3 c). by rewrite Hblk, L2.
  - intros i Hi. apply (ptr_left v _ _ _ ws'); [done|done|done|]. rewrite forallb_zero by done.
    unfold SfsFile.ptr. rewrite (proj2 (Z.ltb_ge _ _)) by lia. done.
  - intros b. change (used v') with (used v3). rewrite Hused, elem_of_difference, elem_of_singleton, L3. cbn. tauto.
  - destruct Hok3. split; [by split|cbn; by rewrite Hnodes, L6|cbn; congruence|cbn; congruence|done|by right|done|done].
Qed.

(** The volume with a new indirect block, or the old one where nothing was freed. *)
Lemma cut_left ino sv v v2 v' ws' blocklen :
  loaded ino sv v → sfi_indirect (sv_i sv) ≠ 0 → looped v (sv_i sv) v2 ws' blocklen →
  words_of (blk v' (sfi_indirect (sv_i sv))) = ws' → (∀ c, c ≠ sfi_indirect (sv_i sv) → blk v' c = blk v2 c) →
  freemap v' = freemap v2 → d_blocks v' = d_blocks v2 → sb_nblocks v' = sb_nblocks v2 → nodes v' = nodes v2 → kmem v' = kmem v2 →
  cut ino sv v sv v' (keeps_indirect blocklen).
Proof.
  intros [Hn Hok Hwf] Hne [L1 L2 L3 (L4 & L5 & L6 & L7) L8 L9] Hw Hblk Hfm Hdb Hnb Hnodes Hk.
  destruct (indirect_cut v (sv_i sv) v' (sv_i sv) blocklen) as [S K]; try done.
  - congruence.
  - by left.
  - intros c Hc. by rewrite Hblk, L2.
  - intros i Hi. apply (ptr_left v _ _ _ ws'); [done|done|done|].
    rewrite <- (Zplus_minus SFS_NDIRECT i) at 1. rewrite ptr_indirect, Hw by (done || lia). done.
  - intros b. unfold used in *. rewrite Hfm, L3. tauto.
  - split; try done; [| |congruence|congruence|by left].
    + destruct L1. split; unfold used in *; rewrite ?Hfm, ?Hdb, ?Hnb; done.
    + by rewrite Hnodes, L6, insert_id.
Qed.

Lemma cut_written ino sv v v2 ws' blocklen :
  loaded ino sv v → sfi_indirect (sv_i sv) ≠ 0 → looped v (sv_i sv) v2 ws' blocklen →
  ∃ v', sfs_writeblock hw_read hw_write (sfi_indirect (sv_i sv)) (bytes_of ws') v2 = Ret (inr tt) v' ∧
    cut ino sv v sv v' (keeps_indirect blocklen).
Proof.
  intros Hl Hne L. pose proof Hl as [Hn Hok Hwf]. pose proof (lp_same _ _ _ _ _ L) as (L4 & L5 & L6 & L7).
  destruct (fw_valid _ _ _ Hwf (sfi_indirect (sv_i sv))) as [Hr Hu]; [split; [done|by left]|].
  pose proof (vo_disk _ Hok). pose proof (vo_size _ Hok).
  destruct (writeblock_run hw_read hw_write contents (sfi_indirect (sv_i sv)) (bytes_of ws') v2) as (v' & Hw & W).
  { rewrite L4. lia. }
  { by rewrite L4. }
  { rewrite length_bytes_of, (lp_len _ _ _ _ _ L). done. }
  { apply bytes_of_ok. }
  exists v'. split; [done|]. destruct W as [W1 W2 W3 W4 W5 W6]. apply (cut_left ino sv v v2 v' ws'); try done.
  - rewrite W1, decide_True by done. apply words_bytes, (entries_left _ _ blocklen (words_in_range _ (disk_bytes (dev v) (sfi_indirect (sv_i sv))))); apply L.
  - intros c Hc. by rewrite W1, decide_False.
Qed.

Lemma all_cut v n v2 ws' blocklen : looped v n v2 ws' blocklen → blocklen < SFS_NDIRECT → forallb (λ b, b =? 0) ws' = true.
Proof.
  intros L Hb. apply forallb_forall. intros b Hin%list_elem_of_In. apply list_elem_of_lookup in Hin as [k Hk].
  pose proof (lookup_lt_Some _ _ _ Hk) as Hl. pose proof (lp_len _ _ _ _ _ L) as Hlen.
  pose proof (lp_ws _ _ _ _ _ L (Z.of_nat k) ltac:(lia)) as Hw. rewrite (proj2 (Z.leb_le 0 _)), (proj2 (Z.ltb_lt _ _)) in Hw by lia.
  rewrite arr_get_nonneg, Nat2Z.id, Hk in Hw by lia. cbn in Hw. by injection Hw as ->.
Qed.

Lemma trunc_rest_run ino sv v blocklen :
  loaded ino sv v → ∃ sv' v', trunc_rest ino blocklen sv v = Ret (inr tt) v' ∧ cut ino sv v sv' v' (keeps_indirect blocklen) ∧
    (blocklen < SFS_NDIRECT → sfi_indirect (sv_i sv') = 0).
Proof.
  intros Hl. pose proof Hl as [Hn Hok Hwf]. unfold trunc_rest.
  destruct ((blocklen <? SFS_NDIRECT + SFS_DBPERIDB - 1) && negb (sfi_indirect (sv_i sv) =? 0)) eqn:Hc.
  2: { exists sv, v. split; [done|]. split.
       2: { intros Hb. rewrite (proj2 (Z.ltb_lt _ _)) in Hc by (unfold SFS_NDIRECT, SFS_DBPERIDB in *; lia). by apply negb_false_iff, Z.eqb_eq in Hc. }
       apply cut_none; [done|]. intros i Hi. unfold keeps_indirect.
       destruct (Z.ltb_spec i SFS_NDIRECT) as [|Hge]; [by left|]. destruct (Z.leb_spec i blocklen); [by left|right].
       unfold MAXBLOCKS in Hi. rewrite (proj2 (Z.ltb_lt _ _)) in Hc by lia. cbn in Hc. apply negb_false_iff in Hc.
       unfold SfsFile.ptr. by rewrite (proj2 (Z.ltb_ge _ _)), Hc. }
  apply andb_true_iff in Hc as [_ Hne%negb_true_iff%Z.eqb_neq]. unfold ebind.
  destruct (fw_valid _ _ _ Hwf (sfi_indirect (sv_i sv))) as [Hr Hu]; [split; [done|by left]|].
  pose proof (vo_disk _ Hok). pose proof (vo_size _ Hok).
  destruct (readblock_run hw_read hw_write contents (sfi_indirect (sv_i sv)) v) as (v1 & Hrd & Ha); [lia|done|].
  rewrite (run_bind_ret _ _ _ _ _ Hrd).
  assert (He : entries_ok v1 (words_of (blk v (sfi_indirect (sv_i sv)))) 0).
  { rewrite <- (al_blk _ _ _ Ha). apply entries_of; [by eapply (alike_wf contents)|done]. }
  destruct (trunc_indirect_run v1 _ 0 blocklen false 128 ltac:(by rewrite <- Ha) He) as (ws' & d' & v2 & Hrun & Hlen & Hws & Hd' & R); [lia|done|].
  rewrite (run_bind_ret _ _ _ _ _ Hrun). cbv beta iota.
  assert (L : looped v (sv_i sv) v2 ws' blocklen).
  { destruct R as [R1 R2 R3 (R4 & R5 & R6 & R7)]. destruct Ha as [A1 A2 A3 A4 A5 A6].
    split; try done; [intros c; by rewrite R3, A1|intros b; rewrite R2; unfold used; by rewrite A4|split_and!; congruence]. }
  assert (Hall : forallb (λ b, b =? 0) ws' = false → ¬ blocklen < SFS_NDIRECT) by (intros Hz Hb; by rewrite (all_cut _ _ _ _ _ L Hb) in Hz).
  destruct (forallb (λ b, b =? 0) ws') eqn:Hz; [|destruct d'].
  - destruct (cut_freed ino sv v v2 ws' blocklen) as (v' & Hv' & C); [done..|]. eexists _, v'. split; [done|]. by split.
  - destruct (cut_written ino sv v v2 ws' blocklen) as (v' & Hv' & C); [done..|]. eexists _, v'. split; [done|]. split; [done|]. intros Hb. by destruct (Hall eq_refl).
  - exists sv, v2. split; [done|]. split; [|intros Hb; by destruct (Hall eq_refl)]. eapply (cut_left ino sv v v2 v2 ws'); try done.
    destruct (Hd' eq_refl) as [_ ->]. by rewrite (lp_blk _ _ _ _ _ L).
Qed.

Lemma cut_step ino sv v sv' v' keep : loaded ino sv v → cut ino sv v sv' v' keep → step ino sv v sv' v'.
Proof. intros Hl C. apply shrunk_step; [done|apply C|apply C|apply C|apply C]. Qed.

Lemma itrunc_run ino sv v len :
  loaded ino sv v → 0 ≤ len < 2 ^ 32 →
  ∃ sv2 v2, sfs_itrunc hw_read hw_write ino len v = Ret (inr tt) (set_node ino (set_size len sv2) v2) ∧
    cut ino sv v sv2 v2 (keeps ((len + 511) / 512)) ∧ ((len + 511) / 512 < SFS_NDIRECT → sfi_indirect (sv_i sv2) = 0).
Proof.
  intros Hl Hlen. set (blocklen := (len + 511) / 512).
  assert (Hbl : u32 ((len + SFS_BLOCKSIZE - 1) / SFS_BLOCKSIZE) = blocklen).
  { unfold SFS_BLOCKSIZE, blocklen. replace (len + 512 - 1) with (len + 511) by lia. apply wrap_small.
    split; [apply Z.div_pos; lia|apply Z.div_lt_upper_bound; lia]. }
  unfold sfs_itrunc. rewrite Hbl. destruct (trunc_direct_run ino sv v blocklen 15 0 Hl) as (sv1 & v1 & Hrun1 & Hind & C1); [lia|done|].
  rewrite (run_bind_ret _ _ _ _ _ Hrun1). pose proof (cut_loaded _ _ _ _ _ _ Hl C1) as Hl1. rewrite (get_node_run ino sv1) by apply Hl1.
  destruct (trunc_rest_run ino sv1 v1 blocklen Hl1) as (sv2 & v2 & Hrun2 & C2 & Hz). unfold ebind at 1.
  unfold trunc_rest in Hrun2. rewrite (run_bind_ret _ _ _ _ _ Hrun2). pose proof (cut_loaded _ _ _ _ _ _ Hl1 C2) as Hl2.
  rewrite (get_node_run ino sv2) by apply Hl2. rewrite (wrap_small 32 len), run_modify by done.
  exists sv2, v2. split; [done|]. split; [|done].
  eapply cut_trans; [exact C1|exact C2|]. intros i Hi. unfold keeps, keeps_indirect. rewrite (proj2 (Z.leb_le 0 i)) by lia. cbn [andb].
  destruct (Z.ltb_spec i SFS_NDIRECT), (Z.leb_spec blocklen i), (Z.ltb_spec i blocklen), (Z.leb_spec i blocklen); try done; lia.
Qed.

Lemma cut_fblock ino sv v sv' v' keep i :
  loaded ino sv v → cut ino sv v sv' v' keep → 0 ≤ i < MAXBLOCKS →
  fblock v' (sv_i sv') i = if keep i then fblock v (sv_i sv) i else replicate 512 0.
Proof.
  intros Hl C Hi. unfold SfsFile.fblock. rewrite (ct_keep _ _ _ _ _ _ C) by done. destruct (keep i); [|done].
  destruct (Z.eqb_spec (ptr v (sv_i sv) i) 0) as [|Hp]; [done|]. apply (sk_blk _ _ _ _ (ct_shrunk _ _ _ _ _ _ C)). right. by apply (fw_indirect _ _ _ (ld_wf _ _ _ _ Hl)).
Qed.

(** C12: truncating a file to [len] bytes, [blocklen] blocks: [sfs_itrunc] succeeds, sets the size, and gives up blocks of the
    file: the direct blocks from number [blocklen] on, and the blocks of the indirect block after number [blocklen] -- block
    number [blocklen] itself stays when it is in the indirect block.  The blocks that are kept have their contents, so the bytes
    before [len] are as they were; a block is still in use exactly when it was and the file did not give it up; the other
    files are as before and the volume is well formed. *)
Theorem sfs_itrunc_cuts ino sv v len :
  vol_wf v → nodes v !! ino = Some sv → 0 ≤ len < 2 ^ 32 →
  let blocklen := (len + 511) / 512 in
  ∃ sv' v', sfs_itrunc hw_read hw_write ino len v = Ret (inr tt) v' ∧ vol_wf v' ∧
    sfi_size (sv_i sv') = len ∧ same_meta (sv_i sv) (sv_i sv') ∧
    nodes v' = <[ino := sv']> (nodes v) ∧ kmem v' = kmem v ∧
    (∀ i, 0 ≤ i < MAXBLOCKS → fblock v' (sv_i sv') i = if keeps blocklen i then fblock v (sv_i sv) i else replicate 512 0) ∧
    (∀ p, 0 ≤ p < len → p < MAXFILE → fbyte v' (sv_i sv') p = fbyte v (sv_i sv) p) ∧
    (∀ b, b ∈ used v' ↔ b ∈ used v ∧ (owns v (sv_i sv) b → owns v' (sv_i sv') b)) ∧
    ∀ j sw, j ≠ ino → nodes v !! j = Some sw → nodes v' !! j = Some sw ∧ file_kept contents v v' (sv_i sw).
Proof.
  intros W Hn Hlen blocklen. pose proof (vol_wf_loaded contents v ino sv W Hn) as Hl.
  destruct (itrunc_run ino sv v len Hl Hlen) as (sv2 & v2 & Hrun & C & _).
  pose proof (step_trans contents _ _ _ _ _ _ _ (cut_step _ _ _ _ _ _ Hl C) (step_resize contents ino sv2 v2 len (cut_loaded _ _ _ _ _ _ Hl C))) as S.
  destruct (vol_wf_step contents ino sv v _ _ W Hn S) as [W' Hoth]. pose proof (λ i, cut_fblock _ _ _ _ _ _ i Hl C) as Hf.
  destruct C as [K1 K2 K3 K4 (K5 & K6 & K7 & K7') K0 K8 K9].
  eexists (set_size len sv2), _. split; [done|]. split; [done|]. split_and!; try done.
  - apply S.
  - intros p Hp Hpm. change (fbyte v2 (sv_i sv2) p = fbyte v (sv_i sv) p). unfold SfsFile.fbyte. unfold MAXFILE, SFS_BLOCKSIZE in Hpm.
    rewrite Hf by (split; [apply Z.div_pos; lia|apply Z.div_lt_upper_bound; lia]).
    assert (Hk : p / 512 < blocklen) by (unfold blocklen; apply Z.div_lt_upper_bound; [lia|]; pose proof (Z.div_mod (len + 511) 512); pose proof (Z.mod_pos_bound (len + 511) 512); lia).
    assert (Hkk : keeps blocklen (p / 512) = true) by (unfold keeps; destruct (p / 512 <? SFS_NDIRECT); [by apply Z.ltb_lt|apply Z.leb_le; lia]).
    fold blocklen. by rewrite Hkk.
  - apply (sk_used _ _ _ _ K8).
Qed.

End trunc.
