(* ===== verification/SfsDir.v ===== *)
(** * SfsDir: directories (kern/fs/sfs/sfs_dir.c, on sfs_metaio of sfs_io.c)

    A directory is a file of entries of 64 bytes; seen from outside it is a finite map from names to inode numbers.
    Searching, linking and unlinking do to that map what their names say. *)

From Stdlib Require Import ZArith Lia.
From stdpp Require Import base gmap list option strings list_numbers.
From S2P Require Import Prelude Types Strings Bitmap Uio Sfs Disk SfsFile SfsIo SfsVol.
Set Default Goal Selector "!".
Open Scope Z_scope.

(** ** Entries as bytes *)

Lemma length_encode ino name : length name = 60%nat → length (encode_entry (Direntry ino name)) = 64%nat.
Proof. intros H. unfold encode_entry. rewrite length_app. cbn. lia. Qed.

Lemma decode_encode ino name : 0 ≤ ino < 2 ^ 32 → decode_entry (encode_entry (Direntry ino name)) = Direntry ino name.
Proof.
  intros Hi. unfold encode_entry, decode_entry. cbn [sfd_ino sfd_name bytes_of_word app words_of].
  rewrite arr_get_hd, word_bytes by done. done.
Qed.

(** A name of a file: up to 59 bytes, none of which is the terminator. *)
Definition name_ok (name : list Z) : Prop := Forall (λ c, 0 < c < 256) name ∧ zlen name < SFS_NAMELEN.

Definition padded (name : list Z) : list Z := name ++ replicate (Z.to_nat (SFS_NAMELEN - zlen name)) 0.

Lemma length_padded name : zlen name < SFS_NAMELEN → length (padded name) = 60%nat.
Proof. intros H. unfold padded, SFS_NAMELEN in *. rewrite length_app, length_replicate. lia. Qed.

Lemma c_string_app name l : Forall (λ c, 0 < c < 256) name → c_string (name ++ 0 :: l) = name.
Proof.
  induction 1 as [|c name Hc _ IH]; [done|]. cbn. rewrite (proj2 (Z.eqb_neq c 0)) by lia. by rewrite IH.
Qed.

Lemma entry_name_padded ino name : name_ok name → entry_name (Direntry ino (padded name)) = name.
Proof.
  intros [Hn Hl]. unfold entry_name. cbn [sfd_name]. rewrite arr_set_id.
  - unfold padded, SFS_NAMELEN in *. destruct (Z.to_nat (60 - zlen name)) as [|k] eqn:E; [lia|]. by apply c_string_app.
  - unfold padded, SFS_NAMELEN in *. rewrite arr_get_nonneg, lookup_app_r by lia. apply lookup_replicate_2. lia.
Qed.

(** ** Counting *)

Lemma count_insert (l : list Z) i a b x :
  l !! i = Some b →
  zlen (filter (λ y, y = x) (<[i := a]> l)) =
    zlen (filter (λ y, y = x) l) - (if decide (b = x) then 1 else 0) + (if decide (a = x) then 1 else 0).
Proof.
  revert i. induction l as [|c l IH]; intros [|i] Hb; try done; cbn in Hb.
  - injection Hb as ->. cbn [insert list_insert]. rewrite !filter_cons. repeat case_decide; cbn [length]; lia.
  - change (<[S i := a]> (c :: l)) with (c :: <[i := a]> l). rewrite !filter_cons. specialize (IH i Hb). destruct (decide (c = x)); cbn [length]; rewrite ?Nat2Z.inj_succ; lia.
Qed.

Lemma count_snoc (l : list Z) a x :
  zlen (filter (λ y, y = x) (l ++ [a])) = zlen (filter (λ y, y = x) l) + (if decide (a = x) then 1 else 0).
Proof. rewrite filter_app, length_app, filter_cons, filter_nil. case_decide; cbn [length]; lia. Qed.

Section dir.
Context {D : Type} (hw_read : D → Z → D * (Z + list Z)) (hw_write : D → Z → list Z → D * Z) (contents : D → Z → list Z).
Context `{Hd : !DiskLaws hw_read hw_write contents}.
Implicit Types v : vol (D := D).
Implicit Types n : sfs_dinode.

Local Abbreviation blk := (blk contents).
Local Abbreviation alike := (alike contents).
Local Abbreviation written := (written contents).
Local Abbreviation ptr := (ptr contents).
Local Abbreviation fblock := (fblock contents).
Local Abbreviation fbyte := (fbyte contents).
Local Abbreviation loaded := (loaded contents).
Local Abbreviation step := (step contents).
Local Abbreviation extended := (extended contents).
Local Abbreviation vol_wf := (vol_wf contents).

Definition fbytes v n (p k : Z) : list Z := fbyte v n <$> seqZ p k.

Lemma fbytes_block v n p k :
  0 ≤ p → 0 ≤ k → p mod 512 + k ≤ 512 →
  fbytes v n p k = take (Z.to_nat k) (drop (Z.to_nat (p mod 512)) (fblock v n (p / 512))).
Proof.
  intros Hp Hk Hb. pose proof (Z.mod_pos_bound p 512 ltac:(lia)) as Hm. pose proof (length_fblock hw_read hw_write contents v n (p / 512)) as Hl.
  apply list_eq. intros i. unfold fbytes. rewrite list_lookup_fmap. destruct (decide (Z.of_nat i < k)) as [Hi|Hi].
  - rewrite lookup_seqZ_lt, lookup_take_lt, lookup_drop by lia. cbn. rewrite (fbyte_at contents) by lia.
    rewrite arr_get_nonneg by lia. replace (Z.to_nat (p mod 512 + Z.of_nat i)) with (Z.to_nat (p mod 512) + i)%nat by lia.
    destruct (lookup_lt_is_Some_2 (fblock v n (p / 512)) (Z.to_nat (p mod 512) + i)) as [x Hx]; [lia|]. by rewrite Hx.
  - rewrite lookup_seqZ_ge by lia. cbn. symmetry. apply lookup_ge_None. rewrite length_take. lia.
Qed.

(** ** sfs_metaio *)

Lemma metaio_read ino sv v p k :
  loaded ino sv v → 0 ≤ p < MAXFILE → 0 ≤ k → p mod 512 + k ≤ 512 →
  ∃ v', sfs_metaio hw_read hw_write ino p k None v = Ret (inr (fbytes v (sv_i sv) p k)) v' ∧ alike v v'.
Proof.
  intros Hl Hp Hk Hb. pose proof Hl as [Hn Hok Hwf]. unfold sfs_metaio, SFS_BLOCKSIZE.
  unfold MAXFILE, SFS_BLOCKSIZE in Hp. pose proof (Z.mod_pos_bound p 512 ltac:(lia)) as Hm.
  assert (Hi : 0 ≤ p / 512 < MAXBLOCKS) by (split; [apply Z.div_pos; lia|apply Z.div_lt_upper_bound; lia]).
  rewrite (wrap_small 32 (p / 512)) by (unfold MAXBLOCKS, SFS_NDIRECT, SFS_DBPERIDB in Hi; lia). rewrite (wrap_small 32 (p mod 512)) by lia.
  destruct (bmap_lookup hw_read hw_write contents ino sv _ v Hok Hn Hwf Hi) as (v1 & Hrun & Ha). unfold ebind at 1.
  rewrite (run_bind_ret _ _ _ _ _ Hrun). destruct (Z.eqb_spec (ptr v (sv_i sv) (p / 512)) 0) as [Hz|Hz].
  - rewrite run_assert by done. eexists. split; [|done]. unfold mret, K_ret. do 2 f_equal. rewrite fbytes_block by lia.
    unfold SfsFile.fblock. rewrite Hz. cbn [Z.eqb]. rewrite drop_replicate, take_replicate. f_equal. lia.
  - destruct (fw_valid _ _ _ Hwf _ (ptr_owns contents _ _ _ Hi Hz)) as [Hr _]. pose proof (vo_disk _ Hok). pose proof (vo_size _ Hok).
    destruct (readblock_run hw_read hw_write contents (ptr v (sv_i sv) (p / 512)) v1) as (v2 & Hrd & Ha2); [rewrite (al_blocks _ _ _ Ha); lia|by rewrite (al_blocks _ _ _ Ha)|].
    unfold ebind. rewrite (run_bind_ret _ _ _ _ _ Hrd). exists v2. split; [|by etrans]. unfold mret, K_ret. do 2 f_equal. rewrite fbytes_block by lia.
    unfold SfsFile.fblock. rewrite (proj2 (Z.eqb_neq _ 0)) by done. by rewrite (al_blk _ _ _ Ha).
Qed.

(** What writing part of a block of metadata did. *)
Record meta_written ino sv v p (l : list Z) sv' v' : Prop := {
  mw_step : step ino sv v sv' v';
  mw_size : sfi_size (sv_i sv') = Z.max (sfi_size (sv_i sv)) (p + zlen l);
  mw_type : same_meta (sv_i sv) (sv_i sv');
  mw_kmem : kmem v' = kmem v;
  mw_used : ptr v (sv_i sv) (p / 512) ≠ 0 → used v' = used v;
  mw_file : ∀ q, 0 ≤ q < MAXFILE →
    fbyte v' (sv_i sv') q = if decide (p ≤ q < p + zlen l) then default 0 (arr_get l (q - p)) else fbyte v (sv_i sv) q;
}.

Lemma metaio_write ino sv v p l :
  loaded ino sv v → 0 ≤ p < 2 ^ 32 → p mod 512 + zlen l ≤ 512 → bytes_ok l →
  ∃ r sv' v', sfs_metaio hw_read hw_write ino p (zlen l) (Some l) v = Ret r v' ∧
    match r with
    | inl e => extended ino sv v sv' v' ∧ (e = EFBIG ∧ MAXFILE ≤ p ∨ e = ENOSPC ∧ full v' ∧ ptr v (sv_i sv) (p / 512) = 0)
    | inr _ => p + zlen l ≤ MAXFILE ∧ meta_written ino sv v p l sv' v'
    end.
Proof.
  intros Hl Hp Hb Hok. unfold sfs_metaio, SFS_BLOCKSIZE. pose proof (Z.mod_pos_bound p 512 ltac:(lia)) as Hm. pose proof (Z.div_mod p 512 ltac:(lia)) as Hdm.
  assert (Hq : 0 ≤ p / 512) by (apply Z.div_pos; lia). unfold MAXFILE, SFS_BLOCKSIZE.
  rewrite (wrap_small 32 (p / 512)) by (split; [done|apply Z.div_lt_upper_bound; lia]). rewrite (wrap_small 32 (p mod 512)) by lia.
  unfold ebind at 1. destruct (decide (p / 512 < MAXBLOCKS)) as [Hlt|Hge].
  2: { rewrite run_bind, bmap_big by lia. eexists (inl EFBIG), sv, v. split; [done|]. split; [by apply extended_alike|]. left. split; [done|lia]. }
  destruct (bmap_alloc hw_read hw_write contents ino sv (p / 512) v Hl ltac:(lia)) as (r & sv1 & v1 & Hrun & E & Hpost).
  rewrite (run_bind_ret _ _ _ _ _ Hrun). destruct r as [e|b]; [exists (inl e), sv1, v1; split; [done|]; split; [done|by right]|].
  destruct Hpost as [<- Hz]. pose proof (st_loaded _ _ _ _ _ _ (ex_step _ _ _ _ _ _ E)) as Hl1. pose proof Hl1 as [Hn1 Hok1 Hwf1].
  rewrite (proj2 (Z.eqb_neq _ 0)) by done.
  destruct (read_fblock hw_read hw_write contents ino sv1 v1 (p / 512) EmptyString Hl1 ltac:(lia)) as (v2 & Hrd & Ha). rewrite (proj2 (Z.eqb_neq _ 0)) in Hrd by done.
  unfold ebind at 1. rewrite (run_bind_ret _ _ _ _ _ Hrd). unfold ebind.
  destruct (fw_valid _ _ _ Hwf1 _ (ptr_owns contents _ _ _ (conj Hq Hlt) Hz)) as [Hr _]. pose proof (vo_disk _ Hok1). pose proof (vo_size _ Hok1).
  pose proof (length_fblock hw_read hw_write contents v1 (sv_i sv1) (p / 512)) as Hfl.
  destruct (writeblock_run hw_read hw_write contents (ptr v1 (sv_i sv1) (p / 512)) (splice (fblock v1 (sv_i sv1) (p / 512)) (p mod 512) l) v2) as (v3 & Hw & W).
  { rewrite (al_blocks _ _ _ Ha). lia. }
  { by rewrite (al_blocks _ _ _ Ha). }
  { rewrite length_splice by lia. exact Hfl. }
  { apply bytes_splice; [apply (fblock_bytes hw_read hw_write contents)|done]. }
  rewrite (run_bind_ret _ _ _ _ _ Hw). destruct (fblock_alike contents v1 v2 (sv_i sv1) (p / 512) Ha) as [Hf Hpe].
  destruct (spliced hw_read hw_write contents ino sv v sv1 v2 v3 p l) as [S F]; [|lia|done|lia|by rewrite Hpe|by rewrite Hpe, Hf|].
  { eapply extended_trans; [exact E|]. by apply extended_alike. }
  destruct (ex_same _ _ _ _ _ _ E) as [(E1 & E2 & E3) _]. pose proof (st_loaded _ _ _ _ _ _ S) as Hl3.
  assert (Hk3 : kmem v3 = kmem v) by (rewrite (wr_kmem _ _ _ _ _ W), (al_kmem _ _ _ Ha); apply E).
  assert (Hu3 : ptr v (sv_i sv) (p / 512) ≠ 0 → used v3 = used v).
  { intros Hp0. pose proof (bmap_mapped hw_read hw_write contents ino sv (p / 512) v _ v1 Hl (conj Hq Hlt) Hp0 Hrun) as Ha0.
    unfold used. by rewrite (wr_freemap _ _ _ _ _ W), (al_freemap _ _ _ Ha), (al_freemap _ _ _ Ha0). }
  rewrite (get_node_run ino sv1) by apply Hl3. rewrite E1.
  unfold MAXBLOCKS, SFS_NDIRECT, SFS_DBPERIDB in *.
  destruct (Z.ltb_spec (sfi_size (sv_i sv)) (p + zlen l)) as [Hs|Hs].
  - rewrite run_modify. rewrite (wrap_small 32) by lia. eexists (inr l), (set_size (p + zlen l) sv1), _. split; [done|]. split; [lia|].
    split; [eapply step_trans; [exact S|by apply step_resize]|cbn; lia|done|done|exact Hu3|exact F].
  - rewrite run_mret. eexists (inr l), sv1, v3. split; [done|]. split; [lia|]. split; [done|lia|done|done|exact Hu3|exact F].
Qed.

(** ** A directory *)

Definition slot v n (i : Z) : sfs_direntry := decode_entry (fbytes v n (i * sizeof_direntry) sizeof_direntry).
Definition nslots n : Z := sfi_size n / sizeof_direntry.
Definition live v n (i : Z) : Prop := 0 ≤ i < nslots n ∧ sfd_ino (slot v n i) ≠ SFS_NOINO.

(** The map of a directory, and the names in it once. *)
Definition dir_maps v n (name : list Z) (ino : Z) : Prop :=
  ∃ i, live v n i ∧ entry_name (slot v n i) = name ∧ sfd_ino (slot v n i) = ino.

(** The inode numbers in the slots, and how many of them are [x]. *)
Definition slot_inos v n : list Z := (λ i, sfd_ino (slot v n i)) <$> seqZ 0 (nslots n).
Definition links v n (x : Z) : Z := zlen (filter (λ y, y = x) (slot_inos v n)).

Record dir_wf v n : Prop := {
  dw_type : sfi_type n = SFS_TYPE_DIR;
  dw_size : sfi_size n = nslots n * sizeof_direntry;
  dw_range : 0 ≤ sfi_size n ≤ MAXFILE;
  dw_once : ∀ i j, live v n i → live v n j → entry_name (slot v n i) = entry_name (slot v n j) → i = j;
}.

Lemma slot_in_block i : 0 ≤ i → (i * 64) mod 512 + 64 ≤ 512.
Proof.
  intros Hi. replace 512 with (8 * 64) at 1 by lia. rewrite Z.mul_mod_distr_r by lia. pose proof (Z.mod_pos_bound i 8). lia.
Qed.

Lemma slot_alike v v' n i : alike v v' → slot v' n i = slot v n i.
Proof.
  intros Ha. unfold slot, fbytes. f_equal. apply list_fmap_ext. intros k p _. unfold SfsFile.fbyte.
  by destruct (fblock_alike contents v v' n (p / 512) Ha) as [-> _].
Qed.

Lemma readdir_run ino sv v i :
  loaded ino sv v → dir_wf v (sv_i sv) → 0 ≤ i < nslots (sv_i sv) →
  ∃ v', sfs_readdir hw_read hw_write ino i v = Ret (inr (slot v (sv_i sv) i)) v' ∧ alike v v'.
Proof.
  intros Hl [T S R O] Hi. unfold sfs_readdir, ebind, slot, sizeof_direntry in *.
  unfold MAXFILE, MAXBLOCKS, SFS_NDIRECT, SFS_DBPERIDB, SFS_BLOCKSIZE in R. rewrite (wrap_small 32) by lia.
  destruct (metaio_read ino sv v (i * 64) 64 Hl) as (v' & Hrun & Ha); [unfold MAXFILE, MAXBLOCKS, SFS_NDIRECT, SFS_DBPERIDB, SFS_BLOCKSIZE; lia|lia|apply slot_in_block; lia|].
  rewrite (run_bind_ret _ _ _ _ _ Hrun). by exists v'.
Qed.

(** What a search of the slots before [i] knows. *)
Record searched v n (name : list Z) (i : Z) (f : found) : Prop := {
  sr_hit : match f_hit f with
    | Some (ino, s) => 0 ≤ s < i ∧ live v n s ∧ entry_name (slot v n s) = name ∧ sfd_ino (slot v n s) = ino
    | None => ∀ s, 0 ≤ s < i → live v n s → entry_name (slot v n s) ≠ name end;
  sr_empty : match f_empty f with
    | Some s => 0 ≤ s < i ∧ sfd_ino (slot v n s) = SFS_NOINO
    | None => ∀ s, 0 ≤ s < i → sfd_ino (slot v n s) ≠ SFS_NOINO end;
}.

Lemma find_loop_run ino sv v0 v name f i (k : nat) :
  loaded ino sv v0 → dir_wf v0 (sv_i sv) → alike v0 v → 0 ≤ i → i + Z.of_nat k = nslots (sv_i sv) → searched v0 (sv_i sv) name i f →
  ∃ f' v', find_loop hw_read hw_write k i ino name f v = Ret (inr f') v' ∧ alike v0 v' ∧ searched v0 (sv_i sv) name (nslots (sv_i sv)) f'.
Proof.
  intros Hl Hwf. revert v f i. induction k as [|k IH]; intros v f i Ha Hi Hk Hf; cbn [find_loop].
  { exists f, v. split; [done|]. split; [done|]. by replace (nslots (sv_i sv)) with i by lia. }
  assert (Hl1 : loaded ino sv v) by (by eapply loaded_alike).
  assert (Hwf1 : dir_wf v (sv_i sv)).
  { destruct Hwf as [T S R O]. split; try done. intros a b. unfold live. rewrite !(slot_alike v0 v) by done. apply O. }
  destruct (readdir_run ino sv v i Hl1 Hwf1 ltac:(lia)) as (v1 & Hrun & Ha1). unfold ebind. rewrite (run_bind_ret _ _ _ _ _ Hrun).
  assert (Ha01 : alike v0 v1) by (by etrans). rewrite (slot_alike v0 v) by done. destruct Hf as [Hh He].
  assert (Hlt : ∀ s, 0 ≤ s < i + 1 → s = i ∨ 0 ≤ s < i) by lia.
  destruct (Z.eqb_spec (sfd_ino (slot v0 (sv_i sv) i)) SFS_NOINO) as [Hz|Hz]; [|case_bool_decide as Hn].
  - apply IH; [done|lia|lia|]. split; cbn [f_hit f_empty]; [|split; [lia|done]].
    destruct (f_hit f) as [[x s]|]; [intuition lia|]. intros s [->|Hs]%Hlt Hlv; [by destruct Hlv|by apply Hh].
  - destruct (f_hit f) as [[x s]|] eqn:Eh.
    + exfalso. destruct Hh as (Hs & Hlv & Hnm & _). assert (s = i); [|lia]. apply (dw_once _ _ Hwf); [done|split; [lia|done]|congruence].
    + rewrite run_assert by done. apply IH; [done|lia|lia|]. split; cbn [f_hit f_empty].
      * split_and!; [lia|lia|by split; [lia|]|done|done].
      * destruct (f_empty f) as [s|]; [intuition lia|]. intros s [->|Hs]%Hlt; [done|by apply He].
  - apply IH; [done|lia|lia|]. split.
    + destruct (f_hit f) as [[x s]|]; [intuition lia|]. intros s [->|Hs]%Hlt Hlv; [done|by apply Hh].
    + destruct (f_empty f) as [s|]; [intuition lia|]. intros s [->|Hs]%Hlt; [done|by apply He].
Qed.

Lemma nentries_run {B} ino sv v (f : Z → K vol B) :
  nodes v !! ino = Some sv → dir_wf v (sv_i sv) → mbind f (sfs_dir_nentries ino) v = f (nslots (sv_i sv)) v.
Proof.
  intros Hn [T S R O]. unfold sfs_dir_nentries. rewrite run_assoc, (get_node_run ino sv) by done. rewrite run_assoc, run_assert by (by apply Z.eqb_eq).
  rewrite S, Z.mod_mul by done. cbn [Z.eqb negb]. rewrite run_mret. by rewrite <- S.
Qed.

(** Searching a directory: an entry, or that there is none; and an empty slot, or that all are taken. *)
Lemma findname_run ino sv v name :
  loaded ino sv v → dir_wf v (sv_i sv) →
  ∃ f v', sfs_dir_findname hw_read hw_write ino name v = Ret (inr f) v' ∧ alike v v' ∧ searched v (sv_i sv) name (nslots (sv_i sv)) f.
Proof.
  intros Hl Hwf. unfold sfs_dir_findname. rewrite (nentries_run ino sv) by (done || apply Hl).
  assert (Hns : 0 ≤ nslots (sv_i sv)) by (pose proof (dw_range _ _ Hwf); apply Z.div_pos; [lia|done]).
  apply find_loop_run; [done|done|done|lia|lia|]. split; cbn; intros; lia.
Qed.

(** ** Writing a slot *)

Definition entry_ok (d : sfs_direntry) : Prop := 0 ≤ sfd_ino d < 2 ^ 32 ∧ length (sfd_name d) = 60%nat ∧ bytes_ok (sfd_name d).

Lemma encode_ok d : entry_ok d → zlen (encode_entry d) = 64 ∧ bytes_ok (encode_entry d) ∧ decode_entry (encode_entry d) = d.
Proof.
  destruct d as [ino name]. intros (Hi & Hl & Hb). cbn in Hi, Hl, Hb. rewrite length_encode, decode_encode by done. split_and!; [done| |done].
  apply Forall_app. split; [|done]. repeat constructor; apply Z.mod_pos_bound; lia.
Qed.

(** The slots of the directory after one was written. *)
Lemma slot_written ino sv v s d sv' v' i :
  entry_ok d → meta_written ino sv v (s * 64) (encode_entry d) sv' v' → 0 ≤ i → (i + 1) * 64 ≤ MAXFILE →
  slot v' (sv_i sv') i = if decide (i = s) then d else slot v (sv_i sv) i.
Proof.
  intros Hd' M Hi Hm. destruct (encode_ok d Hd') as (Hl & _ & Hdec). unfold slot, sizeof_direntry.
  assert (Hb : ∀ q, i * 64 ≤ q < i * 64 + 64 → fbyte v' (sv_i sv') q =
    if decide (s * 64 ≤ q < s * 64 + 64) then default 0 (arr_get (encode_entry d) (q - s * 64)) else fbyte v (sv_i sv) q).
  { intros q Hq. rewrite (mw_file _ _ _ _ _ _ _ M) by lia. by rewrite Hl. }
  destruct (decide (i = s)) as [->|Hne].
  - rewrite <- Hdec. f_equal. apply list_eq. intros k. unfold fbytes. rewrite list_lookup_fmap. destruct (decide (k < 64)%nat) as [Hk|Hk].
    + rewrite lookup_seqZ_lt by lia. cbn. rewrite Hb, decide_True by lia. rewrite arr_get_nonneg by lia.
      replace (Z.to_nat (s * 64 + Z.of_nat k - s * 64)) with k by lia.
      destruct (lookup_lt_is_Some_2 (encode_entry d) k) as [x Hx]; [lia|]. by rewrite Hx.
    + rewrite lookup_seqZ_ge by lia. symmetry. apply lookup_ge_None. lia.
  - f_equal. unfold fbytes. apply list_fmap_ext. intros k q Hq%lookup_seqZ. rewrite Hb, decide_False by lia. done.
Qed.

Lemma nslots_written ino sv v s d sv' v' :
  entry_ok d → dir_wf v (sv_i sv) → meta_written ino sv v (s * 64) (encode_entry d) sv' v' → nslots (sv_i sv') = Z.max (nslots (sv_i sv)) (s + 1).
Proof.
  intros Hd' Hwf M. destruct (encode_ok d Hd') as (Hl & _ & _). unfold nslots at 1. rewrite (mw_size _ _ _ _ _ _ _ M), Hl, (dw_size _ _ Hwf).
  unfold sizeof_direntry. replace (Z.max _ _) with (Z.max (nslots (sv_i sv)) (s + 1) * 64) by lia. apply Z.div_mul. lia.
Qed.

(** The directory is well formed after a slot was taken for a new name, or freed. *)
(** The counts after a slot was written: what it held goes, what it holds comes. *)
Lemma links_written ino sv v s d sv' v' x :
  entry_ok d → dir_wf v (sv_i sv) → meta_written ino sv v (s * 64) (encode_entry d) sv' v' → s * 64 + 64 ≤ MAXFILE →
  0 ≤ s ≤ nslots (sv_i sv) → x ≠ SFS_NOINO →
  links v' (sv_i sv') x = links v (sv_i sv) x - (if decide (s < nslots (sv_i sv) ∧ sfd_ino (slot v (sv_i sv) s) = x) then 1 else 0)
    + (if decide (sfd_ino d = x) then 1 else 0).
Proof.
  intros Hd' Hwf M Hmax Hs Hx. pose proof (nslots_written _ _ _ _ _ _ _ Hd' Hwf M) as Hns.
  pose proof (dw_range _ _ Hwf) as Hr. pose proof (dw_size _ _ Hwf) as Hsz. unfold sizeof_direntry in Hsz.
  assert (Hslot : ∀ i, 0 ≤ i < nslots (sv_i sv') → slot v' (sv_i sv') i = if decide (i = s) then d else slot v (sv_i sv) i).
  { intros i Hi. apply (slot_written ino); [done|done|lia|lia]. }
  unfold links. destruct (decide (s < nslots (sv_i sv))) as [Hlt|Hge].
  - assert (Hl : slot_inos v' (sv_i sv') = <[Z.to_nat s := sfd_ino d]> (slot_inos v (sv_i sv))).
    { apply list_eq. intros k. unfold slot_inos. rewrite Hns, Z.max_l by lia. destruct (decide (Z.of_nat k < nslots (sv_i sv))) as [Hk|Hk].
      - rewrite list_lookup_fmap, lookup_seqZ_lt by lia. cbn [fmap option_fmap option_map]. rewrite Hslot by lia. destruct (decide (0 + Z.of_nat k = s)) as [E|E].
        + replace (Z.to_nat s) with k by lia. rewrite list_lookup_insert_eq; [done|]. rewrite length_fmap, length_seqZ. lia.
        + rewrite list_lookup_insert_ne by lia. rewrite list_lookup_fmap, lookup_seqZ_lt by lia. done.
      - rewrite !lookup_ge_None_2; [done| |]; rewrite ?length_insert, length_fmap, length_seqZ; lia. }
    rewrite Hl. rewrite (count_insert _ _ _ (sfd_ino (slot v (sv_i sv) s))).
    + f_equal. f_equal. destruct (decide (sfd_ino (slot v (sv_i sv) s) = x)); [rewrite decide_True by done|rewrite decide_False by tauto]; done.
    + unfold slot_inos. rewrite list_lookup_fmap, lookup_seqZ_lt by lia. cbn [fmap option_fmap option_map]. do 3 f_equal. lia.
  - assert (s = nslots (sv_i sv)) as -> by lia.
    assert (Hl : slot_inos v' (sv_i sv') = slot_inos v (sv_i sv) ++ [sfd_ino d]).
    { unfold slot_inos. rewrite Hns, Z.max_r, seqZ_app by lia. rewrite fmap_app. f_equal.
      - apply list_fmap_ext. intros k i Hi%lookup_seqZ. rewrite Hslot, decide_False by lia. done.
      - rewrite (seqZ_cons (0 + _)) by lia. cbn [fmap list_fmap Z.pred]. rewrite Hslot, decide_True by lia. done. }
    rewrite Hl, count_snoc, (decide_False (P := nslots (sv_i sv) < _ ∧ _)) by lia. lia.
Qed.

Lemma dir_written ino sv v s d sv' v' :
  entry_ok d → dir_wf v (sv_i sv) → meta_written ino sv v (s * 64) (encode_entry d) sv' v' → s * 64 + 64 ≤ MAXFILE →
  0 ≤ s ≤ nslots (sv_i sv) → (sfd_ino d ≠ SFS_NOINO → ∀ i, i ≠ s → live v (sv_i sv) i → entry_name (slot v (sv_i sv) i) ≠ entry_name d) →
  dir_wf v' (sv_i sv') ∧
  ∀ nm x, dir_maps v' (sv_i sv') nm x ↔
    (x ≠ SFS_NOINO ∧ nm = entry_name d ∧ x = sfd_ino d) ∨
    ∃ i, i ≠ s ∧ live v (sv_i sv) i ∧ entry_name (slot v (sv_i sv) i) = nm ∧ sfd_ino (slot v (sv_i sv) i) = x.
Proof.
  intros Hd' Hwf M Hmax Hs Hnew. pose proof (nslots_written _ _ _ _ _ _ _ Hd' Hwf M) as Hns.
  pose proof (dw_range _ _ Hwf) as Hr. pose proof (dw_size _ _ Hwf) as Hsz. unfold sizeof_direntry in Hsz.
  destruct (encode_ok d Hd') as (Hl & _ & _). pose proof (mw_size _ _ _ _ _ _ _ M) as Hsize. rewrite Hl in Hsize.
  assert (Hslot : ∀ i, 0 ≤ i < nslots (sv_i sv') → slot v' (sv_i sv') i = if decide (i = s) then d else slot v (sv_i sv) i).
  { intros i Hi. apply (slot_written ino); [done|done|lia|lia]. }
  assert (Hlive : ∀ i, live v' (sv_i sv') i ↔ i = s ∧ sfd_ino d ≠ SFS_NOINO ∨ i ≠ s ∧ live v (sv_i sv) i).
  { intros i. unfold live. split.
    - intros [Hi Hz]. rewrite Hslot in Hz by done. destruct (decide (i = s)); [by left|]. right. split; [done|]. split; [lia|done].
    - intros [[-> Hz]|[Hne [Hi Hz]]]; (split; [lia|]); rewrite Hslot by lia; [by rewrite decide_True|by rewrite decide_False]. }
  split.
  - split; [rewrite (proj1 (mw_type _ _ _ _ _ _ _ M)); apply Hwf|unfold sizeof_direntry; lia|lia|].
    intros i j Hi Hj. rewrite !Hslot by (apply Hi || apply Hj). apply Hlive in Hi, Hj. destruct (decide (i = s)) as [->|Hi'], (decide (j = s)) as [->|Hj']; [done| | |].
    + intros E. destruct Hi as [[_ Hz]|[? _]]; [|done]. destruct Hj as [[? _]|[_ Hj]]; [done|]. by destruct (Hnew Hz j Hj' Hj).
    + intros E. destruct Hj as [[_ Hz]|[? _]]; [|done]. destruct Hi as [[? _]|[_ Hi]]; [done|]. by destruct (Hnew Hz i Hi' Hi).
    + destruct Hi as [[? _]|[_ Hi]]; [done|]. destruct Hj as [[? _]|[_ Hj]]; [done|]. by apply (dw_once _ _ Hwf).
  - intros nm x. unfold dir_maps. split.
    + intros (i & Hi & Hnm & Hx). rewrite Hslot in Hnm, Hx by apply Hi. pose proof (proj1 (Hlive i) Hi) as Hi'. destruct (decide (i = s)) as [->|Hne].
      * left. destruct Hi' as [[_ Hz]|[? _]]; [|done]. split_and!; congruence.
      * right. exists i. destruct Hi' as [[? _]|[_ Hi']]; [done|]. done.
    + intros [(Hz & -> & ->)|(i & Hne & Hi & Hnm & Hx)]; [exists s|exists i]; rewrite Hslot by (unfold live in *; lia);
        rewrite Hlive; [rewrite decide_True by done; split_and!; [by left|done|done]|rewrite decide_False by done; split_and!; [by right|done|done]].
Qed.

(** Directories with the same bytes. *)
Definition dir_same v n v' n' : Prop :=
  sfi_type n' = sfi_type n ∧ sfi_size n' = sfi_size n ∧ ∀ p, 0 ≤ p < sfi_size n → fbyte v' n' p = fbyte v n p.

Lemma dir_same_slot v n v' n' i : dir_wf v n → dir_same v n v' n' → 0 ≤ i < nslots n → slot v' n' i = slot v n i.
Proof.
  intros Hwf (_ & _ & Hb) Hi. pose proof (dw_size _ _ Hwf) as S. unfold slot, fbytes, sizeof_direntry in *. f_equal.
  apply list_fmap_ext. intros k q Hq%lookup_seqZ. apply Hb. lia.
Qed.

Lemma dir_same_view v n v' n' :
  dir_wf v n → dir_same v n v' n' →
  dir_wf v' n' ∧ (∀ nm x, dir_maps v' n' nm x ↔ dir_maps v n nm x) ∧ slot_inos v' n' = slot_inos v n.
Proof.
  intros Hwf Hsame. pose proof (λ i, dir_same_slot v n v' n' i Hwf Hsame) as Hslot. destruct Hwf as [T S R O], Hsame as (S1 & S2 & S3).
  assert (Hns : nslots n' = nslots n) by (unfold nslots; by rewrite S2).
  assert (Hlive : ∀ i, live v' n' i ↔ live v n i).
  { intros i. unfold live. rewrite Hns. split; intros [Hi Hz]; (split; [done|]); by rewrite Hslot in *. }
  split_and!.
  - split; [congruence|congruence|by rewrite S2|]. intros i j Hi Hj. rewrite !Hslot by (rewrite <- Hns; apply Hi || apply Hj).
    apply O; by apply Hlive.
  - intros nm x. unfold dir_maps. split; intros (i & Hi & Hnm & Hx); exists i; pose proof Hi as [Hi' _]; rewrite ?Hns in Hi'; rewrite ?Hslot in * by done;
      (split; [by apply Hlive|done]).
  - unfold slot_inos. rewrite Hns. apply list_fmap_ext. intros k i Hi%lookup_seqZ. rewrite Hslot by lia. done.
Qed.

Lemma dir_same_extended ino sv v sv' v' : dir_wf v (sv_i sv) → extended ino sv v sv' v' → dir_same v (sv_i sv) v' (sv_i sv').
Proof.
  intros Hwf [E1 E2 E3]. pose proof E2 as [(S1 & S2 & _) _]. split_and!; [done|done|]. intros p Hp. apply fbyte_same; [done|].
  pose proof (dw_range _ _ Hwf). lia.
Qed.

Lemma dir_same_kept v v' n : dir_wf v n → file_kept contents v v' n → dir_same v n v' n.
Proof. intros Hwf (_ & _ & Hb). split_and!; [done|done|]. intros p Hp. apply Hb. pose proof (dw_range _ _ Hwf). lia. Qed.

Lemma writedir_run ino sv v s d :
  loaded ino sv v → dir_wf v (sv_i sv) → entry_ok d → 0 ≤ s ≤ nslots (sv_i sv) →
  ∃ r sv' v', sfs_writedir hw_read hw_write ino s d v = Ret r v' ∧
    match r with
    | inl e => extended ino sv v sv' v' ∧ (e = EFBIG ∧ MAXFILE ≤ s * 64 ∨ e = ENOSPC ∧ full v' ∧ ptr v (sv_i sv) (s * 64 / 512) = 0)
    | inr _ => s * 64 + 64 ≤ MAXFILE ∧ meta_written ino sv v (s * 64) (encode_entry d) sv' v'
    end.
Proof.
  intros Hl Hwf Hd' Hs. destruct (encode_ok d Hd') as (Hlen & Hb & _). pose proof (dw_range _ _ Hwf) as Hr. pose proof (dw_size _ _ Hwf) as Hsz.
  unfold MAXFILE, MAXBLOCKS, SFS_NDIRECT, SFS_DBPERIDB, SFS_BLOCKSIZE, sizeof_direntry in Hr, Hsz.
  unfold sfs_writedir, ebind. rewrite run_assert by (apply Z.leb_le; lia). unfold sizeof_direntry. rewrite (wrap_small 32 (s * 64)) by lia.
  destruct (metaio_write ino sv v (s * 64) (encode_entry d) Hl) as (r & sv' & v' & Hrun & Hpost); [lia|rewrite Hlen; apply slot_in_block; lia|done|].
  rewrite Hlen in Hrun, Hpost. rewrite (run_bind_ret _ _ _ _ _ Hrun). destruct r as [e|l]; [by exists (inl e), sv', v'|by exists (inr tt), sv', v'].
Qed.

(** The slot for a new entry: an empty one, or one at the end. *)
Lemma free_slot dir sv v v1 name f :
  loaded dir sv v1 → dir_wf v1 (sv_i sv) → alike v v1 → searched v (sv_i sv) name (nslots (sv_i sv)) f →
  ∃ s, match f_empty f with Some i => mret i | None => sfs_dir_nentries dir end v1 = Ret s v1 ∧
    0 ≤ s ≤ nslots (sv_i sv) ∧ (s < nslots (sv_i sv) → sfd_ino (slot v1 (sv_i sv) s) = SFS_NOINO).
Proof.
  intros [Hn _ _] Hwf Ha [_ He]. pose proof (dw_range _ _ Hwf). assert (0 ≤ nslots (sv_i sv)) by (apply Z.div_pos; [lia|done]).
  destruct (f_empty f) as [i|]; [exists i; destruct He; rewrite (slot_alike v v1) by done; split_and!; [done|lia|lia|done]|].
  exists (nslots (sv_i sv)). split; [|lia]. pose proof (nentries_run dir sv v1 (λ x, mret x) Hn Hwf) as E. rewrite run_bind in E.
  by destruct (sfs_dir_nentries dir v1).
Qed.

(** A new entry is written to a free slot. *)
Lemma link_at dir sv v s name ino :
  loaded dir sv v → dir_wf v (sv_i sv) → name_ok name → 0 < ino < 2 ^ 32 → 0 ≤ s ≤ nslots (sv_i sv) →
  (s < nslots (sv_i sv) → sfd_ino (slot v (sv_i sv) s) = SFS_NOINO) → (∀ x, ¬ dir_maps v (sv_i sv) name x) →
  ∃ r sv' v', sfs_writedir hw_read hw_write dir s (Direntry ino (padded name)) v = Ret r v' ∧
    match r with
    | inl e => extended dir sv v sv' v' ∧ (e = ENOSPC ∧ full v' ∨ e = EFBIG ∧ sfi_size (sv_i sv) = MAXFILE)
    | inr _ => step dir sv v sv' v' ∧ same_meta (sv_i sv) (sv_i sv') ∧ dir_wf v' (sv_i sv') ∧
        (∀ nm x, dir_maps v' (sv_i sv') nm x ↔ nm = name ∧ x = ino ∨ dir_maps v (sv_i sv) nm x) ∧
        (∀ x, x ≠ SFS_NOINO → links v' (sv_i sv') x = links v (sv_i sv) x + if decide (ino = x) then 1 else 0) ∧
        live v' (sv_i sv') s ∧ slot v' (sv_i sv') s = Direntry ino (padded name) ∧
        (∀ i, live v (sv_i sv) i → live v' (sv_i sv') i ∧ slot v' (sv_i sv') i = slot v (sv_i sv) i)
    end.
Proof.
  intros Hl Hwf [Hname Hshort] Hino Hs Hfree Hno. set (d := Direntry ino (padded name)).
  assert (Hd' : entry_ok d).
  { split; [cbn; lia|]. split; [by apply length_padded|]. apply Forall_app. split; [|by apply Forall_replicate].
    apply (Forall_impl _ _ _ Hname). intros c Hc. cbn in Hc. lia. }
  destruct (writedir_run dir sv v s d Hl Hwf Hd' Hs) as (r & sv2 & v2 & Hw & Hpost). exists r, sv2, v2. split; [done|]. destruct r as [e|[]].
  - destruct Hpost as [E [[-> Hbig]|(-> & Hfull & _)]]; (split; [done|]); [right|by left]. split; [done|].
    pose proof (dw_range _ _ Hwf). pose proof (dw_size _ _ Hwf). unfold sizeof_direntry in *. lia.
  - destruct Hpost as [Hmax M]. assert (Hnm : entry_name d = name) by (by apply entry_name_padded).
    destruct (dir_written dir sv v s d sv2 v2 Hd' Hwf M Hmax Hs) as [Hwf2 Hm2].
    { intros _ i _ Hi E. rewrite Hnm in E. apply (Hno (sfd_ino (slot v (sv_i sv) i))). by exists i. }
    pose proof (nslots_written _ _ _ _ _ _ _ Hd' Hwf M) as Hns. pose proof (dw_range _ _ Hwf). pose proof (dw_size _ _ Hwf) as Hsz. unfold sizeof_direntry in Hsz.
    assert (Hslot : ∀ i, 0 ≤ i < nslots (sv_i sv2) → slot v2 (sv_i sv2) i = if decide (i = s) then d else slot v (sv_i sv) i).
    { intros i Hi. apply (slot_written dir); [done|done|lia|lia]. }
    split; [apply M|]. split; [apply M|]. split; [done|]. split; [|split; [|split; [|split]]].
    + intros nm x. rewrite Hm2, Hnm. cbn [d sfd_ino]. split.
      * intros [(_ & -> & ->)|(i & _ & Hi)]; [by left|right]. by exists i.
      * intros [[-> ->]|(i & Hi & Hx)]; [left; unfold SFS_NOINO; split_and!; [lia|done|done]|right]. exists i. split; [|done].
        intros ->. destruct Hi as [Hi Hz]. apply Hz, Hfree, Hi.
    + intros x Hx. rewrite (links_written dir sv v s d sv2 v2) by done. cbn [d sfd_ino].
      rewrite (decide_False (P := s < _ ∧ _)); [lia|]. intros [H1 H2]. rewrite Hfree in H2 by done. congruence.
    + split; [lia|]. rewrite Hslot, decide_True by lia. cbn. unfold SFS_NOINO. lia.
    + by rewrite Hslot, decide_True by lia.
    + intros i Hi. assert (Hne : i ≠ s) by (intros ->; destruct Hi as [Hi Hz]; apply Hz, Hfree, Hi). destruct Hi as [Hi Hz].
      unfold live. rewrite Hslot, decide_False by lia. split; [split; [lia|done]|done].
Qed.

(** A new link: a name that is there is refused with EEXIST, one that does not fit with ENAMETOOLONG; otherwise the name is
    added, unless a block is needed and the volume is full (ENOSPC) or the directory has the largest size a file can
    have (EFBIG). *)
Lemma dir_link_run dir sv v name ino :
  loaded dir sv v → dir_wf v (sv_i sv) → Forall (λ c, 0 < c < 256) name → 0 < ino < 2 ^ 32 →
  ∃ r sv' v', sfs_dir_link hw_read hw_write dir name ino v = Ret r v' ∧
    match r with
    | inr s => (∀ x, ¬ dir_maps v (sv_i sv) name x) ∧ step dir sv v sv' v' ∧ same_meta (sv_i sv) (sv_i sv') ∧ dir_wf v' (sv_i sv') ∧
        (∀ nm x, dir_maps v' (sv_i sv') nm x ↔ nm = name ∧ x = ino ∨ dir_maps v (sv_i sv) nm x) ∧
        (∀ x, x ≠ SFS_NOINO → links v' (sv_i sv') x = links v (sv_i sv) x + if decide (ino = x) then 1 else 0) ∧
        live v' (sv_i sv') s ∧ slot v' (sv_i sv') s = Direntry ino (padded name) ∧
        (∀ i, live v (sv_i sv) i → live v' (sv_i sv') i ∧ slot v' (sv_i sv') i = slot v (sv_i sv) i)
    | inl e => extended dir sv v sv' v' ∧
        (e = EEXIST ∧ (∃ x, dir_maps v (sv_i sv) name x) ∨
         (∀ x, ¬ dir_maps v (sv_i sv) name x) ∧
         (e = ENAMETOOLONG ∧ SFS_NAMELEN ≤ zlen name ∨ e = ENOSPC ∧ full v' ∨ e = EFBIG ∧ sfi_size (sv_i sv) = MAXFILE))
    end.
Proof.
  intros Hl Hwf Hname Hino. unfold sfs_dir_link, ebind.
  destruct (findname_run dir sv v name Hl Hwf) as (f & v1 & Hrun & Ha & Hf). rewrite (run_bind_ret _ _ _ _ _ Hrun). pose proof (sr_hit _ _ _ _ _ Hf) as Hh.
  pose proof (extended_alike contents dir sv v v1 Hl Ha) as E1.
  destruct (dir_same_view _ _ _ _ Hwf (dir_same_extended _ _ _ _ _ Hwf E1)) as (Hwf1 & Hm1 & Hi1).
  assert (Hlk : ∀ x, links v1 (sv_i sv) x = links v (sv_i sv) x) by (intros x; unfold links; by rewrite Hi1).
  pose proof (loaded_alike contents _ _ _ _ Hl Ha) as Hl1. pose proof Hl1 as [Hn1 _ _].
  destruct (f_hit f) as [[x s]|].
  { exists (inl EEXIST), sv, v1. split; [done|]. split; [done|]. left. split; [done|].
    exists x. destruct Hh as (_ & Hlv & Hnm & Hx). by exists s. }
  assert (Hno : ∀ x, ¬ dir_maps v (sv_i sv) name x) by (intros x (s & Hlv & Hnm & _); by apply (Hh s (proj1 Hlv))).
  destruct (Z.ltb_spec SFS_NAMELEN (zlen name + 1)) as [Hlong|Hshort].
  { exists (inl ENAMETOOLONG), sv, v1. split; [done|]. split; [done|]. right. split; [done|]. left. split; [done|lia]. }
  destruct (free_slot dir sv v v1 name f Hl1 Hwf1 Ha Hf) as (s & Hs & Hsr & Hfree).
  rewrite (run_bind_ret _ _ _ _ _ Hs). fold (padded name).
  destruct (link_at dir sv v1 s name ino Hl1 Hwf1) as (r & sv2 & v2 & Hw & Hpost);
    [split; [done|lia]|done|done|done|intros x Hx; by apply (Hno x), Hm1|].
  rewrite (run_bind_ret _ _ _ _ _ Hw). destruct r as [e|[]].
  - destruct Hpost as [E2 Herr]. exists (inl e), sv2, v2. split; [done|]. split; [by eapply extended_trans|]. right. split; [done|by right].
  - destruct Hpost as (S2 & Hmeta & Hwf2 & Hm2 & Hl2 & Hlive & Hslot & Hold). exists (inr s), sv2, v2. split; [done|]. split; [done|].
    split; [eapply step_trans; [apply E1|done]|]. split; [done|]. split; [done|]. split; [intros nm x; by rewrite Hm2, Hm1|]. split; [intros x Hx; by rewrite Hl2, Hlk|].
    split; [done|]. split; [done|]. intros i Hi. rewrite <- (slot_alike v v1) by done. apply Hold. unfold live. by rewrite (slot_alike v v1).
Qed.

(** A slot in use lies in a block of the directory. *)
Lemma live_mapped v n s : live v n s → ptr v n (s * 64 / 512) ≠ 0.
Proof.
  intros [Hs Hz] Hp. apply Hz. unfold slot, sizeof_direntry. rewrite fbytes_block by first [lia|apply slot_in_block; lia].
  unfold SfsFile.fblock. rewrite Hp. cbn [Z.eqb]. rewrite drop_replicate, take_replicate.
  replace (_ `min` _)%nat with 64%nat; [reflexivity|]. pose proof (slot_in_block s). pose proof (Z.mod_pos_bound (s * 64) 512). lia.
Qed.

(** Removing an entry always succeeds on a slot in use. *)
Lemma dir_unlink_run dir sv v s :
  loaded dir sv v → dir_wf v (sv_i sv) → live v (sv_i sv) s →
  ∃ sv' v', sfs_dir_unlink hw_read hw_write dir s v = Ret (inr tt) v' ∧ step dir sv v sv' v' ∧ dir_wf v' (sv_i sv') ∧
    (∀ nm x, dir_maps v' (sv_i sv') nm x ↔ dir_maps v (sv_i sv) nm x ∧ nm ≠ entry_name (slot v (sv_i sv) s)) ∧
    (∀ x, x ≠ SFS_NOINO → links v' (sv_i sv') x = links v (sv_i sv) x - if decide (sfd_ino (slot v (sv_i sv) s) = x) then 1 else 0) ∧
    same_attr (sv_i sv) (sv_i sv') ∧ used v' = used v.
Proof.
  intros Hl Hwf Hlive. unfold sfs_dir_unlink. set (d := Direntry SFS_NOINO (replicate 60 0)).
  assert (Hd' : entry_ok d) by (split_and!; [done|done|done|by apply Forall_replicate]).
  assert (Hs : 0 ≤ s ≤ nslots (sv_i sv)) by (destruct Hlive; lia).
  destruct (writedir_run dir sv v s d Hl Hwf Hd' Hs) as (r & sv2 & v2 & Hw & Hpost).
  pose proof (dw_range _ _ Hwf) as Hr. pose proof (dw_size _ _ Hwf) as Hsz. unfold sizeof_direntry in Hsz.
  destruct r as [e|[]].
  { exfalso. destruct Hpost as [_ [[_ Hbig]|(_ & _ & Hp)]]; [destruct Hlive; lia|]. by apply (live_mapped _ _ _ Hlive). }
  destruct Hpost as [Hmax M]. destruct (dir_written dir sv v s d sv2 v2 Hd' Hwf M Hmax Hs) as [Hwf2 Hm2]; [done|].
  exists sv2, v2. split; [done|]. split; [apply M|]. split; [done|]. split; [|split; [|split]].
  - intros nm x. rewrite Hm2. split.
    + intros [(Hx & _ & ->)|(i & Hne & Hi & Hnm & Hx)]; [done|]. split; [by exists i|]. intros ->. apply Hne. by apply (dw_once _ _ Hwf).
    + intros [(i & Hi & Hnm & Hx) Hne]. right. exists i. split_and!; [|done|done|done]. intros ->. congruence.
  - intros x Hx. rewrite (links_written dir sv v s d sv2 v2) by done. rewrite (decide_False (P := sfd_ino d = x)) by done. cbn [d sfd_ino].
    destruct Hlive as [Hlt Hz]. destruct (decide (sfd_ino (slot v (sv_i sv) s) = x)); [rewrite decide_True by (split; [lia|done])|rewrite decide_False by tauto]; lia.
  - split; [|apply M]. rewrite (mw_size _ _ _ _ _ _ _ M). destruct (encode_ok d Hd') as (-> & _). destruct Hlive. lia.
  - by apply (mw_used _ _ _ _ _ _ _ M), live_mapped.
Qed.

End dir.
