(* ===== verification/SfsNode.v ===== *)
(** * SfsNode: inodes, vnodes and the operations on them (sfs_inode.c, sfs_vnops.c and sfs_fsops.c of kern/fs/sfs)

    The state is a volume (Sfs.v) with the table of vnodes, in order, each with its reference count: a vnode stands for
    the inode of the same number in [nodes].  The arguments [mem] and [grow] say whether [kmalloc]
    finds memory for a vnode and whether the table can grow. *)

From Stdlib Require Import ZArith Lia.
From stdpp Require Import base gmap list option strings list_numbers.
From S2P Require Import Prelude Types Strings Bitmap Uio Sfs.
Set Default Goal Selector "!".
Open Scope Z_scope.

Definition ENOTDIR : Z := 17.
Definition EISDIR : Z := 18.
Definition ENXIO : Z := 26.
Definition EBUSY : Z := 27.
Definition SFS_TYPE_INVAL : Z := 0.
Definition SFS_TYPE_FILE : Z := 1.
Definition SFS_ROOTDIR_INO : Z := 1.
Definition SFS_SUPER_BLOCK : Z := 0.
Definition SFS_FREEMAP_START : Z := 2.
Definition SFS_MAGIC : Z := 0xabadf001.
Definition SFS_VOLNAME_SIZE : Z := 32.
Definition SFS_BITSPERBLOCK : Z := SFS_BLOCKSIZE * 8.
Definition SFS_FREEMAPBITS (nblocks : Z) : Z := u32 (u32 (nblocks + SFS_BITSPERBLOCK - 1) / SFS_BITSPERBLOCK * SFS_BITSPERBLOCK).
Definition SFS_FREEMAPBLOCKS (nblocks : Z) : Z := SFS_FREEMAPBITS nblocks / SFS_BITSPERBLOCK.
Definition S_IFREG : Z := 0x1000.
Definition S_IFDIR : Z := 0x2000.
Definition O_ACCMODE : Z := 3.
Definition O_RDONLY : Z := 0.
Definition O_APPEND : Z := 32.

(** ** The structures on the disk *)

Definition encode_inode (n : sfs_dinode) : list Z :=
  bytes_of (sfi_size n :: sfi_type n * 2 ^ 16 + sfi_linkcount n :: sfi_direct n ++ sfi_indirect n :: sfi_waste n).
Definition decode_inode (l : list Z) : sfs_dinode :=
  let ws := words_of l in
  let w i := default 0 (arr_get ws i) in
  Dinode (w 0) (w 1 / 2 ^ 16) (w 1 mod 2 ^ 16) (take 15 (drop 2 ws)) (w 17) (drop 18 ws).

Record sfs_superblock := Superblock {
  sb_magic : Z;
  sb_blocks : Z;            (* sb_nblocks *)
  sb_volname : list Z;      (* 32 bytes *)
  sb_reserved : list Z;     (* 118 words *)
}.

Definition encode_super (sb : sfs_superblock) : list Z :=
  bytes_of_word (sb_magic sb) ++ bytes_of_word (sb_blocks sb) ++ sb_volname sb ++ bytes_of (sb_reserved sb).
Definition decode_super (l : list Z) : sfs_superblock :=
  let ws := words_of l in
  Superblock (default 0 (arr_get ws 0)) (default 0 (arr_get ws 1)) (take 32 (drop 8 l)) (drop 10 ws).

Section sfs.
Context {D : Type}.
Context (hw_read : D → Z → D * (Z + list Z)) (hw_write : D → Z → list Z → D * Z).

(** A vnode of the table. *)
Record tnode := Tnode { tn_ino : Z; vn_refcount : Z }.

Record sfs_fs := SfsFs {
  fs_vol : vol (D := D);
  sfs_vnodes : list tnode;
  sfs_sb : sfs_superblock;
  sfs_superdirty : bool;
}.

Definition set_vol (v : vol) (s : sfs_fs) : sfs_fs := SfsFs v (sfs_vnodes s) (sfs_sb s) (sfs_superdirty s).
Definition set_vnodes (l : list tnode) (s : sfs_fs) : sfs_fs := SfsFs (fs_vol s) l (sfs_sb s) (sfs_superdirty s).
Definition set_superdirty (b : bool) (s : sfs_fs) : sfs_fs := SfsFs (fs_vol s) (sfs_vnodes s) (sfs_sb s) b.

Abbreviation FS := (K sfs_fs).

(** Code that works on the volume. *)
Definition on_vol {A} (m : K vol A) : FS A := λ s,
  match m (fs_vol s) with
  | Ret a v => Ret a (set_vol v s)
  | Panic w => Panic w
  | Exit c v => Exit c (set_vol v s)
  | Diverge => Diverge
  end.

Definition node (ino : Z) : FS sfs_vnode := on_vol (get_node ino).
Definition put_node (ino : Z) (sv : sfs_vnode) : FS unit := on_vol (modify (set_node ino sv)).

Definition set_linkcount (x : Z) (sv : sfs_vnode) : sfs_vnode :=
  let n := sv_i sv in Vnode (Dinode (sfi_size n) (sfi_type n) x (sfi_direct n) (sfi_indirect n) (sfi_waste n)) true.
Definition set_clean (sv : sfs_vnode) : sfs_vnode := Vnode (sv_i sv) false.
Definition set_type (x : Z) (sv : sfs_vnode) : sfs_vnode :=
  let n := sv_i sv in Vnode (Dinode (sfi_size n) x (sfi_linkcount n) (sfi_direct n) (sfi_indirect n) (sfi_waste n)) true.
Definition drop_node (ino : Z) (v : vol (D := D)) : vol :=
  Vol (dev v) (d_blocks v) (sb_nblocks v) (freemap v) (freemapdirty v) (delete ino (nodes v)) (kmem v).

(** ** Reference counts: vnode.c *)

Definition find_vnode (ino : Z) : FS tnode := l ← gets sfs_vnodes; deref (List.find (λ t, tn_ino t =? ino) l).
Definition set_refs (ino x : Z) (l : list tnode) : list tnode :=
  (λ t, if tn_ino t =? ino then Tnode ino x else t) <$> l.

Definition VOP_INCREF (ino : Z) : FS unit :=
  t ← find_vnode ino; modify (λ s, set_vnodes (set_refs ino (vn_refcount t + 1) (sfs_vnodes s)) s).

(** [vnodearray_remove] of the vnode that a search from the start finds. *)
Fixpoint remove_ino (ino : Z) (l : list tnode) : list tnode :=
  match l with [] => [] | t :: l' => if tn_ino t =? ino then l' else t :: remove_ino ino l' end.

(** ** sfs_inode.c *)

Definition sfs_sync_inode (ino : Z) : FS (Z + unit) :=
  sv ← node ino;
  if sv_dirty sv then
    _ ←! on_vol (sfs_writeblock hw_read hw_write ino (encode_inode (sv_i sv)));
    put_node ino (set_clean sv) ;; mret (inr tt)
  else mret (inr tt).

(** The vnode leaves the table, and its memory is freed. *)
Definition remove_vnode (ino : Z) : FS unit :=
  l ← gets sfs_vnodes;
  match List.find (λ t, tn_ino t =? ino) l with
  | None => panic "sfs: reclaim vnode not in vnode pool"
  | Some t =>
      modify (set_vnodes (remove_ino ino l)) ;;
      KASSERT (vn_refcount t =? 1) "vn->vn_refcount == 1" ;;
      on_vol (modify (drop_node ino))
  end.

Definition sfs_reclaim (ino : Z) : FS (Z + unit) :=
  t ← find_vnode ino;
  if negb (vn_refcount t =? 1) then
    KASSERT (1 <? vn_refcount t) "v->vn_refcount>1" ;;
    modify (λ s, set_vnodes (set_refs ino (vn_refcount t - 1) (sfs_vnodes s)) s) ;;
    mret (inl EBUSY)
  else
    sv ← node ino;
    _ ←! (if sfi_linkcount (sv_i sv) =? 0 then on_vol (sfs_itrunc hw_read hw_write ino 0) else mret (inr tt));
    _ ←! sfs_sync_inode ino;
    sv ← node ino;
    (if sfi_linkcount (sv_i sv) =? 0 then on_vol (sfs_bfree ino) else mret tt) ;;
    remove_vnode ino ;;
    mret (inr tt).

(** [vnode_decref]: an error of [VOP_RECLAIM] is only printed. *)
Definition VOP_DECREF (ino : Z) : FS unit :=
  t ← find_vnode ino;
  KASSERT (0 <? vn_refcount t) "vn->vn_refcount > 0" ;;
  if 1 <? vn_refcount t then modify (λ s, set_vnodes (set_refs ino (vn_refcount t - 1) (sfs_vnodes s)) s)
  else _ ← sfs_reclaim ino; mret tt.

(** The loop of [sfs_loadvnode] over the table: is the inode there. *)
Fixpoint search_vnodes (l : list tnode) (ino : Z) : FS bool :=
  match l with
  | [] => mret false
  | t :: l' =>
      x ← on_vol (sfs_bused (tn_ino t));
      if x =? 0 then panic "sfs: Found inode in unallocated block"
      else if tn_ino t =? ino then mret true else search_vnodes l' ino
  end.

(** The vnode is named by its inode. *)
Definition sfs_loadvnode (mem grow : bool) (ino forcetype : Z) : FS (Z + Z) :=
  l ← gets sfs_vnodes;
  hit ← search_vnodes l ino;
  if hit : bool then
    KASSERT (forcetype =? SFS_TYPE_INVAL) "forcetype==SFS_TYPE_INVAL" ;;
    VOP_INCREF ino ;; mret (inr ino)
  else if negb mem then mret (inl ENOMEM)
  else
    x ← on_vol (sfs_bused ino);
    if x =? 0 then panic "sfs: Tried to load inode from unallocated block"
    else
      data ←! on_vol (sfs_readblock hw_read hw_write ino);
      let sv := Vnode (decode_inode data) false in
      sv ← (if negb (forcetype =? SFS_TYPE_INVAL) then
              KASSERT (sfi_type (sv_i sv) =? SFS_TYPE_INVAL) "sv->sv_i.sfi_type == SFS_TYPE_INVAL" ;;
              mret (set_type forcetype sv)
            else mret sv);
      if negb (sfi_type (sv_i sv) =? SFS_TYPE_FILE) && negb (sfi_type (sv_i sv) =? SFS_TYPE_DIR) then
        panic "sfs: loadvnode: Invalid inode type"
      else if negb grow then mret (inl ENOMEM)
      else
        put_node ino sv ;;
        modify (λ s, set_vnodes (sfs_vnodes s ++ [Tnode ino 1]) s) ;;
        mret (inr ino).

Definition sfs_makeobj (mem grow : bool) (type : Z) : FS (Z + Z) :=
  ino ←! on_vol (sfs_balloc hw_read hw_write);
  r ← sfs_loadvnode mem grow ino type;
  match r with
  | inl e => on_vol (sfs_bfree ino) ;; mret (inl e)
  | inr _ => mret r
  end.

Definition sfs_getroot (mem grow : bool) : FS (Z + Z) :=
  root ←! sfs_loadvnode mem grow SFS_ROOTDIR_INO SFS_TYPE_INVAL;
  sv ← node root;
  if negb (sfi_type (sv_i sv) =? SFS_TYPE_DIR) then mret (inl EINVAL) else mret (inr root).

(** ** sfs_dir.c: [sfs_lookonce], the vnode and the slot *)
Definition sfs_lookonce (mem grow : bool) (dir : Z) (name : list Z) : FS (Z + Z * Z) :=
  f ←! on_vol (sfs_dir_findname hw_read hw_write dir name);
  match f_hit f with
  | None => mret (inl ENOENT)
  | Some (ino, slot) =>
      v ←! sfs_loadvnode mem grow ino SFS_TYPE_INVAL;
      sv ← node v;
      if sfi_linkcount (sv_i sv) =? 0 then panic "sfs: linkcount 0" else mret (inr (v, slot))
  end.

(** ** sfs_vnops.c *)

Definition sfs_eachopendir (openflags : Z) : Z :=
  if negb (Z.land openflags O_ACCMODE =? O_RDONLY) then EISDIR
  else if negb (Z.land openflags O_APPEND =? 0) then EISDIR else 0.

Definition sfs_read (ino : Z) (u : uio) : FS (Z * uio) :=
  KASSERT (negb (is_write u)) "uio->uio_rw==UIO_READ" ;; on_vol (sfs_io hw_read hw_write ino u).
Definition sfs_write (ino : Z) (u : uio) : FS (Z * uio) :=
  KASSERT (is_write u) "uio->uio_rw==UIO_WRITE" ;; on_vol (sfs_io hw_read hw_write ino u).

Definition sfs_gettype (ino : Z) : FS Z :=
  sv ← node ino;
  if sfi_type (sv_i sv) =? SFS_TYPE_FILE then mret S_IFREG
  else if sfi_type (sv_i sv) =? SFS_TYPE_DIR then mret S_IFDIR
  else panic "sfs: gettype: Invalid inode type".

(** The mode, the size and the number of links. *)
Definition sfs_stat (ino : Z) : FS (Z * Z * Z) :=
  mode ← sfs_gettype ino; sv ← node ino; mret (mode, sfi_size (sv_i sv), sfi_linkcount (sv_i sv)).

Definition sfs_fsync (ino : Z) : FS (Z + unit) := sfs_sync_inode ino.
Definition sfs_truncate (ino len : Z) : FS (Z + unit) := on_vol (sfs_itrunc hw_read hw_write ino len).

Definition sfs_creat (mem grow : bool) (dir : Z) (name : list Z) (excl : bool) : FS (Z + Z) :=
  f ←! on_vol (sfs_dir_findname hw_read hw_write dir name);
  match f_hit f with
  | Some (ino, _) => if excl then mret (inl EEXIST) else sfs_loadvnode mem grow ino SFS_TYPE_INVAL
  | None =>
      newguy ←! sfs_makeobj mem grow SFS_TYPE_FILE;
      r ← on_vol (sfs_dir_link hw_read hw_write dir name newguy);
      match r with
      | inl e => VOP_DECREF newguy ;; mret (inl e)
      | inr _ =>
          sv ← node newguy;
          put_node newguy (set_linkcount (wrap 16 (sfi_linkcount (sv_i sv) + 1)) sv) ;;
          mret (inr newguy)
      end
  end.

Definition sfs_link (dir : Z) (name : list Z) (file : Z) : FS (Z + unit) :=
  f ← node file;
  if sfi_type (sv_i f) =? SFS_TYPE_DIR then mret (inl EINVAL)
  else
    _ ←! on_vol (sfs_dir_link hw_read hw_write dir name file);
    f ← node file;
    put_node file (set_linkcount (wrap 16 (sfi_linkcount (sv_i f) + 1)) f) ;;
    mret (inr tt).

Definition sfs_remove (mem grow : bool) (dir : Z) (name : list Z) : FS (Z + unit) :=
  x ←! sfs_lookonce mem grow dir name;
  let '(victim, slot) := x in
  r ← on_vol (sfs_dir_unlink hw_read hw_write dir slot);
  match r with
  | inr _ =>
      sv ← node victim;
      KASSERT (0 <? sfi_linkcount (sv_i sv)) "victim->sv_i.sfi_linkcount > 0" ;;
      put_node victim (set_linkcount (sfi_linkcount (sv_i sv) - 1) sv)
  | inl _ => mret tt
  end ;;
  VOP_DECREF victim ;;
  mret r.

(** The two directories are the same, the root. *)
Definition sfs_rename (mem grow : bool) (d1 : Z) (n1 : list Z) (d2 : Z) (n2 : list Z) : FS (Z + unit) :=
  KASSERT (d1 =? d2) "d1==d2" ;;
  KASSERT (d1 =? SFS_ROOTDIR_INO) "sv->sv_ino == SFS_ROOTDIR_INO" ;;
  x ←! sfs_lookonce mem grow d1 n1;
  let '(g1, slot1) := x in
  sv ← node g1;
  KASSERT (sfi_type (sv_i sv) =? SFS_TYPE_FILE) "g1->sv_i.sfi_type == SFS_TYPE_FILE" ;;
  r ← on_vol (sfs_dir_link hw_read hw_write d1 n2 g1);
  match r with
  | inl e => VOP_DECREF g1 ;; mret (inl e)
  | inr slot2 =>
      sv ← node g1;
      put_node g1 (set_linkcount (wrap 16 (sfi_linkcount (sv_i sv) + 1)) sv) ;;
      r ← on_vol (sfs_dir_unlink hw_read hw_write d1 slot1);
      match r with
      | inr _ =>
          sv ← node g1;
          KASSERT (0 <? sfi_linkcount (sv_i sv)) "g1->sv_i.sfi_linkcount>0" ;;
          put_node g1 (set_linkcount (sfi_linkcount (sv_i sv) - 1) sv) ;;
          VOP_DECREF g1 ;;
          mret (inr tt)
      | inl e =>
          r2 ← on_vol (sfs_dir_unlink hw_read hw_write d1 slot2);
          match r2 with
          | inl _ => panic "sfs: rename: Cannot recover"
          | inr _ =>
              sv ← node g1;
              put_node g1 (Vnode (sv_i (set_linkcount (wrap 16 (sfi_linkcount (sv_i sv) - 1)) sv)) (sv_dirty sv)) ;;
              VOP_DECREF g1 ;;
              mret (inl e)
          end
      end
  end.

Definition sfs_lookup (mem grow : bool) (dir : Z) (path : list Z) : FS (Z + Z) :=
  sv ← node dir;
  if negb (sfi_type (sv_i sv) =? SFS_TYPE_DIR) then mret (inl ENOTDIR)
  else x ←! sfs_lookonce mem grow dir path; mret (inr (fst x)).

(** The directory, and the name copied to the buffer of [buflen] bytes. *)
Definition sfs_lookparent (dir : Z) (path : list Z) (buflen : Z) : FS (Z + Z * list Z) :=
  sv ← node dir;
  if negb (sfi_type (sv_i sv) =? SFS_TYPE_DIR) then mret (inl ENOTDIR)
  else if buflen <? zlen path + 1 then mret (inl ENAMETOOLONG)
  else VOP_INCREF dir ;; mret (inr (dir, path)).

(** ** sfs_fsops.c *)

Fixpoint freemap_write (n : nat) (j : Z) (data : list Z) : K vol (Z + unit) :=
  match n with
  | O => mret (inr tt)
  | S n' =>
      _ ←! sfs_writeblock hw_read hw_write (SFS_FREEMAP_START + j) (take 512 (drop (Z.to_nat (j * SFS_BLOCKSIZE)) data));
      freemap_write n' (j + 1) data
  end.
Fixpoint freemap_read (n : nat) (j : Z) (data : list Z) : K vol (Z + list Z) :=
  match n with
  | O => mret (inr data)
  | S n' =>
      b ←! sfs_readblock hw_read hw_write (SFS_FREEMAP_START + j);
      freemap_read n' (j + 1) (splice data (j * SFS_BLOCKSIZE) b)
  end.

(** [sfs_freemapio(sfs, UIO_WRITE)] and [sfs_freemapio(sfs, UIO_READ)]. *)
Definition freemapio_write : K vol (Z + unit) :=
  v ← gets (λ v, v);
  freemap_write (Z.to_nat (SFS_FREEMAPBLOCKS (sb_nblocks v))) 0 (bitmap_getdata (freemap v)).
Definition freemapio_read : K vol (Z + unit) :=
  v ← gets (λ v, v);
  data ←! freemap_read (Z.to_nat (SFS_FREEMAPBLOCKS (sb_nblocks v))) 0 (bitmap_getdata (freemap v));
  modify (λ v, Vol (dev v) (d_blocks v) (sb_nblocks v) (Bitmap (nbits (freemap v)) data) (freemapdirty v) (nodes v) (kmem v)) ;;
  mret (inr tt).

(** The results of [VOP_FSYNC] are not looked at. *)
Fixpoint sync_loop (l : list tnode) : FS unit :=
  match l with [] => mret tt | t :: l' => _ ← sfs_fsync (tn_ino t); sync_loop l' end.
Definition sfs_sync_vnodes : FS unit := l ← gets sfs_vnodes; sync_loop l.

Definition clean_freemap (v : vol (D := D)) : vol := Vol (dev v) (d_blocks v) (sb_nblocks v) (freemap v) false (nodes v) (kmem v).
Definition sfs_sync_freemap : FS (Z + unit) :=
  d ← on_vol (gets freemapdirty);
  if d : bool then _ ←! on_vol freemapio_write; on_vol (modify clean_freemap) ;; mret (inr tt) else mret (inr tt).
Definition sfs_sync_superblock : FS (Z + unit) :=
  s ← gets (λ s, s);
  if sfs_superdirty s then
    _ ←! on_vol (sfs_writeblock hw_read hw_write SFS_SUPER_BLOCK (encode_super (sfs_sb s)));
    modify (set_superdirty false) ;; mret (inr tt)
  else mret (inr tt).

Definition sfs_sync : FS (Z + unit) := sfs_sync_vnodes ;; _ ←! sfs_sync_freemap; sfs_sync_superblock.

(** Unmounting leaves the device. *)
Definition sfs_unmount : FS (Z + D) :=
  s ← gets (λ s, s);
  if 0 <? zlen (sfs_vnodes s) then mret (inl EBUSY)
  else
    KASSERT (negb (sfs_superdirty s)) "sfs->sfs_superdirty == false" ;;
    KASSERT (negb (freemapdirty (fs_vol s))) "sfs->sfs_freemapdirty == false" ;;
    mret (inr (dev (fs_vol s))).

(** [blocks] is the size of the device and [m] the memory of the kernel; [room] and [maproom] say whether there is memory
    for the structures and for the map.  [inl] is an error. *)
Definition sfs_domount (room maproom : bool) (blocks blocksize : Z) (d : D) (m : mem) : outcome unit (Z + sfs_fs) :=
  if negb (blocksize =? SFS_BLOCKSIZE) then Ret (inl ENXIO) tt
  else if negb room then Ret (inl ENOMEM) tt
  else
    let v0 := Vol d blocks 0 (Bitmap 0 []) false ∅ m in
    match (data ←! sfs_readblock hw_read hw_write SFS_SUPER_BLOCK;
           let sb := decode_super data in
           if negb (sb_magic sb =? SFS_MAGIC) then mret (inl EINVAL)
           else
             o ← bitmap_create true maproom (SFS_FREEMAPBITS (sb_blocks sb));
             match o with
             | None => mret (inl ENOMEM)
             | Some b =>
                 modify (λ v, Vol (dev v) (d_blocks v) (sb_blocks sb) b false ∅ (kmem v)) ;;
                 _ ←! freemapio_read;
                 mret (inr (Superblock (sb_magic sb) (sb_blocks sb) (arr_set (sb_volname sb) (SFS_VOLNAME_SIZE - 1) 0) (sb_reserved sb)))
             end) v0 with
    | Ret (inl e) _ => Ret (inl e) tt
    | Ret (inr sb) v => Ret (inr (SfsFs v [] sb false)) tt
    | Panic w => Panic w
    | Exit c _ => Exit c tt
    | Diverge => Diverge
    end.

End sfs.
