(* ===== verification/SfsInv.v ===== *)
(** * SfsInv: the inodes of a volume, in memory and on the disk

    Inodes exist on the disk, and some are loaded; the ones in memory may be newer.  [files_ok P v] is the
    invariant of a volume whose inodes are the set [P]: every inode has a block, its file has valid blocks of its own,
    and an inode in memory that is not dirty is the one on the disk.  The lemmas are about what
    the code does to a volume: a step on one file, a new inode, loading, writing back, giving up. *)

From Stdlib Require Import ZArith Lia.
From stdpp Require Import base gmap list option strings list_numbers.
From S2P Require Import Prelude Types Strings Bitmap Uio Sfs Disk SfsFile SfsIo SfsVol SfsTrunc SfsDir SfsNode.
Set Default Goal Selector "!".
Open Scope Z_scope.

(** ** Inodes as blocks *)

Record inode_ok (n : sfs_dinode) : Prop := {
  io_sizes : 0 ≤ sfi_size n < 2 ^ 32;
  io_types : 0 ≤ sfi_type n < 2 ^ 16;
  io_links : 0 ≤ sfi_linkcount n < 2 ^ 16;
  io_waste : words_ok (sfi_waste n);
  io_wasted : length (sfi_waste n) = 110%nat;
}.

Lemma decode_encode_inode n :
  inode_ok n → length (sfi_direct n) = 15%nat → words_ok (sfi_direct n) → 0 ≤ sfi_indirect n < 2 ^ 32 →
  decode_inode (encode_inode n) = n ∧ zlen (encode_inode n) = 512 ∧ bytes_ok (encode_inode n).
Proof.
  intros [H1 H2 H3 H4 H5] Hd Hdw Hi. unfold encode_inode. split_and!; [| |apply bytes_of_ok].
  - unfold decode_inode. cbv zeta beta. rewrite words_bytes.
    2: { constructor; [done|]. constructor; [lia|]. apply Forall_app. split; [done|]. by constructor. }
    set (ws := _ :: _). assert (E1 : arr_get ws 1 = Some (sfi_type n * 2 ^ 16 + sfi_linkcount n)) by done.
    assert (E17 : arr_get ws 17 = Some (sfi_indirect n)).
    { unfold ws. rewrite !arr_get_tl by lia. rewrite arr_get_nonneg, lookup_app_r by lia. rewrite Hd. done. }
    rewrite E1, E17. cbn [default from_option id]. change (default 0 (arr_get ws 0)) with (sfi_size n).
    rewrite Z.div_add_l, Z.div_small, Z.add_0_r by lia. rewrite (Z.add_comm (_ * _)), Z.mod_add, Z.mod_small by lia.
    change (drop 2 ws) with (sfi_direct n ++ sfi_indirect n :: sfi_waste n). rewrite take_app_length' by done.
    change (drop 18 ws) with (drop 16 (sfi_direct n ++ sfi_indirect n :: sfi_waste n)).
    rewrite (drop_app_ge _ _ 16) by lia. rewrite Hd. cbn. by destruct n.
  - rewrite length_bytes_of. cbn [length]. rewrite length_app, Hd. cbn [length]. rewrite H5. done.
Qed.

Lemma decode_zero : decode_inode (replicate 512 0) = Dinode 0 0 0 (replicate 15 0) 0 (replicate 110 0).
Proof. reflexivity. Qed.

Section inv.
Context {D : Type} (hw_read : D → Z → D * (Z + list Z)) (hw_write : D → Z → list Z → D * Z) (contents : D → Z → list Z).
Context `{Hd : !DiskLaws hw_read hw_write contents}.
Implicit Types v : vol (D := D).
Implicit Types n : sfs_dinode.
Implicit Types P : gset Z.

Local Abbreviation blk := (blk contents).
Local Abbreviation alike := (alike contents).
Local Abbreviation written := (written contents).
Local Abbreviation allocated := (allocated contents).
Local Abbreviation ptr := (ptr contents).
Local Abbreviation fbyte := (fbyte contents).
Local Abbreviation owns := (owns contents).
Local Abbreviation file_wf := (file_wf contents).
Local Abbreviation file_kept := (file_kept contents).
Local Abbreviation loaded := (loaded contents).
Local Abbreviation step := (step contents).

(** The current inode: in memory, or else on the disk. *)
Definition inode v (x : Z) : sfs_dinode :=
  match nodes v !! x with Some sv => sv_i sv | None => decode_inode (blk v x) end.

(** The blocks of the map of free blocks. *)
Definition reserved v (b : Z) : Prop := SFS_FREEMAP_START ≤ b < SFS_FREEMAP_START + SFS_FREEMAPBLOCKS (sb_nblocks v).

Record files_ok P v : Prop := {
  fo_ok : vol_ok v;
  fo_root : SFS_ROOTDIR_INO ∈ P;
  fo_loaded : ∀ x sv, nodes v !! x = Some sv → x ∈ P;
  fo_block : ∀ x, x ∈ P → valid_block v x;
  fo_file : ∀ x, x ∈ P → file_wf v (inode v x) ∧ inode_ok (inode v x);
  fo_apart : ∀ x y b, x ∈ P → y ∈ P → x ≠ y → owns v (inode v x) b → ¬ owns v (inode v y) b;
  fo_inode : ∀ x y, x ∈ P → y ∈ P → ¬ owns v (inode v y) x;
  fo_reserved : ∀ b, reserved v b → b ∈ used v ∧ (b ∉ P) ∧ ∀ x, x ∈ P → ¬ owns v (inode v x) b;
  fo_clean : ∀ x sv, nodes v !! x = Some sv → sv_dirty sv = false → decode_inode (blk v x) = sv_i sv;
}.

Lemma files_loaded P v x sv : files_ok P v → nodes v !! x = Some sv → loaded x sv v.
Proof.
  intros F Hn. pose proof (fo_loaded _ _ F x sv Hn) as Hx. split; [done|apply F|].
  pose proof (proj1 (fo_file _ _ F x Hx)) as Hw. unfold inode in Hw. by rewrite Hn in Hw.
Qed.

(** Words of an inode are numbers of blocks. *)
Lemma inode_words v n : vol_ok v → file_wf v n → length (sfi_direct n) = 15%nat ∧ words_ok (sfi_direct n) ∧ 0 ≤ sfi_indirect n < 2 ^ 32.
Proof.
  intros Hok Hwf. pose proof (fw_direct _ _ _ Hwf) as Hl. unfold SFS_NDIRECT in Hl. pose proof (vo_disk _ Hok). pose proof (vo_size _ Hok).
  assert (Hv : ∀ b, owns v n b → 0 ≤ b < 2 ^ 32) by (intros b Hb; destruct (fw_valid _ _ _ Hwf b Hb); lia).
  split; [lia|]. split.
  - apply Forall_lookup. intros k b Hb. destruct (decide (b = 0)) as [->|Hb0]; [done|]. apply Hv. split; [done|]. right. exists (Z.of_nat k).
    pose proof (lookup_lt_Some _ _ _ Hb). unfold MAXBLOCKS, SFS_NDIRECT, SFS_DBPERIDB. split; [lia|].
    apply direct_ptr; [unfold SFS_NDIRECT; lia|]. rewrite arr_get_nonneg, Nat2Z.id by lia. done.
  - destruct (decide (sfi_indirect n = 0)) as [->|Hne]; [done|]. apply Hv. split; [done|by left].
Qed.

Lemma encoded P v x : files_ok P v → x ∈ P →
  decode_inode (encode_inode (inode v x)) = inode v x ∧ zlen (encode_inode (inode v x)) = 512 ∧ bytes_ok (encode_inode (inode v x)).
Proof.
  intros F Hx. destruct (fo_file _ _ F x Hx) as [Hwf Hok]. destruct (inode_words v _ (fo_ok _ _ F) Hwf) as (H1 & H2 & H3). by apply decode_encode_inode.
Qed.

(** ** A step on one file *)

Definition others_kept P v v' (x : Z) : Prop := ∀ y, y ∈ P → y ≠ x → inode v' y = inode v y ∧ file_kept v v' (inode v y).

Lemma files_step P v x sv sv' v' :
  files_ok P v → nodes v !! x = Some sv → step x sv v sv' v' → inode_ok (sv_i sv') →
  files_ok P v' ∧ others_kept P v v' x ∧ inode v' x = sv_i sv'.
Proof.
  intros F Hn S Hok. pose proof (fo_loaded _ _ F x sv Hn) as Hx. pose proof (st_nodes _ _ _ _ _ _ S) as Hnodes.
  destruct (st_loaded _ _ _ _ _ _ S) as [Hn' Hok' Hwf'].
  assert (Hix : inode v x = sv_i sv) by (unfold inode; by rewrite Hn).
  assert (Hix' : inode v' x = sv_i sv') by (unfold inode; by rewrite Hn').
  assert (Hblk : ∀ y, y ∈ P → y ∈ used v' ∧ blk v' y = blk v y ∧ ¬ owns v' (sv_i sv') y).
  { intros y Hy. apply (st_frame _ _ _ _ _ _ S); [by apply (fo_block _ _ F)|]. rewrite <- Hix. by apply (fo_inode _ _ F). }
  assert (Hoth : ∀ y, y ∈ P → y ≠ x → inode v' y = inode v y ∧ file_kept v v' (inode v y) ∧ ∀ b, owns v' (inode v y) b → ¬ owns v' (sv_i sv') b).
  { intros y Hy Hyx. split.
    - unfold inode. rewrite Hnodes, lookup_insert_ne by done. destruct (nodes v !! y); [done|]. by rewrite (proj1 (proj2 (Hblk y Hy))).
    - eapply step_other; [done|by apply (fo_file _ _ F)|]. rewrite <- Hix. intros b Hb. by apply (fo_apart _ _ F y x). }
  split; [|split; [intros y Hy Hyx; split; by apply Hoth|done]]. split.
  - done.
  - apply F.
  - intros y sw. rewrite Hnodes. destruct (decide (y = x)) as [->|Hyx]; [done|]. rewrite lookup_insert_ne by done. apply (fo_loaded _ _ F).
  - intros y Hy. split; [|by apply Hblk]. rewrite (st_nblocks _ _ _ _ _ _ S). by apply (fo_block _ _ F).
  - intros y Hy. destruct (decide (y = x)) as [->|Hyx]; [by rewrite Hix'|]. destruct (Hoth y Hy Hyx) as (-> & [Hk _] & _). split; [done|by apply (fo_file _ _ F)].
  - intros y z b Hy Hz Hyz. destruct (decide (y = x)) as [->|Hyx], (decide (z = x)) as [->|Hzx]; [done| | |].
    + destruct (Hoth z Hz Hzx) as (-> & _ & Hno). rewrite Hix'. intros H1 H2. by apply (Hno b).
    + destruct (Hoth y Hy Hyx) as (-> & _ & Hno). rewrite Hix'. apply Hno.
    + destruct (Hoth y Hy Hyx) as (-> & (_ & Ho & _) & _). destruct (Hoth z Hz Hzx) as (-> & (_ & Ho2 & _) & _).
      rewrite Ho, Ho2. by apply (fo_apart _ _ F).
  - intros y z Hy Hz. destruct (decide (z = x)) as [->|Hzx]; [rewrite Hix'; by apply Hblk|].
    destruct (Hoth z Hz Hzx) as (-> & (_ & Ho & _) & _). rewrite Ho. by apply (fo_inode _ _ F).
  - intros b Hb. assert (Hb0 : reserved v b) by (unfold reserved in *; by rewrite (st_nblocks _ _ _ _ _ _ S) in Hb).
    destruct (fo_reserved _ _ F b Hb0) as (Hu & HP & Hno). destruct (st_frame _ _ _ _ _ _ S b Hu) as (Hu' & _ & Hno'); [rewrite <- Hix; by apply Hno|].
    split_and!; [done|done|]. intros y Hy. destruct (decide (y = x)) as [->|Hyx]; [by rewrite Hix'|].
    destruct (Hoth y Hy Hyx) as (-> & (_ & Ho & _) & _). rewrite Ho. by apply Hno.
  - intros y sw. rewrite Hnodes. destruct (decide (y = x)) as [->|Hyx].
    + rewrite lookup_insert_eq. intros [= <-] Hc. destruct (st_dirty _ _ _ _ _ _ S) as [->|]; [|congruence].
      rewrite (proj1 (proj2 (Hblk x Hx))). by apply (fo_clean _ _ F).
    + rewrite lookup_insert_ne by done. intros Hsw Hc. rewrite (proj1 (proj2 (Hblk y (fo_loaded _ _ F y sw Hsw)))). by apply (fo_clean _ _ F y).
Qed.

(** Only fields of the inode change. *)
Lemma step_fields x sv v sv' :
  loaded x sv v → sfi_direct (sv_i sv') = sfi_direct (sv_i sv) → sfi_indirect (sv_i sv') = sfi_indirect (sv_i sv) → sv_dirty sv' = true →
  step x sv v sv' (set_node x sv' v).
Proof.
  intros [L1 [V1 V2 V3 V4 V5 V6] [F1 F2 F3 F4]] E1 E2 Hdirty. set (v' := set_node x sv' v).
  assert (Hp : ∀ i, ptr v' (sv_i sv') i = ptr v (sv_i sv) i) by (intros i; unfold SfsFile.ptr; by rewrite E1, E2).
  assert (Ho : ∀ b, owns v' (sv_i sv') b ↔ owns v (sv_i sv) b) by (intros b; unfold SfsFile.owns; rewrite E2; by setoid_rewrite Hp).
  split; [done| | |done|by right].
  - split; [apply lookup_insert_eq|by split|]. split; [by rewrite E1|intros b Hb; by apply F2, Ho|intros i j; rewrite !Hp; apply F3|intros i; rewrite Hp, E2; apply F4].
  - intros b Hu Hno. by rewrite Ho.
Qed.

(** ** Loading, writing back, unloading *)

(** The volume is as before up to where the inodes are. *)
Lemma files_same P v v' :
  files_ok P v → vol_ok v' → sb_nblocks v' = sb_nblocks v → used v' = used v →
  (∀ y b, y ∈ P → owns v (inode v y) b → blk v' b = blk v b) → (∀ y, y ∈ P → inode v' y = inode v y) →
  (∀ x sv, nodes v' !! x = Some sv → x ∈ P ∧ (sv_dirty sv = false → decode_inode (blk v' x) = sv_i sv)) →
  files_ok P v' ∧ ∀ y, y ∈ P → file_kept v v' (inode v y).
Proof.
  intros F Hok Hnb Hu Hb Hin Hnodes.
  assert (Hv : ∀ y, y ∈ P → (∀ b, owns v' (inode v y) b ↔ owns v (inode v y) b) ∧ file_kept v v' (inode v y)).
  { intros y Hy. assert (Hk : file_kept v v' (inode v y)); [|split; [apply Hk|done]].
    apply kept_same; [intros b; by apply Hb|intros b _; by rewrite Hu|done|by apply (fo_file _ _ F)]. }
  split; [|intros y Hy; by apply Hv]. split.
  - done.
  - apply F.
  - intros x sv Hx. by apply (Hnodes x sv).
  - intros x Hx. unfold valid_block. rewrite Hnb, Hu. by apply (fo_block _ _ F).
  - intros x Hx. rewrite Hin by done. split; [by apply Hv|by apply (fo_file _ _ F)].
  - intros x y b Hx Hy Hxy. rewrite !Hin by done. rewrite (proj1 (Hv x Hx)), (proj1 (Hv y Hy)). by apply (fo_apart _ _ F).
  - intros x y Hx Hy. rewrite Hin by done. rewrite (proj1 (Hv y Hy)). by apply (fo_inode _ _ F).
  - intros b Hr. unfold reserved in Hr. rewrite Hnb in Hr. rewrite Hu. destruct (fo_reserved _ _ F b Hr) as (H1 & H2 & H3). split_and!; [done|done|].
    intros x Hx. rewrite Hin by done. rewrite (proj1 (Hv x Hx)). by apply H3.
  - intros x sv Hx. by apply (Hnodes x sv).
Qed.

Lemma files_view P v v' :
  files_ok P v → vol_ok v' → sb_nblocks v' = sb_nblocks v → used v' = used v →
  (∀ b, b ∈ used v → b ∉ P → blk v' b = blk v b) → (∀ y, y ∈ P → inode v' y = inode v y) →
  (∀ x sv, nodes v' !! x = Some sv → x ∈ P ∧ (sv_dirty sv = false → decode_inode (blk v' x) = sv_i sv)) →
  files_ok P v' ∧ ∀ y, y ∈ P → file_kept v v' (inode v y).
Proof.
  intros F Hok Hnb Hu Hblk. apply files_same; [done..|]. intros y b Hy Hown.
  apply Hblk; [by apply (fw_valid _ _ _ (proj1 (fo_file _ _ F y Hy)))|]. intros HbP. by apply (fo_inode _ _ F b y).
Qed.

Lemma vol_ok_node x sv v : vol_ok v → vol_ok (set_node x sv v).
Proof. intros [V1 V2 V3 V4 V5 V6]. by split. Qed.

Lemma files_alike P v v' : files_ok P v → alike v v' → files_ok P v' ∧ (∀ y, inode v' y = inode v y) ∧ ∀ y, y ∈ P → file_kept v v' (inode v y).
Proof.
  intros F Ha. assert (Hi : ∀ y, inode v' y = inode v y) by (intros y; unfold inode; by rewrite (al_nodes _ _ _ Ha), (al_blk _ _ _ Ha)).
  destruct (files_view P v v' F) as [F' Hk]; [by rewrite <- Ha; apply F|apply Ha|unfold used; by rewrite (al_freemap _ _ _ Ha)|intros; apply Ha|done| |done].
  intros x sv. rewrite (al_nodes _ _ _ Ha), (al_blk _ _ _ Ha). intros Hx. split; [by apply (fo_loaded _ _ F x sv)|by apply (fo_clean _ _ F x)].
Qed.

Lemma files_load P v x :
  files_ok P v → x ∈ P → nodes v !! x = None →
  let v' := set_node x (Vnode (decode_inode (blk v x)) false) v in
  files_ok P v' ∧ (∀ y, inode v' y = inode v y) ∧ ∀ y, y ∈ P → file_kept v v' (inode v y).
Proof.
  intros F Hx Hn v'.
  assert (Hi : ∀ y, inode v' y = inode v y).
  { intros y. unfold inode. change (nodes v') with (<[x := Vnode (decode_inode (blk v x)) false]> (nodes v)).
    destruct (decide (y = x)) as [->|Hy]; [by rewrite lookup_insert_eq, Hn|by rewrite lookup_insert_ne]. }
  destruct (files_view P v v' F) as [F' Hk]; [by apply vol_ok_node, F|done|done|done|done| |done].
  intros y sv. change (nodes v') with (<[x := Vnode (decode_inode (blk v x)) false]> (nodes v)). destruct (decide (y = x)) as [->|Hy].
  - rewrite lookup_insert_eq. intros [= <-]. done.
  - rewrite lookup_insert_ne by done. intros Hsw. split; [by apply (fo_loaded _ _ F y sv)|by apply (fo_clean _ _ F y)].
Qed.

Lemma files_sync P v x sv v1 :
  files_ok P v → nodes v !! x = Some sv → written v v1 x (encode_inode (sv_i sv)) →
  let v' := set_node x (set_clean sv) v1 in
  files_ok P v' ∧ (∀ y, y ∈ P → inode v' y = inode v y) ∧ ∀ y, y ∈ P → file_kept v v' (inode v y).
Proof.
  intros F Hn W v'. pose proof (fo_loaded _ _ F x sv Hn) as Hx. destruct W as [W1 W2 W3 W4 W5 W6 W7].
  assert (Hix : inode v x = sv_i sv) by (unfold inode; by rewrite Hn).
  assert (Hnodes : nodes v' = <[x := set_clean sv]> (nodes v)) by (cbn; by rewrite W5).
  assert (Hblk : ∀ b, blk v' b = if decide (b = x) then encode_inode (sv_i sv) else blk v b) by exact W1.
  assert (Hi : ∀ y, y ∈ P → inode v' y = inode v y).
  { intros y Hy. unfold inode. rewrite Hnodes. destruct (decide (y = x)) as [->|Hyx]; [by rewrite lookup_insert_eq, Hn|].
    rewrite lookup_insert_ne, Hblk, decide_False by done. done. }
  destruct (files_view P v v' F) as [F' Hk]; try done.
  - apply vol_ok_node. destruct (fo_ok _ _ F). split; unfold used in *; rewrite ?W2, ?W3, ?W4; done.
  - unfold used. change (freemap v') with (freemap v1). by rewrite W4.
  - intros b _ HbP. rewrite Hblk, decide_False; [done|]. by intros ->.
  - intros y sw. rewrite Hnodes. destruct (decide (y = x)) as [->|Hyx].
    + rewrite lookup_insert_eq. intros [= <-]. split; [done|]. intros _. rewrite Hblk, decide_True by done. cbn [set_clean sv_i]. rewrite <- Hix. apply (encoded P v x F Hx).
    + rewrite lookup_insert_ne by done. intros Hsw. split; [by apply (fo_loaded _ _ F y sw)|]. rewrite Hblk, decide_False by done. by apply (fo_clean _ _ F y).
Qed.

Lemma files_unload P v x sv :
  files_ok P v → nodes v !! x = Some sv → sv_dirty sv = false →
  files_ok P (drop_node x v) ∧ (∀ y, inode (drop_node x v) y = inode v y) ∧ ∀ y, y ∈ P → file_kept v (drop_node x v) (inode v y).
Proof.
  intros F Hn Hc.
  assert (Hi : ∀ y, inode (drop_node x v) y = inode v y).
  { intros y. unfold inode. change (nodes (drop_node x v)) with (delete x (nodes v)).
    destruct (decide (y = x)) as [->|Hy]; [rewrite lookup_delete_eq, Hn; by apply (fo_clean _ _ F)|by rewrite lookup_delete_ne]. }
  destruct (files_view P v (drop_node x v) F) as [F' Hk]; [destruct (fo_ok _ _ F); by split|done|done|done|done| |done].
  intros y sw. change (nodes (drop_node x v)) with (delete x (nodes v)). rewrite lookup_delete_Some. intros [_ Hsw].
  split; [by apply (fo_loaded _ _ F y sw)|by apply (fo_clean _ _ F y)].
Qed.

(** ** A new inode, and one that is given up *)

Lemma owns_zero v type : ∀ b, ¬ owns v (Dinode 0 type 0 (replicate 15 0) 0 (replicate 110 0)) b.
Proof.
  intros b [Hb [->|(i & Hi & <-)]]; [done|]. apply Hb. unfold SfsFile.ptr. cbn [sfi_direct sfi_indirect]. change (0 =? 0) with true. cbv iota.
  destruct (Z.ltb_spec i SFS_NDIRECT); [|done]. unfold SFS_NDIRECT in *. by rewrite arr_get_nonneg, lookup_replicate_2 by lia.
Qed.

Lemma files_new P v v1 x type :
  files_ok P v → allocated v v1 x → 0 ≤ type < 2 ^ 16 →
  let v' := set_node x (Vnode (Dinode 0 type 0 (replicate 15 0) 0 (replicate 110 0)) true) v1 in
  (x ∉ P) ∧ files_ok ({[x]} ∪ P) v' ∧ others_kept P v v' x.
Proof.
  intros F A Ht v'. destruct A as [[A1 A1'] A2 A3 A4 A5 A6 A7 A8]. set (n := Dinode 0 type 0 _ 0 _) in *.
  assert (HxP : x ∉ P) by (intros HxP; apply A1; by apply (fo_block _ _ F)).
  assert (Hnodes : nodes v' = <[x := Vnode n true]> (nodes v)) by (cbn; by rewrite A7).
  assert (Hblk : ∀ b, b ∈ used v → blk v' b = blk v b).
  { intros b Hb. change (blk v' b) with (blk v1 b). rewrite A3, decide_False; [done|]. by intros ->. }
  assert (Hused : used v' = {[x]} ∪ used v) by exact A2.
  assert (Hix : inode v' x = n) by (unfold inode; by rewrite Hnodes, lookup_insert_eq).
  assert (Hix' : ∀ b, ¬ owns v' n b) by apply owns_zero.
  assert (Hin : ∀ y, y ∈ P → inode v' y = inode v y).
  { intros y Hy. unfold inode. rewrite Hnodes, lookup_insert_ne by (by intros ->). destruct (nodes v !! y); [done|]. rewrite Hblk; [done|]. by apply (fo_block _ _ F). }
  assert (Hk : ∀ y, y ∈ P → (∀ b, owns v' (inode v y) b ↔ owns v (inode v y) b) ∧ file_kept v v' (inode v y)).
  { intros y Hy. pose proof (proj1 (fo_file _ _ F y Hy)) as Hwf. assert (Hk : file_kept v v' (inode v y)); [|split; [apply Hk|done]].
    apply kept_same; [intros b Hb; by apply Hblk, (fw_valid _ _ _ Hwf)|intros b _ Hb; rewrite Hused; by apply elem_of_union_r|done|done]. }
  split; [done|]. split; [|intros y Hy _; split; [by apply Hin|by apply Hk]].
  assert (Hcase : ∀ y, y ∈ {[x]} ∪ P → y = x ∨ y ∈ P) by (intros y; rewrite elem_of_union, elem_of_singleton; tauto).
  assert (Hself : ∀ S : gset Z, x ∈ {[x]} ∪ S) by (intros S; apply elem_of_union_l, elem_of_singleton_2; done).
  split.
  - by apply vol_ok_node.
  - apply elem_of_union_r, F.
  - intros y sw. rewrite Hnodes, lookup_insert_Some. intros [[-> _]|[_ Hsw]]; [apply Hself|]. apply elem_of_union_r. by apply (fo_loaded _ _ F y sw).
  - intros y [->|Hy]%Hcase; unfold valid_block; rewrite Hused; change (sb_nblocks v') with (sb_nblocks v1); rewrite A6; [split; [done|apply Hself]|].
    destruct (fo_block _ _ F y Hy). split; [done|by apply elem_of_union_r].
  - intros y [->|Hy]%Hcase.
    + rewrite Hix. split; [|split; [cbn; lia|cbn; lia|cbn; lia|by apply Forall_replicate|done]].
      split; [done|intros b Hb; by destruct (Hix' b)|intros i j Hi _ _ Hp; by destruct (Hix' _ (ptr_owns contents _ _ _ Hi Hp))|].
      intros i Hi Hp. by destruct (Hix' _ (ptr_owns contents _ _ _ Hi Hp)).
    + rewrite Hin by done. split; [by apply Hk|by apply (fo_file _ _ F)].
  - intros y z b [->|Hy]%Hcase [->|Hz]%Hcase Hyz; [done| | |].
    + rewrite Hix. intros Hb. by destruct (Hix' b).
    + rewrite Hix. intros _ Hb. by destruct (Hix' b).
    + rewrite !Hin by done. rewrite (proj1 (Hk y Hy)), (proj1 (Hk z Hz)). by apply (fo_apart _ _ F).
  - intros y z [->|Hy]%Hcase [->|Hz]%Hcase; [by rewrite Hix| |by rewrite Hix|].
    + rewrite Hin by done. rewrite (proj1 (Hk z Hz)). intros Hb. apply A1. by apply (fw_valid _ _ _ (proj1 (fo_file _ _ F z Hz))).
    + rewrite Hin by done. rewrite (proj1 (Hk z Hz)). by apply (fo_inode _ _ F).
  - intros b Hr. unfold reserved in Hr. change (sb_nblocks v') with (sb_nblocks v1) in Hr. rewrite A6 in Hr. destruct (fo_reserved _ _ F b Hr) as (H1 & H2 & H3).
    split_and!; [rewrite Hused; by apply elem_of_union_r|intros [->|]%Hcase; done|]. intros y [->|Hy]%Hcase; [by rewrite Hix|]. rewrite Hin by done. rewrite (proj1 (Hk y Hy)). by apply H3.
  - intros y sw. rewrite Hnodes, lookup_insert_Some. intros [[_ <-]|[Hne Hsw]]; [done|]. intros Hc. rewrite Hblk; [by apply (fo_clean _ _ F y)|].
    by apply (fo_block _ _ F), (fo_loaded _ _ F y sw).
Qed.

(** An inode without blocks is given up with its own block. *)
Lemma files_delete P v x sv v1 :
  files_ok P v → nodes v !! x = Some sv → x ≠ SFS_ROOTDIR_INO → (∀ b, ¬ owns v (sv_i sv) b) →
  used v1 = used v ∖ {[x]} → vol_ok v1 → (∀ c, blk v1 c = blk v c) → sb_nblocks v1 = sb_nblocks v → nodes v1 = nodes v →
  files_ok (P ∖ {[x]}) (drop_node x v1) ∧ others_kept P v (drop_node x v1) x.
Proof.
  intros F Hn Hroot Hnone Hu Hok Hblk Hnb Hnodes. set (v' := drop_node x v1). pose proof (fo_loaded _ _ F x sv Hn) as Hx.
  assert (Hn' : nodes v' = delete x (nodes v)) by (cbn; by rewrite Hnodes).
  assert (Hin : ∀ y, y ≠ x → inode v' y = inode v y).
  { intros y Hy. unfold inode. rewrite Hn', lookup_delete_ne by done. destruct (nodes v !! y); [done|]. change (blk v' y) with (blk v1 y). by rewrite Hblk. }
  assert (Hused : ∀ b, b ∈ used v' ↔ b ∈ used v ∧ b ≠ x) by (intros b; change (used v') with (used v1); rewrite Hu, elem_of_difference, elem_of_singleton; done).
  assert (Hkeep : ∀ y, y ∈ P → y ≠ x → (∀ b, owns v' (inode v y) b ↔ owns v (inode v y) b) ∧ file_kept v v' (inode v y)).
  { intros y Hy Hyx. assert (Hk : file_kept v v' (inode v y)); [|split; [apply Hk|done]].
    apply kept_same; [intros b _; apply Hblk| |done|by apply (fo_file _ _ F)]. intros b Hb Hub. apply Hused. split; [done|]. intros ->. by apply (fo_inode _ _ F x y). }
  assert (Hcase : ∀ y, y ∈ P ∖ {[x]} ↔ y ∈ P ∧ y ≠ x) by (intros y; rewrite elem_of_difference, elem_of_singleton; done).
  split; [|intros y Hy Hyx; split; [by apply Hin|by apply Hkeep]]. split.
  - destruct Hok. by split.
  - apply Hcase. split; [apply F|done].
  - intros y sw. rewrite Hn', lookup_delete_Some. intros [Hyx Hsw]. apply Hcase. split; [by apply (fo_loaded _ _ F y sw)|done].
  - intros y [Hy Hyx]%Hcase. destruct (fo_block _ _ F y Hy). split; [change (sb_nblocks v') with (sb_nblocks v1); by rewrite Hnb|by apply Hused].
  - intros y [Hy Hyx]%Hcase. rewrite Hin by done. split; [by apply Hkeep|by apply (fo_file _ _ F)].
  - intros y z b [Hy Hyx]%Hcase [Hz Hzx]%Hcase Hyz. rewrite !Hin by done. rewrite (proj1 (Hkeep y Hy Hyx)), (proj1 (Hkeep z Hz Hzx)). by apply (fo_apart _ _ F).
  - intros y z [Hy Hyx]%Hcase [Hz Hzx]%Hcase. rewrite Hin by done. rewrite (proj1 (Hkeep z Hz Hzx)). by apply (fo_inode _ _ F).
  - intros b Hr. unfold reserved in Hr. change (sb_nblocks v') with (sb_nblocks v1) in Hr. rewrite Hnb in Hr. destruct (fo_reserved _ _ F b Hr) as (H1 & H2 & H3).
    split_and!; [apply Hused; split; [done|by intros ->]|intros [? _]%Hcase; done|]. intros y [Hy Hyx]%Hcase. rewrite Hin by done. rewrite (proj1 (Hkeep y Hy Hyx)). by apply H3.
  - intros y sw. rewrite Hn', lookup_delete_Some. intros [Hyx Hsw] Hc. change (blk v' y) with (blk v1 y). rewrite Hblk. by apply (fo_clean _ _ F y).
Qed.

End inv.
