(* ===== verification/SfsNames.v ===== *)
(** * SfsNames: the names of a volume (sfs_inode.c and sfs_vnops.c)

    The directory gives names to files, and the link count of a file is the number of its names.
    [fs_ok] is the invariant of a mounted file system; the operations on vnodes keep it and act on the map of
    names and on the contents of files as they should. *)

From Stdlib Require Import ZArith Lia.
From stdpp Require Import base gmap list option strings list_numbers.
From S2P Require Import Prelude Types Strings Bitmap Uio Sfs Disk SfsFile SfsIo SfsVol SfsTrunc SfsDir SfsNode SfsInv.
Set Default Goal Selector "!".
Open Scope Z_scope.

Section names.
Context {D : Type} (hw_read : D → Z → D * (Z + list Z)) (hw_write : D → Z → list Z → D * Z) (contents : D → Z → list Z).
Context `{Hd : !DiskLaws hw_read hw_write contents}.
Implicit Types v : vol (D := D).
Implicit Types s : sfs_fs (D := D).
Implicit Types n : sfs_dinode.
Implicit Types P : gset Z.

Local Abbreviation blk := (blk contents).
Local Abbreviation alike := (alike contents).
Local Abbreviation allocated := (allocated contents).
Local Abbreviation fbyte := (fbyte contents).
Local Abbreviation owns := (owns contents).
Local Abbreviation file_kept := (file_kept contents).
Local Abbreviation loaded := (loaded contents).
Local Abbreviation step := (step contents).
Local Abbreviation inode := (inode contents).
Local Abbreviation files_ok := (files_ok contents).
Local Abbreviation others_kept := (others_kept contents).
Local Abbreviation dir_wf := (dir_wf contents).

Definition root v : sfs_dinode := inode v SFS_ROOTDIR_INO.
Definition names v (nm : list Z) (x : Z) : Prop := dir_maps contents v (root v) nm x.
Definition nlinks v (x : Z) : Z := links contents v (root v) x.

(** The names are of files, and the link counts are right, but for the file [x0], whose count is [k] too low. *)
Record names_ok (x0 k : Z) P v : Prop := {
  no_dir : dir_wf v (root v);
  no_entry : ∀ nm x, names v nm x → x ∈ P ∧ x ≠ SFS_ROOTDIR_INO;
  no_file : ∀ x, x ∈ P → x ≠ SFS_ROOTDIR_INO →
    sfi_type (inode v x) = SFS_TYPE_FILE ∧ sfi_linkcount (inode v x) + (if decide (x = x0) then k else 0) = nlinks v x;
  no_root : sfi_linkcount (root v) ≠ 0;
}.

(** ** Volumes with the same inodes and files *)

Definition same_view P v v' : Prop := ∀ y, y ∈ P → inode v' y = inode v y ∧ file_kept v v' (inode v y).

Lemma root_same v v' : inode v' SFS_ROOTDIR_INO = root v → dir_wf v (root v) → file_kept v v' (root v) →
  dir_wf v' (root v') ∧ (∀ nm x, names v' nm x ↔ names v nm x) ∧ ∀ x, nlinks v' x = nlinks v x.
Proof.
  intros Hi Hwf Hk. unfold names, nlinks. change (root v') with (inode v' SFS_ROOTDIR_INO). rewrite Hi.
  destruct (dir_same_view contents _ _ _ _ Hwf (dir_same_kept contents _ _ _ Hwf Hk)) as (H1 & H2 & H3).
  split_and!; [done|done|]. intros x. unfold links. by rewrite H3.
Qed.

Lemma names_view x0 k P v v' :
  SFS_ROOTDIR_INO ∈ P → names_ok x0 k P v → same_view P v v' →
  names_ok x0 k P v' ∧ (∀ nm x, names v' nm x ↔ names v nm x) ∧ ∀ x, nlinks v' x = nlinks v x.
Proof.
  intros HP [N1 N2 N3 N4] Hs. destruct (Hs _ HP) as [Hri Hrk]. destruct (root_same v v' Hri N1 Hrk) as (H1 & H2 & H3).
  split_and!; [|done|done]. split; [done| | |by change (root v') with (inode v' SFS_ROOTDIR_INO); rewrite Hri].
  - intros nm x Hx%H2. by apply (N2 nm).
  - intros x Hx Hx1. rewrite H3, (proj1 (Hs x Hx)). by apply N3.
Qed.

Lemma names_zero x0 x1 P v : names_ok x0 0 P v → names_ok x1 0 P v.
Proof. intros [N1 N2 N3 N4]. split; [done|done| |done]. intros x Hx Hx1. destruct (N3 x Hx Hx1) as [H1 H2]. split; [done|]. destruct (decide (x = x0)), (decide (x = x1)); lia. Qed.

Lemma nlinks_pos v x : dir_wf v (root v) → x ≠ SFS_NOINO → (∃ nm, names v nm x) ↔ 0 < nlinks v x.
Proof.
  intros Hwf Hx. unfold nlinks, links, names, dir_maps, live. split.
  - intros (nm & i & [Hi Hz] & _ & Hxi).
    assert (Hin : x ∈ filter (λ y, y = x) (slot_inos contents v (root v))).
    { apply list_elem_of_filter. split; [done|]. unfold slot_inos. apply list_elem_of_fmap. exists i. split; [done|]. apply elem_of_seqZ. lia. }
    destruct (filter _ _); [by apply not_elem_of_nil in Hin|]. cbn. lia.
  - intros Hpos. destruct (filter (λ y, y = x) (slot_inos contents v (root v))) as [|y l] eqn:E; [cbn in Hpos; lia|].
    assert (Hin : y ∈ filter (λ y, y = x) (slot_inos contents v (root v))) by (rewrite E; by left).
    apply list_elem_of_filter in Hin as [-> Hin]. unfold slot_inos in Hin. apply list_elem_of_fmap in Hin as (i & -> & Hi%elem_of_seqZ).
    eexists _, i. split_and!; [lia|lia|done|done|done].
Qed.

Lemma nlinks_bound v x : dir_wf v (root v) → 0 ≤ nlinks v x ≤ 1144.
Proof.
  intros Hwf. unfold nlinks, links. split; [lia|]. pose proof (length_filter (λ y, y = x) (slot_inos contents v (root v))) as Hl.
  unfold slot_inos in Hl at 2. rewrite length_fmap, length_seqZ in Hl. pose proof (dw_range _ _ _ Hwf) as Hr. pose proof (dw_size _ _ _ Hwf) as Hs.
  unfold MAXFILE, MAXBLOCKS, SFS_NDIRECT, SFS_DBPERIDB, SFS_BLOCKSIZE, sizeof_direntry in *. lia.
Qed.

(** ** The table of vnodes *)

Record table_ok s : Prop := {
  tb_nodup : NoDup (tn_ino <$> sfs_vnodes s);
  tb_nodes : ∀ x, x ∈ tn_ino <$> sfs_vnodes s ↔ is_Some (nodes (fs_vol s) !! x);
  tb_refs : ∀ t, t ∈ sfs_vnodes s → 0 < vn_refcount t;
}.

(** The number of references to a vnode, 0 when it is not in the table. *)
Definition refs s (x : Z) : Z := match List.find (λ t, tn_ino t =? x) (sfs_vnodes s) with Some t => vn_refcount t | None => 0 end.

Record fs_ok (x0 k : Z) P s : Prop := {
  fk_files : files_ok P (fs_vol s);
  fk_names : names_ok x0 k P (fs_vol s);
  fk_table : table_ok s;
}.

(** The invariant of a mounted file system: all link counts are right. *)
Definition fs_wf P s : Prop := fs_ok SFS_NOINO 0 P s.

Lemma fs_zero x y P s : fs_ok x 0 P s → fs_ok y 0 P s.
Proof. intros [F N T]. split; [done|by eapply names_zero|done]. Qed.

Lemma run_on_vol {A B} (m : K vol A) (f : A → K (sfs_fs (D := D)) B) s a v' :
  m (fs_vol s) = Ret a v' → mbind f (on_vol m) s = f a (set_vol v' s).
Proof. intros H. rewrite run_bind. unfold on_vol. by rewrite H. Qed.

Lemma run_node {B} (f : sfs_vnode → K (sfs_fs (D := D)) B) s x sv :
  nodes (fs_vol s) !! x = Some sv → mbind f (node x) s = f sv s.
Proof.
  intros H. unfold node. rewrite (run_on_vol _ _ _ sv (fs_vol s)); [by destruct s|]. unfold get_node. rewrite run_gets. unfold deref. by rewrite H.
Qed.

Lemma run_put {B} (f : unit → K (sfs_fs (D := D)) B) s x sv :
  mbind f (put_node x sv) s = f tt (set_vol (set_node x sv (fs_vol s)) s).
Proof. by apply run_on_vol. Qed.

Lemma find_in (l : list tnode) x : NoDup (tn_ino <$> l) → ∀ t, List.find (λ t, tn_ino t =? x) l = Some t ↔ t ∈ l ∧ tn_ino t = x.
Proof.
  intros Hnd t. split.
  - intros H. apply List.find_some in H as [Hin Hx%Z.eqb_eq]. split; [by apply list_elem_of_In|done].
  - intros [Hin Hx]. induction l as [|u l IH]; [by apply not_elem_of_nil in Hin|]. cbn in Hnd |- *. apply NoDup_cons in Hnd as [Hu Hnd].
    destruct (Z.eqb_spec (tn_ino u) x) as [Hux|Hux].
    + apply elem_of_cons in Hin as [->|Hin]; [done|]. exfalso. apply Hu, list_elem_of_fmap. exists t. split; [congruence|done].
    + apply IH; [done|]. apply elem_of_cons in Hin as [->|]; [done|done].
Qed.

Lemma find_snoc {A} (f : A → bool) (l : list A) a :
  List.find f (l ++ [a]) = match List.find f l with Some b => Some b | None => if f a then Some a else None end.
Proof. induction l as [|b l IH]; cbn; [by destruct (f a)|]. destruct (f b); [done|apply IH]. Qed.

Lemma table_find s x : table_ok s → is_Some (nodes (fs_vol s) !! x) →
  ∃ t, List.find (λ t, tn_ino t =? x) (sfs_vnodes s) = Some t ∧ tn_ino t = x ∧ vn_refcount t = refs s x ∧ 0 < refs s x.
Proof.
  intros [T1 T2 T3] Hx%T2. apply list_elem_of_fmap in Hx as (t & -> & Hin). exists t.
  assert (Hf : List.find (λ u, tn_ino u =? tn_ino t) (sfs_vnodes s) = Some t) by (by apply find_in).
  unfold refs. rewrite Hf. split_and!; [done|done|done|by apply T3].
Qed.

Lemma run_find {B} (f : tnode → K (sfs_fs (D := D)) B) s x t :
  List.find (λ t, tn_ino t =? x) (sfs_vnodes s) = Some t → mbind f (find_vnode x) s = f t s.
Proof. intros H. unfold find_vnode. rewrite run_assoc, run_gets. by rewrite (run_deref _ _ t). Qed.

Lemma inos_set_refs x r l : tn_ino <$> set_refs x r l = tn_ino <$> l.
Proof.
  unfold set_refs. rewrite <- list_fmap_compose. apply list_fmap_ext. intros i t _. cbn. destruct (Z.eqb_spec (tn_ino t) x) as [<-|]; done.
Qed.

Lemma find_set_refs x r l y :
  List.find (λ t, tn_ino t =? y) (set_refs x r l) = (λ t, if tn_ino t =? x then Tnode x r else t) <$> List.find (λ t, tn_ino t =? y) l.
Proof.
  induction l as [|t l IH]; [done|]. unfold set_refs in *. rewrite fmap_cons. cbn [List.find].
  assert (Ht : tn_ino (if tn_ino t =? x then Tnode x r else t) = tn_ino t) by (destruct (Z.eqb_spec (tn_ino t) x); done). rewrite Ht.
  destruct (tn_ino t =? y); [done|apply IH].
Qed.

(** A change of a reference count. *)
Definition with_refs (x r : Z) s : sfs_fs := set_vnodes (set_refs x r (sfs_vnodes s)) s.

Lemma with_refs_ok x r x0 k P s : fs_ok x0 k P s → 0 < r → fs_ok x0 k P (with_refs x r s).
Proof.
  intros [F N [T1 T2 T3]] Hr. split; [done|done|]. split; cbn [with_refs set_vnodes sfs_vnodes fs_vol].
  - by rewrite inos_set_refs.
  - by rewrite inos_set_refs.
  - intros t (u & -> & Hu)%list_elem_of_fmap. destruct (tn_ino u =? x); [done|by apply T3].
Qed.

Lemma refs_with x r s y : is_Some (List.find (λ t, tn_ino t =? x) (sfs_vnodes s)) → refs (with_refs x r s) y = if decide (y = x) then r else refs s y.
Proof.
  intros Hx. unfold refs, with_refs. cbn [set_vnodes sfs_vnodes]. rewrite find_set_refs. destruct (decide (y = x)) as [->|Hne].
  - destruct Hx as [t Ht]. rewrite Ht. cbn. apply List.find_some in Ht as [_ ->]. done.
  - destruct (List.find (λ t, tn_ino t =? y) (sfs_vnodes s)) as [t|] eqn:E; [|done]. cbn. apply List.find_some in E as [_ E%Z.eqb_eq].
    by rewrite (proj2 (Z.eqb_neq _ _)) by congruence.
Qed.

(** ** Loading *)

Lemma bused_run x v : vol_ok v → valid_block v x → ∃ r, sfs_bused x v = Ret r v ∧ r ≠ 0.
Proof.
  intros [H1 H2 H3 H4 H5 H6] [Hr Hu]. unfold sfs_bused. rewrite run_gets. rewrite (proj2 (Z.leb_gt _ _)) by lia. rewrite run_gets.
  destruct (bitmap_isset_run (freemap v) x v H1) as (r & Hrun & Hx); [lia|]. exists r. split; [done|]. by apply Hx.
Qed.

Lemma set_vol_id s : set_vol (fs_vol s) s = s.
Proof. by destruct s. Qed.

Lemma search_run s x l :
  vol_ok (fs_vol s) → (∀ t, t ∈ l → valid_block (fs_vol s) (tn_ino t)) →
  search_vnodes l x s = Ret (bool_decide (x ∈ tn_ino <$> l)) s.
Proof.
  intros F Hl. induction l as [|t l IH]; cbn [search_vnodes]; [done|].
  destruct (bused_run (tn_ino t) (fs_vol s) F) as (r & Hrun & Hr); [apply Hl; by left|].
  rewrite (run_on_vol _ _ _ _ _ Hrun), set_vol_id, (proj2 (Z.eqb_neq r 0)) by done. rewrite fmap_cons.
  destruct (Z.eqb_spec (tn_ino t) x) as [<-|Hne].
  - unfold mret, K_ret. f_equal. symmetry. apply bool_decide_eq_true_2. by left.
  - rewrite IH by (intros u Hu; apply Hl; by right). f_equal. apply bool_decide_ext. rewrite elem_of_cons. naive_solver.
Qed.

(** What loading and unloading of vnodes leaves as it is. *)
Record same_fs P s s' : Prop := {
  sm_view : same_view P (fs_vol s) (fs_vol s');
  sm_names : ∀ nm x, names (fs_vol s') nm x ↔ names (fs_vol s) nm x;
  sm_links : ∀ x, nlinks (fs_vol s') x = nlinks (fs_vol s) x;
  sm_size : sb_nblocks (fs_vol s') = sb_nblocks (fs_vol s);
}.

Lemma same_fs_vol P s s' : files_ok P (fs_vol s) → fs_vol s' = fs_vol s → same_fs P s s'.
Proof. intros F E. split; try by rewrite E. intros y Hy. rewrite E. split; [done|]. split_and!; [by apply (fo_file _ _ _ F)|done|done]. Qed.

Lemma fs_ok_view x0 k P s s' :
  fs_ok x0 k P s → files_ok P (fs_vol s') → same_view P (fs_vol s) (fs_vol s') → sb_nblocks (fs_vol s') = sb_nblocks (fs_vol s) → table_ok s' →
  fs_ok x0 k P s' ∧ same_fs P s s'.
Proof.
  intros [F N T] F' Hv Hb T'. destruct (names_view x0 k P _ _ (fo_root _ _ _ F) N Hv) as (N' & Hnm & Hl). split; by split.
Qed.

Lemma alike_fs x0 k P s v1 : fs_ok x0 k P s → alike (fs_vol s) v1 → fs_ok x0 k P (set_vol v1 s) ∧ same_fs P s (set_vol v1 s).
Proof.
  intros Hok Ha. pose proof Hok as [F N [T1 T2 T3]]. destruct (files_alike contents P _ _ F Ha) as (F1 & Hi1 & Hk1). apply fs_ok_view; [done|done| |apply (al_nblocks _ _ _ Ha)|].
  - intros y Hy. split; [apply Hi1|by apply Hk1].
  - split; [done| |done]. cbn. by rewrite (al_nodes _ _ _ Ha).
Qed.

Lemma same_view_trans P v v1 v2 : same_view P v v1 → same_view P v1 v2 → same_view P v v2.
Proof.
  intros A B y Hy. destruct (A y Hy) as [A1 A2], (B y Hy) as [B1 B2]. split; [congruence|]. eapply (kept_trans contents _ v1); [done|by rewrite <- A1].
Qed.

Lemma same_view_sub P Q v v1 : Q ⊆ P → same_view P v v1 → same_view Q v v1.
Proof. intros HQ A y Hy. by apply A, HQ. Qed.

Lemma same_fs_trans P s s1 s2 : same_fs P s s1 → same_fs P s1 s2 → same_fs P s s2.
Proof. intros [A1 A2 A3 A4] [B1 B2 B3 B4]. split; [by eapply same_view_trans|intros nm x; by rewrite B2|intros x; by rewrite B3|congruence]. Qed.

(** A vnode joins the table. *)
Lemma table_snoc s x sv v1 :
  table_ok s → nodes (fs_vol s) !! x = None → nodes v1 = nodes (fs_vol s) →
  let s' := set_vnodes (sfs_vnodes s ++ [Tnode x 1]) (set_vol (set_node x sv v1) s) in
  table_ok s' ∧ refs s x = 0 ∧ ∀ y, refs s' y = if decide (y = x) then 1 else refs s y.
Proof.
  intros [T1 T2 T3] Hn Hv s'. assert (Hnot : x ∉ tn_ino <$> sfs_vnodes s) by (rewrite T2, Hn; by intros []).
  assert (Hf : List.find (λ t, tn_ino t =? x) (sfs_vnodes s) = None).
  { destruct (List.find _ (sfs_vnodes s)) as [t|] eqn:E; [|done]. apply List.find_some in E as [E1 E2%Z.eqb_eq].
    exfalso. apply Hnot, list_elem_of_fmap. exists t. split; [done|by apply list_elem_of_In]. }
  split; [|split; [unfold refs; by rewrite Hf|]].
  - split; cbn [s' set_vnodes sfs_vnodes set_vol fs_vol set_node nodes].
    + rewrite fmap_app. change (tn_ino <$> [Tnode x 1]) with [x]. apply NoDup_app. split_and!; [done| |apply NoDup_singleton]. intros y Hy Hy1%list_elem_of_singleton. by subst y.
    + intros y. rewrite fmap_app. change (tn_ino <$> [Tnode x 1]) with [x]. rewrite elem_of_app, T2, list_elem_of_singleton, Hv. destruct (decide (y = x)) as [->|Hyx].
      * rewrite lookup_insert_eq. naive_solver.
      * rewrite lookup_insert_ne by done. naive_solver.
    + intros t [Ht|Ht%list_elem_of_singleton]%elem_of_app; [by apply T3|by subst t].
  - intros y. unfold refs. cbn [s' set_vnodes sfs_vnodes]. rewrite find_snoc. destruct (decide (y = x)) as [->|Hyx].
    + rewrite Hf. cbn. by rewrite Z.eqb_refl.
    + destruct (List.find (λ t, tn_ino t =? y) (sfs_vnodes s)); [done|]. cbn. by rewrite (proj2 (Z.eqb_neq x y)) by congruence.
Qed.

(** A block is read: the inode is added to the table. *)
Lemma load_new x0 k P s x v1 :
  fs_ok x0 k P s → x ∈ P → nodes (fs_vol s) !! x = None → alike (fs_vol s) v1 →
  let sv := Vnode (decode_inode (blk (fs_vol s) x)) false in
  let s' := set_vnodes (sfs_vnodes s ++ [Tnode x 1]) (set_vol (set_node x sv v1) s) in
  fs_ok x0 k P s' ∧ same_fs P s s' ∧ ∀ y, refs s' y = if decide (y = x) then refs s y + 1 else refs s y.
Proof.
  intros Hok Hx Hn Ha sv s'. pose proof Hok as [F N T].
  destruct (files_alike contents P _ _ F Ha) as (F1 & Hi1 & Hk1).
  assert (Hn1 : nodes v1 !! x = None) by (by rewrite (al_nodes _ _ _ Ha)).
  destruct (files_load contents P v1 x F1 Hx Hn1) as (F2 & Hi2 & Hk2). rewrite (al_blk _ _ _ Ha) in F2, Hi2, Hk2.
  destruct (table_snoc s x sv v1 T Hn (al_nodes _ _ _ Ha)) as (T' & Hz & Hrefs).
  destruct (fs_ok_view x0 k P s s' Hok F2) as [Hok' Hs].
  - intros y Hy. change (fs_vol s') with (set_node x sv v1). rewrite Hi2, Hi1. split; [done|].
    eapply (kept_trans contents _ v1); [by apply Hk1|]. rewrite <- Hi1. by apply Hk2.
  - apply (al_nblocks _ _ _ Ha).
  - done.
  - split_and!; [done|done|]. intros y. rewrite Hrefs. destruct (decide (y = x)) as [->|]; [by rewrite Hz|done].
Qed.

Lemma table_blocks x0 k P s : fs_ok x0 k P s → ∀ t, t ∈ sfs_vnodes s → valid_block (fs_vol s) (tn_ino t).
Proof.
  intros [F N T] t Ht. apply (fo_block _ _ _ F). destruct (proj1 (tb_nodes _ T (tn_ino t))) as [sv Hsv]; [by apply list_elem_of_fmap_2|].
  by apply (fo_loaded _ _ _ F _ sv).
Qed.

Lemma loadvnode_run mem grow x0 k P s x :
  fs_ok x0 k P s → x ∈ P →
  ∃ r s', sfs_loadvnode hw_read hw_write mem grow x SFS_TYPE_INVAL s = Ret r s' ∧ fs_ok x0 k P s' ∧ same_fs P s s' ∧ used (fs_vol s') = used (fs_vol s) ∧
    match r with
    | inl e => e = ENOMEM ∧ (mem = false ∨ grow = false) ∧ ∀ y, refs s' y = refs s y
    | inr y => y = x ∧ is_Some (nodes (fs_vol s') !! x) ∧ ∀ y, refs s' y = if decide (y = x) then refs s y + 1 else refs s y
    end.
Proof.
  intros Hok Hx. pose proof Hok as [F N T]. unfold sfs_loadvnode. rewrite run_gets.
  rewrite (run_bind_ret _ _ _ _ _ (search_run s x (sfs_vnodes s) (fo_ok _ _ _ F) (table_blocks x0 k P s Hok))).
  case_bool_decide as Hin.
  - rewrite run_assert by done. apply (tb_nodes _ T) in Hin. destruct (table_find s x T Hin) as (t & Hf & Htx & Hr & Hpos).
    unfold VOP_INCREF. rewrite run_assoc, (run_find _ _ _ _ Hf), run_modify. eexists _, (with_refs x (vn_refcount t + 1) s). split; [done|].
    split; [apply with_refs_ok; [done|lia]|]. split; [by apply same_fs_vol|]. split; [done|]. split_and!; [done|done|]. intros y. rewrite refs_with by (by rewrite Hf).
    destruct (decide (y = x)) as [->|]; [lia|done].
  - assert (Hn : nodes (fs_vol s) !! x = None) by (destruct (nodes (fs_vol s) !! x) eqn:E; [|done]; exfalso; apply Hin, (tb_nodes _ T); by rewrite E).
    destruct mem; cbn [negb]; [|exists (inl ENOMEM), s; split; [done|]; split; [done|]; split; [by apply same_fs_vol|]; split; [done|]; split_and!; [done|by left|done]].
    destruct (bused_run x (fs_vol s) (fo_ok _ _ _ F)) as (r & Hrun & Hr0); [by apply (fo_block _ _ _ F)|].
    rewrite (run_on_vol _ _ _ _ _ Hrun), set_vol_id, (proj2 (Z.eqb_neq r 0)) by done. unfold ebind.
    destruct (fo_block _ _ _ F x Hx) as [Hr Hu]. pose proof (vo_disk _ (fo_ok _ _ _ F)). pose proof (vo_size _ (fo_ok _ _ _ F)).
    destruct (readblock_run hw_read hw_write contents x (fs_vol s)) as (v1 & Hrd & Ha); [lia|done|]. rewrite (run_on_vol _ _ _ _ _ Hrd).
    assert (Hinode : decode_inode (blk (fs_vol s) x) = inode (fs_vol s) x) by (unfold SfsInv.inode; by rewrite Hn).
    assert (Hty : sfi_type (decode_inode (blk (fs_vol s) x)) = SFS_TYPE_FILE ∨ sfi_type (decode_inode (blk (fs_vol s) x)) = SFS_TYPE_DIR).
    { rewrite Hinode. destruct (decide (x = SFS_ROOTDIR_INO)) as [->|Hx1]; [right; apply (dw_type _ _ _ (no_dir _ _ _ _ N))|left; by apply (no_file _ _ _ _ N)]. }
    cbn [Z.eqb SFS_TYPE_INVAL negb]. rewrite run_mret. cbn [sv_i].
    assert (Hbad : negb (sfi_type (decode_inode (blk (fs_vol s) x)) =? SFS_TYPE_FILE) && negb (sfi_type (decode_inode (blk (fs_vol s) x)) =? SFS_TYPE_DIR) = false)
      by (destruct Hty as [-> | ->]; done). rewrite Hbad.
    destruct grow; cbn [negb].
    + rewrite run_put, run_modify. destruct (load_new x0 k P s x v1 Hok Hx Hn Ha) as (Hok' & Hs & Hrefs).
      eexists (inr x), _. split; [done|]. split; [exact Hok'|]. split; [exact Hs|]. split; [unfold used; cbn; by rewrite (al_freemap _ _ _ Ha)|]. split_and!; [done| |exact Hrefs].
      cbn [set_vnodes fs_vol set_vol set_node nodes]. by rewrite lookup_insert_eq.
    + exists (inl ENOMEM), (set_vol v1 s). split; [done|]. destruct (alike_fs x0 k P s v1 Hok Ha) as [Hok' Hs].
      split; [done|]. split; [done|]. split; [unfold used; cbn; by rewrite (al_freemap _ _ _ Ha)|]. split_and!; [done|by right|done].
Qed.

(** ** Writing back and giving up *)

Lemma sync_run x0 k P s x sv :
  fs_ok x0 k P s → nodes (fs_vol s) !! x = Some sv →
  ∃ v', sfs_sync_inode hw_read hw_write x s = Ret (inr tt) (set_vol v' s) ∧ fs_ok x0 k P (set_vol v' s) ∧ same_fs P s (set_vol v' s) ∧
    nodes v' = <[x := set_clean sv]> (nodes (fs_vol s)) ∧ freemap v' = freemap (fs_vol s) ∧ d_blocks v' = d_blocks (fs_vol s) ∧
    freemapdirty v' = freemapdirty (fs_vol s) ∧ (∀ b, b ∉ P → blk v' b = blk (fs_vol s) b).
Proof.
  intros Hok Hn. pose proof Hok as [F N T]. unfold sfs_sync_inode. rewrite (run_node _ s x sv) by done. destruct (sv_dirty sv) eqn:Hdirty.
  - pose proof (fo_loaded _ _ _ F x sv Hn) as Hx. destruct (fo_block _ _ _ F x Hx) as [Hr _]. pose proof (vo_disk _ (fo_ok _ _ _ F)).
    destruct (encoded contents P (fs_vol s) x F Hx) as (_ & Hlen & Hb). assert (Hix : inode (fs_vol s) x = sv_i sv) by (unfold SfsInv.inode; by rewrite Hn).
    rewrite Hix in Hlen, Hb. destruct (writeblock_run hw_read hw_write contents x (encode_inode (sv_i sv)) (fs_vol s)) as (v1 & Hw & W);
      [lia|apply (vo_size _ (fo_ok _ _ _ F))|done|done|].
    unfold ebind. rewrite (run_on_vol _ _ _ _ _ Hw), run_put. destruct (files_sync contents P (fs_vol s) x sv v1 F Hn W) as (F' & Hi & Hk).
    exists (set_node x (set_clean sv) v1). split; [done|]. destruct T as [T1 T2 T3].
    destruct (fs_ok_view x0 k P s (set_vol (set_node x (set_clean sv) v1) s) Hok F') as [Hok' Hs].
    + intros y Hy. split; [by apply Hi|by apply Hk].
    + apply (wr_nblocks _ _ _ _ _ W).
    + split; [done| |done]. intros y. cbn. rewrite (wr_nodes _ _ _ _ _ W), T2. destruct (decide (y = x)) as [->|]; [by rewrite lookup_insert_eq, Hn; split; eauto|by rewrite lookup_insert_ne].
    + split; [done|]. split; [done|]. split; [cbn; by rewrite (wr_nodes _ _ _ _ _ W)|]. split; [apply (wr_freemap _ _ _ _ _ W)|]. split; [apply (wr_blocks _ _ _ _ _ W)|].
      split; [apply (wr_mapdirty _ _ _ _ _ W)|]. intros b Hbp. etrans; [apply (wr_blk _ _ _ _ _ W)|]. rewrite decide_False; [done|]. by intros ->.
  - exists (fs_vol s). rewrite set_vol_id. split; [done|]. split; [done|]. split; [by apply same_fs_vol|]. split; [|done].
    symmetry. apply insert_id. rewrite Hn. f_equal. destruct sv as [n []]; done.
Qed.

Lemma find_remove x y l : NoDup (tn_ino <$> l) →
  List.find (λ t, tn_ino t =? y) (remove_ino x l) = if decide (y = x) then None else List.find (λ t, tn_ino t =? y) l.
Proof.
  induction l as [|t l IH]; intros Hnd; cbn [remove_ino]; [by case_decide|]. rewrite fmap_cons in Hnd. apply NoDup_cons in Hnd as [Ht Hnd].
  destruct (Z.eqb_spec (tn_ino t) x) as [<-|Hne].
  - case_decide as Hy.
    + subst y. destruct (List.find _ l) as [u|] eqn:E; [|done]. apply List.find_some in E as [E1 E2%Z.eqb_eq]. exfalso. apply Ht, list_elem_of_fmap.
      exists u. split; [done|by apply list_elem_of_In].
    + cbn. by rewrite (proj2 (Z.eqb_neq (tn_ino t) y)) by congruence.
  - cbn. rewrite IH by done. destruct (Z.eqb_spec (tn_ino t) y) as [<-|]; [by rewrite decide_False|done].
Qed.

Lemma inos_remove x l y : NoDup (tn_ino <$> l) → y ∈ tn_ino <$> remove_ino x l ↔ y ∈ tn_ino <$> l ∧ y ≠ x.
Proof.
  induction l as [|t l IH]; intros Hnd; cbn [remove_ino]; [split; [by intros ?%not_elem_of_nil|by intros [?%not_elem_of_nil _]]|].
  rewrite fmap_cons in Hnd. apply NoDup_cons in Hnd as [Ht Hnd]. rewrite fmap_cons, elem_of_cons. destruct (Z.eqb_spec (tn_ino t) x) as [<-|Hne].
  - split; [intros Hy; split; [by right|by intros ->]|]. intros [[->|Hy] Hyx]; done.
  - rewrite fmap_cons, elem_of_cons, IH by done. naive_solver.
Qed.

Lemma remove_sub x l : remove_ino x l `sublist_of` l.
Proof. induction l as [|t l IH]; cbn; [done|]. destruct (tn_ino t =? x); [by apply sublist_cons|by apply sublist_skip]. Qed.

(** The vnode leaves the table. *)
Lemma remove_vnode_run s x v' :
  table_ok s → is_Some (nodes (fs_vol s) !! x) → refs s x = 1 → nodes v' = nodes (fs_vol s) →
  let s' := set_vnodes (remove_ino x (sfs_vnodes s)) (set_vol (drop_node x v') s) in
  remove_vnode x (set_vol v' s) = Ret tt s' ∧ table_ok s' ∧ ∀ y, refs s' y = if decide (y = x) then 0 else refs s y.
Proof.
  intros T Hx Hr Hn s'. destruct (table_find s x T Hx) as (t & Hf & Htx & Hrt & _). destruct T as [T1 T2 T3]. split; [|split].
  - unfold remove_vnode. rewrite run_gets. cbn [set_vol sfs_vnodes]. rewrite Hf, run_modify, run_assert by (apply Z.eqb_eq; congruence). done.
  - split; cbn [s' set_vnodes sfs_vnodes fs_vol set_vol].
    + eapply sublist_NoDup; [exact T1|]. apply fmap_sublist, remove_sub.
    + intros y. rewrite inos_remove by done. rewrite T2. change (nodes (drop_node x v')) with (delete x (nodes v')). rewrite Hn.
      destruct (decide (y = x)) as [->|Hyx]; [rewrite lookup_delete_eq; split; [by intros [_ ?]|by intros []]|rewrite lookup_delete_ne by done; tauto].
    + intros u Hu. apply T3. by eapply elem_of_sublist; [|apply remove_sub].
  - intros y. unfold refs. cbn [s' set_vnodes sfs_vnodes]. rewrite find_remove by done. by destruct (decide (y = x)).
Qed.

(** ** Steps on one file *)

(** What an operation on the file [x] leaves as it is. *)
Record same_but P s s' (x : Z) : Prop := {
  sb_view : others_kept P (fs_vol s) (fs_vol s') x;
  sb_names : ∀ nm y, names (fs_vol s') nm y ↔ names (fs_vol s) nm y;
  sb_links : ∀ y, nlinks (fs_vol s') y = nlinks (fs_vol s) y;
  sb_size : sb_nblocks (fs_vol s') = sb_nblocks (fs_vol s);
}.

Lemma step_fs x k d P s sv sv' v' :
  fs_ok x k P s → nodes (fs_vol s) !! x = Some sv → x ≠ SFS_ROOTDIR_INO → step x sv (fs_vol s) sv' v' → inode_ok (sv_i sv') →
  sfi_type (sv_i sv') = sfi_type (sv_i sv) → sfi_linkcount (sv_i sv') = sfi_linkcount (sv_i sv) + d →
  fs_ok x (k - d) P (set_vol v' s) ∧ same_but P s (set_vol v' s) x.
Proof.
  intros [F N [T1 T2 T3]] Hn Hx1 S Hio Ht Hl. destruct (files_step contents P _ x sv sv' v' F Hn S Hio) as (F' & Ho & Hi).
  assert (Hix : inode (fs_vol s) x = sv_i sv) by (unfold SfsInv.inode; by rewrite Hn).
  destruct (Ho _ (fo_root _ _ _ F) ltac:(congruence)) as [Hri Hrk]. destruct N as [N1 N2 N3 N4].
  destruct (root_same (fs_vol s) v' Hri N1 Hrk) as (R1 & R2 & R3).
  split; [|split; [done|done|done|apply (st_nblocks _ _ _ _ _ _ S)]]. split; [done| |].
  - split; [done|intros nm y Hy%R2; by apply (N2 nm)| |cbn [set_vol fs_vol]; change (root v') with (inode v' SFS_ROOTDIR_INO); by rewrite Hri]. intros y Hy Hy1. change (fs_vol (set_vol v' s)) with v'. rewrite R3. destruct (N3 y Hy Hy1) as [E1 E2].
    destruct (decide (y = x)) as [->|Hyx]; [rewrite Hi; rewrite Hix in E1, E2; split; [congruence|lia]|rewrite (proj1 (Ho y Hy Hyx)); done].
  - split; [done| |done]. intros y. cbn. rewrite (st_nodes _ _ _ _ _ _ S), T2. destruct (decide (y = x)) as [->|]; [rewrite lookup_insert_eq, Hn; split; eauto|by rewrite lookup_insert_ne].
Qed.

Lemma refs_vol v' s y : refs (set_vol v' s) y = refs s y.
Proof. done. Qed.

(** [sfs_itrunc(sv, 0)]: the file gives up all its blocks. *)
Lemma erase_run k P s x sv :
  fs_ok x k P s → nodes (fs_vol s) !! x = Some sv → x ≠ SFS_ROOTDIR_INO →
  ∃ sv' v', sfs_itrunc hw_read hw_write x 0 (fs_vol s) = Ret (inr tt) v' ∧ fs_ok x k P (set_vol v' s) ∧ same_but P s (set_vol v' s) x ∧
    nodes v' = <[x := sv']> (nodes (fs_vol s)) ∧ sfi_linkcount (sv_i sv') = sfi_linkcount (sv_i sv) ∧ kmem v' = kmem (fs_vol s) ∧
    (∀ b, ¬ owns v' (sv_i sv') b) ∧ (∀ b, b ∈ used v' ↔ b ∈ used (fs_vol s) ∧ ¬ owns (fs_vol s) (sv_i sv) b).
Proof.
  intros Hok Hn Hx1. pose proof Hok as [F N T]. pose proof (files_loaded contents P _ x sv F Hn) as Hl.
  destruct (itrunc_run hw_read hw_write contents x sv (fs_vol s) 0 Hl) as (sv2 & v2 & Hrun & C & Hz); [lia|].
  pose proof (cut_loaded contents _ _ _ _ _ _ Hl C) as Hl2.
  pose proof (step_trans contents _ _ _ _ _ _ _ (cut_step contents _ _ _ _ _ _ Hl C) (step_resize contents x sv2 v2 0 Hl2)) as S.
  destruct C as [K1 K2 K3 K4 (K5 & K6 & K7 & K7') K0 K8 K9].
  assert (Hnone : ∀ b, ¬ owns v2 (sv_i sv2) b).
  { intros b [Hb [->|(i & Hi & Hp)]]; [apply Hb, Hz; reflexivity|]. rewrite K9 in Hp by done. unfold keeps in Hp. change ((0 + 511) / 512) with 0 in Hp.
    destruct (Z.ltb_spec i SFS_NDIRECT); [rewrite (proj2 (Z.ltb_ge i 0)) in Hp by lia|rewrite (proj2 (Z.leb_gt i 0)) in Hp by (unfold SFS_NDIRECT in *; lia)]; congruence. }
  pose proof (proj2 (fo_file _ _ _ F x (fo_loaded _ _ _ F x sv Hn))) as Hio. unfold SfsInv.inode in Hio. rewrite Hn in Hio. destruct Hio as [I1 I2 I3 I4 I5].
  eexists (set_size 0 sv2), _. split; [exact Hrun|].
  destruct (step_fs x k 0 P s sv (set_size 0 sv2) _ Hok Hn Hx1 S) as [Hok' Hs].
  - split; cbn; [lia|by rewrite K6|by rewrite K7|by rewrite K7'|by rewrite K7'].
  - done.
  - cbn. lia.
  - rewrite Z.sub_0_r in Hok'. split_and!; [done|done|apply S|cbn; lia|done|done|]. intros b. transitivity (b ∈ used v2); [done|].
    rewrite (sk_used _ _ _ _ _ K8). split; intros [H1 H2]; (split; [done|]); [intros Ho; by apply (Hnone b), H2|done].
Qed.

End names.
