(* ===== verification/SfsOps.v ===== *)
(** * SfsOps: the operations on vnodes that change names (sfs_vnops.c)

    [VOP_DECREF] gives up a file without names; creating, linking, removing and renaming act on the map of names and
    leave the other files as they are. *)

From Stdlib Require Import ZArith Lia.
From stdpp Require Import base gmap list option strings list_numbers.
From S2P Require Import Prelude Types Strings Bitmap Uio Sfs Disk SfsFile SfsIo SfsVol SfsTrunc SfsDir SfsNode SfsInv SfsNames.
Set Default Goal Selector "!".
Open Scope Z_scope.

Section ops.
Context {D : Type} (hw_read : D → Z → D * (Z + list Z)) (hw_write : D → Z → list Z → D * Z) (contents : D → Z → list Z).
Context `{Hd : !DiskLaws hw_read hw_write contents}.
Implicit Types v : vol (D := D).
Implicit Types s : sfs_fs (D := D).
Implicit Types n : sfs_dinode.
Implicit Types P : gset Z.

Local Abbreviation blk := (blk contents).
Local Abbreviation alike := (alike contents).
Local Abbreviation allocated := (allocated contents).
Local Abbreviation fbyte := (fbyte contents).
Local Abbreviation owns := (owns contents).
Local Abbreviation file_kept := (file_kept contents).
Local Abbreviation loaded := (loaded contents).
Local Abbreviation step := (step contents).
Local Abbreviation inode := (inode contents).
Local Abbreviation files_ok := (files_ok contents).
Local Abbreviation others_kept := (others_kept contents).
Local Abbreviation dir_wf := (dir_wf contents).
Local Abbreviation root := (root contents).
Local Abbreviation names := (names contents).
Local Abbreviation nlinks := (nlinks contents).
Local Abbreviation names_ok := (names_ok contents).
Local Abbreviation fs_ok := (fs_ok contents).
Local Abbreviation fs_wf := (fs_wf contents).
Local Abbreviation same_view := (same_view contents).
Local Abbreviation same_fs := (same_fs contents).

(** ** The last reference *)

Lemma refs_loaded x0 k P s x : fs_ok x0 k P s → 0 < refs s x ↔ is_Some (nodes (fs_vol s) !! x).
Proof.
  intros [F N T]. split; [|intros Hx; by destruct (table_find s x T Hx) as (_ & _ & _ & _ & ?)].
  intros Hr. apply (tb_nodes _ T). unfold refs in Hr. destruct (List.find _ _) as [t|] eqn:E; [|lia]. apply List.find_some in E as [E1 E2%Z.eqb_eq].
  apply list_elem_of_fmap. exists t. split; [done|by apply list_elem_of_In].
Qed.

Lemma delete_fs P s x sv v1 :
  fs_ok x 0 P s → nodes (fs_vol s) !! x = Some sv → x ≠ SFS_ROOTDIR_INO → refs s x = 1 → nlinks (fs_vol s) x = 0 →
  (∀ b, ¬ owns (fs_vol s) (sv_i sv) b) → used v1 = used (fs_vol s) ∖ {[x]} → vol_ok v1 → (∀ c, blk v1 c = blk (fs_vol s) c) →
  sb_nblocks v1 = sb_nblocks (fs_vol s) → nodes v1 = nodes (fs_vol s) →
  ∃ s', remove_vnode x (set_vol v1 s) = Ret tt s' ∧ fs_ok x 0 (P ∖ {[x]}) s' ∧ same_fs (P ∖ {[x]}) s s' ∧
    (∀ y, refs s' y = if decide (y = x) then 0 else refs s y) ∧ used (fs_vol s') = used v1.
Proof.
  intros [F N T] Hn Hx1 Hr Hz Hno Hu Hok Hb Hnb Hnodes.
  destruct (files_delete contents P (fs_vol s) x sv v1 F Hn Hx1 Hno Hu Hok Hb Hnb Hnodes) as [F' Ho].
  destruct (remove_vnode_run s x v1 T) as (Hrun & T' & Hrefs); [by rewrite Hn|done|done|].
  eexists. split; [exact Hrun|]. destruct N as [N1 N2 N3 N4]. destruct (Ho _ (fo_root _ _ _ F) ltac:(congruence)) as [Hri Hrk].
  destruct (root_same contents _ _ Hri N1 Hrk) as (R1 & R2 & R3).
  assert (Hview : same_view (P ∖ {[x]}) (fs_vol s) (drop_node x v1)) by (intros y [Hy Hyx%not_elem_of_singleton]%elem_of_difference; by apply Ho).
  split; [|split; [by split|done]]. split; [exact F'| |exact T']. split; [exact R1| | |cbn [set_vnodes set_vol fs_vol]; unfold SfsNames.root in *; by rewrite Hri].
  - intros nm y Hy%R2. destruct (N2 nm y Hy) as [Hy1 Hy2]. split; [|done]. apply elem_of_difference. split; [done|]. intros ->%elem_of_singleton.
    assert (0 < nlinks (fs_vol s) x); [|lia]. apply (nlinks_pos contents); [done| |by exists nm]. destruct (fo_block _ _ _ F x Hy1). unfold SFS_NOINO. lia.
  - intros y Hy Hy1. cbn [set_vnodes fs_vol set_vol]. rewrite (proj1 (Hview y Hy)), R3. apply elem_of_difference in Hy as [Hy _]. by apply N3.
Qed.

Lemma unload_fs x0 k P s x sv :
  fs_ok x0 k P s → nodes (fs_vol s) !! x = Some sv → sv_dirty sv = false → refs s x = 1 →
  ∃ s', remove_vnode x s = Ret tt s' ∧ fs_ok x0 k P s' ∧ same_fs P s s' ∧
    (∀ y, refs s' y = if decide (y = x) then 0 else refs s y) ∧ used (fs_vol s') = used (fs_vol s).
Proof.
  intros Hok Hn Hc Hr. pose proof Hok as [F N T]. destruct (files_unload contents P (fs_vol s) x sv F Hn Hc) as (F' & Hi & Hk).
  destruct (remove_vnode_run s x (fs_vol s) T) as (Hrun & T' & Hrefs); [by rewrite Hn|done|done|]. rewrite set_vol_id in Hrun.
  eexists. split; [exact Hrun|]. destruct (fs_ok_view contents x0 k P s (set_vnodes (remove_ino x (sfs_vnodes s)) (set_vol (drop_node x (fs_vol s)) s)) Hok F') as [H1 H2]; [|done|done|done].
  intros y Hy. split; [apply Hi|by apply Hk].
Qed.

(** What [VOP_DECREF] does: with the last reference to a file without names the file goes, and its blocks are free. *)
Definition gone P s x P' s' : Prop :=
  if decide (refs s x = 1 ∧ nlinks (fs_vol s) x = 0)
  then P' = P ∖ {[x]} ∧ ∀ b, b ∈ used (fs_vol s') ↔ b ∈ used (fs_vol s) ∧ b ≠ x ∧ ¬ owns (fs_vol s) (inode (fs_vol s) x) b
  else P' = P ∧ used (fs_vol s') = used (fs_vol s).

(** Writing back and leaving the table, for a file with names and for the root. *)
Lemma reclaim_named x0 P s x sv :
  fs_ok x0 0 P s → nodes (fs_vol s) !! x = Some sv → refs s x = 1 → sfi_linkcount (sv_i sv) ≠ 0 →
  ∃ s', sfs_reclaim hw_read hw_write x s = Ret (inr tt) s' ∧ fs_ok x0 0 P s' ∧ same_fs P s s' ∧
    (∀ y, refs s' y = if decide (y = x) then 0 else refs s y) ∧ used (fs_vol s') = used (fs_vol s).
Proof.
  intros Hok Hn Hr Hz. pose proof Hok as [F N T]. destruct (table_find s x T) as (t & Hf & _ & Ht & _); [by rewrite Hn|].
  unfold sfs_reclaim. rewrite (run_find _ _ _ _ Hf). rewrite Ht, Hr. cbn [Z.eqb Pos.eqb negb]. rewrite (run_node _ s x sv) by done.
  rewrite (proj2 (Z.eqb_neq _ _) Hz). unfold ebind at 1. rewrite run_mret.
  destruct (sync_run hw_read hw_write contents x0 0 P s x sv Hok Hn) as (v2 & Hrun2 & Hok2 & Hs2 & Hn2 & Hf2 & _).
  unfold ebind. rewrite (run_bind_ret _ _ _ _ _ Hrun2). set (s2 := set_vol v2 s) in *.
  assert (Hnx : nodes (fs_vol s2) !! x = Some (set_clean sv)) by (cbn; by rewrite Hn2, lookup_insert_eq).
  rewrite (run_node _ s2 x _ Hnx). cbn [set_clean sv_i]. rewrite (proj2 (Z.eqb_neq _ _) Hz), run_mret.
  destruct (unload_fs x0 0 P s2 x _ Hok2 Hnx eq_refl Hr) as (s' & Hrun4 & Hok4 & Hs4 & Hr4 & Hu4).
  rewrite (run_bind_ret _ _ _ _ _ Hrun4). exists s'. split; [done|]. split; [done|]. split; [by eapply same_fs_trans|]. split; [exact Hr4|].
  rewrite Hu4. unfold used. cbn. by rewrite Hf2.
Qed.

Lemma reclaim_run P s x :
  fs_ok x 0 P s → is_Some (nodes (fs_vol s) !! x) → x ≠ SFS_ROOTDIR_INO → refs s x = 1 →
  ∃ P' s', sfs_reclaim hw_read hw_write x s = Ret (inr tt) s' ∧ fs_ok x 0 P' s' ∧ same_fs P' s s' ∧
    (∀ y, refs s' y = if decide (y = x) then 0 else refs s y) ∧ gone P s x P' s'.
Proof.
  intros Hok [sv Hn] Hx1 Hr. pose proof Hok as [F N T]. destruct (table_find s x T) as (t & Hf & _ & Ht & _); [by rewrite Hn|].
  assert (Hix : inode (fs_vol s) x = sv_i sv) by (unfold SfsInv.inode; by rewrite Hn).
  assert (Hlc : sfi_linkcount (sv_i sv) = nlinks (fs_vol s) x).
  { destruct (no_file _ _ _ _ _ N x (fo_loaded _ _ _ F x sv Hn) Hx1) as [_ E]. rewrite Hix in E. rewrite decide_True in E by done. lia. }
  destruct (Z.eqb_spec (sfi_linkcount (sv_i sv)) 0) as [Hz|Hz].
  - unfold sfs_reclaim. rewrite (run_find _ _ _ _ Hf). rewrite Ht, Hr. cbn [Z.eqb Pos.eqb negb]. rewrite (run_node _ s x sv) by done. rewrite Hz. cbn [Z.eqb].
    destruct (erase_run hw_read hw_write contents 0 P s x sv Hok Hn Hx1) as (sv1 & v1 & Hrun & Hok1 & Hs1 & Hn1 & Hl1 & _ & Hno1 & Hu1).
    unfold ebind at 1. rewrite (run_on_vol _ _ _ _ _ Hrun). set (s1 := set_vol v1 s) in *.
    destruct (sync_run hw_read hw_write contents x 0 P s1 x sv1 Hok1) as (v2 & Hrun2 & Hok2 & Hs2 & Hn2 & Hf2 & _); [cbn; by rewrite Hn1, lookup_insert_eq|].
    unfold ebind. rewrite (run_bind_ret _ _ _ _ _ Hrun2). set (s2 := set_vol v2 s1) in *.
    assert (Hnx : nodes (fs_vol s2) !! x = Some (set_clean sv1)) by (cbn; by rewrite Hn2, lookup_insert_eq).
    rewrite (run_node _ s2 x _ Hnx). cbn [set_clean sv_i]. rewrite Hl1, Hz. cbn [Z.eqb].
    pose proof (fo_loaded _ _ _ F x sv Hn) as Hx. destruct (fo_block _ _ _ (fk_files _ _ _ _ _ Hok2) x Hx) as [Hxr Hxu].
    destruct (bfree_run contents x v2 (fo_ok _ _ _ (fk_files _ _ _ _ _ Hok2)) Hxu Hxr) as (v3 & Hrun3 & Hu3 & Hok3 & Hb3 & _ & Hnb3 & Hn3 & _).
    rewrite (run_on_vol _ _ s2 _ _ Hrun3).
    destruct (delete_fs P s2 x (set_clean sv1) v3 Hok2 Hnx Hx1) as (s' & Hrun4 & Hok4 & Hs4 & Hr4 & Hu4); try done.
    + rewrite (sm_links _ _ _ _ Hs2), (sb_links _ _ _ _ _ Hs1). congruence.
    + intros b. destruct (sm_view _ _ _ _ Hs2 x Hx) as [_ (_ & Ho & _)]. assert (Hix1 : inode (fs_vol s1) x = sv_i sv1) by (unfold SfsInv.inode; cbn; by rewrite Hn1, lookup_insert_eq).
      cbn [set_clean sv_i]. rewrite <- Hix1, Ho, Hix1. apply Hno1.
    + rewrite (run_bind_ret _ _ _ _ _ Hrun4). exists (P ∖ {[x]}), s'. split; [done|]. split; [done|]. split; [|split; [exact Hr4|unfold gone; rewrite decide_True by (split; [done|congruence]); split; [done|]]].
      * eapply same_fs_trans; [|exact Hs4]. split.
        -- eapply same_view_trans; [intros y [Hy Hyx%not_elem_of_singleton]%elem_of_difference; by apply (sb_view _ _ _ _ _ Hs1)|].
           eapply same_view_sub; [|apply Hs2]. set_solver.
        -- intros nm y. by rewrite (sm_names _ _ _ _ Hs2), (sb_names _ _ _ _ _ Hs1).
        -- intros y. by rewrite (sm_links _ _ _ _ Hs2), (sb_links _ _ _ _ _ Hs1).
        -- by rewrite (sm_size _ _ _ _ Hs2), (sb_size _ _ _ _ _ Hs1).
      * intros b. rewrite Hu4, Hu3, elem_of_difference, not_elem_of_singleton. assert (Hu2 : used v2 = used v1) by (unfold used; by rewrite Hf2).
        change (used (fs_vol s2)) with (used v2). rewrite Hu2, Hu1, Hix. tauto.
  - destruct (reclaim_named x P s x sv Hok Hn Hr Hz) as (s' & Hrun & Hok' & Hs' & Hr' & Hu').
    exists P, s'. split; [exact Hrun|]. split; [done|]. split; [done|]. split; [done|]. unfold gone. rewrite decide_False by (intros [_ ?]; congruence). done.
Qed.

Lemma vop_decref_run P s x :
  fs_ok x 0 P s → 0 < refs s x → x ≠ SFS_ROOTDIR_INO →
  ∃ P' s', VOP_DECREF hw_read hw_write x s = Ret tt s' ∧ fs_ok x 0 P' s' ∧ same_fs P' s s' ∧
    (∀ y, refs s' y = if decide (y = x) then refs s y - 1 else refs s y) ∧ gone P s x P' s'.
Proof.
  intros Hok Hr Hx1. pose proof Hok as [F N T].
  assert (Hn : is_Some (nodes (fs_vol s) !! x)) by (by apply (refs_loaded x 0 P)).
  destruct (table_find s x T Hn) as (t & Hf & _ & Ht & _).
  unfold VOP_DECREF. rewrite (run_find _ _ _ _ Hf), run_assert by (apply Z.ltb_lt; lia). rewrite Ht. destruct (Z.ltb_spec 1 (refs s x)) as [H1|H1].
  - exists P, (with_refs x (refs s x - 1) s). split; [done|]. split; [apply with_refs_ok; [done|lia]|]. split; [by apply same_fs_vol|]. split.
    + intros y. rewrite refs_with by (by rewrite Hf). destruct (decide (y = x)) as [->|]; lia.
    + unfold gone. rewrite decide_False by lia. done.
  - destruct (reclaim_run P s x Hok Hn Hx1 ltac:(lia)) as (P' & s' & Hrun & Hok' & Hs & Hrefs & Hg). rewrite (run_bind_ret _ _ _ _ _ Hrun).
    exists P', s'. split; [done|]. split; [done|]. split; [done|]. split; [|done]. intros y. rewrite Hrefs. destruct (decide (y = x)) as [->|]; lia.
Qed.

(** [VOP_DECREF] of any vnode, the root included. *)
Lemma decref_any P s x :
  fs_wf P s → 0 < refs s x →
  ∃ P' s', VOP_DECREF hw_read hw_write x s = Ret tt s' ∧ fs_wf P' s' ∧ ∀ y, refs s' y = if decide (y = x) then refs s y - 1 else refs s y.
Proof.
  intros Hok Hr. destruct (decide (x = SFS_ROOTDIR_INO)) as [->|Hx1].
  - pose proof Hok as [F N T]. destruct (proj1 (refs_loaded _ _ _ _ _ Hok) Hr) as [sv Hn]. destruct (table_find s SFS_ROOTDIR_INO T) as (t & Hf & _ & Ht & _); [by rewrite Hn|].
    unfold VOP_DECREF. rewrite (run_find _ _ _ _ Hf), run_assert by (apply Z.ltb_lt; lia). rewrite Ht. destruct (Z.ltb_spec 1 (refs s SFS_ROOTDIR_INO)) as [H1|H1].
    + exists P, (with_refs SFS_ROOTDIR_INO (refs s SFS_ROOTDIR_INO - 1) s). split; [done|]. split; [apply with_refs_ok; [done|lia]|].
      intros y. rewrite refs_with by (by rewrite Hf). destruct (decide (y = SFS_ROOTDIR_INO)) as [->|]; lia.
    + destruct (reclaim_named SFS_NOINO P s SFS_ROOTDIR_INO sv Hok Hn) as (s' & Hrun & Hok' & _ & Hr' & _); [lia| |].
      { pose proof (no_root _ _ _ _ _ N) as Hz. unfold SfsNames.root, SfsInv.inode in Hz. by rewrite Hn in Hz. }
      rewrite (run_bind_ret _ _ _ _ _ Hrun). exists P, s'. split; [done|]. split; [done|]. intros y. rewrite Hr'. destruct (decide (y = SFS_ROOTDIR_INO)) as [->|]; lia.
  - destruct (vop_decref_run P s x) as (P' & s' & Hrun & Hok' & _ & Hr' & _); [by eapply fs_zero|done|done|]. exists P', s'. split; [done|]. split; [by eapply fs_zero|done].
Qed.

(** ** A new file *)

Lemma allocated_alike v v1 v2 b : allocated v v1 b → alike v1 v2 → allocated v v2 b.
Proof.
  intros [A1 A2 A3 A4 A5 A6 A7 A8] Ha. pose proof (proj1 (vol_ok_proper contents v1 v2 Ha) A4) as Hok. destruct Ha as [B1 B2 B3 B4 B5 B6].
  split; unfold used in *; rewrite ?B2, ?B3, ?B4, ?B5, ?B6; try done. intros c. by rewrite B1.
Qed.

Definition empty_file (links : Z) : sfs_dinode := Dinode 0 SFS_TYPE_FILE links (replicate 15 0) 0 (replicate 110 0).

(** The block that was allocated is freed again. *)
Lemma bfree_back P s x v1 s1 :
  fs_ok x 0 P s → allocated (fs_vol s) v1 x → s1 = set_vol v1 s →
  ∃ s', on_vol (sfs_bfree x) s1 = Ret tt s' ∧ fs_ok x 0 P s' ∧ same_fs P s s' ∧ sfs_vnodes s' = sfs_vnodes s ∧ used (fs_vol s') = used (fs_vol s).
Proof.
  intros Hok [[A1 A1'] A2 A3 A4 A5 A6 A7 A8] ->. pose proof Hok as [F N [T1 T2 T3]].
  destruct (bfree_run contents x v1 A4) as (v3 & Hrun & Hu & Hok3 & Hb & _ & Hnb & Hn & _); [rewrite A2; set_solver|by rewrite A6|].
  assert (Hu3 : used v3 = used (fs_vol s)) by (rewrite Hu, A2; set_solver).
  assert (Hblk : ∀ b, b ∈ used (fs_vol s) → blk v3 b = blk (fs_vol s) b) by (intros b Hbu; rewrite Hb, A3, decide_False; [done|by intros ->]).
  assert (Hi : ∀ y, y ∈ P → inode v3 y = inode (fs_vol s) y).
  { intros y Hy. unfold SfsInv.inode. rewrite Hn, A7. destruct (nodes (fs_vol s) !! y); [done|]. rewrite Hblk; [done|]. by apply (fo_block _ _ _ F). }
  destruct (files_view contents P (fs_vol s) v3 F Hok3) as [F3 Hk]; [congruence|done|intros b Hbu _; by apply Hblk|done| |].
  { intros y sv. rewrite Hn, A7. intros Hy. pose proof (fo_loaded _ _ _ F y sv Hy) as HyP. split; [done|]. rewrite Hblk by (by apply (fo_block _ _ _ F)). by apply (fo_clean _ _ _ F). }
  exists (set_vol v3 s). split; [unfold on_vol; cbn [fs_vol set_vol]; by rewrite Hrun|].
  destruct (fs_ok_view contents x 0 P s (set_vol v3 s) Hok F3) as [H1 H2]; [intros y Hy; split; [by apply Hi|by apply Hk]|cbn; congruence| |done].
  split; [done| |done]. cbn. by rewrite Hn, A7.
Qed.

(** The inode of a block that was allocated joins the table. *)
Lemma create_fs P s x v1 :
  fs_ok x 0 P s → allocated (fs_vol s) v1 x →
  let sv := Vnode (empty_file 0) true in
  let s' := set_vnodes (sfs_vnodes s ++ [Tnode x 1]) (set_vol (set_node x sv v1) s) in
  (x ∉ P) ∧ fs_ok x 0 ({[x]} ∪ P) s' ∧ same_fs P s s' ∧ inode (fs_vol s') x = empty_file 0 ∧ nlinks (fs_vol s') x = 0 ∧
  (∀ y, refs s' y = if decide (y = x) then 1 else refs s y) ∧ used (fs_vol s') = {[x]} ∪ used (fs_vol s).
Proof.
  intros Hok A sv s'. pose proof Hok as [F N T].
  destruct (files_new contents P (fs_vol s) v1 x SFS_TYPE_FILE F A ltac:(done)) as (HxP & F' & Ho).
  assert (Hview : same_view P (fs_vol s) (fs_vol s')) by (intros y Hy; apply Ho; [done|by intros ->]).
  destruct (names_view contents x 0 P _ _ (fo_root _ _ _ F) N Hview) as (N' & Hnm & Hl).
  assert (Hx0 : nlinks (fs_vol s') x = 0).
  { destruct (decide (nlinks (fs_vol s') x = 0)) as [|Hne]; [done|]. exfalso. pose proof (nlinks_bound contents (fs_vol s') x (no_dir _ _ _ _ _ N')).
    destruct (proj2 (nlinks_pos contents (fs_vol s') x (no_dir _ _ _ _ _ N') ltac:(destruct A as [[_ ?] _]; unfold SFS_NOINO; lia))) as [nm Hy]; [lia|].
    by apply HxP, (no_entry _ _ _ _ _ N' nm). }
  assert (Hix : inode (fs_vol s') x = empty_file 0) by (unfold SfsInv.inode; cbn; by rewrite lookup_insert_eq).
  assert (Hn : nodes (fs_vol s) !! x = None) by (destruct (nodes (fs_vol s) !! x) eqn:E; [exfalso; by eapply HxP, (fo_loaded _ _ _ F)|done]).
  destruct (table_snoc s x sv v1 T Hn (ac_nodes _ _ _ _ A)) as (T' & _ & Hrefs).
  split; [done|]. split; [|split; [split; [done|done|done|apply (ac_nblocks _ _ _ _ A)]|]].
  - split; [done| |].
    + destruct N' as [M1 M2 M3 M4]. split; [done|intros nm y Hy; split; [apply elem_of_union_r|]; by apply (M2 nm)| |done].
      intros y [->%elem_of_singleton|Hy]%elem_of_union Hy1; [|by apply M3]. rewrite Hix, Hx0, decide_True by done. done.
    + exact T'.
  - split; [done|]. split; [done|]. split; [exact Hrefs|apply A].
Qed.

Lemma load_fresh mem grow P s x v1 :
  fs_ok x 0 P s → allocated (fs_vol s) v1 x →
  ∃ (r : Z + unit) v2, allocated (fs_vol s) v2 x ∧ match r with
    | inl e => sfs_loadvnode hw_read hw_write mem grow x SFS_TYPE_FILE (set_vol v1 s) = Ret (inl e) (set_vol v2 s) ∧ e = ENOMEM ∧ (mem = false ∨ grow = false)
    | inr _ => sfs_loadvnode hw_read hw_write mem grow x SFS_TYPE_FILE (set_vol v1 s) =
        Ret (inr x) (set_vnodes (sfs_vnodes s ++ [Tnode x 1]) (set_vol (set_node x (Vnode (empty_file 0) true) v2) s))
    end.
Proof.
  intros Hok A. pose proof Hok as [F N T]. pose proof A as [[A1 A1'] A2 A3 A4 A5 A6 A7 A8].
  assert (Hv : ∀ b, valid_block (fs_vol s) b → valid_block v1 b) by (intros b [? ?]; split; [by rewrite A6|rewrite A2; by apply elem_of_union_r]).
  assert (Hxv : valid_block v1 x) by (split; [by rewrite A6|rewrite A2; by apply elem_of_union_l, elem_of_singleton_2]).
  unfold sfs_loadvnode. rewrite run_gets. cbn [set_vol sfs_vnodes].
  rewrite (run_bind_ret _ _ _ _ _ (search_run (set_vol v1 s) x (sfs_vnodes s) A4 (λ t Ht, Hv _ (table_blocks contents x 0 P s Hok t Ht)))).
  rewrite bool_decide_eq_false_2.
  2: { intros [sw Hsw]%(tb_nodes _ T). apply A1. by apply (fo_block _ _ _ F), (fo_loaded _ _ _ F x sw). }
  destruct mem; cbn [negb]; [|exists (inl ENOMEM), v1; split; [done|]; split_and!; [done|done|by left]].
  destruct (bused_run x v1 A4 Hxv) as (r & Hrun & Hr0). rewrite (run_on_vol _ _ (set_vol v1 s) _ _ Hrun), (proj2 (Z.eqb_neq r 0)) by done. unfold ebind.
  pose proof (vo_disk _ A4). pose proof (vo_size _ A4). destruct (readblock_run hw_read hw_write contents x v1) as (v2 & Hrd & Ha); [lia|done|].
  rewrite (run_on_vol _ _ (set_vol v1 s) _ _ Hrd). rewrite A3, decide_True, decode_zero by done. pose proof (allocated_alike _ _ _ _ A Ha) as A'.
  cbn [Z.eqb Pos.eqb SFS_TYPE_FILE SFS_TYPE_INVAL negb sv_i sfi_type]. rewrite run_assoc, run_assert, run_mret by done. cbn [set_type sv_i sfi_type Z.eqb Pos.eqb SFS_TYPE_FILE negb andb].
  destruct grow; cbn [negb]; [|exists (inl ENOMEM), v2; split; [done|]; split_and!; [done|done|by right]].
  exists (inr tt), v2. split; [done|]. by rewrite run_put, run_modify.
Qed.

(** A new object, or ENOSPC on a full volume, or ENOMEM. *)
Lemma makeobj_run mem grow P s :
  fs_wf P s →
  ∃ r s', sfs_makeobj hw_read hw_write mem grow SFS_TYPE_FILE s = Ret r s' ∧ same_fs P s s' ∧ match r with
    | inl e => fs_wf P s' ∧ sfs_vnodes s' = sfs_vnodes s ∧ used (fs_vol s') = used (fs_vol s) ∧
        (e = ENOSPC ∧ full (fs_vol s) ∨ e = ENOMEM ∧ (mem = false ∨ grow = false))
    | inr x => (x ∉ P) ∧ fs_wf ({[x]} ∪ P) s' ∧ inode (fs_vol s') x = empty_file 0 ∧ nlinks (fs_vol s') x = 0 ∧
        (∀ y, refs s' y = if decide (y = x) then 1 else refs s y) ∧ used (fs_vol s') = {[x]} ∪ used (fs_vol s)
    end.
Proof.
  intros Hok. pose proof Hok as [F N T]. unfold sfs_makeobj, ebind.
  destruct (balloc_run hw_read hw_write contents (fs_vol s) (fo_ok _ _ _ F)) as [[Hrun Hfull]|(x & v1 & Hrun & A)]; rewrite (run_on_vol _ _ _ _ _ Hrun).
  - rewrite set_vol_id. exists (inl ENOSPC), s. split; [done|]. split; [by apply same_fs_vol|]. split_and!; [done|done|done|by left].
  - apply (fs_zero contents _ x) in Hok. destruct (load_fresh mem grow P s x v1 Hok A) as ([e|[]] & v2 & A' & Hl).
    + destruct Hl as (Hl & -> & Hm). rewrite (run_bind_ret _ _ _ _ _ Hl).
      destruct (bfree_back P s x v2 (set_vol v2 s) Hok A' eq_refl) as (s' & Hrun' & Hok' & Hs & Ht & Hu). rewrite (run_bind_ret _ _ _ _ _ Hrun').
      exists (inl ENOMEM), s'. split; [done|]. split; [done|]. split_and!; [by eapply fs_zero|done|done|by right].
    + rewrite (run_bind_ret _ _ _ _ _ Hl). destruct (create_fs P s x v2 Hok A') as (C1 & C2 & C3 & C4 & C5 & C6 & C7).
      eexists (inr x), _. split; [reflexivity|]. split; [done|]. split; [done|]. split; [by eapply fs_zero|done].
Qed.

(** ** Steps of the directory and of link counts *)

(** The directory changes: [d] names more of the file [x]. *)
Lemma root_step x k d P s sv sv' v' :
  fs_ok x k P s → nodes (fs_vol s) !! SFS_ROOTDIR_INO = Some sv → step SFS_ROOTDIR_INO sv (fs_vol s) sv' v' → same_meta (sv_i sv) (sv_i sv') →
  dir_wf v' (sv_i sv') → (∀ nm y, dir_maps contents v' (sv_i sv') nm y → y ∈ P ∧ y ≠ SFS_ROOTDIR_INO) →
  (∀ y, y ≠ SFS_NOINO → links contents v' (sv_i sv') y = links contents (fs_vol s) (sv_i sv) y + if decide (x = y) then d else 0) →
  fs_ok x (k + d) P (set_vol v' s) ∧ same_view (P ∖ {[SFS_ROOTDIR_INO]}) (fs_vol s) v' ∧ root v' = sv_i sv' ∧ root (fs_vol s) = sv_i sv.
Proof.
  intros [F N T] Hn S Hm Hwf Hnm Hl. assert (Hr : root (fs_vol s) = sv_i sv) by (unfold SfsNames.root, SfsInv.inode; by rewrite Hn).
  assert (Hio : inode_ok (sv_i sv')).
  { destruct (proj2 (fo_file _ _ _ F _ (fo_root _ _ _ F))) as [I1 I2 I3 I4 I5]. change (inode _ _) with (root (fs_vol s)) in *. rewrite Hr in *.
    destruct Hm as (M1 & M2 & M3). pose proof (dw_range _ _ _ Hwf). unfold MAXFILE, MAXBLOCKS, SFS_NDIRECT, SFS_DBPERIDB, SFS_BLOCKSIZE in *. split; [lia|congruence..]. }
  destruct (files_step contents P _ _ sv sv' v' F Hn S Hio) as (F' & Ho & Hi).
  assert (Hv : same_view (P ∖ {[SFS_ROOTDIR_INO]}) (fs_vol s) v') by (intros y [Hy Hyx%not_elem_of_singleton]%elem_of_difference; by apply Ho).
  split; [|done]. change (root v') with (inode v' SFS_ROOTDIR_INO) in *. split; [done| |].
  - split; unfold SfsNames.names, SfsNames.nlinks, SfsNames.root; cbn [set_vol fs_vol]; rewrite ?Hi; [done|done| |].
    2: { destruct Hm as (_ & -> & _). rewrite <- Hr. apply (no_root _ _ _ _ _ N). }
    intros y Hy Hy1. rewrite (proj1 (Ho y Hy Hy1)). destruct (no_file _ _ _ _ _ N y Hy Hy1) as [E1 E2]. split; [done|].
    unfold SfsNames.nlinks in E2. rewrite Hr in E2. rewrite Hl, <- E2 by (destruct (fo_block _ _ _ F y Hy); unfold SFS_NOINO; lia).
    destruct (decide (y = x)), (decide (x = y)); try congruence; lia.
  - destruct T as [T1 T2 T3]. split; [done| |done]. intros y. cbn. rewrite (st_nodes _ _ _ _ _ _ S), T2.
    destruct (decide (y = SFS_ROOTDIR_INO)) as [->|]; [rewrite lookup_insert_eq, Hn; split; eauto|by rewrite lookup_insert_ne].
Qed.

(** The link count follows. *)
Lemma relink_run x d P s sv :
  fs_ok x d P s → nodes (fs_vol s) !! x = Some sv → x ≠ SFS_ROOTDIR_INO →
  let c := sfi_linkcount (sv_i sv) + d in
  let s' := set_vol (set_node x (set_linkcount c sv) (fs_vol s)) s in
  c = nlinks (fs_vol s) x ∧ 0 ≤ c ≤ 1144 ∧ fs_ok x 0 P s' ∧ same_but contents P s s' x.
Proof.
  intros Hok Hn Hx1 c s'. pose proof Hok as [F N T]. assert (Hix : inode (fs_vol s) x = sv_i sv) by (unfold SfsInv.inode; by rewrite Hn).
  pose proof (fo_loaded _ _ _ F x sv Hn) as Hx. destruct (no_file _ _ _ _ _ N x Hx Hx1) as [E1 E2]. rewrite Hix in E1, E2. rewrite decide_True in E2 by done.
  pose proof (nlinks_bound contents (fs_vol s) x (no_dir _ _ _ _ _ N)) as Hb. split; [done|]. split; [unfold c; lia|].
  destruct (proj2 (fo_file _ _ _ F x Hx)) as [I1 I2 I3 I4 I5]. rewrite Hix in *.
  destruct (step_fs contents x d d P s sv (set_linkcount c sv) (set_node x (set_linkcount c sv) (fs_vol s)) Hok Hn Hx1) as [H1 H2]; try done.
  - apply step_fields; [by apply (files_loaded contents P)|done..].
  - split; cbn; [done|done|lia|done|done].
  - by rewrite Z.sub_diag in H1.
Qed.

(** ** The directory as the operations use it *)

Definition slot_is v (i : Z) (nm : list Z) (x : Z) : Prop :=
  live contents v (root v) i ∧ entry_name (slot contents v (root v) i) = nm ∧ sfd_ino (slot contents v (root v) i) = x.

Lemma slot_names v i nm x : slot_is v i nm x → names v nm x.
Proof. intros (H1 & H2 & H3). by exists i. Qed.

Lemma slot_same P v v' i nm x : SFS_ROOTDIR_INO ∈ P → dir_wf v (root v) → same_view P v v' → slot_is v i nm x → slot_is v' i nm x.
Proof.
  intros HP Hwf Hs ([Hi Hz] & Hnm & Hx). destruct (Hs _ HP) as [Hri Hrk]. change (root v' = root v) in Hri. unfold slot_is, live. rewrite Hri.
  rewrite (dir_same_slot contents v (root v) v' (root v) i Hwf (dir_same_kept contents _ _ _ Hwf Hrk) Hi). done.
Qed.

Lemma root_loaded P s : fs_wf P s → 0 < refs s SFS_ROOTDIR_INO →
  ∃ sv, nodes (fs_vol s) !! SFS_ROOTDIR_INO = Some sv ∧ root (fs_vol s) = sv_i sv ∧ loaded SFS_ROOTDIR_INO sv (fs_vol s) ∧ dir_wf (fs_vol s) (sv_i sv).
Proof.
  intros Hok Hr. apply (refs_loaded _ _ _ _ _ Hok) in Hr as [sv Hn]. exists sv.
  assert (Hi : root (fs_vol s) = sv_i sv) by (unfold SfsNames.root, SfsInv.inode; by rewrite Hn).
  split_and!; [done|done|apply (files_loaded contents P); [apply Hok|done]|rewrite <- Hi; apply Hok].
Qed.

Lemma findname_fs P s name :
  fs_wf P s → 0 < refs s SFS_ROOTDIR_INO →
  ∃ f v', sfs_dir_findname hw_read hw_write SFS_ROOTDIR_INO name (fs_vol s) = Ret (inr f) v' ∧ fs_wf P (set_vol v' s) ∧ same_fs P s (set_vol v' s) ∧ used v' = used (fs_vol s) ∧
    match f_hit f with Some (x, i) => slot_is v' i name x | None => ∀ x, ¬ names (fs_vol s) name x end.
Proof.
  intros Hok Hr. destruct (root_loaded P s Hok Hr) as (sv & Hn & Hi & Hl & Hwf).
  destruct (findname_run hw_read hw_write contents _ sv (fs_vol s) name Hl Hwf) as (f & v1 & Hrun & Ha & Hf). exists f, v1. split; [done|].
  destruct (alike_fs contents _ _ P s v1 Hok Ha) as [Hok1 Hs1]. split; [done|]. split; [done|]. split; [unfold used; by rewrite (al_freemap _ _ _ Ha)|]. pose proof (sr_hit _ _ _ _ _ _ Hf) as Hh.
  destruct (f_hit f) as [[x i]|].
  - apply (slot_same P (fs_vol s)); [apply Hok|rewrite Hi; apply Hwf|apply Hs1|]. unfold slot_is. rewrite Hi. by destruct Hh as (_ & ? & ? & ?).
  - intros x (i & Hlv & Hnm & _). unfold SfsNames.root in *. rewrite Hi in *. by apply (Hh i (proj1 Hlv)).
Qed.

(** Why a name cannot be added; [nospace] is what is known when a block is missing. *)
Definition link_error v (name : list Z) (e : Z) (nospace : Prop) : Prop :=
  e = EEXIST ∧ (∃ x, names v name x) ∨
  (∀ x, ¬ names v name x) ∧
  (e = ENAMETOOLONG ∧ SFS_NAMELEN ≤ zlen name ∨ e = ENOSPC ∧ nospace ∨ e = EFBIG ∧ sfi_size (root v) = MAXFILE).

Lemma link_fs P s name x :
  fs_wf P s → 0 < refs s SFS_ROOTDIR_INO → Forall (λ c, 0 < c < 256) name → x ∈ P → x ≠ SFS_ROOTDIR_INO →
  ∃ r v', sfs_dir_link hw_read hw_write SFS_ROOTDIR_INO name x (fs_vol s) = Ret r v' ∧
    same_view (P ∖ {[SFS_ROOTDIR_INO]}) (fs_vol s) v' ∧ sb_nblocks v' = sb_nblocks (fs_vol s) ∧
    match r with
    | inl e => fs_wf P (set_vol v' s) ∧ (∀ nm y, names v' nm y ↔ names (fs_vol s) nm y) ∧
        (∀ y, y ≠ SFS_NOINO → nlinks v' y = nlinks (fs_vol s) y) ∧ link_error (fs_vol s) name e (full v')
    | inr i => fs_ok x 1 P (set_vol v' s) ∧ (∀ z, ¬ names (fs_vol s) name z) ∧
        (∀ nm y, names v' nm y ↔ nm = name ∧ y = x ∨ names (fs_vol s) nm y) ∧
        (∀ j nm y, slot_is (fs_vol s) j nm y → slot_is v' j nm y)
    end.
Proof.
  intros Hok Hr Hname Hx Hx1. destruct (root_loaded P s Hok Hr) as (sv & Hn & Hi & Hl & Hwf). pose proof Hok as [F N T].
  assert (Hxr : 0 < x < 2 ^ 32) by (destruct (fo_block _ _ _ F x Hx); pose proof (vo_disk _ (fo_ok _ _ _ F)); pose proof (vo_size _ (fo_ok _ _ _ F)); lia).
  assert (Hent : ∀ nm y, dir_maps contents (fs_vol s) (sv_i sv) nm y → y ∈ P ∧ y ≠ SFS_ROOTDIR_INO).
  { intros nm y Hy. apply (no_entry _ _ _ _ _ N nm). unfold SfsNames.names. by rewrite Hi. }
  destruct (dir_link_run hw_read hw_write contents SFS_ROOTDIR_INO sv (fs_vol s) name x Hl Hwf Hname Hxr) as (r & sv' & v' & Hrun & Hpost).
  exists r, v'. split; [done|]. destruct r as [e|i].
  - destruct Hpost as [E Herr]. destruct (dir_same_view contents _ _ _ _ Hwf (dir_same_extended contents _ _ _ _ _ Hwf E)) as (Hwf' & Hm & Hsl).
    destruct (root_step x 0 0 P s sv sv' v') as (Hok' & Hv & Hr' & _).
    + by eapply fs_zero.
    + done.
    + apply E.
    + apply E.
    + done.
    + intros nm y Hy%Hm. by eapply Hent.
    + intros y _. unfold links. rewrite Hsl. destruct (decide _); lia.
    + split; [done|]. split; [apply (st_nblocks _ _ _ _ _ _ (ex_step _ _ _ _ _ _ E))|]. split; [by eapply fs_zero|]. unfold SfsNames.names, SfsNames.nlinks, link_error. unfold SfsNames.names. rewrite Hr', Hi.
      split; [done|]. split; [|done]. intros y _. unfold links. by rewrite Hsl.
  - destruct Hpost as (Hno & S & Hmeta & Hwf' & Hm & Hlk & Hlive & Hslot & Hold).
    destruct (root_step x 0 1 P s sv sv' v') as (Hok' & Hv & Hr' & _).
    + by eapply fs_zero.
    + done.
    + done.
    + done.
    + done.
    + intros nm y [[-> ->]|Hy]%Hm; [done|by eapply Hent].
    + done.
    + split; [done|]. split; [apply (st_nblocks _ _ _ _ _ _ S)|]. split; [done|]. unfold SfsNames.names, slot_is. rewrite Hr', Hi. split; [done|]. split; [done|].
      intros j nm y (H1 & H2 & H3). destruct (Hold j H1) as [H4 H5]. by rewrite H5.
Qed.

Lemma unlink_fs P s i nm x :
  fs_wf P s → 0 < refs s SFS_ROOTDIR_INO → slot_is (fs_vol s) i nm x →
  ∃ v', sfs_dir_unlink hw_read hw_write SFS_ROOTDIR_INO i (fs_vol s) = Ret (inr tt) v' ∧ fs_ok x (-1) P (set_vol v' s) ∧
    same_view (P ∖ {[SFS_ROOTDIR_INO]}) (fs_vol s) v' ∧ sb_nblocks v' = sb_nblocks (fs_vol s) ∧ (∀ nm' y, names v' nm' y ↔ names (fs_vol s) nm' y ∧ nm' ≠ nm) ∧
    used v' = used (fs_vol s).
Proof.
  intros Hok Hr (Hlv & Hnm & Hx). destruct (root_loaded P s Hok Hr) as (sv & Hn & Hi & Hl & Hwf). pose proof Hok as [F N T]. rewrite Hi in Hlv, Hnm, Hx.
  destruct (dir_unlink_run hw_read hw_write contents SFS_ROOTDIR_INO sv (fs_vol s) i Hl Hwf Hlv) as (sv' & v' & Hrun & S & Hwf' & Hm & Hlk & Hattr & Hused).
  exists v'. split; [done|]. destruct (root_step x 0 (-1) P s sv sv' v') as (Hok' & Hv & Hr' & _).
  - by eapply fs_zero.
  - done.
  - done.
  - apply Hattr.
  - done.
  - intros nm' y [Hy _]%Hm. apply (no_entry _ _ _ _ _ N nm'). unfold SfsNames.names. by rewrite Hi.
  - intros y Hy. rewrite Hlk, Hx by done. destruct (decide (x = y)); lia.
  - split; [done|]. split; [done|]. split; [apply (st_nblocks _ _ _ _ _ _ S)|]. unfold SfsNames.names. rewrite Hr', Hi. split; [|done]. intros nm' y. by rewrite Hm, Hnm.
Qed.

Lemma lookonce_run mem grow P s name :
  fs_wf P s → 0 < refs s SFS_ROOTDIR_INO →
  ∃ r s', sfs_lookonce hw_read hw_write mem grow SFS_ROOTDIR_INO name s = Ret r s' ∧ fs_wf P s' ∧ same_fs P s s' ∧ used (fs_vol s') = used (fs_vol s) ∧ match r with
    | inl e => (∀ y, refs s' y = refs s y) ∧
        (e = ENOENT ∧ (∀ x, ¬ names (fs_vol s) name x) ∨ e = ENOMEM ∧ (mem = false ∨ grow = false) ∧ ∃ x, names (fs_vol s) name x)
    | inr (x, i) => slot_is (fs_vol s') i name x ∧ (∀ y, refs s' y = if decide (y = x) then refs s y + 1 else refs s y)
    end.
Proof.
  intros Hok Hr. unfold sfs_lookonce, ebind at 1. destruct (findname_fs P s name Hok Hr) as (f & v1 & Hrun & Hok1 & Hs1 & Hu1 & Hh).
  rewrite (run_on_vol _ _ _ _ _ Hrun). destruct (f_hit f) as [[x i]|].
  2: { exists (inl ENOENT), (set_vol v1 s). split; [done|]. split; [done|]. split; [done|]. split; [exact Hu1|]. split; [done|by left]. }
  pose proof (slot_names _ _ _ _ Hh) as Hnm. destruct (no_entry _ _ _ _ _ (fk_names _ _ _ _ _ Hok1) _ _ Hnm) as [Hx Hx1].
  destruct (loadvnode_run hw_read hw_write contents mem grow _ _ P (set_vol v1 s) x Hok1 Hx) as (r & s' & Hrun2 & Hok2 & Hs2 & Hu2 & Hpost).
  unfold ebind. rewrite (run_bind_ret _ _ _ _ _ Hrun2). destruct r as [e|y].
  - destruct Hpost as (-> & Hm & Hrefs). exists (inl ENOMEM), s'. split; [done|]. split; [done|]. split; [by eapply same_fs_trans|]. split; [etrans; [exact Hu2|exact Hu1]|]. split; [exact Hrefs|].
    right. split; [done|]. split; [done|]. exists x. by apply (sm_names _ _ _ _ Hs1).
  - destruct Hpost as (-> & [sv Hsv] & Hrefs). rewrite (run_node _ s' x sv) by done.
    assert (Hlc : sfi_linkcount (sv_i sv) = nlinks (fs_vol s') x).
    { destruct (no_file _ _ _ _ _ (fk_names _ _ _ _ _ Hok2) x Hx Hx1) as [_ E]. unfold SfsInv.inode in E. rewrite Hsv in E. destruct (decide _); lia. }
    assert (Hpos : 0 < nlinks (fs_vol s') x).
    { apply (nlinks_pos contents); [apply Hok2| |exists name; by apply (sm_names _ _ _ _ Hs2)].
      destruct (fo_block _ _ _ (fk_files _ _ _ _ _ Hok2) x Hx). unfold SFS_NOINO. lia. }
    rewrite (proj2 (Z.eqb_neq _ 0)) by lia. exists (inr (x, i)), s'. split; [done|]. split; [done|]. split; [by eapply same_fs_trans|]. split; [etrans; [exact Hu2|exact Hu1]|]. split; [|exact Hrefs].
    eapply (slot_same P); [apply Hok1|apply Hok1|apply Hs2|done].
Qed.

End ops.
