(* ===== verification/SfsCalls.v ===== *)
(** * SfsCalls: creating, removing and renaming files (sfs_creat, sfs_link, sfs_remove, sfs_rename)

    The operations keep the invariant of a mounted file system and do to the map of names what they say; the other
    files, and what is open, are as before. *)

From Stdlib Require Import ZArith Lia.
From stdpp Require Import base gmap list option strings list_numbers.
From S2P Require Import Prelude Types Strings Bitmap Uio Sfs Disk SfsFile SfsIo SfsVol SfsTrunc SfsDir SfsNode SfsInv SfsNames SfsOps.
Set Default Goal Selector "!".
Open Scope Z_scope.

Section calls.
Context {D : Type} (hw_read : D → Z → D * (Z + list Z)) (hw_write : D → Z → list Z → D * Z) (contents : D → Z → list Z).
Context `{Hd : !DiskLaws hw_read hw_write contents}.
Implicit Types v : vol (D := D).
Implicit Types s : sfs_fs (D := D).
Implicit Types n : sfs_dinode.
Implicit Types P : gset Z.

Local Abbreviation blk := (blk contents).
Local Abbreviation alike := (alike contents).
Local Abbreviation allocated := (allocated contents).
Local Abbreviation fbyte := (fbyte contents).
Local Abbreviation owns := (owns contents).
Local Abbreviation file_kept := (file_kept contents).
Local Abbreviation loaded := (loaded contents).
Local Abbreviation step := (step contents).
Local Abbreviation inode := (inode contents).
Local Abbreviation files_ok := (files_ok contents).
Local Abbreviation others_kept := (others_kept contents).
Local Abbreviation dir_wf := (dir_wf contents).
Local Abbreviation root := (root contents).
Local Abbreviation names := (names contents).
Local Abbreviation nlinks := (nlinks contents).
Local Abbreviation names_ok := (names_ok contents).
Local Abbreviation fs_ok := (fs_ok contents).
Local Abbreviation fs_wf := (fs_wf contents).
Local Abbreviation same_view := (same_view contents).
Local Abbreviation same_fs := (same_fs contents).
Local Abbreviation slot_is := (slot_is contents).
Local Abbreviation gone := (gone contents).

(** The file [x] has [c] links, and is otherwise what it was. *)
Record relinked (c : Z) v v' (x : Z) : Prop := {
  rl_inode : inode v' x = sv_i (set_linkcount c (Vnode (inode v x) false));
  rl_owns : ∀ b, owns v' (inode v' x) b ↔ owns v (inode v x) b;
  rl_bytes : ∀ p, 0 ≤ p < MAXFILE → fbyte v' (inode v' x) p = fbyte v (inode v x) p;
}.

Lemma relinked_after c P v v1 v2 x : x ∈ P → relinked c v v1 x → same_view P v1 v2 → relinked c v v2 x.
Proof.
  intros Hx [R1 R2 R3] Hs. destruct (Hs x Hx) as [E (_ & Ho & Hb)]. split; [congruence|intros b; rewrite E, Ho; apply R2|].
  intros p Hp. rewrite E, Hb by done. by apply R3.
Qed.

Lemma relinked_before c P v v1 v2 x : x ∈ P → same_view P v v1 → relinked c v1 v2 x → relinked c v v2 x.
Proof.
  intros Hx Hs [R1 R2 R3]. destruct (Hs x Hx) as [E (_ & Ho & Hb)]. split; [congruence|intros b; rewrite R2, E; apply Ho|].
  intros p Hp. rewrite R3, E by done. by apply Hb.
Qed.

Lemma linkcount_is P s x : fs_wf P s → x ∈ P → x ≠ SFS_ROOTDIR_INO → sfi_linkcount (inode (fs_vol s) x) = nlinks (fs_vol s) x.
Proof. intros [F N T] Hx Hx1. destruct (no_file _ _ _ _ _ N x Hx Hx1) as [_ E]. destruct (decide _); lia. Qed.

Lemma refs_nonneg s x : table_ok s → 0 ≤ refs s x.
Proof.
  intros T. unfold refs. destruct (List.find _ _) as [t|] eqn:E; [|done]. apply List.find_some in E as [E%list_elem_of_In _].
  pose proof (tb_refs _ T t E). lia.
Qed.

(** The count of the file whose names changed is set right. *)
Lemma count_run x d P s :
  fs_ok x d P s → 0 < refs s x → x ≠ SFS_ROOTDIR_INO →
  ∃ sv, nodes (fs_vol s) !! x = Some sv ∧ inode (fs_vol s) x = sv_i sv ∧
    let c := sfi_linkcount (sv_i sv) + d in
    let s' := set_vol (set_node x (set_linkcount c sv) (fs_vol s)) s in
    (c = nlinks (fs_vol s) x ∧ 0 ≤ c ≤ 1144 ∧ fs_wf P s' ∧ same_but contents P s s' x) ∧ relinked c (fs_vol s) (fs_vol s') x.
Proof.
  intros Hok Hr Hx1. apply (refs_loaded contents _ _ _ _ _ Hok) in Hr as [sv Hn]. exists sv. split; [done|].
  assert (Hi : inode (fs_vol s) x = sv_i sv) by (unfold SfsInv.inode; by rewrite Hn). split; [done|]. intros c s'.
  destruct (relink_run contents x d P s sv Hok Hn Hx1) as (H1 & H2 & H3 & H4). split; [split_and!; [done|lia|lia|by eapply fs_zero|done]|].
  assert (Hi' : inode (fs_vol s') x = sv_i (set_linkcount c sv)) by (unfold SfsInv.inode; cbn; by rewrite lookup_insert_eq).
  split; rewrite Hi', Hi; done.
Qed.

Lemma others_view P v v' x : others_kept P v v' x → same_view (P ∖ {[x]}) v v'.
Proof. intros Ho y [Hy Hyx%not_elem_of_singleton]%elem_of_difference. by apply Ho. Qed.

Lemma in_files P x : x ∈ P → x ≠ SFS_ROOTDIR_INO → x ∈ P ∖ {[SFS_ROOTDIR_INO]}.
Proof. intros Hx Hx1. apply elem_of_difference. by rewrite not_elem_of_singleton. Qed.

(** ** An entry and the link count, together *)

(** The file [x] gains ([d] = 1) or loses ([d] = -1) a name. *)
Record counted (d : Z) P s s' x : Prop := {
  cn_wf : fs_wf P s';
  cn_refs : ∀ y, refs s' y = refs s y;
  cn_view : same_view (P ∖ {[SFS_ROOTDIR_INO]} ∖ {[x]}) (fs_vol s) (fs_vol s');
  cn_file : relinked (nlinks (fs_vol s) x + d) (fs_vol s) (fs_vol s') x;
  cn_links : nlinks (fs_vol s') x = nlinks (fs_vol s) x + d;
  cn_size : sb_nblocks (fs_vol s') = sb_nblocks (fs_vol s);
}.

Lemma count_fs d P s x v' :
  fs_wf P s → x ∈ P → x ≠ SFS_ROOTDIR_INO → 0 < refs s x → fs_ok x d P (set_vol v' s) →
  same_view (P ∖ {[SFS_ROOTDIR_INO]}) (fs_vol s) v' → sb_nblocks v' = sb_nblocks (fs_vol s) →
  ∃ sv, nodes v' !! x = Some sv ∧ 0 ≤ sfi_linkcount (sv_i sv) + d ≤ 1144 ∧
    let s' := set_vol (set_node x (set_linkcount (sfi_linkcount (sv_i sv) + d) sv) v') s in
    counted d P s s' x ∧ (∀ nm y, names (fs_vol s') nm y ↔ names v' nm y) ∧ root (fs_vol s') = root v' ∧ file_kept v' (fs_vol s') (root v').
Proof.
  intros Hok Hx Hx1 Hr Hok2 Hv Hsz. pose proof (in_files P x Hx Hx1) as HxQ.
  destruct (count_run x d P (set_vol v' s) Hok2 Hr Hx1) as (sv & Hn & Hi & (Hc & Hcr & Hok3 & Hs3) & Hrl). change (fs_vol (set_vol v' s)) with v' in Hn, Hi, Hc, Hrl, Hs3.
  assert (Hlc : sfi_linkcount (sv_i sv) = nlinks (fs_vol s) x) by (rewrite <- Hi, (proj1 (Hv x HxQ)); by apply (linkcount_is P)).
  exists sv. split; [done|]. split; [done|]. intros s'. split; [|split; [apply (sb_names _ _ _ _ _ Hs3)|apply (sb_view _ _ _ _ _ Hs3); [apply Hok|congruence]]]. split.
  - exact Hok3.
  - done.
  - eapply same_view_trans; [eapply same_view_sub; [|exact Hv]; set_solver|]. eapply same_view_sub; [|apply others_view, (sb_view _ _ _ _ _ Hs3)]. set_solver.
  - rewrite <- Hlc. by eapply relinked_before.
  - rewrite <- Hlc, Hc. apply (sb_links _ _ _ _ _ Hs3).
  - rewrite <- Hsz. apply (sb_size _ _ _ _ _ Hs3).
Qed.

Lemma unlinked_run P s x i nm :
  fs_wf P s → 0 < refs s SFS_ROOTDIR_INO → slot_is (fs_vol s) i nm x → 0 < refs s x →
  ∃ v' sv, sfs_dir_unlink hw_read hw_write SFS_ROOTDIR_INO i (fs_vol s) = Ret (inr tt) v' ∧ nodes v' !! x = Some sv ∧ 0 < sfi_linkcount (sv_i sv) ∧
    let s' := set_vol (set_node x (set_linkcount (sfi_linkcount (sv_i sv) - 1) sv) v') s in
    counted (-1) P s s' x ∧ (∀ nm' y, names (fs_vol s') nm' y ↔ names (fs_vol s) nm' y ∧ nm' ≠ nm) ∧ used (fs_vol s') = used (fs_vol s).
Proof.
  intros Hok Hr Hslot Hrx. destruct (no_entry _ _ _ _ _ (fk_names _ _ _ _ _ Hok) _ _ (slot_names contents _ _ _ _ Hslot)) as [Hx Hx1].
  destruct (unlink_fs hw_read hw_write contents P s i nm x Hok Hr Hslot) as (v' & Hrun & Hok2 & Hv & Hsz & Hm & Hu).
  destruct (count_fs (-1) P s x v' Hok Hx Hx1 Hrx Hok2 Hv Hsz) as (sv & Hn & Hc & C & Hnm & _).
  exists v', sv. split; [done|]. split; [done|]. split; [lia|]. intros s'. split; [exact C|]. split; [|exact Hu]. intros nm' y. by rewrite <- Hm, <- Hnm.
Qed.

Lemma linked_run P s x name :
  fs_wf P s → 0 < refs s SFS_ROOTDIR_INO → Forall (λ c, 0 < c < 256) name → x ≠ SFS_ROOTDIR_INO → 0 < refs s x →
  ∃ r v', sfs_dir_link hw_read hw_write SFS_ROOTDIR_INO name x (fs_vol s) = Ret r v' ∧ match r with
    | inl e => fs_wf P (set_vol v' s) ∧ same_view (P ∖ {[SFS_ROOTDIR_INO]}) (fs_vol s) v' ∧ sb_nblocks v' = sb_nblocks (fs_vol s) ∧
        (∀ nm y, names v' nm y ↔ names (fs_vol s) nm y) ∧ (∀ y, y ≠ SFS_NOINO → nlinks v' y = nlinks (fs_vol s) y) ∧ link_error contents (fs_vol s) name e (full v')
    | inr i => ∃ sv, nodes v' !! x = Some sv ∧ (∀ z, ¬ names (fs_vol s) name z) ∧
        let s' := set_vol (set_node x (set_linkcount (wrap 16 (sfi_linkcount (sv_i sv) + 1)) sv) v') s in
        counted 1 P s s' x ∧ (∀ nm y, names (fs_vol s') nm y ↔ nm = name ∧ y = x ∨ names (fs_vol s) nm y) ∧
        (∀ j nm y, slot_is (fs_vol s) j nm y → slot_is (fs_vol s') j nm y)
    end.
Proof.
  intros Hok Hr Hname Hx1 Hrx. destruct (proj1 (refs_loaded contents _ _ _ _ _ Hok) Hrx) as [sv0 Hn0].
  pose proof (fo_loaded _ _ _ (fk_files _ _ _ _ _ Hok) x sv0 Hn0) as Hx.
  destruct (link_fs hw_read hw_write contents P s name x Hok Hr Hname Hx Hx1) as (r & v' & Hrun & Hv & Hsz & Hpost). exists r, v'. split; [done|]. destruct r as [e|i].
  - by destruct Hpost as (H1 & H2 & H3 & H4).
  - destruct Hpost as (Hok2 & Hno & Hm & Hold). destruct (count_fs 1 P s x v' Hok Hx Hx1 Hrx Hok2 Hv Hsz) as (sv & Hn & Hc & C & Hnm & Hri & Hrk).
    exists sv. split; [done|]. split; [done|]. rewrite wrap_small by lia. intros s'. split; [exact C|]. split; [intros nm y; by rewrite <- Hm, <- Hnm|].
    intros j nm y Hj. apply (slot_same contents {[SFS_ROOTDIR_INO]} v'); [by apply elem_of_singleton|apply Hok2| |by apply Hold].
    intros z ->%elem_of_singleton. split; [exact Hri|exact Hrk].
Qed.

(** What becomes of the file [x] that has lost a name: when it was the last name of a file that is not open, the blocks
    in use are those of before without the block of the inode and the blocks of the file; else the blocks in use are those
    of before and the file has one link less. *)
Definition lost_name P s x P' s' : Prop :=
  if decide (refs s x = 0 ∧ nlinks (fs_vol s) x = 1)
  then P' = P ∖ {[x]} ∧ ∀ b, b ∈ used (fs_vol s') ↔ b ∈ used (fs_vol s) ∧ b ≠ x ∧ ¬ owns (fs_vol s) (inode (fs_vol s) x) b
  else P' = P ∧ used (fs_vol s') = used (fs_vol s) ∧ relinked (nlinks (fs_vol s) x - 1) (fs_vol s) (fs_vol s') x.

Lemma lost_gone P s s1 s3 x P' s' :
  x ∈ P → same_fs P s s1 → counted (-1) P s1 s3 x → used (fs_vol s3) = used (fs_vol s) → refs s3 x = refs s x + 1 → same_fs P' s3 s' → gone P s3 x P' s' → lost_name P s x P' s'.
Proof.
  intros Hx Hs1 C Hus Hrs Hs4 Hg. pose proof (cn_links _ _ _ _ _ C) as Hnl. rewrite (sm_links _ _ _ _ Hs1) in Hnl. pose proof (cn_file _ _ _ _ _ C) as Hrl.
  rewrite (sm_links _ _ _ _ Hs1) in Hrl. assert (Hrl' : relinked (nlinks (fs_vol s) x + -1) (fs_vol s) (fs_vol s3) x) by (by eapply relinked_before; [|apply Hs1|]).
  unfold lost_name. unfold SfsOps.gone in Hg. rewrite Hrs, Hnl in Hg. destruct (decide (refs s x = 0 ∧ nlinks (fs_vol s) x = 1)) as [Hgone|Hstay].
  - rewrite decide_True in Hg by lia. destruct Hg as [-> Hu]. split; [done|]. intros b. by rewrite Hu, Hus, (rl_owns _ _ _ _ Hrl').
  - rewrite decide_False in Hg by lia. destruct Hg as [-> Hu]. split; [done|]. split; [congruence|]. by eapply relinked_after; [| |apply (sm_view _ _ _ _ Hs4)].
Qed.

Lemma remove_names mem grow P s name :
  fs_wf P s → 0 < refs s SFS_ROOTDIR_INO →
  ∃ r s', sfs_remove hw_read hw_write mem grow SFS_ROOTDIR_INO name s = Ret r s' ∧ (∀ y, refs s' y = refs s y) ∧ match r with
    | inl e => fs_wf P s' ∧ same_fs P s s' ∧ used (fs_vol s') = used (fs_vol s) ∧
        (e = ENOENT ∧ (∀ x, ¬ names (fs_vol s) name x) ∨ e = ENOMEM ∧ (mem = false ∨ grow = false) ∧ ∃ x, names (fs_vol s) name x)
    | inr _ => ∃ x P', names (fs_vol s) name x ∧ fs_wf P' s' ∧
        (∀ nm y, names (fs_vol s') nm y ↔ names (fs_vol s) nm y ∧ nm ≠ name) ∧
        same_view (P ∖ {[SFS_ROOTDIR_INO]} ∖ {[x]}) (fs_vol s) (fs_vol s') ∧ lost_name P s x P' s'
    end.
Proof.
  intros Hok Hr. unfold sfs_remove, ebind. destruct (lookonce_run hw_read hw_write contents mem grow P s name Hok Hr) as (r & s1 & Hrun & Hok1 & Hs1 & Hu1 & Hpost).
  rewrite (run_bind_ret _ _ _ _ _ Hrun). destruct r as [e|[x i]].
  { destruct Hpost as [Hrefs He]. by exists (inl e), s1. }
  destruct Hpost as [Hslot Hrefs]. pose proof (slot_names contents _ _ _ _ Hslot) as Hnm1.
  destruct (no_entry _ _ _ _ _ (fk_names _ _ _ _ _ Hok1) _ _ Hnm1) as [Hx Hx1].
  assert (Hr1 : 0 < refs s1 SFS_ROOTDIR_INO) by (rewrite Hrefs, decide_False by done; done).
  assert (Hrx : 0 < refs s1 x) by (rewrite Hrefs, decide_True by done; pose proof (refs_nonneg s x (fk_table _ _ _ _ _ Hok)); lia).
  destruct (unlinked_run P s1 x i name Hok1 Hr1 Hslot Hrx) as (v2 & sv & Hrun2 & Hn & Hpos & C & Hm & Hu3).
  rewrite (run_on_vol _ _ _ _ _ Hrun2), run_assoc, (run_node _ (set_vol v2 s1) x sv Hn), run_assoc, run_assert by (by apply Z.ltb_lt).
  rewrite run_put. cbn [set_vol fs_vol]. set (s3 := set_vol _ s1) in *. change (set_vol _ (set_vol v2 s1)) with s3.
  destruct (vop_decref_run hw_read hw_write contents P s3 x) as (P' & s' & Hrun4 & Hok4 & Hs4 & Hrefs4 & Hg); [eapply fs_zero, C|by rewrite (cn_refs _ _ _ _ _ C)|done|].
  rewrite (run_bind_ret _ _ _ _ _ Hrun4). exists (inr tt), s'. split; [done|].
  split; [intros y; rewrite Hrefs4, (cn_refs _ _ _ _ _ C), Hrefs; destruct (decide (y = x)); lia|].
  exists x, P'. split; [by apply (sm_names _ _ _ _ Hs1)|]. split; [by eapply fs_zero|]. split; [|split].
  - intros nm y. by rewrite (sm_names _ _ _ _ Hs4), Hm, (sm_names _ _ _ _ Hs1).
  - eapply same_view_trans; [eapply same_view_sub; [|apply (sm_view _ _ _ _ Hs1)]; set_solver|].
    eapply same_view_trans; [apply (cn_view _ _ _ _ _ C)|]. eapply same_view_sub; [|apply (sm_view _ _ _ _ Hs4)].
    unfold SfsOps.gone in Hg. destruct (decide _); destruct Hg as [-> _]; set_solver.
  - eapply lost_gone; [done|exact Hs1|exact C|etrans; [exact Hu3|exact Hu1]|by rewrite (cn_refs _ _ _ _ _ C), Hrefs, decide_True|exact Hs4|exact Hg].
Qed.

(** C13: removing a name: [sfs_remove] fails only with ENOENT, when there is no such name, or with ENOMEM, when the vnode of the
    file cannot be made, and then changes nothing, the free map included.  Otherwise the name, and no other, is gone from the directory; when
    it was the last name of a file that is not open, the file is no longer one of the volume, and the blocks in use are
    those of before without its blocks and the block of its inode; else its link count is one less, its contents are as
    before, and so is the free map.  All other files keep their inodes and contents, no reference is gained or lost, and
    the invariant of the file system holds: link
    counts are the numbers of names, files have valid blocks of their own. *)
Theorem sfs_remove_removes mem grow P s name :
  fs_wf P s → 0 < refs s SFS_ROOTDIR_INO →
  ∃ r s', sfs_remove hw_read hw_write mem grow SFS_ROOTDIR_INO name s = Ret r s' ∧ (∀ y, refs s' y = refs s y) ∧ match r with
    | inl e => fs_wf P s' ∧ same_fs P s s' ∧ used (fs_vol s') = used (fs_vol s) ∧
        (e = ENOENT ∧ (∀ x, ¬ names (fs_vol s) name x) ∨ e = ENOMEM ∧ (mem = false ∨ grow = false) ∧ ∃ x, names (fs_vol s) name x)
    | inr _ => ∃ x P', names (fs_vol s) name x ∧ fs_wf P' s' ∧
        (∀ nm y, names (fs_vol s') nm y ↔ names (fs_vol s) nm y ∧ nm ≠ name) ∧
        same_view (P ∖ {[SFS_ROOTDIR_INO]} ∖ {[x]}) (fs_vol s) (fs_vol s') ∧ lost_name P s x P' s'
    end.
Proof. apply remove_names. Qed.

(** ** Creating and linking *)

Definition nearly_full v : Prop := ∃ b, ∀ c, 0 ≤ c < sb_nblocks v → c ∈ used v ∨ c = b.

Lemma link_error_same P s s' name e (Q Q' : Prop) :
  SFS_ROOTDIR_INO ∈ P → same_fs P s s' → (Q → Q') → link_error contents (fs_vol s') name e Q → link_error contents (fs_vol s) name e Q'.
Proof.
  intros HP Hs HQ. destruct (sm_view _ _ _ _ Hs _ HP) as [Hr _]. change (root (fs_vol s') = root (fs_vol s)) in Hr.
  unfold link_error. rewrite Hr. setoid_rewrite (sm_names _ _ _ _ Hs name). tauto.
Qed.

(** The new file could not be given a name: it is given up. *)
Lemma creat_undo P s s1 x v2 :
  (x ∉ P) → x ≠ SFS_ROOTDIR_INO → same_fs P s s1 → fs_wf ({[x]} ∪ P) (set_vol v2 s1) → same_view (({[x]} ∪ P) ∖ {[SFS_ROOTDIR_INO]}) (fs_vol s1) v2 →
  sb_nblocks v2 = sb_nblocks (fs_vol s1) → (∀ nm y, names v2 nm y ↔ names (fs_vol s1) nm y) → inode (fs_vol s1) x = empty_file 0 → nlinks v2 x = 0 →
  (∀ y, refs s1 y = if decide (y = x) then 1 else refs s y) → refs s x = 0 →
  ∃ s', VOP_DECREF hw_read hw_write x (set_vol v2 s1) = Ret tt s' ∧ fs_wf P s' ∧ same_view (P ∖ {[SFS_ROOTDIR_INO]}) (fs_vol s) (fs_vol s') ∧
    (∀ nm y, names (fs_vol s') nm y ↔ names (fs_vol s) nm y) ∧ (∀ y, refs s' y = refs s y) ∧ (full v2 → nearly_full (fs_vol s')).
Proof.
  intros HxP Hx1 Hs1 Hok2 Hv2 Hsz Hm Hi Hz Hrefs Hr0.
  destruct (vop_decref_run hw_read hw_write contents ({[x]} ∪ P) (set_vol v2 s1) x) as (P' & s' & Hrun & Hok' & Hs' & Hrefs' & Hg);
    [by eapply fs_zero|rewrite refs_vol, Hrefs, decide_True; done|done|].
  unfold SfsOps.gone in Hg. cbn [set_vol fs_vol] in Hg. rewrite refs_vol, Hrefs, (decide_True (P := x = x)), decide_True in Hg by done. destruct Hg as [-> Hu].
  assert (HP : ({[x]} ∪ P) ∖ {[x]} = P) by set_solver. rewrite HP in *.
  exists s'. split; [done|]. split; [by eapply fs_zero|]. split; [|split; [|split]].
  - eapply same_view_trans; [eapply same_view_sub; [|apply (sm_view _ _ _ _ Hs1)]; set_solver|].
    eapply same_view_trans; [eapply same_view_sub; [|exact Hv2]; set_solver|]. eapply same_view_sub; [|apply (sm_view _ _ _ _ Hs')]; set_solver.
  - intros nm y. rewrite (sm_names _ _ _ _ Hs'). cbn [set_vol fs_vol]. by rewrite Hm, (sm_names _ _ _ _ Hs1).
  - intros y. rewrite Hrefs', refs_vol, Hrefs. destruct (decide (y = x)) as [->|]; [lia|done].
  - intros Hfull. exists x. intros c Hc. destruct (decide (c = x)) as [|Hcx]; [by right|left]. apply Hu. split; [|split; [done|]].
    + apply Hfull. by rewrite (sm_size _ _ _ _ Hs') in Hc.
    + assert (HxQ : x ∈ ({[x]} ∪ P) ∖ {[SFS_ROOTDIR_INO]}) by set_solver. rewrite (proj1 (Hv2 x HxQ)), Hi. apply (owns_zero contents).
Qed.

(** The new file gets its name. *)
Lemma creat_name P s s2 x name :
  fs_wf P s → 0 < refs s SFS_ROOTDIR_INO → Forall (λ c, 0 < c < 256) name → (∀ z, ¬ names (fs_vol s) name z) →
  same_fs P s s2 → (x ∉ P) → fs_wf ({[x]} ∪ P) s2 → inode (fs_vol s2) x = empty_file 0 → nlinks (fs_vol s2) x = 0 →
  (∀ y, refs s2 y = if decide (y = x) then 1 else refs s y) →
  ∃ r s', (r ← on_vol (sfs_dir_link hw_read hw_write SFS_ROOTDIR_INO name x);
           match r with
           | inl e => VOP_DECREF hw_read hw_write x ;; mret (inl e)
           | inr _ => sv ← node x; put_node x (set_linkcount (wrap 16 (sfi_linkcount (sv_i sv) + 1)) sv) ;; mret (inr x)
           end) s2 = Ret r s' ∧ match r with
    | inr y => y = x ∧ (∀ y, refs s' y = if decide (y = x) then refs s y + 1 else refs s y) ∧ fs_wf ({[x]} ∪ P) s' ∧
        inode (fs_vol s') x = empty_file 1 ∧ same_view (P ∖ {[SFS_ROOTDIR_INO]}) (fs_vol s) (fs_vol s') ∧
        ∀ nm y, names (fs_vol s') nm y ↔ nm = name ∧ y = x ∨ names (fs_vol s) nm y
    | inl e => (∀ y, refs s' y = refs s y) ∧ fs_wf P s' ∧ same_view (P ∖ {[SFS_ROOTDIR_INO]}) (fs_vol s) (fs_vol s') ∧
        (∀ nm y, names (fs_vol s') nm y ↔ names (fs_vol s) nm y) ∧ link_error contents (fs_vol s) name e (nearly_full (fs_vol s'))
    end.
Proof.
  intros Hok Hr Hname Hno Hs HxP Hok2 Hi Hz Hrefs. pose proof (fo_root _ _ _ (fk_files _ _ _ _ _ Hok)) as HP.
  assert (Hx1 : x ≠ SFS_ROOTDIR_INO) by (by intros ->).
  assert (Hr0 : refs s x = 0).
  { pose proof (refs_nonneg s x (fk_table _ _ _ _ _ Hok)). destruct (decide (refs s x = 0)) as [|Hne]; [done|]. exfalso.
    destruct (proj1 (refs_loaded contents _ _ _ s x Hok)) as [sv Hsv]; [lia|]. by apply HxP, (fo_loaded _ _ _ (fk_files _ _ _ _ _ Hok) x sv). }
  destruct (linked_run ({[x]} ∪ P) s2 x name Hok2) as (r & v3 & Hrun & Hpost); [rewrite Hrefs, decide_False by congruence; done|done|done|rewrite Hrefs, decide_True; done|].
  rewrite (run_on_vol _ _ _ _ _ Hrun). destruct r as [e|i].
  - destruct Hpost as (Hok3 & Hv3 & Hsz & Hm & Hl & He).
    assert (Hz3 : nlinks v3 x = 0) by (rewrite Hl, Hz; [done|]; destruct (fo_block _ _ _ (fk_files _ _ _ _ _ Hok2) x ltac:(set_solver)); unfold SFS_NOINO; lia).
    destruct (creat_undo P s s2 x v3) as (s' & Hrun' & Hok' & Hv' & Hm' & Hr' & Hf); [done..|].
    rewrite (run_bind_ret _ _ _ _ _ Hrun'). exists (inl e), s'. split; [done|]. split; [done|]. split; [done|]. split; [done|]. split; [done|].
    by eapply (link_error_same P s s2); [| |exact Hf|].
  - destruct Hpost as (sv & Hn & _ & C & Hm & _). rewrite (run_node _ (set_vol v3 s2) x sv Hn), run_put.
    eexists (inr x), _. split; [reflexivity|]. split; [done|]. split; [|split; [exact (cn_wf _ _ _ _ _ C)|split; [|split]]].
    + intros y. etrans; [exact (cn_refs _ _ _ _ _ C y)|]. rewrite Hrefs. destruct (decide (y = x)) as [->|]; [lia|done].
    + etrans; [exact (rl_inode _ _ _ _ (cn_file _ _ _ _ _ C))|]. by rewrite Hi, Hz.
    + eapply same_view_trans; [eapply same_view_sub; [|apply (sm_view _ _ _ _ Hs)]; set_solver|]. eapply same_view_sub; [|apply (cn_view _ _ _ _ _ C)]. set_solver.
    + intros nm y. by rewrite <- (sm_names _ _ _ _ Hs), <- Hm.
Qed.

Lemma creat_names mem grow P s name excl :
  fs_wf P s → 0 < refs s SFS_ROOTDIR_INO → Forall (λ c, 0 < c < 256) name →
  ∃ r s', sfs_creat hw_read hw_write mem grow SFS_ROOTDIR_INO name excl s = Ret r s' ∧ match r with
    | inr x => (∀ y, refs s' y = if decide (y = x) then refs s y + 1 else refs s y) ∧
        (names (fs_vol s) name x ∧ excl = false ∧ fs_wf P s' ∧ same_fs P s s' ∨
         (∀ z, ¬ names (fs_vol s) name z) ∧ (x ∉ P) ∧ fs_wf ({[x]} ∪ P) s' ∧ inode (fs_vol s') x = empty_file 1 ∧
         same_view (P ∖ {[SFS_ROOTDIR_INO]}) (fs_vol s) (fs_vol s') ∧
         ∀ nm y, names (fs_vol s') nm y ↔ nm = name ∧ y = x ∨ names (fs_vol s) nm y)
    | inl e => (∀ y, refs s' y = refs s y) ∧ fs_wf P s' ∧ same_view (P ∖ {[SFS_ROOTDIR_INO]}) (fs_vol s) (fs_vol s') ∧
        (∀ nm y, names (fs_vol s') nm y ↔ names (fs_vol s) nm y) ∧
        (e = ENOMEM ∧ (mem = false ∨ grow = false) ∨ (e = EEXIST → excl = true) ∧ link_error contents (fs_vol s) name e (nearly_full (fs_vol s')))
    end.
Proof.
  intros Hok Hr Hname. unfold sfs_creat, ebind at 1. destruct (findname_fs hw_read hw_write contents P s name Hok Hr) as (f & v1 & Hrun & Hok1 & Hs1 & _ & Hh).
  rewrite (run_on_vol _ _ _ _ _ Hrun). set (s1 := set_vol v1 s) in *. pose proof (fo_root _ _ _ (fk_files _ _ _ _ _ Hok)) as HP.
  assert (Hsub : P ∖ {[SFS_ROOTDIR_INO]} ⊆ P) by set_solver.
  destruct (f_hit f) as [[x i]|].
  - pose proof (slot_names contents _ _ _ _ Hh) as Hnm. pose proof (proj1 (sm_names _ _ _ _ Hs1 name x) Hnm) as Hnm0. destruct excl.
    + exists (inl EEXIST), s1. split; [done|]. split; [done|]. split; [done|]. split; [by eapply same_view_sub, Hs1|]. split; [apply (sm_names _ _ _ _ Hs1)|].
      right. split; [done|]. left. split; [done|by exists x].
    + destruct (no_entry _ _ _ _ _ (fk_names _ _ _ _ _ Hok1) _ _ Hnm) as [Hx Hx1].
      destruct (loadvnode_run hw_read hw_write contents mem grow _ _ P s1 x Hok1 Hx) as (r & s' & Hrun2 & Hok2 & Hs2 & _ & Hpost).
      pose proof (same_fs_trans contents _ _ _ _ Hs1 Hs2) as Hs. exists r, s'. split; [done|]. destruct r as [e|y].
      * destruct Hpost as (-> & Hm & Hrefs). split; [exact Hrefs|]. split; [done|]. split; [eapply same_view_sub, Hs; done|]. split; [apply (sm_names _ _ _ _ Hs)|]. left. done.
      * destruct Hpost as (-> & _ & Hrefs). split; [exact Hrefs|]. left. done.
  - destruct (makeobj_run hw_read hw_write contents mem grow P s1 Hok1) as (r & s2 & Hrun2 & Hs2 & Hpost). unfold ebind. rewrite (run_bind_ret _ _ _ _ _ Hrun2).
    pose proof (same_fs_trans contents _ _ _ _ Hs1 Hs2) as Hs. destruct r as [e|x].
    + destruct Hpost as (Hok2 & Ht & Hu & He). exists (inl e), s2. split; [done|]. split; [intros y; unfold refs; by rewrite Ht|]. split; [done|].
      split; [eapply same_view_sub, Hs; done|]. split; [apply (sm_names _ _ _ _ Hs)|]. destruct He as [[-> Hf]|[-> Hm]]; [right|by left]. split; [done|]. right.
      split; [done|]. right; left. split; [done|]. exists 0. intros c Hc. left. rewrite Hu. apply Hf. by rewrite (sm_size _ _ _ _ Hs2) in Hc.
    + destruct Hpost as (HxP & Hok2 & Hi & Hz & Hrefs & _). destruct (creat_name P s s2 x name) as (r & s' & Hrun' & Hpost); [done..|].
      exists r, s'. split; [exact Hrun'|]. destruct r as [e|y].
      * destruct Hpost as (H1 & H2 & H3 & H4 & H5). do 4 (split; [done|]). right. split; [|done]. intros ->. exfalso.
        destruct H5 as [[_ [z Hz']]|[_ [[E _]|[[E _]|[E _]]]]]; [by apply (Hh z)|done..].
      * destruct Hpost as (-> & H1 & H2 & H3 & H4 & H5). split; [done|]. right. done.
Qed.

(** Creating a file: [sfs_creat] on a name that is there returns the vnode of that file, or EEXIST when the file must be
    new.  Otherwise there is a new file under that name, empty and with one link, on an inode that was not in use, and one
    reference to it; the other names, and the inodes and contents of the other files, are as before.  It fails
    without a change to them with ENAMETOOLONG, with EFBIG when the directory has the largest size, with ENOSPC only when no
    block, or only the one that the inode would take, is free, and with ENOMEM; what it had allocated is given
    back.  The invariant of the file system holds in all cases. *)
Theorem sfs_creat_creates mem grow P s name excl :
  fs_wf P s → 0 < refs s SFS_ROOTDIR_INO → Forall (λ c, 0 < c < 256) name →
  ∃ r s', sfs_creat hw_read hw_write mem grow SFS_ROOTDIR_INO name excl s = Ret r s' ∧ match r with
    | inr x => (∀ y, refs s' y = if decide (y = x) then refs s y + 1 else refs s y) ∧
        (names (fs_vol s) name x ∧ excl = false ∧ fs_wf P s' ∧ same_fs P s s' ∨
         (∀ z, ¬ names (fs_vol s) name z) ∧ (x ∉ P) ∧ fs_wf ({[x]} ∪ P) s' ∧ inode (fs_vol s') x = empty_file 1 ∧
         same_view (P ∖ {[SFS_ROOTDIR_INO]}) (fs_vol s) (fs_vol s') ∧
         ∀ nm y, names (fs_vol s') nm y ↔ nm = name ∧ y = x ∨ names (fs_vol s) nm y)
    | inl e => (∀ y, refs s' y = refs s y) ∧ fs_wf P s' ∧ same_view (P ∖ {[SFS_ROOTDIR_INO]}) (fs_vol s) (fs_vol s') ∧
        (∀ nm y, names (fs_vol s') nm y ↔ names (fs_vol s) nm y) ∧
        (e = ENOMEM ∧ (mem = false ∨ grow = false) ∨ (e = EEXIST → excl = true) ∧ link_error contents (fs_vol s) name e (nearly_full (fs_vol s')))
    end.
Proof. apply creat_names. Qed.

(** A new name of a file: the link count is one more, and the file is what it was. *)
Theorem sfs_link_links P s name x :
  fs_wf P s → 0 < refs s SFS_ROOTDIR_INO → Forall (λ c, 0 < c < 256) name → 0 < refs s x → x ≠ SFS_ROOTDIR_INO →
  ∃ r s', sfs_link hw_read hw_write SFS_ROOTDIR_INO name x s = Ret r s' ∧ fs_wf P s' ∧ (∀ y, refs s' y = refs s y) ∧
    same_view (P ∖ {[SFS_ROOTDIR_INO]} ∖ {[x]}) (fs_vol s) (fs_vol s') ∧ match r with
    | inr _ => (∀ z, ¬ names (fs_vol s) name z) ∧ relinked (nlinks (fs_vol s) x + 1) (fs_vol s) (fs_vol s') x ∧
        ∀ nm y, names (fs_vol s') nm y ↔ nm = name ∧ y = x ∨ names (fs_vol s) nm y
    | inl e => same_view (P ∖ {[SFS_ROOTDIR_INO]}) (fs_vol s) (fs_vol s') ∧ (∀ nm y, names (fs_vol s') nm y ↔ names (fs_vol s) nm y) ∧
        link_error contents (fs_vol s) name e (full (fs_vol s'))
    end.
Proof.
  intros Hok Hr Hname Hrx Hx1. destruct (proj1 (refs_loaded contents _ _ _ _ _ Hok) Hrx) as [sv Hn].
  pose proof (fo_loaded _ _ _ (fk_files _ _ _ _ _ Hok) x sv Hn) as Hx.
  assert (Hty : sfi_type (sv_i sv) = SFS_TYPE_FILE).
  { destruct (no_file _ _ _ _ _ (fk_names _ _ _ _ _ Hok) x Hx Hx1) as [E _]. unfold SfsInv.inode in E. by rewrite Hn in E. }
  unfold sfs_link. rewrite (run_node _ s x sv Hn), Hty. cbn [Z.eqb Pos.eqb SFS_TYPE_FILE SFS_TYPE_DIR]. unfold ebind.
  destruct (linked_run P s x name Hok Hr Hname Hx1 Hrx) as (r & v' & Hrun & Hpost). rewrite (run_on_vol _ _ _ _ _ Hrun). destruct r as [e|i].
  - destruct Hpost as (Hok' & Hv & Hsz & Hm & Hl & He). exists (inl e), (set_vol v' s). split; [done|]. split; [done|]. split; [done|].
    split; [eapply same_view_sub; [|exact Hv]; set_solver|done].
  - destruct Hpost as (sv' & Hn' & Hno & C & Hm & _). rewrite (run_node _ (set_vol v' s) x sv' Hn'), run_put. eexists (inr tt), _. split; [reflexivity|].
    split; [exact (cn_wf _ _ _ _ _ C)|]. split; [exact (cn_refs _ _ _ _ _ C)|]. split; [exact (cn_view _ _ _ _ _ C)|]. split; [done|].
    split; [exact (cn_file _ _ _ _ _ C)|exact Hm].
Qed.


(** ** Renaming *)

Lemma relinked_trans c c' v v1 v2 x : relinked c v v1 x → relinked c' v1 v2 x → relinked c' v v2 x.
Proof.
  intros [A1 A2 A3] [B1 B2 B3]. split; [by rewrite B1, A1|intros b; by rewrite B2, A2|intros p Hp; by rewrite B3, A3].
Qed.

Lemma relinked_id P v v' x :
  files_ok P v' → x ∈ P → relinked (sfi_linkcount (inode v x)) v v' x → inode v' x = inode v x ∧ file_kept v v' (inode v x).
Proof.
  intros F Hx [R1 R2 R3]. assert (E : inode v' x = inode v x) by (rewrite R1; by destruct (inode v x)). split; [done|]. rewrite E in R2, R3.
  split; [|done]. rewrite <- E. by apply (fo_file _ _ _ F).
Qed.

(** The reference that the look up took is dropped; the file has a name and stays. *)
Lemma drop_ref P s1 x s3 nm :
  fs_wf P s3 → 0 < refs s3 x → names (fs_vol s3) nm x → (∀ y, refs s3 y = if decide (y = x) then refs s1 y + 1 else refs s1 y) →
  ∃ s', VOP_DECREF hw_read hw_write x s3 = Ret tt s' ∧ fs_wf P s' ∧ same_fs P s3 s' ∧ used (fs_vol s') = used (fs_vol s3) ∧ ∀ y, refs s' y = refs s1 y.
Proof.
  intros Hok Hr Hnm Hrefs. destruct (no_entry _ _ _ _ _ (fk_names _ _ _ _ _ Hok) _ _ Hnm) as [Hx Hx1].
  destruct (vop_decref_run hw_read hw_write contents P s3 x) as (P' & s' & Hrun & Hok' & Hs' & Hrefs' & Hg); [by eapply fs_zero|done|done|].
  assert (Hpos : 0 < nlinks (fs_vol s3) x).
  { apply (nlinks_pos contents); [apply Hok| |by exists nm]. destruct (fo_block _ _ _ (fk_files _ _ _ _ _ Hok) x Hx). unfold SFS_NOINO. lia. }
  unfold SfsOps.gone in Hg. rewrite decide_False in Hg by lia. destruct Hg as [-> Hu]. exists s'. split; [done|]. split; [by eapply fs_zero|]. split; [done|].
  split; [done|]. intros y. rewrite Hrefs', Hrefs. destruct (decide (y = x)); lia.
Qed.

(** The first half of a renaming worked: the old name goes. *)
Lemma rename_rest P s s1 s3 x i (n1 n2 : list Z) :
  fs_wf P s → same_fs P s s1 → fs_wf P s1 → counted 1 P s1 s3 x → slot_is (fs_vol s3) i n1 x → n1 ≠ n2 →
  (∀ y, refs s1 y = if decide (y = x) then refs s y + 1 else refs s y) → 0 < refs s SFS_ROOTDIR_INO →
  (∀ nm y, names (fs_vol s3) nm y ↔ nm = n2 ∧ y = x ∨ names (fs_vol s1) nm y) →
  ∃ v5 sv s', sfs_dir_unlink hw_read hw_write SFS_ROOTDIR_INO i (fs_vol s3) = Ret (inr tt) v5 ∧ nodes v5 !! x = Some sv ∧ 0 < sfi_linkcount (sv_i sv) ∧
    VOP_DECREF hw_read hw_write x (set_vol (set_node x (set_linkcount (sfi_linkcount (sv_i sv) - 1) sv) v5) s3) = Ret tt s' ∧
    fs_wf P s' ∧ same_view (P ∖ {[SFS_ROOTDIR_INO]}) (fs_vol s) (fs_vol s') ∧ (∀ y, refs s' y = refs s y) ∧
    ∀ nm y, names (fs_vol s') nm y ↔ nm = n2 ∧ y = x ∨ names (fs_vol s) nm y ∧ nm ≠ n1.
Proof.
  intros Hok Hs1 Hok1 C Hslot Hne Hrefs Hr Hm. pose proof (cn_wf _ _ _ _ _ C) as Hok3. pose proof (cn_refs _ _ _ _ _ C) as Hr3.
  destruct (no_entry _ _ _ _ _ (fk_names _ _ _ _ _ Hok3) _ _ (slot_names contents _ _ _ _ Hslot)) as [Hx Hx1].
  assert (Hrx : 0 < refs s3 x) by (rewrite Hr3, Hrefs, decide_True by done; pose proof (refs_nonneg s x (fk_table _ _ _ _ _ Hok)); lia).
  assert (Hrr : 0 < refs s3 SFS_ROOTDIR_INO) by (rewrite Hr3, Hrefs, decide_False by congruence; done).
  destruct (unlinked_run P s3 x i n1 Hok3 Hrr Hslot Hrx) as (v5 & sv & Hrun & Hn & Hpos & C5 & Hm5 & _). set (s5 := set_vol _ s3) in *.
  assert (Hnm5 : ∀ nm y, names (fs_vol s5) nm y ↔ nm = n2 ∧ y = x ∨ names (fs_vol s) nm y ∧ nm ≠ n1).
  { intros nm y. rewrite Hm5, Hm, (sm_names _ _ _ _ Hs1). naive_solver. }
  destruct (drop_ref P s x s5 n2) as (s' & Hrun' & Hok' & Hs' & _ & Hr'); [apply C5|by rewrite (cn_refs _ _ _ _ _ C5)|apply Hnm5; by left| |].
  { intros y. by rewrite (cn_refs _ _ _ _ _ C5), Hr3, Hrefs. }
  exists v5, sv, s'. split; [done|]. split; [done|]. split; [done|]. split; [done|]. split; [done|]. split; [|split; [done|intros nm y; by rewrite (sm_names _ _ _ _ Hs')]].
  assert (Hv : same_view (P ∖ {[SFS_ROOTDIR_INO]} ∖ {[x]}) (fs_vol s) (fs_vol s')).
  { eapply same_view_trans; [eapply same_view_sub; [|apply (sm_view _ _ _ _ Hs1)]; set_solver|]. eapply same_view_trans; [apply (cn_view _ _ _ _ _ C)|].
    eapply same_view_trans; [apply (cn_view _ _ _ _ _ C5)|]. eapply same_view_sub; [|apply (sm_view _ _ _ _ Hs')]. set_solver. }
  intros y [Hy Hy1%not_elem_of_singleton]%elem_of_difference. destruct (decide (y = x)) as [->|Hyx]; [|apply Hv; set_solver].
  apply (relinked_id P); [apply Hok'|done|]. rewrite (linkcount_is P s) by done. eapply relinked_after; [exact Hx| |apply (sm_view _ _ _ _ Hs')].
  eapply relinked_before; [exact Hx|apply (sm_view _ _ _ _ Hs1)|]. eapply relinked_trans; [apply (cn_file _ _ _ _ _ C)|].
  pose proof (cn_file _ _ _ _ _ C5) as R. rewrite (cn_links _ _ _ _ _ C), (sm_links _ _ _ _ Hs1) in R. by replace (nlinks (fs_vol s) x + 1 + -1) with (nlinks (fs_vol s) x) in R by lia.
Qed.

Lemma rename_names mem grow P s (n1 n2 : list Z) :
  fs_wf P s → 0 < refs s SFS_ROOTDIR_INO → Forall (λ c, 0 < c < 256) n2 →
  ∃ r s', sfs_rename hw_read hw_write mem grow SFS_ROOTDIR_INO n1 SFS_ROOTDIR_INO n2 s = Ret r s' ∧ fs_wf P s' ∧
    same_view (P ∖ {[SFS_ROOTDIR_INO]}) (fs_vol s) (fs_vol s') ∧ (∀ y, refs s' y = refs s y) ∧ match r with
    | inr _ => ∃ x, names (fs_vol s) n1 x ∧ (∀ z, ¬ names (fs_vol s) n2 z) ∧
        ∀ nm y, names (fs_vol s') nm y ↔ nm = n2 ∧ y = x ∨ names (fs_vol s) nm y ∧ nm ≠ n1
    | inl e => (∀ nm y, names (fs_vol s') nm y ↔ names (fs_vol s) nm y) ∧
        (e = ENOENT ∧ (∀ x, ¬ names (fs_vol s) n1 x) ∨ e = ENOMEM ∧ (mem = false ∨ grow = false) ∨
         (∃ x, names (fs_vol s) n1 x) ∧ link_error contents (fs_vol s) n2 e (full (fs_vol s')))
    end.
Proof.
  intros Hok Hr Hname. unfold sfs_rename, ebind. rewrite !run_assert by done.
  destruct (lookonce_run hw_read hw_write contents mem grow P s n1 Hok Hr) as (r & s1 & Hrun & Hok1 & Hs1 & _ & Hpost).
  rewrite (run_bind_ret _ _ _ _ _ Hrun). pose proof (fo_root _ _ _ (fk_files _ _ _ _ _ Hok)) as HP. assert (Hsub : P ∖ {[SFS_ROOTDIR_INO]} ⊆ P) by set_solver.
  destruct r as [e|[x i]].
  { destruct Hpost as [Hrefs He]. exists (inl e), s1. split; [done|]. split; [done|]. split; [by eapply same_view_sub, (sm_view _ _ _ _ Hs1)|]. split; [done|].
    split; [apply (sm_names _ _ _ _ Hs1)|]. destruct He as [?|(? & ? & _)]; [by left|by right; left]. }
  destruct Hpost as [Hslot Hrefs]. pose proof (slot_names contents _ _ _ _ Hslot) as Hnm1. pose proof (proj1 (sm_names _ _ _ _ Hs1 _ _) Hnm1) as Hnm.
  destruct (no_entry _ _ _ _ _ (fk_names _ _ _ _ _ Hok1) _ _ Hnm1) as [Hx Hx1].
  assert (Hrr : 0 < refs s1 SFS_ROOTDIR_INO) by (rewrite Hrefs, decide_False by congruence; done).
  assert (Hrx : 0 < refs s1 x) by (rewrite Hrefs, decide_True by done; pose proof (refs_nonneg s x (fk_table _ _ _ _ _ Hok)); lia).
  destruct (proj1 (refs_loaded contents _ _ _ _ _ Hok1) Hrx) as [sv Hsv]. rewrite (run_node _ s1 x sv Hsv), run_assert.
  2: { destruct (no_file _ _ _ _ _ (fk_names _ _ _ _ _ Hok1) x Hx Hx1) as [E _]. unfold SfsInv.inode in E. rewrite Hsv in E. by rewrite E. }
  destruct (linked_run P s1 x n2 Hok1 Hrr Hname Hx1 Hrx) as (r & v2 & Hrun2 & Hpost). rewrite (run_on_vol _ _ _ _ _ Hrun2). destruct r as [e|j].
  - destruct Hpost as (Hok2 & Hv2 & Hsz & Hm & Hl & He). destruct (drop_ref P s x (set_vol v2 s1) n1) as (s' & Hrun' & Hok' & Hs' & Hu & Hr'); [done|done|by apply Hm|done|].
    rewrite (run_bind_ret _ _ _ _ _ Hrun'). exists (inl e), s'. split; [done|]. split; [done|]. split; [|split; [done|split; [intros nm y|right; right]]].
    + eapply same_view_trans; [by eapply same_view_sub, (sm_view _ _ _ _ Hs1)|]. eapply same_view_trans; [exact Hv2|]. by eapply same_view_sub, (sm_view _ _ _ _ Hs').
    + rewrite (sm_names _ _ _ _ Hs'). cbn [set_vol fs_vol]. by rewrite Hm, (sm_names _ _ _ _ Hs1).
    + split; [by exists x|]. eapply (link_error_same P s s1); [done|done| |exact He]. unfold full. rewrite Hu, (sm_size _ _ _ _ Hs'). done.
  - destruct Hpost as (sv2 & Hn2 & Hno & C & Hm & Hold). rewrite (run_node _ (set_vol v2 s1) x sv2 Hn2), run_put. cbn [set_vol fs_vol].
    set (s3 := set_vol _ s1) in *. change (set_vol _ (set_vol v2 s1)) with s3.
    assert (Hne : n1 ≠ n2) by (intros ->; by apply (Hno x)).
    destruct (rename_rest P s s1 s3 x i n1 n2) as (v5 & sv5 & s' & Hrun5 & Hn5 & Hpos & Hrun' & Hok' & Hv' & Hr' & Hm'); [done|done|done|done|by apply Hold|done..|].
    rewrite (run_on_vol _ _ s3 _ _ Hrun5), (run_node _ (set_vol v5 s3) x sv5 Hn5), run_assert by (by apply Z.ltb_lt). rewrite run_put.
    rewrite (run_bind_ret _ _ _ _ _ Hrun'). exists (inr tt), s'. split; [done|]. split; [done|]. split; [done|]. split; [done|]. exists x. split; [done|]. split; [|done].
    intros z Hz. apply (Hno z). by apply (sm_names _ _ _ _ Hs1).
Qed.

(** C14: renaming a file: after [sfs_rename] the file has the new name and not the old one, and all other names, and all files
    with their inodes, link counts and contents, are as before.  It fails, and then changes no name and no file, with ENOENT when the old
    name is not there, with EEXIST when the new name is, the same name included, with ENAMETOOLONG, with ENOSPC
    only on a full volume, with EFBIG when the directory has the largest size, and with ENOMEM.  None of its panics is
    reached, and no reference is gained or lost. *)
Theorem sfs_rename_renames mem grow P s (n1 n2 : list Z) :
  fs_wf P s → 0 < refs s SFS_ROOTDIR_INO → Forall (λ c, 0 < c < 256) n2 →
  ∃ r s', sfs_rename hw_read hw_write mem grow SFS_ROOTDIR_INO n1 SFS_ROOTDIR_INO n2 s = Ret r s' ∧ fs_wf P s' ∧
    same_view (P ∖ {[SFS_ROOTDIR_INO]}) (fs_vol s) (fs_vol s') ∧ (∀ y, refs s' y = refs s y) ∧ match r with
    | inr _ => ∃ x, names (fs_vol s) n1 x ∧ (∀ z, ¬ names (fs_vol s) n2 z) ∧
        ∀ nm y, names (fs_vol s') nm y ↔ nm = n2 ∧ y = x ∨ names (fs_vol s) nm y ∧ nm ≠ n1
    | inl e => (∀ nm y, names (fs_vol s') nm y ↔ names (fs_vol s) nm y) ∧
        (e = ENOENT ∧ (∀ x, ¬ names (fs_vol s) n1 x) ∨ e = ENOMEM ∧ (mem = false ∨ grow = false) ∨
         (∃ x, names (fs_vol s) n1 x) ∧ link_error contents (fs_vol s) n2 e (full (fs_vol s')))
    end.
Proof. apply rename_names. Qed.

End calls.
