(* ===== verification/SfsMount.v ===== *)
(** * SfsMount: writing back, and mounting again (sfs_fsops.c)

    After [sfs_sync] the disk holds the files and the names: mounting the device again gives the file system that was
    synchronised. *)

From Stdlib Require Import ZArith Lia.
From stdpp Require Import base gmap list option strings list_numbers.
From S2P Require Import Prelude Types Strings Bitmap Uio Sfs Disk SfsFile SfsIo SfsVol SfsTrunc SfsDir SfsNode SfsInv SfsNames.
Set Default Goal Selector "!".
Open Scope Z_scope.

Lemma freemap_size n : 0 ≤ n < 2 ^ 23 →
  SFS_FREEMAPBLOCKS n = (n + 4095) / 4096 ∧ SFS_FREEMAPBITS n = (n + 4095) / 4096 * 4096 ∧ n ≤ SFS_FREEMAPBITS n < 2 ^ 24 ∧ 0 ≤ SFS_FREEMAPBLOCKS n.
Proof.
  intros Hn. unfold SFS_FREEMAPBLOCKS, SFS_FREEMAPBITS, SFS_BITSPERBLOCK, SFS_BLOCKSIZE. change (512 * 8) with 4096.
  replace (n + 4096 - 1) with (n + 4095) by lia. rewrite (wrap_small 32 (n + 4095)) by lia.
  pose proof (Z.div_mod (n + 4095) 4096). pose proof (Z.mod_pos_bound (n + 4095) 4096). rewrite wrap_small by lia. rewrite Z.div_mul by lia. lia.
Qed.

(** The part of the map that one block holds. *)
Definition slice (data : list Z) (j : Z) : list Z := take 512 (drop (Z.to_nat (j * 512)) data).

Lemma slice_at data j i : 0 ≤ j → 0 ≤ i < 512 → arr_get (slice data j) i = arr_get data (j * 512 + i).
Proof.
  intros Hj Hi. unfold slice. rewrite !arr_get_nonneg by lia. rewrite lookup_take_lt, lookup_drop by lia. f_equal. lia.
Qed.

Lemma length_slice data j : 0 ≤ j → j * 512 + 512 ≤ zlen data → zlen (slice data j) = 512.
Proof. intros Hj Hl. unfold slice. rewrite length_take, length_drop. lia. Qed.

Lemma decode_encode_super sb :
  0 ≤ sb_magic sb < 2 ^ 32 → 0 ≤ sb_blocks sb < 2 ^ 32 →
  sb_magic (decode_super (encode_super sb)) = sb_magic sb ∧ sb_blocks (decode_super (encode_super sb)) = sb_blocks sb.
Proof.
  intros Hm Hb. unfold decode_super, encode_super. cbn [bytes_of_word app words_of sb_magic sb_blocks]. cbn [words_of].
  rewrite arr_get_hd, arr_get_tl by lia. rewrite !word_bytes by done. done.
Qed.

Section mount.
Context {D : Type} (hw_read : D → Z → D * (Z + list Z)) (hw_write : D → Z → list Z → D * Z) (contents : D → Z → list Z).
Context `{Hd : !DiskLaws hw_read hw_write contents}.
Implicit Types v : vol (D := D).
Implicit Types s : sfs_fs (D := D).

Implicit Types P : gset Z.

Local Abbreviation blk := (blk contents).
Local Abbreviation alike := (alike contents).
Local Abbreviation allocated := (allocated contents).
Local Abbreviation fbyte := (fbyte contents).
Local Abbreviation owns := (owns contents).
Local Abbreviation file_kept := (file_kept contents).
Local Abbreviation loaded := (loaded contents).
Local Abbreviation step := (step contents).
Local Abbreviation inode := (inode contents).
Local Abbreviation files_ok := (files_ok contents).
Local Abbreviation others_kept := (others_kept contents).
Local Abbreviation dir_wf := (dir_wf contents).
Local Abbreviation root := (root contents).
Local Abbreviation names := (names contents).
Local Abbreviation nlinks := (nlinks contents).
Local Abbreviation names_ok := (names_ok contents).
Local Abbreviation fs_ok := (fs_ok contents).
Local Abbreviation fs_wf := (fs_wf contents).
Local Abbreviation same_view := (same_view contents).
Local Abbreviation same_fs := (same_fs contents).
Local Abbreviation written := (written contents).


(** ** The map of free blocks *)

Definition map_saved v (data : list Z) : Prop :=
  ∀ j, 0 ≤ j < SFS_FREEMAPBLOCKS (sb_nblocks v) → blk v (SFS_FREEMAP_START + j) = slice data j.

(** Blocks from [a] to [b] of the disk are written. *)
Record map_written v v' (a b : Z) (data : list Z) : Prop := {
  mv_blk : ∀ c, blk v' c = if decide (a ≤ c < b) then slice data (c - SFS_FREEMAP_START) else blk v c;
  mv_blocks : d_blocks v' = d_blocks v;
  mv_nblocks : sb_nblocks v' = sb_nblocks v;
  mv_freemap : freemap v' = freemap v;
  mv_nodes : nodes v' = nodes v;
}.

Lemma freemap_write_run (n : nat) j data v :
  0 ≤ j → SFS_FREEMAP_START + j + Z.of_nat n ≤ d_blocks v → d_blocks v < 2 ^ 23 → (j + Z.of_nat n) * 512 ≤ zlen data → bytes_ok data →
  ∃ v', freemap_write hw_read hw_write n j data v = Ret (inr tt) v' ∧
    map_written v v' (SFS_FREEMAP_START + j) (SFS_FREEMAP_START + j + Z.of_nat n) data.
Proof.
  revert j v. induction n as [|n IH]; intros j v Hj Hr Hdb Hlen Hok; cbn [freemap_write].
  - exists v. split; [done|]. split; [|done..]. intros c. rewrite decide_False by lia. done.
  - change (take 512 (drop (Z.to_nat (j * SFS_BLOCKSIZE)) data)) with (slice data j). unfold SFS_FREEMAP_START in *.
    destruct (writeblock_run hw_read hw_write contents (2 + j) (slice data j) v) as (v1 & Hw & W);
      [lia|done|apply length_slice; lia|apply Forall_take, Forall_drop; done|].
    unfold ebind. rewrite (run_bind_ret _ _ _ _ _ Hw). destruct W as [W1 W2 W3 W4 W5 W6 W7].
    destruct (IH (j + 1) v1) as (v2 & Hrun & [M1 M2 M3 M4 M5]); [lia|rewrite W2; lia|by rewrite W2|lia|done|].
    exists v2. split; [done|]. split; [|congruence..]. intros c. rewrite M1, W1. destruct (decide (c = 2 + j)) as [->|Hc].
    + rewrite decide_False, decide_True by lia. f_equal. unfold SFS_FREEMAP_START. lia.
    + destruct (decide (2 + (j + 1) ≤ c < _)); [rewrite decide_True by lia|rewrite decide_False by lia]; done.
Qed.

Lemma freemap_read_run (n : nat) j data data0 v :
  0 ≤ j → SFS_FREEMAP_START + j + Z.of_nat n ≤ d_blocks v → d_blocks v < 2 ^ 23 → (j + Z.of_nat n) * 512 = zlen data0 → zlen data = zlen data0 →
  (∀ i, 0 ≤ i < Z.of_nat n → blk v (SFS_FREEMAP_START + j + i) = slice data0 (j + i)) → (∀ i, 0 ≤ i < j * 512 → arr_get data i = arr_get data0 i) →
  ∃ v', freemap_read hw_read hw_write n j data v = Ret (inr data0) v' ∧ alike v v'.
Proof.
  revert j data v. induction n as [|n IH]; intros j data v Hj Hr Hdb Hlen Hl Hblk Hsame; cbn [freemap_read].
  - exists v. split; [|done]. unfold mret, K_ret. do 2 f_equal. apply arr_ext. intros i. destruct (decide (0 ≤ i < zlen data0)) as [Hi|Hi]; [apply Hsame; lia|].
    destruct (arr_get data i) eqn:E1; [apply arr_get_range in E1; lia|]. destruct (arr_get data0 i) eqn:E2; [apply arr_get_range in E2; lia|done].
  - unfold SFS_FREEMAP_START, SFS_BLOCKSIZE in *. destruct (readblock_run hw_read hw_write contents (2 + j) v) as (v1 & Hrd & Ha); [lia|done|].
    unfold ebind. rewrite (run_bind_ret _ _ _ _ _ Hrd). pose proof (blk_len hw_read hw_write contents v (2 + j)) as Hbl. unfold SFS_BLOCKSIZE in Hbl.
    pose proof (Hblk 0 ltac:(lia)) as Hb0. rewrite !Z.add_0_r in Hb0.
    destruct (IH (j + 1) (splice data (j * 512) (blk v (2 + j))) v1) as (v2 & Hrun & Ha2).
    + lia.
    + rewrite (al_blocks _ _ _ Ha). lia.
    + by rewrite (al_blocks _ _ _ Ha).
    + lia.
    + rewrite length_splice by lia. done.
    + intros i Hi. rewrite (al_blk _ _ _ Ha). replace (2 + (j + 1) + i) with (2 + j + (i + 1)) by lia. replace (j + 1 + i) with (j + (i + 1)) by lia. apply Hblk. lia.
    + intros i Hi. rewrite splice_at by lia. rewrite Hbl. case_decide as Hc; [|apply Hsame; lia]. rewrite Hb0, slice_at by lia. f_equal. lia.
    + exists v2. split; [done|]. by etrans.
Qed.

(** ** The state of the disk *)

Definition super_saved v : Prop :=
  sb_magic (decode_super (blk v SFS_SUPER_BLOCK)) = SFS_MAGIC ∧ sb_blocks (decode_super (blk v SFS_SUPER_BLOCK)) = sb_nblocks v.

(** The map of free blocks has its blocks, and what is not marked as changed is on the disk. *)
Record on_disk s : Prop := {
  od_bits : nbits (freemap (fs_vol s)) = SFS_FREEMAPBITS (sb_nblocks (fs_vol s));
  od_room : SFS_FREEMAP_START + SFS_FREEMAPBLOCKS (sb_nblocks (fs_vol s)) ≤ sb_nblocks (fs_vol s);
  od_map : freemapdirty (fs_vol s) = false → map_saved (fs_vol s) (bitmap_getdata (freemap (fs_vol s)));
  od_magic : sb_magic (sfs_sb s) = SFS_MAGIC;
  od_blocks : sb_blocks (sfs_sb s) = sb_nblocks (fs_vol s);
  od_name : length (sb_volname (sfs_sb s)) = 32%nat ∧ bytes_ok (sb_volname (sfs_sb s));
  od_rest : length (sb_reserved (sfs_sb s)) = 118%nat;
  od_super : sfs_superdirty s = false → super_saved (fs_vol s);
}.

(** Blocks that are not of files are written. *)
Lemma meta_fs P s v' :
  fs_wf P s → (∀ b, b ≠ SFS_SUPER_BLOCK → ¬ reserved (fs_vol s) b → blk v' b = blk (fs_vol s) b) →
  freemap v' = freemap (fs_vol s) → nodes v' = nodes (fs_vol s) → sb_nblocks v' = sb_nblocks (fs_vol s) → d_blocks v' = d_blocks (fs_vol s) →
  fs_wf P (set_vol v' s) ∧ same_fs P s (set_vol v' s).
Proof.
  intros Hok Hblk Hf Hn Hnb Hdb. pose proof Hok as [F N [T1 T2 T3]].
  assert (HbP : ∀ y, y ∈ P → blk v' y = blk (fs_vol s) y).
  { intros y Hy. destruct (fo_block _ _ _ F y Hy). apply Hblk; [unfold SFS_SUPER_BLOCK; lia|]. intros Hres. by apply (fo_reserved _ _ _ F y Hres). }
  assert (Hi : ∀ y, y ∈ P → inode v' y = inode (fs_vol s) y) by (intros y Hy; unfold SfsInv.inode; by rewrite Hn, HbP).
  destruct (files_same contents P (fs_vol s) v' F) as [F' Hk].
  - destruct (fo_ok _ _ _ F). split; unfold used in *; rewrite ?Hf, ?Hnb, ?Hdb; done.
  - done.
  - unfold used. by rewrite Hf.
  - intros y b Hy Hb. apply Hblk; [apply Hb|]. intros Hres. by apply (fo_reserved _ _ _ F b Hres) in Hb.
  - done.
  - intros x sv. rewrite Hn. intros Hx. pose proof (fo_loaded _ _ _ F x sv Hx) as HxP. split; [done|]. rewrite HbP by done. by apply (fo_clean _ _ _ F).
  - apply fs_ok_view; [done|done| |done|].
    + intros y Hy. split; [by apply Hi|by apply Hk].
    + split; [done| |done]. cbn. by rewrite Hn.
Qed.

(** ** sfs_sync *)

Lemma sync_loop_run P l s :
  fs_wf P s → on_disk s → (∀ t, t ∈ l → is_Some (nodes (fs_vol s) !! tn_ino t)) →
  ∃ v', sync_loop hw_read hw_write l s = Ret tt (set_vol v' s) ∧ fs_wf P (set_vol v' s) ∧ same_fs P s (set_vol v' s) ∧ on_disk (set_vol v' s) ∧
    d_blocks v' = d_blocks (fs_vol s) ∧ freemap v' = freemap (fs_vol s) ∧
    ∀ x sv, nodes v' !! x = Some sv → sv_dirty sv = true → nodes (fs_vol s) !! x = Some sv ∧ x ∉ tn_ino <$> l.
Proof.
  revert s. induction l as [|t l IH]; intros s Hok Ho Hl; cbn [sync_loop].
  - exists (fs_vol s). rewrite set_vol_id. split; [done|]. split; [done|]. split; [apply same_fs_vol; [apply Hok|done]|]. split; [done|]. split; [done|].
    split; [done|]. intros x sv Hx _. split; [done|]. apply not_elem_of_nil.
  - destruct (Hl t) as [sv Hsv]; [by left|]. unfold sfs_fsync.
    destruct (sync_run hw_read hw_write contents _ _ P s (tn_ino t) sv Hok Hsv) as (v1 & Hrun & Hok1 & Hs1 & Hn1 & Hf1 & Hd1 & Hm1 & Hb1).
    rewrite (run_bind_ret _ _ _ _ _ Hrun). set (s1 := set_vol v1 s) in *. pose proof (sm_size _ _ _ _ Hs1) as Hsz1.
    assert (Ho1 : on_disk s1).
    { destruct Ho as [O1 O2 O3 O4 O5 O6 O7 O8]. pose proof (fk_files _ _ _ _ _ Hok) as F. split; cbn [s1 set_vol fs_vol sfs_sb sfs_superdirty] in *; rewrite ?Hf1, ?Hsz1, ?Hm1; try done.
      - intros Hdirty j Hj. rewrite Hsz1 in Hj. rewrite Hb1; [by apply O3|]. apply (fo_reserved _ _ _ F). unfold reserved. lia.
      - intros Hdirty. unfold super_saved. rewrite Hsz1, Hb1; [by apply O8|]. intros H0. destruct (fo_block _ _ _ F _ H0). unfold SFS_SUPER_BLOCK in *. lia. }
    destruct (IH s1 Hok1 Ho1) as (v2 & Hrun2 & Hok2 & Hs2 & Ho2 & Hd2 & Hf2 & Hn2).
    { intros u Hu. cbn [s1 set_vol fs_vol]. rewrite Hn1. apply lookup_insert_is_Some'. right. apply Hl. by right. }
    exists v2. split; [done|]. split; [done|]. split; [by eapply same_fs_trans|]. split; [done|]. split; [by rewrite Hd2|]. split; [by rewrite Hf2|].
    intros x sw Hx Hdirty. destruct (Hn2 x sw Hx Hdirty) as [Hx1 Hxl]. cbn [s1 set_vol fs_vol] in Hx1. rewrite Hn1 in Hx1. rewrite fmap_cons, not_elem_of_cons.
    apply lookup_insert_Some in Hx1 as [[_ <-]|[Hne Hx1]]; [done|]. split; [done|]. split; [congruence|done].
Qed.

Lemma map_length s : on_disk s → vol_ok (fs_vol s) →
  zlen (bitmap_getdata (freemap (fs_vol s))) = SFS_FREEMAPBLOCKS (sb_nblocks (fs_vol s)) * 512 ∧ bytes_ok (bitmap_getdata (freemap (fs_vol s))).
Proof.
  intros Ho Hok. pose proof (vo_disk _ Hok). pose proof (vo_size _ Hok). destruct (freemap_size (sb_nblocks (fs_vol s))) as (E1 & E2 & _); [lia|].
  destruct (vo_map _ Hok) as [M1 M2 M3 _]. unfold bitmap_getdata. split.
  - rewrite M2, (od_bits _ Ho), E1, E2. set (q := _ / 4096). replace (q * 4096 + 7) with (7 + (q * 512) * 8) by lia. rewrite Z.div_add by lia. done.
  - apply Forall_lookup. intros i w Hw. apply (M3 (Z.of_nat i)). by rewrite arr_get_nonneg, Nat2Z.id by lia.
Qed.

Lemma sync_freemap_run P s :
  fs_wf P s → on_disk s →
  ∃ s', sfs_sync_freemap hw_read hw_write s = Ret (inr tt) s' ∧ fs_wf P s' ∧ same_fs P s s' ∧ on_disk s' ∧ freemapdirty (fs_vol s') = false ∧
    sfs_vnodes s' = sfs_vnodes s ∧ nodes (fs_vol s') = nodes (fs_vol s) ∧ d_blocks (fs_vol s') = d_blocks (fs_vol s) ∧ freemap (fs_vol s') = freemap (fs_vol s).
Proof.
  intros Hok Ho. pose proof Hok as [F N T]. unfold sfs_sync_freemap. rewrite (run_on_vol _ _ s (freemapdirty (fs_vol s)) (fs_vol s)) by done. rewrite set_vol_id.
  destruct (freemapdirty (fs_vol s)) eqn:Hdirty.
  - destruct (map_length s Ho (fo_ok _ _ _ F)) as [Hlen Hb]. pose proof (vo_disk _ (fo_ok _ _ _ F)). pose proof (vo_size _ (fo_ok _ _ _ F)).
    destruct (freemap_size (sb_nblocks (fs_vol s))) as (_ & _ & _ & Hpos); [lia|]. pose proof (od_room _ Ho) as Hroom.
    destruct (freemap_write_run (Z.to_nat (SFS_FREEMAPBLOCKS (sb_nblocks (fs_vol s)))) 0 (bitmap_getdata (freemap (fs_vol s))) (fs_vol s)) as (v1 & Hrun & M); [lia|lia|lia|lia|done|].
    rewrite Z2Nat.id, Z.add_0_r in M by done. destruct M as [M1 M2 M3 M4 M5].
    unfold ebind. rewrite (run_on_vol (freemapio_write hw_read hw_write) _ s (inr tt) v1) by (unfold freemapio_write; by rewrite run_gets). rewrite (run_on_vol _ _ _ tt (clean_freemap v1)) by done.
    exists (set_vol (clean_freemap v1) s). split; [done|]. destruct (meta_fs P s (clean_freemap v1) Hok) as [Hok' Hs']; [|done|done|done|done|].
    { intros b _ Hres. etrans; [apply M1|]. by rewrite decide_False. }
    split; [done|]. split; [done|]. split; [|done]. destruct Ho as [O1 O2 O3 O4 O5 O6 O7 O8]. split; cbn [set_vol fs_vol clean_freemap freemap sb_nblocks sfs_sb sfs_superdirty freemapdirty]; rewrite ?M4, ?M3; try done.
    + intros _ j Hj. cbn in Hj. rewrite M3 in Hj. etrans; [apply M1|]. rewrite decide_True by lia. f_equal. lia.
    + intros Hd'. unfold super_saved. change (blk (clean_freemap v1)) with (blk v1). rewrite M1, decide_False by (unfold SFS_FREEMAP_START, SFS_SUPER_BLOCK; lia). cbn. rewrite M3. by apply O8.
  - exists s. split; [done|]. split; [done|]. split; [by apply same_fs_vol|]. done.
Qed.

Lemma super_bytes s : on_disk s → vol_ok (fs_vol s) → zlen (encode_super (sfs_sb s)) = 512 ∧ bytes_ok (encode_super (sfs_sb s)).
Proof.
  intros Ho Hok. destruct (od_name _ Ho) as [Hl Hb]. pose proof (od_rest _ Ho) as Hr. pose proof (length_bytes_of (sb_reserved (sfs_sb s))) as Hlr. unfold encode_super. split.
  - rewrite !length_app. cbn [bytes_of_word length]. lia.
  - unfold bytes_ok. rewrite !Forall_app. split_and!; [..|done|apply bytes_of_ok]; repeat constructor; apply Z.mod_pos_bound; lia.
Qed.

Lemma sync_superblock_run P s :
  fs_wf P s → on_disk s →
  ∃ s', sfs_sync_superblock hw_read hw_write s = Ret (inr tt) s' ∧ fs_wf P s' ∧ same_fs P s s' ∧ on_disk s' ∧ sfs_superdirty s' = false ∧
    sfs_vnodes s' = sfs_vnodes s ∧ nodes (fs_vol s') = nodes (fs_vol s) ∧ d_blocks (fs_vol s') = d_blocks (fs_vol s) ∧
    freemap (fs_vol s') = freemap (fs_vol s) ∧ freemapdirty (fs_vol s') = freemapdirty (fs_vol s).
Proof.
  intros Hok Ho. pose proof Hok as [F N T]. unfold sfs_sync_superblock. rewrite run_gets. destruct (sfs_superdirty s) eqn:Hdirty.
  - destruct (super_bytes s Ho (fo_ok _ _ _ F)) as [Hlen Hb]. pose proof (vo_disk _ (fo_ok _ _ _ F)). pose proof (vo_size _ (fo_ok _ _ _ F)).
    destruct (writeblock_run hw_read hw_write contents SFS_SUPER_BLOCK (encode_super (sfs_sb s)) (fs_vol s)) as (v1 & Hw & W); [unfold SFS_SUPER_BLOCK; lia|done|done|done|].
    destruct W as [W1 W2 W3 W4 W5 W6 W7]. unfold ebind. rewrite (run_on_vol _ _ _ _ _ Hw), run_modify.
    destruct (meta_fs P s v1 Hok) as [Hok' Hs']; [|done|done|done|done|].
    { intros b Hb0 _. by rewrite W1, decide_False. }
    exists (set_superdirty false (set_vol v1 s)). split; [done|]. destruct Hok' as [F' N' [T1 T2 T3]]. split; [by split|]. split; [by destruct Hs'|]. split; [|done].
    destruct Ho as [O1 O2 O3 O4 O5 O6 O7 O8]. split; cbn [set_superdirty set_vol fs_vol sfs_sb sfs_superdirty]; rewrite ?W4, ?W3, ?W7; try done.
    + intros Hd' j Hj. rewrite W3 in Hj. rewrite W1, decide_False by (unfold SFS_FREEMAP_START, SFS_SUPER_BLOCK; lia). by apply O3.
    + intros _. unfold super_saved. rewrite W1, decide_True, W3 by done. destruct (decode_encode_super (sfs_sb s)) as [-> ->]; [by rewrite O4|rewrite O5; lia|done].
  - exists s. split; [done|]. split; [done|]. split; [by apply same_fs_vol|]. done.
Qed.

(** After [sfs_sync] nothing is only in memory. *)
Definition synced s : Prop :=
  (∀ x sv, nodes (fs_vol s) !! x = Some sv → sv_dirty sv = false) ∧ freemapdirty (fs_vol s) = false ∧ sfs_superdirty s = false.

Lemma sync_all P s :
  fs_wf P s → on_disk s →
  ∃ s', sfs_sync hw_read hw_write s = Ret (inr tt) s' ∧ fs_wf P s' ∧ same_fs P s s' ∧ on_disk s' ∧ synced s' ∧
    sfs_vnodes s' = sfs_vnodes s ∧ d_blocks (fs_vol s') = d_blocks (fs_vol s) ∧ freemap (fs_vol s') = freemap (fs_vol s).
Proof.
  intros Hok Ho. unfold sfs_sync, sfs_sync_vnodes. rewrite run_assoc, run_gets.
  destruct (sync_loop_run P (sfs_vnodes s) s Hok Ho) as (v1 & Hrun1 & Hok1 & Hs1 & Ho1 & Hd1 & Hf1 & Hn1).
  { intros t Ht. apply (tb_nodes _ (fk_table _ _ _ _ _ Hok)). by apply list_elem_of_fmap_2. }
  rewrite (run_bind_ret _ _ _ _ _ Hrun1). unfold ebind.
  destruct (sync_freemap_run P (set_vol v1 s) Hok1 Ho1) as (s2 & Hrun2 & Hok2 & Hs2 & Ho2 & Hc2 & Ht2 & Hn2 & Hd2 & Hf2). rewrite (run_bind_ret _ _ _ _ _ Hrun2).
  destruct (sync_superblock_run P s2 Hok2 Ho2) as (s3 & Hrun3 & Hok3 & Hs3 & Ho3 & Hc3 & Ht3 & Hn3 & Hd3 & Hf3 & Hm3).
  exists s3. split; [done|]. split; [done|]. split; [eapply same_fs_trans; [exact Hs1|]; by eapply same_fs_trans|]. split; [done|].
  split; [|split; [by rewrite Ht3, Ht2|split; [by rewrite Hd3, Hd2|by rewrite Hf3, Hf2]]]. split; [|split; [congruence|done]].
  intros x sv Hx. rewrite Hn3, Hn2 in Hx. destruct (sv_dirty sv) eqn:E; [|done]. exfalso. destruct (Hn1 x sv Hx E) as [Hx0 Hnot].
  apply Hnot, (tb_nodes _ (fk_table _ _ _ _ _ Hok)). by rewrite Hx0.
Qed.

(** ** sfs_domount *)

(** A volume with the same blocks and no inode in memory. *)
Lemma fresh_fs P s v' sb :
  fs_wf P s → synced s → (∀ b, blk v' b = blk (fs_vol s) b) → freemap v' = freemap (fs_vol s) → nodes v' = ∅ →
  sb_nblocks v' = sb_nblocks (fs_vol s) → d_blocks v' = d_blocks (fs_vol s) →
  let s' := SfsFs v' [] sb false in fs_wf P s' ∧ same_fs P s s'.
Proof.
  intros Hok [Hc _] Hblk Hf Hn Hnb Hdb s'. pose proof Hok as [F N T].
  assert (Hi : ∀ y, inode v' y = inode (fs_vol s) y).
  { intros y. unfold SfsInv.inode. rewrite Hn, lookup_empty, Hblk. destruct (nodes (fs_vol s) !! y) as [sv|] eqn:E; [|done]. apply (fo_clean _ _ _ F); [done|by apply (Hc y)]. }
  destruct (files_same contents P (fs_vol s) v' F) as [F' Hk].
  - destruct (fo_ok _ _ _ F). split; unfold used in *; rewrite ?Hf, ?Hnb, ?Hdb; done.
  - done.
  - unfold used. by rewrite Hf.
  - intros y b _ _. apply Hblk.
  - intros y _. apply Hi.
  - intros x sv. by rewrite Hn, lookup_empty.
  - apply fs_ok_view; [done|done|intros y Hy; split; [apply Hi|by apply Hk]|done|]. split; cbn; [constructor| |intros t Ht; by apply not_elem_of_nil in Ht].
    intros x. rewrite Hn, lookup_empty. split; [intros Hx; by apply not_elem_of_nil in Hx|by intros []].
Qed.

(** The superblock as it is read. *)
Lemma decoded_super l : length l = 512%nat → bytes_ok l →
  length (sb_volname (decode_super l)) = 32%nat ∧ bytes_ok (sb_volname (decode_super l)) ∧ length (sb_reserved (decode_super l)) = 118%nat.
Proof.
  intros Hl Hb. unfold decode_super. cbn [sb_volname sb_reserved]. split_and!.
  - rewrite length_take, length_drop. lia.
  - apply Forall_take, Forall_drop. done.
  - rewrite length_drop, (length_words 128) by lia. done.
Qed.

Lemma mount_run P s m :
  fs_wf P s → on_disk s → synced s →
  ∃ s', sfs_domount hw_read hw_write true true (d_blocks (fs_vol s)) SFS_BLOCKSIZE (dev (fs_vol s)) m = Ret (inr s') tt ∧
    fs_wf P s' ∧ same_fs P s s' ∧ on_disk s' ∧ sfs_vnodes s' = [] ∧ freemap (fs_vol s') = freemap (fs_vol s).
Proof.
  intros Hok Ho Hsy. pose proof (fo_ok _ _ _ (fk_files _ _ _ _ _ Hok)) as V. pose proof (vo_disk _ V). pose proof (vo_size _ V). pose proof Hsy as (_ & Hfc & Hsc).
  destruct (od_super _ Ho Hsc) as [Hmagic Hnb]. destruct (freemap_size (sb_nblocks (fs_vol s))) as (_ & _ & Hbits & Hpos); [lia|]. pose proof (od_room _ Ho) as Hroom.
  destruct (map_length s Ho V) as [Hlen _]. set (data0 := bitmap_getdata (freemap (fs_vol s))) in *.
  unfold sfs_domount. change (negb (SFS_BLOCKSIZE =? SFS_BLOCKSIZE)) with false. cbn [negb]. cbv iota zeta. set (v0 := Vol _ _ 0 _ _ _ _).
  destruct (readblock_run hw_read hw_write contents SFS_SUPER_BLOCK v0) as (v1 & Hrd & Ha); [cbn; unfold SFS_SUPER_BLOCK; lia|done|]. unfold ebind.
  rewrite (run_bind_ret _ _ _ _ _ Hrd). change (blk v0 SFS_SUPER_BLOCK) with (blk (fs_vol s) SFS_SUPER_BLOCK). set (sb := decode_super _) in *. rewrite Hmagic, Hnb.
  change (negb (SFS_MAGIC =? SFS_MAGIC)) with false. cbv iota.
  destruct (bitmap_create_run (SFS_FREEMAPBITS (sb_nblocks (fs_vol s))) v1) as (b & Hbm & Hbwf & Hbn & _); [lia|]. rewrite (run_bind_ret _ _ _ _ _ Hbm), run_modify.
  set (v2 := Vol _ _ _ _ _ _ _). unfold freemapio_read, ebind. rewrite run_assoc, run_gets.
  destruct (freemap_read_run (Z.to_nat (SFS_FREEMAPBLOCKS (sb_nblocks v2))) 0 (bitmap_getdata (freemap v2)) data0 v2) as (v3 & Hfr & Ha3).
  { done. }
  { cbn. rewrite (al_blocks _ _ _ Ha). cbn. lia. }
  { cbn. rewrite (al_blocks _ _ _ Ha). cbn. lia. }
  { cbn. lia. }
  { change (zlen (bv b) = zlen data0). rewrite (wf_len _ Hbwf), Hbn. rewrite <- (od_bits _ Ho). symmetry. apply (wf_len _ (vo_map _ V)). }
  { intros i Hi. rewrite Z.add_0_r, Z.add_0_l. change (blk v2) with (blk v1). rewrite (al_blk _ _ _ Ha). change (blk v0) with (blk (fs_vol s)).
    apply (od_map _ Ho Hfc). cbn in Hi. lia. }
  { intros i Hi. lia. }
  rewrite run_assoc, (run_bind_ret _ _ _ _ _ Hfr), run_assoc, run_modify, run_mret. cbn [mret K_ret].
  assert (Hblk : ∀ c, blk v3 c = blk (fs_vol s) c) by (intros c; rewrite (al_blk _ _ _ Ha3); change (blk v2) with (blk v1); by rewrite (al_blk _ _ _ Ha)).
  eexists. split; [reflexivity|]. set (v4 := Vol _ _ _ _ _ _ _).
  assert (Hf4 : freemap v4 = freemap (fs_vol s)).
  { cbn. rewrite (al_freemap _ _ _ Ha3). cbn. rewrite Hbn, <- (od_bits _ Ho). unfold data0, bitmap_getdata. by destruct (freemap (fs_vol s)). }
  assert (Hnb4 : sb_nblocks v4 = sb_nblocks (fs_vol s)) by (cbn; by rewrite (al_nblocks _ _ _ Ha3)).
  destruct (fresh_fs P s v4 (Superblock SFS_MAGIC (sb_nblocks (fs_vol s)) (arr_set (sb_volname sb) (SFS_VOLNAME_SIZE - 1) 0) (sb_reserved sb)) Hok Hsy Hblk Hf4) as [Hok' Hs'].
  { cbn. by rewrite (al_nodes _ _ _ Ha3). }
  { done. }
  { cbn. by rewrite (al_blocks _ _ _ Ha3); cbn; rewrite (al_blocks _ _ _ Ha). }
  split; [exact Hok'|]. split; [exact Hs'|]. split; [|done].
  destruct (decoded_super (blk (fs_vol s) SFS_SUPER_BLOCK)) as (D1 & D2 & D3); [pose proof (blk_len hw_read hw_write contents (fs_vol s) SFS_SUPER_BLOCK) as E; unfold SFS_BLOCKSIZE in E; lia|exact (disk_bytes (dev (fs_vol s)) SFS_SUPER_BLOCK)|].
  split; cbn [fs_vol sfs_sb sfs_superdirty sb_magic sb_blocks sb_volname sb_reserved]; rewrite ?Hf4, ?Hnb4; try done.
  - apply Ho.
  - intros _ j Hj. rewrite Hnb4 in Hj. etrans; [apply Hblk|]. by apply (od_map _ Ho Hfc).
  - split; [by rewrite length_arr_set|]. unfold arr_set. cbn. by apply Forall_insert.
  - intros _. unfold super_saved. change (blk v4) with (blk v3). rewrite Hblk, Hnb4. done.
Qed.

(** C15: what [sfs_sync] has returned for is not lost: the sync always succeeds, keeps names, files and references, and leaves nothing that
    is only in memory; mounting the device as it is then, in a machine with other memory contents and nothing loaded,
    succeeds and gives a file system with the same names, the same inodes, the same contents of all files and the same free
    blocks, in which the invariant holds. *)
Theorem sync_survives P s m :
  fs_wf P s → on_disk s →
  ∃ s' s2, sfs_sync hw_read hw_write s = Ret (inr tt) s' ∧ fs_wf P s' ∧ same_fs P s s' ∧ on_disk s' ∧ synced s' ∧ (∀ y, refs s' y = refs s y) ∧
    sfs_domount hw_read hw_write true true (d_blocks (fs_vol s)) SFS_BLOCKSIZE (dev (fs_vol s')) m = Ret (inr s2) tt ∧
    fs_wf P s2 ∧ same_fs P s s2 ∧ on_disk s2 ∧ sfs_vnodes s2 = [] ∧ used (fs_vol s2) = used (fs_vol s).
Proof.
  intros Hok Ho. destruct (sync_all P s Hok Ho) as (s' & Hrun & Hok' & Hs' & Ho' & Hsy & Ht & Hd' & Hf).
  destruct (mount_run P s' m Hok' Ho' Hsy) as (s2 & Hm & Hok2 & Hs2 & Ho2 & Ht2 & Hf2). exists s', s2. rewrite <- Hd'.
  split; [done|]. split; [done|]. split; [done|]. split; [done|]. split; [done|]. split; [intros y; unfold refs; by rewrite Ht|].
  split; [done|]. split; [done|]. split; [by eapply same_fs_trans|]. split; [done|]. split; [done|]. unfold used. by rewrite Hf2, Hf.
Qed.

End mount.
