(* ===== verification/SfsDemo.v ===== *)
(** * SfsDemo: a small volume on a disk that fails every other read

    A device that meets the interface of Disk.v, a volume of 16 blocks with a directory of one entry and an empty file, and
    the theorems on SFS at work on them. *)

From Stdlib Require Import ZArith Lia.
From stdpp Require Import base gmap list option strings list_numbers.
From S2P Require Import Prelude Types Strings Bitmap Uio Sfs Disk SfsFile SfsIo SfsVol SfsTrunc SfsDir SfsNode SfsInv SfsNames SfsOps SfsCalls SfsMount.
Set Default Goal Selector "!".
Open Scope Z_scope.

(** ** The disk *)

Definition disk : Type := gmap Z (list Z) * bool.
Definition sector_ok (l : list Z) : bool := (zlen l =? 512) && forallb (λ x, (0 <=? x) && (x <? 256)) l.
Definition disk_contents (d : disk) (b : Z) : list Z :=
  match fst d !! b with Some l => if sector_ok l then l else replicate 512 0 | None => replicate 512 0 end.

Definition flaky_read (d : disk) (b : Z) : disk * (Z + list Z) :=
  if snd d then ((fst d, false), inl EIO) else ((fst d, true), inr (disk_contents d b)).
Definition plain_write (d : disk) (b : Z) (l : list Z) : disk * Z := ((<[b := l]> (fst d), snd d), 0).

Lemma sector_ok_spec l : sector_ok l = true ↔ zlen l = 512 ∧ bytes_ok l.
Proof.
  unfold sector_ok, bytes_ok. rewrite andb_true_iff, Z.eqb_eq, forallb_forall, Forall_forall.
  split; intros [H1 H2]; (split; [done|]); intros x Hx.
  - specialize (H2 x). rewrite andb_true_iff, Z.leb_le, Z.ltb_lt in H2. apply H2. by apply list_elem_of_In.
  - rewrite andb_true_iff, Z.leb_le, Z.ltb_lt. apply H2. by apply list_elem_of_In.
Qed.

#[export] Instance flaky_disk : DiskLaws flaky_read plain_write disk_contents.
Proof.
  split.
  - intros d b. unfold disk_contents. destruct (fst d !! b); [|done]. destruct (sector_ok l) eqn:E; [|done]. by apply sector_ok_spec in E as [E _].
  - intros d b. unfold disk_contents. destruct (fst d !! b); [|by apply Forall_replicate]. destruct (sector_ok l) eqn:E; [|by apply Forall_replicate]. by apply sector_ok_spec in E as [_ E].
  - intros d b d' r. unfold flaky_read. destruct (snd d); intros [= <- <-]; done.
  - intros [m []] b; done.
  - intros d b data d' e [= <- <-] Hl Hb. split; [done|]. intros c. unfold disk_contents. cbn. case_decide as Hc.
    + subst c. rewrite lookup_insert_eq. by rewrite (proj2 (sector_ok_spec data)).
    + by rewrite lookup_insert_ne.
Qed.

(** ** The volume *)

Definition letter : list Z := [97].
Definition demo_dir : sfs_vnode := Vnode (Dinode 64 SFS_TYPE_DIR 1 (3 :: replicate 14 0) 0 (replicate 110 0)) true.
Definition demo_file : sfs_vnode := Vnode (empty_file 1) true.
Definition demo_map : bitmap := Bitmap 4096 (31 :: 0 :: replicate 510 255).
Definition demo_disk : disk := ({[3 := encode_entry (Direntry 4 (padded letter)) ++ replicate 448 0]}, true).
Definition demo : vol (D := disk) :=
  Vol demo_disk 20 16 demo_map true (<[1 := demo_dir]> {[4 := demo_file]}) (λ a, a mod 256).

Lemma demo_bits : forallb (λ w, (0 <=? w) && (w <? 256)) (bv demo_map) && forallb (bm_get demo_map) (seqZ 16 4080) = true.
Proof. vm_compute. done. Qed.

Lemma demo_used b : 0 ≤ b < 5 ∨ 16 ≤ b < 4096 → b ∈ used demo.
Proof.
  pose proof demo_bits as [_ H]%andb_true_iff. rewrite forallb_forall in H. intros [Hb|Hb]; apply elem_of_bitmap_set; (split; [cbn; lia|]).
  - assert (Hc : b = 0 ∨ b = 1 ∨ b = 2 ∨ b = 3 ∨ b = 4) by lia. by destruct Hc as [->|[->|[->|[->| ->]]]].
  - apply H, list_elem_of_In, elem_of_seqZ. lia.
Qed.

Lemma demo_ok : vol_ok demo.
Proof.
  split; [|cbn; lia|intros b Hb; cbn in Hb; apply demo_used; lia|apply demo_used; lia|cbn; lia|cbn; lia].
  pose proof demo_bits as [H _]%andb_true_iff. rewrite forallb_forall in H. split; [cbn; lia|reflexivity| |cbn; lia].
  intros ix w Hw%arr_get_Some. destruct Hw as [_ Hw]. specialize (H w). rewrite andb_true_iff, Z.leb_le, Z.ltb_lt in H.
  apply H, list_elem_of_In. by eapply list_elem_of_lookup_2.
Qed.

Lemma demo_ptr i : 0 ≤ i < MAXBLOCKS →
  ptr disk_contents demo (sv_i demo_dir) i = (if i =? 0 then 3 else 0) ∧ ptr disk_contents demo (sv_i demo_file) i = 0.
Proof.
  intros Hi.
  assert (H : forallb (λ i, (ptr disk_contents demo (sv_i demo_dir) i =? (if i =? 0 then 3 else 0)) && (ptr disk_contents demo (sv_i demo_file) i =? 0)) (seqZ 0 143) = true)
    by (vm_compute; done).
  rewrite forallb_forall in H. specialize (H i). rewrite andb_true_iff, !Z.eqb_eq in H. apply H. apply list_elem_of_In, elem_of_seqZ.
  unfold MAXBLOCKS, SFS_NDIRECT, SFS_DBPERIDB in Hi. lia.
Qed.

Lemma demo_owns b : (owns disk_contents demo (sv_i demo_dir) b → b = 3) ∧ ¬ owns disk_contents demo (sv_i demo_file) b.
Proof.
  split.
  - intros [Hb [->|(i & Hi & <-)]]; [done|]. rewrite (proj1 (demo_ptr i Hi)) in *. by destruct (i =? 0).
  - intros [Hb [->|(i & Hi & <-)]]; [done|]. by rewrite (proj2 (demo_ptr i Hi)) in *.
Qed.

Lemma demo_volume_wf : vol_wf disk_contents demo.
Proof.
  assert (Hnodes : ∀ ino sv, nodes demo !! ino = Some sv → ino = 1 ∧ sv = demo_dir ∨ ino = 4 ∧ sv = demo_file).
  { intros ino sv. cbn [nodes demo]. rewrite lookup_insert_Some, lookup_singleton_Some. naive_solver. }
  split; [apply demo_ok| |].
  - intros ino sv [[-> ->]|[-> ->]]%Hnodes; (split; [done| | |]).
    + intros b ->%demo_owns. split; [cbn; lia|apply demo_used; lia].
    + intros i j Hi Hj. rewrite (proj1 (demo_ptr i Hi)), (proj1 (demo_ptr j Hj)). destruct (Z.eqb_spec i 0), (Z.eqb_spec j 0); lia.
    + intros i Hi. rewrite (proj1 (demo_ptr i Hi)). done.
    + intros b Hb. by apply demo_owns in Hb.
    + intros i j Hi Hj. by rewrite (proj2 (demo_ptr i Hi)).
    + intros i Hi. by rewrite (proj2 (demo_ptr i Hi)).
  - intros i j sv sw b Hij [[-> ->]|[-> ->]]%Hnodes [[-> ->]|[-> ->]]%Hnodes H1 H2; try done; first [by apply (proj2 (demo_owns b) H1)|by apply (proj2 (demo_owns b) H2)].
Qed.

Lemma demo_dir_wf : dir_wf disk_contents demo (sv_i demo_dir).
Proof.
  split; try done. intros i j [Hi _] [Hj _] _. change (nslots (sv_i demo_dir)) with 1 in *. lia.
Qed.

Lemma demo_bytes : mem_bytes (kmem demo).
Proof. intros a. cbn. apply Z.mod_pos_bound. lia. Qed.

(** A request that starts in one block and ends in another. *)
Definition demo_write : uio := uio_kinit 4096 1000 300 UIO_WRITE.
Definition demo_read : uio := uio_kinit 8192 1000 300 UIO_READ.

Lemma demo_region : region demo_write 4096 1000 ∧ region demo_read 8192 1000.
Proof. split; split; cbn; try done; lia. Qed.

(** ** The file system on the volume: the directory and the file are open *)

Definition demo_super : sfs_superblock := Superblock SFS_MAGIC 16 (replicate 32 0) (replicate 118 0).
Definition demo_fs : sfs_fs (D := disk) := SfsFs demo [Tnode 1 1; Tnode 4 1] demo_super true.
Definition demo_files : gset Z := {[1; 4]}.

Lemma demo_inodes x : x ∈ demo_files → x = 1 ∧ inode disk_contents demo x = sv_i demo_dir ∨ x = 4 ∧ inode disk_contents demo x = sv_i demo_file.
Proof. intros [->%elem_of_singleton| ->%elem_of_singleton]%elem_of_union; [left|right]; done. Qed.

Lemma demo_files_ok : files_ok disk_contents demo_files demo.
Proof.
  pose proof demo_volume_wf as [_ W _]. split.
  - apply demo_ok.
  - apply (bool_decide_unpack _). vm_compute. done.
  - intros x sv. cbn [nodes demo]. rewrite lookup_insert_Some, lookup_singleton_Some. intros [[<- _]|[_ [<- _]]]; apply (bool_decide_unpack _); vm_compute; done.
  - intros x [[-> _]|[-> _]]%demo_inodes; (split; [cbn; lia|apply demo_used; lia]).
  - intros x [[-> ->]|[-> ->]]%demo_inodes; (split; [first [exact (W 1 demo_dir eq_refl)|exact (W 4 demo_file eq_refl)]|]); (split; [cbn; lia|done|cbn; lia|by apply (Forall_replicate _ 110)|done]).
  - intros x y b [[-> ->]|[-> ->]]%demo_inodes [[-> ->]|[-> ->]]%demo_inodes Hne H1 H2; try done; by destruct (proj2 (demo_owns b)).
  - intros x y [[-> _]|[-> _]]%demo_inodes [[-> ->]|[-> ->]]%demo_inodes H; first [by apply (proj1 (demo_owns _)) in H|by apply (proj2 (demo_owns _)) in H].
  - intros b Hb. change (2 ≤ b < 3) in Hb. assert (b = 2) as -> by lia. split_and!; [apply demo_used; lia| |].
    + apply (bool_decide_unpack _). vm_compute. done.
    + intros x [[-> ->]|[-> ->]]%demo_inodes H; first [by apply (proj1 (demo_owns _)) in H|by apply (proj2 (demo_owns _)) in H].
  - intros x sv. cbn [nodes demo]. rewrite lookup_insert_Some, lookup_singleton_Some. by intros [[_ <-]|[_ [_ <-]]].
Qed.

Lemma demo_fs_wf : fs_wf disk_contents demo_files demo_fs.
Proof.
  split; [exact demo_files_ok| |].
  - split; [exact demo_dir_wf| | |done].
    + intros nm x (i & [Hi _] & _ & <-). change (0 ≤ i < 1) in Hi. assert (i = 0) as -> by lia.
      assert (E : sfd_ino (slot disk_contents (fs_vol demo_fs) (root disk_contents (fs_vol demo_fs)) 0) = 4) by (vm_compute; done). rewrite E.
      split; [apply (bool_decide_unpack _); vm_compute; done|done].
    + intros x [[-> _]|[-> _]]%demo_inodes H; [done|]. split; [done|]. assert (E : nlinks disk_contents demo 4 = 1) by (vm_compute; done). cbn [demo_fs fs_vol]. rewrite E. done.
  - split.
    + apply (bool_decide_unpack _). vm_compute. done.
    + intros x. cbn [demo_fs sfs_vnodes fs_vol nodes demo]. rewrite lookup_insert_is_Some', lookup_singleton_is_Some.
      change (tn_ino <$> [Tnode 1 1; Tnode 4 1]) with [1; 4]. rewrite !elem_of_cons, elem_of_nil. naive_solver.
    + intros t Ht. cbn in Ht. rewrite !elem_of_cons in Ht. destruct Ht as [->|[->|H%elem_of_nil]]; [done|done|done].
Qed.

Lemma demo_on_disk : on_disk disk_contents demo_fs.
Proof. split; [reflexivity|vm_compute; done|done|done|done|split; [done|by apply (Forall_replicate _ 32)]|done|done]. Qed.

(** ** The theorems *)

Lemma sfs_io_moves_witness :
  ∃ e k sv' v', sfs_io flaky_read plain_write 4 demo_write demo = Ret (e, advanced demo_write k) v' ∧
    ended demo_write (io_want demo_write demo_file) e k v' ∧ io_done disk_contents 4 demo_write 4096 demo_file demo k sv' v' ∧ vol_wf disk_contents v' ∧
    ∀ j sw, j ≠ 4 → nodes demo !! j = Some sw → nodes v' !! j = Some sw ∧ file_kept disk_contents demo v' (sv_i sw).
Proof.
  apply (sfs_io_moves flaky_read plain_write disk_contents 4 demo_file demo_write 4096 1000 demo);
    [exact demo_volume_wf|reflexivity|exact demo_bytes|apply demo_region|cbn; lia|cbn; lia].
Defined.

Lemma write_read_back_witness :
  ∃ e k v' e2 k2 v2, sfs_io flaky_read plain_write 4 demo_write demo = Ret (e, advanced demo_write k) v' ∧ (e = 0 → k = uio_resid demo_write) ∧
    sfs_io flaky_read plain_write 4 demo_read v' = Ret (e2, advanced demo_read k2) v2 ∧ k ≤ k2 ∧
    ∀ i, 0 ≤ i < k → kmem v2 (8192 + i) = kmem demo (4096 + i).
Proof.
  apply (write_read_back flaky_read plain_write disk_contents 4 demo_file demo_write 4096 1000 demo_read 8192 1000 demo);
    [exact demo_volume_wf|reflexivity|exact demo_bytes|apply demo_region|apply demo_region|cbn; lia|cbn; lia|reflexivity..].
Defined.

Lemma sfs_itrunc_cuts_witness :
  ∃ sv' v', sfs_itrunc flaky_read plain_write 1 0 demo = Ret (inr tt) v' ∧ vol_wf disk_contents v' ∧ sfi_size (sv_i sv') = 0.
Proof.
  destruct (sfs_itrunc_cuts flaky_read plain_write disk_contents 1 demo_dir demo 0) as (sv' & v' & H1 & H2 & H3 & _);
    [exact demo_volume_wf|reflexivity|lia|]. exists sv', v'. exact (conj H1 (conj H2 H3)).
Defined.

Lemma sfs_creat_creates_witness :
  ∃ r s', sfs_creat flaky_read plain_write true true SFS_ROOTDIR_INO [98] true demo_fs = Ret r s' ∧ match r with
    | inr x => (x ∉ demo_files) ∧ inode disk_contents (fs_vol s') x = empty_file 1 ∨ names disk_contents demo [98] x
    | inl e => ∀ nm y, names disk_contents (fs_vol s') nm y ↔ names disk_contents demo nm y
    end.
Proof.
  destruct (sfs_creat_creates flaky_read plain_write disk_contents true true demo_files demo_fs [98] true) as (r & s' & Hrun & Hpost);
    [exact demo_fs_wf|reflexivity|repeat constructor; lia|]. exists r, s'. split; [exact Hrun|]. destruct r as [e|x].
  - exact (proj1 (proj2 (proj2 (proj2 Hpost)))).
  - destruct Hpost as [_ [[H _]|(_ & H1 & _ & H2 & _)]]; [right; exact H|left; exact (conj H1 H2)].
Defined.

(** The file of the volume is written and then closed: it has three blocks, one name, and is not open. *)
Definition demo_letter : K (sfs_fs (D := disk)) unit :=
  _ ← sfs_write flaky_read plain_write 4 demo_write; VOP_DECREF flaky_read plain_write 4.
Definition demo_sent : sfs_fs (D := disk) := match demo_letter demo_fs with Ret _ s => s | _ => demo_fs end.

Lemma demo_sent_wf : fs_wf disk_contents demo_files demo_sent.
Proof.
  unfold demo_sent, demo_letter, sfs_write. change (is_write demo_write) with true. rewrite run_assoc, run_assert by done.
  pose proof demo_volume_wf as W. destruct demo_region as [Hu _].
  destruct (io_write_run flaky_read plain_write disk_contents 4 demo_file demo_write 4096 1000 demo) as (e & k & sv' & v' & Hrun & [S Hsz Hm _ _ Hk] & _);
    [by apply (vol_wf_loaded disk_contents demo)|exact demo_bytes|done|done|done|done|].
  change demo with (fs_vol demo_fs) in Hrun. rewrite (run_on_vol _ _ _ _ _ Hrun). destruct Hm as (E1 & E2 & E3).
  destruct (step_fs disk_contents 4 0 0 demo_files demo_fs demo_file sv' v') as [Hok _]; [by eapply fs_zero, demo_fs_wf|done|done|done| |done|rewrite E2; done|].
  { destruct (proj2 (fo_file _ _ _ demo_files_ok 4 ltac:(by apply (bool_decide_unpack _)))) as [_ I2 I3 I4 I5]. change (inode disk_contents demo 4) with (sv_i demo_file) in *.
    split; [|congruence..]. change (uio_rw demo_write) with UIO_WRITE in Hsz. change (sfi_size (sv_i demo_file)) with 0 in Hsz. change (uio_offset demo_write) with 300 in *.
    unfold MAXFILE, MAXBLOCKS, SFS_NDIRECT, SFS_DBPERIDB, SFS_BLOCKSIZE in Hk. destruct (Z.eqb_spec k 0); lia. }
  destruct (vop_decref_run flaky_read plain_write disk_contents demo_files (set_vol v' demo_fs) 4 Hok) as (P' & s' & Hrun' & Hok' & _ & _ & Hg); [done|done|].
  rewrite Hrun'. unfold gone in Hg. destruct (decide _) as [[_ H0]|_].
  - exfalso. pose proof (linkcount_is disk_contents demo_files (set_vol v' demo_fs) 4) as Hl. rewrite H0 in Hl.
    assert (Hi : inode disk_contents v' 4 = sv_i sv') by (unfold inode; by rewrite (st_nodes _ _ _ _ _ _ S), lookup_insert_eq).
    cbn [set_vol fs_vol] in Hl. rewrite Hi, E2 in Hl. by discriminate Hl; [eapply fs_zero| |].
  - destruct Hg as [-> _]. by eapply fs_zero.
Qed.

Lemma demo_sent_name x : names disk_contents (fs_vol demo_sent) letter x → x = 4.
Proof.
  intros (i & [Hi _] & _ & <-). assert (E : nslots (root disk_contents (fs_vol demo_sent)) = 1) by (vm_compute; done). rewrite E in Hi.
  assert (i = 0) as -> by lia. vm_compute. done.
Qed.

(** Its last name is removed: exactly the three blocks of the file and the block of its inode become free. *)
Lemma sfs_remove_removes_witness :
  ∃ s', sfs_remove flaky_read plain_write true true SFS_ROOTDIR_INO letter demo_sent = Ret (inr tt) s' ∧ fs_wf disk_contents {[SFS_ROOTDIR_INO]} s' ∧
    (∀ b, b ∈ used (fs_vol s') ↔ b ∈ used (fs_vol demo_sent) ∧ b ≠ 4 ∧ ¬ owns disk_contents (fs_vol demo_sent) (inode disk_contents (fs_vol demo_sent) 4) b) ∧
    sfi_direct (inode disk_contents (fs_vol demo_sent) 4) = 5 :: 6 :: 7 :: replicate 12 0.
Proof.
  destruct (sfs_remove_removes flaky_read plain_write disk_contents true true demo_files demo_sent letter) as (r & s' & Hrun & _ & Hpost);
    [exact demo_sent_wf|vm_compute; reflexivity|]. destruct r as [e|[]].
  - exfalso. destruct Hpost as (_ & _ & _ & [[_ H]|(_ & [H|H] & _)]); [|discriminate H..].
    apply (H 4). exists 0. vm_compute. repeat split; discriminate.
  - destruct Hpost as (x & P' & Hx%demo_sent_name & Hok & _ & _ & Hl). subst x. exists s'. unfold lost_name in Hl.
    assert (Hc : refs demo_sent 4 = 0 ∧ nlinks disk_contents (fs_vol demo_sent) 4 = 1) by (split; vm_compute; reflexivity). rewrite (decide_True _ _ Hc) in Hl.
    destruct Hl as [-> Hu]. split; [exact Hrun|]. split; [|split; [exact Hu|vm_compute; reflexivity]].
    assert (E : demo_files ∖ {[4]} = {[SFS_ROOTDIR_INO]}) by (apply (bool_decide_unpack _); vm_compute; done). rewrite <- E. exact Hok.
Defined.

Lemma sfs_rename_renames_witness :
  ∃ r s', sfs_rename flaky_read plain_write true true SFS_ROOTDIR_INO letter SFS_ROOTDIR_INO [98] demo_fs = Ret r s' ∧ fs_wf disk_contents demo_files s'.
Proof.
  destruct (sfs_rename_renames flaky_read plain_write disk_contents true true demo_files demo_fs letter [98]) as (r & s' & Hrun & Hok & _);
    [exact demo_fs_wf|reflexivity|repeat constructor; lia|]. exists r, s'. exact (conj Hrun Hok).
Defined.

Lemma sync_survives_witness :
  ∃ s' s2, sfs_sync flaky_read plain_write demo_fs = Ret (inr tt) s' ∧
    sfs_domount flaky_read plain_write true true 20 SFS_BLOCKSIZE (dev (fs_vol s')) (λ _, 0) = Ret (inr s2) tt ∧ same_fs disk_contents demo_files demo_fs s2.
Proof.
  destruct (sync_survives flaky_read plain_write disk_contents demo_files demo_fs (λ _, 0)) as (s' & s2 & H1 & _ & _ & _ & _ & _ & H2 & _ & H3 & _);
    [exact demo_fs_wf|exact demo_on_disk|]. exists s', s2. exact (conj H1 (conj H2 H3)).
Defined.

(** A session: a file is created, written and removed while it is open; the last reference frees its blocks, and the
    volume is synchronised and mounted again. *)
Example session :
  match (x ← sfs_creat flaky_read plain_write true true 1 [98] true;
         match x with
         | inl e => mret (inl e)
         | inr ino =>
             w ← sfs_write flaky_read plain_write ino demo_write;
             r ← sfs_remove flaky_read plain_write true true 1 [98];
             t ← sfs_stat ino;
             VOP_DECREF flaky_read plain_write ino ;;
             n ← sfs_rename flaky_read plain_write true true 1 letter 1 [99];
             e ← sfs_rename flaky_read plain_write true true 1 [99] 1 [99];
             z ← sfs_sync flaky_read plain_write;
             mret (inr (fst w, r, t, n, e, z))
         end) demo_fs with
  | Ret (inr (w, r, t, n, e, z)) s =>
      w = 0 ∧ r = inr tt ∧ t = (S_IFREG, 1300, 0) ∧ n = inr tt ∧ e = inl EEXIST ∧ z = inr tt ∧ bv (freemap (fs_vol s)) = bv demo_map ∧
      match sfs_domount flaky_read plain_write true true 20 512 (dev (fs_vol s)) (λ _, 0) with
      | Ret (inr s2) _ =>
          match (r ← sfs_getroot flaky_read plain_write true true; sfs_lookup flaky_read plain_write true true 1 [99]) s2 with
          | Ret (inr x) _ => x = 4
          | _ => False
          end
      | _ => False
      end
  | _ => False
  end.
Proof. vm_compute. done. Qed.

(** A disk that refuses to write. *)
Definition broken_write (d : disk) (b : Z) (l : list Z) : disk * Z := (d, EIO).

Lemma failed_write_reported_done_witness :
  sfs_writeblock flaky_read broken_write 5 (replicate 512 1) demo = Ret (inr tt) (set_dev demo_disk demo).
Proof.
  apply (failed_write_reported_done flaky_read broken_write 5 (replicate 512 1) demo demo_disk); [cbn; lia|cbn; lia|reflexivity|reflexivity].
Defined.

(** The write of the example succeeds, and the size is right. *)
Example demo_write_runs :
  match sfs_io flaky_read plain_write 4 demo_write demo with
  | Ret (e, u) v => e = 0 ∧ uio_resid u = 0 ∧ (sfi_size ∘ sv_i <$> nodes v !! 4) = Some 1300
  | _ => False
  end.
Proof. vm_compute. done. Qed.

(** A file of 16 blocks that is truncated to 15 and then extended again shows its old data. *)
Example truncated_block_returns :
  match (u ← sfs_io flaky_read plain_write 2 (uio_kinit 0 8192 0 UIO_WRITE);
         r ← sfs_itrunc flaky_read plain_write 2 7680;
         x ← sfs_io flaky_read plain_write 2 (uio_kinit 0 1 8191 UIO_WRITE);
         y ← sfs_io flaky_read plain_write 2 (uio_kinit 16384 1 8000 UIO_READ);
         mret (fst u, r)) (Vol ({[3 := []]}, true) 60 40 (Bitmap 40 [15; 0; 0; 0; 0]) false {[2 := demo_file]} (λ a, a mod 251)) with
  | Ret (e, r) v => e = 0 ∧ r = inr tt ∧ kmem v 16384 = 8000 mod 251
  | _ => False
  end.
Proof. vm_compute. done. Qed.
