(* ===== verification/Semfs.v ===== *)
(** * Semfs: the file system of semaphores (kern/fs/semfs)

    A file is a semaphore: reading is P, writing is V, truncating sets the count.  The one directory is an array
    of entries, the semaphores are in another array, and a vnode stands for the semaphore with its number.  Slots of both arrays are NULL when
    free.  Locks and condition variables are stubs in this source: waiting returns at once.  [semfs_mem] says which allocations find memory. *)

From Stdlib Require Import ZArith Lia.
From stdpp Require Import base gmap list option strings list_numbers.
From S2P Require Import Prelude Types Strings Uio Sfs SfsNode.
Set Default Goal Selector "!".
Open Scope Z_scope.

Definition SEMFS_ROOTDIR : Z := 0xffffffff.

Record semfs_sem := SemfsSem { sems_count : Z; sems_hasvnode : bool; sems_linked : bool }.
Record semfs_direntry := SemfsDirentry { semd_name : list Z; semd_semnum : Z }.
Record semfs := Semfs {
  semfs_vnodes : list tnode;
  semfs_sems : list (option semfs_sem);
  semfs_dents : list (option semfs_direntry);
}.

Abbreviation SM := (K semfs).

Definition set_sem_vnodes (l : list tnode) (s : semfs) : semfs := Semfs l (semfs_sems s) (semfs_dents s).
Definition set_sems (l : list (option semfs_sem)) (s : semfs) : semfs := Semfs (semfs_vnodes s) l (semfs_dents s).
Definition set_dents (l : list (option semfs_direntry)) (s : semfs) : semfs := Semfs (semfs_vnodes s) (semfs_sems s) l.

Record semfs_mem := SemfsMem {
  mm_sem : bool; mm_lock : bool; mm_cv : bool;      (* semfs_sem_create *)
  mm_sems : bool;                                   (* the array of semaphores can grow *)
  mm_dent : bool; mm_name : bool;                   (* semfs_direntry_create *)
  mm_dents : bool;                                  (* the directory can grow *)
  mm_vnode : bool; mm_vnodes : bool;                (* semfs_vnode_create and the table of vnodes *)
}.

(** Arrays, with the checks of their subscripts. *)
Definition array_set {S A} (upd : list A → S → S) (l : list A) (i : Z) (a : A) : K S unit :=
  KASSERT ((0 <=? i) && (i <? zlen l)) "index < a->num" ;; modify (upd (arr_set l i a)).
Definition sem_get (i : Z) : SM (option semfs_sem) := l ← gets semfs_sems; index l i.
Definition sem_set (i : Z) (o : option semfs_sem) : SM unit := l ← gets semfs_sems; array_set set_sems l i o.
Definition dent_get (i : Z) : SM (option semfs_direntry) := l ← gets semfs_dents; index l i.
Definition dent_set (i : Z) (o : option semfs_direntry) : SM unit := l ← gets semfs_dents; array_set set_dents l i o.

Definition with_count (n : Z) (x : semfs_sem) : semfs_sem := SemfsSem n (sems_hasvnode x) (sems_linked x).
Definition with_hasvnode (b : bool) (x : semfs_sem) : semfs_sem := SemfsSem (sems_count x) b (sems_linked x).
Definition with_linked (b : bool) (x : semfs_sem) : semfs_sem := SemfsSem (sems_count x) (sems_hasvnode x) b.

(** ** semfs_obj.c *)

Definition semfs_sem_create (m : semfs_mem) : option semfs_sem :=
  if mm_sem m && mm_lock m && mm_cv m then Some (SemfsSem 0 false false) else None.

Fixpoint first_null {A} (l : list (option A)) (i : Z) : option Z :=
  match l with [] => None | None :: _ => Some i | Some _ :: l' => first_null l' (i + 1) end.

Definition semfs_sem_insert (m : semfs_mem) (x : semfs_sem) : SM (Z + Z) :=
  l ← gets semfs_sems;
  if zlen l =? SEMFS_ROOTDIR then mret (inl ENOSPC)
  else match first_null l 0 with
  | Some i => sem_set i (Some x) ;; mret (inr i)
  | None => if mm_sems m then modify (set_sems (l ++ [Some x])) ;; mret (inr (zlen l)) else mret (inl ENOMEM)
  end.

Definition semfs_direntry_create (m : semfs_mem) (name : list Z) (semnum : Z) : option semfs_direntry :=
  if mm_dent m && mm_name m then Some (SemfsDirentry name semnum) else None.

(** ** semfs_vnops.c: vnodes *)

Definition sem_find (n : Z) : SM tnode := l ← gets semfs_vnodes; deref (List.find (λ t, tn_ino t =? n) l).
Definition sem_incref (n : Z) : SM unit :=
  t ← sem_find n; modify (λ s, set_sem_vnodes (set_refs n (vn_refcount t + 1) (semfs_vnodes s)) s).

Definition semfs_getvnode (m : semfs_mem) (semnum : Z) : SM (Z + Z) :=
  l ← gets semfs_vnodes;
  match List.find (λ t, tn_ino t =? semnum) l with
  | Some _ => sem_incref semnum ;; mret (inr semnum)
  | None =>
      if negb (mm_vnode m) then mret (inl ENOMEM)
      else if negb (mm_vnodes m) then mret (inl ENOMEM)
      else
        modify (set_sem_vnodes (l ++ [Tnode semnum 1])) ;;
        (if negb (semnum =? SEMFS_ROOTDIR) then
           o ← sem_get semnum;
           x ← deref o;
           KASSERT (negb (sems_hasvnode x)) "sem->sems_hasvnode == false" ;;
           sem_set semnum (Some (with_hasvnode true x))
         else mret tt) ;;
        mret (inr semnum)
  end.

Definition semfs_reclaim (n : Z) : SM (Z + unit) :=
  t ← sem_find n;
  if 1 <? vn_refcount t then
    modify (λ s, set_sem_vnodes (set_refs n (vn_refcount t - 1) (semfs_vnodes s)) s) ;; mret (inl EBUSY)
  else
    modify (λ s, set_sem_vnodes (remove_ino n (semfs_vnodes s)) s) ;;
    (if negb (n =? SEMFS_ROOTDIR) then
       o ← sem_get n;
       x ← deref o;
       KASSERT (sems_hasvnode x) "sem->sems_hasvnode" ;;
       sem_set n (if sems_linked x then Some (with_hasvnode false x) else None)
     else mret tt) ;;
    mret (inr tt).

(** [vnode_decref]. *)
Definition sem_decref (n : Z) : SM unit :=
  t ← sem_find n;
  KASSERT (0 <? vn_refcount t) "vn->vn_refcount > 0" ;;
  if 1 <? vn_refcount t then modify (λ s, set_sem_vnodes (set_refs n (vn_refcount t - 1) (semfs_vnodes s)) s)
  else _ ← semfs_reclaim n; mret tt.

(** ** semfs_vnops.c: semaphores *)

Definition semfs_eachopen (n openflags : Z) : Z :=
  if n =? SEMFS_ROOTDIR then
    if negb (Z.land openflags O_ACCMODE =? O_RDONLY) then EISDIR
    else if negb (Z.land openflags O_APPEND =? 0) then EISDIR else 0
  else 0.
Definition semfs_gettype (n : Z) : Z := if n =? SEMFS_ROOTDIR then S_IFDIR else S_IFREG.
Definition semfs_isseekable (n : Z) : bool := n =? SEMFS_ROOTDIR.

Definition semfs_getsem (n : Z) : SM semfs_sem := o ← sem_get n; deref o.
Definition put_count (n c : Z) : SM unit := x ← semfs_getsem n; sem_set n (Some (with_count c x)).

(** The size, the links, the mode and the number. *)
Definition semfs_semstat (n : Z) : SM (Z * Z * Z * Z) :=
  x ← semfs_getsem n; mret (sems_count x, (if sems_linked x then 1 else 0), Z.lor S_IFREG 438, n).
Definition semfs_dirstat : SM (Z * Z * Z * Z) :=
  l ← gets semfs_dents; mret (zlen l, 2, Z.lor S_IFDIR 1777, SEMFS_ROOTDIR).

(** The loop of P.  [cv_wait] is a stub and returns at once; an element of [others] is what other threads do to the file
    system while the thread is in it, before the next round.  There are as many rounds as elements; a thread that is
    still in the loop after them [Diverge]s.  A round is not interrupted: [sems_lock] is there for that. *)
Fixpoint read_loop (others : list (SM unit)) (n : Z) (u : uio) : SM uio :=
  match others with
  | [] => diverge
  | other :: others' =>
      if negb (0 <? uio_resid u) then mret u
      else
        x ← semfs_getsem n;
        u ← (if 0 <? sems_count x then
               let consume := if sems_count x <? uio_resid u then sems_count x else uio_resid u in
               sem_set n (Some (with_count (u32 (sems_count x - consume)) x)) ;;
               mret (set_resid (u32 (uio_resid u - consume)) (set_offset (i64 (uio_offset u + consume)) u))
             else mret u);
        if uio_resid u =? 0 then mret u else other ;; read_loop others' n u
  end.
Definition semfs_read (others : list (SM unit)) (n : Z) (u : uio) : SM (Z * uio) := _ ← semfs_getsem n; u ← read_loop others n u; mret (0, u).

(** No other thread touches the file system for [fuel] rounds. *)
Definition alone (fuel : nat) : list (SM unit) := replicate fuel (mret tt).

(** The loop of V ends after one round.  The signals of [semfs_wakeup] go to condition variables, which are stubs. *)
Definition semfs_write (n : Z) (u : uio) : SM (Z * uio) :=
  x ← semfs_getsem n;
  if 0 <? uio_resid u then
    let newcount := u32 (sems_count x + uio_resid u) in
    if newcount <? sems_count x then mret (EFBIG, u)
    else sem_set n (Some (with_count newcount x)) ;; mret (0, set_resid 0 (set_offset (i64 (uio_offset u + uio_resid u)) u))
  else mret (0, u).

Definition semfs_truncate (n len : Z) : SM (Z + unit) :=
  if len <? 0 then mret (inl EINVAL)
  else if 0xffffffff <? len then mret (inl EFBIG)
  else put_count n len ;; mret (inr tt).

(** ** semfs_vnops.c: the directory *)

Definition dot : list Z := [46].
Definition dotdot : list Z := [46; 46].
Definition is_dots (name : list Z) : bool := bool_decide (name = dot) || bool_decide (name = dotdot).

(** The slot and the entry with the name. *)
Fixpoint find_dent (l : list (option semfs_direntry)) (name : list Z) (i : Z) : option (Z * semfs_direntry) :=
  match l with
  | [] => None
  | None :: l' => find_dent l' name (i + 1)
  | Some d :: l' => if bool_decide (semd_name d = name) then Some (i, d) else find_dent l' name (i + 1)
  end.

(** The name goes to the regions of the request; the entry at the position of the request must not be NULL. *)
Definition semfs_getdirentry (u : uio) (mm : mem) : SM (uio * mem) :=
  KASSERT (0 <=? uio_offset u) "uio->uio_offset >= 0" ;;
  let pos := u32 (uio_offset u) in
  l ← gets semfs_dents;
  if zlen l <=? pos then mret (u, mm)
  else
    o ← dent_get pos;
    d ← deref o;
    match uiomove (semd_name d) 0 (zlen (semd_name d)) u mm with Some (_, u', mm') => mret (u', mm') | None => panic "uiomove" end.

(** The result and what is stored in [*resultvn]. *)
Definition code_of (r : Z + Z) : Z * option Z := match r with inl e => (e, None) | inr v => (0, Some v) end.

Definition semfs_creat (m : semfs_mem) (name : list Z) (excl : bool) : SM (Z * option Z) :=
  if is_dots name then mret (EEXIST, None)
  else
    l ← gets semfs_dents;
    match find_dent l name 0 with
    | Some (_, d) => if excl then mret (EEXIST, None) else r ← semfs_getvnode m (semd_semnum d); mret (code_of r)
    | None =>
        match semfs_sem_create m with
        | None => mret (ENOMEM, None)
        | Some x =>
            r ← semfs_sem_insert m x;
            match r with
            | inl e => mret (e, None)
            | inr semnum =>
                match semfs_direntry_create m name semnum with
                | None => sem_set semnum None ;; mret (0, None)       (* the result is still the 0 of the insertion *)
                | Some d =>
                    r ← (match first_null l 0 with
                         | Some empty => dent_set empty (Some d) ;; mret (inr empty)
                         | None => if mm_dents m then modify (set_dents (l ++ [Some d])) ;; mret (inr (zlen l)) else mret (inl ENOMEM)
                         end);
                    match r with
                    | inl e => sem_set semnum None ;; mret (e, None)
                    | inr empty =>
                        r ← semfs_getvnode m semnum;
                        match r with
                        | inl e => dent_set empty None ;; sem_set semnum None ;; mret (e, None)
                        | inr v => x ← semfs_getsem semnum; sem_set semnum (Some (with_linked true x)) ;; mret (0, Some v)
                        end
                    end
                end
            end
        end
    end.

Definition semfs_remove (name : list Z) : SM (Z + unit) :=
  if is_dots name then mret (inl EINVAL)
  else
    l ← gets semfs_dents;
    match find_dent l name 0 with
    | None => mret (inl ENOENT)
    | Some (i, d) =>
        x ← semfs_getsem (semd_semnum d);
        KASSERT (sems_linked x) "sem->sems_linked" ;;
        sem_set (semd_semnum d) (if sems_hasvnode x then Some (with_linked false x) else None) ;;
        dent_set i None ;;
        mret (inr tt)
    end.

Definition semfs_lookup (m : semfs_mem) (path : list Z) : SM (Z + Z) :=
  if is_dots path then sem_incref SEMFS_ROOTDIR ;; mret (inr SEMFS_ROOTDIR)
  else
    l ← gets semfs_dents;
    match find_dent l path 0 with None => mret (inl ENOENT) | Some (_, d) => semfs_getvnode m (semd_semnum d) end.

Definition semfs_lookparent (path : list Z) (bufmax : Z) : SM (Z + Z * list Z) :=
  if bufmax <? zlen path + 1 then mret (inl ENAMETOOLONG) else sem_incref SEMFS_ROOTDIR ;; mret (inr (SEMFS_ROOTDIR, path)).

(** ** semfs_fsops.c *)

Definition semfs_getroot (m : semfs_mem) : SM (Z + Z) := semfs_getvnode m SEMFS_ROOTDIR.
Definition semfs_getvolname : list Z := [115; 101; 109].

(** Every slot is destroyed, the NULL ones too. *)
Fixpoint destroy_loop {S A} (l : list (option A)) : K S unit := match l with [] => mret tt | o :: l' => _ ← deref o; destroy_loop l' end.
Definition semfs_destroy : SM unit :=
  s ← gets (λ s, s);
  destroy_loop (semfs_sems s) ;; destroy_loop (semfs_dents s) ;;
  KASSERT (zlen (semfs_vnodes s) =? 0) "a->num == 0".
Definition semfs_unmount : SM (Z + unit) :=
  l ← gets semfs_vnodes; if 0 <? zlen l then mret (inl EBUSY) else semfs_destroy ;; mret (inr tt).

(** [semfs_create]: memory for the structure, its locks and its arrays. *)
Definition semfs_create (room tablelock vnodes sems dirlock dents : bool) : option semfs :=
  if room && tablelock && vnodes && sems && dirlock && dents then Some (Semfs [] [] []) else None.
