(* ===== verification/SemfsInv.v ===== *)
(** * SemfsInv: the invariant of the file system of semaphores

    A semaphore exists as long as it has a name or a vnode, and its two flags say which.  The arrays are seen as maps ([sem_at], [dent_at]);
    [name_of] is the map of names. *)

From Stdlib Require Import ZArith Lia.
From stdpp Require Import base gmap list option strings list_numbers.
From S2P Require Import Prelude Types Strings Uio Sfs SfsNode SfsNames Semfs.
Set Default Goal Selector "!".
Open Scope Z_scope.

Implicit Types s : semfs.

(** ** Arrays with free slots *)

Definition slot_at {A} (l : list (option A)) (i : Z) : option A := default None (arr_get l i).

Lemma slot_at_range {A} (l : list (option A)) i a : slot_at l i = Some a → 0 ≤ i < zlen l ∧ arr_get l i = Some (Some a).
Proof. unfold slot_at. destruct (arr_get l i) as [o|] eqn:E; [|done]. cbn. intros ->. split; [by apply arr_get_range in E|done]. Qed.

Lemma slot_at_set {A} (l : list (option A)) i o j : 0 ≤ i < zlen l → slot_at (arr_set l i o) j = if decide (j = i) then o else slot_at l j.
Proof. intros Hi. unfold slot_at. rewrite arr_get_set by done. destruct (decide (i = j)), (decide (j = i)); naive_solver. Qed.

Lemma slot_at_snoc {A} (l : list (option A)) o j : slot_at (l ++ [o]) j = if decide (j = zlen l) then o else slot_at l j.
Proof.
  unfold slot_at. destruct (Z.ltb_spec j 0); [rewrite !arr_get_neg by done; by rewrite decide_False by lia|]. rewrite !arr_get_nonneg by done.
  case_decide as Hj.
  - subst j. rewrite lookup_app_r, Nat2Z.id, Nat.sub_diag by lia. done.
  - destruct (decide (Z.to_nat j < length l)%nat); [by rewrite lookup_app_l|]. rewrite lookup_app_r, (lookup_ge_None_2 l) by lia.
    rewrite lookup_ge_None_2; [done|]. cbn. lia.
Qed.

Lemma first_null_spec {A} (l : list (option A)) k i : first_null l k = Some i → 0 ≤ i - k < zlen l ∧ arr_get l (i - k) = Some None.
Proof.
  revert k. induction l as [|o l IH]; intros k; cbn [first_null]; [done|]. destruct o as [a|].
  - intros [H1 H2]%IH. cbn [length]. split; [lia|]. rewrite arr_get_tl by lia. by replace (i - k - 1) with (i - (k + 1)) by lia.
  - intros [= ->]. rewrite Z.sub_diag. split; [cbn; lia|done].
Qed.

Lemma set_length {A} (l : list A) i a : zlen (arr_set l i a) = zlen l.
Proof. unfold arr_set. destruct (0 <=? i); [|done]. by rewrite length_insert. Qed.

(** An object is put in a free slot. *)
Lemma slot_put {A} (l : list (option A)) a :
  ∃ i l', (l' = l ++ [Some a] ∧ i = zlen l ∧ first_null l 0 = None ∨ l' = arr_set l i (Some a) ∧ first_null l 0 = Some i) ∧
    0 ≤ i < zlen l' ∧ slot_at l i = None ∧ ∀ j, slot_at l' j = if decide (j = i) then Some a else slot_at l j.
Proof.
  destruct (first_null l 0) as [i|] eqn:E.
  - destruct (first_null_spec l 0 i E) as [Hi Hg]. rewrite Z.sub_0_r in *. exists i, (arr_set l i (Some a)). split; [by right|]. rewrite set_length.
    split; [done|]. split; [unfold slot_at; by rewrite Hg|]. intros j. by apply slot_at_set.
  - exists (zlen l), (l ++ [Some a]). split; [by left|]. rewrite length_app. cbn [length]. split; [lia|]. split; [|apply slot_at_snoc].
    unfold slot_at. rewrite arr_get_nonneg, Nat2Z.id, lookup_ge_None_2 by lia. done.
Qed.

Definition sem_at s (n : Z) : option semfs_sem := slot_at (semfs_sems s) n.
Definition dent_at s (i : Z) : option semfs_direntry := slot_at (semfs_dents s) i.
Definition name_of s (nm : list Z) : option Z := (λ p, semd_semnum (snd p)) <$> find_dent (semfs_dents s) nm 0.
Definition srefs s (n : Z) : Z := match List.find (λ t, tn_ino t =? n) (semfs_vnodes s) with Some t => vn_refcount t | None => 0 end.
Definition has_vnode s (n : Z) : Prop := n ∈ tn_ino <$> semfs_vnodes s.

Record semfs_ok s : Prop := {
  sk_nodup : NoDup (tn_ino <$> semfs_vnodes s);
  sk_refs : ∀ t, t ∈ semfs_vnodes s → 0 < vn_refcount t;
  sk_vnode : ∀ n, has_vnode s n → n = SEMFS_ROOTDIR ∨ is_Some (sem_at s n);
  sk_has : ∀ n x, sem_at s n = Some x → sems_hasvnode x = true ↔ has_vnode s n;
  sk_linked : ∀ n x, sem_at s n = Some x → sems_linked x = true ↔ ∃ i d, dent_at s i = Some d ∧ semd_semnum d = n;
  sk_live : ∀ n x, sem_at s n = Some x → sems_hasvnode x = true ∨ sems_linked x = true;
  sk_count : ∀ n x, sem_at s n = Some x → 0 ≤ sems_count x < 2 ^ 32;
  sk_dent : ∀ i d, dent_at s i = Some d → is_Some (sem_at s (semd_semnum d));
  sk_name : ∀ i j d e, dent_at s i = Some d → dent_at s j = Some e → semd_name d = semd_name e ∨ semd_semnum d = semd_semnum e → i = j;
  sk_size : zlen (semfs_sems s) ≤ SEMFS_ROOTDIR;
}.

Lemma find_dent_spec l nm k i d : find_dent l nm k = Some (i, d) → slot_at l (i - k) = Some d ∧ semd_name d = nm.
Proof.
  revert k. induction l as [|o l IH]; intros k; cbn [find_dent]; [done|].
  assert (Hrec : find_dent l nm (k + 1) = Some (i, d) → slot_at (o :: l) (i - k) = Some d ∧ semd_name d = nm).
  { intros [H1 H2]%IH. split; [|done]. pose proof (slot_at_range _ _ _ H1) as [Hr _]. unfold slot_at in *. rewrite arr_get_tl by lia.
    by replace (i - k - 1) with (i - (k + 1)) by lia. }
  destruct o as [e|]; [|done]. case_bool_decide; [|done]. intros [= <- <-]. by rewrite Z.sub_diag.
Qed.

Lemma find_dent_none l nm k i d : find_dent l nm k = None → slot_at l i = Some d → semd_name d ≠ nm.
Proof.
  revert k i. induction l as [|o l IH]; intros k i; cbn [find_dent].
  - intros _ [? _]%slot_at_range. cbn in *. lia.
  - intros Hf Hs. pose proof (slot_at_range _ _ _ Hs) as [Hr Hg]. destruct (decide (i = 0)) as [->|Hi].
    + injection Hg as ->. by case_bool_decide.
    + apply (IH (k + 1) (i - 1)); [destruct o as [e|]; [by case_bool_decide|done]|]. unfold slot_at in *. by rewrite arr_get_tl in Hs by lia.
Qed.

(** The map of names, through the entries. *)
Lemma name_of_spec s nm n : semfs_ok s → name_of s nm = Some n ↔ ∃ i, dent_at s i = Some (SemfsDirentry nm n).
Proof.
  intros Hok. unfold name_of. destruct (find_dent (semfs_dents s) nm 0) as [[i d]|] eqn:E; cbn.
  - destruct (find_dent_spec _ _ _ _ _ E) as [Hd Hnm]. rewrite Z.sub_0_r in Hd. split.
    + intros [= <-]. exists i. rewrite <- Hnm. by destruct d.
    + intros [j Hj]. assert (i = j) as <- by (eapply (sk_name _ Hok); [exact Hd|exact Hj|by left]). unfold dent_at in Hj. rewrite Hd in Hj. injection Hj as ->. done.
  - split; [done|]. intros [j Hj]. by destruct (find_dent_none _ _ _ _ _ E Hj).
Qed.

Lemma name_of_ext s s' : semfs_ok s → semfs_ok s' → (∀ i, dent_at s' i = dent_at s i) → ∀ nm, name_of s' nm = name_of s nm.
Proof.
  intros Hok Hok' E nm. apply option_eq. intros n. rewrite !name_of_spec by done. by setoid_rewrite E.
Qed.

Lemma srefs_pos s n : semfs_ok s → 0 < srefs s n ↔ has_vnode s n.
Proof.
  intros Hok. unfold srefs, has_vnode. rewrite list_elem_of_fmap. split.
  - destruct (List.find _ _) as [t|] eqn:E; [|lia]. intros _. apply List.find_some in E as [E1 E2%Z.eqb_eq]. exists t. split; [done|by apply list_elem_of_In].
  - intros (t & -> & Ht). assert (Hf : List.find (λ u, tn_ino u =? tn_ino t) (semfs_vnodes s) = Some t) by (by apply (find_in _ _ (sk_nodup _ Hok))).
    rewrite Hf. by apply (sk_refs _ Hok).
Qed.

Lemma srefs_zero s n : semfs_ok s → ¬ has_vnode s n → List.find (λ t, tn_ino t =? n) (semfs_vnodes s) = None ∧ srefs s n = 0.
Proof.
  intros Hok Hn. unfold srefs. destruct (List.find _ _) as [t|] eqn:E; [|done]. apply List.find_some in E as [E1 E2%Z.eqb_eq].
  exfalso. apply Hn. unfold has_vnode. apply list_elem_of_fmap. exists t. split; [done|by apply list_elem_of_In].
Qed.

(** ** Steps *)

Lemma run_sem_get {B} (f : option semfs_sem → K semfs B) s n x : sem_at s n = Some x → mbind f (sem_get n) s = f (Some x) s.
Proof. intros [_ H]%slot_at_range. unfold sem_get. rewrite run_assoc, run_gets. by rewrite (run_index_bind _ _ _ _ _ H). Qed.

Lemma run_getsem {B} (f : semfs_sem → K semfs B) s n x : sem_at s n = Some x → mbind f (semfs_getsem n) s = f x s.
Proof. intros H. unfold semfs_getsem. rewrite run_assoc, (run_sem_get _ _ _ _ H). by rewrite (run_deref _ _ x). Qed.

Definition upd_sem (n : Z) (o : option semfs_sem) s : semfs := set_sems (arr_set (semfs_sems s) n o) s.
Definition upd_dent (i : Z) (o : option semfs_direntry) s : semfs := set_dents (arr_set (semfs_dents s) i o) s.

Lemma run_sem_set {B} (f : unit → K semfs B) s n o : 0 ≤ n < zlen (semfs_sems s) → mbind f (sem_set n o) s = f tt (upd_sem n o s).
Proof. intros H. unfold sem_set, array_set. rewrite run_assoc, run_gets, run_assoc, run_assert; [done|]. apply andb_true_iff. split; [apply Z.leb_le|apply Z.ltb_lt]; lia. Qed.

Lemma run_dent_set {B} (f : unit → K semfs B) s i o : 0 ≤ i < zlen (semfs_dents s) → mbind f (dent_set i o) s = f tt (upd_dent i o s).
Proof. intros H. unfold dent_set, array_set. rewrite run_assoc, run_gets, run_assoc, run_assert; [done|]. apply andb_true_iff. split; [apply Z.leb_le|apply Z.ltb_lt]; lia. Qed.

Lemma sem_at_upd s n o j : 0 ≤ n < zlen (semfs_sems s) → sem_at (upd_sem n o s) j = if decide (j = n) then o else sem_at s j.
Proof. apply slot_at_set. Qed.
Lemma dent_at_upd s i o j : 0 ≤ i < zlen (semfs_dents s) → dent_at (upd_dent i o s) j = if decide (j = i) then o else dent_at s j.
Proof. apply slot_at_set. Qed.

Lemma sem_range s n x : semfs_ok s → sem_at s n = Some x → 0 ≤ n < zlen (semfs_sems s) ∧ n ≠ SEMFS_ROOTDIR.
Proof. intros Hok [H _]%slot_at_range. pose proof (sk_size _ Hok). split; [done|lia]. Qed.

Lemma run_sem_find s n : semfs_ok s → 0 < srefs s n →
  ∃ t, vn_refcount t = srefs s n ∧ is_Some (List.find (λ t, tn_ino t =? n) (semfs_vnodes s)) ∧ sem_find n s = Ret t s.
Proof.
  intros Hok Hr. unfold srefs in *. destruct (List.find _ _) as [t|] eqn:E; [|lia]. exists t. split; [done|]. split; [done|].
  unfold sem_find. rewrite run_gets. by rewrite E.
Qed.

(** A change of the count of references. *)
Definition with_srefs (n r : Z) s : semfs := set_sem_vnodes (set_refs n r (semfs_vnodes s)) s.

Lemma with_srefs_ok n r s : semfs_ok s → 0 < r → semfs_ok (with_srefs n r s).
Proof.
  intros [K1 K2 K3 K4 K5 K6 K7 K8 K9 K10] Hr.
  assert (E : ∀ k, has_vnode (with_srefs n r s) k ↔ has_vnode s k) by (intros k; unfold has_vnode; cbn; by rewrite inos_set_refs).
  split; [cbn; by rewrite inos_set_refs| |intros k; rewrite E; apply K3|intros k x; rewrite E; apply K4|done..].
  intros t (u & -> & Hu)%list_elem_of_fmap. destruct (tn_ino u =? n); [done|by apply K2].
Qed.

Lemma srefs_with n r s k : is_Some (List.find (λ t, tn_ino t =? n) (semfs_vnodes s)) → srefs (with_srefs n r s) k = if decide (k = n) then r else srefs s k.
Proof.
  intros Hx. unfold srefs, with_srefs. cbn [set_sem_vnodes semfs_vnodes]. rewrite find_set_refs. destruct (decide (k = n)) as [->|Hne].
  - destruct Hx as [t Ht]. rewrite Ht. cbn. apply List.find_some in Ht as [_ ->]. done.
  - destruct (List.find (λ t, tn_ino t =? k) (semfs_vnodes s)) as [t|] eqn:E; [|done]. cbn. apply List.find_some in E as [_ E%Z.eqb_eq].
    by rewrite (proj2 (Z.eqb_neq _ _)) by congruence.
Qed.

(** The state is seen only through the maps. *)
Lemma semfs_ok_view s s' :
  semfs_ok s → semfs_vnodes s' = semfs_vnodes s → (∀ n, sem_at s' n = sem_at s n) → (∀ i, dent_at s' i = dent_at s i) → zlen (semfs_sems s') ≤ SEMFS_ROOTDIR →
  semfs_ok s'.
Proof.
  intros [K1 K2 K3 K4 K5 K6 K7 K8 K9 K10] Ev Es Ed Hz. assert (Eh : ∀ k, has_vnode s' k ↔ has_vnode s k) by (intros k; unfold has_vnode; by rewrite Ev).
  split; [by rewrite Ev|by rewrite Ev|intros n; rewrite Es, Eh; apply K3|intros n x; rewrite Es, Eh; apply K4| |intros n x; rewrite Es; apply K6|intros n x; rewrite Es; apply K7| | |done].
  - intros n x Hx. rewrite Es in Hx. rewrite (K5 n x Hx). by setoid_rewrite Ed.
  - intros i d. rewrite Es, Ed. apply K8.
  - intros i j d e. rewrite !Ed. apply K9.
Qed.

(** The count of a semaphore changes. *)
Lemma count_ok s n x c : semfs_ok s → sem_at s n = Some x → 0 ≤ c < 2 ^ 32 → semfs_ok (upd_sem n (Some (with_count c x)) s).
Proof.
  intros Hok Hx Hc. pose proof (sem_range s n x Hok Hx) as [Hn _]. pose proof Hok as [K1 K2 K3 K4 K5 K6 K7 K8 K9 K10]. set (s' := upd_sem n _ s).
  assert (Ea : ∀ k y, sem_at s' k = Some y → ∃ z, sem_at s k = Some z ∧ sems_hasvnode y = sems_hasvnode z ∧ sems_linked y = sems_linked z ∧ 0 ≤ sems_count y < 2 ^ 32).
  { intros k y. unfold s'. rewrite sem_at_upd by done. case_decide as Hk; [intros [= <-]; subst k; by exists x|]. intros Hy. exists y. pose proof (K7 k y Hy). naive_solver. }
  assert (Eb : ∀ k, is_Some (sem_at s k) → is_Some (sem_at s' k)) by (intros k Hk; unfold s'; rewrite sem_at_upd by done; by case_decide).
  split; [done|done| | | | | | |done|cbn; by rewrite set_length].
  - intros k Hk. destruct (K3 k Hk); [by left|right; by apply Eb].
  - intros k y (z & Hz & -> & _)%Ea. by apply K4.
  - intros k y (z & Hz & _ & -> & _)%Ea. by apply K5.
  - intros k y (z & Hz & -> & -> & _)%Ea. by apply (K6 k).
  - by intros k y (z & _ & _ & _ & Hy)%Ea.
  - intros i d Hi. apply Eb. by apply (K8 i).
Qed.

(** ** Vnodes come and go *)

(** [s'] has one vnode more, of [n], and otherwise the same references. *)
Lemma snoc_vnode s s' n : semfs_ok s → ¬ has_vnode s n → semfs_vnodes s' = semfs_vnodes s ++ [Tnode n 1] →
  NoDup (tn_ino <$> semfs_vnodes s') ∧ (∀ t, t ∈ semfs_vnodes s' → 0 < vn_refcount t) ∧ (∀ k, has_vnode s' k ↔ has_vnode s k ∨ k = n) ∧
  ∀ k, srefs s' k = if decide (k = n) then srefs s k + 1 else srefs s k.
Proof.
  intros Hok Hn E. pose proof (srefs_zero s n Hok Hn) as [Hf Hz]. unfold has_vnode, srefs in *. rewrite E, fmap_app. cbn. split_and!.
  - apply NoDup_app. split_and!; [apply Hok| |apply NoDup_singleton]. intros k Hk ->%list_elem_of_singleton. done.
  - intros t [Ht| ->%list_elem_of_singleton]%elem_of_app; [by apply (sk_refs _ Hok)|done].
  - intros k. rewrite elem_of_app, list_elem_of_singleton. done.
  - intros k. rewrite find_snoc. cbn [tn_ino]. case_decide as Hk; [subst k; rewrite Hf, Z.eqb_refl; cbn; lia|].
    destruct (List.find (λ t, tn_ino t =? k) (semfs_vnodes s)); [done|]. by rewrite (proj2 (Z.eqb_neq n k)) by congruence.
Qed.

Definition one_more s s' (n : Z) : Prop := ∀ k, srefs s' k = if decide (k = n) then srefs s k + 1 else srefs s k.

Lemma load_ok s s' n :
  semfs_ok s → ¬ has_vnode s n → semfs_vnodes s' = semfs_vnodes s ++ [Tnode n 1] → (∀ i, dent_at s' i = dent_at s i) →
  n = SEMFS_ROOTDIR ∨ is_Some (sem_at s n) → (∀ k, sem_at s' k = if decide (k = n) then with_hasvnode true <$> sem_at s k else sem_at s k) →
  zlen (semfs_sems s') = zlen (semfs_sems s) → semfs_ok s' ∧ one_more s s' n.
Proof.
  intros Hok Hn Ev Ed Hs Es Ez. destruct (snoc_vnode s s' n Hok Hn Ev) as (N1 & N2 & N3 & N4). pose proof Hok as [K1 K2 K3 K4 K5 K6 K7 K8 K9 K10].
  assert (Ea : ∀ k y, sem_at s' k = Some y → ∃ z, sem_at s k = Some z ∧ sems_linked y = sems_linked z ∧ sems_count y = sems_count z ∧
    sems_hasvnode y = if decide (k = n) then true else sems_hasvnode z).
  { intros k y. rewrite Es. case_decide as Hk; [intros (z & -> & ->)%fmap_Some; by exists z|]. intros Hy. by exists y. }
  assert (Eb : ∀ k, is_Some (sem_at s k) → is_Some (sem_at s' k)) by (intros k Hk; rewrite Es; case_decide; [by apply fmap_is_Some|done]).
  split; [|exact N4]. split; [done|done| | | | | | | |by rewrite Ez].
  - intros k [Hk| ->]%N3; [destruct (K3 k Hk); [by left|right; by apply Eb]|]. destruct Hs; [by left|right; by apply Eb].
  - intros k y (z & Hz & _ & _ & ->)%Ea. rewrite N3. case_decide as Hk; [naive_solver|]. rewrite (K4 k z Hz). naive_solver.
  - intros k y (z & Hz & -> & _)%Ea. rewrite (K5 k z Hz). by setoid_rewrite Ed.
  - intros k y (z & Hz & -> & _ & ->)%Ea. destruct (K6 k z Hz); [left; by case_decide|by right].
  - intros k y (z & Hz & _ & -> & _)%Ea. by apply (K7 k).
  - intros i d. rewrite Ed. intros Hd. apply Eb. by apply (K8 i).
  - intros i j d e. rewrite !Ed. apply K9.
Qed.

Lemma unload_ok s s' n :
  semfs_ok s → semfs_vnodes s' = remove_ino n (semfs_vnodes s) → (∀ i, dent_at s' i = dent_at s i) → has_vnode s n →
  (∀ k, sem_at s' k = if decide (k = n) then x ← sem_at s k; if sems_linked x then Some (with_hasvnode false x) else None else sem_at s k) →
  zlen (semfs_sems s') = zlen (semfs_sems s) → semfs_ok s' ∧ ∀ k, srefs s' k = if decide (k = n) then 0 else srefs s k.
Proof.
  intros Hok Ev Ed Hv Es Ez. pose proof Hok as [K1 K2 K3 K4 K5 K6 K7 K8 K9 K10].
  assert (N3 : ∀ k, has_vnode s' k ↔ has_vnode s k ∧ k ≠ n) by (intros k; unfold has_vnode; rewrite Ev; by apply inos_remove).
  assert (Ea : ∀ k y, sem_at s' k = Some y → ∃ z, sem_at s k = Some z ∧ sems_linked y = sems_linked z ∧ sems_count y = sems_count z ∧
    sems_hasvnode y = (if decide (k = n) then false else sems_hasvnode z) ∧ (k = n → sems_linked z = true)).
  { intros k y. rewrite Es. case_decide as Hk; [|intros Hy; by exists y]. destruct (sem_at s k) as [z|]; [|done]. cbn.
    destruct (sems_linked z) eqn:El; [|done]. intros [= <-]. exists z. done. }
  split.
  - split; [rewrite Ev; eapply sublist_NoDup; [exact K1|apply fmap_sublist, remove_sub]| | | | | | | | |by rewrite Ez].
    + intros t. rewrite Ev. intros Ht. apply K2. by eapply elem_of_sublist; [|apply remove_sub].
    + intros k [Hk Hkn]%N3. rewrite Es, decide_False by done. by apply K3.
    + intros k y (z & Hz & _ & _ & -> & _)%Ea. rewrite N3. case_decide as Hk; [naive_solver|]. rewrite (K4 k z Hz). naive_solver.
    + intros k y (z & Hz & -> & _)%Ea. rewrite (K5 k z Hz). by setoid_rewrite Ed.
    + intros k y (z & Hz & -> & _ & -> & Hl)%Ea. case_decide as Hk; [right; by apply Hl|by apply (K6 k)].
    + intros k y (z & Hz & _ & -> & _)%Ea. by apply (K7 k).
    + intros i d. rewrite Ed. intros Hd. destruct (K8 i d Hd) as [x Hx]. rewrite Es. case_decide as Hk; [|by exists x].
      rewrite Hx. cbn. rewrite (proj2 (K5 _ x Hx)); [done|]. by exists i, d.
    + intros i j d e. rewrite !Ed. apply K9.
  - intros k. unfold srefs. rewrite Ev, find_remove by done. by case_decide.
Qed.

(** ** Semaphores come and go *)

Lemma create_ok s s' n i nm :
  semfs_ok s → sem_at s n = None → dent_at s i = None → (∀ j d, dent_at s j = Some d → semd_name d ≠ nm) → n ≠ SEMFS_ROOTDIR →
  semfs_vnodes s' = semfs_vnodes s ++ [Tnode n 1] → (∀ k, sem_at s' k = if decide (k = n) then Some (SemfsSem 0 true true) else sem_at s k) →
  (∀ j, dent_at s' j = if decide (j = i) then Some (SemfsDirentry nm n) else dent_at s j) → zlen (semfs_sems s') ≤ SEMFS_ROOTDIR →
  semfs_ok s' ∧ one_more s s' n.
Proof.
  intros Hok Hn Hi Hnm Hroot Ev Es Ed Ez. pose proof Hok as [K1 K2 K3 K4 K5 K6 K7 K8 K9 K10].
  assert (Hv : ¬ has_vnode s n) by (intros [?|[x Hx]]%K3; [done|congruence]).
  destruct (snoc_vnode s s' n Hok Hv Ev) as (N1 & N2 & N3 & N4).
  assert (Hdn : ∀ j d, dent_at s j = Some d → semd_semnum d ≠ n) by (intros j d Hj E; destruct (K8 j d Hj) as [x Hx]; congruence).
  split; [|exact N4]. split; [done|done| | | | | | | |done].
  - intros k. rewrite N3, Es. intros [Hk| ->]; [|rewrite decide_True by done; by right]. case_decide; [by right|by apply K3].
  - intros k x. rewrite Es, N3. case_decide as Hk; [intros [= <-]; naive_solver|]. intros Hx. rewrite (K4 k x Hx). naive_solver.
  - intros k x. rewrite Es. case_decide as Hk.
    + subst k. intros [= <-]. split; [|done]. intros _. exists i, (SemfsDirentry nm n). by rewrite Ed, decide_True.
    + intros Hx. rewrite (K5 k x Hx). split; intros (j & d & Hj & <-); exists j, d; (split; [|done]).
      * rewrite Ed, decide_False; [done|]. intros ->. congruence.
      * rewrite Ed in Hj. case_decide; [injection Hj as <-; done|done].
  - intros k x. rewrite Es. case_decide; [intros [= <-]; by left|apply K6].
  - intros k x. rewrite Es. case_decide; [intros [= <-]; cbn; lia|apply K7].
  - intros j d. rewrite Ed, Es. case_decide; [intros [= <-]; cbn; by rewrite decide_True|]. intros Hj. rewrite decide_False by (by apply (Hdn j)). by apply (K8 j).
  - intros j k d e. rewrite !Ed. intros Hd He Hor. destruct (decide (j = i)) as [->|Hji], (decide (k = i)) as [->|Hki]; [done| | |by eapply K9].
    + injection Hd as <-. destruct Hor as [E|E]; [by destruct (Hnm k e He)|by destruct (Hdn k e He)].
    + injection He as <-. destruct Hor as [E|E]; [by destruct (Hnm j d Hd)|by destruct (Hdn j d Hd)].
Qed.

Lemma unlink_ok s s' i d :
  semfs_ok s → dent_at s i = Some d → semfs_vnodes s' = semfs_vnodes s →
  (∀ k, sem_at s' k = if decide (k = semd_semnum d) then x ← sem_at s k; if sems_hasvnode x then Some (with_linked false x) else None else sem_at s k) →
  (∀ j, dent_at s' j = if decide (j = i) then None else dent_at s j) → zlen (semfs_sems s') = zlen (semfs_sems s) → semfs_ok s'.
Proof.
  intros Hok Hi Ev Es Ed Ez. pose proof Hok as [K1 K2 K3 K4 K5 K6 K7 K8 K9 K10].
  assert (N3 : ∀ k, has_vnode s' k ↔ has_vnode s k) by (intros k; unfold has_vnode; by rewrite Ev).
  assert (Ea : ∀ k y, sem_at s' k = Some y → ∃ z, sem_at s k = Some z ∧ sems_hasvnode y = sems_hasvnode z ∧ sems_count y = sems_count z ∧
    sems_linked y = (if decide (k = semd_semnum d) then false else sems_linked z) ∧ (k = semd_semnum d → sems_hasvnode z = true)).
  { intros k y. rewrite Es. case_decide as Hk; [|intros Hy; by exists y]. destruct (sem_at s k) as [z|]; [|done]. cbn.
    destruct (sems_hasvnode z) eqn:El; [|done]. intros [= <-]. exists z. done. }
  split; [by rewrite Ev|by rewrite Ev| | | | | | | |by rewrite Ez].
  - intros k Hk%N3. destruct (K3 k Hk) as [|[x Hx]]; [by left|right]. rewrite Es. case_decide; [|by exists x]. rewrite Hx. cbn. by rewrite (proj2 (K4 k x Hx)).
  - intros k y (z & Hz & -> & _)%Ea. rewrite N3. by apply K4.
  - intros k y (z & Hz & _ & _ & -> & _)%Ea. setoid_rewrite Ed. case_decide as Hk.
    + split; [done|]. intros (j & e & Hj & He). case_decide; [done|]. assert (j = i) by (eapply K9; [exact Hj|exact Hi|right; congruence]). done.
    + rewrite (K5 k z Hz). split; intros (j & e & Hj & He); exists j, e; (split; [|done]); [|by case_decide]. case_decide; [congruence|done].
  - intros k y (z & Hz & -> & _ & -> & Hl)%Ea. case_decide as Hk; [left; by apply Hl|by apply (K6 k)].
  - intros k y (z & Hz & _ & -> & _)%Ea. by apply (K7 k).
  - intros j e. rewrite Ed. case_decide as Hj; [done|]. intros He. destruct (K8 j e He) as [x Hx]. rewrite Es. case_decide as Hk; [|by exists x].
    exfalso. apply Hj. eapply K9; [exact He|exact Hi|by right].
  - intros j k e f. rewrite !Ed. case_decide; [done|]. case_decide; [done|]. apply K9.
Qed.
