(* ===== verification/SemfsCalls.v ===== *)
(** * SemfsCalls: the calls of the file system of semaphores

    The file system implements a map of names to semaphores, which exist as long as they have a name or are open. *)

From Stdlib Require Import ZArith Lia.
From stdpp Require Import base gmap list option strings list_numbers.
From S2P Require Import Prelude Types Strings Uio Sfs SfsNode SfsNames Semfs SemfsInv.
Set Default Goal Selector "!".
Open Scope Z_scope.

Implicit Types s : semfs.

(** ** The abstract state: names, counts of the semaphores that exist, references *)

Record sem_state := SemState {
  ab_name : list Z → option Z;
  ab_count : Z → option Z;
  ab_refs : Z → Z;
}.

#[export] Instance sem_state_equiv : Equiv sem_state := λ A B,
  (∀ nm, ab_name A nm = ab_name B nm) ∧ (∀ n, ab_count A n = ab_count B n) ∧ ∀ n, ab_refs A n = ab_refs B n.

#[export] Instance sem_state_equivalence : Equivalence (≡@{sem_state}).
Proof.
  split.
  - intros A. by split.
  - intros A B (H1 & H2 & H3). by split_and!.
  - intros A B C (A1 & A2 & A3) (B1 & B2 & B3). split_and!; intros; by rewrite ?A1, ?A2, ?A3.
Qed.

Definition ab_open (n d : Z) (A : sem_state) : sem_state := SemState (ab_name A) (ab_count A) (λ k, if decide (k = n) then ab_refs A k + d else ab_refs A k).
Definition ab_set_name (nm : list Z) (o : option Z) (A : sem_state) : sem_state := SemState (λ x, if decide (x = nm) then o else ab_name A x) (ab_count A) (ab_refs A).
Definition ab_set_count (n : Z) (o : option Z) (A : sem_state) : sem_state := SemState (ab_name A) (λ k, if decide (k = n) then o else ab_count A k) (ab_refs A).

(** A semaphore without name and vnode is destroyed. *)
Definition ab_unused (n : Z) (A : sem_state) : Prop := ab_refs A n = 0 ∧ ∀ nm, ab_name A nm ≠ Some n.
Definition ab_collect (n : Z) (A B : sem_state) : Prop := ab_unused n A ∧ B ≡ ab_set_count n None A ∨ ¬ ab_unused n A ∧ B ≡ A.

Inductive sem_call :=
  | SLookup (name : list Z)
  | SCreat (name : list Z) (excl : bool)
  | SRemove (name : list Z)
  | SClose (n : Z)
  | SRead (n : Z) (u : uio)
  | SWrite (n : Z) (u : uio)
  | STruncate (n len : Z).

(** [RNothing]: the call reports success without a result. *)
Inductive sem_result := RVnode (n : Z) | RDone | RUio (u : uio) | RErr (e : Z) | RNothing.

Definition of_sum {A} (f : A → sem_result) (r : Z + A) : sem_result := match r with inl e => RErr e | inr a => f a end.
Definition of_code {A} (f : A → sem_result) (r : Z * A) : sem_result := if fst r =? 0 then f (snd r) else RErr (fst r).

Definition semfs_do (m : semfs_mem) (fuel : nat) (c : sem_call) : K semfs sem_result :=
  match c with
  | SLookup name => r ← semfs_lookup m name; mret (of_sum RVnode r)
  | SCreat name excl => r ← semfs_creat m name excl; mret (of_code (from_option RVnode RNothing) r)
  | SRemove name => r ← semfs_remove name; mret (of_sum (λ _, RDone) r)
  | SClose n => sem_decref n ;; mret RDone
  | SRead n u => r ← semfs_read (alone fuel) n u; mret (of_code RUio r)
  | SWrite n u => r ← semfs_write n u; mret (of_code RUio r)
  | STruncate n len => r ← semfs_truncate n len; mret (of_sum (λ _, RDone) r)
  end.

(** The request after [k] bytes. *)
Definition uio_took (k : Z) (u : uio) : uio := if k =? 0 then u else set_resid (uio_resid u - k) (set_offset (i64 (uio_offset u + k)) u).

Lemma took_pos k u : 0 < k → uio_took k u = set_resid (uio_resid u - k) (set_offset (i64 (uio_offset u + k)) u).
Proof. intros Hk. unfold uio_took. by rewrite (proj2 (Z.eqb_neq k 0)) by lia. Qed.

(** Memory that is not there: for the vnode, or for any part of a new semaphore but its directory entry. *)
Definition no_vnode_memory (m : semfs_mem) : Prop := mm_vnode m = false ∨ mm_vnodes m = false.
Definition short (m : semfs_mem) : Prop :=
  mm_sem m && mm_lock m && mm_cv m = false ∨ mm_sems m = false ∨ mm_dents m = false ∨ no_vnode_memory m.

Inductive sem_step (m : semfs_mem) (A : sem_state) : sem_call → sem_result → sem_state → Prop :=
  | st_dots_lookup nm B : is_dots nm = true → B ≡ ab_open SEMFS_ROOTDIR 1 A → sem_step m A (SLookup nm) (RVnode SEMFS_ROOTDIR) B
  | st_lookup nm n B : is_dots nm = false → ab_name A nm = Some n → B ≡ ab_open n 1 A → sem_step m A (SLookup nm) (RVnode n) B
  | st_lookup_none nm B : is_dots nm = false → ab_name A nm = None → B ≡ A → sem_step m A (SLookup nm) (RErr ENOENT) B
  | st_dots_creat nm ex B : is_dots nm = true → B ≡ A → sem_step m A (SCreat nm ex) (RErr EEXIST) B
  | st_creat nm ex n B : is_dots nm = false → ab_name A nm = None → ab_count A n = None → ab_unused n A →
      B ≡ ab_open n 1 (ab_set_name nm (Some n) (ab_set_count n (Some 0) A)) → sem_step m A (SCreat nm ex) (RVnode n) B
  | st_creat_open nm n B : is_dots nm = false → ab_name A nm = Some n → B ≡ ab_open n 1 A → sem_step m A (SCreat nm false) (RVnode n) B
  | st_creat_excl nm n B : is_dots nm = false → ab_name A nm = Some n → B ≡ A → sem_step m A (SCreat nm true) (RErr EEXIST) B
  | st_dots_remove nm B : is_dots nm = true → B ≡ A → sem_step m A (SRemove nm) (RErr EINVAL) B
  | st_remove nm n B : is_dots nm = false → ab_name A nm = Some n → ab_collect n (ab_set_name nm None A) B → sem_step m A (SRemove nm) RDone B
  | st_remove_none nm B : is_dots nm = false → ab_name A nm = None → B ≡ A → sem_step m A (SRemove nm) (RErr ENOENT) B
  | st_close n B : ab_collect n (ab_open n (-1) A) B → sem_step m A (SClose n) RDone B
  | st_read n u c B : ab_count A n = Some c → B ≡ ab_set_count n (Some (c - uio_resid u)) A → sem_step m A (SRead n u) (RUio (uio_took (uio_resid u) u)) B
  | st_write n u c B : ab_count A n = Some c → c + uio_resid u < 2 ^ 32 → B ≡ ab_set_count n (Some (c + uio_resid u)) A →
      sem_step m A (SWrite n u) (RUio (uio_took (uio_resid u) u)) B
  | st_write_big n u c B : ab_count A n = Some c → 2 ^ 32 ≤ c + uio_resid u → B ≡ A → sem_step m A (SWrite n u) (RErr EFBIG) B
  | st_truncate n len B : 0 ≤ len < 2 ^ 32 → B ≡ ab_set_count n (Some len) A → sem_step m A (STruncate n len) RDone B
  | st_truncate_bad n len e B : e = EINVAL ∧ len < 0 ∨ e = EFBIG ∧ 2 ^ 32 ≤ len → B ≡ A → sem_step m A (STruncate n len) (RErr e) B
  | st_lookup_memory nm n B : is_dots nm = false → ab_name A nm = Some n → no_vnode_memory m → B ≡ A → sem_step m A (SLookup nm) (RErr ENOMEM) B
  | st_open_memory nm n B : is_dots nm = false → ab_name A nm = Some n → no_vnode_memory m → B ≡ A → sem_step m A (SCreat nm false) (RErr ENOMEM) B
  | st_creat_memory nm ex B : is_dots nm = false → ab_name A nm = None → short m → B ≡ A → sem_step m A (SCreat nm ex) (RErr ENOMEM) B
  | st_full nm ex B : is_dots nm = false → ab_name A nm = None → B ≡ A → sem_step m A (SCreat nm ex) (RErr ENOSPC) B
  | st_lost nm ex B : is_dots nm = false → ab_name A nm = None → mm_dent m && mm_name m = false → B ≡ A → sem_step m A (SCreat nm ex) RNothing B.

Definition abs s : sem_state := SemState (name_of s) (λ n, sems_count <$> sem_at s n) (srefs s).

(** The directory is open; so is what is closed, read or written; a read can be done without waiting. *)
Definition sem_call_ok s (c : sem_call) : Prop :=
  match c with
  | SLookup _ | SCreat _ _ | SRemove _ => 0 < srefs s SEMFS_ROOTDIR
  | SClose n => 0 < srefs s n
  | SRead n u => ∃ x, sem_at s n = Some x ∧ 0 ≤ uio_resid u ≤ sems_count x
  | SWrite n u => is_Some (sem_at s n) ∧ 0 ≤ uio_resid u < 2 ^ 32
  | STruncate n _ => is_Some (sem_at s n)
  end.

Lemma ab_refs_nonneg s n : semfs_ok s → 0 ≤ srefs s n.
Proof. intros Hok. unfold srefs. destruct (List.find _ _) as [t|] eqn:E; [|done]. apply List.find_some in E as [E%list_elem_of_In _]. pose proof (sk_refs _ Hok t E). lia. Qed.

(** ** The operations *)

Lemma incref_run s n : semfs_ok s → 0 < srefs s n → ∃ s', sem_incref n s = Ret tt s' ∧ semfs_ok s' ∧ one_more s s' n ∧
  (∀ k, sem_at s' k = sem_at s k) ∧ ∀ i, dent_at s' i = dent_at s i.
Proof.
  intros Hok Hr. unfold sem_incref. destruct (run_sem_find s n Hok Hr) as (t & Ht & Hf & Hrun). rewrite (run_bind_ret _ _ _ _ _ Hrun). exists (with_srefs n (vn_refcount t + 1) s).
  split; [done|]. split; [apply with_srefs_ok; [done|lia]|]. split; [|done]. intros k. rewrite srefs_with by done. case_decide; [subst; lia|done].
Qed.

Lemma getvnode_run m s n :
  semfs_ok s → n = SEMFS_ROOTDIR ∨ is_Some (sem_at s n) →
  ∃ r s', semfs_getvnode m n s = Ret r s' ∧ semfs_ok s' ∧ (∀ i, dent_at s' i = dent_at s i) ∧
    (∀ k, sems_count <$> sem_at s' k = sems_count <$> sem_at s k) ∧ match r with
    | inl e => s' = s ∧ e = ENOMEM ∧ (mm_vnode m = false ∨ mm_vnodes m = false)
    | inr v => v = n ∧ one_more s s' n
    end.
Proof.
  intros Hok Hn. unfold semfs_getvnode. rewrite run_gets. destruct (decide (0 < srefs s n)) as [Hr|Hr].
  - assert (Hf : is_Some (List.find (λ t, tn_ino t =? n) (semfs_vnodes s))) by (by destruct (run_sem_find s n Hok Hr) as (t & _ & H & _)).
    destruct Hf as [t Hf]. rewrite Hf. destruct (incref_run s n Hok Hr) as (s' & Hrun & Hok' & H1 & H2 & H3). rewrite (run_bind_ret _ _ _ _ _ Hrun).
    exists (inr n), s'. split_and!; try done. intros k. by rewrite H2.
  - rewrite (srefs_pos _ _ Hok) in Hr. destruct (srefs_zero s n Hok Hr) as [-> _].
    destruct (mm_vnode m); cbn [negb]; [|exists (inl ENOMEM), s; split_and!; try done; by left].
    destruct (mm_vnodes m); cbn [negb]; [|exists (inl ENOMEM), s; split_and!; try done; by right].
    rewrite run_modify. set (s1 := set_sem_vnodes _ s).
    destruct (Z.eqb_spec n SEMFS_ROOTDIR) as [Hroot|Hroot]; cbn [negb].
    + rewrite run_mret. exists (inr n), s1.
      assert (Hnone : sem_at s n = None) by (destruct (sem_at s n) as [x|] eqn:E; [by destruct (sem_range s n x Hok E)|done]).
      destruct (load_ok s s1 n Hok Hr) as [Hok1 H1]; [done|done|by left|intros k; case_decide as Hk; [subst k; by rewrite Hnone|done]|done|]. by split_and!.
    + destruct Hn as [?|[x Hx]]; [done|]. destruct (sem_range s n x Hok Hx) as [Hrange _].
      assert (Hflag : sems_hasvnode x = false) by (apply not_true_iff_false; by rewrite (sk_has _ Hok n x Hx)).
      rewrite run_assoc, (run_sem_get _ s1 n x Hx), run_assoc, (run_deref _ _ x) by done. rewrite run_assoc, run_assert by (by rewrite Hflag).
      rewrite run_sem_set by done. set (s2 := upd_sem n _ s1). exists (inr n), s2.
      assert (Es : ∀ k, sem_at s2 k = if decide (k = n) then with_hasvnode true <$> sem_at s k else sem_at s k).
      { intros k. unfold s2. rewrite sem_at_upd by done. case_decide as Hk; [subst k; by rewrite Hx|done]. }
      destruct (load_ok s s2 n Hok Hr) as [Hok1 H1]; [done|done|right; by exists x|done|cbn; by rewrite set_length|]. split_and!; try done.
      intros k. rewrite Es. case_decide; [|done]. by destruct (sem_at s k).
Qed.

(** The abstract state of a state with the same entries. *)
Lemma abs_same s s' (f : Z → option Z) (g : Z → Z) :
  semfs_ok s → semfs_ok s' → (∀ i, dent_at s' i = dent_at s i) → (∀ k, sems_count <$> sem_at s' k = f k) → (∀ k, srefs s' k = g k) →
  abs s' ≡ SemState (name_of s) f g.
Proof. intros Hok Hok' Hd Hc Hr. split_and!; [by apply name_of_ext|done|done]. Qed.

Lemma no_root_sem s : semfs_ok s → sem_at s SEMFS_ROOTDIR = None.
Proof. intros Hok. destruct (sem_at s SEMFS_ROOTDIR) as [x|] eqn:E; [by destruct (sem_range _ _ x Hok E)|done]. Qed.

(** A semaphore is linked when it has a name. *)
Lemma linked_named s n x : semfs_ok s → sem_at s n = Some x → sems_linked x = true ↔ ∃ nm, name_of s nm = Some n.
Proof.
  intros Hok Hx. rewrite (sk_linked _ Hok n x Hx). split.
  - intros (i & d & Hi & <-). exists (semd_name d). apply name_of_spec; [done|]. exists i. by destruct d.
  - intros (nm & [i Hi]%name_of_spec); [|done]. by exists i, (SemfsDirentry nm n).
Qed.

Lemma named_sem s nm n : semfs_ok s → name_of s nm = Some n → ∃ x, sem_at s n = Some x ∧ sems_linked x = true ∧ n ≠ SEMFS_ROOTDIR.
Proof.
  intros Hok Hnm. pose proof Hnm as [i Hi]%name_of_spec; [|done]. destruct (sk_dent _ Hok i _ Hi) as [x Hx]. cbn in Hx. exists x. split; [done|].
  split; [apply (linked_named s n x Hok Hx); by exists nm|]. by destruct (sem_range s n x Hok Hx).
Qed.

(** The last reference goes. *)
Lemma semfs_reclaim_run s n :
  semfs_ok s → srefs s n = 1 →
  ∃ s', semfs_reclaim n s = Ret (inr tt) s' ∧ semfs_ok s' ∧ ab_collect n (ab_open n (-1) (abs s)) (abs s').
Proof.
  intros Hok H1. destruct (run_sem_find s n Hok ltac:(lia)) as (t & Ht & _ & Hrun). unfold semfs_reclaim. rewrite (run_bind_ret _ _ _ _ _ Hrun), Ht, H1.
  change (1 <? 1) with false. cbv iota. rewrite run_modify. set (s1 := set_sem_vnodes _ s).
  assert (Hv : has_vnode s n) by (apply (srefs_pos _ _ Hok); lia).
  assert (Hrefs : ∀ k, (if decide (k = n) then 0 else srefs s k) = if decide (k = n) then srefs s k + -1 else srefs s k) by (intros k; case_decide; [subst; lia|done]).
  destruct (Z.eqb_spec n SEMFS_ROOTDIR) as [Hroot|Hroot]; cbn [negb].
  - pose proof (no_root_sem s Hok) as Hnone. subst n. rewrite run_mret. exists s1.
    destruct (unload_ok s s1 SEMFS_ROOTDIR Hok) as [Hok1 Hr1]; [done|done|done|intros k; case_decide as Hk; [subst k; by rewrite Hnone|done]|done|].
    split; [done|]. split; [done|]. left. split.
    + split; [cbn; rewrite decide_True by done; lia|]. intros nm Hnm. by destruct (named_sem s nm _ Hok Hnm) as (x & _ & _ & ?).
    + apply abs_same; [done|done|done|intros k; cbn; case_decide as Hk; [subst k; by rewrite no_root_sem|done]|intros k; by rewrite Hr1, Hrefs].
  - destruct (sk_vnode _ Hok n Hv) as [?|[x Hx]]; [done|]. destruct (sem_range s n x Hok Hx) as [Hrange _].
    rewrite run_assoc, (run_sem_get _ s1 n x Hx), run_assoc, (run_deref _ _ x) by done. rewrite run_assoc, run_assert by (by apply (sk_has _ Hok n x Hx)).
    rewrite run_sem_set by done. set (s2 := upd_sem n _ s1). exists s2.
    assert (Es : ∀ k, sem_at s2 k = if decide (k = n) then x ← sem_at s k; if sems_linked x then Some (with_hasvnode false x) else None else sem_at s k).
    { intros k. unfold s2. rewrite sem_at_upd by done. case_decide as Hk; [subst k; by rewrite Hx|done]. }
    destruct (unload_ok s s2 n Hok) as [Hok2 Hr2]; [done|done|done|done|cbn; by rewrite set_length|]. split; [done|]. split; [done|].
    pose proof (linked_named s n x Hok Hx) as Hl. destruct (sems_linked x) eqn:El; [right|left].
    + destruct (proj1 Hl eq_refl) as [nm Hnm]. split; [by intros [_ H]; destruct (H nm)|].
      apply abs_same; [done|done|done|intros k; cbn; rewrite Es; case_decide as Hk; [subst k; rewrite Hx; cbn; by rewrite El|done]|intros k; by rewrite Hr2, Hrefs].
    + split; [split; [cbn; rewrite decide_True by done; lia|]|].
      * intros nm Hnm. by assert (false = true) by (apply Hl; by exists nm).
      * apply abs_same; [done|done|done|intros k; cbn; rewrite Es; case_decide as Hk; [subst k; rewrite Hx; cbn; by rewrite El|done]|intros k; by rewrite Hr2, Hrefs].
Qed.

Lemma semfs_decref_run s n :
  semfs_ok s → 0 < srefs s n → ∃ s', sem_decref n s = Ret tt s' ∧ semfs_ok s' ∧ ab_collect n (ab_open n (-1) (abs s)) (abs s').
Proof.
  intros Hok Hr. destruct (run_sem_find s n Hok Hr) as (t & Ht & Hf & Hrun). unfold sem_decref. rewrite (run_bind_ret _ _ _ _ _ Hrun).
  rewrite run_assert by (apply Z.ltb_lt; lia). destruct (Z.ltb_spec 1 (vn_refcount t)) as [H1|H1].
  - exists (with_srefs n (vn_refcount t - 1) s). split; [done|]. assert (Hok' : semfs_ok (with_srefs n (vn_refcount t - 1) s)) by (apply with_srefs_ok; [done|lia]).
    split; [done|]. right. split; [intros [H _]; cbn in H; rewrite decide_True in H by done; lia|].
    apply abs_same; [done|done|done|done|]. intros k. rewrite srefs_with by done. cbn. case_decide; [subst; lia|done].
  - destruct (semfs_reclaim_run s n Hok ltac:(lia)) as (s' & Hrun' & Hok' & Hc). exists s'. split; [by rewrite (run_bind_ret _ _ _ _ _ Hrun')|done].
Qed.

Lemma semfs_remove_run s name :
  semfs_ok s → is_dots name = false →
  ∃ r s', semfs_remove name s = Ret r s' ∧ semfs_ok s' ∧ match r with
    | inl e => e = ENOENT ∧ name_of s name = None ∧ s' = s
    | inr _ => ∃ n, name_of s name = Some n ∧ ab_collect n (ab_set_name name None (abs s)) (abs s')
    end.
Proof.
  intros Hok Hdots. unfold semfs_remove. rewrite Hdots, run_gets. destruct (find_dent (semfs_dents s) name 0) as [[i d]|] eqn:E.
  - destruct (find_dent_spec _ _ _ _ _ E) as [Hd Hnm]. rewrite Z.sub_0_r in Hd. change (dent_at s i = Some d) in Hd.
    assert (Hname : name_of s name = Some (semd_semnum d)) by (unfold name_of; by rewrite E).
    destruct (named_sem s name _ Hok Hname) as (x & Hx & Hl & _). destruct (sem_range _ _ x Hok Hx) as [Hrange _].
    rewrite (run_getsem _ _ _ _ Hx), run_assert by done. rewrite run_sem_set by done. rewrite run_dent_set by (exact (proj1 (slot_at_range _ _ _ Hd))).
    set (s1 := upd_sem _ _ s). set (s2 := upd_dent i None s1). exists (inr tt), s2. split; [done|].
    assert (Es : ∀ k, sem_at s2 k = if decide (k = semd_semnum d) then x ← sem_at s k; if sems_hasvnode x then Some (with_linked false x) else None else sem_at s k).
    { intros k. change (sem_at s2 k) with (sem_at s1 k). unfold s1. rewrite sem_at_upd by done. case_decide as Hk; [subst k; by rewrite Hx|done]. }
    assert (Ed : ∀ j, dent_at s2 j = if decide (j = i) then None else dent_at s j) by (intros j; unfold s2; rewrite dent_at_upd by exact (proj1 (slot_at_range _ _ _ Hd)); done).
    assert (Hok2 : semfs_ok s2) by (apply (unlink_ok s s2 i d); [done|done|done|done|done|cbn; by rewrite set_length]). split; [done|].
    assert (Hnames : ∀ nm, name_of s2 nm = if decide (nm = name) then None else name_of s nm).
    { intros nm. apply option_eq. intros n. rewrite name_of_spec by done. setoid_rewrite Ed. case_decide as Hn.
      - subst nm. split; [|done]. intros (j & Hj). case_decide; [done|]. assert (j = i) by (eapply (sk_name _ Hok); [exact Hj|exact Hd|by left]). done.
      - rewrite name_of_spec by done. split; intros (j & Hj); exists j; [by case_decide|]. case_decide; [|done]. subst j. rewrite Hd in Hj. injection Hj as Hj. exfalso. apply Hn. by rewrite <- Hnm, Hj. }
    exists (semd_semnum d). split; [done|]. assert (Hone : ∀ nm, nm ≠ name → name_of s nm ≠ Some (semd_semnum d)).
    { intros nm Hne [j Hj]%name_of_spec; [|done]. assert (j = i) as -> by (eapply (sk_name _ Hok); [exact Hj|exact Hd|by right]). rewrite Hd in Hj. injection Hj as Hj. apply Hne. by rewrite <- Hnm, Hj. }
    pose proof (sk_has _ Hok _ x Hx) as Hh. destruct (sems_hasvnode x) eqn:El; [right|left].
    + split; [intros [H _]; cbn in H; pose proof (proj2 (srefs_pos s _ Hok) (proj1 Hh eq_refl)); lia|].
      split_and!; [exact Hnames|intros k; cbn; rewrite Es; case_decide as Hk; [subst k; rewrite Hx; cbn; by rewrite El|done]|done].
    + split; [split|].
      * cbn. apply (srefs_zero s _ Hok). rewrite <- Hh. done.
      * intros nm. cbn. case_decide; [done|by apply Hone].
      * split_and!; [exact Hnames|intros k; cbn; rewrite Es; case_decide as Hk; [subst k; rewrite Hx; cbn; by rewrite El|done]|done].
  - exists (inl ENOENT), s. split_and!; try done. unfold name_of. by rewrite E.
Qed.

(** ** Creating *)

Lemma semfs_insert_run m s x :
  semfs_ok s →
  ∃ r s1, semfs_sem_insert m x s = Ret r s1 ∧ match r with
    | inl e => s1 = s ∧ (e = ENOSPC ∨ e = ENOMEM ∧ mm_sems m = false)
    | inr n => semfs_vnodes s1 = semfs_vnodes s ∧ semfs_dents s1 = semfs_dents s ∧ sem_at s n = None ∧ 0 ≤ n < zlen (semfs_sems s1) ∧ n ≠ SEMFS_ROOTDIR ∧
        zlen (semfs_sems s1) ≤ SEMFS_ROOTDIR ∧ ∀ k, sem_at s1 k = if decide (k = n) then Some x else sem_at s k
    end.
Proof.
  intros Hok. unfold semfs_sem_insert. rewrite run_gets. pose proof (sk_size _ Hok) as Hz. destruct (Z.eqb_spec (zlen (semfs_sems s)) SEMFS_ROOTDIR) as [E|E].
  - exists (inl ENOSPC), s. split; [done|]. split; [done|by left].
  - destruct (slot_put (semfs_sems s) x) as (n & l' & [(-> & -> & Hf)|(-> & Hf)] & Hn & Hnone & Hat); rewrite Hf.
    + rewrite length_app in Hn. cbn in Hn. destruct (mm_sems m) eqn:Em; [|exists (inl ENOMEM), s; split; [done|]; split; [done|by right]].
      exists (inr (zlen (semfs_sems s))), (set_sems (semfs_sems s ++ [Some x]) s). split; [done|]. cbn [set_sems semfs_sems semfs_vnodes semfs_dents]. rewrite length_app. cbn [length].
      split_and!; [done|done|done|lia|lia|lia|lia|exact Hat].
    + rewrite set_length in Hn. rewrite run_sem_set by done. exists (inr n), (upd_sem n (Some x) s). split; [done|].
      unfold upd_sem. cbn [set_sems semfs_sems semfs_vnodes semfs_dents]. rewrite set_length. split_and!; [done|done|done|lia|lia|lia|lia|exact Hat].
Qed.

Lemma getvnode_new m s n x :
  List.find (λ t, tn_ino t =? n) (semfs_vnodes s) = None → n ≠ SEMFS_ROOTDIR → sem_at s n = Some x → sems_hasvnode x = false →
  semfs_getvnode m n s =
    if mm_vnode m && mm_vnodes m then Ret (inr n) (upd_sem n (Some (with_hasvnode true x)) (set_sem_vnodes (semfs_vnodes s ++ [Tnode n 1]) s))
    else Ret (inl ENOMEM) s.
Proof.
  intros Hf Hn Hx Hh. unfold semfs_getvnode. rewrite run_gets, Hf. destruct (mm_vnode m); cbn [negb andb]; [|done]. destruct (mm_vnodes m); cbn [negb]; [|done].
  rewrite run_modify, (proj2 (Z.eqb_neq n _)) by done. cbn [negb]. rewrite run_assoc, (run_sem_get _ (set_sem_vnodes _ s) n x Hx), run_assoc, (run_deref _ _ x) by done.
  rewrite run_assoc, run_assert by (by rewrite Hh). rewrite run_sem_set; [done|]. by apply slot_at_range in Hx as [? _].
Qed.

(** The entry of the new semaphore is stored. *)
Definition store_dent (m : semfs_mem) (l : list (option semfs_direntry)) (d : semfs_direntry) : K semfs (Z + Z) :=
  match first_null l 0 with
  | Some empty => dent_set empty (Some d) ;; mret (inr empty)
  | None => if mm_dents m then modify (set_dents (l ++ [Some d])) ;; mret (inr (zlen l)) else mret (inl ENOMEM)
  end.

Lemma store_dent_run m s d :
  ∃ r s2, store_dent m (semfs_dents s) d s = Ret r s2 ∧ match r with
    | inl e => s2 = s ∧ e = ENOMEM ∧ mm_dents m = false
    | inr i => semfs_vnodes s2 = semfs_vnodes s ∧ semfs_sems s2 = semfs_sems s ∧ dent_at s i = None ∧ 0 ≤ i < zlen (semfs_dents s2) ∧
        ∀ j, dent_at s2 j = if decide (j = i) then Some d else dent_at s j
    end.
Proof.
  unfold store_dent. destruct (slot_put (semfs_dents s) d) as (i & l' & [(-> & -> & Hf)|(-> & Hf)] & Hi & Hnone & Hat); rewrite Hf.
  - destruct (mm_dents m); [|by exists (inl ENOMEM), s]. exists (inr (zlen (semfs_dents s))), (set_dents (semfs_dents s ++ [Some d]) s). split; [done|].
    cbn [set_dents semfs_dents semfs_vnodes semfs_sems]. split_and!; [done|done|done|apply Hi|apply Hi|exact Hat].
  - rewrite set_length in Hi. rewrite run_dent_set by done. exists (inr i), (upd_dent i (Some d) s). split; [done|]. unfold upd_dent. cbn [set_dents semfs_dents semfs_vnodes semfs_sems].
    rewrite set_length. split_and!; [done|done|done|apply Hi|apply Hi|exact Hat].
Qed.


(** What a failed creation leaves. *)
Lemma undo_ok s s' :
  semfs_ok s → semfs_vnodes s' = semfs_vnodes s → (∀ n, sem_at s' n = sem_at s n) → (∀ i, dent_at s' i = dent_at s i) → zlen (semfs_sems s') ≤ SEMFS_ROOTDIR →
  semfs_ok s' ∧ abs s' ≡ abs s.
Proof.
  intros Hok Ev Es Ed Hz. pose proof (semfs_ok_view s s' Hok Ev Es Ed Hz) as Hok'. split; [done|].
  apply abs_same; [done|done|done|intros k; by rewrite Es|intros k; unfold srefs; by rewrite Ev].
Qed.

Lemma creat_new_run m s name :
  semfs_ok s → is_dots name = false → name_of s name = None → ∀ ex,
  ∃ r s', semfs_creat m name ex s = Ret r s' ∧ semfs_ok s' ∧ match r with
    | (e, o) =>
        (∃ n, e = 0 ∧ o = Some n ∧ (abs s).(ab_count) n = None ∧ ab_unused n (abs s) ∧ n ≠ SEMFS_ROOTDIR ∧
          abs s' ≡ ab_open n 1 (ab_set_name name (Some n) (ab_set_count n (Some 0) (abs s)))) ∨
        o = None ∧ abs s' ≡ abs s ∧ (e = ENOSPC ∨ e = ENOMEM ∧ short m ∨ e = 0 ∧ mm_dent m && mm_name m = false)
    end.
Proof.
  intros Hok Hdots Hname ex. unfold semfs_creat. rewrite Hdots, run_gets.
  assert (Hfind : find_dent (semfs_dents s) name 0 = None) by (unfold name_of in Hname; by destruct (find_dent _ _ _)). rewrite Hfind.
  unfold semfs_sem_create. destruct (mm_sem m && mm_lock m && mm_cv m) eqn:Em1.
  2: { eexists _, s. split; [reflexivity|]. split; [done|]. right. split; [done|]. split; [done|]. right. left. split; [done|]. by left. }
  destruct (semfs_insert_run m s (SemfsSem 0 false false) Hok) as (r & s1 & Hrun & Hr). rewrite (run_bind_ret _ _ _ _ _ Hrun). destruct r as [e|n].
  { destruct Hr as [-> He]. eexists _, s. split; [reflexivity|]. split; [done|]. right. split; [done|]. split; [done|].
    destruct He as [->|[-> Hm]]; [by left|]. right. left. split; [done|]. by right; left. }
  destruct Hr as (V1 & D1 & Hnone & Hrange & Hroot & Hz & S1).
  assert (Hundo : ∀ s2, semfs_vnodes s2 = semfs_vnodes s → zlen (semfs_sems s2) = zlen (semfs_sems s1) → (∀ k, sem_at s2 k = sem_at s1 k) → (∀ i, dent_at s2 i = dent_at s i) →
    ∃ s', sem_set n None s2 = Ret tt s' ∧ semfs_ok s' ∧ abs s' ≡ abs s).
  { intros s2 V2 Z2 S2 D2. exists (upd_sem n None s2). assert (Hr2 : 0 ≤ n < zlen (semfs_sems s2)) by lia. split.
    - unfold sem_set, array_set. rewrite run_gets, run_assert; [done|]. apply andb_true_iff. split; [apply Z.leb_le|apply Z.ltb_lt]; lia.
    - apply undo_ok; [done|done| |done|cbn; rewrite set_length; lia]. intros k. rewrite sem_at_upd by done. case_decide as Hk; [subst k; done|]. rewrite S2, S1, decide_False by done. done. }
  assert (Hv : ¬ has_vnode s n) by (intros [?|[y Hy]]%(sk_vnode _ Hok); [done|congruence]).
  assert (Hunused : ab_unused n (abs s)).
  { split; [by apply (srefs_zero s n Hok)|]. intros nm Hnm. destruct (named_sem s nm n Hok Hnm) as (y & Hy & _). congruence. }
  unfold semfs_direntry_create. destruct (mm_dent m && mm_name m) eqn:Em2.
  2: { destruct (Hundo s1) as (s' & Hset & Hok' & Ha); [done|done|done|intros i; unfold dent_at; by rewrite D1|]. rewrite (run_bind_ret _ _ _ _ _ Hset).
    eexists _, s'. split; [reflexivity|]. split; [done|]. right. split; [done|]. split; [done|]. by right; right. }
  destruct (store_dent_run m s1 (SemfsDirentry name n)) as (r & s2 & Hrun2 & Hr2). unfold store_dent in Hrun2. rewrite D1 in Hrun2. rewrite (run_bind_ret _ _ _ _ _ Hrun2).
  destruct r as [e|i].
  { destruct Hr2 as (-> & -> & Hm). destruct (Hundo s1) as (s' & Hset & Hok' & Ha); [done|done|done|intros i; unfold dent_at; by rewrite D1|]. rewrite (run_bind_ret _ _ _ _ _ Hset).
    eexists _, s'. split; [reflexivity|]. split; [done|]. right. split; [done|]. split; [done|]. right. left. split; [done|]. by right; right; left. }
  destruct Hr2 as (V2 & S2 & Hi & Hir & D2). assert (Hat2 : ∀ k, sem_at s2 k = sem_at s1 k) by (intros k; unfold sem_at; by rewrite S2).
  assert (Hi' : dent_at s i = None) by (unfold dent_at in *; by rewrite D1 in Hi).
  assert (D2' : ∀ j, dent_at s2 j = if decide (j = i) then Some (SemfsDirentry name n) else dent_at s j) by (intros j; rewrite D2; unfold dent_at; by rewrite D1).
  pose proof (getvnode_new m s2 n (SemfsSem 0 false false)) as Hgv. rewrite V2, V1 in Hgv.
  specialize (Hgv (proj1 (srefs_zero s n Hok Hv)) Hroot ltac:(by rewrite Hat2, S1, decide_True) eq_refl).
  destruct (mm_vnode m && mm_vnodes m) eqn:Em3.
  - rewrite (run_bind_ret _ _ _ _ _ Hgv). set (s3 := upd_sem n _ _) in *.
    assert (S3 : ∀ k, sem_at s3 k = if decide (k = n) then Some (SemfsSem 0 true false) else sem_at s k).
    { intros k. unfold s3. rewrite sem_at_upd by (cbn; rewrite S2; lia). case_decide; [done|]. change (sem_at (set_sem_vnodes _ s2) k) with (sem_at s2 k). by rewrite Hat2, S1, decide_False. }
    rewrite (run_getsem _ s3 n (SemfsSem 0 true false)) by (by rewrite S3, decide_True). assert (Hr3 : 0 ≤ n < zlen (semfs_sems s3)) by (cbn; rewrite set_length, S2; lia).
    rewrite run_sem_set by done. set (s4 := upd_sem n _ s3).
    assert (S4 : ∀ k, sem_at s4 k = if decide (k = n) then Some (SemfsSem 0 true true) else sem_at s k).
    { intros k. unfold s4. rewrite sem_at_upd by done. case_decide; [done|]. by rewrite S3, decide_False. }
    destruct (create_ok s s4 n i name Hok Hnone Hi') as [Hok4 Hr4]; [intros j d; by apply (find_dent_none _ _ _ _ _ Hfind)|done|done|done|exact D2'|cbn; rewrite !set_length, S2; lia|].
    eexists _, s4. split; [reflexivity|]. split; [done|]. left. exists n. split_and!; [done|done|cbn; by rewrite Hnone|exact Hunused|done|].
    split_and!; [|intros k; cbn; rewrite S4; by case_decide|exact Hr4]. intros nm. cbn [abs ab_name ab_open ab_set_name ab_set_count]. apply option_eq. intros k. rewrite name_of_spec by done.
    change (dent_at s4) with (dent_at s2). setoid_rewrite D2'. case_decide as Hnm.
    + subst nm. split; [|intros [= <-]; exists i; by rewrite decide_True]. intros (j & Hj). case_decide; [by injection Hj as <-|]. by destruct (find_dent_none _ _ _ _ _ Hfind Hj).
    + rewrite name_of_spec by done. split; intros (j & Hj); exists j; [case_decide; [congruence|done]|]. rewrite decide_False; [done|]. intros ->. congruence.
  - rewrite (run_bind_ret _ _ _ _ _ Hgv). rewrite run_dent_set by done. destruct (Hundo (upd_dent i None s2)) as (s' & Hset & Hok' & Ha).
    + cbn. by rewrite V2.
    + cbn. by rewrite S2.
    + exact Hat2.
    + intros j. rewrite dent_at_upd by done. case_decide as Hj; [by subst j|]. by rewrite D2', decide_False.
    + rewrite (run_bind_ret _ _ _ _ _ Hset). eexists _, s'. split; [reflexivity|]. split; [done|]. right. split; [done|]. split; [done|]. right. left. split; [done|]. right; right; right. by apply andb_false_iff.
Qed.

(** What a creation does to the references. *)
Lemma creat_refs m s name ex :
  semfs_ok s →
  ∃ r s', semfs_creat m name ex s = Ret r s' ∧ semfs_ok s' ∧ match r with
    | (e, o) => (∃ n, e = 0 ∧ o = Some n ∧ one_more s s' n) ∨
        o = None ∧ (∀ k, srefs s' k = srefs s k) ∧ (e ≠ 0 ∨ e = 0 ∧ mm_dent m && mm_name m = false)
    end.
Proof.
  intros Hok. destruct (is_dots name) eqn:Hd; [|destruct (name_of s name) as [n|] eqn:Hn].
  - unfold semfs_creat. rewrite Hd. eexists _, s. split; [reflexivity|]. split; [done|]. right. split; [done|]. split; [done|]. by left.
  - pose proof (named_sem s name n Hok Hn) as (x & Hx & _). unfold semfs_creat. rewrite Hd, run_gets. unfold name_of in Hn.
    destruct (find_dent (semfs_dents s) name 0) as [[i d]|] eqn:E; [|done]. injection Hn as Hn. destruct ex.
    + eexists _, s. split; [reflexivity|]. split; [done|]. right. split; [done|]. split; [done|]. by left.
    + rewrite Hn. destruct (getvnode_run m s n Hok) as (r & s' & Hrun & Hok' & _ & _ & Hr); [right; by exists x|]. rewrite (run_bind_ret _ _ _ _ _ Hrun). eexists _, s'.
      split; [reflexivity|]. split; [done|]. destruct r as [e|v]; [|left; exists v; by destruct Hr as [-> ?]]. destruct Hr as (-> & -> & _). right. split; [done|]. split; [done|]. by left.
  - destruct (creat_new_run m s name Hok Hd Hn ex) as ([e o] & s' & Hrun & Hok' & Hr). exists (e, o), s'. split; [done|]. split; [done|].
    destruct Hr as [(n & -> & -> & _ & _ & _ & (_ & _ & H3))|(-> & (_ & _ & H3) & He)]; [left; by exists n|]. right. split; [done|]. split; [done|].
    destruct He as [->|[[-> _]|[-> Hm]]]; [by left|by left|by right].
Qed.

(** ** Counting *)

(** The count is set. *)
Lemma abs_count s n x c : semfs_ok s → sem_at s n = Some x → 0 ≤ c < 2 ^ 32 →
  let s' := upd_sem n (Some (with_count c x)) s in semfs_ok s' ∧ abs s' ≡ ab_set_count n (Some c) (abs s).
Proof.
  intros Hok Hx Hc s'. pose proof (count_ok s n x c Hok Hx Hc) as Hok'. split; [done|]. destruct (sem_range s n x Hok Hx) as [Hr _].
  apply abs_same; [done|done|done| |done]. intros k. unfold s'. rewrite sem_at_upd by done. cbn. by case_decide.
Qed.

Lemma u32_id c : 0 ≤ c < 2 ^ 32 → u32 c = c.
Proof. apply Z.mod_small. Qed.

Lemma set_count_id n c (A : sem_state) : ab_count A n = Some c → ab_set_count n (Some c) A ≡ A.
Proof. intros H. split_and!; [done| |done]. intros k. cbn. case_decide; [by subst|done]. Qed.

(** One round of P takes what there is. *)
Lemma read_round other others s n u x :
  semfs_ok s → sem_at s n = Some x → 0 < uio_resid u < 2 ^ 32 →
  let k := Z.min (uio_resid u) (sems_count x) in
  read_loop (other :: others) n u s =
    (if uio_resid u - k =? 0 then mret (uio_took k u) else other ;; read_loop others n (uio_took k u))
      (if 0 <? sems_count x then upd_sem n (Some (with_count (sems_count x - k) x)) s else s).
Proof.
  intros Hok Hx Hu k. cbn [read_loop]. rewrite (proj2 (Z.ltb_lt 0 (uio_resid u))) by lia. cbn [negb]. rewrite (run_getsem _ s n x Hx). pose proof (sk_count _ Hok n x Hx) as Hc.
  destruct (sem_range s n x Hok Hx) as [Hr _]. destruct (Z.ltb_spec 0 (sems_count x)) as [H0|H0].
  - assert (E : (if sems_count x <? uio_resid u then sems_count x else uio_resid u) = k) by (unfold k; destruct (Z.ltb_spec (sems_count x) (uio_resid u)); lia). rewrite E.
    rewrite run_assoc, run_sem_set by done. rewrite run_mret, !u32_id, took_pos by lia. done.
  - assert (E : k = 0) by (unfold k; lia). rewrite run_mret, E, Z.sub_0_r. by rewrite (proj2 (Z.eqb_neq (uio_resid u) 0)) by lia.
Qed.

Lemma read_runs fuel s n u x :
  semfs_ok s → sem_at s n = Some x → 0 ≤ uio_resid u ≤ sems_count x →
  semfs_read (alone (S fuel)) n u s =
    if uio_resid u =? 0 then Ret (0, u) s else Ret (0, uio_took (uio_resid u) u) (upd_sem n (Some (with_count (sems_count x - uio_resid u) x)) s).
Proof.
  intros Hok Hx Hu. pose proof (sk_count _ Hok n x Hx) as Hc. unfold semfs_read. rewrite (run_getsem _ s n x Hx). destruct (Z.eqb_spec (uio_resid u) 0) as [H0|H0].
  - rewrite run_bind. cbn [alone replicate read_loop]. rewrite H0. done.
  - rewrite run_bind. cbn [alone replicate]. rewrite (read_round _ _ s n u x) by (done || lia). rewrite Z.min_l, Z.sub_diag by lia. rewrite (proj2 (Z.ltb_lt _ _)) by lia. done.
Qed.

(** ** P among the Vs of other threads *)

Lemma i64_add a b : i64 (i64 a + b) = i64 (a + b).
Proof. unfold swrap. f_equal. replace ((a + 2 ^ (64 - 1)) mod 2 ^ 64 - 2 ^ (64 - 1) + b + 2 ^ (64 - 1)) with ((a + 2 ^ (64 - 1)) mod 2 ^ 64 + b) by lia. rewrite Zplus_mod_idemp_l. f_equal. lia. Qed.

Lemma took_took a b u : 0 ≤ a → 0 < b → uio_took b (uio_took a u) = uio_took (a + b) u.
Proof.
  intros Ha Hb. unfold uio_took. rewrite (proj2 (Z.eqb_neq b 0)), (proj2 (Z.eqb_neq (a + b) 0)) by lia. destruct (Z.eqb_spec a 0) as [->|Hne]; [done|].
  unfold set_resid, set_offset. cbn. by rewrite i64_add, Z.add_assoc, Z.sub_add_distr.
Qed.

(** What other threads post to the semaphore in one round, and how much that is in several. *)
Definition posts (n : Z) (l : list uio) : SM unit := foldr (λ w m, semfs_write n w ;; m) (mret tt) l.
Definition posted (vs : list (list uio)) : Z := foldr Z.add 0 (uio_resid <$> concat vs).

Lemma posted_cons l vs : posted (l :: vs) = posted [l] + posted vs.
Proof. unfold posted. cbn [concat]. rewrite app_nil_r, fmap_app. induction (uio_resid <$> l) as [|r rs IH]; cbn; [done|]. rewrite IH. lia. Qed.
Lemma posted_nonneg vs : Forall (Forall (λ w, 0 ≤ uio_resid w)) vs → 0 ≤ posted vs.
Proof.
  induction 1 as [|l vs Hl _ IH]; [done|]. rewrite posted_cons. assert (0 ≤ posted [l]); [|lia]. unfold posted. cbn. rewrite app_nil_r. induction Hl; cbn; [done|lia].
Qed.

(** The semaphore [n] has count [c]; all else is as in [s0]. *)
Record counts (s0 : semfs) (n : Z) (x : semfs_sem) (c : Z) (s : semfs) : Prop := {
  ct_ok : semfs_ok s;
  ct_sem : sem_at s n = Some (with_count c x);
  ct_abs : abs s ≡ ab_set_count n (Some c) (abs s0);
}.

Lemma counts_start s n x : semfs_ok s → sem_at s n = Some x → counts s n x (sems_count x) s.
Proof. intros Hok Hx. split; [done|by destruct x|]. symmetry. apply set_count_id. cbn. by rewrite Hx. Qed.

Lemma counts_upd s0 n x c c' s : counts s0 n x c s → 0 ≤ c' < 2 ^ 32 → counts s0 n x c' (upd_sem n (Some (with_count c' (with_count c x))) s).
Proof.
  intros [Hok Hx Ha] Hc. destruct (abs_count s n _ c' Hok Hx Hc) as [Hok' Ha']. destruct (sem_range s n _ Hok Hx) as [Hr _].
  split; [done|by rewrite sem_at_upd, decide_True|]. rewrite Ha'. destruct Ha as (H1 & H2 & H3). split_and!; [done| |done]. intros k. cbn. case_decide as Hk; [done|].
  specialize (H2 k). cbn in H2. by rewrite decide_False in H2.
Qed.

Lemma write_counts s0 n x c s w :
  counts s0 n x c s → 0 ≤ uio_resid w → c + uio_resid w < 2 ^ 32 → ∃ r s', semfs_write n w s = Ret r s' ∧ counts s0 n x (c + uio_resid w) s'.
Proof.
  intros C Hw Hb. pose proof (ct_sem _ _ _ _ _ C) as Hx. pose proof (sk_count _ (ct_ok _ _ _ _ _ C) n _ Hx) as Hc. cbn in Hc. destruct (sem_range s n _ (ct_ok _ _ _ _ _ C) Hx) as [Hr _].
  unfold semfs_write. rewrite (run_getsem _ s n _ Hx). cbn [with_count sems_count]. destruct (Z.ltb_spec 0 (uio_resid w)) as [H0|H0].
  - rewrite u32_id by lia. rewrite (proj2 (Z.ltb_ge _ _)) by lia. rewrite run_sem_set by done. eexists _, _. split; [reflexivity|]. apply counts_upd; [done|lia].
  - eexists _, s. split; [reflexivity|]. assert (uio_resid w = 0) as -> by lia. by rewrite Z.add_0_r.
Qed.

Lemma posts_counts s0 n x l : ∀ c s,
  counts s0 n x c s → Forall (λ w, 0 ≤ uio_resid w) l → c + posted [l] < 2 ^ 32 → ∃ s', posts n l s = Ret tt s' ∧ counts s0 n x (c + posted [l]) s'.
Proof.
  unfold posted. cbn [concat]. rewrite app_nil_r. induction l as [|w l IH]; intros c s C Hl Hb; cbn [posts foldr fmap list_fmap] in *; [exists s; by rewrite Z.add_0_r|].
  apply Forall_cons in Hl as [Hw Hl]. assert (0 ≤ foldr Z.add 0 (uio_resid <$> l)) by (clear -Hl; induction Hl; cbn; [done|lia]).
  destruct (write_counts s0 n x c s w C Hw ltac:(lia)) as (r & s1 & Hrun & C1). rewrite (run_bind_ret _ _ _ _ _ Hrun).
  destruct (IH _ s1 C1 Hl ltac:(lia)) as (s' & Hrun' & C'). exists s'. split; [exact Hrun'|]. by rewrite Z.add_assoc.
Qed.

(** A round that is not the last: the count is taken, and the other threads post. *)
Lemma round_goes_on s0 n x c s u l vs :
  counts s0 n x c s → c < uio_resid u < 2 ^ 32 → Forall (λ w, 0 ≤ uio_resid w) l → posted [l] < 2 ^ 32 →
  ∃ s', counts s0 n x (posted [l]) s' ∧ read_loop (posts n <$> l :: vs) n u s = read_loop (posts n <$> vs) n (uio_took c u) s' ∧ uio_resid (uio_took c u) = uio_resid u - c.
Proof.
  intros C Hlt Hl Hb. pose proof (ct_sem _ _ _ _ _ C) as Hx. pose proof (sk_count _ (ct_ok _ _ _ _ _ C) n _ Hx) as Hc. cbn in Hc.
  rewrite fmap_cons, (read_round _ _ s n u _ (ct_ok _ _ _ _ _ C) Hx) by lia. cbn [with_count sems_count]. rewrite Z.min_r by lia. rewrite (proj2 (Z.eqb_neq (_ - c) 0)) by lia.
  rewrite Z.sub_diag. set (s1 := if 0 <? c then _ else _). assert (C1 : counts s0 n x 0 s1).
  { unfold s1. destruct (Z.ltb_spec 0 c); [by apply counts_upd|]. by assert (c = 0) as -> by lia. }
  destruct (posts_counts s0 n x l 0 s1 C1 Hl Hb) as (s' & Hrun & C'). exists s'. rewrite Z.add_0_l in C'. split; [done|]. split; [by rewrite (run_bind_ret _ _ _ _ _ Hrun)|].
  unfold uio_took. destruct (Z.eqb_spec c 0) as [->|]; [lia|done].
Qed.

Lemma read_returns s0 n x : ∀ vs c s u k,
  counts s0 n x c s → 0 < uio_resid u < 2 ^ 32 → Forall (Forall (λ w, 0 ≤ uio_resid w)) vs → c + posted vs < 2 ^ 32 → (k < length vs)%nat →
  (∀ j, (j < k)%nat → c + posted (take j vs) < uio_resid u) → uio_resid u ≤ c + posted (take k vs) →
  ∃ s', read_loop (posts n <$> vs) n u s = Ret (uio_took (uio_resid u) u) s' ∧ counts s0 n x (c + posted (take k vs) - uio_resid u) s'.
Proof.
  induction vs as [|l vs IH]; intros c s u k C Hu Hvs Hb Hk Hlt Hge; [cbn in Hk; lia|]. apply Forall_cons in Hvs as [Hl Hvs].
  pose proof (ct_sem _ _ _ _ _ C) as Hx. pose proof (sk_count _ (ct_ok _ _ _ _ _ C) n _ Hx) as Hc. cbn in Hc. rewrite posted_cons in Hb. pose proof (posted_nonneg vs Hvs). assert (0 ≤ posted [l]) by (by apply posted_nonneg, Forall_singleton).
  destruct k as [|k].
  - change (posted (take 0 (l :: vs))) with 0 in *. rewrite fmap_cons, (read_round _ _ s n u _ (ct_ok _ _ _ _ _ C) Hx) by lia. cbn [with_count sems_count]. rewrite Z.min_l, Z.sub_diag by lia.
    rewrite (proj2 (Z.ltb_lt 0 c)) by lia. eexists. split; [reflexivity|]. rewrite Z.add_0_r. apply counts_upd; [done|lia].
  - specialize (Hlt 0%nat ltac:(lia)) as Hz. change (posted (take 0 (l :: vs))) with 0 in Hz. destruct (round_goes_on s0 n x c s u l vs C ltac:(lia) Hl ltac:(lia)) as (s1 & C1 & Hrun & Hr).
    rewrite Hrun. cbn [take] in *. rewrite posted_cons in Hge |- *. destruct (IH (posted [l]) s1 (uio_took c u) k C1) as (s' & Hrun' & C'); [lia|done|lia|cbn in Hk; lia| |lia|].
    + intros j Hj. specialize (Hlt (S j) ltac:(lia)). cbn [take] in Hlt. rewrite posted_cons in Hlt. lia.
    + exists s'. rewrite Hrun', Hr, took_took by lia. rewrite Hr in C'. split; [do 2 f_equal; lia|]. by replace (c + (posted [l] + posted (take k vs)) - uio_resid u) with (posted [l] + posted (take k vs) - (uio_resid u - c)) by lia.
Qed.

Lemma read_spins s0 n x : ∀ vs c s u,
  counts s0 n x c s → 0 < uio_resid u < 2 ^ 32 → Forall (Forall (λ w, 0 ≤ uio_resid w)) vs → c + posted vs < 2 ^ 32 →
  (∀ j, (j < length vs)%nat → c + posted (take j vs) < uio_resid u) → read_loop (posts n <$> vs) n u s = Diverge.
Proof.
  induction vs as [|l vs IH]; intros c s u C Hu Hvs Hb Hlt; [done|]. apply Forall_cons in Hvs as [Hl Hvs]. rewrite posted_cons in Hb. pose proof (posted_nonneg vs Hvs).
  pose proof (ct_sem _ _ _ _ _ C) as Hx. pose proof (sk_count _ (ct_ok _ _ _ _ _ C) n _ Hx) as Hc. cbn in Hc. assert (0 ≤ posted [l]) by (by apply posted_nonneg, Forall_singleton).
  specialize (Hlt 0%nat ltac:(cbn; lia)) as Hz. change (posted (take 0 (l :: vs))) with 0 in Hz. destruct (round_goes_on s0 n x c s u l vs C ltac:(lia) Hl ltac:(lia)) as (s1 & C1 & Hrun & Hr).
  rewrite Hrun. apply (IH (posted [l])); [done|lia|done|lia|]. intros j Hj. specialize (Hlt (S j) ltac:(cbn; lia)). cbn [take] in Hlt. rewrite posted_cons in Hlt. lia.
Qed.

Lemma lookup_run m s name :
  semfs_ok s → 0 < srefs s SEMFS_ROOTDIR →
  ∃ r s', semfs_lookup m name s = Ret r s' ∧ semfs_ok s' ∧ match r with
    | inl e => s' = s ∧ is_dots name = false ∧ (e = ENOENT ∧ name_of s name = None ∨ e = ENOMEM ∧ no_vnode_memory m ∧ is_Some (name_of s name))
    | inr n => abs s' ≡ ab_open n 1 (abs s) ∧ if is_dots name then n = SEMFS_ROOTDIR else name_of s name = Some n
    end.
Proof.
  intros Hok Hroot. unfold semfs_lookup. destruct (is_dots name) eqn:Hdots.
  - destruct (incref_run s SEMFS_ROOTDIR Hok Hroot) as (s' & Hrun & Hok' & H1 & H2 & H3). rewrite (run_bind_ret _ _ _ _ _ Hrun). exists (inr SEMFS_ROOTDIR), s'.
    split; [done|]. split; [done|]. split; [|done]. apply abs_same; [done|done|done|intros k; by rewrite H2|exact H1].
  - rewrite run_gets. destruct (find_dent (semfs_dents s) name 0) as [[i d]|] eqn:E.
    + assert (Hname : name_of s name = Some (semd_semnum d)) by (unfold name_of; by rewrite E). destruct (named_sem s name _ Hok Hname) as (x & Hx & _).
      destruct (getvnode_run m s (semd_semnum d) Hok) as (r & s' & Hrun & Hok' & Hd & Hc & Hr); [right; by exists x|]. exists r, s'. split; [done|]. split; [done|].
      destruct r as [e|n].
      * destruct Hr as (-> & -> & Hm). split; [done|]. split; [done|]. right. split; [done|]. split; [done|]. by rewrite Hname.
      * destruct Hr as [-> H1]. split; [|done]. by apply abs_same.
    + exists (inl ENOENT), s. split_and!; try done. left. split; [done|]. unfold name_of. by rewrite E.
Qed.

Lemma write_step m s n u x : semfs_ok s → sem_at s n = Some x → 0 ≤ uio_resid u < 2 ^ 32 →
  ∃ r s', (r ← semfs_write n u; mret (of_code RUio r)) s = Ret r s' ∧ semfs_ok s' ∧ sem_step m (abs s) (SWrite n u) r (abs s').
Proof.
  intros Hok Hx Hu. pose proof (sk_count _ Hok n x Hx) as Hc. destruct (sem_range s n x Hok Hx) as [Hr _]. unfold semfs_write. rewrite run_assoc, (run_getsem _ s n x Hx).
  assert (Ha : ab_count (abs s) n = Some (sems_count x)) by (cbn; by rewrite Hx). destruct (Z.ltb_spec 0 (uio_resid u)) as [H0|H0].
  - assert (Hwrap : u32 (sems_count x + uio_resid u) = if decide (sems_count x + uio_resid u < 2 ^ 32) then sems_count x + uio_resid u else sems_count x + uio_resid u - 2 ^ 32).
    { case_decide; [apply u32_id; lia|]. unfold wrap. symmetry. apply (Z.mod_unique_pos _ _ 1); lia. }
    rewrite Hwrap. case_decide as Hbig.
    + rewrite (proj2 (Z.ltb_ge _ _)) by lia. rewrite run_assoc, run_sem_set by done. destruct (abs_count s n x (sems_count x + uio_resid u) Hok Hx) as [Hok' Heq]; [lia|].
      eexists _, _. split; [reflexivity|]. split; [done|]. cbn [of_code fst snd Z.eqb].
      assert (E : set_resid 0 (set_offset (i64 (uio_offset u + uio_resid u)) u) = uio_took (uio_resid u) u) by (by rewrite took_pos, Z.sub_diag). rewrite E. by eapply st_write.
    + rewrite (proj2 (Z.ltb_lt _ _)) by lia. eexists _, s. split; [reflexivity|]. split; [done|]. eapply st_write_big; [done|lia|done].
  - assert (E0 : uio_resid u = 0) by lia. eexists _, s. split; [reflexivity|]. split; [done|]. cbn [of_code fst snd Z.eqb].
    assert (E : u = uio_took (uio_resid u) u) by (by rewrite E0). rewrite E at 2. eapply st_write; [done|lia|]. by rewrite E0, Z.add_0_r, set_count_id.
Qed.

Lemma truncate_step m s n len x : semfs_ok s → sem_at s n = Some x →
  ∃ r s', (r ← semfs_truncate n len; mret (of_sum (λ _, RDone) r)) s = Ret r s' ∧ semfs_ok s' ∧ sem_step m (abs s) (STruncate n len) r (abs s').
Proof.
  intros Hok Hx. destruct (sem_range s n x Hok Hx) as [Hr _]. unfold semfs_truncate, put_count.
  destruct (Z.ltb_spec len 0); [eexists _, s; split; [reflexivity|]; split; [done|]; apply st_truncate_bad; [by left|done]|].
  destruct (Z.ltb_spec 0xffffffff len); [eexists _, s; split; [reflexivity|]; split; [done|]; apply st_truncate_bad; [right; split; [done|lia]|done]|].
  rewrite !run_assoc, (run_getsem _ s n x Hx), run_sem_set by done. destruct (abs_count s n x len Hok Hx) as [Hok' Heq]; [lia|].
  eexists _, _. split; [reflexivity|]. split; [done|]. apply st_truncate; [lia|done].
Qed.

(** ** The claims *)

(** C17: the file system of semaphores implements its specification: every call returns what the abstract machine [sem_step] allows, and
    changes its state in the same way.  There names map to semaphores with counts; creating and looking up open a
    semaphore, removing takes the name away, reading and writing are P and V of any amount, and a semaphore is destroyed exactly when its last name and its last
    reference are gone. *)
Theorem semfs_refines m fuel s c :
  semfs_ok s → sem_call_ok s c → ∃ r s', semfs_do m (S fuel) c s = Ret r s' ∧ semfs_ok s' ∧ sem_step m (abs s) c r (abs s').
Proof.
  intros Hok Hc. destruct c as [nm|nm ex|nm|n|n u|n u|n len]; cbn [semfs_do sem_call_ok] in *.
  - destruct (lookup_run m s nm Hok Hc) as (r & s' & Hrun & Hok' & Hr). rewrite (run_bind_ret _ _ _ _ _ Hrun). eexists _, s'. split; [reflexivity|]. split; [done|].
    destruct r as [e|n]; cbn [of_sum].
    + destruct Hr as (-> & Hd & [[-> Hn]|(-> & Hm & [n Hn])]); [by apply st_lookup_none|by eapply st_lookup_memory].
    + destruct Hr as [Ha Hn]. destruct (is_dots nm) eqn:Hd; [subst n; by apply st_dots_lookup|by apply st_lookup].
  - destruct (is_dots nm) eqn:Hd; [|destruct (name_of s nm) as [n|] eqn:Hn].
    + unfold semfs_creat. rewrite Hd. eexists _, s. split; [reflexivity|]. split; [done|]. by apply st_dots_creat.
    + unfold semfs_creat. rewrite Hd, run_assoc, run_gets. unfold name_of in Hn. destruct (find_dent (semfs_dents s) nm 0) as [[i d]|] eqn:E; [|done]. injection Hn as Hn.
      assert (Hname : name_of s nm = Some n) by (unfold name_of; rewrite E; cbn; by rewrite Hn). destruct ex.
      * eexists _, s. split; [reflexivity|]. split; [done|]. by eapply st_creat_excl.
      * destruct (named_sem s nm n Hok Hname) as (x & Hx & _). rewrite Hn, run_assoc.
        destruct (getvnode_run m s n Hok) as (r & s' & Hrun & Hok' & Hdd & Hcc & Hr); [right; by exists x|]. rewrite (run_bind_ret _ _ _ _ _ Hrun). eexists _, s'.
        split; [reflexivity|]. split; [done|]. destruct r as [e|v].
        -- destruct Hr as (-> & -> & Hm). by eapply st_open_memory.
        -- destruct Hr as [-> H1]. apply st_creat_open; [done|done|]. by apply abs_same.
    + destruct (creat_new_run m s nm Hok Hd Hn ex) as ([e o] & s' & Hrun & Hok' & Hr). rewrite (run_bind_ret _ _ _ _ _ Hrun). eexists _, s'. split; [reflexivity|]. split; [done|].
      destruct Hr as [(n & -> & -> & H1 & H2 & _ & H3)|(-> & Ha & [->|[[-> Hm]|[-> Hm]]])]; [by apply st_creat|by apply st_full|by apply st_creat_memory|by apply st_lost].
  - destruct (is_dots nm) eqn:Hd.
    + unfold semfs_remove. rewrite Hd. eexists _, s. split; [reflexivity|]. split; [done|]. by apply st_dots_remove.
    + destruct (semfs_remove_run s nm Hok Hd) as (r & s' & Hrun & Hok' & Hr). rewrite (run_bind_ret _ _ _ _ _ Hrun). eexists _, s'. split; [reflexivity|]. split; [done|].
      destruct r as [e|[]]; [destruct Hr as (-> & Hn & ->); by apply st_remove_none|]. destruct Hr as (n & Hn & Hcol). by eapply st_remove.
  - destruct (semfs_decref_run s n Hok Hc) as (s' & Hrun & Hok' & Hcol). rewrite (run_bind_ret _ _ _ _ _ Hrun). eexists _, s'. split; [reflexivity|]. split; [done|]. by apply st_close.
  - destruct Hc as (x & Hx & Hu). pose proof (sk_count _ Hok n x Hx) as Hcnt. rewrite run_bind, (read_runs fuel s n u x Hok Hx Hu).
    assert (Ha : ab_count (abs s) n = Some (sems_count x)) by (cbn; by rewrite Hx). destruct (Z.eqb_spec (uio_resid u) 0) as [H0|H0].
    + eexists _, s. split; [reflexivity|]. split; [done|]. assert (E : u = uio_took (uio_resid u) u) by (by rewrite H0). cbn [of_code fst snd Z.eqb]. rewrite E at 2.
      eapply st_read; [done|]. by rewrite H0, Z.sub_0_r, set_count_id.
    + destruct (abs_count s n x (sems_count x - uio_resid u) Hok Hx) as [Hok' Heq]; [lia|]. eexists _, _. split; [reflexivity|]. split; [done|]. by eapply st_read.
  - destruct Hc as [[x Hx] Hu]. by apply (write_step m s n u x).
  - destruct Hc as [x Hx]. by apply (truncate_step m s n len x).
Qed.

(** C18: when P ends, among the Vs of other threads.  In every round of the loop of [semfs_read] other threads may write to
    the semaphore, [vs] being their requests round by round, with counts that do not overflow.  The read returns in the
    first round at which the count it started with and all that was posted before come to the amount it wants, it
    returns 0 with that amount moved, and leaves the count less by it; all else in the file system is as before.  In
    all rounds before it is still in the loop: as long as the posts do not suffice it spins, since waiting on a
    condition variable does nothing in this source. *)
Theorem semfs_read_ends s n u x vs :
  semfs_ok s → sem_at s n = Some x → 0 < uio_resid u < 2 ^ 32 → Forall (Forall (λ w, 0 ≤ uio_resid w)) vs → sems_count x + posted vs < 2 ^ 32 →
  (∀ k, (k < length vs)%nat → (∀ j, (j < k)%nat → sems_count x + posted (take j vs) < uio_resid u) → uio_resid u ≤ sems_count x + posted (take k vs) →
     ∃ s', semfs_read (posts n <$> vs) n u s = Ret (0, uio_took (uio_resid u) u) s' ∧ semfs_ok s' ∧
       abs s' ≡ ab_set_count n (Some (sems_count x + posted (take k vs) - uio_resid u)) (abs s)) ∧
  ((∀ j, (j < length vs)%nat → sems_count x + posted (take j vs) < uio_resid u) → semfs_read (posts n <$> vs) n u s = Diverge).
Proof.
  intros Hok Hx Hu Hvs Hb. pose proof (counts_start s n x Hok Hx) as C. unfold semfs_read. rewrite !(run_getsem _ s n x Hx). split.
  - intros k Hk Hlt Hge. destruct (read_returns s n x vs _ s u k C Hu Hvs Hb Hk Hlt Hge) as (s' & Hrun & [C1 _ C3]). exists s'. by rewrite (run_bind_ret _ _ _ _ _ Hrun).
  - intros Hlt. by rewrite run_bind, (read_spins s n x vs _ s u C Hu Hvs Hb Hlt).
Qed.
