(* ===== verification/SemfsDemo.v ===== *)
(** * SemfsDemo: a file system with one semaphore

    The theorems on semfs at work, and three places where the code does not do what it means to. *)

From Stdlib Require Import ZArith Lia.
From stdpp Require Import base gmap list option strings list_numbers.
From S2P Require Import Prelude Types Strings Uio Sfs SfsNode SfsNames Semfs SemfsInv SemfsCalls.
Set Default Goal Selector "!".
Open Scope Z_scope.

Definition enough : semfs_mem := SemfsMem true true true true true true true true true.
Definition red_sem : semfs_sem := SemfsSem 3 true true.
Definition red : list Z := [114].

(** The first entry of the directory was removed. *)
Definition red_fs : semfs := Semfs [Tnode SEMFS_ROOTDIR 1; Tnode 0 1] [Some red_sem; None] [None; Some (SemfsDirentry red 0)].

Lemma red_at n : sem_at red_fs n = if decide (n = 0) then Some red_sem else None.
Proof.
  unfold sem_at, slot_at. case_decide as H; [by subst|]. destruct (decide (n = 1)) as [->|]; [done|].
  destruct (arr_get (semfs_sems red_fs) n) eqn:E; [|done]. apply arr_get_range in E. cbn in E. lia.
Qed.
Lemma red_dent i : dent_at red_fs i = if decide (i = 1) then Some (SemfsDirentry red 0) else None.
Proof.
  unfold dent_at, slot_at. case_decide as H; [by subst|]. destruct (decide (i = 0)) as [->|]; [done|].
  destruct (arr_get (semfs_dents red_fs) i) eqn:E; [|done]. apply arr_get_range in E. cbn in E. lia.
Qed.

Lemma red_ok : semfs_ok red_fs.
Proof.
  assert (Hs : ∀ n x, sem_at red_fs n = Some x → n = 0 ∧ x = red_sem) by (intros n x; rewrite red_at; case_decide; naive_solver).
  assert (Hd : ∀ i d, dent_at red_fs i = Some d → i = 1 ∧ d = SemfsDirentry red 0) by (intros i d; rewrite red_dent; case_decide; naive_solver).
  split.
  - apply (bool_decide_unpack _). vm_compute. done.
  - intros t Ht. cbn in Ht. rewrite !elem_of_cons in Ht. by destruct Ht as [->|[->|H%elem_of_nil]].
  - intros n Hn. unfold has_vnode in Hn. cbn in Hn. rewrite !elem_of_cons in Hn. destruct Hn as [->|[->|H%elem_of_nil]]; [by left|right; by rewrite red_at|done].
  - intros n x [-> ->]%Hs. split; [intros _; unfold has_vnode; cbn; rewrite !elem_of_cons; tauto|done].
  - intros n x [-> ->]%Hs. split; [intros _; exists 1; eexists; split; [by rewrite red_dent|done]|done].
  - intros n x [-> ->]%Hs. by left.
  - intros n x [-> ->]%Hs. cbn. lia.
  - intros i d [-> ->]%Hd. by rewrite red_at.
  - intros i j d e [-> _]%Hd [-> _]%Hd. done.
  - cbn. unfold SEMFS_ROOTDIR. lia.
Qed.

Lemma semfs_refines_witness :
  ∃ r s', semfs_do enough 1 (SRemove red) red_fs = Ret r s' ∧ semfs_ok s' ∧ sem_step enough (abs red_fs) (SRemove red) r (abs s').
Proof. apply (semfs_refines enough 0 red_fs (SRemove red)); [exact red_ok|reflexivity]. Defined.

(** A P of 4 on the count 3: nothing is posted in the first round and 2 in the second, and it returns in the third; when nobody posts it
    is still in the loop. *)
Lemma semfs_read_ends_witness :
  (∃ s', semfs_read (posts 0 <$> [[]; [uio_kinit 0 2 0 UIO_WRITE]; []; []]) 0 (uio_kinit 0 4 0 UIO_READ) red_fs = Ret (0, uio_took 4 (uio_kinit 0 4 0 UIO_READ)) s' ∧
     abs s' ≡ ab_set_count 0 (Some 1) (abs red_fs)) ∧
  semfs_read (posts 0 <$> replicate 100 []) 0 (uio_kinit 0 4 0 UIO_READ) red_fs = Diverge.
Proof.
  split.
  - destruct (semfs_read_ends red_fs 0 (uio_kinit 0 4 0 UIO_READ) red_sem [[]; [uio_kinit 0 2 0 UIO_WRITE]; []; []]) as [H _];
      [exact red_ok|reflexivity|cbn; lia|repeat constructor; cbn; lia|cbn; lia|].
    destruct (H 2%nat) as (s' & Hrun & _ & Ha); [cbn; lia|intros [|[|j]] Hj; [reflexivity|reflexivity|lia]|cbn; lia|]. exists s'. exact (conj Hrun Ha).
  - destruct (semfs_read_ends red_fs 0 (uio_kinit 0 4 0 UIO_READ) red_sem (replicate 100 [])) as [_ H];
      [exact red_ok|reflexivity|cbn; lia|apply Forall_replicate; constructor|reflexivity|]. apply H.
    intros j Hj. rewrite length_replicate in Hj. rewrite take_replicate. replace (posted (replicate (j `min` 100) [])) with 0; [reflexivity|].
    clear. induction (j `min` 100)%nat as [|m IH]; [reflexivity|exact IH].
Defined.

(** A semaphore is created, removed while it is open, used, and destroyed by the last close; its number is then free again. *)
Example semfs_session :
  match (a ← semfs_creat enough [97] true;
         b ← semfs_creat enough [97] true;
         r ← semfs_remove [97];
         w ← semfs_write 1 (uio_kinit 0 5 0 UIO_WRITE);
         t ← semfs_semstat 1;
         x ← semfs_read (alone 1) 1 (uio_kinit 0 5 0 UIO_READ);
         y ← semfs_lookup enough [97];
         sem_decref 1 ;;
         c ← semfs_creat enough [98] false;
         mret (a, b, r, fst w, t, fst x, y, c)) red_fs with
  | Ret (a, b, r, w, t, x, y, c) s =>
      a = (0, Some 1) ∧ b = (EEXIST, None) ∧ r = inr tt ∧ w = 0 ∧ fst (fst t) = (5, 0) ∧ x = 0 ∧ y = inl ENOENT ∧ c = (0, Some 1)
  | _ => False
  end.
Proof. vm_compute. split_and!; done. Qed.

(** Without memory for the directory entry [semfs_creat] reports success and stores no vnode. *)
Example creat_reports_success :
  semfs_creat (SemfsMem true true true true false true true true true) [97] true red_fs = Ret (0, None) red_fs.
Proof. reflexivity. Qed.

(** Reading the directory at the slot of a removed entry follows a null pointer, and so does unmounting. *)
Example removed_entry_crashes :
  match semfs_getdirentry (uio_kinit 0 16 0 UIO_READ) (λ _, 0) red_fs, semfs_unmount (set_sem_vnodes [] red_fs) with
  | Panic _, Panic _ => True
  | _, _ => False
  end.
Proof. vm_compute. done. Qed.
