(* ===== verification/Vfs.v ===== *)
(** * Vfs: the virtual file system (vfslist.c, vfslookup.c, vfspath.c and vfscwd.c of kern/vfs)

    The table of named devices, path names and the operations on files by name.  File systems and devices are reached through
    the functions of their vnodes and of [struct fs], the record [VfsOps]; [VfsLaws] is what the layer relies on of
    them.  A path is the list of its characters without the terminator. *)

From Stdlib Require Import ZArith Lia.
From stdpp Require Import base gmap list option strings list_numbers.
From S2P Require Import Prelude Types Uio Sfs SfsNode.
Set Default Goal Selector "!".
Open Scope Z_scope.

Definition EXDEV : Z := 24.
Definition ENODEV : Z := 25.
Definition NAME_MAX : Z := 255.
Definition O_WRONLY : Z := 1.
Definition O_RDWR : Z := 2.
Definition O_CREAT : Z := 4.
Definition O_EXCL : Z := 8.
Definition O_TRUNC : Z := 16.
Definition COLON : Z := 58.
Definition SLASH : Z := 47.
Definition raw : list Z := [114; 97; 119].

(** The functions of vnodes [V] and of file systems [F], on the state [W] of all of them.  Creation of the vnode of a device (NULL for
    a file system without one) is [dev_create_vnode]. *)
Record VfsOps (W V F : Type) := {
  vn_fs : V → option F;
  vop_incref : V → K W unit;
  vop_decref : V → K W unit;
  vop_eachopen : V → Z → K W (Z + unit);
  vop_truncate : V → Z → K W (Z + unit);
  vop_gettype : V → K W (Z + Z);
  vop_lookup : V → list Z → K W (Z + V);
  vop_lookparent : V → list Z → Z → K W (Z + V * list Z);
  vop_creat : V → list Z → bool → Z → K W (Z + V);
  vop_link : V → list Z → V → K W (Z + unit);
  vop_remove : V → list Z → K W (Z + unit);
  vop_rename : V → list Z → V → list Z → K W (Z + unit);
  vop_symlink : V → list Z → list Z → K W (Z + unit);
  vop_mkdir : V → list Z → Z → K W (Z + unit);
  vop_rmdir : V → list Z → K W (Z + unit);
  vop_readlink : V → uio → K W (Z * uio);
  fsop_getroot : F → K W (Z + V);
  fsop_getvolname : F → W → option (list Z);
  fsop_sync : F → K W (Z + unit);
  fsop_unmount : F → K W (Z + unit);
  dev_create_vnode : option Z → K W V;
  dev_uncreate_vnode : V → K W unit;
  set_devnumber : Z → Z → K W unit;
}.
Arguments vn_fs {W V F}. Arguments vop_incref {W V F}. Arguments vop_decref {W V F}. Arguments vop_eachopen {W V F}.
Arguments vop_truncate {W V F}. Arguments vop_gettype {W V F}. Arguments vop_lookup {W V F}. Arguments vop_lookparent {W V F}.
Arguments vop_creat {W V F}. Arguments vop_link {W V F}. Arguments vop_remove {W V F}. Arguments vop_rename {W V F}.
Arguments vop_symlink {W V F}. Arguments vop_mkdir {W V F}. Arguments vop_rmdir {W V F}. Arguments vop_readlink {W V F}. Arguments fsop_getroot {W V F}.
Arguments fsop_getvolname {W V F}. Arguments fsop_sync {W V F}. Arguments fsop_unmount {W V F}.
Arguments dev_create_vnode {W V F}. Arguments dev_uncreate_vnode {W V F}. Arguments set_devnumber {W V F}.

(** What is mounted on a device: [kd_fs] is NULL, [SWAP_FS] or a file system. *)
Inductive mounted (F : Type) := NoFs | SwapFs | MountedFs (f : F).
Arguments NoFs {F}. Arguments SwapFs {F}. Arguments MountedFs {F}.

Record knowndev (V F : Type) := Knowndev {
  kd_name : list Z;
  kd_rawname : option (list Z);
  kd_device : option Z;
  kd_vnode : V;
  kd_fs : mounted F;
}.
Arguments Knowndev {V F}. Arguments kd_name {V F}. Arguments kd_rawname {V F}. Arguments kd_device {V F}.
Arguments kd_vnode {V F}. Arguments kd_fs {V F}.

(** The table, the vnode of the boot file system, the current directory of the process, and the vnodes. *)
Record vfs (W V F : Type) := VfsState {
  knowndevs : list (knowndev V F);
  bootfs_vnode : option V;
  p_cwd : option V;
  vfs_world : W;
}.
Arguments VfsState {W V F}. Arguments knowndevs {W V F}. Arguments bootfs_vnode {W V F}. Arguments p_cwd {W V F}. Arguments vfs_world {W V F}.

(** The first colon or slash of a path. *)
Fixpoint first_mark (path : list Z) (i : Z) : option (Z * Z) :=
  match path with
  | [] => None
  | c :: path' => if (c =? COLON) || (c =? SLASH) then Some (c, i) else first_mark path' (i + 1)
  end.

Fixpoint skip_slashes (path : list Z) : list Z :=
  match path with c :: path' => if c =? SLASH then skip_slashes path' else path | [] => [] end.

Section vfs.
Context {W V F : Type} (ops : VfsOps W V F).

Abbreviation VM := (K (vfs W V F)).

Definition on_world {A} (m : K W A) : VM A := λ s,
  match m (vfs_world s) with
  | Ret a w => Ret a (VfsState (knowndevs s) (bootfs_vnode s) (p_cwd s) w)
  | Panic e => Panic e
  | Exit c w => Exit c (VfsState (knowndevs s) (bootfs_vnode s) (p_cwd s) w)
  | Diverge => Diverge
  end.
Definition set_devs (l : list (knowndev V F)) (s : vfs W V F) : vfs W V F := VfsState l (bootfs_vnode s) (p_cwd s) (vfs_world s).
Definition set_bootfs (v : option V) (s : vfs W V F) : vfs W V F := VfsState (knowndevs s) v (p_cwd s) (vfs_world s).
Definition set_cwd (v : option V) (s : vfs W V F) : vfs W V F := VfsState (knowndevs s) (bootfs_vnode s) v (vfs_world s).
Definition set_kd_fs (x : mounted F) (kd : knowndev V F) : knowndev V F := Knowndev (kd_name kd) (kd_rawname kd) (kd_device kd) (kd_vnode kd) x.

Definition is_null {A} (o : option A) : bool := match o with None => true | Some _ => false end.
Definition same (a b : list Z) : bool := bool_decide (a = b).

(** ** vfslist.c *)

Definition fs_of (m : mounted F) : option F := match m with MountedFs f => Some f | _ => None end.
Definition is_nofs (m : mounted F) : bool := match m with NoFs => true | _ => false end.

Fixpoint sync_all_loop (l : list (knowndev V F)) : VM unit :=
  match l with
  | [] => mret tt
  | kd :: l' => (match kd_fs kd with MountedFs f => _ ← on_world (fsop_sync ops f); mret tt | _ => mret tt end) ;; sync_all_loop l'
  end.
Definition vfs_sync : VM (Z + unit) := l ← gets knowndevs; sync_all_loop l ;; mret (inr tt).

(** The device itself. *)
Definition give_device (kd : knowndev V F) : VM (Z + V) :=
  KASSERT (negb (is_null (kd_device kd))) "kd->kd_device != NULL" ;;
  on_world (vop_incref ops (kd_vnode kd)) ;; mret (inr (kd_vnode kd)).

Fixpoint getroot_loop (l : list (knowndev V F)) (devname : list Z) : VM (Z + V) :=
  match l with
  | [] => mret (inl ENODEV)
  | kd :: l' =>
      w ← gets vfs_world;
      let rest :=
        if same (kd_name kd) devname then
          KASSERT (is_nofs (kd_fs kd)) "kd->kd_fs==NULL" ;;
          KASSERT (is_null (kd_rawname kd)) "kd->kd_rawname==NULL" ;;
          give_device kd
        else if match kd_rawname kd with Some r => same r devname | None => false end then give_device kd
        else getroot_loop l' devname in
      match kd_fs kd with
      | MountedFs f =>
          if same (kd_name kd) devname || match fsop_getvolname ops f w with Some n => same n devname | None => false end
          then on_world (fsop_getroot ops f) else rest
      | _ => if negb (is_null (kd_rawname kd)) && same (kd_name kd) devname then mret (inl ENXIO) else rest
      end
  end.
Definition vfs_getroot (devname : list Z) : VM (Z + V) := l ← gets knowndevs; getroot_loop l devname.

Definition samestring (a b : option (list Z)) : bool := match a, b with Some x, Some y => same x y | _, _ => false end.
Definition samestring3 (a b c d : option (list Z)) : bool := samestring a b || samestring a c || samestring a d.

Fixpoint badnames (w : W) (l : list (knowndev V F)) (n1 n2 n3 : option (list Z)) : bool :=
  match l with
  | [] => false
  | kd :: l' =>
      match kd_fs kd with MountedFs f => samestring3 (fsop_getvolname ops f w) n1 n2 n3 | _ => false end ||
      samestring3 (kd_rawname kd) n1 n2 n3 || samestring3 (Some (kd_name kd)) n1 n2 n3 || badnames w l' n1 n2 n3
  end.

(** Which allocations of [vfs_doadd] find memory: the name, the raw name, the vnode, the entry and the table. *)
Record doadd_mem := DoaddMem { m_name : bool; m_raw : bool; m_vnode : bool; m_kd : bool; m_table : bool }.

Definition vfs_doadd (m : doadd_mem) (dname : list Z) (mountable : bool) (dev : option Z) (fs : option F) : VM (Z + unit) :=
  if negb (m_name m) then mret (inl ENOMEM)
  else if mountable && negb (m_raw m) then mret (inl ENOMEM)
  else
    let rawname := if mountable then Some (dname ++ raw) else None in
    if negb (m_vnode m) then mret (inl ENOMEM)
    else
      vnode ← on_world (dev_create_vnode ops dev);
      if negb (m_kd m) then on_world (dev_uncreate_vnode ops vnode) ;; mret (inl ENOMEM)
      else
        s ← gets (λ s, s);
        let volname := f ← fs; fsop_getvolname ops f (vfs_world s) in
        if badnames (vfs_world s) (knowndevs s) (Some dname) rawname volname then
          on_world (dev_uncreate_vnode ops vnode) ;; mret (inl EEXIST)
        else if negb (m_table m) then on_world (dev_uncreate_vnode ops vnode) ;; mret (inl ENOMEM)
        else
          let kd := Knowndev dname rawname dev vnode (match fs with Some f => MountedFs f | None => NoFs end) in
          modify (λ s, set_devs (knowndevs s ++ [kd]) s) ;;
          match dev with Some d => on_world (set_devnumber ops d (zlen (knowndevs s) + 1)) | None => mret tt end ;;
          mret (inr tt).

Definition vfs_adddev (m : doadd_mem) (devname : list Z) (dev : option Z) (mountable : bool) : VM (Z + unit) := vfs_doadd m devname mountable dev None.
Definition vfs_addfs (m : doadd_mem) (devname : list Z) (fs : F) : VM (Z + unit) := vfs_doadd m devname false None (Some fs).

(** The index of the mountable device with this name. *)
Fixpoint findmount (l : list (knowndev V F)) (devname : list Z) : option nat :=
  match l with
  | [] => None
  | kd :: l' => if negb (is_null (kd_rawname kd)) && same devname (kd_name kd) then Some O else S <$> findmount l' devname
  end.

Definition with_mount {A} (devname : list Z) (k : nat → knowndev V F → VM (Z + A)) : VM (Z + A) :=
  l ← gets knowndevs;
  match findmount l devname with None => mret (inl ENODEV) | Some i => kd ← deref (l !! i); k i kd end.
Definition put_kd_fs (i : nat) (x : mounted F) : VM unit := modify (λ s, set_devs (alter (set_kd_fs x) i (knowndevs s)) s).
Definition check_mountable (kd : knowndev V F) : VM unit :=
  KASSERT (negb (is_null (kd_rawname kd))) "kd->kd_rawname != NULL" ;; KASSERT (negb (is_null (kd_device kd))) "kd->kd_device != NULL".

Definition vfs_mount (devname : list Z) (mountfunc : option Z → K W (Z + F)) : VM (Z + unit) :=
  with_mount devname (λ i kd,
    if negb (is_nofs (kd_fs kd)) then mret (inl EBUSY)
    else check_mountable kd ;; f ←! on_world (mountfunc (kd_device kd)); put_kd_fs i (MountedFs f) ;; mret (inr tt)).

(** [dupmem]: there is memory for the copy of a name that ends in a colon. *)
Definition vfs_swapon (dupmem : bool) (devname : list Z) : VM (Z + V) :=
  let colon := bool_decide (last devname = Some COLON) in
  if colon && negb dupmem then mret (inl ENOMEM)
  else
    with_mount (if colon then take (length devname - 1) devname else devname) (λ i kd,
      if negb (is_nofs (kd_fs kd)) then mret (inl EBUSY)
      else check_mountable kd ;; put_kd_fs i SwapFs ;; on_world (vop_incref ops (kd_vnode kd)) ;; mret (inr (kd_vnode kd))).

Definition vfs_unmount (devname : list Z) : VM (Z + unit) :=
  with_mount devname (λ i kd,
    match fs_of (kd_fs kd) with
    | None => mret (inl EINVAL)
    | Some f =>
        check_mountable kd ;; _ ←! on_world (fsop_sync ops f); _ ←! on_world (fsop_unmount ops f); put_kd_fs i NoFs ;; mret (inr tt)
    end).

Definition vfs_swapoff (devname : list Z) : VM (Z + unit) :=
  with_mount devname (λ i kd, match kd_fs kd with SwapFs => put_kd_fs i NoFs ;; mret (inr tt) | _ => mret (inl EINVAL) end).

(** The devices from number [i]. *)
Fixpoint unmountall_loop (l : list (knowndev V F)) (i : nat) : VM unit :=
  match l with
  | [] => mret tt
  | kd :: l' =>
      (if is_null (kd_rawname kd) then mret tt
       else match kd_fs kd with
       | NoFs => mret tt
       | SwapFs => put_kd_fs i NoFs
       | MountedFs f =>
           r ← on_world (fsop_sync ops f);
           r ← (match r with inl _ => on_world (fsop_sync ops f) | inr _ => mret r end);
           match r with
           | inl _ => mret tt
           | inr _ => u ← on_world (fsop_unmount ops f); match u with inl _ => mret tt | inr _ => put_kd_fs i NoFs end
           end
       end) ;;
      unmountall_loop l' (S i)
  end.
Definition vfs_unmountall : VM (Z + unit) := l ← gets knowndevs; unmountall_loop l 0 ;; mret (inr tt).

(** ** vfscwd.c *)

Definition vfs_getcurdir : VM (Z + V) :=
  o ← gets p_cwd;
  match o with None => mret (inl ENOENT) | Some v => on_world (vop_incref ops v) ;; mret (inr v) end.

Definition drop_old (o : option V) : VM unit := match o with None => mret tt | Some v => on_world (vop_decref ops v) end.

Definition vfs_setcurdir (dir : V) : VM (Z + unit) :=
  vtype ←! on_world (vop_gettype ops dir);
  if negb (vtype =? S_IFDIR) then mret (inl ENOTDIR)
  else on_world (vop_incref ops dir) ;; old ← gets p_cwd; modify (set_cwd (Some dir)) ;; drop_old old ;; mret (inr tt).

Definition vfs_clearcurdir : VM (Z + unit) := old ← gets p_cwd; modify (set_cwd None) ;; drop_old old ;; mret (inr tt).

(** ** vfslookup.c *)

(** The rest of the path and the vnode where it starts. *)
Definition getdevice (path : list Z) : VM (Z + list Z * V) :=
  match path with
  | [] => mret (inl EINVAL)
  | c0 :: tl =>
      match first_mark path 0 with
      | None => v ←! vfs_getcurdir; mret (inr (path, v))
      | Some (c, i) =>
          if (c =? SLASH) && negb (i =? 0) then v ←! vfs_getcurdir; mret (inr (path, v))
          else if (c =? COLON) && (0 <? i) then
            v ←! vfs_getroot (take (Z.to_nat i) path);
            mret (inr (skip_slashes (drop (Z.to_nat i + 1) path), v))
          else if c0 =? SLASH then
            o ← gets bootfs_vnode;
            match o with
            | None => mret (inl ENOENT)
            | Some v => on_world (vop_incref ops v) ;; mret (inr (skip_slashes tl, v))
            end
          else
            KASSERT (c0 =? COLON) "path[0]==':'" ;;
            vn ←! vfs_getcurdir;
            f ← (KASSERT (negb (is_null (vn_fs ops vn))) "vn->vn_fs!=NULL" ;; deref (vn_fs ops vn));
            r ← on_world (fsop_getroot ops f);
            on_world (vop_decref ops vn) ;;
            match r with inl e => mret (inl e) | inr v => mret (inr (skip_slashes tl, v)) end
      end
  end.

Definition vfs_lookparent (path : list Z) (buflen : Z) : VM (Z + V * list Z) :=
  x ←! getdevice path;
  let '(sub, startvn) := x in
  r ← (if zlen sub =? 0 then mret (inl EINVAL) else on_world (vop_lookparent ops startvn sub buflen));
  on_world (vop_decref ops startvn) ;; mret r.

Definition vfs_lookup (path : list Z) : VM (Z + V) :=
  x ←! getdevice path;
  let '(sub, startvn) := x in
  if zlen sub =? 0 then mret (inr startvn)
  else r ← on_world (vop_lookup ops startvn sub); on_world (vop_decref ops startvn) ;; mret r.

Definition vfs_chdir (path : list Z) : VM (Z + unit) :=
  vn ←! vfs_lookup path; r ← vfs_setcurdir vn; on_world (vop_decref ops vn) ;; mret r.

Definition change_bootfs (newvn : option V) : VM unit := oldvn ← gets bootfs_vnode; modify (set_bootfs newvn) ;; drop_old oldvn.

(** The name is cut to the size of the buffer; the text from the colon that [strchr] finds must be empty. *)
Definition vfs_setbootfs (fsname : list Z) : VM (Z + unit) :=
  let tmp := take (Z.to_nat (NAME_MAX - 1)) fsname in
  let start (name : list Z) :=
    _ ←! vfs_chdir name; newguy ←! vfs_getcurdir; change_bootfs (Some newguy) ;; mret (inr tt) in
  match list_find (λ c, c = COLON) tmp with
  | Some (i, _) => if 0 <? zlen (drop i tmp) then mret (inl EINVAL) else start tmp
  | None => start (tmp ++ [COLON])
  end.
Definition vfs_clearbootfs : VM unit := change_bootfs None.

(** ** vfspath.c *)

Definition vfs_open (path : list Z) (openflags mode : Z) : VM (Z + V) :=
  let how := Z.land openflags O_ACCMODE in
  if negb ((how =? O_RDONLY) || (how =? O_WRONLY) || (how =? O_RDWR)) then mret (inl EINVAL)
  else
    let canwrite := negb (how =? O_RDONLY) in
    vn ←! (if negb (Z.land openflags O_CREAT =? 0) then
             x ←! vfs_lookparent path (NAME_MAX + 1);
             let '(dir, name) := x in
             r ← on_world (vop_creat ops dir name (negb (Z.land openflags O_EXCL =? 0)) mode);
             on_world (vop_decref ops dir) ;; mret r
           else vfs_lookup path);
    r ← on_world (vop_eachopen ops vn openflags);
    match r with
    | inl e => on_world (vop_decref ops vn) ;; mret (inl e)
    | inr _ =>
        if negb (Z.land openflags O_TRUNC =? 0) then
          r ← (if negb canwrite then mret (inl EINVAL) else on_world (vop_truncate ops vn 0));
          match r with
          | inl e => on_world (vop_decref ops vn) ;; mret (inl e)
          | inr _ => mret (inr vn)
          end
        else mret (inr vn)
    end.

Definition vfs_close (vn : V) : VM unit := on_world (vop_decref ops vn).

(** The operations that take the directory and the last name of a path. *)
Definition in_parent (path : list Z) (m : V → list Z → K W (Z + unit)) : VM (Z + unit) :=
  x ←! vfs_lookparent path (NAME_MAX + 1);
  let '(dir, name) := x in
  r ← on_world (m dir name); on_world (vop_decref ops dir) ;; mret r.

Definition vfs_remove (path : list Z) : VM (Z + unit) := in_parent path (vop_remove ops).
Definition vfs_symlink (target path : list Z) : VM (Z + unit) := in_parent path (λ dir name, vop_symlink ops dir name target).
Definition vfs_mkdir (path : list Z) (mode : Z) : VM (Z + unit) := in_parent path (λ dir name, vop_mkdir ops dir name mode).
Definition vfs_rmdir (path : list Z) : VM (Z + unit) := in_parent path (vop_rmdir ops).

(** The result is 0 or an error, and the request with what was moved. *)
Definition vfs_readlink (path : list Z) (u : uio) : VM (Z * uio) :=
  x ← vfs_lookup path;
  match x with
  | inl e => mret (e, u)
  | inr vn => r ← on_world (vop_readlink ops vn u); on_world (vop_decref ops vn) ;; mret r
  end.

Context `{EqDecision F}.

Definition same_volume (a b : V) : bool :=
  match vn_fs ops a, vn_fs ops b with Some f, Some g => bool_decide (f = g) | _, _ => false end.

Definition vfs_rename (oldpath newpath : list Z) : VM (Z + unit) :=
  x ←! vfs_lookparent oldpath (NAME_MAX + 1);
  let '(olddir, oldname) := x in
  y ← vfs_lookparent newpath (NAME_MAX + 1);
  match y with
  | inl e => on_world (vop_decref ops olddir) ;; mret (inl e)
  | inr (newdir, newname) =>
      r ← (if same_volume olddir newdir then on_world (vop_rename ops olddir oldname newdir newname) else mret (inl EXDEV));
      on_world (vop_decref ops newdir) ;; on_world (vop_decref ops olddir) ;; mret r
  end.

Definition vfs_link (oldpath newpath : list Z) : VM (Z + unit) :=
  oldfile ←! vfs_lookup oldpath;
  y ← vfs_lookparent newpath (NAME_MAX + 1);
  match y with
  | inl e => on_world (vop_decref ops oldfile) ;; mret (inl e)
  | inr (newdir, newname) =>
      r ← (if same_volume oldfile newdir then on_world (vop_link ops newdir newname oldfile) else mret (inl EXDEV));
      on_world (vop_decref ops newdir) ;; on_world (vop_decref ops oldfile) ;; mret r
  end.

End vfs.
