(* ===== verification/VfsRefs.v ===== *)
(** * VfsRefs: references to vnodes through the virtual file system

    [VfsLaws] states what the VFS relies on of file systems and devices: above all, which references their functions
    take and give back.  The operations by path name then neither lose nor leak a reference, on any path of errors. *)

From Stdlib Require Import ZArith Lia.
From stdpp Require Import base gmap list option strings list_numbers.
From S2P Require Import Prelude Types Uio Sfs SfsNode Vfs.
Set Default Goal Selector "!".
Open Scope Z_scope.

Definition chars (p : list Z) : Prop := Forall (λ c, 0 < c < 256) p.

(** The code returns, in a state with [Q]. *)
Definition runs {S A} (m : K S A) (s : S) (Q : A → S → Prop) : Prop := ∃ a s', m s = Ret a s' ∧ Q a s'.

Lemma runs_ret {S A} (a : A) (s : S) (Q : A → S → Prop) : Q a s → runs (mret a) s Q.
Proof. intros H. by exists a, s. Qed.

Lemma runs_bind {S A B} (m : K S A) (f : A → K S B) (s : S) (Q : B → S → Prop) :
  runs m s (λ a s', runs (f a) s' Q) → runs (mbind f m) s Q.
Proof. intros (a & s1 & Hm & b & s2 & Hf & HQ). exists b, s2. split; [|done]. by rewrite (run_bind_ret _ _ _ _ _ Hm). Qed.

Lemma runs_ebind {S A B} (m : K S (Z + A)) (f : A → K S (Z + B)) (s : S) (Q : Z + B → S → Prop) :
  runs m s (λ r s', match r with inl e => Q (inl e) s' | inr a => runs (f a) s' Q end) → runs (ebind m f) s Q.
Proof. intros H. unfold ebind. apply runs_bind. destruct H as ([e|a] & s' & Hm & HQ); eexists _, s'; (split; [exact Hm|]); [by apply runs_ret|done]. Qed.

Lemma runs_mono {S A} (m : K S A) (s : S) (Q Q' : A → S → Prop) : runs m s Q → (∀ a s', Q a s' → Q' a s') → runs m s Q'.
Proof. intros (a & s' & Hm & HQ) H. exists a, s'. split; [done|]. by apply H. Qed.

Lemma runs_gets {S A B} (g : S → A) (f : A → K S B) (s : S) (Q : B → S → Prop) : runs (f (g s)) s Q → runs (mbind f (gets g)) s Q.
Proof. intros (b & s' & H & HQ). exists b, s'. by rewrite run_gets. Qed.

Lemma runs_modify {S B} (g : S → S) (f : unit → K S B) (s : S) (Q : B → S → Prop) : runs (f tt) (g s) Q → runs (mbind f (modify g)) s Q.
Proof. intros (b & s' & H & HQ). exists b, s'. by rewrite run_modify. Qed.

Lemma runs_assert {S B} (c : bool) why (f : unit → K S B) (s : S) (Q : B → S → Prop) : c = true → runs (f tt) s Q → runs (mbind f (KASSERT c why)) s Q.
Proof. intros Hc (b & s' & H & HQ). exists b, s'. by rewrite run_assert. Qed.

Section refs.
Context {W V F : Type} `{EqDecision V, EqDecision F} (ops : VfsOps W V F).

Definition plus_ref (x : V) (d : Z) (c : V → Z) (v : V) : Z := if decide (v = x) then c v + d else c v.

(** What file systems and devices promise: [inv] holds between operations, [vrefs] counts references, and [vdir] are directories.  The
    vnode of a device is [permanent]: its last reference is never given up. *)
Class VfsLaws (inv : W → Prop) (vrefs : W → V → Z) (vdir permanent : V → Prop) : Prop := {
  l_dir : ∀ v, vdir v → is_Some (vn_fs ops v);
  l_incref : ∀ v w, inv w → 0 < vrefs w v → runs (vop_incref ops v) w (λ _ w', inv w' ∧ ∀ y, vrefs w' y = plus_ref v 1 (vrefs w) y);
  l_decref : ∀ v w, inv w → 0 < vrefs w v → (permanent v → 1 < vrefs w v) → runs (vop_decref ops v) w (λ _ w', inv w' ∧ ∀ y, vrefs w' y = plus_ref v (-1) (vrefs w) y);
  l_gettype : ∀ v w, inv w → 0 < vrefs w v →
    runs (vop_gettype ops v) w (λ r w', inv w' ∧ (∀ y, vrefs w' y = vrefs w y) ∧ (r = inr S_IFDIR → vdir v));
  l_eachopen : ∀ v fl w, inv w → 0 < vrefs w v → runs (vop_eachopen ops v fl) w (λ _ w', inv w' ∧ ∀ y, vrefs w' y = vrefs w y);
  l_truncate : ∀ v w, inv w → 0 < vrefs w v → runs (vop_truncate ops v 0) w (λ _ w', inv w' ∧ ∀ y, vrefs w' y = vrefs w y);
  l_lookup : ∀ v p w, inv w → 0 < vrefs w v → chars p →
    runs (vop_lookup ops v p) w (λ r w', inv w' ∧ match r with inl _ => ∀ y, vrefs w' y = vrefs w y | inr x => ∀ y, vrefs w' y = plus_ref x 1 (vrefs w) y end);
  l_lookparent : ∀ v p n w, inv w → 0 < vrefs w v → chars p →
    runs (vop_lookparent ops v p n) w (λ r w', inv w' ∧ match r with
      | inl _ => ∀ y, vrefs w' y = vrefs w y
      | inr (d, name) => vdir d ∧ chars name ∧ ∀ y, vrefs w' y = plus_ref d 1 (vrefs w) y end);
  l_creat : ∀ d nm ex mode w, inv w → 0 < vrefs w d → vdir d → chars nm →
    runs (vop_creat ops d nm ex mode) w (λ r w', inv w' ∧ match r with inl _ => ∀ y, vrefs w' y = vrefs w y | inr x => ∀ y, vrefs w' y = plus_ref x 1 (vrefs w) y end);
  l_link : ∀ d nm f w, inv w → 0 < vrefs w d → 0 < vrefs w f → vdir d → same_volume ops f d = true → chars nm →
    runs (vop_link ops d nm f) w (λ _ w', inv w' ∧ ∀ y, vrefs w' y = vrefs w y);
  l_remove : ∀ d nm w, inv w → 0 < vrefs w d → vdir d → chars nm → runs (vop_remove ops d nm) w (λ _ w', inv w' ∧ ∀ y, vrefs w' y = vrefs w y);
  l_rename : ∀ d1 n1 d2 n2 w, inv w → 0 < vrefs w d1 → 0 < vrefs w d2 → vdir d1 → vdir d2 → same_volume ops d1 d2 = true → chars n1 → chars n2 →
    runs (vop_rename ops d1 n1 d2 n2) w (λ _ w', inv w' ∧ ∀ y, vrefs w' y = vrefs w y);
  l_symlink : ∀ d nm t w, inv w → 0 < vrefs w d → vdir d → chars nm → runs (vop_symlink ops d nm t) w (λ _ w', inv w' ∧ ∀ y, vrefs w' y = vrefs w y);
  l_mkdir : ∀ d nm mode w, inv w → 0 < vrefs w d → vdir d → chars nm → runs (vop_mkdir ops d nm mode) w (λ _ w', inv w' ∧ ∀ y, vrefs w' y = vrefs w y);
  l_rmdir : ∀ d nm w, inv w → 0 < vrefs w d → vdir d → chars nm → runs (vop_rmdir ops d nm) w (λ _ w', inv w' ∧ ∀ y, vrefs w' y = vrefs w y);
  l_readlink : ∀ v u w, inv w → 0 < vrefs w v → runs (vop_readlink ops v u) w (λ _ w', inv w' ∧ ∀ y, vrefs w' y = vrefs w y);
  l_getroot : ∀ f w, inv w →
    runs (fsop_getroot ops f) w (λ r w', inv w' ∧ match r with inl _ => ∀ y, vrefs w' y = vrefs w y | inr x => vdir x ∧ ∀ y, vrefs w' y = plus_ref x 1 (vrefs w) y end);
}.

Context (inv : W → Prop) (vrefs : W → V → Z) (vdir permanent : V → Prop) `{L : !VfsLaws inv vrefs vdir permanent}.
Implicit Types s : vfs W V F.

(** ** Who holds references *)

Definition one (x v : V) : Z := if decide (v = x) then 1 else 0.
Definition held_opt (o : option V) (v : V) : Z := match o with Some x => one x v | None => 0 end.
(** The vnode of an entry without a device is never handed out, and not counted. *)
Fixpoint held_devs (l : list (knowndev V F)) (v : V) : Z :=
  match l with [] => 0 | kd :: l' => (if is_null (kd_device kd) then 0 else one (kd_vnode kd) v) + held_devs l' v end.
Definition held s (v : V) : Z := held_devs (knowndevs s) v + held_opt (bootfs_vnode s) v + held_opt (p_cwd s) v.

(** The references that the callers of the VFS have. *)
Definition owned s (v : V) : Z := vrefs (vfs_world s) v - held s v.

(** An entry of the table: a device that can be mounted exists, and so does one that is used as itself. *)
Record kd_wf (kd : knowndev V F) : Prop := {
  kw_raw : is_Some (kd_rawname kd) → is_Some (kd_device kd);
  kw_plain : kd_fs kd = NoFs → is_Some (kd_device kd);
  kw_swap : kd_fs kd = SwapFs → is_Some (kd_rawname kd);
}.

Record vfs_ok s : Prop := {
  vk_inv : inv (vfs_world s);
  vk_devs : Forall kd_wf (knowndevs s);
  vk_boot : ∀ v, bootfs_vnode s = Some v → vdir v;
  vk_cwd : ∀ v, p_cwd s = Some v → vdir v;
  vk_perm : ∀ v, permanent v → 0 < held_devs (knowndevs s) v;
  vk_held : ∀ v, 0 ≤ owned s v;
}.

Lemma one_nonneg x v : 0 ≤ one x v.
Proof. unfold one. case_decide; lia. Qed.
Lemma one_eq x : one x x = 1.
Proof. unfold one. by rewrite decide_True. Qed.
Lemma opt_nonneg o v : 0 ≤ held_opt o v.
Proof. destruct o; cbn; [apply one_nonneg|done]. Qed.
Lemma devs_nonneg l v : 0 ≤ held_devs l v.
Proof. induction l as [|kd l IH]; cbn; [done|]. pose proof (one_nonneg (kd_vnode kd) v). destruct (is_null _); lia. Qed.
Lemma plus_one x d c v : plus_ref x d c v = c v + d * one x v.
Proof. unfold plus_ref, one. case_decide; lia. Qed.

(** ** Steps *)

(** The state is well formed, and the references of the callers are as before but for [g]. *)
Definition vmoved s s' (g : V → Z) : Prop := vfs_ok s' ∧ ∀ v, owned s' v = owned s v + g v.
Definition none (v : V) : Z := 0.

Lemma vmoved_refl s : vfs_ok s → vmoved s s none.
Proof. intros H. split; [done|]. intros v. unfold none. lia. Qed.

Lemma vmoved_trans s s1 s2 g h k : vmoved s s1 g → vmoved s1 s2 h → (∀ v, g v + h v = k v) → vmoved s s2 k.
Proof. intros [_ A] [Hok B] E. split; [done|]. intros v. rewrite B, A, <- E. lia. Qed.

Lemma vmoved_owned s s' x : vfs_ok s → vmoved s s' (one x) → 0 < owned s' x.
Proof. intros Hok [_ A]. rewrite A, one_eq. pose proof (vk_held _ Hok x). lia. Qed.

Lemma owned_refs s v : 0 < owned s v → 0 < vrefs (vfs_world s) v.
Proof. unfold owned, held. pose proof (devs_nonneg (knowndevs s) v). pose proof (opt_nonneg (bootfs_vnode s) v). pose proof (opt_nonneg (p_cwd s) v). lia. Qed.

Lemma owned_perm s v : vfs_ok s → 0 < owned s v → permanent v → 1 < vrefs (vfs_world s) v.
Proof.
  intros Hok Ho Hp. pose proof (vk_perm _ Hok v Hp). unfold owned, held in Ho.
  pose proof (opt_nonneg (bootfs_vnode s) v). pose proof (opt_nonneg (p_cwd s) v). lia.
Qed.

Definition set_world (w : W) s : vfs W V F := VfsState (knowndevs s) (bootfs_vnode s) (p_cwd s) w.

Lemma runs_world {A} (m : K W A) s (Q : A → vfs W V F → Prop) : runs m (vfs_world s) (λ a w', Q a (set_world w' s)) → runs (on_world m) s Q.
Proof. intros (a & w' & H & HQ). exists a, (set_world w' s). split; [|done]. unfold on_world. by rewrite H. Qed.

Lemma world_moved s w' g : vfs_ok s → inv w' → (∀ y, vrefs w' y = vrefs (vfs_world s) y + g y) → (∀ v, 0 ≤ owned s v + g v) → vmoved s (set_world w' s) g.
Proof.
  intros [K1 K2 K3 K4 K5 K6] Hi Hr Hg. assert (E : ∀ v, owned (set_world w' s) v = owned s v + g v).
  { intros v. unfold owned. cbn [set_world vfs_world]. rewrite Hr. change (held (set_world w' s) v) with (held s v). lia. }
  split; [|done]. split; [done|done|done|done|done|]. intros v. rewrite E. apply Hg.
Qed.

Lemma world_same s w' : vfs_ok s → inv w' → (∀ y, vrefs w' y = vrefs (vfs_world s) y) → vmoved s (set_world w' s) none.
Proof. intros Hok Hi Hr. apply world_moved; [done|done|intros y; unfold none; rewrite Hr; lia|]. intros v. pose proof (vk_held _ Hok v). unfold none. lia. Qed.

Lemma world_add s w' x : vfs_ok s → inv w' → (∀ y, vrefs w' y = plus_ref x 1 (vrefs (vfs_world s)) y) → vmoved s (set_world w' s) (one x).
Proof.
  intros Hok Hi Hr. apply world_moved; [done|done|intros y; rewrite Hr, plus_one; lia|]. intros v. pose proof (vk_held _ Hok v). pose proof (one_nonneg x v). lia.
Qed.

Definition minus (x v : V) : Z := - one x v.

Lemma incref_runs s v : vfs_ok s → 0 < vrefs (vfs_world s) v → runs (on_world (vop_incref ops v)) s (λ _ s', vmoved s s' (one v)).
Proof.
  intros Hok Hr. apply runs_world. eapply runs_mono; [apply (l_incref v _ (vk_inv _ Hok) Hr)|]. intros [] w' [Hi E]. by apply world_add.
Qed.

Lemma decref_runs s v : vfs_ok s → 0 < owned s v → runs (on_world (vop_decref ops v)) s (λ _ s', vmoved s s' (minus v)).
Proof.
  intros Hok Ho. apply runs_world. eapply runs_mono; [apply (l_decref v _ (vk_inv _ Hok) (owned_refs _ _ Ho) (owned_perm _ _ Hok Ho))|]. intros [] w' [Hi E].
  apply world_moved; [done|done|intros y; rewrite E, plus_one; unfold minus; lia|]. intros y. unfold minus, one. pose proof (vk_held _ Hok y). case_decide as Hy; [subst y|]; lia.
Qed.

(** The reference to [x] that was taken is given back. *)
Lemma decref_after {A} s s1 x g (r : A) (Q : A → vfs W V F → Prop) :
  vmoved s s1 (λ v, g v + one x v) → (∀ v, 0 ≤ owned s v + g v) → (∀ s', vmoved s s' g → Q r s') → runs (on_world (vop_decref ops x) ;; mret r) s1 Q.
Proof.
  intros [Hok1 M] Hg HQ. apply runs_bind. eapply runs_mono; [apply (decref_runs s1 x Hok1)|].
  - rewrite M, one_eq. pose proof (Hg x). lia.
  - intros [] s2 M2. apply runs_ret, HQ. eapply vmoved_trans; [split; [exact Hok1|exact M]|exact M2|]. intros v. unfold minus. lia.
Qed.

Lemma dev_refs s kd : vfs_ok s → kd ∈ knowndevs s → is_Some (kd_device kd) → 0 < vrefs (vfs_world s) (kd_vnode kd).
Proof.
  intros Hok Hin [d Hd]. pose proof (vk_held _ Hok (kd_vnode kd)) as Ho. unfold owned, held in Ho.
  assert (H : 1 ≤ held_devs (knowndevs s) (kd_vnode kd)).
  { clear Ho. induction (knowndevs s) as [|k l IH]; [by apply not_elem_of_nil in Hin|]. cbn. apply elem_of_cons in Hin as [->|Hin].
    - rewrite Hd, one_eq. pose proof (devs_nonneg l (kd_vnode k)). cbn. lia.
    - pose proof (one_nonneg (kd_vnode k) (kd_vnode kd)). specialize (IH Hin). destruct (is_null _); lia. }
  pose proof (opt_nonneg (bootfs_vnode s) (kd_vnode kd)). pose proof (opt_nonneg (p_cwd s) (kd_vnode kd)). lia.
Qed.

(** What a lookup leaves: a new reference to what it returns, or nothing. *)
Definition got {A} s (r : Z + A) s' (vn : A → V) : Prop := vmoved s s' (match r with inl _ => none | inr a => one (vn a) end).

(** A vnode that was only needed on the way is given back. *)
Lemma decref_got {A} s s1 s2 x (r : Z + A) vn (Q : Z + A → vfs W V F → Prop) :
  vfs_ok s → vmoved s s1 (one x) → got s1 r s2 vn → (∀ s', got s r s' vn → Q r s') → runs (on_world (vop_decref ops x) ;; mret r) s2 Q.
Proof.
  intros Hok M1 M2 HQ. apply (decref_after s s2 x (match r with inl _ => none | inr a => one (vn a) end)); [| |exact HQ].
  - eapply vmoved_trans; [exact M1|exact M2|]. intros y. lia.
  - intros y. pose proof (vk_held _ Hok y). destruct r as [|a]; unfold none; [lia|]. pose proof (one_nonneg (vn a) y). lia.
Qed.

Lemma decref_none {A} s s1 s2 x (r : A) (Q : A → vfs W V F → Prop) :
  vfs_ok s → vmoved s s1 (one x) → vmoved s1 s2 none → (∀ s', vmoved s s' none → Q r s') → runs (on_world (vop_decref ops x) ;; mret r) s2 Q.
Proof.
  intros Hok M1 M2 HQ. apply (decref_after s s2 x none); [| |exact HQ].
  - eapply vmoved_trans; [exact M1|exact M2|]. intros y. unfold none. lia.
  - intros y. pose proof (vk_held _ Hok y). unfold none. lia.
Qed.

Lemma give_device_runs s kd : vfs_ok s → kd ∈ knowndevs s → is_Some (kd_device kd) → runs (give_device ops kd) s (λ r s', got s r s' id).
Proof.
  intros Hok Hin [d Hd]. unfold give_device. apply runs_assert; [by rewrite Hd|]. apply runs_bind. eapply runs_mono; [apply incref_runs; [done|by apply dev_refs; [| |exists d]]|].
  intros [] s' M. apply runs_ret. exact M.
Qed.

Lemma getroot_fs s f : vfs_ok s → runs (on_world (fsop_getroot ops f)) s (λ r s', got s r s' id ∧ ∀ v, r = inr v → vdir v).
Proof.
  intros Hok. apply runs_world. eapply runs_mono; [apply (l_getroot f _ (vk_inv _ Hok))|]. intros [e|v] w' [Hi E].
  - split; [by apply world_same|done].
  - destruct E as [Hv E]. split; [by apply world_add|]. by intros ? [= ->].
Qed.

Lemma getroot_loop_runs s l name : vfs_ok s → (∀ kd, kd ∈ l → kd ∈ knowndevs s) → runs (getroot_loop ops l name) s (λ r s', got s r s' id).
Proof.
  intros Hok. induction l as [|kd l IH]; intros Hl; cbn [getroot_loop]; [by apply runs_ret, vmoved_refl|]. apply runs_gets.
  pose proof (Hl kd ltac:(by left)) as Hin. pose proof (proj1 (Forall_forall _ _) (vk_devs _ Hok) kd Hin) as [K1 K2 K3].
  assert (Hrest : same (kd_name kd) name = false ∨ kd_fs kd = NoFs ∧ kd_rawname kd = None →
    runs (if same (kd_name kd) name then KASSERT (is_nofs (kd_fs kd)) "kd->kd_fs==NULL" ;; KASSERT (is_null (kd_rawname kd)) "kd->kd_rawname==NULL" ;; give_device ops kd
          else if match kd_rawname kd with Some r => same r name | None => false end then give_device ops kd else getroot_loop ops l name) s (λ r s', got s r s' id)).
  { intros Hc. destruct (same (kd_name kd) name).
    - destruct Hc as [Hc|[Hf Hr]]; [done|]. rewrite Hf, Hr. do 2 (apply runs_assert; [done|]). by apply give_device_runs; [| |apply K2].
    - destruct (kd_rawname kd) as [r|]; [destruct (same r name)|]; [by apply give_device_runs; [| |apply K1]|apply IH; intros k Hk; apply Hl; by right..]. }
  destruct (kd_fs kd) as [| |f] eqn:Hf.
  - destruct (is_null (kd_rawname kd)) eqn:En; cbn [negb andb].
    + apply Hrest. right. split; [done|]. by destruct (kd_rawname kd).
    + destruct (same (kd_name kd) name) eqn:Es; [by apply runs_ret, vmoved_refl|]. apply Hrest. by left.
  - destruct (K3 eq_refl) as [r Hr]. rewrite Hr in *. cbn [is_null negb andb]. destruct (same (kd_name kd) name) eqn:Es; [by apply runs_ret, vmoved_refl|]. apply Hrest. by left.
  - destruct (same (kd_name kd) name) eqn:Es; cbn [orb].
    + eapply runs_mono; [by apply getroot_fs|]. by intros r s' [? _].
    + destruct (match fsop_getvolname ops f (vfs_world s) with Some n => same n name | None => false end); [|apply Hrest; by left].
      eapply runs_mono; [by apply getroot_fs|]. by intros r s' [? _].
Qed.

Lemma getcurdir_runs s : vfs_ok s → runs (vfs_getcurdir ops) s (λ r s', got s r s' id ∧ ∀ v, r = inr v → vdir v).
Proof.
  intros Hok. unfold vfs_getcurdir. apply runs_gets. destruct (p_cwd s) as [v|] eqn:Ec; [|apply runs_ret; split; [by apply vmoved_refl|done]].
  apply runs_bind. eapply runs_mono; [apply (incref_runs s v Hok)|].
  - pose proof (vk_held _ Hok v) as Ho. unfold owned, held in Ho. rewrite Ec in Ho. cbn in Ho. rewrite one_eq in Ho.
    pose proof (devs_nonneg (knowndevs s) v). pose proof (opt_nonneg (bootfs_vnode s) v). lia.
  - intros [] s' M. apply runs_ret. split; [done|]. intros x [= <-]. by apply (vk_cwd _ Hok).
Qed.

(** ** Path names *)

Lemma chars_skip p : chars p → chars (skip_slashes p).
Proof. induction 1 as [|c p Hc Hp IH]; cbn; [by constructor|]. destruct (c =? SLASH); [done|]. by constructor. Qed.

Lemma first_mark_none p i : first_mark p i = None ∨ ∃ c k, first_mark p i = Some (c, k) ∧ i ≤ k ∧ (c = COLON ∨ c = SLASH) ∧ (k = i → hd_error p = Some c).
Proof.
  revert i. induction p as [|c p IH]; intros i; cbn [first_mark]; [by left|]. destruct ((c =? COLON) || (c =? SLASH)) eqn:E.
  - right. exists c, i. apply orb_true_iff in E as [->%Z.eqb_eq| ->%Z.eqb_eq]; (split_and!; [done|lia|tauto|done]).
  - destruct (IH (i + 1)) as [->|(c' & k & -> & Hk & Hc & _)]; [by left|]. right. exists c', k. split_and!; [done|lia|done|lia].
Qed.

Lemma getdevice_runs s path : vfs_ok s → chars path → runs (getdevice ops path) s (λ r s', got s r s' snd ∧ ∀ sub v, r = inr (sub, v) → chars sub).
Proof.
  intros Hok Hp. destruct path as [|c0 tl]; [apply runs_ret; split; [by apply vmoved_refl|done]|]. cbn [getdevice]. set (path := c0 :: tl) in *.
  assert (Hcwd : runs (v ←! vfs_getcurdir ops; mret (inr (path, v))) s (λ r s', got s r s' snd ∧ ∀ sub v, r = inr (sub, v) → chars sub)).
  { apply runs_ebind. eapply runs_mono; [by apply getcurdir_runs|]. intros [e|v] s' [M _]; [done|]. apply runs_ret. split; [exact M|]. by intros ? ? [= <- <-]. }
  assert (Htl : chars tl) by (by inversion Hp).
  destruct (first_mark_none path 0) as [->|(c & i & -> & Hi & Hc & Hhd)]; [exact Hcwd|].
  destruct ((c =? SLASH) && negb (i =? 0)) eqn:E1; [exact Hcwd|]. destruct ((c =? COLON) && (0 <? i)) eqn:E2.
  - apply runs_ebind. unfold vfs_getroot. apply runs_gets. eapply runs_mono; [by apply getroot_loop_runs|]. intros [e|v] s' M; [done|].
    apply runs_ret. split; [exact M|]. intros ? ? [= <- _]. apply chars_skip. by apply Forall_drop.
  - assert (i = 0) as ->.
    { destruct Hc as [->| ->]; [rewrite Z.eqb_refl in E2; cbn in E2; apply Z.ltb_ge in E2; lia|].
      rewrite Z.eqb_refl in E1. cbn in E1. apply negb_false_iff, Z.eqb_eq in E1. done. }
    specialize (Hhd eq_refl). injection Hhd as <-. destruct Hc as [->| ->].
    + change (COLON =? SLASH) with false. cbv iota. apply runs_assert; [done|]. apply runs_ebind. eapply runs_mono; [by apply getcurdir_runs|]. intros [e|vn] s1 [M1 Hd]; [done|].
      destruct (l_dir vn (Hd vn eq_refl)) as [f Hf]. rewrite Hf. apply runs_bind. apply runs_assert; [done|]. apply runs_ret. apply runs_bind.
      eapply runs_mono; [apply (getroot_fs s1 f), M1|]. intros r s2 [M2 _].
      destruct r as [e|v]; (apply (decref_got s s1 s2 vn _ snd); [done|exact M1|exact M2|]); intros s' M; (split; [exact M|]); [done|]. intros ? ? [= <- _]. by apply chars_skip.
    + change (SLASH =? SLASH) with true. cbv iota. apply runs_gets. destruct (bootfs_vnode s) as [v|] eqn:Eb; [|apply runs_ret; split; [by apply vmoved_refl|done]].
      apply runs_bind. eapply runs_mono; [apply (incref_runs s v Hok)|].
      * pose proof (vk_held _ Hok v) as Ho. unfold owned, held in Ho. rewrite Eb in Ho. cbn in Ho. rewrite one_eq in Ho. pose proof (devs_nonneg (knowndevs s) v). pose proof (opt_nonneg (p_cwd s) v). lia.
      * intros [] s' M. apply runs_ret. split; [exact M|]. intros ? ? [= <- _]. by apply chars_skip.
Qed.

Lemma lookparent_runs s path n : vfs_ok s → chars path →
  runs (vfs_lookparent ops path n) s (λ r s', got s r s' fst ∧ ∀ d name, r = inr (d, name) → vdir d ∧ chars name).
Proof.
  intros Hok Hp. unfold vfs_lookparent. apply runs_ebind. eapply runs_mono; [by apply getdevice_runs|]. intros [e|[sub v]] s1 [M1 Hs]; [done|].
  specialize (Hs sub v eq_refl). pose proof (proj1 M1) as Hok1. apply runs_bind.
  apply (runs_mono _ _ (λ r s2, got s1 r s2 fst ∧ ∀ d name, r = inr (d, name) → vdir d ∧ chars name)).
  - destruct (zlen sub =? 0); [apply runs_ret; split; [by apply vmoved_refl|done]|]. apply runs_world.
    eapply runs_mono; [apply (l_lookparent v sub n _ (vk_inv _ Hok1)); [apply owned_refs, (vmoved_owned s s1 v Hok M1)|done]|].
    intros [e|[d name]] w' [Hi E]; [split; [by apply world_same|done]|]. destruct E as (E1 & E2 & E3). split; [by apply world_add|]. by intros ? ? [= <- <-].
  - intros r s2 [M2 Hr]. by apply (decref_got s s1 s2 v r fst).
Qed.

Lemma lookup_runs s path : vfs_ok s → chars path → runs (vfs_lookup ops path) s (λ r s', got s r s' id).
Proof.
  intros Hok Hp. unfold vfs_lookup. apply runs_ebind. eapply runs_mono; [by apply getdevice_runs|]. intros [e|[sub v]] s1 [M1 Hs]; [done|].
  specialize (Hs sub v eq_refl). pose proof (proj1 M1) as Hok1. destruct (zlen sub =? 0); [apply runs_ret; exact M1|]. apply runs_bind.
  apply (runs_mono _ _ (λ r s2, got s1 r s2 id)).
  - apply runs_world. eapply runs_mono; [apply (l_lookup v sub _ (vk_inv _ Hok1)); [apply owned_refs, (vmoved_owned s s1 v Hok M1)|done]|].
    intros [e|x] w' [Hi E]; [by apply world_same|by apply world_add].
  - intros r s2 M2. apply (decref_got s s1 s2 v r id); done.
Qed.

(** ** The current directory and the boot file system *)

Lemma drop_old_runs s s1 o s2 :
  vfs_ok s → vmoved s s1 none → vmoved s1 s2 (held_opt o) → runs (drop_old ops o) s2 (λ _ s', vmoved s s' none).
Proof.
  intros Hok M1 M2. destruct o as [x|]; cbn [drop_old].
  - eapply runs_mono; [apply (decref_runs s2 x); [apply M2|]|].
    + destruct M2 as [_ E2], M1 as [_ E1]. rewrite E2, E1. cbn. rewrite one_eq. pose proof (vk_held _ Hok x). unfold none. lia.
    + intros [] s' M. eapply vmoved_trans; [eapply vmoved_trans; [exact M1|exact M2|done]|exact M|]. intros v. cbn. unfold none, minus. lia.
  - apply runs_ret. eapply vmoved_trans; [exact M1|exact M2|]. done.
Qed.

(** The current directory, and the boot file system, take over a reference of the caller and give up the one they had. *)
Lemma set_cwd_moved s o : vfs_ok s → (∀ v, o = Some v → vdir v ∧ 0 < owned s v) →
  vmoved s (set_cwd o s) (λ v, held_opt (p_cwd s) v - held_opt o v).
Proof.
  intros [K1 K2 K3 K4 K5 K6] Ho. assert (E : ∀ v, owned (set_cwd o s) v = owned s v + (held_opt (p_cwd s) v - held_opt o v)).
  { intros v. unfold owned, held. cbn. lia. }
  split; [|done]. split; [done|done|done|intros v Hv; by apply Ho|done|]. intros v. rewrite E. pose proof (K6 v). pose proof (opt_nonneg (p_cwd s) v).
  destruct o as [x|]; cbn; [|lia]. unfold one. case_decide as Hv; [subst x; destruct (Ho v eq_refl)|]; lia.
Qed.

Lemma set_bootfs_moved s o : vfs_ok s → (∀ v, o = Some v → vdir v ∧ 0 < owned s v) →
  vmoved s (set_bootfs o s) (λ v, held_opt (bootfs_vnode s) v - held_opt o v).
Proof.
  intros [K1 K2 K3 K4 K5 K6] Ho. assert (E : ∀ v, owned (set_bootfs o s) v = owned s v + (held_opt (bootfs_vnode s) v - held_opt o v)).
  { intros v. unfold owned, held. cbn. lia. }
  split; [|done]. split; [done|done|intros v Hv; by apply Ho|done|done|]. intros v. rewrite E. pose proof (K6 v). pose proof (opt_nonneg (bootfs_vnode s) v).
  destruct o as [x|]; cbn; [|lia]. unfold one. case_decide as Hv; [subst x; destruct (Ho v eq_refl)|]; lia.
Qed.

Lemma setcurdir_runs s dir : vfs_ok s → 0 < owned s dir → runs (vfs_setcurdir ops dir) s (λ _ s', vmoved s s' none).
Proof.
  intros Hok Hr. unfold vfs_setcurdir. apply runs_ebind. apply runs_world. eapply runs_mono; [apply (l_gettype dir _ (vk_inv _ Hok) (owned_refs _ _ Hr))|].
  intros r w1 (Hi & E & Hd). pose proof (world_same s w1 Hok Hi E) as M1. set (s1 := set_world w1 s) in *. destruct r as [e|t]; [exact M1|].
  destruct (Z.eqb_spec t S_IFDIR) as [->|]; cbn [negb]; [|apply runs_ret; exact M1]. apply runs_bind.
  eapply runs_mono; [apply (incref_runs s1 dir); [apply M1|rewrite E; by apply owned_refs]|]. intros [] s2 M2. apply runs_gets, runs_modify, runs_bind.
  assert (Ho2 : 0 < owned s2 dir) by (apply (vmoved_owned s1); [apply M1|done]).
  pose proof (set_cwd_moved s2 (Some dir) (proj1 M2) ltac:(intros v [= <-]; split; [by apply Hd|done])) as M3.
  eapply runs_mono; [apply (drop_old_runs s s1 (p_cwd s2) _ Hok M1)|].
  - eapply vmoved_trans; [exact M2|exact M3|]. intros v. cbn. lia.
  - intros [] s' M. by apply runs_ret.
Qed.

Lemma chdir_runs s path : vfs_ok s → chars path → runs (vfs_chdir ops path) s (λ _ s', vmoved s s' none).
Proof.
  intros Hok Hp. unfold vfs_chdir. apply runs_ebind. eapply runs_mono; [by apply lookup_runs|]. intros [e|vn] s1 M1; [exact M1|]. apply runs_bind.
  eapply runs_mono; [apply (setcurdir_runs s1 vn); [apply M1|by apply (vmoved_owned s)]|]. intros r s2 M2.
  by apply (decref_none s s1 s2 vn r).
Qed.

Lemma change_bootfs_runs s o : vfs_ok s → (∀ v, o = Some v → vdir v) → (∀ v, 0 ≤ owned s v - held_opt o v) →
  runs (change_bootfs ops o) s (λ _ s', vmoved s s' (λ v, - held_opt o v)).
Proof.
  intros Hok Hd Ho. unfold change_bootfs. apply runs_gets, runs_modify.
  assert (M : vmoved s (set_bootfs o s) (λ v, held_opt (bootfs_vnode s) v - held_opt o v)).
  { apply set_bootfs_moved; [done|]. intros v ->. split; [by apply Hd|]. specialize (Ho v). cbn in Ho. rewrite one_eq in Ho. lia. }
  destruct (bootfs_vnode s) as [x|]; cbn [drop_old].
  - eapply runs_mono; [apply (decref_runs _ x (proj1 M))|].
    + destruct M as [_ E]. rewrite E. cbn. rewrite one_eq. specialize (Ho x). lia.
    + intros [] s' M'. eapply vmoved_trans; [exact M|exact M'|]. intros v. cbn. unfold minus. lia.
  - apply runs_ret. eapply vmoved_trans; [exact M|apply vmoved_refl, M|]. intros v. cbn. unfold none. lia.
Qed.

Lemma setbootfs_runs s name : vfs_ok s → chars name → runs (vfs_setbootfs ops name) s (λ _ s', vmoved s s' none).
Proof.
  intros Hok Hp. unfold vfs_setbootfs. set (tmp := take _ name). assert (Ht : chars tmp) by (by apply Forall_take).
  assert (Hstart : ∀ nm, chars nm → runs (_ ←! vfs_chdir ops nm; newguy ←! vfs_getcurdir ops; change_bootfs ops (Some newguy) ;; mret (inr tt)) s (λ _ s', vmoved s s' none)).
  { intros nm Hnm. apply runs_ebind. eapply runs_mono; [by apply chdir_runs|]. intros [e|[]] s1 M1; [exact M1|]. apply runs_ebind.
    eapply runs_mono; [apply (getcurdir_runs s1), M1|]. intros [e|v] s2 [M2 Hd]; [eapply vmoved_trans; [exact M1|exact M2|done]|]. apply runs_bind.
    eapply runs_mono; [apply (change_bootfs_runs s2 (Some v) (proj1 M2))|].
    - intros x [= <-]. by apply Hd.
    - intros y. pose proof (proj2 M2 y) as E. cbn in *. rewrite E. pose proof (vk_held _ (proj1 M1) y). unfold id. lia.
    - intros [] s3 M3. apply runs_ret. eapply vmoved_trans; [exact M1|eapply vmoved_trans; [exact M2|exact M3|done]|]. intros y. cbn. unfold none, id. lia. }
  destruct (list_find _ tmp) as [[i c]|].
  - destruct (0 <? zlen (drop i tmp)); [apply runs_ret; by apply vmoved_refl|by apply Hstart].
  - apply Hstart. apply Forall_app. split; [done|]. repeat constructor; done.
Qed.

(** ** Opening, and the operations on names *)

Lemma eachopen_runs s v fl : vfs_ok s → 0 < owned s v → runs (on_world (vop_eachopen ops v fl)) s (λ _ s', vmoved s s' none).
Proof.
  intros Hok Ho. apply runs_world. eapply runs_mono; [apply (l_eachopen v fl _ (vk_inv _ Hok) (owned_refs _ _ Ho))|]. intros r w' [Hi E]. by apply world_same.
Qed.

Lemma truncate_runs s v : vfs_ok s → 0 < owned s v → runs (on_world (vop_truncate ops v 0)) s (λ _ s', vmoved s s' none).
Proof.
  intros Hok Ho. apply runs_world. eapply runs_mono; [apply (l_truncate v _ (vk_inv _ Hok) (owned_refs _ _ Ho))|]. intros r w' [Hi E]. by apply world_same.
Qed.

Lemma creat_at_runs s path ex mode : vfs_ok s → chars path →
  runs (x ←! vfs_lookparent ops path (NAME_MAX + 1);
        let '(dir, name) := x in
        r ← on_world (vop_creat ops dir name ex mode); on_world (vop_decref ops dir) ;; mret r) s (λ r s', got s r s' id).
Proof.
  intros Hok Hp. apply runs_ebind. eapply runs_mono; [by apply lookparent_runs|]. intros [e|[dir name]] s1 [M1 Hd]; [exact M1|]. destruct (Hd _ _ eq_refl) as [Hdir Hnm].
  pose proof (proj1 M1) as Hok1. pose proof (vmoved_owned s s1 dir Hok M1) as Ho. apply runs_bind. apply (runs_mono _ _ (λ r s2, got s1 r s2 id)).
  - apply runs_world. eapply runs_mono; [apply (l_creat dir name ex mode _ (vk_inv _ Hok1) (owned_refs _ _ Ho) Hdir Hnm)|].
    intros [e|x] w' [Hi E]; [by apply world_same|by apply world_add].
  - intros r s2 M2. by apply (decref_got s s1 s2 dir r id).
Qed.

Lemma open_runs s path flags mode : vfs_ok s → chars path → runs (vfs_open ops path flags mode) s (λ r s', got s r s' id).
Proof.
  intros Hok Hp. unfold vfs_open. destruct (negb _); [apply runs_ret; by apply vmoved_refl|]. apply runs_ebind.
  apply (runs_mono _ _ (λ r s1, got s r s1 id)); [destruct (negb (_ =? 0)); [by apply creat_at_runs|by apply lookup_runs]|].
  intros [e|vn] s1 M1; [exact M1|]. pose proof (vmoved_owned s s1 vn Hok M1) as Ho. apply runs_bind.
  eapply runs_mono; [apply (eachopen_runs s1 vn flags (proj1 M1) Ho)|]. intros r s2 M2.
  assert (Hfail : ∀ s3 e, vmoved s1 s3 none → runs (on_world (vop_decref ops vn) ;; mret (inl e)) s3 (λ r s', got s r s' id)).
  { intros s3 e M3. apply (decref_got s s1 s3 vn (inl e) id); [done|done|exact M3|done]. }
  assert (Hdone : ∀ s3, vmoved s1 s3 none → runs (mret (inr vn)) s3 (λ r s', got s r s' id)).
  { intros s3 M3. apply runs_ret. eapply vmoved_trans; [exact M1|exact M3|]. intros y. unfold none, id. lia. }
  destruct r as [e|[]]; [by apply Hfail|]. destruct (negb (Z.land flags O_TRUNC =? 0)); [|by apply Hdone]. apply runs_bind.
  apply (runs_mono _ _ (λ _ s3, vmoved s1 s3 none)).
  - destruct (negb (negb _)); [by apply runs_ret|]. eapply runs_mono; [apply (truncate_runs s2 vn (proj1 M2))|].
    + rewrite (proj2 M2). unfold none. lia.
    + intros r s3 M3. eapply vmoved_trans; [exact M2|exact M3|done].
  - intros [e|[]] s3 M3; [by apply Hfail|by apply Hdone].
Qed.

Lemma in_parent_runs s path m : vfs_ok s → chars path →
  (∀ d nm w, inv w → 0 < vrefs w d → vdir d → chars nm → runs (m d nm) w (λ _ w', inv w' ∧ ∀ y, vrefs w' y = vrefs w y)) →
  runs (in_parent ops path m) s (λ _ s', vmoved s s' none).
Proof.
  intros Hok Hp Hm. unfold in_parent. apply runs_ebind. eapply runs_mono; [by apply lookparent_runs|]. intros [e|[dir name]] s1 [M1 Hd]; [exact M1|].
  destruct (Hd _ _ eq_refl) as [Hdir Hnm]. pose proof (vmoved_owned s s1 dir Hok M1) as Ho. apply runs_bind, runs_world.
  eapply runs_mono; [apply (Hm dir name _ (vk_inv _ (proj1 M1)) (owned_refs _ _ Ho) Hdir Hnm)|]. intros r w' [Hi E].
  apply (decref_none s s1 _ dir r); [done|done|by apply world_same; [apply M1| |]|done].
Qed.

(** Two vnodes are given back, the second one first. *)
Lemma decref_both {A} s s1 s2 s3 x y (r : A) (Q : A → vfs W V F → Prop) :
  vfs_ok s → vmoved s s1 (one x) → vmoved s1 s2 (one y) → vmoved s2 s3 none → (∀ s', vmoved s s' none → Q r s') →
  runs (on_world (vop_decref ops y) ;; on_world (vop_decref ops x) ;; mret r) s3 Q.
Proof.
  intros Hok M1 M2 M3 HQ. apply runs_bind. eapply runs_mono; [apply (decref_runs s3 y (proj1 M3))|].
  - rewrite (proj2 M3). pose proof (vmoved_owned s1 s2 y (proj1 M1) M2). unfold none. lia.
  - intros [] s4 M4. apply (decref_none s s1 s4 x r); [done|done| |done].
    eapply vmoved_trans; [exact M2|eapply vmoved_trans; [exact M3|exact M4|done]|]. intros v. cbn. unfold none, minus. lia.
Qed.

Lemma rename_runs s p1 p2 : vfs_ok s → chars p1 → chars p2 → runs (vfs_rename ops p1 p2) s (λ _ s', vmoved s s' none).
Proof.
  intros Hok Hp1 Hp2. unfold vfs_rename. apply runs_ebind. eapply runs_mono; [by apply lookparent_runs|]. intros [e|[d1 n1]] s1 [M1 Hd1]; [exact M1|].
  destruct (Hd1 _ _ eq_refl) as [Hdir1 Hn1]. apply runs_bind. eapply runs_mono; [apply (lookparent_runs s1 p2 _ (proj1 M1) Hp2)|].
  intros [e|[d2 n2]] s2 [M2 Hd2]; [by apply (decref_none s s1 s2 d1 (inl e))|]. destruct (Hd2 _ _ eq_refl) as [Hdir2 Hn2].
  pose proof (vmoved_owned s1 s2 d2 (proj1 M1) M2) as Ho2.
  assert (Ho1 : 0 < owned s2 d1) by (rewrite (proj2 M2); cbn; pose proof (vmoved_owned s s1 d1 Hok M1); pose proof (one_nonneg d2 d1); lia).
  apply runs_bind. apply (runs_mono _ _ (λ _ s3, vmoved s2 s3 none)); [|intros r s3 M3; by apply (decref_both s s1 s2 s3 d1 d2 r)].
  destruct (same_volume ops d1 d2) eqn:E; [|apply runs_ret; apply vmoved_refl, M2]. apply runs_world.
  eapply runs_mono; [apply (l_rename d1 n1 d2 n2 _ (vk_inv _ (proj1 M2)) (owned_refs _ _ Ho1) (owned_refs _ _ Ho2) Hdir1 Hdir2 E Hn1 Hn2)|].
  intros r w' [Hi Er]. by apply world_same; [apply M2| |].
Qed.

Lemma link_runs s p1 p2 : vfs_ok s → chars p1 → chars p2 → runs (vfs_link ops p1 p2) s (λ _ s', vmoved s s' none).
Proof.
  intros Hok Hp1 Hp2. unfold vfs_link. apply runs_ebind. eapply runs_mono; [by apply lookup_runs|]. intros [e|f] s1 M1; [exact M1|].
  apply runs_bind. eapply runs_mono; [apply (lookparent_runs s1 p2 _ (proj1 M1) Hp2)|].
  intros [e|[d2 n2]] s2 [M2 Hd2]; [by apply (decref_none s s1 s2 f (inl e))|]. destruct (Hd2 _ _ eq_refl) as [Hdir2 Hn2].
  pose proof (vmoved_owned s1 s2 d2 (proj1 M1) M2) as Ho2.
  assert (Ho1 : 0 < owned s2 f) by (rewrite (proj2 M2); cbn; pose proof (vmoved_owned s s1 f Hok M1); pose proof (one_nonneg d2 f); lia).
  apply runs_bind. apply (runs_mono _ _ (λ _ s3, vmoved s2 s3 none)); [|intros r s3 M3; by apply (decref_both s s1 s2 s3 f d2 r)].
  destruct (same_volume ops f d2) eqn:E; [|apply runs_ret; apply vmoved_refl, M2]. apply runs_world.
  eapply runs_mono; [apply (l_link d2 n2 f _ (vk_inv _ (proj1 M2)) (owned_refs _ _ Ho2) (owned_refs _ _ Ho1) Hdir2 E Hn2)|].
  intros r w' [Hi Er]. by apply world_same; [apply M2| |].
Qed.

Lemma readlink_runs s path u : vfs_ok s → chars path → runs (vfs_readlink ops path u) s (λ _ s', vmoved s s' none).
Proof.
  intros Hok Hp. unfold vfs_readlink. apply runs_bind. eapply runs_mono; [by apply lookup_runs|]. intros [e|vn] s1 M1; [by apply runs_ret|]. apply runs_bind.
  pose proof (vmoved_owned s s1 vn Hok M1) as Ho.
  apply (runs_mono _ _ (λ _ s2, vmoved s1 s2 none)); [|intros r s2 M2; by apply (decref_none s s1 s2 vn r)]. apply runs_world.
  eapply runs_mono; [apply (l_readlink vn u _ (vk_inv _ (proj1 M1)) (owned_refs _ _ Ho))|]. intros r w' [Hi Er]. by apply world_same; [apply M1| |].
Qed.

(** ** All calls *)

Inductive vfs_call :=
  | COpen (path : list Z) (openflags mode : Z)
  | CClose (v : V)
  | CLookup (path : list Z)
  | CRemove (path : list Z)
  | CRename (oldpath newpath : list Z)
  | CLink (oldpath newpath : list Z)
  | CSymlink (target path : list Z)
  | CMkdir (path : list Z) (mode : Z)
  | CRmdir (path : list Z)
  | CReadlink (path : list Z) (u : uio)
  | CChdir (path : list Z)
  | CSetbootfs (fsname : list Z).

Definition no_vnode (r : Z + unit) : Z + option V := match r with inl e => inl e | inr _ => inr None end.
Definition a_vnode (r : Z + V) : Z + option V := match r with inl e => inl e | inr v => inr (Some v) end.

Definition vfs_do (c : vfs_call) : K (vfs W V F) (Z + option V) :=
  match c with
  | COpen path fl mode => r ← vfs_open ops path fl mode; mret (a_vnode r)
  | CClose v => vfs_close ops v ;; mret (inr None)
  | CLookup path => r ← vfs_lookup ops path; mret (a_vnode r)
  | CRemove path => r ← vfs_remove ops path; mret (no_vnode r)
  | CRename p1 p2 => r ← vfs_rename ops p1 p2; mret (no_vnode r)
  | CLink p1 p2 => r ← vfs_link ops p1 p2; mret (no_vnode r)
  | CSymlink t path => r ← vfs_symlink ops t path; mret (no_vnode r)
  | CMkdir path mode => r ← vfs_mkdir ops path mode; mret (no_vnode r)
  | CRmdir path => r ← vfs_rmdir ops path; mret (no_vnode r)
  | CReadlink path u => r ← vfs_readlink ops path u; mret (if fst r =? 0 then inr None else inl (fst r))
  | CChdir path => r ← vfs_chdir ops path; mret (no_vnode r)
  | CSetbootfs name => r ← vfs_setbootfs ops name; mret (no_vnode r)
  end.

(** The names are C strings, and only a vnode that the caller has a reference to is closed. *)
Definition call_ok s (c : vfs_call) : Prop :=
  match c with
  | COpen p _ _ | CLookup p | CRemove p | CSymlink _ p | CMkdir p _ | CRmdir p | CReadlink p _ | CChdir p | CSetbootfs p => chars p
  | CRename p q | CLink p q => chars p ∧ chars q
  | CClose v => 0 < owned s v
  end.

(** The references that the caller gains. *)
Definition gain (c : vfs_call) (r : Z + option V) (v : V) : Z :=
  match c, r with
  | CClose x, _ => - one x v
  | _, inr (Some x) => one x v
  | _, _ => 0
  end.

(** C16: no reference to a vnode is lost or leaked: over file systems and devices that keep the promises of [VfsLaws], as SFS,
    the devices, and semfs while there is memory for its directory entries do ([fs_laws] of VfsFs.v; without that memory
    [semfs_creat] returns 0 and stores no vnode, [open_without_vnode] of VfsDemo.v), every call of the VFS by path name
    returns; after it the caller has exactly one more reference to the vnode that an open or a lookup returned, one
    less to the one it closed, and otherwise the references it had, whatever the path is and at whatever point the call fails; the
    table of devices, the current directory and the boot file system have theirs. *)
Theorem vfs_references_balanced s c :
  vfs_ok s → call_ok s c →
  ∃ r s', vfs_do c s = Ret r s' ∧ vfs_ok s' ∧ ∀ v, owned s' v = owned s v + gain c r v.
Proof.
  intros Hok Hc.
  assert (Hnone : ∀ m, runs m s (λ _ s', vmoved s s' none) → (∀ e v, gain c (inl e) v = 0) → (∀ v, gain c (inr None) v = 0) →
    ∃ r s', (r ← m; mret (no_vnode r)) s = Ret r s' ∧ vfs_ok s' ∧ ∀ v, owned s' v = owned s v + gain c r v).
  { intros m (r & s' & Hrun & Hok' & E) Hg1 Hg2. exists (no_vnode r), s'. split; [by rewrite (run_bind_ret _ _ _ _ _ Hrun)|]. split; [done|].
    intros v. rewrite E. destruct r; cbn [no_vnode]; rewrite ?Hg1, ?Hg2; done. }
  assert (Hsome : ∀ m, runs m s (λ r s', got s r s' id) → (∀ e v, gain c (inl e) v = 0) → (∀ x v, gain c (inr (Some x)) v = one x v) →
    ∃ r s', (r ← m; mret (a_vnode r)) s = Ret r s' ∧ vfs_ok s' ∧ ∀ v, owned s' v = owned s v + gain c r v).
  { intros m (r & s' & Hrun & Hok' & E) Hg1 Hg2. exists (a_vnode r), s'. split; [by rewrite (run_bind_ret _ _ _ _ _ Hrun)|]. split; [done|].
    intros v. rewrite E. destruct r; cbn [a_vnode]; rewrite ?Hg1, ?Hg2; done. }
  destruct c as [p fl mode|x|p|p|p q|p q|t p|p mode|p|p u|p|p]; cbn [vfs_do].
  - by apply Hsome; [apply open_runs| |].
  - destruct (decref_runs s x Hok Hc) as ([] & s' & Hrun & Hok' & E). exists (inr None), s'. unfold vfs_close. split; [by rewrite (run_bind_ret _ _ _ _ _ Hrun)|]. done.
  - by apply Hsome; [apply lookup_runs| |].
  - apply Hnone; [|done|done]. apply in_parent_runs; [done|done|]. intros d nm w. apply l_remove.
  - by apply Hnone; [apply rename_runs; [|apply Hc|apply Hc]| |].
  - by apply Hnone; [apply link_runs; [|apply Hc|apply Hc]| |].
  - apply Hnone; [|done|done]. apply in_parent_runs; [done|done|]. intros d nm w. apply l_symlink.
  - apply Hnone; [|done|done]. apply in_parent_runs; [done|done|]. intros d nm w. apply l_mkdir.
  - apply Hnone; [|done|done]. apply in_parent_runs; [done|done|]. intros d nm w. apply l_rmdir.
  - destruct (readlink_runs s p u Hok Hc) as (r & s' & Hrun & Hok' & E). rewrite (run_bind_ret _ _ _ _ _ Hrun). eexists _, s'. split; [reflexivity|]. split; [done|].
    intros v. rewrite E. by destruct (fst r =? 0).
  - by apply Hnone; [apply chdir_runs| |].
  - by apply Hnone; [apply setbootfs_runs| |].
Qed.

End refs.
