(* ===== verification/VfsDevs.v ===== *)
(** * VfsDevs: the names of devices (vfs_doadd and vfs_getroot of kern/vfs/vfslist.c)

    An entry of the table has up to three names: its own, the one of the raw device and the name of the volume that is mounted.  A device can
    be added when its names are free, and is then found by them. *)

From Stdlib Require Import ZArith Lia.
From stdpp Require Import base gmap list option strings list_numbers.
From S2P Require Import Prelude Types Sfs SfsNode Vfs.
Set Default Goal Selector "!".
Open Scope Z_scope.

Section devs.
Context {W V F : Type} (ops : VfsOps W V F).
Implicit Types s : vfs W V F.
Implicit Types l : list (knowndev V F).

(** Making the vnode of a device can be undone, and the names of volumes do not depend on devices. *)
Class DevLaws : Prop := {
  dl_create : ∀ dev w, ∃ v w', dev_create_vnode ops dev w = Ret v w' ∧ dev_uncreate_vnode ops v w' = Ret tt w ∧
    ∀ f, fsop_getvolname ops f w' = fsop_getvolname ops f w;
  dl_number : ∀ d n w, ∃ w', set_devnumber ops d n w = Ret tt w' ∧ ∀ f, fsop_getvolname ops f w' = fsop_getvolname ops f w;
}.

Definition names_of (w : W) (kd : knowndev V F) : list (list Z) :=
  kd_name kd :: option_list (kd_rawname kd) ++ option_list (f ← fs_of (kd_fs kd); fsop_getvolname ops f w).
Definition all_names (w : W) l : list (list Z) := l ≫= names_of w.
Definition new_names (name : list Z) (mountable : bool) : list (list Z) := name :: if mountable then [name ++ raw] else [].

Lemma option_list_in {A} (o : option A) x : x ∈ option_list o ↔ o = Some x.
Proof. destruct o; cbn; [rewrite list_elem_of_singleton|rewrite elem_of_nil]; naive_solver. Qed.

Lemma samestring_spec o n : samestring o n = true ↔ is_Some n ∧ o = n.
Proof. destruct o as [x|], n as [y|]; cbn; unfold same; rewrite ?bool_decide_eq_true; naive_solver. Qed.

Lemma samestring3_spec o n1 o2 : samestring3 o (Some n1) o2 None = true ↔ ∃ n, o = Some n ∧ n ∈ n1 :: option_list o2.
Proof.
  unfold samestring3. rewrite !orb_true_iff, !samestring_spec. setoid_rewrite elem_of_cons. setoid_rewrite option_list_in. unfold is_Some. naive_solver.
Qed.

Lemma names_of_in w kd n : n ∈ names_of w kd ↔ n = kd_name kd ∨ kd_rawname kd = Some n ∨ (f ← fs_of (kd_fs kd); fsop_getvolname ops f w) = Some n.
Proof. unfold names_of. by rewrite elem_of_cons, elem_of_app, !option_list_in. Qed.

Lemma all_names_cons w kd l n : n ∈ all_names w (kd :: l) ↔ n ∈ names_of w kd ∨ n ∈ all_names w l.
Proof. unfold all_names. cbn [mbind list_bind]. by rewrite elem_of_app. Qed.

Lemma badnames_spec w l n1 o2 :
  badnames ops w l (Some n1) o2 None = true ↔ ∃ n, n ∈ all_names w l ∧ n ∈ n1 :: option_list o2.
Proof.
  induction l as [|kd l IH]; [split; [done|by intros (n & ?%not_elem_of_nil & _)]|]. cbn [badnames]. rewrite !orb_true_iff, IH, !samestring3_spec.
  assert (E : match kd_fs kd with MountedFs f => samestring3 (fsop_getvolname ops f w) (Some n1) o2 None | _ => false end = true ↔
              ∃ n, (f ← fs_of (kd_fs kd); fsop_getvolname ops f w) = Some n ∧ n ∈ n1 :: option_list o2).
  { destruct (kd_fs kd) as [| |f]; cbn; [split; [done|by intros (n & ? & _)]..|apply samestring3_spec]. }
  rewrite E. setoid_rewrite all_names_cons. setoid_rewrite names_of_in. clear. naive_solver.
Qed.

(** ** Looking names up *)

(** An entry without the name is passed. *)
Lemma getroot_pass kd l n s : n ∉ names_of (vfs_world s) kd → getroot_loop ops (kd :: l) n s = getroot_loop ops l n s.
Proof.
  rewrite names_of_in. intros Hk. cbn [getroot_loop]. rewrite run_gets. unfold same.
  rewrite (bool_decide_eq_false_2 (kd_name kd = n)) by naive_solver.
  assert (Hraw : match kd_rawname kd with Some r => bool_decide (r = n) | None => false end = false).
  { destruct (kd_rawname kd) as [r|]; [|done]. apply bool_decide_eq_false_2. naive_solver. }
  rewrite Hraw. cbn [orb andb]. rewrite andb_false_r. destruct (kd_fs kd) as [| |f]; cbn [fs_of] in Hk; [done|done|].
  destruct (fsop_getvolname ops f (vfs_world s)) as [v|] eqn:E; [|done]. rewrite bool_decide_eq_false_2; [done|]. intros ->. apply Hk. right. right. exact E.
Qed.

Lemma getroot_skip l kd n s : n ∉ all_names (vfs_world s) l → getroot_loop ops (l ++ [kd]) n s = getroot_loop ops [kd] n s.
Proof.
  induction l as [|k l IH]; intros Hn; [done|]. rewrite all_names_cons in Hn.
  change ((k :: l) ++ [kd]) with (k :: (l ++ [kd])). rewrite getroot_pass by tauto. apply IH. tauto.
Qed.

(** A last entry without the name does not matter. *)
Lemma getroot_last l kd n s : n ∉ names_of (vfs_world s) kd → getroot_loop ops (l ++ [kd]) n s = getroot_loop ops l n s.
Proof.
  intros Hn. induction l as [|k l IH]; [by apply getroot_pass|]. cbn [app getroot_loop]. rewrite !run_gets. repeat case_match; done.
Qed.

Lemma all_names_world w w' l : (∀ f, fsop_getvolname ops f w' = fsop_getvolname ops f w) → all_names w' l = all_names w l.
Proof. intros E. unfold all_names. apply list_bind_ext; [|done]. intros kd. unfold names_of. destruct (fs_of (kd_fs kd)) as [f|]; [|done]. cbn. by rewrite E. Qed.

Lemma badnames_world w w' l n1 n2 n3 : (∀ f, fsop_getvolname ops f w' = fsop_getvolname ops f w) → badnames ops w' l n1 n2 n3 = badnames ops w l n1 n2 n3.
Proof. intros E. induction l as [|kd l IH]; [done|]. cbn [badnames]. rewrite IH. destruct (kd_fs kd); [done|done|]. by rewrite E. Qed.

Lemma all_names_snoc w l kd : all_names w (l ++ [kd]) = all_names w l ++ names_of w kd.
Proof. unfold all_names. rewrite bind_app. cbn. by rewrite app_nil_r. Qed.

Lemma new_names_nodup name mountable : NoDup (new_names name mountable).
Proof.
  destruct mountable; cbn; [|apply NoDup_singleton]. apply NoDup_cons. split; [|apply NoDup_singleton]. rewrite list_elem_of_singleton. intros E.
  apply (f_equal length) in E. rewrite length_app in E. cbn in E. lia.
Qed.

Definition enough_memory (m : doadd_mem) (mountable : bool) : bool :=
  m_name m && (negb mountable || m_raw m) && m_vnode m && m_kd m && m_table m.

(** The device itself, with a new reference. *)
Definition gives (v : V) : K (vfs W V F) (Z + V) := on_world (vop_incref ops v) ;; mret (inr v).

Context `{L : !DevLaws}.

Definition in_world (w : W) s : vfs W V F := VfsState (knowndevs s) (bootfs_vnode s) (p_cwd s) w.

Lemma run_on_world {A B} (m : K W A) (f : A → K (vfs W V F) B) s a w : m (vfs_world s) = Ret a w → mbind f (on_world m) s = f a (in_world w s).
Proof. intros H. rewrite run_bind. unfold on_world. by rewrite H. Qed.

Lemma doadd_refused m name d mountable s :
  enough_memory m mountable = false ∨ (∃ n, n ∈ all_names (vfs_world s) (knowndevs s) ∧ n ∈ new_names name mountable) →
  ∃ e, vfs_adddev ops m name (Some d) mountable s = Ret (inl e) s ∧
    (e = ENOMEM ∧ enough_memory m mountable = false ∨ e = EEXIST ∧ ∃ n, n ∈ all_names (vfs_world s) (knowndevs s) ∧ n ∈ new_names name mountable).
Proof.
  intros H. unfold vfs_adddev, vfs_doadd, enough_memory in *. destruct (m_name m); cbn [negb andb] in *; [|exists ENOMEM; split; [done|by left]].
  assert (Hraw : negb mountable || m_raw m = negb (mountable && negb (m_raw m))) by (by destruct mountable, (m_raw m)). rewrite Hraw in *.
  destruct (mountable && negb (m_raw m)); cbn [negb andb] in *; [exists ENOMEM; split; [done|by left]|].
  destruct (m_vnode m); cbn [negb andb] in *; [|exists ENOMEM; split; [done|by left]].
  destruct (dl_create (Some d) (vfs_world s)) as (v & w1 & Hc & Hu & Hv). rewrite (run_on_world _ _ _ _ _ Hc). set (s1 := in_world w1 s).
  assert (Hundo : ∀ e : Z, (on_world (dev_uncreate_vnode ops v) ;; mret (inl e : Z + unit)) s1 = Ret (inl e) s).
  { intros e. rewrite (run_on_world _ _ s1 tt (vfs_world s)) by done. by destruct s. }
  destruct (m_kd m); cbn [negb andb] in *; [|exists ENOMEM; split; [apply Hundo|by left]]. rewrite run_gets.
  cbn [s1 in_world vfs_world knowndevs]. change (mbind _ None) with (@None (list Z)). rewrite (badnames_world (vfs_world s) w1) by done.
  destruct (badnames ops (vfs_world s) (knowndevs s) (Some name) _ None) eqn:Eb.
  - exists EEXIST. split; [apply Hundo|]. right. split; [done|]. apply badnames_spec in Eb. by destruct mountable.
  - destruct H as [->|H]; [exists ENOMEM; split; [apply Hundo|by left]|]. exfalso. revert Eb. apply not_false_iff_true, badnames_spec. by destruct mountable.
Qed.

(** The entry of a new device. *)
Definition new_entry (name : list Z) (mountable : bool) (d : Z) (v : V) : knowndev V F :=
  Knowndev name (if mountable then Some (name ++ raw) else None) (Some d) v NoFs.

Lemma new_entry_names w name mountable d v : names_of w (new_entry name mountable d v) = new_names name mountable.
Proof. by destruct mountable. Qed.

Lemma doadd_added m name d mountable s :
  enough_memory m mountable = true → (∀ n, n ∈ new_names name mountable → n ∉ all_names (vfs_world s) (knowndevs s)) →
  ∃ v w', vfs_adddev ops m name (Some d) mountable s = Ret (inr tt) (set_devs (knowndevs s ++ [new_entry name mountable d v]) (in_world w' s)) ∧
    ∀ f, fsop_getvolname ops f w' = fsop_getvolname ops f (vfs_world s).
Proof.
  intros Hm Hfree. unfold enough_memory in Hm. rewrite !andb_true_iff in Hm. destruct Hm as ((((M1 & M2) & M3) & M4) & M5).
  unfold vfs_adddev, vfs_doadd. rewrite M1, M3. assert (Hraw : mountable && negb (m_raw m) = false) by (by destruct mountable, (m_raw m)). rewrite Hraw. cbn [negb].
  destruct (dl_create (Some d) (vfs_world s)) as (v & w1 & Hc & _ & Hv1). rewrite (run_on_world _ _ _ _ _ Hc), M4. cbn [negb]. rewrite run_gets.
  cbn [in_world vfs_world knowndevs]. change (mbind _ None) with (@None (list Z)). rewrite (badnames_world (vfs_world s) w1) by done.
  assert (Hb : badnames ops (vfs_world s) (knowndevs s) (Some name) (if mountable then Some (name ++ raw) else None) None = false).
  { apply not_true_iff_false. rewrite badnames_spec. intros (n & Hn & Hn'). apply (Hfree n); [by destruct mountable|done]. }
  rewrite Hb, M5. cbn [negb]. rewrite run_modify.
  destruct (dl_number d (zlen (knowndevs s) + 1) w1) as (w2 & Hn2 & Hv2). exists v, w2. split; [|intros f; by rewrite Hv2].
  rewrite (run_on_world _ _ _ tt w2) by done. done.
Qed.

(** What a name of the new entry gives. *)
Lemma getroot_new name mountable d v n s :
  n ∈ new_names name mountable →
  getroot_loop ops [new_entry name mountable d v] n s = if mountable && bool_decide (n = name) then Ret (inl ENXIO) s else gives v s.
Proof.
  intros Hn. cbn [getroot_loop new_entry kd_fs kd_rawname kd_name]. rewrite run_gets. unfold same, give_device, gives. destruct mountable; cbn [is_null negb andb].
  - unfold new_names in Hn. rewrite elem_of_cons, list_elem_of_singleton in Hn. destruct (decide (n = name)) as [->|Hne]; [by rewrite !bool_decide_eq_true_2|].
    destruct Hn as [->| ->]; [done|]. rewrite (bool_decide_eq_false_2 (name = _)) by congruence. rewrite (bool_decide_eq_false_2 (_ = name)) by done.
    rewrite bool_decide_eq_true_2 by done. done.
  - unfold new_names in Hn. rewrite list_elem_of_singleton in Hn. subst n. rewrite bool_decide_eq_true_2 by done. done.
Qed.

(** A device that is added to the table is found by its names, and adding never disturbs the others: [vfs_adddev] refuses it, with the state as it was, when
    memory runs out or when one of its names is already the name of a device, of a raw device or of a mounted volume; otherwise looking up its name gives the
    device, or ENXIO when it has to be mounted first; its raw name gives the device; every other name gives what it gave; and names that were distinct stay distinct. *)
Theorem vfs_adddev_found m name d mountable s :
  ∃ r s', vfs_adddev ops m name (Some d) mountable s = Ret r s' ∧ match r with
    | inl e => s' = s ∧
        (e = ENOMEM ∧ enough_memory m mountable = false ∨
         e = EEXIST ∧ ∃ n, n ∈ all_names (vfs_world s) (knowndevs s) ∧ n ∈ new_names name mountable)
    | inr _ => ∃ v,
        (∀ n, n ∈ new_names name mountable → n ∉ all_names (vfs_world s) (knowndevs s)) ∧
        vfs_getroot ops name s' = (if mountable then Ret (inl ENXIO) s' else gives v s') ∧
        (mountable = true → vfs_getroot ops (name ++ raw) s' = gives v s') ∧
        (∀ n, n ∉ new_names name mountable → vfs_getroot ops n s' = getroot_loop ops (knowndevs s) n s') ∧
        (NoDup (all_names (vfs_world s) (knowndevs s)) → NoDup (all_names (vfs_world s') (knowndevs s')))
    end.
Proof.
  destruct (decide (enough_memory m mountable = false ∨ Exists (λ n, n ∈ new_names name mountable) (all_names (vfs_world s) (knowndevs s)))) as [H|H].
  - destruct (doadd_refused m name d mountable s) as (e & Hrun & He); [by rewrite Exists_exists in H|]. exists (inl e), s. split; [done|]. split; [done|tauto].
  - rewrite Exists_exists in H.
    assert (Hfree : ∀ n, n ∈ new_names name mountable → n ∉ all_names (vfs_world s) (knowndevs s)) by (intros n Hn Hin; apply H; right; by exists n).
    destruct (doadd_added m name d mountable s) as (v & w' & Hrun & Hv); [by destruct (enough_memory m mountable); [|tauto]|done|].
    eexists (inr tt), _. split; [exact Hrun|]. exists v. set (kd := new_entry name mountable d v) in *. set (s' := set_devs _ _).
    assert (Hw : all_names (vfs_world s') (knowndevs s) = all_names (vfs_world s) (knowndevs s)) by (by apply all_names_world).
    assert (Hnew : ∀ n, n ∈ new_names name mountable → vfs_getroot ops n s' = if mountable && bool_decide (n = name) then Ret (inl ENXIO) s' else gives v s').
    { intros n Hn. unfold vfs_getroot. rewrite run_gets. change (knowndevs s') with (knowndevs s ++ [kd]). rewrite getroot_skip by (rewrite Hw; by apply Hfree). by apply getroot_new. }
    split_and!; [done| | | |].
    + rewrite Hnew by (by left). rewrite bool_decide_eq_true_2, andb_true_r by done. done.
    + intros ->. rewrite Hnew by (by right; left). rewrite bool_decide_eq_false_2; [done|]. intros E. apply (f_equal length) in E. rewrite length_app in E. cbn in E. lia.
    + intros n Hn. unfold vfs_getroot. rewrite run_gets. change (knowndevs s') with (knowndevs s ++ [kd]). apply getroot_last. unfold kd. by rewrite new_entry_names.
    + intros Hnd. change (knowndevs s') with (knowndevs s ++ [kd]). rewrite all_names_snoc, Hw. unfold kd. rewrite new_entry_names. apply NoDup_app. split_and!; [done| |apply new_names_nodup].
      intros n Hn Hn'. by apply (Hfree n).
Qed.

(** A name with a colon is refused by [vfs_setbootfs], also when the colon is at its end. *)
Lemma setbootfs_refuses_colon fsname s : COLON ∈ take (Z.to_nat (NAME_MAX - 1)) fsname → vfs_setbootfs ops fsname s = Ret (inl EINVAL) s.
Proof.
  intros Hc. unfold vfs_setbootfs. destruct (list_find_elem_of (λ c, c = COLON) _ COLON Hc eq_refl) as [[i c] Hf]. rewrite Hf.
  apply list_find_Some in Hf as (Hi & _ & _). apply lookup_lt_Some in Hi. destruct (0 <? _) eqn:E; [done|]. exfalso. apply Z.ltb_ge in E.
  unfold zlen in E. rewrite length_drop in E. destruct (length _ - i)%nat eqn:En; lia.
Qed.

End devs.
