(* ===== verification/VfsFs.v ===== *)
(** * VfsFs: SFS, semfs and devices under the virtual file system (the tables of their functions, vfsfail.c and device.c)

    The functions of the vnodes of a mounted SFS volume, of the file system of semaphores and of devices, and the proof that they keep the promises
    [VfsLaws].  A vnode of SFS is named by its inode, one of semfs by the number of its semaphore. *)

From Stdlib Require Import ZArith Lia.
From stdpp Require Import base gmap list option strings list_numbers.
From S2P Require Import Prelude Types Strings Bitmap Uio Sfs Disk SfsFile SfsVol SfsDir SfsNode SfsInv SfsNames SfsOps SfsCalls Semfs SemfsInv SemfsCalls Vfs VfsRefs VfsDevs.
Set Default Goal Selector "!".
Open Scope Z_scope.

Definition S_IFCHR : Z := 0x6000.
Definition S_IFBLK : Z := 0x7000.

Inductive vnode_id := SfsVnode (ino : Z) | SemVnode (semnum : Z) | DevVnode (i : Z).

(** The file systems: the volume of SFS and the semaphores. *)
Inductive fs_id := SfsVolume | SemVolume.

#[export] Instance vnode_id_eq : EqDecision vnode_id.
Proof. solve_decision. Defined.
#[export] Instance fs_id_eq : EqDecision fs_id.
Proof. solve_decision. Defined.

(** A device of kern/include/device.h, and its vnode: the device, NULL for a file system without one, and the references. *)
Record device := Device { d_nblocks : Z; d_blocksize : Z; d_devnumber : Z }.
Record dev_vnode := Devnode { dv_device : option Z; dv_refcount : Z }.

Section sfs.
Context {D : Type} (hw_read : D → Z → D * (Z + list Z)) (hw_write : D → Z → list Z → D * Z) (contents : D → Z → list Z).
Context (devop_eachopen : Z → Z → Z + unit) (mem grow : bool) (sm : semfs_mem).

Record world := World {
  w_sfs : sfs_fs (D := D);
  w_sem : semfs;
  w_devices : gmap Z device;
  w_devnodes : gmap Z dev_vnode;
}.

Definition put_sfs (x : sfs_fs) (w : world) : world := World x (w_sem w) (w_devices w) (w_devnodes w).
Definition put_sem (x : semfs) (w : world) : world := World (w_sfs w) x (w_devices w) (w_devnodes w).

(** Code on one part of the state. *)
Definition on_part {S A} (get : world → S) (put : S → world → world) (m : K S A) : K world A := λ w,
  match m (get w) with
  | Ret a s => Ret a (put s w)
  | Panic e => Panic e
  | Exit c s => Exit c (put s w)
  | Diverge => Diverge
  end.
Definition on_sfs {A} (m : K (sfs_fs (D := D)) A) : K world A := on_part w_sfs put_sfs m.
Definition on_sem {A} (m : K semfs A) : K world A := on_part w_sem put_sem m.
Definition set_devnode (i : Z) (x : dev_vnode) (w : world) : world := World (w_sfs w) (w_sem w) (w_devices w) (<[i := x]> (w_devnodes w)).
Definition devnode (i : Z) : K world dev_vnode := o ← gets (λ w, w_devnodes w !! i); deref o.
Definition the_device (i : Z) : K world device :=
  x ← devnode i; d ← deref (dv_device x); o ← gets (λ w, w_devices w !! d); deref o.

(** ** device.c, with the counts of vnode.c *)

Definition dev_incref (i : Z) : K world unit := x ← devnode i; modify (set_devnode i (Devnode (dv_device x) (dv_refcount x + 1))).
(** [dev_reclaim] does nothing: the last reference stays. *)
Definition dev_decref (i : Z) : K world unit :=
  x ← devnode i;
  KASSERT (0 <? dv_refcount x) "vn->vn_refcount > 0" ;;
  if 1 <? dv_refcount x then modify (set_devnode i (Devnode (dv_device x) (dv_refcount x - 1))) else mret tt.
Definition dev_eachopen (i flags : Z) : K world (Z + unit) :=
  x ← devnode i;
  if negb (Z.land flags (Z.lor (Z.lor O_CREAT O_TRUNC) (Z.lor O_EXCL O_APPEND)) =? 0) then mret (inl EINVAL)
  else d ← deref (dv_device x); mret (devop_eachopen d flags).
Definition dev_gettype (i : Z) : K world (Z + Z) := d ← the_device i; mret (inr (if 0 <? d_nblocks d then S_IFBLK else S_IFCHR)).
Definition dev_truncate (i len : Z) : K world (Z + unit) :=
  d ← the_device i;
  if (0 <? d_nblocks d) && (d_nblocks d * d_blocksize d =? len) then mret (inr tt) else mret (inl EINVAL).
Definition dev_lookup (i : Z) (pathname : list Z) : K world (Z + vnode_id) :=
  if 0 <? zlen pathname then mret (inl ENOENT) else dev_incref i ;; mret (inr (DevVnode i)).

(** ** The tables of SFS: [dir] for directories, [file] for files *)

Definition by_type {A} (ino : Z) (dir file : K (sfs_fs (D := D)) A) : K world A :=
  on_sfs (sv ← node ino; if sfi_type (sv_i sv) =? SFS_TYPE_DIR then dir else file).
Definition fails {S A} (e : Z) : K S (Z + A) := mret (inl e).
Definition named {S} (m : K S (Z + Z)) : K S (Z + vnode_id) := x ←! m; mret (inr (SfsVnode x)).
Definition flags_result (e : Z) : Z + unit := if e =? 0 then inr tt else inl e.

(** The tables of semfs: [dir] for the directory, [file] for semaphores. *)
Definition sem_type {A} (n : Z) (dir file : K world A) : K world A := if n =? SEMFS_ROOTDIR then dir else file.
(** What a creation that returns 0 has stored. *)
Definition stored (r : Z * option Z) : K world (Z + vnode_id) :=
  if fst r =? 0 then v ← deref (snd r); mret (inr (SemVnode v)) else mret (inl (fst r)).
Definition sem_named {S} (m : K S (Z + Z)) : K S (Z + vnode_id) := x ←! m; mret (inr (SemVnode x)).

Definition fs_ops : VfsOps world vnode_id fs_id := {|
  vn_fs v := match v with SfsVnode _ => Some SfsVolume | SemVnode _ => Some SemVolume | DevVnode _ => None end;
  vop_incref v := match v with SfsVnode x => on_sfs (VOP_INCREF x) | SemVnode n => on_sem (sem_incref n) | DevVnode i => dev_incref i end;
  vop_decref v := match v with SfsVnode x => on_sfs (VOP_DECREF hw_read hw_write x) | SemVnode n => on_sem (sem_decref n) | DevVnode i => dev_decref i end;
  vop_eachopen v fl := match v with
    | SfsVnode x => by_type x (mret (flags_result (sfs_eachopendir fl))) (mret (inr tt))
    | SemVnode n => mret (flags_result (semfs_eachopen n fl))
    | DevVnode i => dev_eachopen i fl end;
  vop_truncate v len := match v with
    | SfsVnode x => by_type x (fails EISDIR) (sfs_truncate hw_read hw_write x len)
    | SemVnode n => sem_type n (fails EISDIR) (on_sem (semfs_truncate n len))
    | DevVnode i => dev_truncate i len end;
  vop_gettype v := match v with SfsVnode x => on_sfs (t ← sfs_gettype x; mret (inr t)) | SemVnode n => mret (inr (semfs_gettype n)) | DevVnode i => dev_gettype i end;
  vop_lookup v p := match v with
    | SfsVnode x => by_type x (named (sfs_lookup hw_read hw_write mem grow x p)) (fails ENOTDIR)
    | SemVnode n => sem_type n (on_sem (sem_named (semfs_lookup sm p))) (fails ENOTDIR)
    | DevVnode i => dev_lookup i p end;
  vop_lookparent v p len := match v with
    | SfsVnode x => by_type x (r ←! sfs_lookparent x p len; mret (inr (SfsVnode (fst r), snd r))) (fails ENOTDIR)
    | SemVnode n => sem_type n (on_sem (r ←! semfs_lookparent p len; mret (inr (SemVnode (fst r), snd r)))) (fails ENOTDIR)
    | DevVnode _ => fails ENOTDIR end;
  vop_creat v nm excl _ := match v with
    | SfsVnode x => by_type x (named (sfs_creat hw_read hw_write mem grow x nm excl)) (fails ENOTDIR)
    | SemVnode n => sem_type n (r ← on_sem (semfs_creat sm nm excl); stored r) (fails ENOTDIR)
    | DevVnode _ => fails ENOTDIR end;
  vop_link v nm f := match v with
    | SfsVnode x => by_type x (match f with SfsVnode y => sfs_link hw_read hw_write x nm y | _ => panic "file->vn_fs == dir->vn_fs" end) (fails ENOTDIR)
    | SemVnode n => sem_type n (fails ENOSYS) (fails ENOTDIR)
    | DevVnode _ => fails ENOTDIR end;
  vop_remove v nm := match v with
    | SfsVnode x => by_type x (sfs_remove hw_read hw_write mem grow x nm) (fails ENOTDIR)
    | SemVnode n => sem_type n (on_sem (semfs_remove nm)) (fails ENOTDIR)
    | DevVnode _ => fails ENOTDIR end;
  vop_rename v n1 v2 n2 := match v with
    | SfsVnode x => by_type x (match v2 with SfsVnode y => sfs_rename hw_read hw_write mem grow x n1 y n2 | _ => panic "d1==d2" end) (fails ENOTDIR)
    | SemVnode n => sem_type n (fails ENOSYS) (fails ENOTDIR)
    | DevVnode _ => fails ENOTDIR end;
  vop_symlink v _ _ := match v with SfsVnode x => by_type x (fails ENOSYS) (fails ENOTDIR) | SemVnode n => sem_type n (fails ENOSYS) (fails ENOTDIR) | DevVnode _ => fails ENOTDIR end;
  vop_mkdir v _ _ := match v with SfsVnode x => by_type x (fails ENOSYS) (fails ENOTDIR) | SemVnode n => sem_type n (fails ENOSYS) (fails ENOTDIR) | DevVnode _ => fails ENOTDIR end;
  vop_rmdir v _ := match v with SfsVnode x => by_type x (fails ENOSYS) (fails ENOTDIR) | SemVnode n => sem_type n (fails ENOSYS) (fails ENOTDIR) | DevVnode _ => fails ENOTDIR end;
  vop_readlink v u := match v with
    | SfsVnode x => by_type x (mret (EINVAL, u)) (mret (ENOTDIR, u))
    | SemVnode n => sem_type n (mret (EISDIR, u)) (mret (EINVAL, u))
    | DevVnode _ => mret (EINVAL, u) end;
  fsop_getroot f := match f with SfsVolume => on_sfs (named (sfs_getroot hw_read hw_write mem grow)) | SemVolume => on_sem (sem_named (semfs_getroot sm)) end;
  fsop_getvolname f w := match f with SfsVolume => Some (c_string (sb_volname (sfs_sb (w_sfs w)))) | SemVolume => Some semfs_getvolname end;
  fsop_sync f := match f with SfsVolume => on_sfs (sfs_sync hw_read hw_write) | SemVolume => mret (inr tt) end;
  fsop_unmount f := match f with SfsVolume => on_sfs (r ←! sfs_unmount; mret (inr tt)) | SemVolume => on_sem semfs_unmount end;
  dev_create_vnode dev := w ← gets (λ w, w);
    let i := fresh (dom (w_devnodes w)) in modify (set_devnode i (Devnode dev 1)) ;; mret (DevVnode i);
  dev_uncreate_vnode v := match v with DevVnode i => modify (λ w, World (w_sfs w) (w_sem w) (w_devices w) (delete i (w_devnodes w))) | _ => panic "vn->vn_ops == &dev_vnode_ops" end;
  set_devnumber d n := modify (λ w, World (w_sfs w) (w_sem w) (alter (λ x, Device (d_nblocks x) (d_blocksize x) n) d (w_devices w)) (w_devnodes w));
|}.

(** [semfs_bootstrap], with the table of the VFS. *)
Definition semfs_bootstrap (o : option semfs) (m : doadd_mem) : K (vfs world vnode_id fs_id) unit :=
  match o with
  | None => panic "Out of memory creating semfs"
  | Some x =>
      modify (λ s, VfsState (knowndevs s) (bootfs_vnode s) (p_cwd s) (put_sem x (vfs_world s))) ;;
      r ← vfs_addfs fs_ops m semfs_getvolname SemVolume;
      match r with inl _ => panic "Attaching semfs" | inr _ => mret tt end
  end.

(** ** The file systems and devices keep the promises *)

Context `{Hd : !DiskLaws hw_read hw_write contents}.
Implicit Types w : world.

(** The table of devices of the VFS holds the vnodes [ids]. *)
Record devs_ok (ids : gset Z) w : Prop := {
  do_ids : ∀ i, i ∈ ids ↔ ∃ x d, w_devnodes w !! i = Some x ∧ dv_device x = Some d;
  do_refs : ∀ i x, w_devnodes w !! i = Some x → 0 < dv_refcount x;
  do_dev : ∀ i x d, w_devnodes w !! i = Some x → dv_device x = Some d → is_Some (w_devices w !! d);
}.
Definition fs_inv (ids : gset Z) w : Prop := ((∃ P, fs_wf contents P (w_sfs w)) ∧ semfs_ok (w_sem w)) ∧ devs_ok ids w.

(** The vnode of an entry without a device is not counted. *)
Definition fs_vrefs w (v : vnode_id) : Z :=
  match v with
  | SfsVnode x => refs (w_sfs w) x
  | SemVnode n => srefs (w_sem w) n
  | DevVnode i => match w_devnodes w !! i with Some (Devnode (Some _) r) => r | _ => 0 end
  end.
Definition fs_vdir (v : vnode_id) : Prop := v = SfsVnode SFS_ROOTDIR_INO ∨ v = SemVnode SEMFS_ROOTDIR.
Definition dev_permanent (ids : gset Z) (v : vnode_id) : Prop := ∃ i, i ∈ ids ∧ v = DevVnode i.

Section laws.
Context (ids : gset Z).
Local Abbreviation inv := (fs_inv ids).

(** What an operation does to the references: nothing, or [d] to those of [v]. *)
Definition keeps w w' : Prop := inv w' ∧ ∀ y, fs_vrefs w' y = fs_vrefs w y.
Definition adds (v : vnode_id) (d : Z) w w' : Prop := inv w' ∧ ∀ y, fs_vrefs w' y = plus_ref v d (fs_vrefs w) y.

Lemma keeps_refl w : inv w → keeps w w.
Proof. by split. Qed.

Lemma sfs_keeps w P s' : inv w → fs_wf contents P s' → (∀ y, refs s' y = refs (w_sfs w) y) → keeps w (put_sfs s' w).
Proof. intros [[_ Hsem] [D1 D2 D3]] Hok Hr. split; [split; [split; [by exists P|done]|by split]|]. intros [x|n|i]; [apply Hr|done|done]. Qed.

Lemma sfs_adds w P s' x d :
  inv w → fs_wf contents P s' → (∀ y, refs s' y = if decide (y = x) then refs (w_sfs w) y + d else refs (w_sfs w) y) → adds (SfsVnode x) d w (put_sfs s' w).
Proof.
  intros [[_ Hsem] [D1 D2 D3]] Hok Hr. split; [split; [split; [by exists P|done]|by split]|]. intros [y|n|i]; unfold plus_ref; [|by rewrite decide_False..].
  cbn [fs_vrefs put_sfs w_sfs]. rewrite Hr. destruct (decide (y = x)) as [->|Hne]; [by rewrite decide_True|rewrite decide_False; [done|congruence]].
Qed.

Lemma sem_keeps w s' : inv w → semfs_ok s' → (∀ k, srefs s' k = srefs (w_sem w) k) → keeps w (put_sem s' w).
Proof. intros [[Hsfs _] [D1 D2 D3]] Hok Hr. split; [split; [done|by split]|]. intros [x|n|i]; [done|apply Hr|done]. Qed.

Lemma sem_adds w s' n d :
  inv w → semfs_ok s' → (∀ k, srefs s' k = if decide (k = n) then srefs (w_sem w) k + d else srefs (w_sem w) k) → adds (SemVnode n) d w (put_sem s' w).
Proof.
  intros [[Hsfs _] [D1 D2 D3]] Hok Hr. split; [split; [done|by split]|]. intros [x|k|i]; unfold plus_ref; [by rewrite decide_False| |by rewrite decide_False].
  cbn [fs_vrefs put_sem w_sem]. rewrite Hr. destruct (decide (k = n)) as [->|Hne]; [by rewrite decide_True|rewrite decide_False; [done|congruence]].
Qed.

Lemma dev_adds w i o r d :
  inv w → w_devnodes w !! i = Some (Devnode (Some o) r) → 0 < r + d → adds (DevVnode i) d w (set_devnode i (Devnode (Some o) (r + d)) w).
Proof.
  intros [Hs [D1 D2 D3]] Hi Hd0. split.
  - split; [exact Hs|]. split; cbn [set_devnode w_devnodes w_devices].
    + intros j. rewrite D1. destruct (decide (j = i)) as [->|Hj]; [rewrite lookup_insert_eq, Hi|by rewrite lookup_insert_ne]. split; intros _; eexists _, o; done.
    + intros j y. rewrite lookup_insert_Some. intros [[<- <-]|[_ Hj]]; [done|by apply (D2 j)].
    + intros j y e. rewrite lookup_insert_Some. intros [[<- <-]|[_ Hj]] He; [exact (D3 i _ e Hi He)|exact (D3 j y e Hj He)].
  - intros [y|n|j]; unfold plus_ref; [by rewrite decide_False|by rewrite decide_False|]. cbn [fs_vrefs set_devnode w_devnodes]. destruct (decide (j = i)) as [->|Hne].
    + by rewrite lookup_insert_eq, Hi, decide_True.
    + rewrite lookup_insert_ne, decide_False by congruence. done.
Qed.

Lemma dev_loaded w i : inv w → 0 < fs_vrefs w (DevVnode i) →
  ∃ o r dev, w_devnodes w !! i = Some (Devnode (Some o) r) ∧ fs_vrefs w (DevVnode i) = r ∧ w_devices w !! o = Some dev ∧ i ∈ ids.
Proof.
  intros [_ [D1 D2 D3]]. cbn. destruct (w_devnodes w !! i) as [[[o|] r]|] eqn:E; [|lia|lia]. intros Hr. destruct (D3 i _ o E eq_refl) as [dev Hdev].
  exists o, r, dev. split_and!; try done. apply D1. by eexists _, o.
Qed.

Lemma run_devnode {B} (f : dev_vnode → K world B) w i x : w_devnodes w !! i = Some x → mbind f (devnode i) w = f x w.
Proof. intros H. unfold devnode. rewrite run_assoc, run_gets. by rewrite (run_deref _ _ x). Qed.

Lemma run_the_device w i : inv w → 0 < fs_vrefs w (DevVnode i) → ∃ d, the_device i w = Ret d w.
Proof.
  intros Hi Hr. destruct (dev_loaded w i Hi Hr) as (o & r & dev & Hx & _ & Hdev & _). exists dev.
  unfold the_device. rewrite (run_devnode _ _ _ _ Hx), (run_deref _ _ o), run_gets by done. unfold deref. by rewrite Hdev.
Qed.

Lemma runs_sfs {A} (m : K (sfs_fs (D := D)) A) w (Q : A → world → Prop) : runs m (w_sfs w) (λ a s', Q a (put_sfs s' w)) → runs (on_sfs m) w Q.
Proof. intros (a & s' & H & HQ). exists a, (put_sfs s' w). split; [|done]. unfold on_sfs, on_part. by rewrite H. Qed.

Lemma runs_sem {A} (m : K semfs A) w (Q : A → world → Prop) : runs m (w_sem w) (λ a s', Q a (put_sem s' w)) → runs (on_sem m) w Q.
Proof. intros (a & s' & H & HQ). exists a, (put_sem s' w). split; [|done]. unfold on_sem, on_part. by rewrite H. Qed.

Lemma runs_sem_type {A} n (dir file : K world A) w (Q : A → world → Prop) :
  (n = SEMFS_ROOTDIR → runs dir w Q) → (n ≠ SEMFS_ROOTDIR → runs file w Q) → runs (sem_type n dir file) w Q.
Proof. intros H1 H2. unfold sem_type. destruct (Z.eqb_spec n SEMFS_ROOTDIR); [by apply H1|by apply H2]. Qed.

(** The root is the directory; everything else is a file. *)
Lemma node_type P s x : fs_wf contents P s → 0 < refs s x →
  ∃ sv, nodes (fs_vol s) !! x = Some sv ∧ sfi_type (sv_i sv) = if decide (x = SFS_ROOTDIR_INO) then SFS_TYPE_DIR else SFS_TYPE_FILE.
Proof.
  intros Hok Hr. pose proof Hok as [F N T]. destruct (proj1 (refs_loaded contents _ _ _ _ _ Hok) Hr) as [sv Hn]. exists sv. split; [done|].
  assert (Hi : inode contents (fs_vol s) x = sv_i sv) by (unfold inode; by rewrite Hn). case_decide as Hx.
  - subst x. rewrite <- Hi. apply (dw_type _ _ _ (no_dir _ _ _ _ _ N)).
  - rewrite <- Hi. by apply (no_file _ _ _ _ _ N x (fo_loaded _ _ _ F x sv Hn) Hx).
Qed.

Lemma runs_by_type {A} x (dir file : K (sfs_fs (D := D)) A) w (Q : A → world → Prop) :
  inv w → 0 < fs_vrefs w (SfsVnode x) →
  (x = SFS_ROOTDIR_INO → runs dir (w_sfs w) (λ a s', Q a (put_sfs s' w))) →
  (x ≠ SFS_ROOTDIR_INO → runs file (w_sfs w) (λ a s', Q a (put_sfs s' w))) →
  runs (by_type x dir file) w Q.
Proof.
  intros [[[P Hok] _] _] Hr H1 H2. apply runs_sfs. destruct (node_type P _ x Hok Hr) as (sv & Hn & Ht).
  assert (E : ∀ f : sfs_vnode → K (sfs_fs (D := D)) A, mbind f (node x) (w_sfs w) = f sv (w_sfs w)) by (intros f; by apply run_node).
  unfold runs. rewrite E, Ht. destruct (decide (x = SFS_ROOTDIR_INO)) as [Hx|Hx]; [by apply H1|by apply H2].
Qed.

Local Abbreviation ops := fs_ops.

(** There is memory for the entries of semfs. *)
Context (Hdent : mm_dent sm && mm_name sm = true).

Lemma incref_law v w : inv w → 0 < fs_vrefs w v → runs (vop_incref ops v) w (λ _ w', adds v 1 w w').
Proof.
  intros Hi Hr. destruct v as [x|n|i]; cbn [vop_incref fs_ops].
  - pose proof Hi as [[[P Hok] _] _]. apply runs_sfs. unfold VOP_INCREF. cbn [fs_vrefs] in Hr.
    destruct (table_find (w_sfs w) x (fk_table _ _ _ _ _ Hok)) as (t & Hf & _ & Ht & _); [by apply (refs_loaded contents _ _ _ _ _ Hok)|].
    eexists tt, _. split; [rewrite (run_find _ _ _ _ Hf); reflexivity|]. apply (sfs_adds w P); [done|apply (with_refs_ok contents); [done|lia]|].
    intros y. change (set_vnodes _ _) with (with_refs x (vn_refcount t + 1) (w_sfs w)). rewrite refs_with by (by rewrite Hf). case_decide as Hy; [subst y; lia|done].
  - pose proof Hi as [[_ Hsem] _]. apply runs_sem. destruct (incref_run (w_sem w) n Hsem Hr) as (s' & Hrun & Hok' & H1 & _). exists tt, s'. split; [done|]. by apply sem_adds.
  - destruct (dev_loaded w i Hi Hr) as (o & r & dev & Hx & Hv & _). eexists tt, _. split; [unfold dev_incref; by rewrite (run_devnode _ _ _ _ Hx)|].
    apply (dev_adds w i o r 1); [done|done|lia].
Qed.

Lemma collect_refs n A s' : ab_collect n A (abs s') → ∀ k, srefs s' k = ab_refs A k.
Proof. intros [[_ (_ & _ & H)]|[_ (_ & _ & H)]]; exact H. Qed.

Lemma decref_law v w :
  inv w → 0 < fs_vrefs w v → (dev_permanent ids v → 1 < fs_vrefs w v) → runs (vop_decref ops v) w (λ _ w', adds v (-1) w w').
Proof.
  intros Hi Hr Hp. destruct v as [x|n|i]; cbn [vop_decref fs_ops].
  - pose proof Hi as [[[P Hok] _] _]. apply runs_sfs. destruct (decref_any hw_read hw_write contents P (w_sfs w) x Hok Hr) as (P' & s' & Hrun & Hok' & Hrefs).
    exists tt, s'. split; [done|]. by apply (sfs_adds w P').
  - pose proof Hi as [[_ Hsem] _]. apply runs_sem. destruct (semfs_decref_run (w_sem w) n Hsem Hr) as (s' & Hrun & Hok' & Hc). exists tt, s'. split; [done|].
    apply sem_adds; [done|done|]. intros k. by rewrite (collect_refs _ _ _ Hc).
  - destruct (dev_loaded w i Hi Hr) as (o & r & dev & Hx & Hv & _ & Hid). assert (H1 : 1 < r) by (rewrite <- Hv; apply Hp; by exists i). eexists tt, _. split.
    + unfold dev_decref. rewrite (run_devnode _ _ _ _ Hx), run_assert by (apply Z.ltb_lt; cbn; lia). cbn [dv_refcount]. rewrite (proj2 (Z.ltb_lt _ _)) by done. reflexivity.
    + apply (dev_adds w i o r (-1)); [done|done|lia].
Qed.

Lemma gettype_law v w :
  inv w → 0 < fs_vrefs w v → runs (vop_gettype ops v) w (λ r w', inv w' ∧ (∀ y, fs_vrefs w' y = fs_vrefs w y) ∧ (r = inr S_IFDIR → fs_vdir v)).
Proof.
  intros Hi Hr. destruct v as [x|n|i]; cbn [vop_gettype fs_ops].
  - pose proof Hi as [[[P Hok] _] _]. destruct (node_type P _ x Hok Hr) as (sv & Hn & Ht). apply runs_sfs.
    exists (inr (if decide (x = SFS_ROOTDIR_INO) then S_IFDIR else S_IFREG)), (w_sfs w). split.
    + unfold sfs_gettype. rewrite run_assoc, (run_node _ _ _ _ Hn), Ht. by destruct (decide (x = SFS_ROOTDIR_INO)).
    + destruct w. split; [done|]. split; [done|]. destruct (decide (x = SFS_ROOTDIR_INO)) as [->|]; [by left|done].
  - apply runs_ret. split; [done|]. split; [done|]. unfold semfs_gettype. destruct (Z.eqb_spec n SEMFS_ROOTDIR) as [->|]; [by right|done].
  - unfold runs, dev_gettype. destruct (run_the_device w i Hi Hr) as [d Hdev]. rewrite (run_bind_ret _ _ _ _ _ Hdev).
    eexists _, w. split; [reflexivity|]. split; [done|]. split; [done|]. by destruct (0 <? d_nblocks d).
Qed.

Lemma eachopen_law v fl w : inv w → 0 < fs_vrefs w v → runs (vop_eachopen ops v fl) w (λ _ w', keeps w w').
Proof.
  intros Hi Hr. destruct v as [x|n|i]; cbn [vop_eachopen fs_ops].
  - apply runs_by_type; [done|done|intros _; apply runs_ret; destruct w; by apply keeps_refl..].
  - apply runs_ret. by apply keeps_refl.
  - destruct (dev_loaded w i Hi Hr) as (o & r & dev & Hx & _). unfold runs, dev_eachopen. rewrite (run_devnode _ _ _ _ Hx).
    destruct (negb _); [|rewrite (run_deref _ _ o) by done]; eexists _, w; (split; [reflexivity|by apply keeps_refl]).
Qed.

Lemma truncate_law v w : inv w → 0 < fs_vrefs w v → runs (vop_truncate ops v 0) w (λ _ w', keeps w w').
Proof.
  intros Hi Hr. destruct v as [x|n|i]; cbn [vop_truncate fs_ops].
  - apply runs_by_type; [done|done|intros _; apply runs_ret; destruct w; by apply keeps_refl|]. intros Hx. pose proof Hi as [[[P Hok] _] _].
    destruct (proj1 (refs_loaded contents _ _ _ _ _ Hok) Hr) as [sv Hn].
    destruct (erase_run hw_read hw_write contents 0 P (w_sfs w) x sv) as (sv' & v' & Hrun & Hok' & _); [by eapply fs_zero|done|done|].
    exists (inr tt), (set_vol v' (w_sfs w)). split; [unfold sfs_truncate, on_vol; by rewrite Hrun|]. apply (sfs_keeps w P); [done|by eapply fs_zero|done].
  - apply runs_sem_type; intros Hn; [apply runs_ret; by apply keeps_refl|]. pose proof Hi as [[_ Hsem] _]. apply runs_sem.
    destruct (sk_vnode _ Hsem n) as [?|[x Hx]]; [by apply (srefs_pos _ _ Hsem)|done|]. destruct (sem_range _ n x Hsem Hx) as [Hrange _].
    destruct (abs_count (w_sem w) n x 0 Hsem Hx) as [Hok' (_ & _ & Href)]; [lia|]. eexists (inr tt), _. split; [|by apply sem_keeps].
    unfold semfs_truncate, put_count. change (0 <? 0) with false. change (0xffffffff <? 0) with false. cbv iota. by rewrite run_assoc, (run_getsem _ _ n x Hx), run_sem_set.
  - unfold runs, dev_truncate. destruct (run_the_device w i Hi Hr) as [d Hdev]. rewrite (run_bind_ret _ _ _ _ _ Hdev). destruct ((0 <? d_nblocks d) && _); eexists _, w; (split; [reflexivity|by apply keeps_refl]).
Qed.

(** A new reference to what is found, or none. *)
Definition finds w (r : Z + vnode_id) w' : Prop :=
  inv w' ∧ match r with inl _ => ∀ y, fs_vrefs w' y = fs_vrefs w y | inr x => ∀ y, fs_vrefs w' y = plus_ref x 1 (fs_vrefs w) y end.

Lemma lookup_law v p w : inv w → 0 < fs_vrefs w v → runs (vop_lookup ops v p) w (λ r w', finds w r w').
Proof.
  intros Hi Hr. destruct v as [x|n|i]; cbn [vop_lookup fs_ops].
  - apply runs_by_type; [done|done| |intros _; apply runs_ret; destruct w; by apply keeps_refl]. intros ->. pose proof Hi as [[[P Hok] _] _].
    destruct (node_type P _ _ Hok Hr) as (sv & Hn & Ht). rewrite decide_True in Ht by done.
    destruct (lookonce_run hw_read hw_write contents mem grow P (w_sfs w) p Hok Hr) as (r & s' & Hrun & Hok' & _ & _ & Hpost).
    exists (match r with inl e => inl e | inr (y, _) => inr (SfsVnode y) end), s'. split.
    + unfold named, sfs_lookup, ebind. rewrite run_assoc, (run_node _ _ _ _ Hn), Ht. unfold SFS_TYPE_DIR. cbn [Z.eqb Pos.eqb negb].
      rewrite run_assoc, (run_bind_ret _ _ _ _ _ Hrun). by destruct r as [e|[y sl]].
    + destruct r as [e|[y sl]]; [destruct Hpost as [Hrefs _]; by apply (sfs_keeps w P)|destruct Hpost as [_ Hrefs]; by apply (sfs_adds w P)].
  - apply runs_sem_type; intros Hn; [|apply runs_ret; by apply keeps_refl]. subst n. pose proof Hi as [[_ Hsem] _]. apply runs_sem.
    destruct (lookup_run sm (w_sem w) p Hsem Hr) as (r & s' & Hrun & Hok' & Hpost). unfold runs, sem_named, ebind. rewrite (run_bind_ret _ _ _ _ _ Hrun).
    destruct r as [e|y]; (eexists _, s'; split; [reflexivity|]); [destruct Hpost as [-> _]; by apply sem_keeps|destruct Hpost as [(_ & _ & Href) _]; by apply sem_adds].
  - unfold dev_lookup. destruct (0 <? zlen p); [apply runs_ret; by apply keeps_refl|]. apply runs_bind.
    eapply runs_mono; [apply (incref_law (DevVnode i) w Hi Hr)|]. intros [] w' Ha. apply runs_ret. exact Ha.
Qed.

Lemma lookparent_law v p len w : inv w → 0 < fs_vrefs w v → chars p →
  runs (vop_lookparent ops v p len) w (λ r w', inv w' ∧ match r with
    | inl _ => ∀ y, fs_vrefs w' y = fs_vrefs w y
    | inr (d, name) => fs_vdir d ∧ chars name ∧ ∀ y, fs_vrefs w' y = plus_ref d 1 (fs_vrefs w) y end).
Proof.
  intros Hi Hr Hp. destruct v as [x|n|i]; cbn [vop_lookparent fs_ops]; [| |apply runs_ret; by apply keeps_refl].
  - apply runs_by_type; [done|done| |intros _; apply runs_ret; destruct w; by apply keeps_refl]. intros ->. pose proof Hi as [[[P Hok] _] _].
    destruct (node_type P _ _ Hok Hr) as (sv & Hn & Ht). rewrite decide_True in Ht by done. unfold runs, sfs_lookparent, ebind. rewrite run_assoc, (run_node _ _ _ _ Hn), Ht.
    change (negb (SFS_TYPE_DIR =? SFS_TYPE_DIR)) with false. cbv iota. destruct (len <? zlen p + 1).
    + eexists _, (w_sfs w). split; [reflexivity|]. destruct w. by apply keeps_refl.
    + destruct (incref_law (SfsVnode SFS_ROOTDIR_INO) w Hi Hr) as ([] & w' & Hrun & Hi' & Hadd). cbn [vop_incref fs_ops] in Hrun. unfold on_sfs, on_part in Hrun.
      destruct (VOP_INCREF SFS_ROOTDIR_INO (w_sfs w)) as [[] s'| | |] eqn:E; try done. injection Hrun as <-.
      exists (inr (SfsVnode SFS_ROOTDIR_INO, p)), s'. split; [|split_and!; [done|by left|done|done]]. rewrite run_assoc. by rewrite (run_bind_ret _ _ _ _ _ E).
  - apply runs_sem_type; intros Hn; [|apply runs_ret; by apply keeps_refl]. subst n. pose proof Hi as [[_ Hsem] _]. apply runs_sem. unfold runs, semfs_lookparent, ebind.
    destruct (len <? zlen p + 1).
    + eexists _, (w_sem w). split; [reflexivity|]. destruct w. by apply keeps_refl.
    + destruct (incref_run (w_sem w) SEMFS_ROOTDIR Hsem Hr) as (s' & Hrun & Hok' & H1 & _). exists (inr (SemVnode SEMFS_ROOTDIR, p)), s'.
      split; [by rewrite run_assoc, (run_bind_ret _ _ _ _ _ Hrun)|]. destruct (sem_adds w s' SEMFS_ROOTDIR 1 Hi Hok' H1) as [Hi' Hadd]. split_and!; [done|by right|done|done].
Qed.

(** The operations on names, on the root. *)
Lemma sfs_root_law {A} (m file : K (sfs_fs (D := D)) A) w (Q : A → world → Prop) :
  inv w → 0 < fs_vrefs w (SfsVnode SFS_ROOTDIR_INO) →
  (∀ P, fs_wf contents P (w_sfs w) → runs m (w_sfs w) (λ a s', Q a (put_sfs s' w))) → runs (by_type SFS_ROOTDIR_INO m file) w Q.
Proof. intros Hi Hr Hm. apply runs_by_type; [done|done| |done]. intros _. pose proof Hi as [[[P Hok] _] _]. by apply (Hm P). Qed.

Lemma sfs_creat_law nm ex w : inv w → 0 < fs_vrefs w (SfsVnode SFS_ROOTDIR_INO) → chars nm →
  runs (by_type SFS_ROOTDIR_INO (named (sfs_creat hw_read hw_write mem grow SFS_ROOTDIR_INO nm ex)) (fails ENOTDIR)) w (λ r w', finds w r w').
Proof.
  intros Hi Hr Hnm. apply sfs_root_law; [done|done|]. intros P Hok.
  destruct (creat_names hw_read hw_write contents mem grow P (w_sfs w) nm ex Hok Hr Hnm) as (r & s' & Hrun & Hpost).
  exists (match r with inl e => inl e | inr x => inr (SfsVnode x) end), s'. split; [unfold named, ebind; rewrite (run_bind_ret _ _ _ _ _ Hrun); by destruct r|].
  destruct r as [e|x].
  - destruct Hpost as (Hrefs & Hok' & _). by apply (sfs_keeps w P).
  - destruct Hpost as [Hrefs [(_ & _ & Hok' & _)|(_ & _ & Hok' & _)]]; by eapply sfs_adds.
Qed.

Lemma sfs_link_law nm f w : inv w → 0 < fs_vrefs w (SfsVnode SFS_ROOTDIR_INO) → 0 < fs_vrefs w (SfsVnode f) → chars nm →
  runs (by_type SFS_ROOTDIR_INO (sfs_link hw_read hw_write SFS_ROOTDIR_INO nm f) (fails ENOTDIR)) w (λ _ w', keeps w w').
Proof.
  intros Hi Hr Hf Hnm. apply sfs_root_law; [done|done|]. intros P Hok. destruct (decide (f = SFS_ROOTDIR_INO)) as [->|Hne].
  - destruct (node_type P _ _ Hok Hr) as (sv & Hn & Ht). rewrite decide_True in Ht by done. exists (inl EINVAL), (w_sfs w).
    split; [unfold sfs_link; by rewrite (run_node _ _ _ _ Hn), Ht|]. destruct w. by apply keeps_refl.
  - destruct (sfs_link_links hw_read hw_write contents P (w_sfs w) nm f Hok Hr Hnm Hf Hne) as (r & s' & Hrun & Hok' & Hrefs & _).
    exists r, s'. split; [done|]. by apply (sfs_keeps w P).
Qed.

Lemma sfs_remove_law nm w : inv w → 0 < fs_vrefs w (SfsVnode SFS_ROOTDIR_INO) →
  runs (by_type SFS_ROOTDIR_INO (sfs_remove hw_read hw_write mem grow SFS_ROOTDIR_INO nm) (fails ENOTDIR)) w (λ _ w', keeps w w').
Proof.
  intros Hi Hr. apply sfs_root_law; [done|done|]. intros P Hok.
  destruct (remove_names hw_read hw_write contents mem grow P (w_sfs w) nm Hok Hr) as (r & s' & Hrun & Hrefs & Hpost). exists r, s'. split; [done|].
  destruct r as [e|[]]; [destruct Hpost as [Hok' _]|destruct Hpost as (x & P' & _ & Hok' & _)]; by eapply sfs_keeps.
Qed.

Lemma sfs_rename_law n1 n2 w : inv w → 0 < fs_vrefs w (SfsVnode SFS_ROOTDIR_INO) → chars n2 →
  runs (by_type SFS_ROOTDIR_INO (sfs_rename hw_read hw_write mem grow SFS_ROOTDIR_INO n1 SFS_ROOTDIR_INO n2) (fails ENOTDIR)) w (λ _ w', keeps w w').
Proof.
  intros Hi Hr Hn. apply sfs_root_law; [done|done|]. intros P Hok.
  destruct (rename_names hw_read hw_write contents mem grow P (w_sfs w) n1 n2 Hok Hr Hn) as (r & s' & Hrun & Hok' & _ & Hrefs & _). exists r, s'. split; [done|].
  by apply (sfs_keeps w P).
Qed.

Lemma getroot_law f w : inv w →
  runs (fsop_getroot ops f) w (λ r w', inv w' ∧ match r with
    | inl _ => ∀ y, fs_vrefs w' y = fs_vrefs w y | inr x => fs_vdir x ∧ ∀ y, fs_vrefs w' y = plus_ref x 1 (fs_vrefs w) y end).
Proof.
  intros Hi. destruct f; cbn [fsop_getroot fs_ops].
  - pose proof Hi as [[[P Hok] _] _]. apply runs_sfs.
    destruct (loadvnode_run hw_read hw_write contents mem grow _ 0 P (w_sfs w) SFS_ROOTDIR_INO Hok (fo_root _ _ _ (fk_files _ _ _ _ _ Hok))) as (r & s' & Hrun & Hok' & _ & _ & Hpost).
    unfold runs, named, sfs_getroot, ebind. rewrite run_assoc, (run_bind_ret _ _ _ _ _ Hrun). destruct r as [e|y].
    + destruct Hpost as (_ & _ & Hrefs). eexists _, s'. split; [reflexivity|]. by apply (sfs_keeps w P).
    + destruct Hpost as (-> & Hn & Hrefs). destruct (node_type P s' SFS_ROOTDIR_INO Hok') as (sv & Hsv & Ht); [by apply (refs_loaded contents _ _ _ _ _ Hok')|].
      rewrite decide_True in Ht by done. eexists _, s'. split; [rewrite run_assoc, (run_node _ _ _ _ Hsv), Ht; reflexivity|].
      destruct (sfs_adds w P s' _ _ Hi Hok' Hrefs) as [Hi' Hadd]. split; [done|]. split; [by left|done].
  - pose proof Hi as [[_ Hsem] _]. apply runs_sem.
    destruct (getvnode_run sm (w_sem w) SEMFS_ROOTDIR Hsem) as (r & s' & Hrun & Hok' & _ & _ & Hpost); [by left|]. unfold runs, sem_named, semfs_getroot, ebind.
    rewrite (run_bind_ret _ _ _ _ _ Hrun). destruct r as [e|y]; (eexists _, s'; split; [reflexivity|]).
    + destruct Hpost as [-> _]. by apply sem_keeps.
    + destruct Hpost as [-> H1]. destruct (sem_adds w s' _ _ Hi Hok' H1) as [Hi' Hadd]. split; [done|]. split; [by right|done].
Qed.

Lemma semcreat_law nm ex w : inv w → 0 < fs_vrefs w (SemVnode SEMFS_ROOTDIR) →
  runs (r ← on_sem (semfs_creat sm nm ex); stored r) w (λ r w', finds w r w').
Proof.
  intros Hi Hr. pose proof Hi as [[_ Hsem] _]. apply runs_bind, runs_sem.
  assert (H : runs (semfs_creat sm nm ex) (w_sem w) (λ r s', semfs_ok s' ∧
    (∃ v, r = (0, Some v) ∧ (∀ k, srefs s' k = if decide (k = v) then srefs (w_sem w) k + 1 else srefs (w_sem w) k) ∨
     ∃ e, r = (e, None) ∧ e ≠ 0 ∧ ∀ k, srefs s' k = srefs (w_sem w) k))).
  { destruct (creat_refs sm (w_sem w) nm ex Hsem) as ([e o] & s' & Hrun & Hok' & Hpost). exists (e, o), s'. split; [done|]. split; [done|].
    destruct Hpost as [(v & -> & -> & H1)|(-> & H1 & [He|[_ Hm]])]; [exists v; by left|exists 0; right; by exists e|congruence]. }
  destruct H as (r & s' & Hrun & Hok' & v & Hpost). exists r, s'. split; [done|]. destruct Hpost as [[-> H1]|(e & -> & He & H1)]; unfold stored; cbn [fst snd].
  - apply runs_ret. by apply sem_adds.
  - rewrite (proj2 (Z.eqb_neq e 0)) by done. apply runs_ret. by apply sem_keeps.
Qed.

Lemma semremove_law nm w : inv w → runs (on_sem (semfs_remove nm)) w (λ _ w', keeps w w').
Proof.
  intros Hi. pose proof Hi as [[_ Hsem] _]. apply runs_sem. destruct (is_dots nm) eqn:Hdots.
  - eexists _, (w_sem w). split; [unfold semfs_remove; rewrite Hdots; reflexivity|]. by apply sem_keeps.
  - destruct (semfs_remove_run (w_sem w) nm Hsem Hdots) as (r & s' & Hrun & Hok' & Hpost). exists r, s'. split; [done|]. apply sem_keeps; [done|done|].
    destruct r as [e|[]]; [by destruct Hpost as (_ & _ & ->)|]. destruct Hpost as (n & _ & Hc). intros k. by rewrite (collect_refs _ _ _ Hc).
Qed.

(** The root of SFS or of semfs. *)
Lemma runs_dir {A} d (m1 : K (sfs_fs (D := D)) A) (f1 : K (sfs_fs (D := D)) A) m2 f2 (w : world) (Q : A → world → Prop) :
  fs_vdir d → inv w → 0 < fs_vrefs w d → (d = SfsVnode SFS_ROOTDIR_INO → runs (by_type SFS_ROOTDIR_INO m1 f1) w Q) → (d = SemVnode SEMFS_ROOTDIR → runs m2 w Q) →
  runs (match d with SfsVnode x => by_type x m1 f1 | SemVnode n => sem_type n m2 f2 | DevVnode _ => f2 end) w Q.
Proof. intros [->| ->] Hi Hr H1 H2; [by apply H1|]. by apply runs_sem_type; [intros _; apply H2|]. Qed.

Lemma nosys_law {A} d (w : world) : fs_vdir d → inv w → 0 < fs_vrefs w d →
  runs (match d with SfsVnode x => by_type x (fails ENOSYS) (fails ENOTDIR) | SemVnode n => sem_type n (fails ENOSYS) (fails ENOTDIR) | DevVnode _ => @fails world A ENOTDIR end) w
    (λ _ w', keeps w w').
Proof.
  intros Hv Hi Hr. apply runs_dir; [done|done|done| |intros _; apply runs_ret; by apply keeps_refl]. intros ->. apply sfs_root_law; [done|done|].
  intros P Hok. apply runs_ret. destruct w. by apply keeps_refl.
Qed.

#[export] Instance fs_laws : VfsLaws ops inv fs_vrefs fs_vdir (dev_permanent ids).
Proof.
  split.
  - by intros v [->| ->].
  - exact incref_law.
  - exact decref_law.
  - exact gettype_law.
  - exact eachopen_law.
  - exact truncate_law.
  - intros v p w Hi Hr _. by apply lookup_law.
  - exact lookparent_law.
  - intros d nm ex mode w Hi Hr [->| ->] Hn; [by apply sfs_creat_law|by apply semcreat_law].
  - intros d nm f w Hi Hr Hf [->| ->] Hv Hn; [destruct f as [f|n|i]; [by apply sfs_link_law|done|done]|apply runs_ret; by apply keeps_refl].
  - intros d nm w Hi Hr [->| ->] Hn; [by apply sfs_remove_law|by apply semremove_law].
  - intros d1 n1 d2 n2 w Hi Hr1 Hr2 [->| ->] [->| ->] Hv _ Hn; [by apply sfs_rename_law|done|done|apply runs_ret; by apply keeps_refl].
  - intros d nm t w Hi Hr Hv _. by apply nosys_law.
  - intros d nm t w Hi Hr Hv _. by apply nosys_law.
  - intros d nm w Hi Hr Hv _. by apply nosys_law.
  - intros v u w Hi Hr. destruct v as [x|n|i]; cbn [vop_readlink fs_ops].
    + apply runs_by_type; [done|done|intros _; apply runs_ret; destruct w; by apply keeps_refl..].
    + apply runs_sem_type; intros _; apply runs_ret; by apply keeps_refl.
    + apply runs_ret. by apply keeps_refl.
  - exact getroot_law.
Qed.

End laws.

#[export] Instance fs_dev_laws : DevLaws fs_ops.
Proof.
  split; [|intros d n w; by eexists]. intros dev w. set (i := fresh (dom (w_devnodes w))). exists (DevVnode i), (set_devnode i (Devnode dev 1) w). split; [reflexivity|]. split; [|done].
  destruct w as [s dv nodes]. unfold set_devnode. cbn in *. unfold modify. cbn. rewrite delete_insert_id; [done|]. apply not_elem_of_dom. apply is_fresh.
Qed.

End sfs.
