(* ===== verification/VfsDemo.v ===== *)
(** * VfsDemo: the virtual file system on the volume of SfsDemo.v

    The disk holds the volume, the current directory is its root; the theorems on the VFS at work on it, and a session from attaching
    the disk to unmounting it. *)

From Stdlib Require Import ZArith Lia.
From stdpp Require Import base gmap list option strings list_numbers.
From S2P Require Import Prelude Types Strings Bitmap Uio Sfs Disk SfsNode SfsInv SfsNames SfsOps SfsCalls SfsMount SfsDemo Semfs SemfsInv SemfsCalls Vfs VfsRefs VfsDevs VfsFs.
Set Default Goal Selector "!".
Open Scope Z_scope.

Definition any_open (d flags : Z) : Z + unit := inr tt.
Definition sem_memory : semfs_mem := SemfsMem true true true true true true true true true.
Definition demo_ops : VfsOps (world (D := disk)) vnode_id fs_id := fs_ops flaky_read plain_write any_open true true sem_memory.

Definition lhd0 : list Z := [108; 104; 100; 48].
Definition demo_kd : knowndev vnode_id fs_id := Knowndev lhd0 (Some (lhd0 ++ raw)) (Some 0) (DevVnode 0) (MountedFs SfsVolume).
(** The entry of semfs: a file system without a device. *)
Definition sem_kd : knowndev vnode_id fs_id := Knowndev semfs_getvolname None None (DevVnode 1) (MountedFs SemVolume).
Definition demo_world : world (D := disk) := World demo_fs (Semfs [] [] []) {[0 := Device 20 512 1]} (<[0 := Devnode (Some 0) 1]> {[1 := Devnode None 1]}).
Definition demo_vfs : vfs (world (D := disk)) vnode_id fs_id := VfsState [demo_kd; sem_kd] None (Some (SfsVnode SFS_ROOTDIR_INO)) demo_world.

Lemma empty_semfs_ok : semfs_ok (Semfs [] [] []).
Proof.
  assert (H : ∀ n, sem_at (Semfs [] [] []) n = None) by (intros n; unfold sem_at, slot_at, arr_get; by destruct (0 <=? n)).
  assert (H' : ∀ n, dent_at (Semfs [] [] []) n = None) by (intros n; unfold dent_at, slot_at, arr_get; by destruct (0 <=? n)).
  split; [constructor|intros t Ht; by apply not_elem_of_nil in Ht|intros n Hn; by apply not_elem_of_nil in Hn|intros n x; by rewrite H..|intros i d; by rewrite H'|intros i j d e; by rewrite H'|done].
Qed.

Lemma demo_world_inv : fs_inv disk_contents {[0]} demo_world.
Proof.
  split; [split; [exists demo_files; exact demo_fs_wf|exact empty_semfs_ok]|]. split; cbn [demo_world w_devnodes w_devices].
  - intros i. rewrite elem_of_singleton. split.
    + intros ->. exists (Devnode (Some 0) 1), 0. by rewrite lookup_insert_eq.
    + intros (x & d & [[<- _]|[_ [_ <-]%lookup_singleton_Some]]%lookup_insert_Some & Hd); done.
  - intros i x [[_ <-]|[_ [_ <-]%lookup_singleton_Some]]%lookup_insert_Some; done.
  - intros i x d [[_ <-]|[_ [_ <-]%lookup_singleton_Some]]%lookup_insert_Some Hd; [|done]. injection Hd as <-. by rewrite lookup_singleton_eq.
Qed.

#[export] Instance demo_laws : VfsLaws demo_ops (fs_inv disk_contents {[0]}) fs_vrefs fs_vdir (dev_permanent {[0]}).
Proof. exact (fs_laws flaky_read plain_write disk_contents any_open true true sem_memory {[0]} eq_refl). Qed.

Lemma demo_vfs_ok : vfs_ok (fs_inv disk_contents {[0]}) fs_vrefs fs_vdir (dev_permanent {[0]}) demo_vfs.
Proof.
  split; cbn [demo_vfs vfs_world knowndevs bootfs_vnode p_cwd].
  - exact demo_world_inv.
  - repeat constructor; (done || by intros [? ?]).
  - done.
  - intros v [= <-]. by left.
  - intros v (i & ->%elem_of_singleton & ->). done.
  - intros v. unfold owned, held. cbn [demo_vfs vfs_world knowndevs bootfs_vnode p_cwd held_devs held_opt demo_kd sem_kd kd_vnode kd_device is_null]. unfold one. destruct v as [x|n|i].
    + rewrite (decide_False (P := SfsVnode x = DevVnode 0)) by done. cbn [fs_vrefs demo_world w_sfs]. pose proof (refs_nonneg demo_fs x (fk_table _ _ _ _ _ demo_fs_wf)).
      destruct (decide (SfsVnode x = SfsVnode SFS_ROOTDIR_INO)) as [[= ->]|]; [done|lia].
    + rewrite !decide_False by done. done.
    + rewrite (decide_False (P := DevVnode i = SfsVnode _)) by done. cbn [fs_vrefs demo_world w_devnodes]. destruct (decide (DevVnode i = DevVnode 0)) as [[= ->]|Hne]; [done|].
      rewrite lookup_insert_ne by congruence. destruct (decide (i = 1)) as [->|]; [done|]. by rewrite lookup_singleton_ne.
Qed.

Lemma vfs_references_balanced_witness :
  ∃ r s', vfs_do demo_ops (COpen (lhd0 ++ [COLON; 98]) (O_RDWR + O_CREAT) 0) demo_vfs = Ret r s' ∧
    vfs_ok (fs_inv disk_contents {[0]}) fs_vrefs fs_vdir (dev_permanent {[0]}) s' ∧
    ∀ v, owned fs_vrefs s' v = owned fs_vrefs demo_vfs v + gain (COpen (lhd0 ++ [COLON; 98]) (O_RDWR + O_CREAT) 0) r v.
Proof.
  apply (vfs_references_balanced demo_ops (fs_inv disk_contents {[0]}) fs_vrefs fs_vdir (dev_permanent {[0]}) demo_vfs); [exact demo_vfs_ok|]. repeat constructor; cbn; lia.
Defined.

(** Why the promises need memory for the directory entries of semfs: without it a creation returns 0 with no vnode, and
    [vfs_open] goes on with the pointer that was never set. *)
Definition no_entry_memory : semfs_mem := SemfsMem true true true true false true true true true.
Example open_without_vnode :
  ∃ why, vfs_open (fs_ops flaky_read plain_write any_open true true no_entry_memory) (semfs_getvolname ++ [COLON; 98]) (O_RDWR + O_CREAT) 0 demo_vfs = Panic why.
Proof. vm_compute. by eexists. Qed.

Definition all_memory : doadd_mem := DoaddMem true true true true true.

Definition lhd1 : list Z := [108; 104; 100; 49].

Lemma vfs_adddev_found_witness :
  ∃ s' v, vfs_adddev demo_ops all_memory lhd1 (Some 1) true demo_vfs = Ret (inr tt) s' ∧
    vfs_getroot demo_ops lhd1 s' = Ret (inl ENXIO) s' ∧ vfs_getroot demo_ops (lhd1 ++ raw) s' = gives demo_ops v s'.
Proof.
  destruct (vfs_adddev_found demo_ops all_memory lhd1 1 true demo_vfs) as (r & s' & Hrun & Hpost). destruct r as [e|[]].
  - exfalso. destruct Hpost as [_ [[_ H]|[_ (n & H1 & H2)]]]; [discriminate H|].
    assert (E : forallb (λ n, negb (bool_decide (n ∈ new_names lhd1 true))) (all_names demo_ops (vfs_world demo_vfs) (knowndevs demo_vfs)) = true) by reflexivity.
    rewrite forallb_forall in E. specialize (E n (proj1 (list_elem_of_In _ _) H1)). rewrite bool_decide_eq_true_2 in E by exact H2. discriminate E.
  - exists s'. destruct Hpost as (v & _ & H1 & H2 & _). exists v. exact (conj Hrun (conj H1 (H2 eq_refl))).
Defined.

(** Mounting as [sfs_mount] does it: the volume on the disk is read. *)
Definition mount_sfs (d : option Z) : K (world (D := disk)) (Z + fs_id) := λ w,
  match sfs_domount flaky_read plain_write true true 20 512 (dev (fs_vol (w_sfs w))) (λ _, 0) with
  | Ret (inr s) _ => Ret (inr SfsVolume) (put_sfs s w)
  | Ret (inl e) _ => Ret (inl e) w
  | Panic e => Panic e
  | Exit c _ => Exit c w
  | Diverge => Diverge
  end.

(** The disk as [sfs_sync] leaves it, with the name [vol] for the volume; nothing is attached. *)
Definition disk_with (vol : list Z) : disk :=
  let sb := Superblock SFS_MAGIC 16 (vol ++ replicate (32 - length vol) 0) (replicate 118 0) in
  match sfs_sync flaky_read plain_write (SfsFs demo [Tnode 1 1; Tnode 4 1] sb true) with Ret _ s => dev (fs_vol s) | _ => demo_disk end.
Definition start_vfs (vol : list Z) : vfs (world (D := disk)) vnode_id fs_id :=
  VfsState [] None None
    (World (SfsFs (Vol (disk_with vol) 20 16 demo_map false ∅ (λ a, a mod 256)) [] demo_super false) (Semfs [] [] []) (<[0 := Device 20 512 0]> {[1 := Device 20 512 0]}) ∅).

(** The disk is attached and mounted, a file is created in the root of the boot file system; it
    keeps the volume busy until it is closed. *)
Example vfs_session :
  match (a ← vfs_adddev demo_ops all_memory lhd0 (Some 0) true;
         b ← vfs_adddev demo_ops all_memory (lhd0 ++ raw) (Some 1) false;
         e ← vfs_lookup demo_ops (lhd0 ++ [COLON]);
         m ← vfs_mount lhd0 mount_sfs;
         c ← vfs_setbootfs demo_ops (lhd0 ++ [COLON]);
         d ← vfs_setbootfs demo_ops lhd0;
         f ← vfs_open demo_ops [SLASH; 98] (O_RDWR + O_CREAT) 0;
         g ← vfs_rename demo_ops [98] [COLON; 99];
         h ← vfs_chdir demo_ops [99];
         vfs_clearbootfs demo_ops ;;
         k ← vfs_clearcurdir demo_ops;
         u ← vfs_unmount demo_ops lhd0;
         match f with inr v => vfs_close demo_ops v | inl _ => mret tt end ;;
         u' ← vfs_unmount demo_ops lhd0;
         mret [a; b; match e with inl x => inl x | inr _ => inr tt end; m; c; d; g; h; u; u']) (start_vfs []) with
  | Ret l s => l = [inr tt; inl EEXIST; inl ENXIO; inr tt; inl EINVAL; inr tt; inr tt; inl ENOTDIR; inl EBUSY; inr tt] ∧
      kd_fs <$> knowndevs s = [NoFs]
  | _ => False
  end.
Proof. vm_compute. done. Qed.

(** [vfs_mount] does not look at the name of the volume: a volume called [lhd1] hides the device of that name. *)
Example volume_hides_device :
  match (a ← vfs_adddev demo_ops all_memory lhd0 (Some 0) true;
         b ← vfs_adddev demo_ops all_memory lhd1 (Some 1) false;
         m ← vfs_mount lhd0 mount_sfs;
         x ← vfs_lookup demo_ops (lhd1 ++ [COLON]);
         mret (a, b, m, x)) (start_vfs lhd1) with
  | Ret r _ => r = (inr tt, inr tt, inr tt, inr (SfsVnode SFS_ROOTDIR_INO))
  | _ => False
  end.
Proof. vm_compute. done. Qed.

(** The file system of semaphores is attached; a semaphore is created by its path name and removed. *)
Example sem_session :
  match (semfs_bootstrap flaky_read plain_write any_open true true sem_memory (semfs_create true true true true true true) all_memory ;;
         f ← vfs_open demo_ops (semfs_getvolname ++ [COLON; 98]) (O_RDWR + O_CREAT) 0;
         u ← vfs_unmount demo_ops semfs_getvolname;
         l ← vfs_link demo_ops (semfs_getvolname ++ [COLON; 98]) (semfs_getvolname ++ [COLON; 99]);
         r ← vfs_remove demo_ops (semfs_getvolname ++ [COLON; 98]);
         match f with inr v => vfs_close demo_ops v | inl _ => mret tt end ;;
         mret (f, u, l, r)) (start_vfs []) with
  | Ret x s => x = (inr (SemVnode 0), inl ENODEV, inl ENOSYS, inr tt) ∧ w_sem (vfs_world s) = Semfs [] [None] [None]
  | _ => False
  end.
Proof. vm_compute. done. Qed.
