(* ===== verification/Emu.v ===== *)
(** * The emulator file system: kern/dev/lamebus/emu.c

    A device of the simulator gives access to files of the host: the driver
    writes registers and a buffer, starts an operation, and an interrupt says
    that it is done.  Files are named by handles of the device; emufs keeps a
    vnode for each handle it has open, with a reference count, and closes the
    handle when the last reference goes.

    The device is a parameter: [emu_exec] is what it does with an operation, and
    [EmuLaws] is the contract that the result codes of emu.c describe.  A name
    and the buffer are lists of characters.  The locks of emu.c do nothing in
    this source, so the model is sequential.  [None] in a state transformer is
    a panic; loops run with fuel of one unit for each byte still to move, and eleven for the attempts
    of [emu_close]. *)

From Stdlib Require Import ZArith Lia.
From stdpp Require Import base gmap list option strings sets.
From S2P Require Import Prelude Types Strings Uio Sfs SfsNode.
Set Default Goal Selector "!".
Open Scope Z_scope.

Definition EAGAIN : Z := 4.
Definition ENFILE : Z := 29.

Definition EMU_MAXIO : Z := 16384.
Definition EMU_ROOTHANDLE : Z := 0.

Definition EMU_OP_OPEN : Z := 1.
Definition EMU_OP_CREATE : Z := 2.
Definition EMU_OP_EXCLCREATE : Z := 3.
Definition EMU_OP_CLOSE : Z := 4.
Definition EMU_OP_READ : Z := 5.
Definition EMU_OP_READDIR : Z := 6.
Definition EMU_OP_WRITE : Z := 7.
Definition EMU_OP_GETSIZE : Z := 8.
Definition EMU_OP_TRUNC : Z := 9.

Definition EMU_RES_SUCCESS : Z := 1.
Definition EMU_RES_BADHANDLE : Z := 2.
Definition EMU_RES_BADOP : Z := 3.
Definition EMU_RES_BADPATH : Z := 4.
Definition EMU_RES_BADSIZE : Z := 5.
Definition EMU_RES_EXISTS : Z := 6.
Definition EMU_RES_ISDIR : Z := 7.
Definition EMU_RES_MEDIA : Z := 8.
Definition EMU_RES_NOHANDLES : Z := 9.
Definition EMU_RES_NOSPACE : Z := 10.
Definition EMU_RES_NOTDIR : Z := 11.
Definition EMU_RES_UNKNOWN : Z := 12.
Definition EMU_RES_UNSUPP : Z := 13.

Record emu_regs := EmuRegs { reg_handle : Z; reg_offset : Z; reg_iolen : Z }.

(** An operation on the registers, the buffer and the device, with its result code. *)
Class EmuOps (H : Type) := emu_exec : Z → emu_regs → list Z → H → emu_regs * list Z * Z * H.

Record emu_softc (H : Type) := EmuSoftc {
  e_regs : emu_regs;
  e_iobuf : list Z;
  e_dev : H;
  e_reg_result : Z;
  e_result : Z;
  e_sem : Z;
}.
Arguments EmuSoftc {H} _ _ _ _ _ _.
Arguments e_regs {H} _.
Arguments e_iobuf {H} _.
Arguments e_dev {H} _.
Arguments e_reg_result {H} _.
Arguments e_result {H} _.
Arguments e_sem {H} _.

(** A vnode with its handle; which table of functions it has; its references. *)
Record emufs_vnode := EmuVnode { ev_handle : Z; ev_isdir : bool; ev_refcount : Z }.

(** The device, the vnodes by their addresses, the table of vnodes, the root, the depth of the big lock, and what
    the next requests for memory will give ([true] for memory, also when the list is empty; adding to the table counts as one). *)
Record emufs_fs (H : Type) := EmuFs {
  ef_emu : emu_softc H;
  ef_store : gmap Z emufs_vnode;
  ef_vnodes : list Z;
  ef_root : option Z;
  ef_biglock : Z;
  ef_mallocs : list bool;
}.
Arguments EmuFs {H} _ _ _ _ _ _.
Arguments ef_emu {H} _.
Arguments ef_store {H} _.
Arguments ef_vnodes {H} _.
Arguments ef_root {H} _.
Arguments ef_biglock {H} _.
Arguments ef_mallocs {H} _.

Section emu.
Context {H : Type} `{EmuOps H}.
Abbreviation E := (K (emu_softc H)).
Abbreviation M := (K (emufs_fs H)).

(** ** The device *)

Definition set_regs (r : emu_regs) (sc : emu_softc H) : emu_softc H :=
  EmuSoftc r (e_iobuf sc) (e_dev sc) (e_reg_result sc) (e_result sc) (e_sem sc).
Definition wreg_handle (x : Z) : E unit :=
  modify (λ sc, set_regs (EmuRegs x (reg_offset (e_regs sc)) (reg_iolen (e_regs sc))) sc).
Definition wreg_offset (x : Z) : E unit :=
  modify (λ sc, set_regs (EmuRegs (reg_handle (e_regs sc)) x (reg_iolen (e_regs sc))) sc).
Definition wreg_iolen (x : Z) : E unit :=
  modify (λ sc, set_regs (EmuRegs (reg_handle (e_regs sc)) (reg_offset (e_regs sc)) x) sc).

(** Writing REG_OPER starts the operation. *)
Definition wreg_oper (op : Z) : E unit :=
  modify (λ sc, let '(r, buf, code, dev) := emu_exec op (e_regs sc) (e_iobuf sc) (e_dev sc) in
    EmuSoftc r buf dev code (e_result sc) (e_sem sc)).

Definition emu_irq : E unit :=
  modify (λ sc, EmuSoftc (e_regs sc) (e_iobuf sc) (e_dev sc) 0 (e_reg_result sc) (e_sem sc + 1)).

Definition translate_err (code : Z) : E Z :=
  if code =? EMU_RES_SUCCESS then mret 0
  else if (code =? EMU_RES_BADHANDLE) || (code =? EMU_RES_BADOP) || (code =? EMU_RES_BADSIZE)
  then panic "got fatal result code"
  else if code =? EMU_RES_BADPATH then mret ENOENT
  else if code =? EMU_RES_EXISTS then mret EEXIST
  else if code =? EMU_RES_ISDIR then mret EISDIR
  else if code =? EMU_RES_MEDIA then mret EIO
  else if code =? EMU_RES_NOHANDLES then mret ENFILE
  else if code =? EMU_RES_NOSPACE then mret ENOSPC
  else if code =? EMU_RES_NOTDIR then mret ENOTDIR
  else if code =? EMU_RES_UNKNOWN then mret EIO
  else if code =? EMU_RES_UNSUPP then mret ENOSYS
  else mret EAGAIN.

Definition emu_waitdone : E Z :=
  sc ← gets id;
  if e_sem sc =? 0 then diverge
  else
    modify (λ sc, EmuSoftc (e_regs sc) (e_iobuf sc) (e_dev sc) (e_reg_result sc) (e_result sc) (e_sem sc - 1));;
    translate_err (e_result sc).

(** The operation, the interrupt when the device is done, and the caller that waits for it. *)
Definition emu_do (op : Z) : E Z := wreg_oper op;; emu_irq;; emu_waitdone.

Definition set_iobuf (l : list Z) (sc : emu_softc H) : emu_softc H :=
  EmuSoftc (e_regs sc) l (e_dev sc) (e_reg_result sc) (e_result sc) (e_sem sc).

(** The error, or the new handle and whether it is a directory. *)
Definition emu_open (handle : Z) (name : list Z) (create excl : bool) : E (Z + Z * bool) :=
  if EMU_MAXIO <? zlen name + 1 then mret (inl ENAMETOOLONG)
  else
    let op := if create && excl then EMU_OP_EXCLCREATE else if create then EMU_OP_CREATE else EMU_OP_OPEN in
    modify (λ sc, set_iobuf (splice (e_iobuf sc) 0 (name ++ [0])) sc);;
    wreg_iolen (zlen name);;
    wreg_handle handle;;
    result ← emu_do op;
    if result =? 0 then
      sc ← gets id;
      mret (inr (reg_handle (e_regs sc), 0 <? reg_iolen (e_regs sc)))
    else mret (inl result).

(** [retries] attempts are left. *)
Fixpoint emu_close_loop (retries : nat) (handle : Z) : E Z :=
  wreg_handle handle;;
  result ← emu_do EMU_OP_CLOSE;
  match retries with
  | S n => if result =? EIO then emu_close_loop n handle else mret result
  | O => mret result
  end.

Definition emu_close (handle : Z) : E Z := emu_close_loop 10 handle.

(** The result with the request and the memory it is about. *)
Definition emu_doread (handle len op : Z) (u : uio) (m : mem) : E (Z * uio * mem) :=
  KASSERT (match uio_rw u with UIO_READ => true | UIO_WRITE => false end) "uio->uio_rw == UIO_READ";;
  if 0xffffffff <? uio_offset u then mret (0, u, m)
  else
    wreg_handle handle;;
    wreg_iolen len;;
    wreg_offset (u32 (uio_offset u));;
    result ← emu_do op;
    if result =? 0 then
      sc ← gets id;
      match uiomove (e_iobuf sc) 0 (reg_iolen (e_regs sc)) u m with
      | None => panic "uiomove"
      | Some (_, u', m') => mret (0, set_offset (reg_offset (e_regs sc)) u', m')
      end
    else mret (result, u, m).

Definition emu_read (handle len : Z) (u : uio) (m : mem) : E (Z * uio * mem) := emu_doread handle len EMU_OP_READ u m.
Definition emu_readdir (handle len : Z) (u : uio) (m : mem) : E (Z * uio * mem) := emu_doread handle len EMU_OP_READDIR u m.

Definition emu_write (handle len : Z) (u : uio) (m : mem) : E (Z * uio * mem) :=
  KASSERT (match uio_rw u with UIO_READ => false | UIO_WRITE => true end) "uio->uio_rw == UIO_WRITE";;
  if 0xffffffff <? uio_offset u then mret (EFBIG, u, m)
  else
    wreg_handle handle;;
    wreg_iolen len;;
    wreg_offset (u32 (uio_offset u));;
    sc ← gets id;
    match uiomove (e_iobuf sc) 0 len u m with
    | None => panic "uiomove"
    | Some (buf, u', m') =>
        modify (set_iobuf buf);;
        result ← emu_do EMU_OP_WRITE;
        mret (result, u', m')
    end.

Definition emu_getsize (handle : Z) : E (Z + Z) :=
  wreg_handle handle;;
  result ← emu_do EMU_OP_GETSIZE;
  if result =? 0 then sc ← gets id; mret (inr (reg_iolen (e_regs sc))) else mret (inl result).

Definition emu_trunc (handle len : Z) : E Z :=
  KASSERT (0 <=? len) "len >= 0";;
  wreg_handle handle;;
  wreg_iolen (u32 len);;
  emu_do EMU_OP_TRUNC.

(** ** The vnodes *)

Definition on_emu {A} (m : E A) : M A := λ s,
  match m (ef_emu s) with
  | Ret a sc => Ret a (EmuFs sc (ef_store s) (ef_vnodes s) (ef_root s) (ef_biglock s) (ef_mallocs s))
  | Panic w => Panic w
  | Exit c sc => Exit c (EmuFs sc (ef_store s) (ef_vnodes s) (ef_root s) (ef_biglock s) (ef_mallocs s))
  | Diverge => Diverge
  end.

Definition put_vnode (v : Z) (ev : emufs_vnode) (s : emufs_fs H) : emufs_fs H :=
  EmuFs (ef_emu s) (<[v := ev]> (ef_store s)) (ef_vnodes s) (ef_root s) (ef_biglock s) (ef_mallocs s).
Definition ev (v : Z) : M emufs_vnode := s ← gets id; deref (ef_store s !! v).
Definition biglock (d : Z) : M unit :=
  modify (λ s, EmuFs (ef_emu s) (ef_store s) (ef_vnodes s) (ef_root s) (ef_biglock s + d) (ef_mallocs s)).

(** Is there memory for the next block? *)
Definition emu_malloc : M bool :=
  s ← gets id;
  modify (λ s, EmuFs (ef_emu s) (ef_store s) (ef_vnodes s) (ef_root s) (ef_biglock s) (tail (ef_mallocs s)));;
  mret (match ef_mallocs s with b :: _ => b | [] => true end).

Definition emu_incref (v : Z) : M unit :=
  x ← ev v; modify (put_vnode v (EmuVnode (ev_handle x) (ev_isdir x) (ev_refcount x + 1))).

Definition emufs_reclaim (v : Z) : M Z :=
  x ← ev v;
  biglock 1;;
  if 1 <? ev_refcount x then
    modify (put_vnode v (EmuVnode (ev_handle x) (ev_isdir x) (ev_refcount x - 1)));;
    biglock (-1);;
    mret EBUSY
  else
    KASSERT (ev_refcount x =? 1) "ev->ev_v.vn_refcount == 1";;
    result ← on_emu (emu_close (ev_handle x));
    if negb (result =? 0) then biglock (-1);; mret result
    else
      s ← gets id;
      match list_find (λ w, w = v) (ef_vnodes s) with
      | None => panic "reclaim vnode not in vnode pool"
      | Some (ix, _) =>
          modify (λ s, EmuFs (ef_emu s) (delete v (ef_store s)) (delete ix (ef_vnodes s)) (ef_root s) (ef_biglock s) (ef_mallocs s));;
          biglock (-1);;
          mret 0
      end.

(** [vnode_decref]. *)
Definition emu_decref (v : Z) : M unit :=
  x ← ev v;
  KASSERT (0 <? ev_refcount x) "vn->vn_refcount > 0";;
  if 1 <? ev_refcount x then modify (put_vnode v (EmuVnode (ev_handle x) (ev_isdir x) (ev_refcount x - 1)))
  else emufs_reclaim v;; mret tt.

(** The loop that looks for the handle. *)
Fixpoint find_handle (handle : Z) (vs : list Z) (st : gmap Z emufs_vnode) : option (option Z) :=
  match vs with
  | [] => Some None
  | v :: vs' =>
      x ← st !! v;
      if ev_handle x =? handle then Some (Some v) else find_handle handle vs' st
  end.

Definition emufs_loadvnode (handle : Z) (isdir : bool) : M (Z + Z) :=
  biglock 1;;
  s ← gets id;
  found ← deref (find_handle handle (ef_vnodes s) (ef_store s));
  match found with
  | Some v => emu_incref v;; biglock (-1);; mret (inr v)
  | None =>
      ok ← emu_malloc;
      if negb ok then mret (inl ENOMEM)
      else
        let v := fresh (dom (ef_store s)) in
        grown ← emu_malloc;
        if negb grown then biglock (-1);; mret (inl ENOMEM)
        else
          modify (λ s, EmuFs (ef_emu s) (<[v := EmuVnode handle isdir 1]> (ef_store s)) (ef_vnodes s ++ [v]) (ef_root s) (ef_biglock s) (ef_mallocs s));;
          biglock (-1);;
          mret (inr v)
  end.

(** The directory [dir] must be one, which the table of functions says. *)
Definition emufs_find (dir : Z) (name : list Z) (create excl : bool) : M (Z + Z) :=
  x ← ev dir;
  r ← on_emu (emu_open (ev_handle x) name create excl);
  match r with
  | inl e => mret (inl e)
  | inr (handle, isdir) =>
      r' ← emufs_loadvnode handle isdir;
      match r' with
      | inl e => on_emu (emu_close handle);; mret (inl e)
      | inr v => mret (inr v)
      end
  end.

Definition emufs_creat (dir : Z) (name : list Z) (excl : bool) : M (Z + Z) := emufs_find dir name true excl.
Definition emufs_lookup (dir : Z) (pathname : list Z) : M (Z + Z) := emufs_find dir pathname false false.

(** The part before the last slash and the part after it. *)
Fixpoint last_slash (path : list Z) : option (list Z * list Z) :=
  match path with
  | [] => None
  | c :: rest =>
      match last_slash rest with
      | Some (d, n) => Some (c :: d, n)
      | None => if c =? 47 then Some ([], rest) else None
      end
  end.

Definition emufs_lookparent (dir : Z) (pathname : list Z) (len : Z) : M (Z + Z * list Z) :=
  match last_slash pathname with
  | None =>
      if len <? zlen pathname + 1 then mret (inl ENAMETOOLONG)
      else emu_incref dir;; mret (inr (dir, pathname))
  | Some (d, name) =>
      if len <? zlen name + 1 then mret (inl ENAMETOOLONG)
      else
        r ← emufs_lookup dir d;
        mret (match r with inl e => inl e | inr v => inr (v, name) end)
  end.

(** The loops of read and write: [io] is the transfer of one piece. *)
Fixpoint emu_io_loop (io : Z → Z → uio → mem → E (Z * uio * mem)) (fuel : nat) (handle : Z) (u : uio) (m : mem) : E (Z * uio * mem) :=
  if 0 <? uio_resid u then
    match fuel with
    | O => diverge
    | S fuel' =>
        let amt := if EMU_MAXIO <? uio_resid u then EMU_MAXIO else uio_resid u in
        r ← io handle amt u m;
        let '(result, u', m') := r in
        if negb (result =? 0) then mret (result, u', m')
        else if uio_resid u' =? uio_resid u then mret (0, u', m')
        else emu_io_loop io fuel' handle u' m'
    end
  else mret (0, u, m).

Definition emufs_read (fuel : nat) (v : Z) (u : uio) (m : mem) : M (Z * uio * mem) :=
  x ← ev v;
  KASSERT (match uio_rw u with UIO_READ => true | UIO_WRITE => false end) "uio->uio_rw==UIO_READ";;
  on_emu (emu_io_loop emu_read fuel (ev_handle x) u m).

Definition emufs_write (fuel : nat) (v : Z) (u : uio) (m : mem) : M (Z * uio * mem) :=
  x ← ev v;
  KASSERT (match uio_rw u with UIO_READ => false | UIO_WRITE => true end) "uio->uio_rw==UIO_WRITE";;
  on_emu (emu_io_loop emu_write fuel (ev_handle x) u m).

Definition emufs_getdirentry (v : Z) (u : uio) (m : mem) : M (Z * uio * mem) :=
  x ← ev v;
  KASSERT (match uio_rw u with UIO_READ => true | UIO_WRITE => false end) "uio->uio_rw==UIO_READ";;
  let amt := if EMU_MAXIO <? uio_resid u then EMU_MAXIO else uio_resid u in
  on_emu (emu_readdir (ev_handle x) amt u m).

Definition emufs_truncate (v len : Z) : M Z := x ← ev v; on_emu (emu_trunc (ev_handle x) len).

(** The size and the mode. *)
Definition emufs_stat (v : Z) : M (Z + Z * Z) :=
  x ← ev v;
  r ← on_emu (emu_getsize (ev_handle x));
  mret (match r with inl e => inl e | inr size => inr (size, Z.lor (if ev_isdir x then S_IFDIR else S_IFREG) 420) end).

Definition emufs_eachopen (openflags : Z) : Z := 0.
Definition emufs_eachopendir (openflags : Z) : Z :=
  if negb (Z.land openflags O_ACCMODE =? 0) then EISDIR
  else if negb (Z.land openflags O_APPEND =? 0) then EISDIR
  else 0.

Definition emufs_namefile (v : Z) : M Z :=
  s ← gets id;
  mret (if bool_decide (ef_root s = Some v) then 0 else ENOSYS).

Definition emufs_getroot : M Z :=
  s ← gets id;
  v ← deref (ef_root s);
  emu_incref v;;
  mret v.

Definition emufs_unmount : Z := EBUSY.

(** [addfs] is the result of [vfs_addfs]; the result says too whether the structure is kept. *)
Definition emufs_addtovfs (addfs : Z) : M (Z * bool) :=
  ok ← emu_malloc;
  if negb ok then mret (ENOMEM, false)
  else
    ok ← emu_malloc;
    if negb ok then mret (ENOMEM, false)
    else
      r ← emufs_loadvnode EMU_ROOTHANDLE true;
      match r with
      | inl e => mret (e, false)
      | inr v =>
          modify (λ s, EmuFs (ef_emu s) (ef_store s) (ef_vnodes s) (Some v) (ef_biglock s) (ef_mallocs s));;
          if addfs =? 0 then mret (0, true) else emu_decref v;; mret (addfs, false)
      end.

(** [lock] and [sem]: was there memory for the lock and for the semaphore? *)
Definition config_emu (lock sem : bool) (addfs : Z) : M (Z * bool) :=
  if negb lock then mret (ENOMEM, false)
  else if negb sem then mret (ENOMEM, false)
  else emufs_addtovfs addfs.

(** ** The tables of functions, for directories and for files *)

Definition by_kind {A} (v : Z) (dir file : M A) : M A := x ← ev v; if ev_isdir x then dir else file.

Definition vop_emu_eachopen (v flags : Z) : M Z := by_kind v (mret (emufs_eachopendir flags)) (mret (emufs_eachopen flags)).
Definition vop_emu_read (fuel : nat) (v : Z) (u : uio) (m : mem) : M (Z * uio * mem) :=
  by_kind v (mret (EISDIR, u, m)) (emufs_read fuel v u m).
Definition vop_emu_write (fuel : nat) (v : Z) (u : uio) (m : mem) : M (Z * uio * mem) :=
  by_kind v (mret (EISDIR, u, m)) (emufs_write fuel v u m).
Definition vop_emu_getdirentry (v : Z) (u : uio) (m : mem) : M (Z * uio * mem) :=
  by_kind v (emufs_getdirentry v u m) (mret (ENOTDIR, u, m)).
Definition vop_emu_truncate (v len : Z) : M Z := by_kind v (mret ENOTDIR) (emufs_truncate v len).
Definition vop_emu_gettype (v : Z) : M Z := by_kind v (mret S_IFDIR) (mret S_IFREG).
Definition vop_emu_fsync (v : Z) : M Z := by_kind v (mret EISDIR) (mret 0).
Definition vop_emu_namefile (v : Z) : M Z := by_kind v (emufs_namefile v) (mret ENOTDIR).
Definition vop_emu_creat (v : Z) (name : list Z) (excl : bool) : M (Z + Z) := by_kind v (emufs_creat v name excl) (mret (inl ENOTDIR)).
Definition vop_emu_lookup (v : Z) (path : list Z) : M (Z + Z) := by_kind v (emufs_lookup v path) (mret (inl ENOTDIR)).
Definition vop_emu_lookparent (v : Z) (path : list Z) (len : Z) : M (Z + Z * list Z) :=
  by_kind v (emufs_lookparent v path len) (mret (inl ENOTDIR)).
Definition vop_emu_mmap (v : Z) : M Z := by_kind v (mret EISDIR) (mret ENOSYS).
Definition vop_emu_readlink (v : Z) : M Z := by_kind v (mret EISDIR) (mret EINVAL).
Definition emufs_ioctl (v op : Z) : Z := EINVAL.
(** symlink, mkdir, link, remove, rmdir and rename. *)
Definition emufs_names : Z := ENOSYS.
Definition emufs_names_notdir : Z := ENOTDIR.
Definition vop_emu_names (v : Z) : M Z := by_kind v (mret emufs_names) (mret emufs_names_notdir).

End emu.

(** ** What the device promises *)

(** Replaces bytes from [off] on, after zeros if the file is shorter. *)
Definition overwritten (f : list Z) (off : Z) (l : list Z) : list Z :=
  take (Z.to_nat off) (f ++ replicate (Z.to_nat off - length f) 0) ++ l ++ drop (Z.to_nat off + length l) f.

(** The codes for errors of the driver itself. *)
Definition fatal (code : Z) : bool :=
  (code =? EMU_RES_BADHANDLE) || (code =? EMU_RES_BADOP) || (code =? EMU_RES_BADSIZE).

(** The operations that move data of [reg_iolen] bytes. *)
Definition sized (op : Z) : bool := (op <=? 3) || ((5 <=? op) && (op <=? 7)).

(** [hw_open] are the open handles, [hw_file] the contents behind a handle. *)
Class EmuLaws (H : Type) `{EmuOps H} (hw_open : H → gset Z) (hw_file : H → Z → list Z) : Prop := {
  exec_fine op r buf h r' buf' code h' :
    emu_exec op r buf h = (r', buf', code, h') → 1 ≤ op ≤ 9 → zlen buf = EMU_MAXIO → reg_handle r ∈ hw_open h →
    (sized op = true → 0 ≤ reg_iolen r ≤ EMU_MAXIO) → fatal code = false ∧ zlen buf' = EMU_MAXIO;
  exec_open op r buf h r' buf' code h' :
    emu_exec op r buf h = (r', buf', code, h') → 1 ≤ op ≤ 3 →
    hw_open h' = if code =? EMU_RES_SUCCESS then {[reg_handle r']} ∪ hw_open h else hw_open h;
  exec_close r buf h r' buf' code h' :
    emu_exec EMU_OP_CLOSE r buf h = (r', buf', code, h') →
    hw_open h' = if code =? EMU_RES_SUCCESS then hw_open h ∖ {[reg_handle r]} else hw_open h;
  exec_other op r buf h r' buf' code h' :
    emu_exec op r buf h = (r', buf', code, h') → 5 ≤ op ≤ 9 → hw_open h' = hw_open h;
  exec_readdir r buf h r' buf' h' :
    emu_exec EMU_OP_READDIR r buf h = (r', buf', EMU_RES_SUCCESS, h') → 0 ≤ reg_iolen r' ≤ reg_iolen r;
  exec_read r buf h r' buf' h' :
    emu_exec EMU_OP_READ r buf h = (r', buf', EMU_RES_SUCCESS, h') → 0 ≤ reg_offset r → 0 ≤ reg_iolen r →
    let data := take (Z.to_nat (reg_iolen r)) (drop (Z.to_nat (reg_offset r)) (hw_file h (reg_handle r))) in
    reg_iolen r' = zlen data ∧ reg_offset r' = reg_offset r + zlen data ∧ take (length data) buf' = data ∧
    ∀ x, hw_file h' x = hw_file h x;
  file_size h x : zlen (hw_file h x) < 2 ^ 32;
  exec_read_error r buf h r' buf' code h' x :
    emu_exec EMU_OP_READ r buf h = (r', buf', code, h') → hw_file h' x = hw_file h x;
  exec_write r buf h r' buf' h' :
    emu_exec EMU_OP_WRITE r buf h = (r', buf', EMU_RES_SUCCESS, h') → 0 ≤ reg_offset r → 0 ≤ reg_iolen r →
    hw_file h' (reg_handle r) =
      overwritten (hw_file h (reg_handle r)) (reg_offset r) (take (Z.to_nat (reg_iolen r)) buf);
}.
