(* ===== verification/EmuFs.v ===== *)
(** * The emulator file system: handles, references and transfers

    The invariant of emufs: every vnode of the table has a handle of its own that
    is open at the device and at least one reference; other open handles are
    [lost], by a close that failed.  Every operation keeps it, never gives the device a handle that is
    not open, and changes the references as the VFS expects.  Reads and writes of any
    length move the bytes of the file, in pieces of the buffer's size. *)

From Stdlib Require Import ZArith Lia.
From stdpp Require Import base gmap list list_numbers option strings sets.
From S2P Require Import Prelude Types Strings Uio Sfs SfsNode Emu.
Set Default Goal Selector "!".
Open Scope Z_scope.

(** The code returns, and the result satisfies [Q]. *)
Abbreviation returns m Q s := (wp m Q (λ _, False) s).

Lemma returns_mono {S A} (m : K S A) (Q Q' : A → S → Prop) s :
  returns m Q s → (∀ a s', Q a s' → Q' a s') → returns m Q' s.
Proof. intros Hm HQ. eapply wp_mono; [exact HQ|exact (λ w Hw, Hw)|exact Hm]. Qed.

Section device.
Context {H : Type} `{EmuOps H} (hw_open : H → gset Z) (hw_file : H → Z → list Z) `{!EmuLaws H hw_open hw_file}.
Implicit Types (sc : emu_softc H) (s : emufs_fs H).

(** Between operations: nobody has been told of a result that is not fetched. *)
Record emu_idle sc : Prop := {
  ei_sem : e_sem sc = 0;
  ei_buf : zlen (e_iobuf sc) = EMU_MAXIO;
}.

Lemma translate_fine code sc :
  fatal code = false → ∃ e, translate_err code sc = Ret e sc ∧ (e =? 0) = (code =? EMU_RES_SUCCESS).
Proof.
  unfold fatal, translate_err. intros Hf. rewrite Hf. unfold EMU_RES_SUCCESS. destruct (Z.eqb_spec code 1); [by exists 0|].
  repeat match goal with |- context [if ?b then _ else _] => destruct b end; by eexists.
Qed.

(** One operation: the code of the device becomes an error number. *)
Lemma emu_do_run op sc r' buf' code h' :
  emu_idle sc → emu_exec op (e_regs sc) (e_iobuf sc) (e_dev sc) = (r', buf', code, h') → fatal code = false → zlen buf' = EMU_MAXIO →
  ∃ e sc', emu_do op sc = Ret e sc' ∧ (e =? 0) = (code =? EMU_RES_SUCCESS) ∧ emu_idle sc' ∧
    e_regs sc' = r' ∧ e_iobuf sc' = buf' ∧ e_dev sc' = h'.
Proof.
  intros [Hs Hb] He Hf Hl. unfold emu_do, wreg_oper, emu_irq, emu_waitdone. krun. rewrite He. cbn. rewrite Hs. cbn. krun.
  destruct (translate_fine code (EmuSoftc r' buf' h' 0 code 0) Hf) as (e & Hr & Hz). exists e, (EmuSoftc r' buf' h' 0 code 0).
  split; [exact Hr|]. by split_and!.
Qed.

Lemma fine_codes op r buf h r' buf' code h' :
  emu_exec op r buf h = (r', buf', code, h') → 1 ≤ op ≤ 9 → zlen buf = EMU_MAXIO → reg_handle r ∈ hw_open h →
  (sized op = true → 0 ≤ reg_iolen r ≤ EMU_MAXIO) → fatal code = false ∧ zlen buf' = EMU_MAXIO.
Proof using EmuLaws0. apply exec_fine. Qed.

Lemma emu_open_run sc handle name create excl :
  emu_idle sc → handle ∈ hw_open (e_dev sc) →
  returns (emu_open handle name create excl) (λ r sc', emu_idle sc' ∧
    match r with
    | inl _ => hw_open (e_dev sc') = hw_open (e_dev sc)
    | inr (nh, _) => hw_open (e_dev sc') = {[nh]} ∪ hw_open (e_dev sc)
    end) sc.
Proof using EmuLaws0.
  intros [Hs Hb] Hh. unfold emu_open. destruct (Z.ltb_spec EMU_MAXIO (zlen name + 1)) as [|Hlen]; [by apply wp_ret|].
  set (op := if create && excl then EMU_OP_EXCLCREATE else if create then EMU_OP_CREATE else EMU_OP_OPEN).
  assert (Hop : 1 ≤ op ≤ 3) by (unfold op, EMU_OP_EXCLCREATE, EMU_OP_CREATE, EMU_OP_OPEN; destruct create, excl; cbn; lia).
  apply wp_bind, wp_modify, wp_bind, wp_modify, wp_bind, wp_modify, wp_bind. cbn.
  match goal with |- wp _ _ _ ?x => set (sc1 := x) end. destruct (emu_exec op (e_regs sc1) (e_iobuf sc1) (e_dev sc1)) as [[[r' buf'] code] h'] eqn:E.
  assert (Hlb : zlen (e_iobuf sc1) = EMU_MAXIO).
  { change (e_iobuf sc1) with (splice (e_iobuf sc) 0 (name ++ [0])). unfold splice. rewrite ?length_app, ?length_take, ?length_drop, ?length_app. cbn [length]. lia. }
  assert (Hi1 : emu_idle sc1) by (split; [done|exact Hlb]).
  destruct (fine_codes _ _ _ _ _ _ _ _ E ltac:(lia) Hlb Hh) as [Hf Hl].
  { intros _. cbn. lia. }
  destruct (emu_do_run op sc1 r' buf' code h' Hi1 E Hf Hl) as (e & sc' & Hrun & Hz & Hi' & Er & _ & Ed).
  apply (wp_eq _ _ _ _ _ _ Hrun). pose proof (exec_open _ _ _ _ _ _ _ _ E Hop) as Ho. cbn in Ho. rewrite <- Hz in Ho.
  destruct (e =? 0).
  - apply wp_bind, wp_gets, wp_ret. split; [done|]. cbn. by rewrite Ed, Er.
  - apply wp_ret. split; [done|]. by rewrite Ed.
Qed.

(** The device never refuses to close. *)
Definition closes_ok : Prop := ∀ r buf h r' buf' code h',
  emu_exec EMU_OP_CLOSE r buf h = (r', buf', code, h') → reg_handle r ∈ hw_open h → code = EMU_RES_SUCCESS.

Lemma emu_close_once sc handle :
  emu_idle sc → handle ∈ hw_open (e_dev sc) →
  returns (wreg_handle handle;; emu_do EMU_OP_CLOSE) (λ e sc', emu_idle sc' ∧
    (closes_ok → e = 0) ∧ hw_open (e_dev sc') = if e =? 0 then hw_open (e_dev sc) ∖ {[handle]} else hw_open (e_dev sc)) sc.
Proof using EmuLaws0.
  intros Hi Hh. apply wp_bind, wp_modify. match goal with |- wp _ _ _ ?x => set (sc1 := x) end.
  destruct (emu_exec EMU_OP_CLOSE (e_regs sc1) (e_iobuf sc1) (e_dev sc1)) as [[[r' buf'] code] h'] eqn:E.
  destruct (fine_codes _ _ _ _ _ _ _ _ E ltac:(unfold EMU_OP_CLOSE; lia) (ei_buf _ Hi) Hh ltac:(done)) as [Hf Hl].
  destruct (emu_do_run EMU_OP_CLOSE sc1 r' buf' code h' ltac:(by destruct Hi) E Hf Hl) as (e & sc' & Hrun & Hz & Hi' & Er & _ & Ed).
  apply (wp_eq _ _ _ _ _ _ Hrun). pose proof (exec_close _ _ _ _ _ _ _ E) as Ho. cbn in Ho. rewrite <- Hz in Ho.
  split; [done|]. split; [|by rewrite Ed]. intros Hc. specialize (Hc _ _ _ _ _ _ _ E Hh). subst code. by apply Z.eqb_eq in Hz.
Qed.

Lemma emu_close_run n sc handle :
  emu_idle sc → handle ∈ hw_open (e_dev sc) →
  returns (emu_close_loop n handle) (λ e sc', emu_idle sc' ∧
    (closes_ok → e = 0) ∧ hw_open (e_dev sc') = if e =? 0 then hw_open (e_dev sc) ∖ {[handle]} else hw_open (e_dev sc)) sc.
Proof using EmuLaws0.
  revert sc. induction n as [|n IH]; intros sc Hi Hh; cbn [emu_close_loop].
  - eapply (wp_run _ (e ← (wreg_handle handle;; emu_do EMU_OP_CLOSE); mret e)); [by rewrite run_assoc|].
    apply wp_bind. eapply returns_mono; [by apply emu_close_once|]. intros e sc1 Hpost. by apply wp_ret.
  - eapply (wp_run _ (e ← (wreg_handle handle;; emu_do EMU_OP_CLOSE); if e =? EIO then emu_close_loop n handle else mret e)); [by rewrite run_assoc|].
    apply wp_bind. eapply returns_mono; [by apply emu_close_once|]. intros e sc1 (Hi1 & Hc1 & Ho1).
    destruct (Z.eqb_spec e EIO) as [->|]; [|by apply wp_ret]. cbn in Ho1.
    eapply returns_mono; [apply IH; [done|by rewrite Ho1]|]. intros e2 sc2 (Hi2 & Hc2 & Ho2).
    split; [done|]. split; [done|]. by rewrite Ho2, Ho1.
Qed.

(** Operations that open and close nothing. *)
Lemma emu_do_other op sc :
  emu_idle sc → reg_handle (e_regs sc) ∈ hw_open (e_dev sc) → 5 ≤ op ≤ 9 →
  (sized op = true → 0 ≤ reg_iolen (e_regs sc) ≤ EMU_MAXIO) →
  ∃ e sc' code, emu_do op sc = Ret e sc' ∧ (e =? 0) = (code =? EMU_RES_SUCCESS) ∧ emu_idle sc' ∧
    hw_open (e_dev sc') = hw_open (e_dev sc) ∧
    emu_exec op (e_regs sc) (e_iobuf sc) (e_dev sc) = (e_regs sc', e_iobuf sc', code, e_dev sc').
Proof using EmuLaws0.
  intros Hi Hh Hop Hsz. destruct (emu_exec op (e_regs sc) (e_iobuf sc) (e_dev sc)) as [[[r' buf'] code] h'] eqn:E.
  destruct (fine_codes _ _ _ _ _ _ _ _ E ltac:(lia) (ei_buf _ Hi) Hh Hsz) as [Hf Hl].
  destruct (emu_do_run op sc r' buf' code h' Hi E Hf Hl) as (e & sc' & Hrun & Hz & Hi' & <- & <- & <-).
  exists e, sc', code. split_and!; try done. by eapply exec_other.
Qed.


(** ** Transfers *)

(** What a read of [n] bytes at [off] gives. *)
Definition file_data (f : list Z) (off n : Z) : list Z := take (Z.to_nat n) (drop (Z.to_nat off) f).

Definition files_same sc sc' : Prop := ∀ x, hw_file (e_dev sc') x = hw_file (e_dev sc) x.

Lemma uiomove_none buf pos u m : uiomove buf pos 0 u m = Some (buf, u, m).
Proof. unfold uiomove. destruct u as [[|[b l] iov] off resid rw]; done. Qed.

Lemma set_offset_same u : set_offset (uio_offset u) u = u.
Proof. by destruct u. Qed.

(** The bytes of the buffer that a read moves. *)
Lemma buffer_moved buf u base len m n data :
  region u base len → uio_rw u = UIO_READ → n = zlen data → n ≤ uio_resid u → take (length data) buf = data →
  ∃ m', uiomove buf 0 n u m = Some (buf, advanced u n, m') ∧ ∀ a, m' a = put_bytes m base data a.
Proof.
  intros Hr Hrw Hn Hle Hd. destruct (decide (n = 0)) as [Hz|].
  - rewrite Hz, uiomove_none, advanced_0. exists m. split; [done|]. intros a. destruct data; [|cbn in Hn; lia].
    unfold put_bytes. cbn. case_decide; [lia|done].
  - rewrite (uiomove_one buf 0 n u base len m Hr) by lia. rewrite Hrw. eexists. split; [reflexivity|].
    intros a. cbn [Z.to_nat]. rewrite drop_0. by replace (Z.to_nat n) with (length data) by lia; rewrite Hd.
Qed.

Lemma emu_read_run sc handle n u m base len :
  emu_idle sc → handle ∈ hw_open (e_dev sc) → region u base len → uio_rw u = UIO_READ → 0 < n ≤ EMU_MAXIO → n ≤ uio_resid u →
  returns (emu_read handle n u m) (λ r sc', emu_idle sc' ∧ hw_open (e_dev sc') = hw_open (e_dev sc) ∧ files_same sc sc' ∧
    let data := file_data (hw_file (e_dev sc) handle) (uio_offset u) n in
    if r.1.1 =? 0 then r.1.2 = advanced u (zlen data) ∧ ∀ a, r.2 a = put_bytes m base data a
    else r.1.2 = u ∧ r.2 = m) sc.
Proof using EmuLaws0.
  intros Hi Hh Hr Hrw Hn Hres. unfold emu_read, emu_doread. apply wp_bind, wp_KASSERT; [by rewrite Hrw|].
  destruct (Z.ltb_spec 0xffffffff (uio_offset u)) as [Hbig|Hsmall].
  { apply wp_ret. split; [done|]. split; [done|]. split; [done|]. cbn.
    assert (Hd : file_data (hw_file (e_dev sc) handle) (uio_offset u) n = []).
    { unfold file_data. pose proof (file_size (e_dev sc) handle). rewrite drop_ge by lia. apply take_nil. }
    rewrite Hd. cbn. split; [by rewrite advanced_0|]. intros a. unfold put_bytes. cbn. case_decide; [lia|done]. }
  pose proof (rg_off _ _ _ Hr) as [Ho _]. apply wp_bind, wp_modify, wp_bind, wp_modify, wp_bind, wp_modify, wp_bind.
  match goal with |- wp _ _ _ ?x => set (sc1 := x) end.
  assert (Hregs : e_regs sc1 = EmuRegs handle (uio_offset u) n).
  { subst sc1. cbn. by rewrite wrap_small by lia. }
  destruct (emu_do_other EMU_OP_READ sc1) as (e & sc' & code & Hrun & Hz & Hi' & Ho' & E);
    [by destruct Hi|by rewrite Hregs|unfold EMU_OP_READ; lia|intros _; rewrite Hregs; cbn; lia|].
  apply (wp_eq _ _ _ _ _ _ Hrun). rewrite Hregs in E.
  assert (Hfs : files_same sc sc') by (intros x; exact (exec_read_error _ _ _ _ _ _ _ x E)).
  destruct (Z.eqb_spec e 0) as [->|Hne].
  2:{ apply wp_ret. split; [done|]. split; [done|]. split; [done|]. cbn. by rewrite (proj2 (Z.eqb_neq e 0)). }
  symmetry in Hz. apply Z.eqb_eq in Hz. subst code.
  destruct (exec_read _ _ _ _ _ _ E) as (Hl & Hoff & Hbuf & _); [done|cbn; lia|]. cbn in Hl, Hoff, Hbuf.
  set (data := file_data (hw_file (e_dev sc) handle) (uio_offset u) n).
  change (take (Z.to_nat n) (drop (Z.to_nat (uio_offset u)) (hw_file (e_dev sc) handle))) with data in Hl, Hoff, Hbuf.
  assert (Hdl : zlen data ≤ n) by (unfold data, file_data; rewrite length_take; lia).
  apply wp_bind, wp_gets. cbn [id].
  destruct (buffer_moved (e_iobuf sc') u base len m (reg_iolen (e_regs sc')) data Hr Hrw Hl) as (m' & -> & Hm); [lia|done|].
  apply wp_ret. split; [done|]. split; [done|]. split; [done|]. cbn. split; [|done].
  rewrite Hl, Hoff. unfold advanced, set_offset. cbn. done.
Qed.

Lemma emu_write_run sc handle n u m base len :
  emu_idle sc → handle ∈ hw_open (e_dev sc) → region u base len → uio_rw u = UIO_WRITE → 0 < n ≤ EMU_MAXIO → n ≤ uio_resid u →
  returns (emu_write handle n u m) (λ r sc', emu_idle sc' ∧ hw_open (e_dev sc') = hw_open (e_dev sc) ∧ r.2 = m ∧
    (r.1.1 = 0 → r.1.2 = advanced u n ∧
       hw_file (e_dev sc') handle = overwritten (hw_file (e_dev sc) handle) (uio_offset u) (get_bytes m base n))) sc.
Proof using EmuLaws0.
  intros Hi Hh Hr Hrw Hn Hres. unfold emu_write. apply wp_bind, wp_KASSERT; [by rewrite Hrw|].
  destruct (Z.ltb_spec 0xffffffff (uio_offset u)) as [Hbig|Hsmall]; [by apply wp_ret|].
  pose proof (rg_off _ _ _ Hr) as [Ho _]. apply wp_bind, wp_modify, wp_bind, wp_modify, wp_bind, wp_modify, wp_bind, wp_gets.
  rewrite (uiomove_one _ 0 n u base len m Hr) by lia. rewrite Hrw. apply wp_bind, wp_modify, wp_bind.
  match goal with |- wp _ _ _ ?x => set (sc1 := x) end.
  assert (Hregs : e_regs sc1 = EmuRegs handle (uio_offset u) n) by (subst sc1; cbn; by rewrite wrap_small by lia).
  assert (Hbuf : e_iobuf sc1 = splice (e_iobuf sc) 0 (get_bytes m base n)) by done.
  assert (Hlen : zlen (get_bytes m base n) = n) by (apply length_get_bytes; lia).
  assert (Hi1 : emu_idle sc1).
  { destruct Hi as [H1 H2]. split; [done|]. rewrite Hbuf. unfold splice. rewrite ?length_app, ?length_take, ?length_drop. lia. }
  destruct (emu_do_other EMU_OP_WRITE sc1) as (e & sc' & code & Hrun & Hz & Hi' & Ho' & E);
    [done|by rewrite Hregs|unfold EMU_OP_WRITE; lia|intros _; rewrite Hregs; cbn; lia|].
  apply (wp_eq _ _ _ _ _ _ Hrun), wp_ret. split; [done|]. split; [done|]. split; [done|]. cbn. intros ->.
  symmetry in Hz. apply Z.eqb_eq in Hz. subst code. split; [done|]. rewrite Hregs, Hbuf in E.
  rewrite (exec_write _ _ _ _ _ _ E) by (cbn; lia). cbn [reg_handle reg_offset reg_iolen]. f_equal. unfold splice.
  change (take (Z.to_nat 0) (e_iobuf sc)) with (@nil Z). cbn [app]. by rewrite take_app_length' by lia.
Qed.

(** Reading and writing in pieces. *)
Lemma file_data_length f off n : 0 ≤ n → 0 ≤ off → zlen (file_data f off n) = Z.min n (Z.max 0 (zlen f - off)).
Proof. intros. unfold file_data. rewrite length_take, length_drop. lia. Qed.

Lemma file_data_app f off n1 n2 :
  0 ≤ n1 → 0 ≤ n2 → 0 ≤ off → file_data f off (n1 + n2) = file_data f off n1 ++ file_data f (off + n1) n2.
Proof.
  intros. unfold file_data. rewrite !Z2Nat.inj_add, <- drop_drop by lia. by rewrite take_take_drop.
Qed.

Lemma put_bytes_app m base l1 l2 a :
  put_bytes (put_bytes m base l1) (base + zlen l1) l2 a = put_bytes m base (l1 ++ l2) a.
Proof.
  unfold put_bytes. rewrite length_app. repeat case_decide; try lia.
  - rewrite !arr_get_nonneg by lia. rewrite lookup_app_r by lia. do 2 f_equal. lia.
  - rewrite !arr_get_nonneg by lia. by rewrite lookup_app_l by lia.
Qed.

Lemma overwritten_app f off l1 l2 :
  0 ≤ off → overwritten (overwritten f off l1) (off + zlen l1) l2 = overwritten f off (l1 ++ l2).
Proof.
  intros Ho. unfold overwritten. set (k := Z.to_nat off).
  set (p := take k (f ++ replicate (k - length f) 0)).
  assert (Hp : length p = k) by (unfold p; rewrite length_take, length_app, length_replicate; lia).
  replace (Z.to_nat (off + zlen l1)) with (length (p ++ l1)) by (rewrite length_app; lia).
  replace (length (p ++ l1) - length (p ++ l1 ++ drop (k + length l1) f))%nat with O by (rewrite !length_app; lia).
  cbn [replicate]. rewrite app_nil_r.
  rewrite (app_assoc p l1), take_app_length, <- !app_assoc. do 2 f_equal.
  rewrite (app_assoc p l1), drop_app_ge by lia. rewrite drop_drop, !length_app. f_equal. f_equal. lia.
Qed.


Lemma file_data_take f off n : file_data f off (zlen (file_data f off n)) = file_data f off n.
Proof. unfold file_data. rewrite Nat2Z.id, length_take, length_drop, <- length_drop. rewrite <- take_take. by rewrite (take_ge (drop _ f) (length (drop _ f))). Qed.

Lemma put_bytes_ext m m' base l a : (∀ a, m a = m' a) → put_bytes m base l a = put_bytes m' base l a.
Proof. intros He. unfold put_bytes. by rewrite He. Qed.

Lemma file_data_0 f off : file_data f off 0 = [].
Proof. done. Qed.

Lemma emu_put_nil m base a : put_bytes m base [] a = m a.
Proof. unfold put_bytes. cbn. case_decide; [lia|done]. Qed.

Lemma read_pieces fuel sc handle u m base len :
  emu_idle sc → handle ∈ hw_open (e_dev sc) → region u base len → uio_rw u = UIO_READ → (Z.to_nat (uio_resid u) ≤ fuel)%nat →
  returns (emu_io_loop emu_read fuel handle u m) (λ r sc', emu_idle sc' ∧ hw_open (e_dev sc') = hw_open (e_dev sc) ∧ files_same sc sc' ∧
    let f := hw_file (e_dev sc) handle in let all := zlen (file_data f (uio_offset u) (uio_resid u)) in
    ∃ k, 0 ≤ k ≤ all ∧ r.1.2 = advanced u k ∧ (∀ a, r.2 a = put_bytes m base (file_data f (uio_offset u) k) a) ∧
      (r.1.1 = 0 → k = all)) sc.
Proof using EmuLaws0.
  revert sc u m base len. induction fuel as [|fuel IH]; intros sc u m base len Hi Hh Hr Hrw Hf;
    cbn [emu_io_loop]; destruct (Z.ltb_spec 0 (uio_resid u)) as [Hpos|Hle]; try lia.
  1, 3: assert (Hz : uio_resid u = 0) by (destruct Hr; lia); apply wp_ret; (do 3 (split; [done|])); rewrite Hz; exists 0; cbn;
    (split; [done|]); (split; [by rewrite advanced_0|]); (split; [|done]); intros a; by rewrite emu_put_nil.
  set (amt := if EMU_MAXIO <? uio_resid u then EMU_MAXIO else uio_resid u).
  assert (Ha : 0 < amt ≤ EMU_MAXIO ∧ amt ≤ uio_resid u) by (unfold amt, EMU_MAXIO; destruct (Z.ltb_spec 16384 (uio_resid u)); lia).
  pose proof (rg_off _ _ _ Hr) as [Ho _]. set (f := hw_file (e_dev sc) handle).
  apply wp_bind. eapply returns_mono; [apply (emu_read_run sc handle amt u m base len); try done; lia|].
  intros [[e u1] m1] sc1 (Hi1 & Ho1 & Hfs1 & Hres). cbn [fst snd] in Hres.
  destruct (Z.eqb_spec e 0) as [->|Hne]; cbn [negb].
  2:{ destruct Hres as [-> ->]. apply wp_ret. do 3 (split; [done|]). exists 0. cbn. rewrite advanced_0.
      split; [lia|]. split; [done|]. split; [|done]. intros a. by rewrite emu_put_nil. }
  destruct Hres as [-> Hm1]. fold f in Hm1 |- *. set (d1 := zlen (file_data f (uio_offset u) amt)) in *.
  assert (Hd1 : d1 = Z.min amt (Z.max 0 (zlen f - uio_offset u))) by (apply file_data_length; lia).
  assert (Hall : zlen (file_data f (uio_offset u) (uio_resid u)) = Z.min (uio_resid u) (Z.max 0 (zlen f - uio_offset u))) by (apply file_data_length; lia).
  change (uio_resid (advanced u d1)) with (uio_resid u - d1). destruct (Z.eqb_spec (uio_resid u - d1) (uio_resid u)) as [Hsame|Hmore].
  { apply wp_ret. do 3 (split; [done|]). exists d1. cbn [fst snd]. split; [lia|]. split; [done|]. split; [|lia].
    intros a. rewrite Hm1. by unfold d1; rewrite file_data_take. }
  eapply returns_mono; [apply (IH sc1 (advanced u d1) m1 (base + d1) (len - d1)); [done|by rewrite Ho1|apply advanced_region; [done|lia]|done|cbn; lia]|].
  intros r sc2 (Hi2 & Ho2 & Hfs2 & k & Hk & Hu & Hm & Hend). rewrite (Hfs1 handle) in Hk, Hm, Hend. fold f in Hk, Hm, Hend. cbn [uio_offset uio_resid advanced] in Hk, Hm, Hend.
  rewrite file_data_length in Hk, Hend by lia.
  split; [done|]. split; [by rewrite Ho2|]. split; [intros x; by rewrite Hfs2, Hfs1|].
  exists (d1 + k). split; [lia|]. split; [by rewrite Hu, advanced_advanced|]. split.
  - intros a. rewrite Hm, file_data_app by lia. rewrite (put_bytes_ext m1 (put_bytes m base (file_data f (uio_offset u) amt))) by done.
    replace (file_data f (uio_offset u) d1) with (file_data f (uio_offset u) amt) by (symmetry; apply file_data_take).
    apply put_bytes_app.
  - intros He. specialize (Hend He). lia.
Qed.

Lemma get_bytes_app m base a b : 0 ≤ a → 0 ≤ b → get_bytes m base (a + b) = get_bytes m base a ++ get_bytes m (base + a) b.
Proof. intros. unfold get_bytes. rewrite seqZ_app by lia. by rewrite fmap_app. Qed.

Lemma write_pieces fuel sc handle u m base len :
  emu_idle sc → handle ∈ hw_open (e_dev sc) → region u base len → uio_rw u = UIO_WRITE → (Z.to_nat (uio_resid u) ≤ fuel)%nat → 0 < uio_resid u →
  returns (emu_io_loop emu_write fuel handle u m) (λ r sc', emu_idle sc' ∧ hw_open (e_dev sc') = hw_open (e_dev sc) ∧ r.2 = m ∧
    (r.1.1 = 0 → r.1.2 = advanced u (uio_resid u) ∧
       hw_file (e_dev sc') handle = overwritten (hw_file (e_dev sc) handle) (uio_offset u) (get_bytes m base (uio_resid u)))) sc.
Proof using EmuLaws0.
  revert sc u base len. induction fuel as [|fuel IH]; intros sc u base len Hi Hh Hr Hrw Hf Hpos; [lia|].
  cbn [emu_io_loop]. rewrite (proj2 (Z.ltb_lt 0 _) Hpos).
  set (amt := if EMU_MAXIO <? uio_resid u then EMU_MAXIO else uio_resid u).
  assert (Ha : 0 < amt ≤ EMU_MAXIO ∧ amt ≤ uio_resid u) by (unfold amt, EMU_MAXIO; destruct (Z.ltb_spec 16384 (uio_resid u)); lia).
  pose proof (rg_off _ _ _ Hr) as [Ho _].
  apply wp_bind. eapply returns_mono; [apply (emu_write_run sc handle amt u m base len); try done; lia|].
  intros [[e u1] m1] sc1 (Hi1 & Ho1 & Hm1 & Hres). cbn [fst snd] in *. subst m1.
  destruct (Z.eqb_spec e 0) as [->|Hne]; cbn [negb]; [|by apply wp_ret].
  destruct (Hres eq_refl) as [-> Hfile]. change (uio_resid (advanced u amt)) with (uio_resid u - amt).
  rewrite (proj2 (Z.eqb_neq _ _)) by lia. destruct (decide (amt = uio_resid u)) as [Heq|Hlt].
  - assert (Hdone : emu_io_loop emu_write fuel handle (advanced u amt) m sc1 = Ret (0, advanced u amt, m) sc1).
    { destruct fuel; cbn [emu_io_loop]; change (uio_resid (advanced u amt)) with (uio_resid u - amt);
        by rewrite (proj2 (Z.ltb_ge 0 (uio_resid u - amt))) by lia. }
    apply (wp_eq _ _ _ _ _ _ Hdone). cbn [fst snd]. by rewrite <- Heq.
  - eapply returns_mono; [apply (IH sc1 (advanced u amt) (base + amt) (len - amt)); [done|by rewrite Ho1|apply advanced_region; [done|lia]|done|cbn; lia|cbn; lia]|].
    intros r sc2 (Hi2 & Ho2 & Hm2 & Hend). split; [done|]. split; [by rewrite Ho2|]. split; [done|]. intros He.
    destruct (Hend He) as [Hu Hf2]. cbn [uio_offset uio_resid advanced] in Hu, Hf2. split.
    + rewrite Hu, advanced_advanced. f_equal. lia.
    + rewrite Hf2, Hfile. replace (uio_resid u) with (amt + (uio_resid u - amt)) at 2 by lia. rewrite get_bytes_app by lia.
      rewrite <- overwritten_app by lia. by rewrite length_get_bytes by lia.
Qed.

End device.
