(* ===== verification/EmuCalls.v ===== *)
(** * The emulator file system: vnodes and handles

    The invariant [emu_ok] of the table of vnodes, that the operations keep it
    and never give the device a handle that is not open, the theorems, and a
    small host file system as an instance of the device. *)

From Stdlib Require Import ZArith Lia.
From stdpp Require Import base gmap list list_numbers option strings sets.
From S2P Require Import Prelude Types Strings Uio Sfs SfsNode Emu EmuFs.
Set Default Goal Selector "!".
Open Scope Z_scope.

Section vnodes.
Context {H : Type} `{EmuOps H} (hw_open : H → gset Z) (hw_file : H → Z → list Z) `{!EmuLaws H hw_open hw_file}.
Implicit Types (s : emufs_fs H).

Abbreviation idle := (emu_idle (H := H)).
Abbreviation closes := (closes_ok hw_open).
Definition open_handles s : gset Z := hw_open (e_dev (ef_emu s)).

(** References to a vnode. *)
Definition erefs s (v : Z) : Z := match ef_store s !! v with Some x => ev_refcount x | None => 0 end.

(** [lost] are the handles that are open and have no vnode. *)
Record emu_ok (lost : gset Z) s : Prop := {
  eo_idle : idle (ef_emu s);
  eo_nodup : NoDup (ef_vnodes s);
  eo_table : ∀ v, v ∈ ef_vnodes s ↔ is_Some (ef_store s !! v);
  eo_inj : ∀ v w x y, ef_store s !! v = Some x → ef_store s !! w = Some y → ev_handle x = ev_handle y → v = w;
  eo_refs : ∀ v x, ef_store s !! v = Some x → 0 < ev_refcount x;
  eo_handles : ∀ h, h ∈ open_handles s ↔ h ∈ lost ∨ ∃ v x, ef_store s !! v = Some x ∧ ev_handle x = h;
  eo_lost : ∀ v x, ef_store s !! v = Some x → ev_handle x ∉ lost;
  eo_root : ∃ v x, ef_root s = Some v ∧ ef_store s !! v = Some x ∧ ev_isdir x = true;
}.

Lemma erefs_pos lost s v : emu_ok lost s → 0 < erefs s v ↔ is_Some (ef_store s !! v).
Proof.
  intros Hok. unfold erefs. destruct (ef_store s !! v) as [x|] eqn:E; [|split; [lia|by intros []]].
  split; [done|]. intros _. by eapply eo_refs.
Qed.

Lemma eo_open lost s v x : emu_ok lost s → ef_store s !! v = Some x → ev_handle x ∈ open_handles s.
Proof. intros Hok Hx. apply (eo_handles _ _ Hok). right. by exists v, x. Qed.

(** Only the device, the lock and the memory differ. *)
Lemma emu_ok_dev lost s sc d l :
  emu_ok lost s → idle sc → hw_open (e_dev sc) = open_handles s →
  emu_ok lost (EmuFs sc (ef_store s) (ef_vnodes s) (ef_root s) d l).
Proof. intros [H1 H2 H3 H4 H5 H6 H7 H8] Hi Ho. split; try done. intros h. unfold open_handles at 1. cbn. rewrite Ho. apply H6. Qed.

Lemma emu_ok_same lost s d l : emu_ok lost s → emu_ok lost (EmuFs (ef_emu s) (ef_store s) (ef_vnodes s) (ef_root s) d l).
Proof. intros Hok. apply emu_ok_dev; [done|apply Hok|done]. Qed.

(** A new number of references. *)
Lemma emu_ok_refs lost s v x n :
  emu_ok lost s → ef_store s !! v = Some x → 0 < n → emu_ok lost (put_vnode v (EmuVnode (ev_handle x) (ev_isdir x) n) s).
Proof.
  intros [H1 H2 H3 H4 H5 H6 H7 H8] Hx Hn.
  assert (Hl : ∀ w y, ef_store (put_vnode v (EmuVnode (ev_handle x) (ev_isdir x) n) s) !! w = Some y →
    ∃ y', ef_store s !! w = Some y' ∧ ev_handle y' = ev_handle y ∧ ev_isdir y' = ev_isdir y ∧ 0 < ev_refcount y).
  { intros w y Hy. cbn in Hy. apply lookup_insert_Some in Hy as [[<- <-]|[_ Hw]]; [by exists x|]. exists y. split_and!; try done. by eapply H5. }
  split; try done.
  - intros w. cbn. rewrite lookup_insert_is_Some', <- H3. split; [by right|]. intros [->|?]; [apply H3; by exists x|done].
  - intros w1 w2 y1 y2 (y1' & ? & E1 & _)%Hl (y2' & ? & E2 & _)%Hl He. apply (H4 w1 w2 y1' y2'); [done|done|]. by rewrite E1, E2.
  - intros w y (y' & _ & _ & _ & Hp)%Hl. done.
  - intros h. change (open_handles (put_vnode _ _ s)) with (open_handles s). rewrite H6. apply or_iff_compat_l. split.
    + intros (w & y & Hw & He). destruct (decide (w = v)) as [->|Hne].
      * exists v, (EmuVnode (ev_handle x) (ev_isdir x) n). split; [apply lookup_insert_eq|]. cbn. congruence.
      * exists w, y. split; [cbn; by rewrite lookup_insert_ne|done].
    + intros (w & y & (y' & Hw & He' & _)%Hl & He). exists w, y'. split; [done|congruence].
  - intros w y (y' & Hw & He & _)%Hl. rewrite <- He. by eapply H7.
  - destruct H8 as (r & y & Hr & Hy & Hd). destruct (decide (r = v)) as [->|Hne].
    + exists v, (EmuVnode (ev_handle x) (ev_isdir x) n). split; [done|]. split; [apply lookup_insert_eq|]. cbn. congruence.
    + exists r, y. split; [done|]. split; [|done]. cbn. by rewrite lookup_insert_ne.
Qed.

Definition plus (x d : Z) (c : Z → Z) (v : Z) : Z := if decide (v = x) then c v + d else c v.

Lemma erefs_put v x n s w : ef_store s !! v = Some x →
  erefs (put_vnode v (EmuVnode (ev_handle x) (ev_isdir x) n) s) w = plus v (n - ev_refcount x) (erefs s) w.
Proof.
  intros Hx. unfold erefs, plus. cbn. destruct (decide (w = v)) as [->|Hne].
  - rewrite lookup_insert_eq, Hx. cbn. lia.
  - by rewrite lookup_insert_ne.
Qed.

Lemma run_ev {B} (f : emufs_vnode → K (emufs_fs H) B) s v x : ef_store s !! v = Some x → mbind f (ev v) s = f x s.
Proof. intros Hx. unfold ev. rewrite run_assoc, run_gets. cbn. by rewrite (run_deref _ _ x). Qed.

Lemma returns_ev {B} (f : emufs_vnode → K (emufs_fs H) B) Q s v x : ef_store s !! v = Some x → returns (f x) Q s → returns (mbind f (ev v)) Q s.
Proof. intros Hx. unfold wp. by rewrite (run_ev f s v x Hx). Qed.

Lemma returns_emu {A} (m : K (emu_softc H) A) Q s :
  returns m (λ a sc, Q a (EmuFs sc (ef_store s) (ef_vnodes s) (ef_root s) (ef_biglock s) (ef_mallocs s))) (ef_emu s) → returns (on_emu m) Q s.
Proof. unfold wp, on_emu. by destruct (m (ef_emu s)). Qed.

Lemma emu_incref_run lost s v :
  emu_ok lost s → 0 < erefs s v →
  returns (emu_incref v) (λ _ s', emu_ok lost s' ∧ ∀ w, erefs s' w = plus v 1 (erefs s) w) s.
Proof.
  intros Hok [x Hx]%(erefs_pos lost s v Hok). unfold emu_incref. apply (returns_ev _ _ _ _ x Hx), wp_modify.
  pose proof (eo_refs _ _ Hok v x Hx). split; [apply emu_ok_refs; [done|done|lia]|].
  intros w. rewrite erefs_put by done. f_equal. lia.
Qed.

(** The search for a handle. *)
Lemma find_handle_spec lost s handle vs :
  emu_ok lost s → (∀ v, v ∈ vs → is_Some (ef_store s !! v)) →
  ∃ o, find_handle handle vs (ef_store s) = Some o ∧
    match o with
    | Some v => ∃ x, ef_store s !! v = Some x ∧ ev_handle x = handle
    | None => ∀ v x, v ∈ vs → ef_store s !! v = Some x → ev_handle x ≠ handle
    end.
Proof.
  intros Hok. induction vs as [|v vs IH]; intros Hin; cbn [find_handle].
  { exists None. split; [done|]. intros v x Hv. by apply elem_of_nil in Hv. }
  destruct (Hin v) as [x Hx]; [by left|]. rewrite Hx. cbn. destruct (Z.eqb_spec (ev_handle x) handle) as [He|Hne].
  - exists (Some v). split; [done|]. by exists x.
  - destruct IH as (o & Ho & Hpost); [intros w Hw; apply Hin; by right|]. exists o. split; [done|]. destruct o; [done|].
    intros w y [->|Hw]%elem_of_cons Hy; [congruence|by eapply Hpost].
Qed.

(** A new vnode takes a handle that has none. *)
Lemma emu_ok_new lost s v handle isdir d l :
  emu_ok lost s → ef_store s !! v = None → handle ∈ lost →
  emu_ok (lost ∖ {[handle]}) (EmuFs (ef_emu s) (<[v := EmuVnode handle isdir 1]> (ef_store s)) (ef_vnodes s ++ [v]) (ef_root s) d l).
Proof.
  intros [H1 H2 H3 H4 H5 H6 H7 H8] Hv Hl.
  assert (Hnew : ∀ w y, ef_store s !! w = Some y → ev_handle y ≠ handle) by (intros w y Hy He; by destruct (H7 w y Hy); rewrite He).
  split; cbn; try done.
  - apply NoDup_app. split; [done|]. split; [|apply NoDup_singleton]. intros w Hw Hw2. apply list_elem_of_singleton in Hw2. subst w. apply H3 in Hw. rewrite Hv in Hw. by destruct Hw.
  - intros w. rewrite elem_of_app, list_elem_of_singleton, H3, lookup_insert_is_Some'. naive_solver.
  - intros w1 w2 y1 y2 [[<- <-]|[_ Hw1]]%lookup_insert_Some [[<- <-]|[_ Hw2]]%lookup_insert_Some He; cbn in He; [done|..].
    + by destruct (Hnew w2 y2 Hw2).
    + by destruct (Hnew w1 y1 Hw1).
    + by eapply H4.
  - intros w y [[<- <-]|[_ Hw]]%lookup_insert_Some; [done|by eapply H5].
  - intros h. change (open_handles _) with (open_handles s). rewrite H6, elem_of_difference, elem_of_singleton. split.
    + intros [Hh|(w & y & Hw & He)].
      * destruct (decide (h = handle)) as [->|]; [|by left]. right. exists v, (EmuVnode handle isdir 1). split; [apply lookup_insert_eq|done].
      * right. exists w, y. split; [|done]. rewrite lookup_insert_ne; [done|]. intros ->. congruence.
    + intros [[Hh _]|(w & y & [[<- <-]|[_ Hw]]%lookup_insert_Some & He)]; [by left|left; by subst h|right; eauto].
  - intros w y [[<- <-]|[_ Hw]]%lookup_insert_Some; [set_solver|]. pose proof (H7 w y Hw). set_solver.
  - destruct H8 as (r & y & Hr & Hy & Hd). exists r, y. split; [done|]. split; [|done]. rewrite lookup_insert_ne; [done|]. intros ->. congruence.
Qed.


(** What an operation may do: [lost] grows only if the device refuses to close. *)
Definition kept (lost : gset Z) s' : Prop := ∃ lost', emu_ok lost' s' ∧ (closes → lost' ⊆ lost).

Lemma kept_ok lost s' : emu_ok lost s' → kept lost s'.
Proof. intros Hok. by exists lost. Qed.

Definition refs_same s s' : Prop := ∀ w, erefs s' w = erefs s w.

(** The device has opened a handle. *)
Lemma emu_ok_opened lost s sc nh d l :
  emu_ok lost s → idle sc → hw_open (e_dev sc) = {[nh]} ∪ open_handles s →
  ∃ lost', emu_ok lost' (EmuFs sc (ef_store s) (ef_vnodes s) (ef_root s) d l) ∧ lost' ∖ {[nh]} ⊆ lost.
Proof.
  intros [H1 H2 H3 H4 H5 H6 H7 H8] Hi Ho.
  destruct (decide (map_Exists (λ _ x, ev_handle x = nh) (ef_store s))) as [(v & x & Hx & He)|Hno].
  - exists lost. split; [|set_solver]. split; try done. intros h. unfold open_handles at 1. cbn. rewrite Ho, elem_of_union, elem_of_singleton, H6. naive_solver.
  - assert (Hnew : ∀ v x, ef_store s !! v = Some x → ev_handle x ≠ nh) by (intros v x Hx He; destruct Hno; by exists v, x).
    exists ({[nh]} ∪ lost). split; [|set_solver]. split; try done.
    + intros h. unfold open_handles at 1. cbn. rewrite Ho, !elem_of_union, H6. naive_solver.
    + intros v x Hx. pose proof (H7 v x Hx). pose proof (Hnew v x Hx). set_solver.
Qed.

(** The device has closed a handle without a vnode. *)
Lemma emu_ok_closed lost s sc h d l :
  emu_ok lost s → idle sc → hw_open (e_dev sc) = open_handles s ∖ {[h]} → h ∈ lost →
  emu_ok (lost ∖ {[h]}) (EmuFs sc (ef_store s) (ef_vnodes s) (ef_root s) d l).
Proof.
  intros [H1 H2 H3 H4 H5 H6 H7 H8] Hi Ho Hl. split; try done.
  - intros h'. unfold open_handles at 1. cbn. rewrite Ho, !elem_of_difference, elem_of_singleton, H6. split.
    + naive_solver.
    + intros [?|(v & x & Hx & He)]; [naive_solver|]. split; [right; eauto|]. intros ->. apply (H7 v x Hx). by rewrite He.
  - intros v x Hx. pose proof (H7 v x Hx). set_solver.
Qed.

Lemma emufs_loadvnode_run lost s handle isdir :
  emu_ok lost s → handle ∈ open_handles s →
  returns (emufs_loadvnode handle isdir) (λ r s',
    match r with
    | inl _ => emu_ok lost s' ∧ refs_same s s' ∧ handle ∈ lost
    | inr v => emu_ok (lost ∖ {[handle]}) s' ∧ ∀ w, erefs s' w = plus v 1 (erefs s) w
    end) s.
Proof.
  intros Hok Hh. unfold emufs_loadvnode. apply wp_bind, wp_modify.
  match goal with |- wp _ _ _ ?x => set (s1 := x) end.
  assert (Hok1 : emu_ok lost s1) by by apply emu_ok_same. apply wp_bind, wp_gets. cbn [id].
  destruct (find_handle_spec lost s1 handle (ef_vnodes s1) Hok1) as (o & Hfind & Hpost); [intros v; apply (eo_table _ _ Hok1)|].
  apply wp_bind. apply (wp_deref _ o); [done|]. destruct o as [v|].
  - destruct Hpost as (x & Hx & He). apply wp_bind.
    eapply returns_mono; [apply (emu_incref_run lost s1 v Hok1); apply (erefs_pos lost s1 v Hok1); by exists x|].
    intros [] s2 [Hok2 Hr2]. apply wp_bind, wp_modify, wp_ret. split; [|done].
    assert (Hnl : handle ∉ lost) by (rewrite <- He; by apply (eo_lost lost s1 Hok1 v x)). replace (lost ∖ {[handle]}) with lost by set_solver.
    by apply emu_ok_same.
  - assert (Hl : handle ∈ lost).
    { apply (eo_handles _ _ Hok) in Hh as [?|(v & x & Hx & He)]; [done|]. destruct (Hpost v x); [|done|done].
      apply (eo_table _ _ Hok). by exists x. }
    unfold emu_malloc. apply wp_bind, wp_bind, wp_gets, wp_bind, wp_modify, wp_ret.
    destruct (match ef_mallocs (id s1) with [] => true | b :: _ => b end); cbn [negb].
    2:{ apply wp_ret. split; [by apply (emu_ok_same lost s1)|]. split; [done|done]. }
    apply wp_bind, wp_bind, wp_gets, wp_bind, wp_modify, wp_ret.
    match goal with |- context [if negb ?b then _ else _] => destruct b end; cbn [negb].
    2:{ apply wp_bind, wp_modify, wp_ret. split; [by apply (emu_ok_same lost s1)|]. split; [done|done]. }
    apply wp_bind, wp_modify, wp_bind, wp_modify, wp_ret. cbn.
    set (v := fresh (dom (ef_store s))). assert (Hv : ef_store s !! v = None) by (apply not_elem_of_dom, is_fresh).
    split; [by apply emu_ok_new|]. intros w. unfold erefs, plus. cbn. destruct (decide (w = v)) as [->|].
    + by rewrite lookup_insert_eq, Hv.
    + by rewrite lookup_insert_ne.
Qed.

(** Looking up and creating. *)
Lemma emufs_find_run lost s dir name create excl :
  emu_ok lost s → 0 < erefs s dir →
  returns (emufs_find dir name create excl) (λ r s', kept lost s' ∧
    match r with inl _ => refs_same s s' | inr v => ∀ w, erefs s' w = plus v 1 (erefs s) w end) s.
Proof using EmuLaws0.
  intros Hok [x Hx]%(erefs_pos lost s dir Hok). unfold emufs_find. apply (returns_ev _ _ _ _ x Hx), wp_bind, returns_emu.
  eapply returns_mono; [eapply (emu_open_run hw_open hw_file); [apply Hok|by eapply eo_open]|].
  intros [e|[nh isdir]] sc [Hi Ho].
  { apply wp_ret. split; [|done]. apply kept_ok. by apply emu_ok_dev. }
  destruct (emu_ok_opened lost s sc nh (ef_biglock s) (ef_mallocs s) Hok Hi Ho) as (lost1 & Hok1 & Hsub).
  set (s1 := EmuFs sc _ _ _ _ _) in *. apply wp_bind.
  eapply returns_mono; [apply (emufs_loadvnode_run lost1 s1 nh isdir Hok1); change (open_handles s1) with (hw_open (e_dev sc)); rewrite Ho; set_solver|].
  intros [e|v] s2.
  - intros (Hok2 & Hr2 & Hl). apply wp_bind, returns_emu.
    eapply returns_mono; [eapply (emu_close_run hw_open hw_file); [apply Hok2|apply (eo_handles _ _ Hok2); by left]|].
    intros e2 sc2 (Hi2 & Hc2 & Ho2). apply wp_ret. split; [|done]. destruct (Z.eqb_spec e2 0) as [->|Hne].
    + exists (lost1 ∖ {[nh]}). split; [by apply emu_ok_closed|done].
    + exists lost1. split; [by apply emu_ok_dev|]. intros Hc. by destruct Hne; apply Hc2.
  - intros (Hok2 & Hr2). apply wp_ret. split; [by exists (lost1 ∖ {[nh]})|done].
Qed.

(** The last reference: the vnode goes and its handle is closed. *)
Lemma emu_ok_reclaimed lost s sc v x ix d l :
  emu_ok lost s → idle sc → ef_store s !! v = Some x → hw_open (e_dev sc) = open_handles s ∖ {[ev_handle x]} →
  ef_vnodes s !! ix = Some v → ef_root s ≠ Some v →
  emu_ok lost (EmuFs sc (delete v (ef_store s)) (delete ix (ef_vnodes s)) (ef_root s) d l).
Proof.
  intros Hok Hi Hx Ho Hix Hroot. destruct Hok as [H1 H2 H3 H4 H5 H6 H7 H8].
  pose proof (delete_Permutation _ _ _ Hix) as Hp. split; cbn; try done.
  - rewrite Hp in H2. by apply NoDup_cons in H2 as [_ ?].
  - intros w. rewrite lookup_delete_is_Some, <- H3.
    assert (Hmem : w ∈ ef_vnodes s ↔ w = v ∨ w ∈ delete ix (ef_vnodes s)) by (rewrite Hp at 1; apply elem_of_cons).
    rewrite Hp in H2. apply NoDup_cons in H2 as [Hn _]. rewrite Hmem. split; [|naive_solver].
    intros Hw. split; [|by right]. intros <-. done.
  - intros w1 w2 y1 y2 [_ Hw1]%lookup_delete_Some [_ Hw2]%lookup_delete_Some. by apply H4.
  - intros w y [_ Hw]%lookup_delete_Some. by eapply H5.
  - intros h. unfold open_handles at 1. cbn. rewrite Ho, elem_of_difference, elem_of_singleton, H6. split.
    + intros [[?|(w & y & Hw & He)] Hne]; [by left|right]. exists w, y. split; [|done]. rewrite lookup_delete_ne; [done|]. intros ->. congruence.
    + intros [Hh|(w & y & [Hne Hw]%lookup_delete_Some & He)].
      * split; [by left|]. intros ->. by apply (H7 v x Hx).
      * split; [right; eauto|]. intros ->. destruct Hne. by apply (H4 v w x y).
  - intros w y [_ Hw]%lookup_delete_Some. by eapply H7.
  - destruct H8 as (r & y & Hr & Hy & Hd). exists r, y. split; [done|]. split; [|done]. rewrite lookup_delete_ne; [done|]. intros ->. congruence.
Qed.

Lemma emu_decref_run lost s v :
  emu_ok lost s → 0 < erefs s v → (ef_root s = Some v → 1 < erefs s v) →
  returns (emu_decref v) (λ _ s', emu_ok lost s' ∧
    ((∀ w, erefs s' w = plus v (-1) (erefs s) w) ∨ ¬ closes ∧ refs_same s s')) s.
Proof using EmuLaws0.
  intros Hok Hv Hroot. pose proof Hv as [x Hx]%(erefs_pos lost s v Hok). pose proof (eo_refs _ _ Hok v x Hx) as Hpos.
  assert (Hrx : erefs s v = ev_refcount x) by (unfold erefs; by rewrite Hx).
  unfold emu_decref. apply (returns_ev _ _ _ _ x Hx), wp_bind, wp_KASSERT; [by apply Z.ltb_lt|].
  destruct (Z.ltb_spec 1 (ev_refcount x)) as [Hmany|Hone].
  { apply wp_modify. split; [apply emu_ok_refs; [done|done|lia]|]. left. intros w. rewrite erefs_put by done. f_equal. lia. }
  apply wp_bind. unfold emufs_reclaim. apply (returns_ev _ _ _ _ x Hx), wp_bind, wp_modify.
  rewrite (proj2 (Z.ltb_ge 1 _)) by lia. apply wp_bind, wp_KASSERT; [apply Z.eqb_eq; lia|]. apply wp_bind, returns_emu. cbn [ef_emu].
  eapply returns_mono; [eapply (emu_close_run hw_open hw_file); [apply Hok|by eapply eo_open]|].
  intros e sc (Hi & Hc & Ho). cbn [ef_emu] in *. destruct (Z.eqb_spec e 0) as [->|Hne]; cbn [negb].
  - apply wp_bind, wp_gets. cbn [id ef_vnodes]. destruct (list_find (λ w, w = v) (ef_vnodes s)) as [[ix w]|] eqn:Ef.
    + apply list_find_Some in Ef as (Hix & -> & _). apply wp_bind, wp_modify, wp_bind, wp_modify, wp_ret, wp_ret. cbn.
      assert (Hnr : ef_root s ≠ Some v) by (intros Hr; specialize (Hroot Hr); lia).
      split; [by apply (emu_ok_reclaimed lost s sc v x)|]. left. intros w. unfold erefs, plus. cbn. destruct (decide (w = v)) as [->|].
      * rewrite lookup_delete_eq, Hx. lia.
      * by rewrite lookup_delete_ne.
    + apply list_find_None in Ef. rewrite Forall_forall in Ef. destruct (Ef v); [|done]. apply (eo_table _ _ Hok). by exists x.
  - apply wp_bind, wp_modify, wp_ret, wp_ret. split; [by apply (emu_ok_dev lost s sc)|]. right. split; [|done]. intros Hcl. by destruct Hne; apply Hc.
Qed.


(** ** The calls of the VFS *)

Inductive emu_call :=
| CLookup (v : Z) (path : list Z) | CCreat (v : Z) (name : list Z) (excl : bool) | CLookparent (v : Z) (path : list Z) (len : Z)
| CIncref (v : Z) | CDecref (v : Z) | CGetroot
| CRead (v : Z) (u : uio) (m : mem) | CWrite (v : Z) (u : uio) (m : mem) | CGetdirentry (v : Z) (u : uio) (m : mem)
| CTruncate (v len : Z) | CStat (v : Z).

(** A vnode with a new reference, or anything else. *)
Inductive emu_res := RVnode (v : Z) | ROther.

Definition found (r : Z + Z) : emu_res := match r with inl _ => ROther | inr v => RVnode v end.

Definition emu_call_run (c : emu_call) : K (emufs_fs H) emu_res :=
  match c with
  | CLookup v path => r ← vop_emu_lookup v path; mret (found r)
  | CCreat v name excl => r ← vop_emu_creat v name excl; mret (found r)
  | CLookparent v path len => r ← vop_emu_lookparent v path len; mret (match r with inl _ => ROther | inr (d, _) => RVnode d end)
  | CIncref v => emu_incref v;; mret (RVnode v)
  | CDecref v => emu_decref v;; mret ROther
  | CGetroot => v ← emufs_getroot; mret (RVnode v)
  | CRead v u m => vop_emu_read (Z.to_nat (uio_resid u)) v u m;; mret ROther
  | CWrite v u m => vop_emu_write (Z.to_nat (uio_resid u)) v u m;; mret ROther
  | CGetdirentry v u m => vop_emu_getdirentry v u m;; mret ROther
  | CTruncate v len => vop_emu_truncate v len;; mret ROther
  | CStat v => emufs_stat v;; mret ROther
  end.

Definition transfer (u : uio) (rw : uio_dir) : Prop := uio_rw u = rw ∧ ∃ base len, region u base len.

(** The caller has a reference; the root keeps one of its own. *)
Definition call_allowed s (c : emu_call) : Prop :=
  match c with
  | CLookup v _ | CCreat v _ _ | CLookparent v _ _ | CIncref v | CStat v => 0 < erefs s v
  | CDecref v => 0 < erefs s v ∧ (ef_root s = Some v → 1 < erefs s v)
  | CGetroot => True
  | CRead v u _ | CGetdirentry v u _ => 0 < erefs s v ∧ transfer u UIO_READ
  | CWrite v u _ => 0 < erefs s v ∧ transfer u UIO_WRITE
  | CTruncate v len => 0 < erefs s v ∧ 0 ≤ len
  end.

Definition call_effect s (c : emu_call) (r : emu_res) s' : Prop :=
  match r with
  | RVnode v => ∀ w, erefs s' w = plus v 1 (erefs s) w
  | ROther =>
      match c with
      | CDecref v => (∀ w, erefs s' w = plus v (-1) (erefs s) w) ∨ ¬ closes ∧ refs_same s s'
      | _ => refs_same s s'
      end
  end.

Lemma returns_by_kind {A} lost (dir file : K (emufs_fs H) A) Q s v :
  emu_ok lost s → 0 < erefs s v → returns dir Q s → returns file Q s → returns (by_kind v dir file) Q s.
Proof.
  intros Hok [x Hx]%(erefs_pos lost s v Hok) H1 H2. unfold by_kind. apply (returns_ev _ _ _ _ x Hx). by destruct (ev_isdir x).
Qed.

(** An operation on the open handle of a vnode. *)
Lemma device_op {A} lost s v (m : Z → K (emu_softc H) A) :
  emu_ok lost s → 0 < erefs s v →
  (∀ handle sc, idle sc → handle ∈ hw_open (e_dev sc) → returns (m handle) (λ _ sc', idle sc' ∧ hw_open (e_dev sc') = hw_open (e_dev sc)) sc) →
  returns (x ← ev v; on_emu (m (ev_handle x))) (λ _ s', emu_ok lost s' ∧ refs_same s s') s.
Proof.
  intros Hok [x Hx]%(erefs_pos lost s v Hok) Hm. apply (returns_ev _ _ _ _ x Hx), returns_emu.
  eapply returns_mono; [apply Hm; [apply Hok|by eapply eo_open]|]. intros a sc [Hi Ho]. split; [by apply emu_ok_dev|done].
Qed.

Lemma lookparent_run lost s v path len :
  emu_ok lost s → 0 < erefs s v →
  returns (emufs_lookparent v path len) (λ r s', kept lost s' ∧
    match r with inl _ => refs_same s s' | inr (d, _) => ∀ w, erefs s' w = plus d 1 (erefs s) w end) s.
Proof using EmuLaws0.
  intros Hok Hv. unfold emufs_lookparent. destruct (last_slash path) as [[d name]|].
  - destruct (len <? zlen name + 1); [apply wp_ret; split; [by apply kept_ok|done]|].
    apply wp_bind. eapply returns_mono; [by apply emufs_find_run|]. intros [e|w] s' Hpost; by apply wp_ret.
  - destruct (len <? zlen path + 1); [apply wp_ret; split; [by apply kept_ok|done]|].
    apply wp_bind. eapply returns_mono; [by apply (emu_incref_run lost)|]. intros [] s' [Hok' Hr]. apply wp_ret. split; [by apply kept_ok|done].
Qed.

Lemma emu_readdir_run sc handle n u m base len :
  idle sc → handle ∈ hw_open (e_dev sc) → region u base len → uio_rw u = UIO_READ → 0 ≤ n ≤ EMU_MAXIO → n ≤ uio_resid u →
  returns (emu_readdir handle n u m) (λ _ sc', idle sc' ∧ hw_open (e_dev sc') = hw_open (e_dev sc)) sc.
Proof using EmuLaws0.
  intros Hi Hh Hr Hrw Hn Hres. unfold emu_readdir, emu_doread. apply wp_bind, wp_KASSERT; [by rewrite Hrw|].
  destruct (0xffffffff <? uio_offset u); [by apply wp_ret|].
  apply wp_bind, wp_modify, wp_bind, wp_modify, wp_bind, wp_modify, wp_bind. match goal with |- wp _ _ _ ?x => set (sc1 := x) end.
  destruct (emu_do_other hw_open hw_file EMU_OP_READDIR sc1) as (e & sc' & code & Hrun & Hz & Hi' & Ho' & E);
    [by destruct Hi|done|unfold EMU_OP_READDIR; lia|intros _; cbn; lia|].
  apply (wp_eq _ _ _ _ _ _ Hrun). destruct (e =? 0) eqn:Ee; [|by apply wp_ret].
  symmetry in Hz. apply Z.eqb_eq in Hz. subst code. pose proof (exec_readdir _ _ _ _ _ _ E) as Hl. cbn in Hl.
  apply wp_bind, wp_gets. cbn [id]. destruct (decide (reg_iolen (e_regs sc') = 0)) as [->|Hne].
  - rewrite uiomove_none. by apply wp_ret.
  - rewrite (uiomove_one _ 0 _ u base len m Hr) by lia. by apply wp_ret.
Qed.

Lemma trunc_run sc handle n :
  idle sc → handle ∈ hw_open (e_dev sc) → 0 ≤ n →
  returns (emu_trunc handle n) (λ _ sc', idle sc' ∧ hw_open (e_dev sc') = hw_open (e_dev sc)) sc.
Proof using EmuLaws0.
  intros Hi Hh Hn. unfold emu_trunc. apply wp_bind, wp_KASSERT; [by apply Z.leb_le|]. apply wp_bind, wp_modify, wp_bind, wp_modify.
  match goal with |- wp _ _ _ ?x => set (sc1 := x) end.
  destruct (emu_do_other hw_open hw_file EMU_OP_TRUNC sc1) as (e & sc' & code & Hrun & _ & Hi' & Ho' & _);
    [by destruct Hi|done|unfold EMU_OP_TRUNC; lia|done|]. by apply (wp_eq _ _ _ _ _ _ Hrun).
Qed.

Lemma getsize_run sc handle :
  idle sc → handle ∈ hw_open (e_dev sc) →
  returns (emu_getsize handle) (λ _ sc', idle sc' ∧ hw_open (e_dev sc') = hw_open (e_dev sc)) sc.
Proof using EmuLaws0.
  intros Hi Hh. unfold emu_getsize. apply wp_bind, wp_modify, wp_bind. match goal with |- wp _ _ _ ?x => set (sc1 := x) end.
  destruct (emu_do_other hw_open hw_file EMU_OP_GETSIZE sc1) as (e & sc' & code & Hrun & _ & Hi' & Ho' & _);
    [by destruct Hi|done|unfold EMU_OP_GETSIZE; lia|done|]. apply (wp_eq _ _ _ _ _ _ Hrun).
  destruct (e =? 0); [apply wp_bind, wp_gets|]; by apply wp_ret.
Qed.

Lemma write_any sc handle u m base len :
  idle sc → handle ∈ hw_open (e_dev sc) → region u base len → uio_rw u = UIO_WRITE →
  returns (emu_io_loop emu_write (Z.to_nat (uio_resid u)) handle u m) (λ _ sc', idle sc' ∧ hw_open (e_dev sc') = hw_open (e_dev sc)) sc.
Proof using EmuLaws0.
  intros Hi Hh Hr Hrw. destruct (decide (0 < uio_resid u)) as [Hpos|Hle].
  - eapply returns_mono; [by apply (write_pieces hw_open hw_file _ sc handle u m base len)|]. by intros r sc' (? & ? & _).
  - assert (Hz : uio_resid u = 0) by (destruct Hr; lia). rewrite Hz. change (Z.to_nat 0) with O. cbn [emu_io_loop]. rewrite Hz. by apply wp_ret.
Qed.


(** Calls that leave the references alone. *)
Lemma other_run {A} lost (m : K (emufs_fs H) A) s c :
  (∀ v, c ≠ CDecref v) → returns m (λ _ s', emu_ok lost s' ∧ refs_same s s') s →
  returns (m;; mret ROther) (λ r s', kept lost s' ∧ call_effect s c r s') s.
Proof.
  intros Hc Hm. apply wp_bind. eapply returns_mono; [exact Hm|]. intros a s' [Hok Hr]. apply wp_ret.
  split; [by apply kept_ok|]. destruct c; try done. by destruct (Hc v).
Qed.

(** Calls that find a vnode. *)
Lemma found_run lost (m : K (emufs_fs H) (Z + Z)) s c :
  (∀ v, c ≠ CDecref v) →
  returns m (λ r s', kept lost s' ∧ match r with inl _ => refs_same s s' | inr v => ∀ w, erefs s' w = plus v 1 (erefs s) w end) s →
  returns (r ← m; mret (found r)) (λ r s', kept lost s' ∧ call_effect s c r s') s.
Proof.
  intros Hc Hm. apply wp_bind. eapply returns_mono; [exact Hm|]. intros [e|v] s' [Hk Hr]; apply wp_ret; (split; [done|]); [|done].
  destruct c; try done. by destruct (Hc v).
Qed.

Lemma rw_run lost s v (io : Z → K (emu_softc H) (Z * uio * mem)) cond why :
  emu_ok lost s → 0 < erefs s v → cond = true →
  (∀ handle sc, idle sc → handle ∈ hw_open (e_dev sc) → returns (io handle) (λ _ sc', idle sc' ∧ hw_open (e_dev sc') = hw_open (e_dev sc)) sc) →
  returns (x ← ev v; KASSERT cond why;; on_emu (io (ev_handle x))) (λ _ s', emu_ok lost s' ∧ refs_same s s') s.
Proof.
  intros Hok Hv -> Hio. pose proof (device_op lost s v io Hok Hv Hio) as Hd.
  pose proof Hv as [x Hx]%(erefs_pos lost s v Hok). apply (returns_ev _ _ _ _ x Hx), wp_bind, wp_KASSERT; [done|].
  unfold wp in Hd. by rewrite (run_ev _ _ _ _ Hx) in Hd.
Qed.

Lemma call_run lost s c :
  emu_ok lost s → call_allowed s c → returns (emu_call_run c) (λ r s', kept lost s' ∧ call_effect s c r s') s.
Proof using EmuLaws0.
  intros Hok Hal. destruct c as [v path|v name excl|v path len|v|v| |v u m|v u m|v u m|v len|v]; cbn [emu_call_run call_allowed] in *.
  - apply found_run; [done|]. eapply returns_by_kind; [done|done|by apply emufs_find_run|]. apply wp_ret. split; [by apply kept_ok|done].
  - apply found_run; [done|]. eapply returns_by_kind; [done|done|by apply emufs_find_run|]. apply wp_ret. split; [by apply kept_ok|done].
  - apply wp_bind. eapply returns_by_kind; [done|done| |apply wp_ret, wp_ret; split; [by apply kept_ok|done]].
    eapply returns_mono; [by apply lookparent_run|]. intros [e|[d nm]] s' Hpost; by apply wp_ret.
  - apply wp_bind. eapply returns_mono; [by apply (emu_incref_run lost)|]. intros [] s' [Hok' Hr]. apply wp_ret. split; [by apply kept_ok|done].
  - destruct Hal as [Hv Hroot]. apply wp_bind. eapply returns_mono; [by apply (emu_decref_run lost)|]. intros [] s' [Hok' Hr].
    apply wp_ret. split; [by apply kept_ok|done].
  - destruct (eo_root _ _ Hok) as (v & x & Hr & Hx & _). unfold emufs_getroot. apply wp_bind, wp_bind, wp_gets. cbn [id].
    apply wp_bind. rewrite Hr. apply wp_ret. apply wp_bind. eapply returns_mono; [apply (emu_incref_run lost s v Hok), (erefs_pos lost s v Hok); by exists x|].
    intros [] s' [Hok' Hrf]. apply wp_ret, wp_ret. split; [by apply kept_ok|done].
  - destruct Hal as [Hv [Hrw (base & len & Hr)]]. apply other_run; [done|]. eapply returns_by_kind; [done|done|by apply wp_ret|].
    apply (rw_run lost s v (λ h, emu_io_loop emu_read _ h u m)); [done|done|by rewrite Hrw|].
    intros handle sc Hi Hh. eapply returns_mono; [by apply (read_pieces hw_open hw_file _ sc handle u m base len)|]. by intros r sc' (? & ? & _).
  - destruct Hal as [Hv [Hrw (base & len & Hr)]]. apply other_run; [done|]. eapply returns_by_kind; [done|done|by apply wp_ret|].
    apply (rw_run lost s v (λ h, emu_io_loop emu_write _ h u m)); [done|done|by rewrite Hrw|].
    intros handle sc Hi Hh. by apply (write_any sc handle u m base len).
  - destruct Hal as [Hv [Hrw (base & len & Hr)]]. apply other_run; [done|]. eapply returns_by_kind; [done|done| |by apply wp_ret].
    apply (rw_run lost s v (λ h, emu_readdir h _ u m)); [done|done|by rewrite Hrw|].
    intros handle sc Hi Hh. pose proof (rg_resid _ _ _ Hr). apply (emu_readdir_run sc handle _ u m base len); try done;
      unfold EMU_MAXIO; destruct (Z.ltb_spec 16384 (uio_resid u)); lia.
  - destruct Hal as [Hv Hlen]. apply other_run; [done|]. eapply returns_by_kind; [done|done|by apply wp_ret|].
    apply (device_op lost s v (λ h, emu_trunc h len)); [done|done|]. intros handle sc Hi Hh. by apply trunc_run.
  - apply other_run; [done|]. unfold emufs_stat. pose proof Hal as [x Hx]%(erefs_pos lost s v Hok). apply (returns_ev _ _ _ _ x Hx), wp_bind.
    apply returns_emu. eapply returns_mono; [apply getsize_run; [apply Hok|by eapply eo_open]|]. intros a sc [Hi Ho]. apply wp_ret.
    split; [by apply emu_ok_dev|done].
Qed.

End vnodes.

(** ** Theorems *)

(** C35: handles and references of the emulator file system.  In any state of emufs,
    every operation of the VFS on a vnode that the caller has a reference to returns:
    the device is only asked about handles that are open and sizes it can take, so the panic
    for its fatal result codes cannot happen.  Every vnode keeps a handle of its own that is open; looking up and
    creating give one new reference to what they return and leave the others alone, with every error all references stay as they were, and
    dropping the last reference closes the handle and takes the vnode out of the table.  No open handle is without a vnode,
    except those that the device refused to close. *)
Theorem emufs_handles {H} `{EmuOps H} (hw_open : H → gset Z) (hw_file : H → Z → list Z) `{!EmuLaws H hw_open hw_file}
    lost (s : emufs_fs H) c :
  emu_ok hw_open lost s → call_allowed s c →
  ∃ r s' lost', emu_call_run c s = Ret r s' ∧ emu_ok hw_open lost' s' ∧ call_effect hw_open s c r s' ∧
    (closes_ok hw_open → lost' ⊆ lost).
Proof.
  intros Hok Hal. pose proof (call_run hw_open hw_file lost s c Hok Hal) as Hrun. unfold wp in Hrun.
  destruct (emu_call_run c s) as [r s'|w|k s'|]; [|done..]. destruct Hrun as [(lost' & Hok' & Hsub) He]. by exists r, s', lost'.
Qed.

(** Transfers: a read moves the bytes of the file behind the handle up to its end or to the end of the request, in pieces of at most 16384
    bytes, and a write replaces exactly its bytes; when a piece fails, a read has moved the pieces before it. *)
Theorem emufs_transfers {H} `{EmuOps H} (hw_open : H → gset Z) (hw_file : H → Z → list Z) `{!EmuLaws H hw_open hw_file}
    lost (s : emufs_fs H) v x u m base len :
  emu_ok hw_open lost s → ef_store s !! v = Some x → region u base len →
  let f := hw_file (e_dev (ef_emu s)) (ev_handle x) in
  let n := Z.to_nat (uio_resid u) in
  (uio_rw u = UIO_READ →
   ∃ e m' s' k, emufs_read n v u m s = Ret (e, advanced u k, m') s' ∧
     let all := zlen (file_data f (uio_offset u) (uio_resid u)) in
     0 ≤ k ≤ all ∧ (∀ a, m' a = put_bytes m base (file_data f (uio_offset u) k) a) ∧ (e = 0 → k = all)) ∧
  (uio_rw u = UIO_WRITE → 0 < uio_resid u →
   ∃ e u' s', emufs_write n v u m s = Ret (e, u', m) s' ∧
     (e = 0 → u' = advanced u (uio_resid u) ∧
        hw_file (e_dev (ef_emu s')) (ev_handle x) = overwritten f (uio_offset u) (get_bytes m base (uio_resid u)))).
Proof.
  intros Hok Hx Hr f n. pose proof (eo_open hw_open lost s v x Hok Hx) as Hh. pose proof (eo_idle _ _ _ Hok) as Hi. split.
  - intros Hrw. pose proof (read_pieces hw_open hw_file n (ef_emu s) (ev_handle x) u m base len Hi Hh Hr Hrw (le_n _)) as Hp.
    unfold emufs_read. rewrite (run_ev _ _ _ _ Hx), run_assert by (by rewrite Hrw). unfold on_emu. unfold wp in Hp.
    destruct (emu_io_loop emu_read n (ev_handle x) u m (ef_emu s)) as [[[e u'] m'] sc'|w|c sc'|]; [|done..].
    destruct Hp as (_ & _ & _ & k & Hk & Hu & Hm & He). cbn in Hu. subst u'. eexists e, m', _, k. split; [done|exact (conj Hk (conj Hm He))].
  - intros Hrw Hpos. pose proof (write_pieces hw_open hw_file n (ef_emu s) (ev_handle x) u m base len Hi Hh Hr Hrw (le_n _) Hpos) as Hp.
    unfold emufs_write. rewrite (run_ev _ _ _ _ Hx), run_assert by (by rewrite Hrw). unfold on_emu. unfold wp in Hp.
    destruct (emu_io_loop emu_write n (ev_handle x) u m (ef_emu s)) as [[[e u'] m'] sc'|w|c sc'|]; [|done..].
    destruct Hp as (_ & _ & Hm & He). cbn in Hm. subst m'. eexists e, u', _. split; [done|exact He].
Qed.

(** When there is no memory for a new vnode, [emufs_loadvnode] returns with the big lock of the VFS taken once more than before. *)
Theorem loadvnode_keeps_lock {H} `{EmuOps H} (hw_open : H → gset Z) lost (s : emufs_fs H) handle isdir l :
  emu_ok hw_open lost s → (∀ v x, ef_store s !! v = Some x → ev_handle x ≠ handle) → ef_mallocs s = false :: l →
  emufs_loadvnode handle isdir s =
    Ret (inl ENOMEM) (EmuFs (ef_emu s) (ef_store s) (ef_vnodes s) (ef_root s) (ef_biglock s + 1) l).
Proof.
  intros Hok Hno Hl. destruct (find_handle_spec hw_open lost s handle (ef_vnodes s) Hok) as ([v|] & Hf & Hpost).
  - intros v. apply (eo_table _ _ _ Hok).
  - destruct Hpost as (x & Hx & He). by destruct (Hno v x Hx).
  - unfold emufs_loadvnode, biglock, emu_malloc, mbind, K_bind, modify, gets, mret. cbn. rewrite Hf. cbn. by rewrite Hl.
Qed.

(** ** A host *)

(** What each handle is open for, the root directory or a file, and the files. *)
Record host := Host { hst_open : gmap Z (option (list Z)); hst_files : gmap (list Z) (list Z) }.

Definition hst_contents (h : host) (name : list Z) : list Z :=
  let f := default [] (hst_files h !! name) in if zlen f <? 2 ^ 32 then f else [].

Definition hst_exec_open (op : Z) (t : option (list Z)) (r : emu_regs) (buf : list Z) (h : host) : emu_regs * list Z * Z * host :=
  let name := take (Z.to_nat (reg_iolen r)) buf in
  let nh := fresh (dom (hst_open h)) in
  let opened files := (EmuRegs nh (reg_offset r) 0, buf, EMU_RES_SUCCESS, Host (<[nh := Some name]> (hst_open h)) files) in
  match t, hst_files h !! name with
  | Some _, _ => (r, buf, EMU_RES_NOTDIR, h)
  | None, Some _ => if op =? EMU_OP_EXCLCREATE then (r, buf, EMU_RES_EXISTS, h) else opened (hst_files h)
  | None, None => if op =? EMU_OP_OPEN then (r, buf, EMU_RES_BADPATH, h) else opened (<[name := []]> (hst_files h))
  end.

Definition hst_exec_file (op : Z) (name : list Z) (r : emu_regs) (buf : list Z) (h : host) : emu_regs * list Z * Z * host :=
  let f := hst_contents h name in
  if op =? EMU_OP_READ then
    let data := take (Z.to_nat (reg_iolen r)) (drop (Z.to_nat (reg_offset r)) f) in
    (EmuRegs (reg_handle r) (reg_offset r + zlen data) (zlen data), data ++ drop (length data) buf, EMU_RES_SUCCESS, h)
  else if op =? EMU_OP_WRITE then
    let f' := overwritten f (reg_offset r) (take (Z.to_nat (reg_iolen r)) buf) in
    if zlen f' <? 2 ^ 32 then (r, buf, EMU_RES_SUCCESS, Host (hst_open h) (<[name := f']> (hst_files h))) else (r, buf, EMU_RES_NOSPACE, h)
  else if op =? EMU_OP_GETSIZE then (EmuRegs (reg_handle r) (reg_offset r) (zlen f), buf, EMU_RES_SUCCESS, h)
  else if op =? EMU_OP_TRUNC then
    (r, buf, EMU_RES_SUCCESS, Host (hst_open h) (<[name := take (Z.to_nat (reg_iolen r)) f]> (hst_files h)))
  else (r, buf, EMU_RES_NOTDIR, h).

#[export] Instance host_ops : EmuOps host := λ op r buf h,
  match hst_open h !! reg_handle r with
  | None => (r, buf, EMU_RES_BADHANDLE, h)
  | Some t =>
      if sized op && negb ((0 <=? reg_iolen r) && (reg_iolen r <=? EMU_MAXIO)) then (r, buf, EMU_RES_BADSIZE, h)
      else if op <=? 3 then hst_exec_open op t r buf h
      else if op =? EMU_OP_CLOSE then (r, buf, EMU_RES_SUCCESS, Host (delete (reg_handle r) (hst_open h)) (hst_files h))
      else match t with None => (r, buf, EMU_RES_ISDIR, h) | Some name => hst_exec_file op name r buf h end
  end.

Definition hst_handles (h : host) : gset Z := dom (hst_open h).
Definition hst_behind (h : host) (x : Z) : list Z :=
  match hst_open h !! x with Some (Some name) => hst_contents h name | _ => [] end.

Ltac host_cases := unfold emu_exec, host_ops, hst_exec_open, hst_exec_file; repeat case_match; intros; simplify_eq/=; try done.

Lemma hst_exec_fine op r buf h r' buf' code h' :
  emu_exec op r buf h = (r', buf', code, h') → 1 ≤ op ≤ 9 → zlen buf = EMU_MAXIO → reg_handle r ∈ hst_handles h →
  (sized op = true → 0 ≤ reg_iolen r ≤ EMU_MAXIO) → fatal code = false ∧ zlen buf' = EMU_MAXIO.
Proof.
  unfold hst_handles. intros E Hop Hb [t Ht]%elem_of_dom Hs. revert E. unfold emu_exec, host_ops. rewrite Ht.
  destruct (sized op && _) eqn:Es.
  { apply andb_true_iff in Es as [E1 E2]. specialize (Hs E1). apply negb_true_iff, andb_false_iff in E2 as [?%Z.leb_gt|?%Z.leb_gt]; lia. }
  unfold hst_exec_open, hst_exec_file. destruct (Z.eqb_spec op EMU_OP_READ) as [->|Hne]; [|by repeat case_match; intros; simplify_eq/=].
  specialize (Hs eq_refl). destruct t; intros E; [|by simplify_eq/=]. injection E as <- <- <- <-. split; [done|].
  rewrite length_app, length_drop, length_take. unfold EMU_MAXIO in *. lia.
Qed.

Lemma hst_contents_size h name : zlen (hst_contents h name) < 2 ^ 32.
Proof. unfold hst_contents. by destruct (Z.ltb_spec (zlen (default [] (hst_files h !! name))) (2 ^ 32)). Qed.

#[export] Instance host_laws : EmuLaws host hst_handles hst_behind.
Proof.
  split.
  - apply hst_exec_fine.
  - intros op r buf h r' buf' code h' E Hop. revert E. unfold hst_handles. host_cases; try lia; by rewrite dom_insert_L.
  - intros r buf h r' buf' code h'. unfold hst_handles. host_cases. by rewrite dom_delete_L.
  - intros op r buf h r' buf' code h' E Hop. revert E. unfold hst_handles. host_cases; unfold EMU_OP_CLOSE in *; lia.
  - intros r buf h r' buf' h'. host_cases.
  - intros r buf h r' buf' h'. unfold hst_behind. host_cases. by rewrite take_app_length.
  - intros h x. unfold hst_behind. repeat case_match; try done. apply hst_contents_size.
  - intros r buf h r' buf' code h' x. host_cases.
  - intros r buf h r' buf' h'. unfold hst_behind. host_cases. unfold hst_contents at 1. cbn. rewrite lookup_insert_eq. cbn. by case_match.
Qed.

Lemma host_closes : closes_ok hst_handles.
Proof.
  unfold closes_ok, hst_handles. intros r buf h r' buf' code h' E [t Ht]%elem_of_dom. revert E. unfold emu_exec, host_ops. rewrite Ht. cbn. by intros [= <- <- <- <-].
Qed.

(** The device with its root directory open, and emufs after [emufs_addtovfs]. *)
Definition host_softc : emu_softc host :=
  EmuSoftc (EmuRegs 0 0 0) (replicate (Z.to_nat EMU_MAXIO) 0) (Host {[EMU_ROOTHANDLE := None]} ∅) 0 0 0.
Definition emufs_boot : emufs_fs host := EmuFs host_softc {[0 := EmuVnode EMU_ROOTHANDLE true 1]} [0] (Some 0) 0 [].

Lemma emufs_boot_ok : emu_ok hst_handles ∅ emufs_boot.
Proof.
  assert (Hst : ∀ v x, ef_store emufs_boot !! v = Some x → v = 0 ∧ x = EmuVnode EMU_ROOTHANDLE true 1)
    by (cbn; intros v x [<- <-]%lookup_singleton_Some; done).
  split.
  - split; [done|]. cbn. by rewrite length_replicate.
  - apply NoDup_singleton.
  - intros v. cbn. rewrite list_elem_of_singleton, lookup_singleton_is_Some. naive_solver.
  - intros v w x y [-> _]%Hst [-> _]%Hst. done.
  - by intros v x [_ ->]%Hst.
  - intros h. change (open_handles hst_handles emufs_boot) with (dom (D := gset Z) ({[0 := None]} : gmap Z (option (list Z)))).
    rewrite dom_singleton_L, elem_of_singleton. split.
    + intros ->. right. by exists 0, (EmuVnode EMU_ROOTHANDLE true 1).
    + intros [?|(v & x & [_ ->]%Hst & <-)]; [set_solver|done].
  - intros v x _. set_solver.
  - by exists 0, (EmuVnode EMU_ROOTHANDLE true 1).
Qed.

(** Creating a file in the root directory. *)
Lemma emufs_handles_witness :
  ∃ r s' lost', emu_call_run (CCreat 0 [97] true) emufs_boot = Ret r s' ∧ emu_ok hst_handles lost' s' ∧
    call_effect hst_handles emufs_boot (CCreat 0 [97] true) r s' ∧ (closes_ok hst_handles → lost' ⊆ ∅).
Proof. apply (emufs_handles hst_handles hst_behind); [apply emufs_boot_ok|reflexivity]. Defined.

(** Mounting, and two runs: "abc" is written to a new file and read back after the file was closed and looked up again;
    with no memory for the vnode the file exists, the handle is closed, and the big lock stays taken. *)
Example emufs_mount : emufs_addtovfs 0 (EmuFs host_softc ∅ [] None 0 []) = Ret (0, true) emufs_boot.
Proof. reflexivity. Qed.

Definition emu_session : K (emufs_fs host) (Z + list Z) :=
  let u rw := Uio [(100, 3)] 0 3 rw in
  let m a := if a =? 100 then 97 else if a =? 101 then 98 else if a =? 102 then 99 else 0 in
  r ← emufs_creat 0 [120] true;
  match r with
  | inl e => mret (inl e)
  | inr v =>
      emufs_write 3 v (u UIO_WRITE) m;;
      emu_decref v;;
      r ← emufs_lookup 0 [120];
      match r with
      | inl e => mret (inl e)
      | inr v =>
          o ← emufs_read 3 v (u UIO_READ) (λ _, 0);
          emu_decref v;;
          mret (inr (get_bytes o.2 100 3))
      end
  end.

Example emufs_session :
  match emu_session emufs_boot with
  | Ret r s => (r, hst_handles (e_dev (ef_emu s)), ef_vnodes s, ef_biglock s) = (inr [97; 98; 99], {[0]}, [0], 0)
  | _ => False
  end.
Proof. vm_compute. reflexivity. Qed.

Example emufs_no_memory :
  match emufs_creat 0 [120] true (EmuFs host_softc (ef_store emufs_boot) [0] (Some 0) 0 [false]) with
  | Ret r s => (r, hst_handles (e_dev (ef_emu s)), ef_vnodes s, ef_biglock s) = (inl ENOMEM, {[0]}, [0], 1)
  | _ => False
  end.
Proof. vm_compute. reflexivity. Qed.
