(* ===== verification/Lamebus.v ===== *)
(** * The bus: kern/dev/lamebus/lamebus.c, the attach functions and autoconf.c

    The bus has 32 slots.  Configuration registers of each slot name the device in
    it; the controller, in slot 31, has registers for interrupts and for
    the processors.  Drivers look for a device that nobody uses yet, mark its slot and
    leave an interrupt function with a pointer for it; an interrupt of the bus runs the
    functions of the slots that ask for it.

    The registers are loads and stores at addresses, which the hardware [BusOps]
    carries out; [handler] is the interrupt function of a driver and [config] its
    config function.  A pointer is a number with 0 for NULL; the structures of the drivers
    are in a list and a pointer is a position from 1 on.  All interrupts of the bus go to one
    processor ([lamebus_find_cpus] sees to it), and the model is sequential; the spinlock is a flag, and taking it
    twice would be the end. *)

From Stdlib Require Import ZArith Lia.
From stdpp Require Import base gmap list list_numbers option strings.
From S2P Require Import Prelude Types.
Set Default Goal Selector "!".
Open Scope Z_scope.

Definition CFGREG_VID : Z := 0.
Definition CFGREG_DID : Z := 4.
Definition CFGREG_DRL : Z := 8.
Definition CTLREG_RAMSZ : Z := 0x200.
Definition CTLREG_IRQS : Z := 0x204.
Definition CTLREG_PWR : Z := 0x208.
Definition CTLREG_IRQE : Z := 0x20c.
Definition CTLREG_CPUS : Z := 0x210.
Definition CTLREG_CPUE : Z := 0x214.
Definition CTLREG_SELF : Z := 0x218.
Definition CTLCPU_CIRQE : Z := 0x000.
Definition CTLCPU_CIPI : Z := 0x004.
Definition CTLCPU_CRAM : Z := 0x300.

Definition LB_VENDOR_CS161 : Z := 1.
Definition LBCS161_UPBUSCTL : Z := 1.
Definition LBCS161_TIMER : Z := 2.
Definition LBCS161_DISK : Z := 3.
Definition LBCS161_SERIAL : Z := 4.
Definition LBCS161_EMUFS : Z := 7.
Definition LBCS161_TRACE : Z := 8.
Definition LBCS161_RANDOM : Z := 9.
Definition LB_CONTROLLER_SLOT : Z := 31.
Definition LB_NSLOTS : Z := 32.
Definition LB_CONFIG_SIZE : Z := 1024.
Definition LB_CTLCPU_SIZE : Z := 1024.
Definition LB_CTLCPU_OFFSET : Z := 32768.
Definition LB_SLOT_SIZE : Z := 65536.
(** MIPS_KSEG1 + 0x1fe00000. *)
Definition LB_BASEADDR : Z := 0xbfe00000.

(** The drivers for devices of the bus, and the devices on top of them. *)
Inductive device := D_emu | D_ltrace | D_ltimer | D_lrandom | D_lhd | D_lser | D_beep | D_con | D_rtclock | D_random.

#[global] Instance device_eq_dec : EqDecision device.
Proof. solve_decision. Defined.

(** Loads and stores of device registers. *)
Class BusOps (B : Type) := { dev_load : Z → B → Z; dev_store : Z → Z → B → B }.

Record lamebus_softc := LbSoftc {
  ls_locked : bool;
  ls_slotsinuse : Z;
  ls_devdata : list Z;
  ls_irqfuncs : list (option device);
  ls_uniprocessor : bool;
}.

(** The structure that an attach function makes: its driver and what it is attached to (a slot of the bus, or the structure
    below it); the unit, for the drivers that keep it; [lt_canstop] and [lt_canprof] of ltrace. *)
Record dev_softc := DevSoftc { d_driver : device; d_buspos : Z; d_unit : option Z; d_can : option (bool * bool) }.

(** The bus, the hardware, the static variable [duds], the hardware numbers of the processors by their numbers, the structures
    of the drivers, the next unit of each driver and the answers of [kmalloc] (as in Emu.v). *)
Record machine (B : Type) := Mach {
  m_lb : lamebus_softc;
  m_hw : B;
  m_duds : Z;
  m_cpus : list Z;
  m_devs : list dev_softc;
  m_nextunit : device → Z;
  m_mallocs : list bool;
}.
Arguments Mach {B} _ _ _ _ _ _ _.
Arguments m_lb {B} _.
Arguments m_hw {B} _.
Arguments m_duds {B} _.
Arguments m_cpus {B} _.
Arguments m_devs {B} _.
Arguments m_nextunit {B} _.
Arguments m_mallocs {B} _.

Section lamebus.
Context {B : Type} `{BusOps B}.
Abbreviation M := (K (machine B)).

Definition set_lb (x : lamebus_softc) (s : machine B) : machine B :=
  Mach x (m_hw s) (m_duds s) (m_cpus s) (m_devs s) (m_nextunit s) (m_mallocs s).
Definition set_hw (x : B) (s : machine B) : machine B :=
  Mach (m_lb s) x (m_duds s) (m_cpus s) (m_devs s) (m_nextunit s) (m_mallocs s).
Definition set_duds (x : Z) (s : machine B) : machine B :=
  Mach (m_lb s) (m_hw s) x (m_cpus s) (m_devs s) (m_nextunit s) (m_mallocs s).
Definition set_cpus (x : list Z) (s : machine B) : machine B :=
  Mach (m_lb s) (m_hw s) (m_duds s) x (m_devs s) (m_nextunit s) (m_mallocs s).
Definition set_inuse (x : Z) (l : lamebus_softc) : lamebus_softc :=
  LbSoftc (ls_locked l) x (ls_devdata l) (ls_irqfuncs l) (ls_uniprocessor l).
Definition set_locked (b : bool) (l : lamebus_softc) : lamebus_softc :=
  LbSoftc b (ls_slotsinuse l) (ls_devdata l) (ls_irqfuncs l) (ls_uniprocessor l).
Definition set_irq (slot data : Z) (f : option device) (l : lamebus_softc) : lamebus_softc :=
  LbSoftc (ls_locked l) (ls_slotsinuse l) (arr_set (ls_devdata l) slot data) (arr_set (ls_irqfuncs l) slot f) (ls_uniprocessor l).

Definition lock_lb : M unit :=
  s ← gets id;
  if ls_locked (m_lb s) then diverge else modify (λ s, set_lb (set_locked true (m_lb s)) s).
Definition unlock_lb : M unit := modify (λ s, set_lb (set_locked false (m_lb s)) s).

(** ** Registers: lamebus_machdep.c and the start of lamebus.c *)

Definition lamebus_map_area (slot offset : Z) : Z := u32 (LB_BASEADDR + slot * LB_SLOT_SIZE + offset).

Definition lamebus_read_register (slot offset : Z) : M Z := gets (λ s, dev_load (lamebus_map_area slot offset) (m_hw s)).
Definition lamebus_write_register (slot offset val : Z) : M unit :=
  modify (λ s, set_hw (dev_store (lamebus_map_area slot offset) val (m_hw s)) s).

Definition read_cfg_register (slot offset : Z) : M Z := lamebus_read_register LB_CONTROLLER_SLOT (offset + LB_CONFIG_SIZE * slot).
Definition write_cfg_register (slot offset val : Z) : M unit :=
  lamebus_write_register LB_CONTROLLER_SLOT (offset + LB_CONFIG_SIZE * slot) val.
Definition read_ctl_register (offset : Z) : M Z := read_cfg_register LB_CONTROLLER_SLOT offset.
Definition write_ctl_register (offset val : Z) : M unit := write_cfg_register LB_CONTROLLER_SLOT offset val.
Definition write_ctlcpu_register (hw_cpunum offset val : Z) : M unit :=
  lamebus_write_register LB_CONTROLLER_SLOT (offset + LB_CTLCPU_OFFSET + hw_cpunum * LB_CTLCPU_SIZE) val.

(** ** Processors *)

(** [cpu_create] gives the next number. *)
Definition lb_cpu_create (hwnum : Z) : M unit := modify (λ s, set_cpus (m_cpus s ++ [hwnum]) s).

(** One bit of the first loop: the numbers found, which of them is the boot processor, and its hardware number. *)
Definition scan_cpu (cpumask self : Z) (acc : list Z * Z * option Z) (i : Z) : list Z * Z * option Z :=
  let '(hwnum, bootcpu, boot) := acc in
  let bit := u32 (Z.shiftl 1 i) in
  if negb (Z.land cpumask bit =? 0) then
    if negb (Z.land self bit =? 0) then (hwnum ++ [i], zlen hwnum, Some i) else (hwnum ++ [i], bootcpu, boot)
  else acc.

(** The loops over the numbers found, from number [i] on. *)
Fixpoint each_cpu (body : Z → Z → M unit) (i : Z) (hwnum : list Z) : M unit :=
  match hwnum with
  | [] => mret tt
  | hw :: rest => body i hw;; each_cpu body (i + 1) rest
  end.

Definition lamebus_find_cpus : M unit :=
  mainboard_vid ← read_cfg_register LB_CONTROLLER_SLOT CFGREG_VID;
  mainboard_did ← read_cfg_register LB_CONTROLLER_SLOT CFGREG_DID;
  if (mainboard_vid =? LB_VENDOR_CS161) && (mainboard_did =? LBCS161_UPBUSCTL) then
    modify (λ s, set_lb (LbSoftc (ls_locked (m_lb s)) (ls_slotsinuse (m_lb s)) (ls_devdata (m_lb s)) (ls_irqfuncs (m_lb s)) true) s)
  else
    cpumask ← read_ctl_register CTLREG_CPUS;
    self ← read_ctl_register CTLREG_SELF;
    let '(hwnum, bootcpu, boot) := fold_left (scan_cpu cpumask self) (seqZ 0 32) ([], 0, None) in
    (match boot with Some i => modify (λ s, set_cpus (arr_set (m_cpus s) 0 i) s) | None => mret tt end);;
    each_cpu (λ i hw, if negb (i =? bootcpu) then lb_cpu_create hw else mret tt) 0 hwnum;;
    each_cpu (λ i hw, write_ctlcpu_register hw CTLCPU_CIRQE (if negb (i =? bootcpu) then 0 else 0xffffffff)) 0 hwnum.

(** [entry] is the address of [cpu_start_secondary]; the two words of the CRAM area are stored. *)
Fixpoint start_loop (entry cpumask self : Z) (bits : list Z) (cpunum : Z) : M unit :=
  match bits with
  | [] => mret tt
  | i :: bits' =>
      let bit := u32 (Z.shiftl 1 i) in
      if negb (Z.land cpumask bit =? 0) then
        if negb (Z.land self bit =? 0) then start_loop entry cpumask self bits' cpunum
        else
          let cram := lamebus_map_area LB_CONTROLLER_SLOT (LB_CTLCPU_OFFSET + i * LB_CTLCPU_SIZE + CTLCPU_CRAM) in
          modify (λ s, set_hw (dev_store cram entry (m_hw s)) s);;
          modify (λ s, set_hw (dev_store (cram + 4) cpunum (m_hw s)) s);;
          start_loop entry cpumask self bits' (cpunum + 1)
      else start_loop entry cpumask self bits' cpunum
  end.

Definition lamebus_start_cpus (entry : Z) : M unit :=
  s ← gets id;
  if ls_uniprocessor (m_lb s) then mret tt
  else
    cpumask ← read_ctl_register CTLREG_CPUS;
    self ← read_ctl_register CTLREG_SELF;
    start_loop entry cpumask self (seqZ 0 32) 1;;
    write_ctl_register CTLREG_CPUE cpumask.

(** ** Slots *)

Definition slot_mask (slot : Z) : Z := u32 (Z.shiftl 1 slot).
Definition valid_slot (slot : Z) : bool := (0 <=? slot) && (slot <? LB_NSLOTS).

(** The slot and the revision, from the slots [slots] on. *)
Fixpoint probe_loop (vendorid deviceid lowver : Z) (slots : list Z) : M (option (Z * Z)) :=
  match slots with
  | [] => mret None
  | slot :: slots' =>
      s ← gets id;
      if negb (Z.land (ls_slotsinuse (m_lb s)) (slot_mask slot) =? 0) then probe_loop vendorid deviceid lowver slots'
      else
        val ← read_cfg_register slot CFGREG_VID;
        if negb (val =? vendorid) then probe_loop vendorid deviceid lowver slots'
        else
          val ← read_cfg_register slot CFGREG_DID;
          if negb (val =? deviceid) then probe_loop vendorid deviceid lowver slots'
          else
            val ← read_cfg_register slot CFGREG_DRL;
            if val <? lowver then probe_loop vendorid deviceid lowver slots' else mret (Some (slot, val))
  end.

(** [None] for -1; the revision is returned through a pointer. *)
Definition lamebus_probe (vendorid deviceid lowver : Z) : M (option (Z * Z)) :=
  lock_lb;;
  r ← probe_loop vendorid deviceid lowver (seqZ 0 LB_NSLOTS);
  unlock_lb;;
  mret r.

Definition lamebus_mark (slot : Z) : M unit :=
  KASSERT (valid_slot slot) "slot>=0 && slot < LB_NSLOTS";;
  lock_lb;;
  s ← gets id;
  if negb (Z.land (ls_slotsinuse (m_lb s)) (slot_mask slot) =? 0) then panic "slot already in use"
  else
    modify (λ s, set_lb (set_inuse (Z.lor (ls_slotsinuse (m_lb s)) (slot_mask slot)) (m_lb s)) s);;
    unlock_lb.

Definition lamebus_unmark (slot : Z) : M unit :=
  KASSERT (valid_slot slot) "slot>=0 && slot < LB_NSLOTS";;
  lock_lb;;
  s ← gets id;
  if Z.land (ls_slotsinuse (m_lb s)) (slot_mask slot) =? 0 then panic "slot not marked in use"
  else
    modify (λ s, set_lb (set_inuse (Z.land (ls_slotsinuse (m_lb s)) (Z.lnot (slot_mask slot))) (m_lb s)) s);;
    unlock_lb.

Definition lamebus_attach_interrupt (slot devdata : Z) (irqfunc : device) : M unit :=
  KASSERT (valid_slot slot) "slot>=0 && slot < LB_NSLOTS";;
  lock_lb;;
  s ← gets id;
  if Z.land (ls_slotsinuse (m_lb s)) (slot_mask slot) =? 0 then panic "slot not marked in use"
  else
    data ← index (ls_devdata (m_lb s)) slot;
    KASSERT (data =? 0) "sc->ls_devdata[slot]==NULL";;
    f ← index (ls_irqfuncs (m_lb s)) slot;
    KASSERT (bool_decide (f = None)) "sc->ls_irqfuncs[slot]==NULL";;
    modify (λ s, set_lb (set_irq slot devdata (Some irqfunc) (m_lb s)) s);;
    unlock_lb.

Definition lamebus_detach_interrupt (slot : Z) : M unit :=
  KASSERT (valid_slot slot) "slot>=0 && slot < LB_NSLOTS";;
  lock_lb;;
  s ← gets id;
  if Z.land (ls_slotsinuse (m_lb s)) (slot_mask slot) =? 0 then panic "slot not marked in use"
  else
    f ← index (ls_irqfuncs (m_lb s)) slot;
    KASSERT (bool_decide (f ≠ None)) "sc->ls_irqfuncs[slot]!=NULL";;
    modify (λ s, set_lb (set_irq slot 0 None (m_lb s)) s);;
    unlock_lb.

Definition lamebus_mask_interrupt (slot : Z) : M unit :=
  KASSERT (valid_slot slot) "slot >= 0 && slot < LB_NSLOTS";;
  lock_lb;;
  bits ← read_ctl_register CTLREG_IRQE;
  write_ctl_register CTLREG_IRQE (Z.land bits (Z.lnot (slot_mask slot)));;
  unlock_lb.

Definition lamebus_unmask_interrupt (slot : Z) : M unit :=
  KASSERT (valid_slot slot) "slot >= 0 && slot < LB_NSLOTS";;
  lock_lb;;
  bits ← read_ctl_register CTLREG_IRQE;
  write_ctl_register CTLREG_IRQE (Z.lor bits (slot_mask slot));;
  unlock_lb.

(** ** Interrupts *)

Section dispatch.
(** What the interrupt function of a driver does to the hardware. *)
Variable handler : device → Z → B → B.

(** One more dud. *)
Definition dud : M unit := modify (λ s, set_duds (m_duds s + 1) s).

(** The loop over the slots; the result is [duds_this_time]. *)
Fixpoint irq_loop (slots : list Z) (irqs duds_this_time : Z) : M Z :=
  match slots with
  | [] => mret duds_this_time
  | slot :: slots' =>
      let mask := slot_mask slot in
      if Z.land irqs mask =? 0 then irq_loop slots' irqs duds_this_time
      else
        s ← gets id;
        if Z.land (ls_slotsinuse (m_lb s)) mask =? 0 then dud;; irq_loop slots' irqs (duds_this_time + 1)
        else
          f ← index (ls_irqfuncs (m_lb s)) slot;
          match f with
          | None => dud;; irq_loop slots' irqs (duds_this_time + 1)
          | Some fn =>
              data ← index (ls_devdata (m_lb s)) slot;
              unlock_lb;;
              modify (λ s, set_hw (handler fn data (m_hw s)) s);;
              lock_lb;;
              irqs ← read_ctl_register CTLREG_IRQS;
              irq_loop slots' irqs duds_this_time
          end
  end.

Definition lamebus_interrupt : M unit :=
  lock_lb;;
  irqs ← read_ctl_register CTLREG_IRQS;
  (if irqs =? 0 then dud else mret tt);;
  duds_this_time ← irq_loop (seqZ 0 LB_NSLOTS) irqs (if irqs =? 0 then 1 else 0);
  s ← gets id;
  (if (duds_this_time =? 0) && (0 <? m_duds s) then modify (set_duds 0) else mret tt);;
  s ← gets id;
  if 10000 <? m_duds s then panic "too many dud interrupts" else unlock_lb.

End dispatch.

(** The size of memory, and interrupts between processors; [target] is a hardware number. *)
Definition lamebus_ramsize : M Z := read_ctl_register CTLREG_RAMSZ.
Definition mainbus_ramsize : M Z :=
  ramsize ← lamebus_ramsize;
  mret (if 508 * 1024 * 1024 <? ramsize then 508 * 1024 * 1024 else ramsize).
Definition lamebus_assert_ipi (target : Z) : M unit :=
  s ← gets id;
  if ls_uniprocessor (m_lb s) then mret tt else write_ctlcpu_register target CTLCPU_CIPI 1.
Definition lamebus_clear_ipi (target : Z) : M unit :=
  s ← gets id;
  if ls_uniprocessor (m_lb s) then mret tt else write_ctlcpu_register target CTLCPU_CIPI 0.

(** [kmalloc] for the structure of the bus is an argument. *)
Definition lamebus_init (memory : bool) : M unit :=
  if negb memory then panic "lamebus_init: Out of memory"
  else modify (set_lb (LbSoftc false (u32 (Z.shiftl 1 LB_CONTROLLER_SLOT))
    (replicate (Z.to_nat LB_NSLOTS) 0) (replicate (Z.to_nat LB_NSLOTS) None) false)).

(** ** Drivers: the attach functions *)

(** The new structure, or NULL. *)
Definition new_softc (d : dev_softc) : M Z :=
  s ← gets id;
  modify (λ s, Mach (m_lb s) (m_hw s) (m_duds s) (m_cpus s)
    (if (match m_mallocs s with b :: _ => b | [] => true end) then m_devs s ++ [d] else m_devs s) (m_nextunit s) (tail (m_mallocs s)));;
  mret (if (match m_mallocs s with b :: _ => b | [] => true end) then zlen (m_devs s) + 1 else 0).

Definition STOP_VERSION : Z := 2.
Definition PROF_VERSION : Z := 3.

(** The fields that the attach functions set: only emu and lhd keep the unit, only ltrace looks at the revision. *)
Definition init_softc (d : device) (slot unit drl : Z) : dev_softc :=
  DevSoftc d slot
    (match d with D_emu | D_lhd => Some unit | _ => None end)
    (match d with D_ltrace => Some (STOP_VERSION <=? drl, PROF_VERSION <=? drl) | _ => None end).

(** The steps that all attach functions for the bus share; [irq]: does the driver want interrupts? *)
Definition attach_to_lamebus (d : device) (deviceid lowver : Z) (irq : bool) (unit : Z) : M Z :=
  r ← lamebus_probe LB_VENDOR_CS161 deviceid lowver;
  match r with
  | None => mret 0
  | Some (slot, drl) =>
      p ← new_softc (init_softc d slot unit drl);
      if p =? 0 then mret 0
      else
        lamebus_mark slot;;
        (if irq then lamebus_attach_interrupt slot p d else mret tt);;
        mret p
  end.

Definition attach_emu_to_lamebus := attach_to_lamebus D_emu LBCS161_EMUFS 1 true.
Definition attach_ltrace_to_lamebus := attach_to_lamebus D_ltrace LBCS161_TRACE 1 false.
Definition attach_ltimer_to_lamebus := attach_to_lamebus D_ltimer LBCS161_TIMER 1 true.
Definition attach_lrandom_to_lamebus := attach_to_lamebus D_lrandom LBCS161_RANDOM 1 false.
Definition attach_lhd_to_lamebus := attach_to_lamebus D_lhd LBCS161_DISK 2 true.
Definition attach_lser_to_lamebus := attach_to_lamebus D_lser LBCS161_SERIAL 1 true.

(** beep, con, rtclock and random attach to the driver of a device of the bus: [bus] is its structure.  None keeps the unit. *)
Definition attach_child (d : device) (bus unit : Z) : M Z := new_softc (DevSoftc d bus None None).
Definition attach_beep_to_ltimer := attach_child D_beep.
Definition attach_con_to_lser := attach_child D_con.
Definition attach_rtclock_to_ltimer := attach_child D_rtclock.
Definition attach_random_to_lrandom := attach_child D_random.

(** ** Configuration: autoconf.c *)

Section autoconf.
(** The config function of a driver, on its structure and its unit. *)
Variable config : device → Z → Z → B → Z * B.

Definition run_config (d : device) (p unit : Z) : M Z :=
  s ← gets id;
  let '(result, hw) := config d p unit (m_hw s) in
  modify (set_hw hw);;
  mret result.

Definition set_nextunit (d : device) (n : Z) : M unit :=
  modify (λ s, Mach (m_lb s) (m_hw s) (m_duds s) (m_cpus s) (m_devs s)
    (λ x, if decide (x = d) then n else m_nextunit s x) (m_mallocs s)).

(** The tryattach functions: [attach] gives the structure, [below] configures the devices on top of it. *)
Definition tryattach (d : device) (attach : Z → M Z) (below : Z → M unit) (devunit : Z) : M Z :=
  dev ← attach devunit;
  if dev =? 0 then mret (-1)
  else
    result ← run_config d dev devunit;
    if negb (result =? 0) then mret result
    else set_nextunit d (devunit + 1);; below dev;; mret 0.

Definition autoconf_none (bus : Z) : M unit := mret tt.

Definition tryattach_beep_to_ltimer (bus : Z) := tryattach D_beep (attach_beep_to_ltimer bus) autoconf_none.
Definition tryattach_con_to_lser (bus : Z) := tryattach D_con (attach_con_to_lser bus) autoconf_none.
Definition tryattach_rtclock_to_ltimer (bus : Z) := tryattach D_rtclock (attach_rtclock_to_ltimer bus) autoconf_none.
Definition tryattach_random_to_lrandom (bus : Z) := tryattach D_random (attach_random_to_lrandom bus) autoconf_none.

(** A device on top of another is attached once. *)
Definition attach_first (d : device) (try : Z → M Z) : M unit :=
  s ← gets id;
  if m_nextunit s d <=? 0 then try 0;; mret tt else mret tt.

Definition autoconf_lser (bus : Z) : M unit := attach_first D_con (tryattach_con_to_lser bus).
Definition autoconf_ltimer (bus : Z) : M unit :=
  attach_first D_beep (tryattach_beep_to_ltimer bus);; attach_first D_rtclock (tryattach_rtclock_to_ltimer bus).
Definition autoconf_lrandom (bus : Z) : M unit := attach_first D_random (tryattach_random_to_lrandom bus).

Definition tryattach_emu_to_lamebus := tryattach D_emu attach_emu_to_lamebus autoconf_none.
Definition tryattach_ltrace_to_lamebus := tryattach D_ltrace attach_ltrace_to_lamebus autoconf_none.
Definition tryattach_ltimer_to_lamebus := tryattach D_ltimer attach_ltimer_to_lamebus autoconf_ltimer.
Definition tryattach_lrandom_to_lamebus := tryattach D_lrandom attach_lrandom_to_lamebus autoconf_lrandom.
Definition tryattach_lhd_to_lamebus := tryattach D_lhd attach_lhd_to_lamebus autoconf_none.
Definition tryattach_lser_to_lamebus := tryattach D_lser attach_lser_to_lamebus autoconf_lser.

(** The loops of [autoconf_lamebus]. *)
Fixpoint autoconf_loop (fuel : nat) (try : Z → M Z) (devunit : Z) : M unit :=
  match fuel with
  | O => diverge
  | S fuel' =>
      result ← try devunit;
      if result =? 0 then autoconf_loop fuel' try (devunit + 1) else mret tt
  end.

Definition autoconf_all (fuel : nat) (d : device) (try : Z → M Z) : M unit :=
  s ← gets id; autoconf_loop fuel try (m_nextunit s d).

Definition autoconf_lamebus (fuel : nat) : M unit :=
  autoconf_all fuel D_emu tryattach_emu_to_lamebus;;
  autoconf_all fuel D_ltrace tryattach_ltrace_to_lamebus;;
  autoconf_all fuel D_ltimer tryattach_ltimer_to_lamebus;;
  autoconf_all fuel D_lrandom tryattach_lrandom_to_lamebus;;
  autoconf_all fuel D_lhd tryattach_lhd_to_lamebus;;
  autoconf_all fuel D_lser tryattach_lser_to_lamebus.

End autoconf.
End lamebus.
