(* ===== verification/LbAttach.v ===== *)
(** * The bus: finding devices and attaching drivers

    [lamebus_probe] finds the first free slot with the right device, marking is exclusive,
    and the loops of [autoconf_lamebus] give every device of the bus its driver: the
    k-th disk is unit k, whatever the order of the slots. *)

From Stdlib Require Import ZArith Lia.
From stdpp Require Import base gmap list list_numbers option strings.
From S2P Require Import Prelude Types Lamebus.
Set Default Goal Selector "!".
Open Scope Z_scope.

(** What the drivers of the bus look for. *)
Definition did_of (d : device) : Z :=
  match d with
  | D_emu => LBCS161_EMUFS | D_ltrace => LBCS161_TRACE | D_ltimer => LBCS161_TIMER | D_lrandom => LBCS161_RANDOM
  | D_lhd => LBCS161_DISK | D_lser => LBCS161_SERIAL | _ => 0
  end.
Definition low_of (d : device) : Z := match d with D_lhd => 2 | _ => 1 end.
Definition irq_of (d : device) : bool := match d with D_ltrace | D_lrandom => false | _ => true end.
Definition bus_drivers : list device := [D_emu; D_ltrace; D_ltimer; D_lrandom; D_lhd; D_lser].

Lemma did_of_inj d d' : d ∈ bus_drivers → d' ∈ bus_drivers → did_of d = did_of d' → d = d'.
Proof. unfold bus_drivers. rewrite !elem_of_cons, !elem_of_nil. naive_solver. Qed.

Lemma slot_mask_pow slot : 0 ≤ slot < 32 → slot_mask slot = 2 ^ slot.
Proof.
  intros Hs. unfold slot_mask, wrap. rewrite Z.shiftl_mul_pow2, Z.mul_1_l by lia. apply Z.mod_small.
  split; [apply Z.pow_nonneg; lia|]. by apply Z.pow_lt_mono_r; lia.
Qed.

Lemma filter_bool_cons {A} (f : A → bool) x l : filter f (x :: l) = if f x then x :: filter f l else filter f l.
Proof. rewrite filter_cons. by destruct (f x). Qed.

Lemma filter_agree {A} (P Q : A → Prop) `{!∀ x, Decision (P x)} `{!∀ x, Decision (Q x)} (l : list A) :
  (∀ x, x ∈ l → P x ↔ Q x) → filter P l = filter Q l.
Proof.
  induction l as [|x l IH]; intros Hpq; [done|]. rewrite !filter_cons, IH by (intros; apply Hpq; by right).
  pose proof (Hpq x ltac:(by left)). repeat case_decide; tauto.
Qed.

Lemma filter_keeps {A} (P : A → Prop) `{!∀ x, Decision (P x)} (l : list A) : (∀ x, x ∈ l → P x) → filter P l = l.
Proof. induction l as [|x l IH]; intros Hp; [done|]. rewrite filter_cons_True, IH; [done|intros; apply Hp; by right|apply Hp; by left]. Qed.

(** The first number that passes a test. *)
Lemma filter_head_least (f : Z → bool) n m x l : filter f (seqZ m (Z.of_nat n)) = x :: l → ∀ k, m ≤ k < x → f k = false.
Proof.
  revert m. induction n as [|n IH]; intros m Hx k Hk; [done|]. rewrite seqZ_cons, filter_bool_cons in Hx by lia.
  destruct (f m) eqn:Em; [injection Hx as ->; lia|]. replace (Z.pred (Z.of_nat (S n))) with (Z.of_nat n) in Hx by lia.
  destruct (decide (k = m)) as [->|]; [done|]. apply (IH (Z.succ m) Hx). lia.
Qed.

Section attach.
Context {B : Type} `{BusOps B}.
Implicit Types (s : machine B) (h : B).

Definition in_use s (slot : Z) : bool := Z.testbit (ls_slotsinuse (m_lb s)) slot.

Lemma in_use_mask s slot : 0 ≤ slot < 32 → (Z.land (ls_slotsinuse (m_lb s)) (slot_mask slot) =? 0) = negb (in_use s slot).
Proof. intros Hs. rewrite slot_mask_pow by done. apply land_bit. lia. Qed.

(** A configuration register of a slot, and the devices a driver wants. *)
Definition cfg h (slot reg : Z) : Z := dev_load (lamebus_map_area LB_CONTROLLER_SLOT (reg + LB_CONFIG_SIZE * slot)) h.
Definition drives h (vendor did low slot : Z) : bool :=
  (cfg h slot CFGREG_VID =? vendor) && (cfg h slot CFGREG_DID =? did) && (low <=? cfg h slot CFGREG_DRL).
Definition wanted s (vendor did low slot : Z) : bool := negb (in_use s slot) && drives (m_hw s) vendor did low slot.

Lemma probe_loop_run s vendor did low slots :
  Forall (λ slot, 0 ≤ slot < 32) slots →
  probe_loop vendor did low slots s =
    Ret ((λ slot, (slot, cfg (m_hw s) slot CFGREG_DRL)) <$> head (filter (wanted s vendor did low) slots)) s.
Proof.
  induction 1 as [|slot slots Hs _ IH]; [done|]. cbn [probe_loop]. rewrite run_gets. cbn [id]. rewrite in_use_mask, negb_involutive by done.
  rewrite filter_bool_cons. unfold wanted at 1, drives. destruct (in_use s slot); [exact IH|]. cbn [negb andb].
  unfold read_cfg_register, lamebus_read_register. rewrite run_gets. fold (cfg (m_hw s) slot CFGREG_VID).
  destruct (cfg (m_hw s) slot CFGREG_VID =? vendor); cbn [negb andb]; [|exact IH].
  rewrite run_gets. fold (cfg (m_hw s) slot CFGREG_DID).
  destruct (cfg (m_hw s) slot CFGREG_DID =? did); cbn [negb andb]; [|exact IH].
  rewrite run_gets. fold (cfg (m_hw s) slot CFGREG_DRL). rewrite Z.ltb_antisym.
  destruct (low <=? cfg (m_hw s) slot CFGREG_DRL); cbn [negb]; [done|exact IH].
Qed.

(** Between calls: no lock, and a slot that is not in use has nothing attached. *)
Record lb_wf s : Prop := {
  lw_lock : ls_locked (m_lb s) = false;
  lw_data : length (ls_devdata (m_lb s)) = 32%nat;
  lw_irq : length (ls_irqfuncs (m_lb s)) = 32%nat;
  lw_free : ∀ slot, 0 ≤ slot < 32 → in_use s slot = false →
    arr_get (ls_devdata (m_lb s)) slot = Some 0 ∧ arr_get (ls_irqfuncs (m_lb s)) slot = Some None;
}.

Definition locked s : machine B := set_lb (set_locked true (m_lb s)) s.

Lemma run_lock {A} (f : unit → K (machine B) A) s : ls_locked (m_lb s) = false → mbind f lock_lb s = f tt (locked s).
Proof. intros Hl. unfold lock_lb. rewrite run_assoc, run_gets. cbn [id]. rewrite Hl. by rewrite run_modify. Qed.

Lemma unlock_locked s : ls_locked (m_lb s) = false → set_lb (set_locked false (m_lb (locked s))) (locked s) = s.
Proof. destruct s as [[l u dd fs up] hw du cp ds nu ma]. cbn. by intros ->. Qed.

Definition slots_for s (d : device) : list Z :=
  filter (wanted s LB_VENDOR_CS161 (did_of d) (low_of d)) (seqZ 0 LB_NSLOTS).

Lemma probe_run s vendor did low :
  lb_wf s → lamebus_probe vendor did low s =
    Ret ((λ slot, (slot, cfg (m_hw s) slot CFGREG_DRL)) <$> head (filter (wanted s vendor did low) (seqZ 0 LB_NSLOTS))) s.
Proof.
  intros Hwf. pose proof (lw_lock _ Hwf) as Hl. unfold lamebus_probe. rewrite run_lock by done.
  erewrite run_bind_ret; [|apply probe_loop_run; apply Forall_forall; intros slot Hs%elem_of_seqZ; unfold LB_NSLOTS in Hs; lia].
  unfold unlock_lb. rewrite run_modify. rewrite unlock_locked by done. done.
Qed.

(** Marking a slot and leaving an interrupt function. *)
Definition marked (slot : Z) s : machine B := set_lb (set_inuse (Z.lor (ls_slotsinuse (m_lb s)) (2 ^ slot)) (m_lb s)) s.
Definition with_irq (slot p : Z) (d : device) s : machine B := set_lb (set_irq slot p (Some d) (m_lb s)) s.

Lemma mark_run s slot : lb_wf s → 0 ≤ slot < 32 → in_use s slot = false → lamebus_mark slot s = Ret tt (marked slot s).
Proof.
  intros Hwf Hs Hu. pose proof (lw_lock _ Hwf) as Hl. unfold lamebus_mark. rewrite run_assert.
  2:{ unfold valid_slot, LB_NSLOTS. destruct (Z.leb_spec 0 slot), (Z.ltb_spec slot 32); try done; lia. }
  rewrite run_lock by done. rewrite run_gets. cbn [id]. change (m_lb (locked s)) with (set_locked true (m_lb s)).
  change (ls_slotsinuse (set_locked true (m_lb s))) with (ls_slotsinuse (m_lb s)). rewrite in_use_mask, Hu by done. cbn [negb].
  rewrite run_modify. unfold unlock_lb, modify. rewrite slot_mask_pow by done. f_equal.
  destruct s as [[l u dd fs up] hw du cp ds nu ma]. cbn in *. by subst l.
Qed.

Lemma mark_twice s slot : lb_wf s → 0 ≤ slot < 32 → in_use s slot = true → lamebus_mark slot s = Panic "slot already in use".
Proof.
  intros Hwf Hs Hu. pose proof (lw_lock _ Hwf) as Hl. unfold lamebus_mark. rewrite run_assert.
  2:{ unfold valid_slot, LB_NSLOTS. destruct (Z.leb_spec 0 slot), (Z.ltb_spec slot 32); try done; lia. }
  rewrite run_lock by done. rewrite run_gets. cbn [id]. change (ls_slotsinuse (m_lb (locked s))) with (ls_slotsinuse (m_lb s)).
  by rewrite in_use_mask, Hu by done.
Qed.

Lemma in_use_marked s slot k : 0 ≤ slot → in_use (marked slot s) k = in_use s k || (slot =? k).
Proof. intros Hs. unfold in_use. cbn. by rewrite testbit_set. Qed.

Lemma attach_irq_run s slot p d :
  lb_wf s → 0 ≤ slot < 32 → in_use s slot = false →
  lamebus_attach_interrupt slot p d (marked slot s) = Ret tt (with_irq slot p d (marked slot s)).
Proof.
  intros Hwf Hs Hu. pose proof (lw_lock _ Hwf) as Hl. destruct (lw_free _ Hwf slot Hs Hu) as [Hd Hf].
  unfold lamebus_attach_interrupt. rewrite run_assert.
  2:{ unfold valid_slot, LB_NSLOTS. destruct (Z.leb_spec 0 slot), (Z.ltb_spec slot 32); try done; lia. }
  rewrite run_lock by done. rewrite run_gets. cbn [id].
  change (ls_slotsinuse (m_lb (locked (marked slot s)))) with (ls_slotsinuse (m_lb (marked slot s))).
  rewrite in_use_mask, in_use_marked, Z.eqb_refl, orb_true_r by lia. cbn [negb].
  rewrite (run_index_bind _ _ 0) by done. rewrite run_assert by done. rewrite (run_index_bind _ _ None) by done.
  rewrite run_assert by done. rewrite run_modify. unfold unlock_lb, modify. f_equal.
  destruct s as [[l u dd fs up] hw du cp ds nu ma]. cbn in *. by subst l.
Qed.

(** ** One driver *)

Definition malloc_ok s : bool := match m_mallocs s with b :: _ => b | [] => true end.
Definition after_malloc (d : option dev_softc) s : machine B :=
  Mach (m_lb s) (m_hw s) (m_duds s) (m_cpus s) (m_devs s ++ option_list d) (m_nextunit s) (tail (m_mallocs s)).

Lemma new_softc_run d s :
  new_softc d s = if malloc_ok s then Ret (zlen (m_devs s) + 1) (after_malloc (Some d) s) else Ret 0 (after_malloc None s).
Proof.
  unfold new_softc, malloc_ok, after_malloc, gets, modify, mbind, K_bind, mret. cbn.
  destruct (match m_mallocs s with [] => true | b :: _ => b end); cbn; by rewrite ?app_nil_r.
Qed.

Definition attached (d : device) (slot unit : Z) s : machine B :=
  let s1 := marked slot (after_malloc (Some (init_softc d slot unit (cfg (m_hw s) slot CFGREG_DRL))) s) in
  if irq_of d then with_irq slot (zlen (m_devs s) + 1) d s1 else s1.

Definition bus_attach (d : device) : Z → K (machine B) Z := attach_to_lamebus d (did_of d) (low_of d) (irq_of d).

Lemma slots_for_spec s d slot : slot ∈ slots_for s d ↔ 0 ≤ slot < 32 ∧ in_use s slot = false ∧ drives (m_hw s) LB_VENDOR_CS161 (did_of d) (low_of d) slot = true.
Proof.
  unfold slots_for, wanted. rewrite list_elem_of_filter, elem_of_seqZ. unfold LB_NSLOTS.
  rewrite Is_true_true, andb_true_iff, negb_true_iff. naive_solver lia.
Qed.

Lemma attach_run s d unit :
  lb_wf s → bus_attach d unit s =
    match slots_for s d with
    | [] => Ret 0 s
    | slot :: _ => if malloc_ok s then Ret (zlen (m_devs s) + 1) (attached d slot unit s) else Ret 0 (after_malloc None s)
    end.
Proof.
  intros Hwf. unfold bus_attach, attach_to_lamebus. erewrite run_bind_ret by by apply probe_run.
  fold (slots_for s d). destruct (slots_for s d) as [|slot l] eqn:El; [done|]. cbn [head fmap option_fmap option_map].
  assert (Hin : slot ∈ slots_for s d) by (rewrite El; by left). apply slots_for_spec in Hin as (Hs & Hu & _).
  unfold mbind at 1, K_bind. rewrite new_softc_run. destruct (malloc_ok s); [|done].
  replace (zlen (m_devs s) + 1 =? 0) with false by (symmetry; apply Z.eqb_neq; lia).
  set (s1 := after_malloc _ s). assert (Hwf1 : lb_wf s1) by (destruct Hwf; by split).
  change (mbind (λ _, mbind (λ _, mret (zlen (m_devs s) + 1)) (if irq_of d then lamebus_attach_interrupt slot (zlen (m_devs s) + 1) d else mret tt))
    (lamebus_mark slot) s1 = Ret (zlen (m_devs s) + 1) (attached d slot unit s)).
  erewrite run_bind_ret by by apply mark_run. unfold attached. destruct (irq_of d); [|done].
  erewrite run_bind_ret by by apply attach_irq_run. done.
Qed.

Lemma with_irq_slots slot p d s k :
  lb_wf s → 0 ≤ slot < 32 →
  arr_get (ls_devdata (m_lb (with_irq slot p d s))) k = (if decide (k = slot) then Some p else arr_get (ls_devdata (m_lb s)) k) ∧
  arr_get (ls_irqfuncs (m_lb (with_irq slot p d s))) k = (if decide (k = slot) then Some (Some d) else arr_get (ls_irqfuncs (m_lb s)) k).
Proof.
  intros Hwf Hs. cbn. destruct (decide (k = slot)) as [->|Hne].
  - rewrite !arr_get_set_eq; [done|rewrite (lw_irq _ Hwf); lia|rewrite (lw_data _ Hwf); lia].
  - by rewrite !arr_get_set_ne.
Qed.

(** What is known of a slot. *)
Definition same_slot s s' (slot : Z) : Prop :=
  in_use s' slot = in_use s slot ∧ arr_get (ls_devdata (m_lb s')) slot = arr_get (ls_devdata (m_lb s)) slot ∧
  arr_get (ls_irqfuncs (m_lb s')) slot = arr_get (ls_irqfuncs (m_lb s)) slot.

Definition slot_has s (slot : Z) (d : device) (unit : Z) : Prop :=
  in_use s slot = true ∧ ∃ p, arr_get (m_devs s) (p - 1) = Some (init_softc d slot unit (cfg (m_hw s) slot CFGREG_DRL)) ∧
  (arr_get (ls_devdata (m_lb s)) slot, arr_get (ls_irqfuncs (m_lb s)) slot) = if irq_of d then (Some p, Some (Some d)) else (Some 0, Some None).

Lemma attached_slots s d slot unit :
  lb_wf s → 0 ≤ slot < 32 → in_use s slot = false →
  lb_wf (attached d slot unit s) ∧ slot_has (attached d slot unit s) slot d unit ∧
  ∀ k, 0 ≤ k < 32 → k ≠ slot → same_slot s (attached d slot unit s) k.
Proof.
  intros Hwf Hs Hu. unfold attached. set (x := init_softc _ _ _ _). set (s1 := after_malloc _ s).
  assert (Hwf1 : lb_wf s1) by (destruct Hwf; by split). pose proof (in_use_marked s1 slot) as Hm.
  assert (Hwf2 : lb_wf (marked slot s1)).
  { destruct Hwf1 as [H1 H2 H3 H4]. split; try done. intros k Hk Hk0. rewrite Hm in Hk0 by lia. apply orb_false_iff in Hk0 as [Hk0 _]. by apply H4. }
  assert (Hx : arr_get (m_devs s1) (zlen (m_devs s) + 1 - 1) = Some x).
  { replace (zlen (m_devs s) + 1 - 1) with (zlen (m_devs s)) by lia. rewrite arr_get_nonneg, Nat2Z.id by lia. by apply list_lookup_middle. }
  destruct (irq_of d) eqn:Ei.
  - pose proof (with_irq_slots slot (zlen (m_devs s) + 1) d (marked slot s1)) as Hw. split; [|split].
    + destruct Hwf2 as [H1 H2 H3 H4]. split; [done| | |].
      * cbn. unfold arr_set. case_match; by rewrite ?length_insert.
      * cbn. unfold arr_set. case_match; by rewrite ?length_insert.
      * intros k Hk Hk0. change (in_use (with_irq _ _ _ ?y) k) with (in_use y k) in Hk0. destruct (Hw k) as [-> ->]; [by split|done|].
        destruct (decide (k = slot)) as [->|]; [|by apply H4]. rewrite Hm, Z.eqb_refl, orb_true_r in Hk0 by lia. done.
    + split; [change (in_use (with_irq _ _ _ ?y) slot) with (in_use y slot); rewrite Hm, Z.eqb_refl by lia; apply orb_true_r|].
      exists (zlen (m_devs s) + 1). split; [done|]. rewrite Ei. destruct (Hw slot) as [-> ->]; [done|done|]. by rewrite !decide_True by done.
    + intros k Hk Hne. destruct (Hw k) as [E1 E2]; [done|done|]. rewrite decide_False in E1 by done. rewrite decide_False in E2 by done. split; [|by split].
      change (in_use (with_irq _ _ _ ?y) k) with (in_use y k). rewrite Hm by lia. rewrite (proj2 (Z.eqb_neq slot k)) by done. apply orb_false_r.
  - split; [done|split].
    + split; [rewrite Hm, Z.eqb_refl by lia; apply orb_true_r|]. exists (zlen (m_devs s) + 1). split; [done|]. rewrite Ei.
      destruct (lw_free _ Hwf slot Hs Hu) as [E1 E2]. cbn. by rewrite E1, E2.
    + intros k Hk Hne. split; [|done]. rewrite Hm by lia. rewrite (proj2 (Z.eqb_neq slot k)) by done. apply orb_false_r.
Qed.

(** ** The loops *)

Definition ids_same h h' : Prop := ∀ slot reg, reg ∈ [CFGREG_VID; CFGREG_DID; CFGREG_DRL] → cfg h' slot reg = cfg h slot reg.

(** The slots of [t] and the units of [ds] may have changed; structures are only added. *)
Record later (ds : list device) (t : list Z) s s' : Prop := {
  lt_wf : lb_wf s → lb_wf s';
  lt_slots : ∀ k, 0 ≤ k < 32 → k ∉ t → same_slot s s' k;
  lt_ids : ids_same (m_hw s) (m_hw s');
  lt_devs : m_devs s `prefix_of` m_devs s';
  lt_units : ∀ d', d' ∈ bus_drivers → d' ∉ ds → m_nextunit s' d' = m_nextunit s d';
  lt_mallocs : m_mallocs s = [] → m_mallocs s' = [];
}.

Lemma ids_refl h : ids_same h h.
Proof. done. Qed.

Lemma later_refl d t s : later d t s s.
Proof. by split. Qed.

Lemma later_any d t s s' : later [] [] s s' → later d t s s'.
Proof. intros [H1 H2 H3 H4 H5 H6]. split; try done; [intros k Hk _; by apply H2, not_elem_of_nil|intros d' Hd _; by apply H5, not_elem_of_nil]. Qed.

Lemma later_trans d t1 t2 s1 s2 s3 : later d t1 s1 s2 → later d t2 s2 s3 → later d (t1 ++ t2) s1 s3.
Proof.
  intros [H1 H2 H3 H4 H5 H6] [G1 G2 G3 G4 G5 G6]. split.
  - auto.
  - intros k Hk Hn. rewrite not_elem_of_app in Hn. destruct (H2 k Hk) as (A1 & A2 & A3); [tauto|]. destruct (G2 k Hk) as (A4 & A5 & A6); [tauto|].
    split_and!; congruence.
  - intros slot reg Hr. by rewrite G3, H3.
  - by etrans.
  - intros d' Hd Hne. by rewrite G5, H5.
  - auto.
Qed.

Lemma slot_has_later d t s s' slot d' unit : slot_has s slot d' unit → later d t s s' → 0 ≤ slot < 32 → slot ∉ t → slot_has s' slot d' unit.
Proof.
  intros (Hu & p & Hp & He) [_ H2 H3 H4 _ _] Hs Hn. destruct (H2 slot Hs Hn) as (A1 & A2 & A3). split; [by rewrite A1|]. exists p.
  rewrite A2, A3, (H3 slot CFGREG_DRL) by set_solver. split; [|done]. apply arr_get_Some in Hp as [Hp0 Hp]. apply arr_get_Some. split; [done|].
  by eapply prefix_lookup_Some.
Qed.

Lemma drives_same h h' v did low slot : ids_same h h' → drives h' v did low slot = drives h v did low slot.
Proof. intros Hi. unfold drives. rewrite !Hi by set_solver. done. Qed.

(** The slots that are left after some were attached. *)
Lemma slots_for_later d d' t s s' :
  later d' t s s' → (∀ slot, slot ∈ t → 0 ≤ slot < 32 ∧ in_use s' slot = true) → slots_for s' d = filter (λ slot, slot ∉ t) (slots_for s d).
Proof.
  intros [_ H2 H3 _ _ _] Ht. unfold slots_for. rewrite list_filter_filter. apply filter_agree. intros k Hk%elem_of_seqZ.
  unfold wanted. rewrite (drives_same (m_hw s) (m_hw s')) by done. destruct (decide (k ∈ t)) as [Hin|Hn].
  - destruct (Ht k Hin) as [_ ->]. cbn. naive_solver.
  - destruct (H2 k) as (-> & _); [unfold LB_NSLOTS in Hk; lia|done|]. naive_solver.
Qed.

Lemma slots_for_NoDup s d : NoDup (slots_for s d).
Proof. apply NoDup_filter, NoDup_seqZ. Qed.

Lemma slots_for_tail d d' s s' slot l :
  slots_for s d = slot :: l → later d' [slot] s s' → in_use s' slot = true → slots_for s' d = l.
Proof.
  intros Hl Hlt Hu. assert (Hin : slot ∈ slots_for s d) by (rewrite Hl; by left). apply slots_for_spec in Hin as (Hs & _).
  rewrite (slots_for_later d d' [slot] s s'), Hl; [|done|intros k Hk%list_elem_of_singleton; by subst].
  pose proof (slots_for_NoDup s d) as Hnd. rewrite Hl in Hnd. apply NoDup_cons in Hnd as [Hn _].
  rewrite filter_cons_False by (rewrite list_elem_of_singleton; tauto). apply filter_keeps. intros k Hk Hk2%list_elem_of_singleton. by subst.
Qed.

Section config.
Context (config : device → Z → Z → B → Z * B) (Hids : ∀ d p u h, ids_same h (config d p u h).2).

(** All config functions succeed. *)
Definition configs_ok : Prop := ∀ d p u h, (config d p u h).1 = 0.

Lemma config_run d p u s :
  ∃ s', run_config config d p u s = Ret (config d p u (m_hw s)).1 s' ∧ m_lb s' = m_lb s ∧ m_devs s' = m_devs s ∧ later [] [] s s'.
Proof using Hids.
  unfold run_config, gets, modify, mbind, K_bind. cbn. pose proof (Hids d p u (m_hw s)) as Hi. destruct (config d p u (m_hw s)) as [r hw] eqn:E. cbn in *.
  eexists. split; [done|]. split_and!; [done|done|]. split; try done. by intros [? ? ? ?].
Qed.

Lemma nextunit_run d n s : ∃ s', set_nextunit d n s = Ret tt s' ∧ m_lb s' = m_lb s ∧ m_devs s' = m_devs s ∧ later [d] [] s s' ∧ m_nextunit s' d = n.
Proof.
  eexists. split; [done|]. split_and!; [done|done| |cbn; by rewrite decide_True]. split; try done; [by intros [? ? ? ?]|].
  intros d' _ Hne. cbn. rewrite decide_False; [done|]. intros ->. apply Hne. by left.
Qed.

Lemma malloc_later d s : later [] [] s (after_malloc d s).
Proof.
  split; try done; [by intros [? ? ? ?]|cbn; by eexists|]. cbn. by intros ->.
Qed.

(** Devices on top of others do not touch the bus. *)
Lemma child_run d p s : d ∉ bus_drivers → ∃ s', attach_first d (tryattach config d (attach_child d p) autoconf_none) s = Ret tt s' ∧ later [] [] s s'.
Proof using Hids.
  intros Hd. unfold attach_first. setoid_rewrite run_gets. cbn [id]. destruct (m_nextunit s d <=? 0); [|exists s; split; [done|apply later_refl]].
  unfold tryattach, attach_child. setoid_rewrite run_assoc. unfold mbind at 1, K_bind. rewrite new_softc_run. destruct (malloc_ok s).
  2:{ exists (after_malloc None s). split; [done|apply malloc_later]. }
  replace (zlen (m_devs s) + 1 =? 0) with false by (symmetry; apply Z.eqb_neq; lia). set (s1 := after_malloc _ s).
  destruct (config_run d (zlen (m_devs s) + 1) 0 s1) as (s2 & Hrun & _ & _ & Hl2). setoid_rewrite run_assoc. rewrite (run_bind_ret _ _ _ _ _ Hrun).
  assert (Hl : later [] [] s s2) by (apply (later_trans [] [] [] s s1 s2); [apply malloc_later|done]).
  destruct (negb _); [by exists s2|]. destruct (nextunit_run d (0 + 1) s2) as (s3 & Hn & _ & _ & Hl3 & _).
  setoid_rewrite run_assoc. rewrite (run_bind_ret _ _ _ _ _ Hn). exists s3. split; [done|]. apply (later_trans [] [] [] s s2 s3); [done|].
  destruct Hl3 as [H1 H2 H3 H4 H5 H6]. split; try done. intros d' Hd' _. apply H5; [done|]. intros ->%list_elem_of_singleton. done.
Qed.

(** What configures the devices on top of a driver. *)
Definition below_ok (below : Z → K (machine B) unit) : Prop := ∀ p s, ∃ s', below p s = Ret tt s' ∧ later [] [] s s'.

Lemma below_run : below_ok autoconf_none ∧ below_ok (autoconf_ltimer config) ∧ below_ok (autoconf_lrandom config) ∧ below_ok (autoconf_lser config).
Proof using Hids.
  split_and!; intros p s.
  - exists s. split; [done|apply later_refl].
  - unfold autoconf_ltimer. destruct (child_run D_beep p s) as (s1 & H1 & L1); [by vm_compute; set_solver|].
    destruct (child_run D_rtclock p s1) as (s2 & H2 & L2); [set_solver|]. rewrite (run_bind_ret _ _ _ _ _ H1). exists s2.
    split; [done|by apply (later_trans [] [] [] s s1 s2)].
  - apply child_run. set_solver.
  - apply child_run. set_solver.
Qed.

(** One turn of a loop. *)
Lemma tryattach_run d below u s :
  below_ok below → lb_wf s →
  ∃ r s', tryattach config d (bus_attach d) below u s = Ret r s' ∧
    match slots_for s d with
    | [] => r = -1 ∧ s' = s
    | slot :: _ =>
        (r ≠ 0 ∧ later [d] [] s s' ∧ m_mallocs s ≠ [] ∨ later [d] [slot] s s' ∧ slot_has s' slot d u) ∧
        (m_mallocs s = [] → configs_ok → r = 0) ∧ (r = 0 → d ∈ bus_drivers → m_nextunit s' d = u + 1)
    end.
Proof using Hids.
  intros Hb Hwf. unfold tryattach. unfold mbind at 1, K_bind. rewrite attach_run by done. destruct (slots_for s d) as [|slot l] eqn:El; [by eexists _, _|].
  assert (Hin : slot ∈ slots_for s d) by (rewrite El; by left). apply slots_for_spec in Hin as (Hs & Hu & _).
  destruct (malloc_ok s) eqn:Em.
  2:{ exists (-1), (after_malloc None s). assert (m_mallocs s ≠ []) by (intros E; unfold malloc_ok in Em; by rewrite E in Em).
      split; [done|]. split; [left; split_and!; [done|apply later_any, malloc_later|done]|by split]. }
  replace (zlen (m_devs s) + 1 =? 0) with false by (symmetry; apply Z.eqb_neq; lia).
  set (s1 := attached d slot u s). destruct (attached_slots s d slot u Hwf Hs Hu) as (Hwf1 & Hhas & Hother). fold s1 in Hwf1, Hhas, Hother.
  assert (L1 : later [d] [slot] s s1).
  { assert (Hf : m_hw s1 = m_hw s ∧ m_devs s `prefix_of` m_devs s1 ∧ m_nextunit s1 = m_nextunit s ∧ m_mallocs s1 = tail (m_mallocs s))
      by (unfold s1, attached; destruct (irq_of d); split_and!; try done; by eexists).
    destruct Hf as (E1 & E2 & E3 & E4). split; [done| |by rewrite E1|done|by intros; rewrite E3|by rewrite E4; intros ->].
    intros k Hk Hn. apply Hother; [done|]. intros ->. apply Hn. by left. }
  destruct (config_run d (zlen (m_devs s) + 1) u s1) as (s2 & Hrun & _ & _ & L2). rewrite (run_bind_ret _ _ _ _ _ Hrun).
  assert (L12 : later [d] [slot] s s2) by (apply (later_trans _ [slot] [] s s1 s2); [done|by apply later_any]).
  assert (H2 : slot_has s2 slot d u) by (apply (slot_has_later _ _ _ _ _ _ _ Hhas L2 Hs); set_solver).
  destruct (Z.eqb_spec (config d (zlen (m_devs s) + 1) u (m_hw s1)).1 0) as [Hz|Hnz]; cbn [negb].
  2:{ eexists _, s2. split; [done|]. split; [by right|]. split; [|done]. intros _ Hc. by destruct Hnz. }
  destruct (nextunit_run d (u + 1) s2) as (s3 & Hn & _ & _ & L3 & Hnu). rewrite (run_bind_ret _ _ _ _ _ Hn).
  destruct (Hb (zlen (m_devs s) + 1) s3) as (s4 & H4 & L4). rewrite (run_bind_ret _ _ _ _ _ H4). exists 0, s4. split; [done|].
  split; [right|split; [done|intros _ Hd; by rewrite (lt_units _ _ _ _ L4), Hnu by set_solver]].
  split.
  - apply (later_trans _ [slot] [] s s2 s4); [done|]. apply (later_trans _ [] [] s2 s3 s4); [done|by apply later_any].
  - eapply (slot_has_later [] [] s3 s4); [|exact L4|done|set_solver]. eapply (slot_has_later [d] [] s2 s3); [exact H2|exact L3|done|set_solver].
Qed.

(** A whole loop: [n] devices are attached, all of them if nothing fails. *)
Lemma loop_run d below fuel u s :
  below_ok below → lb_wf s → (length (slots_for s d) < fuel)%nat →
  ∃ s' n, autoconf_loop fuel (tryattach config d (bus_attach d) below) u s = Ret tt s' ∧ later [d] (take n (slots_for s d)) s s' ∧
    (∀ k slot, take n (slots_for s d) !! k = Some slot → slot_has s' slot d (u + Z.of_nat k)) ∧
    (m_mallocs s = [] → configs_ok → n = length (slots_for s d) ∧
       (d ∈ bus_drivers → m_nextunit s d = u → m_nextunit s' d = u + zlen (slots_for s d))).
Proof using Hids.
  intros Hb. revert u s. induction fuel as [|fuel IH]; intros u s Hwf Hf; [lia|]. cbn [autoconf_loop].
  destruct (tryattach_run d below u s Hb Hwf) as (r & s1 & Hrun & Hpost). setoid_rewrite (run_bind_ret _ _ _ _ _ Hrun).
  destruct (slots_for s d) as [|slot l] eqn:El.
  { destruct Hpost as [-> ->]. exists s, 0%nat. split_and!; [done|apply later_refl|done|]. intros _ _. split; [done|]. cbn. lia. }
  destruct Hpost as [[(Hr & L1 & Hm)|[L1 Hhas]] [Hok Hnu]].
  { exists s1, 0%nat. destruct (Z.eqb_spec r 0); [done|]. split_and!; [done|done|done|done]. }
  assert (Hin : slot ∈ slots_for s d) by (rewrite El; by left). apply slots_for_spec in Hin as (Hs & _).
  assert (Hl : slots_for s1 d = l) by (eapply slots_for_tail; [exact El|exact L1|apply Hhas]).
  destruct (Z.eqb_spec r 0) as [->|Hr].
  2:{ exists s1, 1%nat. split; [done|]. cbn. rewrite take_0. split; [done|]. split; [|intros Hm Hc; by destruct Hr; apply Hok].
      intros [|k] x; cbn; [|done]. intros [= <-]. by rewrite Z.add_0_r. }
  destruct (IH (u + 1) s1) as (s2 & n & Hrun2 & L2 & Hhas2 & Hn); [by apply (lt_wf _ _ _ _ L1)|rewrite Hl; cbn in Hf; lia|].
  rewrite Hl in *. pose proof (slots_for_NoDup s d) as Hnd. rewrite El in Hnd. apply NoDup_cons in Hnd as [Hnin _].
  assert (Hnt : slot ∉ take n l) by (intros Ht; by apply Hnin, (subseteq_take n)).
  exists s2, (S n). split; [done|]. cbn [take]. split; [exact (later_trans _ [slot] _ _ _ _ L1 L2)|]. split.
  - intros [|k] x; cbn.
    + intros [= <-]. rewrite Z.add_0_r. by eapply slot_has_later.
    + intros Hx. specialize (Hhas2 k x Hx). by replace (u + Z.of_nat (S k)) with (u + 1 + Z.of_nat k) by lia.
  - intros Hm Hc. destruct (Hn (lt_mallocs _ _ _ _ L1 Hm) Hc) as [-> Hu]. split; [done|]. intros Hd _. rewrite Hu by auto. cbn. lia.
Qed.

(** ** All drivers *)

Definition below_of (d : device) : Z → K (machine B) unit :=
  match d with
  | D_ltimer => autoconf_ltimer config | D_lrandom => autoconf_lrandom config | D_lser => autoconf_lser config | _ => autoconf_none
  end.

Lemma below_of_ok d : below_ok (below_of d).
Proof using Hids. destruct below_run as (? & ? & ? & ?). by destruct d. Qed.

Lemma later_more ds ds' t s s' : later ds t s s' → ds ⊆ ds' → later ds' t s s'.
Proof. intros [H1 H2 H3 H4 H5 H6] Hd. split; try done. intros d' Hb Hn. apply H5; [done|]. intros Hin. by apply Hn, Hd. Qed.

(** A driver does not take what another one wants. *)
Lemma slots_for_apart s d d' slot : d ∈ bus_drivers → d' ∈ bus_drivers → slot ∈ slots_for s d → slot ∈ slots_for s d' → d = d'.
Proof.
  intros Hd Hd' (_ & _ & H1)%slots_for_spec (_ & _ & H2)%slots_for_spec. apply did_of_inj; [done|done|].
  unfold drives in H1, H2. rewrite !andb_true_iff, !Z.eqb_eq in H1, H2. destruct H1 as [[_ <-] _], H2 as [[_ <-] _]. done.
Qed.

Lemma slots_for_others s s' d d' ds t :
  later ds t s s' → d ∈ bus_drivers → d' ∈ bus_drivers → d ≠ d' → (∀ slot, slot ∈ t → slot ∈ slots_for s d ∧ in_use s' slot = true) →
  slots_for s' d' = slots_for s d'.
Proof.
  intros Hl Hd Hd' Hne Ht. rewrite (slots_for_later d' ds t s s'); [|done|].
  - apply filter_keeps. intros slot Hs Hin. apply Ht in Hin as [Hin _]. by destruct Hne; apply (slots_for_apart s d d' slot).
  - intros slot Hin. apply Ht in Hin as [(? & _)%slots_for_spec ?]. done.
Qed.

Lemma drivers_run fuel ds s :
  (32 < fuel)%nat → NoDup ds → ds ⊆ bus_drivers → lb_wf s → (∀ d, d ∈ ds → m_nextunit s d = 0) →
  ∃ s' t, for_each ds (λ d, autoconf_all fuel d (tryattach config d (bus_attach d) (below_of d))) s = Ret tt s' ∧ later ds t s s' ∧
    (∀ slot, slot ∈ t → ∃ d u, d ∈ ds ∧ slot ∈ slots_for s d ∧ slot_has s' slot d u) ∧
    (m_mallocs s = [] → configs_ok → ∀ d, d ∈ ds → m_nextunit s' d = zlen (slots_for s d) ∧
       ∀ k slot, slots_for s d !! k = Some slot → slot_has s' slot d (Z.of_nat k)).
Proof using Hids.
  intros Hf. revert s. induction ds as [|d ds IH]; intros s Hnd Hsub Hwf Hu.
  { exists s, []. split_and!; [done|apply later_refl|set_solver|set_solver]. }
  apply NoDup_cons in Hnd as [Hdn Hnd]. assert (Hd : d ∈ bus_drivers) by (apply Hsub; by left).
  cbn [for_each]. unfold autoconf_all at 1. setoid_rewrite run_assoc. setoid_rewrite run_gets. cbn [id]. rewrite Hu by by left.
  destruct (loop_run d (below_of d) fuel 0 s (below_of_ok d) Hwf) as (s1 & n & Hrun & L1 & Hhas & Hn).
  { eapply Nat.le_lt_trans; [|exact Hf]. unfold slots_for. etrans; [apply length_filter|]. by rewrite length_seqZ. }
  rewrite (run_bind_ret _ _ _ _ _ Hrun). set (t1 := take n (slots_for s d)) in *.
  assert (Ht1 : ∀ slot, slot ∈ t1 → slot ∈ slots_for s d ∧ ∃ u, slot_has s1 slot d u).
  { intros slot Hin. split; [by apply (subseteq_take n)|]. apply list_elem_of_lookup in Hin as [k Hk]. eexists. by apply (Hhas k). }
  assert (Hoth : ∀ d', d' ∈ ds → slots_for s1 d' = slots_for s d').
  { intros d' Hd'. apply (slots_for_others s s1 d d' [d] t1); [done|done|apply Hsub; by right|by intros ->|].
    intros slot Hin. destruct (Ht1 slot Hin) as [? [u [? _]]]. done. }
  destruct (IH s1) as (s2 & t2 & Hrun2 & L2 & Hhas2 & Hall); [done|set_solver|by apply (lt_wf _ _ _ _ L1)| |].
  { intros d' Hd'. rewrite (lt_units _ _ _ _ L1); [apply Hu; by right|apply Hsub; by right|]. intros ->%list_elem_of_singleton. done. }
  assert (Hkeep : ∀ slot u, slot ∈ slots_for s d → slot_has s1 slot d u → slot_has s2 slot d u).
  { intros slot u Hin Hh. pose proof Hin as (Hs & _)%slots_for_spec. eapply slot_has_later; [exact Hh|exact L2|done|]. intros Hin2.
    destruct (Hhas2 slot Hin2) as (d' & u' & Hd' & Hin' & _). rewrite Hoth in Hin' by done. assert (d = d') as <-; [|done].
    apply (slots_for_apart s d d' slot); [done|apply Hsub; by right|done|done]. }
  exists s2, (t1 ++ t2). split; [done|]. split.
  { apply (later_trans _ t1 t2 s s1 s2); (eapply later_more; [eassumption|set_solver]). }
  split.
  - intros slot [Hin|Hin]%elem_of_app.
    + destruct (Ht1 slot Hin) as [Hin' [u Hh]]. exists d, u. split; [by left|]. split; [done|by apply Hkeep].
    + destruct (Hhas2 slot Hin) as (d' & u' & Hd' & Hin' & Hh). exists d', u'. split; [by right|]. by rewrite <- Hoth.
  - intros Hm Hc d' [->|Hd']%elem_of_cons.
    + destruct (Hn Hm Hc) as [En Eu]. split; [rewrite (lt_units _ _ _ _ L2) by done; rewrite Eu; [lia|done|apply Hu; by left]|]. intros k slot Hk.
      apply Hkeep; [by apply list_elem_of_lookup; eexists|]. apply (Hhas k). unfold t1. by rewrite En, take_ge by lia.
    + rewrite <- Hoth by done. by apply (Hall (lt_mallocs _ _ _ _ L1 Hm) Hc d').
Qed.

Lemma autoconf_for_each fuel s :
  autoconf_lamebus config fuel s = for_each bus_drivers (λ d, autoconf_all fuel d (tryattach config d (bus_attach d) (below_of d))) s.
Proof.
  unfold autoconf_lamebus. cbn [for_each bus_drivers]. unfold mbind, K_bind.
  repeat match goal with |- match ?x with _ => _ end = match ?y with _ => _ end =>
    change y with x; destruct x as [[] ?s'|?|?c ?s'|]; [|done..] end. 
  change (tryattach config D_lser (bus_attach D_lser) (below_of D_lser)) with (tryattach_lser_to_lamebus config).
  destruct (autoconf_all _ _ _ _) as [[] ?|?|? ?|]; done.
Qed.

End config.
End attach.

(** ** Theorems *)

(** Probing: the first slot that is not in use and has a device of this vendor and kind with at least this revision, or none if
    there is none; nothing changes.  A slot can be marked once. *)
Theorem probe_finds_first {B} `{BusOps B} (s : machine B) vendor did low :
  lb_wf s →
  ∃ r, lamebus_probe vendor did low s = Ret r s ∧
    match r with
    | Some (slot, drl) => 0 ≤ slot < 32 ∧ wanted s vendor did low slot = true ∧ drl = cfg (m_hw s) slot CFGREG_DRL ∧
        (∀ k, 0 ≤ k < slot → wanted s vendor did low k = false) ∧
        lamebus_mark slot s = Ret tt (marked slot s) ∧ lamebus_mark slot (marked slot s) = Panic "slot already in use"
    | None => ∀ k, 0 ≤ k < 32 → wanted s vendor did low k = false
    end.
Proof.
  intros Hwf. rewrite probe_run by done. eexists. split; [done|].
  assert (Hsp : ∀ k, k ∈ filter (wanted s vendor did low) (seqZ 0 LB_NSLOTS) ↔ 0 ≤ k < 32 ∧ wanted s vendor did low k = true).
  { intros k. rewrite list_elem_of_filter, elem_of_seqZ, Is_true_true. unfold LB_NSLOTS. naive_solver lia. }
  pose proof (filter_head_least (wanted s vendor did low) 32 0) as Hleast. change (Z.of_nat 32) with LB_NSLOTS in Hleast.
  destruct (filter (wanted s vendor did low) (seqZ 0 LB_NSLOTS)) as [|slot l]; cbn.
  - intros k Hk. destruct (wanted s vendor did low k) eqn:E; [|done]. exfalso. apply (not_elem_of_nil k), Hsp. done.
  - destruct (proj1 (Hsp slot)) as [Hs Hw]; [by left|]. pose proof Hw as Hu. unfold wanted in Hu. rewrite andb_true_iff, negb_true_iff in Hu.
    destruct Hu as [Hu _]. split; [done|]. split; [done|]. split; [done|]. split; [apply (Hleast slot l eq_refl)|]. split; [by apply mark_run|].
    apply mark_twice; [|done|by rewrite in_use_marked, Z.eqb_refl, orb_true_r by lia].
    destruct Hwf as [H1 H2 H3 H4]. split; try done. intros k Hk Hk0. rewrite in_use_marked in Hk0 by lia. apply orb_false_iff in Hk0 as [Hk0 _]. by apply H4.
Qed.

(** Giving a slot back: taking a slot, attaching an interrupt function, detaching it and giving the slot back leaves the bus as it was. *)
Theorem attach_detach {B} `{BusOps B} (s : machine B) slot p d :
  lb_wf s → 0 ≤ slot < 32 → in_use s slot = false →
  (lamebus_mark slot;; lamebus_attach_interrupt slot p d;; lamebus_detach_interrupt slot;; lamebus_unmark slot) s = Ret tt s.
Proof.
  intros Hwf Hs Hu. pose proof (lw_lock _ Hwf) as Hl. destruct (lw_free _ Hwf slot Hs Hu) as [Hd Hf].
  assert (Hv : valid_slot slot = true) by (unfold valid_slot, LB_NSLOTS; destruct (Z.leb_spec 0 slot), (Z.ltb_spec slot 32); try done; lia).
  rewrite (run_bind_ret _ _ _ _ _ (mark_run s slot Hwf Hs Hu)), (run_bind_ret _ _ _ _ _ (attach_irq_run s slot p d Hwf Hs Hu)).
  set (s2 := with_irq slot p d (marked slot s)).
  assert (Hu2 : in_use s2 slot = true) by (change (in_use s2 slot) with (in_use (marked slot s) slot); rewrite in_use_marked, Z.eqb_refl by lia; apply orb_true_r).
  unfold lamebus_detach_interrupt. rewrite run_assoc, run_assert, run_assoc, run_lock, run_assoc, run_gets by done. cbn [id].
  change (ls_slotsinuse (m_lb (locked s2))) with (ls_slotsinuse (m_lb s2)). rewrite in_use_mask, Hu2 by done. cbn [negb].
  rewrite run_assoc, (run_index_bind _ _ (Some d)) by (cbn; apply arr_get_set_eq; rewrite (lw_irq _ Hwf); lia).
  rewrite run_assoc, run_assert, run_assoc, run_modify by done. unfold unlock_lb at 1. rewrite run_modify. unfold lamebus_unmark.
  match goal with |- mbind _ _ ?x = _ => assert (Hx : x = marked slot s) end.
  { destruct s as [[l u dd fs up] hw du cp ds nu ma]. unfold s2, marked, with_irq, set_lb, set_irq, locked, set_locked, set_inuse. cbn in *. subst l.
    rewrite !arr_set_set, !arr_set_id by done. done. }
  rewrite Hx, run_assert, run_lock, run_gets by done. cbn [id]. change (ls_slotsinuse (m_lb (locked (marked slot s)))) with (ls_slotsinuse (m_lb (marked slot s))).
  rewrite in_use_mask, in_use_marked, Z.eqb_refl, orb_true_r by lia. cbn [negb]. rewrite run_modify. unfold unlock_lb, modify. f_equal.
  assert (E : Z.land (Z.lor (ls_slotsinuse (m_lb s)) (2 ^ slot)) (Z.lnot (slot_mask slot)) = ls_slotsinuse (m_lb s)).
  { rewrite slot_mask_pow by done. apply Z.bits_inj'. intros k Hk. rewrite testbit_clear, testbit_set by lia. fold (in_use s k).
    destruct (Z.eqb_spec slot k) as [->|]; [by rewrite Hu|]. by rewrite orb_false_r, andb_true_r. }
  destruct s as [[l u dd fs up] hw du cp ds nu ma]. unfold marked, set_lb, locked, set_locked, set_inuse in *. cbn in *. subst l. by rewrite E.
Qed.

(** C37: configuration of the bus.  [autoconf_lamebus] returns whatever fails: no slot is marked or given an
    interrupt function twice, and 33 turns are enough for each of its loops.  A slot that was free is left alone or
    gets the driver for its device.  If no allocation and no config function fails (the loop of a driver ends at the first
    failure), every device with a driver gets its structure and, where the driver has one, its interrupt function; the k-th
    device of a kind, in the order of the slots, is attached as unit k, which emu and lhd keep in their structures, and the next
    unit of the driver is the number of its devices.  An ltrace device can stop and profile as its revision says. *)
Theorem autoconf_attaches {B} `{BusOps B} (config : device → Z → Z → B → Z * B) (s : machine B) :
  (∀ d p u h, ids_same h (config d p u h).2) → lb_wf s → (∀ d, d ∈ bus_drivers → m_nextunit s d = 0) →
  ∃ s', autoconf_lamebus config 33 s = Ret tt s' ∧ lb_wf s' ∧
    (∀ slot, 0 ≤ slot < 32 →
       same_slot s s' slot ∨ ∃ d u, d ∈ bus_drivers ∧ slot ∈ slots_for s d ∧ slot_has s' slot d u) ∧
    (m_mallocs s = [] → configs_ok config →
       ∀ d, d ∈ bus_drivers → m_nextunit s' d = zlen (slots_for s d) ∧
         ∀ k slot, slots_for s d !! k = Some slot → slot_has s' slot d (Z.of_nat k)).
Proof.
  intros Hids Hwf Hu.
  destruct (drivers_run config Hids 33 bus_drivers s) as (s' & t & Hrun & L & Ht & Hall); [lia| |done|done|done|].
  { unfold bus_drivers. repeat constructor; set_solver. }
  exists s'. rewrite autoconf_for_each. split; [done|]. split; [by apply (lt_wf _ _ _ _ L)|]. split; [|done].
  intros slot Hs. destruct (decide (slot ∈ t)) as [Hin|Hn]; [right; by apply Ht|left; by apply (lt_slots _ _ _ _ L)].
Qed.
