(* ===== verification/LbIrq.v ===== *)
(** * The bus: interrupts and processors

    An interrupt of the bus runs the functions of the slots that ask for it when their turn comes, each once and in
    the order of the slots; lines that nobody serves are counted, and too many in a row are a panic.
    [lamebus_find_cpus] and [lamebus_start_cpus] agree on the numbers of the processors. *)

From Stdlib Require Import ZArith Lia Sorted.
From stdpp Require Import base gmap list list_numbers option strings.
From S2P Require Import Prelude Types Lamebus LbAttach.
Set Default Goal Selector "!".
Open Scope Z_scope.

Lemma ctl_area off : 0 ≤ off < 65536 → lamebus_map_area LB_CONTROLLER_SLOT off = 0xbfff0000 + off.
Proof. intros Ho. unfold lamebus_map_area, wrap, LB_BASEADDR, LB_CONTROLLER_SLOT, LB_SLOT_SIZE. rewrite Z.mod_small; lia. Qed.

Section dispatch.
Context {B : Type} `{BusOps B} (handler : device → Z → B → B).
Implicit Types (s : machine B) (h : B).

Definition irqs_of h : Z := dev_load (lamebus_map_area LB_CONTROLLER_SLOT (CTLREG_IRQS + LB_CONFIG_SIZE * LB_CONTROLLER_SLOT)) h.
Definition line h (slot : Z) : bool := Z.testbit (irqs_of h) slot.

(** The function of a slot with its pointer. *)
Definition irq_at (l : lamebus_softc) (slot : Z) : option (device * Z) :=
  f ← arr_get (ls_irqfuncs l) slot; p ← arr_get (ls_devdata l) slot; (λ d, (d, p)) <$> f.
Definition run_irq (l : lamebus_softc) (h : B) (slot : Z) : B :=
  match irq_at l slot with Some (d, p) => handler d p h | None => h end.

(** A slot with a driver that takes interrupts. *)
Definition driven s (slot : Z) : bool := in_use s slot && bool_decide (is_Some (irq_at (m_lb s) slot)).

(** The slots whose functions run and those that are counted as duds: each is judged by the lines as they are when its turn comes. *)
Fixpoint serve s (slots : list Z) h : list Z * list Z :=
  match slots with
  | [] => ([], [])
  | k :: r =>
      if negb (line h k) then serve s r h
      else if driven s k then (k :: (serve s r (run_irq (m_lb s) h k)).1, (serve s r (run_irq (m_lb s) h k)).2)
      else ((serve s r h).1, k :: (serve s r h).2)
  end.

Definition run_irqs s (slots : list Z) h : B := fold_left (run_irq (m_lb s)) slots h.
Definition set_hd h (n : Z) s : machine B := set_duds n (set_hw h s).

Lemma serve_ext s s' slots h : m_lb s' = m_lb s → serve s' slots h = serve s slots h.
Proof. intros E. revert h. induction slots as [|k r IH]; intros h; [done|]. cbn [serve]. unfold driven, in_use. by rewrite E, !IH. Qed.

Lemma irq_loop_run slots s irqs n :
  lb_wf s → (∀ k, k ∈ slots → 0 ≤ k < 32) → irqs = irqs_of (m_hw s) →
  irq_loop handler slots irqs n (locked s) =
    let '(sv, un) := serve s slots (m_hw s) in
    Ret (n + zlen un) (locked (set_hd (run_irqs s sv (m_hw s)) (m_duds s + zlen un) s)).
Proof.
  intros Hwf. revert s irqs n Hwf. induction slots as [|slot slots IH]; intros s irqs n Hwf Hslots ->.
  { cbn. rewrite !Z.add_0_r. done. }
  assert (Hs : 0 ≤ slot < 32) by (apply Hslots; by left).
  assert (Hrest : ∀ k, k ∈ slots → 0 ≤ k < 32) by (intros k Hk; apply Hslots; by right).
  cbn [irq_loop serve]. rewrite slot_mask_pow, land_bit by lia. fold (line (m_hw s) slot).
  destruct (line (m_hw s) slot); cbn [negb]; [|by apply IH].
  rewrite run_gets. cbn [id]. change (ls_slotsinuse (m_lb (locked s))) with (ls_slotsinuse (m_lb s)).
  rewrite land_bit by lia. fold (in_use s slot). unfold driven at 1.
  assert (Hdud : mbind (λ _, irq_loop handler slots (irqs_of (m_hw s)) (n + 1)) dud (locked s) =
    let '(sv, un) := ((serve s slots (m_hw s)).1, slot :: (serve s slots (m_hw s)).2) in
    Ret (n + zlen un) (locked (set_hd (run_irqs s sv (m_hw s)) (m_duds s + zlen un) s))).
  { unfold dud. rewrite run_modify. change (set_duds _ (locked s)) with (locked (set_duds (m_duds s + 1) s)).
    rewrite IH, (serve_ext s) by (done || by destruct Hwf). cbn [m_hw set_duds]. destruct (serve s slots (m_hw s)) as [sv un]. cbn [fst snd length].
    f_equal; [lia|]. change (locked (set_hd ?h ?x (set_duds _ s))) with (locked (set_hd h x s)). f_equal. f_equal. cbn. lia. }
  destruct (in_use s slot) eqn:Eu; cbn [negb andb]; [|exact Hdud].
  destruct (arr_get_ex (ls_irqfuncs (m_lb s)) slot) as [f Hf]; [rewrite (lw_irq _ Hwf); lia|].
  destruct (arr_get_ex (ls_devdata (m_lb s)) slot) as [p Hp]; [rewrite (lw_data _ Hwf); lia|].
  assert (Hat : irq_at (m_lb s) slot = (λ d, (d, p)) <$> f) by (unfold irq_at; by rewrite Hf; cbn; rewrite Hp).
  rewrite (run_index_bind _ _ f) by done. destruct f as [d|]; [|rewrite bool_decide_false by (rewrite Hat; by intros []); exact Hdud].
  rewrite bool_decide_true by (rewrite Hat; by eexists). rewrite (run_index_bind _ _ p) by done. unfold unlock_lb. rewrite !run_modify.
  set (h1 := handler d p (m_hw s)). assert (Eh : run_irq (m_lb s) (m_hw s) slot = h1) by (unfold run_irq; by rewrite Hat).
  match goal with |- mbind _ lock_lb ?x = _ => assert (Hx : x = set_hw h1 s) end.
  { pose proof (lw_lock _ Hwf) as Hl. destruct s as [[l u dd fs up] hw du cp ds nu ma]. cbn in *. by subst l. }
  rewrite Hx, run_lock by apply (lw_lock _ Hwf). unfold read_ctl_register, read_cfg_register, lamebus_read_register. rewrite run_gets.
  fold (irqs_of (m_hw (locked (set_hw h1 s)))). rewrite (IH (set_hw h1 s)), (serve_ext s), Eh by (done || by destruct Hwf). cbn [m_hw set_hw].
  destruct (serve s slots h1) as [sv un]. cbn [fst snd]. unfold run_irqs. cbn [fold_left]. by rewrite Eh.
Qed.

Definition all_slots : list Z := seqZ 0 LB_NSLOTS.

Lemma all_slots_spec k : k ∈ all_slots ↔ 0 ≤ k < 32.
Proof. unfold all_slots. rewrite elem_of_seqZ. unfold LB_NSLOTS. lia. Qed.

Lemma seqZ_sorted m n : StronglySorted Z.lt (seqZ m (Z.of_nat n)).
Proof.
  revert m. induction n as [|n IH]; intros m; [constructor|]. rewrite seqZ_cons by lia. replace (Z.pred (Z.of_nat (S n))) with (Z.of_nat n) by lia.
  constructor; [apply IH|]. apply Forall_forall. intros k Hk%elem_of_seqZ. lia.
Qed.

Lemma all_sorted : StronglySorted Z.lt all_slots.
Proof. apply (seqZ_sorted 0 32). Qed.

(** The number of duds, and the count after them. *)
Definition duds_now s (un : list Z) : Z := zlen un + if irqs_of (m_hw s) =? 0 then 1 else 0.
Definition duds_after s (un : list Z) : Z := if duds_now s un =? 0 then 0 else m_duds s + duds_now s un.

Lemma serve_dark s slots h : (∀ k, k ∈ slots → line h k = true → driven s k = false) → serve s slots h = ([], filter (line h) slots).
Proof.
  induction slots as [|k r IH]; intros Hk; [done|]. cbn [serve]. rewrite filter_bool_cons. rewrite IH by (intros x Hx; apply Hk; by right).
  destruct (line h k) eqn:El; [|done]. cbn [negb]. by rewrite Hk by (done || by left).
Qed.

Lemma no_lines s : irqs_of (m_hw s) = 0 → serve s all_slots (m_hw s) = ([], []).
Proof.
  intros E. assert (Hl : ∀ k, line (m_hw s) k = false) by (intros k; unfold line; by rewrite E, Z.bits_0).
  generalize all_slots as l. induction l as [|k l IH]; [done|]. cbn [serve]. by rewrite Hl.
Qed.

Lemma interrupt_run s :
  lb_wf s → 0 ≤ m_duds s →
  lamebus_interrupt handler s =
    let '(sv, un) := serve s all_slots (m_hw s) in
    if 10000 <? duds_after s un then Panic "too many dud interrupts"
    else Ret tt (set_hd (run_irqs s sv (m_hw s)) (duds_after s un) s).
Proof.
  intros Hwf Hd. pose proof (lw_lock _ Hwf) as Hlock. unfold lamebus_interrupt. change (seqZ 0 LB_NSLOTS) with all_slots. rewrite run_lock by done.
  unfold read_ctl_register, read_cfg_register, lamebus_read_register. rewrite run_gets.
  fold (irqs_of (m_hw (locked s))). change (m_hw (locked s)) with (m_hw s).
  assert (Hslots : ∀ k, k ∈ all_slots → 0 ≤ k < 32) by (intros k; apply all_slots_spec).
  assert (Hend : ∀ h n n', n' = 0 ∧ n = m_duds s ∨ 0 < n' ∧ n = m_duds s + n' →
    mbind (λ _, s0 ← gets id; (if 10000 <? m_duds s0 then panic "too many dud interrupts" else unlock_lb))
      (if (n' =? 0) && (0 <? n) then modify (set_duds 0) else mret tt) (locked (set_hd h n s)) =
    let m := if n' =? 0 then 0 else m_duds s + n' in
    if 10000 <? m then Panic "too many dud interrupts" else Ret tt (set_hd h m s)).
  { intros h n n' [[-> ->]|[Hn ->]]; cbn [andb Z.eqb].
    - destruct (Z.ltb_spec 0 (m_duds s)) as [Hpos|Hz].
      + rewrite run_modify, run_gets. cbn [id]. unfold unlock_lb, modify. destruct s as [[l u dd fs up] hw du cp ds nu ma]. cbn in *. by subst l.
      + rewrite run_mret, run_gets. cbn [id]. assert (m_duds s = 0) as Ez by lia. rewrite Ez. cbn.
        unfold unlock_lb, modify. destruct s as [[l u dd fs up] hw du cp ds nu ma]. cbn in *. by subst l.
    - rewrite (proj2 (Z.eqb_neq n' 0)) by lia. cbn [andb]. rewrite run_mret, run_gets. cbn [id].
      change (m_duds (locked (set_hd h ?n s))) with n. destruct (10000 <? _); [done|].
      unfold unlock_lb, modify. destruct s as [[l u dd fs up] hw du cp ds nu ma]. cbn in *. by subst l. }
  unfold duds_after, duds_now. destruct (Z.eqb_spec (irqs_of (m_hw s)) 0) as [E0|Hne].
  - unfold dud. rewrite run_modify. change (set_duds _ (locked s)) with (locked (set_duds (m_duds s + 1) s)).
    rewrite E0. erewrite run_bind_ret; [|rewrite irq_loop_run by (done || by destruct Hwf); rewrite (serve_ext s) by done; cbn [m_hw set_duds]; rewrite no_lines by done; done].
    rewrite run_gets. cbn [id]. rewrite no_lines by done. cbn [length].
    change (locked (set_hd ?h ?n (set_duds _ s))) with (locked (set_hd h n s)). rewrite Hend; [done|right]. cbn. lia.
  - rewrite run_mret. destruct (serve s all_slots (m_hw s)) as [sv un] eqn:Es.
    erewrite run_bind_ret; [|rewrite irq_loop_run by done; rewrite Es; done]. rewrite run_gets. cbn [id].
    change (m_duds (locked (set_hd ?h ?n s))) with n. rewrite Hend, Z.add_0_l, Z.add_0_r; [done|]. lia.
Qed.

(** What is served: in the order of the slots, and exactly the slots with a driver whose line is on after the functions
    before it have run; the others whose line is on are duds. *)
Definition line_at s (sv : list Z) h (k : Z) : bool := line (run_irqs s (filter (λ x, x < k) sv) h) k.

Lemma filter_lt_none k sv : Forall (Z.lt k) sv → filter (λ x, x < k) sv = [].
Proof. induction 1 as [|x l Hx _ IH]; [done|]. by rewrite filter_cons_False by lia. Qed.

Lemma serve_sublist s slots h : (serve s slots h).1 `sublist_of` slots ∧ (serve s slots h).2 `sublist_of` slots.
Proof.
  revert h. induction slots as [|k r IH]; intros h; [done|]. cbn [serve].
  destruct (negb _); [|destruct (driven s k)]; cbn [fst snd]; split; (apply sublist_skip, IH || apply sublist_cons, IH).
Qed.

Lemma serve_above s slots h k : Forall (Z.lt k) slots → Forall (Z.lt k) (serve s slots h).1 ∧ Forall (Z.lt k) (serve s slots h).2.
Proof.
  rewrite !Forall_forall. intros Hk. destruct (serve_sublist s slots h) as [H1 H2]. split; intros x Hx; apply Hk; by eapply elem_of_sublist.
Qed.

Lemma serve_sorted s slots h : StronglySorted Z.lt slots → StronglySorted Z.lt (serve s slots h).1.
Proof.
  intros Hso. revert h. induction Hso as [|k r Hr IH Hk]; intros h; [constructor|]. cbn [serve].
  destruct (negb _); [apply IH|]. destruct (driven s k); [|apply IH]. constructor; [apply IH|]. by apply serve_above.
Qed.

Lemma serve_spec s slots h k :
  StronglySorted Z.lt slots → k ∈ slots →
  (k ∈ (serve s slots h).1 ↔ driven s k = true ∧ line_at s (serve s slots h).1 h k = true) ∧
  (k ∈ (serve s slots h).2 ↔ driven s k = false ∧ line_at s (serve s slots h).1 h k = true).
Proof.
  intros Hso. revert h. induction Hso as [|k0 r Hr IH Hk0]; intros h; [by intros ?%not_elem_of_nil|].
  assert (Hnot : ∀ l, Forall (Z.lt k0) l → k0 ∉ l) by (intros l Hl Hin; rewrite Forall_forall in Hl; specialize (Hl k0 Hin); lia).
  assert (Hone : ∀ sv h', Forall (Z.lt k0) sv → line_at s sv h' k0 = line h' k0) by (intros sv h' Hsv; unfold line_at; by rewrite filter_lt_none).
  intros [->|Hk]%elem_of_cons.
  - cbn [serve]. destruct (line h k0) eqn:El; cbn [negb].
    + destruct (driven s k0) eqn:Ed; cbn [fst snd]; rewrite !elem_of_cons.
      * destruct (serve_above s r (run_irq (m_lb s) h k0) k0 Hk0) as [A1 A2]. unfold line_at. rewrite filter_cons_False by lia.
        rewrite filter_lt_none by done. cbn [run_irqs fold_left]. rewrite El. pose proof (Hnot _ A2). naive_solver.
      * destruct (serve_above s r h k0 Hk0) as [A1 A2]. rewrite Hone, El by done. pose proof (Hnot _ A1). naive_solver.
    + destruct (serve_above s r h k0 Hk0) as [A1 A2]. rewrite Hone, El by done. pose proof (Hnot _ A1). pose proof (Hnot _ A2). naive_solver.
  - rewrite Forall_forall in Hk0. specialize (Hk0 k Hk). cbn [serve]. destruct (negb (line h k0)); [by apply IH|].
    destruct (driven s k0); cbn [fst snd]; rewrite elem_of_cons.
    + destruct (IH (run_irq (m_lb s) h k0) Hk) as [I1 I2].
      assert (E : ∀ sv, line_at s (k0 :: sv) h k = line_at s sv (run_irq (m_lb s) h k0) k) by (intros sv; unfold line_at; by rewrite filter_cons_True by lia).
      rewrite E. split; [rewrite <- I1|done]. split; [intros [->|?]; [lia|done]|by right].
    + destruct (IH h Hk) as [I1 I2]. split; [done|]. rewrite <- I2. split; [intros [->|?]; [lia|done]|by right].
Qed.

(** What the drivers must do so that nothing is left: the function of a slot switches off the line of this slot, and does
    not switch on the line of an earlier one.  It may switch on or off the lines of later slots. *)
Definition silences (l : lamebus_softc) : Prop :=
  ∀ slot h, 0 ≤ slot < 32 → is_Some (irq_at l slot) →
    line (run_irq l h slot) slot = false ∧ ∀ k, 0 ≤ k < slot → line (run_irq l h slot) k = true → line h k = true.

Lemma driven_at s k : driven s k = true → is_Some (irq_at (m_lb s) k).
Proof. unfold driven. rewrite andb_true_iff, bool_decide_eq_true. tauto. Qed.

Lemma earlier_off s sv h k :
  silences (m_lb s) → 0 ≤ k → Forall (λ x, k < x < 32 ∧ driven s x = true) sv → line h k = false → line (run_irqs s sv h) k = false.
Proof.
  intros Hsil Hk Hsv. revert h. induction Hsv as [|x sv [Hx Hd] _ IH]; intros h Hl; [done|]. apply IH.
  destruct (Hsil x h ltac:(lia) (driven_at s x Hd)) as [_ Hoff]. destruct (line (run_irq (m_lb s) h x) k) eqn:E; [|done].
  by rewrite Hoff in Hl by (done || lia).
Qed.

Lemma serve_off s slots h k :
  silences (m_lb s) → StronglySorted Z.lt slots → (∀ x, x ∈ slots → 0 ≤ x < 32) → k ∈ slots → driven s k = true →
  line (run_irqs s (serve s slots h).1 h) k = false.
Proof.
  intros Hsil Hso Hr Hk Hd. revert h. induction Hso as [|k0 r Hso IH Hk0]; intros h; [by apply not_elem_of_nil in Hk|].
  assert (Hlater : ∀ h', Forall (λ x, k0 < x < 32 ∧ driven s x = true) (serve s r h').1).
  { intros h'. apply Forall_forall. intros x Hx. assert (Hxr : x ∈ r) by (destruct (serve_sublist s r h') as [Hs _]; by eapply elem_of_sublist).
    rewrite Forall_forall in Hk0. specialize (Hk0 x Hxr). destruct (Hr x); [by right|]. split; [lia|]. by apply (serve_spec s r h' x Hso Hxr). }
  destruct (Hr k0) as [Hlo Hhi]; [by left|]. cbn [serve]. apply elem_of_cons in Hk as [->|Hk].
  - destruct (line h k0) eqn:El; cbn [negb]; [rewrite Hd; cbn [fst run_irqs fold_left]|]; apply earlier_off; try done.
    by apply Hsil, driven_at.
  - assert (Hr' : ∀ x, x ∈ r → 0 ≤ x < 32) by (intros x Hx; apply Hr; by right).
    destruct (negb _); [by apply IH|]. destruct (driven s k0); cbn [fst run_irqs fold_left]; by apply IH.
Qed.

(** One line that nobody serves, or none at all, and nothing else. *)
Definition stuck s : Prop :=
  (∀ k, 0 ≤ k < 32 → line (m_hw s) k = true → driven s k = false) ∧
  (irqs_of (m_hw s) = 0 ∨ irqs_of (m_hw s) ≠ 0 ∧ zlen (filter (line (m_hw s)) all_slots) = 1).

Lemma stuck_run s :
  lb_wf s → 0 ≤ m_duds s → stuck s →
  lamebus_interrupt handler s = if 10000 <? m_duds s + 1 then Panic "too many dud interrupts" else Ret tt (set_duds (m_duds s + 1) s).
Proof.
  intros Hwf Hd [Hs Hn]. rewrite interrupt_run by done.
  assert (E : serve s all_slots (m_hw s) = ([], filter (line (m_hw s)) all_slots)) by (apply serve_dark; intros k Hk%all_slots_spec; by apply Hs).
  assert (E1 : duds_now s (serve s all_slots (m_hw s)).2 = 1).
  { unfold duds_now. destruct Hn as [E0|[Hne Hu]]; [by rewrite (no_lines s E0), E0|]. rewrite E, (proj2 (Z.eqb_neq _ _) Hne). cbn [snd]. by rewrite Hu. }
  rewrite E in *. unfold duds_after. cbn [snd] in E1. rewrite E1. cbn [Z.eqb]. by destruct s.
Qed.

End dispatch.

(** ** Theorems: interrupts *)

(** C38: an interrupt of the bus, whatever the interrupt functions do to the devices.  [lamebus_interrupt] runs the functions of some slots
    [sv], in the order of the slots and each once, with the pointers of those slots: of exactly the slots with a driver whose line
    is on when their turn comes, that is after the functions before them have run, which may have switched lines on and
    off.  The slots without a driver whose line is on then, and an interrupt without any line, are counted as duds; the count is
    cleared if there are none, and it is a panic when it passes 10000.  If every function switches off the line of its own slot and none switches
    on the line of an earlier slot, no slot with a driver is left with its line on. *)
Theorem interrupt_serves {B} `{BusOps B} (handler : device → Z → B → B) (s : machine B) :
  lb_wf s → 0 ≤ m_duds s →
  ∃ sv un, StronglySorted Z.lt sv ∧ (∀ k, k ∈ sv ∨ k ∈ un → 0 ≤ k < 32) ∧
    (∀ k, 0 ≤ k < 32 → k ∈ sv ↔ driven s k = true ∧ line_at handler s sv (m_hw s) k = true) ∧
    (∀ k, 0 ≤ k < 32 → k ∈ un ↔ driven s k = false ∧ line_at handler s sv (m_hw s) k = true) ∧
    lamebus_interrupt handler s =
      (if 10000 <? duds_after s un then Panic "too many dud interrupts"
       else Ret tt (set_hd (run_irqs handler s sv (m_hw s)) (duds_after s un) s)) ∧
    (silences handler (m_lb s) → ∀ k, 0 ≤ k < 32 → driven s k = true → line (run_irqs handler s sv (m_hw s)) k = false).
Proof.
  intros Hwf Hd. exists (serve handler s all_slots (m_hw s)).1, (serve handler s all_slots (m_hw s)).2.
  destruct (serve_sublist handler s all_slots (m_hw s)) as [H1 H2]. pose proof all_sorted as Hso.
  split; [by apply serve_sorted|]. split; [intros k [Hk|Hk]; apply all_slots_spec; by eapply elem_of_sublist|].
  split; [intros k Hk%all_slots_spec; by apply serve_spec|]. split; [intros k Hk%all_slots_spec; by apply serve_spec|]. split.
  - rewrite interrupt_run by done. by destruct (serve handler s all_slots (m_hw s)).
  - intros Hsil k Hk%all_slots_spec Hdr. apply serve_off; try done. intros x. apply all_slots_spec.
Qed.

(** A line that nobody can switch off, or stray interrupts, for ever: 10000 interrupts in a row are counted, and the next one is a panic. *)
Theorem dud_interrupts_panic {B} `{BusOps B} (handler : device → Z → B → B) (s : machine B) (n : nat) :
  lb_wf s → m_duds s = 0 → stuck s →
  for_each (replicate n tt) (λ _, lamebus_interrupt handler) s =
    if Z.of_nat n <=? 10000 then Ret tt (set_duds (Z.of_nat n) s) else Panic "too many dud interrupts".
Proof.
  intros Hwf Hz Hst.
  assert (Hgen : ∀ n d, 0 ≤ d ≤ 10000 → for_each (replicate n tt) (λ _, lamebus_interrupt handler) (set_duds d s) =
    if 10000 <? d + Z.of_nat n then Panic "too many dud interrupts" else Ret tt (set_duds (d + Z.of_nat n) s)).
  { clear n. induction n as [|n IH]; intros d Hd.
    - cbn [replicate for_each]. rewrite Z.add_0_r, (proj2 (Z.ltb_ge _ _)) by lia. done.
    - cbn [replicate for_each]. unfold mbind, K_bind. rewrite (stuck_run handler (set_duds d s)); [|by destruct Hwf|cbn; lia|done].
      cbn [m_duds set_duds]. destruct (Z.ltb_spec 10000 (d + 1)) as [Hbig|Hsm].
      + by rewrite (proj2 (Z.ltb_lt 10000 _)) by lia.
      + change (set_duds (d + 1) (set_duds d s)) with (set_duds (d + 1) s). unfold mbind, K_bind in IH. rewrite IH by lia.
        by replace (d + Z.of_nat (S n)) with (d + 1 + Z.of_nat n) by lia. }
  assert (E : set_duds 0 s = s) by (destruct s; cbn in *; by subst). rewrite <- E at 1. rewrite Hgen by lia. rewrite Z.add_0_l.
  destruct (Z.leb_spec (Z.of_nat n) 10000), (Z.ltb_spec 10000 (Z.of_nat n)); try done; lia.
Qed.
