(* ===== verification/LbCpus.v ===== *)
(** * The bus: finding and starting processors

    [lamebus_find_cpus] makes a structure for every processor of the machine and
    [lamebus_start_cpus] tells each of them, in two words of memory of its own, where to start
    and which number it has.  The two functions count apart; their numbers agree. *)

From Stdlib Require Import ZArith Lia.
From stdpp Require Import base gmap list list_numbers option strings.
From S2P Require Import Prelude Types Lamebus LbAttach LbIrq.
Set Default Goal Selector "!".
Open Scope Z_scope.

(** Registers of processor [x] and of the controller. *)
Definition cpu_reg (x off : Z) : Z := 0xbfff0000 + LB_CTLCPU_OFFSET + x * LB_CTLCPU_SIZE + off.
Definition ctl_reg (off : Z) : Z := 0xbfff0000 + LB_CONFIG_SIZE * LB_CONTROLLER_SLOT + off.

(** The registers that only hold what was stored. *)
Definition plain_reg (a : Z) : Prop := a = ctl_reg CTLREG_CPUE ∨ a = ctl_reg CTLREG_IRQE ∨ ∃ x off, 0 ≤ x < 32 ∧ off ∈ [CTLCPU_CIRQE; CTLCPU_CRAM; CTLCPU_CRAM + 4] ∧ a = cpu_reg x off.

Class BusLaws (B : Type) `{BusOps B} : Prop := {
  load_stored a v (h : B) : plain_reg a → 0 ≤ v < 2 ^ 32 → dev_load a (dev_store a v h) = v;
  load_other a b v (h : B) : plain_reg b → a ≠ b → dev_load a (dev_store b v h) = dev_load a h;
}.

Section cpus.
Context {B : Type} `{BusLaws B}.
Implicit Types (s : machine B) (h : B).

Lemma scan_run mask b bits hw0 bc bo :
  0 ≤ b < 32 → Forall (λ i, 0 ≤ i < 32) bits →
  ∃ bc' bo', fold_left (scan_cpu mask (2 ^ b)) bits (hw0, bc, bo) = (hw0 ++ filter (Z.testbit mask) bits, bc', bo') ∧
    (b ∈ filter (Z.testbit mask) bits → 0 ≤ bc' ∧ (hw0 ++ filter (Z.testbit mask) bits) !! Z.to_nat bc' = Some b ∧ bo' = Some b) ∧
    (b ∉ filter (Z.testbit mask) bits → bc' = bc ∧ bo' = bo).
Proof.
  intros Hb Hbits. revert hw0 bc bo. induction Hbits as [|i bits Hi _ IH]; intros hw0 bc bo.
  { exists bc, bo. cbn. rewrite app_nil_r. split; [done|]. split; [set_solver|done]. }
  cbn [fold_left]. unfold scan_cpu at 2. fold (slot_mask i). rewrite slot_mask_pow, !land_bit, !negb_involutive, Z.pow2_bits_eqb by lia.
  rewrite filter_bool_cons. destruct (Z.testbit mask i) eqn:Em; [|apply IH].
  destruct (Z.eqb_spec b i) as [<-|Hne].
  - destruct (IH (hw0 ++ [b]) (zlen hw0) (Some b)) as (bc' & bo' & Hf & Hin & Hout). rewrite <- app_assoc in *. cbn [app] in *. exists bc', bo'. split; [done|].
    split; [|set_solver]. intros _. destruct (decide (b ∈ filter (Z.testbit mask) bits)) as [Hd|Hd]; [by apply Hin|].
    destruct (Hout Hd) as [-> ->]. split; [lia|]. split; [|done]. rewrite Nat2Z.id. by apply list_lookup_middle.
  - destruct (IH (hw0 ++ [i]) bc bo) as (bc' & bo' & Hf & Hin & Hout). rewrite <- app_assoc in *. cbn [app] in *. exists bc', bo'. split; [done|].
    split; [|set_solver]. intros Hd. apply Hin. set_solver.
Qed.

Lemma create_run bc b i l s :
  (∀ k x, l !! k = Some x → i + Z.of_nat k = bc ↔ x = b) →
  each_cpu (λ j hw, if negb (j =? bc) then lb_cpu_create hw else mret tt) i l s =
    Ret tt (set_cpus (m_cpus s ++ filter (λ x, x ≠ b) l) s).
Proof.
  revert i s. induction l as [|x l IH]; intros i s Hl; cbn [each_cpu].
  { rewrite filter_nil, app_nil_r. by destruct s. }
  assert (Hl' : ∀ k y, l !! k = Some y → i + 1 + Z.of_nat k = bc ↔ y = b) by (intros k y Hk; rewrite <- (Hl (S k) y Hk); lia).
  pose proof (Hl 0%nat x eq_refl) as Hx. rewrite Z.add_0_r in Hx. destruct (Z.eqb_spec i bc) as [He|Hne]; cbn [negb].
  - rewrite run_mret, IH by done. by rewrite filter_cons_False by tauto.
  - unfold lb_cpu_create. rewrite run_modify, IH by done. rewrite filter_cons_True by tauto. cbn. by rewrite <- app_assoc.
Qed.

Lemma reg_area x off : 0 ≤ x < 32 → 0 ≤ off < 1024 → lamebus_map_area LB_CONTROLLER_SLOT (off + LB_CTLCPU_OFFSET + x * LB_CTLCPU_SIZE) = cpu_reg x off.
Proof. intros Hx Ho. unfold cpu_reg, LB_CTLCPU_OFFSET, LB_CTLCPU_SIZE in *. rewrite ctl_area by lia. lia. Qed.

Lemma run_ctlcpu {A} (f : unit → K (machine B) A) x off v s :
  0 ≤ x < 32 → 0 ≤ off < 1024 → mbind f (write_ctlcpu_register x off v) s = f tt (set_hw (dev_store (cpu_reg x off) v (m_hw s)) s).
Proof. intros Hx Ho. unfold write_ctlcpu_register, lamebus_write_register. by rewrite run_modify, reg_area. Qed.

Lemma cpu_reg_inj x off y off' : 0 ≤ off < 1024 → 0 ≤ off' < 1024 → cpu_reg x off = cpu_reg y off' → x = y ∧ off = off'.
Proof. unfold cpu_reg, LB_CTLCPU_SIZE. lia. Qed.

Lemma plain_cpu x off : 0 ≤ x < 32 → off ∈ [CTLCPU_CIRQE; CTLCPU_CRAM; CTLCPU_CRAM + 4] → plain_reg (cpu_reg x off).
Proof. intros Hx Ho. right. right. by exists x, off. Qed.

(** Interrupts of the bus go to the boot processor. *)
Definition route (b x : Z) : Z := if x =? b then 0xffffffff else 0.

Lemma route_run bc b i l s :
  (∀ k x, l !! k = Some x → i + Z.of_nat k = bc ↔ x = b) → Forall (λ x, 0 ≤ x < 32) l →
  ∃ h', each_cpu (λ j hw, write_ctlcpu_register hw CTLCPU_CIRQE (if negb (j =? bc) then 0 else 0xffffffff)) i l s = Ret tt (set_hw h' s) ∧
    (∀ x, x ∈ l → dev_load (cpu_reg x CTLCPU_CIRQE) h' = route b x) ∧
    (∀ a, (∀ x, x ∈ l → a ≠ cpu_reg x CTLCPU_CIRQE) → dev_load a h' = dev_load a (m_hw s)).
Proof.
  intros Hl Hr. revert i s Hl. induction Hr as [|x l Hx _ IH]; intros i s Hl; cbn [each_cpu].
  { exists (m_hw s). split; [by destruct s|]. split; [set_solver|done]. }
  assert (Hl' : ∀ k y, l !! k = Some y → i + 1 + Z.of_nat k = bc ↔ y = b) by (intros k y Hk; rewrite <- (Hl (S k) y Hk); lia).
  pose proof (Hl 0%nat x eq_refl) as Hxb. rewrite Z.add_0_r in Hxb.
  assert (Ev : (if negb (i =? bc) then 0 else 0xffffffff) = route b x) by (unfold route; destruct (Z.eqb_spec i bc), (Z.eqb_spec x b); tauto).
  rewrite Ev, run_ctlcpu by (unfold CTLCPU_CIRQE; lia).
  set (h1 := dev_store (cpu_reg x CTLCPU_CIRQE) (route b x) (m_hw s)).
  assert (Hp : plain_reg (cpu_reg x CTLCPU_CIRQE)) by (apply plain_cpu; [done|set_solver]).
  destruct (IH (i + 1) (set_hw h1 s) Hl') as (h' & Hrun & Hin & Hout). exists h'. split; [exact Hrun|]. split.
  - intros y [->|Hy]%elem_of_cons; [|by apply Hin]. destruct (decide (x ∈ l)) as [Hd|Hd]; [by apply Hin|].
    rewrite Hout. 2:{ intros y Hy [-> _]%cpu_reg_inj; [done|unfold CTLCPU_CIRQE; lia|unfold CTLCPU_CIRQE; lia]. }
    cbn. apply load_stored; [done|]. unfold route. destruct (x =? b); lia.
  - intros a Ha. rewrite Hout by (intros y Hy; apply Ha; by right). cbn. apply load_other; [done|]. apply Ha. by left.
Qed.

(** The start words. *)
Lemma start_run entry mask b bits n s :
  0 ≤ b < 32 → Forall (λ i, 0 ≤ i < 32) bits → NoDup bits → 0 ≤ entry < 2 ^ 32 → 0 ≤ n → n + zlen bits < 2 ^ 32 →
  ∃ h', start_loop entry mask (2 ^ b) bits n s = Ret tt (set_hw h' s) ∧
    (∀ k x, filter (λ x, x ≠ b) (filter (Z.testbit mask) bits) !! k = Some x →
       dev_load (cpu_reg x CTLCPU_CRAM) h' = entry ∧ dev_load (cpu_reg x (CTLCPU_CRAM + 4)) h' = n + Z.of_nat k) ∧
    (∀ a, (∀ x, x ∈ bits → a ≠ cpu_reg x CTLCPU_CRAM ∧ a ≠ cpu_reg x (CTLCPU_CRAM + 4)) → dev_load a h' = dev_load a (m_hw s)).
Proof.
  intros Hb Hbits Hnd He Hn Hlt. revert n s Hnd Hn Hlt. induction Hbits as [|i bits Hi _ IH]; intros n s Hnd Hn Hlt; cbn [start_loop].
  { exists (m_hw s). split; [by destruct s|]. split; [intros k x; by rewrite !filter_nil|done]. }
  apply NoDup_cons in Hnd as [Hnin Hnd]. cbn [length] in Hlt. fold (slot_mask i).
  rewrite slot_mask_pow, !land_bit, !negb_involutive, Z.pow2_bits_eqb by lia. rewrite filter_bool_cons.
  assert (Hskip : ∀ n', n' = n → ∃ h', start_loop entry mask (2 ^ b) bits n' s = Ret tt (set_hw h' s) ∧
    (∀ k x, filter (λ x, x ≠ b) (filter (Z.testbit mask) bits) !! k = Some x →
       dev_load (cpu_reg x CTLCPU_CRAM) h' = entry ∧ dev_load (cpu_reg x (CTLCPU_CRAM + 4)) h' = n + Z.of_nat k) ∧
    (∀ a, (∀ x, x ∈ i :: bits → a ≠ cpu_reg x CTLCPU_CRAM ∧ a ≠ cpu_reg x (CTLCPU_CRAM + 4)) → dev_load a h' = dev_load a (m_hw s))).
  { intros n' ->. destruct (IH n s Hnd Hn) as (h' & Hrun & Hin & Hout); [lia|]. exists h'. split; [done|]. split; [done|].
    intros a Ha. apply Hout. intros x Hx. apply Ha. by right. }
  destruct (Z.testbit mask i); [|by apply Hskip]. destruct (Z.eqb_spec b i) as [<-|Hne].
  { rewrite filter_cons_False by tauto. by apply Hskip. }
  rewrite filter_cons_True by congruence.
  replace (LB_CTLCPU_OFFSET + i * LB_CTLCPU_SIZE + CTLCPU_CRAM) with (CTLCPU_CRAM + LB_CTLCPU_OFFSET + i * LB_CTLCPU_SIZE) by lia.
  rewrite reg_area by (unfold CTLCPU_CRAM; lia). replace (cpu_reg i CTLCPU_CRAM + 4) with (cpu_reg i (CTLCPU_CRAM + 4)) by (unfold cpu_reg; lia).
  rewrite !run_modify. set (h1 := dev_store (cpu_reg i (CTLCPU_CRAM + 4)) n (dev_store (cpu_reg i CTLCPU_CRAM) entry (m_hw s))).
  assert (Hp1 : plain_reg (cpu_reg i CTLCPU_CRAM)) by (apply plain_cpu; [done|set_solver]).
  assert (Hp2 : plain_reg (cpu_reg i (CTLCPU_CRAM + 4))) by (apply plain_cpu; [done|set_solver]).
  destruct (IH (n + 1) (set_hw h1 s) Hnd) as (h' & Hrun & Hin & Hout); [lia|lia|]. exists h'. split; [exact Hrun|]. split.
  - assert (Hmine : ∀ off, off ∈ [CTLCPU_CRAM; CTLCPU_CRAM + 4] → dev_load (cpu_reg i off) h' = dev_load (cpu_reg i off) h1).
    { intros off Hoff. apply Hout. intros y Hy. assert (y ≠ i) by (by intros ->).
      assert (0 ≤ off < 1024) by (unfold CTLCPU_CRAM in Hoff; set_unfold; lia).
      split; intros [-> _]%cpu_reg_inj; unfold CTLCPU_CRAM; done || lia. }
    intros [|k] x; cbn.
    + intros [= <-]. rewrite !Hmine by set_solver. unfold h1. rewrite load_stored by (done || lia). split; [|lia].
      rewrite load_other; [by apply load_stored|done|]. unfold cpu_reg. lia.
    + intros Hx. destruct (Hin k x Hx) as [E1 E2]. split; [done|]. rewrite E2. lia.
  - intros a Ha. rewrite Hout by (intros y Hy; apply Ha; by right). cbn. destruct (Ha i) as [A1 A2]; [by left|].
    unfold h1. rewrite !load_other; done.
Qed.

Lemma run_ctl {A} (f : Z → K (machine B) A) off s :
  0 ≤ off < 1024 → mbind f (read_ctl_register off) s = f (dev_load (ctl_reg off) (m_hw s)) s.
Proof.
  intros Ho. unfold read_ctl_register, read_cfg_register, lamebus_read_register. rewrite run_gets.
  rewrite ctl_area by (unfold LB_CONFIG_SIZE, LB_CONTROLLER_SLOT; lia). f_equal. f_equal. unfold ctl_reg. lia.
Qed.

(** A machine with several processors, on the boot processor [b]. *)
Record mp_machine (b mask : Z) s : Prop := {
  mp_board : (dev_load (ctl_reg CFGREG_VID) (m_hw s) =? LB_VENDOR_CS161) && (dev_load (ctl_reg CFGREG_DID) (m_hw s) =? LBCS161_UPBUSCTL) = false;
  mp_mask : dev_load (ctl_reg CTLREG_CPUS) (m_hw s) = mask;
  mp_range : 0 ≤ mask < 2 ^ 32;
  mp_self : dev_load (ctl_reg CTLREG_SELF) (m_hw s) = 2 ^ b;
  mp_boot : 0 ≤ b < 32 ∧ Z.testbit mask b = true;
}.

Definition found_cpus (mask : Z) : list Z := filter (Z.testbit mask) (seqZ 0 32).

Lemma found_spec mask x : x ∈ found_cpus mask ↔ 0 ≤ x < 32 ∧ Z.testbit mask x = true.
Proof. unfold found_cpus. rewrite list_elem_of_filter, elem_of_seqZ, Is_true_true. naive_solver lia. Qed.

Lemma found_NoDup mask : NoDup (found_cpus mask).
Proof. unfold found_cpus. apply NoDup_filter, NoDup_seqZ. Qed.

Lemma bits_range : Forall (λ i, 0 ≤ i < 32) (seqZ 0 32).
Proof. apply Forall_forall. intros i Hi%elem_of_seqZ. lia. Qed.

Lemma ctl_not_cpu off x off' : 0 ≤ off < 1024 → 0 ≤ x → 0 ≤ off' → ctl_reg off ≠ cpu_reg x off'.
Proof. unfold ctl_reg, cpu_reg, LB_CONFIG_SIZE, LB_CONTROLLER_SLOT, LB_CTLCPU_OFFSET, LB_CTLCPU_SIZE. lia. Qed.

Lemma find_cpus_run b mask s c0 :
  mp_machine b mask s → m_cpus s = [c0] →
  ∃ h', lamebus_find_cpus s = Ret tt (set_hw h' (set_cpus (b :: filter (λ x, x ≠ b) (found_cpus mask)) s)) ∧
    (∀ x, x ∈ found_cpus mask → dev_load (cpu_reg x CTLCPU_CIRQE) h' = route b x) ∧
    (∀ a, (∀ x, x ∈ found_cpus mask → a ≠ cpu_reg x CTLCPU_CIRQE) → dev_load a h' = dev_load a (m_hw s)).
Proof.
  intros [Hboard Hmask Hrange Hself [Hb Hbit]] Hc. unfold lamebus_find_cpus.
  change (read_cfg_register LB_CONTROLLER_SLOT) with (read_ctl_register). rewrite !run_ctl by (unfold CFGREG_VID, CFGREG_DID; lia). rewrite Hboard.
  rewrite !run_ctl by (unfold CTLREG_CPUS, CTLREG_SELF; lia). rewrite Hmask, Hself.
  destruct (scan_run mask b (seqZ 0 32) [] 0 None Hb bits_range) as (bc & bo & -> & Hin & _). cbn [app] in *. fold (found_cpus mask) in *.
  destruct Hin as (Hbc & Hlk & ->); [by apply found_spec|]. rewrite run_modify.
  set (s1 := set_cpus (arr_set (m_cpus s) 0 b) s).
  assert (Hl : ∀ k x, found_cpus mask !! k = Some x → 0 + Z.of_nat k = bc ↔ x = b).
  { intros k x Hk. split.
    - intros He. replace (Z.to_nat bc) with k in Hlk by lia. congruence.
    - intros ->. assert (k = Z.to_nat bc) as ->; [|lia]. eapply NoDup_lookup; [apply found_NoDup|exact Hk|exact Hlk]. }
  assert (Hr : Forall (λ x, 0 ≤ x < 32) (found_cpus mask)) by (apply Forall_forall; intros x Hx%found_spec; tauto).
  rewrite (run_bind_ret _ _ _ _ _ (create_run bc b 0 (found_cpus mask) s1 Hl)).
  destruct (route_run bc b 0 (found_cpus mask) (set_cpus (m_cpus s1 ++ filter (λ x, x ≠ b) (found_cpus mask)) s1) Hl Hr) as (h' & Hrun & Hin & Hout).
  exists h'. rewrite Hrun. split; [|done]. f_equal. unfold s1. cbn. rewrite Hc. done.
Qed.

Lemma start_cpus_run b mask s entry :
  mp_machine b mask s → ls_uniprocessor (m_lb s) = false → 0 ≤ entry < 2 ^ 32 →
  ∃ h', lamebus_start_cpus entry s = Ret tt (set_hw h' s) ∧ dev_load (ctl_reg CTLREG_CPUE) h' = mask ∧
    (∀ k x, filter (λ x, x ≠ b) (found_cpus mask) !! k = Some x →
       dev_load (cpu_reg x CTLCPU_CRAM) h' = entry ∧ dev_load (cpu_reg x (CTLCPU_CRAM + 4)) h' = 1 + Z.of_nat k) ∧
    (∀ x, dev_load (cpu_reg x CTLCPU_CIRQE) h' = dev_load (cpu_reg x CTLCPU_CIRQE) (m_hw s)).
Proof.
  intros [Hboard Hmask Hrange Hself [Hb Hbit]] Hu He. unfold lamebus_start_cpus. setoid_rewrite run_gets. cbn [id]. rewrite Hu.
  setoid_rewrite run_ctl; [|unfold CTLREG_CPUS; lia]. setoid_rewrite run_ctl; [|unfold CTLREG_SELF; lia]. rewrite Hmask, Hself.
  destruct (start_run entry mask b (seqZ 0 32) 1 s Hb bits_range) as (h' & Hrun & Hin & Hout); [apply NoDup_seqZ|done|lia|by rewrite length_seqZ|].
  rewrite (run_bind_ret _ _ _ _ _ Hrun). exists (dev_store (ctl_reg CTLREG_CPUE) mask h').
  assert (Hp : plain_reg (ctl_reg CTLREG_CPUE)) by by left.
  assert (Hne : ∀ x off, 0 ≤ x → 0 ≤ off → cpu_reg x off ≠ ctl_reg CTLREG_CPUE) by (intros x off ? ? E; symmetry in E; revert E; apply ctl_not_cpu; unfold CTLREG_CPUE; lia).
  split; [|split; [by apply load_stored|split]].
  - unfold write_ctl_register, write_cfg_register, lamebus_write_register, modify. rewrite ctl_area by (unfold LB_CONFIG_SIZE, LB_CONTROLLER_SLOT, CTLREG_CPUE; lia).
    cbn [m_hw set_hw]. replace (0xbfff0000 + (CTLREG_CPUE + LB_CONFIG_SIZE * LB_CONTROLLER_SLOT)) with (ctl_reg CTLREG_CPUE) by (unfold ctl_reg; lia). done.
  - intros k x Hx. assert (0 ≤ x < 32).
    { apply list_elem_of_lookup_2 in Hx. apply list_elem_of_filter in Hx as [_ Hx]. apply found_spec in Hx. tauto. }
    rewrite !load_other; [by apply Hin|done|apply Hne; unfold CTLCPU_CRAM; lia|done|apply Hne; unfold CTLCPU_CRAM; lia].
  - intros x. destruct (decide (cpu_reg x CTLCPU_CIRQE = ctl_reg CTLREG_CPUE)) as [E|E].
    { exfalso. revert E. unfold cpu_reg, ctl_reg, LB_CTLCPU_OFFSET, LB_CTLCPU_SIZE, CTLCPU_CIRQE, LB_CONFIG_SIZE, LB_CONTROLLER_SLOT, CTLREG_CPUE. lia. }
    rewrite load_other by done. apply Hout. intros y Hy. split; intros Eq; apply cpu_reg_inj in Eq; unfold CTLCPU_CIRQE, CTLCPU_CRAM in *; lia.
Qed.

End cpus.

(** Processors and their numbers: [lamebus_find_cpus] makes the boot processor number 0 and gives every other
    processor of the machine a structure, in the order of the hardware numbers; [lamebus_start_cpus], which counts
    again, tells each of them the number of its own structure and starts all of them at [entry].  All interrupts of the bus go to the boot processor. *)
Theorem cpu_numbers_agree {B} `{BusLaws B} (s : machine B) b mask c0 entry :
  mp_machine b mask s → m_cpus s = [c0] → ls_uniprocessor (m_lb s) = false → 0 ≤ entry < 2 ^ 32 →
  ∃ s', mbind (λ _, lamebus_start_cpus entry) lamebus_find_cpus s = Ret tt s' ∧
    m_cpus s' = b :: filter (λ x, x ≠ b) (found_cpus mask) ∧
    (∀ n x, m_cpus s' !! n = Some x → (0 < n)%nat →
       dev_load (cpu_reg x CTLCPU_CRAM) (m_hw s') = entry ∧ dev_load (cpu_reg x (CTLCPU_CRAM + 4)) (m_hw s') = Z.of_nat n) ∧
    (∀ x, x ∈ found_cpus mask → dev_load (cpu_reg x CTLCPU_CIRQE) (m_hw s') = if x =? b then 0xffffffff else 0) ∧
    dev_load (ctl_reg CTLREG_CPUE) (m_hw s') = mask.
Proof.
  intros Hmp Hc Hu He. destruct (find_cpus_run b mask s c0 Hmp Hc) as (h1 & Hrun1 & Hroute & Hout). rewrite (run_bind_ret _ _ _ _ _ Hrun1).
  set (s1 := set_hw h1 _).
  assert (Hctl : ∀ off, 0 ≤ off < 1024 → dev_load (ctl_reg off) h1 = dev_load (ctl_reg off) (m_hw s)).
  { intros off Ho. apply Hout. intros x Hx%found_spec. apply ctl_not_cpu; unfold CTLCPU_CIRQE; lia. }
  assert (Hmp1 : mp_machine b mask s1).
  { destruct Hmp as [H1 H2 H3 H4 H5]. split; try done; cbn [m_hw set_hw s1]; unfold CFGREG_VID, CFGREG_DID, CTLREG_CPUS, CTLREG_SELF in *; by rewrite ?Hctl by lia. }
  destruct (start_cpus_run b mask s1 entry Hmp1 Hu He) as (h2 & Hrun2 & Hcpue & Hcram & Hcirq). rewrite Hrun2.
  eexists. split; [done|]. split; [done|]. split_and!; [|intros x Hx; cbn; rewrite Hcirq; by apply Hroute|done].
  intros [|n] x Hx Hn; [lia|]. cbn in Hx. destruct (Hcram n x Hx) as [E1 E2]. split; [done|]. cbn [m_hw set_hw]. rewrite E2. lia.
Qed.

(** Masking: [lamebus_mask_interrupt] takes the slot, and nothing else, out of the interrupts that the controller lets through, and
    [lamebus_unmask_interrupt] puts it in. *)
Theorem mask_interrupt_bits {B} `{BusLaws B} (s : machine B) slot :
  lb_wf s → 0 ≤ slot < 32 → 0 ≤ dev_load (ctl_reg CTLREG_IRQE) (m_hw s) < 2 ^ 32 →
  ∃ h1 h2, lamebus_mask_interrupt slot s = Ret tt (set_hw h1 s) ∧ lamebus_unmask_interrupt slot s = Ret tt (set_hw h2 s) ∧
    ∀ k, 0 ≤ k →
      Z.testbit (dev_load (ctl_reg CTLREG_IRQE) h1) k = Z.testbit (dev_load (ctl_reg CTLREG_IRQE) (m_hw s)) k && negb (slot =? k) ∧
      Z.testbit (dev_load (ctl_reg CTLREG_IRQE) h2) k = Z.testbit (dev_load (ctl_reg CTLREG_IRQE) (m_hw s)) k || (slot =? k).
Proof.
  intros Hwf Hs Hr. pose proof (lw_lock _ Hwf) as Hl. set (bits := dev_load (ctl_reg CTLREG_IRQE) (m_hw s)) in *.
  assert (Hv : valid_slot slot = true) by (unfold valid_slot, LB_NSLOTS; destruct (Z.leb_spec 0 slot), (Z.ltb_spec slot 32); try done; lia).
  assert (Hw : ∀ v, mbind (λ _, unlock_lb) (write_ctl_register CTLREG_IRQE v) (locked s) = Ret tt (set_hw (dev_store (ctl_reg CTLREG_IRQE) v (m_hw s)) s)).
  { intros v. unfold write_ctl_register, write_cfg_register, lamebus_write_register. rewrite run_modify, ctl_area by (unfold LB_CONFIG_SIZE, LB_CONTROLLER_SLOT, CTLREG_IRQE; lia).
    replace (0xbfff0000 + (CTLREG_IRQE + LB_CONFIG_SIZE * LB_CONTROLLER_SLOT)) with (ctl_reg CTLREG_IRQE) by (unfold ctl_reg; lia).
    unfold unlock_lb, modify. f_equal. destruct s as [[l u dd fs up] hw du cp ds nu ma]. cbn in *. by subst l. }
  assert (Hp : plain_reg (ctl_reg CTLREG_IRQE)) by (right; by left). assert (Hpow : 2 ^ slot < 2 ^ 32) by (apply Z.pow_lt_mono_r; lia).
  unfold lamebus_mask_interrupt, lamebus_unmask_interrupt. setoid_rewrite run_assert; [|done|done]. setoid_rewrite run_lock; [|done|done].
  setoid_rewrite run_ctl; [|unfold CTLREG_IRQE; lia|unfold CTLREG_IRQE; lia]. change (m_hw (locked s)) with (m_hw s). fold bits. setoid_rewrite Hw.
  eexists _, _. split; [done|]. split; [done|]. intros k Hk. rewrite slot_mask_pow by done. rewrite !load_stored; [|done| |done|].
  - split; [by apply testbit_clear; lia|by apply testbit_set; lia].
  - apply (lor_range 32); [lia|done|]. split; [apply Z.pow_nonneg; lia|done].
  - apply (land_range 32); [lia|done].
Qed.
