(* ===== verification/LbDemo.v ===== *)
(** * The bus: a small machine

    Registers that hold what was stored, and a machine with four processors, a timer, three
    disks (one of them too old for the driver) and a serial line: the theorems on the bus apply to it. *)

From Stdlib Require Import ZArith Lia Sorted.
From stdpp Require Import base gmap list list_numbers option strings.
From S2P Require Import Prelude Types Lamebus LbAttach LbIrq LbCpus.
Set Default Goal Selector "!".
Open Scope Z_scope.

#[export] Instance regs_ops : BusOps (gmap Z Z) := {| dev_load a h := default 0 (h !! a); dev_store a v h := <[a := v]> h |}.

#[export] Instance regs_laws : BusLaws (gmap Z Z).
Proof.
  split; intros; cbn; [by rewrite lookup_insert_eq|by rewrite lookup_insert_ne].
Qed.

Definition slot_ids (slot did drl : Z) : list (Z * Z) :=
  (λ '(reg, v), (lamebus_map_area LB_CONTROLLER_SLOT (reg + LB_CONFIG_SIZE * slot), v)) <$>
    [(CFGREG_VID, LB_VENDOR_CS161); (CFGREG_DID, did); (CFGREG_DRL, drl)].

(** Processors 0, 2, 3 and 7; the machine runs on number 2.  The line of slot 4 is on. *)
Definition demo_regs : gmap Z Z := list_to_map (
  slot_ids 1 LBCS161_TIMER 1 ++ slot_ids 4 LBCS161_DISK 2 ++ slot_ids 6 LBCS161_DISK 1 ++ slot_ids 9 LBCS161_DISK 3 ++
  slot_ids 12 LBCS161_SERIAL 1 ++ slot_ids 31 10 1 ++
  [(ctl_reg CTLREG_CPUS, 141); (ctl_reg CTLREG_SELF, 4); (ctl_reg CTLREG_IRQS, 16)]).

Definition demo_bus : lamebus_softc := LbSoftc false (2 ^ 31) (replicate 32 0) (replicate 32 None) false.
Definition demo_machine : machine (gmap Z Z) := Mach demo_bus demo_regs 0 [0] [] (λ _, 0) [].

Lemma demo_machine_wf : lb_wf demo_machine.
Proof.
  split; [done|done|done|]. intros slot Hs _. split; (rewrite arr_get_nonneg by lia; apply lookup_replicate_2; lia).
Qed.

Definition demo_config (d : device) (p u : Z) (h : gmap Z Z) : Z * gmap Z Z := (0, h).

Lemma autoconf_attaches_witness :
  ∃ s', autoconf_lamebus demo_config 33 demo_machine = Ret tt s' ∧ lb_wf s' ∧
    (∀ slot, 0 ≤ slot < 32 →
       same_slot demo_machine s' slot ∨ ∃ d u, d ∈ bus_drivers ∧ slot ∈ slots_for demo_machine d ∧ slot_has s' slot d u) ∧
    (m_mallocs demo_machine = [] → configs_ok demo_config →
       ∀ d, d ∈ bus_drivers → m_nextunit s' d = zlen (slots_for demo_machine d) ∧
         ∀ k slot, slots_for demo_machine d !! k = Some slot → slot_has s' slot d (Z.of_nat k)).
Proof. apply (autoconf_attaches demo_config demo_machine); [by intros|apply demo_machine_wf|done]. Defined.

(** The disks in slots 4 and 9 are units 0 and 1; the timer has a beeper and a clock, the serial line a console. *)
Example demo_autoconf :
  match autoconf_lamebus demo_config 33 demo_machine with
  | Ret _ s => map (λ d, (d_driver d, d_buspos d, d_unit d)) (m_devs s) =
      [(D_ltimer, 1, None); (D_beep, 1, None); (D_rtclock, 1, None); (D_lhd, 4, Some 0); (D_lhd, 9, Some 1); (D_lser, 12, None); (D_con, 6, None)] ∧
      omap (λ '(i, f), (λ d, (i, d)) <$> f) (imap pair (ls_irqfuncs (m_lb s))) = [(1%nat, D_ltimer); (4%nat, D_lhd); (9%nat, D_lhd); (12%nat, D_lser)]
  | _ => False
  end.
Proof. vm_compute. split; reflexivity. Qed.

(** Disks in slots 4 and 9.  The function of a slot clears its line; that of slot 4 also makes the disk in slot 9 ask for an interrupt,
    as a transfer that ends in the meantime would.  The pointer is the number of the slot; nobody has the timer of slot 1, whose line is on too. *)
Definition irq_addr : Z := lamebus_map_area LB_CONTROLLER_SLOT (CTLREG_IRQS + LB_CONFIG_SIZE * LB_CONTROLLER_SLOT).
Definition demo_handler (d : device) (p : Z) (h : gmap Z Z) : gmap Z Z :=
  let off := Z.land (dev_load irq_addr h) (Z.lnot (2 ^ p)) in
  dev_store irq_addr (if p =? 4 then Z.lor off (2 ^ 9) else off) h.
Definition disk_bus : lamebus_softc := set_irq 9 9 (Some D_lhd) (set_irq 4 4 (Some D_lhd) (set_inuse (2 ^ 31 + 2 ^ 9 + 2 ^ 4) demo_bus)).
Definition disk_machine : machine (gmap Z Z) := Mach disk_bus (<[irq_addr := 18]> demo_regs) 3 [0] [] (λ _, 0) [].

Lemma disk_irq slot : 0 ≤ slot < 32 → irq_at disk_bus slot = if (slot =? 4) || (slot =? 9) then Some (D_lhd, slot) else None.
Proof.
  intros Hs. unfold irq_at, disk_bus, set_irq. cbn [ls_irqfuncs ls_devdata].
  destruct (Z.eqb_spec slot 4) as [->|H4]; [reflexivity|]. destruct (Z.eqb_spec slot 9) as [->|H9]; [reflexivity|].
  rewrite !arr_get_set_ne by done. cbn [ls_irqfuncs ls_devdata set_inuse demo_bus]. rewrite !arr_get_nonneg by lia.
  by rewrite !lookup_replicate_2 by lia.
Qed.

Lemma demo_handler_line d p h k :
  0 ≤ p → 0 ≤ k → line (demo_handler d p h) k = line h k && negb (p =? k) || (p =? 4) && (9 =? k).
Proof.
  intros Hp Hk. unfold line, irqs_of, demo_handler. fold irq_addr. cbn [dev_load dev_store regs_ops]. rewrite lookup_insert_eq. cbn [default].
  change (default 0 (h !! irq_addr)) with (dev_load irq_addr h). unfold id. destruct (p =? 4).
  - by rewrite testbit_set, testbit_clear by lia.
  - by rewrite testbit_clear, orb_false_r by lia.
Qed.

Lemma disk_silences : silences demo_handler disk_bus.
Proof.
  intros slot h Hs Hat. unfold run_irq. rewrite disk_irq in * by done.
  destruct (Z.eqb_spec slot 4) as [->|H4]; [|destruct (Z.eqb_spec slot 9) as [->|H9]; [|by destruct Hat]]; cbn [orb]; split.
  - rewrite demo_handler_line by lia. by destruct (line h 4).
  - intros k Hk. rewrite demo_handler_line by lia. destruct (Z.eqb_spec 9 k); [lia|]. by destruct (line h k).
  - rewrite demo_handler_line by lia. by destruct (line h 9).
  - intros k Hk. rewrite demo_handler_line by lia. cbn [andb]. by destruct (line h k).
Qed.

Lemma disk_machine_wf : lb_wf disk_machine.
Proof.
  split; [done|done|done|]. intros slot Hs Hu. assert (slot ≠ 4) by (intros ->; vm_compute in Hu; done).
  assert (slot ≠ 9) by (intros ->; vm_compute in Hu; done).
  unfold disk_machine, disk_bus, set_irq. cbn [m_lb ls_devdata ls_irqfuncs]. rewrite !arr_get_set_ne by done.
  cbn [ls_irqfuncs ls_devdata set_inuse demo_bus]. rewrite !arr_get_nonneg by lia. by rewrite !lookup_replicate_2 by lia.
Qed.

Lemma interrupt_serves_witness :
  ∃ sv un, StronglySorted Z.lt sv ∧ (∀ k, k ∈ sv ∨ k ∈ un → 0 ≤ k < 32) ∧
    (∀ k, 0 ≤ k < 32 → k ∈ sv ↔ driven disk_machine k = true ∧ line_at demo_handler disk_machine sv (m_hw disk_machine) k = true) ∧
    (∀ k, 0 ≤ k < 32 → k ∈ un ↔ driven disk_machine k = false ∧ line_at demo_handler disk_machine sv (m_hw disk_machine) k = true) ∧
    lamebus_interrupt demo_handler disk_machine =
      (if 10000 <? duds_after disk_machine un then Panic "too many dud interrupts"
       else Ret tt (set_hd (run_irqs demo_handler disk_machine sv (m_hw disk_machine)) (duds_after disk_machine un) disk_machine)) ∧
    (silences demo_handler disk_bus →
       ∀ k, 0 ≤ k < 32 → driven disk_machine k = true → line (run_irqs demo_handler disk_machine sv (m_hw disk_machine)) k = false).
Proof. apply (interrupt_serves demo_handler disk_machine); [apply disk_machine_wf|done]. Defined.

(** Both disks are served, the second by the reloaded lines; the line of the timer stays on and is the fourth dud in a row. *)
Example demo_interrupt :
  serve demo_handler disk_machine all_slots (m_hw disk_machine) = ([4; 9], [1]) ∧
  match lamebus_interrupt demo_handler disk_machine with
  | Ret _ s => irqs_of (m_hw s) = 2 ∧ m_duds s = 4
  | _ => False
  end.
Proof. vm_compute. split_and!; reflexivity. Qed.

(** The processors: number 2 boots, 0, 3 and 7 become the numbers 1, 2 and 3. *)
Lemma cpu_numbers_agree_witness :
  ∃ s', mbind (λ _, lamebus_start_cpus 0x80001000) lamebus_find_cpus demo_machine = Ret tt s' ∧
    m_cpus s' = 2 :: filter (λ x, x ≠ 2) (found_cpus 141) ∧
    (∀ n x, m_cpus s' !! n = Some x → (0 < n)%nat →
       dev_load (cpu_reg x CTLCPU_CRAM) (m_hw s') = 0x80001000 ∧ dev_load (cpu_reg x (CTLCPU_CRAM + 4)) (m_hw s') = Z.of_nat n) ∧
    (∀ x, x ∈ found_cpus 141 → dev_load (cpu_reg x CTLCPU_CIRQE) (m_hw s') = if x =? 2 then 0xffffffff else 0) ∧
    dev_load (ctl_reg CTLREG_CPUE) (m_hw s') = 141.
Proof.
  apply (cpu_numbers_agree demo_machine 2 141 0 0x80001000); [|done|done|lia].
  split; [reflexivity|reflexivity|lia|reflexivity|split; [lia|reflexivity]].
Defined.

Example demo_cpus : 2 :: filter (λ x, x ≠ 2) (found_cpus 141) = [2; 0; 3; 7].
Proof. reflexivity. Qed.
