(* ===== verification/Ipi.v ===== *)
(** * Interrupts between processors: kern/thread/thread.c and mainbus_interrupt

    A processor interrupts another one by setting a bit in its [c_ipi_pending] and raising
    its line at the bus controller, under the lock [c_ipi_lock]; the target handles all
    bits under the same lock and then lowers the line.  The steps between two processors
    interleave; a step is what happens under the lock, or the store that lowers the line ([mainbus_interrupt] does it after
    [interprocessor_interrupt] has returned, without the lock).  A processor that has halted does nothing any more. *)

From Stdlib Require Import ZArith Lia.
From stdpp Require Import base list option strings relations.
From S2P Require Import Prelude Types Thread.
Set Default Goal Selector "!".
Open Scope Z_scope.

Definition IPI_PANIC : Z := 0.
Definition IPI_OFFLINE : Z := 1.
Definition IPI_TLBSHOOTDOWN : Z := 3.
Definition TLBSHOOTDOWN_MAX : Z := 16.

(** Outside of the handler, or between [interprocessor_interrupt] and [lamebus_clear_ipi], or halted. *)
Inductive ipi_pc := Outside | Clearing | Halted.

(** The part of [struct cpu] for interrupts, with the line. *)
Record ipi_cpu := IpiCpu { ip_pending : Z; ip_shootdown : list Z; ip_line : bool; ip_pc : ipi_pc }.

(** A bit of [c_ipi_pending]. *)
Definition ipi_bit (code : Z) : Z := u32 (Z.shiftl 1 code).
Definition has_ipi (bits code : Z) : bool := negb (Z.land bits (ipi_bit code) =? 0).

Definition send_ipi (code : Z) (x : ipi_cpu) : option ipi_cpu :=
  if (0 <=? code) && (code <? 32)
  then Some (IpiCpu (Z.lor (ip_pending x) (ipi_bit code)) (ip_shootdown x) true (ip_pc x))
  else None.

(** To every processor but the sender. *)
Fixpoint ipi_broadcast (code : Z) (i self : nat) (cs : list ipi_cpu) : option (list ipi_cpu) :=
  match cs with
  | [] => Some []
  | x :: cs' =>
      x' ← (if decide (i = self) then Some x else send_ipi code x);
      cs'' ← ipi_broadcast code (S i) self cs';
      Some (x' :: cs'')
  end.

Definition ipi_tlbshootdown (mapping : Z) (x : ipi_cpu) : option ipi_cpu :=
  if zlen (ip_shootdown x) =? TLBSHOOTDOWN_MAX then None
  else Some (IpiCpu (Z.lor (ip_pending x) (ipi_bit IPI_TLBSHOOTDOWN)) (ip_shootdown x ++ [mapping]) true (ip_pc x)).

(** [vm_tlbshootdown] of this kernel is a panic; the argument says what it does. *)
Definition interprocessor_interrupt (vm_tlbshootdown : Z → bool) (x : ipi_cpu) : option ipi_cpu :=
  let bits := ip_pending x in
  if has_ipi bits IPI_PANIC then Some (IpiCpu bits (ip_shootdown x) (ip_line x) Halted)
  else if has_ipi bits IPI_OFFLINE then Some (IpiCpu bits (ip_shootdown x) (ip_line x) Halted)
  else if has_ipi bits IPI_TLBSHOOTDOWN then
    if forallb vm_tlbshootdown (ip_shootdown x) then Some (IpiCpu 0 [] (ip_line x) Clearing) else None
  else Some (IpiCpu 0 (ip_shootdown x) (ip_line x) Clearing).

Definition clear_line (x : ipi_cpu) : ipi_cpu := IpiCpu (ip_pending x) (ip_shootdown x) false Outside.

(** ** mainbus_interrupt *)

Definition LAMEBUS_IRQ_BIT : Z := 0x400.
Definition LAMEBUS_IPI_BIT : Z := 0x800.
Definition MIPS_TIMER_BIT : Z := 0x8000.
Definition CCA_IRQS : Z := 0xff00.

Section mainbus.
(** The handlers that it calls. *)
Context {S : Type} (lamebus_interrupt interprocessor clear_ipi timer_set hard_clock : K S unit).

Definition mainbus_interrupt (curspl cause : Z) : K S unit :=
  KASSERT (0 <? curspl) "curthread->t_curspl > 0";;
  (if negb (Z.land cause LAMEBUS_IRQ_BIT =? 0) then lamebus_interrupt else mret tt);;
  (if negb (Z.land cause LAMEBUS_IPI_BIT =? 0) then interprocessor;; clear_ipi else mret tt);;
  (if negb (Z.land cause MIPS_TIMER_BIT =? 0) then timer_set;; hard_clock else mret tt);;
  if (Z.land cause LAMEBUS_IRQ_BIT =? 0) && (Z.land cause LAMEBUS_IPI_BIT =? 0) && (Z.land cause MIPS_TIMER_BIT =? 0)
  then if Z.land cause CCA_IRQS =? 0 then mret tt else panic "Unknown interrupt"
  else mret tt.
End mainbus.

(** ** The interleaved steps on one target *)

Inductive ipi_event := Send (code : Z) | Shoot (mapping : Z) | Handle | Clear.

Definition ipi_do (vm_tlbshootdown : Z → bool) (e : ipi_event) (x : ipi_cpu) : option ipi_cpu :=
  match e with
  | Send code => send_ipi code x
  | Shoot mapping => ipi_tlbshootdown mapping x
  | Handle => interprocessor_interrupt vm_tlbshootdown x
  | Clear => Some (clear_line x)
  end.

(** The target enters the handler when its line is up. *)
Definition ipi_enabled (e : ipi_event) (x : ipi_cpu) : Prop :=
  match e with
  | Send code => 0 ≤ code < 32
  | Shoot _ => True
  | Handle => ip_line x = true ∧ ip_pc x = Outside
  | Clear => ip_pc x = Clearing
  end.

Definition ipi_idle : ipi_cpu := IpiCpu 0 [] false Outside.

Section steps.
Context (vm_tlbshootdown : Z → bool).

Inductive ipi_run (ok : ipi_event → ipi_cpu → Prop) : ipi_cpu → Prop :=
  | ir_start : ipi_run ok ipi_idle
  | ir_step e x x' : ipi_run ok x → ok e x → ipi_enabled e x → ipi_do vm_tlbshootdown e x = Some x' → ipi_run ok x'.

Lemma ipi_bit_pow code : 0 ≤ code < 32 → ipi_bit code = 2 ^ code.
Proof.
  intros Hs. unfold ipi_bit, wrap. rewrite Z.shiftl_mul_pow2, Z.mul_1_l by lia. apply Z.mod_small.
  split; [apply Z.pow_nonneg; lia|]. by apply Z.pow_lt_mono_r; lia.
Qed.

Lemma has_ipi_set bits code c : 0 ≤ code < 32 → 0 ≤ c < 32 → has_ipi (Z.lor bits (ipi_bit code)) c = has_ipi bits c || (code =? c).
Proof.
  intros Hc Hd. unfold has_ipi. rewrite !ipi_bit_pow by done. rewrite !land_bit, !negb_involutive by lia. apply testbit_set. lia.
Qed.

(** Nothing is sent between the handler and the store that lowers the line. *)
Definition not_while_clearing (e : ipi_event) (x : ipi_cpu) : Prop :=
  match e with Send _ | Shoot _ => ip_pc x ≠ Clearing | _ => True end.

(** The queue fits, it is announced by its bit, and what is pending raises the line. *)
Record ipi_inv (x : ipi_cpu) : Prop := {
  iv_room : zlen (ip_shootdown x) ≤ TLBSHOOTDOWN_MAX;
  iv_shoot : ip_shootdown x ≠ [] → has_ipi (ip_pending x) IPI_TLBSHOOTDOWN = true;
  iv_clearing : ip_pc x = Clearing → ip_pending x = 0;
  iv_line : ip_pc x = Outside → ip_pending x ≠ 0 → ip_line x = true;
}.

Lemma send_inv x code : ipi_inv x → 0 ≤ code < 32 → ip_pc x ≠ Clearing → ∃ x', send_ipi code x = Some x' ∧ ipi_inv x'.
Proof.
  intros [H1 H2 H3 H4] Hc Hp. unfold send_ipi. rewrite (proj2 (Z.leb_le 0 code)), (proj2 (Z.ltb_lt code 32)) by lia. cbn [andb].
  eexists. split; [done|]. split; cbn; try done. intros Hs. rewrite has_ipi_set by (unfold IPI_TLBSHOOTDOWN; lia). by rewrite H2.
Qed.

Lemma shoot_inv x mapping x' : ipi_inv x → ip_pc x ≠ Clearing → ipi_tlbshootdown mapping x = Some x' → ipi_inv x'.
Proof.
  intros [H1 H2 H3 H4] Hp. unfold ipi_tlbshootdown. destruct (Z.eqb_spec (zlen (ip_shootdown x)) TLBSHOOTDOWN_MAX); [done|]. intros [= <-].
  split; cbn; try done; [rewrite length_app; cbn; lia|]. intros _. rewrite has_ipi_set by (unfold IPI_TLBSHOOTDOWN; lia). apply orb_true_r.
Qed.

Lemma handle_inv x x' : ipi_inv x → interprocessor_interrupt vm_tlbshootdown x = Some x' → ipi_inv x'.
Proof.
  intros [H1 H2 H3 H4]. unfold interprocessor_interrupt. destruct (has_ipi (ip_pending x) IPI_PANIC), (has_ipi (ip_pending x) IPI_OFFLINE);
    try (intros [= <-]; by split).
  destruct (has_ipi (ip_pending x) IPI_TLBSHOOTDOWN) eqn:E.
  - destruct (forallb vm_tlbshootdown (ip_shootdown x)); [|done]. intros [= <-]. by split.
  - intros [= <-]. split; cbn; try done; intros Hs; by rewrite H2 in E.
Qed.

Lemma ipi_run_inv x : ipi_run not_while_clearing x → ipi_inv x.
Proof.
  induction 1 as [|e x x' _ IH Hok Hen Hdo]; [by split|]. destruct e as [code|mapping| |]; cbn in *.
  - destruct (send_inv x code IH Hen Hok) as (y & Hy & Hi). congruence.
  - by eapply shoot_inv.
  - by eapply handle_inv.
  - injection Hdo as <-. destruct IH as [H1 H2 H3 H4]. specialize (H3 Hen). by split.
Qed.

End steps.

(** ** Theorems *)

(** Delivery: as long as nothing is sent while the target is between its handler and the store that lowers the line, a processor
    outside of the handler with something pending has its line up, so that the handler can run and takes it; there are never more than sixteen shootdowns, and they are always announced. *)
Theorem ipi_delivered vm x :
  ipi_run vm not_while_clearing x → ip_pc x = Outside → ip_pending x ≠ 0 →
  ipi_enabled Handle x ∧ zlen (ip_shootdown x) ≤ TLBSHOOTDOWN_MAX ∧
  (∀ x', interprocessor_interrupt vm x = Some x' → ip_pc x' = Halted ∨ ip_pending x' = 0 ∧ ip_shootdown x' = []).
Proof.
  intros Hr%ipi_run_inv Hp Hb. destruct Hr as [H1 H2 H3 H4]. split; [split; auto|]. split; [done|].
  intros x'. unfold interprocessor_interrupt. destruct (has_ipi (ip_pending x) IPI_PANIC); [intros [= <-]; by left|].
  destruct (has_ipi (ip_pending x) IPI_OFFLINE); [intros [= <-]; by left|]. destruct (has_ipi (ip_pending x) IPI_TLBSHOOTDOWN) eqn:E.
  - destruct (forallb vm (ip_shootdown x)); [|done]. intros [= <-]. by right.
  - intros [= <-]. right. split; [done|]. cbn. destruct (ip_shootdown x) eqn:Es; [done|]. by specialize (H2 ltac:(done)).
Qed.

(** Loss: in general an interrupt can get lost.  One that is sent after [interprocessor_interrupt] has released the lock and before the line is lowered stays pending with the line down,
    and nothing the target does changes that: the handler does not run until another one is sent. *)
Theorem ipi_lost vm :
  ∃ x, ipi_run vm (λ _ _, True) x ∧ ip_pc x = Outside ∧ has_ipi (ip_pending x) IPI_UNIDLE = true ∧ ip_line x = false ∧
    ¬ ipi_enabled Handle x ∧ ¬ ipi_enabled Clear x.
Proof.
  exists (IpiCpu 4 [] false Outside). split; [|split_and!; [done|done|done|by intros [? _]|done]].
  eapply (ir_step _ _ Clear (IpiCpu 4 [] true Clearing)); [|done|done|done].
  eapply (ir_step _ _ (Send IPI_UNIDLE) (IpiCpu 0 [] true Clearing)); [|done|by unfold IPI_UNIDLE; cbn; lia|done].
  eapply (ir_step _ _ Handle (IpiCpu 4 [] true Outside)); [|done|done|done].
  eapply (ir_step _ _ (Send IPI_UNIDLE) ipi_idle); [constructor|done|by unfold IPI_UNIDLE; cbn; lia|done].
Qed.

(** A broadcast reaches every processor but the sender, once. *)
Theorem ipi_broadcast_all code self cs :
  0 ≤ code < 32 →
  ∃ cs', ipi_broadcast code 0 self cs = Some cs' ∧ length cs' = length cs ∧
    ∀ i x, cs !! i = Some x → ∃ x', cs' !! i = Some x' ∧
      if decide (i = self) then x' = x else has_ipi (ip_pending x') code = true ∧ ip_line x' = true ∧ ip_pc x' = ip_pc x.
Proof.
  intros Hc. assert (Hgen : ∀ cs n, ∃ cs', ipi_broadcast code n self cs = Some cs' ∧ length cs' = length cs ∧
    ∀ i x, cs !! i = Some x → ∃ x', cs' !! i = Some x' ∧
      if decide (n + i = self)%nat then x' = x else has_ipi (ip_pending x') code = true ∧ ip_line x' = true ∧ ip_pc x' = ip_pc x).
  { clear cs. induction cs as [|x cs IH]; intros n; [by exists []|]. cbn [ipi_broadcast].
    destruct (IH (S n)) as (cs' & Hrun & Hlen & Hall).
    assert (Hx : ∃ x', (if decide (n = self) then Some x else send_ipi code x) = Some x' ∧
      if decide (n = self) then x' = x else has_ipi (ip_pending x') code = true ∧ ip_line x' = true ∧ ip_pc x' = ip_pc x).
    { destruct (decide (n = self)); [by exists x|]. unfold send_ipi. rewrite (proj2 (Z.leb_le 0 code)), (proj2 (Z.ltb_lt code 32)) by lia.
      eexists. split; [done|]. cbn. split; [|done]. rewrite has_ipi_set, Z.eqb_refl by done. apply orb_true_r. }
    destruct Hx as (x' & -> & Hx). cbn [mbind option_bind]. rewrite Hrun. cbn. exists (x' :: cs'). split; [done|]. split; [cbn; by rewrite Hlen|].
    intros [|i] y; cbn.
    - intros [= <-]. exists x'. split; [done|]. by rewrite Nat.add_0_r.
    - intros Hy. destruct (Hall i y Hy) as (y' & Hy' & Hpost). exists y'. split; [done|]. by replace (n + S i)%nat with (S n + i)%nat by lia. }
  apply (Hgen cs 0%nat).
Qed.

(** Which interrupts are handled: with interrupts off, [mainbus_interrupt] calls the handlers of the lines in the cause register, the bus first and the timer last;
    only a line that is not wired is a panic, and no line at all is ignored. *)
Theorem mainbus_interrupt_lines {S} (bus ipi clear timer hard : K S unit) curspl cause s :
  0 < curspl →
  (Z.land cause CCA_IRQS = 0 → mainbus_interrupt bus ipi clear timer hard curspl cause s = Ret tt s) ∧
  (∀ s', Z.land cause LAMEBUS_IPI_BIT ≠ 0 → Z.land cause LAMEBUS_IRQ_BIT = 0 → Z.land cause MIPS_TIMER_BIT = 0 →
     mbind (λ _, clear) ipi s = Ret tt s' → mainbus_interrupt bus ipi clear timer hard curspl cause s = Ret tt s') ∧
  (Z.land cause LAMEBUS_IRQ_BIT = 0 → Z.land cause LAMEBUS_IPI_BIT = 0 → Z.land cause MIPS_TIMER_BIT = 0 → Z.land cause CCA_IRQS ≠ 0 →
     mainbus_interrupt bus ipi clear timer hard curspl cause s = Panic "Unknown interrupt").
Proof.
  intros Hspl. unfold mainbus_interrupt. split_and!.
  - intros Hz. rewrite run_assert by by apply Z.ltb_lt.
    assert (Hbit : ∀ b, Z.land CCA_IRQS b = b → Z.land cause b = 0) by (intros b Hb; by rewrite <- Hb, Z.land_assoc, Hz).
    rewrite !Hbit by done. done.
  - intros s' H1 H2 H3 Hrun. rewrite run_assert by by apply Z.ltb_lt. rewrite H2, H3, (proj2 (Z.eqb_neq _ _) H1). cbn [Z.eqb negb andb].
    rewrite run_mret, (run_bind_ret _ _ _ _ _ Hrun). done.
  - intros H1 H2 H3 H4. rewrite run_assert by by apply Z.ltb_lt. rewrite H1, H2, H3, (proj2 (Z.eqb_neq _ _) H4). done.
Qed.
