(* ===== verification/Clock.v ===== *)
(** * Clocks: kern/thread/clock.c, kern/dev/lamebus/ltimer.c, kern/dev/generic/rtclock.c

    The timer of each processor calls [hardclock] a hundred times a second: threads
    change and, now and then, move to other processors (Thread.v).  One timer device calls [timerclock] once a
    second for the threads in [clocksleep], and its registers give the time of day.

    The counter [c_hardclocks] is an argument beside the scheduler's state.  A thread in [clocksleep] is seen alone:
    it is asleep on [lbolt], or woken and not yet running, with the seconds that are left; any number of
    ticks can come before it runs. *)

From Stdlib Require Import ZArith Lia.
From stdpp Require Import base gmap list list_numbers option.
From S2P Require Import Prelude Types Thread.
Set Default Goal Selector "!".
Open Scope Z_scope.

Definition SCHEDULE_HARDCLOCKS : Z := 4.
Definition MIGRATE_HARDCLOCKS : Z := 16.

(** Round robin needs no help. *)
Definition schedule (s : tsys) : tsys := s.

(** [counts] are the lengths of the run queues, as [thread_consider_migration] reads them. *)
Definition hardclock (c : nat) (counts : list Z) (hardclocks : Z) (s : tsys) : option (Z * tsys) :=
  let hardclocks := u32 (hardclocks + 1) in
  s ← (if hardclocks mod MIGRATE_HARDCLOCKS =? 0 then thread_consider_migration c counts s else Some s);
  let s := if hardclocks mod SCHEDULE_HARDCLOCKS =? 0 then schedule s else s in
  s ← thread_yield c s;
  Some (hardclocks, s).

(** [lbolt] is the wait channel. *)
Definition timerclock (c : nat) (lbolt : Z) (s : tsys) : option tsys := wchan_wakeall c lbolt s.

(** ** A thread in clocksleep *)

Inductive sleeper := Asleep (num_secs : Z) | Woken (num_secs : Z) | Returned.

(** The test of the loop. *)
Definition clocksleep (num_secs : Z) : sleeper := if 0 <? num_secs then Asleep num_secs else Returned.

Inductive clock_event := Tick | Run.

(** A tick wakes it; when it runs it counts and sleeps again or returns. *)
Definition sleeper_step (x : sleeper) (e : clock_event) : sleeper :=
  match x, e with
  | Asleep n, Tick => Woken n
  | Woken n, Run => clocksleep (n - 1)
  | _, _ => x
  end.

Fixpoint ticks (es : list clock_event) : Z :=
  match es with [] => 0 | Tick :: es' => 1 + ticks es' | Run :: es' => ticks es' end.

(** ** The timer device *)

Definition LT_GRANULARITY : Z := 1000000.

Record ltimer_softc := LtSoftc { lt_hardclock : bool; lt_timerclock : bool }.

(** With the static variable [havetimerclock]: the new value, the structure, and what is stored in the device, by register. *)
Definition config_ltimer (havetimerclock : bool) : bool * ltimer_softc * list (Z * Z) :=
  if negb havetimerclock then (true, LtSoftc false true, [(8, 1); (16, LT_GRANULARITY)])
  else (havetimerclock, LtSoftc false false, []).

(** Is [hardclock] called, and [timerclock]?  [val] is read from the interrupt register. *)
Definition ltimer_irq (lt : ltimer_softc) (val : Z) : bool * bool :=
  if val =? 0 then (false, false) else (lt_hardclock lt, lt_timerclock lt).

(** Seconds and nanoseconds, from the three registers in the order in which they are read. *)
Definition ltimer_gettime (secs1 nsec secs2 : Z) : Z * Z :=
  (if nsec <? 5000000 then secs2 else secs1, nsec).

(** [the_clock] is set or not; 25 is [ENODEV]. *)
Definition config_rtclock (the_clock : bool) (unit : Z) : option (Z * bool) :=
  if negb (unit =? 0) then Some (25, the_clock)
  else if the_clock then None
  else Some (0, true).

Definition gettime (the_clock : bool) (secs1 nsec secs2 : Z) : option (Z * Z) :=
  if the_clock then Some (ltimer_gettime secs1 nsec secs2) else None.

(** ** Theorems *)

Lemma u32_mod_16 x : u32 x mod 16 = x mod 16.
Proof. unfold wrap. apply Z.mod_mod_divide. by exists (2 ^ 28). Qed.

(** [hardclock] always returns and keeps the invariant of the scheduler: every thread in one place.  No thread appears or is lost.  On fifteen of sixteen calls,
    also when the counter wraps around, it is the turn of the round robin. *)
Theorem hardclock_keeps c counts k s cp n :
  sched_inv s → cpus s !! c = Some cp → victims cp = [] → counts !! c = Some n → 0 ≤ n ≤ zlen (c_runqueue cp) →
  ∃ s', hardclock c counts k s = Some (u32 (k + 1), s') ∧ sched_inv s' ∧
    ((k + 1) mod 16 ≠ 0 → hardclock c counts k s = s1 ← thread_yield c s; Some (u32 (k + 1), s1)).
Proof.
  intros Hi Hc Hv Hn Hr. unfold hardclock, schedule, MIGRATE_HARDCLOCKS. rewrite u32_mod_16.
  assert (Hy : ∀ s1, sched_inv s1 → is_Some (cpus s1 !! c) →
    ∃ s', (s2 ← thread_yield c (if u32 (k + 1) mod SCHEDULE_HARDCLOCKS =? 0 then s1 else s1); Some (u32 (k + 1), s2)) = Some (u32 (k + 1), s') ∧ sched_inv s').
  { intros s1 Hi1 Hc1. destruct (sched_do_run (OpYield c) s1 Hi1 Hc1) as (s' & Hrun & Hi'). cbn in Hrun. exists s'.
    replace (if u32 (k + 1) mod SCHEDULE_HARDCLOCKS =? 0 then s1 else s1) with s1 by by case_match. by rewrite Hrun. }
  destruct (Z.eqb_spec ((k + 1) mod 16) 0) as [He|Hne].
  - destruct (migration_run c counts s cp n Hi Hc Hv Hn Hr (one_share_nonneg _ _ _ Hn)) as (s1 & -> & Hi1 & Hlen & _).
    cbn [mbind option_bind]. destruct (Hy s1 Hi1) as (s' & Hrun & Hi').
    { apply lookup_lt_is_Some. rewrite Hlen. by apply lookup_lt_Some in Hc. }
    exists s'. cbn in Hrun. by split_and!.
  - cbn [mbind option_bind]. destruct (Hy s Hi) as (s' & Hrun & Hi'); [by exists cp|]. exists s'. cbn in Hrun. split; [done|]. split; [done|].
    intros _. by case_match.
Qed.

(** ** Round robin under the clock *)

(** The end of [thread_switch], for a processor whose thread was put away. *)
Definition resume (c : nat) (s : tsys) : option tsys := cp ← cpus s !! c; if c_isidle cp then thread_pick c s else Some s.

(** A timer interrupt with a running thread, up to the next thread that runs.  [rd] gives the lengths of the run queues, as [thread_consider_migration] reads them. *)
Definition clock_turn (c : nat) (rd : tsys → list Z) (hardclocks : Z) (s : tsys) : option (Z * tsys) :=
  '(hardclocks, s) ← hardclock c (rd s) hardclocks s; s ← resume c s; Some (hardclocks, s).

Fixpoint clock_turns (n : nat) (c : nat) (rd : tsys → list Z) (hardclocks : Z) (s : tsys) : option (Z * tsys) :=
  match n with O => Some (hardclocks, s) | S n' => '(hardclocks, s) ← clock_turn c rd hardclocks s; clock_turns n' c rd hardclocks s end.

(** What is read for the own processor is no more than there is. *)
Definition reads_own (c : nat) (rd : tsys → list Z) : Prop := ∀ s cp, cpus s !! c = Some cp → ∃ n, rd s !! c = Some n ∧ 0 ≤ n ≤ zlen (c_runqueue cp).

Definition yields (c : nat) (s : tsys) : option tsys := s ← thread_yield c s; resume c s.

Lemma clock_turn_eq c rd k s :
  clock_turn c rd k s = s1 ← (if (k + 1) mod 16 =? 0 then thread_consider_migration c (rd s) s else Some s); s2 ← yields c s1; Some (u32 (k + 1), s2).
Proof.
  unfold clock_turn, hardclock, schedule, yields, MIGRATE_HARDCLOCKS. rewrite u32_mod_16. destruct (if _ =? 0 then _ else _) as [s1|]; [|done]. cbn [mbind option_bind].
  replace (if _ =? 0 then s1 else s1) with s1 by by case_match. by destruct (thread_yield c s1) as [s2|].
Qed.

(** The processor [c] runs a thread, and [t] is behind [q1] in its run queue. *)
Record waits (c : nat) (cur : Z) (q1 : list Z) (t : Z) (q2 : list Z) (s : tsys) : Prop := {
  wa_inv : sched_inv s;
  wa_run : content s (PRun c) = [cur];
  wa_victims : content s (PVictim c) = [];
  wa_queue : content s (PReady c) = q1 ++ t :: q2;
}.

Definition moved_off (c : nat) (t : Z) (s : tsys) : Prop := ∃ e, e ≠ c ∧ t ∈ content s (PReady e).

Lemma yields_run c cur s :
  sched_inv s → content s (PRun c) = [cur] → ∃ s', yields c s = Some s' ∧ sched_inv s' ∧ (∀ e, e ≠ c → content s' (PReady e) = content s (PReady e)) ∧
    ∀ x q, content s (PReady c) = x :: q → content s' (PRun c) = [x] ∧ content s' (PReady c) = q ++ [cur] ∧ content s' (PVictim c) = content s (PVictim c).
Proof.
  intros Hi Hr. pose proof Hr as Hr0. cbn in Hr0. destruct (cpus s !! c) as [cp|] eqn:Hc; [|done]. destruct (c_isidle cp) eqn:Hid; [done|].
  destruct (c_runqueue cp) as [|x q] eqn:Hq.
  - exists s. unfold yields, thread_yield, thread_switch, resume. rewrite Hc. cbn [mbind option_bind]. rewrite Hid, bool_decide_eq_true_2 by done. cbn [mbind option_bind].
    rewrite Hc. cbn [mbind option_bind]. rewrite Hid. split; [done|]. split; [done|]. split; [done|]. cbn. rewrite Hc, Hq. done.
  - destruct (turn_run c s cur x q Hi Hr) as (s' & Ht & Hi' & H1 & H2 & H3 & H4); [cbn; by rewrite Hc|]. exists s'. split.
    + unfold yields, turn in *. destruct (yield_moved s c cp Hi Hc Hid) as (s1 & Hy & _ & _ & cp1 & Hc1 & Hid1 & _); [by rewrite Hq|]. rewrite Hy in *. cbn [mbind option_bind] in *.
      unfold resume. rewrite Hc1. cbn [mbind option_bind]. by rewrite Hid1.
    + split; [done|]. split; [done|]. intros y q' E. cbn in E. rewrite Hc, Hq in E. by injection E as <- <-.
Qed.

Lemma split_once {A} (t : A) : ∀ l1 l2 r1 r2, NoDup (l1 ++ t :: r1) → l1 ++ t :: r1 = l2 ++ t :: r2 → l1 = l2 ∧ r1 = r2.
Proof.
  induction l1 as [|x l1 IH]; intros [|y l2] r1 r2 H1 H2; cbn in *; inversion_clear H1 as [|? ? Hx Hn].
  - by injection H2 as ->.
  - injection H2 as -> ->. set_solver.
  - injection H2 as -> <-. set_solver.
  - injection H2 as -> H2. by destruct (IH l2 r1 r2 Hn H2) as [-> ->].
Qed.

(** Migration moves the thread off, or no more are before it than were. *)
Lemma migration_waits c cur q1 t q2 rd s :
  waits c cur q1 t q2 s → reads_own c rd → ∃ s', thread_consider_migration c (rd s) s = Some s' ∧ sched_inv s' ∧ content s' (PRun c) = [cur] ∧
    (moved_off c t s' ∨ ∃ q1' q2', (length q1' ≤ length q1)%nat ∧ waits c cur q1' t q2' s').
Proof.
  intros [Hi Hr Hv Hq] Hrd. pose proof Hr as Hr0. cbn in Hr0. destruct (cpus s !! c) as [cp|] eqn:Hc; [|done]. destruct (c_isidle cp) eqn:Hid; [done|].
  destruct (Hrd s cp Hc) as (n & Hn & Hnr).
  destruct (migration_order c (rd s) s cp n Hi Hc Hid) as (s' & a & gone & b & Hrun & Hi' & Hr' & Hv' & Hq0 & Hq' & Hg); [cbn in Hv; by rewrite Hc in Hv|done|done|].
  rewrite Hr in Hr'. exists s'. split; [done|]. split; [done|]. split; [done|]. rewrite Hq in Hq0. assert (Hnd : NoDup (q1 ++ t :: q2)) by (rewrite <- Hq; apply Hi).
  assert (Hin : t ∈ a ++ gone ++ b) by (rewrite <- Hq0; set_solver). apply elem_of_app in Hin as [Hin|[Hin|Hin]%elem_of_app]; [right|left; by apply Hg|right].
  - apply list_elem_of_split in Hin as (a1 & a2 & ->). rewrite <- app_assoc in Hq0. destruct (split_once t _ _ _ _ Hnd Hq0) as [<- _].
    exists q1, (a2 ++ b). split; [done|]. split; [done|done|done|]. by rewrite Hq', <- app_assoc.
  - apply list_elem_of_split in Hin as (b1 & b2 & ->). rewrite !app_assoc in Hq0. destruct (split_once t _ _ _ _ Hnd Hq0) as [-> _].
    exists (a ++ b1), b2. split; [rewrite !length_app; lia|]. split; [done|done|done|]. by rewrite Hq', <- app_assoc.
Qed.

(** One interrupt: the thread runs, or is moved off, or one less is before it. *)
Lemma clock_turn_waits c cur q1 t q2 rd k s :
  waits c cur q1 t q2 s → reads_own c rd → ∃ s', clock_turn c rd k s = Some (u32 (k + 1), s') ∧ sched_inv s' ∧
    (content s' (PRun c) = [t] ∨ moved_off c t s' ∨ ∃ cur' q1' q2', (length q1' < length q1)%nat ∧ waits c cur' q1' t q2' s').
Proof.
  intros W Hrd. rewrite clock_turn_eq.
  assert (H1 : ∃ s1, (if (k + 1) mod 16 =? 0 then thread_consider_migration c (rd s) s else Some s) = Some s1 ∧ sched_inv s1 ∧ content s1 (PRun c) = [cur] ∧
    (moved_off c t s1 ∨ ∃ q1' q2', (length q1' ≤ length q1)%nat ∧ waits c cur q1' t q2' s1)).
  { destruct (_ =? 0); [by apply (migration_waits c cur q1 t q2)|]. exists s. split; [done|]. split; [apply W|]. split; [apply W|]. right. by exists q1, q2. }
  destruct H1 as (s1 & -> & Hi1 & Hr1 & Hcase). cbn [mbind option_bind]. destruct (yields_run c cur s1 Hi1 Hr1) as (s' & -> & Hi' & Hoth & Hnext). cbn [mbind option_bind].
  exists s'. split; [done|]. split; [done|]. destruct Hcase as [(e & He & Hin)|(q1' & q2' & Hle & [_ _ Hv Hq])]; [right; left; exists e; by rewrite Hoth|].
  destruct q1' as [|x q1']; [left; by apply (Hnext t q2')|]. right; right. destruct (Hnext x _ Hq) as (Hr' & Hq' & Hv'). cbn in Hle.
  exists x, q1', (q2' ++ [cur]). split; [lia|]. split; [done|done|congruence|]. by rewrite Hq', <- app_assoc.
Qed.

Lemma clock_turns_waits c rd t : reads_own c rd → ∀ n q1 cur q2 k s, (length q1 ≤ n)%nat → waits c cur q1 t q2 s →
  ∃ m k' s', (m ≤ S n)%nat ∧ clock_turns m c rd k s = Some (k', s') ∧ sched_inv s' ∧ (content s' (PRun c) = [t] ∨ moved_off c t s').
Proof.
  intros Hrd. induction n as [|n IH]; intros q1 cur q2 k s Hl W;
    destruct (clock_turn_waits c cur q1 t q2 rd k s W Hrd) as (s1 & Hrun & Hi1 & [Hr|[Hm|(cur' & q1' & q2' & Hlt & W')]]).
  1, 2, 4, 5: exists 1%nat, (u32 (k + 1)), s1; cbn [clock_turns]; rewrite Hrun; (split; [lia|]); auto.
  - lia.
  - destruct (IH q1' cur' q2' (u32 (k + 1)) s1 ltac:(lia) W') as (m & k' & s' & Hm & Hrun' & H). exists (S m), k', s'. cbn [clock_turns]. rewrite Hrun. cbn [mbind option_bind]. split; [lia|done].
Qed.

(** Without a migration the queue goes around. *)
Lemma clock_turns_around c rd t : ∀ q1 cur q2 k s, waits c cur q1 t q2 s → (∀ i, 0 < i ≤ zlen q1 + 1 → (k + i) mod 16 ≠ 0) →
  ∃ k' s', clock_turns (S (length q1)) c rd k s = Some (k', s') ∧ content s' (PRun c) = [t] ∧ content s' (PReady c) = q2 ++ cur :: q1.
Proof.
  induction q1 as [|x q1 IH]; intros cur q2 k s [Hi Hr Hv Hq] Hk; cbn [length clock_turns];
    rewrite clock_turn_eq, (proj2 (Z.eqb_neq _ _) (Hk 1 ltac:(cbn; lia))); cbn [mbind option_bind];
    destruct (yields_run c cur s Hi Hr) as (s1 & Hy & Hi1 & _ & Hnext); rewrite Hy; cbn [mbind option_bind].
  - destruct (Hnext t q2 Hq) as (H1 & H2 & _). by exists (u32 (k + 1)), s1.
  - destruct (Hnext x _ Hq) as (H1 & H2 & H3). rewrite <- app_assoc in H2.
    destruct (IH x (q2 ++ [cur]) (u32 (k + 1)) s1) as (k' & s' & Hrun & Hr' & Hq'); [by split; [| |congruence|]| |].
    + intros i Hi0. specialize (Hk (i + 1) ltac:(cbn [length] in *; lia)). unfold wrap. rewrite <- (Z.mod_mod_divide (_ + i) (2 ^ 32) 16), Zplus_mod_idemp_l, Z.mod_mod_divide by (by exists (2 ^ 28)).
      by replace (k + 1 + i) with (k + (i + 1)) by lia.
    + exists k', s'. split; [exact Hrun|]. split; [done|]. by rewrite Hq', <- app_assoc.
Qed.

(** C24: round robin.  A thread that is in the run queue of a processor behind [n] others runs within [n + 1] timer
    interrupts there, or was moved by then to the run queue of another processor, which only [thread_consider_migration],
    on every sixteenth interrupt, does; whatever lengths it reads for the other processors.  With no migration in these
    interrupts it runs after exactly [n + 1], and the threads that ran before it are queued behind in their order.
    Between the interrupts no other processor touches the queue. *)
Theorem ready_thread_runs c rd k s cur q1 t q2 :
  sched_reach s → reads_own c rd → content s (PRun c) = [cur] → content s (PVictim c) = [] → content s (PReady c) = q1 ++ t :: q2 →
  (∃ m k' s', (m ≤ S (length q1))%nat ∧ clock_turns m c rd k s = Some (k', s') ∧ sched_inv s' ∧ (content s' (PRun c) = [t] ∨ moved_off c t s')) ∧
  ((∀ i, 0 < i ≤ zlen q1 + 1 → (k + i) mod 16 ≠ 0) →
   ∃ k' s', clock_turns (S (length q1)) c rd k s = Some (k', s') ∧ content s' (PRun c) = [t] ∧ content s' (PReady c) = q2 ++ cur :: q1).
Proof.
  intros Hi%sched_reach_inv Hrd Hr Hv Hq. assert (W : waits c cur q1 t q2 s) by (by split). split.
  - by apply (clock_turns_waits c rd t Hrd (length q1) q1 cur q2).
  - by apply clock_turns_around.
Qed.

Definition run_counts (s : tsys) : list Z := (λ cp, zlen (c_runqueue cp)) <$> cpus s.

Lemma run_counts_own c : reads_own c run_counts.
Proof. intros s cp Hc. exists (zlen (c_runqueue cp)). unfold run_counts. rewrite list_lookup_fmap, Hc. split; [done|lia]. Qed.

(** Two more threads on one processor, another without: the second runs at the second interrupt, and when the first interrupt
    is one of migration it is moved. *)
Lemma ready_thread_runs_witness :
  ∃ s k' s', sched_dos [OpCpuCreate 1 0; OpCpuCreate 2 0; OpFork 0 3 None; OpFork 0 4 None] no_threads = Some s ∧
    clock_turns 2 0 run_counts 0 s = Some (k', s') ∧ content s' (PRun 0) = [4] ∧
    ∃ m k2 s2, (m ≤ 2)%nat ∧ clock_turns m 0 run_counts 15 s = Some (k2, s2) ∧ (content s2 (PRun 0) = [4] ∨ moved_off 0 4 s2).
Proof.
  assert (Hr : sched_reach (TSys [Cpu 1 false [3; 4] [] 0 []; Cpu 2 false [] [] 0 []]
    (<[4 := Thread S_READY 0 (Some 0)]> (<[3 := Thread S_READY 0 (Some 0)]>
      (<[2 := Thread S_READY 1 (Some 0)]> (<[1 := Thread S_READY 0 (Some 0)]> ∅)))) ∅)).
  { eapply (sr_step (OpFork 0 4 None)).
    { eapply (sr_step (OpFork 0 3 None)).
      { eapply (sr_step (OpCpuCreate 2 0)).
        { eapply (sr_step (OpCpuCreate 1 0)); [apply sr_start|reflexivity|reflexivity]. }
        { reflexivity. }
        { reflexivity. } }
      { split; [eexists; split; reflexivity|reflexivity]. }
      { reflexivity. } }
    { split; [eexists; split; reflexivity|reflexivity]. }
    { vm_compute. reflexivity. } }
  destruct (ready_thread_runs 0 run_counts 0 _ 1 [3] 4 [] Hr (run_counts_own 0) eq_refl eq_refl eq_refl) as [_ H].
  destruct (ready_thread_runs 0 run_counts 15 _ 1 [3] 4 [] Hr (run_counts_own 0) eq_refl eq_refl eq_refl) as [(m & k2 & s2 & Hm & H2 & _ & H3) _].
  destruct H as (k' & s' & Hrun & Hc & _).
  { intros i Hi. assert (i = 1 ∨ i = 2) as [-> | ->] by (cbn in Hi; lia); vm_compute; discriminate. }
  eexists. exists k', s'. split; [vm_compute; reflexivity|]. split; [exact Hrun|]. split; [exact Hc|]. exists m, k2, s2. exact (conj Hm (conj H2 H3)).
Defined.

Definition sleeper_ok (x : sleeper) : Prop := match x with Asleep n | Woken n => 0 < n | Returned => True end.
(** Ticks that are still needed. *)
Definition ticks_left (x : sleeper) : Z := match x with Asleep n => n | Woken n => n - 1 | Returned => 0 end.

Lemma sleeper_step_ok x e :
  sleeper_ok x → sleeper_ok (sleeper_step x e) ∧ ticks_left x - (match e with Tick => 1 | Run => 0 end) ≤ ticks_left (sleeper_step x e) ≤ ticks_left x.
Proof.
  destruct x as [n|n|], e; cbn; unfold clocksleep; try lia.
  intros Hn. destruct (Z.ltb_spec 0 (n - 1)); cbn; lia.
Qed.

(** Sleeping: a thread that has called [clocksleep(n)] does not return before [n] ticks of the clock have come, whenever it gets to run; and if it
    runs once after each tick it returns after the n-th. *)
Theorem clocksleep_counts n es :
  (fold_left sleeper_step es (clocksleep n) = Returned → n ≤ ticks es) ∧
  (0 ≤ n → fold_left sleeper_step (concat (replicate (Z.to_nat n) [Tick; Run])) (clocksleep n) = Returned).
Proof.
  split.
  - assert (Hgen : ∀ es x, sleeper_ok x → ticks_left x - ticks es ≤ ticks_left (fold_left sleeper_step es x)).
    { clear es. induction es as [|e es IH]; intros x Hx; [cbn; lia|]. cbn [fold_left].
      destruct (sleeper_step_ok x e Hx) as [Hx' Ht]. specialize (IH _ Hx'). destruct e; cbn [ticks]; lia. }
    assert (Hpos : 0 ≤ ticks es) by (clear; induction es as [|[] es IH]; cbn [ticks]; lia).
    intros Hr. specialize (Hgen es (clocksleep n)). rewrite Hr in Hgen. cbn [ticks_left] in Hgen. unfold clocksleep in Hgen.
    destruct (Z.ltb_spec 0 n) as [Hp|Hp]; cbn in Hgen; [specialize (Hgen Hp)|]; lia.
  - intros Hn. rewrite <- (Z2Nat.id n) at 2 by done. generalize (Z.to_nat n) as k. clear Hn. induction k as [|k IH]; [done|].
    cbn [replicate concat app fold_left]. unfold clocksleep at 1. rewrite (proj2 (Z.ltb_lt 0 (Z.of_nat (S k)))) by lia. cbn [sleeper_step].
    by replace (Z.of_nat (S k) - 1) with (Z.of_nat k) by lia.
Qed.

(** The time of day: if the three reads take less than five milliseconds, the result is the exact time of the second read, also when the second turns over between them. *)
Theorem gettime_exact t1 t2 t3 :
  0 ≤ t1 ≤ t2 → t2 ≤ t3 → t3 - t1 < 5000000 →
  let '(sec, nsec) := ltimer_gettime (t1 / 10 ^ 9) (t2 mod 10 ^ 9) (t3 / 10 ^ 9) in sec * 10 ^ 9 + nsec = t2 ∧ 0 ≤ nsec < 10 ^ 9.
Proof.
  intros H1 H2 H3. unfold ltimer_gettime. change (10 ^ 9) with 1000000000.
  pose proof (Z.div_mod t1 1000000000) as D1. pose proof (Z.div_mod t2 1000000000) as D2. pose proof (Z.div_mod t3 1000000000) as D3.
  pose proof (Z.mod_pos_bound t1 1000000000). pose proof (Z.mod_pos_bound t2 1000000000). pose proof (Z.mod_pos_bound t3 1000000000).
  destruct (Z.ltb_spec (t2 mod 1000000000) 5000000); lia.
Qed.
