(* ===== verification/Devs.v ===== *)
(** * Small devices: kern/vfs/devnull.c, kern/dev/generic/random.c and beep.c, kern/dev/lamebus/lrandom.c and ltrace.c

    The null device, the source of random numbers with its device register, the beeper and the
    trace control.  The device register of random numbers is a function of how often it was
    read.  A generic device that is not there is [None]; [None] as a result is a panic.  A word is stored big-endian. *)

From Stdlib Require Import ZArith Lia.
From stdpp Require Import base list list_numbers option.
From S2P Require Import Prelude Types Strings Uio Sfs SfsNode Syscall.
Set Default Goal Selector "!".
Open Scope Z_scope.

Definition EIOCTL : Z := 31.

(** ** null: *)

Definition nullopen (openflags : Z) : Z := 0.
Definition nullio (u : uio) : Z * uio := (0, match uio_rw u with UIO_WRITE => set_resid 0 u | UIO_READ => u end).
Definition nullioctl (op : Z) : Z := EINVAL.

(** ** Random numbers *)

Definition LR_RANDMAX : Z := 0xffffffff.

(** The result, with the number of words read so far. *)
Fixpoint lrandom_read (fuel : nat) (rand : nat → Z) (k : nat) (u : uio) (m : mem) : option (Z * nat * uio * mem) :=
  if 0 <? uio_resid u then
    match fuel with
    | O => None
    | S fuel' =>
        '(_, u', m') ← uiomove (be_bytes 4 (rand k)) 0 4 u m;
        lrandom_read fuel' rand (S k) u' m'
    end
  else Some (0, k, u, m).

Definition randeachopen (openflags : Z) : Z := if negb (openflags =? O_RDONLY) then EIO else 0.
Definition randio (fuel : nat) (rand : nat → Z) (k : nat) (u : uio) (m : mem) : option (Z * nat * uio * mem) :=
  match uio_rw u with
  | UIO_WRITE => Some (EIO, k, u, m)
  | UIO_READ => lrandom_read fuel rand k u m
  end.
Definition randioctl (op : Z) : Z := EIOCTL.

(** 25 is [ENODEV].  [adddev] is the result of [vfs_adddev]; the structure [rs] becomes the source of random numbers. *)
Definition config_random (the_random : option Z) (rs unit adddev : Z) : option (Z * option Z) :=
  if negb (unit =? 0) then Some (25, the_random)
  else match the_random with Some _ => None | None => Some (adddev, Some rs) end.

Definition random (the_random : option Z) (rand : nat → Z) (k : nat) : option Z := match the_random with None => None | Some _ => Some (rand k) end.
Definition randmax (the_random : option Z) : option Z := match the_random with None => None | Some _ => Some LR_RANDMAX end.

(** ** The beeper and the trace control: what is stored in the device, if anything *)

Definition config_beep (the_beep : option Z) (bs unit : Z) : option (Z * option Z) :=
  if negb (unit =? 0) then Some (25, the_beep)
  else match the_beep with Some _ => None | None => Some (0, Some bs) end.
Definition beep (the_beep : option Z) : option Z := (λ _, 440) <$> the_beep.

Record ltrace_softc := LtraceSoftc { lt_canstop : bool; lt_canprof : bool }.
Definition attach_ltrace (drl : Z) : ltrace_softc := LtraceSoftc (2 <=? drl) (3 <=? drl).

Definition ltrace_stop (the_trace : option ltrace_softc) (code : Z) : option (Z * Z) :=
  match the_trace with Some lt => if lt_canstop lt then Some (16, code) else None | None => None end.
Definition ltrace_setprof (the_trace : option ltrace_softc) (onoff : Z) : option (Z * Z) :=
  match the_trace with Some lt => if lt_canprof lt then Some (20, onoff) else None | None => None end.
Definition ltrace_eraseprof (the_trace : option ltrace_softc) : option (Z * Z) :=
  match the_trace with Some lt => if lt_canprof lt then Some (24, 1) else None | None => None end.

(** ** Theorems *)

(** The last piece of a request: [uiomove] stops at the end of the region. *)
Lemma uiomove_rest buf pos n u base m :
  region u base (uio_resid u) → 0 < uio_resid u ≤ n → uiomove buf pos n u m = uiomove buf pos (uio_resid u) u m.
Proof.
  intros Hr Hn. rewrite (uiomove_one buf pos (uio_resid u) u base (uio_resid u) m Hr) by lia. destruct Hr as [H1 H2 H3 H4 H5].
  unfold uiomove, advanced. rewrite H1. cbn [uiomove_loop]. rewrite (proj2 (Z.ltb_lt 0 n)), (proj2 (Z.ltb_lt 0 (uio_resid u))) by lia. cbn [andb negb].
  assert (Hs : (if n <? uio_resid u then n else uio_resid u) = uio_resid u) by (destruct (Z.ltb_spec n (uio_resid u)); lia).
  rewrite Hs, (proj2 (Z.eqb_neq (uio_resid u) 0)), Z.sub_diag by lia. rewrite (wrap_small 32 0) by lia. cbn [Z.ltb Z.compare]. rewrite andb_false_r. cbn [negb].
  rewrite (wrap_small 32 (base + uio_resid u)), (swrap_small 64) by lia. done.
Qed.

Lemma be_bytes_length n x : length (be_bytes n x) = n.
Proof. induction n as [|n IH]; [done|]. cbn. by rewrite IH. Qed.

(** Byte [i] of the words from [k] on. *)
Definition rand_byte (rand : nat → Z) (k : nat) (i : Z) : Z := default 0 (arr_get (be_bytes 4 (rand (k + Z.to_nat (i / 4))%nat)) (i mod 4)).

(** Reading random numbers: a read returns and fills the whole request, byte for byte with the words of the device, of which it takes as many as it needs; nothing else changes.
    A write is refused. *)
Theorem random_read_fills rand k u m base :
  region u base (uio_resid u) →
  (uio_rw u = UIO_WRITE → randio (Z.to_nat (uio_resid u)) rand k u m = Some (EIO, k, u, m)) ∧
  (uio_rw u = UIO_READ →
   ∃ m', randio (Z.to_nat (uio_resid u)) rand k u m = Some (0, (k + Z.to_nat ((uio_resid u + 3) / 4))%nat, advanced u (uio_resid u), m') ∧
     ∀ a, m' a = if decide (base ≤ a < base + uio_resid u) then rand_byte rand k (a - base) else m a).
Proof.
  intros Hr. unfold randio. split; intros Hrw; rewrite Hrw; [done|].
  assert (Hgen : ∀ fuel k u base m, region u base (uio_resid u) → uio_rw u = UIO_READ → (Z.to_nat (uio_resid u) ≤ fuel)%nat →
    ∃ m', lrandom_read fuel rand k u m = Some (0, (k + Z.to_nat ((uio_resid u + 3) / 4))%nat, advanced u (uio_resid u), m') ∧
     ∀ a, m' a = if decide (base ≤ a < base + uio_resid u) then rand_byte rand k (a - base) else m a).
  2:{ by apply Hgen. }
  clear. induction fuel as [|fuel IH]; intros k u base m Hr Hrw Hf; pose proof (rg_resid _ _ _ Hr) as Hre; cbn [lrandom_read];
    (destruct (Z.ltb_spec 0 (uio_resid u)) as [Hpos|Hle]; [|assert (uio_resid u = 0) as -> by lia; exists m; change ((0 + 3) / 4) with 0; rewrite Nat.add_0_r, advanced_0;
       split; [done|]; intros a; by rewrite decide_False by lia]); [lia|].
  set (n := Z.min 4 (uio_resid u)).
  assert (Hmv : uiomove (be_bytes 4 (rand k)) 0 4 u m = Some (be_bytes 4 (rand k), advanced u n, put_bytes m base (take (Z.to_nat n) (be_bytes 4 (rand k))))).
  { destruct (decide (uio_resid u < 4)) as [Hs|Hs].
    - rewrite (uiomove_rest _ _ _ u base) by (done || lia). rewrite (uiomove_one _ _ _ u base (uio_resid u)) by (done || lia). rewrite Hrw, drop_0. by replace n with (uio_resid u) by lia.
    - rewrite (uiomove_one _ _ _ u base (uio_resid u)) by (done || lia). rewrite Hrw, drop_0. by replace n with 4 by lia. }
  rewrite Hmv. cbn [mbind option_bind].
  assert (Hr' : region (advanced u n) (base + n) (uio_resid (advanced u n))) by (apply (advanced_region u base (uio_resid u) n Hr); lia).
  destruct (IH (S k) (advanced u n) (base + n) (put_bytes m base (take (Z.to_nat n) (be_bytes 4 (rand k)))) Hr' Hrw) as (m' & Hrun & Hm); [cbn; lia|].
  exists m'. rewrite Hrun. cbn [uio_resid advanced]. rewrite advanced_advanced. split.
  - replace (n + (uio_resid u - n)) with (uio_resid u) by lia.
    assert (Hk : Z.to_nat ((uio_resid u + 3) / 4) = S (Z.to_nat ((uio_resid u - n + 3) / 4))).
    { destruct (decide (uio_resid u < 4)) as [Hs|Hs].
      - replace n with (uio_resid u) by lia. rewrite Z.sub_diag. change (Z.to_nat ((0 + 3) / 4)) with O.
        assert ((uio_resid u + 3) / 4 = 1) as -> by (symmetry; apply (Z.div_unique _ 4 1 (uio_resid u - 1)); lia). done.
      - replace n with 4 by lia. replace (uio_resid u + 3) with (uio_resid u - 4 + 3 + 1 * 4) by lia. rewrite Z.div_add by lia.
        pose proof (Z.div_pos (uio_resid u - 4 + 3) 4). lia. }
    rewrite Hk. by rewrite Nat.add_succ_r.
  - intros a. rewrite Hm. cbn [uio_resid advanced]. rewrite put_bytes_at, length_take, be_bytes_length.
    destruct (decide (base + n ≤ a < base + n + (uio_resid u - n))) as [Hin|Hout].
    + rewrite decide_True by lia. unfold rand_byte. assert (n = 4) as -> by lia.
      replace (a - base) with (a - (base + 4) + 1 * 4) by lia. rewrite Z.div_add, Z.mod_add by lia.
      pose proof (Z.div_pos (a - (base + 4)) 4). by replace (k + Z.to_nat ((a - (base + 4)) / 4 + 1))%nat with (S k + Z.to_nat ((a - (base + 4)) / 4))%nat by lia.
    + destruct (decide (base ≤ a < base + uio_resid u)) as [Hin|Hno].
      * rewrite decide_True by lia. unfold rand_byte. rewrite Z.div_small, Z.mod_small by lia. change (Z.to_nat 0) with O. rewrite Nat.add_0_r.
        rewrite !arr_get_nonneg by lia. by rewrite lookup_take_lt by lia.
      * by rewrite decide_False by lia.
Qed.
