(* ===== verification/Lhd.v ===== *)
(** * The disk driver under concurrency: kern/dev/lamebus/lhd.c

    Threads in [lhd_io] share one device with one buffer, and an interrupt handler reports
    the end of an operation.  Two semaphores order them: [lh_clear] admits one thread, [lh_done] is
    for its wait.  Sfs.v has [lhd_io] as one thread runs it, with a transfer of one sector as a single action;
    here the single actions are taken apart into steps that interleave with those of other
    threads, the device and the handler, and the theorem says that they are single actions.

    A semaphore is its count: P waits for it to be positive (Synch.v shows that this is what P and V do).  A thread has
    a list of sectors to transfer, as the loop of [lhd_io] goes through them; an error ends the loop.  What the
    device does with a sector is a parameter; its result codes are those of the source.  P on [lh_done] and the reading of [lh_result], which
    the handler writes only before its V, are one step; buffers are in kernel memory, where [uiomove] does not fail. *)

From Stdlib Require Import ZArith Lia.
From stdpp Require Import base list option.
From S2P Require Import Prelude Types Sfs.
Set Default Goal Selector "!".
Open Scope Z_scope.

Definition LHD_IDLE : Z := 0.
Definition LHD_WORKING : Z := 1.
Definition LHD_OK : Z := 4.
Definition LHD_INVSECT : Z := 12.
Definition LHD_MEDIA : Z := 20.
Definition LHD_ISWRITE : Z := 2.
Definition LHD_STATEMASK : Z := 0x1d.

(** 4 is [EAGAIN]. *)
Definition lhd_code_to_errno (code : Z) : Z :=
  let st := Z.land code LHD_STATEMASK in
  if st =? LHD_OK then 0 else if st =? LHD_INVSECT then EINVAL else if st =? LHD_MEDIA then EIO else 4.

(** A sector to read, or to write with these bytes. *)
Inductive lreq := LRead (sector : Z) | LWrite (sector : Z) (data : list Z).

Definition req_sector (r : lreq) : Z := match r with LRead n | LWrite n _ => n end.
Definition is_write (r : lreq) : bool := match r with LRead _ => false | LWrite _ _ => true end.

(** Where a thread is in a round of the loop. *)
Inductive lpc := AtClear | AtFill | AtSect | AtStat | AtDone | AtOut (result : Z) | AtRelease (result : Z) (data : list Z).

(** What was done so far, with results; what is to do; where it is. *)
Record lthread := LThread { lt_past : list (lreq * Z * list Z); lt_todo : list lreq; lt_pc : lpc }.

Record lsys (D : Type) := LSys {
  l_threads : list lthread;
  lh_clear : Z;
  lh_done : Z;
  lh_result : Z;
  lh_buf : list Z;
  l_sect : Z;
  l_stat : Z;
  l_dev : D;
}.
Arguments LSys {D} _ _ _ _ _ _ _ _.
Arguments l_threads {D} _.
Arguments lh_clear {D} _.
Arguments lh_done {D} _.
Arguments lh_result {D} _.
Arguments lh_buf {D} _.
Arguments l_sect {D} _.
Arguments l_stat {D} _.
Arguments l_dev {D} _.

Section lhd.
Context {D : Type}.
(** The device: the new state, the result code and for a read the buffer. *)
Context (dev_read : D → Z → D * Z * list Z) (dev_write : D → Z → list Z → D * Z).
Implicit Types (s : lsys D) (th : lthread).

Definition set_thread (i : nat) th s : lsys D :=
  LSys (<[i := th]> (l_threads s)) (lh_clear s) (lh_done s) (lh_result s) (lh_buf s) (l_sect s) (l_stat s) (l_dev s).
Definition go (pc : lpc) th : lthread := LThread (lt_past th) (lt_todo th) pc.

(** A step of thread [i]; [None]: it has to wait, or has nothing to do. *)
Definition lhd_step (i : nat) s : option (lsys D) :=
  th ← l_threads s !! i;
  r ← head (lt_todo th);
  match lt_pc th with
  | AtClear =>
      if 0 <? lh_clear s then
        Some (set_thread i (go AtFill th) (LSys (l_threads s) (lh_clear s - 1) (lh_done s) (lh_result s) (lh_buf s) (l_sect s) (l_stat s) (l_dev s)))
      else None
  | AtFill =>
      let buf := match r with LWrite _ data => data | LRead _ => lh_buf s end in
      Some (set_thread i (go AtSect th) (LSys (l_threads s) (lh_clear s) (lh_done s) (lh_result s) buf (l_sect s) (l_stat s) (l_dev s)))
  | AtSect =>
      Some (set_thread i (go AtStat th) (LSys (l_threads s) (lh_clear s) (lh_done s) (lh_result s) (lh_buf s) (req_sector r) (l_stat s) (l_dev s)))
  | AtStat =>
      let statval := if is_write r then Z.lor LHD_WORKING LHD_ISWRITE else LHD_WORKING in
      Some (set_thread i (go AtDone th) (LSys (l_threads s) (lh_clear s) (lh_done s) (lh_result s) (lh_buf s) (l_sect s) statval (l_dev s)))
  | AtDone =>
      if 0 <? lh_done s then
        Some (set_thread i (go (AtOut (lh_result s)) th)
          (LSys (l_threads s) (lh_clear s) (lh_done s - 1) (lh_result s) (lh_buf s) (l_sect s) (l_stat s) (l_dev s)))
      else None
  | AtOut result =>
      Some (set_thread i (go (AtRelease result (if (result =? 0) && negb (is_write r) then lh_buf s else [])) th) s)
  | AtRelease result data =>
      Some (set_thread i (LThread (lt_past th ++ [(r, result, data)]) (if result =? 0 then tail (lt_todo th) else []) AtClear)
        (LSys (l_threads s) (lh_clear s + 1) (lh_done s) (lh_result s) (lh_buf s) (l_sect s) (l_stat s) (l_dev s)))
  end.

(** The device finishes an operation. *)
Definition dev_step s : option (lsys D) :=
  if Z.land (l_stat s) LHD_STATEMASK =? LHD_WORKING then
    if Z.land (l_stat s) LHD_ISWRITE =? 0 then
      let '(d, code, buf) := dev_read (l_dev s) (l_sect s) in
      Some (LSys (l_threads s) (lh_clear s) (lh_done s) (lh_result s) buf (l_sect s) code d)
    else
      let '(d, code) := dev_write (l_dev s) (l_sect s) (lh_buf s) in
      Some (LSys (l_threads s) (lh_clear s) (lh_done s) (lh_result s) (lh_buf s) (l_sect s) (Z.lor code LHD_ISWRITE) d)
  else None.

(** The interrupt handler, at any time. *)
Definition lhd_irq s : lsys D :=
  let val := l_stat s in
  let st := Z.land val LHD_STATEMASK in
  if (st =? LHD_OK) || (st =? LHD_INVSECT) || (st =? LHD_MEDIA)
  then LSys (l_threads s) (lh_clear s) (lh_done s + 1) (lhd_code_to_errno val) (lh_buf s) (l_sect s) 0 (l_dev s)
  else s.

(** [config_lhd] creates the semaphores with the counts 1 and 0. *)
Definition lhd_start (progs : list (list lreq)) (buf : list Z) (d : D) : lsys D :=
  LSys ((λ reqs, LThread [] reqs AtClear) <$> progs) 1 0 0 buf 0 LHD_IDLE d.

Inductive lstep : lsys D → lsys D → Prop :=
  | ls_thread i s s' : lhd_step i s = Some s' → lstep s s'
  | ls_device s s' : dev_step s = Some s' → lstep s s'
  | ls_irq s : lstep s (lhd_irq s).

(** ** One request as a single action *)

(** What [hw_read] and [hw_write] of Sfs.v are for this device. *)
Definition sector_read (d : D) (sector : Z) : D * (Z + list Z) :=
  let '(d', code, buf) := dev_read d sector in
  (d', if lhd_code_to_errno code =? 0 then inr buf else inl (lhd_code_to_errno code)).
Definition sector_write (d : D) (sector : Z) (data : list Z) : D * Z :=
  let '(d', code) := dev_write d sector data in (d', lhd_code_to_errno code).

(** The new state of the device, the result, and the bytes that were read. *)
Definition do_req (d : D) (r : lreq) : D * Z * list Z :=
  match r with
  | LRead n => let '(d', x) := sector_read d n in match x with inl e => (d', e, []) | inr buf => (d', 0, buf) end
  | LWrite n data => let '(d', e) := sector_write d n data in (d', e, [])
  end.

(** Requests of threads, one after the other. *)
Inductive serial (d0 : D) : list (nat * (lreq * Z * list Z)) → D → Prop :=
  | se_nil : serial d0 [] d0
  | se_snoc l d i r d' e out : serial d0 l d → do_req d r = (d', e, out) → serial d0 (l ++ [(i, (r, e, out))]) d'.

Definition of_thread (i : nat) (l : list (nat * (lreq * Z * list Z))) : list (lreq * Z * list Z) := (filter (λ x, x.1 = i) l).*2.

Lemma of_thread_snoc i l j y : of_thread i (l ++ [(j, y)]) = of_thread i l ++ (if decide (j = i) then [y] else []).
Proof. unfold of_thread. rewrite list.filter_app, fmap_app. f_equal. rewrite filter_cons, filter_nil. cbn. by case_decide. Qed.

(** ** The invariant *)

Definition good_code (code : Z) : Prop := code = LHD_OK ∨ code = LHD_INVSECT ∨ code = LHD_MEDIA.

(** The device answers with one of its codes. *)
Definition dev_ok : Prop := (∀ d n, good_code (dev_read d n).1.2) ∧ (∀ d n data, good_code (dev_write d n data).2).

Definition statval (r : lreq) : Z := if is_write r then Z.lor LHD_WORKING LHD_ISWRITE else LHD_WORKING.
Definition filled (r : lreq) s : Prop := match r with LWrite _ data => lh_buf s = data | LRead _ => True end.
Definition out_of (r : lreq) (e : Z) s : list Z := if (e =? 0) && negb (is_write r) then lh_buf s else [].
Definition idle s : Prop := l_stat s = LHD_IDLE ∧ lh_done s = 0.

(** The thread that was admitted, at request [r]; [x] is the result when the device has done it. *)
Definition owner_ok s (pc : lpc) (r : lreq) (x : option (Z * list Z)) : Prop :=
  match pc with
  | AtClear => False
  | AtFill => x = None ∧ idle s
  | AtSect => x = None ∧ idle s ∧ filled r s
  | AtStat => x = None ∧ idle s ∧ filled r s ∧ l_sect s = req_sector r
  | AtDone =>
      (x = None ∧ l_stat s = statval r ∧ lh_done s = 0 ∧ filled r s ∧ l_sect s = req_sector r) ∨
      (∃ code, good_code code ∧ lh_done s = 0 ∧ l_stat s = (if is_write r then Z.lor code LHD_ISWRITE else code) ∧
         x = Some (lhd_code_to_errno code, out_of r (lhd_code_to_errno code) s)) ∨
      (l_stat s = LHD_IDLE ∧ lh_done s = 1 ∧ x = Some (lh_result s, out_of r (lh_result s) s))
  | AtOut e => idle s ∧ x = Some (e, out_of r e s)
  | AtRelease e data => idle s ∧ x = Some (e, data)
  end.

Abbreviation owner := (option (nat * lreq * option (Z * list Z))).

(** What the owner has done and not yet recorded. *)
Definition extra (own : owner) (i : nat) : list (lreq * Z * list Z) :=
  match own with Some (j, r, Some (e, out)) => if decide (j = i) then [(r, e, out)] else [] | _ => [] end.

Definition others_out s (own : owner) : Prop :=
  ∀ j th, l_threads s !! j = Some th → (∀ r x, own ≠ Some (j, r, x)) → lt_pc th = AtClear.

Definition owned s (own : owner) : Prop :=
  match own with
  | None => lh_clear s = 1 ∧ idle s
  | Some (i, r, x) => lh_clear s = 0 ∧ ∃ th, l_threads s !! i = Some th ∧ head (lt_todo th) = Some r ∧ owner_ok s (lt_pc th) r x
  end.

(** The requests of a thread, in their order, up to an error. *)
Definition progress (reqs : list lreq) th : Prop :=
  ∃ rest, reqs = ((λ y, y.1.1) <$> lt_past th) ++ rest ∧
    (lt_todo th = rest ∧ Forall (λ y, y.1.2 = 0) (lt_past th) ∨
     lt_todo th = [] ∧ ∃ ys y, lt_past th = ys ++ [y] ∧ y.1.2 ≠ 0).

Record linv (progs : list (list lreq)) (d0 : D) s (l : list (nat * (lreq * Z * list Z))) (own : owner) : Prop := {
  li_serial : serial d0 l (l_dev s);
  li_owned : owned s own;
  li_others : others_out s own;
  li_past : ∀ i th, l_threads s !! i = Some th → of_thread i l = lt_past th ++ extra own i;
  li_progs : ∀ i th, l_threads s !! i = Some th → ∃ reqs, progs !! i = Some reqs ∧ progress reqs th;
}.

Lemma owner_is progs d0 s l own i th : linv progs d0 s l own → l_threads s !! i = Some th → lt_pc th ≠ AtClear → ∃ r x, own = Some (i, r, x).
Proof.
  intros Hi Hth Hpc. destruct own as [[[j r] x]|].
  - destruct (decide (j = i)) as [->|Hne]; [by exists r, x|]. destruct Hpc. apply (li_others _ _ _ _ _ Hi i th Hth). intros r' x' [= ? _ _]. done.
  - destruct Hpc. by apply (li_others _ _ _ _ _ Hi i th Hth).
Qed.

(** The owner goes on. *)
Lemma owner_step progs d0 s l i r x th pc s' :
  linv progs d0 s l (Some (i, r, x)) → l_threads s !! i = Some th → l_threads s' = <[i := go pc th]> (l_threads s) →
  l_dev s' = l_dev s → lh_clear s' = lh_clear s → owner_ok s' pc r x → linv progs d0 s' l (Some (i, r, x)).
Proof.
  intros [H1 (Hcl & th0 & Hth0 & Hhd & _) H3 H4 H5] Hth Ht Hd Hc Hok. assert (th0 = th) as -> by congruence.
  assert (Hget : ∀ j th', l_threads s' !! j = Some th' → ∃ th0, l_threads s !! j = Some th0 ∧ lt_past th' = lt_past th0 ∧ lt_todo th' = lt_todo th0).
  { intros j th'. rewrite Ht. destruct (decide (i = j)) as [<-|Hne].
    - rewrite list_lookup_insert_eq by by eapply lookup_lt_Some. intros [= <-]. by exists th.
    - rewrite list_lookup_insert_ne by done. intros Hj. by exists th'. }
  split.
  - by rewrite Hd.
  - split; [by rewrite Hc|]. exists (go pc th). split; [rewrite Ht; apply list_lookup_insert_eq; by eapply lookup_lt_Some|]. by split.
  - intros j th' Hj Hn. destruct (decide (i = j)) as [<-|Hne]; [by destruct (Hn r x)|]. rewrite Ht, list_lookup_insert_ne in Hj by done. by apply (H3 j).
  - intros j th' Hj. destruct (Hget j th' Hj) as (th1 & Hj1 & -> & _). by apply H4.
  - intros j th' Hj. destruct (Hget j th' Hj) as (th1 & Hj1 & Hp & Htd). destruct (H5 j th1 Hj1) as (reqs & Hr & Hpr). exists reqs. split; [done|].
    unfold progress in *. by rewrite Hp, Htd.
Qed.

(** A thread is admitted. *)
Lemma admitted_inv progs d0 s l own i th r :
  linv progs d0 s l own → l_threads s !! i = Some th → head (lt_todo th) = Some r → lt_pc th = AtClear → 0 < lh_clear s →
  linv progs d0 (set_thread i (go AtFill th) (LSys (l_threads s) (lh_clear s - 1) (lh_done s) (lh_result s) (lh_buf s) (l_sect s) (l_stat s) (l_dev s)))
    l (Some (i, r, None)).
Proof.
  intros [H1 H2 H3 H4 H5] Hth Hhd Hpc Hcl. destruct own as [[[j r'] x]|]; [destruct H2 as [? _]; lia|]. destruct H2 as [Hc Hid].
  assert (Hlen : (i < length (l_threads s))%nat) by by eapply lookup_lt_Some. split.
  - done.
  - split; [cbn; lia|]. exists (go AtFill th). split; [cbn; by apply list_lookup_insert_eq|]. split; [done|]. cbn. by split.
  - intros j th' Hj Hn. cbn in Hj. destruct (decide (i = j)) as [<-|Hne]; [by destruct (Hn r None)|]. rewrite list_lookup_insert_ne in Hj by done. by apply (H3 j).
  - intros j th' Hj. cbn in Hj |- *. destruct (decide (i = j)) as [<-|Hne].
    + rewrite list_lookup_insert_eq in Hj by done. injection Hj as <-. exact (H4 i th Hth).
    + rewrite list_lookup_insert_ne in Hj by done. by apply H4.
  - intros j th' Hj. cbn in Hj. destruct (decide (i = j)) as [<-|Hne].
    + rewrite list_lookup_insert_eq in Hj by done. injection Hj as <-. apply (H5 i th Hth).
    + rewrite list_lookup_insert_ne in Hj by done. by apply H5.
Qed.

Lemma progress_step reqs th r e out pc :
  progress reqs th → head (lt_todo th) = Some r →
  progress reqs (LThread (lt_past th ++ [(r, e, out)]) (if e =? 0 then tail (lt_todo th) else []) pc).
Proof.
  intros (rest & -> & [[Htd Hall]|[Htd _]]) Hhd; [|by rewrite Htd in Hhd]. subst rest. destruct (lt_todo th) as [|r' todo]; [done|].
  injection Hhd as ->. exists todo. cbn [lt_past lt_todo tail]. split; [by rewrite fmap_app, <- app_assoc|].
  destruct (Z.eqb_spec e 0) as [->|Hne]; [left|right]; (split; [done|]).
  - apply Forall_app. split; [done|by apply Forall_singleton].
  - by exists (lt_past th), (r, e, out).
Qed.

(** The owner leaves. *)
Lemma released_inv progs d0 s l i th r e data own :
  linv progs d0 s l own → l_threads s !! i = Some th → head (lt_todo th) = Some r → lt_pc th = AtRelease e data →
  linv progs d0 (set_thread i (LThread (lt_past th ++ [(r, e, data)]) (if e =? 0 then tail (lt_todo th) else []) AtClear)
    (LSys (l_threads s) (lh_clear s + 1) (lh_done s) (lh_result s) (lh_buf s) (l_sect s) (l_stat s) (l_dev s))) l None.
Proof.
  intros Hi Hth Hhd Hpc. destruct (owner_is _ _ _ _ _ _ _ Hi Hth ltac:(by rewrite Hpc)) as (r' & x & ->).
  destruct Hi as [H1 (Hc & th' & Hth' & Hhd' & Hok) H3 H4 H5]. assert (th' = th) as -> by congruence. assert (r' = r) as -> by congruence.
  rewrite Hpc in Hok. destruct Hok as [Hid ->]. assert (Hlen : (i < length (l_threads s))%nat) by by eapply lookup_lt_Some. split.
  - done.
  - split; [cbn; lia|done].
  - intros j th' Hj _. cbn in Hj. destruct (decide (i = j)) as [<-|Hne]; [rewrite list_lookup_insert_eq in Hj by done; by injection Hj as <-|].
    rewrite list_lookup_insert_ne in Hj by done. apply (H3 j th' Hj). intros r' x' [= ? _ _]. done.
  - intros j th' Hj. cbn in Hj |- *. rewrite app_nil_r. destruct (decide (i = j)) as [<-|Hne].
    + rewrite list_lookup_insert_eq in Hj by done. injection Hj as <-. rewrite (H4 i th Hth). cbn. by rewrite decide_True.
    + rewrite list_lookup_insert_ne in Hj by done. rewrite (H4 j th' Hj). cbn. rewrite decide_False by done. apply app_nil_r.
  - intros j th' Hj. cbn in Hj. destruct (decide (i = j)) as [<-|Hne].
    + rewrite list_lookup_insert_eq in Hj by done. injection Hj as <-. destruct (H5 i th Hth) as (reqs & Hr & Hp). exists reqs. split; [done|]. by apply progress_step.
    + rewrite list_lookup_insert_ne in Hj by done. by apply H5.
Qed.

Lemma thread_step_inv progs d0 s l own i s' :
  linv progs d0 s l own → lhd_step i s = Some s' → ∃ own', linv progs d0 s' l own'.
Proof.
  intros Hi. unfold lhd_step. destruct (l_threads s !! i) as [th|] eqn:Hth; [|done]. cbn [mbind option_bind].
  destruct (head (lt_todo th)) as [r|] eqn:Hhd; [|done]. cbn [mbind option_bind].
  assert (Hown : lt_pc th ≠ AtClear → ∃ x, own = Some (i, r, x) ∧ owner_ok s (lt_pc th) r x).
  { intros Hpc. destruct (owner_is _ _ _ _ _ _ _ Hi Hth Hpc) as (r' & x & ->). destruct (li_owned _ _ _ _ _ Hi) as (_ & th' & Hth' & Hhd' & Hok).
    assert (th' = th) as -> by congruence. assert (r' = r) as -> by congruence. by exists x. }
  destruct (lt_pc th) as [| | | | |e|e data] eqn:Hpc.
  - destruct (Z.ltb_spec 0 (lh_clear s)); [|done]. intros [= <-]. exists (Some (i, r, None)). by eapply admitted_inv.
  - destruct Hown as (x & -> & -> & Hid); [done|]. intros [= <-]. exists (Some (i, r, None)). eapply owner_step; [done|done|done|done|done|].
    split; [done|]. split; [done|]. by destruct r.
  - destruct Hown as (x & -> & -> & Hid & Hf); [done|]. intros [= <-]. exists (Some (i, r, None)). eapply owner_step; [done|done|done|done|done|]. by destruct r.
  - destruct Hown as (x & -> & -> & [Hs Hd] & Hf & Hse); [done|]. intros [= <-]. exists (Some (i, r, None)). eapply owner_step; [done|done|done|done|done|].
    left. by split_and!.
  - destruct Hown as (x & -> & Hok); [done|]. destruct (Z.ltb_spec 0 (lh_done s)) as [Hp|]; [|done]. intros [= <-].
    destruct Hok as [(_ & _ & ? & _)|[(? & _ & ? & _)|(Hs & Hd & ->)]]; [lia|lia|]. eexists. eapply owner_step; [done|done|done|done|done|].
    split; [|by destruct r]. split; [done|]. cbn. lia.
  - destruct Hown as (x & -> & Hid & ->); [done|]. intros [= <-]. eexists. eapply owner_step; [done|done|done|done|done|]. by split.
  - intros [= <-]. exists None. by eapply released_inv.
Qed.

Lemma code_bits code :
  good_code code → lhd_code_to_errno (Z.lor code LHD_ISWRITE) = lhd_code_to_errno code ∧
  Z.land (Z.lor code LHD_ISWRITE) LHD_STATEMASK = code ∧ Z.land code LHD_STATEMASK = code ∧ code ≠ LHD_WORKING.
Proof. by intros [->|[->| ->]]. Qed.

(** The status of the device when it has finished. *)
Lemma done_stat code r : good_code code → Z.land (if is_write r then Z.lor code LHD_ISWRITE else code) LHD_STATEMASK = code.
Proof. intros Hg. destruct (code_bits code Hg) as (_ & ? & ? & _). by destruct (is_write r). Qed.

Lemma dev_step_inv progs d0 s l own s' :
  dev_ok → linv progs d0 s l own → dev_step s = Some s' → ∃ e own', linv progs d0 s' (l ++ [e]) own'.
Proof.
  intros [Hgr Hgw] Hi. unfold dev_step. destruct (Z.eqb_spec (Z.land (l_stat s) LHD_STATEMASK) LHD_WORKING) as [Hw|]; [|done].
  destruct own as [[[i r] x]|].
  2:{ destruct (li_owned _ _ _ _ _ Hi) as [_ [Hst _]]. by rewrite Hst in Hw. }
  destruct (li_owned _ _ _ _ _ Hi) as (Hcl & th & Hth & Hhd & Hok).
  assert (Hrun : lt_pc th = AtDone ∧ x = None ∧ l_stat s = statval r ∧ lh_done s = 0 ∧ filled r s ∧ l_sect s = req_sector r).
  { destruct (lt_pc th) as [| | | | |e|e data]; cbn in Hok; try done.
    - destruct Hok as (_ & Hst & _). by rewrite Hst in Hw.
    - destruct Hok as (_ & [Hst _] & _). by rewrite Hst in Hw.
    - destruct Hok as (_ & [Hst _] & _). by rewrite Hst in Hw.
    - destruct Hok as [Hok|[(code & Hg & _ & Hst & _)|(Hst & _)]]; [by split|..].
      + rewrite Hst, done_stat in Hw by done. destruct (code_bits code Hg) as (_ & _ & _ & ?). done.
      + by rewrite Hst in Hw.
    - destruct Hok as ([Hst _] & _). by rewrite Hst in Hw.
    - destruct Hok as ([Hst _] & _). by rewrite Hst in Hw. }
  destruct Hrun as (Hpc & -> & Hst & Hd & Hf & Hse).
  assert (Hgen : ∀ d' code buf sect e out, do_req (l_dev s) r = (d', e, out) → good_code code → e = lhd_code_to_errno code →
    out = (if (e =? 0) && negb (is_write r) then buf else []) →
    linv progs d0 (LSys (l_threads s) (lh_clear s) (lh_done s) (lh_result s) buf sect (if is_write r then Z.lor code LHD_ISWRITE else code) d')
      (l ++ [(i, (r, e, out))]) (Some (i, r, Some (e, out)))).
  { intros d' code buf sect e out Hdo Hg -> ->. destruct Hi as [H1 _ H3 H4 H5]. split.
    - by eapply se_snoc.
    - split; [done|]. exists th. split; [done|]. split; [done|]. rewrite Hpc. right. left. exists code. by split_and!.
    - intros j th' Hj Hn. apply (H3 j th' Hj). intros r' x' [= <- <- <-]. by destruct (Hn r (Some (lhd_code_to_errno code, if (lhd_code_to_errno code =? 0) && negb (is_write r) then buf else []))).
    - intros j th' Hj. rewrite of_thread_snoc, (H4 j th' Hj). cbn. by rewrite app_nil_r.
    - done. }
  rewrite Hst. destruct r as [n|n data]; cbn in Hse, Hf; rewrite Hse.
  - change (Z.land (statval (LRead n)) LHD_ISWRITE =? 0) with true. cbv iota. destruct (dev_read (l_dev s) n) as [[d' code] buf] eqn:E. intros [= <-].
    assert (Hg : good_code code) by (pose proof (Hgr (l_dev s) n) as Hg; by rewrite E in Hg).
    eexists _, _. eapply (Hgen d' code buf n); [|done|done|done]. cbn. unfold sector_read. rewrite E.
    destruct (Z.eqb_spec (lhd_code_to_errno code) 0) as [->|]; done.
  - change (Z.land (statval (LWrite n data)) LHD_ISWRITE =? 0) with false. cbv iota. rewrite Hf. destruct (dev_write (l_dev s) n data) as [d' code] eqn:E. intros [= <-].
    assert (Hg : good_code code) by (pose proof (Hgw (l_dev s) n data) as Hg; by rewrite E in Hg).
    eexists _, _. eapply (Hgen d' code data n); [|done|done|done]. cbn. unfold sector_write. rewrite E. by rewrite andb_false_r.
Qed.

Lemma irq_inv progs d0 s l own : linv progs d0 s l own → linv progs d0 (lhd_irq s) l own.
Proof.
  intros Hi. unfold lhd_irq. destruct (_ || _) eqn:E; [|done]. destruct Hi as [H1 H2 H3 H4 H5].
  assert (Hne : l_stat s ≠ LHD_IDLE) by (intros Hs; by rewrite Hs in E).
  assert (Hst : ∀ st, l_stat s = st → Z.land st LHD_STATEMASK ≠ LHD_WORKING) by (intros st <- Hw; by rewrite Hw in E).
  destruct own as [[[i r] x]|]; [|by destruct H2 as [_ [? _]]]. destruct H2 as (Hcl & th & Hth & Hhd & Hok).
  split; [done| |done|done|done]. split; [done|]. exists th. split; [done|]. split; [done|].
  destruct (lt_pc th) as [| | | | |e|e data]; cbn in Hok |- *; try done; try (by destruct Hok as (_ & [? _] & _)); try (by destruct Hok as [[? _] _]).
  - by destruct Hok as (_ & ? & _).
  - destruct Hok as [(_ & Hs & _)|[(code & Hg & Hd & Hs & ->)|(? & _)]]; [by destruct (Hst _ Hs); destruct r|..]; [|done].
    right. right. split; [done|]. split; [lia|]. rewrite Hs. destruct (code_bits code Hg) as (He & _). destruct r; cbn; by rewrite ?He.
Qed.

(** The states that the driver goes through. *)
Inductive lreach (s0 : lsys D) : lsys D → Prop :=
  | lr_start : lreach s0 s0
  | lr_step s s' : lreach s0 s → lstep s s' → lreach s0 s'.

(** Something can happen as long as a thread has something to do. *)
Lemma inv_progress progs d0 s l own i th :
  linv progs d0 s l own → l_threads s !! i = Some th → lt_todo th ≠ [] →
  (∃ j s', lhd_step j s = Some s') ∨ is_Some (dev_step s) ∨ lhd_irq s ≠ s.
Proof.
  intros [H1 H2 H3 H4 H5] Hth Htd. destruct own as [[[j r] x]|].
  2:{ left. exists i. destruct H2 as [Hc _]. unfold lhd_step. rewrite Hth. cbn [mbind option_bind]. destruct (lt_todo th) as [|r todo]; [done|]. cbn [head mbind option_bind].
      rewrite (H3 i th Hth) by done. rewrite Hc. by eexists. }
  destruct H2 as (Hc & th' & Hth' & Hhd & Hok). unfold lhd_step.
  destruct (lt_pc th') as [| | | | |e|e data] eqn:Hpc; [done|..]; try (left; exists j; rewrite Hth'; cbn [mbind option_bind]; rewrite Hhd; cbn [mbind option_bind]; rewrite Hpc; by eexists).
  destruct Hok as [(_ & Hs & _)|[(code & Hg & Hd & Hs & _)|(_ & Hd & _)]].
  - right. left. unfold dev_step. rewrite Hs. destruct r; cbn [statval is_write].
    + change (Z.land LHD_WORKING LHD_STATEMASK =? LHD_WORKING) with true. change (Z.land LHD_WORKING LHD_ISWRITE =? 0) with true. cbv iota.
      destruct (dev_read _ _) as [[]]. by eexists.
    + change (Z.land (Z.lor LHD_WORKING LHD_ISWRITE) LHD_STATEMASK =? LHD_WORKING) with true. change (Z.land (Z.lor LHD_WORKING LHD_ISWRITE) LHD_ISWRITE =? 0) with false. cbv iota.
      destruct (dev_write _ _ _). by eexists.
  - right. right. unfold lhd_irq. rewrite Hs, done_stat by done. assert ((code =? LHD_OK) || (code =? LHD_INVSECT) || (code =? LHD_MEDIA) = true) as -> by by destruct Hg as [->|[->| ->]].
    intros E. apply (f_equal lh_done) in E. cbn in E. lia.
  - left. exists j. rewrite Hth'. cbn [mbind option_bind]. rewrite Hhd. cbn [mbind option_bind]. rewrite Hpc, Hd. by eexists.
Qed.

Lemma lhd_start_inv progs buf d0 : linv progs d0 (lhd_start progs buf d0) [] None.
Proof.
  assert (Hth : ∀ i th, l_threads (lhd_start progs buf d0) !! i = Some th → ∃ reqs, progs !! i = Some reqs ∧ th = LThread [] reqs AtClear).
  { intros i th. cbn. rewrite list_lookup_fmap. destruct (progs !! i) as [reqs|]; [|done]. intros [= <-]. by exists reqs. }
  split; [constructor|done| | |].
  - intros j th (reqs & _ & ->)%Hth _. done.
  - by intros j th (reqs & _ & ->)%Hth.
  - intros j th (reqs & Hr & ->)%Hth. exists reqs. split; [done|]. exists reqs. split; [done|]. left. by split.
Qed.

Lemma reach_inv progs buf d0 s : dev_ok → lreach (lhd_start progs buf d0) s → ∃ l own, linv progs d0 s l own.
Proof.
  intros Hdev. induction 1 as [|s s' _ (l & own & Hi) Hst]; [by eexists _, _; apply lhd_start_inv|]. destruct Hst as [i s s' Hst|s s' Hst|s].
  - destruct (thread_step_inv _ _ _ _ _ _ _ Hi Hst) as [own' ?]. by eexists _, _.
  - destruct (dev_step_inv _ _ _ _ _ _ Hdev Hi Hst) as (e & own' & ?). by eexists _, _.
  - eexists _, _. by apply irq_inv.
Qed.

End lhd.

(** ** Theorems *)

(** C36: the disk driver is atomic.  However the threads in [lhd_io], the device and the interrupt handler interleave, there is an order in
    which the requests for sectors have been done one after the other, each as the single action [hw_read] or [hw_write] that
    Sfs.v is over, that led to the present state of the device; and every thread has from its requests, in its own order
    and up to the first error, exactly the results of that order: no request is lost or done twice, no data and no result go to
    another thread.  At most one thread is between P and V of [lh_clear]. *)
Theorem lhd_atomic {D} (dev_read : D → Z → D * Z * list Z) (dev_write : D → Z → list Z → D * Z) progs buf d0 s :
  dev_ok dev_read dev_write → lreach dev_read dev_write (lhd_start progs buf d0) s →
  ∃ l, serial dev_read dev_write d0 l (l_dev s) ∧
    (∀ i th, l_threads s !! i = Some th → lt_pc th = AtClear →
       of_thread i l = lt_past th ∧ ∃ reqs, progs !! i = Some reqs ∧ progress reqs th) ∧
    (∀ i j th th', l_threads s !! i = Some th → l_threads s !! j = Some th' → lt_pc th ≠ AtClear → lt_pc th' ≠ AtClear → i = j).
Proof.
  intros Hdev Hr. destruct (reach_inv _ _ _ _ _ _ Hdev Hr) as (l & own & Hi). exists l. split; [apply Hi|]. split.
  - intros i th Hth Hpc. split; [|by apply (li_progs _ _ _ _ _ _ _ Hi)]. rewrite (li_past _ _ _ _ _ _ _ Hi i th Hth).
    destruct own as [[[j r] x]|]; [|apply app_nil_r]. destruct x as [[e out]|]; [|apply app_nil_r]. cbn. destruct (decide (j = i)) as [->|]; [|apply app_nil_r].
    destruct (li_owned _ _ _ _ _ _ _ Hi) as (_ & th' & Hth' & _ & Hok). assert (th' = th) as -> by congruence. by rewrite Hpc in Hok.
  - intros i j th th' Hth Hth' Hpc Hpc'. destruct (owner_is _ _ _ _ _ _ _ _ _ Hi Hth Hpc) as (r & x & ->).
    destruct (owner_is _ _ _ _ _ _ _ _ _ Hi Hth' Hpc') as (r' & x' & [= <- _ _]). done.
Qed.

(** No deadlock: as long as a thread has sectors to transfer, a thread, the device or the interrupt handler can go on. *)
Theorem lhd_no_deadlock {D} (dev_read : D → Z → D * Z * list Z) (dev_write : D → Z → list Z → D * Z) progs buf d0 s i th :
  dev_ok dev_read dev_write → lreach dev_read dev_write (lhd_start progs buf d0) s → l_threads s !! i = Some th → lt_todo th ≠ [] →
  (∃ j s', lhd_step j s = Some s') ∨ is_Some (dev_step dev_read dev_write s) ∨ lhd_irq s ≠ s.
Proof. intros Hdev Hr. destruct (reach_inv _ _ _ _ _ _ Hdev Hr) as (l & own & Hi). by apply (inv_progress dev_read dev_write progs d0 s l own). Qed.

(** ** A run: sector 3 is written by one thread while another one waits to read it; sector 9 cannot be read. *)

Definition demo_read (d : Z → list Z) (n : Z) : (Z → list Z) * Z * list Z := if n =? 9 then (d, LHD_MEDIA, []) else (d, LHD_OK, d n).
Definition demo_write (d : Z → list Z) (n : Z) (data : list Z) : (Z → list Z) * Z := ((λ k, if k =? n then data else d k), LHD_OK).

Lemma demo_dev_ok : dev_ok demo_read demo_write.
Proof. split; intros; [unfold demo_read; destruct (n =? 9)|]; unfold good_code; cbn; tauto. Qed.

Inductive levent := EThread (i : nat) | EDevice | EIrq.
Fixpoint lrun (es : list levent) (s : lsys (Z → list Z)) : option (lsys (Z → list Z)) :=
  match es with
  | [] => Some s
  | e :: es' =>
      s' ← (match e with EThread i => lhd_step i s | EDevice => dev_step demo_read demo_write s | EIrq => Some (lhd_irq s) end);
      lrun es' s'
  end.

Lemma lrun_reach es s0 s s' : lreach demo_read demo_write s0 s → lrun es s = Some s' → lreach demo_read demo_write s0 s'.
Proof.
  revert s. induction es as [|e es IH]; intros s Hr; cbn [lrun]; [by intros [= <-]|].
  destruct e as [i| |]; cbn [mbind option_bind].
  - destruct (lhd_step i s) as [s1|] eqn:E; [|done]. apply IH. eapply lr_step; [done|]. by eapply ls_thread.
  - destruct (dev_step demo_read demo_write s) as [s1|] eqn:E; [|done]. apply IH. eapply lr_step; [done|]. by eapply ls_device.
  - apply IH. eapply lr_step; [done|]. apply ls_irq.
Qed.

Definition demo_progs : list (list lreq) := [[LWrite 3 [7; 8]; LRead 9; LRead 1]; [LRead 3]].
Definition lround (i : nat) : list levent := [EThread i; EThread i; EThread i; EIrq; EThread i; EDevice; EIrq; EThread i; EThread i; EThread i].
Definition demo_disk_start : lsys (Z → list Z) := lhd_start demo_progs [] (λ _, []).

Lemma lhd_atomic_witness :
  ∃ s l, lrun (lround 0 ++ lround 1 ++ lround 0) demo_disk_start = Some s ∧ serial demo_read demo_write (λ _, []) l (l_dev s) ∧
    of_thread 0 l = [(LWrite 3 [7; 8], 0, []); (LRead 9, EIO, [])] ∧ of_thread 1 l = [(LRead 3, 0, [7; 8])].
Proof.
  destruct (lrun (lround 0 ++ lround 1 ++ lround 0) demo_disk_start) as [s|] eqn:E; [|exfalso; vm_compute in E; discriminate].
  destruct (lhd_atomic demo_read demo_write demo_progs [] (λ _, []) s demo_dev_ok) as (l & Hs & Hp & _).
  { eapply lrun_reach; [apply lr_start|exact E]. }
  exists s, l. split; [reflexivity|]. split; [exact Hs|]. vm_compute in E. injection E as <-.
  split; [exact (proj1 (Hp 0%nat _ eq_refl eq_refl))|exact (proj1 (Hp 1%nat _ eq_refl eq_refl))].
Defined.
